(* ===== verification/_CoqProject ===== *)
-Q . S2P
Prelude.v
ZTables.v
RaftTypes.v
RaftQueue.v
RaftNode.v
RaftCommit.v
RaftInv.v
RaftElection.v
RaftApplied.v
WkProto.v
RaftCodec.v
RaftWait.v
RaftDriver.v
RaftWake.v
GroupQueue.v
GroupList.v
GroupWait.v
RaftGroup.v
GroupWake.v
KeyBytes.v
RaftCodecTyped.v
ClusterConfig.v
ClusterConfigLaws.v
ClusterCommands.v
ClusterProps.v
ClusterEvents.v
ClusterEventsLaws.v
ClusterEventsProps.v
WkTables.v
WkKey.v
WkKeyLaws.v
WkKv.v
WkPermission.v
WkMembers.v
WkMembersLaws.v
WkMembersScan.v
WkMembersCache.v
WkMembersRefine.v
WkMembersProps.v
WkModel.v
StoreCmd.v
StoreCmdLaws.v
StoreApply.v
StorePropose.v
StoreCalls.v
StoreCallsLaws.v
StoreBatch.v
StoreSave.v
StoreProps.v
SlotStorage.v
SlotStorageLaws.v
SlotStorageRefine.v
SlotStorageProps.v
SlotServer.v
SlotServerProps.v
WkMessages.v
WkMessageDB.v
WkMessagesLaws.v
WkMessagesRep.v
WkMessagesRefine.v
WkMessagesProps.v
ChannelKeys.v
ChannelApplied.v
WkApplied.v
ChannelAppliedProps.v
WkLeaderTerm.v
ChannelStorage.v
ChannelServer.v
ChannelStorageRep.v
ChannelStorageRefine.v
ChannelStorageProps.v
ChannelServerProps.v
ClusterRpc.v
ClusterRpcLaws.v
ClusterRpcProps.v
ClusterElection.v
ClusterElectionLaws.v
ClusterElectionProps.v
