(* ===== verification/Prelude.v ===== *)
(** * WuKongIM: a verification development

    WuKongIM is an instant-messaging server.  Its nodes replicate what they store
    with Raft ([src/pkg/raft]), organised in groups of rafts that share one event
    loop ([src/pkg/raft/raftgroup]): one group for the slots, one for the channels
    ([src/pkg/cluster]).  The nodes agree on a configuration of the cluster, which
    says where the slots are ([cluster/node]); a change of the database is proposed
    to a slot as a command ([cluster/store]) and applied by its replicas to a
    database of tables over an ordered key-value store ([src/pkg/wkdb]).
    Connections, the HTTP interface and the handling of messages ([src/internal])
    sit on top.

    The development models Raft and its groups, the configuration of the cluster
    and the events of its leader, the slots with their log storage, the commands of
    the store, the keys and tables of the database, the member lists of the channels
    with their cache, the table of messages, the rafts of the channels whose logs
    are these messages, and the requests between nodes with the elections that use
    them.

    ** Files and sources

    - [Prelude]: machine integers with their wrap-around, the result type [res] of
      code that may panic or exhaust fuel ([Ok], [Panic], [NoFuel]), tactics, hint
      databases and shared lemmas.  [ZTables]: ordered scans of tables whose rows have
      numbers.
    - [RaftTypes]: the types of [raft/types] and [raft/track].
    - [RaftQueue]: [raft/raft/queue.go], the logs that are not stored yet.
    - [RaftNode]: [raft/raft/node*.go], the event-driven node; [RaftCommit] (the
      commit rule), [RaftInv] (invariants), [RaftElection] (votes, elections,
      timers) and [RaftApplied] (what moves the applied index) are about it.
    - [WkProto]: big-endian integers, and the interface of the encoder [wkproto],
      whose source is elsewhere: a class with laws and an instance.  [RaftCodec]:
      the codecs of [raft/types] and [raft/track].  [RaftCodecTyped]: decoding
      arbitrary bytes.
    - [RaftWait], [RaftDriver]: [raft/raft/wait.go], [raft.go], [raft_propose.go];
      the loop, the tasks of the pool and the callers are separate steps
      ([dstep]).  [RaftWake]: waiting for proposals, over all interleavings.
    - [GroupQueue], [GroupList], [GroupWait], [RaftGroup]: the files of
      [raft/raftgroup]; the arrays of the queue, the pointers of the list and the
      recycled records of the waiters are kept in stores, with their sharing.
      [GroupWake]: the group, its workers and its proposers as one step relation
      ([gstep]).
    - [ClusterConfig], [ClusterConfigLaws], [ClusterCommands], [ClusterProps]:
      [cluster/node/clusterconfig], the configuration as a replicated state machine:
      its commands with their codecs, their application and their proposal.
      [ClusterEvents], [ClusterEventsLaws], [ClusterEventsProps]:
      [cluster/node/event], what the leader does on a tick and on a message.
    - [KeyBytes], [WkTables], [WkKey], [WkKeyLaws]: [wkdb/key]; slices written in
      place, the tables, every function that makes or parses a key, and what keys
      stand for.
    - [WkKv]: the key-value store (Pebble) and the LRU cache as classes with laws
      and instances.  [WkPermission]: [wkdb/cache_permission.go].  [WkMembers]:
      [wkdb/subscriber.go], [denylist.go], [allowlist.go] and the counts of
      [channel.go].  [WkMembersLaws], [WkMembersScan], [WkMembersCache],
      [WkMembersRefine], [WkMembersProps]: rows, scans, cached answers, and the
      refinement of abstract lists.
    - [WkModel]: the records of [wkdb/model.go] that travel through logs, and their
      encodings.
    - [StoreCmd], [StoreApply], [StorePropose], [StoreCalls]: [cluster/store]; the
      commands and their codecs, what a replica does with a log, what a method of
      the store proposes, and the methods as one type of calls.  [StoreCmdLaws]
      (round trips), [StoreCallsLaws] (a proposal carries its call), [StoreBatch]
      (logs in batches), [StoreSave] (the workers that save channel configurations,
      as a state machine), [StoreProps].
    - [SlotStorage]: [cluster/slot/storage_pebble.go] and [slot/key], the logs of the
      slots in the stores of [WkKv].  [SlotStorageLaws] (keys, and a slot as an
      abstract object), [SlotStorageRefine] (each operation), [SlotStorageProps]
      (sequences of operations).  [SlotServer], [SlotServerProps]:
      [cluster/slot/server.go], [slot.go], [event.go], on [RaftGroup],
      [ClusterConfig] and the storage.
    - [WkMessages], [WkMessageDB]: [wkdb/message.go] with its caches
      ([cache_channel_seq.go], [cache_user_last_msg_seq.go]) and the part of
      [search_outbox.go] that an append and a truncation reach; the columns of a row,
      then the operations.  [WkMessagesLaws] (rows), [WkMessagesRep] (what a store
      holds of a channel), [WkMessagesRefine] (each operation), [WkMessagesProps]
      (sequences of operations).
    - [WkLeaderTerm], [ChannelStorage], [ChannelServer]:
      [wkdb/leader_term_sequence.go], [cluster/channel/storage.go] and [channel.go];
      the logs of a channel as rows of the messages, and its raft on [RaftNode].
      [ChannelStorageRep], [ChannelStorageRefine], [ChannelStorageProps],
      [ChannelServerProps]: the refinement of abstract channels, and the raft that is
      made from what is stored.
    - [ChannelKeys], [ChannelApplied], [WkApplied], [ChannelAppliedProps]:
      [wkutil/channel.go], [cluster/channel/search_applied_observer.go] and the applied
      index of [wkdb/channel.go]; the observer, its callers and its worker as one step
      relation ([obs_step]).
    - [ClusterRpc], [ClusterRpcLaws], [ClusterRpcProps]: [cluster/cluster/model.go],
      [rpc_server.go] and [rpc_client.go], the requests between nodes.  The transport
      delivers a request and its answer or loses one of them ([fate]).
      [ClusterElection], [ClusterElectionLaws], [ClusterElectionProps]:
      [election_slot.go] and [election_channel.go], elections by the logs of the nodes
      that answer, and the configurations of the channels.

    A comment [[path.go] [symbol]] in front of a definition names the code that it
    translates; names are those of the source, with a prefix where two files have
    the same one.

    ** Interfaces

    [Storage] and [GStorage] (the storage of a raft and of a group), [WkProto] with
    [WkProtoLaws], [WkProtoTypes] and [WkProtoInt32], [Frames] (packets), [Protobuf]
    and [Json], [Pebble] with [PebbleLaws], [LRU] with [LRULaws], [MapRange] and
    [StrRange] (the order in which Go visits a map), [MemberTable] with [TableLaws]
    (what a member list needs of its table), [Wdb] (the database as the store calls
    it; the member lists are an instance), [RecvPackets] and [RowPackets] (a packet, and
    what a row keeps of it), [AppliedDB] (the database as the observer calls it; the
    table of channels is an instance), [RpcNode] (a node as its server calls it),
    [SlotService] (the slot of a key),
    [SaveSchedule] (how the workers cut what they save) and [Slots] (the slots in
    use).  Theorems about a client are proved from the laws; every class has an
    instance, with which the examples are evaluated.  Whether the worker pool takes a
    task, what a clock reads, how a slice grows and what a [sync.Pool] returns are
    arguments.

    ** Theorems

    - Raft node: a preserved invariant for all events an environment may deliver, and
      no panic but at an answer of the storage that a truncation has overtaken;
      monotone term and indexes, the commit rule (safety, progress, termination), the
      rule of votes, a leader has the votes of a majority, timers, the published
      snapshot.
    - Queue and storage refine one log.
    - Codecs: round trips, and well-typed results on arbitrary bytes.
    - Driver: the point a replica truncates to, exact wake-up of proposals over all
      interleavings.
    - Groups: event queue, list and waiters refine abstract ones; the limit of the
      queue; no proposer is forgotten or woken early over all interleavings.
    - Configuration of the cluster: proposals take effect as they say, an invariant
      of all reachable configurations; rounds of events of the leader do not panic and
      keep it, from the first configuration on; the leader counts how long a node was
      silent.
    - Requests between nodes are calls on the node that answers; elections of slots
      and channels by logs keep what a majority has stored, if the terms that nodes
      report fit their logs.
    - Store: from a call over its proposal to the calls of the database; batches lose
      and invent nothing; every channel configuration is saved once and gets the result
      of its batch, over all interleavings of the workers; replicated member lists, which composes
      the store with the database.
    - Slots: the log storage refines abstract logs with failing stores; a slot can
      be started from whatever is stored; the rafts of a node follow the
      configuration of the cluster.
    - Keys: different things have different keys, keys are parsed back, scans are
      exact.
    - Member lists: every sequence of calls refines three abstract lists, with
      failing reads and commits, any number of shards, evictions and expiry.
    - Messages: every sequence of appends, truncations and loads refines abstract
      channels, with failing reads and commits and any number of shards.
    - Channels: the storage of their rafts refines abstract logs with their terms, the
      start of the search and the applied index;
      logs that are read on one node and stored on another carry the messages over; a
      raft can be made from whatever is stored; a configuration of an older term is
      refused; an applied index that the observer has accepted is written, on its way,
      or reported as lost, and is settled when the database does not fail, over all
      interleavings.
    - Defects of the code, each shown by an evaluated run: a panic when a truncation
      overtakes a store, two leaders in one term, elections that depend on the order of
      a map,
      a vote for an older log, a commit that falls short or counts learners, stale
      pending logs, overwritten events, a blocked loop, a shadowed proposal, a
      silenced replica, an offline leader that is never replaced, results that
      depend on the size of a batch, an older configuration that is saved last, a
      read position sent to the wrong slot, a configuration a raft is not told of, a
      term without its logs, key bounds that cannot work, a stale cached answer,
      drifting counts, colliding cache keys, names of channels that cannot be parsed
      back and a stale configuration that is installed with the current term.

    ** Fuel and bounds

    Loops that are not structural have fuel, and running out of it is the value
    [NoFuel], which the theorems exclude: [append] of the queue needs one nested
    call; the loop of [committedIndexForLeader] one round per sync record, plus
    one; [gclean] one round per record; the loops over the linked list one per
    node; [SlotSet_loop] one round per byte, since a slot is at least one.  Integers
    have their Go width; [int] is 64 bits.  The theorems about the queue assume
    indexes below 2^64 - 1, those about the slots also terms below 2^32 - 1, which
    are the upper bounds of the scans.  A call of the store has to fit its encoding
    ([call_fits]: counts and lengths within their width).  The member lists assume
    that the channels and users in use have distinct, non-zero hashes, that channel
    ids have no colon, and times after 1970; [permission_keys_collide] shows why the
    colon matters.  The slots in use have distinct hashes ([Slots]), which is checked
    for the 64 slots of the default configuration.

    ** Not modelled

    Logging, metrics and tracing; the restart of a loop after a panic; the mutexes
    of operations that are modelled as one step; opening and closing stores and the
    file of the configuration; the error of saving that file after a log was applied
    (the code returns it, and does not announce the change); the stop of goroutines, but
    for that of a tick.  Of the database, the tables
    of conversations, users, devices and plugins, the records of the channels, the
    searches over all channels and the worker of the search outbox (their keys are
    modelled); they repeat the patterns of the tables that are modelled, with more
    columns and cached rows.  Of the cluster, the server of the channels (waking,
    proposals over several groups) and the transport.  [src/internal], the network engine, the HTTP interface,
    tools, web pages and demos, which are input and output or compose parts that are
    not modelled.

    What would come next, in this order: the proposals of the server of the channels;
    conversations, devices and users of [wkdb]; the transport between the nodes. *)

From Stdlib Require Export ZArith Lia.
From stdpp Require Export strings option base gmap list.

Open Scope Z_scope.

(** ** Machine integers

    Go's unsigned integers are modelled by [Z] with the wrap-around of every
    arithmetic operation written out; [int] is 64 bits wide. *)

Declare Scope go_scope.
Delimit Scope go_scope with go.

Abbreviation two8 := 256%Z (only parsing).
Abbreviation two16 := 65536%Z (only parsing).
Abbreviation two32 := 4294967296%Z (only parsing).
Abbreviation two63 := 9223372036854775808%Z (only parsing).
Abbreviation two64 := 18446744073709551616%Z (only parsing).

Definition u8 (z : Z) : Z := z mod two8.
Definition u16 (z : Z) : Z := z mod two16.
Definition u32 (z : Z) : Z := z mod two32.
Definition u64 (z : Z) : Z := z mod two64.
Definition i32 (z : Z) : Z := (z + 2147483648) mod two32 - 2147483648.
Definition i64 (z : Z) : Z := (z + two63) mod two64 - two63.

Definition is_u8 (z : Z) : Prop := 0 <= z < two8.
Definition is_u16 (z : Z) : Prop := 0 <= z < two16.
Definition is_u32 (z : Z) : Prop := 0 <= z < two32.
Definition is_u64 (z : Z) : Prop := 0 <= z < two64.
Definition is_i64 (z : Z) : Prop := - two63 <= z < two63.

Notation "a +64 b" := (u64 (a + b)) (at level 50, left associativity) : go_scope.
Notation "a -64 b" := (u64 (a - b)) (at level 50, left associativity) : go_scope.
Open Scope go_scope.

#[export] Instance is_u8_dec z : Decision (is_u8 z).
Proof. unfold is_u8. apply _. Defined.
#[export] Instance is_u16_dec z : Decision (is_u16 z).
Proof. unfold is_u16. apply _. Defined.
#[export] Instance is_u32_dec z : Decision (is_u32 z).
Proof. unfold is_u32. apply _. Defined.
#[export] Instance is_u64_dec z : Decision (is_u64 z).
Proof. unfold is_u64. apply _. Defined.

(** A proposition equivalent to a decidable one is decidable. *)
Definition decision_iff {P Q : Prop} (H : P <-> Q) (d : Decision Q) : Decision P :=
  match d with
  | left q => left (proj2 H q)
  | right nq => right (fun p => nq (proj1 H p))
  end.

(** Proves a decidable proposition by running its decision procedure. *)
Ltac decide_goal := apply (bool_decide_unpack _); vm_compute; exact I.

Lemma u8_small z : is_u8 z -> u8 z = z.
Proof. apply Z.mod_small. Qed.

Lemma u16_small z : is_u16 z -> u16 z = z.
Proof. apply Z.mod_small. Qed.

Lemma u32_small z : is_u32 z -> u32 z = z.
Proof. apply Z.mod_small. Qed.

Lemma u64_small z : is_u64 z -> u64 z = z.
Proof. apply Z.mod_small. Qed.

Lemma i64_small z : is_i64 z -> i64 z = z.
Proof. unfold is_i64, i64. intros. rewrite Z.mod_small; lia. Qed.

Lemma u8_range z : is_u8 (u8 z).
Proof. apply Z.mod_pos_bound; lia. Qed.

Lemma u16_range z : is_u16 (u16 z).
Proof. apply Z.mod_pos_bound; lia. Qed.

Lemma u32_range z : is_u32 (u32 z).
Proof. apply Z.mod_pos_bound; lia. Qed.

Lemma u64_range z : is_u64 (u64 z).
Proof. apply Z.mod_pos_bound; lia. Qed.

Create HintDb go_ints.
#[export] Hint Resolve u8_range u16_range u32_range u64_range : go_ints.

(** [ints] normalises the machine arithmetic of the goal and the hypotheses
    into linear arithmetic and calls [lia]. *)
Ltac ints_pose :=
  repeat match goal with
  | |- context [u64 ?z] =>
      lazymatch goal with
      | _ : is_u64 (u64 z) |- _ => fail
      | _ => pose proof (u64_range z); pose proof (Z.div_mod z two64 ltac:(lia))
      end
  | _ : context [u64 ?z] |- _ =>
      lazymatch goal with
      | _ : is_u64 (u64 z) |- _ => fail
      | _ => pose proof (u64_range z); pose proof (Z.div_mod z two64 ltac:(lia))
      end
  end.

Ltac ints :=
  ints_pose;
  unfold is_u8, is_u16, is_u32, is_u64, is_i64, u8, u16, u32, u64, i64 in *;
  lia.

(** Rewrites one wrapped expression whose value is provably in range. *)
Ltac u64_simpl :=
  repeat match goal with
  | |- context [u64 ?z] => rewrite (u64_small z) by (unfold is_u64 in *; lia)
  | H : context [u64 ?z] |- _ =>
      rewrite (u64_small z) in H by (unfold is_u64 in *; lia)
  end.

(** ** Outcomes of a Go function

    [Panic] is a Go panic (the code's own [Panic] calls, an index or slice
    bound out of range, a nil dereference); [NoFuel] marks a loop whose bound
    in the model was not enough, and is proved unreachable wherever a bound
    is used. *)
Inductive res (A : Type) : Type :=
| Ok (a : A)
| Panic
| NoFuel.
Arguments Ok {A} a.
Arguments Panic {A}.
Arguments NoFuel {A}.

Definition res_bind {A B} (m : res A) (f : A -> res B) : res B :=
  match m with
  | Ok a => f a
  | Panic => Panic
  | NoFuel => NoFuel
  end.

Notation "'let!' x ':=' m 'in' k" := (res_bind m (fun x => k))
  (at level 10, x pattern, m at level 100, k at level 200) : go_scope.

Lemma res_bind_Ok {A B} (m : res A) (f : A -> res B) b :
  res_bind m f = Ok b <-> exists a, m = Ok a /\ f a = Ok b.
Proof.
  destruct m as [a| |]; simpl; split.
  - intros H. exists a. auto.
  - intros (a' & [= ->] & H). exact H.
  - discriminate.
  - intros (a' & [=] & _).
  - discriminate.
  - intros (a' & [=] & _).
Qed.

Definition is_Ok {A} (m : res A) : Prop := exists a, m = Ok a.

(** [m] returns, and its result satisfies [Q]. *)
Definition returns {A} (m : res A) (Q : A -> Prop) : Prop :=
  exists a, m = Ok a /\ Q a.

(** If [m] returns, its result satisfies [Q]. *)
Definition if_returns {A} (m : res A) (Q : A -> Prop) : Prop :=
  forall a, m = Ok a -> Q a.

Lemma returns_bind {A B} (m : res A) (f : A -> res B) P Q :
  returns m P -> (forall a, P a -> returns (f a) Q) -> returns (res_bind m f) Q.
Proof. intros (a & -> & Ha) Hf. simpl. auto. Qed.

Lemma if_returns_bind {A B} (m : res A) (f : A -> res B) P Q :
  if_returns m P -> (forall a, P a -> if_returns (f a) Q) ->
  if_returns (res_bind m f) Q.
Proof. intros Hm Hf b (a & Ha & Hb)%res_bind_Ok. eapply Hf; eauto. Qed.

(** ** Go slices *)

(** [s[lo:]]; out of range it panics. *)
Definition slice_from {A} (s : list A) (lo : Z) : res (list A) :=
  if (0 <=? lo) && (lo <=? Z.of_nat (length s))
  then Ok (drop (Z.to_nat lo) s) else Panic.

(** [s[:hi]].  Go allows [hi] up to the capacity of [s]; the model panics
    beyond the length, and the clients prove that this never happens. *)
Definition slice_to {A} (s : list A) (hi : Z) : res (list A) :=
  if (0 <=? hi) && (hi <=? Z.of_nat (length s))
  then Ok (take (Z.to_nat hi) s) else Panic.

Lemma slice_from_Ok {A} (s : list A) lo :
  0 <= lo <= Z.of_nat (length s) -> slice_from s lo = Ok (drop (Z.to_nat lo) s).
Proof.
  intros. unfold slice_from.
  destruct (Z.leb_spec 0 lo), (Z.leb_spec lo (Z.of_nat (length s))); simpl; auto; lia.
Qed.

Lemma slice_to_Ok {A} (s : list A) hi :
  0 <= hi <= Z.of_nat (length s) -> slice_to s hi = Ok (take (Z.to_nat hi) s).
Proof.
  intros. unfold slice_to.
  destruct (Z.leb_spec 0 hi), (Z.leb_spec hi (Z.of_nat (length s))); simpl; auto; lia.
Qed.

(** [len(s)] as an integer. *)
Abbreviation len s := (Z.of_nat (length s)).

(** Case analysis on the comparisons of the goal, and on its [if]s. *)
Ltac zcases :=
  repeat match goal with
  | |- context [Z.eqb ?a ?b] => destruct (Z.eqb_spec a b)
  | |- context [Z.ltb ?a ?b] => destruct (Z.ltb_spec a b)
  | |- context [Z.leb ?a ?b] => destruct (Z.leb_spec a b)
  | H : context [Z.eqb ?a ?b] |- _ => destruct (Z.eqb_spec a b)
  | H : context [Z.ltb ?a ?b] |- _ => destruct (Z.ltb_spec a b)
  | H : context [Z.leb ?a ?b] |- _ => destruct (Z.leb_spec a b)
  end.

(** Splits the first [match] found in the goal or in hypothesis [H]. *)
Ltac split_match :=
  match goal with
  | |- context [match ?x with _ => _ end] => destruct x eqn:?
  end.

Ltac split_match_in H :=
  match type of H with
  | context [match ?x with _ => _ end] => destruct x eqn:?
  end.

(** ** Counting *)

Section Counting.
Context {A : Type} (P Q : A -> Prop)
  {HPdec : forall x, Decision (P x)} {HQdec : forall x, Decision (Q x)}.

Lemma filter_length_le (l : list A) :
  (forall x, x ∈ l -> P x -> Q x) ->
  (length (filter P l) <= length (filter Q l))%nat.
Proof.
  induction l as [|x l IH]; intros H; simpl; [done|].
  assert (IH' := IH (fun y Hy => H y ltac:(by constructor))).
  rewrite !filter_cons. specialize (H x ltac:(constructor)).
  repeat case_decide; simpl; try lia. exfalso. auto.
Qed.

Lemma filter_all (l : list A) : Forall P l -> filter P l = l.
Proof.
  induction 1 as [|x l Hx _ IH]; [done|]. rewrite filter_cons_True by done. by f_equal.
Qed.

Lemma filter_ext_in (l : list A) :
  (forall x, x ∈ l -> P x <-> Q x) -> filter P l = filter Q l.
Proof.
  induction l as [|x l IH]; intros H; [done|].
  assert (IH' := IH (fun y Hy => H y ltac:(by constructor))).
  specialize (H x ltac:(constructor)). rewrite !filter_cons.
  repeat case_decide; try tauto; by rewrite IH'.
Qed.

Lemma filter_length_lt (l : list A) :
  (forall x, x ∈ l -> P x -> Q x) ->
  (exists x, x ∈ l /\ Q x /\ ~ P x) ->
  (length (filter P l) < length (filter Q l))%nat.
Proof.
  induction l as [|x l IH]; intros H (y & Hy & HQ & HP); simpl.
  - by apply not_elem_of_nil in Hy.
  - assert (Hle := filter_length_le l (fun y Hy => H y ltac:(by constructor))).
    rewrite !filter_cons. apply elem_of_cons in Hy as [->|Hy].
    + repeat case_decide; simpl; try lia; tauto.
    + assert (IH' := IH (fun y Hy => H y ltac:(by constructor))
                        (ex_intro _ y (conj Hy (conj HQ HP)))).
      specialize (H x ltac:(constructor)).
      repeat case_decide; simpl; try lia. exfalso. auto.
Qed.
End Counting.
