(* ===== verification/ZTables.v ===== *)
(** * Tables with integer keys

    What an ordered scan of a table whose rows have numbers returns. *)

From Stdlib Require Import Sorting.Sorted.
From S2P Require Import Prelude.

(** ** Tables by number *)

Section Tables.
Context {V : Type}.
Implicit Types m : gmap Z V.

(** The largest number with an entry, or 0. *)
Definition top m : Z := foldr Z.max 0 (map_to_list m).*1.
(** The entries from [lo] up to, and without, [hi], in order. *)
Definition range_of m (lo hi : Z) : list (Z * V) :=
  omap (fun i => pair i <$> m !! i) (seqZ lo (Z.min hi (top m + 1) - lo)).

Lemma foldr_max_ge (l : list Z) i : i ∈ l -> i <= foldr Z.max 0 l.
Proof. induction 1 as [|? ? ? _ IH]; simpl; lia. Qed.
Lemma foldr_max_in (l : list Z) : foldr Z.max 0 l = 0 \/ foldr Z.max 0 l ∈ l.
Proof.
  induction l as [|x l IH]; simpl; [by left|].
  destruct (Z.max_spec x (foldr Z.max 0 l)) as [[_ ->]|[_ ->]]; [|right; left].
  destruct IH as [->|IH]; [by left|right; by right].
Qed.

Lemma keys_elem m i : i ∈ (map_to_list m).*1 <-> is_Some (m !! i).
Proof.
  rewrite list_elem_of_fmap. split.
  - intros ([j v] & -> & Hin%elem_of_map_to_list). eauto.
  - intros [v Hv]. exists (i, v). split; [done|]. by apply elem_of_map_to_list.
Qed.
Lemma top_ge m i v : m !! i = Some v -> i <= top m.
Proof. intros Hv. apply foldr_max_ge, keys_elem. eauto. Qed.
Lemma top_in m : top m = 0 \/ is_Some (m !! top m).
Proof. destruct (foldr_max_in (map_to_list m).*1) as [?|?%keys_elem]; [by left|by right]. Qed.
Lemma top_nonneg m : 0 <= top m.
Proof. unfold top. induction (_.*1) as [|x l IH]; simpl; lia. Qed.

Lemma range_elem m lo hi i v : (i, v) ∈ range_of m lo hi <-> lo <= i < hi /\ m !! i = Some v.
Proof.
  unfold range_of. rewrite list_elem_of_omap. split.
  - intros (j & Hj%elem_of_seqZ & E). destruct (m !! j) as [w|] eqn:Hw; [|done]. injection E as -> ->. split; [lia|done].
  - intros [Hi Hv]. exists i. rewrite elem_of_seqZ, Hv. pose proof (top_ge m i v Hv). split; [lia|done].
Qed.

Lemma omap_sorted m (l : list Z) :
  StronglySorted Z.lt l -> StronglySorted (fun p q => p.1 < q.1) (omap (fun i => pair i <$> m !! i) l).
Proof.
  induction 1 as [|i l _ IH Hi]; simpl; [constructor|]. destruct (m !! i) as [v|] eqn:Hv; simpl; [|done].
  constructor; [done|]. apply Forall_forall. intros [j w] (k & Hk & E)%list_elem_of_omap.
  destruct (m !! k); [|done]. injection E as -> _. rewrite Forall_forall in Hi. by apply Hi.
Qed.
Lemma seqZ_sorted lo n : StronglySorted Z.lt (seqZ lo n).
Proof.
  unfold seqZ. remember (Z.to_nat n) as k eqn:Ek. clear Ek. generalize 0%nat as j. revert k lo.
  induction k as [|k IH]; intros lo j; cbn [seq fmap list_fmap]; constructor; [apply IH|].
  apply Forall_forall. intros x (y & -> & Hy%elem_of_seq)%list_elem_of_fmap. lia.
Qed.
Lemma range_sorted m lo hi : StronglySorted (fun p q => p.1 < q.1) (range_of m lo hi).
Proof. apply omap_sorted, seqZ_sorted. Qed.

Lemma range_length m lo hi : (length (range_of m lo hi) <= Z.to_nat (hi - lo))%nat.
Proof.
  assert (H : forall (l : list Z), (length (omap (fun i => pair i <$> m !! i) l) <= length l)%nat).
  { induction l as [|i l IH]; cbn; [done|]. destruct (m !! i); cbn; lia. }
  unfold range_of. etrans; [apply H|]. rewrite length_seqZ. lia.
Qed.
Lemma range_single m i : range_of m i (i + 1) = match m !! i with Some v => [(i, v)] | None => [] end.
Proof.
  unfold range_of. destruct (m !! i) as [v|] eqn:E.
  - pose proof (top_ge m i v E). replace (Z.min (i + 1) (top m + 1) - i) with 1 by lia. rewrite seqZ_cons, (seqZ_nil _ (Z.pred 1)) by lia. cbn [omap list_omap]. by rewrite E.
  - destruct (Z.le_gt_cases i (top m)).
    + replace (Z.min (i + 1) (top m + 1) - i) with 1 by lia. rewrite seqZ_cons, (seqZ_nil _ (Z.pred 1)) by lia. cbn [omap list_omap]. by rewrite E.
    + by rewrite seqZ_nil by lia.
Qed.
Lemma range_empty m lo hi : hi <= lo -> range_of m lo hi = [].
Proof. intros H. unfold range_of. by rewrite seqZ_nil by lia. Qed.

(** The last entry of a table without negative numbers. *)
Lemma range_last m hi : top m < hi -> (forall i v, m !! i = Some v -> 0 <= i) ->
  last (range_of m 0 hi) = pair (top m) <$> m !! top m.
Proof.
  intros Hhi Hpos. destruct (m !! top m) as [v|] eqn:Hv; simpl.
  - pose proof (top_nonneg m). unfold range_of. replace (Z.min hi (top m + 1) - 0) with (top m + 1) by lia.
    rewrite (seqZ_app 0 (top m) 1), omap_app by lia. rewrite Z.add_0_l, (seqZ_cons (top m) 1), (seqZ_nil _ (Z.pred 1)) by lia.
    cbn [omap list_omap]. rewrite Hv. cbn [fmap option_fmap option_map]. apply last_snoc.
  - destruct (range_of m 0 hi) as [|[i v] l] eqn:Er; [done|].
    assert ((i, v) ∈ range_of m 0 hi) as [Hi Hiv]%range_elem by (rewrite Er; by left).
    pose proof (top_ge m i v Hiv). destruct (top_in m) as [E|[? ?]]; [|congruence].
    replace (top m) with i in Hv by lia. congruence.
Qed.
End Tables.

(** At most [limit] entries: all when it is 0, and one when it is negative. *)
Definition limited {A} (limit : Z) (l : list A) : list A :=
  if limit =? 0 then l else take (Z.to_nat (Z.max 1 limit)) l.
