(* ===== verification/RaftTypes.v ===== *)
(** * The data of the Raft packages

    The types of [pkg/raft/types] and [pkg/raft/track]: event types, reasons,
    roles, logs, configurations and events.  A Go enumeration is an open
    integer type; the inductive types here have the named constants of the
    source and one constructor for the remaining values of the integer type. *)

From Stdlib Require Import Strings.Byte.
From S2P Require Import Prelude.

Abbreviation bytes := (list byte).

(** ** Enumerations *)

(** [pkg/raft/types/types.go] [Reason] *)
Inductive Reason :=
| ReasonUnknown
| ReasonOk
| ReasonError
| ReasonTruncate
| ReasonOnlySync
| ReasonOther (r : Z).

(** [pkg/raft/types/types.go] [EventType] *)
Inductive EventType :=
| Unknown
| Campaign
| Ping
| ConfChange
| Propose
| SendPropose
| SendProposeResp
| NotifySync
| SyncReq
| GetLogsReq
| GetLogsResp
| SyncResp
| TruncateReq
| TruncateResp
| VoteReq
| VoteResp
| StoreReq
| StoreResp
| ApplyReq
| ApplyResp
| LearnerToLeaderReq
| LearnerToLeaderResp
| LearnerToFollowerReq
| LearnerToFollowerResp
| FollowerToLeaderReq
| FollowerToLeaderResp
| ConfigReq
| ConfigResp
| Destory
| TermResp
| OtherEvent (t : Z).

(** [pkg/raft/types/types.go] [Speed] *)
Inductive Speed :=
| SpeedFast
| SpeedSuspend
| SpeedOther (s : Z).

(** [pkg/raft/types/types.go] [Role] *)
Inductive Role :=
| RoleUnknown
| RoleFollower
| RoleCandidate
| RoleLeader
| RoleLearner
| RoleOther (r : Z).

#[export] Instance Reason_eq_dec : EqDecision Reason.
Proof. solve_decision. Defined.
#[export] Instance EventType_eq_dec : EqDecision EventType.
Proof. solve_decision. Defined.
#[export] Instance Speed_eq_dec : EqDecision Speed.
Proof. solve_decision. Defined.
#[export] Instance Role_eq_dec : EqDecision Role.
Proof. solve_decision. Defined.

(** ** Tracing records *)

(** [pkg/raft/track/track.go] [Record]

    [time.Time] is the number of nanoseconds since the Unix epoch; the zero
    value of [time.Time] is the first instant of year 1. *)
Record Record_ := mkRecord {
  rec_Path : Z;
  rec_Cost : list Z;
  rec_PreStart : Z
}.

Definition zero_time : Z := -62135596800000000000.
Definition emptyRecord : Record_ := mkRecord 0 (replicate 16 0) zero_time.

(** ** Logs, configurations, events *)

(** [pkg/raft/types/types.go] [Log] *)
Record Log := mkLog {
  log_Id : Z;
  log_Index : Z;
  log_Term : Z;
  log_Data : bytes;
  log_Record : Record_;
  log_Time : Z
}.

(** [pkg/raft/types/types.go] [EmptyLog] *)
Definition EmptyLog : Log := mkLog 0 0 0 [] emptyRecord zero_time.

(** [pkg/raft/types/types.go] [IsEmptyLog] *)
Definition IsEmptyLog (v : Log) : bool :=
  (log_Id v =? 0) && (log_Index v =? 0) && (log_Term v =? 0) &&
  (len (log_Data v) =? 0).

(** [pkg/raft/types/types.go] [Config] *)
Record Config := mkConfig {
  cfg_MigrateFrom : Z;
  cfg_MigrateTo : Z;
  cfg_Replicas : list Z;
  cfg_Learners : list Z;
  cfg_Role : Role;
  cfg_Term : Z;
  cfg_Version : Z;
  cfg_Leader : Z
}.

Definition emptyConfig : Config := mkConfig 0 0 [] [] RoleUnknown 0 0 0.

(** [pkg/raft/types/types.go] [(c Config) Clone]

    The deep copy is the identity on values: the model has no aliasing of the
    two slices. *)
Definition Config_Clone (c : Config) : Config :=
  {| cfg_MigrateFrom := cfg_MigrateFrom c;
     cfg_MigrateTo := cfg_MigrateTo c;
     cfg_Replicas := [] ++ cfg_Replicas c;
     cfg_Learners := [] ++ cfg_Learners c;
     cfg_Role := cfg_Role c;
     cfg_Term := cfg_Term c;
     cfg_Version := cfg_Version c;
     cfg_Leader := cfg_Leader c |}.

Lemma Config_Clone_id c : Config_Clone c = c.
Proof. by destruct c. Qed.

(** [pkg/raft/types/types.go] [(c Config) IsEmpty] *)
Definition Config_IsEmpty (c : Config) : bool :=
  (cfg_MigrateFrom c =? 0) && (cfg_MigrateTo c =? 0) &&
  (len (cfg_Replicas c) =? 0) && (len (cfg_Learners c) =? 0) &&
  bool_decide (cfg_Role c = RoleUnknown) && (cfg_Term c =? 0) &&
  (cfg_Version c =? 0).

(** [pkg/raft/types/types.go] [TermStartIndexInfo] *)
Record TermStartIndexInfo := mkTSI {
  tsi_Term : Z;
  tsi_Index : Z
}.

(** [pkg/raft/types/types.go] [Event] *)
Record Event := mkEvent {
  ev_Type : EventType;
  ev_From : Z;
  ev_To : Z;
  ev_Term : Z;
  ev_Index : Z;
  ev_CommittedIndex : Z;
  ev_StoredIndex : Z;
  ev_LastLogTerm : Z;
  ev_ConfigVersion : Z;
  ev_Config : Config;
  ev_Logs : list Log;
  ev_Reason : Reason;
  ev_Speed : Speed;
  ev_TermStartIndexInfo : option TermStartIndexInfo;
  ev_StartIndex : Z;
  ev_EndIndex : Z
}.

(** The zero value of [Event]; a composite literal of the source is an update
    of it. *)
Definition emptyEvent : Event :=
  mkEvent Unknown 0 0 0 0 0 0 0 0 emptyConfig [] ReasonUnknown SpeedFast None 0 0.

(** [pkg/raft/types/types.go] [RaftState] *)
Record RaftState := mkRaftState {
  rs_LastLogIndex : Z;
  rs_LastTerm : Z;
  rs_AppliedIndex : Z
}.

(** [pkg/raft/raft/common.go] [None]

    The addresses with a special meaning: no node, every replica, this
    node. *)
Definition None_ : Z := 0.
(** [pkg/raft/raft/common.go] [All] *)
Definition All : Z := 18446744073709551614.
(** [pkg/raft/types/types.go] [lines 753-753] *)
Definition LocalNode : Z := 18446744073709551615.

(** The error values of the Raft packages that the model tells apart. *)
Inductive GoError :=
| ErrStopped
| ErrNotLeader
| ErrPaused
| ErrProposalDropped
| ErrLogBroken (position : nat)
| ErrLogGap (last first : Z)
| ErrUnexpectedAppend
| ErrConfigVersion
| ErrLearnerNotMigrateTo
| ErrFollowerNotInReplicas
| ErrRaftNotExist
| ErrGroupStopped
| ErrOther (msg : string).

(** ** Slices of node ids, [pkg/wkutil/arrays.go] *)

(** [pkg/wkutil/arrays.go] [ArrayContainsUint64] *)
Fixpoint ArrayContainsUint64 (items : list Z) (target : Z) : bool :=
  match items with
  | [] => false
  | element :: rest =>
      if target =? element then true else ArrayContainsUint64 rest target
  end.

(** [pkg/wkutil/arrays.go] [RemoveUint64] *)
Fixpoint RemoveUint64 (items : list Z) (target : Z) : list Z :=
  match items with
  | [] => []
  | element :: rest =>
      if target =? element then rest else element :: RemoveUint64 rest target
  end.

(** [pkg/wkutil/arrays.go] [ArrayEqualUint64] *)
Fixpoint ArrayEqualUint64 (items1 items2 : list Z) : bool :=
  match items1, items2 with
  | [], [] => true
  | a :: r1, b :: r2 => (a =? b) && ArrayEqualUint64 r1 r2
  | _, _ => false
  end.

Lemma ArrayContainsUint64_spec items target :
  ArrayContainsUint64 items target = true <-> target ∈ items.
Proof.
  induction items as [|x items IH]; simpl.
  - split; [done|]. intros H. by apply not_elem_of_nil in H.
  - rewrite elem_of_cons. zcases; subst; naive_solver.
Qed.

Lemma ArrayContainsUint64_false items target :
  ArrayContainsUint64 items target = false <-> target ∉ items.
Proof.
  rewrite <-ArrayContainsUint64_spec. destruct ArrayContainsUint64; naive_solver.
Qed.

Lemma ArrayEqualUint64_spec l1 l2 : ArrayEqualUint64 l1 l2 = true <-> l1 = l2.
Proof.
  revert l2. induction l1 as [|a l1 IH]; intros [|b l2]; simpl; try done.
  rewrite andb_true_iff, IH, Z.eqb_eq. naive_solver.
Qed.

(** Removing drops the first occurrence only. *)
Lemma RemoveUint64_notin items target :
  target ∉ items -> RemoveUint64 items target = items.
Proof.
  induction items as [|x items IH]; simpl; [done|].
  rewrite not_elem_of_cons. intros [Hx Hi]. zcases; [congruence|].
  by rewrite IH.
Qed.

Lemma RemoveUint64_split items target :
  target ∈ items ->
  exists l1 l2, items = (l1 ++ target :: l2) /\ target ∉ l1 /\
    RemoveUint64 items target = (l1 ++ l2).
Proof.
  induction items as [|x items IH]; simpl; [by intros H%not_elem_of_nil|].
  intros H. zcases.
  - subst. exists [], items. split_and!; auto. apply not_elem_of_nil.
  - apply elem_of_cons in H as [?|H]; [congruence|].
    destruct (IH H) as (l1 & l2 & -> & Hn & ->).
    exists (x :: l1), l2. split_and!; auto.
    rewrite not_elem_of_cons; auto.
Qed.

Lemma elem_of_RemoveUint64 items target x :
  x ∈ RemoveUint64 items target -> x ∈ items.
Proof.
  induction items as [|y items IH]; simpl; [done|].
  zcases; rewrite !elem_of_cons; naive_solver.
Qed.

Lemma RemoveUint64_NoDup items target :
  NoDup items ->
  NoDup (RemoveUint64 items target) /\
  forall x, x ∈ RemoveUint64 items target <-> x ∈ items /\ x <> target.
Proof.
  induction items as [|y items IH]; simpl; intros Hnd.
  - split; [constructor|]. intros x. rewrite elem_of_nil. naive_solver.
  - apply NoDup_cons in Hnd as [Hy Hnd]. destruct (IH Hnd) as [IH1 IH2].
    zcases; subst.
    + split; [done|]. intros x. rewrite elem_of_cons. naive_solver.
    + split.
      * apply NoDup_cons. split; [|done]. intros H%elem_of_RemoveUint64. done.
      * intros x. rewrite !elem_of_cons, IH2. naive_solver.
Qed.
