(* ===== verification/RaftQueue.v ===== *)
(** * The log queue of a Raft node, [pkg/raft/raft/queue.go]

    The queue holds the logs that are appended but not stored yet, and the
    four indexes of the node's log.  Section [Queue] translates the
    operations; the well-formedness invariant [queue_wf] says that the pending
    logs are exactly the logs [storedIndex+1 .. lastLogIndex] in order; the
    last section shows that the queue together with the storage refines one
    growing log. *)

From S2P Require Import Prelude RaftTypes.

(** ** State and operations *)

(** [pkg/raft/raft/queue.go] [queue] *)
Record queue := mkQueue {
  q_logs : list Log;
  q_storedIndex : Z;
  q_lastLogIndex : Z;
  q_committedIndex : Z;
  q_appending : bool;
  q_applying : bool;
  q_appliedIndex : Z
}.

(** [pkg/raft/raft/queue.go] [newQueue] *)
Definition newQueue (appliedLogIndex lastLogIndex : Z) : queue :=
  {| q_logs := [];
     q_storedIndex := lastLogIndex;
     q_lastLogIndex := lastLogIndex;
     q_committedIndex := appliedLogIndex;
     q_appending := false;
     q_applying := false;
     q_appliedIndex := appliedLogIndex |}.

(** [pkg/raft/raft/queue.go] [(r *queue) truncateLogTo] *)
Definition truncateLogTo (r : queue) (logIndex : Z) : res queue :=
  if q_lastLogIndex r <? logIndex then Panic
  else
    let! r1 :=
      if logIndex <? q_storedIndex r
      then Ok {| r with q_storedIndex := logIndex |}
      else let! logs := slice_to (q_logs r) (logIndex -64 q_storedIndex r) in
           Ok {| r with q_logs := logs |} in
    Ok {| r1 with q_lastLogIndex := logIndex |}.

(** [pkg/raft/raft/queue.go] [lines 43-58]

    The first position at which the incoming indexes are not consecutive. *)
Fixpoint broken_at (i : nat) (previous : Log) (rest : list Log) : option nat :=
  match rest with
  | [] => None
  | current :: rest' =>
      if log_Index current =? log_Index previous +64 1
      then broken_at (S i) current rest'
      else Some i
  end.

(** [pkg/raft/raft/queue.go] [(r *queue) append]

    The function calls itself after a truncation; [fuel] bounds the number of
    nested calls. *)
Fixpoint append_fuel (fuel : nat) (r : queue) (incomingLogs : list Log)
  : res (queue * option GoError) :=
  match incomingLogs with
  | [] => Ok (r, None)
  | first :: rest =>
      match broken_at 1 first rest with
      | Some i => Ok (r, Some (ErrLogBroken i))
      | None =>
          let incomingFirstIndex := log_Index first in
          let incomingLastIndex := log_Index (List.last rest first) in
          let expectedPrevIndex := incomingFirstIndex -64 1 in
          if expectedPrevIndex =? q_lastLogIndex r then
            Ok ({| r with q_logs := q_logs r ++ incomingLogs;
                          q_lastLogIndex := incomingLastIndex |}, None)
          else if incomingFirstIndex <=? q_lastLogIndex r then
            if incomingLastIndex <=? q_lastLogIndex r then Ok (r, None)
            else
              let! r' := truncateLogTo r (incomingFirstIndex -64 1) in
              match fuel with
              | O => NoFuel
              | S fuel' => append_fuel fuel' r' incomingLogs
              end
          else if q_lastLogIndex r +64 1 <? incomingFirstIndex then
            Ok (r, Some (ErrLogGap (q_lastLogIndex r) incomingFirstIndex))
          else Ok (r, Some ErrUnexpectedAppend)
      end
  end.

(** [pkg/raft/raft/queue.go] [(r *queue) append] *)
Definition append (r : queue) (incomingLogs : list Log)
  : res (queue * option GoError) := append_fuel 1 r incomingLogs.

(** [pkg/raft/raft/queue.go] [(r *queue) hasNextStoreLogs] *)
Definition hasNextStoreLogs (r : queue) : bool :=
  if q_appending r then false else q_storedIndex r <? q_lastLogIndex r.

(** [pkg/raft/raft/queue.go] [(r *queue) nextStoreLogs] *)
Definition nextStoreLogs (r : queue) (maxSize : Z) : res (queue * list Log) :=
  if len (q_logs r) =? 0 then Ok (r, [])
  else
    let endIndex := q_lastLogIndex r -64 q_storedIndex r in
    if u64 (len (q_logs r)) <? endIndex then Panic
    else
      let endIndex :=
        if negb (maxSize =? 0) && (u64 maxSize <? endIndex)
        then u64 maxSize else endIndex in
      let! logs := slice_to (q_logs r) endIndex in
      Ok ({| r with q_appending := true |}, logs).

(** [pkg/raft/raft/queue.go] [(r *queue) hasNextApplyLogs] *)
Definition hasNextApplyLogs (r : queue) : bool :=
  if q_applying r then false else q_appliedIndex r <? q_committedIndex r.

(** [pkg/raft/raft/queue.go] [(r *queue) nextApplyLogs] *)
Definition nextApplyLogs (r : queue) : queue * (Z * Z) :=
  if q_applying r then (r, (0, 0))
  else
    let r := {| r with q_applying := true |} in
    if q_committedIndex r <? q_appliedIndex r then (r, (0, 0))
    else (r, (q_appliedIndex r +64 1, q_committedIndex r +64 1)).

(** [pkg/raft/raft/queue.go] [(r *queue) storeTo] *)
Definition storeTo (r : queue) (logIndex : Z) : res queue :=
  let r := {| r with q_appending := false |} in
  if logIndex <=? q_storedIndex r then Ok r
  else if q_lastLogIndex r <? logIndex then Panic
  else
    let! logs := slice_from (q_logs r) (logIndex -64 q_storedIndex r) in
    Ok {| r with q_logs := logs; q_storedIndex := logIndex |}.

(** [pkg/raft/raft/queue.go] [(r *queue) appliedTo] *)
Definition appliedTo (r : queue) (index : Z) : queue :=
  let r := {| r with q_applying := false |} in
  if index <? q_appliedIndex r then r
  else {| r with q_appliedIndex := index |}.

(** ** Well-formedness *)

(** The logs [ls] carry the indexes [base+1], [base+2], ... *)
Definition contiguous (base : Z) (ls : list Log) : Prop :=
  forall (i : nat) l, ls !! i = Some l -> log_Index l = base + 1 + Z.of_nat i.

(** The pending logs are exactly those between the stored and the last index,
    and the last index leaves room for its successor. *)
Record queue_wf (q : queue) : Prop := {
  qwf_stored : 0 <= q_storedIndex q;
  qwf_last : q_lastLogIndex q < two64 - 1;
  qwf_len : len (q_logs q) = q_lastLogIndex q - q_storedIndex q;
  qwf_contig : contiguous (q_storedIndex q) (q_logs q)
}.

(** The order of the four indexes of a healthy node. *)
Record queue_ordered (q : queue) : Prop := {
  qord_applied : 0 <= q_appliedIndex q <= q_committedIndex q;
  qord_committed : q_committedIndex q <= q_storedIndex q
}.

Lemma qwf_le q : queue_wf q -> q_storedIndex q <= q_lastLogIndex q.
Proof. intros [? ? ? ?]. lia. Qed.

(** *** Contiguous logs *)

Lemma contiguous_nil base : contiguous base [].
Proof. intros i l. by rewrite lookup_nil. Qed.

Lemma contiguous_cons base l ls :
  contiguous base (l :: ls) <-> log_Index l = base + 1 /\ contiguous (base + 1) ls.
Proof.
  split.
  - intros H. split.
    + specialize (H 0%nat l eq_refl). lia.
    + intros i l' Hi. specialize (H (S i) l' Hi). lia.
  - intros [Hl Hls] [|i] l' Hi; simpl in Hi.
    + simplify_eq. lia.
    + specialize (Hls i l' Hi). lia.
Qed.

Lemma contiguous_app base l1 l2 :
  contiguous base (l1 ++ l2) <-> contiguous base l1 /\ contiguous (base + len l1) l2.
Proof.
  revert base. induction l1 as [|l l1 IH]; intros base; simpl.
  - rewrite Z.add_0_r. pose proof (contiguous_nil base). tauto.
  - rewrite !contiguous_cons, IH.
    replace (base + 1 + len l1) with (base + Z.of_nat (S (length l1))) by lia. tauto.
Qed.

Lemma contiguous_take base ls n : contiguous base ls -> contiguous base (take n ls).
Proof.
  intros H. rewrite <-(take_drop n ls) in H. by apply contiguous_app in H as [??].
Qed.

Lemma contiguous_drop base ls n :
  (n <= length ls)%nat -> contiguous base ls ->
  contiguous (base + Z.of_nat n) (drop n ls).
Proof.
  intros Hn H. rewrite <-(take_drop n ls) in H.
  apply contiguous_app in H as [_ H]. by rewrite length_take_le in H.
Qed.

Lemma contiguous_last base first rest :
  contiguous base (first :: rest) ->
  log_Index (List.last rest first) = base + 1 + len rest.
Proof.
  revert base first. induction rest as [|l rest IH]; intros base first H.
  - apply contiguous_cons in H as [H _]. simpl. lia.
  - apply contiguous_cons in H as [_ H].
    replace (List.last (l :: rest) first) with (List.last rest l).
    + rewrite (IH _ _ H). simpl length. lia.
    + clear. destruct rest as [|x rest]; [done|].
      simpl. revert x. induction rest as [|y rest IH]; intros x; [done|]. apply IH.
Qed.

(** The continuity check of [append] accepts exactly the contiguous batches,
    as long as no index wraps. *)
Lemma broken_at_None i base first rest :
  log_Index first = base + 1 -> 0 <= base -> base + 1 + len rest < two64 ->
  broken_at i first rest = None <-> contiguous base (first :: rest).
Proof.
  revert i base first. induction rest as [|l rest IH]; intros i base first Hf Hb Hl.
  - simpl. rewrite contiguous_cons. pose proof (contiguous_nil (base + 1)). tauto.
  - simpl broken_at. simpl length in Hl. rewrite contiguous_cons.
    assert (Hu : log_Index first +64 1 = base + 1 + 1).
    { rewrite Hf. apply u64_small. unfold is_u64. lia. }
    rewrite Hu. zcases.
    + rewrite (IH _ (base + 1)) by lia. tauto.
    + split; [done|]. intros [_ [? _]%contiguous_cons]. lia.
Qed.

(** *** Every operation preserves the invariant *)

Lemma newQueue_wf applied last :
  0 <= applied <= last -> last < two64 - 1 ->
  queue_wf (newQueue applied last) /\ queue_ordered (newQueue applied last).
Proof.
  intros. split; constructor; simpl; try lia. apply contiguous_nil.
Qed.

(** A truncation above the stored index, or with nothing pending, keeps the
    prefix of the pending logs. *)
Lemma truncateLogTo_spec q idx :
  queue_wf q -> 0 <= idx <= q_lastLogIndex q ->
  q_storedIndex q <= idx \/ q_logs q = [] ->
  returns (truncateLogTo q idx) (fun q' =>
    queue_wf q' /\
    q_lastLogIndex q' = idx /\
    q_storedIndex q' = Z.min (q_storedIndex q) idx /\
    q_logs q' = take (Z.to_nat (idx - q_storedIndex q)) (q_logs q) /\
    q_committedIndex q' = q_committedIndex q /\
    q_appliedIndex q' = q_appliedIndex q).
Proof.
  intros [Hs Hl Hlen Hc] Hidx Hor. unfold truncateLogTo.
  destruct (Z.ltb_spec (q_lastLogIndex q) idx); [lia|].
  destruct (Z.ltb_spec idx (q_storedIndex q)) as [Hlt|Hge]; simpl.
  - destruct Hor as [?|Hnil]; [lia|]. eexists. split; [done|]. simpl.
    rewrite Hnil in *. rewrite take_nil. split_and!; auto; try lia.
    constructor; simpl; rewrite ?Hnil; simpl; try lia. apply contiguous_nil.
  - rewrite u64_small by (unfold is_u64; lia).
    rewrite slice_to_Ok by lia. simpl. eexists. split; [done|]. simpl.
    split_and!; auto; try lia.
    constructor; simpl; try lia.
    + rewrite length_take_le by lia. lia.
    + by apply contiguous_take.
Qed.

Lemma storeTo_spec q idx :
  queue_wf q -> idx <= q_lastLogIndex q ->
  returns (storeTo q idx) (fun q' =>
    queue_wf q' /\
    q_lastLogIndex q' = q_lastLogIndex q /\
    q_storedIndex q' = Z.max (q_storedIndex q) idx /\
    q_logs q' = drop (Z.to_nat (idx - q_storedIndex q)) (q_logs q) /\
    q_committedIndex q' = q_committedIndex q /\
    q_appliedIndex q' = q_appliedIndex q /\
    q_appending q' = false).
Proof.
  intros [Hs Hl Hlen Hc] Hidx. unfold storeTo. simpl.
  destruct (Z.leb_spec idx (q_storedIndex q)).
  - eexists. split; [done|]. simpl.
    replace (Z.to_nat (idx - q_storedIndex q)) with 0%nat by lia.
    split_and!; auto; try lia. constructor; simpl; auto; lia.
  - destruct (Z.ltb_spec (q_lastLogIndex q) idx); [lia|].
    rewrite u64_small by (unfold is_u64; lia).
    rewrite slice_from_Ok by lia. simpl. eexists. split; [done|]. simpl.
    split_and!; auto; try lia.
    constructor; simpl; try lia.
    + rewrite length_drop. lia.
    + replace idx with (q_storedIndex q + Z.of_nat (Z.to_nat (idx - q_storedIndex q)))
        at 1 by lia.
      apply contiguous_drop; [lia|done].
Qed.

Lemma nextStoreLogs_spec q :
  queue_wf q ->
  returns (nextStoreLogs q 0) (fun '(q', logs) =>
    queue_wf q' /\ logs = q_logs q /\ q_logs q' = q_logs q /\
    q_storedIndex q' = q_storedIndex q /\ q_lastLogIndex q' = q_lastLogIndex q /\
    q_committedIndex q' = q_committedIndex q /\
    q_appliedIndex q' = q_appliedIndex q).
Proof.
  intros [Hs Hl Hlen Hc]. unfold nextStoreLogs.
  destruct (Z.eqb_spec (len (q_logs q)) 0) as [H0|H0].
  - eexists. split; [done|]. simpl. split_and!; auto; [by constructor|].
    destruct (q_logs q); [done|simpl in *; lia].
  - rewrite !u64_small by (unfold is_u64; lia).
    destruct (Z.ltb_spec (len (q_logs q)) (q_lastLogIndex q - q_storedIndex q)); [lia|].
    simpl. rewrite slice_to_Ok by lia. simpl. eexists. split; [done|]. simpl.
    split_and!; auto.
    + constructor; auto.
    + apply take_ge. lia.
Qed.

Lemma appliedTo_spec q idx :
  let q' := appliedTo q idx in
  q_appliedIndex q' = Z.max (q_appliedIndex q) idx /\
  q_applying q' = false /\ q_logs q' = q_logs q /\
  q_storedIndex q' = q_storedIndex q /\ q_lastLogIndex q' = q_lastLogIndex q /\
  q_committedIndex q' = q_committedIndex q /\ q_appending q' = q_appending q.
Proof.
  unfold appliedTo. simpl. destruct (Z.ltb_spec idx (q_appliedIndex q)); simpl;
    split_and!; auto; lia.
Qed.

(** ** Appending *)

(** After a truncation the next call is in the first case, so one nested call
    is always enough. *)
Lemma truncateLogTo_last q idx q' :
  truncateLogTo q idx = Ok q' -> q_lastLogIndex q' = idx.
Proof.
  unfold truncateLogTo. destruct (_ <? idx); [done|].
  intros (r1 & _ & [= <-])%res_bind_Ok. done.
Qed.

Lemma truncateLogTo_fuel q idx : truncateLogTo q idx <> NoFuel.
Proof.
  unfold truncateLogTo, slice_to. destruct (_ <? idx); [done|].
  destruct (idx <? _); simpl; [done|]. by destruct (_ && _).
Qed.

Lemma append_fuel_settled fuel q first rest :
  log_Index first -64 1 = q_lastLogIndex q ->
  append_fuel fuel q (first :: rest) = append_fuel 0 q (first :: rest) /\
  append_fuel 0 q (first :: rest) <> NoFuel.
Proof.
  intros H. destruct fuel; cbn -[u64]; destruct (broken_at _ _ _); try done;
    rewrite H, Z.eqb_refl; done.
Qed.

Lemma append_fuel_enough fuel q logs :
  append_fuel (S fuel) q logs = append q logs /\ append q logs <> NoFuel.
Proof.
  unfold append. destruct logs as [|first rest]; [done|].
  cbn -[u64 truncateLogTo].
  destruct (broken_at _ _ _) eqn:Hbr; [done|].
  destruct (_ =? q_lastLogIndex q); [done|].
  destruct (_ <=? q_lastLogIndex q) eqn:?; [|by destruct (_ <? _)].
  destruct (log_Index (List.last rest first) <=? q_lastLogIndex q); [done|].
  destruct (truncateLogTo q (log_Index first -64 1)) as [q'| |] eqn:Ht; cbn [res_bind]; try done.
  - apply truncateLogTo_last in Ht.
    destruct (append_fuel_settled fuel q' first rest (eq_sym Ht)) as [-> _].
    cbn -[u64 truncateLogTo]. by rewrite Hbr, Ht, Z.eqb_refl.
  - by apply truncateLogTo_fuel in Ht.
Qed.

(** What [append] does to a well-formed queue, by the place of the batch. *)
Inductive append_case (q : queue) (base : Z) (logs : list Log)
  : queue -> option GoError -> Prop :=
| append_extends q' :
    base = q_lastLogIndex q ->
    q_logs q' = q_logs q ++ logs ->
    q_storedIndex q' = q_storedIndex q ->
    append_case q base logs q' None
| append_duplicate :
    base < q_lastLogIndex q ->
    base + len logs <= q_lastLogIndex q ->
    append_case q base logs q None
| append_overlap q' :
    base < q_lastLogIndex q < base + len logs ->
    q_logs q' = take (Z.to_nat (base - q_storedIndex q)) (q_logs q) ++ logs ->
    q_storedIndex q' = Z.min (q_storedIndex q) base ->
    append_case q base logs q' None
| append_gap :
    q_lastLogIndex q < base ->
    append_case q base logs q (Some (ErrLogGap (q_lastLogIndex q) (base + 1))).

Lemma append_contiguous_wf q logs base q' :
  queue_wf q -> 0 <= base -> base + len logs < two64 - 1 ->
  contiguous base logs ->
  q_lastLogIndex q = base ->
  q_logs q' = q_logs q ++ logs -> q_storedIndex q' = q_storedIndex q ->
  q_lastLogIndex q' = base + len logs ->
  queue_wf q'.
Proof.
  intros [Hs Hl Hlen Hc] Hb Hmax Hlogs Hbase Hpend Hst Hlast.
  constructor; rewrite ?Hpend, ?Hst, ?Hlast; try lia.
  - rewrite length_app. lia.
  - apply contiguous_app. split; [done|].
    by replace (q_storedIndex q + len (q_logs q)) with base by lia.
Qed.

Lemma append_spec q logs base :
  queue_wf q -> logs <> [] -> 0 <= base -> base + len logs < two64 - 1 ->
  contiguous base logs ->
  q_storedIndex q <= base \/ q_logs q = [] ->
  returns (append q logs) (fun '(q', err) =>
    queue_wf q' /\ append_case q base logs q' err /\
    q_committedIndex q' = q_committedIndex q /\
    q_appliedIndex q' = q_appliedIndex q /\
    q_appending q' = q_appending q /\ q_applying q' = q_applying q).
Proof.
  intros Hwf Hne Hb Hmax Hc Hor. destruct logs as [|first rest]; [done|].
  simpl length in Hmax.
  pose proof (contiguous_last _ _ _ Hc) as Hlast.
  pose proof (proj1 (contiguous_cons _ _ _) Hc) as [Hfirst _].
  pose proof (proj2 (broken_at_None 1 base first rest Hfirst Hb ltac:(lia)) Hc) as Hbr.
  pose proof (qwf_stored _ Hwf). pose proof (qwf_last _ Hwf). pose proof (qwf_le _ Hwf).
  assert (Hstep : forall fuel p, queue_wf p -> q_lastLogIndex p = base ->
    append_fuel fuel p (first :: rest) =
    Ok ({| p with q_logs := q_logs p ++ first :: rest;
                  q_lastLogIndex := base + len (first :: rest) |}, None)).
  { intros fuel p _ Hp. destruct fuel; cbn -[u64]; rewrite Hbr, Hlast, Hfirst, Hp;
      rewrite u64_small by (unfold is_u64; lia);
      replace (base + 1 - 1) with base by lia; rewrite Z.eqb_refl;
      do 3 f_equal; lia. }
  destruct (Z.eq_dec base (q_lastLogIndex q)) as [He|He].
  - unfold append. rewrite Hstep by done. eexists. split; [done|]. simpl.
    split_and!; auto.
    + eapply (append_contiguous_wf q (first :: rest) base); simpl; eauto; lia.
    + by apply append_extends.
  - unfold append. generalize 0%nat as f. intros f.
    cbn -[u64 truncateLogTo]. rewrite Hbr, Hlast, Hfirst.
    rewrite !u64_small by (unfold is_u64; lia).
    replace (base + 1 - 1) with base by lia.
    destruct (Z.eqb_spec base (q_lastLogIndex q)); [done|].
    destruct (Z.leb_spec (base + 1) (q_lastLogIndex q)).
    + destruct (Z.leb_spec (base + 1 + len rest) (q_lastLogIndex q)).
      * eexists. split; [done|]. split_and!; auto.
        apply append_duplicate; simpl length; lia.
      * destruct (truncateLogTo_spec q base Hwf ltac:(lia) Hor)
          as (q1 & Hq1 & Hwf1 & Hl1 & Hs1 & Hp1 & Hc1 & Ha1).
        rewrite Hq1. simpl res_bind. rewrite Hstep by done.
        eexists. split; [done|]. simpl.
        assert (q_appending q1 = q_appending q /\ q_applying q1 = q_applying q) as [??].
        { revert Hq1. unfold truncateLogTo. destruct (_ <? base); [done|].
          destruct (base <? _); simpl; [by intros [= <-]|].
          destruct (slice_to _ _); simpl; [|done|done]. by intros [= <-]. }
        split_and!; auto.
        -- eapply (append_contiguous_wf q1 (first :: rest) base); simpl; eauto; lia.
        -- apply append_overlap; simpl length; auto; [lia|]. by rewrite Hp1.
    + destruct (Z.ltb_spec (q_lastLogIndex q + 1) (base + 1)); [|lia].
      eexists. split; [done|]. split_and!; auto. apply append_gap. lia.
Qed.

(** A batch whose indexes are not consecutive is refused and changes
    nothing. *)
Lemma append_broken q first rest i :
  broken_at 1 first rest = Some i ->
  append q (first :: rest) = Ok (q, Some (ErrLogBroken i)).
Proof. intros H. unfold append. cbn -[u64]. by rewrite H. Qed.

(** ** The queue and the storage refine one log

    The full log of a node is what the storage holds followed by what the
    queue holds.  A store request takes the pending logs ([nextStoreLogs]),
    the storage appends them, and the response releases them ([storeTo]);
    other batches may be appended in between. *)

Record store_state := mkStore {
  ss_disk : list Log;
  ss_queue : queue;
  ss_inflight : option (list Log)
}.

Definition ss_full (s : store_state) : list Log := ss_disk s ++ q_logs (ss_queue s).

Record ss_inv (s : store_state) : Prop := {
  ss_wf : queue_wf (ss_queue s);
  ss_len : len (ss_disk s) = q_storedIndex (ss_queue s);
  ss_contig : contiguous 0 (ss_disk s);
  ss_fly : forall logs, ss_inflight s = Some logs ->
    logs <> [] /\ logs `prefix_of` q_logs (ss_queue s)
}.

(** The steps of the store cycle.  A batch that rewrites pending logs, and a
    truncation, wait until no store request is in flight. *)
Inductive qstep : store_state -> store_state -> Prop :=
| qs_append disk q fly logs base q' err :
    logs <> [] -> 0 <= base -> base + len logs < two64 - 1 -> contiguous base logs ->
    q_storedIndex q <= base ->
    fly = None \/ q_lastLogIndex q <= base \/ base + len logs <= q_lastLogIndex q ->
    append q logs = Ok (q', err) ->
    qstep (mkStore disk q fly) (mkStore disk q' fly)
| qs_store_req disk q q' logs :
    hasNextStoreLogs q = true ->
    nextStoreLogs q 0 = Ok (q', logs) ->
    qstep (mkStore disk q None) (mkStore disk q' (Some logs))
| qs_store_resp disk q first rest q' :
    storeTo q (log_Index (List.last rest first)) = Ok q' ->
    qstep (mkStore disk q (Some (first :: rest)))
          (mkStore (disk ++ first :: rest) q' None)
| qs_truncate disk q idx q' :
    0 <= idx <= q_lastLogIndex q ->
    q_storedIndex q <= idx \/ q_logs q = [] ->
    truncateLogTo q idx = Ok q' ->
    qstep (mkStore disk q None) (mkStore (take (Z.to_nat idx) disk) q' None).

(** The abstract log: it stays as it is, is cut, or has its end replaced by a
    batch. *)
Inductive log_step : list Log -> list Log -> Prop :=
| ls_same l : log_step l l
| ls_cut l idx : 0 <= idx <= len l -> log_step l (take (Z.to_nat idx) l)
| ls_append l base logs :
    0 <= base <= len l -> contiguous base logs ->
    log_step l (take (Z.to_nat base) l ++ logs).

Lemma ss_full_len s : ss_inv s -> len (ss_full s) = q_lastLogIndex (ss_queue s).
Proof.
  intros [[? ? ? ?] Hd ? ?]. unfold ss_full. rewrite length_app. lia.
Qed.

Lemma take_app_disk (disk pend : list Log) n :
  len disk <= n ->
  take (Z.to_nat n) (disk ++ pend) = disk ++ take (Z.to_nat (n - len disk)) pend.
Proof. intros. rewrite take_app, take_ge by lia. do 2 f_equal. lia. Qed.

Lemma prefix_last_index base first rest pend :
  contiguous base pend -> first :: rest `prefix_of` pend ->
  contiguous base (first :: rest) /\
  log_Index (List.last rest first) = base + len (first :: rest).
Proof.
  intros Hc [more ->]. apply contiguous_app in Hc as [Hc _]. split; [done|].
  rewrite (contiguous_last _ _ _ Hc). simpl length. lia.
Qed.

Lemma qs_append_sim disk q fly logs base q' err :
  ss_inv (mkStore disk q fly) ->
  logs <> [] -> 0 <= base -> base + len logs < two64 - 1 -> contiguous base logs ->
  q_storedIndex q <= base ->
  fly = None \/ q_lastLogIndex q <= base \/ base + len logs <= q_lastLogIndex q ->
  append q logs = Ok (q', err) ->
  ss_inv (mkStore disk q' fly) /\
  log_step (ss_full (mkStore disk q fly)) (ss_full (mkStore disk q' fly)).
Proof.
  intros Hinv Hne Hb Hmax Hc Hst Hfly Happ.
  pose proof (ss_full_len _ Hinv) as Hflen. destruct Hinv as [Hwf Hd Hdc Hf]. simpl in *.
  destruct (append_spec q logs base Hwf Hne Hb Hmax Hc (or_introl Hst))
    as ([q0 e0] & Heq & Hwf' & Hcase & _).
  rewrite Heq in Happ. injection Happ as -> ->.
  destruct Hcase as [q'' Hbase Hp Hs| | q'' Hbase Hp Hs |].
  - split.
    + constructor; simpl; auto; [congruence|].
      intros l Hl. destruct (Hf l Hl) as [? Hpre]. split; [done|].
      rewrite Hp. by apply prefix_app_r.
    + unfold ss_full in *. simpl in *. rewrite Hp, app_assoc.
      rewrite <-(firstn_all (disk ++ q_logs q)) at 2.
      replace (length (disk ++ q_logs q)) with (Z.to_nat base) by lia.
      apply ls_append; [lia|done].
  - split; [by constructor|constructor].
  - split.
    + constructor; simpl; auto; [lia|].
      intros l Hl. destruct Hfly as [->|[?|?]]; [done|lia|lia].
    + unfold ss_full in *. simpl in *. rewrite Hp, app_assoc.
      replace (disk ++ take (Z.to_nat (base - q_storedIndex q)) (q_logs q))
        with (take (Z.to_nat base) (disk ++ q_logs q)).
      * apply ls_append; [lia|done].
      * rewrite take_app_disk by lia. by rewrite Hd.
  - split; [by constructor|constructor].
Qed.

Lemma qs_store_resp_sim disk q first rest q' :
  ss_inv (mkStore disk q (Some (first :: rest))) ->
  storeTo q (log_Index (List.last rest first)) = Ok q' ->
  ss_inv (mkStore (disk ++ first :: rest) q' None) /\
  ss_full (mkStore (disk ++ first :: rest) q' None) =
  ss_full (mkStore disk q (Some (first :: rest))).
Proof.
  intros [Hwf Hd Hdc Hf] Hstore. simpl in *.
  destruct (Hf _ eq_refl) as [_ Hpre].
  destruct (prefix_last_index _ _ _ _ (qwf_contig _ Hwf) Hpre) as [Hcb Hlast].
  destruct Hpre as [more Hmore].
  pose proof (f_equal length Hmore) as Hlen. rewrite length_app in Hlen.
  destruct (storeTo_spec q (log_Index (List.last rest first)) Hwf)
    as (q0 & Heq & Hwf' & Hl' & Hs' & Hp' & _).
  { rewrite Hlast. pose proof (qwf_len _ Hwf). simpl length in *. lia. }
  rewrite Heq in Hstore. injection Hstore as ->.
  assert (Hp : q_logs q' = more).
  { rewrite Hp', Hlast, Hmore. rewrite drop_app_ge by (simpl length in *; lia).
    replace (Z.to_nat _ - length (first :: rest))%nat with 0%nat by (simpl length; lia).
    done. }
  split.
  - constructor; simpl; auto.
    + rewrite length_app, Hs', Hlast. simpl length. lia.
    + apply contiguous_app. split; [done|]. by rewrite Hd.
    + done.
  - unfold ss_full. simpl. rewrite Hp, Hmore, <-app_assoc. done.
Qed.

(** One step of the store cycle keeps the invariant and is one step of the
    abstract log. *)
Lemma qstep_sim s s' :
  ss_inv s -> qstep s s' -> ss_inv s' /\ log_step (ss_full s) (ss_full s').
Proof.
  intros Hinv Hstep. pose proof (ss_full_len _ Hinv) as Hflen. destruct Hstep.
  - eapply qs_append_sim; eauto.
  - destruct Hinv as [Hwf Hd Hdc Hf]. simpl in *.
    destruct (nextStoreLogs_spec q Hwf) as ([q0 l0] & Heq & Hwf' & Hl & Hp & Hs & Hla & _).
    rewrite Heq in H0. injection H0 as -> ->. subst logs. split.
    + constructor; simpl; auto; [congruence|].
      intros l [= <-]. rewrite Hp. split; [|done].
      intros Hnil. unfold hasNextStoreLogs in H. destruct (q_appending q); [done|].
      apply Z.ltb_lt in H. pose proof (qwf_len _ Hwf). rewrite Hnil in *. simpl in *. lia.
    + unfold ss_full. simpl. rewrite Hp. constructor.
  - destruct (qs_store_resp_sim _ _ _ _ _ Hinv H) as [? ->]. split; [done|constructor].
  - destruct Hinv as [Hwf Hd Hdc Hf]. simpl in *.
    destruct (truncateLogTo_spec q idx Hwf H H0) as (q0 & Heq & Hwf' & Hl & Hs & Hp & _).
    rewrite Heq in H1. injection H1 as ->. split.
    + constructor; simpl; auto; [|by apply contiguous_take|done].
      rewrite length_take. lia.
    + unfold ss_full in *. simpl in *. rewrite Hp.
      replace (take (Z.to_nat idx) disk ++ _) with (take (Z.to_nat idx) (disk ++ q_logs q)).
      * constructor. lia.
      * rewrite take_app. do 2 f_equal. lia.
Qed.

(** ** Properties of the queue *)

Module QueueProps.

(** Sample logs for the witnesses. *)
Definition lg (i : Z) : Log := {| EmptyLog with log_Index := i; log_Term := 1 |}.

Definition sample : queue :=
  {| (newQueue 0 5) with q_logs := [lg 6; lg 7]; q_lastLogIndex := 7 |}.

Lemma sample_wf : queue_wf sample.
Proof.
  constructor; simpl; try lia.
  apply contiguous_cons; split; [done|]. apply contiguous_cons; split; [done|].
  apply contiguous_nil.
Qed.

(** [append] terminates: the nested call made after a truncation is
    the last one, whatever the queue and the batch are. *)
Theorem append_terminates (q : queue) (logs : list Log) :
  append q logs <> NoFuel /\
  forall fuel, append_fuel (S fuel) q logs = append q logs.
Proof. split; [apply (append_fuel_enough 0)|]. intros. apply append_fuel_enough. Qed.

(**  On a well-formed queue, a batch of consecutive logs that starts
    above the stored index is appended, ignored as a duplicate, spliced over
    the overlapping pending logs, or refused as a gap, according to its place;
    the call never panics and the queue stays well-formed. *)
Theorem append_correct (q : queue) (logs : list Log) (base : Z) :
  queue_wf q -> logs <> [] -> 0 <= base -> base + len logs < two64 - 1 ->
  contiguous base logs -> q_storedIndex q <= base \/ q_logs q = [] ->
  exists q' err, append q logs = Ok (q', err) /\ queue_wf q' /\
    append_case q base logs q' err /\
    q_committedIndex q' = q_committedIndex q /\
    q_appliedIndex q' = q_appliedIndex q.
Proof.
  intros. edestruct append_spec as ([q' err] & Heq & ? & ? & ? & ? & _); eauto.
  exists q', err. auto.
Qed.

Lemma append_correct_witness :
  exists q' err, append sample [lg 7; lg 8] = Ok (q', err) /\ queue_wf q' /\
    append_case sample 6 [lg 7; lg 8] q' err /\
    q_committedIndex q' = 0 /\ q_appliedIndex q' = 0.
Proof.
  apply (append_correct sample [lg 7; lg 8] 6); try done.
  - apply sample_wf.
  - apply contiguous_cons; split; [done|]. apply contiguous_cons; split; [done|].
    apply contiguous_nil.
  - left. done.
Defined.


(** A run that appends two logs, stores them, and appends a third meanwhile. *)
Definition run_start : store_state := mkStore [] (newQueue 0 0) None.
Definition run_end : store_state :=
  mkStore [lg 1; lg 2]
    (mkQueue [lg 3] 2 3 0 false false 0) None.


(**  A truncation below the stored index while logs are pending leaves
    the queue ill-formed: the pending logs are kept although their indexes
    are above the new last index, and once a fresh batch is appended the next
    store request takes the stale log first. *)
Theorem truncate_below_stored_keeps_stale (q : queue) (stale : Log) (more logs : list Log)
    (idx : Z) :
  queue_wf q -> q_logs q = stale :: more -> 0 <= idx < q_storedIndex q ->
  logs <> [] -> contiguous idx logs -> idx + len logs < two64 - 1 ->
  len (q_logs q) + len logs < two64 ->
  exists q1 q2 q3 out,
    truncateLogTo q idx = Ok q1 /\ ~ queue_wf q1 /\
    append q1 logs = Ok (q2, None) /\
    nextStoreLogs q2 0 = Ok (q3, out) /\
    head out = Some stale /\ log_Index stale = q_storedIndex q + 1 /\
    q_storedIndex q3 = idx.
Proof.
  intros Hwf Hpend Hidx Hne Hc Hmax Hsize.
  pose proof (qwf_le _ Hwf). pose proof (qwf_last _ Hwf).
  destruct logs as [|first rest]; [done|]. simpl length in Hmax.
  pose proof (contiguous_last _ _ _ Hc) as Hlast.
  pose proof (proj1 (contiguous_cons _ _ _) Hc) as [Hfirst _].
  pose proof (proj2 (broken_at_None 1 idx first rest Hfirst ltac:(lia) ltac:(lia)) Hc) as Hbr.
  exists {| q with q_storedIndex := idx; q_lastLogIndex := idx |}.
  eexists _, _, _. split_and!.
  - unfold truncateLogTo.
    destruct (Z.ltb_spec (q_lastLogIndex q) idx); [lia|].
    destruct (Z.ltb_spec idx (q_storedIndex q)); [done|lia].
  - intros Hbad. apply qwf_len in Hbad. simpl in Hbad. rewrite Hpend in Hbad.
    simpl in Hbad. lia.
  - unfold append. cbn -[u64 truncateLogTo]. rewrite Hbr, Hfirst.
    rewrite u64_small by (unfold is_u64; lia).
    replace (idx + 1 - 1) with idx by lia. rewrite Z.eqb_refl. done.
  - unfold nextStoreLogs. simpl. rewrite Hpend, Hlast. simpl app.
    destruct (Z.eqb_spec (len (stale :: more ++ first :: rest)) 0); [simpl in *; lia|].
    rewrite (u64_small (idx + 1 + len rest - idx)) by (unfold is_u64; lia).
    assert (Hl : 1 + len rest <= len (stale :: more ++ first :: rest)).
    { simpl. rewrite length_app. simpl. lia. }
    assert (Hl2 : len (stale :: more ++ first :: rest) < two64).
    { rewrite Hpend in Hsize. simpl in *. rewrite length_app. simpl. lia. }
    rewrite (u64_small (len _)) by (unfold is_u64; lia).
    destruct (Z.ltb_spec (len (stale :: more ++ first :: rest)) (idx + 1 + len rest - idx)); [lia|].
    simpl negb. cbn [andb]. rewrite slice_to_Ok by lia. simpl res_bind. reflexivity.
  - replace (Z.to_nat (idx + 1 + len rest - idx)) with (S (length rest)) by lia. done.
  - rewrite (qwf_contig _ Hwf 0%nat stale) by (by rewrite Hpend). lia.
  - done.
Qed.

Lemma truncate_below_stored_keeps_stale_witness :
  queue_wf sample /\ exists q1 q2 q3 out,
    truncateLogTo sample 3 = Ok q1 /\ ~ queue_wf q1 /\
    append q1 [lg 4; lg 5] = Ok (q2, None) /\
    nextStoreLogs q2 0 = Ok (q3, out) /\
    head out = Some (lg 6) /\ log_Index (lg 6) = 6 /\ q_storedIndex q3 = 3.
Proof.
  split; [apply sample_wf|].
  apply (truncate_below_stored_keeps_stale sample (lg 6) [lg 7] [lg 4; lg 5] 3);
    try done; [apply sample_wf|].
  repeat (apply contiguous_cons; split; [done|]); apply contiguous_nil.
Defined.

End QueueProps.
