(* ===== verification/RaftNode.v ===== *)
(** * The Raft node, [pkg/raft/raft/node*.go]

    The state of a node and every function of its event-driven core: the
    role changes ([node_become.go]), the events it emits ([node_send.go]),
    configuration switches ([node_config.go]), the clock ([node_tick.go]) and
    the event handlers ([node_step.go]).  A method that mutates the node is a
    function from the old to the new node; a method that may panic returns a
    [res]; a method that returns an error returns it beside the new node.
    Calls of the logger are left out. *)

From S2P Require Import Prelude RaftTypes RaftQueue.

(** ** State *)

(** [pkg/raft/raft/options.go] [Options]

    The fields used by the node.  [opt_HasAdvance] says that the [Advance]
    callback is set.  Two sources of nondeterminism of the standard library
    are carried as oracles: [opt_Rand k] is the k-th number drawn from
    [crypto/rand] and [opt_Clock k] the k-th reading of the clock.  An
    [ElectionInterval] that is not positive makes [crypto/rand], and so [NewNode],
    panic. *)
Record Options := mkOptions {
  opt_NodeId : Z;
  opt_SyncIntervalTick : Z;
  opt_SyncRespTimeoutTick : Z;
  opt_ElectionOn : bool;
  opt_HeartbeatInterval : Z;
  opt_ElectionInterval : Z;
  opt_Replicas : list Z;
  opt_HasAdvance : bool;
  opt_MaxLogCountPerBatch : Z;
  opt_LearnerToLeaderMinLogGap : Z;
  opt_LearnerToFollowerMinLogGap : Z;
  opt_FollowerToLeaderMinLogGap : Z;
  opt_AutoSuspend : bool;
  opt_AutoDestory : bool;
  opt_SuspendAfterEmptySyncTick : Z;
  opt_DestoryAfterIdleTick : Z;
  opt_Rand : nat -> Z;
  opt_Clock : nat -> Z
}.

(** [pkg/raft/raft/options.go] [NewOptions]

    The default values; the options of the source are updates of it. *)
Definition NewOptions : Options :=
  {| opt_NodeId := 0;
     opt_SyncIntervalTick := 2;
     opt_SyncRespTimeoutTick := 10;
     opt_ElectionOn := false;
     opt_HeartbeatInterval := 1;
     opt_ElectionInterval := 10;
     opt_Replicas := [];
     opt_HasAdvance := false;
     opt_MaxLogCountPerBatch := 1000;
     opt_LearnerToLeaderMinLogGap := 100;
     opt_LearnerToFollowerMinLogGap := 100;
     opt_FollowerToLeaderMinLogGap := 100;
     opt_AutoSuspend := false;
     opt_AutoDestory := false;
     opt_SuspendAfterEmptySyncTick := 10;
     opt_DestoryAfterIdleTick := 10 * 60 * 30;
     opt_Rand := fun _ => 0;
     opt_Clock := fun _ => 0 |}.

(** [pkg/raft/raft/common.go] [SyncInfo] *)
Record SyncInfo := mkSyncInfo {
  si_LastSyncIndex : Z;
  si_StoredIndex : Z;
  si_SyncTick : Z;
  si_GetingLogs : bool;
  si_roleSwitching : bool;
  si_emptySyncTick : Z;
  si_suspend : bool
}.

Definition emptySyncInfo : SyncInfo := mkSyncInfo 0 0 0 false false 0 false.

(** [pkg/raft/raft/node.go] [nodeReadState] *)
Record nodeReadState := mkReadState {
  rd_cfg : Config;
  rd_lastLogIndex : Z;
  rd_lastLogTerm : Z;
  rd_committedIndex : Z;
  rd_appliedIndex : Z;
  rd_replicaLogIndex : gmap Z Z
}.

(** The four step functions and the four tick functions a node switches
    between. *)
Inductive RoleFn := FnFollower | FnCandidate | FnLeader | FnLearner.

#[export] Instance RoleFn_eq_dec : EqDecision RoleFn.
Proof. solve_decision. Defined.

(** [pkg/raft/raft/node.go] [Node]

    [electionState] and [syncState] are inlined as in the source (embedded
    structs).  [n_advanced] is the pending token of the advance channel,
    [n_draws] and [n_reads] count the uses of the two oracles. *)
Record Node := mkNode {
  n_readState : option nodeReadState;
  n_events : list Event;
  n_opts : Options;
  n_syncElapsed : Z;
  n_tickFnc : option RoleFn;
  n_stepFunc : option RoleFn;
  n_queue : queue;
  n_heartbeatElapsed : Z;
  n_cfg : Config;
  n_electionElapsed : Z;
  n_randomizedElectionTimeout : Z;
  n_voteFor : Z;
  n_votes : gmap Z bool;
  n_replicaSync : gmap Z SyncInfo;
  n_lastTermStartIndex : TermStartIndexInfo;
  n_onlySync : bool;
  n_truncating : bool;
  n_stopPropose : bool;
  n_suspend : bool;
  n_idleTick : Z;
  n_syncing : bool;
  n_syncRespTimeoutTick : Z;
  n_advanced : bool;
  n_draws : nat;
  n_reads : nat
}.

Definition n_NodeId (n : Node) : Z := opt_NodeId (n_opts n).

(** ** The published snapshot, [node.go] *)

(** [pkg/raft/raft/node.go] [lines 115-118]

    The log index published for one replica. *)
Definition replicaIndexOf (info : SyncInfo) : Z :=
  if 0 <? si_LastSyncIndex info then si_LastSyncIndex info -64 1 else 0.

(** [pkg/raft/raft/node.go] [lines 73-77]

    The comparison of the configuration fields. *)
Definition sameConfig (cfg cfg' : Config) : bool :=
  (cfg_MigrateFrom cfg =? cfg_MigrateFrom cfg') &&
  (cfg_MigrateTo cfg =? cfg_MigrateTo cfg') &&
  bool_decide (cfg_Role cfg = cfg_Role cfg') &&
  (cfg_Term cfg =? cfg_Term cfg') && (cfg_Version cfg =? cfg_Version cfg') &&
  (cfg_Leader cfg =? cfg_Leader cfg') &&
  bool_decide (cfg_Replicas cfg = cfg_Replicas cfg') &&
  bool_decide (cfg_Learners cfg = cfg_Learners cfg').

(** [pkg/raft/raft/node.go] [lines 78-90]

    The comparison of the published replica indexes with the current ones. *)
Definition sameReplicas (old : gmap Z Z) (sync : gmap Z SyncInfo) : bool :=
  bool_decide (size old = size sync) &&
  forallb (fun '(id, info) =>
             match old !! id with
             | Some oldIndex => oldIndex =? replicaIndexOf info
             | None => false
             end) (map_to_list sync).

(** [pkg/raft/raft/node.go] [(n *Node) publishReadState] *)
Definition publishReadState (n : Node) : Node :=
  let q := n_queue n in
  let sc := match n_readState n with
            | Some previous => sameConfig (rd_cfg previous) (n_cfg n)
            | None => false
            end in
  let sr := match n_readState n with
            | Some previous => sameReplicas (rd_replicaLogIndex previous) (n_replicaSync n)
            | None => false
            end in
  let unchanged :=
    match n_readState n with
    | Some previous =>
        sc && sr && (rd_lastLogIndex previous =? q_lastLogIndex q) &&
        (rd_lastLogTerm previous =? tsi_Term (n_lastTermStartIndex n)) &&
        (rd_committedIndex previous =? q_committedIndex q) &&
        (rd_appliedIndex previous =? q_appliedIndex q)
    | None => false
    end in
  if unchanged then n
  else
    let state :=
      {| rd_cfg := match n_readState n with
                   | Some previous => if sc then rd_cfg previous else Config_Clone (n_cfg n)
                   | None => Config_Clone (n_cfg n)
                   end;
         rd_lastLogIndex := q_lastLogIndex q;
         rd_lastLogTerm := tsi_Term (n_lastTermStartIndex n);
         rd_committedIndex := q_committedIndex q;
         rd_appliedIndex := q_appliedIndex q;
         rd_replicaLogIndex :=
           match n_readState n with
           | Some previous =>
               if sr then rd_replicaLogIndex previous else replicaIndexOf <$> n_replicaSync n
           | None => replicaIndexOf <$> n_replicaSync n
           end |} in
    {| n with n_readState := Some state |}.

(** ** Role changes, [node_become.go] *)

(** [pkg/raft/raft/common.go] [(r *lockedRand) Intn]

    A uniform draw below [n]; [rand.Int] panics when there is nothing to draw from. *)
Definition Intn (draw n : Z) : res Z := if n <=? 0 then Panic else Ok (draw mod n).

(** [pkg/raft/raft/node_tick.go] [(n *Node) resetRandomizedElectionTimeout] *)
Definition resetRandomizedElectionTimeout (n : Node) : res Node :=
  let ei := opt_ElectionInterval (n_opts n) in
  let! d := Intn (opt_Rand (n_opts n) (n_draws n)) ei in
  Ok {| n with n_randomizedElectionTimeout := i64 (ei + d); n_draws := S (n_draws n) |}.

(** The same when the interval is positive.  [NewNode] draws before anything else, and the
    options of a node do not change, so every node that is made has a positive interval and
    the draws of its role changes return ([redraw_draws], [node_never_panics]). *)
Definition redraw (n : Node) : Node :=
  let ei := opt_ElectionInterval (n_opts n) in
  {| n with n_randomizedElectionTimeout := i64 (ei + opt_Rand (n_opts n) (n_draws n) mod ei);
            n_draws := S (n_draws n) |}.

Lemma redraw_draws n : 0 < opt_ElectionInterval (n_opts n) -> resetRandomizedElectionTimeout n = Ok (redraw n).
Proof. intros H. unfold resetRandomizedElectionTimeout, Intn. by rewrite (proj2 (Z.leb_gt _ _) H). Qed.
Lemma no_interval_panics n : opt_ElectionInterval (n_opts n) <= 0 -> resetRandomizedElectionTimeout n = Panic.
Proof. intros H. unfold resetRandomizedElectionTimeout, Intn. by rewrite (proj2 (Z.leb_le _ _) H). Qed.

(** [pkg/raft/raft/node_become.go] [(n *Node) reset] *)
Definition reset (n : Node) : Node :=
  redraw
    {| n with n_electionElapsed := 0;
              n_randomizedElectionTimeout := 0;
              n_voteFor := 0;
              n_votes := ∅;
              n_stopPropose := false;
              n_replicaSync := ∅;
              n_onlySync := false;
              n_suspend := false |}.

(** Assignments to fields of [n.cfg]. *)
Definition set_Term (n : Node) (t : Z) : Node :=
  {| n with n_cfg := {| (n_cfg n) with cfg_Term := t |} |}.
Definition set_Leader_Role (n : Node) (l : Z) (r : Role) : Node :=
  {| n with n_cfg := {| (n_cfg n) with cfg_Leader := l; cfg_Role := r |} |}.

(** [pkg/raft/raft/node_become.go] [(n *Node) BecomeCandidate] *)
Definition BecomeCandidate (n : Node) : res Node :=
  if decide (cfg_Role (n_cfg n) = RoleLeader) then Panic
  else
    let n := set_Term n (u32 (cfg_Term (n_cfg n) + 1)) in
    let n := {| n with n_stepFunc := Some FnCandidate |} in
    let n := reset n in
    let n := {| n with n_tickFnc := Some FnCandidate; n_voteFor := n_NodeId n |} in
    let n := set_Leader_Role n 0 RoleCandidate in
    Ok (publishReadState n).

(** [pkg/raft/raft/node_become.go] [(n *Node) BecomeFollower] *)
Definition BecomeFollower (n : Node) (term leaderId : Z) : Node :=
  let n := set_Term n term in
  let n := {| n with n_stepFunc := Some FnFollower |} in
  let n := reset n in
  let n := {| n with n_tickFnc := Some FnFollower; n_voteFor := None_ |} in
  let n := set_Leader_Role n leaderId RoleFollower in
  publishReadState n.

(** [pkg/raft/raft/node_become.go] [(n *Node) BecomeLeader] *)
Definition BecomeLeader (n : Node) (term : Z) : Node :=
  let n := set_Term n term in
  let n := {| n with n_stepFunc := Some FnLeader |} in
  let n := reset n in
  let n := {| n with n_tickFnc := Some FnLeader |} in
  let n := set_Leader_Role n (n_NodeId n) RoleLeader in
  publishReadState n.

(** [pkg/raft/raft/node_become.go] [(n *Node) BecomeLearner] *)
Definition BecomeLearner (n : Node) (term leaderId : Z) : Node :=
  let n := set_Term n term in
  let n := {| n with n_stepFunc := Some FnLearner |} in
  let n := reset n in
  let n := {| n with n_tickFnc := Some FnLearner; n_voteFor := None_ |} in
  let n := set_Leader_Role n leaderId RoleLearner in
  publishReadState n.

(** [pkg/raft/raft/node.go] [NewNode] *)
Definition NewNode (lastTermStartLogIndex : Z) (raftState : RaftState) (opts : Options)
  : res Node :=
  if rs_LastLogIndex raftState <? rs_AppliedIndex raftState then Panic
  else
    let term := if rs_LastTerm raftState =? 0 then 1 else rs_LastTerm raftState in
    let n :=
      {| n_readState := None;
         n_events := [];
         n_opts := opts;
         n_syncElapsed := 0;
         n_tickFnc := None;
         n_stepFunc := None;
         n_queue := newQueue (rs_AppliedIndex raftState) (rs_LastLogIndex raftState);
         n_heartbeatElapsed := 0;
         n_cfg := {| emptyConfig with cfg_Replicas := opt_Replicas opts; cfg_Term := term |};
         n_electionElapsed := 0;
         n_randomizedElectionTimeout := 0;
         n_voteFor := 0;
         n_votes := ∅;
         n_replicaSync := ∅;
         n_lastTermStartIndex := mkTSI 0 0;
         n_onlySync := false;
         n_truncating := false;
         n_stopPropose := false;
         n_suspend := false;
         n_idleTick := 0;
         n_syncing := false;
         n_syncRespTimeoutTick := 0;
         n_advanced := false;
         n_draws := 0;
         n_reads := 0 |} in
    let! n := resetRandomizedElectionTimeout n in
    let n := {| n with n_lastTermStartIndex := mkTSI (cfg_Term (n_cfg n)) lastTermStartLogIndex |} in
    let onlySelf :=
      match cfg_Replicas (n_cfg n) with
      | [r] => r =? opt_NodeId opts
      | _ => false
      end in
    let n :=
      if onlySelf then
        let n := if cfg_Term (n_cfg n) =? 0 then set_Term n 1 else n in
        BecomeLeader n (cfg_Term (n_cfg n))
      else if 0 <? len (cfg_Replicas (n_cfg n)) then
        BecomeFollower n (cfg_Term (n_cfg n)) None_
      else n in
    Ok (publishReadState n).

(** ** Emitted events, [node_send.go] *)

Definition emit (n : Node) (e : Event) : Node :=
  {| n with n_events := n_events n ++ [e] |}.

(** [pkg/raft/raft/node.go] [(n *Node) KeepAlive] *)
Definition KeepAlive (n : Node) : Node := {| n with n_idleTick := 0 |}.

(** [pkg/raft/raft/node.go] [(n *Node) advance]

    The callback fills the one-place advance channel. *)
Definition advance (n : Node) : Node :=
  if opt_HasAdvance (n_opts n) then {| n with n_advanced := true |} else n.

(** [pkg/raft/raft/node_send.go] [lines 13-18]

    Resuming a suspended replica. *)
Definition unsuspend (n : Node) (id : Z) : Node :=
  match n_replicaSync n !! id with
  | Some info =>
      {| n with n_replicaSync :=
           <[id := {| info with si_emptySyncTick := 0; si_suspend := false |}]>
             (n_replicaSync n) |}
  | None => n
  end.

(** [pkg/raft/raft/node_send.go] [lines 33-38] *)
Definition notifySyncEvent (n : Node) (to : Z) : Event :=
  {| emptyEvent with ev_Type := NotifySync; ev_From := n_NodeId n; ev_To := to;
                     ev_Term := cfg_Term (n_cfg n) |}.

(** [pkg/raft/raft/node_send.go] [(n *Node) sendNotifySync] *)
Definition sendNotifySync (n : Node) (to : Z) : Node :=
  if to =? All then
    foldl (fun n replicaId =>
             if replicaId =? n_NodeId n then n
             else let n := unsuspend n replicaId in
                  emit n (notifySyncEvent n replicaId))
          n (cfg_Replicas (n_cfg n))
  else
    let n := unsuspend n to in
    emit n (notifySyncEvent n to).

(** [pkg/raft/raft/node_send.go] [(n *Node) sendSyncReq] *)
Definition sendSyncReq (n : Node) : Node :=
  if n_truncating n || n_syncing n then n
  else
    let n := {| n with n_syncing := true; n_syncElapsed := 0 |} in
    let n := KeepAlive n in
    emit n
      {| emptyEvent with
           ev_Type := SyncReq; ev_From := n_NodeId n; ev_To := cfg_Leader (n_cfg n);
           ev_Term := cfg_Term (n_cfg n);
           ev_StoredIndex := q_storedIndex (n_queue n) +64 1;
           ev_Index := q_lastLogIndex (n_queue n) +64 1;
           ev_LastLogTerm := tsi_Term (n_lastTermStartIndex n);
           ev_Reason := if n_onlySync n then ReasonOnlySync else ReasonUnknown |}.

(** [pkg/raft/raft/node_send.go] [(n *Node) sendVoteReq] *)
Definition sendVoteReq (n : Node) (to : Z) : Node :=
  emit n
    {| emptyEvent with
         ev_Type := VoteReq; ev_From := n_NodeId n; ev_To := to;
         ev_Term := cfg_Term (n_cfg n);
         ev_Logs := [{| EmptyLog with log_Term := tsi_Term (n_lastTermStartIndex n);
                                      log_Index := q_lastLogIndex (n_queue n) |}] |}.

(** [pkg/raft/raft/node_send.go] [(n *Node) sendVoteResp] *)
Definition sendVoteResp (n : Node) (to : Z) (reason : Reason) : Node :=
  emit n
    {| emptyEvent with
         ev_Type := VoteResp; ev_From := n_NodeId n; ev_To := to;
         ev_Term := cfg_Term (n_cfg n); ev_Reason := reason;
         ev_Index := q_storedIndex (n_queue n) |}.

(** [pkg/raft/raft/node_send.go] [(n *Node) sendTermResp] *)
Definition sendTermResp (n : Node) (to : Z) : Node :=
  emit n
    {| emptyEvent with
         ev_Type := TermResp; ev_From := n_NodeId n; ev_To := to;
         ev_Term := cfg_Term (n_cfg n) |}.

(** [pkg/raft/raft/node_send.go] [lines 107-115]

    The two ping events: to one node it carries the committed index and the
    configuration version, in a broadcast it does not. *)
Definition pingOne (n : Node) (to : Z) : Event :=
  {| emptyEvent with
       ev_Type := Ping; ev_From := n_NodeId n; ev_To := to;
       ev_Term := cfg_Term (n_cfg n);
       ev_Index := q_lastLogIndex (n_queue n);
       ev_CommittedIndex := q_committedIndex (n_queue n);
       ev_ConfigVersion := cfg_Version (n_cfg n) |}.

(** [pkg/raft/raft/node_send.go] [lines 122-128] *)
Definition pingAll (n : Node) (to : Z) : Event :=
  {| emptyEvent with
       ev_Type := Ping; ev_From := n_NodeId n; ev_To := to;
       ev_Term := cfg_Term (n_cfg n);
       ev_Index := q_lastLogIndex (n_queue n) |}.

(** [pkg/raft/raft/node_send.go] [(n *Node) sendPing] *)
Definition sendPing (n : Node) (to : Z) : Node :=
  if negb (cfg_Leader (n_cfg n) =? n_NodeId n) then n
  else if negb (to =? All) then emit n (pingOne n to)
  else
    let ping n replicaId :=
      if replicaId =? n_NodeId n then n else emit n (pingAll n replicaId) in
    foldl ping (foldl ping n (cfg_Replicas (n_cfg n))) (cfg_Learners (n_cfg n)).

(** [pkg/raft/raft/node_send.go] [(n *Node) sendStoreReq] *)
Definition sendStoreReq (n : Node) (logs : list Log)
    (termStartIndexInfo : option TermStartIndexInfo) : Node :=
  emit n
    {| emptyEvent with
         ev_Type := StoreReq; ev_Term := cfg_Term (n_cfg n); ev_To := LocalNode;
         ev_Logs := logs; ev_TermStartIndexInfo := termStartIndexInfo |}.

(** [pkg/raft/raft/node_send.go] [(n *Node) sendApplyReq] *)
Definition sendApplyReq (n : Node) (start end_ : Z) : Node :=
  emit n
    {| emptyEvent with
         ev_Type := ApplyReq; ev_From := n_NodeId n; ev_To := LocalNode;
         ev_StartIndex := start; ev_EndIndex := end_ |}.

(** [pkg/raft/raft/node_send.go] [(n *Node) sendGetLogsReq] *)
Definition sendGetLogsReq (n : Node) (syncEvent : Event) : Node :=
  emit n
    {| emptyEvent with
         ev_Type := GetLogsReq; ev_From := ev_From syncEvent; ev_To := LocalNode;
         ev_Term := ev_Term syncEvent; ev_Index := ev_Index syncEvent;
         ev_StoredIndex := q_storedIndex (n_queue n);
         ev_LastLogTerm := ev_LastLogTerm syncEvent; ev_Reason := ev_Reason syncEvent |}.

(** [pkg/raft/raft/node_send.go] [(n *Node) sendSyncResp] *)
Definition sendSyncResp (n : Node) (to syncIndex : Z) (logs : list Log)
    (reson : Reason) (speed : Speed) : Node :=
  emit n
    {| emptyEvent with
         ev_Type := SyncResp; ev_From := n_NodeId n; ev_To := to;
         ev_Term := cfg_Term (n_cfg n); ev_Index := syncIndex; ev_Logs := logs;
         ev_CommittedIndex := q_committedIndex (n_queue n);
         ev_Reason := reson; ev_Speed := speed |}.

(** [pkg/raft/raft/node_send.go] [(n *Node) sendTruncateReq] *)
Definition sendTruncateReq (n : Node) (index : Z) : Node :=
  emit n
    {| emptyEvent with
         ev_Type := TruncateReq; ev_To := LocalNode;
         ev_LastLogTerm := tsi_Term (n_lastTermStartIndex n); ev_Index := index |}.

(** [pkg/raft/raft/node_send.go] [(n *Node) sendLearnerToLeaderReq] *)
Definition sendLearnerToLeaderReq (n : Node) (from : Z) : Node :=
  emit n {| emptyEvent with ev_Type := LearnerToLeaderReq; ev_From := from |}.

(** [pkg/raft/raft/node_send.go] [(n *Node) sendLearnerToFollowerReq] *)
Definition sendLearnerToFollowerReq (n : Node) (from : Z) : Node :=
  emit n {| emptyEvent with ev_Type := LearnerToFollowerReq; ev_From := from |}.

(** [pkg/raft/raft/node_send.go] [(n *Node) sendFollowToLeaderReq] *)
Definition sendFollowToLeaderReq (n : Node) (from : Z) : Node :=
  emit n {| emptyEvent with ev_Type := FollowerToLeaderReq; ev_From := from |}.

(** [pkg/raft/raft/node_send.go] [(n *Node) sendConfigReq] *)
Definition sendConfigReq (n : Node) : Node :=
  emit n
    {| emptyEvent with
         ev_Type := ConfigReq; ev_Term := cfg_Term (n_cfg n); ev_From := n_NodeId n;
         ev_To := cfg_Leader (n_cfg n) |}.

(** [pkg/raft/raft/node_send.go] [(n *Node) sendConfigResp] *)
Definition sendConfigResp (n : Node) (to : Z) (cfg : Config) : Node :=
  emit n
    {| emptyEvent with
         ev_Type := ConfigResp; ev_From := n_NodeId n; ev_To := to;
         ev_Term := cfg_Term (n_cfg n); ev_Config := cfg |}.

(** [pkg/raft/raft/node_send.go] [(n *Node) sendDestory] *)
Definition sendDestory (n : Node) : Node :=
  emit n {| emptyEvent with ev_Type := Destory; ev_To := LocalNode |}.

(** ** Configuration switches, [node_config.go] *)

(** [pkg/raft/raft/node_config.go] [(n *Node) roleChangeIfNeed] *)
Definition roleChangeIfNeed (n : Node) (oldCfg newCfg : Config) : Node :=
  let self := n_NodeId n in
  if bool_decide (cfg_Role oldCfg = RoleUnknown) &&
     bool_decide (cfg_Role newCfg = RoleUnknown) && (0 <? len (cfg_Replicas newCfg))
  then
    let onlySelf :=
      match cfg_Replicas newCfg with
      | [r] => r =? self
      | _ => false
      end in
    if onlySelf then BecomeLeader n (cfg_Term newCfg)
    else if 0 <? len (cfg_Replicas newCfg) then
      if negb (cfg_Leader newCfg =? 0) && (cfg_Leader newCfg =? self)
      then BecomeLeader n (cfg_Term newCfg)
      else if ArrayContainsUint64 (cfg_Replicas newCfg) self
      then BecomeFollower n (cfg_Term newCfg) (cfg_Leader newCfg)
      else if ArrayContainsUint64 (cfg_Learners newCfg) self
      then BecomeLearner n (cfg_Term newCfg) (cfg_Leader newCfg)
      else n
    else n
  else if negb (bool_decide (cfg_Role oldCfg = cfg_Role newCfg)) ||
          negb (cfg_Leader oldCfg =? cfg_Leader newCfg) ||
          negb (cfg_Term oldCfg =? cfg_Term newCfg)
  then
    if cfg_Leader newCfg =? self then BecomeLeader n (cfg_Term newCfg)
    else
      let role := if bool_decide (cfg_Role newCfg = RoleUnknown)
                  then cfg_Role oldCfg else cfg_Role newCfg in
      match role with
      | RoleLeader => BecomeLeader n (cfg_Term newCfg)
      | RoleFollower => BecomeFollower n (cfg_Term newCfg) (cfg_Leader newCfg)
      | RoleLearner => BecomeLearner n (cfg_Term newCfg) (cfg_Leader newCfg)
      | _ => n
      end
  else n.

(** [pkg/raft/raft/node_config.go] [lines 19-42]

    The configuration [switchConfig] installs: the term never goes back, and
    an unknown role is computed from the membership of this node. *)
Definition resolveConfig (self : Z) (oldCfg newCfg : Config) : Config :=
  let newCfg :=
    if negb (cfg_Term newCfg =? 0) && (cfg_Term newCfg <? cfg_Term oldCfg)
    then {| newCfg with cfg_Term := cfg_Term oldCfg |} else newCfg in
  let newCfg :=
    if cfg_Term newCfg =? 0
    then {| newCfg with cfg_Term := cfg_Term oldCfg |} else newCfg in
  if decide (cfg_Role newCfg = RoleUnknown) then
    let newCfg := {| newCfg with cfg_Role := cfg_Role oldCfg |} in
    let newCfg :=
      if (cfg_Leader newCfg =? 0) &&
         ArrayContainsUint64 (cfg_Replicas newCfg) (cfg_Leader oldCfg)
      then {| newCfg with cfg_Leader := cfg_Leader oldCfg |} else newCfg in
    if ArrayContainsUint64 (cfg_Learners newCfg) self
    then {| newCfg with cfg_Role := RoleLearner |}
    else if bool_decide (cfg_Role oldCfg = RoleLearner) &&
            ArrayContainsUint64 (cfg_Replicas newCfg) self
    then {| newCfg with cfg_Role := RoleFollower |}
    else if bool_decide (cfg_Role oldCfg = RoleLeader) &&
            negb (cfg_Leader newCfg =? self)
    then {| newCfg with cfg_Role := RoleFollower |}
    else newCfg
  else newCfg.

(** [pkg/raft/raft/node_config.go] [(n *Node) switchConfig] *)
Definition switchConfig (n : Node) (newCfg : Config) : Node * option GoError :=
  let oldCfg := n_cfg n in
  if cfg_Version newCfg <? cfg_Version oldCfg then (n, Some ErrConfigVersion)
  else
    let newCfg := resolveConfig (n_NodeId n) oldCfg newCfg in
    let n := {| n with n_votes := ∅; n_replicaSync := ∅ |} in
    let n := redraw n in
    let n := {| n with n_cfg := newCfg |} in
    (roleChangeIfNeed n oldCfg newCfg, None).

(** ** The clock, [node_tick.go] *)

(** [pkg/raft/raft/node_tick.go] [(n *Node) campaign] *)
Definition campaign (n : Node) : res Node :=
  if cfg_Leader (n_cfg n) =? n_NodeId n then
    Ok (BecomeFollower n (cfg_Term (n_cfg n)) 0)
  else
    let! n := BecomeCandidate n in
    Ok (foldl (fun n nodeId =>
                 if nodeId =? n_NodeId n then sendVoteReq n LocalNode
                 else sendVoteReq n nodeId)
              n (cfg_Replicas (n_cfg n))).

(** [pkg/raft/raft/node_tick.go] [(n *Node) hasSyncReq] *)
Definition hasSyncReq (n : Node) : bool :=
  existsb (fun e => bool_decide (ev_Type e = SyncReq)) (n_events n).

(** [pkg/raft/raft/node_tick.go] [(n *Node) pastElectionTimeout] *)
Definition pastElectionTimeout (n : Node) : bool :=
  n_randomizedElectionTimeout n <=? n_electionElapsed n.

(** [pkg/raft/raft/node_tick.go] [(n *Node) tickElection] *)
Definition tickElection (n : Node) : res Node :=
  let n := {| n with n_electionElapsed := i64 (n_electionElapsed n + 1) |} in
  if pastElectionTimeout n
  then campaign {| n with n_electionElapsed := 0 |} else Ok n.

(** [pkg/raft/raft/node_tick.go] [(n *Node) tickSync] *)
Definition tickSync (n : Node) : Node :=
  if n_syncing n then
    let n := {| n with n_syncRespTimeoutTick := i64 (n_syncRespTimeoutTick n + 1) |} in
    if opt_SyncRespTimeoutTick (n_opts n) <=? n_syncRespTimeoutTick n
    then {| n with n_syncing := false; n_syncRespTimeoutTick := 0 |} else n
  else
    let n := {| n with n_syncElapsed := i64 (n_syncElapsed n + 1) |} in
    if (opt_SyncIntervalTick (n_opts n) <=? n_syncElapsed n) &&
       negb (cfg_Leader (n_cfg n) =? 0)
    then
      let n := if hasSyncReq n then n else sendSyncReq n in
      {| n with n_syncElapsed := 0 |}
    else n.

(** [pkg/raft/raft/node_tick.go] [(n *Node) sendPingIfNeed] *)
Definition sendPingIfNeed (n : Node) (replicaId : Z) : Node :=
  let syncInfo := default emptySyncInfo (n_replicaSync n !! replicaId) in
  let syncInfo := {| syncInfo with si_SyncTick := i64 (si_SyncTick syncInfo + 1) |} in
  let n := {| n with n_replicaSync := <[replicaId := syncInfo]> (n_replicaSync n) |} in
  if (opt_SyncIntervalTick (n_opts n) <? si_SyncTick syncInfo) && negb (si_suspend syncInfo)
  then sendPing n replicaId else n.

(** [pkg/raft/raft/node_tick.go] [(n *Node) tickHeartbeat] *)
Definition tickHeartbeat (n : Node) : Node :=
  if opt_ElectionOn (n_opts n) then
    let n := {| n with n_heartbeatElapsed := i64 (n_heartbeatElapsed n + 1) |} in
    if opt_HeartbeatInterval (n_opts n) <=? n_heartbeatElapsed n
    then sendPing {| n with n_heartbeatElapsed := 0 |} All else n
  else
    let ping n id := if id =? n_NodeId n then n else sendPingIfNeed n id in
    foldl ping (foldl ping n (cfg_Replicas (n_cfg n))) (cfg_Learners (n_cfg n)).

(** [pkg/raft/raft/node_tick.go] [(n *Node) tickLeader] *)
Definition tickLeader (n : Node) : res Node := Ok (tickHeartbeat n).

(** [pkg/raft/raft/node_tick.go] [(n *Node) tickFollower] *)
Definition tickFollower (n : Node) : res Node :=
  let n := if n_suspend n then n else tickSync n in
  if opt_ElectionOn (n_opts n) then tickElection n else Ok n.

(** [pkg/raft/raft/node_tick.go] [(n *Node) tickLearner] *)
Definition tickLearner (n : Node) : res Node :=
  Ok (if n_suspend n then n else tickSync n).

(** [pkg/raft/raft/node_tick.go] [(n *Node) tickCandidate] *)
Definition tickCandidate (n : Node) : res Node :=
  if opt_ElectionOn (n_opts n) then tickElection n else Ok n.

(** [pkg/raft/raft/node_tick.go] [(n *Node) Tick]

    [keptAlive] says that another goroutine called [KeepAlive] between the
    increment and the compare-and-swap of the idle counter. *)
Definition Tick (n : Node) (keptAlive : bool) : res Node :=
  let idleTick := i64 (n_idleTick n + 1) in
  let n := {| n with n_idleTick := idleTick |} in
  let n := if keptAlive then KeepAlive n else n in
  let n :=
    if opt_AutoDestory (n_opts n) then
      if (opt_DestoryAfterIdleTick (n_opts n) <? idleTick) && (n_idleTick n =? idleTick)
      then sendDestory {| n with n_idleTick := 0 |} else n
    else n in
  let! n :=
    match n_tickFnc n with
    | None => Ok n
    | Some FnLeader => tickLeader n
    | Some FnFollower => tickFollower n
    | Some FnCandidate => tickCandidate n
    | Some FnLearner => tickLearner n
    end in
  Ok (publishReadState n).

(** ** Event handlers, [node_step.go] *)

(** [pkg/raft/raft/node.go] [(n *Node) isLearner] *)
Definition isLearner (n : Node) (nodeId : Z) : bool :=
  if len (cfg_Learners (n_cfg n)) =? 0 then false
  else existsb (fun learner => learner =? nodeId) (cfg_Learners (n_cfg n)).

(** [pkg/raft/raft/node_step.go] [(n *Node) quorum] *)
Definition quorum (n : Node) : Z := len (cfg_Replicas (n_cfg n)) / 2 + 1.

(** [pkg/raft/raft/node_step.go] [(n *Node) canVote] *)
Definition canVote (n : Node) (e : Event) : bool :=
  match ev_Logs e with
  | [] => false
  | candidateLog :: _ =>
      if ev_Term e <? cfg_Term (n_cfg n) then false
      else if negb (n_voteFor n =? None_) && negb (n_voteFor n =? ev_From e) then false
      else
        let lastLogIndex := q_lastLogIndex (n_queue n) in
        let lastLogTerm := tsi_Term (n_lastTermStartIndex n) in
        if (log_Term candidateLog <? lastLogTerm) ||
           (log_Term candidateLog =? lastLogTerm) && (log_Index candidateLog <? lastLogIndex)
        then false else true
  end.

(** [pkg/raft/raft/node_step.go] [(n *Node) poll] *)
Definition poll (n : Node) (e : Event) : Node :=
  let n := {| n with n_votes :=
                <[ev_From e := bool_decide (ev_Reason e = ReasonOk)]> (n_votes n) |} in
  let granted := len (filter (fun '(_, v) => v = true) (map_to_list (n_votes n))) in
  if Z.of_nat (size (n_votes n)) <? quorum n then n
  else if quorum n <=? granted then
    advance (sendPing (BecomeLeader n (cfg_Term (n_cfg n))) All)
  else BecomeFollower n (cfg_Term (n_cfg n)) None_.

(** [pkg/raft/raft/node_step.go] [(n *Node) updateSyncInfo] *)
Definition updateSyncInfo (n : Node) (e : Event) : Node :=
  let syncInfo := default emptySyncInfo (n_replicaSync n !! ev_From e) in
  let syncInfo := {| syncInfo with si_SyncTick := 0;
                                   si_LastSyncIndex := ev_Index e;
                                   si_StoredIndex := ev_StoredIndex e |} in
  {| n with n_replicaSync := <[ev_From e := syncInfo]> (n_replicaSync n) |}.

(** [pkg/raft/raft/node_step.go] [lines 504-518]

    The closure of [committedIndexForLeader] that finds the largest stored
    index below [maxIndex] (any, when [maxIndex] is 0). *)
Definition getMaxLogIndexLessThanParam (sync : list SyncInfo) (maxIndex : Z) : Z :=
  let secondMaxIndex :=
    foldl (fun secondMaxIndex syncInfo =>
             if (si_StoredIndex syncInfo <? maxIndex) || (maxIndex =? 0) then
               if secondMaxIndex <? si_StoredIndex syncInfo
               then si_StoredIndex syncInfo else secondMaxIndex
             else secondMaxIndex) 0 sync in
  if 0 <? secondMaxIndex then secondMaxIndex -64 1 else secondMaxIndex.

(** [pkg/raft/raft/node_step.go] [lines 534-542]

    The inner loop: do enough replicas hold [maxLogIndex]?  It stops as soon
    as the count reaches the quorum. *)
Fixpoint quorumHolds (sync : list SyncInfo) (maxLogIndex q count : Z) : bool :=
  match sync with
  | [] => false
  | syncInfo :: rest =>
      let count :=
        if maxLogIndex +64 1 <=? si_StoredIndex syncInfo then count + 1 else count in
      if q <=? count + 1 then true else quorumHolds rest maxLogIndex q count
  end.

(** [pkg/raft/raft/node_step.go] [lines 520-543]

    The outer loop, with a bound on its number of rounds. *)
Fixpoint commitLoop (fuel : nat) (sync : list SyncInfo) (storedIndex committed q : Z)
    (maxLogIndex newCommitted : Z) : res Z :=
  match fuel with
  | O => NoFuel
  | S fuel =>
      let maxLogIndex := getMaxLogIndexLessThanParam sync maxLogIndex in
      if maxLogIndex =? 0 then Ok newCommitted
      else if maxLogIndex <=? committed then Ok newCommitted
      else if storedIndex <? maxLogIndex then
        commitLoop fuel sync storedIndex committed q maxLogIndex newCommitted
      else
        let newCommitted :=
          if quorumHolds sync maxLogIndex q 0 then maxLogIndex else newCommitted in
        commitLoop fuel sync storedIndex committed q maxLogIndex newCommitted
  end.

(** The sync records of the replicas, in the order of a map iteration. *)
Definition syncInfos (n : Node) : list SyncInfo := (map_to_list (n_replicaSync n)).*2.

(** [pkg/raft/raft/node_step.go] [(n *Node) committedIndexForLeader] *)
Definition committedIndexForLeader (n : Node) : res Z :=
  let committed := q_committedIndex (n_queue n) in
  let stored := q_storedIndex (n_queue n) in
  if quorum n <=? 1 then Ok stored
  else
    let sync := syncInfos n in
    let! newCommitted :=
      commitLoop (S (S (length sync))) sync stored committed (quorum n) 0 0 in
    if committed <? newCommitted then Ok (Z.min newCommitted stored) else Ok committed.

Definition set_committed (n : Node) (c : Z) : Node :=
  {| n with n_queue := {| (n_queue n) with q_committedIndex := c |} |}.

(** [pkg/raft/raft/node_step.go] [(n *Node) updateLeaderCommittedIndex] *)
Definition updateLeaderCommittedIndex (n : Node) : res Node :=
  let! newCommitted := committedIndexForLeader n in
  if q_committedIndex (n_queue n) <? newCommitted
  then Ok (set_committed n newCommitted) else Ok n.

(** [pkg/raft/raft/node_step.go] [(n *Node) committedIndexForFollow] *)
Definition committedIndexForFollow (n : Node) (leaderCommittedIndex : Z) : Z :=
  if q_committedIndex (n_queue n) <? leaderCommittedIndex
  then Z.min leaderCommittedIndex (q_storedIndex (n_queue n))
  else q_committedIndex (n_queue n).

(** [pkg/raft/raft/node_step.go] [(n *Node) updateFollowCommittedIndex] *)
Definition updateFollowCommittedIndex (n : Node) (leaderCommittedIndex : Z) : Node :=
  if (leaderCommittedIndex =? 0) || (leaderCommittedIndex <=? q_committedIndex (n_queue n))
  then n
  else
    let newCommittedIndex := committedIndexForFollow n leaderCommittedIndex in
    if q_committedIndex (n_queue n) <? newCommittedIndex
    then set_committed n newCommittedIndex else n.

(** An assignment through the pointer [n.replicaSync[id]]. *)
Definition modifySync (n : Node) (id : Z) (f : SyncInfo -> SyncInfo) : res Node :=
  match n_replicaSync n !! id with
  | None => Panic
  | Some info => Ok {| n with n_replicaSync := <[id := f info]> (n_replicaSync n) |}
  end.

Definition set_roleSwitching (b : bool) (i : SyncInfo) : SyncInfo :=
  {| i with si_roleSwitching := b |}.

(** [pkg/raft/raft/node_step.go] [(n *Node) roleSwitchIfNeed] *)
Definition roleSwitchIfNeed (n : Node) (e : Event) : res Node :=
  let cfg := n_cfg n in
  let last := q_lastLogIndex (n_queue n) in
  if (cfg_MigrateTo cfg =? 0) || (cfg_MigrateFrom cfg =? 0) then Ok n
  else if negb (cfg_MigrateTo cfg =? ev_From e) then Ok n
  else
    match n_replicaSync n !! ev_From e with
    | None => Panic
    | Some syncInfo =>
        if si_roleSwitching syncInfo then Ok n
        else if isLearner n (ev_From e) then
          if cfg_MigrateFrom cfg =? cfg_Leader cfg then
            if last +64 1 <=? ev_Index e then
              let! n := modifySync n (ev_From e) (set_roleSwitching true) in
              Ok (sendLearnerToLeaderReq n (ev_From e))
            else if last <? ev_Index e +64 opt_LearnerToLeaderMinLogGap (n_opts n) then
              Ok {| n with n_stopPropose := true |}
            else Ok n
          else if (len (cfg_Replicas cfg) =? 1) && (last <? ev_Index e) then
            let! n := modifySync n (ev_From e) (set_roleSwitching true) in
            Ok (sendLearnerToFollowerReq n (ev_From e))
          else if last <? ev_Index e +64 opt_LearnerToFollowerMinLogGap (n_opts n) then
            let! n := modifySync n (ev_From e) (set_roleSwitching true) in
            Ok (sendLearnerToFollowerReq n (ev_From e))
          else Ok n
        else if (cfg_MigrateFrom cfg =? cfg_Leader cfg) && (cfg_MigrateTo cfg =? ev_From e)
        then
          if last +64 1 <=? ev_Index e then
            let! n := modifySync n (ev_From e) (set_roleSwitching true) in
            Ok (sendFollowToLeaderReq n (ev_From e))
          else if last <? ev_Index e +64 opt_FollowerToLeaderMinLogGap (n_opts n) then
            Ok {| n with n_stopPropose := true |}
          else Ok n
        else Ok n
    end.

(** [pkg/raft/track/track.go] [(m *Record) Add]

    [since] and [now] are the two readings of the clock. *)
Definition Record_Add (m : Record_) (p since now : Z) : Record_ :=
  let d := Z.max (- two63) (Z.min (two63 - 1) (since - rec_PreStart m)) in
  {| rec_Path := Z.lor (rec_Path m) (u16 (Z.shiftl 1 (16 - p)));
     rec_Cost := <[Z.to_nat (16 - p) := u16 (Z.quot d 1000000)]> (rec_Cost m);
     rec_PreStart := now |}.

Definition PositionPropose : Z := 2.
Definition PositionSyncResp : Z := 4.

(** The loop that stamps the logs of a response; it reads the clock twice per
    log, from the [k]-th reading on. *)
Fixpoint stampLogs (clock : nat -> Z) (k : nat) (p : Z) (logs : list Log) : list Log :=
  match logs with
  | [] => []
  | l :: rest =>
      {| l with log_Record := Record_Add (log_Record l) p (clock k) (clock (S k)) |}
        :: stampLogs clock (S (S k)) p rest
  end.

(** The result of a handler: the node and the error value. *)
Abbreviation handled := (res (Node * option GoError)).
Definition done_ (n : Node) : handled := Ok (n, None).

Definition set_queue (n : Node) (q : queue) : Node := {| n with n_queue := q |}.

(** [queue.append] on the node's queue. *)
Definition appendLogs (n : Node) (logs : list Log) : handled :=
  let! (q, err) := append (n_queue n) logs in
  Ok (set_queue n q, err).

(** [pkg/raft/raft/node_step.go] [lines 119-155]

    The branch of [stepLeader] for [SyncReq]. *)
Definition stepLeader_SyncReq (n : Node) (e : Event) : handled :=
  let n := KeepAlive n in
  let learner := isLearner n (ev_From e) in
  let n := updateSyncInfo n e in
  let! n := if learner then Ok n else updateLeaderCommittedIndex n in
  let! n := roleSwitchIfNeed n e in
  let stored := q_storedIndex (n_queue n) in
  if bool_decide (ev_Reason e = ReasonOnlySync) && (stored <? ev_Index e) || (stored =? 0)
  then
    if opt_AutoSuspend (n_opts n) then
      let! n := modifySync n (ev_From e) (fun i =>
                  {| i with si_emptySyncTick := i64 (si_emptySyncTick i + 1) |}) in
      let speed :=
        match n_replicaSync n !! ev_From e with
        | Some i => if opt_SuspendAfterEmptySyncTick (n_opts n) <? si_emptySyncTick i
                    then SpeedSuspend else SpeedFast
        | None => SpeedFast
        end in
      done_ (sendSyncResp n (ev_From e) (ev_Index e) [] ReasonOk speed)
    else done_ (sendSyncResp n (ev_From e) (ev_Index e) [] ReasonOk SpeedFast)
  else
    let! n := modifySync n (ev_From e) (fun i => {| i with si_emptySyncTick := 0 |}) in
    match n_replicaSync n !! ev_From e with
    | None => Panic
    | Some syncInfo =>
        if si_GetingLogs syncInfo then done_ n
        else
          let! n := modifySync n (ev_From e) (fun i => {| i with si_GetingLogs := true |}) in
          done_ (advance (sendGetLogsReq n e))
    end.

(** [pkg/raft/raft/node_step.go] [lines 158-166]

    [queue.appending = false] and, for a successful response, [storeTo]. *)
Definition storeResp (n : Node) (e : Event) : res Node :=
  let n := set_queue n {| (n_queue n) with q_appending := false |} in
  if bool_decide (ev_Reason e = ReasonOk) then
    if q_lastLogIndex (n_queue n) <? ev_Index e then Panic
    else let! q := storeTo (n_queue n) (ev_Index e) in Ok (set_queue n q)
  else Ok n.

(** [pkg/raft/raft/node_step.go] [(n *Node) stepLeader] *)
Definition stepLeader (n : Node) (e : Event) : handled :=
  match ev_Type e with
  | Propose =>
      if n_stopPropose n then Ok (n, Some ErrProposalDropped)
      else
        let n := KeepAlive n in
        let! (n, err) := appendLogs n (ev_Logs e) in
        match err with
        | Some _ => Ok (n, err)
        | None => done_ (advance n)
        end
  | SyncReq => stepLeader_SyncReq n e
  | StoreResp =>
      let! n := storeResp n e in
      if bool_decide (ev_Reason e = ReasonOk) then
        let! n := if quorum n <=? 1 then updateLeaderCommittedIndex n else Ok n in
        done_ (advance (sendNotifySync n All))
      else done_ n
  | GetLogsResp =>
      let n := match n_replicaSync n !! ev_To e with
               | Some info =>
                   {| n with n_replicaSync :=
                        <[ev_To e := {| info with si_GetingLogs := false |}]>
                          (n_replicaSync n) |}
               | None => n
               end in
      let logs := stampLogs (opt_Clock (n_opts n)) (n_reads n) PositionSyncResp (ev_Logs e) in
      let n := {| n with n_reads := (n_reads n + 2 * length logs)%nat |} in
      let n := sendSyncResp n (ev_To e) (ev_Index e) logs (ev_Reason e) SpeedFast in
      done_ (advance n)
  | LearnerToFollowerResp | LearnerToLeaderResp | FollowerToLeaderResp =>
      let n := {| n with n_stopPropose := false |} in
      match n_replicaSync n !! ev_From e with
      | None => done_ n
      | Some _ =>
          let! n := modifySync n (ev_From e) (set_roleSwitching false) in done_ n
      end
  | ConfigReq => done_ (sendConfigResp n (ev_From e) (Config_Clone (n_cfg n)))
  | _ => done_ n
  end.

(** [pkg/raft/raft/node_step.go] [(n *Node) stepFollower] *)
Definition stepFollower (n : Node) (e : Event) : handled :=
  match ev_Type e with
  | Propose => Ok (n, Some ErrNotLeader)
  | Ping =>
      let n := {| n with n_electionElapsed := 0 |} in
      let n := if cfg_Leader (n_cfg n) =? None_
               then BecomeFollower n (ev_Term e) (ev_From e) else n in
      let n := updateFollowCommittedIndex n (ev_CommittedIndex e) in
      let n := KeepAlive n in
      done_ (if cfg_Version (n_cfg n) <? ev_ConfigVersion e then sendConfigReq n else n)
  | NotifySync =>
      let n := KeepAlive n in
      let n := {| n with n_suspend := false |} in
      done_ (advance (sendSyncReq n))
  | SyncResp =>
      let n := {| n with n_electionElapsed := 0 |} in
      let n := KeepAlive n in
      let n := {| n with n_syncRespTimeoutTick := 0; n_syncing := false;
                         n_onlySync := true |} in
      match ev_Reason e with
      | ReasonOk =>
          match ev_Logs e with
          | [] =>
              let n := if bool_decide (ev_Speed e = SpeedSuspend)
                       then {| n with n_suspend := true |} else n in
              done_ (updateFollowCommittedIndex n (ev_CommittedIndex e))
          | _ :: _ =>
              let! (n, err) := appendLogs n (ev_Logs e) in
              match err with
              | Some _ => Ok (n, err)
              | None => done_ (updateFollowCommittedIndex (advance n) (ev_CommittedIndex e))
              end
          end
      | ReasonTruncate =>
          if n_truncating n then done_ n
          else
            let n := {| n with n_truncating := true |} in
            done_ (advance (sendTruncateReq n (ev_Index e)))
      | _ => done_ n
      end
  | TruncateResp =>
      let n := {| n with n_truncating := false |} in
      if bool_decide (ev_Reason e = ReasonOk) then
        let! n := if ev_Index e <? q_lastLogIndex (n_queue n)
                  then let! q := truncateLogTo (n_queue n) (ev_Index e) in Ok (set_queue n q)
                  else Ok n in
        done_ (advance (sendSyncReq n))
      else done_ n
  | StoreResp =>
      let! n := storeResp n e in
      if bool_decide (ev_Reason e = ReasonOk)
      then done_ (advance (sendSyncReq n)) else done_ n
  | ConfigResp =>
      let cfg := {| (ev_Config e) with cfg_Term := cfg_Term (n_cfg n);
                                       cfg_Role := RoleUnknown |} in
      done_ (switchConfig n cfg).1
  | _ => done_ n
  end.

(** [pkg/raft/raft/node_step.go] [(n *Node) stepCandidate] *)
Definition stepCandidate (n : Node) (e : Event) : handled :=
  match ev_Type e with
  | Propose => Ok (n, Some ErrNotLeader)
  | VoteResp => done_ (poll n e)
  | _ => done_ n
  end.

(** [pkg/raft/raft/node_step.go] [(n *Node) stepLearner] *)
Definition stepLearner (n : Node) (e : Event) : handled :=
  match ev_Type e with
  | Propose => Ok (n, Some ErrNotLeader)
  | Ping =>
      let n := {| n with n_electionElapsed := 0 |} in
      let n := if cfg_Leader (n_cfg n) =? None_
               then BecomeLearner n (ev_Term e) (ev_From e) else n in
      let n := updateFollowCommittedIndex n (ev_CommittedIndex e) in
      let n := KeepAlive n in
      done_ (if cfg_Version (n_cfg n) <? ev_ConfigVersion e then sendConfigReq n else n)
  | NotifySync =>
      let n := KeepAlive n in
      done_ (advance (sendSyncReq n))
  | SyncResp =>
      let n := {| n with n_electionElapsed := 0 |} in
      let n := KeepAlive n in
      let n := {| n with n_syncRespTimeoutTick := 0; n_syncing := false;
                         n_onlySync := true |} in
      match ev_Reason e with
      | ReasonOk =>
          match ev_Logs e with
          | [] =>
              let n := if bool_decide (ev_Speed e = SpeedSuspend)
                       then {| n with n_suspend := true |} else n in
              done_ (updateFollowCommittedIndex n (ev_CommittedIndex e))
          | _ :: _ =>
              let! (n, err) := appendLogs n (ev_Logs e) in
              match err with
              | Some _ => Ok (n, err)
              | None => done_ (updateFollowCommittedIndex (advance n) (ev_CommittedIndex e))
              end
          end
      | ReasonTruncate =>
          if n_truncating n then done_ n
          else
            let n := {| n with n_truncating := true |} in
            done_ (advance (sendTruncateReq n (ev_Index e)))
      | _ => done_ n
      end
  | TruncateResp =>
      let n := {| n with n_truncating := false |} in
      if bool_decide (ev_Reason e = ReasonOk) then
        let! n := if ev_Index e <? q_lastLogIndex (n_queue n)
                  then let! q := truncateLogTo (n_queue n) (ev_Index e) in Ok (set_queue n q)
                  else Ok n in
        done_ (advance (sendSyncReq n))
      else done_ n
  | StoreResp =>
      let! n := storeResp n e in
      if bool_decide (ev_Reason e = ReasonOk)
      then done_ (advance (sendSyncReq n)) else done_ n
  | ConfigResp =>
      let cfg := {| (ev_Config e) with cfg_Term := cfg_Term (n_cfg n);
                                       cfg_Role := RoleUnknown |} in
      done_ (switchConfig n cfg).1
  | _ => done_ n
  end.

(** [pkg/raft/raft/node_step.go] [lines 12-43]

    The change of term at the head of [Step]; the flag is [false] when the
    event is from an older term and goes no further. *)
Definition stepTerm (n : Node) (e : Event) : Node * bool :=
  if ev_Term e =? 0 then (n, true)
  else if ev_Term e <? cfg_Term (n_cfg n) then
    (if negb (ev_From e =? None_) && negb (ev_From e =? LocalNode) &&
        negb (ev_From e =? n_NodeId n)
     then match ev_Type e with
          | Ping | NotifySync | SyncReq => sendTermResp n (ev_From e)
          | _ => n
          end
     else n, false)
  else if cfg_Term (n_cfg n) <? ev_Term e then
    let leader := match ev_Type e with
                  | Ping | SyncResp | NotifySync => ev_From e
                  | _ => None_
                  end in
    (if bool_decide (cfg_Role (n_cfg n) = RoleLearner)
     then BecomeLearner n (ev_Term e) leader
     else BecomeFollower n (ev_Term e) leader, true)
  else (n, true).

(** [pkg/raft/raft/node_step.go] [lines 50-85]

    The branch of [Step] for [VoteReq]. *)
Definition stepVoteReq (n : Node) (e : Event) : Node :=
  if bool_decide (cfg_Role (n_cfg n) = RoleLearner) then
    BecomeFollower n (ev_Term e) (ev_From e)
  else if canVote n e then
    let n := if ev_From e =? n_NodeId n
             then sendVoteResp n LocalNode ReasonOk
             else sendVoteResp n (ev_From e) ReasonOk in
    {| n with n_voteFor := ev_From e; n_electionElapsed := 0 |}
  else sendVoteResp n (ev_From e) ReasonError.

(** [pkg/raft/raft/node_step.go] [lines 45-99]

    The dispatch on the event type, after the change of term. *)
Definition stepBody (n : Node) (e : Event) : handled :=
  match ev_Type e with
  | ConfChange => done_ (switchConfig n (ev_Config e)).1
  | Campaign => let! n := campaign n in done_ n
  | VoteReq => done_ (stepVoteReq n e)
  | ApplyResp =>
      if bool_decide (ev_Reason e = ReasonOk)
      then done_ (set_queue n (appliedTo (n_queue n) (ev_Index e)))
      else done_ (set_queue n {| (n_queue n) with q_applying := false |})
  | _ =>
      match n_stepFunc n with
      | None => done_ n
      | Some FnLeader => stepLeader n e
      | Some FnFollower => stepFollower n e
      | Some FnCandidate => stepCandidate n e
      | Some FnLearner => stepLearner n e
      end
  end.

(** [pkg/raft/raft/node_step.go] [(n *Node) Step] *)
Definition Step (n : Node) (e : Event) : handled :=
  let! (n, err) :=
    match stepTerm n e with
    | (n, false) => done_ n
    | (n, true) => stepBody n e
    end in
  Ok (publishReadState n, err).

(** ** Ready and the read-side accessors, [node.go] *)

(** [pkg/raft/raft/node.go] [(n *Node) updateLastTermStartIndex] *)
Definition updateLastTermStartIndex (n : Node) (term index : Z) : Node :=
  {| n with n_lastTermStartIndex := mkTSI term index |}.

(** [pkg/raft/raft/node.go] [lines 217-227]

    The loop of [Ready] over the logs to store. *)
Fixpoint firstTermChange (term : Z) (logs : list Log) : option TermStartIndexInfo :=
  match logs with
  | [] => None
  | log :: rest =>
      if negb (term =? log_Term log) || (log_Index log =? 1)
      then Some (mkTSI (log_Term log) (log_Index log))
      else firstTermChange term rest
  end.

(** [pkg/raft/raft/node.go] [(n *Node) HasReady] *)
Definition HasReady (n : Node) : bool :=
  hasNextStoreLogs (n_queue n) || hasNextApplyLogs (n_queue n) || (0 <? len (n_events n)).

(** [pkg/raft/raft/node.go] [(n *Node) Ready] *)
Definition Ready (n : Node) : res (Node * list Event) :=
  let! n :=
    if hasNextStoreLogs (n_queue n) then
      let! (q, logs) := nextStoreLogs (n_queue n) 0 in
      let n := set_queue n q in
      match logs with
      | [] => Ok n
      | _ :: _ =>
          let info := firstTermChange (tsi_Term (n_lastTermStartIndex n)) logs in
          let n := match info with
                   | Some i => updateLastTermStartIndex n (tsi_Term i) (tsi_Index i)
                   | None => n
                   end in
          Ok (sendStoreReq n logs info)
      end
    else Ok n in
  let n :=
    if hasNextApplyLogs (n_queue n) then
      let '(q, (start, end_)) := nextApplyLogs (n_queue n) in
      let n := set_queue n q in
      if 0 <? start then sendApplyReq n start end_ else n
    else n in
  Ok (publishReadState {| n with n_events := [] |}, n_events n).

(** [Ready] returns the slice [n.events] and then sets [n.events] to its prefix
    of length 0, so both share one array: an event that is emitted while the
    driver ranges over the slice is written over the first free place of the
    array, and a later read of that place sees it.  The i-th read is therefore
    the i-th event emitted since [Ready], when there are that many. *)
Definition readSlot (events : list Event) (n : Node) (i : nat) : option Event :=
  match n_events n !! i with
  | Some e => Some e
  | None => events !! i
  end.

(** [pkg/raft/raft/node.go] [(n *Node) NewPropose] *)
Definition NewPropose (n : Node) (data : bytes) : Event :=
  {| emptyEvent with
       ev_Type := Propose;
       ev_Logs := [{| EmptyLog with log_Term := cfg_Term (n_cfg n);
                                    log_Index := q_lastLogIndex (n_queue n) +64 1;
                                    log_Data := data |}] |}.

(** The accessors read the published snapshot; a nil snapshot would be a nil
    dereference. *)
Definition readState (n : Node) : res nodeReadState :=
  match n_readState n with
  | Some s => Ok s
  | None => Panic
  end.

(** [pkg/raft/raft/node.go] [(n *Node) LastLogIndex] *)
Definition LastLogIndex (n : Node) : res Z := let! s := readState n in Ok (rd_lastLogIndex s).
(** [pkg/raft/raft/node.go] [(n *Node) LastLogTerm] *)
Definition LastLogTerm (n : Node) : res Z := let! s := readState n in Ok (rd_lastLogTerm s).
(** [pkg/raft/raft/node.go] [(n *Node) LastTerm] *)
Definition LastTerm (n : Node) : res Z := let! s := readState n in Ok (cfg_Term (rd_cfg s)).
(** [pkg/raft/raft/node.go] [(n *Node) LeaderId] *)
Definition LeaderId (n : Node) : res Z := let! s := readState n in Ok (cfg_Leader (rd_cfg s)).
(** [pkg/raft/raft/node.go] [(n *Node) Config] *)
Definition NodeConfig (n : Node) : res Config :=
  let! s := readState n in Ok (Config_Clone (rd_cfg s)).
(** [pkg/raft/raft/node.go] [(n *Node) IsLeader] *)
Definition IsLeader (n : Node) : res bool :=
  let! l := LeaderId n in Ok (l =? n_NodeId n).
(** [pkg/raft/raft/node.go] [(n *Node) CommittedIndex] *)
Definition CommittedIndex (n : Node) : res Z :=
  let! s := readState n in Ok (rd_committedIndex s).
(** [pkg/raft/raft/node.go] [(n *Node) AppliedIndex] *)
Definition AppliedIndex (n : Node) : res Z :=
  let! s := readState n in Ok (rd_appliedIndex s).
(** [pkg/raft/raft/node.go] [(n *Node) GetReplicaLastLogIndex] *)
Definition GetReplicaLastLogIndex (n : Node) (replicaId : Z) : res Z :=
  let! s := readState n in
  if replicaId =? n_NodeId n then Ok (rd_lastLogIndex s)
  else Ok (default 0 (rd_replicaLogIndex s !! replicaId)).
