(* ===== verification/RaftCommit.v ===== *)
(** * How a leader commits, [committedIndexForLeader]

    The loop of [pkg/raft/raft/node_step.go] that computes the committed index
    of a leader from the stored indexes its replicas report: it terminates, it
    only commits what a quorum stores, and it makes progress when the replicas
    have caught up.  The last section shows where the loop falls short of the
    largest index stored by a quorum. *)

From S2P Require Import Prelude RaftTypes RaftQueue RaftNode.

(** ** The next candidate *)

Section NextCandidate.
Context (sync : list SyncInfo).

(** The replicas a round looks at. *)
Definition below (maxIndex : Z) (i : SyncInfo) : Prop :=
  si_StoredIndex i < maxIndex \/ maxIndex = 0.

#[local] Instance below_dec m i : Decision (below m i).
Proof. unfold below. apply _. Defined.

Definition stored_u64 : Prop := Forall (fun i => is_u64 (si_StoredIndex i)) sync.

Lemma secondMax_spec maxIndex acc l :
  0 <= acc ->
  let r := foldl (fun acc i =>
             if (si_StoredIndex i <? maxIndex) || (maxIndex =? 0) then
               if acc <? si_StoredIndex i then si_StoredIndex i else acc
             else acc) acc l in
  acc <= r /\
  (forall i, i ∈ l -> below maxIndex i -> si_StoredIndex i <= r) /\
  (r = acc \/ exists i, i ∈ l /\ below maxIndex i /\ si_StoredIndex i = r).
Proof.
  revert acc. induction l as [|x l IH]; intros acc Hacc; simpl.
  - split_and!; [lia| |by left]. intros i Hi. by apply not_elem_of_nil in Hi.
  - set (acc' := if _ || _ then _ else _).
    assert (Hstep : acc <= acc' /\ (below maxIndex x -> si_StoredIndex x <= acc') /\
      (acc' = acc \/ below maxIndex x /\ si_StoredIndex x = acc')).
    { unfold acc', below. zcases; simpl; split_and!; try lia; auto. }
    destruct Hstep as (H1 & H2 & H3).
    destruct (IH acc' ltac:(lia)) as (I1 & I2 & I3). split_and!.
    + lia.
    + intros i [->|Hi]%elem_of_cons Hb; [|by apply I2].
      specialize (H2 Hb). lia.
    + destruct I3 as [I3|(i & Hi & Hb & He)].
      * destruct H3 as [H3|[Hb He]]; [left; congruence|].
        right. exists x. split_and!; auto; [constructor|congruence].
      * right. exists i. split_and!; auto. by constructor.
Qed.

(** The candidate [r] of a round: some replica of the round stores exactly up
    to [r], and none stores more. *)
Lemma getMax_spec maxIndex :
  stored_u64 ->
  let r := getMaxLogIndexLessThanParam sync maxIndex in
  0 <= r < two64 - 1 /\
  (forall i, i ∈ sync -> below maxIndex i -> si_StoredIndex i <= r + 1) /\
  (0 < r -> exists i, i ∈ sync /\ below maxIndex i /\ si_StoredIndex i = r + 1).
Proof.
  intros Hu r.
  pose proof (secondMax_spec maxIndex 0 sync ltac:(lia)) as (H1 & H2 & H3).
  unfold r, getMaxLogIndexLessThanParam.
  set (s := foldl _ 0 sync) in *.
  destruct H3 as [H3|(i & Hi & Hb & He)].
  - rewrite H3 in *. simpl. split_and!; [lia|lia| |lia].
    intros j Hj Hbj. specialize (H2 j Hj Hbj). lia.
  - pose proof (proj1 (Forall_forall _ _) Hu i Hi) as Hi64.
    unfold is_u64 in Hi64. destruct (Z.ltb_spec 0 s).
    + rewrite u64_small by (unfold is_u64; lia). split_and!; [lia|lia| |].
      * intros j Hj Hbj. specialize (H2 j Hj Hbj). lia.
      * intros _. exists i. split_and!; auto. lia.
    + split_and!; [lia|lia| |lia]. intros j Hj Hbj. specialize (H2 j Hj Hbj). lia.
Qed.

(** The number of replicas left for the next rounds. *)
Definition left_below (m : Z) : nat := length (filter (below m) sync).

Lemma left_below_lt m r :
  stored_u64 -> r = getMaxLogIndexLessThanParam sync m -> 0 < r ->
  (left_below r < left_below m)%nat.
Proof.
  intros Hu -> Hr. pose proof (getMax_spec m Hu) as (_ & _ & H).
  set (r := getMaxLogIndexLessThanParam sync m) in *.
  destruct (H Hr) as (i & Hi & Hb & He). unfold left_below.
  apply filter_length_lt.
  - intros j Hj [?|?]; [|lia]. destruct Hb; [left; lia|by right].
  - exists i. split_and!; auto. unfold below. lia.
Qed.

(** ** The inner loop *)

Definition holders (m : Z) : nat :=
  length (filter (fun i => m + 1 <= si_StoredIndex i) sync).

Lemma quorumHolds_count l m q count :
  0 <= m < two64 - 1 -> count + 1 < q ->
  quorumHolds l m q count = true <->
  q <= count + 1 + Z.of_nat (length (filter (fun i => m + 1 <= si_StoredIndex i) l)).
Proof.
  intros Hm. revert count. induction l as [|x l IH]; intros count Hq; simpl.
  - lia.
  - rewrite u64_small by (unfold is_u64; lia). rewrite filter_cons.
    destruct (Z.leb_spec (m + 1) (si_StoredIndex x)); case_decide; try lia.
    + simpl length. destruct (Z.leb_spec q (count + 1 + 1)); [split; [lia|done]|].
      rewrite IH by lia. lia.
    + destruct (Z.leb_spec q (count + 1)); [lia|]. rewrite IH by lia. lia.
Qed.

Lemma quorumHolds_spec m q :
  0 <= m < two64 - 1 -> 2 <= q ->
  quorumHolds sync m q 0 = true <-> q <= 1 + Z.of_nat (holders m).
Proof. intros. rewrite quorumHolds_count by lia. unfold holders. lia. Qed.

(** ** The outer loop *)

Context (stored committed q : Z).

(** Enough rounds: one for each replica still below the bound, and one to
    stop. *)
Lemma commitLoop_total fuel m nc :
  stored_u64 -> (left_below m < fuel)%nat ->
  exists r, commitLoop fuel sync stored committed q m nc = Ok r.
Proof.
  intros Hu. revert m nc. induction fuel as [|fuel IH]; intros m nc Hf; [lia|].
  simpl. pose proof (getMax_spec m Hu) as (Hr & _).
  set (r := getMaxLogIndexLessThanParam sync m) in *.
  destruct (Z.eqb_spec r 0); [eauto|].
  assert ((left_below r < left_below m)%nat).
  { apply left_below_lt; auto. lia. }
  destruct (r <=? committed); [eauto|].
  destruct (stored <? r); apply IH; lia.
Qed.

(** What the loop returns is the old value or an index stored by this node
    and by a quorum, above the committed one. *)
Lemma commitLoop_safe fuel m nc r :
  stored_u64 -> 2 <= q ->
  commitLoop fuel sync stored committed q m nc = Ok r ->
  r = nc \/
  (committed < r <= stored /\ 0 < r < two64 - 1 /\ q <= 1 + Z.of_nat (holders r)).
Proof.
  intros Hu Hq. revert m nc. induction fuel as [|fuel IH]; intros m nc; simpl; [done|].
  pose proof (getMax_spec m Hu) as (Hr & _).
  set (k := getMaxLogIndexLessThanParam sync m) in *.
  destruct (Z.eqb_spec k 0); [intros [= ->]; by left|].
  destruct (Z.leb_spec k committed); [intros [= ->]; by left|].
  destruct (Z.ltb_spec stored k); [by apply IH|].
  intros Hl. destruct (quorumHolds sync k q 0) eqn:Hk.
  - destruct (IH _ _ Hl) as [->|?]; [|by right].
    right. apply quorumHolds_spec in Hk; [|lia|lia]. split_and!; try lia; auto.
  - apply (IH _ _ Hl).
Qed.

(** Once a round succeeds the result is above the committed index. *)
Lemma commitLoop_found fuel m nc r :
  committed < nc ->
  commitLoop fuel sync stored committed q m nc = Ok r -> committed < r.
Proof.
  revert m nc. induction fuel as [|fuel IH]; intros m nc Hnc; simpl; [done|].
  set (k := getMaxLogIndexLessThanParam sync m) in *.
  destruct (Z.eqb_spec k 0); [by intros [= <-]|].
  destruct (Z.leb_spec k committed); [by intros [= <-]|].
  destruct (Z.ltb_spec stored k); [by apply IH|].
  destruct (quorumHolds sync k q 0); apply IH; lia.
Qed.

End NextCandidate.

(** ** The node *)

(** The sync records hold machine integers. *)
Definition sync_ok (n : Node) : Prop :=
  map_Forall (fun _ i => is_u64 (si_StoredIndex i)) (n_replicaSync n).

Lemma sync_ok_infos n : sync_ok n -> stored_u64 (syncInfos n).
Proof.
  intros H. apply Forall_forall. intros i Hi. unfold syncInfos in Hi.
  apply list_elem_of_fmap in Hi as ([k i'] & -> & Hi%elem_of_map_to_list).
  by apply (H k).
Qed.

Lemma left_below_length sync m : (left_below sync m <= length sync)%nat.
Proof. apply length_filter. Qed.

Lemma committedIndexForLeader_total n :
  sync_ok n -> exists c, committedIndexForLeader n = Ok c.
Proof.
  intros H%sync_ok_infos. unfold committedIndexForLeader.
  destruct (quorum n <=? 1); [eauto|].
  destruct (commitLoop_total (syncInfos n) (q_storedIndex (n_queue n))
              (q_committedIndex (n_queue n)) (quorum n)
              (S (S (length (syncInfos n)))) 0 0 H) as [r ->].
  { pose proof (left_below_length (syncInfos n) 0). lia. }
  simpl. destruct (_ <? r); eauto.
Qed.

Lemma committedIndexForLeader_safe n c :
  sync_ok n -> 0 <= q_committedIndex (n_queue n) -> committedIndexForLeader n = Ok c ->
  q_committedIndex (n_queue n) < c ->
  c <= q_storedIndex (n_queue n) /\
  (quorum n <= 1 \/
   (0 < c < two64 - 1 /\ quorum n <= 1 + Z.of_nat (holders (syncInfos n) c))).
Proof.
  intros Hs%sync_ok_infos H0. unfold committedIndexForLeader.
  destruct (Z.leb_spec (quorum n) 1) as [Hq|Hq].
  - intros [= <-] ?. split; [lia|by left].
  - intros (r & Hr & Hc)%res_bind_Ok Hlt.
    apply commitLoop_safe in Hr as [->|(H1 & H2 & H3)]; [| |done|lia].
    + destruct (Z.ltb_spec (q_committedIndex (n_queue n)) 0);
        injection Hc as <-; lia.
    + destruct (Z.ltb_spec (q_committedIndex (n_queue n)) r); [|lia].
      injection Hc as <-. rewrite Z.min_l by lia. split; [lia|right; lia].
Qed.

(** Does replica [r] hold the log at index [c], as far as the leader knows? *)
Definition holdsIndex (n : Node) (c : Z) (r : Z) : bool :=
  (r =? n_NodeId n) ||
  match n_replicaSync n !! r with
  | Some i => c + 1 <=? si_StoredIndex i
  | None => false
  end.

(** The members that sync with a leader: none is the leader itself, and all
    are in the replica list. *)
Record members_ok (n : Node) : Prop := {
  mem_nodup : NoDup (cfg_Replicas (n_cfg n));
  mem_self : n_NodeId n ∈ cfg_Replicas (n_cfg n);
  mem_sync : map_Forall (fun id _ => id ∈ cfg_Replicas (n_cfg n) /\ id <> n_NodeId n)
               (n_replicaSync n)
}.

Lemma holders_ids n c :
  Z.of_nat (holders (syncInfos n) c) =
  Z.of_nat (length (filter (fun '(_, i) => c + 1 <= si_StoredIndex i)
                           (map_to_list (n_replicaSync n)))).
Proof.
  unfold holders, syncInfos. f_equal.
  induction (map_to_list (n_replicaSync n)) as [|[k i] l IH]; [done|].
  rewrite fmap_cons, !filter_cons. simpl.
  repeat case_decide; simpl in *; [by f_equal|done].
Qed.

Lemma holders_replicas n c :
  members_ok n ->
  1 + Z.of_nat (holders (syncInfos n) c) <=
  len (filter (fun r => holdsIndex n c r = true) (cfg_Replicas (n_cfg n))).
Proof.
  intros [Hnd Hself Hsync]. rewrite holders_ids.
  set (hs := filter _ (map_to_list (n_replicaSync n))).
  assert (Hids : NoDup (n_NodeId n :: hs.*1)).
  { apply NoDup_cons. split.
    - intros ([k i] & Hk & Hi)%list_elem_of_fmap. simpl in Hk. subst k.
      apply list_elem_of_filter in Hi as [_ Hi%elem_of_map_to_list].
      by destruct (Hsync _ _ Hi).
    - eapply sublist_NoDup; [apply (NoDup_fst_map_to_list (n_replicaSync n))|].
      apply fmap_sublist, sublist_filter. }
  replace (1 + len hs) with (len (n_NodeId n :: hs.*1)) by (simpl; rewrite length_fmap; lia).
  apply inj_le, submseteq_length, NoDup_submseteq; [done|].
  intros r Hr. apply list_elem_of_filter. unfold holdsIndex.
  apply elem_of_cons in Hr as [->|Hr].
  - by rewrite Z.eqb_refl.
  - apply list_elem_of_fmap in Hr as ([k i] & -> & Hi).
    apply list_elem_of_filter in Hi as [Hc Hi%elem_of_map_to_list]. simpl.
    rewrite Hi. split; [|by apply (Hsync _ _ Hi)].
    apply orb_true_iff. right. apply Z.leb_le. done.
Qed.

Lemma quorum_bound n : 1 <= quorum n.
Proof. unfold quorum. pose proof (Z.div_pos (len (cfg_Replicas (n_cfg n))) 2). lia. Qed.

(** The new committed index of a leader, when it moves. *)
Lemma updateLeaderCommittedIndex_spec n :
  sync_ok n ->
  exists n', updateLeaderCommittedIndex n = Ok n' /\
    (n' = n \/
     exists c, committedIndexForLeader n = Ok c /\
       q_committedIndex (n_queue n) < c /\ n' = set_committed n c).
Proof.
  intros H. unfold updateLeaderCommittedIndex.
  destruct (committedIndexForLeader_total n H) as [c Hc]. rewrite Hc. simpl.
  destruct (Z.ltb_spec (q_committedIndex (n_queue n)) c); eexists; split; eauto.
Qed.

(** ** Progress *)

(** When the most advanced replica round succeeds, the committed index
    moves. *)
Lemma commit_progress_lemma n r :
  sync_ok n -> 2 <= quorum n -> 0 <= q_committedIndex (n_queue n) ->
  r = getMaxLogIndexLessThanParam (syncInfos n) 0 ->
  q_committedIndex (n_queue n) < r <= q_storedIndex (n_queue n) ->
  quorum n <= 1 + Z.of_nat (holders (syncInfos n) r) ->
  exists c, committedIndexForLeader n = Ok c /\
    q_committedIndex (n_queue n) < c <= q_storedIndex (n_queue n).
Proof.
  intros Hs Hq H0 Hr Hb Hh.
  destruct (committedIndexForLeader_total n Hs) as [c Hc]. exists c. split; [done|].
  enough (q_committedIndex (n_queue n) < c) as Hlt.
  { split; [done|]. by apply (committedIndexForLeader_safe n c). }
  pose proof (getMax_spec (syncInfos n) 0 (sync_ok_infos n Hs)) as (Hr64 & _).
  rewrite <-Hr in Hr64. revert Hc. unfold committedIndexForLeader.
  destruct (Z.leb_spec (quorum n) 1); [lia|]. intros (k & Hk & Hc)%res_bind_Ok.
  cbn -[syncInfos getMaxLogIndexLessThanParam] in Hk. rewrite <-Hr in Hk.
  destruct (Z.eqb_spec r 0); [lia|].
  destruct (Z.leb_spec r (q_committedIndex (n_queue n))); [lia|].
  destruct (Z.ltb_spec (q_storedIndex (n_queue n)) r); [lia|].
  rewrite (proj2 (quorumHolds_spec (syncInfos n) r (quorum n) Hr64 ltac:(lia)) Hh) in Hk.
  apply (commitLoop_found (syncInfos n) _ _ _ (S (length (syncInfos n))) r) in Hk; [|lia].
  destruct (Z.ltb_spec (q_committedIndex (n_queue n)) k); [|lia].
  injection Hc as <-. lia.
Qed.

(** ** Properties of the leader's commit rule *)

(** Sequences of events. *)
Fixpoint runEvents (n : Node) (es : list Event) : res Node :=
  match es with
  | [] => Ok n
  | e :: es => let! (n, _) := Step n e in runEvents n es
  end.

Module CommitProps.

(** A leader of term 2 with five replicas and twenty stored logs, elected by
    the votes of 2 and 3. *)
Definition opts5 : Options :=
  {| NewOptions with opt_NodeId := 1; opt_ElectionOn := true;
                     opt_Replicas := [1; 2; 3; 4; 5] |}.

Definition vote (from term : Z) : Event :=
  {| emptyEvent with ev_Type := VoteResp; ev_From := from; ev_Term := term;
                     ev_Reason := ReasonOk |}.

Definition sync (from term stored : Z) : Event :=
  {| emptyEvent with ev_Type := SyncReq; ev_From := from; ev_Term := term;
                     ev_Index := stored; ev_StoredIndex := stored |}.

Definition elect (opts : Options) (voters : list Z) : res Node :=
  let! n := NewNode 1 (mkRaftState 20 1 0) opts in
  runEvents n ({| emptyEvent with ev_Type := Campaign |} ::
               map (fun v => vote v 2) voters).

Definition leader5 (syncs : list (Z * Z)) : res Node :=
  let! n := elect opts5 [1; 2; 3] in
  runEvents n (map (fun '(from, stored) => sync from 2 stored) syncs).

(** [Ok n] holds a leader whose committed index is [c]. *)
Definition committed_is (m : res Node) (c : Z) : bool :=
  match m with
  | Ok n => bool_decide (cfg_Role (n_cfg n) = RoleLeader) &&
            (q_committedIndex (n_queue n) =? c)
  | _ => false
  end.

(** The number of replicas that hold index [c] in the state of [m]. *)
Definition holders_of (m : res Node) (c : Z) : Z :=
  match m with
  | Ok n => len (filter (fun r => holdsIndex n c r = true) (cfg_Replicas (n_cfg n)))
  | _ => 0
  end.


(** The state of [leader5] before the second replica reports, and after the
    update. *)
Definition before_commit : res Node :=
  let! n := leader5 [(2, 10)] in Ok (updateSyncInfo n (sync 3 2 8)).

Definition the_node (m : res Node) : Node :=
  match m with
  | Ok n => n
  | _ => mkNode None [] NewOptions 0 None None (newQueue 0 0) 0 emptyConfig 0 0 0 ∅ ∅
           (mkTSI 0 0) false false false false 0 false 0 false 0 0
  end.


(**  Commit progress: if the most advanced index reported by the replicas
    is above the committed one, stored by the leader and held by a quorum,
    the loop returns an index above the committed one. *)
Theorem commit_progress (n : Node) (r : Z) :
  sync_ok n -> 2 <= quorum n -> 0 <= q_committedIndex (n_queue n) ->
  r = getMaxLogIndexLessThanParam (syncInfos n) 0 ->
  q_committedIndex (n_queue n) < r <= q_storedIndex (n_queue n) ->
  quorum n <= 1 + Z.of_nat (holders (syncInfos n) r) ->
  exists c, committedIndexForLeader n = Ok c /\
    q_committedIndex (n_queue n) < c <= q_storedIndex (n_queue n).
Proof. apply commit_progress_lemma. Qed.

Lemma commit_progress_witness :
  let n := the_node (let! n := leader5 [(2, 10)] in Ok (updateSyncInfo n (sync 3 2 10))) in
  exists c, committedIndexForLeader n = Ok c /\
    q_committedIndex (n_queue n) < c <= q_storedIndex (n_queue n).
Proof. intros n. apply (commit_progress n 9); decide_goal. Defined.

(** C40.  The commit loop terminates: with machine-integer sync records the
    computation returns an index, whatever the replicas report. *)
Theorem commit_terminates (n : Node) :
  sync_ok n -> exists c, committedIndexForLeader n = Ok c.
Proof. apply committedIndexForLeader_total. Qed.

Lemma commit_terminates_witness :
  exists c, committedIndexForLeader (the_node before_commit) = Ok c.
Proof. apply commit_terminates. decide_goal. Defined.

(**  The loop does not compute the largest index stored by a quorum: a
    replica exactly one log behind the most advanced one is skipped.  With
    reports 10 and 9 from two of five replicas the leader commits nothing,
    although it and both replicas (a quorum of three) hold index 8; with
    reports 10, 9, 9 and 9 all five hold it, and still nothing is committed. *)
Theorem commit_falls_short :
  committed_is (leader5 [(2, 10); (3, 9)]) 0 = true /\
  holders_of (leader5 [(2, 10); (3, 9)]) 8 = 3 /\
  committed_is (leader5 [(2, 10); (3, 9); (4, 9); (5, 9)]) 0 = true /\
  holders_of (leader5 [(2, 10); (3, 9); (4, 9); (5, 9)]) 8 = 5.
Proof. by vm_compute. Qed.

(** A leader of three replicas with one learner, 4. *)
Definition leader3 : res Node :=
  let opts := {| NewOptions with opt_NodeId := 1; opt_ElectionOn := true;
                                 opt_Replicas := [1; 2; 3] |} in
  let! n := elect opts [1; 2] in
  runEvents n [{| emptyEvent with ev_Type := ConfChange;
                   ev_Config := {| emptyConfig with cfg_Replicas := [1; 2; 3];
                                     cfg_Learners := [4]; cfg_Version := 1 |} |}].

(**  A learner counts towards the quorum.  The report of learner 4 alone
    moves nothing, but when replica 2 then reports an empty log, the leader
    commits index 9, which no replica but the leader itself stores. *)
Theorem learner_counts_towards_quorum :
  let m := (let! n := leader3 in runEvents n [sync 4 2 10; sync 2 2 1]) in
  committed_is (let! n := leader3 in runEvents n [sync 4 2 10]) 0 = true /\
  committed_is m 9 = true /\ holders_of m 9 = 1 /\
  quorum (the_node m) = 2 /\ cfg_Learners (n_cfg (the_node m)) = [4].
Proof. by vm_compute. Qed.

End CommitProps.
