(* ===== verification/RaftInv.v ===== *)
(** * Invariants of the Raft node

    What every operation of [pkg/raft/raft/node*.go] preserves: the published
    snapshot is the snapshot of the current state, a leader knows that it is
    the leader and runs the leader's handlers, the queue is well-formed.  From
    these, no operation of a node panics on the events its environment may
    deliver, the term and the committed index never go back, and a commit
    never runs ahead of the storage. *)

From S2P Require Import Prelude RaftTypes RaftQueue RaftNode RaftCommit.

(** ** The published snapshot *)

(** The snapshot computed from scratch. *)
Definition freshState (n : Node) : nodeReadState :=
  {| rd_cfg := n_cfg n;
     rd_lastLogIndex := q_lastLogIndex (n_queue n);
     rd_lastLogTerm := tsi_Term (n_lastTermStartIndex n);
     rd_committedIndex := q_committedIndex (n_queue n);
     rd_appliedIndex := q_appliedIndex (n_queue n);
     rd_replicaLogIndex := replicaIndexOf <$> n_replicaSync n |}.

Lemma sameConfig_spec c c' : sameConfig c c' = true <-> c = c'.
Proof.
  unfold sameConfig. rewrite !andb_true_iff, !bool_decide_eq_true, !Z.eqb_eq.
  destruct c, c'; simpl. split; [intros; destruct_and!; by subst|].
  intros [= -> -> -> -> -> -> -> ->]. done.
Qed.

Lemma sameReplicas_spec old sync :
  sameReplicas old sync = true <-> old = replicaIndexOf <$> sync.
Proof.
  unfold sameReplicas. rewrite andb_true_iff, bool_decide_eq_true, forallb_forall. split.
  - intros [Hsize Hall]. symmetry. apply map_subseteq_size_eq.
    2: { rewrite map_size_fmap. lia. }
    apply map_subseteq_spec. intros id i (info & <- & Hinfo)%lookup_fmap_Some.
    specialize (Hall (id, info)). simpl in Hall.
    destruct (old !! id).
    + f_equal. apply Z.eqb_eq, Hall. apply list_elem_of_In, elem_of_map_to_list. done.
    + exfalso. enough (false = true) by done. apply Hall.
      apply list_elem_of_In, elem_of_map_to_list. done.
  - intros ->. split; [apply map_size_fmap|].
    intros [id info] Hin%list_elem_of_In%elem_of_map_to_list.
    rewrite lookup_fmap, Hin. apply Z.eqb_refl.
Qed.

(** The incremental publication gives the same node as a publication from
    scratch. *)
Lemma publish_fresh n :
  publishReadState n = {| n with n_readState := Some (freshState n) |}.
Proof.
  unfold publishReadState, freshState. destruct n as [[[rc ri rt rm ra rr]|]]; simpl.
  2: { by rewrite Config_Clone_id. }
  rewrite Config_Clone_id.
  destruct (sameConfig _ _) eqn:Hc; [apply sameConfig_spec in Hc; subst|];
    (destruct (sameReplicas _ _) eqn:Hr; [apply sameReplicas_spec in Hr; subst|]); simpl; try done.
  destruct (_ && _) eqn:H; [|done].
  rewrite !andb_true_iff, !Z.eqb_eq in H. destruct H as [[[-> ->] ->] ->]. done.
Qed.

(** ** The core of a node

    The part that decides elections, terms and commits.  The functions that
    only emit events or keep the records of the replicas leave it alone. *)
Definition core (n : Node) :=
  (n_opts n, n_queue n, n_cfg n, (n_stepFunc n, n_tickFnc n), n_voteFor n, n_votes n,
   n_lastTermStartIndex n, (n_randomizedElectionTimeout n, n_electionElapsed n)).

Lemma foldl_core {A} (f : Node -> A -> Node) l n :
  (forall n x, core (f n x) = core n) -> core (foldl f n l) = core n.
Proof.
  intros Hf. revert n. induction l as [|x l IH]; intros n; simpl; [done|].
  rewrite IH. apply Hf.
Qed.

(** [n'] differs from [n] only in emitted events, timers of synchronisation
    and records of the replicas. *)
Record kept (n n' : Node) : Prop := {
  kept_core : core n' = core n;
  kept_sync : sync_ok n -> sync_ok n'
}.

#[export] Instance kept_preorder : PreOrder kept.
Proof.
  split.
  - by split.
  - intros x y z [H1 H2] [H3 H4]. split; [congruence|auto].
Qed.

Create HintDb kept.

(** Closes [kept n n'] when [n'] is an update of fields outside the core. *)
Ltac kept_simple := split; [done|intros; done].

Lemma foldl_kept {A} (f : Node -> A -> Node) l n :
  (forall n x, kept n (f n x)) -> kept n (foldl f n l).
Proof.
  intros Hf. revert n. induction l as [|x l IH]; intros n; simpl; [done|].
  etrans; [apply (Hf n x)|apply IH].
Qed.

Lemma kept_emit n e : kept n (emit n e).
Proof. kept_simple. Qed.

Lemma kept_KeepAlive n : kept n (KeepAlive n).
Proof. kept_simple. Qed.

Lemma kept_advance n : kept n (advance n).
Proof. unfold advance. destruct opt_HasAdvance; kept_simple. Qed.

Lemma kept_publish n : kept n (publishReadState n).
Proof. rewrite publish_fresh. kept_simple. Qed.

(** Writing the record of one replica. *)
Lemma kept_insert n id i :
  (sync_ok n -> is_u64 (si_StoredIndex i)) ->
  kept n {| n with n_replicaSync := <[id := i]> (n_replicaSync n) |}.
Proof. intros Hi. split; [done|]. intros H. by apply map_Forall_insert_2; auto. Qed.

Lemma sync_ok_lookup n id i : sync_ok n -> n_replicaSync n !! id = Some i ->
  is_u64 (si_StoredIndex i).
Proof. intros H Hi. by apply (H id). Qed.

Lemma sync_ok_default n id : sync_ok n ->
  is_u64 (si_StoredIndex (default emptySyncInfo (n_replicaSync n !! id))).
Proof.
  intros H. destruct (n_replicaSync n !! id) eqn:E; simpl; [by eapply sync_ok_lookup|].
  unfold is_u64; lia.
Qed.

Lemma kept_unsuspend n id : kept n (unsuspend n id).
Proof.
  unfold unsuspend. destruct (_ !! _) as [i|] eqn:E; [|done].
  apply kept_insert. intros H. by eapply sync_ok_lookup in E.
Qed.

#[export] Hint Resolve kept_emit kept_KeepAlive kept_advance kept_publish
  kept_unsuspend : kept.

Lemma kept_sendNotifySync n to : kept n (sendNotifySync n to).
Proof.
  unfold sendNotifySync. destruct (to =? All).
  - apply foldl_kept. intros m x. destruct (_ =? _); [done|].
    etrans; auto with kept.
  - etrans; auto with kept.
Qed.

Lemma kept_sendSyncReq n : kept n (sendSyncReq n).
Proof. unfold sendSyncReq. destruct (_ || _); kept_simple. Qed.

Lemma kept_sendPing n to : kept n (sendPing n to).
Proof.
  unfold sendPing. destruct (negb _); [done|]. destruct (negb _); [auto with kept|].
  assert (Hf : forall m x, kept m (if x =? n_NodeId m then m else emit m (pingAll m x))).
  { intros m x. destruct (_ =? _); auto with kept. done. }
  etrans; [|by apply foldl_kept]. by apply foldl_kept.
Qed.

#[export] Hint Resolve kept_sendNotifySync kept_sendSyncReq kept_sendPing : kept.

Lemma kept_sendPingIfNeed n id : kept n (sendPingIfNeed n id).
Proof.
  unfold sendPingIfNeed.
  set (i := {| (default _ _) with si_SyncTick := _ |}).
  assert (kept n {| n with n_replicaSync := <[id := i]> (n_replicaSync n) |}).
  { apply kept_insert. intros H. apply (sync_ok_default n id H). }
  destruct (_ && _); [|done]. etrans; eauto with kept.
Qed.

Lemma kept_tickHeartbeat n : kept n (tickHeartbeat n).
Proof.
  unfold tickHeartbeat. destruct opt_ElectionOn.
  - destruct (_ <=? _); [|kept_simple]. etrans; [|apply kept_sendPing]. kept_simple.
  - assert (Hf : forall m x, kept m (if x =? n_NodeId m then m else sendPingIfNeed m x)).
    { intros m x. destruct (_ =? _); [done|]. apply kept_sendPingIfNeed. }
    etrans; [|by apply foldl_kept]. by apply foldl_kept.
Qed.

Lemma kept_syncElapsed n z : kept n {| n with n_syncElapsed := z |}.
Proof. kept_simple. Qed.

Lemma kept_tickSync n : kept n (tickSync n).
Proof.
  unfold tickSync. destruct (n_syncing n); [destruct (_ <=? _); kept_simple|].
  destruct (_ && _); [|kept_simple]. destruct (hasSyncReq _); [kept_simple|].
  etrans; [|apply kept_syncElapsed]. etrans; [|apply kept_sendSyncReq]. kept_simple.
Qed.

Lemma kept_updateSyncInfo n e : is_u64 (ev_StoredIndex e) -> kept n (updateSyncInfo n e).
Proof. intros H. unfold updateSyncInfo. apply kept_insert. intros _. done. Qed.

#[export] Hint Resolve kept_tickHeartbeat kept_tickSync kept_updateSyncInfo : kept.

(** An update of a record that exists. *)
Lemma modifySync_spec n id f :
  is_Some (n_replicaSync n !! id) -> (forall i, si_StoredIndex (f i) = si_StoredIndex i) ->
  returns (modifySync n id f) (fun n' =>
    kept n n' /\ is_Some (n_replicaSync n' !! id)).
Proof.
  intros [i Hi] Hf. unfold modifySync. rewrite Hi. eexists. split; [done|]. split.
  - apply kept_insert. intros H. rewrite Hf. by eapply sync_ok_lookup in Hi.
  - simpl. rewrite lookup_insert_eq. eauto.
Qed.

Lemma roleSwitchIfNeed_spec n e :
  is_Some (n_replicaSync n !! ev_From e) ->
  returns (roleSwitchIfNeed n e) (fun n' =>
    kept n n' /\ is_Some (n_replicaSync n' !! ev_From e)).
Proof.
  intros Hi.
  assert (Hdone : forall n', kept n n' -> n_replicaSync n' = n_replicaSync n ->
    returns (Ok n') (fun n' => kept n n' /\ is_Some (n_replicaSync n' !! ev_From e))).
  { intros n' H1 H2. eexists. split; [done|]. rewrite H2. auto. }
  assert (Hmod : forall g, (forall m, kept m (g m)) ->
    (forall m, n_replicaSync (g m) = n_replicaSync m) ->
    returns (let! n := modifySync n (ev_From e) (set_roleSwitching true) in Ok (g n))
      (fun n' => kept n n' /\ is_Some (n_replicaSync n' !! ev_From e))).
  { intros g Hg1 Hg2. eapply returns_bind; [by apply modifySync_spec|].
    intros a [Ha1 Ha2]. eexists. split; [done|]. rewrite Hg2. split; [|done].
    etrans; eauto. }
  unfold roleSwitchIfNeed. destruct Hi as [i Hi]. rewrite Hi.
  repeat match goal with
  | |- returns (if ?b then _ else _) _ => destruct b
  | |- returns (Ok n) _ => by apply Hdone
  | |- returns (Ok _) _ => apply Hdone; [kept_simple|done]
  | |- returns (res_bind _ _) _ => apply Hmod; [intros; apply kept_emit|done]
  end.
Qed.

(** ** The invariant *)

(** What the role changes need of a node. *)
Record base_inv (n : Node) : Prop := {
  bi_queue : queue_wf (n_queue n);
  bi_sync : sync_ok n;
  bi_committed : 0 <= q_committedIndex (n_queue n)
}.

(** A leader knows that it is the leader and runs the leader's handlers. *)
Definition leader_inv (n : Node) : Prop :=
  cfg_Role (n_cfg n) = RoleLeader ->
  cfg_Leader (n_cfg n) = n_NodeId n /\
  n_stepFunc n = Some FnLeader /\ n_tickFnc n = Some FnLeader.

Record node_inv (n : Node) : Prop := {
  ni_base :> base_inv n;
  ni_leader : leader_inv n;
  ni_term : 0 <= cfg_Term (n_cfg n)
}.

(** One operation: the invariant is kept, the term and the committed index do
    not go back, a new committed index is stored, and the applied indexes
    before and after are related by [R]. *)
Record evolves_gen (R : Z -> Z -> Prop) (n n' : Node) : Prop := {
  evo_inv : node_inv n';
  evo_opts : n_opts n' = n_opts n;
  evo_term : cfg_Term (n_cfg n) <= cfg_Term (n_cfg n');
  evo_committed : q_committedIndex (n_queue n) <= q_committedIndex (n_queue n');
  evo_stored : q_committedIndex (n_queue n) < q_committedIndex (n_queue n') ->
               q_committedIndex (n_queue n') <= q_storedIndex (n_queue n');
  evo_applied : R (q_appliedIndex (n_queue n)) (q_appliedIndex (n_queue n'))
}.

(** Operations that leave the applied index alone. *)
Abbreviation evolves := (evolves_gen eq).

Lemma evolves_weaken (R R' : Z -> Z -> Prop) n n' :
  (forall x y, R x y -> R' x y) -> evolves_gen R n n' -> evolves_gen R' n n'.
Proof. intros H [? ? ? ? ? Ha]. split; auto. Qed.

Lemma core_inv n n' :
  core n' = core n ->
  n_opts n' = n_opts n /\ n_queue n' = n_queue n /\ n_cfg n' = n_cfg n /\
  n_stepFunc n' = n_stepFunc n /\ n_tickFnc n' = n_tickFnc n /\
  n_voteFor n' = n_voteFor n /\ n_votes n' = n_votes n /\
  n_lastTermStartIndex n' = n_lastTermStartIndex n /\
  n_randomizedElectionTimeout n' = n_randomizedElectionTimeout n /\
  n_electionElapsed n' = n_electionElapsed n.
Proof. unfold core. intros H. injection H. intros. split_and!; assumption. Qed.

Lemma kept_inv n n' : kept n n' -> node_inv n -> node_inv n'.
Proof.
  intros [Hc Hs] [[Hq Hso Hcm] Hl Ht].
  apply core_inv in Hc as (Ho & Hq' & Hcfg & Hst & Htk & _).
  split; [split|unfold leader_inv, n_NodeId|]; rewrite ?Ho, ?Hq', ?Hcfg, ?Hst, ?Htk; auto.
Qed.

Lemma kept_base n n' : kept n n' -> base_inv n -> base_inv n'.
Proof.
  intros [Hc Hs] [Hq Hso Hcm]. apply core_inv in Hc as (_ & Hq' & _).
  split; rewrite ?Hq'; auto.
Qed.

Lemma kept_evolves n n' : node_inv n -> kept n n' -> evolves n n'.
Proof.
  intros Hn H. pose proof (kept_core _ _ H) as Hc.
  apply core_inv in Hc as (Ho & Hq' & Hcfg & _).
  split; rewrite ?Hq', ?Hcfg; auto; try lia. by eapply kept_inv.
Qed.

(** The state of the log does not move: operations of this kind compose with
    any other one. *)
Record same_log (n n' : Node) : Prop := {
  sl_inv : node_inv n';
  sl_opts : n_opts n' = n_opts n;
  sl_term : cfg_Term (n_cfg n) <= cfg_Term (n_cfg n');
  sl_queue : n_queue n' = n_queue n
}.

Lemma same_log_evolves n n' : same_log n n' -> evolves n n'.
Proof. intros [Hi Ho Ht Hq]. split; rewrite ?Hq; auto; lia. Qed.

Lemma kept_same_log n n' : node_inv n -> kept n n' -> same_log n n'.
Proof.
  intros Hn H. pose proof (kept_core _ _ H) as Hc.
  apply core_inv in Hc as (Ho & Hq' & Hcfg & _).
  split; rewrite ?Hq', ?Hcfg; auto; try lia. by eapply kept_inv.
Qed.

Lemma same_log_ext n n' :
  node_inv n -> n_opts n' = n_opts n -> n_queue n' = n_queue n -> n_cfg n' = n_cfg n ->
  n_stepFunc n' = n_stepFunc n -> n_tickFnc n' = n_tickFnc n ->
  n_replicaSync n' = n_replicaSync n -> same_log n n'.
Proof.
  intros [[Hq Hs Hc] Hl Ht] Ho Hq' Hcfg Hst Htk Hr.
  split; rewrite ?Hq', ?Hcfg; auto; try lia. split; [split| |]; rewrite ?Hq', ?Hcfg; auto.
  - unfold sync_ok. by rewrite Hr.
  - unfold leader_inv, n_NodeId. by rewrite Ho, Hcfg, Hst, Htk.
Qed.

Lemma same_log_trans n1 n2 n3 : same_log n1 n2 -> same_log n2 n3 -> same_log n1 n3.
Proof. intros [? ? ? ?] [? ? ? ?]. split; auto; try congruence; lia. Qed.

Lemma same_log_then R n1 n2 n3 :
  same_log n1 n2 -> evolves_gen R n2 n3 -> evolves_gen R n1 n3.
Proof.
  intros [Hi Ho Ht Hq] [? ? ? Hc1 Hc2 Ha]. rewrite Hq in Hc1, Hc2, Ha.
  split; auto; try congruence; lia.
Qed.

Lemma evolves_then_kept R n1 n2 n3 :
  evolves_gen R n1 n2 -> kept n2 n3 -> evolves_gen R n1 n3.
Proof.
  intros [Hi Ho Ht Hc1 Hc2 Ha] Hk. pose proof (kept_core _ _ Hk) as Hc.
  apply core_inv in Hc as (Ho' & Hq' & Hcfg & _).
  split; rewrite ?Hq', ?Hcfg; auto; try congruence. by eapply kept_inv.
Qed.

(** *** Role changes *)

(** The effect of the three role changes that never panic. *)
Record became (role : Role) (term leader : Z) (f : RoleFn) (n n' : Node) : Prop := {
  bc_cfg : n_cfg n' = {| (n_cfg n) with cfg_Term := term; cfg_Leader := leader;
                                        cfg_Role := role |};
  bc_fns : n_stepFunc n' = Some f /\ n_tickFnc n' = Some f;
  bc_opts : n_opts n' = n_opts n;
  bc_queue : n_queue n' = n_queue n;
  bc_sync : n_replicaSync n' = ∅;
  bc_votes : n_votes n' = ∅;
  bc_elapsed : n_electionElapsed n' = 0
}.

Lemma BecomeFollower_became n t l :
  became RoleFollower t l FnFollower n (BecomeFollower n t l).
Proof. unfold BecomeFollower. rewrite publish_fresh. by split. Qed.

Lemma BecomeLearner_became n t l :
  became RoleLearner t l FnLearner n (BecomeLearner n t l).
Proof. unfold BecomeLearner. rewrite publish_fresh. by split. Qed.

Lemma BecomeLeader_became n t :
  became RoleLeader t (n_NodeId n) FnLeader n (BecomeLeader n t).
Proof. unfold BecomeLeader. rewrite publish_fresh. by split. Qed.

Lemma BecomeCandidate_became n :
  cfg_Role (n_cfg n) <> RoleLeader ->
  returns (BecomeCandidate n)
    (became RoleCandidate (u32 (cfg_Term (n_cfg n) + 1)) 0 FnCandidate n).
Proof.
  intros H. unfold BecomeCandidate. destruct (decide _); [done|].
  eexists. split; [done|]. rewrite publish_fresh. by split.
Qed.

Lemma became_inv role t l f n n' :
  became role t l f n n' ->
  base_inv n -> 0 <= t -> (role = RoleLeader -> l = n_NodeId n /\ f = FnLeader) ->
  node_inv n'.
Proof.
  intros [Hcfg [Hf1 Hf2] Ho Hq Hs _ _] [Hwf Hso Hcm] Ht Hl. split; [split| |].
  - by rewrite Hq.
  - unfold sync_ok. rewrite Hs. apply map_Forall_empty.
  - by rewrite Hq.
  - unfold leader_inv, n_NodeId. rewrite Hcfg, Hf1, Hf2, Ho. simpl.
    intros [Hx ->]%Hl. auto.
  - by rewrite Hcfg.
Qed.

Lemma became_same_log role t l f n n' :
  became role t l f n n' ->
  base_inv n -> 0 <= t -> cfg_Term (n_cfg n) <= t ->
  (role = RoleLeader -> l = n_NodeId n /\ f = FnLeader) ->
  same_log n n'.
Proof.
  intros Hb Hn Ht Hle Hl. pose proof (became_inv _ _ _ _ _ _ Hb Hn Ht Hl).
  destruct Hb as [Hcfg _ Ho Hq _ _ _]. split; auto. rewrite Hcfg. done.
Qed.

Lemma BecomeFollower_same_log n t l :
  node_inv n -> cfg_Term (n_cfg n) <= t -> same_log n (BecomeFollower n t l).
Proof.
  intros Hn Ht. eapply became_same_log; [apply BecomeFollower_became|apply Hn| |done|done].
  pose proof (ni_term _ Hn). lia.
Qed.

Lemma BecomeLearner_same_log n t l :
  node_inv n -> cfg_Term (n_cfg n) <= t -> same_log n (BecomeLearner n t l).
Proof.
  intros Hn Ht. eapply became_same_log; [apply BecomeLearner_became|apply Hn| |done|done].
  pose proof (ni_term _ Hn). lia.
Qed.

Lemma BecomeLeader_same_log n t :
  node_inv n -> cfg_Term (n_cfg n) <= t -> same_log n (BecomeLeader n t).
Proof.
  intros Hn Ht. eapply became_same_log; [apply BecomeLeader_became|apply Hn| |done|done].
  pose proof (ni_term _ Hn). lia.
Qed.

(** *** Configuration switches *)

Lemma resolveConfig_term self old new :
  cfg_Term old <= cfg_Term (resolveConfig self old new).
Proof.
  unfold resolveConfig.
  set (c1 := if _ && (cfg_Term new <? _) then _ else _).
  assert (H1 : cfg_Term c1 = 0 \/ cfg_Term old <= cfg_Term c1).
  { unfold c1. zcases; simpl; lia. }
  clearbody c1. set (c2 := if cfg_Term c1 =? 0 then _ else _).
  assert (H2 : cfg_Term old <= cfg_Term c2).
  { unfold c2. zcases; simpl; lia. }
  clearbody c2. destruct (decide _); [|done].
  set (c3 := if _ && _ then _ else _).
  assert (H3 : cfg_Term old <= cfg_Term c3) by (unfold c3; by destruct (_ && _)).
  clearbody c3. destruct (ArrayContainsUint64 _ _); [done|].
  destruct (_ && _); [done|]. by destruct (_ && _).
Qed.

(** When no role change follows a switch, the new configuration agrees with
    the functions the node already runs. *)
Lemma roleChangeIfNeed_inv n oldCfg newCfg :
  base_inv n -> n_cfg n = newCfg -> 0 <= cfg_Term newCfg ->
  (cfg_Role oldCfg = RoleLeader ->
   cfg_Leader oldCfg = n_NodeId n /\ n_stepFunc n = Some FnLeader /\
   n_tickFnc n = Some FnLeader) ->
  let n' := roleChangeIfNeed n oldCfg newCfg in
  node_inv n' /\ n_opts n' = n_opts n /\ n_queue n' = n_queue n /\
  cfg_Term (n_cfg n') = cfg_Term newCfg.
Proof.
  intros Hb Hcfg Ht Hl.
  assert (Hkeep : (cfg_Role newCfg = RoleLeader -> cfg_Leader newCfg = n_NodeId n /\
                     n_stepFunc n = Some FnLeader /\ n_tickFnc n = Some FnLeader) ->
    node_inv n /\ n_opts n = n_opts n /\ n_queue n = n_queue n /\
    cfg_Term (n_cfg n) = cfg_Term newCfg).
  { intros H. rewrite Hcfg. split_and!; auto. split; [done| |by rewrite Hcfg].
    unfold leader_inv. by rewrite Hcfg. }
  assert (Hbec : forall role l f n', became role (cfg_Term newCfg) l f n n' ->
    (role = RoleLeader -> l = n_NodeId n /\ f = FnLeader) ->
    node_inv n' /\ n_opts n' = n_opts n /\ n_queue n' = n_queue n /\
    cfg_Term (n_cfg n') = cfg_Term newCfg).
  { intros role l f n' H Hr. pose proof (became_inv _ _ _ _ _ _ H Hb Ht Hr).
    destruct H as [-> _ ? ? _ _ _]. done. }
  pose proof (Hbec _ _ _ _ (BecomeLeader_became n (cfg_Term newCfg)) ltac:(done)) as HL.
  pose proof (Hbec _ _ _ _ (BecomeFollower_became n (cfg_Term newCfg) (cfg_Leader newCfg))
                ltac:(done)) as HF.
  pose proof (Hbec _ _ _ _ (BecomeLearner_became n (cfg_Term newCfg) (cfg_Leader newCfg))
                ltac:(done)) as HN.
  clear Hbec. cbv zeta. unfold roleChangeIfNeed.
  destruct (bool_decide (cfg_Role oldCfg = _) && _ && _) eqn:H1.
  - apply andb_true_iff in H1 as [[_ H1%bool_decide_eq_true]%andb_true_iff _].
    repeat match goal with |- context [if ?b then _ else _] => destruct b end;
      try done; apply Hkeep; congruence.
  - destruct (_ || _) eqn:H2.
    + destruct (cfg_Leader newCfg =? _); [done|].
      destruct (bool_decide (cfg_Role newCfg = RoleUnknown)) eqn:H3.
      * apply bool_decide_eq_true in H3.
        destruct (cfg_Role oldCfg); try done; apply Hkeep; congruence.
      * destruct (cfg_Role newCfg) eqn:?; try done; apply Hkeep; congruence.
    + rewrite !orb_false_iff, !negb_false_iff, bool_decide_eq_true, !Z.eqb_eq in H2.
      destruct H2 as [[H2 H3] _]. apply Hkeep. rewrite <-H2, <-H3. done.
Qed.

Lemma switchConfig_same_log n cfg : node_inv n -> same_log n (switchConfig n cfg).1.
Proof.
  intros Hn. unfold switchConfig. destruct (_ <? _); simpl.
  { apply kept_same_log; done. }
  set (new := resolveConfig _ _ _). set (m := {| n with n_votes := ∅; n_replicaSync := ∅ |}).
  set (m' := {| (redraw m) with n_cfg := new |}).
  pose proof (resolveConfig_term (n_NodeId n) (n_cfg n) cfg) as Ht. fold new in Ht.
  pose proof (ni_term _ Hn).
  destruct (roleChangeIfNeed_inv m' (n_cfg n) new) as (Hi & Ho & Hq & Hterm).
  - destruct Hn as [[? ? ?] ? ?]. split; simpl; auto. apply map_Forall_empty.
  - done.
  - lia.
  - apply (ni_leader _ Hn).
  - split; [exact Hi|exact Ho| |exact Hq].
    etrans; [exact Ht|]. apply Z.eq_le_incl. symmetry. exact Hterm.
Qed.

(** *** Elections *)

Lemma campaign_spec n :
  node_inv n -> cfg_Term (n_cfg n) < two32 - 1 ->
  returns (campaign n) (same_log n).
Proof.
  intros Hn Ht. unfold campaign. destruct (Z.eqb_spec (cfg_Leader (n_cfg n)) (n_NodeId n)).
  { eexists. split; [done|]. apply BecomeFollower_same_log; [done|lia]. }
  pose proof (ni_term _ Hn).
  destruct (BecomeCandidate_became n) as (c & -> & Hc).
  { intros Hr. destruct (ni_leader _ Hn Hr). done. }
  simpl. eexists. split; [done|].
  rewrite u32_small in Hc by (unfold is_u32; lia).
  assert (same_log n c) as Hs.
  { eapply became_same_log; [apply Hc|apply Hn|lia|lia|done]. }
  eapply same_log_trans; [apply Hs|]. apply kept_same_log; [apply Hs|].
  apply foldl_kept. intros m x. unfold sendVoteReq. destruct (_ =? _); apply kept_emit.
Qed.

Lemma tickElection_spec n :
  node_inv n -> cfg_Term (n_cfg n) < two32 - 1 ->
  returns (tickElection n) (same_log n).
Proof.
  intros Hn Ht. unfold tickElection. cbv zeta.
  assert (Hset : forall z, same_log n {| n with n_electionElapsed := z |}).
  { intros z. by apply same_log_ext. }
  destruct (pastElectionTimeout _).
  - destruct (campaign_spec {| n with n_electionElapsed := 0 |} (sl_inv _ _ (Hset 0)) Ht)
      as (n' & Hc & Hn').
    exists n'. split; [done|]. eapply same_log_trans; [apply (Hset 0)|done].
  - eexists. split; [done|]. apply Hset.
Qed.

Lemma poll_spec n e : node_inv n -> same_log n (poll n e).
Proof.
  intros Hn. unfold poll. set (m := {| n with n_votes := _ |}).
  assert (Hm : same_log n m) by (by apply same_log_ext).
  assert (Hmi : node_inv m) by apply Hm.
  destruct (_ <? _); [done|]. destruct (_ <=? _).
  - eapply same_log_trans; [apply Hm|].
    pose proof (BecomeLeader_same_log m (cfg_Term (n_cfg m)) Hmi ltac:(lia)) as HL.
    eapply same_log_trans; [apply HL|]. apply kept_same_log; [apply HL|].
    etrans; [apply kept_sendPing|apply kept_advance].
  - eapply same_log_trans; [apply Hm|]. apply BecomeFollower_same_log; [done|lia].
Qed.

(** *** The log moves, the committed index does not *)

Record moved (n n' : Node) : Prop := {
  mv_inv : node_inv n';
  mv_opts : n_opts n' = n_opts n;
  mv_term : cfg_Term (n_cfg n) <= cfg_Term (n_cfg n');
  mv_committed : q_committedIndex (n_queue n') = q_committedIndex (n_queue n);
  mv_applied : q_appliedIndex (n_queue n) = q_appliedIndex (n_queue n')
}.

Lemma same_log_moved n n' : same_log n n' -> moved n n'.
Proof. intros [? ? ? Hq]. split; auto; by rewrite Hq. Qed.

Lemma kept_moved n n' : node_inv n -> kept n n' -> moved n n'.
Proof. intros. by apply same_log_moved, kept_same_log. Qed.

Lemma moved_evolves n n' : moved n n' -> evolves n n'.
Proof. intros [? ? ? Hq ?]. split; auto; lia. Qed.

Lemma moved_then n1 n2 n3 : moved n1 n2 -> evolves n2 n3 -> evolves n1 n3.
Proof.
  intros [? ? ? Hq Ha1] [? ? ? Hc1 Hc2 Ha2]. rewrite Hq in *.
  split; auto; try congruence; lia.
Qed.

Lemma moved_trans n1 n2 n3 : moved n1 n2 -> moved n2 n3 -> moved n1 n3.
Proof. intros [? ? ? ? ?] [? ? ? ? ?]. split; auto; try congruence; lia. Qed.

Lemma moved_kept n1 n2 n3 : moved n1 n2 -> kept n2 n3 -> moved n1 n3.
Proof. intros H1 H2. eapply moved_trans; [done|]. apply kept_moved; [apply H1|done]. Qed.

Lemma set_queue_moved n q :
  node_inv n -> queue_wf q -> q_committedIndex q = q_committedIndex (n_queue n) ->
  q_appliedIndex q = q_appliedIndex (n_queue n) ->
  moved n (set_queue n q).
Proof.
  intros [[Hq Hs Hc] Hl Ht] Hwf Hcm Hap. split; simpl; auto; try lia.
  split; [split| |]; simpl; auto. lia.
Qed.

Lemma set_committed_evolves n c :
  node_inv n -> q_committedIndex (n_queue n) < c <= q_storedIndex (n_queue n) ->
  evolves n (set_committed n c).
Proof.
  intros [[[? ? ? ?] Hs Hc] Hl Ht] Hb. split; simpl; auto; try lia.
  split; [split| |]; simpl; auto; try lia. by split.
Qed.

Lemma updateFollow_evolves n c : node_inv n -> evolves n (updateFollowCommittedIndex n c).
Proof.
  intros Hn. unfold updateFollowCommittedIndex, committedIndexForFollow.
  destruct (_ || _); [by apply kept_evolves|].
  destruct (Z.ltb_spec (q_committedIndex (n_queue n)) c).
  - destruct (Z.ltb_spec (q_committedIndex (n_queue n)) (Z.min c (q_storedIndex (n_queue n)))).
    + apply set_committed_evolves; [done|lia].
    + by apply kept_evolves.
  - rewrite Z.ltb_irrefl. by apply kept_evolves.
Qed.

Lemma updateLeader_evolves n :
  node_inv n -> returns (updateLeaderCommittedIndex n) (fun n' =>
    evolves n n' /\ n_replicaSync n' = n_replicaSync n).
Proof.
  intros Hn. pose proof (bi_sync _ Hn) as Hs.
  destruct (updateLeaderCommittedIndex_spec n Hs) as (n' & -> & [->|(c & Hc & Hlt & ->)]).
  - exists n. split; [done|]. split; [by apply kept_evolves|done].
  - eexists. split; [done|]. split; [|done].
    apply set_committed_evolves; [done|]. split; [done|].
    apply (committedIndexForLeader_safe n c Hs); auto. apply Hn.
Qed.

(** ** The events the environment delivers *)

(** A batch that is consecutive starts above the stored index, or nothing is
    pending; its indexes fit. *)
Definition batch_ok (q : queue) (logs : list Log) : Prop :=
  match logs with
  | [] => True
  | first :: rest =>
      broken_at 1 first rest = None ->
      1 <= log_Index first /\ log_Index first + len rest < two64 - 1 /\
      (q_storedIndex q < log_Index first \/ q_logs q = [])
  end.

(** What a node relies on: a response of the storage speaks of logs the queue
    has, batches are as above, heartbeats and vote requests carry a term, and
    the term counter has room for a campaign. *)
Record event_ok (n : Node) (e : Event) : Prop := {
  eo_stored : is_u64 (ev_StoredIndex e);
  eo_term : ev_Term e = 0 -> ev_Type e <> Ping /\ ev_Type e <> VoteReq;
  eo_campaign : ev_Type e = Campaign ->
    Z.max (cfg_Term (n_cfg n)) (ev_Term e) < two32 - 1;
  eo_batch : ev_Type e = Propose \/ ev_Type e = SyncResp -> batch_ok (n_queue n) (ev_Logs e);
  eo_store : ev_Type e = StoreResp -> ev_Reason e = ReasonOk -> ev_Index e <= q_lastLogIndex (n_queue n);
  eo_truncate : ev_Type e = TruncateResp ->
    0 <= ev_Index e /\
    (q_storedIndex (n_queue n) <= ev_Index e \/ q_logs (n_queue n) = [])
}.

#[export] Instance batch_ok_dec q logs : Decision (batch_ok q logs).
Proof. destruct logs; simpl; apply _. Defined.

Lemma event_ok_alt n e :
  event_ok n e <->
  is_u64 (ev_StoredIndex e) /\
  (ev_Term e = 0 -> ev_Type e <> Ping /\ ev_Type e <> VoteReq) /\
  (ev_Type e = Campaign -> Z.max (cfg_Term (n_cfg n)) (ev_Term e) < two32 - 1) /\
  (ev_Type e = Propose \/ ev_Type e = SyncResp -> batch_ok (n_queue n) (ev_Logs e)) /\
  (ev_Type e = StoreResp -> ev_Reason e = ReasonOk -> ev_Index e <= q_lastLogIndex (n_queue n)) /\
  (ev_Type e = TruncateResp -> 0 <= ev_Index e /\
    (q_storedIndex (n_queue n) <= ev_Index e \/ q_logs (n_queue n) = [])).
Proof. split; [intros []; split_and!; auto|intros (? & ? & ? & ? & ? & ?); by split]. Qed.

#[export] Instance event_ok_dec n e : Decision (event_ok n e).
Proof. exact (decision_iff (event_ok_alt n e) _). Defined.

(** A handler returns a node that evolved from [n]. *)
Definition handles_gen (R : Z -> Z -> Prop) (n : Node) (r : handled) : Prop :=
  returns r (fun '(n', _) => evolves_gen R n n').
Abbreviation handles := (handles_gen eq).

Lemma handles_done R n n' : evolves_gen R n n' -> handles_gen R n (done_ n').
Proof. intros H. eexists. split; [done|]. done. Qed.

Lemma handles_bind {A} R n (m : res A) (f : A -> handled) P :
  returns m P -> (forall a, P a -> handles_gen R n (f a)) -> handles_gen R n (res_bind m f).
Proof. apply returns_bind. Qed.

Lemma appendLogs_spec n logs :
  node_inv n -> batch_ok (n_queue n) logs ->
  returns (appendLogs n logs) (fun '(n', _) => moved n n').
Proof.
  intros Hn Hb. pose proof (bi_queue _ Hn) as Hwf. unfold appendLogs.
  assert (Hsame : forall err : option GoError,
    returns (let! (q, err) := Ok (n_queue n, err) in
                     Ok (set_queue n q, err)) (fun '(n', _) => moved n n')).
  { intros err. eexists. split; [done|]. by apply set_queue_moved. }
  destruct logs as [|first rest]; [apply Hsame|].
  destruct (broken_at 1 first rest) as [i|] eqn:Hbr.
  { rewrite (append_broken _ _ _ _ Hbr). apply Hsame. }
  destruct (Hb Hbr) as (H1 & H2 & H3).
  destruct (append_spec (n_queue n) (first :: rest) (log_Index first - 1))
    as ([q err] & -> & Hq & _ & Hcm & Hap & _); simpl; auto; try lia.
  - apply (broken_at_None 1 _ first rest); auto; lia.
  - destruct H3; [left; lia|auto].
  - eexists. split; [done|]. by apply set_queue_moved.
Qed.

Lemma storeResp_spec n e :
  node_inv n -> (ev_Reason e = ReasonOk -> ev_Index e <= q_lastLogIndex (n_queue n)) ->
  returns (storeResp n e) (moved n).
Proof.
  intros Hn Hi. unfold storeResp.
  pose proof (bi_queue _ Hn) as Hwf.
  assert (Hwf' : queue_wf {| (n_queue n) with q_appending := false |}).
  { destruct Hwf. by split. }
  case_bool_decide as Hr; [specialize (Hi Hr)|].
  - simpl. destruct (Z.ltb_spec (q_lastLogIndex (n_queue n)) (ev_Index e)); [lia|].
    destruct (storeTo_spec _ (ev_Index e) Hwf' Hi) as (q & -> & Hq & _ & _ & _ & Hcm & Hap & _).
    simpl. eexists. split; [done|].
    by apply (set_queue_moved n q).
  - eexists. split; [done|]. by apply set_queue_moved.
Qed.

(** ** The handlers *)

Lemma moved_kept_evolves n n' n'' : moved n n' -> kept n' n'' -> evolves n n''.
Proof. intros. by eapply moved_evolves, moved_kept. Qed.

Section Handlers.
Context (n : Node) (e : Event).
Context (Hn : node_inv n) (He : event_ok n e).

Let kept_done n' : kept n n' -> handles n (done_ n').
Proof. intros. by apply handles_done, kept_evolves. Qed.

Lemma stepLeader_SyncReq_handles : handles n (stepLeader_SyncReq n e).
Proof using Hn He.
  unfold stepLeader_SyncReq. cbv zeta.
  set (n1 := updateSyncInfo (KeepAlive n) e).
  assert (H1 : kept n n1).
  { etrans; [apply kept_KeepAlive|]. apply kept_updateSyncInfo, He. }
  assert (Hi1 : is_Some (n_replicaSync n1 !! ev_From e)).
  { simpl. rewrite lookup_insert_eq. eauto. }
  eapply handles_bind with (P := fun n2 => evolves n n2 /\
    is_Some (n_replicaSync n2 !! ev_From e)).
  { destruct (isLearner _ _).
    - eexists. split; [done|]. split; [by apply kept_evolves|done].
    - destruct (updateLeader_evolves n1 (kept_inv _ _ H1 Hn)) as (n2 & -> & H2 & Hr).
      eexists. split; [done|]. rewrite Hr. split; [|done].
      eapply moved_then; [by apply kept_moved|done]. }
  intros n2 [H2 Hi2].
  eapply handles_bind; [by apply roleSwitchIfNeed_spec|].
  intros n3 [H3 Hi3].
  assert (Hfin : forall n4, kept n3 n4 -> handles n (done_ n4)).
  { intros n4 H4. apply handles_done. eapply evolves_then_kept; [apply H2|].
    by etrans. }
  destruct (_ || _).
  - destruct (opt_AutoSuspend _).
    + eapply handles_bind; [by apply modifySync_spec|]. intros n4 [H4 _].
      apply Hfin. etrans; [done|apply kept_emit].
    + apply Hfin, kept_emit.
  - eapply handles_bind; [by apply modifySync_spec|]. intros n4 [H4 Hi4].
    destruct (n_replicaSync n4 !! _) eqn:E; [|by destruct Hi4].
    destruct (si_GetingLogs _); [by apply Hfin|].
    eapply handles_bind; [apply modifySync_spec; eauto|]. intros n5 [H5 _].
    apply Hfin. etrans; [done|]. etrans; [done|].
    etrans; [apply kept_emit|apply kept_advance].
Qed.

(** The answer of a replica that finished its role switch. *)
Lemma switched_handles :
  handles n (let n := {| n with n_stopPropose := false |} in
    match n_replicaSync n !! ev_From e with
    | None => done_ n
    | Some _ => let! n := modifySync n (ev_From e) (set_roleSwitching false) in done_ n
    end).
Proof using Hn.
  cbv zeta. set (m := {| n with n_stopPropose := false |}).
  assert (Hm : kept n m) by kept_simple.
  destruct (n_replicaSync m !! ev_From e) eqn:E; [|by apply kept_done].
  eapply handles_bind; [apply modifySync_spec; eauto|]. intros n4 [H4 _].
  apply kept_done. by etrans.
Qed.

Lemma stepLeader_handles : handles n (stepLeader n e).
Proof using Hn He.
  unfold stepLeader.
  destruct (ev_Type e) eqn:Ht; try (by apply kept_done); try apply switched_handles.
  - destruct (n_stopPropose n).
    { eexists. split; [done|]. by apply kept_evolves. }
    pose proof (kept_KeepAlive n) as HK.
    eapply handles_bind.
    { apply (appendLogs_spec (KeepAlive n)); [by eapply kept_inv|].
      by apply (eo_batch _ _ He); left. }
    intros [n' err] Hn'.
    assert (Hm : moved n n') by (eapply moved_trans; [by apply kept_moved|done]).
    destruct err.
    + eexists. split; [done|]. by apply moved_evolves.
    + apply handles_done. eapply moved_kept_evolves; [done|apply kept_advance].
  - apply stepLeader_SyncReq_handles.
  - apply kept_done. etrans; [|apply kept_advance]. etrans; [|apply kept_emit].
    destruct (n_replicaSync n !! ev_To e) eqn:E; [|kept_simple].
    split; [done|]. intros H. apply map_Forall_insert_2; [|done].
    by eapply sync_ok_lookup in E.
  - eapply handles_bind; [by apply storeResp_spec, (eo_store _ _ He)|].
    intros n1 H1. destruct (bool_decide _).
    + eapply handles_bind with (P := evolves n1).
      { destruct (_ <=? _).
        - destruct (updateLeader_evolves n1 (mv_inv _ _ H1)) as (n2 & -> & H2 & _).
          by eexists.
        - eexists. split; [done|]. apply kept_evolves; [apply H1|done]. }
      intros n2 H2. apply handles_done. eapply moved_then; [done|].
      eapply evolves_then_kept; [done|].
      etrans; [apply kept_sendNotifySync|apply kept_advance].
    + by apply handles_done, moved_evolves.
Qed.

(** *** Followers and learners *)

(** Bookkeeping of a response to a sync request. *)
Definition syncRespFields (n : Node) : Node :=
  {| (KeepAlive {| n with n_electionElapsed := 0 |}) with
       n_syncRespTimeoutTick := 0; n_syncing := false; n_onlySync := true |}.

Lemma syncResp_handles :
  ev_Type e = SyncResp ->
  handles n
    (let n := syncRespFields n in
     match ev_Reason e with
     | ReasonOk =>
         match ev_Logs e with
         | [] =>
             let n := if bool_decide (ev_Speed e = SpeedSuspend)
                      then {| n with n_suspend := true |} else n in
             done_ (updateFollowCommittedIndex n (ev_CommittedIndex e))
         | _ :: _ =>
             let! (n, err) := appendLogs n (ev_Logs e) in
             match err with
             | Some _ => Ok (n, err)
             | None => done_ (updateFollowCommittedIndex (advance n) (ev_CommittedIndex e))
             end
         end
     | ReasonTruncate =>
         if n_truncating n then done_ n
         else
           let n := {| n with n_truncating := true |} in
           done_ (advance (sendTruncateReq n (ev_Index e)))
     | _ => done_ n
     end).
Proof using Hn He.
  intros Ht. cbv zeta. set (m := syncRespFields n).
  assert (Hm : same_log n m) by (by apply same_log_ext).
  assert (Hmi : node_inv m) by apply Hm.
  assert (Hdone : forall n', kept m n' -> handles n (done_ n')).
  { intros n' H. apply handles_done. eapply same_log_then; [done|]. by apply kept_evolves. }
  destruct (ev_Reason e); try (apply Hdone; done).
  - pose proof (eo_batch _ _ He (or_intror Ht)) as Hb.
    destruct (ev_Logs e) as [|l ls].
    + apply handles_done. eapply same_log_then; [done|].
      destruct (bool_decide _); [|by apply updateFollow_evolves].
      assert (Hs : same_log m {| m with n_suspend := true |}) by (by apply same_log_ext).
      eapply same_log_then; [done|]. apply updateFollow_evolves, Hs.
    + eapply handles_bind; [by apply appendLogs_spec|]. intros [n' err] Hn'.
      eapply same_log_moved in Hm. pose proof (moved_trans _ _ _ Hm Hn') as Hmv.
      destruct err.
      * eexists. split; [done|]. by apply moved_evolves.
      * apply handles_done. eapply moved_then; [eapply moved_kept; [done|apply kept_advance]|].
        apply updateFollow_evolves. eapply kept_inv; [apply kept_advance|apply Hmv].
  - destruct (n_truncating m); [by apply Hdone|]. apply Hdone.
    etrans; [|apply kept_advance]. etrans; [|apply kept_emit]. kept_simple.
Qed.

Lemma truncateResp_handles :
  ev_Type e = TruncateResp ->
  handles n
    (let n := {| n with n_truncating := false |} in
     if bool_decide (ev_Reason e = ReasonOk) then
       let! n := if ev_Index e <? q_lastLogIndex (n_queue n)
                 then let! q := truncateLogTo (n_queue n) (ev_Index e) in Ok (set_queue n q)
                 else Ok n in
       done_ (advance (sendSyncReq n))
     else done_ n).
Proof using Hn He.
  intros Ht. cbv zeta. set (m := {| n with n_truncating := false |}).
  assert (Hm : same_log n m) by (by apply same_log_ext).
  destruct (bool_decide _).
  2: { apply handles_done. by apply same_log_evolves. }
  destruct (eo_truncate _ _ He Ht) as [H0 Hor].
  eapply handles_bind with (P := moved m).
  - destruct (Z.ltb_spec (ev_Index e) (q_lastLogIndex (n_queue m))).
    + pose proof (bi_queue _ Hn) as Hwf.
      destruct (truncateLogTo_spec (n_queue m) (ev_Index e) Hwf ltac:(lia) Hor)
        as (q & -> & Hq & _ & _ & _ & Hcm & Hap). simpl.
      eexists. split; [done|]. apply set_queue_moved; [apply Hm|done|done|done].
    + eexists. split; [done|]. apply kept_moved; [apply Hm|done].
  - intros n1 H1. apply handles_done.
    eapply moved_kept_evolves; [eapply moved_trans; [by apply same_log_moved|done]|].
    etrans; [apply kept_sendSyncReq|apply kept_advance].
Qed.

Lemma storeResp_handles :
  ev_Type e = StoreResp ->
  handles n (let! n := storeResp n e in
             if bool_decide (ev_Reason e = ReasonOk)
             then done_ (advance (sendSyncReq n)) else done_ n).
Proof using Hn He.
  intros Ht. eapply handles_bind; [by apply storeResp_spec, (eo_store _ _ He)|].
  intros n1 H1. destruct (bool_decide _); apply handles_done.
  - eapply moved_kept_evolves; [done|]. etrans; [apply kept_sendSyncReq|apply kept_advance].
  - by apply moved_evolves.
Qed.

Lemma ping_handles (Become : Node -> Z -> Z -> Node) :
  (forall m t l, node_inv m -> cfg_Term (n_cfg m) <= t -> same_log m (Become m t l)) ->
  cfg_Term (n_cfg n) <= ev_Term e ->
  handles n
    (let n := {| n with n_electionElapsed := 0 |} in
     let n := if cfg_Leader (n_cfg n) =? None_
              then Become n (ev_Term e) (ev_From e) else n in
     let n := updateFollowCommittedIndex n (ev_CommittedIndex e) in
     let n := KeepAlive n in
     done_ (if cfg_Version (n_cfg n) <? ev_ConfigVersion e then sendConfigReq n else n)).
Proof using Hn.
  intros HB Ht. cbv zeta. set (m := {| n with n_electionElapsed := 0 |}).
  assert (Hm : same_log n m) by (by apply same_log_ext).
  apply handles_done. eapply same_log_then; [done|].
  set (m1 := if _ =? None_ then _ else _).
  assert (Hm1 : same_log m m1).
  { unfold m1. destruct (_ =? None_).
    - apply HB; [apply Hm|done].
    - apply kept_same_log; [apply Hm|done]. }
  eapply same_log_then; [done|].
  eapply evolves_then_kept; [apply updateFollow_evolves, Hm1|].
  etrans; [apply kept_KeepAlive|]. destruct (_ <? _); [apply kept_emit|done].
Qed.

Lemma configResp_handles cfg : handles n (done_ (switchConfig n cfg).1).
Proof using Hn. by apply handles_done, same_log_evolves, switchConfig_same_log. Qed.

Context (Hterm : ev_Term e = 0 \/ ev_Term e = cfg_Term (n_cfg n)).

Lemma ping_term : ev_Type e = Ping -> cfg_Term (n_cfg n) <= ev_Term e.
Proof using He Hterm.
  intros Ht. destruct Hterm as [H0|]; [|lia].
  destruct (eo_term _ _ He H0). done.
Qed.

Lemma stepFollower_handles : handles n (stepFollower n e).
Proof using Hn He Hterm.
  unfold stepFollower. destruct (ev_Type e) eqn:Ht; try (by apply kept_done).
  - apply (ping_handles BecomeFollower); [apply BecomeFollower_same_log|by apply ping_term].
  - eexists. split; [done|]. by apply kept_evolves.
  - apply kept_done. etrans; [|apply kept_advance]. etrans; [|apply kept_sendSyncReq].
    kept_simple.
  - by apply syncResp_handles.
  - by apply truncateResp_handles.
  - by apply storeResp_handles.
  - apply configResp_handles.
Qed.

Lemma stepLearner_handles : handles n (stepLearner n e).
Proof using Hn He Hterm.
  unfold stepLearner. destruct (ev_Type e) eqn:Ht; try (by apply kept_done).
  - apply (ping_handles BecomeLearner); [apply BecomeLearner_same_log|by apply ping_term].
  - eexists. split; [done|]. by apply kept_evolves.
  - apply kept_done. etrans; [|apply kept_advance]. etrans; [|apply kept_sendSyncReq].
    apply kept_KeepAlive.
  - by apply syncResp_handles.
  - by apply truncateResp_handles.
  - by apply storeResp_handles.
  - apply configResp_handles.
Qed.

Lemma stepCandidate_handles : handles n (stepCandidate n e).
Proof using Hn.
  unfold stepCandidate. destruct (ev_Type e) eqn:Ht; try (by apply kept_done).
  - eexists. split; [done|]. by apply kept_evolves.
  - by apply handles_done, same_log_evolves, poll_spec.
Qed.
End Handlers.

(** ** Step, Tick, Ready *)

Lemma stepTerm_spec n e :
  node_inv n ->
  same_log n (stepTerm n e).1 /\
  ((stepTerm n e).2 = true ->
   ev_Term e = 0 \/ ev_Term e = cfg_Term (n_cfg (stepTerm n e).1)).
Proof.
  intros Hn. unfold stepTerm.
  destruct (Z.eqb_spec (ev_Term e) 0) as [H0|H0]; simpl.
  { split; [by apply kept_same_log|auto]. }
  destruct (Z.ltb_spec (ev_Term e) (cfg_Term (n_cfg n))); simpl.
  - split; [|done]. apply kept_same_log; [done|].
    destruct (_ && _); [|done]. destruct (ev_Type e); try done; apply kept_emit.
  - destruct (Z.ltb_spec (cfg_Term (n_cfg n)) (ev_Term e)); simpl.
    + destruct (bool_decide _).
      * split; [apply BecomeLearner_same_log; auto; lia|].
        intros _. right. by rewrite (bc_cfg _ _ _ _ _ _ (BecomeLearner_became _ _ _)).
      * split; [apply BecomeFollower_same_log; auto; lia|].
        intros _. right. by rewrite (bc_cfg _ _ _ _ _ _ (BecomeFollower_became _ _ _)).
    + split; [by apply kept_same_log|]. intros _. right. lia.
Qed.

Lemma event_ok_same_log n m e :
  event_ok n e -> n_queue m = n_queue n ->
  (cfg_Term (n_cfg m) <= Z.max (cfg_Term (n_cfg n)) (ev_Term e)) -> event_ok m e.
Proof.
  intros [] Hq Ht. split; rewrite ?Hq; auto. intros Hc. specialize (eo_campaign0 Hc). lia.
Qed.

Lemma stepVoteReq_same_log n e :
  node_inv n -> cfg_Term (n_cfg n) <= ev_Term e -> same_log n (stepVoteReq n e).
Proof.
  intros Hn Ht. unfold stepVoteReq. destruct (bool_decide _).
  { by apply BecomeFollower_same_log. }
  destruct (canVote _ _); [|by apply kept_same_log, kept_emit].
  cbv zeta. set (m := if _ =? n_NodeId n then _ else _).
  assert (Hm : kept n m) by (unfold m; destruct (_ =? n_NodeId n); apply kept_emit).
  eapply same_log_trans; [by apply kept_same_log|].
  apply same_log_ext; try done. by eapply kept_inv.
Qed.

(** Only the response of the storage to an apply request moves the applied
    index. *)
Definition applied_rel (e : Event) : Z -> Z -> Prop :=
  if decide (ev_Type e = ApplyResp) then Z.le else eq.

Lemma applied_rel_eq e x y : x = y -> applied_rel e x y.
Proof. intros ->. unfold applied_rel. destruct (decide _); lia. Qed.

Lemma handles_rel n e r : handles n r -> handles_gen (applied_rel e) n r.
Proof.
  intros ([n' err] & -> & H). eexists. split; [done|].
  eapply evolves_weaken; [|done]. intros x y. apply applied_rel_eq.
Qed.

Lemma ApplyResp_handles n e :
  node_inv n -> ev_Type e = ApplyResp ->
  handles_gen (applied_rel e) n
    (if bool_decide (ev_Reason e = ReasonOk)
     then done_ (set_queue n (appliedTo (n_queue n) (ev_Index e)))
     else done_ (set_queue n {| (n_queue n) with q_applying := false |})).
Proof.
  intros [[Hwf Hs Hc] Hl Ht] He. unfold applied_rel. rewrite decide_True by done.
  pose proof (appliedTo_spec (n_queue n) (ev_Index e)) as (Ha & _ & Hlg & Hst & Hla & Hcm & _).
  destruct (bool_decide _); apply handles_done.
  - assert (Hq : queue_wf (appliedTo (n_queue n) (ev_Index e))) by
      (destruct Hwf; by split; rewrite ?Hlg, ?Hst, ?Hla).
    split; simpl; rewrite ?Hcm, ?Ha; auto; try lia.
    split; [split|done|done]; simpl; auto. by rewrite Hcm.
  - split; simpl; auto; try lia. split; [split|done|done]; simpl; auto. by destruct Hwf.
Qed.

Lemma stepBody_handles n e :
  node_inv n -> event_ok n e -> ev_Term e = 0 \/ ev_Term e = cfg_Term (n_cfg n) ->
  handles_gen (applied_rel e) n (stepBody n e).
Proof.
  intros Hn He Hterm.
  assert (Hfn : handles n match n_stepFunc n with
      | None => done_ n
      | Some FnLeader => stepLeader n e
      | Some FnFollower => stepFollower n e
      | Some FnCandidate => stepCandidate n e
      | Some FnLearner => stepLearner n e
      end).
  { destruct (n_stepFunc n) as [[]|].
    - by apply stepFollower_handles.
    - by apply stepCandidate_handles.
    - by apply stepLeader_handles.
    - by apply stepLearner_handles.
    - by apply handles_done, kept_evolves. }
  unfold stepBody. destruct (ev_Type e) eqn:Ht; try (by apply handles_rel).
  - apply handles_rel. eapply handles_bind.
    + apply campaign_spec; [done|]. pose proof (eo_campaign _ _ He Ht). lia.
    + intros n' Hn'. by apply handles_done, same_log_evolves.
  - by apply handles_rel, configResp_handles.
  - apply handles_rel, handles_done, same_log_evolves, stepVoteReq_same_log; [done|].
    destruct Hterm as [H0|]; [|lia]. destruct (eo_term _ _ He H0). done.
  - by apply ApplyResp_handles.
Qed.

Lemma Step_handles n e :
  node_inv n -> event_ok n e -> handles_gen (applied_rel e) n (Step n e).
Proof.
  intros Hn He. unfold Step.
  destruct (stepTerm_spec n e Hn) as [Hs Ht].
  destruct (stepTerm n e) as [n1 go] eqn:E; simpl in Hs, Ht.
  eapply handles_bind with (P := fun '(n', _) => evolves_gen (applied_rel e) n n').
  - destruct go.
    2: { apply handles_rel, handles_done. by apply same_log_evolves. }
    assert (He1 : event_ok n1 e).
    { eapply event_ok_same_log; [done|apply Hs|].
      destruct (Ht eq_refl) as [H0|H1]; [|lia].
      unfold stepTerm in E. rewrite H0 in E. simpl in E. injection E as <-. lia. }
    destruct (stepBody_handles n1 e (sl_inv _ _ Hs) He1 (Ht eq_refl)) as ([n2 err] & -> & H2).
    eexists. split; [done|]. by eapply same_log_then.
  - intros [n2 err] H2. eexists. split; [done|].
    eapply evolves_then_kept; [done|apply kept_publish].
Qed.

Lemma Tick_evolves n ka :
  node_inv n -> cfg_Term (n_cfg n) < two32 - 1 ->
  returns (Tick n ka) (evolves n).
Proof.
  intros Hn Ht. unfold Tick. cbv zeta.
  set (m := if opt_AutoDestory _ then _ else _).
  assert (Hm : kept n m).
  { unfold m. destruct ka, (opt_AutoDestory _); try destruct (_ && _); kept_simple. }
  assert (Hmi : node_inv m) by (by eapply kept_inv).
  assert (Htm : cfg_Term (n_cfg m) < two32 - 1).
  { destruct (core_inv _ _ (kept_core _ _ Hm)) as (_ & _ & -> & _). done. }
  clearbody m. eapply returns_bind with (P := same_log m).
  - assert (Hk : forall m', kept m m' -> returns (Ok m') (same_log m)).
    { intros m' H. eexists. split; [done|]. by apply kept_same_log. }
    destruct (n_tickFnc m) as [[]|].
    + unfold tickFollower. cbv zeta. set (m1 := if n_suspend m then _ else _).
      assert (H1 : kept m m1) by (unfold m1; destruct (n_suspend m); auto with kept; done).
      destruct (opt_ElectionOn _); [|by apply Hk].
      destruct (tickElection_spec m1) as (m2 & -> & H2).
      * by eapply kept_inv.
      * destruct (core_inv _ _ (kept_core _ _ H1)) as (_ & _ & -> & _). done.
      * eexists. split; [done|]. eapply same_log_trans; [by apply kept_same_log|done].
    + unfold tickCandidate. destruct (opt_ElectionOn _); [by apply tickElection_spec|by apply Hk].
    + by apply Hk, kept_tickHeartbeat.
    + apply Hk. destruct (n_suspend m); [done|apply kept_tickSync].
    + by apply Hk.
  - intros m1 H1. eexists. split; [done|].
    eapply evolves_then_kept; [|apply kept_publish]. apply same_log_evolves.
    eapply same_log_trans; [by apply kept_same_log|done].
Qed.

Lemma queue_flag_wf q q' :
  queue_wf q -> q_logs q' = q_logs q -> q_storedIndex q' = q_storedIndex q ->
  q_lastLogIndex q' = q_lastLogIndex q -> queue_wf q'.
Proof. intros [] H1 H2 H3. by split; rewrite ?H1, ?H2, ?H3. Qed.

Lemma Ready_evolves n :
  node_inv n -> returns (Ready n) (fun '(n', _) => moved n n').
Proof.
  intros Hn. unfold Ready. eapply returns_bind with (P := moved n).
  - destruct (hasNextStoreLogs _).
    + destruct (nextStoreLogs_spec (n_queue n) (bi_queue _ Hn))
        as ([q logs] & -> & Hq & _ & _ & _ & _ & Hcm & Hap). simpl.
      pose proof (set_queue_moved n q Hn Hq Hcm Hap) as Hm.
      destruct logs; (eexists; split; [done|]); [done|].
      destruct (firstTermChange _ _) as [i|]; [|eapply moved_kept; [done|apply kept_emit]].
      eapply moved_kept; [|apply kept_emit]. eapply moved_trans; [done|].
      apply same_log_moved, same_log_ext; try done. apply Hm.
    + eexists. split; [done|]. by apply kept_moved.
  - intros m Hm. eexists. split; [done|]. set (k := if hasNextApplyLogs _ then _ else _).
    assert (Hk : moved m k).
    { unfold k. destruct (hasNextApplyLogs _); [|by apply kept_moved; [apply Hm|]].
      unfold nextApplyLogs. pose proof (bi_queue _ (mv_inv _ _ Hm)) as Hwf.
      assert (Hq : moved m (set_queue m {| (n_queue m) with q_applying := true |})).
      { apply set_queue_moved; [apply Hm|by eapply queue_flag_wf|done|done]. }
      destruct (q_applying _); [by apply (set_queue_moved m); [apply Hm| | |]|].
      destruct (_ <? _); [done|]. destruct (_ <? _); [|done].
      eapply moved_kept; [done|apply kept_emit]. }
    eapply moved_kept; [eapply moved_trans; [apply Hm|]|apply kept_publish].
    eapply moved_trans; [done|]. apply same_log_moved, same_log_ext; try done. apply Hk.
Qed.

Lemma NewNode_inv tsi rs opts :
  0 < opt_ElectionInterval opts ->
  0 <= rs_AppliedIndex rs <= rs_LastLogIndex rs -> rs_LastLogIndex rs < two64 - 1 ->
  0 <= rs_LastTerm rs ->
  returns (NewNode tsi rs opts) (fun n =>
    node_inv n /\ n_opts n = opts /\
    cfg_Term (n_cfg n) = (if rs_LastTerm rs =? 0 then 1 else rs_LastTerm rs) /\
    n_queue n = newQueue (rs_AppliedIndex rs) (rs_LastLogIndex rs)).
Proof.
  intros Hei Ha Hl Ht. unfold NewNode.
  destruct (Z.ltb_spec (rs_LastLogIndex rs) (rs_AppliedIndex rs)); [lia|].
  rewrite redraw_draws by done. cbn [res_bind]. cbv zeta.
  set (term := if rs_LastTerm rs =? 0 then 1 else rs_LastTerm rs).
  assert (Hterm : 1 <= term) by (unfold term; zcases; lia).
  match goal with |- returns (Ok (publishReadState (if ?b then _ else if _ then _ else ?m0))) _ =>
    set (m := m0) end.
  assert (Hq : n_queue m = newQueue (rs_AppliedIndex rs) (rs_LastLogIndex rs)) by done.
  assert (Hcfg : cfg_Term (n_cfg m) = term) by done.
  assert (Ho : n_opts m = opts) by done.
  assert (Hm : node_inv m).
  { destruct (newQueue_wf (rs_AppliedIndex rs) (rs_LastLogIndex rs)) as [Hwf _]; [lia|lia|].
    split; [split|done|]; simpl; try done; lia. }
  assert (Hfin : forall m', same_log m m' -> cfg_Term (n_cfg m') = term ->
    returns (Ok (publishReadState m')) (fun n =>
    node_inv n /\ n_opts n = opts /\ cfg_Term (n_cfg n) = term /\
    n_queue n = newQueue (rs_AppliedIndex rs) (rs_LastLogIndex rs))).
  { intros m' Hs Htm. eexists. split; [done|]. set (n := publishReadState m').
    pose proof (kept_publish m') as Hk.
    destruct (core_inv _ _ (kept_core _ _ Hk)) as (Ho' & Hq' & Hcfg' & _).
    fold n in Ho', Hq', Hcfg', Hk. destruct Hs. split; [by eapply kept_inv|].
    rewrite Hcfg', Ho', Hq'. repeat split; congruence. }
  clearbody m.
  match goal with |- returns (Ok (publishReadState (if ?b then _ else _))) _ => destruct b end.
  - rewrite Hcfg. destruct (Z.eqb_spec term 0); [lia|].
    apply Hfin; [apply BecomeLeader_same_log; [done|lia]|].
    by rewrite (bc_cfg _ _ _ _ _ _ (BecomeLeader_became _ _)).
  - destruct (0 <? _).
    + apply Hfin; [apply BecomeFollower_same_log; [done|lia]|].
      by rewrite (bc_cfg _ _ _ _ _ _ (BecomeFollower_became _ _ _)).
    + apply Hfin; [by apply kept_same_log|done].
Qed.

(** ** Runs of a node *)

(** The operations the driver of a node calls. *)
Inductive node_op :=
| OpStep (e : Event)
| OpTick (keptAlive : bool)
| OpReady
| OpKeepAlive.

Definition run_op (n : Node) (op : node_op) : res Node :=
  match op with
  | OpStep e => let! (n, _) := Step n e in Ok n
  | OpTick ka => Tick n ka
  | OpReady => let! (n, _) := Ready n in Ok n
  | OpKeepAlive => Ok (KeepAlive n)
  end.

Definition op_ok (n : Node) (op : node_op) : Prop :=
  match op with
  | OpStep e => event_ok n e
  | OpTick _ => cfg_Term (n_cfg n) < two32 - 1
  | _ => True
  end.

Fixpoint run_ops (n : Node) (ops : list node_op) : res Node :=
  match ops with
  | [] => Ok n
  | op :: rest => let! n := run_op n op in run_ops n rest
  end.

(** Every operation of the run is one the environment may call in the state
    it is called in. *)
Fixpoint ops_ok (n : Node) (ops : list node_op) : Prop :=
  match ops with
  | [] => True
  | op :: rest =>
      op_ok n op /\
      match run_op n op with
      | Ok n' => ops_ok n' rest
      | _ => True
      end
  end.

#[export] Instance op_ok_dec n op : Decision (op_ok n op).
Proof. destruct op; simpl; apply _. Defined.

#[export] Instance ops_ok_dec n ops : Decision (ops_ok n ops).
Proof.
  revert n. induction ops as [|op ops IH]; intros n; simpl; [apply _|].
  apply and_dec; [apply _|]. destruct (run_op n op); apply _.
Defined.

Lemma run_op_evolves n op :
  node_inv n -> op_ok n op -> returns (run_op n op) (evolves_gen Z.le n).
Proof.
  intros Hn Hop. destruct op as [e|ka| |]; simpl in *.
  - destruct (Step_handles n e Hn Hop) as ([n' err] & -> & H). eexists. split; [done|].
    eapply evolves_weaken; [|done]. intros x y. unfold applied_rel.
    destruct (decide _); [done|intros ->; lia].
  - destruct (Tick_evolves n ka Hn Hop) as (n' & -> & H). eexists. split; [done|].
    eapply evolves_weaken; [|done]. intros x y ->. lia.
  - destruct (Ready_evolves n Hn) as ([n' evs] & -> & H).
    eexists. split; [done|]. eapply evolves_weaken; [|by apply moved_evolves].
    intros x y ->. lia.
  - eexists. split; [done|]. eapply evolves_weaken;
      [|apply kept_evolves; [done|apply kept_KeepAlive]]. intros x y ->. lia.
Qed.

Lemma run_ops_inv n ops :
  node_inv n -> ops_ok n ops ->
  returns (run_ops n ops) (fun n' =>
    node_inv n' /\ n_opts n' = n_opts n /\
    cfg_Term (n_cfg n) <= cfg_Term (n_cfg n') /\
    q_committedIndex (n_queue n) <= q_committedIndex (n_queue n') /\
    q_appliedIndex (n_queue n) <= q_appliedIndex (n_queue n')).
Proof.
  revert n. induction ops as [|op ops IH]; intros n Hn Hok; simpl.
  - eexists. split; [done|]. split_and!; auto; lia.
  - destruct Hok as [Hop Hrest].
    destruct (run_op_evolves n op Hn Hop) as (n1 & H1 & [Hi Ho Ht Hc _ Ha]).
    rewrite H1 in Hrest |- *. simpl. destruct (IH n1 Hi Hrest) as (n2 & -> & Hi2 & Ho2 & Ht2 & Hc2 & Ha2).
    eexists. split; [done|]. split_and!; auto; try congruence; lia.
Qed.

(** The snapshot of a node is up to date. *)
Definition snapshot_fresh (n : Node) : Prop := n_readState n = Some (freshState n).

Lemma publish_is_fresh n : snapshot_fresh (publishReadState n).
Proof. rewrite publish_fresh. done. Qed.

Lemma run_op_fresh n op n' :
  snapshot_fresh n -> run_op n op = Ok n' -> snapshot_fresh n'.
Proof.
  intros Hn. destruct op as [e|ka| |]; simpl; unfold Step, Tick, Ready.
  - intros ([n1 err] & ([n2 err2] & _ & [= <- _])%res_bind_Ok & [= <-])%res_bind_Ok.
    apply publish_is_fresh.
  - intros (n1 & _ & [= <-])%res_bind_Ok. apply publish_is_fresh.
  - intros ([n1 err] & (n2 & _ & [= <- _])%res_bind_Ok & [= <-])%res_bind_Ok.
    apply publish_is_fresh.
  - intros [= <-]. exact Hn.
Qed.

Module NodeProps.

(** A follower of three replicas with ten stored logs, three of them
    applied. *)
Definition opts3 : Options :=
  {| NewOptions with opt_NodeId := 1; opt_ElectionOn := true;
                     opt_Replicas := [1; 2; 3] |}.
Definition state3 : RaftState := mkRaftState 10 4 3.
Definition node3 : Node := CommitProps.the_node (NewNode 8 state3 opts3).

(** A heartbeat of leader 2 and its answer to a sync request: two new logs
    and the committed index 9. *)
Definition ping2 : Event :=
  {| emptyEvent with ev_Type := Ping; ev_From := 2; ev_Term := 5; ev_CommittedIndex := 7 |}.
Definition syncResp2 : Event :=
  {| emptyEvent with ev_Type := SyncResp; ev_From := 2; ev_Term := 5; ev_Reason := ReasonOk;
       ev_CommittedIndex := 9;
       ev_Logs := [{| EmptyLog with log_Index := 11; log_Term := 5 |};
                   {| EmptyLog with log_Index := 12; log_Term := 5 |}] |}.
Definition ops3 : list node_op :=
  [OpStep ping2; OpTick false; OpTick false; OpReady; OpStep syncResp2; OpReady; OpKeepAlive].

Lemma ops3_ok : ops_ok node3 ops3.
Proof. decide_goal. Qed.

(** A response of the storage that speaks of logs the queue does not have. *)
Definition ahead (n : Node) (e : Event) : Prop :=
  ev_Type e = StoreResp /\ ev_Reason e = ReasonOk /\ q_lastLogIndex (n_queue n) < ev_Index e.

(** What the environment of a node keeps to, whatever the storage answers. *)
Definition event_env (n : Node) (e : Event) : Prop :=
  is_u64 (ev_StoredIndex e) /\
  (ev_Term e = 0 -> ev_Type e <> Ping /\ ev_Type e <> VoteReq) /\
  (ev_Type e = Campaign -> Z.max (cfg_Term (n_cfg n)) (ev_Term e) < two32 - 1) /\
  (ev_Type e = Propose \/ ev_Type e = SyncResp -> batch_ok (n_queue n) (ev_Logs e)) /\
  (ev_Type e = TruncateResp -> 0 <= ev_Index e /\
    (q_storedIndex (n_queue n) <= ev_Index e \/ q_logs (n_queue n) = [])).
Definition op_env (n : Node) (op : node_op) : Prop :=
  match op with OpStep e => event_env n e | _ => op_ok n op end.
Fixpoint ops_env (n : Node) (ops : list node_op) : Prop :=
  match ops with
  | [] => True
  | op :: rest => op_env n op /\ match run_op n op with Ok n' => ops_env n' rest | _ => True end
  end.

#[export] Instance event_env_dec n e : Decision (event_env n e).
Proof. unfold event_env. apply _. Defined.
#[export] Instance ops_env_dec n ops : Decision (ops_env n ops).
Proof.
  revert n. induction ops as [|op ops IH]; intros n; simpl; [apply _|].
  apply and_dec; [destruct op; simpl; apply _|]. destruct (run_op n op); apply _.
Defined.

Lemma env_ok n e : event_env n e -> event_ok n e \/ ahead n e.
Proof.
  intros (? & ? & ? & ? & ?). destruct (decide (ev_Type e = StoreResp /\ ev_Reason e = ReasonOk)) as [[Ht Hr]|Hn].
  - destruct (Z.lt_ge_cases (q_lastLogIndex (n_queue n)) (ev_Index e)); [by right|left; split; auto; lia].
  - left. split; auto. intros ? ?. by exfalso; apply Hn.
Qed.

Lemma op_env_ok n op : op_env n op -> op_ok n op \/ exists e, op = OpStep e /\ ahead n e.
Proof. destruct op as [e| | |]; simpl; auto. intros [?|?]%env_ok; eauto. Qed.

Lemma run_ops_env n ops : node_inv n -> ops_env n ops ->
  returns (run_ops n ops) (fun n' => node_inv n' /\ n_opts n' = n_opts n) \/
  exists before e after m, ops = before ++ OpStep e :: after /\ run_ops n before = Ok m /\ ahead m e.
Proof.
  revert n. induction ops as [|op ops IH]; intros n Hn; simpl.
  { intros _. left. eexists. by split. }
  intros [[Hop|(e & -> & Ha)]%op_env_ok Hops]; [|right; by exists [], e, ops, n].
  destruct (run_op_evolves n op Hn Hop) as (n1 & E & Hev). rewrite E in *. cbn [res_bind].
  destruct (IH n1 (evo_inv _ _ _ Hev) Hops) as [(n' & -> & Hn' & Ho)|(before & e & after & m & -> & Hb & Ha)].
  - left. eexists. split; [done|]. split; [done|]. rewrite Ho. apply Hev.
  - right. exists (op :: before), e, after, m. split_and!; [done| |done]. simpl. by rewrite E.
Qed.

(** C1.  A node panics at one place only.  A node is created with a positive
    election interval from a state of the storage whose applied index is at
    most its last index.  It is then driven by any sequence of events, clock
    ticks, ready rounds and keep-alives such that: heartbeats and vote requests
    carry a term; before a tick or a campaign the term is below 2^32 - 1; a
    batch of logs with consecutive indexes starts above the stored index, and a
    truncation is to the stored index or above, unless no log is pending.  Then
    every operation returns, up to the first response of the storage for an
    index above the last log of the queue, if there is one; as long as they
    return the queue is well-formed, a node in the role of leader has itself as
    leader and runs the leader's handlers, and the random draw that a role
    change makes returns.  (Such a response can come: [stored_behind_truncation_panics].) *)
Theorem node_never_panics (tsi : Z) (rs : RaftState) (opts : Options) :
  0 < opt_ElectionInterval opts ->
  0 <= rs_AppliedIndex rs <= rs_LastLogIndex rs -> rs_LastLogIndex rs < two64 - 1 ->
  0 <= rs_LastTerm rs ->
  returns (NewNode tsi rs opts) (fun n =>
    forall ops, ops_env n ops ->
    returns (run_ops n ops) (fun n' =>
      queue_wf (n_queue n') /\
      (cfg_Role (n_cfg n') = RoleLeader ->
       cfg_Leader (n_cfg n') = opt_NodeId opts /\
       n_stepFunc n' = Some FnLeader /\ n_tickFnc n' = Some FnLeader) /\
      resetRandomizedElectionTimeout n' = Ok (redraw n')) \/
    exists before e after m,
      ops = before ++ OpStep e :: after /\ run_ops n before = Ok m /\
      ev_Type e = StoreResp /\ ev_Reason e = ReasonOk /\ q_lastLogIndex (n_queue m) < ev_Index e).
Proof.
  intros Hi Ha Hl Ht. destruct (NewNode_inv tsi rs opts Hi Ha Hl Ht) as (n & -> & Hn & Ho & _).
  eexists. split; [done|]. intros ops Hops.
  destruct (run_ops_env n ops Hn Hops) as [(n' & -> & Hn' & Ho')|H]; [left|by right].
  eexists. split; [done|]. split_and!; [apply Hn'| |apply redraw_draws; congruence].
  rewrite <-Ho, <-Ho'. apply (ni_leader _ Hn').
Qed.

Lemma node_never_panics_witness :
  ops_env node3 ops3 /\ exists n', run_ops node3 ops3 = Ok n' /\ queue_wf (n_queue n').
Proof.
  assert (He : ops_env node3 ops3) by decide_goal. split; [exact He|].
  destruct (node_never_panics 8 state3 opts3) as (n & Hn & H);
    [simpl; lia|simpl; lia|simpl; lia|simpl; lia|].
  assert (n = node3) as -> by (unfold node3; rewrite Hn; reflexivity).
  destruct (H ops3 He) as [(n' & Hr & Hq & _)|(before & e & after & m & E & _ & Ht & _)]; [eauto|].
  exfalso. assert (Hin : In (OpStep e) ops3) by (rewrite E; apply in_elt). clear -Hin Ht. cbn [ops3 In] in Hin.
  repeat (destruct Hin as [E|Hin]; [try discriminate E; injection E as <-; discriminate Ht|]). exact Hin.
Defined.

(** The logs of a batch are being stored when the leader has the follower cut
    its log; the truncation is done first, and the response for the logs, which
    then are not in the queue any more, panics. *)
Definition truncate2 : Event :=
  {| emptyEvent with ev_Type := SyncResp; ev_From := 2; ev_Term := 5; ev_Reason := ReasonTruncate; ev_Index := 10 |}.
Definition truncated2 : Event := {| emptyEvent with ev_Type := TruncateResp; ev_Reason := ReasonOk; ev_Index := 10 |}.
Definition stored2 : Event := {| emptyEvent with ev_Type := StoreResp; ev_Reason := ReasonOk; ev_Index := 12 |}.
Definition requests (r : res (Node * list Event)) : list (EventType * Z) :=
  match r with Ok (_, es) => (fun e => (ev_Type e, match last (ev_Logs e) with Some l => log_Index l | None => ev_Index e end)) <$> es | _ => [] end.

Lemma stored_behind_truncation_panics :
  let ops := [OpStep ping2; OpStep syncResp2; OpReady; OpStep truncate2; OpReady; OpStep truncated2; OpStep stored2] in
  ops_env node3 ops /\
  (StoreReq, 12) ∈ requests (let! n := run_ops node3 (take 2 ops) in Ready n) /\
  (TruncateReq, 10) ∈ requests (let! n := run_ops node3 (take 4 ops) in Ready n) /\
  run_ops node3 ops = Panic.
Proof. split_and!; [decide_goal|decide_goal|decide_goal|vm_compute; reflexivity]. Qed.


Lemma node3_inv : node_inv node3.
Proof.
  destruct (NewNode_inv 8 state3 opts3) as (n & Hn & Hi & _); try (simpl; lia).
  unfold node3. by rewrite Hn.
Qed.


(** C11.  A commit never runs ahead of the storage: when an operation moves
    the committed index, the new one is at most the stored index of the
    node. *)
Theorem commit_is_stored (n n' : Node) (op : node_op) :
  node_inv n -> op_ok n op -> run_op n op = Ok n' ->
  q_committedIndex (n_queue n') = q_committedIndex (n_queue n) \/
  q_committedIndex (n_queue n) < q_committedIndex (n_queue n') <= q_storedIndex (n_queue n').
Proof.
  intros Hn Hop Hr. destruct (run_op_evolves n op Hn Hop) as (n2 & Hr2 & [_ _ _ Hc Hs _]).
  rewrite Hr in Hr2. injection Hr2 as <-. lia.
Qed.

Lemma commit_is_stored_witness :
  let n' := CommitProps.the_node (run_op node3 (OpStep ping2)) in
  (q_committedIndex (n_queue n') = q_committedIndex (n_queue node3) \/
   q_committedIndex (n_queue node3) < q_committedIndex (n_queue n')
     <= q_storedIndex (n_queue n')) /\
  q_committedIndex (n_queue n') = 7.
Proof.
  intros n'. split; [|vm_compute; reflexivity].
  apply (commit_is_stored node3 n' (OpStep ping2));
    [apply node3_inv|decide_goal|vm_compute; reflexivity].
Defined.

(**  Readers never see a stale snapshot.  The publication reuses parts of
    the previous snapshot when its comparison finds them unchanged, and still
    the published snapshot is, after every operation, the one computed from
    scratch from the state of the node: the accessors return the current last
    index, last term, committed and applied index, configuration and replica
    indexes. *)
Theorem readers_see_current_state (n n' : Node) (op : node_op) (id : Z) :
  n_readState n = Some (freshState n) -> run_op n op = Ok n' ->
  LastLogIndex n' = Ok (q_lastLogIndex (n_queue n')) /\
  LastLogTerm n' = Ok (tsi_Term (n_lastTermStartIndex n')) /\
  CommittedIndex n' = Ok (q_committedIndex (n_queue n')) /\
  AppliedIndex n' = Ok (q_appliedIndex (n_queue n')) /\
  NodeConfig n' = Ok (n_cfg n') /\
  IsLeader n' = Ok (cfg_Leader (n_cfg n') =? n_NodeId n') /\
  GetReplicaLastLogIndex n' id =
    Ok (if id =? n_NodeId n' then q_lastLogIndex (n_queue n')
        else default 0 (replicaIndexOf <$> n_replicaSync n' !! id)).
Proof.
  intros Hn Hr. pose proof (run_op_fresh n op n' Hn Hr) as H.
  unfold LastLogIndex, LastLogTerm, CommittedIndex, AppliedIndex, NodeConfig, IsLeader,
    LeaderId, GetReplicaLastLogIndex, readState. rewrite H. simpl.
  rewrite Config_Clone_id, lookup_fmap. by destruct (id =? n_NodeId n').
Qed.

Lemma readers_see_current_state_witness :
  let n' := CommitProps.the_node (run_op node3 (OpStep ping2)) in
  CommittedIndex n' = Ok 7.
Proof.
  intros n'.
  destruct (readers_see_current_state node3 n' (OpStep ping2) 2) as (_ & _ & H & _);
    [vm_compute; reflexivity|vm_compute; reflexivity|].
  rewrite H. vm_compute. reflexivity.
Defined.
End NodeProps.
