(* ===== verification/RaftElection.v ===== *)
(** * Elections of the Raft node

    When a vote is granted, when a candidate becomes leader, and that a
    follower left alone campaigns after its timeout.  The last part runs three
    nodes that exchange the events they emit ([Cluster]) and shows what the
    handling of [voteFor] allows. *)

From S2P Require Import Prelude RaftTypes RaftQueue RaftNode RaftCommit RaftInv.

(** ** The vote *)

(** The log a candidate announces is at least as recent as [n]'s, by the order
    on (term, index). *)
Definition up_to_date (n : Node) (e : Event) : Prop :=
  match ev_Logs e with
  | [] => False
  | l :: _ =>
      tsi_Term (n_lastTermStartIndex n) < log_Term l \/
      (tsi_Term (n_lastTermStartIndex n) = log_Term l /\
       q_lastLogIndex (n_queue n) <= log_Index l)
  end.

#[export] Instance up_to_date_dec n e : Decision (up_to_date n e).
Proof. unfold up_to_date. destruct (ev_Logs e); apply _. Defined.

(** The rule: the first vote of the term, or the same vote again, for an
    up-to-date candidate. *)
Definition grants (n : Node) (e : Event) : Prop :=
  up_to_date n e /\
  (cfg_Term (n_cfg n) < ev_Term e \/ n_voteFor n = None_ \/ n_voteFor n = ev_From e).

#[export] Instance grants_dec n e : Decision (grants n e).
Proof. unfold grants. apply _. Defined.

Lemma canVote_spec n e :
  canVote n e = true <->
  cfg_Term (n_cfg n) <= ev_Term e /\ up_to_date n e /\
  (n_voteFor n = None_ \/ n_voteFor n = ev_From e).
Proof.
  unfold canVote, up_to_date. destruct (ev_Logs e) as [|l ls]; [naive_solver|].
  cbv zeta. zcases; simpl; split; try done; try lia; intros; split_and?; try lia.
Qed.

(** What is left of the node when a request of a newer term arrives. *)
Lemma stepTerm_vote n e :
  ev_Type e = VoteReq -> 1 <= ev_Term e -> cfg_Term (n_cfg n) <= ev_Term e ->
  cfg_Role (n_cfg n) <> RoleLearner ->
  exists m, stepTerm n e = (m, true) /\ cfg_Term (n_cfg m) = ev_Term e /\
    cfg_Role (n_cfg m) <> RoleLearner /\
    n_events m = n_events n /\ n_opts m = n_opts n /\ n_queue m = n_queue n /\
    n_lastTermStartIndex m = n_lastTermStartIndex n /\
    (n_voteFor m = if cfg_Term (n_cfg n) <? ev_Term e then None_ else n_voteFor n).
Proof.
  intros Ht H1 Hle Hrole. unfold stepTerm. rewrite Ht.
  destruct (Z.eqb_spec (ev_Term e) 0); [lia|].
  destruct (Z.ltb_spec (ev_Term e) (cfg_Term (n_cfg n))); [lia|].
  destruct (Z.ltb_spec (cfg_Term (n_cfg n)) (ev_Term e)).
  - rewrite bool_decide_eq_false_2 by done. eexists. split; [done|].
    unfold BecomeFollower. rewrite publish_fresh. simpl. done.
  - eexists. split; [done|]. split_and!; auto. lia.
Qed.

Lemma Step_VoteReq n e :
  ev_Type e = VoteReq -> 1 <= ev_Term e -> cfg_Term (n_cfg n) <= ev_Term e ->
  cfg_Role (n_cfg n) <> RoleLearner ->
  exists n' resp, Step n e = Ok (n', None) /\
    cfg_Term (n_cfg n') = ev_Term e /\
    n_events n' = n_events n ++ [resp] /\
    ev_Type resp = VoteResp /\ ev_Term resp = ev_Term e /\ ev_From resp = n_NodeId n /\
    (ev_Reason resp = ReasonOk <-> grants n e) /\
    (grants n e -> n_voteFor n' = ev_From e).
Proof.
  intros Ht H1 Hle Hrole.
  destruct (stepTerm_vote n e Ht H1 Hle Hrole)
    as (m & Hst & Htm & Hrm & Hev & Ho & Hq & Hl & Hv).
  assert (Hg : canVote m e = true <-> grants n e).
  { rewrite canVote_spec. unfold grants, up_to_date. rewrite Hq, Hl, Hv, Htm.
    destruct (Z.ltb_spec (cfg_Term (n_cfg n)) (ev_Term e)); split; intros; destruct_and?;
      split_and!; auto; lia. }
  unfold Step. rewrite Hst. unfold stepBody. rewrite Ht. unfold stepVoteReq.
  rewrite bool_decide_eq_false_2 by done.
  assert (Hid : n_NodeId m = n_NodeId n) by (unfold n_NodeId; by rewrite Ho).
  destruct (canVote m e) eqn:Hc; cbn [res_bind done_].
  - apply proj1 in Hg. specialize (Hg eq_refl).
    destruct (ev_From e =? n_NodeId m); rewrite publish_fresh;
      unfold sendVoteResp, emit; (eexists _, _; split; [done|]); simpl; rewrite Hev;
      split_and!; try done.
  - rewrite publish_fresh. unfold sendVoteResp, emit. eexists _, _. split; [done|].
    simpl. rewrite Hev.
    split_and!; try done; [|by intros ?%Hg].
    split; [done|]. by intros ?%Hg.
Qed.

(** Publishing and changes of role leave the events alone. *)
Lemma publish_proj n :
  n_cfg (publishReadState n) = n_cfg n /\ n_events (publishReadState n) = n_events n /\ n_voteFor (publishReadState n) = n_voteFor n /\
  n_stepFunc (publishReadState n) = n_stepFunc n /\ n_votes (publishReadState n) = n_votes n.
Proof. rewrite publish_fresh. done. Qed.
Lemma BecomeFollower_events n t l : n_events (BecomeFollower n t l) = n_events n.
Proof. unfold BecomeFollower. rewrite publish_fresh. done. Qed.
Lemma BecomeLearner_events n t l : n_events (BecomeLearner n t l) = n_events n.
Proof. unfold BecomeLearner. rewrite publish_fresh. done. Qed.

(** A learner becomes a follower of the sender. *)
Lemma stepVoteReq_learner m e :
  ev_Type e = VoteReq -> cfg_Role (n_cfg m) = RoleLearner ->
  exists n', (let! (n, err) := stepBody m e in Ok (publishReadState n, err)) = Ok (n', None) /\ cfg_Term (n_cfg n') = ev_Term e /\
    n_events n' = n_events m /\ cfg_Role (n_cfg n') = RoleFollower /\ cfg_Leader (n_cfg n') = ev_From e.
Proof.
  intros Ht Hrole. unfold stepBody. rewrite Ht. unfold stepVoteReq. rewrite bool_decide_eq_true_2 by done. cbn [done_ res_bind].
  eexists. split; [done|]. destruct (publish_proj (BecomeFollower m (ev_Term e) (ev_From e))) as (-> & -> & _).
  rewrite BecomeFollower_events, (bc_cfg _ _ _ _ _ _ (BecomeFollower_became m (ev_Term e) (ev_From e))). done.
Qed.

Lemma Step_VoteReq_learner n e :
  ev_Type e = VoteReq -> 1 <= ev_Term e -> cfg_Term (n_cfg n) <= ev_Term e -> cfg_Role (n_cfg n) = RoleLearner ->
  exists n', Step n e = Ok (n', None) /\ cfg_Term (n_cfg n') = ev_Term e /\
    n_events n' = n_events n /\ cfg_Role (n_cfg n') = RoleFollower /\ cfg_Leader (n_cfg n') = ev_From e.
Proof.
  intros Ht H1 Hle Hrole. unfold Step, stepTerm. rewrite Ht, (proj2 (Z.eqb_neq _ 0)), (proj2 (Z.ltb_ge _ _)) by lia.
  destruct (_ <? _); [|by apply stepVoteReq_learner].
  rewrite (bool_decide_eq_true_2 (cfg_Role (n_cfg n) = RoleLearner)) by done.
  destruct (stepVoteReq_learner (BecomeLearner n (ev_Term e) None_) e Ht) as (n' & -> & H1' & H2 & H3).
  - by rewrite (bc_cfg _ _ _ _ _ _ (BecomeLearner_became n (ev_Term e) None_)).
  - exists n'. by rewrite BecomeLearner_events in H2.
Qed.

(** ** Winning *)

(** The answers of a campaign in the term [t], the latest of each sender. *)
Definition tally (t : Z) (m : gmap Z bool) (es : list Event) : gmap Z bool :=
  foldl (fun m e => if ev_Term e =? t then <[ev_From e := bool_decide (ev_Reason e = ReasonOk)]> m else m) m es.

Definition granting (m : gmap Z bool) : list Z := (filter (fun '(_, v) => v = true) (map_to_list m)).*1.

Lemma granting_elem m k : k ∈ granting m <-> m !! k = Some true.
Proof.
  unfold granting. rewrite list_elem_of_fmap. split.
  - intros ([k' v] & -> & [-> H]%list_elem_of_filter). by apply elem_of_map_to_list.
  - intros H. exists (k, true). split; [done|]. apply list_elem_of_filter. split; [done|]. by apply elem_of_map_to_list.
Qed.

Lemma granting_NoDup m : NoDup (granting m).
Proof.
  unfold granting. pose proof (NoDup_fst_map_to_list m) as H. revert H.
  induction (map_to_list m) as [|[k []] l IH]; cbn; [constructor| |].
  - intros [Hk H]%NoDup_cons. apply NoDup_cons. split; [|by apply IH]. intros ([k' v] & E & [_ Hin]%list_elem_of_filter)%list_elem_of_fmap.
    apply Hk, list_elem_of_fmap. eauto.
  - intros [_ H]%NoDup_cons. by apply IH.
Qed.

(** A granted vote was sent. *)
Lemma tally_sent t m es k : tally t m es !! k = Some true ->
  m !! k = Some true \/ exists e, e ∈ es /\ ev_From e = k /\ ev_Reason e = ReasonOk /\ ev_Term e = t.
Proof.
  unfold tally. revert m. induction es as [|e es IH]; intros m; cbn; [by left|]. intros [H|(e' & He & H)]%IH; [|right; exists e'; set_solver].
  destruct (Z.eqb_spec (ev_Term e) t); [|by left]. apply lookup_insert_Some in H as [[Hk Hb]|[_ H]]; [|by left].
  apply bool_decide_eq_true in Hb. right. exists e. set_solver.
Qed.

Lemma tally_size t m es : (size (tally t m es) <= size m + length es)%nat.
Proof.
  unfold tally. revert m. induction es as [|e es IH]; intros m; cbn; [lia|]. etrans; [apply IH|]. destruct (_ =? _); [|lia].
  rewrite map_size_insert. destruct (m !! ev_From e); unfold id; lia.
Qed.

(** Grants of different senders. *)
Lemma tally_grants t m es :
  NoDup (ev_From <$> es) -> Forall (fun e => ev_Term e = t /\ ev_Reason e = ReasonOk /\ m !! ev_From e = None) es ->
  map_Forall (fun _ v => v = true) m ->
  size (tally t m es) = (size m + length es)%nat /\ map_Forall (fun _ v => v = true) (tally t m es).
Proof.
  unfold tally. revert m. induction es as [|e es IH]; intros m Hnd Hall Hm; cbn; [split; [lia|done]|].
  apply NoDup_cons in Hnd as [Hnin Hnd]. apply Forall_cons in Hall as [(Ht & Hr & Hn) Hall].
  rewrite Ht, Z.eqb_refl, bool_decide_eq_true_2 by done. destruct (IH (<[ev_From e := true]> m)) as [Hs Hf].
  - done.
  - eapply Forall_impl; [apply Forall_and; split; [exact Hall|apply Forall_forall; intros x Hx; exact Hx]|].
    intros x [(? & ? & ?) Hx]. split_and!; auto. rewrite lookup_insert_ne; [done|]. intros E. apply Hnin. rewrite E. by apply list_elem_of_fmap_2.
  - by apply map_Forall_insert_2.
  - split; [|done]. rewrite Hs, map_size_insert_None by done. lia.
Qed.

Lemma granting_all m : map_Forall (fun _ v => v = true) m -> length (granting m) = size m.
Proof.
  intros H. unfold granting. rewrite length_fmap, filter_all; [by rewrite length_map_to_list|].
  apply Forall_forall. intros [k v] Hin%elem_of_map_to_list. by apply (H k).
Qed.

(** A campaign that is not decided yet. *)
Record polling (n : Node) (m : gmap Z bool) : Prop := {
  pl_fn : n_stepFunc n = Some FnCandidate;
  pl_role : cfg_Role (n_cfg n) = RoleCandidate;
  pl_votes : n_votes n = m
}.
Definition answer (t : Z) (e : Event) : Prop := ev_Type e = VoteResp /\ 1 <= ev_Term e <= t.

Lemma publish_polling n m : polling n m -> polling (publishReadState n) m.
Proof. intros [Hf Hr Hv]. rewrite publish_fresh. by split. Qed.

(** A response that is not of the term is dropped. *)
Lemma Step_stale n e : ev_Type e = VoteResp -> 1 <= ev_Term e < cfg_Term (n_cfg n) -> Step n e = Ok (publishReadState n, None).
Proof.
  intros Ht H. unfold Step, stepTerm. rewrite Ht, (proj2 (Z.eqb_neq _ 0)), (proj2 (Z.ltb_lt _ _)) by lia. by destruct (_ && _).
Qed.

Lemma Step_VoteResp n e m :
  polling n m -> ev_Type e = VoteResp -> ev_Term e = cfg_Term (n_cfg n) -> 1 <= ev_Term e ->
  let m' := tally (ev_Term e) m [e] in
  exists n', Step n e = Ok (n', None) /\ cfg_Term (n_cfg n') = cfg_Term (n_cfg n) /\
    cfg_Replicas (n_cfg n') = cfg_Replicas (n_cfg n) /\
    if Z.of_nat (size m') <? quorum n then polling n' m'
    else if quorum n <=? len (granting m')
    then cfg_Role (n_cfg n') = RoleLeader /\ n_stepFunc n' = Some FnLeader
    else cfg_Role (n_cfg n') = RoleFollower /\ n_stepFunc n' = Some FnFollower.
Proof.
  intros [Hf Hr Hv] Ht Hterm H1 m'. unfold Step, stepTerm.
  destruct (Z.eqb_spec (ev_Term e) 0); [lia|]. rewrite Hterm, Z.ltb_irrefl.
  unfold stepBody. rewrite Ht, Hf. unfold stepCandidate. rewrite Ht.
  assert (Em : <[ev_From e := bool_decide (ev_Reason e = ReasonOk)]> (n_votes n) = m').
  { unfold m', tally. cbn. by rewrite Z.eqb_refl, Hv. }
  unfold done_, res_bind, poll. rewrite Em. set (c := {| n with n_votes := m' |}).
  change (quorum c) with (quorum n). change (n_votes c) with m'. unfold granting. rewrite length_fmap. cbv zeta.
  eexists. split; [done|]. destruct (_ <? quorum n); [|destruct (quorum n <=? _)].
  - rewrite publish_fresh. by repeat split.
  - set (b := BecomeLeader _ _). assert (Hb : kept b (publishReadState (advance (sendPing b All)))).
    { etrans; [apply kept_sendPing|]. etrans; [apply kept_advance|apply kept_publish]. }
    destruct (core_inv _ _ (kept_core _ _ Hb)) as (_ & _ & -> & -> & _).
    unfold b. destruct (BecomeLeader_became c (cfg_Term (n_cfg c))) as [-> [-> _] _ _ _ _ _]. done.
  - destruct (publish_proj (BecomeFollower c (cfg_Term (n_cfg c)) None_)) as (-> & _ & _ & -> & _).
    destruct (BecomeFollower_became c (cfg_Term (n_cfg c)) None_) as [-> [-> _] _ _ _ _ _]. done.
Qed.

(** Responses that come late change nothing. *)
Lemma decided_run n es :
  n_stepFunc n = Some FnLeader \/ n_stepFunc n = Some FnFollower -> Forall (answer (cfg_Term (n_cfg n))) es ->
  exists n', run_ops n (OpStep <$> es) = Ok n' /\ n_cfg n' = n_cfg n.
Proof.
  revert n. induction es as [|e es IH]; intros n Hf Hall; [by exists n|]. apply Forall_cons in Hall as [[Ht Hr] Hall]. cbn.
  assert (E : Step n e = Ok (publishReadState n, None)).
  { destruct (decide (ev_Term e = cfg_Term (n_cfg n))) as [Et|]; [|apply Step_stale; [done|lia]].
    unfold Step, stepTerm. rewrite (proj2 (Z.eqb_neq _ 0)), Et, Z.ltb_irrefl by lia. unfold stepBody. rewrite Ht.
    destruct Hf as [-> | ->]; [unfold stepLeader|unfold stepFollower]; by rewrite Ht. }
  rewrite E. cbn [res_bind]. destruct (IH (publishReadState n)) as (n' & -> & Hc).
  - rewrite publish_fresh. done.
  - rewrite publish_fresh. done.
  - exists n'. split; [done|]. rewrite Hc, publish_fresh. done.
Qed.

(** The answers of a campaign: it is decided by the first of them with which a majority has
    answered. *)
Lemma campaign_run n m es :
  polling n m -> Z.of_nat (size m) < quorum n -> Forall (answer (cfg_Term (n_cfg n))) es ->
  exists n' before, run_ops n (OpStep <$> es) = Ok n' /\ cfg_Term (n_cfg n') = cfg_Term (n_cfg n) /\ before `prefix_of` es /\
    let m' := tally (cfg_Term (n_cfg n)) m before in
    (before = es /\ Z.of_nat (size m') < quorum n /\ cfg_Role (n_cfg n') = RoleCandidate) \/
    (quorum n <= Z.of_nat (size m') /\
     cfg_Role (n_cfg n') = if quorum n <=? len (granting m') then RoleLeader else RoleFollower).
Proof.
  revert n m. induction es as [|e es IH]; intros n m Hp Hm Hall.
  { exists n, []. split_and!; [done..|]. left. split_and!; [done|done|apply Hp]. }
  apply Forall_cons in Hall as [[Ht Hr] Hall]. cbn [fmap list_fmap run_ops run_op].
  destruct (decide (ev_Term e = cfg_Term (n_cfg n))) as [Et|Hne].
  - destruct (Step_VoteResp n e m Hp Ht Et ltac:(lia)) as (n1 & -> & Ht1 & Hr1 & H1). cbn [res_bind]. rewrite Et in H1.
    assert (Hq : quorum n1 = quorum n) by (unfold quorum; by rewrite Hr1).
    destruct (Z.ltb_spec (Z.of_nat (size (tally (cfg_Term (n_cfg n)) m [e]))) (quorum n)).
    + destruct (IH n1 _ H1) as (n' & before & -> & Htn & [after ->] & Ho); [lia|by rewrite Ht1|].
      rewrite Ht1, Hq in *. exists n', (e :: before). split_and!; [done|done|by exists after|].
      unfold tally in *. cbn in *. destruct Ho as [(E & Ho)|Ho]; [left|by right]. split; [by f_equal|exact Ho].
    + destruct (decided_run n1 es) as (n' & -> & Hc); [destruct (_ <=? _); naive_solver|by rewrite Ht1|].
      exists n', [e]. split_and!; [done|by rewrite Hc|by exists es|]. right. split; [done|]. rewrite Hc. by destruct (_ <=? _), H1.
  - rewrite Step_stale by (done || lia). cbn [res_bind].
    destruct (IH (publishReadState n) m) as (n' & before & -> & Htn & [after ->] & Ho).
    + by apply publish_polling.
    + by rewrite publish_fresh.
    + by rewrite publish_fresh.
    + rewrite publish_fresh in *. exists n', (e :: before). split_and!; [done|done|by exists after|].
      unfold tally in *. cbn in *. rewrite (proj2 (Z.eqb_neq _ _) Hne). destruct Ho as [(E & Ho)|Ho]; [left|by right]. split; [by f_equal|exact Ho].
Qed.

(** ** The election timeout *)

(** A node that listens to its election timer. *)
Record listening (n : Node) : Prop := {
  ls_fn : n_tickFnc n = Some FnFollower \/ n_tickFnc n = Some FnCandidate;
  ls_on : opt_ElectionOn (n_opts n) = true;
  ls_leader : cfg_Leader (n_cfg n) <> n_NodeId n;
  ls_role : cfg_Role (n_cfg n) <> RoleLeader
}.

(** A campaign: the next term, no leader, a vote for oneself and a request to
    every replica. *)
Record campaigns (n n' : Node) : Prop := {
  cp_cfg : n_cfg n' = {| (n_cfg n) with cfg_Term := u32 (cfg_Term (n_cfg n) + 1);
                                        cfg_Leader := 0; cfg_Role := RoleCandidate |};
  cp_vote : n_voteFor n' = n_NodeId n;
  cp_requests : forall r, r ∈ cfg_Replicas (n_cfg n) ->
    exists e, e ∈ n_events n' /\ ev_Type e = VoteReq /\ ev_From e = n_NodeId n /\
      ev_To e = (if r =? n_NodeId n then LocalNode else r) /\
      ev_Term e = u32 (cfg_Term (n_cfg n) + 1)
}.

Lemma campaign_requests n l :
  let n' := foldl (fun n nodeId =>
                 if nodeId =? n_NodeId n then sendVoteReq n LocalNode
                 else sendVoteReq n nodeId) n l in
  kept n n' /\ (forall e, e ∈ n_events n -> e ∈ n_events n') /\
  forall r, r ∈ l ->
    exists e, e ∈ n_events n' /\ ev_Type e = VoteReq /\ ev_From e = n_NodeId n /\
      ev_To e = (if r =? n_NodeId n then LocalNode else r) /\
      ev_Term e = cfg_Term (n_cfg n).
Proof.
  revert n. induction l as [|x l IH]; intros n; simpl.
  { split_and!; auto; [done|]. intros r Hr. by apply not_elem_of_nil in Hr. }
  set (m := if x =? n_NodeId n then _ else _).
  assert (Hm : exists e, m = emit n e /\ ev_Type e = VoteReq /\ ev_From e = n_NodeId n /\
    ev_To e = (if x =? n_NodeId n then LocalNode else x) /\ ev_Term e = cfg_Term (n_cfg n)).
  { unfold m, sendVoteReq. destruct (x =? n_NodeId n); by eexists. }
  destruct Hm as (e & Hm & He). destruct (IH m) as (Hk & Hev & Hreq).
  assert (Hin : forall a, a ∈ n_events n \/ a = e -> a ∈ n_events m).
  { rewrite Hm. simpl. intros a. rewrite elem_of_app, list_elem_of_singleton. auto. }
  split_and!.
  - etrans; [|exact Hk]. rewrite Hm. apply kept_emit.
  - auto.
  - intros r [->|Hr]%elem_of_cons; [exists e; auto|].
    destruct (Hreq r Hr) as (e' & H1 & H2). exists e'. split; [done|].
    by rewrite Hm in H2.
Qed.

Lemma campaign_campaigns n :
  cfg_Leader (n_cfg n) <> n_NodeId n -> cfg_Role (n_cfg n) <> RoleLeader ->
  returns (campaign n) (campaigns n).
Proof.
  intros Hl Hr. unfold campaign. destruct (Z.eqb_spec (cfg_Leader (n_cfg n)) (n_NodeId n)); [done|].
  unfold BecomeCandidate. destruct (decide _); [done|]. cbn [res_bind].
  set (c := publishReadState _).
  assert (Hc : n_cfg c = {| (n_cfg n) with cfg_Term := u32 (cfg_Term (n_cfg n) + 1);
      cfg_Leader := 0; cfg_Role := RoleCandidate |} /\ n_voteFor c = n_NodeId n /\
      n_opts c = n_opts n).
  { unfold c. rewrite publish_fresh. done. }
  clearbody c. destruct Hc as (Hcfg & Hv & Ho).
  destruct (campaign_requests c (cfg_Replicas (n_cfg c))) as (Hk & _ & Hreq).
  destruct (core_inv _ _ (kept_core _ _ Hk)) as (_ & _ & Hcfg' & _ & _ & Hv' & _).
  assert (Hid : n_NodeId c = n_NodeId n) by (unfold n_NodeId; by rewrite Ho).
  eexists. split; [done|]. split; [congruence|congruence|].
  assert (Hrep : cfg_Replicas (n_cfg c) = cfg_Replicas (n_cfg n)) by (by rewrite Hcfg).
  assert (Hterm : cfg_Term (n_cfg c) = u32 (cfg_Term (n_cfg n) + 1)) by (by rewrite Hcfg).
  rewrite Hid, Hterm in Hreq. rewrite Hrep in Hreq |- *. exact Hreq.
Qed.

(** One tick: the timer advances, or the node campaigns. *)
Lemma Tick_listening n ka :
  listening n -> 0 <= n_electionElapsed n < two63 - 1 ->
  returns (Tick n ka) (fun n' =>
    if n_randomizedElectionTimeout n <=? n_electionElapsed n + 1
    then campaigns n n'
    else listening n' /\ n_cfg n' = n_cfg n /\ n_opts n' = n_opts n /\
         n_electionElapsed n' = n_electionElapsed n + 1 /\
         n_randomizedElectionTimeout n' = n_randomizedElectionTimeout n).
Proof.
  intros [Hfn Hon Hl Hr] Hel. unfold Tick. cbv zeta.
  set (m := if opt_AutoDestory _ then _ else _).
  assert (Hm : kept n m).
  { unfold m. destruct ka, (opt_AutoDestory _); try destruct (_ && _); kept_simple. }
  clearbody m.
  assert (Hm2 : exists m2, kept n m2 /\
    match n_tickFnc m with
    | None => Ok m
    | Some FnLeader => tickLeader m
    | Some FnFollower => tickFollower m
    | Some FnCandidate => tickCandidate m
    | Some FnLearner => tickLearner m
    end = tickElection m2).
  { destruct (core_inv _ _ (kept_core _ _ Hm)) as (Ho & _ & _ & _ & Ht & _).
    rewrite Ht. destruct Hfn as [->| ->].
    - exists (if n_suspend m then m else tickSync m). unfold tickFollower. cbv zeta.
      assert (Hk : kept n (if n_suspend m then m else tickSync m)).
      { destruct (n_suspend m); [done|]. etrans; [done|apply kept_tickSync]. }
      split; [done|]. destruct (core_inv _ _ (kept_core _ _ Hk)) as (-> & _). by rewrite Hon.
    - exists m. split; [done|]. unfold tickCandidate. by rewrite Ho, Hon. }
  destruct Hm2 as (m2 & Hk & ->).
  destruct (core_inv _ _ (kept_core _ _ Hk))
    as (Ho & _ & Hcfg & Hst & Htk & _ & _ & _ & Hrt & Hee).
  assert (Hi : i64 (n_electionElapsed m2 + 1) = n_electionElapsed n + 1).
  { rewrite Hee. apply i64_small. unfold is_i64. lia. }
  unfold tickElection. cbv zeta. rewrite Hi.
  set (m1 := {| m2 with n_electionElapsed := n_electionElapsed n + 1 |}).
  assert (Hp : pastElectionTimeout m1 =
    (n_randomizedElectionTimeout n <=? n_electionElapsed n + 1)).
  { unfold pastElectionTimeout, m1. simpl. by rewrite Hrt. }
  rewrite Hp. clear Hp.
  assert (Hid : n_NodeId m2 = n_NodeId n) by (unfold n_NodeId; by rewrite Ho).
  destruct (Z.leb_spec (n_randomizedElectionTimeout n) (n_electionElapsed n + 1)).
  - set (m3 := {| m2 with n_electionElapsed := 0 |}).
    destruct (campaign_campaigns m3) as (c & Hc & [Hc1 Hc2 Hc3]).
    { simpl. rewrite Hcfg. unfold m3, n_NodeId. simpl. rewrite Ho. done. }
    { simpl. by rewrite Hcfg. }
    match goal with |- context [campaign ?x] => change x with m3 end.
    rewrite Hc. simpl. eexists. split; [done|]. rewrite publish_fresh.
    unfold m3, n_NodeId in Hc1, Hc2, Hc3. simpl in Hc1, Hc2, Hc3.
    rewrite Hcfg, ?Ho in *. by split.
  - simpl. eexists. split; [done|]. rewrite publish_fresh. simpl.
    split_and!; auto. split; simpl; rewrite ?Htk, ?Ho, ?Hcfg; auto.
Qed.

(** Enough ticks. *)
Lemma ticks_campaign k n :
  listening n -> 0 <= n_electionElapsed n < n_randomizedElectionTimeout n ->
  n_randomizedElectionTimeout n < two63 ->
  n_randomizedElectionTimeout n - n_electionElapsed n = Z.of_nat (S k) ->
  returns (run_ops n (replicate (S k) (OpTick false))) (campaigns n).
Proof.
  revert n. induction k as [|k IH]; intros n Hls Hel Hmax Hk.
  - simpl. destruct (Tick_listening n false Hls ltac:(lia)) as (n' & -> & H).
    destruct (Z.leb_spec (n_randomizedElectionTimeout n) (n_electionElapsed n + 1)); [|lia].
    by exists n'.
  - cbn [replicate run_ops run_op].
    destruct (Tick_listening n false Hls ltac:(lia)) as (n' & -> & H).
    destruct (Z.leb_spec (n_randomizedElectionTimeout n) (n_electionElapsed n + 1)); [lia|].
    destruct H as (Hl' & Hcfg & Ho & He & Hr). cbn [res_bind].
    destruct (IH n') as (n2 & Hn2 & [H1 H2 H3]); [done|lia|lia|lia|].
    exists n2. split; [exact Hn2|].
    assert (Hid : n_NodeId n' = n_NodeId n) by (unfold n_NodeId; by rewrite Ho).
    rewrite Hcfg, Hid in *. by split.
Qed.

(** ** Synchronisation is retried *)

(** The ticks left until the next sync request. *)
Definition sync_wait (n : Node) : Z :=
  if n_syncing n
  then opt_SyncRespTimeoutTick (n_opts n) - n_syncRespTimeoutTick n +
       opt_SyncIntervalTick (n_opts n)
  else opt_SyncIntervalTick (n_opts n) - n_syncElapsed n.

(** A learner, or a follower of a group whose leader is appointed, with a
    leader, that is not suspended and not truncating and whose counters are
    within their limits. *)
Record synchronising (n : Node) : Prop := {
  sy_fn : n_tickFnc n = Some FnLearner \/
          (n_tickFnc n = Some FnFollower /\ opt_ElectionOn (n_opts n) = false);
  sy_leader : cfg_Leader (n_cfg n) <> 0;
  sy_run : n_suspend n = false /\ n_truncating n = false;
  sy_limits : 0 < opt_SyncIntervalTick (n_opts n) < two63 /\
              0 < opt_SyncRespTimeoutTick (n_opts n) < two63;
  sy_elapsed : 0 <= n_syncElapsed n < opt_SyncIntervalTick (n_opts n);
  sy_tick : 0 <= n_syncRespTimeoutTick n < opt_SyncRespTimeoutTick (n_opts n);
  sy_reset : n_syncing n = true -> n_syncElapsed n = 0
}.

Lemma tickSync_progress n :
  synchronising n ->
  hasSyncReq (tickSync n) = true \/
  (synchronising (tickSync n) /\ sync_wait (tickSync n) = sync_wait n - 1).
Proof.
  intros [Hfn Hl [Hs Htr] [Hi Hr] He Ht Hre]. unfold tickSync, sync_wait.
  destruct (n_syncing n) eqn:Hsy.
  - right. rewrite Hre in * by done.
    rewrite i64_small by (unfold is_i64; lia). cbn.
    destruct (Z.leb_spec (opt_SyncRespTimeoutTick (n_opts n)) (n_syncRespTimeoutTick n + 1));
      cbn; rewrite ?Hsy; (split; [split|]); cbn; rewrite ?Hre by done; auto; try lia.
  - rewrite i64_small by (unfold is_i64; lia). cbn.
    destruct (Z.eqb_spec (cfg_Leader (n_cfg n)) 0); [done|].
    destruct (Z.leb_spec (opt_SyncIntervalTick (n_opts n)) (n_syncElapsed n + 1)); cbn.
    + left. unfold hasSyncReq. cbn. destruct (existsb _ (n_events n)) eqn:Hh; cbn; [exact Hh|].
      unfold sendSyncReq. cbn. rewrite Htr. cbn.
      rewrite existsb_app. cbn. by rewrite orb_true_r.
    + right. (split; [split|]); cbn; auto; lia.
Qed.

(** The fields the retry depends on. *)
Definition sync_core (n : Node) :=
  (n_tickFnc n, n_opts n, n_cfg n, (n_suspend n, n_truncating n),
   (n_syncElapsed n, n_syncRespTimeoutTick n, n_syncing n)).

Lemma sync_core_ext n m :
  sync_core m = sync_core n -> synchronising n -> synchronising m /\ sync_wait m = sync_wait n.
Proof.
  unfold sync_core, sync_wait. intros H [? ? ? ? ? ? ?].
  injection H as Hf Ho Hc Hs Ht He Hr Hy.
  split; [split|]; rewrite ?Hf, ?Ho, ?Hc, ?Hs, ?Ht, ?He, ?Hr, ?Hy; auto.
Qed.

Lemma Tick_synchronising n ka :
  synchronising n ->
  returns (Tick n ka) (fun n' =>
    hasSyncReq n' = true \/ (synchronising n' /\ sync_wait n' = sync_wait n - 1)).
Proof.
  intros Hn. unfold Tick. cbv zeta.
  set (m := if opt_AutoDestory _ then _ else _).
  assert (Hm : sync_core m = sync_core n).
  { unfold m. by destruct ka, (opt_AutoDestory _); try destruct (_ && _). }
  clearbody m. destruct (sync_core_ext _ _ Hm Hn) as [Hsm Hw].
  assert (Hrun : match n_tickFnc m with
    | None => Ok m
    | Some FnLeader => tickLeader m
    | Some FnFollower => tickFollower m
    | Some FnCandidate => tickCandidate m
    | Some FnLearner => tickLearner m
    end = Ok (tickSync m)).
  { destruct Hsm as [Hfn _ [Hs _] _ _ _ _].
    pose proof (core_inv _ _ (kept_core _ _ (kept_tickSync m))) as (Ho & _).
    destruct Hfn as [->|[-> Hel]]; unfold tickLearner, tickFollower; rewrite Hs; [done|].
    cbv zeta. by rewrite Ho, Hel. }
  rewrite Hrun. cbn [res_bind]. eexists. split; [done|].
  rewrite publish_fresh. rewrite <-Hw.
  destruct (tickSync_progress m Hsm) as [H|[H1 H2]]; [by left|].
  right. rewrite <-H2. by apply (sync_core_ext (tickSync m)).
Qed.

Lemma ticks_sync k n :
  synchronising n -> sync_wait n = Z.of_nat k ->
  exists j, (0 < j <= k)%nat /\
    returns (run_ops n (replicate j (OpTick false))) (fun n' => hasSyncReq n' = true).
Proof.
  revert n. induction k as [|k IH]; intros n Hn Hk.
  - exfalso. destruct Hn as [? ? ? ? ? ? ?]. revert Hk. unfold sync_wait.
    destruct (n_syncing n); lia.
  - destruct (Tick_synchronising n false Hn) as (n1 & H1 & [H|[Hs Hw]]).
    + exists 1%nat. split; [lia|]. simpl. rewrite H1. simpl. by eexists.
    + destruct (IH n1 Hs ltac:(lia)) as (j & Hj & Hr).
      exists (S j). split; [lia|]. cbn [replicate run_ops run_op]. by rewrite H1.
Qed.

(** ** Several nodes

    The nodes exchange the events they emit.  An event for [LocalNode] or for
    the node itself is handled by the node that emitted it, as the driver of
    [pkg/raft/raft/raft.go] does; any other event goes to the node it is
    addressed to.  The network may delay events and deliver them in any
    order. *)
Record Cluster := mkCluster {
  cl_nodes : gmap Z Node;
  cl_net : list (Z * Event)
}.

Inductive action :=
| ATick (id : Z)
| AReady (id : Z)
| ADeliver (k : nat).

(** The node an event of [from] is for. *)
Definition route (from : Z) (e : Event) : Z :=
  if (ev_To e =? LocalNode) || (ev_To e =? from) then from else ev_To e.

Definition act (c : Cluster) (a : action) : option Cluster :=
  match a with
  | ATick id =>
      n ← cl_nodes c !! id;
      match Tick n false with
      | Ok n => Some {| c with cl_nodes := <[id := n]> (cl_nodes c) |}
      | _ => None
      end
  | AReady id =>
      n ← cl_nodes c !! id;
      match Ready n with
      | Ok (n, evs) =>
          Some (mkCluster (<[id := n]> (cl_nodes c)) (cl_net c ++ map (pair id) evs))
      | _ => None
      end
  | ADeliver k =>
      '(from, e) ← cl_net c !! k;
      n ← cl_nodes c !! route from e;
      match Step n e with
      | Ok (n, _) =>
          Some (mkCluster (<[route from e := n]> (cl_nodes c)) (delete k (cl_net c)))
      | _ => None
      end
  end.

Fixpoint acts (c : Cluster) (l : list action) : option Cluster :=
  match l with
  | [] => Some c
  | a :: l => c ← act c a; acts c l
  end.

(** The role and the term of a node of the cluster. *)
Definition role_term (c : option Cluster) (id : Z) : option (Role * Z) :=
  c ← c; n ← cl_nodes c !! id; Some (cfg_Role (n_cfg n), cfg_Term (n_cfg n)).

Definition three_nodes : Cluster :=
  mkCluster
    (list_to_map (omap (fun id =>
       match NewNode 0 (mkRaftState 0 0 0)
               {| NewOptions with opt_NodeId := id; opt_ElectionOn := true;
                                  opt_Replicas := [1; 2; 3] |} with
       | Ok n => Some (id, n)
       | _ => None
       end) [1; 2; 3])) [].

Module ElectionProps.

(** C9.  The vote rule.  A vote request of an older term is dropped without a
    response.  A learner that gets one of its own or a newer term becomes a
    follower of the sender and sends no response.  Any other node answers it
    with exactly one response, in the term of the request, which grants the
    vote if and only if the candidate's log is at least as recent and the term
    is new to the node or its record of the vote, [voteFor], is empty or names
    the candidate; a granted vote is recorded.  (The record is cleared by a
    change of role within a term, see [two_leaders_in_one_term].) *)
Theorem vote_rule (n : Node) (e : Event) :
  ev_Type e = VoteReq -> 1 <= ev_Term e ->
  exists n', Step n e = Ok (n', None) /\
  if ev_Term e <? cfg_Term (n_cfg n) then n_events n' = n_events n /\ n_cfg n' = n_cfg n /\ n_voteFor n' = n_voteFor n
  else
    cfg_Term (n_cfg n') = ev_Term e /\
    if bool_decide (cfg_Role (n_cfg n) = RoleLearner)
    then n_events n' = n_events n /\ cfg_Role (n_cfg n') = RoleFollower /\ cfg_Leader (n_cfg n') = ev_From e
    else exists resp, n_events n' = n_events n ++ [resp] /\
      ev_Type resp = VoteResp /\ ev_Term resp = ev_Term e /\ ev_From resp = n_NodeId n /\
      (ev_Reason resp = ReasonOk <-> grants n e) /\
      (grants n e -> n_voteFor n' = ev_From e).
Proof.
  intros Ht H1. destruct (Z.ltb_spec (ev_Term e) (cfg_Term (n_cfg n))) as [Hlt|Hle].
  { exists (publishReadState n). split; [|by rewrite publish_fresh].
    unfold Step, stepTerm. rewrite Ht, (proj2 (Z.eqb_neq _ 0)), (proj2 (Z.ltb_lt _ _)) by lia. by destruct (_ && _). }
  case_bool_decide as Hr.
  - destruct (Step_VoteReq_learner n e Ht H1 Hle Hr) as (n' & -> & H). by exists n'.
  - destruct (Step_VoteReq n e Ht H1 Hle Hr) as (n' & resp & -> & H & H'). exists n'. eauto.
Qed.

Definition ask (from term lastTerm lastIndex : Z) : Event :=
  {| emptyEvent with ev_Type := VoteReq; ev_From := from; ev_Term := term;
       ev_Logs := [{| EmptyLog with log_Term := lastTerm; log_Index := lastIndex |}] |}.

Lemma vote_rule_witness :
  exists n' resp, Step NodeProps.node3 (ask 2 5 4 10) = Ok (n', None) /\
    ev_Reason resp = ReasonOk /\ n_voteFor n' = 2.
Proof.
  destruct (vote_rule NodeProps.node3 (ask 2 5 4 10)) as (n' & H & H'); [reflexivity|decide_goal|].
  rewrite (proj2 (Z.ltb_ge _ _)), bool_decide_eq_false_2 in H' by (vm_compute; discriminate).
  destruct H' as (_ & resp & _ & _ & _ & _ & Hr & Hv).
  assert (Hg : grants NodeProps.node3 (ask 2 5 4 10)) by decide_goal.
  exists n', resp. split; [exact H|]. split; [by apply Hr|by apply Hv].
Defined.

(** C10.  Elections need a majority.  A node that has become candidate gets
    responses to its vote requests, of its term or stale ones, from any senders
    and in any order.  It stays in its term and handles every response.  When it is leader afterwards, more
    than half as many different nodes as there are replicas have sent it a
    granting response of the term; it is leader when the responses are grants
    of different nodes and more than half as many as the replicas; and as long
    as no more than half as many have come it is a candidate. *)
Theorem leader_needs_majority (n0 n : Node) (es : list Event) :
  BecomeCandidate n0 = Ok n -> Forall (answer (cfg_Term (n_cfg n))) es ->
  exists n', run_ops n (OpStep <$> es) = Ok n' /\ cfg_Term (n_cfg n') = cfg_Term (n_cfg n) /\
    (cfg_Role (n_cfg n') = RoleLeader ->
     exists voters, NoDup voters /\ len (cfg_Replicas (n_cfg n)) < 2 * len voters /\
       forall v, v ∈ voters -> exists e, e ∈ es /\ ev_From e = v /\ ev_Reason e = ReasonOk /\ ev_Term e = cfg_Term (n_cfg n)) /\
    (NoDup (ev_From <$> es) -> Forall (fun e => ev_Term e = cfg_Term (n_cfg n) /\ ev_Reason e = ReasonOk) es ->
     len (cfg_Replicas (n_cfg n)) < 2 * len es -> cfg_Role (n_cfg n') = RoleLeader) /\
    (2 * len es <= len (cfg_Replicas (n_cfg n)) -> cfg_Role (n_cfg n') = RoleCandidate).
Proof.
  intros Hc Hall. set (t := cfg_Term (n_cfg n)) in *.
  assert (Hp : polling n ∅).
  { unfold BecomeCandidate in Hc. destruct (decide _); [done|]. injection Hc as <-. rewrite publish_fresh. done. }
  assert (Hq : len (cfg_Replicas (n_cfg n)) < 2 * quorum n <= len (cfg_Replicas (n_cfg n)) + 2).
  { unfold quorum. Z.to_euclidean_division_equations. lia. }
  destruct (campaign_run n ∅ es Hp) as (n' & before & -> & Ht & [after ->] & Ho); [rewrite map_size_empty; lia|done|].
  fold t in Ho. exists n'. split; [done|]. split; [done|]. pose proof (tally_size t ∅ before) as Hs. rewrite map_size_empty in Hs.
  assert (Hb : (length before <= length (before ++ after))%nat) by (rewrite length_app; lia).
  split_and!.
  - intros Hl. exists (granting (tally t ∅ before)). split; [apply granting_NoDup|].
    destruct Ho as [(_ & _ & Hr)|(_ & Hr)]; [congruence|]. rewrite Hl in Hr.
    destruct (Z.leb_spec (quorum n) (len (granting (tally t ∅ before)))); [|done]. split; [lia|].
    intros v [Hv|(e & He & H')]%granting_elem%tally_sent; [by rewrite lookup_empty in Hv|]. exists e. set_solver.
  - intros Hnd Hgr Hlen. rewrite fmap_app in Hnd. apply NoDup_app in Hnd as [Hnd _].
    destruct (tally_grants t ∅ before Hnd) as [Hsz Hf].
    { apply Forall_app in Hgr as [Hgr _]. eapply Forall_impl; [exact Hgr|]. intros e [? ?]. by rewrite lookup_empty. }
    { apply map_Forall_empty. }
    rewrite map_size_empty in Hsz. pose proof (granting_all _ Hf) as Hg.
    destruct Ho as [(E & Hlt & _)|(Hge & Hr)].
    + rewrite <-E in Hlen. lia.
    + rewrite Hr, Hg. destruct (Z.leb_spec (quorum n) (Z.of_nat (size (tally t ∅ before)))); [done|lia].
  - intros Hle. destruct Ho as [(_ & _ & Hr)|(Hge & _)]; [done|]. lia.
Qed.

(** A candidate of five replicas with the votes of 1, 2 and 3. *)
Definition candidate5 : Node :=
  CommitProps.the_node (let! n := NewNode 1 (mkRaftState 20 1 0) CommitProps.opts5 in BecomeCandidate n).

Lemma leader_needs_majority_witness :
  exists n', run_ops candidate5 (OpStep <$> [CommitProps.vote 1 2; CommitProps.vote 2 2; CommitProps.vote 3 2]) = Ok n' /\
    cfg_Role (n_cfg n') = RoleLeader.
Proof.
  destruct (leader_needs_majority
    (CommitProps.the_node (NewNode 1 (mkRaftState 20 1 0) CommitProps.opts5)) candidate5
    [CommitProps.vote 1 2; CommitProps.vote 2 2; CommitProps.vote 3 2]) as (n' & H & _ & _ & Hl & _).
  - vm_compute. reflexivity.
  - repeat constructor; vm_compute; discriminate.
  - exists n'. split; [exact H|]. apply Hl.
    + decide_goal.
    + repeat constructor.
    + vm_compute. reflexivity.
Defined.

(**  Election liveness: a follower or candidate whose clock ticks and that
    hears from nobody campaigns exactly when its timer reaches the randomised
    timeout: it is a candidate of the next term, has voted for itself and has
    emitted a vote request for every replica. *)
Theorem timeout_starts_election (n : Node) (k : nat) :
  listening n -> 0 <= n_electionElapsed n < n_randomizedElectionTimeout n ->
  n_randomizedElectionTimeout n < two63 ->
  n_randomizedElectionTimeout n - n_electionElapsed n = Z.of_nat (S k) ->
  returns (run_ops n (replicate (S k) (OpTick false))) (campaigns n).
Proof. apply ticks_campaign. Qed.

Lemma timeout_starts_election_witness :
  returns (run_ops NodeProps.node3 (replicate 10 (OpTick false)))
    (fun n' => cfg_Role (n_cfg n') = RoleCandidate /\ cfg_Term (n_cfg n') = 5).
Proof.
  destruct (timeout_starts_election NodeProps.node3 9) as (n' & H & [Hcfg _ _]);
    [split; vm_compute; auto; discriminate|decide_goal|vm_compute; reflexivity
    |vm_compute; reflexivity|].
  exists n'. split; [exact H|]. rewrite Hcfg. split; vm_compute; reflexivity.
Defined.

(**  Synchronisation is retried: a learner, or a follower of a group whose
    leader is appointed, that has a leader and is neither suspended nor
    truncating emits a sync request within the response timeout plus the sync
    interval, even when every response is lost. *)
Theorem sync_is_retried (n : Node) (k : nat) :
  synchronising n -> sync_wait n = Z.of_nat k ->
  exists j, (0 < j <= k)%nat /\
    returns (run_ops n (replicate j (OpTick false))) (fun n' => hasSyncReq n' = true).
Proof. apply ticks_sync. Qed.

(** A follower of leader 2 that waits for a response. *)
Definition waiting : Node :=
  CommitProps.the_node
    (let! n := NewNode 8 NodeProps.state3
                 {| NodeProps.opts3 with opt_ElectionOn := false |} in
     run_ops (BecomeFollower n 5 2) [OpTick false; OpTick false; OpReady]).

Lemma sync_is_retried_witness :
  n_syncing waiting = true /\
  exists j, (0 < j <= 12)%nat /\
    returns (run_ops waiting (replicate j (OpTick false))) (fun n' => hasSyncReq n' = true).
Proof.
  split; [vm_compute; reflexivity|]. apply (sync_is_retried waiting 12).
  - split;
      [right; split; vm_compute; reflexivity|vm_compute; discriminate
      |split; vm_compute; reflexivity|split; decide_goal|decide_goal|decide_goal
      |vm_compute; reflexivity].
  - vm_compute. reflexivity.
Defined.

(**  Election safety does not hold.  Three fresh nodes time out; 1 and 3
    campaign for term 2, 1 wins with the vote of 2.  Winning clears
    [voteFor], so 1 grants the pending request of 3 in the same term, and 3
    becomes leader of term 2 as well. *)
Theorem two_leaders_in_one_term :
  let c := acts three_nodes
             (replicate 10 (ATick 1) ++ replicate 10 (ATick 3) ++
              [AReady 1; AReady 3;
               ADeliver 0; AReady 1; ADeliver 5; (* 1 votes for itself *)
               ADeliver 0; AReady 2; ADeliver 4; (* 2 votes for 1, which wins *)
               ADeliver 3; AReady 3; ADeliver 3; (* 3 votes for itself *)
               ADeliver 1; AReady 1; ADeliver 4  (* 1 votes for 3, which wins *)
              ]) in
  role_term c 1 = Some (RoleLeader, 2) /\ role_term c 3 = Some (RoleLeader, 2).
Proof. vm_compute. split; reflexivity. Qed.

(** A fresh node that received two logs of the terms 2 and 3 in one response
    and handed them to the storage. *)
Definition two_terms : res (Node * list Event) :=
  let! n := NewNode 0 (mkRaftState 0 0 0) NodeProps.opts3 in
  let! n := run_ops n
    [OpStep {| emptyEvent with ev_Type := SyncResp; ev_From := 2; ev_Term := 3;
                 ev_Reason := ReasonOk;
                 ev_Logs := [{| EmptyLog with log_Index := 1; log_Term := 2 |};
                             {| EmptyLog with log_Index := 2; log_Term := 3 |}] |}] in
  Ready n.

(**  [Ready] records only the first change of term of a batch.  The last
    log handed to the storage has term 3, the node reports 2 as the term of
    its last log, and it grants its vote to a candidate whose last log is of
    term 2, that is, older than its own. *)
Theorem vote_for_older_log :
  exists n evs e l n',
    two_terms = Ok (n, evs) /\ e ∈ evs /\ ev_Type e = StoreReq /\
    List.last (ev_Logs e) EmptyLog = l /\ log_Term l = 3 /\ log_Index l = 2 /\
    LastLogTerm n = Ok 2 /\
    Step n (ask 3 4 2 2) = Ok (n', None) /\ n_voteFor n' = 3.
Proof.
  eexists _, _, _, _, _. split; [vm_compute; reflexivity|].
  split; [apply elem_of_cons; left; reflexivity|].
  split; [reflexivity|]. split; [reflexivity|]. split; [reflexivity|]. split; [reflexivity|].
  split; [vm_compute; reflexivity|]. split; vm_compute; reflexivity.
Qed.
End ElectionProps.
