(* ===== verification/RaftApplied.v ===== *)
(** * Only apply responses move the applied index

    For every event, tick and ready round, and without any assumption on the
    node, the applied index stays what it is unless the storage reports that logs
    were applied, and then it does not go back.  The wake-up of the waiters, of a
    single node ([RaftWake]) and of a group ([GroupWake]), rests on it. *)

From S2P Require Import Prelude RaftTypes RaftQueue RaftNode RaftCommit RaftInv.

(** ** The applied index is moved by apply responses only *)

(** The applied index of the result, if there is one. *)
Definition keeps_applied (n : Node) (m : res Node) : Prop :=
  if_returns m (fun n' => q_appliedIndex (n_queue n') = q_appliedIndex (n_queue n)).
Definition keeps_applied_h (n : Node) (m : handled) : Prop :=
  if_returns m (fun '(n', _) => q_appliedIndex (n_queue n') = q_appliedIndex (n_queue n)).

Lemma truncateLogTo_applied q i :
  if_returns (truncateLogTo q i) (fun q' => q_appliedIndex q' = q_appliedIndex q).
Proof.
  unfold truncateLogTo. destruct (_ <? i); [done|].
  intros q' (r1 & H1 & [= <-])%res_bind_Ok. simpl. revert H1.
  destruct (i <? _); [by intros [= <-]|].
  intros (l & _ & [= <-])%res_bind_Ok. done.
Qed.

Lemma append_applied q logs :
  if_returns (append q logs) (fun '(q', _) => q_appliedIndex q' = q_appliedIndex q).
Proof.
  unfold append. generalize 1%nat as fuel. intros fuel. revert q.
  induction fuel as [|fuel IH]; intros q [q' err]; destruct logs as [|l ls]; simpl.
  1, 3: by intros [= <- <-].
  all: destruct (broken_at _ _ _); [by intros [= <- <-]|];
    destruct (_ =? q_lastLogIndex q); [by intros [= <- <-]|];
    destruct (_ <=? q_lastLogIndex q);
    [destruct (_ <=? q_lastLogIndex q); [by intros [= <- <-]|]
    |destruct (_ <? log_Index l); by intros [= <- <-]].
  - by intros (r' & _ & [=])%res_bind_Ok.
  - intros (r' & Hr & H)%res_bind_Ok. apply truncateLogTo_applied in Hr.
    apply IH in H. simpl in H. congruence.
Qed.

Lemma storeTo_applied q i :
  if_returns (storeTo q i) (fun q' => q_appliedIndex q' = q_appliedIndex q).
Proof.
  unfold storeTo. intros q'. cbv zeta. destruct (_ <=? _); [by intros [= <-]|].
  destruct (_ <? i); [done|]. by intros (l & _ & [= <-])%res_bind_Ok.
Qed.

Lemma core_queue n n' : core n' = core n -> n_queue n' = n_queue n.
Proof. intros H. by apply core_inv in H as (_ & ? & _). Qed.

Lemma kept_queue n n' : kept n n' -> n_queue n' = n_queue n.
Proof. intros [H _]. by apply core_queue. Qed.

Lemma keeps_done n n' : n_queue n' = n_queue n -> keeps_applied_h n (done_ n').
Proof. intros H [m err] [= <- <-]. by rewrite H. Qed.

Lemma keeps_bind n (m : res Node) f :
  keeps_applied n m ->
  (forall n', q_appliedIndex (n_queue n') = q_appliedIndex (n_queue n) ->
              keeps_applied_h n (f n')) ->
  keeps_applied_h n (let! n := m in f n).
Proof. intros Hm Hf. eapply if_returns_bind; [exact Hm|]. exact Hf. Qed.

(** The done-cases of a handler reached from a node with the same applied
    index. *)
Lemma keeps_done' n m n' :
  q_appliedIndex (n_queue m) = q_appliedIndex (n_queue n) -> kept m n' ->
  keeps_applied_h n (done_ n').
Proof. intros H Hk [m' err] [= <- <-]. by rewrite (kept_queue _ _ Hk). Qed.

Lemma modifySync_queue n id f :
  if_returns (modifySync n id f) (fun n' => n_queue n' = n_queue n).
Proof. unfold modifySync. destruct (_ !! _); [|done]. by intros n' [= <-]. Qed.

Lemma roleSwitchIfNeed_queue n e :
  if_returns (roleSwitchIfNeed n e) (fun n' => n_queue n' = n_queue n).
Proof.
  assert (Hmod : forall g, (forall m, n_queue (g m) = n_queue m) ->
    if_returns (let! n := modifySync n (ev_From e) (set_roleSwitching true) in Ok (g n))
      (fun n' => n_queue n' = n_queue n)).
  { intros g Hg n' (m & Hm & [= <-])%res_bind_Ok. apply modifySync_queue in Hm.
    by rewrite Hg. }
  unfold roleSwitchIfNeed.
  repeat match goal with
  | |- if_returns (if ?b then _ else _) _ => destruct b
  | |- if_returns (match ?x with _ => _ end) _ => destruct x
  | |- if_returns Panic _ => done
  | |- if_returns (Ok _) _ => by intros ? [= <-]
  | |- if_returns (res_bind _ _) _ => by apply Hmod
  end.
Qed.

Lemma updateLeader_applied n : keeps_applied n (updateLeaderCommittedIndex n).
Proof.
  intros n' (c & _ & H)%res_bind_Ok. destruct (_ <? c); injection H as <-; done.
Qed.

Lemma updateFollow_applied n c :
  q_appliedIndex (n_queue (updateFollowCommittedIndex n c)) = q_appliedIndex (n_queue n).
Proof. unfold updateFollowCommittedIndex. destruct (_ || _); [done|]. by destruct (_ <? _). Qed.

Lemma became_queue role t l f n n' : became role t l f n n' -> n_queue n' = n_queue n.
Proof. by intros [_ _ _ ? _ _ _]. Qed.

Lemma BecomeLeader_queue n t : n_queue (BecomeLeader n t) = n_queue n.
Proof. apply (became_queue _ _ _ _ _ _ (BecomeLeader_became n t)). Qed.
Lemma BecomeFollower_queue n t l : n_queue (BecomeFollower n t l) = n_queue n.
Proof. apply (became_queue _ _ _ _ _ _ (BecomeFollower_became n t l)). Qed.
Lemma BecomeLearner_queue n t l : n_queue (BecomeLearner n t l) = n_queue n.
Proof. apply (became_queue _ _ _ _ _ _ (BecomeLearner_became n t l)). Qed.

Lemma roleChangeIfNeed_queue n o c : n_queue (roleChangeIfNeed n o c) = n_queue n.
Proof.
  unfold roleChangeIfNeed.
  pose proof (BecomeLeader_queue n (cfg_Term c)) as HL.
  pose proof (BecomeFollower_queue n (cfg_Term c) (cfg_Leader c)) as HF.
  pose proof (BecomeLearner_queue n (cfg_Term c) (cfg_Leader c)) as HN.
  revert HL HF HN. generalize (BecomeLeader n (cfg_Term c))
    (BecomeFollower n (cfg_Term c) (cfg_Leader c)) (BecomeLearner n (cfg_Term c) (cfg_Leader c)).
  intros L F N HL HF HN. cbv zeta.
  destruct (_ && _).
  - destruct (cfg_Replicas c) as [|x [|y ys]]; try destruct (x =? _); try done;
      destruct (0 <? _); try done; destruct (_ && _); try done;
      destruct (ArrayContainsUint64 _ _); try done; by destruct (ArrayContainsUint64 _ _).
  - destruct (_ || _); [|done]. destruct (_ =? _); [done|].
    by destruct (if bool_decide _ then _ else _).
Qed.

Lemma switchConfig_queue n cfg : n_queue (switchConfig n cfg).1 = n_queue n.
Proof.
  unfold switchConfig. destruct (_ <? _); [done|]. cbn [fst]. by rewrite roleChangeIfNeed_queue.
Qed.

Lemma campaign_queue n : if_returns (campaign n) (fun n' => n_queue n' = n_queue n).
Proof.
  unfold campaign. destruct (_ =? _).
  { intros n' [= <-]. apply BecomeFollower_queue. }
  intros n' (c & Hc & [= <-])%res_bind_Ok. unfold BecomeCandidate in Hc.
  destruct (decide _); [done|]. injection Hc as <-.
  etrans; [apply kept_queue, foldl_kept|].
  - intros m x. unfold sendVoteReq. destruct (_ =? _); apply kept_emit.
  - by rewrite publish_fresh.
Qed.

Lemma poll_queue n e : n_queue (poll n e) = n_queue n.
Proof.
  unfold poll. destruct (_ <? _); [done|]. destruct (_ <=? _).
  - etrans; [apply kept_queue; etrans; [apply kept_sendPing|apply kept_advance]|].
    by rewrite BecomeLeader_queue.
  - by rewrite BecomeFollower_queue.
Qed.

Lemma stepTerm_queue n e : n_queue (stepTerm n e).1 = n_queue n.
Proof.
  unfold stepTerm. destruct (_ =? 0); [done|]. destruct (_ <? _); cbn [fst].
  - destruct (_ && _); [|done]. by destruct (ev_Type e).
  - destruct (_ <? _); [|done]. cbn [fst].
    destruct (bool_decide _); [apply BecomeLearner_queue|apply BecomeFollower_queue].
Qed.

Lemma stepVoteReq_queue n e : n_queue (stepVoteReq n e) = n_queue n.
Proof.
  unfold stepVoteReq. destruct (bool_decide _); [apply BecomeFollower_queue|].
  destruct (canVote _ _); [|done]. by destruct (_ =? _).
Qed.

Lemma appendLogs_applied n logs : keeps_applied_h n (appendLogs n logs).
Proof.
  intros [n' err] ([q err'] & Hq & [= <- <-])%res_bind_Ok. by apply append_applied in Hq.
Qed.

Lemma storeResp_applied n e : keeps_applied n (storeResp n e).
Proof.
  intros n'. unfold storeResp. destruct (bool_decide _); [|by intros [= <-]].
  simpl. destruct (_ <? _); [done|].
  intros (q & Hq & [= <-])%res_bind_Ok. by apply storeTo_applied in Hq.
Qed.

Section Handlers.
Context (n : Node) (e : Event).

Lemma stepLeader_SyncReq_applied : keeps_applied_h n (stepLeader_SyncReq n e).
Proof.
  unfold stepLeader_SyncReq. cbv zeta. set (n1 := updateSyncInfo (KeepAlive n) e).
  assert (H1 : n_queue n1 = n_queue n) by done. clearbody n1.
  apply keeps_bind.
  { destruct (isLearner _ _); [by intros n' [= <-]; rewrite H1|].
    intros n' Hn'. apply updateLeader_applied in Hn'. by rewrite Hn', H1. }
  intros n2 H2. apply keeps_bind.
  { intros n' Hn'. apply roleSwitchIfNeed_queue in Hn'. by rewrite Hn'. }
  intros n3 H3. assert (Hmod : forall f, keeps_applied n (modifySync n3 (ev_From e) f)).
  { intros f n' Hn'. apply modifySync_queue in Hn'. by rewrite Hn'. }
  destruct (_ || _).
  - destruct (opt_AutoSuspend _); [apply keeps_bind; [apply Hmod|intros n4 H4]|];
      eapply keeps_done'; first [apply kept_emit|done].
  - apply keeps_bind; [apply Hmod|intros n4 H4].
    destruct (_ !! _); [|done]. destruct (si_GetingLogs _); [by eapply keeps_done'|].
    apply keeps_bind.
    { intros n' Hn'. apply modifySync_queue in Hn'. by rewrite Hn'. }
    intros n5 H5. eapply keeps_done'; [done|]. etrans; [apply kept_emit|apply kept_advance].
Qed.

Lemma switched_applied :
  keeps_applied_h n (let n := {| n with n_stopPropose := false |} in
    match n_replicaSync n !! ev_From e with
    | None => done_ n
    | Some _ => let! n := modifySync n (ev_From e) (set_roleSwitching false) in done_ n
    end).
Proof.
  cbv zeta. destruct (_ !! _); [|by apply keeps_done].
  apply keeps_bind; [|intros; by eapply keeps_done'].
  intros n' Hn'. apply modifySync_queue in Hn'. by rewrite Hn'.
Qed.

Lemma stepLeader_applied : keeps_applied_h n (stepLeader n e).
Proof.
  unfold stepLeader.
  destruct (ev_Type e); try (by apply keeps_done); try apply switched_applied.
  - destruct (n_stopPropose n); [by intros [n' err] [= <- <-]|].
    eapply if_returns_bind; [apply (appendLogs_applied (KeepAlive n))|].
    intros [n' err] Hn'. destruct err; [by intros [n2 err] [= <- <-]|].
    eapply keeps_done'; [done|apply kept_advance].
  - apply stepLeader_SyncReq_applied.
  - destruct (n_replicaSync n !! ev_To e) eqn:E; cbv zeta;
      apply keeps_done, kept_queue; (etrans; [|apply kept_advance]).
    + split; [done|]. intros Hs. apply map_Forall_insert_2; [|done].
      by apply (sync_ok_lookup _ _ _ Hs E).
    + by split.
  - apply keeps_bind; [apply storeResp_applied|]. intros n1 H1. destruct (bool_decide _).
    + apply keeps_bind.
      { destruct (_ <=? _); [|by intros n' [= <-]].
        intros n' Hn'. apply updateLeader_applied in Hn'. by rewrite Hn'. }
      intros n2 H2. eapply keeps_done'; [done|].
      etrans; [apply kept_sendNotifySync|apply kept_advance].
    + by eapply keeps_done'.
Qed.

(** The branches that followers and learners share. *)
Lemma follow_applied (m : Node) c :
  q_appliedIndex (n_queue m) = q_appliedIndex (n_queue n) ->
  keeps_applied_h n (done_ (updateFollowCommittedIndex m c)).
Proof. intros H [n' err] [= <- <-]. by rewrite updateFollow_applied. Qed.

Lemma batch_applied (m : Node) :
  q_appliedIndex (n_queue m) = q_appliedIndex (n_queue n) ->
  keeps_applied_h n
    (let! (n, err) := appendLogs m (ev_Logs e) in
     match err with
     | Some _ => Ok (n, err)
     | None => done_ (updateFollowCommittedIndex (advance n) (ev_CommittedIndex e))
     end).
Proof.
  intros Hm. eapply if_returns_bind; [apply appendLogs_applied|].
  intros [n' err] Hn'. destruct err; [intros [n2 err] [= <- <-]; congruence|].
  apply follow_applied. rewrite (kept_queue _ _ (kept_advance n')). congruence.
Qed.

Lemma truncated_applied (m : Node) :
  q_appliedIndex (n_queue m) = q_appliedIndex (n_queue n) ->
  keeps_applied n (if ev_Index e <? q_lastLogIndex (n_queue m)
                   then let! q := truncateLogTo (n_queue m) (ev_Index e) in Ok (set_queue m q)
                   else Ok m).
Proof.
  intros Hm. destruct (_ <? _); [|by intros n' [= <-]].
  intros n' (q & Hq & [= <-])%res_bind_Ok. apply truncateLogTo_applied in Hq. simpl. congruence.
Qed.

Lemma sync_done (m : Node) :
  q_appliedIndex (n_queue m) = q_appliedIndex (n_queue n) ->
  keeps_applied_h n (done_ (advance (sendSyncReq m))).
Proof.
  intros H. eapply keeps_done'; [exact H|].
  etrans; [apply kept_sendSyncReq|apply kept_advance].
Qed.

Lemma storeResp_sync_applied :
  keeps_applied_h n (let! n := storeResp n e in
                     if bool_decide (ev_Reason e = ReasonOk)
                     then done_ (advance (sendSyncReq n)) else done_ n).
Proof.
  apply keeps_bind; [apply storeResp_applied|]. intros n1 H1.
  destruct (bool_decide _); [by apply sync_done|by eapply keeps_done'].
Qed.

Lemma stepFollower_applied : keeps_applied_h n (stepFollower n e).
Proof.
  unfold stepFollower. destruct (ev_Type e); try (by apply keeps_done).
  - cbv zeta. destruct (cfg_Leader _ =? None_); intros [n' err] [= <- <-];
      destruct (_ <? _); simpl; by rewrite updateFollow_applied, ?BecomeFollower_queue.
  - by intros [n' err] [= <- <-].
  - by apply sync_done.
  - cbv zeta. destruct (ev_Reason e); try (by apply keeps_done).
    + destruct (ev_Logs e) eqn:E; [destruct (bool_decide _); by apply follow_applied|].
      rewrite <-E. by apply batch_applied.
    + destruct (n_truncating _); [by apply keeps_done|].
      apply keeps_done. by rewrite (kept_queue _ _ (kept_advance _)).
  - destruct (bool_decide _); [|by apply keeps_done].
    apply keeps_bind; [by apply truncated_applied|]. intros n1 H1. by apply sync_done.
  - apply storeResp_sync_applied.
  - apply keeps_done, switchConfig_queue.
Qed.

Lemma stepLearner_applied : keeps_applied_h n (stepLearner n e).
Proof.
  unfold stepLearner. destruct (ev_Type e); try (by apply keeps_done).
  - cbv zeta. destruct (cfg_Leader _ =? None_); intros [n' err] [= <- <-];
      destruct (_ <? _); simpl; by rewrite updateFollow_applied, ?BecomeLearner_queue.
  - by intros [n' err] [= <- <-].
  - by apply sync_done.
  - cbv zeta. destruct (ev_Reason e); try (by apply keeps_done).
    + destruct (ev_Logs e) eqn:E; [destruct (bool_decide _); by apply follow_applied|].
      rewrite <-E. by apply batch_applied.
    + destruct (n_truncating _); [by apply keeps_done|].
      apply keeps_done. by rewrite (kept_queue _ _ (kept_advance _)).
  - destruct (bool_decide _); [|by apply keeps_done].
    apply keeps_bind; [by apply truncated_applied|]. intros n1 H1. by apply sync_done.
  - apply storeResp_sync_applied.
  - apply keeps_done, switchConfig_queue.
Qed.

Lemma stepBody_applied :
  ev_Type e <> ApplyResp -> keeps_applied_h n (stepBody n e).
Proof.
  intros Hne.
  assert (Hfn : keeps_applied_h n match n_stepFunc n with
      | None => done_ n
      | Some FnLeader => stepLeader n e
      | Some FnFollower => stepFollower n e
      | Some FnCandidate => stepCandidate n e
      | Some FnLearner => stepLearner n e
      end).
  { destruct (n_stepFunc n) as [[]|].
    - apply stepFollower_applied.
    - unfold stepCandidate. destruct (ev_Type e); try (by apply keeps_done).
      + by intros [n' err] [= <- <-].
      + apply keeps_done, poll_queue.
    - apply stepLeader_applied.
    - apply stepLearner_applied.
    - by apply keeps_done. }
  unfold stepBody. destruct (ev_Type e); try exact Hfn; try done.
  - apply keeps_bind; [|intros n' Hn'; by eapply keeps_done'].
    intros n' Hn'. apply campaign_queue in Hn'. by rewrite Hn'.
  - apply keeps_done, switchConfig_queue.
  - apply keeps_done, stepVoteReq_queue.
Qed.
End Handlers.

Lemma Step_applied n e n' err :
  Step n e = Ok (n', err) -> ev_Type e <> ApplyResp ->
  q_appliedIndex (n_queue n') = q_appliedIndex (n_queue n).
Proof.
  intros H Hne. unfold Step in H. pose proof (stepTerm_queue n e) as Hq.
  destruct (stepTerm n e) as [n1 go]. simpl in Hq.
  apply res_bind_Ok in H as ([n2 err2] & H & [= <- <-]).
  rewrite (kept_queue _ _ (kept_publish n2)), <-Hq.
  destruct go; [|by injection H as <- <-].
  apply (stepBody_applied n1 e Hne) in H. done.
Qed.

(** An apply response that is not successful does not move it either, and a
    successful one moves it to the maximum. *)
Lemma Step_ApplyResp n e n' err :
  Step n e = Ok (n', err) -> ev_Type e = ApplyResp ->
  q_appliedIndex (n_queue n') = q_appliedIndex (n_queue n) \/
  (err = None /\ ev_Reason e = ReasonOk /\
   q_appliedIndex (n_queue n') = Z.max (q_appliedIndex (n_queue n)) (ev_Index e)).
Proof.
  intros H Ht. unfold Step in H. pose proof (stepTerm_queue n e) as Hq.
  destruct (stepTerm n e) as [n1 go]. simpl in Hq.
  apply res_bind_Ok in H as ([n2 err2] & H & [= <- <-]).
  rewrite (kept_queue _ _ (kept_publish n2)), <-Hq.
  destruct go; [|injection H as <- <-; by left].
  unfold stepBody in H. rewrite Ht in H. destruct (bool_decide _) eqn:Hr;
    injection H as <- <-; [right|by left].
  apply bool_decide_eq_true in Hr. split_and!; auto. apply appliedTo_spec.
Qed.

Lemma Tick_applied n ka n' :
  Tick n ka = Ok n' -> q_appliedIndex (n_queue n') = q_appliedIndex (n_queue n).
Proof.
  unfold Tick. cbv zeta. set (m := if opt_AutoDestory _ then _ else _).
  assert (Hm : n_queue m = n_queue n).
  { unfold m. by destruct ka, (opt_AutoDestory _); try destruct (_ && _). }
  clearbody m. intros (m1 & H & [= <-])%res_bind_Ok.
  rewrite (kept_queue _ _ (kept_publish m1)), <-Hm.
  assert (Hel : forall k k', n_queue k = n_queue m -> tickElection k = Ok k' ->
    n_queue k' = n_queue m).
  { intros k k' Hk. unfold tickElection. cbv zeta. destruct (pastElectionTimeout _).
    - intros Hc%campaign_queue. by rewrite Hc.
    - by intros [= <-]. }
  destruct (n_tickFnc m) as [[]|].
  - unfold tickFollower in H. cbv zeta in H.
    assert (Hs : n_queue (if n_suspend m then m else tickSync m) = n_queue m).
    { destruct (n_suspend m); [done|]. apply kept_queue, kept_tickSync. }
    destruct (opt_ElectionOn _); [|injection H as <-; by rewrite Hs].
    by rewrite (Hel _ _ Hs H).
  - unfold tickCandidate in H. destruct (opt_ElectionOn _); [|by injection H as <-].
    by rewrite (Hel _ _ eq_refl H).
  - injection H as <-. by rewrite (kept_queue _ _ (kept_tickHeartbeat m)).
  - injection H as <-. destruct (n_suspend m); [done|].
    by rewrite (kept_queue _ _ (kept_tickSync m)).
  - by injection H as <-.
Qed.

Lemma Ready_applied n n' evs :
  Ready n = Ok (n', evs) -> q_appliedIndex (n_queue n') = q_appliedIndex (n_queue n).
Proof.
  unfold Ready. intros (m & Hm & [= <- _])%res_bind_Ok.
  rewrite (kept_queue _ _ (kept_publish _)).
  assert (H1 : q_appliedIndex (n_queue m) = q_appliedIndex (n_queue n)).
  { destruct (hasNextStoreLogs _); [|by injection Hm as <-].
    apply res_bind_Ok in Hm as ([q logs] & Hq & Hm).
    assert (Hqa : q_appliedIndex q = q_appliedIndex (n_queue n)).
    { unfold nextStoreLogs in Hq. destruct (_ =? 0); [by injection Hq as <- _|].
      destruct (_ <? _); [done|]. by apply res_bind_Ok in Hq as (l & _ & [= <- _]). }
    destruct logs as [|l ls]; [by injection Hm as <-|]. revert Hm. cbv zeta.
    generalize (firstTermChange (tsi_Term (n_lastTermStartIndex (set_queue n q))) (l :: ls)).
    intros [i|] [= <-]; exact Hqa. }
  rewrite <-H1. simpl. destruct (hasNextApplyLogs _); [|done].
  unfold nextApplyLogs. destruct (q_applying _); [done|].
  destruct (_ <? _); simpl; [done|]. by destruct (_ <? _).
Qed.

(** ** A node reports no application to itself

    No event a node emits is an apply response, so that stepping a node with its
    own events does not move the applied index. *)

Definition quiet (e : Event) : Prop := ev_Type e <> ApplyResp.
Definition calm (n : Node) : Prop := Forall quiet (n_events n).
Definition calm_r (m : res Node) : Prop := if_returns m calm.
Definition calm_h (m : handled) : Prop := if_returns m (fun '(n, _) => calm n).

Lemma calm_emit n e : quiet e -> calm n -> calm (emit n e).
Proof. intros He Hn. apply Forall_app. auto. Qed.

Lemma calm_events n n' : n_events n' = n_events n -> calm n -> calm n'.
Proof. unfold calm. by intros ->. Qed.

Lemma calm_publish n : calm n -> calm (publishReadState n).
Proof. apply calm_events. by rewrite publish_fresh. Qed.

Lemma calm_advance n : calm n -> calm (advance n).
Proof. apply calm_events. unfold advance. by destruct (opt_HasAdvance _). Qed.

Lemma calm_foldl {A} (f : Node -> A -> Node) l n :
  (forall n x, calm n -> calm (f n x)) -> calm n -> calm (foldl f n l).
Proof. intros Hf. revert n. induction l as [|x l IH]; intros n Hn; simpl; auto. Qed.

Lemma calm_Ok n : calm n -> calm_r (Ok n).
Proof. by intros H m [= <-]. Qed.
Lemma calm_Ok_h n err : calm n -> calm_h (Ok (n, err)).
Proof. by intros H [m e] [= <- <-]. Qed.
Lemma calm_bind m f : calm_r m -> (forall n, calm n -> calm_r (f n)) -> calm_r (res_bind m f).
Proof. apply if_returns_bind. Qed.
Lemma calm_bind_h m f : calm_r m -> (forall n, calm n -> calm_h (f n)) -> calm_h (res_bind m f).
Proof. apply if_returns_bind. Qed.
Lemma calm_bind_any {A} (m : res A) f : (forall a, calm_r (f a)) -> calm_r (res_bind m f).
Proof. intros Hf n (a & _ & H)%res_bind_Ok. by apply (Hf a). Qed.
Lemma calm_bind_hh (m : handled) f :
  calm_h m -> (forall n err, calm n -> calm_h (f (n, err))) -> calm_h (res_bind m f).
Proof. intros Hm Hf. eapply if_returns_bind; [exact Hm|]. intros [n err] Hn. by apply Hf. Qed.

(** Follows the branches of an operation: an update of other fields keeps the
    events, an emission adds one of a known type. *)
Ltac calm_step :=
  match goal with
  | H : calm ?n |- calm ?m => exact H
  | |- calm (match ?x with _ => _ end) => destruct x
  | |- calm (emit _ _) => apply calm_emit; [discriminate|]
  | |- calm (publishReadState _) => apply calm_publish
  | |- calm (advance _) => apply calm_advance
  | |- calm (foldl _ _ _) => apply calm_foldl; [intros|]
  | |- calm_h (done_ _) => apply calm_Ok_h
  | |- calm_h (Ok (_, _)) => apply calm_Ok_h
  | |- calm_r (Ok _) => apply calm_Ok
  | |- calm_r Panic => discriminate
  | |- calm_h Panic => discriminate
  | |- calm_r (match ?x with _ => _ end) => destruct x
  | |- calm_h (match ?x with _ => _ end) => destruct x
  | |- _ => progress cbv beta zeta
  | |- _ => solve [auto with calm]
  | |- calm ?m =>
      let ev := eval cbn [n_events] in (n_events m) in
      lazymatch ev with
      | n_events ?k => lazymatch m with k => fail | _ => change (calm k) end
      end
  end.
Ltac calm_hook := fail.
Ltac calm := intros; repeat first [calm_step | calm_hook].

Create HintDb calm.

Lemma calm_KeepAlive n : calm n -> calm (KeepAlive n).
Proof. exact id. Qed.
Lemma calm_unsuspend n i : calm n -> calm (unsuspend n i).
Proof. unfold unsuspend. calm. Qed.
#[local] Hint Resolve calm_KeepAlive calm_advance calm_unsuspend : calm.
Lemma calm_sendNotifySync n t : calm n -> calm (sendNotifySync n t).
Proof. unfold sendNotifySync. calm. Qed.
Lemma calm_sendSyncReq n : calm n -> calm (sendSyncReq n).
Proof. unfold sendSyncReq. calm. Qed.
Lemma calm_sendPing n t : calm n -> calm (sendPing n t).
Proof. unfold sendPing. calm. Qed.
Lemma calm_Become n : calm n -> (forall t, calm (BecomeLeader n t)) /\
  (forall t l, calm (BecomeFollower n t l)) /\ (forall t l, calm (BecomeLearner n t l)) /\
  calm_r (BecomeCandidate n).
Proof. intros H. split_and!; unfold BecomeLeader, BecomeFollower, BecomeLearner, BecomeCandidate; calm. Qed.
Lemma calm_BecomeLeader n t : calm n -> calm (BecomeLeader n t).
Proof. intros H. by destruct (calm_Become n H) as (? & ? & ? & ?). Qed.
Lemma calm_BecomeFollower n t l : calm n -> calm (BecomeFollower n t l).
Proof. intros H. by destruct (calm_Become n H) as (? & ? & ? & ?). Qed.
Lemma calm_BecomeLearner n t l : calm n -> calm (BecomeLearner n t l).
Proof. intros H. by destruct (calm_Become n H) as (? & ? & ? & ?). Qed.
#[local] Hint Resolve calm_sendNotifySync calm_sendSyncReq calm_sendPing calm_BecomeLeader
  calm_BecomeFollower calm_BecomeLearner : calm.
Lemma calm_roleChange n o c : calm n -> calm (roleChangeIfNeed n o c).
Proof. unfold roleChangeIfNeed. calm. Qed.
#[local] Hint Resolve calm_roleChange : calm.
Lemma calm_switchConfig n c : calm n -> calm (switchConfig n c).1.
Proof. unfold switchConfig. intros H. destruct (_ <? _); simpl; [done|]. calm. Qed.
Lemma calm_campaign n : calm n -> calm_r (campaign n).
Proof.
  intros H. unfold campaign. destruct (_ =? _); [calm|].
  apply calm_bind; [by destruct (calm_Become n H) as (? & ? & ? & ?)|]. unfold sendVoteReq. calm.
Qed.
Lemma calm_tickSync n : calm n -> calm (tickSync n).
Proof. unfold tickSync. calm. Qed.
Lemma calm_sendPingIfNeed n i : calm n -> calm (sendPingIfNeed n i).
Proof. unfold sendPingIfNeed. calm. Qed.
Lemma calm_poll n e : calm n -> calm (poll n e).
Proof. unfold poll. calm. Qed.
Lemma calm_updateFollow n c : calm n -> calm (updateFollowCommittedIndex n c).
Proof. unfold updateFollowCommittedIndex. calm. Qed.
Lemma calm_updateLeader n : calm n -> calm_r (updateLeaderCommittedIndex n).
Proof. intros H. unfold updateLeaderCommittedIndex. apply calm_bind_any. calm. Qed.
Lemma calm_modifySync n i f : calm n -> calm_r (modifySync n i f).
Proof. unfold modifySync. calm. Qed.
#[local] Hint Resolve calm_switchConfig calm_campaign calm_tickSync calm_sendPingIfNeed calm_poll
  calm_updateFollow calm_updateLeader calm_modifySync : calm.

Ltac calm_hook ::=
  first [apply calm_updateFollow | apply calm_sendSyncReq | apply calm_KeepAlive].

Lemma calm_roleSwitch n e : calm n -> calm_r (roleSwitchIfNeed n e).
Proof.
  intros H. unfold roleSwitchIfNeed, sendLearnerToLeaderReq, sendLearnerToFollowerReq,
    sendFollowToLeaderReq.
  calm; (apply calm_bind; [by apply calm_modifySync|calm]).
Qed.
Lemma calm_appendLogs n l : calm n -> calm_h (appendLogs n l).
Proof. intros H [n' err] ([q e] & _ & [= <- <-])%res_bind_Ok. exact H. Qed.
Lemma calm_storeResp n e : calm n -> calm_r (storeResp n e).
Proof. intros H. unfold storeResp. calm. apply calm_bind_any. calm. Qed.
#[local] Hint Resolve calm_roleSwitch calm_appendLogs calm_storeResp : calm.

Lemma calm_SyncReq n e : calm n -> calm_h (stepLeader_SyncReq n e).
Proof.
  intros H. unfold stepLeader_SyncReq, updateSyncInfo, sendSyncResp, sendGetLogsReq. cbv zeta.
  apply calm_bind_h; [calm|]. intros n1 H1. apply calm_bind_h; [auto with calm|]. intros n2 H2.
  destruct (_ || _); [destruct (opt_AutoSuspend _); [|calm]|].
  - apply calm_bind_h; [auto with calm|]. calm.
  - apply calm_bind_h; [auto with calm|]. intros n3 H3. calm.
    apply calm_bind_h; [auto with calm|]. calm.
Qed.

(** The handlers share the batch of a sync response, the truncation and the
    responses of the storage. *)
Lemma calm_append_then n l f :
  calm n -> (forall n, calm n -> calm (f n)) ->
  calm_h (let! (n, err) := appendLogs n l in
          match err with Some _ => Ok (n, err) | None => done_ (f n) end).
Proof. intros H Hf. apply calm_bind_hh; [auto with calm|]. intros n' [?|] Hn; calm. Qed.

Lemma calm_stepLeader n e : calm n -> calm_h (stepLeader n e).
Proof.
  intros H. unfold stepLeader. destruct (ev_Type e); try (calm; fail).
  - destruct (n_stopPropose n); [calm|]. cbv zeta. apply calm_append_then; calm.
  - by apply calm_SyncReq.
  - unfold sendSyncResp. calm.
  - apply calm_bind_h; [auto with calm|]. intros n1 H1. destruct (bool_decide _); [|calm].
    apply calm_bind_h; calm.
  - calm. apply calm_bind_h; calm.
  - calm. apply calm_bind_h; calm.
  - calm. apply calm_bind_h; calm.
  - unfold sendConfigResp. calm.
Qed.

Lemma calm_truncated n e (f : Node -> handled) :
  calm n -> (forall n, calm n -> calm_h (f n)) ->
  calm_h (let! n := if ev_Index e <? q_lastLogIndex (n_queue n)
                    then let! q := truncateLogTo (n_queue n) (ev_Index e) in Ok (set_queue n q)
                    else Ok n in f n).
Proof.
  intros H Hf. apply calm_bind_h; [|done]. destruct (_ <? _); [apply calm_bind_any|]; calm.
Qed.

Lemma calm_stored n e :
  calm n ->
  calm_h (let! n := storeResp n e in
          if bool_decide (ev_Reason e = ReasonOk)
          then done_ (advance (sendSyncReq n)) else done_ n).
Proof. intros H. apply calm_bind_h; [auto with calm|]. calm. Qed.

(** A ping: the election timer, the leader and the committed index. *)
Lemma calm_pinged n (b : bool) (f : Node -> Node) c v :
  calm n -> (forall n, calm n -> calm (f n)) ->
  calm_h (let n := if b then f n else n in
          let n := updateFollowCommittedIndex n c in
          let n := KeepAlive n in
          done_ (if cfg_Version (n_cfg n) <? v then sendConfigReq n else n)).
Proof.
  intros H Hf. cbv zeta. set (m := KeepAlive _).
  assert (Hm : calm m); [|unfold sendConfigReq; clearbody m; calm].
  apply calm_KeepAlive, calm_updateFollow. destruct b; auto.
Qed.

Lemma calm_stepFollower n e : calm n -> calm_h (stepFollower n e).
Proof.
  intros H. unfold stepFollower. destruct (ev_Type e); try (calm; fail).
  - apply (calm_pinged _ _ (fun n => _)); auto with calm.
  - cbv zeta. destruct (ev_Reason e); try (calm; fail).
    + destruct (ev_Logs e); [calm|]. apply (calm_append_then _ _ (fun n => _)); calm.
    + unfold sendTruncateReq. calm.
  - cbv zeta. destruct (bool_decide _); [|calm]. apply calm_truncated; calm.
  - by apply calm_stored.
Qed.

Lemma calm_stepLearner n e : calm n -> calm_h (stepLearner n e).
Proof.
  intros H. unfold stepLearner. destruct (ev_Type e); try (calm; fail).
  - apply (calm_pinged _ _ (fun n => _)); auto with calm.
  - cbv zeta. destruct (ev_Reason e); try (calm; fail).
    + destruct (ev_Logs e); [calm|]. apply (calm_append_then _ _ (fun n => _)); calm.
    + unfold sendTruncateReq. calm.
  - cbv zeta. destruct (bool_decide _); [|calm]. apply calm_truncated; calm.
  - by apply calm_stored.
Qed.

Lemma Step_calm n e n' err : Step n e = Ok (n', err) -> calm n -> calm n'.
Proof.
  intros HS H. unfold Step in HS.
  assert (HT : calm (stepTerm n e).1).
  { unfold stepTerm, sendTermResp. repeat (destruct (_ =? _) || destruct (_ <? _)); simpl; calm. }
  destruct (stepTerm n e) as [n1 go]. simpl in HT.
  apply res_bind_Ok in HS as ([n2 err2] & HS & [= <- _]). apply calm_publish.
  destruct go; [|by injection HS as <- _].
  assert (HB : calm_h (stepBody n1 e)); [|by apply HB in HS].
  unfold stepBody, stepVoteReq, sendVoteResp.
  destruct (ev_Type e); try (calm; fail);
    first [destruct (n_stepFunc n1) as [[]|]; [by apply calm_stepFollower| | by apply calm_stepLeader|
             by apply calm_stepLearner|calm]; unfold stepCandidate; calm; fail
          |apply calm_bind_h; [auto with calm|]; calm].
Qed.

Lemma calm_tickElection n : calm n -> calm_r (tickElection n).
Proof. unfold tickElection. calm. Qed.
#[local] Hint Resolve calm_tickElection : calm.

Lemma Tick_calm n ka n' : Tick n ka = Ok n' -> calm n -> calm n'.
Proof.
  intros HT H. unfold Tick in HT. cbv zeta in HT.
  apply res_bind_Ok in HT as (n2 & HT & [= <-]). apply calm_publish. revert HT.
  match goal with |- match n_tickFnc ?m with _ => _ end = _ -> _ =>
    assert (Hm : calm m) by (unfold sendDestory; calm); generalize dependent m end.
  intros m Hm. assert (HR : calm_r (match n_tickFnc m with
    | Some FnFollower => tickFollower m | Some FnCandidate => tickCandidate m
    | Some FnLeader => tickLeader m | Some FnLearner => tickLearner m | None => Ok m end));
    [|intros E; by apply HR].
  unfold tickFollower, tickCandidate, tickLeader, tickLearner, tickHeartbeat. calm.
  apply calm_tickElection. calm.
Qed.

(** A ready round hands out the events and keeps none. *)
Lemma Ready_calm n n' evs : Ready n = Ok (n', evs) -> calm n -> calm n' /\ Forall quiet evs.
Proof.
  intros HR H. unfold Ready in HR. apply res_bind_Ok in HR as (m & Hm & [= <- <-]).
  assert (Hc : calm m).
  { destruct (hasNextStoreLogs _); [|by injection Hm as <-].
    apply res_bind_Ok in Hm as ([q logs] & _ & Hm). destruct logs; [by injection Hm as <-|].
    injection Hm as <-. unfold sendStoreReq. calm. }
  split; [apply calm_publish; constructor|].
  destruct (hasNextApplyLogs _); [|exact Hc].
  destruct (nextApplyLogs _) as [q [start end_]]. destruct (0 <? start); [|exact Hc].
  unfold sendApplyReq. apply (calm_emit (set_queue m q)); [discriminate|exact Hc].
Qed.
