(* ===== verification/WkProto.v ===== *)
(** * Bytes on the wire

    The big-endian integers of [encoding/binary], and the interface of the
    encoder and decoder of the package [github.com/WuKongIM/WuKongIMGoProto]
    ([wkproto]), which the codecs of the repository use and whose source is
    not part of it.  The interface is a class of operations with the laws the
    codecs rely on; [bigEndian] is an instance of it. *)

From Stdlib Require Import Strings.Byte.
From S2P Require Import Prelude RaftTypes.

(** ** Big-endian integers *)

Definition byte_of_Z (z : Z) : byte :=
  match Byte.of_N (Z.to_N (u8 z)) with
  | Some b => b
  | None => x00
  end.
Definition Z_of_byte (b : byte) : Z := Z.of_N (Byte.to_N b).

(** The [k] low bytes of [z], the most significant one first. *)
Fixpoint be_bytes (k : nat) (z : Z) : bytes :=
  match k with
  | O => []
  | S k => be_bytes k (Z.shiftr z 8) ++ [byte_of_Z z]
  end.

Definition be_val (bs : bytes) : Z :=
  foldl (fun acc b => Z.lor (Z.shiftl acc 8) (Z_of_byte b)) 0 bs.

Lemma Z_of_byte_range b : is_u8 (Z_of_byte b).
Proof.
  unfold is_u8, Z_of_byte. pose proof (Byte.to_N_bounded b). split; [lia|].
  change two8 with (Z.of_N 256). lia.
Qed.

Lemma byte_of_Z_of_byte z : Z_of_byte (byte_of_Z z) = u8 z.
Proof.
  unfold Z_of_byte, byte_of_Z. pose proof (u8_range z) as [? ?].
  destruct (Byte.of_N (Z.to_N (u8 z))) as [b|] eqn:E.
  - apply Byte.to_of_N in E. rewrite E. lia.
  - apply Byte.of_N_None_iff in E. lia.
Qed.

Lemma be_bytes_length k z : length (be_bytes k z) = k.
Proof.
  revert z. induction k as [|k IH]; intros z; simpl; [done|].
  rewrite length_app, IH. simpl. lia.
Qed.

Lemma be_val_app bs b : be_val (bs ++ [b]) = Z.lor (Z.shiftl (be_val bs) 8) (Z_of_byte b).
Proof. unfold be_val. by rewrite foldl_app. Qed.

Lemma lor_low_byte z : 0 <= z -> Z.lor (Z.shiftl (Z.shiftr z 8) 8) (u8 z) = z.
Proof.
  intros Hz. unfold u8. change two8 with (2 ^ 8). rewrite <-Z.land_ones by lia.
  apply Z.bits_inj'. intros i Hi.
  rewrite Z.lor_spec, Z.land_spec, Z.shiftl_spec by lia.
  destruct (Z.ltb_spec i 8).
  - rewrite Z.testbit_neg_r by lia. simpl.
    rewrite Z.ones_spec_low by lia. by rewrite andb_true_r.
  - rewrite Z.shiftr_spec by lia. rewrite Z.ones_spec_high by lia.
    rewrite andb_false_r, orb_false_r. f_equal. lia.
Qed.

Lemma be_val_bytes k z : 0 <= z < 2 ^ (8 * Z.of_nat k) -> be_val (be_bytes k z) = z.
Proof.
  revert z. induction k as [|k IH]; intros z Hz; simpl be_bytes.
  - simpl in Hz. unfold be_val. simpl. lia.
  - rewrite be_val_app, IH, byte_of_Z_of_byte; [by apply lor_low_byte; lia|].
    rewrite Z.shiftr_div_pow2 by lia. split; [apply Z.div_pos; lia|].
    apply Z.div_lt_upper_bound; [lia|]. rewrite <-Z.pow_add_r by lia.
    replace (8 + 8 * Z.of_nat k) with (8 * Z.of_nat (S k)) by lia. lia.
Qed.

(** ** Decoders

    A decoder consumes a prefix of its input, or fails; the codecs return the
    first error they meet and leave the rest of their result unspecified. *)
Definition Decoder (A : Type) : Type := bytes -> option (A * bytes).

Definition dret {A} (a : A) : Decoder A := fun s => Some (a, s).
Definition dbind {A B} (d : Decoder A) (k : A -> Decoder B) : Decoder B :=
  fun s => match d s with
           | Some (a, s') => k a s'
           | None => None
           end.

Notation "'do!' x '<-' d ';' k" := (dbind d (fun x => k))
  (at level 200, x pattern, d at level 100, k at level 200) : go_scope.

(** A field that is present only when its flag is set. *)
Definition dopt {A} (b : bool) (d : Decoder A) (dflt : A) : Decoder A :=
  if b then d else dret dflt.

(** A loop that decodes [k] elements. *)
Fixpoint drepeat {A} (k : nat) (d : Decoder A) : Decoder (list A) :=
  match k with
  | O => dret []
  | S k => do! x <- d; do! xs <- drepeat k d; dret (x :: xs)
  end.

(** The elements such a loop has appended when it stops, at the first error or
    at its end. *)
Fixpoint dprefix {A} (k : nat) (d : Decoder A) (s : bytes) : list A :=
  match k with
  | O => []
  | S k => match d s with
           | None => []
           | Some (x, s) => x :: dprefix k d s
           end
  end.

(** [d] reads back [bs] as [a]. *)
Definition reads {A} (d : Decoder A) (bs : bytes) (a : A) : Prop :=
  forall rest, d (bs ++ rest) = Some (a, rest).

Lemma reads_bind {A B} (d : Decoder A) (k : A -> Decoder B) bs1 bs2 a b :
  reads d bs1 a -> reads (k a) bs2 b -> reads (dbind d k) (bs1 ++ bs2) b.
Proof. intros H1 H2 rest. unfold dbind. by rewrite <-app_assoc, H1, H2. Qed.

Lemma reads_ret {A} (a : A) : reads (dret a) [] a.
Proof. done. Qed.

Lemma reads_map {A B} (d : Decoder A) (f : A -> B) bs a :
  reads d bs a -> reads (do! x <- d; dret (f x)) bs (f a).
Proof. intros H rest. unfold dbind. by rewrite H. Qed.

Lemma reads_map_eq {A B} (d : Decoder A) (f : A -> B) bs a b :
  reads d bs a -> f a = b -> reads (do! x <- d; dret (f x)) bs b.
Proof. intros H <-. by apply reads_map. Qed.

Lemma reads_opt {A} (b : bool) (d : Decoder A) dflt bs a :
  (b = true -> reads d bs a) -> (b = false -> a = dflt) ->
  reads (dopt b d dflt) (if b then bs else []) a.
Proof. intros H1 H2. destruct b; [by apply H1|]. by rewrite H2. Qed.

Lemma reads_repeat {A B} (d : Decoder B) (enc : A -> bytes) (f : A -> B) xs :
  Forall (fun x => reads d (enc x) (f x)) xs ->
  reads (drepeat (length xs) d) (mjoin (enc <$> xs)) (f <$> xs).
Proof.
  induction 1 as [|x xs Hx _ IH]; simpl; [apply reads_ret|].
  eapply reads_bind; [done|]. rewrite <-(app_nil_r (mjoin _)).
  eapply reads_bind; [done|]. apply reads_ret.
Qed.

(** ** The interface of wkproto *)

Class WkProto := {
  WriteUint8 : Z -> bytes;
  WriteUint16 : Z -> bytes;
  WriteUint32 : Z -> bytes;
  WriteUint64 : Z -> bytes;
  WriteInt64 : Z -> bytes;
  WriteBytes : bytes -> bytes;
  WriteBinary : bytes -> bytes;
  WriteString : string -> bytes;
  Uint8 : Decoder Z;
  Uint16 : Decoder Z;
  Uint32 : Decoder Z;
  Uint64 : Decoder Z;
  Int64 : Decoder Z;
  Bytes : Z -> Decoder bytes;
  BinaryAll : Decoder bytes;
  Binary : Decoder bytes;
  String_ : Decoder string
}.

(** What the codecs rely on: a value that fits its width is read back, and
    the widths are those of the names. *)
Class WkProtoLaws (W : WkProto) := {
  Uint8_reads v : is_u8 v -> reads Uint8 (WriteUint8 v) v;
  Uint16_reads v : is_u16 v -> reads Uint16 (WriteUint16 v) v;
  Uint32_reads v : is_u32 v -> reads Uint32 (WriteUint32 v) v;
  Uint64_reads v : is_u64 v -> reads Uint64 (WriteUint64 v) v;
  Int64_reads v : is_i64 v -> reads Int64 (WriteInt64 v) v;
  Bytes_reads b : len b < two63 -> reads (Bytes (len b)) (WriteBytes b) b;
  BinaryAll_reads b : BinaryAll (WriteBytes b) = Some (b, []);
  Binary_reads b : len b < two16 -> reads Binary (WriteBinary b) b;
  String_reads s : Z.of_nat (String.length s) < two16 -> reads String_ (WriteString s) s;
  Uint8_width v : length (WriteUint8 v) = 1%nat;
  Uint16_width v : length (WriteUint16 v) = 2%nat;
  Uint32_width v : length (WriteUint32 v) = 4%nat;
  Uint64_width v : length (WriteUint64 v) = 8%nat;
  Bytes_width b : length (WriteBytes b) = length b
}.

Create HintDb wire.
#[export] Hint Resolve Uint8_reads Uint16_reads Uint32_reads Uint64_reads Int64_reads
  Bytes_reads Binary_reads String_reads : wire.

(** *** An instance: big-endian integers, strings and binaries prefixed by
    their 16-bit length *)

Definition be_dec (k : nat) : Decoder Z := fun s =>
  if (length s <? k)%nat then None else Some (be_val (take k s), drop k s).

Definition be_bytes_dec (k : Z) : Decoder bytes := fun s =>
  if (len s <? k) || (k <? 0) then None else Some (take (Z.to_nat k) s, drop (Z.to_nat k) s).

Lemma be_dec_reads k v : 0 <= v < 2 ^ (8 * Z.of_nat k) -> reads (be_dec k) (be_bytes k v) v.
Proof.
  intros Hv rest. unfold be_dec. pose proof (be_bytes_length k v) as Hl.
  destruct (Nat.ltb_spec (length (be_bytes k v ++ rest)) k) as [H|_].
  { rewrite length_app in H. lia. }
  rewrite take_app_length', drop_app_length' by done. by rewrite be_val_bytes.
Qed.

Lemma be_bytes_dec_reads b : reads (be_bytes_dec (len b)) b b.
Proof.
  intros rest. unfold be_bytes_dec. rewrite length_app.
  destruct (Z.ltb_spec (Z.of_nat (length b + length rest)) (len b)); [lia|].
  destruct (Z.ltb_spec (len b) 0); [lia|]. simpl.
  rewrite Nat2Z.id, take_app_length, drop_app_length. done.
Qed.

#[export] Instance bigEndian : WkProto := {|
  WriteUint8 := be_bytes 1;
  WriteUint16 := be_bytes 2;
  WriteUint32 := be_bytes 4;
  WriteUint64 := be_bytes 8;
  WriteInt64 v := be_bytes 8 (u64 v);
  WriteBytes b := b;
  WriteBinary b := be_bytes 2 (len b) ++ b;
  WriteString s := be_bytes 2 (Z.of_nat (String.length s)) ++ String.list_byte_of_string s;
  Uint8 := be_dec 1;
  Uint16 := be_dec 2;
  Uint32 := be_dec 4;
  Uint64 := be_dec 8;
  Int64 := do! v <- be_dec 8; dret (i64 v);
  Bytes := be_bytes_dec;
  BinaryAll s := Some (s, []);
  Binary := do! k <- be_dec 2; be_bytes_dec k;
  String_ := do! k <- be_dec 2; do! b <- be_bytes_dec k; dret (String.string_of_list_byte b)
|}.

Lemma list_byte_of_string_length s :
  length (String.list_byte_of_string s) = String.length s.
Proof. induction s as [|a s IH]; simpl; [done|]. f_equal. done. Qed.

#[export] Instance bigEndian_laws : WkProtoLaws bigEndian.
Proof.
  split.
  - intros v Hv. apply (be_dec_reads 1). exact Hv.
  - intros v Hv. apply (be_dec_reads 2). exact Hv.
  - intros v Hv. apply (be_dec_reads 4). exact Hv.
  - intros v Hv. apply (be_dec_reads 8). exact Hv.
  - intros v Hv. assert (i64 (u64 v) = v) as Hi.
    { unfold i64, u64, is_i64 in *. rewrite Z.add_mod_idemp_l by lia.
      rewrite Z.mod_small by lia. lia. }
    rewrite <-Hi at 2. apply (reads_map (be_dec 8) i64). apply (be_dec_reads 8), u64_range.
  - intros b _. apply be_bytes_dec_reads.
  - done.
  - intros b Hb. eapply reads_bind; [apply (be_dec_reads 2); lia|apply be_bytes_dec_reads].
  - intros s Hs. eapply reads_bind; [apply (be_dec_reads 2); lia|].
    rewrite <-(String.string_of_list_byte_of_string s) at 3.
    rewrite <-list_byte_of_string_length.
    apply (reads_map _ String.string_of_list_byte). apply be_bytes_dec_reads.
  - intros. apply (be_bytes_length 1).
  - intros. apply (be_bytes_length 2).
  - intros. apply (be_bytes_length 4).
  - intros. apply (be_bytes_length 8).
  - done.
Qed.
