(* ===== verification/RaftCodec.v ===== *)
(** * The codecs of the Raft packages

    Encoding and decoding of logs, events, proposals and tracing records
    ([pkg/raft/types/types.go], [pkg/raft/track/track.go]).  The codecs that
    use [wkproto] are parametrised by its interface [WkProto]; their round
    trips are proved from its laws. *)

From Stdlib Require Import Strings.Byte.
From S2P Require Import Prelude RaftTypes WkProto.

(** ** Enumerations as integers *)

(** [pkg/raft/types/types.go] [lines 46-111]

    The value of each named constant; [iota] counts from 0. *)
Definition EventType_num (t : EventType) : Z :=
  match t with
  | Unknown => 0 | Campaign => 1 | Ping => 2 | ConfChange => 3 | Propose => 4
  | SendPropose => 5 | SendProposeResp => 6 | NotifySync => 7 | SyncReq => 8
  | GetLogsReq => 9 | GetLogsResp => 10 | SyncResp => 11 | TruncateReq => 12
  | TruncateResp => 13 | VoteReq => 14 | VoteResp => 15 | StoreReq => 16
  | StoreResp => 17 | ApplyReq => 18 | ApplyResp => 19 | LearnerToLeaderReq => 20
  | LearnerToLeaderResp => 21 | LearnerToFollowerReq => 22
  | LearnerToFollowerResp => 23 | FollowerToLeaderReq => 24
  | FollowerToLeaderResp => 25 | ConfigReq => 26 | ConfigResp => 27 | Destory => 28
  | TermResp => 29 | OtherEvent z => z
  end.

Definition EventType_list : list EventType :=
  [Unknown; Campaign; Ping; ConfChange; Propose; SendPropose; SendProposeResp; NotifySync;
   SyncReq; GetLogsReq; GetLogsResp; SyncResp; TruncateReq; TruncateResp; VoteReq; VoteResp;
   StoreReq; StoreResp; ApplyReq; ApplyResp; LearnerToLeaderReq; LearnerToLeaderResp;
   LearnerToFollowerReq; LearnerToFollowerResp; FollowerToLeaderReq; FollowerToLeaderResp;
   ConfigReq; ConfigResp; Destory; TermResp].

Definition Reason_list : list Reason :=
  [ReasonUnknown; ReasonOk; ReasonError; ReasonTruncate; ReasonOnlySync].
(** [pkg/raft/types/types.go] [lines 13-25] *)
Definition Reason_num (r : Reason) : Z :=
  match r with
  | ReasonUnknown => 0 | ReasonOk => 1 | ReasonError => 2 | ReasonTruncate => 3
  | ReasonOnlySync => 4 | ReasonOther z => z
  end.

Definition Speed_list : list Speed := [SpeedFast; SpeedSuspend].
(** [pkg/raft/types/types.go] [lines 180-187] *)
Definition Speed_num (s : Speed) : Z :=
  match s with SpeedFast => 0 | SpeedSuspend => 1 | SpeedOther z => z end.

Definition Role_list : list Role :=
  [RoleUnknown; RoleFollower; RoleCandidate; RoleLeader; RoleLearner].
(** [pkg/raft/types/types.go] [lines 710-722] *)
Definition Role_num (r : Role) : Z :=
  match r with
  | RoleUnknown => 0 | RoleFollower => 1 | RoleCandidate => 2 | RoleLeader => 3
  | RoleLearner => 4 | RoleOther z => z
  end.

(** The conversion of an integer: the named constant at its place, or the
    integer itself. *)
Definition enum_of {A} (l : list A) (other : Z -> A) (z : Z) : A :=
  if 0 <=? z then default (other z) (l !! Z.to_nat z) else other z.

Definition EventType_of := enum_of EventType_list OtherEvent.
Definition Reason_of := enum_of Reason_list ReasonOther.
Definition Speed_of := enum_of Speed_list SpeedOther.
Definition Role_of := enum_of Role_list RoleOther.

(** [pkg/raft/types/types.go] [(e EventType) String] *)
Definition EventType_String (e : EventType) : string :=
  match e with
  | Unknown => "Unknown"
  | Campaign => "Campaign"
  | Ping => "Ping"
  | ConfChange => "ConfChange"
  | Propose => "Propose"
  | SendPropose => "SendPropose"
  | SendProposeResp => "SendProposeResp"
  | NotifySync => "NotifySync"
  | SyncReq => "SyncReq"
  | GetLogsReq => "GetLogsReq"
  | GetLogsResp => "GetLogsResp"
  | SyncResp => "SyncResp"
  | VoteReq => "VoteReq"
  | VoteResp => "VoteResp"
  | StoreReq => "StoreReq"
  | StoreResp => "StoreResp"
  | ApplyReq => "ApplyReq"
  | ApplyResp => "ApplyResp"
  | TruncateReq => "TruncateReq"
  | TruncateResp => "TruncateResp"
  | LearnerToLeaderReq => "LearnerToLeaderReq"
  | LearnerToLeaderResp => "LearnerToLeaderResp"
  | LearnerToFollowerReq => "LearnerToFollowerReq"
  | LearnerToFollowerResp => "LearnerToFollowerReq"
  | FollowerToLeaderReq => "FollowerToLeaderReq"
  | FollowerToLeaderResp => "FollowerToLeaderResp"
  | ConfigReq => "ConfigReq"
  | ConfigResp => "ConfigResp"
  | Destory => "Destory"
  | TermResp => "TermResp"
  | OtherEvent _ => "Unknown"
  end%string.

(** [pkg/raft/types/types.go] [(r Role) String] *)
Definition Role_String (r : Role) : string :=
  match r with
  | RoleFollower => "Follower"
  | RoleCandidate => "Candidate"
  | RoleLeader => "Leader"
  | RoleLearner => "Learner"
  | _ => "Unknown"
  end%string.

(** ** Logs: [encoding/binary] *)

(** [pkg/raft/types/types.go] [(l *Log) LogSize] *)
Definition LogSize (l : Log) : Z := i64 (8 + 8 + 4 + len (log_Data l)).

(** [pkg/raft/types/types.go] [(l *Log) Marshal]

    The three integers fill the first twenty bytes of the buffer, the data the
    rest. *)
Definition Log_Marshal (l : Log) : bytes :=
  be_bytes 8 (log_Id l) ++ be_bytes 8 (log_Index l) ++ be_bytes 4 (log_Term l) ++ log_Data l.

(** [pkg/raft/types/types.go] [(l *Log) Unmarshal]

    Into a zero [Log]; [None] is the error. *)
Definition Log_Unmarshal (data : bytes) : option Log :=
  if len data <? 20 then None
  else Some {| EmptyLog with
         log_Id := be_val (take 8 data);
         log_Index := be_val (take 8 (drop 8 data));
         log_Term := be_val (take 4 (drop 16 data));
         log_Data := drop 20 data |}.

(** ** Tracing records *)

(** [pkg/raft/track/track.go] [(m *Record) HasData] *)
Definition Record_HasData (m : Record_) : bool := 0 <? rec_Path m.

(** [pkg/raft/track/track.go] [(m *Record) Size] *)
Definition Record_Size (m : Record_) : Z := 42.

(** [pkg/raft/track/track.go] [(m *Record) Clone] *)
Definition Record_Clone (m : Record_) : Record_ :=
  mkRecord (rec_Path m) (rec_Cost m) (rec_PreStart m).

(** [pkg/raft/track/track.go] [(m *Record) Encode]

    [UnixNano] of a time outside the range of a 64-bit count wraps. *)
Definition Record_Encode (m : Record_) : bytes :=
  be_bytes 2 (rec_Path m) ++ mjoin (be_bytes 2 <$> rec_Cost m) ++
  be_bytes 8 (u64 (rec_PreStart m)).

(** [pkg/raft/track/track.go] [(m *Record) Decode] *)
Definition Record_Decode (data : bytes) : option Record_ :=
  if len data <? 42 then None
  else
    '(m, _) ← (do! p <- be_dec 2;
               do! cost <- drepeat 16 (be_dec 2);
               do! t <- be_dec 8;
               dret (mkRecord p cost (i64 t))) data;
    Some m.

(** ** Events *)

(** [pkg/raft/types/types.go] [lines 224-238]

    [1 << iota]. *)
Definition typeFlag : Z := Z.shiftl 1 0.
Definition fromFlag : Z := Z.shiftl 1 1.
Definition toFlag : Z := Z.shiftl 1 2.
Definition termFlag : Z := Z.shiftl 1 3.
Definition indexFlag : Z := Z.shiftl 1 4.
Definition committedIndexFlag : Z := Z.shiftl 1 5.
Definition storedIndexFlag : Z := Z.shiftl 1 6.
Definition lastLogTermFlag : Z := Z.shiftl 1 7.
Definition configVersionFlag : Z := Z.shiftl 1 8.
Definition configFlag : Z := Z.shiftl 1 9.
Definition logsFlag : Z := Z.shiftl 1 10.
Definition reasonFlag : Z := Z.shiftl 1 11.
Definition speedFlag : Z := Z.shiftl 1 12.

(** [if c { flag |= bit }] and [flag & bit != 0]. *)
Definition setFlag (c : bool) (bit flag : Z) : Z := if c then Z.lor flag bit else flag.
Definition hasFlag (flag bit : Z) : bool := negb (Z.land flag bit =? 0).

(** [pkg/raft/types/types.go] [(e Event) getFlag] *)
Definition getFlag (e : Event) : Z :=
  let flag := 0 in
  let flag := setFlag (negb (bool_decide (ev_Type e = Unknown))) typeFlag flag in
  let flag := setFlag (negb (ev_From e =? 0)) fromFlag flag in
  let flag := setFlag (negb (ev_To e =? 0)) toFlag flag in
  let flag := setFlag (negb (ev_Term e =? 0)) termFlag flag in
  let flag := setFlag (negb (ev_Index e =? 0)) indexFlag flag in
  let flag := setFlag (negb (ev_CommittedIndex e =? 0)) committedIndexFlag flag in
  let flag := setFlag (negb (ev_StoredIndex e =? 0)) storedIndexFlag flag in
  let flag := setFlag (negb (ev_LastLogTerm e =? 0)) lastLogTermFlag flag in
  let flag := setFlag (negb (ev_ConfigVersion e =? 0)) configVersionFlag flag in
  let flag := setFlag (negb (Config_IsEmpty (ev_Config e))) configFlag flag in
  let flag := setFlag (0 <? len (ev_Logs e)) logsFlag flag in
  let flag := setFlag (negb (bool_decide (ev_Reason e = ReasonUnknown))) reasonFlag flag in
  let flag := setFlag (negb (bool_decide (ev_Speed e = SpeedFast))) speedFlag flag in
  flag.

(** [pkg/raft/types/types.go] [(c Config) Size] *)
Definition Config_Size (c : Config) : Z :=
  u64 (8 + 8 + 4 + 4 + 8 + 8 + (4 + len (cfg_Replicas c) * 8) + (4 + len (cfg_Learners c) * 8)).

(** [if c { size += k }], and the same for the list of logs. *)
Definition addIf (c : bool) (k size : Z) : Z := if c then size +64 k else size.
(** [pkg/raft/types/types.go] [lines 549-554] *)
Definition addLogs (logs : list Log) (size : Z) : Z :=
  if 0 <? len logs
  then foldl (fun size v => size +64 (4 +64 u64 (LogSize v))) (size +64 4) logs
  else size.

(** [pkg/raft/types/types.go] [(e Event) Size] *)
Definition Event_Size (e : Event) : Z :=
  let size := 4 in
  let size := addIf (negb (bool_decide (ev_Type e = Unknown))) 2 size in
  let size := addIf (negb (ev_From e =? 0)) 8 size in
  let size := addIf (negb (ev_To e =? 0)) 8 size in
  let size := addIf (negb (ev_Term e =? 0)) 4 size in
  let size := addIf (negb (ev_Index e =? 0)) 8 size in
  let size := addIf (negb (ev_CommittedIndex e =? 0)) 8 size in
  let size := addIf (negb (ev_StoredIndex e =? 0)) 8 size in
  let size := addIf (negb (ev_LastLogTerm e =? 0)) 4 size in
  let size := addIf (negb (ev_ConfigVersion e =? 0)) 8 size in
  let size := addIf (negb (Config_IsEmpty (ev_Config e))) (Config_Size (ev_Config e)) size in
  let size := addLogs (ev_Logs e) size in
  let size := addIf (negb (bool_decide (ev_Reason e = ReasonUnknown))) 1 size in
  let size := addIf (negb (bool_decide (ev_Speed e = SpeedFast))) 1 size in
  size.

Section Codecs.
Context {W : WkProto}.

Definition wopt (b : bool) (bs : bytes) : bytes := if b then bs else [].

(** [pkg/raft/types/types.go] [lines 277-290]

    The part of [Event.Marshal] for the configuration. *)
Definition Config_enc (c : Config) : bytes :=
  WriteUint64 (cfg_MigrateFrom c) ++ WriteUint64 (cfg_MigrateTo c) ++
  WriteUint32 (u32 (len (cfg_Replicas c))) ++ mjoin (WriteUint64 <$> cfg_Replicas c) ++
  WriteUint32 (u32 (len (cfg_Learners c))) ++ mjoin (WriteUint64 <$> cfg_Learners c) ++
  WriteUint8 (u8 (Role_num (cfg_Role c))) ++ WriteUint32 (cfg_Term c) ++
  WriteUint64 (cfg_Version c) ++ WriteUint64 (cfg_Leader c).

(** [pkg/raft/types/types.go] [lines 295-300]

    One log of the list: its length and its bytes. *)
Definition Log_enc (l : Log) : bytes :=
  WriteUint32 (u32 (len (Log_Marshal l))) ++ WriteBytes (Log_Marshal l).

(** [pkg/raft/types/types.go] [(e Event) Marshal] *)
Definition Event_Marshal (e : Event) : bytes :=
  let flag := getFlag e in
  WriteUint32 flag ++
  wopt (hasFlag flag typeFlag) (WriteUint16 (u16 (EventType_num (ev_Type e)))) ++
  wopt (hasFlag flag fromFlag) (WriteUint64 (ev_From e)) ++
  wopt (hasFlag flag toFlag) (WriteUint64 (ev_To e)) ++
  wopt (hasFlag flag termFlag) (WriteUint32 (ev_Term e)) ++
  wopt (hasFlag flag indexFlag) (WriteUint64 (ev_Index e)) ++
  wopt (hasFlag flag committedIndexFlag) (WriteUint64 (ev_CommittedIndex e)) ++
  wopt (hasFlag flag storedIndexFlag) (WriteUint64 (ev_StoredIndex e)) ++
  wopt (hasFlag flag lastLogTermFlag) (WriteUint32 (ev_LastLogTerm e)) ++
  wopt (hasFlag flag configVersionFlag) (WriteUint64 (ev_ConfigVersion e)) ++
  wopt (hasFlag flag configFlag) (Config_enc (ev_Config e)) ++
  wopt (hasFlag flag logsFlag)
    (WriteUint32 (u32 (len (ev_Logs e))) ++ mjoin (Log_enc <$> ev_Logs e)) ++
  wopt (hasFlag flag reasonFlag) (WriteUint8 (u8 (Reason_num (ev_Reason e)))) ++
  wopt (hasFlag flag speedFlag) (WriteUint8 (u8 (Speed_num (ev_Speed e)))).

(** [pkg/raft/types/types.go] [lines 385-430] *)
Definition Config_dec : Decoder Config :=
  do! migrateFrom <- Uint64;
  do! migrateTo <- Uint64;
  do! replicasLen <- Uint32;
  do! replicas <- drepeat (Z.to_nat replicasLen) Uint64;
  do! learnersLen <- Uint32;
  do! learners <- drepeat (Z.to_nat learnersLen) Uint64;
  do! role <- Uint8;
  do! term <- Uint32;
  do! version <- Uint64;
  do! leader <- Uint64;
  dret (mkConfig migrateFrom migrateTo replicas learners (Role_of role) term version leader).

(** [pkg/raft/types/types.go] [lines 438-451] *)
Definition Log_dec : Decoder Log :=
  do! dataLen <- Uint32;
  do! data <- Bytes dataLen;
  fun s => match Log_Unmarshal data with
           | Some log => Some (log, s)
           | None => None
           end.

(** [pkg/raft/types/types.go] [lines 319-468]

    The fields after the flags. *)
Definition Event_dec (flag : Z) : Decoder Event :=
  do! t <- dopt (hasFlag flag typeFlag) (do! t <- Uint16; dret (EventType_of t)) Unknown;
  do! from <- dopt (hasFlag flag fromFlag) Uint64 0;
  do! to <- dopt (hasFlag flag toFlag) Uint64 0;
  do! term <- dopt (hasFlag flag termFlag) Uint32 0;
  do! index <- dopt (hasFlag flag indexFlag) Uint64 0;
  do! committedIndex <- dopt (hasFlag flag committedIndexFlag) Uint64 0;
  do! storedIndex <- dopt (hasFlag flag storedIndexFlag) Uint64 0;
  do! lastLogTerm <- dopt (hasFlag flag lastLogTermFlag) Uint32 0;
  do! configVersion <- dopt (hasFlag flag configVersionFlag) Uint64 0;
  do! config <- dopt (hasFlag flag configFlag) Config_dec emptyConfig;
  do! logs <- dopt (hasFlag flag logsFlag)
                (do! logsLen <- Uint32; drepeat (Z.to_nat logsLen) Log_dec) [];
  do! reason <- dopt (hasFlag flag reasonFlag) (do! r <- Uint8; dret (Reason_of r)) ReasonUnknown;
  do! speed <- dopt (hasFlag flag speedFlag) (do! s <- Uint8; dret (Speed_of s)) SpeedFast;
  dret (mkEvent t from to term index committedIndex storedIndex lastLogTerm configVersion
          config logs reason speed None 0 0).

(** [pkg/raft/types/types.go] [(e *Event) Unmarshal]

    Into a zero [Event]; [None] is the error. *)
Definition Event_Unmarshal (data : bytes) : option Event :=
  '(e, _) ← (do! flag <- Uint32; Event_dec flag) data;
  Some e.

(** *** Proposals *)

(** [pkg/raft/types/types.go] [ProposeResp] *)
Record ProposeResp := mkProposeResp { presp_Id : Z; presp_Index : Z }.
(** [pkg/raft/types/types.go] [ProposeReq] *)
Record ProposeReq := mkProposeReq { preq_Id : Z; preq_Data : bytes }.

(** [pkg/raft/types/types.go] [(p ProposeRespSet) Marshal] *)
Definition ProposeRespSet_Marshal (p : list ProposeResp) : bytes :=
  WriteUint32 (u32 (len p)) ++
  mjoin ((fun v => WriteUint64 (presp_Id v) ++ WriteUint64 (presp_Index v)) <$> p).

(** [pkg/raft/types/types.go] [(p *ProposeRespSet) Unmarshal] *)
Definition ProposeRespSet_Unmarshal (data : bytes) : option (list ProposeResp) :=
  '(p, _) ← (do! size <- Uint32;
             drepeat (Z.to_nat size)
               (do! id <- Uint64; do! index <- Uint64; dret (mkProposeResp id index))) data;
  Some p.

(** [pkg/raft/types/types.go] [(p *ProposeReq) Marshal] *)
Definition ProposeReq_Marshal (p : ProposeReq) : bytes :=
  WriteUint64 (preq_Id p) ++ WriteBytes (preq_Data p).

(** [pkg/raft/types/types.go] [(p *ProposeReq) Unmarshal] *)
Definition ProposeReq_Unmarshal (data : bytes) : option ProposeReq :=
  '(p, _) ← (do! id <- Uint64; do! d <- BinaryAll; dret (mkProposeReq id d)) data;
  Some p.

(** [pkg/raft/types/types.go] [(p ProposeReqSet) Marshal] *)
Definition ProposeReqSet_Marshal (p : list ProposeReq) : bytes :=
  WriteUint32 (u32 (len p)) ++
  mjoin ((fun v => WriteUint64 (preq_Id v) ++ WriteUint32 (u32 (len (preq_Data v))) ++
                   WriteBytes (preq_Data v)) <$> p).

(** [pkg/raft/types/types.go] [lines 852-869]

    One request of the set. *)
Definition ProposeReq_dec : Decoder ProposeReq :=
  do! id <- Uint64; do! dataLen <- Uint32; do! d <- Bytes dataLen; dret (mkProposeReq id d).

(** [pkg/raft/types/types.go] [(p *ProposeReqSet) Unmarshal] *)
Definition ProposeReqSet_Unmarshal (data : bytes) : option (list ProposeReq) :=
  '(p, _) ← (do! size <- Uint32; drepeat (Z.to_nat size) ProposeReq_dec) data;
  Some p.

(** [pkg/raft/types/types.go] [lines 845-870]

    What the set holds when the decoding stops: the requests before the error. *)
Definition ProposeReqSet_decoded (data : bytes) : list ProposeReq :=
  match Uint32 data with
  | None => []
  | Some (size, s) => dprefix (Z.to_nat size) ProposeReq_dec s
  end.
End Codecs.

(** ** Round trips *)

(** *** Flags *)

Lemma hasFlag_testbit f i : 0 <= i -> hasFlag f (Z.shiftl 1 i) = Z.testbit f i.
Proof.
  intros Hi. unfold hasFlag. rewrite Z.shiftl_1_l.
  destruct (Z.testbit f i) eqn:E.
  - apply negb_true_iff, Z.eqb_neq. intros H.
    assert (H' := f_equal (fun z => Z.testbit z i) H). simpl in H'.
    rewrite Z.land_spec, E, Z.pow2_bits_true, Z.bits_0 in H' by lia. done.
  - apply negb_false_iff, Z.eqb_eq. apply Z.bits_inj'. intros j Hj.
    rewrite Z.land_spec, Z.pow2_bits_eqb, Z.bits_0 by lia.
    destruct (Z.eqb_spec i j); [subst; by rewrite E|apply andb_false_r].
Qed.

Lemma setFlag_testbit c f i j :
  0 <= i -> Z.testbit (setFlag c (Z.shiftl 1 i) f) j = (c && (i =? j)) || Z.testbit f j.
Proof.
  intros Hi. unfold setFlag. rewrite Z.shiftl_1_l. destruct c; [|done].
  rewrite Z.lor_spec, Z.pow2_bits_eqb by lia. by rewrite orb_comm.
Qed.

Lemma setFlag_range c f i :
  0 <= i < 13 -> 0 <= f < 2 ^ 13 -> 0 <= setFlag c (Z.shiftl 1 i) f < 2 ^ 13.
Proof.
  intros Hi Hf. unfold setFlag. rewrite Z.shiftl_1_l. destruct c; [|done].
  assert (Hp : 0 < 2 ^ i < 2 ^ 13).
  { split; [apply Z.pow_pos_nonneg; lia|apply Z.pow_lt_mono_r; lia]. }
  split; [apply Z.lor_nonneg; lia|].
  assert (Hd : Z.lor f (2 ^ i) / 2 ^ 13 = 0).
  { rewrite <-Z.shiftr_div_pow2 by lia. rewrite Z.shiftr_lor, !Z.shiftr_div_pow2 by lia.
    rewrite !Z.div_small by lia. done. }
  apply Z.div_small_iff in Hd; lia.
Qed.

Lemma getFlag_range e : is_u32 (getFlag e).
Proof.
  enough (0 <= getFlag e < 2 ^ 13) by (unfold is_u32; lia).
  unfold getFlag. cbv zeta. repeat (apply setFlag_range; [lia|]). lia.
Qed.

(** A flag is set exactly when the field is there. *)
Lemma getFlag_spec e :
  hasFlag (getFlag e) typeFlag = negb (bool_decide (ev_Type e = Unknown)) /\
  hasFlag (getFlag e) fromFlag = negb (ev_From e =? 0) /\
  hasFlag (getFlag e) toFlag = negb (ev_To e =? 0) /\
  hasFlag (getFlag e) termFlag = negb (ev_Term e =? 0) /\
  hasFlag (getFlag e) indexFlag = negb (ev_Index e =? 0) /\
  hasFlag (getFlag e) committedIndexFlag = negb (ev_CommittedIndex e =? 0) /\
  hasFlag (getFlag e) storedIndexFlag = negb (ev_StoredIndex e =? 0) /\
  hasFlag (getFlag e) lastLogTermFlag = negb (ev_LastLogTerm e =? 0) /\
  hasFlag (getFlag e) configVersionFlag = negb (ev_ConfigVersion e =? 0) /\
  hasFlag (getFlag e) configFlag = negb (Config_IsEmpty (ev_Config e)) /\
  hasFlag (getFlag e) logsFlag = (0 <? len (ev_Logs e)) /\
  hasFlag (getFlag e) reasonFlag = negb (bool_decide (ev_Reason e = ReasonUnknown)) /\
  hasFlag (getFlag e) speedFlag = negb (bool_decide (ev_Speed e = SpeedFast)).
Proof.
  unfold typeFlag, fromFlag, toFlag, termFlag, indexFlag, committedIndexFlag, storedIndexFlag,
    lastLogTermFlag, configVersionFlag, configFlag, logsFlag, reasonFlag, speedFlag.
  rewrite !hasFlag_testbit by lia. unfold getFlag. cbv zeta.
  unfold typeFlag, fromFlag, toFlag, termFlag, indexFlag, committedIndexFlag, storedIndexFlag,
    lastLogTermFlag, configVersionFlag, configFlag, logsFlag, reasonFlag, speedFlag.
  rewrite !setFlag_testbit by lia.
  repeat split; rewrite ?Z.bits_0; simpl; rewrite ?andb_false_r, ?andb_true_r, ?orb_false_r; done.
Qed.

(** *** Enumerations *)

(** A value of the enumeration that the integer type can hold: a named
    constant, or an integer that no constant has. *)
Definition canonical {A} (conv : Z -> A) (num : A -> Z) (a : A) : Prop := conv (num a) = a.

#[export] Instance canonical_dec {A} `{EqDecision A} conv num (a : A) :
  Decision (canonical conv num a).
Proof. unfold canonical. apply _. Defined.

(** *** What fits on the wire *)

Record log_fits (l : Log) : Prop := {
  lf_id : is_u64 (log_Id l);
  lf_index : is_u64 (log_Index l);
  lf_term : is_u32 (log_Term l);
  lf_data : 20 + len (log_Data l) < two32
}.

Record config_fits (c : Config) : Prop := {
  cf_from : is_u64 (cfg_MigrateFrom c);
  cf_to : is_u64 (cfg_MigrateTo c);
  cf_replicas : Forall is_u64 (cfg_Replicas c);
  cf_nreplicas : is_u32 (len (cfg_Replicas c));
  cf_learners : Forall is_u64 (cfg_Learners c);
  cf_nlearners : is_u32 (len (cfg_Learners c));
  cf_role : is_u8 (Role_num (cfg_Role c)) /\ canonical Role_of Role_num (cfg_Role c);
  cf_term : is_u32 (cfg_Term c);
  cf_version : is_u64 (cfg_Version c);
  cf_leader : is_u64 (cfg_Leader c)
}.

Record event_fits (e : Event) : Prop := {
  ef_type : is_u16 (EventType_num (ev_Type e)) /\
            canonical EventType_of EventType_num (ev_Type e);
  ef_from : is_u64 (ev_From e);
  ef_to : is_u64 (ev_To e);
  ef_term : is_u32 (ev_Term e);
  ef_index : is_u64 (ev_Index e);
  ef_committed : is_u64 (ev_CommittedIndex e);
  ef_stored : is_u64 (ev_StoredIndex e);
  ef_lastterm : is_u32 (ev_LastLogTerm e);
  ef_version : is_u64 (ev_ConfigVersion e);
  ef_config : config_fits (ev_Config e);
  ef_logs : Forall log_fits (ev_Logs e);
  ef_nlogs : is_u32 (len (ev_Logs e));
  ef_reason : is_u8 (Reason_num (ev_Reason e)) /\
              canonical Reason_of Reason_num (ev_Reason e);
  ef_speed : is_u8 (Speed_num (ev_Speed e)) /\
             canonical Speed_of Speed_num (ev_Speed e)
}.

#[export] Instance log_fits_dec l : Decision (log_fits l).
Proof.
  refine (decision_iff (Q := is_u64 (log_Id l) /\ is_u64 (log_Index l) /\
    is_u32 (log_Term l) /\ 20 + len (log_Data l) < two32) _ _).
  split; [intros []; auto|intros (? & ? & ? & ?); by split].
Defined.

#[export] Instance config_fits_dec c : Decision (config_fits c).
Proof.
  refine (decision_iff (Q := is_u64 (cfg_MigrateFrom c) /\ is_u64 (cfg_MigrateTo c) /\
    Forall is_u64 (cfg_Replicas c) /\ is_u32 (len (cfg_Replicas c)) /\
    Forall is_u64 (cfg_Learners c) /\ is_u32 (len (cfg_Learners c)) /\
    (is_u8 (Role_num (cfg_Role c)) /\ canonical Role_of Role_num (cfg_Role c)) /\
    is_u32 (cfg_Term c) /\ is_u64 (cfg_Version c) /\ is_u64 (cfg_Leader c)) _ _).
  split; [intros []; split_and!; tauto|intros; destruct_and!; by split].
Defined.

#[export] Instance event_fits_dec e : Decision (event_fits e).
Proof.
  refine (decision_iff (Q :=
    (is_u16 (EventType_num (ev_Type e)) /\ canonical EventType_of EventType_num (ev_Type e)) /\
    is_u64 (ev_From e) /\ is_u64 (ev_To e) /\ is_u32 (ev_Term e) /\ is_u64 (ev_Index e) /\
    is_u64 (ev_CommittedIndex e) /\ is_u64 (ev_StoredIndex e) /\ is_u32 (ev_LastLogTerm e) /\
    is_u64 (ev_ConfigVersion e) /\ config_fits (ev_Config e) /\
    Forall log_fits (ev_Logs e) /\ is_u32 (len (ev_Logs e)) /\
    (is_u8 (Reason_num (ev_Reason e)) /\ canonical Reason_of Reason_num (ev_Reason e)) /\
    (is_u8 (Speed_num (ev_Speed e)) /\ canonical Speed_of Speed_num (ev_Speed e))) _ _).
  split; [intros []; split_and!; tauto|intros; destruct_and!; by split].
Defined.

(** The part of a log and of an event that is encoded; an empty configuration
    is not. *)
Definition wire_log (l : Log) : Log :=
  {| EmptyLog with log_Id := log_Id l; log_Index := log_Index l; log_Term := log_Term l;
                   log_Data := log_Data l |}.

Definition wire_event (e : Event) : Event :=
  {| e with ev_Config := if Config_IsEmpty (ev_Config e) then emptyConfig else ev_Config e;
            ev_Logs := wire_log <$> ev_Logs e;
            ev_TermStartIndexInfo := None; ev_StartIndex := 0; ev_EndIndex := 0 |}.

Lemma Log_Marshal_length l : len (Log_Marshal l) = 20 + len (log_Data l).
Proof. unfold Log_Marshal. rewrite !length_app, !be_bytes_length. lia. Qed.

Lemma Log_roundtrip l : log_fits l -> Log_Unmarshal (Log_Marshal l) = Some (wire_log l).
Proof.
  intros [Hid Hix Ht _]. unfold Log_Unmarshal.
  rewrite Log_Marshal_length. destruct (Z.ltb_spec (20 + len (log_Data l)) 20); [lia|].
  unfold Log_Marshal, wire_log.
  set (a := be_bytes 8 (log_Id l)). set (b := be_bytes 8 (log_Index l)).
  set (c := be_bytes 4 (log_Term l)).
  assert (Ha : length a = 8%nat) by apply be_bytes_length.
  assert (Hb : length b = 8%nat) by apply be_bytes_length.
  assert (Hc : length c = 4%nat) by apply be_bytes_length.
  rewrite (take_app_length' a), (drop_app_length' a) by lia.
  rewrite (take_app_length' b) by lia.
  rewrite (app_assoc a b), (drop_app_length' (a ++ b)) by (rewrite length_app; lia).
  rewrite (take_app_length' c) by lia.
  rewrite (app_assoc (a ++ b) c), (drop_app_length' ((a ++ b) ++ c)) by (rewrite !length_app; lia).
  unfold a, b, c. rewrite !be_val_bytes by assumption. done.
Qed.

Section RoundTrips.
Context {W : WkProto} {L : WkProtoLaws W}.

Lemma reads_nums xs :
  Forall is_u64 xs -> reads (drepeat (length xs) Uint64) (mjoin (WriteUint64 <$> xs)) xs.
Proof.
  intros H. rewrite <-(list_fmap_id xs) at 3. apply reads_repeat.
  eapply Forall_impl; [done|]. intros x Hx. by apply Uint64_reads.
Qed.

Lemma Config_reads c : config_fits c -> reads Config_dec (Config_enc c) c.
Proof.
  intros [Hf Ht Hr Hnr Hl Hnl [Hro Hcan] Hte Hv Hle]. unfold Config_dec, Config_enc.
  rewrite !u32_small, u8_small by assumption.
  do 3 (eapply reads_bind; [eauto with wire|]). rewrite Nat2Z.id.
  do 2 (eapply reads_bind; [eauto using reads_nums with wire|]). rewrite Nat2Z.id.
  do 4 (eapply reads_bind; [eauto using reads_nums with wire|]).
  eapply reads_map_eq; [eauto with wire|]. rewrite Hcan. by destruct c.
Qed.

Lemma Log_reads l : log_fits l -> reads Log_dec (Log_enc l) (wire_log l).
Proof.
  intros Hl. unfold Log_dec, Log_enc. pose proof (Log_Marshal_length l) as Hlen.
  pose proof (lf_data _ Hl).
  rewrite u32_small by (unfold is_u32; lia).
  eapply reads_bind; [apply Uint32_reads; unfold is_u32; lia|].
  rewrite <-(app_nil_r (WriteBytes _)). eapply reads_bind; [apply Bytes_reads; lia|].
  intros rest. by rewrite Log_roundtrip.
Qed.

Lemma Event_dec_reads e :
  event_fits e ->
  reads (do! flag <- Uint32; Event_dec flag) (Event_Marshal e) (wire_event e).
Proof.
  intros [[Hty Hty'] Hfr Hto Hte Hix Hco Hst Hla Hve Hcf Hlo Hnl [Hre Hre'] [Hsp Hsp']].
  unfold Event_Marshal, Event_dec. cbv zeta.
  eapply reads_bind; [apply Uint32_reads, getFlag_range|].
  destruct (getFlag_spec e)
    as (-> & -> & -> & -> & -> & -> & -> & -> & -> & -> & -> & -> & ->).
  rewrite u16_small, u32_small, !u8_small by assumption.
  assert (Hz : forall z, negb (z =? 0) = false -> z = 0).
  { intros z H. by apply negb_false_iff, Z.eqb_eq in H. }
  assert (Hb : forall (P : Prop) `{Decision P}, negb (bool_decide P) = false -> P).
  { intros P ? H. by apply negb_false_iff, bool_decide_eq_true in H. }
  eapply reads_bind; [apply reads_opt; [intros _; apply reads_map; eauto with wire|
                        intros H; rewrite Hty'; by apply (Hb _ _ H)]|].
  do 8 (eapply reads_bind; [apply reads_opt; [eauto with wire|by apply Hz]|]).
  eapply reads_bind.
  { apply (reads_opt _ _ _ _ (if Config_IsEmpty (ev_Config e) then emptyConfig
                               else ev_Config e)).
    - intros H. destruct (Config_IsEmpty _); [done|]. by apply Config_reads.
    - intros H. by destruct (Config_IsEmpty _). }
  eapply reads_bind.
  { apply (reads_opt _ _ _ _ (wire_log <$> ev_Logs e)).
    - intros _. eapply reads_bind; [eauto with wire|]. rewrite Nat2Z.id.
      apply reads_repeat. eapply Forall_impl; [done|]. intros l Hl. by apply Log_reads.
    - intros H%Z.ltb_ge. destruct (ev_Logs e); [done|simpl in H; lia]. }
  eapply reads_bind; [apply reads_opt; [intros _; apply reads_map; eauto with wire|
                        intros H; rewrite Hre'; by apply (Hb _ _ H)]|].
  rewrite <-(app_nil_r (wopt _ _)).
  eapply reads_bind; [apply reads_opt; [intros _; apply reads_map; eauto with wire|
                        intros H; rewrite Hsp'; by apply (Hb _ _ H)]|].
  rewrite Hty', Hre', Hsp'. unfold wire_event. apply reads_ret.
Qed.

Lemma reads_all {A} (d : Decoder A) bs a : reads d bs a -> d bs = Some (a, []).
Proof. intros H. rewrite <-(app_nil_r bs). apply H. Qed.

Lemma ProposeReqSet_reads p :
  Forall (fun v => is_u64 (preq_Id v) /\ len (preq_Data v) < two32) p -> is_u32 (len p) ->
  ProposeReqSet_Unmarshal (ProposeReqSet_Marshal p) = Some p.
Proof.
  intros Hp Hn. unfold ProposeReqSet_Unmarshal, ProposeReqSet_Marshal.
  erewrite (reads_all _ _ p); [done|]. rewrite u32_small by done.
  eapply reads_bind; [eauto with wire|]. rewrite Nat2Z.id.
  rewrite <-(list_fmap_id p) at 3. apply reads_repeat.
  eapply Forall_impl; [done|]. intros v [Hid Hd]. unfold ProposeReq_dec.
  rewrite u32_small by (unfold is_u32; lia).
  eapply reads_bind; [eauto with wire|].
  eapply reads_bind; [apply Uint32_reads; unfold is_u32; lia|].
  eapply reads_map_eq; [apply Bytes_reads; lia|by destruct v].
Qed.

Lemma ProposeRespSet_reads p :
  Forall (fun v => is_u64 (presp_Id v) /\ is_u64 (presp_Index v)) p -> is_u32 (len p) ->
  ProposeRespSet_Unmarshal (ProposeRespSet_Marshal p) = Some p.
Proof.
  intros Hp Hn. unfold ProposeRespSet_Unmarshal, ProposeRespSet_Marshal.
  erewrite (reads_all _ _ p); [done|]. rewrite u32_small by done.
  eapply reads_bind; [eauto with wire|]. rewrite Nat2Z.id.
  rewrite <-(list_fmap_id p) at 3. apply reads_repeat.
  eapply Forall_impl; [done|]. intros v [Hid Hix].
  eapply reads_bind; [eauto with wire|].
  eapply reads_map_eq; [eauto with wire|by destruct v].
Qed.

Lemma ProposeReq_reads p :
  is_u64 (preq_Id p) -> ProposeReq_Unmarshal (ProposeReq_Marshal p) = Some p.
Proof.
  intros H. unfold ProposeReq_Unmarshal, ProposeReq_Marshal, dbind.
  rewrite (Uint64_reads _ H), BinaryAll_reads. simpl. by destruct p.
Qed.
End RoundTrips.

(** ** Sizes *)

Lemma u64_add_l a b : u64 (u64 a + b) = u64 (a + b).
Proof. unfold u64. by rewrite Z.add_mod_idemp_l by lia. Qed.

Lemma u64_add_r a b : u64 (a + u64 b) = u64 (a + b).
Proof. unfold u64. by rewrite Z.add_mod_idemp_r by lia. Qed.

Lemma addIf_spec (c : bool) t k : addIf c k (u64 t) = u64 (t + if c then k else 0).
Proof. destruct c; [apply u64_add_l|simpl; f_equal; lia]. Qed.

Definition logs_size (ls : list Log) : Z :=
  foldr (fun l acc => 24 + len (log_Data l) + acc) 0 ls.

Lemma foldl_log_size ls t :
  Forall log_fits ls ->
  foldl (fun size v => size +64 (4 +64 u64 (LogSize v))) (u64 t) ls = u64 (t + logs_size ls).
Proof.
  intros H. revert t. induction H as [|l ls Hl _ IH]; intros t; simpl; [f_equal; lia|].
  assert (Hs : u64 t +64 (4 +64 u64 (LogSize l)) = u64 (t + (24 + len (log_Data l)))).
  { unfold LogSize. rewrite i64_small by (destruct Hl; unfold is_i64; lia).
    rewrite (u64_add_r 4), u64_add_r, u64_add_l. f_equal. lia. }
  rewrite Hs, IH. f_equal. lia.
Qed.

Lemma addLogs_spec ls t :
  Forall log_fits ls ->
  addLogs ls (u64 t) = u64 (t + if 0 <? len ls then 4 + logs_size ls else 0).
Proof.
  intros H. unfold addLogs. rewrite u64_add_l, (foldl_log_size _ _ H).
  destruct (_ <? _); f_equal; lia.
Qed.

Section Sizes.
Context {W : WkProto} {L : WkProtoLaws W}.

Lemma mjoin_Uint64_length xs : len (mjoin (WriteUint64 <$> xs)) = 8 * len xs.
Proof.
  induction xs as [|x xs IH]; [done|].
  change (mjoin _) with (WriteUint64 x ++ mjoin (WriteUint64 <$> xs)).
  rewrite length_app, Uint64_width. simpl length. lia.
Qed.

Lemma mjoin_logs_length ls : len (mjoin (Log_enc <$> ls)) = logs_size ls.
Proof.
  induction ls as [|l ls IH]; [done|].
  change (mjoin _) with (Log_enc l ++ mjoin (Log_enc <$> ls)). simpl logs_size.
  unfold Log_enc at 1. rewrite !length_app, Uint32_width, Bytes_width.
  pose proof (Log_Marshal_length l). lia.
Qed.

Lemma Config_enc_length c :
  len (Config_enc c) = 45 + 8 * len (cfg_Replicas c) + 8 * len (cfg_Learners c).
Proof.
  unfold Config_enc.
  rewrite !length_app, !Uint64_width, !Uint32_width, Uint8_width.
  pose proof (mjoin_Uint64_length (cfg_Replicas c)).
  pose proof (mjoin_Uint64_length (cfg_Learners c)). lia.
Qed.

Lemma wopt_length b bs k : len bs = k -> len (wopt b bs) = if b then k else 0.
Proof. by destruct b; intros <-. Qed.

Lemma Event_Marshal_length e :
  len (Event_Marshal e) =
  4 + (if negb (bool_decide (ev_Type e = Unknown)) then 2 else 0) +
  (if negb (ev_From e =? 0) then 8 else 0) + (if negb (ev_To e =? 0) then 8 else 0) +
  (if negb (ev_Term e =? 0) then 4 else 0) + (if negb (ev_Index e =? 0) then 8 else 0) +
  (if negb (ev_CommittedIndex e =? 0) then 8 else 0) +
  (if negb (ev_StoredIndex e =? 0) then 8 else 0) +
  (if negb (ev_LastLogTerm e =? 0) then 4 else 0) +
  (if negb (ev_ConfigVersion e =? 0) then 8 else 0) +
  (if negb (Config_IsEmpty (ev_Config e))
   then 45 + 8 * len (cfg_Replicas (ev_Config e)) + 8 * len (cfg_Learners (ev_Config e))
   else 0) +
  (if 0 <? len (ev_Logs e) then 4 + logs_size (ev_Logs e) else 0) +
  (if negb (bool_decide (ev_Reason e = ReasonUnknown)) then 1 else 0) +
  (if negb (bool_decide (ev_Speed e = SpeedFast)) then 1 else 0).
Proof.
  unfold Event_Marshal. cbv zeta.
  destruct (getFlag_spec e)
    as (-> & -> & -> & -> & -> & -> & -> & -> & -> & -> & -> & -> & ->).
  rewrite !length_app, !Nat2Z.inj_add, Uint32_width.
  rewrite (wopt_length _ _ 2) by (by rewrite Uint16_width).
  rewrite !(wopt_length _ (WriteUint64 _) 8) by (by rewrite Uint64_width).
  rewrite !(wopt_length _ (WriteUint32 _) 4) by (by rewrite Uint32_width).
  rewrite !(wopt_length _ (WriteUint8 _) 1) by (by rewrite Uint8_width).
  rewrite (wopt_length _ _ _ (Config_enc_length _)).
  rewrite (wopt_length _ _ (4 + logs_size (ev_Logs e))).
  2: { rewrite length_app, Uint32_width. pose proof (mjoin_logs_length (ev_Logs e)). lia. }
  lia.
Qed.

Lemma Event_Size_spec e :
  event_fits e -> len (Event_Marshal e) + 3 < two64 ->
  Event_Size e = len (Event_Marshal e) + (if Config_IsEmpty (ev_Config e) then 0 else 3).
Proof.
  intros He Hb. rewrite <-(u64_small (_ + _)).
  2: { unfold is_u64. destruct (Config_IsEmpty _); lia. }
  rewrite Event_Marshal_length. unfold Event_Size. cbv zeta.
  rewrite (addIf_spec _ 4 2 : addIf _ 2 4 = _).
  rewrite !addIf_spec, (addLogs_spec _ _ (ef_logs _ He)), !addIf_spec.
  destruct (Config_IsEmpty (ev_Config e)); simpl negb; cbv iota.
  - f_equal. lia.
  - unfold Config_Size. set (k := 8 + 8 + 4 + 4 + 8 + 8 + _ + _).
    match goal with |- u64 (?a + u64 k + ?b + ?c + ?d) = _ =>
      replace (a + u64 k + b + c + d) with (a + b + c + d + u64 k) by lia end.
    rewrite u64_add_r. f_equal. unfold k. lia.
Qed.
End Sizes.

(** ** Tracing records *)

Lemma Record_roundtrip m :
  is_u16 (rec_Path m) -> length (rec_Cost m) = 16%nat -> Forall is_u16 (rec_Cost m) ->
  is_i64 (rec_PreStart m) -> Record_Decode (Record_Encode m) = Some m.
Proof.
  intros Hp Hl Hc Ht. unfold Record_Decode.
  assert (Hlen : length (Record_Encode m) = 42%nat).
  { unfold Record_Encode. rewrite !length_app, !be_bytes_length.
    enough (length (mjoin (be_bytes 2 <$> rec_Cost m)) = 2 * length (rec_Cost m))%nat by lia.
    clear. induction (rec_Cost m) as [|c cs IH]; [done|].
    change (mjoin _) with (be_bytes 2 c ++ mjoin (be_bytes 2 <$> cs)).
    rewrite length_app, be_bytes_length, IH, length_cons. lia. }
  destruct (Z.ltb_spec (len (Record_Encode m)) 42); [lia|].
  erewrite (reads_all _ _ m); [done|]. unfold Record_Encode.
  eapply reads_bind; [apply (be_dec_reads 2), Hp|].
  apply (reads_bind _ _ _ _ (rec_Cost m)).
  { rewrite <-Hl. rewrite <-(list_fmap_id (rec_Cost m)) at 3. apply reads_repeat.
    eapply Forall_impl; [done|]. intros c Hc'. apply (be_dec_reads 2), Hc'. }
  eapply reads_map_eq; [apply (be_dec_reads 8), u64_range|].
  assert (i64 (u64 (rec_PreStart m)) = rec_PreStart m) as ->; [|by destruct m].
  unfold i64, u64, is_i64 in *. rewrite Z.add_mod_idemp_l by lia. rewrite Z.mod_small; lia.
Qed.

Module CodecProps.

(** A sync response with two logs and a configuration. *)
Definition sampleLog (i : Z) : Log :=
  {| EmptyLog with log_Id := 7 * i; log_Index := i; log_Term := 3;
                   log_Data := [x01; xff; x20] |}.
Definition sampleEvent : Event :=
  {| emptyEvent with ev_Type := SyncResp; ev_From := 2; ev_To := 18446744073709551000;
       ev_Term := 4294967295; ev_Index := 11; ev_Reason := ReasonOk; ev_Speed := SpeedSuspend;
       ev_Logs := [sampleLog 11; sampleLog 12];
       ev_Config := {| emptyConfig with cfg_Replicas := [1; 2; 3]; cfg_Learners := [4];
                                        cfg_Role := RoleLearner; cfg_Leader := 2 |} |}.

Lemma sampleEvent_fits : event_fits sampleEvent.
Proof. decide_goal. Qed.

(** C12.  Events survive the wire: for every encoder that satisfies the laws of
    [wkproto], an event whose fields fit their widths is decoded from its
    encoding, with all encoded fields; only the local fields
    ([TermStartIndexInfo], [StartIndex], [EndIndex], the tracing record and the
    time of a log) are reset, and a configuration that [IsEmpty] becomes the
    empty one. *)
Theorem event_roundtrip (W : WkProto) (L : WkProtoLaws W) (e : Event) :
  event_fits e -> Event_Unmarshal (Event_Marshal e) = Some (wire_event e).
Proof.
  intros He. unfold Event_Unmarshal. by rewrite (reads_all _ _ _ (Event_dec_reads e He)).
Qed.

Lemma event_roundtrip_witness :
  Event_Unmarshal (Event_Marshal sampleEvent) = Some sampleEvent.
Proof.
  rewrite (event_roundtrip bigEndian bigEndian_laws sampleEvent sampleEvent_fits).
  vm_compute. reflexivity.
Defined.

(** Batches of proposals and of their results survive the wire. *)
Theorem proposals_roundtrip (W : WkProto) (L : WkProtoLaws W)
    (reqs : list ProposeReq) (resps : list ProposeResp) :
  Forall (fun v => is_u64 (preq_Id v) /\ len (preq_Data v) < two32) reqs ->
  Forall (fun v => is_u64 (presp_Id v) /\ is_u64 (presp_Index v)) resps ->
  is_u32 (len reqs) -> is_u32 (len resps) ->
  ProposeReqSet_Unmarshal (ProposeReqSet_Marshal reqs) = Some reqs /\
  ProposeRespSet_Unmarshal (ProposeRespSet_Marshal resps) = Some resps.
Proof. intros. split; [by apply ProposeReqSet_reads|by apply ProposeRespSet_reads]. Qed.

Lemma proposals_roundtrip_witness :
  let reqs := [mkProposeReq 1 [x0a; x0b]; mkProposeReq 2 []] in
  let resps := [mkProposeResp 1 10; mkProposeResp 2 11] in
  ProposeReqSet_Unmarshal (ProposeReqSet_Marshal reqs) = Some reqs /\
  ProposeRespSet_Unmarshal (ProposeRespSet_Marshal resps) = Some resps.
Proof.
  intros reqs resps. apply (proposals_roundtrip bigEndian bigEndian_laws);
    [repeat constructor; decide_goal|repeat constructor; decide_goal|decide_goal|decide_goal].
Defined.

(** [Event.Size], which the rate limiter of the event queue counts, is
    the length of the encoding, plus three when a configuration is encoded:
    [Config.Size] counts four bytes for the role, which takes one. *)
Theorem event_size (W : WkProto) (L : WkProtoLaws W) (e : Event) :
  event_fits e -> len (Event_Marshal e) + 3 < two64 ->
  Event_Size e = len (Event_Marshal e) + (if Config_IsEmpty (ev_Config e) then 0 else 3).
Proof. apply Event_Size_spec. Qed.

Lemma event_size_witness :
  len (Event_Marshal sampleEvent) = 171 /\
  Event_Size sampleEvent =
    len (Event_Marshal sampleEvent) + (if Config_IsEmpty (ev_Config sampleEvent) then 0 else 3).
Proof.
  split; [vm_compute; reflexivity|].
  apply (event_size bigEndian bigEndian_laws sampleEvent sampleEvent_fits).
  vm_compute. reflexivity.
Defined.

(** [Config.IsEmpty] does not look at the leader: a configuration that
    only names a leader is dropped by the encoding. *)
Theorem leader_only_config_is_lost :
  let cfg := {| emptyConfig with cfg_Leader := 2 |} in
  let e := {| emptyEvent with ev_Type := ConfigResp; ev_Config := cfg |} in
  Event_Unmarshal (Event_Marshal e) = Some {| e with ev_Config := emptyConfig |} /\
  cfg <> emptyConfig.
Proof. split; [vm_compute; reflexivity|discriminate]. Qed.

(** A tracing record survives its encoding of 42 bytes. *)
Theorem record_roundtrip (m : Record_) :
  is_u16 (rec_Path m) -> length (rec_Cost m) = 16%nat -> Forall is_u16 (rec_Cost m) ->
  is_i64 (rec_PreStart m) ->
  Record_Decode (Record_Encode m) = Some m.
Proof. apply Record_roundtrip. Qed.

Lemma record_roundtrip_witness :
  let m := mkRecord 40960 (replicate 15 0 ++ [12]) (-5) in
  Record_Decode (Record_Encode m) = Some m.
Proof.
  intros m. apply (record_roundtrip m);
    [decide_goal|reflexivity|repeat constructor; decide_goal|].
  unfold is_i64. simpl. lia.
Defined.
End CodecProps.
