(* ===== verification/RaftWait.v ===== *)
(** * Waiting for commits and applications, [pkg/raft/raft/wait.go]

    A proposal that waits until its log is committed or applied registers a
    [progress]; the driver reports the committed and applied indexes, which
    signal the progresses they reach and drop them from the list.  A progress
    is a shared object in the source; here the object is its identifier and the
    signal is the set of identifiers whose channel was filled and closed. *)

From S2P Require Import Prelude RaftTypes.

(** [pkg/raft/raft/wait.go] [progress]

    [p_id] stands for the channel. *)
Record progress := mkProgress {
  p_id : nat;
  p_maxIndex : Z;
  p_waitApplied : bool;
  p_waitCommittied : bool;
  p_done : bool
}.

(** [pkg/raft/raft/wait.go] [wait]

    [w_fired] lists the channels signalled so far, in order; [w_next] is the
    next identifier. *)
Record wait := mkWait {
  w_progresses : list progress;
  w_fired : list nat;
  w_next : nat
}.

(** [pkg/raft/raft/wait.go] [newWait] *)
Definition newWait : wait := mkWait [] [] 0.

(** [pkg/raft/raft/wait.go] [newApplyProgress] *)
Definition newApplyProgress (id : nat) (maxIndex : Z) : progress :=
  mkProgress id maxIndex true false false.

(** [pkg/raft/raft/wait.go] [newCommitProgress] *)
Definition newCommitProgress (id : nat) (maxIndex : Z) : progress :=
  mkProgress id maxIndex false true false.

Definition register (m : wait) (p : progress) : wait * nat :=
  ({| m with w_progresses := w_progresses m ++ [p]; w_next := S (w_next m) |}, p_id p).

(** [pkg/raft/raft/wait.go] [(m *wait) waitApply] *)
Definition waitApply (m : wait) (maxIndex : Z) : wait * nat :=
  register m (newApplyProgress (w_next m) maxIndex).

(** [pkg/raft/raft/wait.go] [(m *wait) waitCommit] *)
Definition waitCommit (m : wait) (maxIndex : Z) : wait * nat :=
  register m (newCommitProgress (w_next m) maxIndex).

(** [pkg/raft/raft/wait.go] [lines 63-83]

    The loop shared by [didCommit] and [didApply]: the progresses that
    [selected] picks and [maxLogIndex] reaches are marked and signalled. *)
Fixpoint signal (selected : progress -> bool) (maxLogIndex : Z) (ps : list progress)
    (fired : list nat) : list progress * list nat :=
  match ps with
  | [] => ([], fired)
  | p :: rest =>
      let '(p, fired) :=
        if p_done p || negb (selected p) then (p, fired)
        else if p_maxIndex p <=? maxLogIndex
             then ({| p with p_done := true |}, fired ++ [p_id p])
             else (p, fired) in
      let '(rest, fired) := signal selected maxLogIndex rest fired in
      (p :: rest, fired)
  end.

(** [pkg/raft/raft/wait.go] [lines 85-93]

    The loop of [clean] deletes in place and advances its index only over a
    progress it keeps; [fuel] bounds the number of rounds. *)
Fixpoint clean_loop (fuel : nat) (i : nat) (ps : list progress) : res (list progress) :=
  match fuel with
  | O => NoFuel
  | S fuel =>
      match ps !! i with
      | None => Ok ps
      | Some p =>
          if p_done p then clean_loop fuel i (take i ps ++ drop (S i) ps)
          else clean_loop fuel (S i) ps
      end
  end.

(** [pkg/raft/raft/wait.go] [(m *wait) clean] *)
Definition clean (ps : list progress) : res (list progress) :=
  clean_loop (S (length ps)) 0 ps.

Definition did (selected : progress -> bool) (m : wait) (maxLogIndex : Z) : res wait :=
  let '(ps, fired) := signal selected maxLogIndex (w_progresses m) (w_fired m) in
  let! ps := clean ps in
  Ok {| m with w_progresses := ps; w_fired := fired |}.

(** [pkg/raft/raft/wait.go] [(m *wait) didCommit] *)
Definition didCommit (m : wait) (maxLogIndex : Z) : res wait :=
  did p_waitCommittied m maxLogIndex.

(** [pkg/raft/raft/wait.go] [(m *wait) didApply] *)
Definition didApply (m : wait) (maxLogIndex : Z) : res wait :=
  did p_waitApplied m maxLogIndex.

(** ** The deletion loop is a filter *)

Lemma clean_loop_spec fuel i ps :
  (length ps - i < fuel)%nat -> Forall (fun p => p_done p = false) (take i ps) ->
  clean_loop fuel i ps = Ok (filter (fun p => p_done p = false) ps).
Proof.
  revert i ps. induction fuel as [|fuel IH]; intros i ps Hf Hpre; [lia|]. simpl.
  destruct (ps !! i) as [p|] eqn:E.
  - pose proof (lookup_lt_Some _ _ _ E). pose proof (take_drop_middle _ _ _ E) as Hsplit.
    destruct (p_done p) eqn:Hd.
    + rewrite IH.
      * rewrite <-Hsplit at 3. rewrite !filter_app, filter_cons_False by (by rewrite Hd). done.
      * rewrite length_app, length_take, length_drop. lia.
      * rewrite take_app_le by (rewrite length_take; lia). by rewrite take_take, Nat.min_id.
    + apply IH; [lia|]. rewrite (take_S_r _ _ _ E). apply Forall_app. auto.
  - apply lookup_ge_None in E. rewrite take_ge in Hpre by lia.
    f_equal. symmetry. by apply filter_all.
Qed.

Lemma clean_spec ps : clean ps = Ok (filter (fun p => p_done p = false) ps).
Proof. unfold clean. apply clean_loop_spec; [lia|constructor]. Qed.

(** ** What a report does *)

Section Report.
Context (selected : progress -> bool).

(** The progresses a report of index [i] reaches. *)
Definition reached (i : Z) (p : progress) : Prop :=
  selected p = true /\ p_maxIndex p <= i.

#[local] Instance reached_dec i p : Decision (reached i p).
Proof. unfold reached. apply _. Defined.

Lemma signal_spec i ps fired :
  Forall (fun p => p_done p = false) ps ->
  signal selected i ps fired =
  ((fun p => if decide (reached i p) then {| p with p_done := true |} else p) <$> ps,
   fired ++ (p_id <$> filter (reached i) ps)).
Proof.
  intros H. revert fired. induction H as [|p ps Hp _ IH]; intros fired.
  - simpl. by rewrite app_nil_r.
  - cbn [signal]. rewrite Hp. cbn [orb fmap list_fmap].
    rewrite filter_cons. destruct (decide (reached i p)) as [[Hs Hm]|Hn].
    + rewrite Hs. cbn [negb]. destruct (Z.leb_spec (p_maxIndex p) i); [|lia].
      rewrite IH. cbn [fmap list_fmap]. by rewrite <-app_assoc.
    + destruct (selected p) eqn:Hs; cbn [negb]; [|by rewrite IH].
      destruct (Z.leb_spec (p_maxIndex p) i); [exfalso; by apply Hn|by rewrite IH].
Qed.

Lemma filter_marked i ps :
  Forall (fun p => p_done p = false) ps ->
  filter (fun p => p_done p = false)
    ((fun p => if decide (reached i p) then {| p with p_done := true |} else p) <$> ps) =
  filter (fun p => ~ reached i p) ps.
Proof.
  induction 1 as [|p ps Hp _ IH]; [done|]. rewrite fmap_cons, !filter_cons, IH.
  destruct (decide (reached i p)); simpl.
  - destruct (decide (~ reached i p)); [done|]. done.
  - rewrite decide_True by done. destruct (decide (~ reached i p)); done.
Qed.

(** The exact effect of a report on a list without finished progresses. *)
Lemma did_spec m i :
  Forall (fun p => p_done p = false) (w_progresses m) ->
  did selected m i =
  Ok {| m with w_progresses := filter (fun p => ~ reached i p) (w_progresses m);
               w_fired := w_fired m ++ (p_id <$> filter (reached i) (w_progresses m)) |}.
Proof.
  intros H. unfold did. rewrite signal_spec by done. rewrite clean_spec. simpl.
  by rewrite filter_marked.
Qed.
End Report.

(** ** The invariant of the list *)

Record wait_wf (m : wait) : Prop := {
  ww_pending : Forall (fun p => p_done p = false) (w_progresses m);
  ww_ids : NoDup (w_fired m ++ (p_id <$> w_progresses m));
  ww_fresh : forall i, i ∈ w_fired m ++ (p_id <$> w_progresses m) -> (i < w_next m)%nat
}.

Lemma newWait_wf : wait_wf newWait.
Proof. split; simpl; [constructor|constructor|]. intros i H. by apply not_elem_of_nil in H. Qed.

Lemma register_wf m p :
  wait_wf m -> p_done p = false -> p_id p = w_next m -> wait_wf (register m p).1.
Proof.
  intros [Hp Hn Hf] Hd Hid. split; simpl.
  - apply Forall_app. auto.
  - rewrite fmap_app, app_assoc. apply NoDup_app. split_and!; [done| |apply NoDup_singleton].
    intros i Hi Hi'. apply list_elem_of_singleton in Hi'. specialize (Hf i Hi). lia.
  - intros i. rewrite fmap_app, app_assoc, elem_of_app. simpl.
    rewrite list_elem_of_singleton. intros [Hi| ->]; [specialize (Hf i Hi)|]; lia.
Qed.

Lemma filter_split_Permutation {A} (P : A -> Prop) `{!forall x, Decision (P x)} (l : list A) :
  l ≡ₚ filter P l ++ filter (fun x => ~ P x) l.
Proof.
  induction l as [|x l IH]; [done|]. rewrite !filter_cons.
  destruct (decide (P x)).
  - rewrite (decide_False (P := ~ P x)) by tauto. simpl. by constructor.
  - rewrite (decide_True (P := ~ P x)) by done. by rewrite <-Permutation_middle, <-IH.
Qed.

Lemma did_wf selected m i :
  wait_wf m -> returns (did selected m i) (fun m' => wait_wf m' /\ w_next m' = w_next m).
Proof.
  intros [Hp Hn Hf]. rewrite (did_spec selected m i Hp). eexists. split; [done|].
  set (P := reached selected i).
  assert (HP : w_fired m ++ (p_id <$> w_progresses m) ≡ₚ
    (w_fired m ++ (p_id <$> filter P (w_progresses m))) ++
    (p_id <$> filter (fun p => ~ P p) (w_progresses m))).
  { rewrite <-app_assoc, <-fmap_app. apply Permutation_app_head, fmap_Permutation.
    apply filter_split_Permutation. }
  split; [|done]. split; simpl.
  - apply Forall_forall. intros p [_ Hin]%list_elem_of_filter.
    by apply (proj1 (Forall_forall _ _) Hp).
  - by rewrite <-HP.
  - intros j Hj. apply Hf. by rewrite HP.
Qed.
