(* ===== verification/RaftDriver.v ===== *)
(** * The driver of a Raft node, [pkg/raft/raft/raft.go] and [raft_propose.go]

    The driver owns the node: its event loop steps the node with the events of
    a bounded channel, with clock ticks and with actions of other goroutines,
    hands the node's local requests to a pool of workers, and sends the rest.
    The workers call the storage and report back through the same channel.

    The storage is an interface of the source ([storage.go]); here it is the
    class [Storage] of operations on an abstract state.  The pool is the list of
    submitted jobs, which run in any order between two steps of the loop;
    whether a submission succeeds is an oracle. *)

From S2P Require Import Prelude RaftTypes RaftQueue RaftNode RaftCommit RaftInv RaftWait.
From S2P Require Import WkProto RaftCodec.

(** ** Storage *)

(** [pkg/raft/raft/storage.go] [Storage]

    A reading operation returns [None] on an error; a writing one returns the
    new state and whether it succeeded. *)
Class Storage (St : Type) := {
  AppendLogs : St -> list Log -> option TermStartIndexInfo -> St * bool;
  GetLogs : St -> Z -> Z -> Z -> option (list Log);
  GetState : St -> option RaftState;
  GetTermStartIndex : St -> Z -> option Z;
  LeaderTermGreaterEqThan : St -> Z -> option Z;
  LeaderLastTerm : St -> option Z;
  TruncateLogTo : St -> Z -> St * bool;
  DeleteLeaderTermStartIndexGreaterThanTerm : St -> Z -> St * bool;
  Apply : St -> list Log -> St * bool;
  SaveConfig : St -> Config -> St * bool
}.

Section Driver.
Context {St : Type} {HS : Storage St}.

(** ** State *)

(** A task of the worker pool; [JGetLogs] carries the term the loop read when
    it submitted the task. *)
Inductive job :=
| JStore (e : Event)
| JGetLogs (e : Event) (leaderLastLogTerm : Z)
| JTruncate (e : Event)
| JApply (e : Event)
| JRoleChange (e : Event).

(** [pkg/raft/raft/raft.go] [Raft]

    [r_stepC] is the channel of step requests, of capacity 1024; a send to the
    full channel by the loop itself blocks it for ever ([r_blocked]).
    [r_posts] are the responses of workers that wait for room in the channel,
    [r_forward] the registered waiters of forwarded proposals and
    [r_triggered] the results delivered to them ([None] is an error).
    [r_gos] are the forwarded batches whose handler goroutine has not run yet,
    [r_sent] is what was given to the transport, [r_submit k] says whether the
    k-th submission to the pool succeeds.  The advance channel is the token
    [n_advanced] of the node. *)
Record Raft := mkRaft {
  r_node : Node;
  r_stepC : list Event;
  r_started : bool;
  r_pause : bool;
  r_wait : wait;
  r_jobs : list job;
  r_posts : list Event;
  r_store : St;
  r_forward : gmap Z unit;
  r_triggered : list (Z * option (list ProposeResp));
  r_gos : list Event;
  r_sent : list Event;
  r_submit : nat -> bool;
  r_submits : nat;
  r_blocked : bool
}.

Definition stepC_cap : nat := 1024.

(** [pkg/raft/raft/raft.go] [New] *)
Definition New (store : St) (opts : Options) (submit : nat -> bool) : res Raft :=
  match GetState store with
  | None => Panic
  | Some raftState =>
      match GetTermStartIndex store (rs_LastTerm raftState) with
      | None => Panic
      | Some lastTermStartLogIndex =>
          let! node := NewNode lastTermStartLogIndex raftState opts in
          Ok {| r_node := {| node with n_opts := {| opts with opt_HasAdvance := true |} |};
                r_stepC := []; r_started := false; r_pause := false; r_wait := newWait;
                r_jobs := []; r_posts := []; r_store := store; r_forward := ∅;
                r_triggered := []; r_gos := []; r_sent := []; r_submit := submit;
                r_submits := 0; r_blocked := false |}
      end
  end.

Definition set_node (r : Raft) (n : Node) : Raft := {| r with r_node := n |}.

(** [pkg/raft/raft/raft.go] [(r *Raft) advance] *)
Definition Raft_advance (r : Raft) : Raft :=
  set_node r {| (r_node r) with n_advanced := true |}.

(** [pkg/raft/raft/raft.go] [(r *Raft) Start] *)
Definition Start (r : Raft) : Raft := {| r with r_started := true |}.

(** [pkg/raft/raft/raft.go] [(r *Raft) Pause] *)
Definition Pause (r : Raft) : Raft := Raft_advance {| r with r_pause := true |}.

(** [pkg/raft/raft/raft.go] [(r *Raft) Resume] *)
Definition Resume (r : Raft) : Raft := Raft_advance {| r with r_pause := false |}.

(** A send to the step channel by a goroutine other than the loop: it waits
    for room, so it happens only when there is some. *)
Definition post (r : Raft) (e : Event) : option Raft :=
  if (length (r_stepC r) <? stepC_cap)%nat
  then Some {| r with r_stepC := r_stepC r ++ [e] |} else None.

(** The same send by the loop, the only receiver of the channel. *)
Definition post_from_loop (r : Raft) (e : Event) : Raft :=
  match post r e with
  | Some r => r
  | None => {| r with r_blocked := true |}
  end.

(** [pkg/raft/raft/raft.go] [(r *Raft) step] *)
Definition step (r : Raft) (e : Event) : res (Raft * option GoError) :=
  let! (n, err) := Step (r_node r) e in
  let r := set_node r n in
  let! w :=
    match err with
    | None =>
        if bool_decide (ev_Type e = ApplyResp) && bool_decide (ev_Reason e = ReasonOk)
        then didApply (r_wait r) (q_appliedIndex (n_queue n)) else Ok (r_wait r)
    | Some _ => Ok (r_wait r)
    end in
  Ok ({| r with r_wait := w |}, err).

(** ** Requests of the node *)

(** [r.pool.Submit(task)], and what the loop does when it fails. *)
Definition submit (r : Raft) (j : job) (onError : Event) : Raft :=
  let ok := r_submit r (r_submits r) in
  let r := {| r with r_submits := S (r_submits r) |} in
  if ok then {| r with r_jobs := r_jobs r ++ [j] |} else post_from_loop r onError.

Definition respError (t : EventType) : Event :=
  {| emptyEvent with ev_Type := t; ev_Reason := ReasonError |}.

(** [pkg/raft/raft/raft.go] [(r *Raft) handleStoreReq] *)
Definition handleStoreReq (r : Raft) (e : Event) : Raft :=
  submit r (JStore e) (respError StoreResp).

(** [pkg/raft/raft/raft.go] [(r *Raft) handleGetLogsReq] *)
Definition handleGetLogsReq (r : Raft) (e : Event) : Raft :=
  submit r (JGetLogs e (tsi_Term (n_lastTermStartIndex (r_node r))))
    {| (respError GetLogsResp) with ev_To := ev_From e; ev_Index := ev_Index e |}.

(** [pkg/raft/raft/raft.go] [(r *Raft) handleTruncateReq] *)
Definition handleTruncateReq (r : Raft) (e : Event) : Raft :=
  submit r (JTruncate e) (respError TruncateResp).

(** [pkg/raft/raft/raft.go] [(r *Raft) handleApplyReq] *)
Definition handleApplyReq (r : Raft) (e : Event) : Raft :=
  submit r (JApply e) (respError ApplyResp).

(** The response type of a role change. *)
Definition roleRespType (t : EventType) : EventType :=
  match t with
  | LearnerToLeaderReq => LearnerToLeaderResp
  | LearnerToFollowerReq => LearnerToFollowerResp
  | FollowerToLeaderReq => FollowerToLeaderResp
  | _ => Unknown
  end.

(** [pkg/raft/raft/raft.go] [(r *Raft) handleRoleChangeReq] *)
Definition handleRoleChangeReq (r : Raft) (e : Event) : Raft :=
  submit r (JRoleChange e)
    {| (respError (roleRespType (ev_Type e))) with ev_From := ev_From e |}.

Definition keepAlive (r : Raft) : Raft := set_node r (KeepAlive (r_node r)).

(** [pkg/raft/raft/raft.go] [lines 277-314]

    The body of the loop of [readyEvents]. *)
Definition handleReadyEvent (r : Raft) (e : Event) : res Raft :=
  match ev_Type e with
  | StoreReq => Ok (handleStoreReq (keepAlive r) e)
  | GetLogsReq => Ok (handleGetLogsReq (keepAlive r) e)
  | TruncateReq => Ok (handleTruncateReq (keepAlive r) e)
  | ApplyReq => Ok (handleApplyReq (keepAlive r) e)
  | LearnerToFollowerReq | LearnerToLeaderReq | FollowerToLeaderReq =>
      Ok (handleRoleChangeReq r e)
  | _ =>
      if ev_To e =? None_ then Ok r
      else if (ev_To e =? LocalNode) || (ev_To e =? n_NodeId (r_node r)) then
        let! (r, _) := step r e in Ok r
      else Ok {| r with r_sent := r_sent r ++ [e] |}
  end.

(** [pkg/raft/raft/raft.go] [lines 276-315] *)
Fixpoint readyLoop (events : list Event) (i : nat) (count : nat) (r : Raft) : res Raft :=
  match count with
  | O => Ok r
  | S count =>
      if r_blocked r then Ok r
      else
        match readSlot events (r_node r) i with
        | None => Panic
        | Some e =>
            let! r := handleReadyEvent r e in
            readyLoop events (S i) count r
        end
  end.

(** [pkg/raft/raft/raft.go] [(r *Raft) readyEvents] *)
Definition readyEvents (r : Raft) : res Raft :=
  let! (n, events) := Ready (r_node r) in
  readyLoop events 0 (length events) (set_node r n).

(** ** The workers *)

(** [pkg/raft/raft/raft.go] [(r *Raft) getTrunctLogIndex] *)
Definition getTrunctLogIndex (r : Raft) (e : Event) (leaderLastLogTerm : Z)
  : res (Z * Reason) :=
  if ev_LastLogTerm e =? 0 then Ok (0, ReasonOk)
  else if ev_LastLogTerm e =? leaderLastLogTerm then
    if 0 <? ev_Index e then
      let replicaLastLogIndex := ev_Index e -64 1 in
      let! last := LastLogIndex (r_node r) in
      if last <? replicaLastLogIndex then Ok (last, ReasonOk) else Ok (0, ReasonOk)
    else Ok (0, ReasonOk)
  else
    let before termStartIndex :=
      if 0 <? termStartIndex then (termStartIndex -64 1, ReasonOk)
      else (termStartIndex, ReasonOk) in
    if ev_LastLogTerm e <? leaderLastLogTerm then
      match LeaderTermGreaterEqThan (r_store r) (u32 (ev_LastLogTerm e + 1)) with
      | None => Ok (0, ReasonError)
      | Some term =>
          match GetTermStartIndex (r_store r) term with
          | None => Ok (0, ReasonError)
          | Some termStartIndex => Ok (before termStartIndex)
          end
      end
    else if ev_LastLogTerm e <=? 1 then Ok (0, ReasonOk)
    else
      match LeaderLastTerm (r_store r) with
      | None => Ok (0, ReasonError)
      | Some term =>
          match GetTermStartIndex (r_store r) term with
          | None => Ok (0, ReasonError)
          | Some termStartIndex => Ok (before termStartIndex)
          end
      end.

(** [pkg/raft/raft/raft.go] [(r *Raft) learnTo] *)
Definition learnTo (r : Raft) (learnerId : Z) : res (option Config) :=
  let! cfg := NodeConfig (r_node r) in
  let cfg := Config_Clone cfg in
  if negb (learnerId =? cfg_MigrateTo cfg) then Ok None
  else
    let cfg := {| cfg with cfg_Learners := RemoveUint64 (cfg_Learners cfg) learnerId |} in
    let cfg := if ArrayContainsUint64 (cfg_Replicas cfg) (cfg_MigrateTo cfg) then cfg
               else {| cfg with cfg_Replicas := cfg_Replicas cfg ++ [cfg_MigrateTo cfg] |} in
    let cfg := if cfg_MigrateFrom cfg =? cfg_MigrateTo cfg then cfg
               else {| cfg with cfg_Replicas :=
                         RemoveUint64 (cfg_Replicas cfg) (cfg_MigrateFrom cfg) |} in
    let! leader := LeaderId (r_node r) in
    let cfg := if cfg_MigrateFrom cfg =? leader
               then {| cfg with cfg_Leader := cfg_MigrateTo cfg |} else cfg in
    Ok (Some {| cfg with cfg_MigrateFrom := 0; cfg_MigrateTo := 0 |}).

(** [pkg/raft/raft/raft.go] [(r *Raft) followerToLeader] *)
Definition followerToLeader (r : Raft) (followerId : Z) : res (option Config) :=
  let! cfg := NodeConfig (r_node r) in
  let cfg := Config_Clone cfg in
  if negb (ArrayContainsUint64 (cfg_Replicas cfg) followerId) then Ok None
  else Ok (Some {| cfg with cfg_Leader := followerId; cfg_Term := u32 (cfg_Term cfg + 1);
                            cfg_MigrateFrom := 0; cfg_MigrateTo := 0 |}).

Definition set_store (r : Raft) (s : St) : Raft := {| r with r_store := s |}.

(** [pkg/raft/raft/raft.go] [lines 320-336]

    The worker of [handleStoreReq]; it returns the response it posts. *)
Definition runStore (r : Raft) (e : Event) : res (Raft * Event) :=
  let '(s, ok) := AppendLogs (r_store r) (ev_Logs e) (ev_TermStartIndexInfo e) in
  match last (ev_Logs e) with
  | None => Panic
  | Some l =>
      Ok (set_store r s,
          {| emptyEvent with ev_Type := StoreResp; ev_Index := log_Index l;
               ev_Logs := ev_Logs e; ev_Reason := if ok then ReasonOk else ReasonError |})
  end.

(** [pkg/raft/raft/raft.go] [lines 352-401]

    The worker of [handleGetLogsReq]. *)
Definition runGetLogs (r : Raft) (e : Event) (leaderLastLogTerm : Z) : res (Raft * Event) :=
  let resp index logs reason :=
    {| emptyEvent with ev_To := ev_From e; ev_Type := GetLogsResp; ev_Index := index;
         ev_Logs := logs; ev_Reason := reason |} in
  let! (trunctIndex, treason) :=
    if bool_decide (ev_Reason e = ReasonOnlySync) then Ok (0, ReasonOk)
    else getTrunctLogIndex r e leaderLastLogTerm in
  if negb (bool_decide (treason = ReasonOk)) then Ok (r, resp (ev_Index e) [] treason)
  else if 0 <? trunctIndex then Ok (r, resp trunctIndex [] ReasonTruncate)
  else
    match GetLogs (r_store r) (ev_Index e) (ev_StoredIndex e +64 1)
            (opt_MaxLogCountPerBatch (n_opts (r_node r))) with
    | None => Ok (r, resp (ev_Index e) [] ReasonError)
    | Some logs => Ok (r, resp (ev_Index e) logs ReasonOk)
    end.

(** [pkg/raft/raft/raft.go] [lines 414-440]

    The worker of [handleTruncateReq]. *)
Definition runTruncate (r : Raft) (e : Event) : res (Raft * Event) :=
  let '(s, ok) := TruncateLogTo (r_store r) (ev_Index e) in
  let r := set_store r s in
  if negb ok then Ok (r, respError TruncateResp)
  else
    let '(s, ok) := DeleteLeaderTermStartIndexGreaterThanTerm s (ev_LastLogTerm e) in
    let r := set_store r s in
    if negb ok then Ok (r, respError TruncateResp)
    else Ok (r, {| emptyEvent with ev_Type := TruncateResp; ev_Index := ev_Index e;
                                   ev_Reason := ReasonOk |}).

(** [pkg/raft/raft/raft.go] [lines 451-488]

    The worker of [handleApplyReq]; a failing [Apply] is a panic. *)
Definition runApply (r : Raft) (e : Event) : res (Raft * Event) :=
  let! w := didCommit (r_wait r) (ev_EndIndex e -64 1) in
  let r := {| r with r_wait := w |} in
  match GetLogs (r_store r) (ev_StartIndex e) (ev_EndIndex e) 0 with
  | None => Ok (r, respError ApplyResp)
  | Some logs =>
      match last logs with
      | None => Ok (r, respError ApplyResp)
      | Some l =>
          let '(s, ok) := Apply (r_store r) logs in
          if negb ok then Panic
          else Ok (set_store r s,
                   {| emptyEvent with ev_Type := ApplyResp; ev_Reason := ReasonOk;
                                      ev_Index := log_Index l |})
      end
  end.

(** [pkg/raft/raft/raft.go] [lines 567-622]

    The worker of [handleRoleChangeReq]. *)
Definition runRoleChange (r : Raft) (e : Event) : res (Raft * Event) :=
  let resp reason cfg :=
    {| emptyEvent with ev_Type := roleRespType (ev_Type e); ev_From := ev_From e;
         ev_Reason := reason; ev_Config := cfg |} in
  let! newCfg :=
    match ev_Type e with
    | LearnerToLeaderReq | LearnerToFollowerReq => learnTo r (ev_From e)
    | FollowerToLeaderReq => followerToLeader r (ev_From e)
    | _ => Ok None
    end in
  match newCfg with
  | None => Ok (r, resp ReasonError emptyConfig)
  | Some newCfg =>
      let '(s, ok) := SaveConfig (r_store r) newCfg in
      let r := set_store r s in
      if negb ok then Ok (r, resp ReasonError emptyConfig)
      else Ok (r, resp ReasonOk newCfg)
  end.

Definition runJob (r : Raft) (j : job) : res (Raft * Event) :=
  match j with
  | JStore e => runStore r e
  | JGetLogs e t => runGetLogs r e t
  | JTruncate e => runTruncate r e
  | JApply e => runApply r e
  | JRoleChange e => runRoleChange r e
  end.

(** ** Proposals *)

(** [pkg/raft/raft/raft_propose.go] [lines 120-134]

    The logs of a batch, with the indexes and the term assigned in the
    loop. *)
Fixpoint assignLogs (term next : Z) (reqs : list ProposeReq) : list Log :=
  match reqs with
  | [] => []
  | req :: rest =>
      {| EmptyLog with log_Id := preq_Id req; log_Index := next; log_Term := term;
                       log_Data := preq_Data req |} :: assignLogs term (next +64 1) rest
  end.

(** [pkg/raft/raft/raft_propose.go] [(r *Raft) proposeBatch]

    The action runs in the loop; [stepBefore] is the callback, [fun r _ => Ok r]
    when it is nil. *)
Definition proposeBatch (r : Raft) (reqs : list ProposeReq)
    (stepBefore : Raft -> list Log -> res Raft)
  : res (Raft * (GoError + list ProposeResp)) :=
  if r_pause r then Ok (r, inl ErrPaused)
  else
    let n := r_node r in
    let logs := assignLogs (cfg_Term (n_cfg n)) (q_lastLogIndex (n_queue n) +64 1) reqs in
    let! r := stepBefore r logs in
    let! (r, err) := step r {| emptyEvent with ev_Type := Propose; ev_Logs := logs |} in
    match err with
    | Some err => Ok (r, inl err)
    | None => Ok (r, inr (map (fun l => mkProposeResp (log_Id l) (log_Index l)) logs))
    end.

(** [pkg/raft/raft/raft_propose.go] [lines 86-96]

    The callback of [ProposeBatchUntilAppliedTimeout]: it registers a waiter
    for the last log unless the log is applied already; an empty batch indexes
    out of range. *)
Definition registerApply (r : Raft) (logs : list Log) : res (Raft * option nat) :=
  match last logs with
  | None => Panic
  | Some l =>
      if log_Index l <=? q_appliedIndex (n_queue (r_node r)) then Ok (r, None)
      else
        let '(w, id) := waitApply (r_wait r) (log_Index l) in
        Ok ({| r with r_wait := w |}, Some id)
  end.

(** What [ProposeBatchUntilAppliedTimeout] leaves the caller with: an error, the
    results, the channel to wait on before returning them, or a forwarded
    batch. *)
Inductive proposed :=
| PError (err : GoError)
| PDone (resps : list ProposeResp)
| PWaiting (resps : list ProposeResp) (ch : nat)
| PForwarded (key : Z).

(** [pkg/raft/raft/raft_propose.go] [(r *Raft) fowardPropose]

    Until the select on the channel; registering a key twice panics. *)
Definition fowardPropose {W : WkProto} (r : Raft) (reqs : list ProposeReq)
  : res (Raft * Z) :=
  let data := ProposeReqSet_Marshal reqs in
  match last reqs with
  | None => Panic
  | Some req =>
      let key := preq_Id req in
      match r_forward r !! key with
      | Some _ => Panic
      | None =>
          let! leader := LeaderId (r_node r) in
          Ok ({| r with r_forward := <[key := tt]> (r_forward r);
                        r_sent := r_sent r ++
                          [{| emptyEvent with ev_From := n_NodeId (r_node r);
                                ev_To := leader; ev_Type := SendPropose;
                                ev_Logs := [{| EmptyLog with log_Data := data |}] |}] |}, key)
      end
  end.

(** [pkg/raft/raft/raft_propose.go] [(r *Raft) ProposeBatchUntilAppliedTimeout] *)
Definition ProposeBatchUntilApplied {W : WkProto} (r : Raft) (reqs : list ProposeReq)
  : res (Raft * proposed) :=
  let! leader := LeaderId (r_node r) in
  if leader =? 0 then Ok (r, PError ErrNotLeader)
  else
    let! isLeader := IsLeader (r_node r) in
    if negb isLeader then
      let! (r, key) := fowardPropose r reqs in Ok (r, PForwarded key)
    else if r_pause r then Ok (r, PError ErrPaused)
    else
      let n := r_node r in
      let logs := assignLogs (cfg_Term (n_cfg n)) (q_lastLogIndex (n_queue n) +64 1) reqs in
      let! (r, ch) := registerApply r logs in
      let! (r, err) := step r {| emptyEvent with ev_Type := Propose; ev_Logs := logs |} in
      let resps := map (fun l => mkProposeResp (log_Id l) (log_Index l)) logs in
      match err, ch with
      | Some err, _ => Ok (r, PError err)
      | None, Some ch => Ok (r, PWaiting resps ch)
      | None, None => Ok (r, PDone resps)
      end.

(** [pkg/raft/raft/raft_propose.go] [lines 71-82]

    A forwarded batch whose results arrived: the follower waits until it has
    applied the last index itself. *)
Definition afterForward (r : Raft) (resps : list ProposeResp) : res (Raft * proposed) :=
  match last resps with
  | None => Panic
  | Some resp =>
      if q_appliedIndex (n_queue (r_node r)) <? presp_Index resp then
        let '(w, id) := waitApply (r_wait r) (presp_Index resp) in
        Ok ({| r with r_wait := w |}, PWaiting resps id)
      else Ok (r, PDone resps)
  end.

(** [pkg/raft/raft/raft_propose.go] [(r *Raft) handleSendProposeResp] *)
Definition handleSendProposeResp {W : WkProto} (r : Raft) (e : Event) : res Raft :=
  match ev_Logs e with
  | [] => Panic
  | l :: _ =>
      match ProposeRespSet_Unmarshal (log_Data l) with
      | None => Ok r
      | Some resps =>
          match last resps with
          | None => Panic
          | Some resp =>
              let key := presp_Id resp in
              let x := if bool_decide (ev_Reason e = ReasonError) then None else Some resps in
              match r_forward r !! key with
              | None => Ok r
              | Some _ => Ok {| r with r_forward := delete key (r_forward r);
                                       r_triggered := r_triggered r ++ [(key, x)] |}
              end
          end
      end
  end.

(** [pkg/raft/raft/raft_propose.go] [(r *Raft) sendProposeRespError] *)
Definition sendProposeRespError {W : WkProto} (r : Raft) (reqs : list ProposeReq) (to : Z)
  : Raft :=
  let resps := map (fun req => mkProposeResp (preq_Id req) 0) reqs in
  {| r with r_sent := r_sent r ++
       [{| emptyEvent with ev_From := n_NodeId (r_node r); ev_To := to;
             ev_Type := SendProposeResp; ev_Reason := ReasonError;
             ev_Logs := [{| EmptyLog with log_Data := ProposeRespSet_Marshal resps |}] |}] |}.

(** [pkg/raft/raft/raft_propose.go] [lines 175-192]

    The end of [handleSendPropose]: the results go back to the sender. *)
Definition sendProposeResp {W : WkProto} (r : Raft) (resps : list ProposeResp) (to : Z)
  : Raft :=
  {| r with r_sent := r_sent r ++
       [{| emptyEvent with ev_From := n_NodeId (r_node r); ev_To := to;
             ev_Type := SendProposeResp; ev_Reason := ReasonOk;
             ev_Logs := [{| EmptyLog with log_Data := ProposeRespSet_Marshal resps |}] |}] |}.

(** [pkg/raft/raft/raft_propose.go] [(r *Raft) handleSendPropose]

    When the batch has to wait for its application, the results, the channel
    and the sender are returned, and [sendProposeResp] follows when the
    channel fires. *)
Definition handleSendPropose {W : WkProto} (r : Raft) (e : Event)
  : res (Raft * option (list ProposeResp * nat * Z)) :=
  match ev_Logs e with
  | [] => Panic
  | l :: _ =>
      match ProposeReqSet_Unmarshal (log_Data l) with
      | None =>
          Ok (sendProposeRespError r (ProposeReqSet_decoded (log_Data l)) (ev_From e), None)
      | Some reqs =>
          let! isLeader := IsLeader (r_node r) in
          if negb isLeader then Ok (sendProposeRespError r reqs (ev_From e), None)
          else
            let! (r, p) := ProposeBatchUntilApplied r reqs in
            match p with
            | PError _ => Ok (sendProposeRespError r reqs (ev_From e), None)
            | PDone resps => Ok (sendProposeResp r resps (ev_From e), None)
            | PWaiting resps ch => Ok (r, Some (resps, ch, ev_From e))
            | PForwarded _ => Ok (r, None)
            end
      end
  end.

(** [pkg/raft/raft/raft.go] [(r *Raft) Step]

    An event from outside; [None] means that the caller waits for room in the
    channel.  [SendPropose] starts a goroutine of its own. *)
Definition Raft_Step {W : WkProto} (r : Raft) (e : Event) : res (option Raft) :=
  if r_pause r then Ok (Some r)
  else
    match ev_Type e with
    | SendPropose => Ok (Some {| r with r_gos := r_gos r ++ [e] |})
    | SendProposeResp => let! r := handleSendProposeResp r e in Ok (Some r)
    | _ => Ok (post r e)
    end.

(** ** The system

    One step of the loop, of a worker, of a goroutine that posts a response,
    or of a caller. *)
Context {W : WkProto}.

Definition take_job (r : Raft) (k : nat) : Raft :=
  {| r with r_jobs := delete k (r_jobs r) |}.

(** [pkg/raft/raft/raft.go] [(r *Raft) loop]

    An iteration that is not paused handles the ready events and then one of
    the inputs; a paused one only takes actions and the advance token.  The
    actions are proposals and changes of role; those of [handleSendPropose] may
    also come before the ready events of their iteration. *)
Inductive dstep : Raft -> Raft -> Prop :=
| ds_tick r r1 n ka :
    r_pause r = false -> r_blocked r = false -> readyEvents r = Ok r1 ->
    r_blocked r1 = false -> Tick (r_node r1) ka = Ok n ->
    dstep r (set_node r1 n)
| ds_advance r r1 :
    r_pause r = false -> r_blocked r = false -> readyEvents r = Ok r1 ->
    r_blocked r1 = false -> n_advanced (r_node r1) = true ->
    dstep r (set_node r1 {| (r_node r1) with n_advanced := false |})
| ds_step r r1 e rest r2 err :
    r_pause r = false -> r_blocked r = false -> readyEvents r = Ok r1 ->
    r_blocked r1 = false -> r_stepC r1 = e :: rest ->
    step {| r1 with r_stepC := rest |} e = Ok (r2, err) ->
    dstep r r2
| ds_propose r r1 reqs r2 p :
    r_pause r = false -> r_blocked r = false -> readyEvents r = Ok r1 ->
    r_blocked r1 = false -> ProposeBatchUntilApplied r1 reqs = Ok (r2, p) ->
    dstep r r2
| ds_forwarded r r1 resps r2 p :
    r_blocked r = false -> (if r_pause r then Ok r else readyEvents r) = Ok r1 ->
    r_blocked r1 = false -> afterForward r1 resps = Ok (r2, p) ->
    dstep r r2
| ds_become r r1 n' :
    r_blocked r = false -> (if r_pause r then Ok r else readyEvents r) = Ok r1 ->
    r_blocked r1 = false ->
    (exists t l, n' = BecomeLeader (r_node r1) t \/ n' = BecomeFollower (r_node r1) t l \/
                 n' = KeepAlive (r_node r1)) ->
    dstep r (set_node r1 n')
| ds_job r k j r1 resp :
    r_jobs r !! k = Some j -> runJob (take_job r k) j = Ok (r1, resp) ->
    dstep r {| r1 with r_posts := r_posts r1 ++ [resp] |}
| ds_post r k e r1 :
    r_posts r !! k = Some e ->
    post {| r with r_posts := delete k (r_posts r) |} e = Some r1 -> dstep r r1
| ds_event r e r1 : Raft_Step r e = Ok (Some r1) -> dstep r r1
| ds_go r k e r1 x :
    r_blocked r = false -> r_gos r !! k = Some e ->
    handleSendPropose {| r with r_gos := delete k (r_gos r) |} e = Ok (r1, x) ->
    dstep r r1
| ds_respond r resps to : dstep r (sendProposeResp r resps to)
| ds_pause r : dstep r (Pause r)
| ds_resume r : dstep r (Resume r).
End Driver.

(** ** A storage in memory

    An instance of [Storage] that behaves as the comments of the interface
    say; the log at index [i] is at position [i-1], and the table of terms has
    the first index of every recorded term, in order. *)
Record Mem := mkMem {
  m_logs : list Log;
  m_terms : list (Z * Z);
  m_applied : list Log;
  m_config : Config
}.

#[export] Instance memStorage : Storage Mem := {|
  AppendLogs s logs info :=
    ({| s with m_logs := m_logs s ++ logs;
               m_terms := m_terms s ++
                 match info with Some i => [(tsi_Term i, tsi_Index i)] | None => [] end |}, true);
  GetLogs s start end_ limit :=
    let ls := filter (fun l => start <= log_Index l < end_) (m_logs s) in
    Some (if limit =? 0 then ls else take (Z.to_nat limit) ls);
  GetState s :=
    let l := default EmptyLog (last (m_logs s)) in
    Some (mkRaftState (log_Index l) (log_Term l)
            (log_Index (default EmptyLog (last (m_applied s)))));
  GetTermStartIndex s t :=
    Some (default 0 (snd <$> head (filter (fun p => p.1 = t) (m_terms s))));
  LeaderTermGreaterEqThan s t :=
    Some (default t (fst <$> head (filter (fun p => t <= p.1) (m_terms s))));
  LeaderLastTerm s := Some (default 0 (fst <$> last (m_terms s)));
  TruncateLogTo s i := ({| s with m_logs := filter (fun l => log_Index l <= i) (m_logs s) |}, true);
  DeleteLeaderTermStartIndexGreaterThanTerm s t :=
    ({| s with m_terms := filter (fun p => p.1 <= t) (m_terms s) |}, true);
  Apply s logs := ({| s with m_applied := m_applied s ++ logs |}, true);
  SaveConfig s c := ({| s with m_config := c |}, true)
|}.

(** ** The truncation point *)

(** The table of terms of a storage describes the log [log]: the terms do not
    decrease along the log, the start index of a term is the index of its first
    log, and the next term is the least one of the log. *)
Record terms_ok {St} {HS : Storage St} (s : St) (log : list Log) : Prop := {
  to_contig : contiguous 0 log;
  to_sorted : forall (i j : nat) li lj, (i <= j)%nat ->
    log !! i = Some li -> log !! j = Some lj -> log_Term li <= log_Term lj;
  to_start : forall t, (exists l, l ∈ log /\ log_Term l = t) ->
    exists (k : nat) l, GetTermStartIndex s t = Some (Z.of_nat k + 1) /\
      log !! k = Some l /\ log_Term l = t /\
      (forall j lj, (j < k)%nat -> log !! j = Some lj -> log_Term lj < t);
  to_next : forall t, (exists l, l ∈ log /\ t <= log_Term l) ->
    exists t', LeaderTermGreaterEqThan s t = Some t' /\ t <= t' /\
      (exists l, l ∈ log /\ log_Term l = t') /\
      (forall l, l ∈ log -> t <= log_Term l -> t' <= log_Term l)
}.

Section Truncation.
Context {St : Type} {HS : Storage St} (r : @Raft St) (e : Event) (log : list Log).

Lemma getTrunctLogIndex_spec leaderLastLogTerm :
  terms_ok (r_store r) log -> len log < two64 - 1 ->
  0 < ev_LastLogTerm e < leaderLastLogTerm -> leaderLastLogTerm < two32 ->
  (exists l, l ∈ log /\ ev_LastLogTerm e < log_Term l) ->
  exists k, getTrunctLogIndex r e leaderLastLogTerm = Ok (k, ReasonOk) /\ 0 <= k /\
    forall l, l ∈ log -> log_Index l <= k <-> log_Term l <= ev_LastLogTerm e.
Proof.
  intros [Hc Hs Hst Hnx] Hlen Ht Hmax (l0 & Hl0 & Hl0t).
  set (t := ev_LastLogTerm e) in *.
  destruct (Hnx (t + 1)) as (t' & Hn1 & Hn2 & Hn3 & Hn4).
  { exists l0. split; [done|lia]. }
  destruct (Hst t' Hn3) as (k & lk & Hk1 & Hk2 & Hk3 & Hk4).
  pose proof (lookup_lt_Some _ _ _ Hk2) as Hklt.
  exists (Z.of_nat k). split_and!; [|lia|].
  - unfold getTrunctLogIndex. fold t. zcases; try lia.
    rewrite u32_small by (unfold is_u32; lia). rewrite Hn1, Hk1. cbv zeta.
    zcases; try lia. rewrite u64_small by (unfold is_u64; lia). do 2 f_equal. lia.
  - intros l Hl. apply list_elem_of_lookup in Hl as [j Hj].
    rewrite (Hc _ _ Hj). split; intros H.
    + assert (log_Term l < t') by (apply (Hk4 j); [lia|done]).
      destruct (Z.le_gt_cases (log_Term l) t); [done|].
      assert (t' <= log_Term l); [|lia]. apply Hn4; [by eapply list_elem_of_lookup_2|lia].
    + destruct (Nat.le_gt_cases k j) as [Hkj|]; [|lia].
      pose proof (Hs _ _ _ _ Hkj Hk2 Hj). lia.
Qed.
End Truncation.

(** ** A blocked loop stays blocked *)

Section Blocked.
Context {St : Type} {HS : Storage St} {W : WkProto}.
Implicit Types r : @Raft St.

Definition stuck r r' : Prop := r_blocked r' = true /\ core (r_node r') = core (r_node r).

Lemma submit_stuck r j ev :
  length (r_stepC r) = stepC_cap -> r_submit r (r_submits r) = false ->
  stuck r (submit r j ev).
Proof.
  intros Hfull Hsub. unfold submit, post_from_loop, post. rewrite Hsub. simpl.
  rewrite Hfull. done.
Qed.

Lemma runJob_node r j r' e :
  runJob r j = Ok (r', e) -> r_node r' = r_node r /\ r_blocked r' = r_blocked r.
Proof.
  destruct j as [x|x t|x|x|x]; simpl.
  - unfold runStore. destruct (AppendLogs _ _ _). destruct (last _); [|done].
    by intros [= <- _].
  - unfold runGetLogs. intros ([k reason] & _ & H)%res_bind_Ok. revert H.
    destruct (negb _); [by intros [= <- _]|]. destruct (_ <? k); [by intros [= <- _]|].
    destruct (GetLogs _ _ _ _); by intros [= <- _].
  - unfold runTruncate. destruct (TruncateLogTo _ _) as [s ok].
    destruct (negb ok); [by intros [= <- _]|].
    destruct (DeleteLeaderTermStartIndexGreaterThanTerm _ _) as [s' ok'].
    destruct (negb ok'); by intros [= <- _].
  - unfold runApply. intros (w & Hw & H)%res_bind_Ok. revert H. cbv zeta. simpl.
    destruct (GetLogs _ _ _ _); [|by intros [= <- _]].
    destruct (last _); [|by intros [= <- _]]. destruct (Apply _ _) as [s ok].
    destruct (negb ok); [done|]. by intros [= <- _].
  - unfold runRoleChange. intros (c & _ & H)%res_bind_Ok. revert H.
    destruct c; [|by intros [= <- _]]. destruct (SaveConfig _ _) as [s ok].
    destruct (negb ok); by intros [= <- _].
Qed.

Lemma Raft_Step_node r e r' :
  Raft_Step r e = Ok (Some r') -> r_node r' = r_node r /\ r_blocked r' = r_blocked r.
Proof.
  assert (Hpost : forall r1, post r e = Some r1 ->
    r_node r1 = r_node r /\ r_blocked r1 = r_blocked r).
  { intros r1. unfold post. destruct (_ <? _)%nat; [|done]. by intros [= <-]. }
  unfold Raft_Step. destruct (r_pause r); [by intros [= <-]|].
  destruct (ev_Type e); try (intros [= H]; by apply Hpost).
  - by intros [= <-].
  - unfold handleSendProposeResp. intros (r1 & H & [= <-])%res_bind_Ok. revert H.
    destruct (ev_Logs e); [done|]. destruct (ProposeRespSet_Unmarshal _); [|by intros [= <-]].
    destruct (last _); [|done]. destruct (r_forward r !! _); by intros [= <-].
Qed.

Lemma dstep_blocked r r' : dstep r r' -> r_blocked r = true -> stuck r r'.
Proof.
  destruct 1; intros Hb; try congruence.
  - destruct (runJob_node _ _ _ _ H0) as [Hn Hbl]. unfold stuck. simpl. by rewrite Hbl, Hn.
  - unfold post in H0. destruct (_ <? _)%nat; [|done]. by injection H0 as <-.
  - destruct (Raft_Step_node _ _ _ H) as [Hn Hbl]. unfold stuck. by rewrite Hbl, Hn.
  - done.
  - done.
  - done.
Qed.

Lemma run_blocked r r' : rtc dstep r r' -> r_blocked r = true -> stuck r r'.
Proof.
  induction 1 as [r|r1 r2 r3 H12 _ IH]; intros Hb; [done|].
  destruct (dstep_blocked _ _ H12 Hb) as [Hb2 Hc2]. destruct (IH Hb2) as [Hb3 Hc3].
  split; [done|congruence].
Qed.
End Blocked.

Module DriverProps.

(**  The truncation point.  When the last log of a replica is of an older
    term than the leader's, the leader asks it to truncate to the index up to
    which the leader's own log has terms no newer than the replica's last one:
    exactly the logs of the leader at or below the index have such a term. *)
Theorem truncation_point (St : Type) (HS : Storage St) (r : @Raft St) (e : Event)
    (log : list Log) (leaderLastLogTerm : Z) :
  terms_ok (r_store r) log -> len log < two64 - 1 ->
  0 < ev_LastLogTerm e < leaderLastLogTerm -> leaderLastLogTerm < two32 ->
  (exists l, l ∈ log /\ ev_LastLogTerm e < log_Term l) ->
  exists k, getTrunctLogIndex r e leaderLastLogTerm = Ok (k, ReasonOk) /\ 0 <= k /\
    forall l, l ∈ log -> log_Index l <= k <-> log_Term l <= ev_LastLogTerm e.
Proof. apply getTrunctLogIndex_spec. Qed.

(** A leader with four logs of the terms 1, 1, 3, 3. *)
Definition lg (i t : Z) : Log := {| EmptyLog with log_Index := i; log_Term := t |}.
Definition mem4 : Mem := mkMem [lg 1 1; lg 2 1; lg 3 3; lg 4 3] [(1, 1); (3, 3)] [] emptyConfig.
Definition opts1 (replicas : list Z) : Options :=
  {| NewOptions with opt_NodeId := 1; opt_Replicas := replicas |}.
Definition the_raft {St} (d : @Raft St) (m : res (@Raft St)) : @Raft St :=
  match m with Ok r => r | _ => d end.
Definition raft_of (s : Mem) (opts : Options) : @Raft Mem :=
  the_raft (mkRaft (CommitProps.the_node Panic) [] false false newWait [] [] s ∅ [] [] []
              (fun _ => true) 0 false)
           (New s opts (fun _ => true)).

Lemma mem4_ok : terms_ok (r_store (raft_of mem4 (opts1 [1; 2]))) (m_logs mem4).
Proof.
  split.
  - intros i l. do 4 (destruct i as [|i]; [intros [= <-]; reflexivity|]). done.
  - intros i j li lj Hij Hi Hj.
    do 4 (destruct i as [|i];
      [injection Hi as <-; do 4 (destruct j as [|j]; [injection Hj as <-; simpl; lia|]); done|]).
    done.
  - intros t (l & Hl & <-). unfold mem4, m_logs in Hl.
    assert (Hc : log_Term l = 1 \/ log_Term l = 3).
    { repeat (apply elem_of_cons in Hl as [->|Hl]; [simpl; lia|]).
      by apply not_elem_of_nil in Hl. }
    destruct Hc as [-> | ->].
    + exists 0%nat, (lg 1 1). split_and!; [reflexivity|reflexivity|reflexivity|lia].
    + exists 2%nat, (lg 3 3). split_and!; [reflexivity|reflexivity|reflexivity|].
      intros j lj Hj. do 2 (destruct j as [|j]; [intros [= <-]; simpl; lia|]). lia.
  - intros t (l & Hl & Ht).
    assert (Hc : forall x, x ∈ m_logs mem4 -> log_Term x = 1 \/ log_Term x = 3).
    { intros x Hx. unfold mem4, m_logs in Hx.
      repeat (apply elem_of_cons in Hx as [->|Hx]; [simpl; lia|]).
      by apply not_elem_of_nil in Hx. }
    change (LeaderTermGreaterEqThan _ t) with
      (Some (default t (fst <$> head (filter (fun p : Z * Z => t <= p.1) [(1, 1); (3, 3)])))).
    rewrite !filter_cons. simpl. destruct (decide (t <= 1)).
    + exists 1. split_and!; [reflexivity|lia| |intros x Hx ?; destruct (Hc x Hx); lia].
      exists (lg 1 1). split; [constructor|reflexivity].
    + destruct (Hc l Hl); [lia|]. rewrite decide_True by lia.
      exists 3. split_and!; [reflexivity|lia| |intros x Hx ?; destruct (Hc x Hx); lia].
      exists (lg 3 3). split; [|reflexivity]. do 2 constructor. constructor.
Qed.

Lemma truncation_point_witness :
  let e := {| emptyEvent with ev_LastLogTerm := 2; ev_Index := 6 |} in
  exists k, getTrunctLogIndex (raft_of mem4 (opts1 [1; 2])) e 3 = Ok (k, ReasonOk) /\ k = 2.
Proof.
  intros e.
  destruct (truncation_point Mem memStorage (raft_of mem4 (opts1 [1; 2])) e (m_logs mem4) 3)
    as (k & Hk & H0 & Hiff);
    [apply mem4_ok|vm_compute; reflexivity|simpl; lia|lia| |].
  - exists (lg 3 3). split; [|simpl; lia]. do 2 constructor. constructor.
  - exists k. split; [exact Hk|].
    assert (H2 : log_Index (lg 2 1) <= k) by (apply Hiff; [do 1 constructor; constructor|simpl; lia]).
    assert (H3 : ~ log_Index (lg 3 3) <= k).
    { intros H. apply Hiff in H; [simpl in H; lia|]. do 2 constructor. constructor. }
    simpl in H2, H3. lia.
Defined.

(** An index of 0 means both that the replica has to drop everything and
    that nothing has to be dropped.  A leader whose log starts with term 3 lets
    a replica whose three logs are of term 2 keep them all, and sends it the
    logs from index 4 on. *)
Theorem conflict_from_first_index_is_kept :
  let s := mkMem [lg 1 3; lg 2 3; lg 3 3; lg 4 3] [(3, 1)] [] emptyConfig in
  let r := raft_of s (opts1 [1; 2]) in
  let e := {| emptyEvent with ev_Type := GetLogsReq; ev_From := 2; ev_LastLogTerm := 2;
                              ev_Index := 4; ev_StoredIndex := 4 |} in
  getTrunctLogIndex r e 3 = Ok (0, ReasonOk) /\
  exists resp, runGetLogs r e 3 = Ok (r, resp) /\ ev_Reason resp = ReasonOk /\
    log_Index <$> ev_Logs resp = [4].
Proof.
  intros s r e. split; [vm_compute; reflexivity|].
  eexists. split; [reflexivity|]. split; vm_compute; reflexivity.
Qed.

(**  A submission to the worker pool that fails while the step channel is
    full blocks the loop for ever: the loop itself sends the error response to
    the channel that only it empties, and from then on no run of the driver
    changes the log, the configuration or the role of the node. *)
Theorem full_channel_blocks_loop (St : Type) (HS : Storage St) (W : WkProto)
    (r r1 r2 : @Raft St) (e : Event) :
  ev_Type e ∈ [StoreReq; GetLogsReq; TruncateReq; ApplyReq] ->
  length (r_stepC r) = stepC_cap -> r_submit r (r_submits r) = false ->
  handleReadyEvent r e = Ok r1 -> rtc dstep r1 r2 ->
  r_blocked r2 = true /\ core (r_node r2) = core (r_node r).
Proof.
  intros Ht Hfull Hsub H1 Hrun.
  assert (Hs : stuck (keepAlive r) r1).
  { unfold handleReadyEvent in H1.
    repeat (apply elem_of_cons in Ht as [Ht|Ht]; [rewrite Ht in H1; injection H1 as <-;
      by apply submit_stuck|]). by apply not_elem_of_nil in Ht. }
  destruct Hs as [Hb Hc]. destruct (run_blocked _ _ Hrun Hb) as [Hb2 Hc2].
  split; [done|]. rewrite Hc2, Hc. done.
Qed.

Definition full_raft : @Raft Mem :=
  {| (raft_of mem4 (opts1 [1; 2])) with
       r_stepC := replicate stepC_cap emptyEvent; r_submit := fun _ => false |}.

Lemma full_channel_blocks_loop_witness :
  let e := {| emptyEvent with ev_Type := StoreReq |} in
  exists r1, handleReadyEvent full_raft e = Ok r1 /\ r_blocked r1 = true.
Proof.
  intros e. set (r1 := handleStoreReq (keepAlive full_raft) e).
  exists r1. split; [reflexivity|].
  apply (full_channel_blocks_loop Mem memStorage bigEndian full_raft r1 r1 e);
    [do 1 constructor|vm_compute; reflexivity|reflexivity|reflexivity|apply rtc_refl].
Defined.

(**  Migration: when the learner that is the target of a migration has
    caught up, the new configuration has the learner among the replicas in
    place of the node it replaces, each replica once, the learner no longer
    among the learners, and the learner as leader when it replaces the leader;
    the migration is over. *)
Theorem learner_replaces_node (St : Type) (HS : Storage St) (r : @Raft St) (s : nodeReadState)
    (learner : Z) :
  n_readState (r_node r) = Some s ->
  NoDup (cfg_Replicas (rd_cfg s)) -> NoDup (cfg_Learners (rd_cfg s)) ->
  learner = cfg_MigrateTo (rd_cfg s) ->
  exists c, learnTo r learner = Ok (Some c) /\
    NoDup (cfg_Replicas c) /\
    (forall x, x ∈ cfg_Replicas c <->
       (x ∈ cfg_Replicas (rd_cfg s) \/ x = learner) /\
       (x <> cfg_MigrateFrom (rd_cfg s) \/ cfg_MigrateFrom (rd_cfg s) = learner)) /\
    learner ∉ cfg_Learners c /\
    cfg_MigrateFrom c = 0 /\ cfg_MigrateTo c = 0 /\
    cfg_Leader c = (if cfg_MigrateFrom (rd_cfg s) =? cfg_Leader (rd_cfg s)
                    then learner else cfg_Leader (rd_cfg s)).
Proof.
  intros Hs Hnr Hnl ->. unfold learnTo, NodeConfig, LeaderId, readState. rewrite Hs.
  cbn [res_bind]. rewrite !Config_Clone_id, Z.eqb_refl. cbn [negb]. cbv iota zeta.
  set (cfg := rd_cfg s) in *. set (to := cfg_MigrateTo cfg). set (from := cfg_MigrateFrom cfg).
  set (c1 := if ArrayContainsUint64 _ _ then _ else _).
  assert (H1 : NoDup (cfg_Replicas c1) /\
    (forall x, x ∈ cfg_Replicas c1 <-> x ∈ cfg_Replicas cfg \/ x = to) /\
    cfg_MigrateFrom c1 = from /\ cfg_MigrateTo c1 = to /\
    cfg_Learners c1 = RemoveUint64 (cfg_Learners cfg) to /\ cfg_Leader c1 = cfg_Leader cfg).
  { unfold c1. simpl. destruct (ArrayContainsUint64 (cfg_Replicas cfg) to) eqn:E.
    - apply ArrayContainsUint64_spec in E. split_and!; auto. simpl. intros x.
      split; [auto|intros [?| ->]; done].
    - apply ArrayContainsUint64_false in E. simpl. split_and!; auto.
      + apply NoDup_app. split_and!; [done| |apply NoDup_singleton].
        intros x Hx Hx'%list_elem_of_singleton. by subst.
      + intros x. by rewrite elem_of_app, list_elem_of_singleton. }
  clearbody c1. destruct H1 as (Hn1 & Hx1 & Hf1 & Ht1 & Hl1 & Hle1).
  set (c2 := if cfg_MigrateFrom c1 =? _ then c1 else _).
  assert (H2 : NoDup (cfg_Replicas c2) /\
    (forall x, x ∈ cfg_Replicas c2 <->
       (x ∈ cfg_Replicas cfg \/ x = to) /\ (x <> from \/ from = to)) /\
    cfg_MigrateFrom c2 = from /\ cfg_MigrateTo c2 = to /\
    cfg_Learners c2 = RemoveUint64 (cfg_Learners cfg) to /\ cfg_Leader c2 = cfg_Leader cfg).
  { unfold c2. rewrite Hf1, Ht1. destruct (Z.eqb_spec from to).
    - split_and!; auto. intros x. rewrite Hx1. tauto.
    - destruct (RemoveUint64_NoDup _ from Hn1) as [Hr1 Hr2]. simpl. split_and!; auto.
      intros x. rewrite Hr2, Hx1. tauto. }
  clearbody c2. destruct H2 as (Hn2 & Hx2 & Hf2 & Ht2 & Hl2 & Hle2).
  destruct (RemoveUint64_NoDup _ to Hnl) as [_ Hl].
  eexists. split; [reflexivity|]. rewrite Hf2. simpl.
  destruct (from =? cfg_Leader cfg); simpl; rewrite Hl2, ?Hle2; split_and!; auto;
    rewrite Hl; tauto.
Qed.

Definition migrating : @Raft Mem :=
  let cfg := {| emptyConfig with cfg_Replicas := [1; 2; 3]; cfg_Learners := [4; 5];
                  cfg_MigrateFrom := 1; cfg_MigrateTo := 4; cfg_Leader := 1 |} in
  set_node (raft_of mem4 (opts1 [1; 2]))
    (publishReadState {| (CommitProps.the_node Panic) with n_cfg := cfg |}).

Lemma learner_replaces_node_witness :
  exists c, learnTo migrating 4 = Ok (Some c) /\ cfg_Replicas c = [2; 3; 4] /\
    4 ∉ cfg_Learners c /\ cfg_Leader c = 4.
Proof.
  destruct (learner_replaces_node Mem memStorage migrating
              (freshState (r_node migrating)) 4) as (c & Hc & _ & _ & Hl & _ & _ & Hle);
    [reflexivity|decide_goal|decide_goal|reflexivity|].
  exists c. split; [exact Hc|]. split; [|split; [exact Hl|exact Hle]].
  vm_compute in Hc. injection Hc as <-. reflexivity.
Defined.
End DriverProps.
