(* ===== verification/RaftWake.v ===== *)
(** * No waiter is forgotten

    The driver registers a waiter for a proposed log and signals it when the
    applied index reaches the log.  Along every run of the driver
    ([RaftDriver.dstep]) a waiter that is still registered waits for an index
    that is not applied yet, and no channel is signalled twice.  The proof
    needs that only the storage's apply response moves the applied index of a
    node, for every event and without any assumption on the node. *)

From S2P Require Import Prelude RaftTypes RaftQueue RaftNode RaftCommit RaftInv RaftWait.
From S2P Require Import WkProto RaftCodec RaftDriver RaftApplied.

(** ** What the driver does to its waiters *)

(** The four things that happen to the list of waiters and the applied
    index. *)
Inductive weffect : wait * Z -> wait * Z -> Prop :=
| we_register w a i :
    a < i -> weffect (w, a) ((waitApply w i).1, a)
| we_applied w a a' w' :
    a <= a' -> didApply w a' = Ok w' -> weffect (w, a) (w', a')
| we_committed w a i w' :
    didCommit w i = Ok w' -> weffect (w, a) (w', a).

Abbreviation effects := (rtc weffect).

(** The invariant: a registered waiter for an application is not due. *)
Record wake_inv (v : wait * Z) : Prop := {
  wi_wf : wait_wf v.1;
  wi_due : forall p, p ∈ w_progresses v.1 -> p_waitApplied p = true -> v.2 < p_maxIndex p
}.

Lemma weffect_inv v v' : weffect v v' -> wake_inv v -> wake_inv v'.
Proof.
  intros H [Hwf Hdue]. destruct H as [w a i Hi|w a a' w' Ha Hw|w a i w' Hw]; simpl in *.
  - split; simpl; [by apply register_wf|].
    intros p Hp. apply elem_of_app in Hp as [Hp|Hp]; [by apply Hdue|].
    apply list_elem_of_singleton in Hp as ->. done.
  - destruct (did_wf p_waitApplied w a' Hwf) as (w2 & Hw2 & Hwf2 & _).
    unfold didApply in Hw. rewrite Hw2 in Hw. injection Hw as ->. split; [done|]. simpl.
    rewrite (did_spec p_waitApplied w a' (ww_pending _ Hwf)) in Hw2. injection Hw2 as <-.
    simpl. intros p [Hn _]%list_elem_of_filter Hp. unfold reached in Hn.
    destruct (Z.le_gt_cases (p_maxIndex p) a'); [exfalso; auto|lia].
  - destruct (did_wf p_waitCommittied w i Hwf) as (w2 & Hw2 & Hwf2 & _).
    unfold didCommit in Hw. rewrite Hw2 in Hw. injection Hw as ->. split; [done|]. simpl.
    rewrite (did_spec p_waitCommittied w i (ww_pending _ Hwf)) in Hw2. injection Hw2 as <-.
    simpl. intros p [_ Hp]%list_elem_of_filter. by apply Hdue.
Qed.

Lemma effects_inv v v' : effects v v' -> wake_inv v -> wake_inv v'.
Proof. induction 1; eauto using weffect_inv. Qed.

(** The fate of one waiter: registered, or signalled when its index was
    applied. *)
Definition tracked (ch : nat) (i : Z) (v : wait * Z) : Prop :=
  newApplyProgress ch i ∈ w_progresses v.1 \/ (ch ∈ w_fired v.1 /\ i <= v.2).

Lemma weffect_tracked ch i v v' :
  weffect v v' -> wake_inv v -> tracked ch i v -> tracked ch i v'.
Proof.
  intros H [Hwf _] Ht. destruct H as [w a j Hj|w a a' w' Ha Hw|w a j w' Hw];
    unfold tracked in *; simpl in *.
  - destruct Ht as [Ht|Ht]; [left|by right]. apply elem_of_app. by left.
  - unfold didApply in Hw. rewrite (did_spec _ w a' (ww_pending _ Hwf)) in Hw.
    injection Hw as <-. simpl. destruct Ht as [Ht|[Ht Hi]].
    + destruct (Z.le_gt_cases i a').
      * right. split; [|done]. apply elem_of_app. right. apply list_elem_of_fmap.
        exists (newApplyProgress ch i). split; [done|]. by apply list_elem_of_filter.
      * left. apply list_elem_of_filter. split; [|done]. intros [_ ?]. simpl in *. lia.
    + right. split; [|lia]. apply elem_of_app. by left.
  - unfold didCommit in Hw. rewrite (did_spec _ w j (ww_pending _ Hwf)) in Hw.
    injection Hw as <-. simpl. destruct Ht as [Ht|[Ht Hi]].
    + left. apply list_elem_of_filter. split; [|done]. by intros [? _].
    + right. split; [|done]. apply elem_of_app. by left.
Qed.

Lemma effects_tracked ch i v v' :
  effects v v' -> wake_inv v -> tracked ch i v -> tracked ch i v'.
Proof.
  induction 1 as [|x y z Hxy Hyz IH]; [done|]. intros Hi Ht.
  apply IH; [by eapply weffect_inv|by eapply weffect_tracked].
Qed.

(** A tracked waiter is signalled exactly when its index is applied. *)
Lemma tracked_exact ch i v :
  wake_inv v -> tracked ch i v -> ch ∈ w_fired v.1 <-> i <= v.2.
Proof.
  intros [Hwf Hdue] [Hp|[Hf Hi]]; [|done].
  pose proof (Hdue _ Hp eq_refl) as Hlt. simpl in Hlt. split; [|lia].
  intros Hf. exfalso. apply (proj1 (proj2 (proj1 (NoDup_app _ _) (ww_ids _ Hwf))) ch Hf).
  apply list_elem_of_fmap. by exists (newApplyProgress ch i).
Qed.

(** ** Every step of the driver is made of these effects *)

Section Effects.
Context {St : Type} {HS : Storage St} {W : WkProto}.
Implicit Types r : @Raft St.

Definition view r : wait * Z := (r_wait r, q_appliedIndex (n_queue (r_node r))).

Lemma step_effects r e r' err : step r e = Ok (r', err) -> effects (view r) (view r').
Proof.
  unfold step. intros ([n err2] & Hs & (w & Hw & [= <- <-])%res_bind_Ok)%res_bind_Ok.
  unfold view. simpl in *.
  destruct (decide (ev_Type e = ApplyResp)) as [Ht|Ht].
  - destruct (Step_ApplyResp _ _ _ _ Hs Ht) as [He|(-> & Hr & He)].
    + rewrite He. assert (Hw' : w = r_wait r \/
        didApply (r_wait r) (q_appliedIndex (n_queue n)) = Ok w).
      { destruct err2; [left; congruence|].
        destruct (_ && _); [by right|left; congruence]. }
      destruct Hw' as [->|Hw']; [done|]. apply rtc_once, we_applied; [lia|congruence].
    + rewrite Ht, Hr in Hw. simpl in Hw. apply rtc_once, we_applied; [lia|done].
  - rewrite (Step_applied _ _ _ _ Hs Ht).
    assert (w = r_wait r) as ->; [|done].
    rewrite bool_decide_eq_false_2 in Hw by done. simpl in Hw. destruct err2; congruence.
Qed.

Lemma post_view r e r' : post r e = Some r' -> view r' = view r.
Proof. unfold post. destruct (_ <? _)%nat; [|done]. by intros [= <-]. Qed.

Lemma submit_view r j e : view (submit r j e) = view r.
Proof.
  unfold submit. destruct (r_submit r _); [done|]. unfold post_from_loop.
  destruct (post _ _) eqn:E; [by apply post_view in E|done].
Qed.

Lemma handleReadyEvent_effects r e r' :
  handleReadyEvent r e = Ok r' -> effects (view r) (view r').
Proof.
  assert (Hrest : (if ev_To e =? None_ then Ok r
      else if (ev_To e =? LocalNode) || (ev_To e =? n_NodeId (r_node r)) then
        let! (r, _) := step r e in Ok r
      else Ok {| r with r_sent := r_sent r ++ [e] |}) = Ok r' -> effects (view r) (view r')).
  { destruct (_ =? None_); [by intros [= <-]|]. destruct (_ || _); [|by intros [= <-]].
    intros ([r1 err] & H & [= <-])%res_bind_Ok. by eapply step_effects. }
  unfold handleReadyEvent, handleStoreReq, handleGetLogsReq, handleTruncateReq,
    handleApplyReq, handleRoleChangeReq.
  destruct (ev_Type e); try exact Hrest; intros [= <-]; by rewrite submit_view.
Qed.

Lemma readyLoop_effects evs i count r r' :
  readyLoop evs i count r = Ok r' -> effects (view r) (view r').
Proof.
  revert i r. induction count as [|count IH]; intros i r; simpl; [by intros [= <-]|].
  destruct (r_blocked r); [by intros [= <-]|]. destruct (readSlot _ _ _); [|done].
  intros (r1 & H1 & H2)%res_bind_Ok. etrans; [by eapply handleReadyEvent_effects|].
  by eapply IH.
Qed.

Lemma readyEvents_effects r r' : readyEvents r = Ok r' -> effects (view r) (view r').
Proof.
  unfold readyEvents. intros ([n evs] & Hr & H)%res_bind_Ok.
  apply readyLoop_effects in H. revert H. unfold view at 1. simpl.
  by rewrite (Ready_applied _ _ _ Hr).
Qed.

Lemma runJob_effects r j r' e : runJob r j = Ok (r', e) -> effects (view r) (view r').
Proof.
  destruct j as [x|x t|x|x|x]; simpl.
  - unfold runStore. destruct (AppendLogs _ _ _). destruct (last _); [|done].
    by intros [= <- _].
  - unfold runGetLogs. intros ([k reason] & _ & H)%res_bind_Ok. revert H.
    destruct (negb _); [by intros [= <- _]|]. destruct (_ <? k); [by intros [= <- _]|].
    destruct (GetLogs _ _ _ _); by intros [= <- _].
  - unfold runTruncate. destruct (TruncateLogTo _ _) as [s ok].
    destruct (negb ok); [by intros [= <- _]|].
    destruct (DeleteLeaderTermStartIndexGreaterThanTerm _ _) as [s' ok'].
    destruct (negb ok'); by intros [= <- _].
  - unfold runApply. intros (w & Hw & H)%res_bind_Ok.
    assert (Hv : view r' = (w, q_appliedIndex (n_queue (r_node r)))).
    { revert H. cbv zeta. simpl. destruct (GetLogs _ _ _ _); [|by intros [= <- _]].
      destruct (last _); [|by intros [= <- _]]. destruct (Apply _ _) as [s ok].
      destruct (negb ok); [done|]. by intros [= <- _]. }
    rewrite Hv. by eapply rtc_once, we_committed.
  - unfold runRoleChange. intros (c & _ & H)%res_bind_Ok. revert H.
    destruct c; [|by intros [= <- _]]. destruct (SaveConfig _ _) as [s ok].
    destruct (negb ok); by intros [= <- _].
Qed.

(** A proposal that waits is tracked from the start. *)
Lemma ProposeBatchUntilApplied_effects r reqs r' p :
  ProposeBatchUntilApplied r reqs = Ok (r', p) ->
  effects (view r) (view r') /\
  match p with
  | PWaiting resps ch =>
      exists resp, last resps = Some resp /\
        exists v1, effects (view r) v1 /\ effects v1 (view r') /\
          newApplyProgress ch (presp_Index resp) ∈ w_progresses v1.1
  | _ => True
  end.
Proof.
  unfold ProposeBatchUntilApplied. intros (l & _ & H)%res_bind_Ok.
  destruct (l =? 0); [by injection H as <- <-|].
  apply res_bind_Ok in H as (isl & _ & H). destruct (negb isl).
  { apply res_bind_Ok in H as ([r1 key] & Hf & [= <- <-]). split; [|done].
    unfold fowardPropose in Hf. destruct (last reqs); [|done].
    destruct (_ !! _); [done|]. by apply res_bind_Ok in Hf as (x & _ & [= <- _]). }
  destruct (r_pause r); [by injection H as <- <-|]. cbv zeta in H.
  set (logs := assignLogs _ _ _) in H.
  apply res_bind_Ok in H as ([r1 ch] & Hreg & H).
  apply res_bind_Ok in H as ([r2 err] & Hst & H).
  unfold registerApply in Hreg. destruct (last logs) as [lg|] eqn:Hlast; [|done].
  pose proof (step_effects _ _ _ _ Hst) as He.
  destruct (Z.leb_spec (log_Index lg) (q_appliedIndex (n_queue (r_node r)))).
  - injection Hreg as <- <-. destruct err; injection H as <- <-; done.
  - injection Hreg as <- <-.
    assert (Hr : weffect (view r) ((waitApply (r_wait r) (log_Index lg)).1,
                                   q_appliedIndex (n_queue (r_node r)))).
    { by apply we_register. }
    assert (Hall : effects (view r) (view r2)) by (eapply rtc_l; [exact Hr|exact He]).
    destruct err; injection H as <- <-; [done|]. split; [done|].
    exists (mkProposeResp (log_Id lg) (log_Index lg)).
    rewrite fmap_last, Hlast. split; [done|].
    eexists. split; [by apply rtc_once|]. split; [exact He|].
    simpl. apply elem_of_app. right. by apply list_elem_of_singleton.
Qed.

Lemma sendProposeRespError_view r reqs to : view (sendProposeRespError r reqs to) = view r.
Proof. done. Qed.

Lemma handleSendPropose_effects r e r' x :
  handleSendPropose r e = Ok (r', x) -> effects (view r) (view r').
Proof.
  unfold handleSendPropose. destruct (ev_Logs e); [done|].
  destruct (ProposeReqSet_Unmarshal _) as [reqs|]; [|by intros [= <- _]].
  intros (isl & _ & H)%res_bind_Ok. destruct (negb isl); [by injection H as <- _|].
  apply res_bind_Ok in H as ([r1 p] & Hp & H).
  apply ProposeBatchUntilApplied_effects in Hp as [Hp _].
  destruct p; injection H as <- _; exact Hp.
Qed.

Lemma afterForward_effects r resps r' p :
  afterForward r resps = Ok (r', p) -> effects (view r) (view r').
Proof.
  unfold afterForward. destruct (last resps) as [resp|]; [|done].
  destruct (Z.ltb_spec (q_appliedIndex (n_queue (r_node r))) (presp_Index resp));
    intros [= <- _]; [|done].
  by apply rtc_once, we_register.
Qed.

Lemma Raft_Step_effects r e r' : Raft_Step r e = Ok (Some r') -> view r' = view r.
Proof.
  unfold Raft_Step. destruct (r_pause r); [by intros [= <-]|].
  destruct (ev_Type e); try (intros [= H]; by apply post_view in H).
  - by intros [= <-].
  - unfold handleSendProposeResp. intros (r1 & H & [= <-])%res_bind_Ok. revert H.
    destruct (ev_Logs e); [done|]. destruct (ProposeRespSet_Unmarshal _); [|by intros [= <-]].
    destruct (last _); [|done]. destruct (r_forward r !! _); by intros [= <-].
Qed.

Lemma dstep_effects r r' : dstep r r' -> effects (view r) (view r').
Proof.
  destruct 1 as
    [r r1 n ka _ _ Hr _ Ht|r r1 _ _ Hr _ _|r r1 e rest r2 err _ _ Hr _ _ Hs
    |r r1 reqs r2 p _ _ Hr _ Hp|r r1 resps r2 p _ Hr _ Hp|r r1 n' _ Hr _ (t & l & Hn)
    |r k j r1 resp _ Hj|r k e r1 _ Hp|r e r1 He|r k e r1 x _ _ Hg|r resps to|r|r];
    try apply readyEvents_effects in Hr.
  - unfold view at 2. simpl. rewrite (Tick_applied _ _ _ Ht). exact Hr.
  - exact Hr.
  - etrans; [exact Hr|]. by apply step_effects in Hs.
  - etrans; [exact Hr|]. by apply ProposeBatchUntilApplied_effects in Hp as [? _].
  - assert (Hr' : effects (view r) (view r1)).
    { destruct (r_pause r); [by injection Hr as <-|by apply readyEvents_effects]. }
    etrans; [exact Hr'|]. by eapply afterForward_effects.
  - assert (Hr' : effects (view r) (view r1)).
    { destruct (r_pause r); [by injection Hr as <-|by apply readyEvents_effects]. }
    unfold view at 2. simpl.
    assert (n_queue n' = n_queue (r_node r1)) as ->; [|exact Hr'].
    destruct Hn as [->|[->| ->]]; [apply BecomeLeader_queue|apply BecomeFollower_queue|done].
  - exact (runJob_effects _ _ _ _ Hj).
  - by rewrite (post_view _ _ _ Hp).
  - by rewrite (Raft_Step_effects _ _ _ He).
  - exact (handleSendPropose_effects _ _ _ _ Hg).
  - done.
  - done.
  - done.
Qed.

Lemma run_effects r r' : rtc dstep r r' -> effects (view r) (view r').
Proof. induction 1; [done|]. etrans; [by apply dstep_effects|done]. Qed.

Lemma New_inv store opts submit r : New store opts submit = Ok r -> wake_inv (view r).
Proof.
  unfold New. destruct (GetState store); [|done].
  destruct (GetTermStartIndex _ _); [|done]. intros (n & _ & [= <-])%res_bind_Ok.
  split; [apply newWait_wf|]. simpl. intros p Hp. by apply not_elem_of_nil in Hp.
Qed.

(** *** An executable schedule *)

Inductive dact := DTick | DStep | DJob (k : nat) | DPost (k : nat).

(** The ready round of an iteration that takes an input. *)
Definition ready_round r : option Raft :=
  if r_pause r || r_blocked r then None
  else match readyEvents r with
       | Ok r1 => if r_blocked r1 then None else Some r1
       | _ => None
       end.

Definition dact_run r (a : dact) : option Raft :=
  match a with
  | DTick =>
      r1 ← ready_round r;
      match Tick (r_node r1) false with
      | Ok n => Some (set_node r1 n)
      | _ => None
      end
  | DStep =>
      r1 ← ready_round r;
      match r_stepC r1 with
      | e :: rest =>
          match step {| r1 with r_stepC := rest |} e with
          | Ok (r2, _) => Some r2
          | _ => None
          end
      | [] => None
      end
  | DJob k =>
      j ← r_jobs r !! k;
      match runJob (take_job r k) j with
      | Ok (r1, resp) => Some {| r1 with r_posts := r_posts r1 ++ [resp] |}
      | _ => None
      end
  | DPost k =>
      e ← r_posts r !! k;
      post {| r with r_posts := delete k (r_posts r) |} e
  end.

Fixpoint dacts_run r (l : list dact) : option Raft :=
  match l with
  | [] => Some r
  | a :: l => r ← dact_run r a; dacts_run r l
  end.

Lemma ready_round_Some r r1 :
  ready_round r = Some r1 ->
  r_pause r = false /\ r_blocked r = false /\ readyEvents r = Ok r1 /\ r_blocked r1 = false.
Proof.
  unfold ready_round. destruct (r_pause r), (r_blocked r); try done; simpl.
  destruct (readyEvents r) as [x| |]; try done.
  destruct (r_blocked x) eqn:E; [done|]. by intros [= <-].
Qed.

Lemma dact_run_step r a r' : dact_run r a = Some r' -> dstep r r'.
Proof.
  destruct a as [| |k|k]; simpl.
  - intros (r1 & (Hp & Hb & Hr & Hb1)%ready_round_Some & H)%bind_Some.
    destruct (Tick (r_node r1) false) eqn:E; try done. injection H as <-.
    by eapply ds_tick.
  - intros (r1 & (Hp & Hb & Hr & Hb1)%ready_round_Some & H)%bind_Some.
    destruct (r_stepC r1) as [|e rest] eqn:E; [done|].
    destruct (step _ e) as [[r2 err]| |] eqn:Es; try done. injection H as <-.
    by eapply ds_step.
  - intros (j & Hj & H)%bind_Some. destruct (runJob _ _) as [[r1 resp]| |] eqn:E; try done.
    injection H as <-. by eapply ds_job.
  - intros (e & He & H)%bind_Some. by eapply ds_post.
Qed.

Lemma dacts_run_steps r l r' : dacts_run r l = Some r' -> rtc dstep r r'.
Proof.
  revert r. induction l as [|a l IH]; intros r; simpl; [by intros [= <-]|].
  intros (r1 & H1 & H2)%bind_Some. eapply rtc_l; [by eapply dact_run_step|by apply IH].
Qed.
End Effects.

Module WakeProps.

(** C2.  No wakeup is lost and none is early.  When a proposal on the leader
    returns a channel to wait on, then in every state of every later run of the
    driver, with the storage's workers, the clock and other proposals
    interleaved in any way, the channel has been signalled if and only if the
    applied index has reached the last log of the proposal. *)
Theorem wakeup_exact (St : Type) (HS : Storage St) (W : WkProto)
    (store : St) (opts : Options) (submit : nat -> bool) (r0 r r1 r2 : @Raft St)
    (reqs : list ProposeReq) (resps : list ProposeResp) (ch : nat) :
  New store opts submit = Ok r0 -> rtc dstep r0 r ->
  ProposeBatchUntilApplied r reqs = Ok (r1, PWaiting resps ch) ->
  rtc dstep r1 r2 ->
  exists resp, last resps = Some resp /\
    (ch ∈ w_fired (r_wait r2) <->
     presp_Index resp <= q_appliedIndex (n_queue (r_node r2))).
Proof.
  intros H0 Hr Hp H2.
  apply New_inv in H0. apply run_effects in Hr, H2.
  pose proof (effects_inv _ _ Hr H0) as Hi.
  apply ProposeBatchUntilApplied_effects in Hp as [Hp (resp & Hlast & v1 & Hv1 & Hv2 & Hin)].
  exists resp. split; [done|].
  pose proof (effects_inv _ _ Hv1 Hi) as Hi1.
  assert (Hrest : effects v1 (view r2)) by (etrans; eauto).
  apply (tracked_exact ch (presp_Index resp) (view r2)).
  - by eapply effects_inv.
  - eapply effects_tracked; [exact Hrest|done|by left].
Qed.

(** A group of one replica: a proposal, and the run that stores, commits and
    applies it. *)
Definition solo0 : @Raft Mem :=
  DriverProps.raft_of (mkMem [] [] [] emptyConfig) (DriverProps.opts1 [1]).
Definition solo1 : @Raft Mem * proposed :=
  match ProposeBatchUntilApplied solo0 [mkProposeReq 7 []; mkProposeReq 8 []] with
  | Ok x => x
  | _ => (solo0, PDone [])
  end.
Definition solo_schedule : list dact :=
  [DTick; DJob 0; DPost 0; DStep; DTick; DJob 0; DPost 0; DStep].
Definition solo2 : @Raft Mem := default solo0 (dacts_run solo1.1 solo_schedule).

Lemma wakeup_exact_witness :
  q_appliedIndex (n_queue (r_node solo1.1)) = 0 /\
  q_appliedIndex (n_queue (r_node solo2)) = 2 /\ 0%nat ∈ w_fired (r_wait solo2).
Proof.
  split; [vm_compute; reflexivity|]. split; [vm_compute; reflexivity|].
  destruct (wakeup_exact Mem memStorage bigEndian (mkMem [] [] [] emptyConfig)
      (DriverProps.opts1 [1]) (fun _ => true) solo0 solo0 solo1.1 solo2
      [mkProposeReq 7 []; mkProposeReq 8 []] [mkProposeResp 7 1; mkProposeResp 8 2] 0)
    as (resp & Hl & Hiff);
    [reflexivity|apply rtc_refl|vm_compute; reflexivity| |].
  - apply (dacts_run_steps _ solo_schedule). vm_compute. reflexivity.
  - apply Hiff. injection Hl as <-. vm_compute. discriminate.
Defined.

(**  An event emitted while the driver handles a ready round can overwrite
    an event of the round that it has not read yet.  Here a candidate alone with
    two learners answers an old heartbeat with a [TermResp] and then wins its
    own vote: the [TermResp] is never sent, and the heartbeat of learner 5 is
    sent in its place. *)
Theorem ready_round_overwrites_events :
  let old := {| emptyEvent with ev_Type := Ping; ev_From := 2; ev_To := 1; ev_Term := 1 |} in
  let cfg := {| emptyConfig with cfg_Replicas := [1]; cfg_Learners := [4; 5];
                                 cfg_Version := 1; cfg_Role := RoleFollower |} in
  let r := DriverProps.raft_of (mkMem [] [] [] emptyConfig) (DriverProps.opts1 [1; 2; 3]) in
  let m := (let! (n, _) := Step (r_node r)
              {| emptyEvent with ev_Type := ConfChange; ev_Config := cfg |} in
            let! (n, _) := Step n {| emptyEvent with ev_Type := Campaign |} in
            let! r := readyEvents (set_node r n) in
            let! (n, _) := Step (r_node r) old in
            Ok (set_node r n)) in
  exists r1 r2 e1 e2, m = Ok r1 /\ n_events (r_node r1) = [e1; e2] /\
    ev_Type e2 = TermResp /\ ev_To e2 = 2 /\
    readyEvents r1 = Ok r2 /\
    (fun e => (ev_Type e, ev_To e)) <$> r_sent r2 = [(Ping, 5)].
Proof.
  eexists _, _, _, _. split; [vm_compute; reflexivity|].
  split; [reflexivity|]. split; [reflexivity|]. split; [reflexivity|].
  split; [vm_compute; reflexivity|]. reflexivity.
Qed.
End WakeProps.
