(* ===== verification/GroupQueue.v ===== *)
(** * The event queue of a raft group

    [pkg/raft/raftgroup/event_queue.go] and [rate_limter.go]: the queue through
    which every event reaches the loop of a group.  It has two arrays of a fixed
    size that take turns: writers fill one while the loop still reads the batch
    it took from the other one, of which it holds a slice and not a copy.  The
    model keeps both arrays and what the loop holds is a [batch] that is read
    through the queue, so that a write to the array would be seen.

    - [QueueOps]: the operations.
    - The abstract queue: what is pending and the batch that was taken.
    - [GroupQueueProps]: the queue refines the abstract one for every sequence
      of operations, and the bound of the rate limiter. *)

From S2P Require Import Prelude RaftTypes RaftCodec.

(** ** Data *)

(** [pkg/raft/raftgroup/types.go] [Event] *)
Record GEvent := mkGEvent {
  ge_RaftKey : string;
  ge_Event : Event;
  ge_WaitC : option nat
}.

Definition emptyGEvent : GEvent := mkGEvent "" emptyEvent None.

(** [pkg/raft/raftgroup/rate_limter.go] [RateLimiter] *)
Record RateLimiter := mkRateLimiter {
  rl_size : Z;
  rl_maxSize : Z
}.

(** [pkg/raft/raftgroup/event_queue.go] [EventQueue]

    Of the slice [nodrop] the capacity is kept too. *)
Record EventQueue := mkEventQueue {
  eq_ch : bool;
  eq_rl : RateLimiter;
  eq_lazyFreeCycle : Z;
  eq_size : Z;
  eq_left : list GEvent;
  eq_right : list GEvent;
  eq_nodrop : list GEvent;
  eq_nodropCap : Z;
  eq_leftInWrite : bool;
  eq_idx : Z;
  eq_oldIdx : Z;
  eq_cycle : Z
}.

(** ** The rate limiter *)

(** [pkg/raft/raftgroup/rate_limter.go] [NewRateLimiter] *)
Definition NewRateLimiter (max : Z) : RateLimiter := mkRateLimiter 0 max.

(** [pkg/raft/raftgroup/rate_limter.go] [(r *RateLimiter) Enabled] *)
Definition Enabled (r : RateLimiter) : bool :=
  (0 <? rl_maxSize r) && negb (rl_maxSize r =? two64 - 1).

(** [pkg/raft/raftgroup/rate_limter.go] [(r *RateLimiter) Increase] *)
Definition Increase (r : RateLimiter) (sz : Z) : RateLimiter :=
  {| r with rl_size := rl_size r +64 sz |}.

(** [pkg/raft/raftgroup/rate_limter.go] [(r *RateLimiter) Decrease]

    [^x] is [2^64 - 1 - x]. *)
Definition Decrease (r : RateLimiter) (sz : Z) : RateLimiter :=
  {| r with rl_size := rl_size r +64 (two64 - 1 - (sz -64 1)) |}.

(** [pkg/raft/raftgroup/rate_limter.go] [(r *RateLimiter) Set] *)
Definition rl_Set (r : RateLimiter) (sz : Z) : RateLimiter := {| r with rl_size := sz |}.

(** [pkg/raft/raftgroup/rate_limter.go] [(r *RateLimiter) RateLimited] *)
Definition RateLimited (r : RateLimiter) : bool :=
  if negb (Enabled r) then false else rl_maxSize r <? rl_size r.

(** ** The queue *)

Section QueueOps.
(** The capacity the runtime gives an array of capacity [cap] that has to grow
    to [n] elements. *)
Context (growslice : Z -> Z -> Z).

(** [pkg/raft/raftgroup/event_queue.go] [NewEventQueue] *)
Definition NewEventQueue (size : Z) (ch : bool) (lazyFreeCycle maxMemorySize : Z)
  : EventQueue :=
  {| eq_ch := ch; eq_rl := NewRateLimiter maxMemorySize;
     eq_lazyFreeCycle := lazyFreeCycle; eq_size := size;
     eq_left := replicate (Z.to_nat size) emptyGEvent;
     eq_right := replicate (Z.to_nat size) emptyGEvent;
     eq_nodrop := []; eq_nodropCap := 0;
     eq_leftInWrite := false; eq_idx := 0; eq_oldIdx := 0; eq_cycle := 0 |}.

(** [pkg/raft/raftgroup/event_queue.go] [(q *EventQueue) targetQueue] *)
Definition targetQueue (q : EventQueue) : list GEvent :=
  if eq_leftInWrite q then eq_left q else eq_right q.

(** A write to the array [targetQueue] returns. *)
Definition set_target (q : EventQueue) (l : list GEvent) : EventQueue :=
  if eq_leftInWrite q then {| q with eq_left := l |} else {| q with eq_right := l |}.

(** [pkg/raft/raftgroup/event_queue.go] [(q *EventQueue) tryAdd] *)
Definition tryAdd (q : EventQueue) (msg : GEvent) : EventQueue * bool :=
  if negb (Enabled (eq_rl q)) then (q, true)
  else if RateLimited (eq_rl q) then (q, false)
  else ({| q with eq_rl := Increase (eq_rl q) (Event_Size (ge_Event msg)) |}, true).

(** [pkg/raft/raftgroup/event_queue.go] [(q *EventQueue) Add] *)
Definition Add (q : EventQueue) (msg : GEvent) : res (EventQueue * bool) :=
  if eq_size q <=? eq_idx q then Ok (q, false)
  else
    let '(q, ok) := tryAdd q msg in
    if negb ok then Ok (q, false)
    else
      let w := targetQueue q in
      if (0 <=? eq_idx q) && (eq_idx q <? len w) then
        let q := set_target q (<[Z.to_nat (eq_idx q) := msg]> w) in
        Ok ({| q with eq_idx := eq_idx q +64 1 |}, true)
      else Panic.

(** [pkg/raft/raftgroup/event_queue.go] [(q *EventQueue) shrinkNodropArray] *)
Definition shrinkNodropArray (q : EventQueue) : EventQueue :=
  if len (eq_nodrop q) =? 0 then {| q with eq_nodrop := []; eq_nodropCap := 0 |}
  else if len (eq_nodrop q) * 2 <? eq_nodropCap q
  then {| q with eq_nodropCap := len (eq_nodrop q) |}
  else q.

(** [pkg/raft/raftgroup/event_queue.go] [(q *EventQueue) MustAdd] *)
Definition MustAdd (q : EventQueue) (msg : GEvent) : EventQueue :=
  let n := len (eq_nodrop q) + 1 in
  let cap := if n <=? eq_nodropCap q then eq_nodropCap q
             else growslice (eq_nodropCap q) n in
  shrinkNodropArray {| q with eq_nodrop := eq_nodrop q ++ [msg]; eq_nodropCap := cap |}.

(** The loops of [gc]: the logs of the first [k] events of the array are
    released; an array shorter than [k] is indexed out of range. *)
Definition dropLogs (m : GEvent) : GEvent :=
  {| m with ge_Event := {| (ge_Event m) with ev_Logs := [] |} |}.
Definition freeFirst (q : EventQueue) (k : Z) : res EventQueue :=
  let oldq := targetQueue q in
  if k <=? len oldq then
    Ok (set_target q ((dropLogs <$> take (Z.to_nat k) oldq) ++ drop (Z.to_nat k) oldq))
  else Panic.

(** [pkg/raft/raftgroup/event_queue.go] [(q *EventQueue) gc] *)
Definition gc (q : EventQueue) : res EventQueue :=
  if 0 <? eq_lazyFreeCycle q then
    if eq_lazyFreeCycle q =? 1 then freeFirst q (eq_oldIdx q)
    else if eq_cycle q mod eq_lazyFreeCycle q =? 0 then freeFirst q (eq_size q)
    else Ok q
  else Ok q.

(** What [Get] returns: the first [sz] places of one of the two arrays, or a new
    slice. *)
Inductive batch :=
| View (left_ : bool) (sz : Z)
| Fresh (l : list GEvent).

(** The events the holder of a batch sees in the queue [q]. *)
Definition read_batch (q : EventQueue) (b : batch) : list GEvent :=
  match b with
  | View left_ sz => take (Z.to_nat sz) (if left_ then eq_left q else eq_right q)
  | Fresh l => l
  end.

(** [pkg/raft/raftgroup/event_queue.go] [(q *EventQueue) Get] *)
Definition Get (q : EventQueue) : res (EventQueue * batch) :=
  let q := {| q with eq_cycle := eq_cycle q +64 1 |} in
  let sz := eq_idx q in
  let q := {| q with eq_idx := 0 |} in
  let t := targetQueue q in
  let tLeft := eq_leftInWrite q in
  let q := {| q with eq_leftInWrite := negb (eq_leftInWrite q) |} in
  let! q := gc q in
  let q := {| q with eq_oldIdx := sz |} in
  let q := if Enabled (eq_rl q) then {| q with eq_rl := rl_Set (eq_rl q) 0 |} else q in
  let! view := slice_to t sz in
  if len (eq_nodrop q) =? 0 then Ok (q, View tLeft sz)
  else
    let result := eq_nodrop q ++ view in
    Ok ({| q with eq_nodrop := [] |}, Fresh result).
End QueueOps.

(** ** The abstract queue *)

(** The events that must be delivered, the events that were accepted, and the
    batch that was taken last. *)
Record aqueue := mkAQueue {
  aq_must : list GEvent;
  aq_adds : list GEvent;
  aq_batch : list GEvent
}.

Definition a_empty : aqueue := mkAQueue [] [] [].

Definition bytes_of (l : list GEvent) : Z := foldr (fun m s => Event_Size (ge_Event m) + s) 0 l.

Inductive qop :=
| QAdd (m : GEvent)
| QMustAdd (m : GEvent)
| QGet.

(** An event is accepted when there is room, and when the bytes accepted since
    the last [Get] do not exceed the limit. *)
Definition a_accepts (size max : Z) (a : aqueue) : bool :=
  (len (aq_adds a) <? size) &&
  negb (Enabled (NewRateLimiter max) && (max <? u64 (bytes_of (aq_adds a)))).

Definition a_step (size max : Z) (a : aqueue) (op : qop) : aqueue * bool :=
  match op with
  | QAdd m => if a_accepts size max a
              then ({| a with aq_adds := aq_adds a ++ [m] |}, true) else (a, false)
  | QMustAdd m => ({| a with aq_must := aq_must a ++ [m] |}, true)
  | QGet => (mkAQueue [] [] (aq_must a ++ aq_adds a), true)
  end.

(** The observations of a run: what every operation answers, and what the holder
    of the last batch sees after it. *)
Fixpoint a_run (size max : Z) (a : aqueue) (ops : list qop)
  : aqueue * list (bool * list GEvent) :=
  match ops with
  | [] => (a, [])
  | op :: rest =>
      let '(a, ok) := a_step size max a op in
      let '(a', obs) := a_run size max a rest in (a', (ok, aq_batch a) :: obs)
  end.

Section Refinement.
Context (growslice : Z -> Z -> Z).

Definition q_step (q : EventQueue) (b : batch) (op : qop) : res (EventQueue * batch * bool) :=
  match op with
  | QAdd m => let! (q, ok) := Add q m in Ok (q, b, ok)
  | QMustAdd m => Ok (MustAdd growslice q m, b, true)
  | QGet => let! (q, b) := Get q in Ok (q, b, true)
  end.

Fixpoint q_run (q : EventQueue) (b : batch) (ops : list qop)
  : res (EventQueue * batch * list (bool * list GEvent)) :=
  match ops with
  | [] => Ok (q, b, [])
  | op :: rest =>
      let! (q, b, ok) := q_step q b op in
      let! (q', b', obs) := q_run q b rest in Ok (q', b', (ok, read_batch q b) :: obs)
  end.

(** The correspondence; the batch that was taken is not in the array that is
    written. *)
Record represents (size max : Z) (q : EventQueue) (b : batch) (a : aqueue) : Prop := {
  rp_size : eq_size q = size;
  rp_max : rl_maxSize (eq_rl q) = max;
  rp_left : len (eq_left q) = size;
  rp_right : len (eq_right q) = size;
  rp_idx : 0 <= eq_idx q <= size;
  rp_oldIdx : 0 <= eq_oldIdx q <= size;
  rp_must : eq_nodrop q = aq_must a;
  rp_adds : take (Z.to_nat (eq_idx q)) (targetQueue q) = aq_adds a;
  rp_bytes : Enabled (eq_rl q) = true -> rl_size (eq_rl q) = u64 (bytes_of (aq_adds a));
  rp_batch : read_batch q b = aq_batch a;
  rp_apart : match b with View left_ _ => left_ = negb (eq_leftInWrite q) | Fresh _ => True end
}.

Lemma represents_new size ch lfc max :
  0 <= size -> represents size max (NewEventQueue size ch lfc max) (Fresh []) a_empty.
Proof. intros. constructor; simpl; rewrite ?length_replicate; try done; lia. Qed.

Lemma bytes_of_app l m : bytes_of (l ++ [m]) = bytes_of l + Event_Size (ge_Event m).
Proof. induction l as [|x l IH]; simpl; [lia|]. rewrite IH. lia. Qed.

Lemma targetQueue_length size max q b a :
  represents size max q b a -> len (targetQueue q) = size.
Proof. intros []. unfold targetQueue. by destruct (eq_leftInWrite q). Qed.

(** The number of the pending events is the write index. *)
Lemma adds_length size max q b a :
  represents size max q b a -> len (aq_adds a) = eq_idx q.
Proof.
  intros H. rewrite <-(rp_adds _ _ _ _ _ H), length_take.
  pose proof (targetQueue_length _ _ _ _ _ H). pose proof (rp_idx _ _ _ _ _ H). lia.
Qed.

Lemma Enabled_max r r' : rl_maxSize r = rl_maxSize r' -> Enabled r = Enabled r'.
Proof. unfold Enabled. by intros ->. Qed.

(** The test of the rate limiter is the one of the abstract queue. *)
Lemma RateLimited_spec size max q b a :
  represents size max q b a ->
  RateLimited (eq_rl q) =
  Enabled (NewRateLimiter max) && (max <? u64 (bytes_of (aq_adds a))).
Proof.
  intros H. pose proof (rp_max _ _ _ _ _ H) as Hm. unfold RateLimited.
  rewrite (Enabled_max (NewRateLimiter max) (eq_rl q)) by (by rewrite Hm).
  destruct (Enabled (eq_rl q)) eqn:E; simpl; [|done].
  by rewrite Hm, (rp_bytes _ _ _ _ _ H E).
Qed.

Lemma tryAdd_spec size max q b a m :
  represents size max q b a ->
  tryAdd q m =
  (if RateLimited (eq_rl q) then (q, false)
   else ({| q with eq_rl := if Enabled (eq_rl q)
                            then Increase (eq_rl q) (Event_Size (ge_Event m)) else eq_rl q |}, true)).
Proof.
  intros H. unfold tryAdd, RateLimited. destruct (Enabled (eq_rl q)); simpl.
  - by destruct (_ <? _).
  - by destruct q.
Qed.

(** Writing at the end of a prefix extends it. *)
Lemma take_insert_end {A} (l : list A) i x :
  (i < length l)%nat -> take (S i) (<[i := x]> l) = take i l ++ [x].
Proof.
  intros Hi. rewrite (take_S_r _ _ x).
  - by rewrite take_insert_ge by lia.
  - by rewrite list_lookup_insert_eq.
Qed.

Lemma Add_spec size max q b a m :
  size < two63 -> represents size max q b a ->
  let '(a', ok) := a_step size max a (QAdd m) in
  exists q', Add q m = Ok (q', ok) /\ represents size max q' b a'.
Proof.
  intros Hs H. pose proof (adds_length _ _ _ _ _ H) as Hl.
  pose proof (targetQueue_length _ _ _ _ _ H) as Ht.
  pose proof (RateLimited_spec _ _ _ _ _ H) as HR. pose proof (rp_size _ _ _ _ _ H) as Hsz.
  pose proof (rp_idx _ _ _ _ _ H) as Hi.
  unfold a_step, a_accepts, Add. rewrite Hl, Hsz, <-HR.
  destruct (Z.leb_spec size (eq_idx q)); destruct (Z.ltb_spec (eq_idx q) size); try lia; simpl.
  { eauto. }
  rewrite (tryAdd_spec _ _ _ _ _ m H). destruct (RateLimited (eq_rl q)); simpl; [eauto|].
  change (targetQueue {| q with eq_rl := _ |}) with (targetQueue q).
  rewrite Ht. destruct (Z.leb_spec 0 (eq_idx q)); [|lia].
  destruct (Z.ltb_spec (eq_idx q) size); [|lia]. simpl. eexists. split; [done|].
  assert (HT : take (S (Z.to_nat (eq_idx q))) (<[Z.to_nat (eq_idx q) := m]> (targetQueue q)) =
               aq_adds a ++ [m]).
  { rewrite take_insert_end by lia. by rewrite (rp_adds _ _ _ _ _ H). }
  destruct H as [_ ? ? ? ? ? ? ? HB ? Hb].
  unfold set_target, targetQueue in *. destruct (eq_leftInWrite q) eqn:E; simpl in *;
    constructor; simpl; rewrite ?E, ?length_insert; try done; try lia;
    try (by destruct (Enabled (eq_rl q))); rewrite ?u64_small by (unfold is_u64; lia); try lia.
  all: try (rewrite <-HT; f_equal; lia).
  all: try (intros HE; rewrite bytes_of_app; destruct (Enabled (eq_rl q)) eqn:E';
            [simpl; rewrite HB by done; ints | congruence]).
  all: destruct b; simpl in *; subst; simpl in *; done.
Qed.

Lemma MustAdd_spec size max q b a m :
  represents size max q b a ->
  represents size max (MustAdd growslice q m) b (a_step size max a (QMustAdd m)).1.
Proof.
  intros H. unfold MustAdd, shrinkNodropArray. cbv zeta. simpl.
  destruct (Z.eqb_spec (len (eq_nodrop q ++ [m])) 0) as [E|_].
  { rewrite length_app in E. simpl in E. lia. }
  destruct H. destruct (_ <? _); constructor; simpl; try done; congruence.
Qed.

(** Releasing logs touches the array that is written, beyond no pending event. *)
Lemma freeFirst_spec q k :
  k <= len (targetQueue q) ->
  exists l, length l = length (targetQueue q) /\ freeFirst q k = Ok (set_target q l).
Proof.
  intros Hk. unfold freeFirst. destruct (Z.leb_spec k (len (targetQueue q))); [|lia].
  eexists. split; [|done]. rewrite length_app, length_fmap, length_take, length_drop. lia.
Qed.

Lemma set_target_id q : set_target q (targetQueue q) = q.
Proof. unfold set_target, targetQueue. destruct q as [????????[]]; done. Qed.

Lemma gc_spec size q :
  eq_size q = size -> len (targetQueue q) = size -> eq_oldIdx q <= size ->
  exists l, length l = length (targetQueue q) /\ gc q = Ok (set_target q l).
Proof.
  intros <- Hl Ho. unfold gc.
  destruct (_ <? _); [destruct (_ =? 1); [|destruct (_ =? 0)]|].
  1,2: apply freeFirst_spec; lia.
  all: exists (targetQueue q); by rewrite set_target_id.
Qed.

(** Where the two arrays are after [gc] wrote [l] over the one that is written
    next. *)
Definition after_get (q : EventQueue) (l : list GEvent) : EventQueue :=
  {| q with
     eq_rl := if Enabled (eq_rl q) then rl_Set (eq_rl q) 0 else eq_rl q;
     eq_left := if eq_leftInWrite q then eq_left q else l;
     eq_right := if eq_leftInWrite q then l else eq_right q;
     eq_nodrop := [];
     eq_leftInWrite := negb (eq_leftInWrite q);
     eq_idx := 0; eq_oldIdx := eq_idx q; eq_cycle := eq_cycle q +64 1 |}.

(** Evaluates the projections of known queues. *)
Ltac queue_cbv :=
  cbv [after_get set_target targetQueue negb res_bind eq_ch eq_rl eq_lazyFreeCycle eq_size
       eq_left eq_right eq_nodrop eq_nodropCap eq_leftInWrite eq_idx eq_oldIdx eq_cycle] in *.

Lemma Get_eq size max q b a :
  represents size max q b a ->
  exists l, len l = size /\
  Get q = Ok (after_get q l,
              if len (eq_nodrop q) =? 0 then View (eq_leftInWrite q) (eq_idx q)
              else Fresh (eq_nodrop q ++ aq_adds a)).
Proof.
  intros H. pose proof (targetQueue_length _ _ _ _ _ H) as Ht.
  pose proof (rp_adds _ _ _ _ _ H) as HA. unfold Get. cbv zeta.
  match goal with |- context [gc ?q1] =>
    destruct (gc_spec size q1) as (l & Hl & ->); [apply H| |apply H|] end.
  { destruct H. unfold targetQueue. simpl. by destruct (eq_leftInWrite q). }
  exists l. split.
  { rewrite Hl. destruct H. unfold targetQueue. simpl. by destruct (eq_leftInWrite q). }
  destruct H as [_ _ _ _ Hi _ _ _ _ _ _].
  destruct q as [ch rl lfc sz left right nodrop cap liw idx oldIdx cyc].
  destruct liw; queue_cbv; rewrite slice_to_Ok by lia; cbv [res_bind]; rewrite HA;
    destruct (Enabled rl), nodrop; reflexivity.
Qed.

Lemma Get_spec size max q b a :
  represents size max q b a ->
  exists q' b', Get q = Ok (q', b') /\ represents size max q' b' (a_step size max a QGet).1.
Proof.
  intros H. destruct (Get_eq _ _ _ _ _ H) as (l & Hl & ->). do 2 eexists. split; [done|].
  destruct H as [Hs Hm HL HR Hi Ho HM HA HB _ _].
  unfold after_get, targetQueue in *. simpl. rewrite <-HM.
  destruct q as [ch rl lfc sz left right nodrop cap liw idx oldIdx cyc]. simpl in *.
  destruct liw, (Enabled rl) eqn:E, nodrop; constructor; simpl; try done; try lia;
    rewrite ?E; congruence.
Qed.

Lemma q_step_spec size max q b a op :
  size < two63 -> represents size max q b a ->
  let '(a', ok) := a_step size max a op in
  exists q' b', q_step q b op = Ok (q', b', ok) /\ represents size max q' b' a'.
Proof.
  intros Hs H. destruct op as [m|m|]; simpl q_step.
  - pose proof (Add_spec size max q b a m Hs H) as HS. destruct (a_step _ _ _ _) as [a' ok].
    destruct HS as (q' & -> & H'). simpl. eauto.
  - pose proof (MustAdd_spec size max q b a m H). simpl in *. eauto.
  - destruct (Get_spec size max q b a H) as (q' & b' & -> & H'). simpl in *. eauto.
Qed.

Lemma q_run_spec size max ops q b a :
  size < two63 -> represents size max q b a ->
  let '(a', obs) := a_run size max a ops in
  exists q' b', q_run q b ops = Ok (q', b', obs) /\ represents size max q' b' a'.
Proof.
  intros Hs. revert q b a. induction ops as [|op ops IH]; intros q b a H; simpl; [eauto|].
  pose proof (q_step_spec size max q b a op Hs H) as HS. destruct (a_step _ _ _ _) as [a1 ok].
  destruct HS as (q1 & b1 & -> & H1). simpl. specialize (IH q1 b1 a1 H1).
  destruct (a_run size max a1 ops) as [a2 obs]. destruct IH as (q2 & b2 & -> & H2). simpl.
  rewrite (rp_batch _ _ _ _ _ H1). eauto.
Qed.
End Refinement.

(** ** The bytes of the pending events *)

Lemma addIf_range c k s : is_u64 s -> is_u64 (addIf c k s).
Proof. unfold addIf. destruct c; auto with go_ints. Qed.

Lemma addLogs_range logs s : is_u64 s -> is_u64 (addLogs logs s).
Proof.
  unfold addLogs. destruct (_ <? _); [|done]. intros _.
  generalize (u64_range (s + 4)). generalize (s +64 4).
  induction logs as [|l logs IH]; intros z Hz; simpl; auto with go_ints.
Qed.

Lemma Event_Size_range e : is_u64 (Event_Size e).
Proof. unfold Event_Size. cbv zeta. repeat first [apply addIf_range | apply addLogs_range]. done. Qed.

Lemma bytes_of_nonneg l : 0 <= bytes_of l.
Proof.
  induction l as [|m l IH]; simpl; [lia|].
  pose proof (Event_Size_range (ge_Event m)) as H. unfold is_u64 in H. lia.
Qed.

(** Accepted bytes go past the limit by less than one event. *)
Lemma a_run_bytes size max S ops a :
  0 < max -> 0 <= S -> max + S < two64 - 1 ->
  (forall m, QAdd m ∈ ops -> Event_Size (ge_Event m) <= S) ->
  bytes_of (aq_adds a) <= max + S ->
  bytes_of (aq_adds (a_run size max a ops).1) <= max + S.
Proof.
  intros Hm HS Hb. revert a. induction ops as [|op ops IH]; intros a Hops Ha; simpl; [done|].
  destruct (a_step size max a op) as [a1 ok] eqn:E.
  destruct (a_run size max a1 ops) as [a2 obs] eqn:E2. simpl.
  replace a2 with (a_run size max a1 ops).1 by by rewrite E2.
  apply IH; [intros m Hm'; apply Hops; by constructor|].
  destruct op as [m|m|]; simpl in E; [|injection E as <- _; simpl; done|injection E as <- _; simpl; lia].
  destruct (a_accepts size max a) eqn:Ha1; injection E as <- _; simpl; [|done].
  rewrite bytes_of_app. pose proof (Hops m ltac:(constructor)).
  unfold a_accepts in Ha1. apply andb_prop in Ha1 as [_ Ha1].
  assert (HE : Enabled (NewRateLimiter max) = true).
  { unfold Enabled. simpl. destruct (Z.ltb_spec 0 max), (Z.eqb_spec max (two64 - 1)); simpl; lia. }
  rewrite HE in Ha1. simpl in Ha1. pose proof (bytes_of_nonneg (aq_adds a)).
  rewrite u64_small in Ha1 by (unfold is_u64; lia).
  destruct (Z.ltb_spec max (bytes_of (aq_adds a))); simpl in Ha1; [done|lia].
Qed.

(** ** Theorems *)

Module GroupQueueProps.

Definition ev (k : string) (i : Z) : GEvent :=
  mkGEvent k {| emptyEvent with ev_Type := Ping; ev_Index := i |} None.

Definition doubling (cap n : Z) : Z := Z.max n (2 * cap).

(** C36.  The event queue of a group refines the abstract queue, for every size,
    release cycle, limit and sequence of operations.  No operation panics.  An
    event is accepted by [Add] exactly when there is room and the limit is not
    passed, [MustAdd] always takes it, and [Get] hands out everything that is
    pending, once: the events of [MustAdd] first, each group in the order of its
    arrival.  What the loop sees in the batch it took, of which it holds a slice
    of a shared array, stays what it was until it takes the next one, whatever is
    added meanwhile. *)
Theorem event_queue_refines growslice (size : Z) (ch : bool) (lazyFreeCycle max : Z)
    (ops : list qop) :
  0 <= size < two63 ->
  returns (q_run growslice (NewEventQueue size ch lazyFreeCycle max) (Fresh []) ops)
    (fun '(q, b, obs) =>
       let '(a, obs') := a_run size max a_empty ops in
       obs = obs' /\ eq_nodrop q = aq_must a /\
       take (Z.to_nat (eq_idx q)) (targetQueue q) = aq_adds a).
Proof.
  intros [H0 Hs].
  pose proof (q_run_spec growslice size max ops _ _ _ Hs (represents_new size ch lazyFreeCycle max H0))
    as HR.
  destruct (a_run size max a_empty ops) as [a obs]. destruct HR as (q & b & -> & H).
  eexists. split; [done|]. split; [done|]. split; apply H.
Qed.

Lemma event_queue_refines_witness :
  exists q b,
    q_run doubling (NewEventQueue 2 false 1 0) (Fresh [])
      [QAdd (ev "a" 1); QMustAdd (ev "b" 2); QGet; QAdd (ev "a" 3); QAdd (ev "a" 4);
       QAdd (ev "a" 5); QGet; QAdd (ev "b" 6)] =
    Ok (q, b,
        [(true, []); (true, []); (true, [ev "b" 2; ev "a" 1]);
         (true, [ev "b" 2; ev "a" 1]); (true, [ev "b" 2; ev "a" 1]);
         (false, [ev "b" 2; ev "a" 1]); (true, [ev "a" 3; ev "a" 4]);
         (true, [ev "a" 3; ev "a" 4])]).
Proof.
  destruct (event_queue_refines doubling 2 false 1 0
      [QAdd (ev "a" 1); QMustAdd (ev "b" 2); QGet; QAdd (ev "a" 3); QAdd (ev "a" 4);
       QAdd (ev "a" 5); QGet; QAdd (ev "b" 6)] ltac:(lia)) as ([[q b] obs] & Hq & H & _).
  exists q, b. rewrite Hq, H. reflexivity.
Defined.

(** C39.  The rate limiter bounds the memory of the events that may be dropped:
    when the limit leaves room for one event below 2^64, the bytes of the events
    accepted by [Add] and not yet taken exceed the limit by at most the size of
    one event. *)
Theorem rate_limit_bound growslice (size : Z) (ch : bool) (lazyFreeCycle max S : Z)
    (ops : list qop) :
  0 <= size < two63 -> 0 < max -> 0 <= S -> max + S < two64 - 1 ->
  (forall m, QAdd m ∈ ops -> Event_Size (ge_Event m) <= S) ->
  returns (q_run growslice (NewEventQueue size ch lazyFreeCycle max) (Fresh []) ops)
    (fun '(q, _, _) =>
       bytes_of (take (Z.to_nat (eq_idx q)) (targetQueue q)) <= max + S).
Proof.
  intros [H0 Hs] Hm HS Hb Hops.
  pose proof (q_run_spec growslice size max ops _ _ _ Hs (represents_new size ch lazyFreeCycle max H0))
    as HR.
  pose proof (a_run_bytes size max S ops a_empty Hm HS Hb Hops ltac:(simpl; lia)) as HB.
  destruct (a_run size max a_empty ops) as [a obs]. destruct HR as (q & b & -> & H).
  eexists. split; [done|]. cbv beta iota. rewrite (rp_adds _ _ _ _ _ H). done.
Qed.

Lemma rate_limit_bound_witness :
  returns (q_run doubling (NewEventQueue 8 false 0 20) (Fresh [])
             [QAdd (ev "a" 1); QAdd (ev "a" 2); QAdd (ev "a" 3); QAdd (ev "a" 4)])
    (fun '(q, _, _) =>
       bytes_of (take (Z.to_nat (eq_idx q)) (targetQueue q)) <= 20 + 14).
Proof.
  apply rate_limit_bound; try lia.
  intros m Hm. repeat (apply elem_of_cons in Hm as [[= ->]|Hm]; [vm_compute; congruence|]).
  by apply not_elem_of_nil in Hm.
Defined.
End GroupQueueProps.
