(* ===== verification/GroupList.v ===== *)
(** * The list of the rafts of a group

    [pkg/raft/raftgroup/list.go]: a singly linked list with a tail pointer.  The
    nodes live in a heap, so that the pointers of the source are pointers here:
    [push] writes through the tail, [remove] through the predecessor, and a
    removed node keeps its own [next].

    - The loops of the source are instances of [for_nodes].
    - [is_list]: the list of rafts a linked list stands for.
    - [GroupListProps]: the operations refine a list of rafts with distinct keys
      for every sequence of operations. *)

From S2P Require Import Prelude.

Section LinkedList.
(** The rafts: [IRaft] is an interface, of which the list uses the key. *)
Context {R : Type} (Key : R -> string).

(** ** Data *)

(** [pkg/raft/raftgroup/list.go] [raftNode] *)
Record raftNode := mkRaftNode {
  rn_key : string;
  rn_raft : R;
  rn_next : option nat
}.

(** [pkg/raft/raftgroup/list.go] [linkedList]

    With the heap its nodes live in; a new node gets the next address. *)
Record linkedList := mkLinkedList {
  ll_heap : gmap nat raftNode;
  ll_free : nat;
  ll_head : option nat;
  ll_tail : option nat
}.

(** [pkg/raft/raftgroup/list.go] [newLinkedList] *)
Definition newLinkedList : linkedList := mkLinkedList ∅ 0 None None.

(** ** Operations *)

(** [for node := head; node != nil; node = node.next { body }]: the body goes on
    with a new value of its variables ([inl]) or returns ([inr]). *)
Fixpoint for_nodes {A B} (fuel : nat) (h : gmap nat raftNode)
    (body : A -> nat -> raftNode -> A + B) (acc : A) (node : option nat) : res (A + B) :=
  match fuel with
  | O => NoFuel
  | S fuel =>
      match node with
      | None => Ok (inl acc)
      | Some p =>
          match h !! p with
          | None => Panic
          | Some nd =>
              match body acc p nd with
              | inr b => Ok (inr b)
              | inl acc => for_nodes fuel h body acc (rn_next nd)
              end
          end
      end
  end.

(** A list has at most as many nodes as its heap. *)
Definition from_head {A B} (ll : linkedList) (body : A -> nat -> raftNode -> A + B) (acc : A)
  : res (A + B) :=
  for_nodes (S (size (ll_heap ll))) (ll_heap ll) body acc (ll_head ll).

(** [pkg/raft/raftgroup/list.go] [(ll *linkedList) existNoLock] *)
Definition existNoLock (ll : linkedList) (key : string) : res bool :=
  let! r := from_head ll (fun _ _ nd => if bool_decide (rn_key nd = key) then inr true
                                        else inl tt) tt in
  match r with
  | inr b => Ok b
  | inl _ => Ok false
  end.

(** An assignment to [p.next]. *)
Definition set_next (ll : linkedList) (p : nat) (next : option nat) : res linkedList :=
  match ll_heap ll !! p with
  | None => Panic
  | Some nd => Ok {| ll with ll_heap := <[p := {| nd with rn_next := next |}]> (ll_heap ll) |}
  end.

(** [pkg/raft/raftgroup/list.go] [(ll *linkedList) push] *)
Definition push (ll : linkedList) (raft : R) : res linkedList :=
  let! found := existNoLock ll (Key raft) in
  if found then Ok ll
  else
    let node := ll_free ll in
    let ll := {| ll with ll_heap := <[node := mkRaftNode (Key raft) raft None]> (ll_heap ll);
                         ll_free := S node |} in
    let! ll := match ll_tail ll with
               | Some tail => set_next ll tail (Some node)
               | None => Ok {| ll with ll_head := Some node |}
               end in
    Ok {| ll with ll_tail := Some node |}.

(** [pkg/raft/raftgroup/list.go] [(ll *linkedList) remove] *)
Definition remove (ll : linkedList) (key : string) : res linkedList :=
  let! r := from_head ll
    (fun prev p node =>
       if bool_decide (Key (rn_raft node) = key) then inr (prev, node) else inl (Some p))
    None in
  match r with
  | inl _ => Ok ll
  | inr (prev, node) =>
      let! ll := match prev with
                 | Some p => set_next ll p (rn_next node)
                 | None => Ok {| ll with ll_head := rn_next node |}
                 end in
      Ok (match rn_next node with
          | None => {| ll with ll_tail := prev |}
          | Some _ => ll
          end)
  end.

(** [pkg/raft/raftgroup/list.go] [(ll *linkedList) get] *)
Definition get (ll : linkedList) (key : string) : res (option R) :=
  let! r := from_head ll (fun _ _ nd => if bool_decide (rn_key nd = key)
                                        then inr (rn_raft nd) else inl tt) tt in
  match r with
  | inr raft => Ok (Some raft)
  | inl _ => Ok None
  end.

(** [pkg/raft/raftgroup/list.go] [(ll *linkedList) count] *)
Definition count (ll : linkedList) : res Z :=
  let! r := from_head (B := Empty_set) ll (fun n _ _ => inl (n + 1)) 0 in
  match r with
  | inl n => Ok n
  | inr e => match e with end
  end.

(** [pkg/raft/raftgroup/list.go] [(h *linkedList) readHandlers] *)
Definition readHandlers (ll : linkedList) (rafts : list R) : res (list R) :=
  let! r := from_head (B := Empty_set) ll (fun rafts _ nd => inl (rafts ++ [rn_raft nd])) rafts in
  match r with
  | inl rafts => Ok rafts
  | inr e => match e with end
  end.

(** [pkg/raft/raftgroup/list.go] [(h *linkedList) all] *)
Definition all (ll : linkedList) : res (list R) := readHandlers ll [].

(** ** The rafts of a list *)

(** The nodes reached from a pointer, in order. *)
Inductive chain (h : gmap nat raftNode) : option nat -> list (nat * raftNode) -> Prop :=
| chain_nil : chain h None []
| chain_cons p nd l :
    h !! p = Some nd -> chain h (rn_next nd) l -> chain h (Some p) ((p, nd) :: l).

(** The list of rafts a linked list stands for. *)
Record is_list (ll : linkedList) (rafts : list R) (cells : list (nat * raftNode)) : Prop := {
  il_chain : chain (ll_heap ll) (ll_head ll) cells;
  il_nodup : NoDup cells.*1;
  il_tail : ll_tail ll = last cells.*1;
  il_rafts : rn_raft <$> cells.*2 = rafts;
  il_keys : Forall (fun c => rn_key c.2 = Key (rn_raft c.2)) cells;
  il_free : forall p, is_Some (ll_heap ll !! p) -> (p < ll_free ll)%nat;
  il_distinct : NoDup (Key <$> rafts)
}.

(** A loop over the cells. *)
Fixpoint loop {A B} (body : A -> nat -> raftNode -> A + B) (acc : A)
    (cells : list (nat * raftNode)) : A + B :=
  match cells with
  | [] => inl acc
  | (p, nd) :: rest =>
      match body acc p nd with
      | inr b => inr b
      | inl acc => loop body acc rest
      end
  end.

Lemma chain_in_heap h o cells p nd : chain h o cells -> (p, nd) ∈ cells -> h !! p = Some nd.
Proof.
  induction 1 as [|q nd' l Hq _ IH]; [by intros ?%not_elem_of_nil|].
  intros [[= -> ->]|]%elem_of_cons; auto.
Qed.

(** Distinct cells of a heap are at most as many as the heap has. *)
Lemma chain_length h o cells :
  chain h o cells -> NoDup cells.*1 -> (length cells <= size h)%nat.
Proof.
  intros Hc Hn. rewrite <-(length_fmap fst), <-(size_list_to_set (C := gset nat)) by done.
  rewrite <-size_dom. apply subseteq_size. intros p Hp.
  apply elem_of_list_to_set, list_elem_of_fmap in Hp as ([q nd] & -> & Hin).
  apply elem_of_dom. simpl. rewrite (chain_in_heap _ _ _ _ _ Hc Hin). eauto.
Qed.

Lemma for_nodes_spec {A B} h (body : A -> nat -> raftNode -> A + B) o cells fuel acc :
  chain h o cells -> (length cells < fuel)%nat ->
  for_nodes fuel h body acc o = Ok (loop body acc cells).
Proof.
  intros Hc. revert fuel acc. induction Hc as [|p nd l Hp _ IH]; intros [|fuel] acc Hf;
    simpl in *; try lia; [done|].
  rewrite Hp. destruct (body acc p nd); [|done]. apply IH. lia.
Qed.

(** Every loop over a list terminates, and is a loop over its cells. *)
Lemma from_head_spec {A B} ll rafts cells (body : A -> nat -> raftNode -> A + B) acc :
  is_list ll rafts cells -> from_head ll body acc = Ok (loop body acc cells).
Proof.
  intros [Hc Hn]. apply for_nodes_spec; [done|].
  pose proof (chain_length _ _ _ Hc Hn). lia.
Qed.

(** ** What the operations do to the list of rafts *)

Definition l_push (r : R) (l : list R) : list R :=
  if bool_decide (Key r ∈ Key <$> l) then l else l ++ [r].
Definition l_remove (k : string) (l : list R) : list R := filter (fun r => Key r ≠ k) l.
Definition l_get (k : string) (l : list R) : option R := head (filter (fun r => Key r = k) l).

Lemma chain_ext h h' o cells :
  (forall p, p ∈ cells.*1 -> h' !! p = h !! p) -> chain h o cells -> chain h' o cells.
Proof.
  intros He Hc. revert He. induction Hc as [|p nd l Hp _ IH]; intros He; constructor.
  - rewrite He; [done|]. simpl. constructor.
  - apply IH. intros q Hq. apply He. simpl. by constructor.
Qed.

(** Writing the [next] of a cell replaces what follows it. *)
Lemma chain_relink h h' o pre p nd post next post' :
  chain h o (pre ++ (p, nd) :: post) ->
  (forall q, q ∈ pre.*1 -> h' !! q = h !! q) ->
  h' !! p = Some {| nd with rn_next := next |} -> chain h' next post' ->
  chain h' o (pre ++ (p, {| nd with rn_next := next |}) :: post').
Proof.
  intros Hc He Hp Hpost. revert o Hc He.
  induction pre as [|[q nq] pre IH]; intros o Hc He; simpl in *; inversion Hc; subst.
  - by constructor.
  - constructor; [rewrite He; [done|constructor]|]. apply IH; [done|].
    intros x Hx. apply He. by constructor.
Qed.

Lemma existNoLock_spec ll rafts cells k :
  is_list ll rafts cells ->
  existNoLock ll k = Ok (bool_decide (k ∈ Key <$> rafts)).
Proof.
  intros H. unfold existNoLock. rewrite (from_head_spec _ _ _ _ _ H). simpl.
  destruct H as [_ _ _ <- Hk _ _]. induction Hk as [|[p nd] l Hnd _ IH]; simpl in *; [done|].
  rewrite Hnd. destruct (decide (Key (rn_raft nd) = k)) as [E|E].
  - rewrite (bool_decide_eq_true_2 _ E). simpl. f_equal. symmetry.
    apply bool_decide_eq_true_2. rewrite E. constructor.
  - rewrite (bool_decide_eq_false_2 _ E). simpl. rewrite IH. f_equal.
    apply bool_decide_ext. rewrite elem_of_cons. split; [auto|by intros [->|]].
Qed.

Lemma get_spec ll rafts cells k :
  is_list ll rafts cells -> get ll k = Ok (l_get k rafts).
Proof.
  intros H. unfold get, l_get. rewrite (from_head_spec _ _ _ _ _ H). simpl.
  destruct H as [_ _ _ <- Hk _ _]. induction Hk as [|[p nd] l Hnd _ IH]; simpl in *; [done|].
  rewrite Hnd, filter_cons. case_bool_decide; case_decide; done.
Qed.

Lemma count_spec ll rafts cells : is_list ll rafts cells -> count ll = Ok (len rafts).
Proof.
  intros H. unfold count. rewrite (from_head_spec _ _ _ _ _ H).
  destruct H as [_ _ _ <- _ _ _]. simpl.
  assert (HL : forall n, loop (B := Empty_set) (fun n _ _ => inl (n + 1)) n cells = inl (n + len cells)).
  { induction cells as [|[p nd] l IH]; intros n; simpl; [f_equal; lia|].
    rewrite IH. f_equal. lia. }
  rewrite HL. f_equal. rewrite !length_fmap. lia.
Qed.

Lemma readHandlers_spec ll rafts cells acc :
  is_list ll rafts cells -> readHandlers ll acc = Ok (acc ++ rafts).
Proof.
  intros H. unfold readHandlers. rewrite (from_head_spec _ _ _ _ _ H).
  destruct H as [_ _ _ <- _ _ _]. simpl. revert acc.
  induction cells as [|[p nd] l IH]; intros acc; simpl; [by rewrite app_nil_r|].
  rewrite IH. by rewrite <-app_assoc.
Qed.

Lemma newLinkedList_spec : is_list newLinkedList [] [].
Proof.
  constructor; simpl; try done; try constructor.
  intros p [nd Hp]. by rewrite lookup_empty in Hp.
Qed.

(** The next address is not in use. *)
Lemma fresh_cell ll rafts cells :
  is_list ll rafts cells -> ll_heap ll !! ll_free ll = None /\ ll_free ll ∉ cells.*1.
Proof.
  intros [Hc _ _ _ _ Hf _]. assert (Hp : ll_heap ll !! ll_free ll = None).
  { destruct (ll_heap ll !! ll_free ll) eqn:E; [|done].
    pose proof (Hf (ll_free ll) ltac:(eauto)). lia. }
  split; [done|]. intros ([q nd] & Hq & Hin)%list_elem_of_fmap. simpl in *.
  by rewrite Hq, (chain_in_heap _ _ _ _ _ Hc Hin) in Hp.
Qed.

Lemma distinct_snoc l r :
  NoDup (Key <$> l) -> Key r ∉ Key <$> l -> NoDup (Key <$> l ++ [r]).
Proof.
  intros Hd Hin. rewrite fmap_app. apply NoDup_app. split; [done|]. split.
  - intros x Hx ->%list_elem_of_singleton. done.
  - apply NoDup_singleton.
Qed.

Lemma push_spec ll rafts cells r :
  is_list ll rafts cells ->
  exists ll' cells', push ll r = Ok ll' /\ is_list ll' (l_push r rafts) cells'.
Proof.
  intros H. unfold push, l_push. rewrite (existNoLock_spec _ _ _ _ H). simpl.
  case_bool_decide as Hin; [eauto|].
  destruct (fresh_cell _ _ _ H) as [Hp Hpc].
  destruct H as [Hc Hn Ht Hr Hk Hf Hd]. pose proof (distinct_snoc _ _ Hd Hin) as Hd'.
  set (new := mkRaftNode (Key r) r None). set (p := ll_free ll) in *.
  destruct cells as [|[t nd] pre _] using rev_ind.
  - simpl in *. rewrite Ht. simpl in *. subst rafts. eexists _, [(p, new)]. split; [done|].
    constructor; simpl; try done.
    + inversion Hc. subst. econstructor; [by rewrite lookup_insert_eq|constructor].
    + apply NoDup_singleton.
    + repeat constructor.
    + intros q [? [[<- _]|[_ ?]]%lookup_insert_Some]; [lia|]. apply Nat.lt_lt_succ_r, Hf. eauto.
  - rewrite fmap_app in Ht. simpl in Ht. rewrite last_snoc in Ht. rewrite Ht. unfold set_next. simpl.
    assert (Hpt : p ≠ t). { intros ->. apply Hpc. rewrite fmap_app. set_solver. }
    rewrite lookup_insert_ne by done.
    rewrite (chain_in_heap _ _ _ t nd Hc) by set_solver. simpl.
    eexists _, (pre ++ [(t, {| nd with rn_next := Some p |}); (p, new)]). split; [done|].
    rewrite fmap_app in Hn. apply NoDup_app in Hn as (Hn1 & Hn2 & _).
    constructor; simpl.
    + eapply chain_relink; [exact Hc| |by rewrite lookup_insert_eq|].
      * intros q Hq. rewrite !lookup_insert_ne; [done| |].
        -- intros ->. apply Hpc. rewrite fmap_app. set_solver.
        -- intros ->. apply (Hn2 _ Hq). set_solver.
      * econstructor; [|constructor]. rewrite lookup_insert_ne by done. by rewrite lookup_insert_eq.
    + rewrite fmap_app in *. simpl in *. apply NoDup_app. split; [done|]. split; [set_solver|].
      apply NoDup_cons. split; [set_solver|]. apply NoDup_singleton.
    + rewrite fmap_app. simpl. by rewrite last_app.
    + rewrite <-Hr, !fmap_app. simpl. by rewrite <-app_assoc.
    + apply Forall_app in Hk as [Hk1 Hk2]. apply Forall_app. split; [done|].
      inversion Hk2. subst. repeat constructor. done.
    + intros q [? Hq]. apply lookup_insert_Some in Hq as [[<- _]|[_ Hq]].
      { apply Nat.lt_lt_succ_r, Hf. rewrite (chain_in_heap _ _ _ t nd Hc) by set_solver. eauto. }
      apply lookup_insert_Some in Hq as [[<- _]|[_ Hq]]; [lia|].
      apply Nat.lt_lt_succ_r, Hf. eauto.
    + done.
Qed.

(** The loop of [remove] stops at the first cell with the key, with its
    predecessor. *)
Lemma remove_loop k acc cells :
  match loop (fun prev p node =>
                if bool_decide (Key (rn_raft node) = k) then inr (prev, node) else inl (Some p))
             acc cells with
  | inl _ => Forall (fun r => Key r ≠ k) (rn_raft <$> cells.*2)
  | inr (prev, node) =>
      exists pre p post, cells = pre ++ (p, node) :: post /\
        Forall (fun r => Key r ≠ k) (rn_raft <$> pre.*2) /\ Key (rn_raft node) = k /\
        prev = match last pre.*1 with Some q => Some q | None => acc end
  end.
Proof.
  revert acc. induction cells as [|[p nd] l IH]; intros acc; simpl; [constructor|].
  case_bool_decide as E; [by exists [], p, l|].
  specialize (IH (Some p)). destruct (loop _ _ l) as [|[prev node]]; [by constructor|].
  destruct IH as (pre & q & post & -> & Hpre & Hk & ->). exists ((p, nd) :: pre), q, post.
  split; [done|]. split; [by constructor|]. split; [done|].
  change (((p, nd) :: pre).*1) with (p :: pre.*1). rewrite last_cons. by destruct (last pre.*1).
Qed.

(** With distinct keys, filtering out the key of an element removes it. *)
Lemma l_remove_middle k l1 r l2 :
  NoDup (Key <$> l1 ++ r :: l2) -> Key r = k -> l_remove k (l1 ++ r :: l2) = l1 ++ l2.
Proof.
  intros Hd Hk. rewrite fmap_app, fmap_cons, Hk in Hd.
  apply NoDup_app in Hd as (_ & H1 & H2). apply NoDup_cons in H2 as [H2 _].
  unfold l_remove. rewrite filter_app, filter_cons_False by tauto. f_equal; apply filter_all, Forall_forall.
  - intros x Hx E. apply (H1 k); [rewrite <-E; by apply list_elem_of_fmap_2|constructor].
  - intros x Hx E. apply H2. rewrite <-E. by apply list_elem_of_fmap_2.
Qed.

Lemma l_remove_sublist k l : l_remove k l `sublist_of` l.
Proof. apply sublist_filter. Qed.

(** Unlinking a cell: [prev] is relinked, or the head moves. *)
Lemma unlink_chain ll pre p node post :
  chain (ll_heap ll) (ll_head ll) (pre ++ (p, node) :: post) ->
  NoDup (pre ++ (p, node) :: post).*1 ->
  exists ll' pre',
    match last pre.*1 with
    | Some q => set_next ll q (rn_next node)
    | None => Ok {| ll with ll_head := rn_next node |}
    end = Ok ll' /\
    chain (ll_heap ll') (ll_head ll') (pre' ++ post) /\
    pre'.*1 = pre.*1 /\ rn_raft <$> pre'.*2 = rn_raft <$> pre.*2 /\
    (Forall (fun c => rn_key c.2 = Key (rn_raft c.2)) pre ->
     Forall (fun c => rn_key c.2 = Key (rn_raft c.2)) pre') /\
    ll_tail ll' = ll_tail ll /\ ll_free ll' = ll_free ll /\
    (forall x, is_Some (ll_heap ll' !! x) -> is_Some (ll_heap ll !! x)).
Proof.
  intros Hc Hn. destruct pre as [|[q nq] pre _] using rev_ind.
  - simpl in *. eexists _, []. split; [done|]. simpl. inversion Hc; subst. naive_solver.
  - rewrite fmap_app. simpl. rewrite last_snoc. unfold set_next.
    assert (Hq : ll_heap ll !! q = Some nq).
    { apply (chain_in_heap _ _ _ _ _ Hc). set_solver. }
    rewrite Hq. eexists _, (pre ++ [(q, {| nq with rn_next := rn_next node |})]).
    split; [done|]. rewrite <-!app_assoc in *. simpl in *.
    rewrite !fmap_app in Hn. simpl in Hn.
    apply NoDup_app in Hn as (_ & Hn1 & [Hn2 Hn3]%NoDup_cons).
    split; [|rewrite !fmap_app; simpl; split; [done|]; split; [done|]; split].
    + eapply chain_relink; [exact Hc| |by rewrite lookup_insert_eq|].
      * intros x Hx. rewrite lookup_insert_ne; [done|]. intros ->. apply (Hn1 _ Hx). constructor.
      * apply (chain_ext (ll_heap ll)).
        -- intros x Hx. rewrite lookup_insert_ne; [done|]. intros ->. apply Hn2. by constructor.
        -- clear -Hc. revert Hc. generalize (ll_head ll).
           induction pre as [|[x nx] pre IH]; intros o Hc; simpl in Hc; inversion Hc; subst; eauto.
           match goal with H : chain _ _ ((p, node) :: post) |- _ => by inversion H end.
    + intros [Hk1 Hk2]%Forall_app. apply Forall_app. split; [done|].
      inversion Hk2. by repeat constructor.
    + split; [done|]. split; [done|]. intros x [? [[<- _]|[_ ?]]%lookup_insert_Some]; eauto.
Qed.

Lemma remove_spec ll rafts cells k :
  is_list ll rafts cells ->
  exists ll' cells', remove ll k = Ok ll' /\ is_list ll' (l_remove k rafts) cells'.
Proof.
  intros H. unfold remove. rewrite (from_head_spec _ _ _ _ _ H). simpl.
  pose proof (remove_loop k None cells) as HL. destruct (loop _ _ _) as [|[prev node]].
  { eexists ll, cells. split; [done|]. unfold l_remove. destruct H as [? ? ? Hr ? ? ?].
    rewrite filter_all by (by rewrite <-Hr). by constructor. }
  destruct HL as (pre & p & post & -> & Hpre & Hk & ->).
  destruct H as [Hc Hn Ht Hr Hks Hf Hd].
  assert (Hpost : rn_next node = None <-> post = []).
  { clear -Hc. revert Hc. generalize (ll_head ll). induction pre as [|[x nx] pre IH];
      intros o Hc; simpl in Hc; inversion Hc; subst; [|eauto].
    match goal with H : chain _ (rn_next node) post |- _ => inversion H; subst end; split; congruence. }
  destruct (unlink_chain ll pre p node post Hc Hn)
    as (ll' & pre' & E & Hc' & Hp1 & Hp2 & Hp3 & Ht' & Hf' & Hh).
  replace (match last pre.*1 with Some q => Some q | None => None end) with (last pre.*1)
    by by destruct (last pre.*1).
  rewrite E. simpl. eexists _, (pre' ++ post). split; [done|].
  assert (Hn' : NoDup (pre' ++ post).*1).
  { rewrite fmap_app, Hp1, <-fmap_app. eapply sublist_NoDup; [exact Hn|].
    apply fmap_sublist, sublist_app; [done|]. by apply sublist_cons. }
  assert (Hr' : rn_raft <$> (pre' ++ post).*2 = l_remove k rafts).
  { assert (HR : rafts = (rn_raft <$> pre.*2) ++ rn_raft node :: (rn_raft <$> post.*2))
      by by rewrite <-Hr, !fmap_app.
    rewrite HR in Hd |- *. rewrite l_remove_middle by done. by rewrite !fmap_app, Hp2. }
  apply Forall_app in Hks as [Hks1 [_ Hks2]%Forall_cons].
  assert (Htl : match rn_next node with None => last pre.*1 | Some _ => ll_tail ll end =
                last (pre' ++ post).*1).
  { rewrite fmap_app, Hp1. destruct (rn_next node) as [x|] eqn:En.
    - rewrite Ht, fmap_app, fmap_cons. rewrite !last_app, last_cons.
      destruct post as [|c post]; [by assert (Some x = None) by by apply Hpost|].
      change ((c :: post).*1) with (c.1 :: post.*1). rewrite !last_cons.
      by destruct (last post.*1).
    - rewrite (proj1 Hpost eq_refl). by rewrite app_nil_r. }
  destruct (rn_next node); constructor; simpl; rewrite ?Hf', ?Ht'; try done; auto.
  all: try (apply Forall_app; auto).
  all: eapply sublist_NoDup; [exact Hd|apply fmap_sublist, l_remove_sublist].
Qed.

(** ** Runs *)

Inductive lop :=
| LPush (r : R)
| LRemove (k : string).

Fixpoint l_run (l : list R) (ops : list lop) : list R :=
  match ops with
  | [] => l
  | LPush r :: rest => l_run (l_push r l) rest
  | LRemove k :: rest => l_run (l_remove k l) rest
  end.

Fixpoint ll_run (ll : linkedList) (ops : list lop) : res linkedList :=
  match ops with
  | [] => Ok ll
  | LPush r :: rest => let! ll := push ll r in ll_run ll rest
  | LRemove k :: rest => let! ll := remove ll k in ll_run ll rest
  end.

Lemma ll_run_spec ops ll rafts cells :
  is_list ll rafts cells ->
  exists ll' cells', ll_run ll ops = Ok ll' /\ is_list ll' (l_run rafts ops) cells'.
Proof.
  revert ll rafts cells. induction ops as [|[r|k] ops IH]; intros ll rafts cells H; simpl; [eauto| |].
  - destruct (push_spec _ _ _ r H) as (ll' & cells' & -> & H'). simpl. eauto.
  - destruct (remove_spec _ _ _ k H) as (ll' & cells' & -> & H'). simpl. eauto.
Qed.
End LinkedList.

(** ** Theorems *)

Module GroupListProps.
(** C37. The linked list of a group refines a list of rafts with distinct keys,
    for every sequence of additions and removals.  Every operation returns (no
    loop runs for ever and no nil pointer is followed), an addition appends the
    raft unless its key is present, a removal takes out the raft with the key and
    nothing else, wherever it is, and looking up, counting and reading all rafts
    give what the list has. *)
Theorem group_list_refines {R : Type} (Key : R -> string) (ops : list (@lop R)) :
  returns (ll_run Key newLinkedList ops) (fun ll =>
    let rafts := l_run Key [] ops in
    NoDup (Key <$> rafts) /\ all ll = Ok rafts /\ count ll = Ok (len rafts) /\
    (forall acc, readHandlers ll acc = Ok (acc ++ rafts)) /\
    forall k, get ll k = Ok (l_get Key k rafts) /\
              existNoLock ll k = Ok (bool_decide (k ∈ Key <$> rafts))).
Proof.
  destruct (ll_run_spec Key ops newLinkedList [] [] (newLinkedList_spec Key))
    as (ll & cells & E & H).
  exists ll. split; [done|]. split; [apply H|]. split; [apply (readHandlers_spec Key _ _ _ [] H)|].
  split; [apply (count_spec Key _ _ _ H)|]. split; [intros; apply (readHandlers_spec Key _ _ _ _ H)|].
  intros k. split; [apply (get_spec Key _ _ _ _ H)|apply (existNoLock_spec Key _ _ _ _ H)].
Qed.
End GroupListProps.
