(* ===== verification/GroupWait.v ===== *)
(** * The waiters of a raft group

    [pkg/raft/raftgroup/wait.go]: the table of the proposals that wait for their
    log to be applied.  The table is split into buckets by a hash of the raft's
    key, the records of the waiters are shared between the table and the
    proposers, and they are recycled through a pool per bucket.  The model keeps
    the store of the records and of the channels, so that a record that is used
    again while somebody still refers to it would be seen.

    - [fnv32] and its reference.
    - [WaitOps]: the operations.
    - The abstract table: one ticket per call of [waitApply].
    - [GroupWaitProps]: the operations refine the abstract table. *)

From S2P Require Import Prelude.

(** ** The hash *)

(** The bytes of a string. *)
Definition key_bytes (key : string) : list Z :=
  (fun c => Z.of_N (Ascii.N_of_ascii c)) <$> String.list_ascii_of_string key.

(** [pkg/raft/raftgroup/wait.go] [fnv32]

    The accumulator is an [int], of 64 bits with sign. *)
Definition fnv32 (key : string) : Z :=
  let offset32 := 2166136261 in
  let prime32 := 16777619 in
  u32 (foldl (fun hash b => i64 (Z.lxor hash b * prime32)) offset32 (key_bytes key)).

(** The 32 bit FNV-1a hash. *)
Definition fnv1a (key : list Z) : Z :=
  foldl (fun hash b => u32 (Z.lxor hash b * 16777619)) 2166136261 key.

Lemma u32_lxor a b : u32 (Z.lxor a b) = Z.lxor (u32 a) (u32 b).
Proof.
  unfold u32. change two32 with (2 ^ 32). apply Z.bits_inj'. intros n Hn.
  rewrite Z.lxor_spec. destruct (Z.ltb_spec n 32).
  - rewrite !Z.mod_pow2_bits_low by lia. by rewrite Z.lxor_spec.
  - rewrite !Z.mod_pow2_bits_high by lia. done.
Qed.

Lemma u32_i64 z : u32 (i64 z) = u32 z.
Proof.
  unfold u32, i64.
  rewrite Zminus_mod, (Z.mod_mod_divide _ two64) by (by exists two32).
  rewrite <-Zminus_mod. f_equal. lia.
Qed.

Lemma u32_mul_l a b : u32 (u32 a * b) = u32 (a * b).
Proof. unfold u32. by rewrite Z.mul_mod_idemp_l by lia. Qed.

Lemma key_bytes_u8 key : Forall is_u8 (key_bytes key).
Proof.
  apply Forall_fmap, Forall_forall. intros c _. unfold is_u8. simpl.
  pose proof (Ascii.N_ascii_bounded c). lia.
Qed.

(** The signed accumulator of 64 bits gives the hash of 32 bits. *)
Lemma fnv32_fnv1a key : fnv32 key = fnv1a (key_bytes key).
Proof.
  unfold fnv32, fnv1a. cbv zeta. generalize (key_bytes_u8 key). generalize (key_bytes key).
  clear key. intros key Hk.
  assert (HG : forall h h', u32 h = h' ->
    u32 (foldl (fun hash b => i64 (Z.lxor hash b * 16777619)) h key) =
    foldl (fun hash b => u32 (Z.lxor hash b * 16777619)) h' key).
  { induction Hk as [|b key Hb _ IH]; intros h h' E; simpl; [done|]. apply IH.
    rewrite u32_i64, <-u32_mul_l, u32_lxor, E.
    by rewrite (u32_small b) by (unfold is_u8, is_u32 in *; lia). }
  by apply HG.
Qed.

(** ** Data *)

(** [pkg/raft/raftgroup/wait.go] [progress] *)
Record gprogress := mkGProgress {
  gp_maxIndex : Z;
  gp_waitC : option nat;
  gp_waitApplied : bool;
  gp_done : bool;
  gp_key : string
}.

(** A channel with room for one signal. *)
Record channel := mkChannel {
  ch_items : nat;
  ch_closed : bool
}.

(** The records and the channels that were allocated. *)
Record store := mkStore {
  st_progress : gmap nat gprogress;
  st_chans : gmap nat channel;
  st_nextP : nat;
  st_nextC : nat
}.

(** [pkg/raft/raftgroup/wait.go] [waitBucket] *)
Record waitBucket := mkWaitBucket {
  wb_progresses : list nat;
  wb_progressPool : list nat
}.

(** [pkg/raft/raftgroup/wait.go] [lines 10-12] *)
Record gwait := mkGWait {
  gw_store : store;
  gw_buckets : list waitBucket
}.

(** [pkg/raft/raftgroup/wait.go] [(p *progress) reset]

    Also the record the pool makes when it is empty. *)
Definition zeroProgress : gprogress := mkGProgress 0 None false false "".

(** [pkg/raft/raftgroup/wait.go] [newWaitBucket] *)
Definition newWaitBucket : waitBucket := mkWaitBucket [] [].

(** [pkg/raft/raftgroup/wait.go] [newWait] *)
Definition gnewWait : gwait := mkGWait (mkStore ∅ ∅ 0 0) (replicate 100 newWaitBucket).

(** ** Operations *)

(** [pkg/raft/raftgroup/wait.go] [(m *wait) bucketIndex] *)
Definition bucketIndex (m : gwait) (key : string) : Z :=
  fnv32 key mod u32 (len (gw_buckets m)).

(** A send on a channel: closed it panics, full it does not return (it would
    hold the lock of the bucket until somebody receives). *)
Definition send (st : store) (ch : nat) : res store :=
  match st_chans st !! ch with
  | None => Panic
  | Some c =>
      if ch_closed c then Panic
      else if (1 <=? ch_items c)%nat then NoFuel
      else Ok {| st with st_chans := <[ch := mkChannel (S (ch_items c)) false]> (st_chans st) |}
  end.

(** [progressPool.Get()]: the pool may give back any of its records or make a
    new one; [pick] is its choice. *)
Definition poolGet (st : store) (b : waitBucket) (pick : option nat) : store * waitBucket * nat :=
  match (i ← pick; p ← wb_progressPool b !! i; Some (i, p)) with
  | Some (i, p) => (st, {| b with wb_progressPool := delete i (wb_progressPool b) |}, p)
  | None => ({| st with st_progress := <[st_nextP st := zeroProgress]> (st_progress st);
                        st_nextP := S (st_nextP st) |}, b, st_nextP st)
  end.

(** An assignment to the record behind a pointer. *)
Definition set_progress (st : store) (p : nat) (gp : gprogress) : store :=
  {| st with st_progress := <[p := gp]> (st_progress st) |}.

(** [pkg/raft/raftgroup/wait.go] [(m *waitBucket) waitApply]

    [applied] is what the callback reads, when there is one. *)
Definition wb_waitApply (st : store) (m : waitBucket) (key : string) (maxIndex : Z)
    (applied : option Z) (pick : option nat) : res (store * waitBucket * nat) :=
  let '(st, m, p) := poolGet st m pick in
  let ch := st_nextC st in
  let st := {| st with st_chans := <[ch := mkChannel 0 false]> (st_chans st);
                       st_nextC := S ch |} in
  let gp := mkGProgress maxIndex (Some ch) true false key in
  let st := set_progress st p gp in
  if match applied with Some a => maxIndex <=? a | None => false end then
    let st := set_progress st p {| gp with gp_done := true |} in
    let! st := send st ch in
    Ok (st, m, p)
  else Ok (st, {| m with wb_progresses := wb_progresses m ++ [p] |}, p).

(** The loop of [didApply] over the records of the bucket. *)
Fixpoint gsignal (st : store) (key : string) (maxLogIndex : Z) (ps : list nat) : res store :=
  match ps with
  | [] => Ok st
  | p :: rest =>
      match st_progress st !! p with
      | None => Panic
      | Some gp =>
          let! st :=
            if negb (bool_decide (gp_key gp = key)) then Ok st
            else if gp_done gp || negb (gp_waitApplied gp) then Ok st
            else if gp_maxIndex gp <=? maxLogIndex then
              match gp_waitC gp with
              | None => Ok st
              | Some ch => send (set_progress st p {| gp with gp_done := true |}) ch
              end
            else Ok st in
          gsignal st key maxLogIndex rest
      end
  end.

(** [pkg/raft/raftgroup/wait.go] [(m *waitBucket) clean]

    The loop deletes in place and moves on over a record it keeps. *)
Fixpoint gclean (fuel : nat) (st : store) (i : nat) (ps : list nat) : res (list nat) :=
  match fuel with
  | O => NoFuel
  | S fuel =>
      match ps !! i with
      | None => Ok ps
      | Some p =>
          match st_progress st !! p with
          | None => Panic
          | Some gp =>
              if gp_done gp then gclean fuel st i (take i ps ++ drop (S i) ps)
              else gclean fuel st (S i) ps
          end
      end
  end.

(** [pkg/raft/raftgroup/wait.go] [(m *waitBucket) didApply] *)
Definition wb_didApply (st : store) (m : waitBucket) (key : string) (maxLogIndex : Z)
  : res (store * waitBucket) :=
  let! st := gsignal st key maxLogIndex (wb_progresses m) in
  let! ps := gclean (S (length (wb_progresses m))) st 0 (wb_progresses m) in
  Ok (st, {| m with wb_progresses := ps |}).

(** The loop of [put]: the first occurrence of a pointer is deleted. *)
Fixpoint remove_first (p : nat) (ps : list nat) : list nat :=
  match ps with
  | [] => []
  | q :: rest => if bool_decide (q = p) then rest else q :: remove_first p rest
  end.

(** [pkg/raft/raftgroup/wait.go] [(m *waitBucket) put]

    Closing a nil or a closed channel panics. *)
Definition wb_put (st : store) (m : waitBucket) (p : nat) : res (store * waitBucket) :=
  let m := {| m with wb_progresses := remove_first p (wb_progresses m) |} in
  match st_progress st !! p with
  | None => Panic
  | Some gp =>
      match gp_waitC gp with
      | None => Panic
      | Some ch =>
          match st_chans st !! ch with
          | None => Panic
          | Some c =>
              if ch_closed c then Panic
              else
                let st := {| st with st_chans :=
                               <[ch := {| c with ch_closed := true |}]> (st_chans st) |} in
                let st := set_progress st p zeroProgress in
                Ok (st, {| m with wb_progressPool := wb_progressPool m ++ [p] |})
          end
      end
  end.

(** [m.buckets[m.bucketIndex(key)]], and a call of one of its methods. *)
Definition with_bucket {A} (m : gwait) (key : string)
    (f : store -> waitBucket -> res (store * waitBucket * A)) : res (gwait * A) :=
  let i := Z.to_nat (bucketIndex m key) in
  match gw_buckets m !! i with
  | None => Panic
  | Some b =>
      let! (st, b, a) := f (gw_store m) b in
      Ok (mkGWait st (<[i := b]> (gw_buckets m)), a)
  end.

(** [pkg/raft/raftgroup/wait.go] [(m *wait) waitApply] *)
Definition gwaitApply (m : gwait) (key : string) (maxIndex : Z) (applied : option Z)
    (pick : option nat) : res (gwait * nat) :=
  with_bucket m key (fun st b => wb_waitApply st b key maxIndex applied pick).

(** [pkg/raft/raftgroup/wait.go] [(m *wait) didApply] *)
Definition gdidApply (m : gwait) (key : string) (maxLogIndex : Z) : res gwait :=
  let! (m, _) := with_bucket m key (fun st b =>
    let! (st, b) := wb_didApply st b key maxLogIndex in Ok (st, b, tt)) in
  Ok m.

(** [pkg/raft/raftgroup/wait.go] [(m *wait) put] *)
Definition gput (m : gwait) (p : nat) : res gwait :=
  match st_progress (gw_store m) !! p with
  | None => Panic
  | Some gp =>
      let! (m, _) := with_bucket m (gp_key gp) (fun st b =>
        let! (st, b) := wb_put st b p in Ok (st, b, tt)) in
      Ok m
  end.

(** [<-p.waitC] by the proposer that holds [p]; without a signal it waits. *)
Definition recv (m : gwait) (p : nat) : option gwait :=
  gp ← st_progress (gw_store m) !! p;
  ch ← gp_waitC gp;
  c ← st_chans (gw_store m) !! ch;
  match ch_items c with
  | O => None
  | S k => Some {| m with gw_store :=
             {| (gw_store m) with st_chans :=
                  <[ch := {| c with ch_items := k |}]> (st_chans (gw_store m)) |} |}
  end.

(** ** The abstract table *)

(** What a proposer was promised: the raft and the index it waits for, whether
    it was signalled and whether it took the signal. *)
Record ticket := mkTicket {
  tk_key : string;
  tk_maxIndex : Z;
  tk_signalled : bool;
  tk_received : bool
}.

(** The tickets in use, by the record that stands for each. *)
Abbreviation table := (gmap nat ticket).

Definition tk_reach (key : string) (maxLogIndex : Z) (tk : ticket) : ticket :=
  if bool_decide (tk_key tk = key /\ tk_maxIndex tk <= maxLogIndex)
  then {| tk with tk_signalled := true |} else tk.

Definition new_ticket (key : string) (maxIndex : Z) (applied : option Z) : ticket :=
  mkTicket key maxIndex (match applied with Some a => maxIndex <=? a | None => false end) false.

(** The state of the table and the tickets, and what may happen to it: proposers
    use only records they hold. *)
Inductive wstep : gwait * table -> gwait * table -> Prop :=
| W_wait m t key maxIndex applied pick m' p :
    gwaitApply m key maxIndex applied pick = Ok (m', p) ->
    wstep (m, t) (m', <[p := new_ticket key maxIndex applied]> t)
| W_did m t key maxLogIndex m' :
    gdidApply m key maxLogIndex = Ok m' ->
    wstep (m, t) (m', tk_reach key maxLogIndex <$> t)
| W_recv m t p tk m' :
    t !! p = Some tk -> recv m p = Some m' ->
    wstep (m, t) (m', <[p := {| tk with tk_received := true |}]> t)
| W_put m t p m' :
    is_Some (t !! p) -> gput m p = Ok m' -> wstep (m, t) (m', delete p t).

(** ** The invariant *)

Definition items_of (tk : ticket) : nat :=
  if tk_signalled tk && negb (tk_received tk) then 1 else 0.

(** The record and the channel of a ticket. *)
Definition backed (st : store) (p : nat) (tk : ticket) : Prop :=
  exists ch,
    st_progress st !! p =
      Some (mkGProgress (tk_maxIndex tk) (Some ch) true (tk_signalled tk) (tk_key tk)) /\
    st_chans st !! ch = Some (mkChannel (items_of tk) false) /\
    (tk_received tk = true -> tk_signalled tk = true).

(** The store holds every ticket, and no two of them share a channel. *)
Record store_ok (st : store) (t : table) : Prop := {
  so_backed p tk : t !! p = Some tk -> backed st p tk;
  so_apart p q tp tq gp gq :
    t !! p = Some tp -> t !! q = Some tq ->
    st_progress st !! p = Some gp -> st_progress st !! q = Some gq ->
    gp_waitC gp = gp_waitC gq -> p = q;
  so_progress p : is_Some (st_progress st !! p) -> (p < st_nextP st)%nat;
  so_chans ch : is_Some (st_chans st !! ch) -> (ch < st_nextC st)%nat
}.

(** The buckets hold exactly the tickets that were not signalled, each in the
    bucket of its key; a record in a pool is of no ticket and in one pool. *)
Record table_ok (m : gwait) (t : table) : Prop := {
  to_store : store_ok (gw_store m) t;
  to_size : length (gw_buckets m) = 100%nat;
  to_waiting i b p :
    gw_buckets m !! i = Some b -> p ∈ wb_progresses b ->
    exists tk, t !! p = Some tk /\ tk_signalled tk = false /\
               i = Z.to_nat (bucketIndex m (tk_key tk));
  to_listed p tk :
    t !! p = Some tk -> tk_signalled tk = false ->
    exists b, gw_buckets m !! Z.to_nat (bucketIndex m (tk_key tk)) = Some b /\
              p ∈ wb_progresses b;
  to_nodup i b : gw_buckets m !! i = Some b -> NoDup (wb_progresses b);
  to_pooled i b p :
    gw_buckets m !! i = Some b -> p ∈ wb_progressPool b ->
    t !! p = None /\ is_Some (st_progress (gw_store m) !! p);
  to_pool_nodup i b : gw_buckets m !! i = Some b -> NoDup (wb_progressPool b);
  to_pools_apart i j bi bj p :
    gw_buckets m !! i = Some bi -> gw_buckets m !! j = Some bj ->
    p ∈ wb_progressPool bi -> p ∈ wb_progressPool bj -> i = j
}.

Lemma table_ok_new : table_ok gnewWait ∅.
Proof.
  assert (HB : forall i b, gw_buckets gnewWait !! i = Some b -> b = newWaitBucket).
  { intros i b [-> _]%lookup_replicate. done. }
  constructor; [|done| | | | | |].
  - constructor; simpl; intros *; rewrite ?lookup_empty; try done; intros [? [=]].
  - intros i b p ->%HB. simpl. by intros ?%not_elem_of_nil.
  - intros p tk. by rewrite lookup_empty.
  - intros i b ->%HB. constructor.
  - intros i b p ->%HB. simpl. by intros ?%not_elem_of_nil.
  - intros i b ->%HB. constructor.
  - intros i j bi bj p ->%HB ->%HB. simpl. by intros ?%not_elem_of_nil.
Qed.

(** Every key has a bucket. *)
Lemma bucketIndex_lt m t key : table_ok m t -> is_Some (gw_buckets m !! Z.to_nat (bucketIndex m key)).
Proof.
  intros H. apply lookup_lt_is_Some. unfold bucketIndex. rewrite (to_size _ _ H).
  change (u32 (Z.of_nat 100)) with 100.
  pose proof (Z.mod_pos_bound (fnv32 key) 100 ltac:(lia)). lia.
Qed.

Lemma bucketIndex_size m m' key :
  length (gw_buckets m) = length (gw_buckets m') -> bucketIndex m key = bucketIndex m' key.
Proof. unfold bucketIndex. by intros ->. Qed.

(** ** The store *)

(** Writing one record and its channel. *)
Lemma store_ok_set st t st' t' p ch g c :
  store_ok st t ->
  st_progress st' = <[p := g]> (st_progress st) ->
  st_chans st' = <[ch := c]> (st_chans st) ->
  (forall q tq gq, q ≠ p -> t !! q = Some tq -> st_progress st !! q = Some gq ->
                   gp_waitC gq ≠ Some ch) ->
  (p < st_nextP st')%nat -> (ch < st_nextC st')%nat ->
  (st_nextP st <= st_nextP st')%nat -> (st_nextC st <= st_nextC st')%nat ->
  (forall q, q ≠ p -> t' !! q = t !! q) ->
  match t' !! p with
  | None => True
  | Some tk => g = mkGProgress (tk_maxIndex tk) (Some ch) true (tk_signalled tk) (tk_key tk) /\
               c = mkChannel (items_of tk) false /\
               (tk_received tk = true -> tk_signalled tk = true)
  end ->
  store_ok st' t'.
Proof.
  intros [Hb Ha Hp Hc] Ep Ec Hap Hlp Hlc Hnp Hnc Ht Htp. constructor.
  - intros q tk Hq. unfold backed. rewrite Ep, Ec. destruct (decide (q = p)) as [->|Hne].
    + rewrite Hq in Htp. destruct Htp as (-> & -> & ?). exists ch. by rewrite !lookup_insert_eq.
    + rewrite Ht in Hq by done. destruct (Hb q tk Hq) as (x & Hx & Hy & Hz). exists x.
      rewrite lookup_insert_ne by done. split; [done|]. split; [|done].
      rewrite lookup_insert_ne; [done|]. intros ->. by apply (Hap _ _ _ Hne Hq Hx).
  - intros q r tq tr gq gr Hq Hr Gq Gr E. rewrite Ep in Gq, Gr.
    destruct (decide (q = p)) as [->|Hq']; destruct (decide (r = p)) as [->|Hr']; [done| | |].
    + rewrite Hq in Htp. destruct Htp as (-> & _). rewrite lookup_insert_eq in Gq.
      injection Gq as <-. rewrite lookup_insert_ne in Gr by done. rewrite Ht in Hr by done.
      exfalso. by apply (Hap _ _ _ Hr' Hr Gr).
    + rewrite Hr in Htp. destruct Htp as (-> & _). rewrite lookup_insert_eq in Gr.
      injection Gr as <-. rewrite lookup_insert_ne in Gq by done. rewrite Ht in Hq by done.
      exfalso. by apply (Hap _ _ _ Hq' Hq Gq).
    + rewrite lookup_insert_ne in Gq, Gr by done. rewrite Ht in Hq, Hr by done. eauto.
  - intros q. rewrite Ep. intros [? [[<- _]|[_ ?]]%lookup_insert_Some]; [done|].
    eapply Nat.lt_le_trans; [apply Hp|]; eauto.
  - intros q. rewrite Ec. intros [? [[<- _]|[_ ?]]%lookup_insert_Some]; [done|].
    eapply Nat.lt_le_trans; [apply Hc|]; eauto.
Qed.

(** The record and the channel of a ticket, for the lemmas that change them. *)
Lemma store_ok_ticket st t p tk :
  store_ok st t -> t !! p = Some tk ->
  exists ch, st_progress st !! p =
               Some (mkGProgress (tk_maxIndex tk) (Some ch) true (tk_signalled tk) (tk_key tk)) /\
             st_chans st !! ch = Some (mkChannel (items_of tk) false) /\
             (tk_received tk = true -> tk_signalled tk = true) /\
             (p < st_nextP st)%nat /\ (ch < st_nextC st)%nat /\
             forall q tq gq, q ≠ p -> t !! q = Some tq -> st_progress st !! q = Some gq ->
                             gp_waitC gq ≠ Some ch.
Proof.
  intros [Hb Ha Hp Hc] Hk. destruct (Hb p tk Hk) as (ch & H1 & H2 & H3). exists ch.
  split; [done|]. split; [done|]. split; [done|]. split; [eauto|]. split; [eauto|].
  intros q tq gq Hne Hq Gq E. apply Hne. by eapply (Ha q p).
Qed.

(** A signal. *)
Lemma send_ok st t p tk :
  store_ok st t -> t !! p = Some tk -> tk_signalled tk = false ->
  exists gp ch st',
    st_progress st !! p = Some gp /\ gp_waitC gp = Some ch /\
    send (set_progress st p {| gp with gp_done := true |}) ch = Ok st' /\
    store_ok st' (<[p := {| tk with tk_signalled := true |}]> t) /\
    dom (st_progress st') = dom (st_progress st).
Proof.
  intros H Hk Hs. destruct (store_ok_ticket _ _ _ _ H Hk) as (ch & H1 & H2 & H3 & H4 & H5 & H6).
  do 3 eexists. split; [exact H1|]. split; [done|]. unfold send. simpl. rewrite H2.
  unfold items_of. rewrite Hs. simpl. split; [done|].
  assert (Hr : tk_received tk = false) by (destruct (tk_received tk); naive_solver).
  split.
  - eapply (store_ok_set st t _ _ p ch); simpl; try done.
    + intros q Hq. by rewrite lookup_insert_ne.
    + rewrite lookup_insert_eq. simpl. unfold items_of. simpl. by rewrite Hr.
  - simpl. apply dom_insert_lookup_L. eauto.
Qed.

(** ** Reports *)

Lemma tk_reach_idle key idx tk :
  (tk_key tk = key -> tk_maxIndex tk <= idx -> tk_signalled tk = true) -> tk_reach key idx tk = tk.
Proof.
  intros H. unfold tk_reach. case_bool_decide as E; [|done].
  destruct E as [E1 E2]. specialize (H E1 E2). destruct tk. simpl in *. by subst.
Qed.

Lemma tk_reach_hit key idx tk :
  tk_key tk = key -> tk_maxIndex tk <= idx ->
  tk_reach key idx tk = {| tk with tk_signalled := true |}.
Proof. intros. unfold tk_reach. by rewrite bool_decide_eq_true_2. Qed.

Lemma tk_reach_key key idx tk :
  tk_key (tk_reach key idx tk) = tk_key tk /\ tk_maxIndex (tk_reach key idx tk) = tk_maxIndex tk.
Proof. unfold tk_reach. by case_bool_decide. Qed.

Lemma gsignal_ok st t key idx ps :
  store_ok st t -> Forall (fun p => is_Some (t !! p)) ps ->
  exists st', gsignal st key idx ps = Ok st' /\
    store_ok st' (foldl (fun t p => alter (tk_reach key idx) p t) t ps) /\
    dom (st_progress st') = dom (st_progress st).
Proof.
  intros H Hps. revert st t H Hps. induction ps as [|p ps IH]; intros st t H Hps; simpl; [eauto|].
  apply Forall_cons in Hps as [[tk Hk] Hps].
  destruct (store_ok_ticket _ _ _ _ H Hk) as (ch & H1 & _). rewrite H1. simpl.
  assert (Hps' : Forall (fun q => is_Some (alter (tk_reach key idx) p t !! q)) ps).
  { eapply Forall_impl; [exact Hps|]. intros q Hq. by apply lookup_alter_is_Some. }
  assert (Hidle : (tk_key tk = key -> tk_maxIndex tk <= idx -> tk_signalled tk = true) ->
                  alter (tk_reach key idx) p t = t).
  { intros Hi. rewrite <-(insert_id t p tk Hk) at 1. rewrite alter_insert_eq.
    rewrite tk_reach_idle by done. by apply insert_id. }
  case_bool_decide as Ek; simpl.
  2:{ rewrite (Hidle ltac:(done)) in *. apply IH; done. }
  destruct (tk_signalled tk) eqn:Hs; simpl.
  { rewrite (Hidle ltac:(done)) in *. apply IH; done. }
  destruct (Z.leb_spec (tk_maxIndex tk) idx) as [Hle|Hgt]; simpl.
  2:{ rewrite (Hidle ltac:(lia)) in *. apply IH; done. }
  destruct (send_ok st t p tk H Hk Hs) as (gp & ch' & st' & G1 & G2 & G3 & G4 & G5).
  rewrite H1 in G1. injection G1 as <-. simpl in G2. injection G2 as <-. simpl in G3. rewrite G3. simpl.
  assert (Ea : alter (tk_reach key idx) p t = <[p := {| tk with tk_signalled := true |}]> t).
  { rewrite <-(insert_id t p tk Hk) at 1. rewrite alter_insert_eq, tk_reach_hit by done. done. }
  rewrite Ea in *. destruct (IH st' _ G4 Hps') as (st'' & E & ? & Hd). exists st''.
  split; [done|]. split; [done|]. congruence.
Qed.

(** The record of a pointer is not done. *)
Definition waiting_in (st : store) (p : nat) : Prop :=
  exists gp, st_progress st !! p = Some gp /\ gp_done gp = false.

#[local] Instance waiting_in_dec st p : Decision (waiting_in st p).
Proof.
  unfold waiting_in. destruct (st_progress st !! p) as [gp|] eqn:E.
  - destruct (gp_done gp) eqn:D; [right; intros (g & [= <-] & ?); congruence|left; eauto].
  - right. by intros (g & [=] & _).
Defined.

(** The deletion loop is a filter. *)
Lemma gclean_ok fuel st i ps :
  Forall (fun p => is_Some (st_progress st !! p)) ps ->
  (length ps - i < fuel)%nat -> Forall (waiting_in st) (take i ps) ->
  gclean fuel st i ps = Ok (filter (waiting_in st) ps).
Proof.
  revert i ps. induction fuel as [|fuel IH]; intros i ps Hh Hf Hpre; [lia|]. simpl.
  destruct (ps !! i) as [p|] eqn:E.
  - pose proof (lookup_lt_Some _ _ _ E). pose proof (take_drop_middle _ _ _ E) as Hsplit.
    pose proof (Forall_lookup_1 _ _ _ _ Hh E) as [gp Hp]. rewrite Hp.
    destruct (gp_done gp) eqn:Hd.
    + rewrite IH.
      * rewrite <-Hsplit at 3. rewrite !filter_app, filter_cons_False; [done|].
        intros (g & Hg & ?). congruence.
      * rewrite <-Hsplit in Hh. apply Forall_app in Hh as [? [_ ?]%Forall_cons]. by apply Forall_app.
      * rewrite length_app, length_take, length_drop. lia.
      * rewrite take_app_le by (rewrite length_take; lia). by rewrite take_take, Nat.min_id.
    + apply IH; [done|lia|]. rewrite (take_S_r _ _ _ E). apply Forall_app.
      split; [done|]. repeat constructor. exists gp. done.
  - apply lookup_ge_None in E. rewrite take_ge in Hpre by lia.
    f_equal. symmetry. by apply filter_all.
Qed.

(** A report to the records of the bucket of its key reaches every ticket of the
    key: the others are in the bucket or signalled already. *)
Lemma reach_fold m t key idx b :
  table_ok m t -> gw_buckets m !! Z.to_nat (bucketIndex m key) = Some b ->
  foldl (fun t p => alter (tk_reach key idx) p t) t (wb_progresses b) = tk_reach key idx <$> t.
Proof.
  intros H Hb. apply map_eq. intros p. rewrite lookup_fmap.
  assert (HG : forall ps (t : table), foldl (fun t p => alter (tk_reach key idx) p t) t ps !! p =
            if decide (p ∈ ps) then tk_reach key idx <$> t !! p else t !! p).
  { clear. induction ps as [|q ps IH]; intros t; simpl; [done|].
    rewrite IH. destruct (decide (p = q)) as [->|Hne].
    - rewrite lookup_alter_eq, (decide_True (P := q ∈ q :: ps)) by constructor. case_decide; [|done].
      destruct (t !! q); simpl; [|done]. f_equal. apply tk_reach_idle.
      unfold tk_reach. case_bool_decide; simpl; tauto.
    - rewrite lookup_alter_ne by done. destruct (decide (p ∈ ps)).
      + by rewrite decide_True by (by constructor).
      + rewrite decide_False; [done|]. by intros [|]%elem_of_cons. }
  rewrite HG. case_decide as Hin; [done|]. destruct (t !! p) as [tk|] eqn:Hk; [|done]. simpl.
  f_equal. symmetry. apply tk_reach_idle. intros <- _.
  destruct (tk_signalled tk) eqn:Hs; [done|].
  destruct (to_listed _ _ H p tk Hk Hs) as (b' & Hb' & Hin'). congruence.
Qed.

(** ** One bucket at a time *)

(** An operation on the bucket of a key keeps the table when it keeps its own
    bucket and does not touch the tickets and the pools of the others. *)
Lemma table_ok_set m t i b st' b' t' :
  table_ok m t -> gw_buckets m !! i = Some b -> store_ok st' t' ->
  let idx key := Z.to_nat (bucketIndex m key) in
  (forall p, p ∈ wb_progresses b' ->
     exists tk, t' !! p = Some tk /\ tk_signalled tk = false /\ i = idx (tk_key tk)) ->
  (forall p tk, t !! p = Some tk -> tk_signalled tk = false -> idx (tk_key tk) ≠ i ->
     t' !! p = Some tk) ->
  (forall p tk, t' !! p = Some tk -> tk_signalled tk = false ->
     if decide (idx (tk_key tk) = i) then p ∈ wb_progresses b' else t !! p = Some tk) ->
  NoDup (wb_progresses b') ->
  (forall p, p ∈ wb_progressPool b' -> t' !! p = None /\ is_Some (st_progress st' !! p)) ->
  NoDup (wb_progressPool b') ->
  (forall j bj p, j ≠ i -> gw_buckets m !! j = Some bj -> p ∈ wb_progressPool bj ->
     p ∉ wb_progressPool b' /\ t' !! p = None /\ is_Some (st_progress st' !! p)) ->
  table_ok (mkGWait st' (<[i := b']> (gw_buckets m))) t'.
Proof.
  intros H Hb Hst idx HW HO HL HN HP HPN HPO.
  assert (HI : forall key, bucketIndex (mkGWait st' (<[i := b']> (gw_buckets m))) key =
                           bucketIndex m key).
  { intros key. apply bucketIndex_size. simpl. by rewrite length_insert. }
  assert (Hi : (i < length (gw_buckets m))%nat) by by eapply lookup_lt_Some.
  assert (HB : forall j bj, <[i := b']> (gw_buckets m) !! j = Some bj ->
               j = i /\ bj = b' \/ j ≠ i /\ gw_buckets m !! j = Some bj).
  { intros j bj. destruct (decide (j = i)) as [->|Hne].
    - rewrite list_lookup_insert_eq by done. intros [= <-]. auto.
    - rewrite list_lookup_insert_ne by done. auto. }
  constructor; simpl; try done.
  - rewrite length_insert. apply (to_size _ _ H).
  - intros j bj p [[-> ->]|[Hne Hj]]%HB Hp; setoid_rewrite HI; [by apply HW|].
    destruct (to_waiting _ _ H _ _ _ Hj Hp) as (tk & Hk & Hs & ->). exists tk.
    split; [by apply HO|]. done.
  - intros p tk Hk Hs. rewrite HI. specialize (HL p tk Hk Hs). subst idx. simpl in HL.
    case_decide as E.
    + exists b'. rewrite E, list_lookup_insert_eq by done. done.
    + destruct (to_listed _ _ H p tk HL Hs) as (bj & Hj & Hin). exists bj.
      by rewrite list_lookup_insert_ne by done.
  - intros j bj [[-> ->]|[_ Hj]]%HB; [done|]. by eapply to_nodup.
  - intros j bj p [[-> ->]|[Hne Hj]]%HB Hp; [by apply HP|]. by eapply HPO.
  - intros j bj [[-> ->]|[_ Hj]]%HB; [done|]. by eapply to_pool_nodup.
  - intros j k bj bk p [[-> ->]|[Hj1 Hj]]%HB [[-> ->]|[Hk1 Hk]]%HB Hp Hq; [done| | |].
    + by destruct (HPO _ _ _ Hk1 Hk Hq).
    + by destruct (HPO _ _ _ Hj1 Hj Hp).
    + by eapply to_pools_apart.
Qed.

(** *** A report *)

Lemma tk_reach_waiting key idx tk :
  tk_signalled (tk_reach key idx tk) = false -> tk_reach key idx tk = tk /\ tk_signalled tk = false.
Proof. unfold tk_reach. case_bool_decide; simpl; [done|auto]. Qed.

(** Whether a record is done is whether its ticket is signalled. *)
Lemma waiting_ticket st t p tk :
  store_ok st t -> t !! p = Some tk -> waiting_in st p <-> tk_signalled tk = false.
Proof.
  intros H Hk. destruct (so_backed _ _ H p tk Hk) as (ch & E & _). unfold waiting_in. rewrite E.
  split; [by intros (gp & [= <-] & ?)|]. eauto.
Qed.

Lemma gdidApply_ok m t key idx :
  table_ok m t ->
  exists m', gdidApply m key idx = Ok m' /\ table_ok m' (tk_reach key idx <$> t).
Proof.
  intros H. destruct (bucketIndex_lt m t key H) as [b Hb]. unfold gdidApply, with_bucket.
  rewrite Hb. unfold wb_didApply.
  assert (Hlive : forall p, p ∈ wb_progresses b -> is_Some (t !! p)).
  { intros p Hp. destruct (to_waiting _ _ H _ _ _ Hb Hp) as (tk & ? & _). eauto. }
  destruct (gsignal_ok (gw_store m) t key idx (wb_progresses b)) as (st' & -> & Hst & Hd);
    [apply H|by apply Forall_forall|]. cbn [res_bind].
  rewrite (reach_fold m t key idx b H Hb) in Hst.
  assert (Hheap : forall p, is_Some (st_progress (gw_store m) !! p) -> is_Some (st_progress st' !! p)).
  { intros p. by rewrite <-!elem_of_dom, Hd. }
  assert (Hst' : forall p tk, t !! p = Some tk -> (tk_reach key idx <$> t) !! p = Some (tk_reach key idx tk)).
  { intros p tk Hp. by rewrite lookup_fmap, Hp. }
  rewrite gclean_ok; [|apply Forall_forall; intros p Hp| lia | constructor].
  2:{ apply Hheap. destruct (Hlive p Hp) as [tk Hk].
      destruct (so_backed _ _ (to_store _ _ H) p tk Hk) as (? & -> & _). eauto. }
  simpl. eexists. split; [done|]. eapply table_ok_set; try done; simpl.
  - intros p [Hw Hp]%list_elem_of_filter.
    destruct (to_waiting _ _ H _ _ _ Hb Hp) as (tk & Hk & Hs & E).
    apply (waiting_ticket _ _ _ _ Hst (Hst' p tk Hk)) in Hw.
    exists (tk_reach key idx tk). rewrite (proj1 (tk_reach_key key idx tk)). eauto.
  - intros p tk Hk Hs Hne. rewrite (Hst' p tk Hk), tk_reach_idle; [done|]. intros <- _. done.
  - intros p tk' Hk' Hs. rewrite lookup_fmap in Hk'. destruct (t !! p) as [tk|] eqn:Hk; [|done].
    simpl in Hk'. injection Hk' as <-. destruct (tk_reach_waiting _ _ _ Hs) as [E Hs'].
    rewrite E. case_decide as Ei; [|done]. apply list_elem_of_filter. split.
    + apply (waiting_ticket _ _ _ _ Hst (Hst' p tk Hk)). done.
    + destruct (to_listed _ _ H p tk Hk Hs') as (b' & Hb' & Hin). rewrite Ei in Hb'. congruence.
  - apply NoDup_filter. by eapply to_nodup.
  - intros p Hp. destruct (to_pooled _ _ H _ _ _ Hb Hp) as [E ?]. rewrite lookup_fmap, E. auto.
  - by eapply to_pool_nodup.
  - intros j bj p Hne Hj Hp. destruct (to_pooled _ _ H _ _ _ Hj Hp) as [E ?].
    rewrite lookup_fmap, E. split; [|auto]. intros Hp'. apply Hne. by eapply to_pools_apart.
Qed.

(** *** A registration *)

(** The record a pool gives out is in use by nobody and in no pool. *)
Lemma poolGet_ok m t i b pick st1 b1 p :
  table_ok m t -> gw_buckets m !! i = Some b ->
  poolGet (gw_store m) b pick = (st1, b1, p) ->
  store_ok st1 t /\ t !! p = None /\ (p < st_nextP st1)%nat /\
  wb_progresses b1 = wb_progresses b /\ NoDup (wb_progressPool b1) /\
  (forall q, q ∈ wb_progressPool b1 -> q ∈ wb_progressPool b /\ q ≠ p) /\
  (forall j bj, j ≠ i -> gw_buckets m !! j = Some bj -> p ∉ wb_progressPool bj) /\
  (forall q, is_Some (st_progress (gw_store m) !! q) -> is_Some (st_progress st1 !! q)).
Proof.
  intros H Hb. unfold poolGet.
  destruct (i0 ← pick; p0 ← wb_progressPool b !! i0; Some (i0, p0)) as [[i0 p0]|] eqn:E.
  - apply bind_Some in E as (i1 & _ & E). apply bind_Some in E as (p1 & Hp & [= <- <-]).
    intros [= <- <- <-]. simpl. pose proof (list_elem_of_lookup_2 _ _ _ Hp) as Hin.
    destruct (to_pooled _ _ H _ _ _ Hb Hin) as [Hn Hs].
    pose proof (to_pool_nodup _ _ H _ _ Hb) as Hnd.
    split; [apply H|]. split; [done|]. split; [by apply (to_store _ _ H)|]. split; [done|].
    rewrite delete_take_drop. rewrite <-(take_drop_middle _ _ _ Hp) in Hnd.
    apply NoDup_app in Hnd as (Hn1 & Hn2 & [Hn3 Hn4]%NoDup_cons).
    split; [|split; [|split; [|done]]].
    + apply NoDup_app. split; [done|]. split; [|done]. intros x Hx Hx'. apply (Hn2 x Hx). by constructor.
    + intros q [Hq|Hq]%elem_of_app.
      * split; [by apply (sublist_subseteq _ _ (sublist_take _ _)) in Hq|]. intros ->. apply (Hn2 _ Hq). constructor.
      * split; [by apply (sublist_subseteq _ _ (sublist_drop _ _)) in Hq|]. by intros ->.
    + intros j bj Hne Hj Hin'. apply Hne. by eapply to_pools_apart.
  - intros [= <- <- <-]. simpl. pose proof (to_store _ _ H) as [Hbk Ha Hp Hc].
    assert (Hfresh : st_progress (gw_store m) !! st_nextP (gw_store m) = None).
    { destruct (st_progress (gw_store m) !! st_nextP (gw_store m)) eqn:F; [|done].
      pose proof (Hp _ ltac:(eauto)). lia. }
    assert (Ht : t !! st_nextP (gw_store m) = None).
    { destruct (t !! st_nextP (gw_store m)) eqn:F; [|done].
      destruct (Hbk _ _ F) as (? & F' & _). congruence. }
    assert (Hne : forall q tq, t !! q = Some tq -> q ≠ st_nextP (gw_store m)) by congruence.
    split; [constructor; simpl|].
    + intros q tk Hq. destruct (Hbk q tk Hq) as (ch & ? & ?). exists ch. simpl.
      by rewrite lookup_insert_ne by congruence.
    + intros q r tq tr gq gr Hq Hr.
      rewrite !lookup_insert_ne by congruence. eauto.
    + intros q [? [[<- _]|[_ ?]]%lookup_insert_Some]; [lia|]. apply Nat.lt_lt_succ_r. eauto.
    + done.
    + split; [done|]. split; [lia|]. split; [done|]. split; [by eapply to_pool_nodup|].
      assert (Hpool : forall j bj q, gw_buckets m !! j = Some bj -> q ∈ wb_progressPool bj ->
                      q ≠ st_nextP (gw_store m)).
      { intros j bj q Hj Hq ->. destruct (to_pooled _ _ H _ _ _ Hj Hq) as [_ [? ?]]. congruence. }
      split; [eauto|]. split; [intros j bj _ Hj Hq; by eapply Hpool|].
      intros q [? ?]. destruct (decide (q = st_nextP (gw_store m))) as [->|];
        [rewrite lookup_insert_eq|rewrite lookup_insert_ne by done]; eauto.
Qed.

(** The store after a registration, and whether the record joins the bucket. *)
Lemma wb_waitApply_ok st1 b1 p t key maxIndex applied st b pick :
  poolGet st b pick = (st1, b1, p) -> store_ok st1 t -> t !! p = None -> (p < st_nextP st1)%nat ->
  let tk := new_ticket key maxIndex applied in
  exists st', wb_waitApply st b key maxIndex applied pick =
    Ok (st', if tk_signalled tk then b1
             else {| b1 with wb_progresses := wb_progresses b1 ++ [p] |}, p) /\
    store_ok st' (<[p := tk]> t) /\
    (forall q, is_Some (st_progress st1 !! q) -> is_Some (st_progress st' !! q)).
Proof.
  intros Hg Hst Hn Hp tk. unfold wb_waitApply. rewrite Hg.
  set (ch := st_nextC st1). set (gp := mkGProgress maxIndex (Some ch) true (tk_signalled tk) key).
  set (st' := mkStore (<[p := gp]> (st_progress st1))
                      (<[ch := mkChannel (items_of tk) false]> (st_chans st1))
                      (st_nextP st1) (S ch)).
  assert (Hst' : store_ok st' (<[p := tk]> t)).
  { eapply (store_ok_set st1 t st' _ p ch gp _ Hst); simpl; try done; try lia.
    - intros q tq gq _ Hq Gq E. destruct (so_backed _ _ Hst q tq Hq) as (x & Ex & Hx & _).
      rewrite Ex in Gq. injection Gq as <-. simpl in E. injection E as ->.
      pose proof (so_chans _ _ Hst ch ltac:(eauto)). lia.
    - intros q Hq. by rewrite lookup_insert_ne.
    - by rewrite lookup_insert_eq. }
  assert (Hheap : forall q, is_Some (st_progress st1 !! q) -> is_Some (st_progress st' !! q)).
  { intros q Hq. simpl. destruct (decide (q = p)) as [->|];
      [rewrite lookup_insert_eq|rewrite lookup_insert_ne by done]; eauto. }
  exists st'. split; [|done]. subst st' gp tk ch. unfold new_ticket, items_of in *. simpl.
  destruct (match applied with Some a => maxIndex <=? a | None => false end).
  - unfold send. simpl. rewrite lookup_insert_eq. simpl. by rewrite !insert_insert_eq.
  - done.
Qed.

Lemma gwaitApply_ok m t key maxIndex applied pick :
  table_ok m t ->
  exists m' p, gwaitApply m key maxIndex applied pick = Ok (m', p) /\ t !! p = None /\
    table_ok m' (<[p := new_ticket key maxIndex applied]> t).
Proof.
  intros H. destruct (bucketIndex_lt m t key H) as [b Hb]. unfold gwaitApply, with_bucket.
  rewrite Hb. destruct (poolGet (gw_store m) b pick) as [[st1 b1] p] eqn:Hg.
  destruct (poolGet_ok m t _ b pick st1 b1 p H Hb Hg) as (Hst & Hn & Hlt & Hps & Hnd & Hpool & Hoth & Hh).
  destruct (wb_waitApply_ok st1 b1 p t key maxIndex applied _ b pick Hg Hst Hn Hlt)
    as (st' & -> & Hst' & Hh').
  cbn [res_bind]. do 2 eexists. split; [done|]. split; [done|].
  set (tk := new_ticket key maxIndex applied) in *.
  assert (Hkey : tk_key tk = key) by done.
  assert (Hne : forall q tq, t !! q = Some tq -> q ≠ p) by congruence.
  assert (Hin : forall q, q ∈ wb_progresses b -> q ≠ p).
  { intros q Hq. destruct (to_waiting _ _ H _ _ _ Hb Hq) as (x & Hx & _). eauto. }
  eapply table_ok_set; try done.
  - intros q Hq. destruct (decide (q = p)) as [->|Hqp].
    + exists tk. rewrite lookup_insert_eq. destruct (tk_signalled tk) eqn:Es; [|by rewrite Hkey].
      rewrite Hps in Hq. by destruct (Hin p Hq).
    + destruct (to_waiting _ _ H _ _ q Hb) as (x & Hx).
      { destruct (tk_signalled tk); simpl in Hq; rewrite Hps in Hq; [done|].
        by apply elem_of_app in Hq as [?|?%list_elem_of_singleton]. }
      exists x. by rewrite lookup_insert_ne.
  - intros q tq Hq _ _. rewrite lookup_insert_ne; [done|]. intros ->. by eapply Hne.
  - intros q tq Hq Hs. apply lookup_insert_Some in Hq as [[<- <-]|[Hqp Hq]].
    + rewrite Hkey, decide_True by done. rewrite Hs. simpl. apply elem_of_app. right. constructor.
    + case_decide as Ei; [|done]. destruct (to_listed _ _ H q tq Hq Hs) as (b' & Hb' & Hq').
      rewrite Ei, Hb in Hb'. injection Hb' as <-. rewrite <-Hps in Hq'.
      destruct (tk_signalled tk); simpl; [done|]. apply elem_of_app. by left.
  - pose proof (to_nodup _ _ H _ _ Hb) as Hn'. rewrite <-Hps in Hn'.
    destruct (tk_signalled tk); simpl; [done|]. apply NoDup_app. split; [done|].
    split; [|apply NoDup_singleton]. intros q Hq ->%list_elem_of_singleton.
    rewrite Hps in Hq. by destruct (Hin p Hq).
  - intros q Hq. assert (Hq' : q ∈ wb_progressPool b1) by (by destruct (tk_signalled tk)).
    destruct (Hpool q Hq') as [Hqb Hqp]. destruct (to_pooled _ _ H _ _ _ Hb Hqb).
    rewrite lookup_insert_ne by done. auto.
  - by destruct (tk_signalled tk).
  - intros j bj q Hj Hbj Hq. destruct (to_pooled _ _ H _ _ _ Hbj Hq) as [E ?].
    rewrite lookup_insert_ne by (intros ->; by eapply Hoth). split; [|auto]. intros Hq'.
    assert (q ∈ wb_progressPool b1) as [Hqb _]%Hpool by (by destruct (tk_signalled tk)).
    apply Hj. by eapply to_pools_apart.
Qed.

(** *** Giving a record back *)

Lemma remove_first_notin p ps : p ∉ ps -> remove_first p ps = ps.
Proof.
  induction ps as [|q ps IH]; [done|]. intros [Hq Hp]%not_elem_of_cons. simpl.
  rewrite bool_decide_eq_false_2 by congruence. by rewrite IH.
Qed.

Lemma remove_first_elem p q ps : NoDup ps -> q ∈ remove_first p ps <-> q ∈ ps /\ q ≠ p.
Proof.
  induction 1 as [|x ps Hx Hn IH]; simpl; [set_solver|].
  case_bool_decide as E.
  - subst. rewrite elem_of_cons. split; [intros Hq; split; [auto|by intros ->]|].
    by intros [[->|?] ?].
  - rewrite !elem_of_cons, IH. split; [|tauto]. intros [->|[? ?]]; auto.
Qed.

Lemma remove_first_nodup p ps : NoDup ps -> NoDup (remove_first p ps).
Proof.
  induction 1 as [|x ps Hx Hn IH]; simpl; [constructor|].
  case_bool_decide; [done|]. constructor; [|done]. by rewrite remove_first_elem by done; intros [? _].
Qed.

Lemma wb_put_ok st b p tk t :
  store_ok st t -> t !! p = Some tk ->
  exists st', wb_put st b p =
    Ok (st', mkWaitBucket (remove_first p (wb_progresses b)) (wb_progressPool b ++ [p])) /\
    store_ok st' (delete p t) /\
    (forall q, is_Some (st_progress st !! q) -> is_Some (st_progress st' !! q)).
Proof.
  intros H Hk. destruct (store_ok_ticket _ _ _ _ H Hk) as (ch & H1 & H2 & _ & H4 & H5 & H6).
  unfold wb_put. rewrite H1. simpl. rewrite H2. simpl. eexists. split; [done|]. split.
  - eapply (store_ok_set st t _ _ p ch); simpl; try done.
    + intros q Hq. by rewrite lookup_delete_ne.
    + by rewrite lookup_delete_eq.
  - intros q Hq. simpl. destruct (decide (q = p)) as [->|];
      [rewrite lookup_insert_eq|rewrite lookup_insert_ne by done]; eauto.
Qed.

Lemma gput_ok m t p :
  table_ok m t -> is_Some (t !! p) ->
  exists m', gput m p = Ok m' /\ table_ok m' (delete p t).
Proof.
  intros H [tk Hk]. destruct (so_backed _ _ (to_store _ _ H) p tk Hk) as (ch & H1 & _).
  unfold gput, with_bucket. rewrite H1. simpl gp_key.
  destruct (bucketIndex_lt m t (tk_key tk) H) as [b Hb]. rewrite Hb.
  destruct (wb_put_ok (gw_store m) b p tk t (to_store _ _ H) Hk) as (st' & -> & Hst & Hh).
  cbn [res_bind]. eexists. split; [done|].
  pose proof (to_nodup _ _ H _ _ Hb) as Hnd.
  assert (Hpool : forall i bi q, gw_buckets m !! i = Some bi -> q ∈ wb_progressPool bi ->
                  q ≠ p /\ delete p t !! q = None /\ is_Some (st_progress st' !! q)).
  { intros i bi q Hi Hq. destruct (to_pooled _ _ H _ _ _ Hi Hq) as [Hn ?].
    split; [congruence|]. split; [|auto]. by rewrite lookup_delete_ne by congruence. }
  eapply table_ok_set; try done; simpl.
  - intros q [Hq Hqp]%remove_first_elem; [|done].
    rewrite lookup_delete_ne by done. by eapply to_waiting.
  - intros q tq Hq _ Hne. rewrite lookup_delete_ne; [done|]. intros <-. congruence.
  - intros q tq [Hqp Hq]%lookup_delete_Some Hs. case_decide as Ei; [|done].
    apply remove_first_elem; [done|]. destruct (to_listed _ _ H q tq Hq Hs) as (b' & Hb' & ?).
    rewrite Ei, Hb in Hb'. injection Hb' as <-. auto.
  - by apply remove_first_nodup.
  - intros q [Hq| ->%list_elem_of_singleton]%elem_of_app; [by eapply Hpool|].
    rewrite lookup_delete_eq. split; [done|]. apply Hh. eauto.
  - apply NoDup_app. split; [by eapply to_pool_nodup|]. split; [|apply NoDup_singleton].
    intros q Hq ->%list_elem_of_singleton. by destruct (Hpool _ _ _ Hb Hq).
  - intros j bj q Hj Hbj Hq. destruct (Hpool _ _ _ Hbj Hq) as (Hqp & ? & ?). split; [|done].
    intros [Hq'|?%list_elem_of_singleton]%elem_of_app; [|done]. apply Hj. by eapply to_pools_apart.
Qed.

(** *** Taking a signal *)

Lemma recv_ok m t p tk :
  table_ok m t -> t !! p = Some tk ->
  match recv m p with
  | Some m' => tk_signalled tk = true /\ tk_received tk = false /\
               table_ok m' (<[p := {| tk with tk_received := true |}]> t)
  | None => tk_signalled tk = false \/ tk_received tk = true
  end.
Proof.
  intros H Hk.
  destruct (store_ok_ticket _ _ _ _ (to_store _ _ H) Hk) as (ch & H1 & H2 & H3 & H4 & H5 & H6).
  unfold recv. rewrite H1. simpl. rewrite H2. simpl. unfold items_of.
  destruct (tk_signalled tk) eqn:Hs, (tk_received tk) eqn:Hr; simpl; auto.
  split; [done|]. split; [done|].
  set (tk' := mkTicket (tk_key tk) (tk_maxIndex tk) true true).
  set (st' := {| (gw_store m) with st_chans := _ |}).
  assert (Hst : store_ok st' (<[p := tk']> t)).
  { eapply (store_ok_set (gw_store m) t st' _ p ch _ _ (to_store _ _ H)); simpl; try done.
    - symmetry. apply (insert_id _ _ _ H1).
    - intros q Hq. by rewrite lookup_insert_ne.
    - rewrite lookup_insert_eq. simpl. done. }
  destruct H. constructor; simpl; try done.
  - intros i b q Hi Hq. destruct (to_waiting0 i b q Hi Hq) as (x & Hx & Hxs & Hxi). exists x.
    rewrite lookup_insert_ne; [done|]. intros ->. congruence.
  - intros q tq [[<- <-]|[_ Hq]]%lookup_insert_Some Hqs; [done|eauto].
  - intros i b q Hi Hq. destruct (to_pooled0 i b q Hi Hq) as [Hn ?].
    rewrite lookup_insert_ne by congruence. done.
Qed.

Lemma wstep_ok m t m' t' : wstep (m, t) (m', t') -> table_ok m t -> table_ok m' t'.
Proof.
  intros H Ht. inversion H; subst.
  - destruct (gwaitApply_ok m t key maxIndex applied pick Ht) as (m1 & p1 & E & _ & ?). congruence.
  - destruct (gdidApply_ok m t key maxLogIndex Ht) as (m1 & E & ?). congruence.
  - pose proof (recv_ok m t p tk Ht ltac:(done)) as HR.
    match goal with E : recv m p = _ |- _ => rewrite E in HR end. apply HR.
  - destruct (gput_ok m t p Ht ltac:(done)) as (m1 & E & ?). congruence.
Qed.

Lemma reachable_ok s : rtc wstep (gnewWait, ∅) s -> table_ok s.1 s.2.
Proof.
  intros H. remember (gnewWait, ∅) as s0 eqn:E0.
  assert (H0 : table_ok s0.1 s0.2) by (subst; apply table_ok_new). clear E0.
  induction H as [|[m t] [m' t'] s Hst _ IH]; [done|]. apply IH. by apply (wstep_ok m t).
Qed.

(** ** Theorems *)

Module GroupWaitProps.

(** C35.  The table of the waiters refines a table of tickets, one per call of
    [waitApply], for every hash collision, every choice of the pools and every
    order of registrations, reports, receptions and returns by proposers that use
    only the records they hold.  In every reachable state: a registration returns
    a record nobody holds, with a ticket that is signalled at once exactly when
    the index read is reached; a report for a raft signals exactly the tickets of
    this raft up to the reported index; no operation panics or blocks on a
    channel; and the channel of a record has a signal to take exactly when its
    ticket was signalled and the signal not taken. *)
Theorem waiters_refine_tickets (m : gwait) (t : table) :
  rtc wstep (gnewWait, ∅) (m, t) ->
  (forall key maxIndex applied pick,
     returns (gwaitApply m key maxIndex applied pick) (fun '(m', p) =>
       t !! p = None /\
       rtc wstep (gnewWait, ∅) (m', <[p := new_ticket key maxIndex applied]> t))) /\
  (forall key maxLogIndex, is_Ok (gdidApply m key maxLogIndex)) /\
  (forall p, is_Some (t !! p) -> is_Ok (gput m p)) /\
  (forall p tk, t !! p = Some tk ->
     is_Some (recv m p) <-> tk_signalled tk = true /\ tk_received tk = false).
Proof.
  intros Hr. pose proof (reachable_ok _ Hr) as H. simpl in H. split; [|split; [|split]].
  - intros key maxIndex applied pick.
    destruct (gwaitApply_ok m t key maxIndex applied pick H) as (m' & p & E & Hn & _).
    exists (m', p). split; [done|]. split; [done|].
    eapply rtc_r; [exact Hr|]. by eapply W_wait.
  - intros key maxLogIndex. destruct (gdidApply_ok m t key maxLogIndex H) as (m' & E & _). by exists m'.
  - intros p Hp. destruct (gput_ok m t p H Hp) as (m' & E & _). by exists m'.
  - intros p tk Hk. pose proof (recv_ok m t p tk H Hk) as HR. destruct (recv m p).
    + destruct HR as (? & ? & _). split; eauto.
    + split; [by intros [? [=]]|]. intros [? ?]. destruct HR; congruence.
Qed.

Lemma waiters_refine_tickets_witness :
  exists m t, rtc wstep (gnewWait, ∅) (m, t) /\
    (forall p tk, t !! p = Some tk ->
       is_Some (recv m p) <-> tk_signalled tk = true /\ tk_received tk = false) /\
    t !! 0%nat = Some (mkTicket "a" 5 true false) /\ t !! 1%nat = Some (mkTicket "a" 7 false false).
Proof.
  assert (Hr : exists m, rtc wstep (gnewWait, ∅)
            (m, tk_reach "a" 5 <$> <[1%nat := new_ticket "a" 7 (Some 3)]>
                                     (<[0%nat := new_ticket "a" 5 (Some 3)]> ∅))).
  { eexists. eapply rtc_l; [eapply (W_wait _ _ "a" 5 (Some 3) None); vm_compute; reflexivity|].
    eapply rtc_l; [eapply (W_wait _ _ "a" 7 (Some 3) None); vm_compute; reflexivity|].
    eapply rtc_l; [eapply (W_did _ _ "a" 5); vm_compute; reflexivity|]. apply rtc_refl. }
  destruct Hr as [m Hr]. exists m, (tk_reach "a" 5 <$> <[1%nat := new_ticket "a" 7 (Some 3)]>
                                     (<[0%nat := new_ticket "a" 5 (Some 3)]> ∅)).
  split; [exact Hr|]. split; [apply (waiters_refine_tickets _ _ Hr)|].
  split; vm_compute; reflexivity.
Defined.

(** The hash of the buckets, computed in a signed accumulator of 64 bits
    and cut at the end, is the 32 bit FNV-1a hash of the bytes of the key, and
    every key has a bucket. *)
Theorem bucket_hash_is_fnv1a (key : string) :
  fnv32 key = fnv1a (key_bytes key) /\ 0 <= bucketIndex gnewWait key < 100.
Proof.
  split; [apply fnv32_fnv1a|]. unfold bucketIndex.
  change (u32 (len (gw_buckets gnewWait))) with 100. apply Z.mod_pos_bound. lia.
Qed.
End GroupWaitProps.
