(* ===== verification/RaftGroup.v ===== *)
(** * A group of rafts

    [pkg/raft/raftgroup]: one event loop drives many rafts.  Events for all of
    them arrive through one queue ([GroupQueue]) with the key of their raft; the
    loop looks the raft up ([GroupList]), steps it, then asks every raft for its
    ready events and hands the local ones to a pool of workers, which report
    through the queue.  Proposers run concurrently with the loop: they read the
    published state of a raft, wait for the answer to their event and then for
    the application of their log ([GroupWait]).

    A raft of the group is a [Node]; the group holds one per key.  The storage is
    the class [GStorage], keyed by raft.  Whether a submission to the pool
    succeeds is an oracle. *)

From S2P Require Import Prelude RaftTypes RaftQueue RaftNode WkProto RaftCodec.
From S2P Require Import GroupQueue GroupList GroupWait.

(** ** Storage *)

(** [pkg/raft/raftgroup/storage.go] [IStorage]

    A reading operation returns [None] on an error; a writing one returns the
    new state and whether it succeeded. *)
Class GStorage (St : Type) := {
  AppendLogs : St -> string -> list Log -> option TermStartIndexInfo -> St * bool;
  GetTermStartIndex : St -> string -> Z -> option Z;
  LeaderLastLogTerm : St -> string -> option Z;
  LeaderTermGreaterEqThan : St -> string -> Z -> option Z;
  GetLogs : St -> string -> Z -> Z -> Z -> option (list Log);
  Apply : St -> string -> list Log -> St * bool;
  TruncateLogTo : St -> string -> Z -> St * bool;
  DeleteLeaderTermStartIndexGreaterThanTerm : St -> string -> Z -> St * bool;
  SaveConfig : St -> string -> Config -> St * bool
}.

(** [pkg/raft/raftgroup/options.go] [Options]

    The fields the loop and the workers read. *)
Record GOptions := mkGOptions {
  go_ReceiveQueueLength : Z;
  go_MaxLogSizePerBatch : Z;
  go_NotNeedApplied : bool;
  go_HasAppliedObserver : bool
}.

(** [pkg/raft/raftgroup/options.go] [NewOptions] *)
Definition NewGOptions : GOptions := mkGOptions 1024 (1024 * 1024 * 10) false false.

Section Group.
Context (growslice : Z -> Z -> Z) {W : WkProto} {St : Type} {HS : GStorage St}.

(** ** State *)

(** A task of the worker pool, with the key of its raft. *)
Inductive gjob :=
| JStore (key : string) (e : Event)
| JGetLogs (key : string) (e : Event)
| JTruncate (key : string) (e : Event)
| JApply (key : string) (e : Event)
| JRoleChange (key : string) (e : Event)
| JSendPropose (key : string) (e : Event).

(** [pkg/raft/raftgroup/raftgroup.go] [RaftGroup]

    [rg_nodes] are the rafts themselves, [rg_locks] the rafts whose mutex is
    held, [rg_answers] what was sent on the channel of an event that carries
    one, [rg_sent] what the transport was given, [rg_observed] the calls of the
    applied observer.  The other fields are as in [RaftDriver]. *)
Record RaftGroup := mkRaftGroup {
  rg_raftList : linkedList (R := string);
  rg_nodes : gmap string Node;
  rg_locks : gset string;
  rg_mq : EventQueue;
  rg_wait : gwait;
  rg_store : St;
  rg_opts : GOptions;
  rg_jobs : list gjob;
  rg_applyWG : Z;
  rg_sent : list (string * Event);
  rg_observed : list (string * Z);
  rg_answers : gmap nat (option GoError);
  rg_advanced : bool;
  rg_fowardProposeWait : gmap Z unit;
  rg_triggered : list (Z * option (list ProposeResp));
  rg_submit : nat -> bool;
  rg_submits : nat
}.

(** The rafts are identified by their keys. *)
Definition raftKey (key : string) : string := key.

(** [pkg/raft/raftgroup/raftgroup.go] [New] *)
Definition New (store : St) (opts : GOptions) (submit : nat -> bool) : RaftGroup :=
  {| rg_raftList := newLinkedList; rg_nodes := ∅; rg_locks := ∅;
     rg_mq := NewEventQueue (go_ReceiveQueueLength opts) false 0 0;
     rg_wait := gnewWait; rg_store := store; rg_opts := opts; rg_jobs := [];
     rg_applyWG := 0; rg_sent := []; rg_observed := []; rg_answers := ∅;
     rg_advanced := false; rg_fowardProposeWait := ∅; rg_triggered := [];
     rg_submit := submit; rg_submits := 0 |}.

(** The raft behind a pointer. *)
Definition node_of (rg : RaftGroup) (key : string) : res Node :=
  match rg_nodes rg !! key with
  | Some n => Ok n
  | None => Panic
  end.
Definition set_node (rg : RaftGroup) (key : string) (n : Node) : RaftGroup :=
  {| rg with rg_nodes := <[key := n]> (rg_nodes rg) |}.
Definition set_store (rg : RaftGroup) (s : St) : RaftGroup := {| rg with rg_store := s |}.
Definition send_to (rg : RaftGroup) (key : string) (e : Event) : RaftGroup :=
  {| rg with rg_sent := rg_sent rg ++ [(key, e)] |}.

(** [pkg/raft/raftgroup/raftgroup.go] [(rg *RaftGroup) AddRaft]

    A raft whose key is in the list already is not added. *)
Definition AddRaft (rg : RaftGroup) (key : string) (n : Node) : res RaftGroup :=
  let! found := existNoLock (rg_raftList rg) key in
  let! ll := push raftKey (rg_raftList rg) key in
  let rg := {| rg with rg_raftList := ll |} in
  Ok (if found then rg else set_node rg key n).

(** [pkg/raft/raftgroup/raftgroup.go] [(rg *RaftGroup) RemoveRaft] *)
Definition RemoveRaft (rg : RaftGroup) (key : string) : res RaftGroup :=
  let! ll := remove raftKey (rg_raftList rg) key in
  Ok {| rg with rg_raftList := ll |}.

(** [pkg/raft/raftgroup/raftgroup.go] [(rg *RaftGroup) GetRaft] *)
Definition GetRaft (rg : RaftGroup) (key : string) : res (option string) :=
  get (rg_raftList rg) key.

(** [pkg/raft/raftgroup/raftgroup.go] [(rg *RaftGroup) IsLeader] *)
Definition Group_IsLeader (rg : RaftGroup) (key : string) : res bool :=
  let! raft := get (rg_raftList rg) key in
  match raft with
  | None => Ok false
  | Some key => let! n := node_of rg key in IsLeader n
  end.

(** [pkg/raft/raftgroup/raftgroup.go] [(rg *RaftGroup) Advance] *)
Definition Advance (rg : RaftGroup) : RaftGroup := {| rg with rg_advanced := true |}.

(** [rg.goPool.Submit]. *)
Definition gsubmit (rg : RaftGroup) (j : gjob) : RaftGroup * bool :=
  let ok := rg_submit rg (rg_submits rg) in
  let rg := {| rg with rg_submits := S (rg_submits rg) |} in
  (if ok then {| rg with rg_jobs := rg_jobs rg ++ [j] |} else rg, ok).

Definition mustAdd (rg : RaftGroup) (m : GEvent) : RaftGroup :=
  {| rg with rg_mq := MustAdd growslice (rg_mq rg) m |}.

(** [pkg/raft/raftgroup/raftgroup_propose.go] [(rg *RaftGroup) handleSendProposeResp] *)
Definition handleSendProposeResp (rg : RaftGroup) (e : Event) : res RaftGroup :=
  match ev_Logs e with
  | [] => Panic
  | l :: _ =>
      match ProposeRespSet_Unmarshal (log_Data l) with
      | None => Ok rg
      | Some resps =>
          match last resps with
          | None => Panic
          | Some resp =>
              let key := presp_Id resp in
              let x := if bool_decide (ev_Reason e = ReasonError) then None else Some resps in
              match rg_fowardProposeWait rg !! key with
              | None => Ok rg
              | Some _ =>
                  Ok {| rg with rg_fowardProposeWait := delete key (rg_fowardProposeWait rg);
                                rg_triggered := rg_triggered rg ++ [(key, x)] |}
              end
          end
      end
  end.

(** [pkg/raft/raftgroup/raftgroup.go] [(rg *RaftGroup) AddEvent] *)
Definition AddEvent (rg : RaftGroup) (key : string) (e : Event) : res RaftGroup :=
  match ev_Type e with
  | SendPropose => Ok (gsubmit rg (JSendPropose key e)).1
  | SendProposeResp => handleSendProposeResp rg e
  | _ => Ok (mustAdd rg (mkGEvent key e None))
  end.

(** [pkg/raft/raftgroup/raftgroup.go] [(rg *RaftGroup) AddEventWait]

    Until the receive on [waitC]. *)
Definition AddEventWait (rg : RaftGroup) (key : string) (e : Event) (waitC : nat) : RaftGroup :=
  Advance (mustAdd rg (mkGEvent key e (Some waitC))).

(** [pkg/raft/raftgroup/raftgroup.go] [(rg *RaftGroup) TryAddEvent]

    A forwarded batch is handled by the caller's goroutine; the result of [Add]
    is not looked at. *)
Definition TryAddEvent (rg : RaftGroup) (key : string) (e : Event) : res RaftGroup :=
  match ev_Type e with
  | SendPropose => Ok {| rg with rg_jobs := rg_jobs rg ++ [JSendPropose key e] |}
  | SendProposeResp => handleSendProposeResp rg e
  | _ =>
      let! (q, _) := Add (rg_mq rg) (mkGEvent key e None) in
      Ok {| rg with rg_mq := q |}
  end.

(** ** Received events *)

(** [pkg/raft/raftgroup/raftgroup.go] [lines 205-224]

    The first half of the loop of [handleReceivedEvents]: the raft is looked up
    and stepped.  [None] is a raft that is not found. *)
Definition receiveStep (rg : RaftGroup) (m : GEvent)
  : res (RaftGroup * option (option GoError)) :=
  let! raft := get (rg_raftList rg) (ge_RaftKey m) in
  match raft with
  | None =>
      Ok (match ge_WaitC m with
          | Some ch => {| rg with rg_answers := <[ch := Some ErrRaftNotExist]> (rg_answers rg) |}
          | None => rg
          end, None)
  | Some key =>
      let! n := node_of rg key in
      let e := ge_Event m in
      let '(n, e) :=
        if bool_decide (ev_Type e = Propose) then
          let logs := stampLogs (opt_Clock (n_opts n)) (n_reads n) PositionPropose (ev_Logs e) in
          ({| n with n_reads := (n_reads n + 2 * length logs)%nat |}, {| e with ev_Logs := logs |})
        else (n, e) in
      let! (n, err) := Step n e in
      Ok (set_node rg key n, Some err)
  end.

(** [pkg/raft/raftgroup/raftgroup.go] [lines 225-231]

    The second half: the waiters of the raft are told the applied index, and the
    sender of the event the result. *)
Definition receiveDone (rg : RaftGroup) (m : GEvent) (err : option GoError) : res RaftGroup :=
  let e := ge_Event m in
  let! rg :=
    match err with
    | None =>
        if bool_decide (ev_Type e = ApplyResp) && bool_decide (ev_Reason e = ReasonOk) then
          let! n := node_of rg (ge_RaftKey m) in
          let! applied := AppliedIndex n in
          let! w := gdidApply (rg_wait rg) (ge_RaftKey m) applied in
          Ok {| rg with rg_wait := w |}
        else Ok rg
    | Some _ => Ok rg
    end in
  Ok (match ge_WaitC m with
      | Some ch => {| rg with rg_answers := <[ch := err]> (rg_answers rg) |}
      | None => rg
      end).

(** The events of the batch from position [i] on, read through the queue. *)
Fixpoint receiveLoop (count : nat) (b : batch) (i : nat) (rg : RaftGroup) (hasEvent : bool)
  : res (RaftGroup * bool) :=
  match count with
  | O => Ok (rg, hasEvent)
  | S count =>
      match read_batch (rg_mq rg) b !! i with
      | None => Panic
      | Some m =>
          let! (rg, r) := receiveStep rg m in
          match r with
          | None => receiveLoop count b (S i) rg hasEvent
          | Some err =>
              let! rg := receiveDone rg m err in
              receiveLoop count b (S i) rg true
          end
      end
  end.

(** [pkg/raft/raftgroup/raftgroup.go] [(rg *RaftGroup) handleReceivedEvents] *)
Definition handleReceivedEvents (rg : RaftGroup) : res (RaftGroup * bool) :=
  let! (q, b) := Get (rg_mq rg) in
  let rg := {| rg with rg_mq := q |} in
  receiveLoop (length (read_batch q b)) b 0 rg false.

(** ** Ready events *)

Definition respError (t : EventType) : Event :=
  {| emptyEvent with ev_Type := t; ev_Reason := ReasonError |}.

(** [pkg/raft/raftgroup/handle.go] [(rg *RaftGroup) handleStoreReq] *)
Definition handleStoreReq (rg : RaftGroup) (key : string) (e : Event) : res RaftGroup :=
  let '(rg, ok) := gsubmit rg (JStore key e) in
  if ok then Ok rg
  else let! rg := AddEvent rg key (respError StoreResp) in Ok (Advance rg).

(** [pkg/raft/raftgroup/handle.go] [(rg *RaftGroup) handleGetLogsReq]

    The response to a failed submission does not name the replica. *)
Definition handleGetLogsReq (rg : RaftGroup) (key : string) (e : Event) : res RaftGroup :=
  let '(rg, ok) := gsubmit rg (JGetLogs key e) in
  if ok then Ok rg else AddEvent rg key (respError GetLogsResp).

(** [pkg/raft/raftgroup/handle.go] [(rg *RaftGroup) handleTruncateReq] *)
Definition handleTruncateReq (rg : RaftGroup) (key : string) (e : Event) : res RaftGroup :=
  let '(rg, ok) := gsubmit rg (JTruncate key e) in
  if ok then Ok rg else AddEvent rg key (respError TruncateResp).

(** [pkg/raft/raftgroup/handle.go] [(rg *RaftGroup) handleApplyReq] *)
Definition handleApplyReq (rg : RaftGroup) (key : string) (e : Event) : res RaftGroup :=
  let rg := {| rg with rg_applyWG := rg_applyWG rg + 1 |} in
  let '(rg, ok) := gsubmit rg (JApply key e) in
  if ok then Ok rg
  else AddEvent {| rg with rg_applyWG := rg_applyWG rg - 1 |} key (respError ApplyResp).

(** The response type of a role change. *)
Definition roleRespType (t : EventType) : EventType :=
  match t with
  | LearnerToLeaderReq => LearnerToLeaderResp
  | LearnerToFollowerReq => LearnerToFollowerResp
  | FollowerToLeaderReq => FollowerToLeaderResp
  | _ => Unknown
  end.

(** [pkg/raft/raftgroup/handle.go] [(rg *RaftGroup) handleRoleChangeReq] *)
Definition handleRoleChangeReq (rg : RaftGroup) (key : string) (e : Event) : res RaftGroup :=
  let '(rg, ok) := gsubmit rg (JRoleChange key e) in
  if ok then Ok rg
  else AddEvent rg key {| (respError (roleRespType (ev_Type e))) with ev_From := ev_From e |}.

(** [pkg/raft/raftgroup/handle.go] [(rg *RaftGroup) handleDestory] *)
Definition handleDestory (rg : RaftGroup) (key : string) : res RaftGroup := RemoveRaft rg key.

Definition keepAlive (rg : RaftGroup) (key : string) : res RaftGroup :=
  let! n := node_of rg key in Ok (set_node rg key (KeepAlive n)).

(** [pkg/raft/raftgroup/raftgroup.go] [lines 293-304]

    What happens to an event that was not consumed by the switch. *)
Definition routeEvent (rg : RaftGroup) (key : string) (e : Event) : res RaftGroup :=
  if ev_To e =? 0 then Ok rg
  else if ev_To e =? LocalNode then
    let! n := node_of rg key in
    let! (n, _) := Step n e in
    Ok (set_node rg key n)
  else Ok (send_to rg key e).

(** [pkg/raft/raftgroup/raftgroup.go] [lines 265-304]

    The case of [TruncateReq] falls through to the routing. *)
Definition handleReadyEvent (rg : RaftGroup) (key : string) (e : Event) : res RaftGroup :=
  match ev_Type e with
  | StoreReq => let! rg := keepAlive rg key in handleStoreReq rg key e
  | GetLogsReq => let! rg := keepAlive rg key in handleGetLogsReq rg key e
  | TruncateReq =>
      let! rg := keepAlive rg key in
      let! rg := handleTruncateReq rg key e in
      routeEvent rg key e
  | ApplyReq => let! rg := keepAlive rg key in handleApplyReq rg key e
  | Destory => handleDestory rg key
  | LearnerToFollowerReq | LearnerToLeaderReq | FollowerToLeaderReq =>
      let! rg := keepAlive rg key in handleRoleChangeReq rg key e
  | _ => routeEvent rg key e
  end.

(** The events of a ready round are read through the array they share with the
    events the raft emits meanwhile ([readSlot]). *)
Fixpoint readyLoop (count : nat) (events : list Event) (i : nat) (rg : RaftGroup) (key : string)
  : res RaftGroup :=
  match count with
  | O => Ok rg
  | S count =>
      let! n := node_of rg key in
      match readSlot events n i with
      | None => Panic
      | Some e =>
          let! rg := handleReadyEvent rg key e in
          readyLoop count events (S i) rg key
      end
  end.

(** [pkg/raft/raftgroup/raftgroup.go] [(rg *RaftGroup) handleReady] *)
Definition handleReady (rg : RaftGroup) (key : string) : res (RaftGroup * bool) :=
  let! n := node_of rg key in
  let! (n, events) := Ready n in
  let rg := set_node rg key n in
  if len events =? 0 then Ok (rg, false)
  else let! rg := readyLoop (length events) events 0 rg key in Ok (rg, true).

Fixpoint readysLoop (rg : RaftGroup) (rafts : list string) (hasEvent : bool)
  : res (RaftGroup * bool) :=
  match rafts with
  | [] => Ok (rg, hasEvent)
  | key :: rest =>
      let! n := node_of rg key in
      if HasReady n then
        let! (rg, has) := handleReady rg key in
        readysLoop rg rest (if has then true else hasEvent)
      else readysLoop rg rest hasEvent
  end.

(** [pkg/raft/raftgroup/raftgroup.go] [(rg *RaftGroup) handleReadys]

    [tmpRafts] is empty between two calls. *)
Definition handleReadys (rg : RaftGroup) : res (RaftGroup * bool) :=
  let! rafts := readHandlers (rg_raftList rg) [] in
  readysLoop rg rafts false.

(** [pkg/raft/raftgroup/raftgroup.go] [(rg *RaftGroup) readyEvents] *)
Definition readyEvents (rg : RaftGroup) : res RaftGroup :=
  let! (rg, has1) := handleReceivedEvents rg in
  let! (rg, has2) := handleReadys rg in
  Ok (if has1 || has2 then Advance rg else rg).

(** The ticks of the rafts; a proposer may have kept the raft alive since. *)
Fixpoint ticksLoop (rg : RaftGroup) (keptAlive : string -> bool) (rafts : list string)
  : res RaftGroup :=
  match rafts with
  | [] => Ok rg
  | key :: rest =>
      let! n := node_of rg key in
      let! n := Tick n (keptAlive key) in
      ticksLoop (set_node rg key n) keptAlive rest
  end.

(** [pkg/raft/raftgroup/raftgroup.go] [(rg *RaftGroup) ticks] *)
Definition ticks (rg : RaftGroup) (keptAlive : string -> bool) : res RaftGroup :=
  let! rafts := readHandlers (rg_raftList rg) [] in
  ticksLoop rg keptAlive rafts.

(** ** The workers *)

(** [pkg/raft/raftgroup/handle.go] [lines 15-32]

    The worker of [handleStoreReq]; a failing write is a panic. *)
Definition runStore (rg : RaftGroup) (key : string) (e : Event) : res RaftGroup :=
  let '(s, ok) := AppendLogs (rg_store rg) key (ev_Logs e) (ev_TermStartIndexInfo e) in
  if negb ok then Panic
  else
    match last (ev_Logs e) with
    | None => Panic
    | Some l =>
        let! rg := AddEvent (set_store rg s) key
          {| emptyEvent with ev_Type := StoreResp; ev_Index := log_Index l;
               ev_Logs := ev_Logs e; ev_Reason := ReasonOk |} in
        Ok (Advance rg)
    end.

(** [pkg/raft/raftgroup/handle.go] [(rg *RaftGroup) getTrunctLogIndex] *)
Definition getTrunctLogIndex (rg : RaftGroup) (key : string) (e : Event) : res (Z * Reason) :=
  match LeaderLastLogTerm (rg_store rg) key with
  | None => Ok (0, ReasonError)
  | Some leaderLastLogTerm =>
      if ev_LastLogTerm e =? 0 then Ok (0, ReasonOk)
      else if ev_LastLogTerm e =? leaderLastLogTerm then
        if 0 <? ev_Index e then
          let replicaLastLogIndex := ev_Index e -64 1 in
          let! n := node_of rg key in
          let! last := LastLogIndex n in
          if last <? replicaLastLogIndex then Ok (last, ReasonOk) else Ok (0, ReasonOk)
        else Ok (0, ReasonOk)
      else
        let before termStartIndex :=
          if 0 <? termStartIndex then (termStartIndex -64 1, ReasonOk)
          else (termStartIndex, ReasonOk) in
        if ev_LastLogTerm e <? leaderLastLogTerm then
          match LeaderTermGreaterEqThan (rg_store rg) key (u32 (ev_LastLogTerm e + 1)) with
          | None => Ok (0, ReasonError)
          | Some term =>
              match GetTermStartIndex (rg_store rg) key term with
              | None => Ok (0, ReasonError)
              | Some termStartIndex => Ok (before termStartIndex)
              end
          end
        else
          match GetTermStartIndex (rg_store rg) key leaderLastLogTerm with
          | None => Ok (0, ReasonError)
          | Some termStartIndex => Ok (before termStartIndex)
          end
  end.

(** [pkg/raft/raftgroup/handle.go] [lines 44-106]

    The worker of [handleGetLogsReq]; the first error and a failed read do not
    wake the loop. *)
Definition runGetLogs (rg : RaftGroup) (key : string) (e : Event) : res RaftGroup :=
  let resp index logs reason :=
    {| emptyEvent with ev_To := ev_From e; ev_Type := GetLogsResp; ev_Index := index;
         ev_Logs := logs; ev_Reason := reason |} in
  let wake rg := let! rg := rg in Ok (Advance rg) in
  let! (trunctIndex, treason) :=
    if bool_decide (ev_Reason e = ReasonOnlySync) then Ok (0, ReasonOk)
    else getTrunctLogIndex rg key e in
  if negb (bool_decide (treason = ReasonOk)) then AddEvent rg key (resp 0 [] treason)
  else if 0 <? trunctIndex then wake (AddEvent rg key (resp trunctIndex [] ReasonTruncate))
  else if negb (bool_decide (ev_Reason e = ReasonOnlySync)) && (ev_StoredIndex e <? ev_Index e)
  then wake (AddEvent rg key (resp (ev_Index e) [] ReasonOk))
  else
    match GetLogs (rg_store rg) key (ev_Index e) (ev_StoredIndex e +64 1)
            (go_MaxLogSizePerBatch (rg_opts rg)) with
    | None => AddEvent rg key (resp (ev_Index e) [] ReasonError)
    | Some logs => wake (AddEvent rg key (resp (ev_Index e) logs ReasonOk))
    end.

(** [pkg/raft/raftgroup/handle.go] [lines 117-142]

    The worker of [handleTruncateReq]. *)
Definition runTruncate (rg : RaftGroup) (key : string) (e : Event) : res RaftGroup :=
  let '(s, ok) := TruncateLogTo (rg_store rg) key (ev_Index e) in
  let rg := set_store rg s in
  if negb ok then AddEvent rg key (respError TruncateResp)
  else
    let '(s, ok) := DeleteLeaderTermStartIndexGreaterThanTerm s key (ev_LastLogTerm e) in
    let rg := set_store rg s in
    if negb ok then AddEvent rg key (respError TruncateResp)
    else AddEvent rg key {| emptyEvent with ev_Type := TruncateResp; ev_Index := ev_Index e;
                                            ev_Reason := ReasonOk |}.

(** [pkg/raft/raftgroup/handle.go] [lines 154-202]

    The worker of [handleApplyReq]. *)
Definition runApply (rg : RaftGroup) (key : string) (e : Event) : res RaftGroup :=
  let finish rg :=
    let! rg := rg in Ok {| rg with rg_applyWG := rg_applyWG rg - 1 |} in
  let applied rg index :=
    let! rg := AddEvent rg key {| emptyEvent with ev_Type := ApplyResp; ev_Reason := ReasonOk;
                                                  ev_Index := index |} in
    Ok (Advance rg) in
  finish
    (if negb (go_NotNeedApplied (rg_opts rg)) then
       match GetLogs (rg_store rg) key (ev_StartIndex e) (ev_EndIndex e) 0 with
       | None => AddEvent rg key (respError ApplyResp)
       | Some logs =>
           match last logs with
           | None => AddEvent rg key (respError ApplyResp)
           | Some l =>
               let '(s, ok) := Apply (rg_store rg) key logs in
               let rg := set_store rg s in
               if negb ok then AddEvent rg key (respError ApplyResp)
               else applied rg (log_Index l)
           end
       end
     else
       let lastLogIndex := ev_EndIndex e -64 1 in
       let rg := if go_HasAppliedObserver (rg_opts rg)
                 then {| rg with rg_observed := rg_observed rg ++ [(key, lastLogIndex)] |}
                 else rg in
       applied rg lastLogIndex).

(** [pkg/raft/raftgroup/handle.go] [(rg *RaftGroup) learnTo] *)
Definition learnTo (rg : RaftGroup) (key : string) (learnerId : Z) : res (option Config) :=
  let! n := node_of rg key in
  let! cfg := NodeConfig n in
  let cfg := Config_Clone cfg in
  if negb (learnerId =? cfg_MigrateTo cfg) then Ok None
  else
    let cfg := {| cfg with cfg_Learners := RemoveUint64 (cfg_Learners cfg) learnerId |} in
    let cfg := if ArrayContainsUint64 (cfg_Replicas cfg) (cfg_MigrateTo cfg) then cfg
               else {| cfg with cfg_Replicas := cfg_Replicas cfg ++ [cfg_MigrateTo cfg] |} in
    let cfg := if cfg_MigrateFrom cfg =? cfg_MigrateTo cfg then cfg
               else {| cfg with cfg_Replicas :=
                         RemoveUint64 (cfg_Replicas cfg) (cfg_MigrateFrom cfg) |} in
    let! leader := LeaderId n in
    let cfg := if cfg_MigrateFrom cfg =? leader
               then {| cfg with cfg_Leader := cfg_MigrateTo cfg |} else cfg in
    Ok (Some {| cfg with cfg_MigrateFrom := 0; cfg_MigrateTo := 0 |}).

(** [pkg/raft/raftgroup/handle.go] [(rg *RaftGroup) followerToLeader] *)
Definition followerToLeader (rg : RaftGroup) (key : string) (followerId : Z)
  : res (option Config) :=
  let! n := node_of rg key in
  let! cfg := NodeConfig n in
  let cfg := Config_Clone cfg in
  if negb (ArrayContainsUint64 (cfg_Replicas cfg) followerId) then Ok None
  else Ok (Some {| cfg with cfg_Leader := followerId; cfg_Term := u32 (cfg_Term cfg + 1);
                            cfg_MigrateFrom := 0; cfg_MigrateTo := 0 |}).

(** [pkg/raft/raftgroup/handle.go] [lines 269-326]

    The worker of [handleRoleChangeReq]. *)
Definition runRoleChange (rg : RaftGroup) (key : string) (e : Event) : res RaftGroup :=
  let resp reason cfg :=
    {| emptyEvent with ev_Type := roleRespType (ev_Type e); ev_From := ev_From e;
         ev_Reason := reason; ev_Config := cfg |} in
  let! newCfg :=
    match ev_Type e with
    | LearnerToLeaderReq | LearnerToFollowerReq => learnTo rg key (ev_From e)
    | FollowerToLeaderReq => followerToLeader rg key (ev_From e)
    | _ => Ok None
    end in
  match newCfg with
  | None => AddEvent rg key (resp ReasonError emptyConfig)
  | Some newCfg =>
      let '(s, ok) := SaveConfig (rg_store rg) key newCfg in
      let rg := set_store rg s in
      if negb ok then AddEvent rg key (resp ReasonError emptyConfig)
      else let! rg := AddEvent rg key (resp ReasonOk newCfg) in Ok (Advance rg)
  end.

(** ** Proposals

    A proposer holds the mutex of the raft from reading its published last index
    until its event is answered or its deadline passes.  Each function is what a
    proposer does between two of the points where it waits. *)

(** [pkg/raft/raftgroup/raftgroup_propose.go] [lines 173-183] *)
Fixpoint assignLogs (term next : Z) (reqs : list ProposeReq) : list Log :=
  match reqs with
  | [] => []
  | req :: rest =>
      {| EmptyLog with log_Id := preq_Id req; log_Index := next; log_Term := term;
                       log_Data := preq_Data req |} :: assignLogs term (next +64 1) rest
  end.

(** [pkg/raft/raftgroup/raftgroup_propose.go] [lines 90-96]

    The registration of the waiter; [pick] is the choice of the pool.  It returns
    the record and whether the index was applied when it was read. *)
Definition waitForApply (rg : RaftGroup) (key : string) (maxLogIndex : Z) (pick : option nat)
  : res (RaftGroup * nat * bool) :=
  let! n := node_of rg key in
  let! appliedIndex := AppliedIndex n in
  let! (w, p) := gwaitApply (rg_wait rg) key maxLogIndex (Some appliedIndex) pick in
  Ok ({| rg with rg_wait := w |}, p, maxLogIndex <=? appliedIndex).

(** [pkg/raft/raftgroup/raftgroup_propose.go] [lines 168-183]

    The mutex is taken and the logs get the indexes after the published last
    one; [None] while another proposer holds the mutex. *)
Definition proposeAssign (rg : RaftGroup) (key : string) (reqs : list ProposeReq)
  : res (option (RaftGroup * list Log)) :=
  if bool_decide (key ∈ rg_locks rg) then Ok None
  else
    let! n := node_of rg key in
    let rg := {| rg with rg_locks := {[key]} ∪ rg_locks rg |} in
    let n := KeepAlive n in
    let rg := set_node rg key n in
    let! lastLogIndex := LastLogIndex n in
    let! term := LastTerm n in
    Ok (Some (rg, assignLogs term (lastLogIndex +64 1) reqs)).

(** [pkg/raft/raftgroup/raftgroup_propose.go] [lines 189-199]

    The event is queued with the channel [waitC] for its answer. *)
Definition proposeSubmit (rg : RaftGroup) (key : string) (logs : list Log) (waitC : nat)
  : RaftGroup :=
  Advance (mustAdd rg (mkGEvent key {| emptyEvent with ev_Type := Propose; ev_Logs := logs |}
                         (Some waitC))).

(** [pkg/raft/raftgroup/raftgroup_propose.go] [lines 166-199]

    [proposeBatchTimeout] up to its select.  The callback [addBefore] is
    [waitForApply] for the last log, when it is given, and indexes the last log
    of an empty batch. *)
Definition proposeBatchStart (rg : RaftGroup) (key : string) (reqs : list ProposeReq)
    (addBefore : option (option nat)) (waitC : nat)
  : res (option (RaftGroup * list Log * option (nat * bool))) :=
  let! r := proposeAssign rg key reqs in
  match r with
  | None => Ok None
  | Some (rg, logs) =>
      let! (rg, p) :=
        match addBefore with
        | None => Ok (rg, None)
        | Some pick =>
            match last logs with
            | None => Panic
            | Some l =>
                let! (rg, p, already) := waitForApply rg key (log_Index l) pick in
                Ok (rg, Some (p, already))
            end
        end in
      Ok (Some (proposeSubmit rg key logs waitC, logs, p))
  end.

(** [pkg/raft/raftgroup/raftgroup_propose.go] [lines 201-217]

    The select of [proposeBatchTimeout]: the deadline, or the answer; [None]
    while there is neither.  The mutex is released. *)
Definition proposeBatchEnd (rg : RaftGroup) (key : string) (logs : list Log) (waitC : nat)
    (deadline : bool) : option (RaftGroup * (GoError + list ProposeResp)) :=
  let rg' := {| rg with rg_locks := rg_locks rg ∖ {[key]} |} in
  if deadline then Some (rg', inl (ErrOther "propose timeout"))
  else
    match rg_answers rg !! waitC with
    | None => None
    | Some (Some err) => Some (rg', inl err)
    | Some None =>
        Some (rg', inr (map (fun l => mkProposeResp (log_Id l) (log_Index l)) logs))
    end.

(** [pkg/raft/raftgroup/raftgroup_propose.go] [(rg *RaftGroup) fowardProposeTo]

    Until the select on the channel; registering a key twice panics. *)
Definition fowardProposeTo (rg : RaftGroup) (raft : string) (reqs : list ProposeReq)
    (leaderID : Z) : res (RaftGroup * Z) :=
  let data := ProposeReqSet_Marshal reqs in
  match last reqs with
  | None => Panic
  | Some req =>
      let key := preq_Id req in
      match rg_fowardProposeWait rg !! key with
      | Some _ => Panic
      | None =>
          let rg := {| rg with rg_fowardProposeWait := <[key := tt]> (rg_fowardProposeWait rg) |} in
          let! n := node_of rg raft in
          let! leaderID := if leaderID =? 0 then LeaderId n else Ok leaderID in
          Ok (send_to rg raft
                {| emptyEvent with ev_From := n_NodeId n; ev_To := leaderID;
                     ev_Type := SendPropose;
                     ev_Logs := [{| EmptyLog with log_Data := data |}] |}, key)
      end
  end.

(** [pkg/raft/raftgroup/raftgroup_propose.go] [(rg *RaftGroup) fowardPropose] *)
Definition fowardPropose (rg : RaftGroup) (raft : string) (reqs : list ProposeReq)
  : res (RaftGroup * Z) := fowardProposeTo rg raft reqs 0.

(** What a proposer does next: nothing (an error or the results), wait for the
    mutex, for its answer, for the results of a forwarded batch, or for the
    application of its log. *)
Inductive proposer :=
| PError (err : GoError)
| PDone (resps : list ProposeResp)
| PLocked
| PAnswer (logs : list Log) (waitC : nat) (p : option (nat * bool))
| PForwarded (key : Z)
| PApplied (resps : list ProposeResp) (p : nat).

(** [pkg/raft/raftgroup/raftgroup_propose.go] [lines 84-113]

    The start of [proposeBatchUntilAppliedTimeout]. *)
Definition proposeUntilAppliedStart (rg : RaftGroup) (key : string) (reqs : list ProposeReq)
    (pick : option nat) (waitC : nat) : res (RaftGroup * proposer) :=
  let! raft := get (rg_raftList rg) key in
  match raft with
  | None => Ok (rg, PError (ErrOther "raft not found"))
  | Some raft =>
      let! n := node_of rg raft in
      let rg := set_node rg raft (KeepAlive n) in
      let! isLeader := IsLeader n in
      if negb isLeader then
        let! leader := LeaderId n in
        if leader =? 0 then Ok (rg, PError ErrNotLeader)
        else let! (rg, k) := fowardPropose rg raft reqs in Ok (rg, PForwarded k)
      else
        let! r := proposeBatchStart rg raft reqs (Some pick) waitC in
        match r with
        | None => Ok (rg, PLocked)
        | Some (rg, logs, p) => Ok (rg, PAnswer logs waitC p)
        end
  end.

(** [pkg/raft/raftgroup/raftgroup_propose.go] [lines 146-150]

    What follows a registration. *)
Definition afterRegistration (rg : RaftGroup) (resps : list ProposeResp) (p : nat)
    (alreadyApplied : bool) : res (RaftGroup * proposer) :=
  if alreadyApplied then
    let! w := gput (rg_wait rg) p in Ok ({| rg with rg_wait := w |}, PDone resps)
  else Ok (rg, PApplied resps p).

(** [pkg/raft/raftgroup/raftgroup_propose.go] [lines 114-144]

    The local answer: the waiter of a refused batch is given back, and a batch
    that was refused because the leader changed is forwarded once when the entry
    point asks for it and the deadline has not passed. *)
Definition afterLocal (rg : RaftGroup) (key : string) (reqs : list ProposeReq)
    (p : option (nat * bool)) (result : GoError + list ProposeResp)
    (forwardLocalRejection : bool) (ctxErr : option GoError) (stopped : bool)
  : res (RaftGroup * proposer) :=
  match result with
  | inr resps =>
      match p with
      | None => Panic
      | Some (p, already) => afterRegistration rg resps p already
      end
  | inl err =>
      let! rg := match p with
                 | Some (p, _) => let! w := gput (rg_wait rg) p in Ok {| rg with rg_wait := w |}
                 | None => Ok rg
                 end in
      match err with
      | ErrNotLeader =>
          if negb forwardLocalRejection then Ok (rg, PError err)
          else
            let! n := node_of rg key in
            let! cfg := NodeConfig n in
            let leaderID := cfg_Leader cfg in
            if (leaderID =? 0) || (leaderID =? n_NodeId n) then Ok (rg, PError err)
            else
              match ctxErr with
              | Some e => Ok (rg, PError e)
              | None =>
                  if stopped then Ok (rg, PError ErrGroupStopped)
                  else
                    let! (rg, k) := fowardProposeTo rg key reqs leaderID in
                    Ok (rg, PForwarded k)
              end
      | _ => Ok (rg, PError err)
      end
  end.

(** [pkg/raft/raftgroup/raftgroup_propose.go] [lines 107-108]

    The results of a forwarded batch arrived. *)
Definition afterForward (rg : RaftGroup) (key : string) (resps : list ProposeResp)
    (pick : option nat) : res (RaftGroup * proposer) :=
  match last resps with
  | None => Panic
  | Some resp =>
      let! (rg, p, already) := waitForApply rg key (presp_Index resp) pick in
      afterRegistration rg resps p already
  end.

(** [pkg/raft/raftgroup/raftgroup_propose.go] [lines 151-154]

    The signal arrived: it is taken and the record is given back; [None] while
    there is none. *)
Definition afterApplied (rg : RaftGroup) (resps : list ProposeResp) (p : nat)
  : res (option (RaftGroup * proposer)) :=
  match recv (rg_wait rg) p with
  | None => Ok None
  | Some w =>
      let! w := gput w p in
      Ok (Some ({| rg with rg_wait := w |}, PDone resps))
  end.

(** [pkg/raft/raftgroup/raftgroup_propose.go] [(rg *RaftGroup) sendProposeRespError] *)
Definition sendProposeRespError (rg : RaftGroup) (key : string) (reqs : list ProposeReq) (to : Z)
  : res RaftGroup :=
  let resps := map (fun req => mkProposeResp (preq_Id req) 0) reqs in
  let! n := node_of rg key in
  Ok (send_to rg key
        {| emptyEvent with ev_From := n_NodeId n; ev_To := to; ev_Type := SendProposeResp;
             ev_Reason := ReasonError;
             ev_Logs := [{| EmptyLog with log_Data := ProposeRespSet_Marshal resps |}] |}).

(** [pkg/raft/raftgroup/raftgroup_propose.go] [lines 266-289]

    The start of [handleSendPropose], up to the select of the proposal. *)
Definition handleSendProposeStart (rg : RaftGroup) (key : string) (e : Event) (waitC : nat)
  : res (RaftGroup * option (list ProposeReq * proposer)) :=
  let! raft := get (rg_raftList rg) key in
  match raft with
  | None => Ok (rg, None)
  | Some raft =>
      match ev_Logs e with
      | [] => Panic
      | l :: _ =>
          match ProposeReqSet_Unmarshal (log_Data l) with
          | None =>
              let! rg := sendProposeRespError rg raft (ProposeReqSet_decoded (log_Data l))
                           (ev_From e) in
              Ok (rg, None)
          | Some reqs =>
              let! n := node_of rg raft in
              let! isLeader := IsLeader n in
              if negb isLeader then
                let! rg := sendProposeRespError rg raft reqs (ev_From e) in Ok (rg, None)
              else
                let! r := proposeBatchStart rg raft reqs None waitC in
                match r with
                | None => Ok (rg, Some (reqs, PLocked))
                | Some (rg, logs, p) => Ok (rg, Some (reqs, PAnswer logs waitC p))
                end
          end
      end
  end.

(** [pkg/raft/raftgroup/raftgroup_propose.go] [lines 290-312]

    Its end, with the answer to the proposal. *)
Definition handleSendProposeEnd (rg : RaftGroup) (key : string) (reqs : list ProposeReq)
    (from : Z) (result : GoError + list ProposeResp) : res RaftGroup :=
  match result with
  | inl _ => sendProposeRespError rg key reqs from
  | inr resps =>
      let! n := node_of rg key in
      Ok (send_to rg key
            {| emptyEvent with ev_From := n_NodeId n; ev_To := from; ev_Type := SendProposeResp;
                 ev_Reason := ReasonOk;
                 ev_Logs := [{| EmptyLog with log_Data := ProposeRespSet_Marshal resps |}] |})
  end.
End Group.
