(* ===== verification/GroupWake.v ===== *)
(** * No proposer of a group is forgotten

    The loop of a group publishes the applied index of a raft when it steps the
    raft with the response of the storage, and tells the waiters afterwards.
    Proposers register between any two of its actions.  [gstep] is one action of
    the loop, of a worker or of a proposer; a proposer is in the middle of
    [proposeBatchStart] for several of them.

    - [GSys]: the group, the tickets of the waiters ([GroupWait]) and where the
      loop is.
    - [wake_ok]: the invariant.
    - [GroupWakeProps]: no wake-up is lost; two defects of the proposals. *)

From S2P Require Import Prelude RaftTypes RaftQueue RaftNode RaftCommit RaftInv RaftApplied.
From S2P Require Import WkProto RaftCodec GroupQueue GroupList GroupWait RaftGroup.

Section Wake.
Context (growslice : Z -> Z -> Z) {W : WkProto} {St : Type} {HS : GStorage St}.
Abbreviation RG := (@RaftGroup St).
Implicit Types rg : RG.

(** ** The system *)

(** Where the loop is in [handleReceivedEvents]: outside, before the event at
    [i], or between its two halves. *)
Inductive pc :=
| PcIdle
| PcReceiving (b : batch) (i : nat)
| PcStepped (b : batch) (i : nat) (m : GEvent) (err : option GoError).

Record GSys := mkGSys {
  gs_rg : RG;
  gs_tickets : table;
  gs_pc : pc
}.

(** Whether the second half of the loop reports an applied index. *)
Definition reports (m : GEvent) (err : option GoError) : bool :=
  match err with
  | None => bool_decide (ev_Type (ge_Event m) = ApplyResp) &&
            bool_decide (ev_Reason (ge_Event m) = ReasonOk)
  | Some _ => false
  end.

(** The applied index of a raft, as published. *)
Definition applied_of rg (key : string) : option Z :=
  n ← rg_nodes rg !! key; s ← n_readState n; Some (rd_appliedIndex s).

Definition runJob rg (j : gjob) : res RG :=
  match j with
  | JStore key e => runStore growslice rg key e
  | JGetLogs key e => runGetLogs growslice rg key e
  | JTruncate key e => runTruncate growslice rg key e
  | JApply key e => runApply growslice rg key e
  | JRoleChange key e => runRoleChange growslice rg key e
  | JSendPropose _ _ => Ok rg
  end.

Definition take_job rg (k : nat) : RG := {| rg with rg_jobs := delete k (rg_jobs rg) |}.

Inductive gstep : GSys -> GSys -> Prop :=
(* the loop *)
| g_get rg t q b :
    Get (rg_mq rg) = Ok (q, b) ->
    gstep (mkGSys rg t PcIdle) (mkGSys {| rg with rg_mq := q |} t (PcReceiving b 0))
| g_missing rg t b i m rg' :
    read_batch (rg_mq rg) b !! i = Some m -> receiveStep rg m = Ok (rg', None) ->
    gstep (mkGSys rg t (PcReceiving b i)) (mkGSys rg' t (PcReceiving b (S i)))
| g_stepped rg t b i m rg' err :
    read_batch (rg_mq rg) b !! i = Some m -> receiveStep rg m = Ok (rg', Some err) ->
    gstep (mkGSys rg t (PcReceiving b i)) (mkGSys rg' t (PcStepped b i m err))
| g_done rg t b i m err rg' :
    receiveDone rg m err = Ok rg' ->
    gstep (mkGSys rg t (PcStepped b i m err))
          (mkGSys rg' (if reports m err
                       then tk_reach (ge_RaftKey m) (default 0 (applied_of rg (ge_RaftKey m))) <$> t
                       else t) (PcReceiving b (S i)))
| g_readys rg t b i rg' has :
    read_batch (rg_mq rg) b !! i = None -> handleReadys growslice rg = Ok (rg', has) ->
    gstep (mkGSys rg t (PcReceiving b i)) (mkGSys rg' t PcIdle)
| g_ticks rg t ka rg' :
    ticks rg ka = Ok rg' -> gstep (mkGSys rg t PcIdle) (mkGSys rg' t PcIdle)
(* the workers *)
| g_job rg t c k j rg' :
    rg_jobs rg !! k = Some j -> runJob (take_job rg k) j = Ok rg' ->
    gstep (mkGSys rg t c) (mkGSys rg' t c)
(* events and rafts from outside *)
| g_event rg t c key e rg' :
    AddEvent growslice rg key e = Ok rg' \/ TryAddEvent rg key e = Ok rg' ->
    gstep (mkGSys rg t c) (mkGSys rg' t c)
| g_event_wait rg t c key e waitC :
    gstep (mkGSys rg t c) (mkGSys (AddEventWait growslice rg key e waitC) t c)
| g_add rg t c key tsi rs opts n rg' :
    map_Forall (fun _ tk => tk_key tk <> key) t -> NewNode tsi rs opts = Ok n -> AddRaft rg key n = Ok rg' ->
    gstep (mkGSys rg t c) (mkGSys rg' t c)
| g_remove rg t c key rg' :
    RemoveRaft rg key = Ok rg' -> gstep (mkGSys rg t c) (mkGSys rg' t c)
(* the proposers *)
| g_assign rg t c key reqs rg' logs :
    proposeAssign rg key reqs = Ok (Some (rg', logs)) -> gstep (mkGSys rg t c) (mkGSys rg' t c)
| g_register rg t c key i pick rg' p already :
    waitForApply rg key i pick = Ok (rg', p, already) ->
    gstep (mkGSys rg t c)
          (mkGSys rg' (<[p := new_ticket key i (applied_of rg key)]> t) c)
| g_submit rg t c key logs waitC :
    gstep (mkGSys rg t c) (mkGSys (proposeSubmit growslice rg key logs waitC) t c)
| g_end rg t c key logs waitC deadline rg' r :
    proposeBatchEnd rg key logs waitC deadline = Some (rg', r) ->
    gstep (mkGSys rg t c) (mkGSys rg' t c)
| g_forward rg t c key reqs leader rg' k :
    fowardProposeTo rg key reqs leader = Ok (rg', k) -> gstep (mkGSys rg t c) (mkGSys rg' t c)
| g_respond rg t c key reqs from r rg' :
    handleSendProposeEnd rg key reqs from r = Ok rg' -> gstep (mkGSys rg t c) (mkGSys rg' t c)
| g_put rg t c p w :
    is_Some (t !! p) -> gput (rg_wait rg) p = Ok w ->
    gstep (mkGSys rg t c) (mkGSys {| rg with rg_wait := w |} (delete p t) c)
| g_recv rg t c p tk w :
    t !! p = Some tk -> recv (rg_wait rg) p = Some w ->
    gstep (mkGSys rg t c)
          (mkGSys {| rg with rg_wait := w |} (<[p := {| tk with tk_received := true |}]> t) c).

(** ** The invariant *)

(** The rafts publish what they are, and report no application to
    themselves. *)
Definition nodes_ok (nodes : gmap string Node) : Prop :=
  map_Forall (fun _ n => snapshot_fresh n /\ calm n) nodes.

(** The loop is about to report for a raft. *)
Definition due (c : pc) (key : string) : Prop :=
  match c with
  | PcStepped _ _ m err => reports m err = true /\ ge_RaftKey m = key
  | _ => False
  end.

Definition list_ok rg : Prop := exists rafts cells, is_list raftKey (rg_raftList rg) rafts cells.

Record wake_ok (s : GSys) : Prop := {
  wk_list : list_ok (gs_rg s);
  wk_table : table_ok (rg_wait (gs_rg s)) (gs_tickets s);
  wk_nodes : nodes_ok (rg_nodes (gs_rg s));
  wk_tickets p tk : gs_tickets s !! p = Some tk ->
    exists n, rg_nodes (gs_rg s) !! tk_key tk = Some n /\
      if tk_signalled tk then tk_maxIndex tk <= q_appliedIndex (n_queue n)
      else q_appliedIndex (n_queue n) < tk_maxIndex tk \/ due (gs_pc s) (tk_key tk)
}.

(** ** Actions that keep the applied indexes *)

(** What the actions that are no step of an [ApplyResp] have in common. *)
Record steady rg rg' : Prop := {
  sd_wait : rg_wait rg' = rg_wait rg;
  sd_list : list_ok rg -> list_ok rg';
  sd_nodes : nodes_ok (rg_nodes rg) -> nodes_ok (rg_nodes rg');
  sd_applied key n : rg_nodes rg !! key = Some n ->
    exists n', rg_nodes rg' !! key = Some n' /\
               q_appliedIndex (n_queue n') = q_appliedIndex (n_queue n)
}.

#[local] Instance steady_preorder : PreOrder steady.
Proof.
  split.
  - intros rg. split; eauto.
  - intros r1 r2 r3 [W1 L1 N1 A1] [W2 L2 N2 A2]. split; [congruence|tauto|tauto|].
    intros key n Hn. destruct (A1 key n Hn) as (n' & Hn' & <-). eauto.
Qed.

(** A computation that returns a steady state. *)
Definition steadily rg (m : res RG) : Prop := if_returns m (steady rg).

(** Only fields the invariant does not read change. *)
Lemma steady_same rg rg' :
  rg_wait rg' = rg_wait rg -> rg_raftList rg' = rg_raftList rg -> rg_nodes rg' = rg_nodes rg ->
  steady rg rg'.
Proof. intros HW HL HN. split; [done|unfold list_ok; by rewrite HL|by rewrite HN|rewrite HN; eauto]. Qed.

(** One raft is replaced by one with the same applied index. *)
Lemma steady_set rg key n n' :
  rg_nodes rg !! key = Some n -> q_appliedIndex (n_queue n') = q_appliedIndex (n_queue n) ->
  (snapshot_fresh n /\ calm n -> snapshot_fresh n' /\ calm n') ->
  steady rg (set_node rg key n').
Proof.
  intros Hn Hq Hok. split; [done|done| |].
  - intros H. apply map_Forall_insert_2; [|done]. apply Hok, (H key n Hn).
  - intros k m Hm. simpl. destruct (decide (k = key)) as [->|Hk].
    + rewrite lookup_insert_eq. exists n'. split; [done|]. congruence.
    + rewrite lookup_insert_ne by done. eauto.
Qed.

Lemma steadily_Ok rg rg' : steady rg rg' -> steadily rg (Ok rg').
Proof. by intros H ? [= <-]. Qed.

Lemma steadily_bind rg (m : res RG) (f : RG -> res RG) :
  steadily rg m -> (forall rg', steady rg rg' -> steadily rg' (f rg')) ->
  steadily rg (res_bind m f).
Proof. intros Hm Hf rg2 (rg1 & H1 & H2)%res_bind_Ok. etrans; [by apply Hm|]. eapply Hf; eauto. Qed.

Lemma steadily_any {A} rg (m : res A) (f : A -> res RG) :
  (forall a, m = Ok a -> steadily rg (f a)) -> steadily rg (res_bind m f).
Proof. intros Hf rg2 (a & H1 & H2)%res_bind_Ok. by eapply Hf. Qed.

Lemma steadily_pre rg rg1 (m : res RG) : steady rg rg1 -> steadily rg1 m -> steadily rg m.
Proof. intros H Hm rg2 H2. etrans; [exact H|]. by apply Hm. Qed.

Lemma node_of_Ok rg key n : node_of rg key = Ok n <-> rg_nodes rg !! key = Some n.
Proof. unfold node_of. destruct (_ !! key); split; congruence. Qed.
Ltac same := apply steady_same; reflexivity.

(** *** Queueing, sending, submitting *)

Lemma gsubmit_steady rg j : steady rg (gsubmit rg j).1.
Proof. unfold gsubmit. simpl. destruct (rg_submit rg _); same. Qed.

Lemma AddEvent_steady rg key e : steadily rg (AddEvent growslice rg key e).
Proof.
  unfold AddEvent, handleSendProposeResp.
  destruct (ev_Type e); try (apply steadily_Ok; first [apply gsubmit_steady | same]).
  destruct (ev_Logs e); [done|]. destruct (ProposeRespSet_Unmarshal _); [|apply steadily_Ok; same].
  destruct (last _); [|done]. destruct (rg_fowardProposeWait _ !! _); apply steadily_Ok; same.
Qed.

Lemma TryAddEvent_steady rg key e : steadily rg (TryAddEvent rg key e).
Proof.
  pose proof (AddEvent_steady rg key e) as H. unfold TryAddEvent. unfold AddEvent in H.
  destruct (ev_Type e); try exact H; try (apply steadily_Ok; same);
    apply steadily_any; intros [q b] _; apply steadily_Ok; same.
Qed.

(** Follows a handler that queues, writes to the storage and answers. *)
Ltac steadily :=
  repeat first
    [ done
    | apply AddEvent_steady
    | apply steadily_Ok; same
    | apply steadily_bind; [|intros ? ?]
    | apply steadily_any; intros ? _
    | progress cbv beta zeta
    | match goal with
      | |- steadily _ (AddEvent _ (match ?x with _ => _ end) _ _) => destruct x
      | |- steadily _ (AddEvent _ (set_store ?rg ?s) _ _) =>
          apply (steadily_pre _ (set_store rg s)); [same|]
      | |- steadily _ (AddEvent _ ?rg' _ _) => apply (steadily_pre _ rg'); [same|]
      | |- steadily _ (match ?x with _ => _ end) => destruct x
      | |- steadily _ (res_bind (match ?x with _ => _ end) _) => destruct x
      end ].

Lemma runJob_steady rg j : steadily rg (runJob rg j).
Proof.
  destruct j; simpl; unfold runStore, runGetLogs, runTruncate, runApply, runRoleChange; steadily.
Qed.
(** *** A ready round *)

Lemma keepAlive_steady rg key : steadily rg (keepAlive rg key).
Proof.
  apply steadily_any. intros n Hn%node_of_Ok. apply steadily_Ok. by eapply steady_set.
Qed.

(** The handlers that hand an event to the pool. *)
Lemma submitted_steady rg j (f : RG -> res RG) :
  (forall rg', steadily rg' (f rg')) ->
  steadily rg (let '(rg, ok) := gsubmit rg j in if ok then Ok rg else f rg).
Proof.
  intros Hf. pose proof (gsubmit_steady rg j) as H. destruct (gsubmit rg j) as [rg' []]; simpl in H.
  - by apply steadily_Ok.
  - by eapply steadily_pre.
Qed.

Lemma RemoveRaft_steady rg key : steadily rg (RemoveRaft rg key).
Proof.
  apply steadily_any. intros ll Hll. apply steadily_Ok. split; [done| |done|eauto].
  intros (rafts & cells & H). destruct (remove_spec raftKey _ _ _ key H) as (ll' & cells' & E & H').
  rewrite Hll in E. injection E as <-. by exists (l_remove raftKey key rafts), cells'.
Qed.

Lemma routeEvent_steady rg key e : quiet e -> steadily rg (routeEvent rg key e).
Proof.
  intros Hq. unfold routeEvent. destruct (_ =? 0); [apply steadily_Ok; same|].
  destruct (_ =? LocalNode); [|apply steadily_Ok; same].
  apply steadily_any. intros n Hn%node_of_Ok. apply steadily_any. intros [n' err] HS'.
  apply steadily_Ok. eapply steady_set; [done|by eapply Step_applied|]. intros [Hf Hc].
  split; [|by eapply Step_calm]. eapply (run_op_fresh n (OpStep e)); [done|]. simpl. by rewrite HS'.
Qed.

Lemma handleReadyEvent_steady rg key e :
  quiet e -> steadily rg (handleReadyEvent growslice rg key e).
Proof.
  intros Hq. pose proof (fun rg => routeEvent_steady rg key e Hq) as HR.
  unfold handleReadyEvent, handleStoreReq, handleGetLogsReq, handleTruncateReq, handleApplyReq,
    handleRoleChangeReq.
  destruct (ev_Type e); try apply HR; try apply RemoveRaft_steady;
    (apply steadily_bind; [apply keepAlive_steady|intros rg1 _]).
  all: try (apply submitted_steady; intros; steadily).
  - apply steadily_bind; [apply submitted_steady; intros; steadily|]. intros rg2 _. apply HR.
  - eapply steadily_pre; [|apply submitted_steady; intros; steadily]. same.
Qed.

Lemma readyLoop_steady count events i rg key :
  Forall quiet events -> nodes_ok (rg_nodes rg) ->
  steadily rg (readyLoop growslice count events i rg key).
Proof.
  intros He. revert i rg. induction count as [|count IH]; intros i rg Hn;
    [by apply steadily_Ok|]. cbn [readyLoop].
  apply steadily_any. intros n Hk%node_of_Ok. destruct (readSlot events n i) as [e|] eqn:Hr; [|done].
  assert (Hq : quiet e).
  { unfold readSlot in Hr. destruct (n_events n !! i) eqn:Hi; [injection Hr as <-|].
    - eapply (Forall_lookup_1 _ (n_events n)); [|done]. apply (Hn key n Hk).
    - by eapply Forall_lookup_1. }
  apply steadily_bind; [by apply handleReadyEvent_steady|]. intros rg1 H1. apply IH, H1, Hn.
Qed.

(** A pair of a steady state and something else. *)
Definition steadily_p {A} rg (m : res (RG * A)) : Prop := if_returns m (fun r => steady rg r.1).

Lemma handleReady_steady rg key :
  nodes_ok (rg_nodes rg) -> steadily_p rg (handleReady growslice rg key).
Proof.
  intros Hn r (n & Hk%node_of_Ok & ([n' events] & HR & H)%res_bind_Ok)%res_bind_Ok.
  destruct (Hn key n Hk) as [Hf Hc]. destruct (Ready_calm _ _ _ HR Hc) as [Hc' He].
  assert (H1 : steady rg (set_node rg key n')).
  { eapply steady_set; [done|by eapply Ready_applied|]. intros _. split; [|done].
    eapply (run_op_fresh n OpReady); [done|]. simpl. by rewrite HR. }
  destruct (_ =? 0); [by injection H as <-|].
  apply res_bind_Ok in H as (rg2 & H2 & [= <-]). etrans; [exact H1|].
  eapply readyLoop_steady; [exact He| |exact H2]. by apply H1.
Qed.

Lemma handleReadys_steady rg :
  nodes_ok (rg_nodes rg) -> steadily_p rg (handleReadys growslice rg).
Proof.
  intros Hn r (rafts & _ & H)%res_bind_Ok. revert H. generalize false. revert rg Hn.
  induction rafts as [|key rest IH]; intros rg Hn b; simpl; [by intros [= <-]|].
  intros (n & Hk & H)%res_bind_Ok. destruct (HasReady n); [|by eapply IH].
  apply res_bind_Ok in H as ([rg1 has] & H1 & H). pose proof (handleReady_steady _ _ Hn _ H1) as HS1.
  simpl in HS1. etrans; [exact HS1|]. eapply IH; [by apply HS1|exact H].
Qed.

Lemma ticks_steady rg ka : steadily rg (ticks rg ka).
Proof.
  apply steadily_any. intros rafts _. revert rg.
  induction rafts as [|key rest IH]; intros rg; simpl; [by apply steadily_Ok|].
  apply steadily_any. intros n Hn%node_of_Ok. apply steadily_any. intros n' HT.
  eapply steadily_pre; [|apply IH]. eapply steady_set; [done|by eapply Tick_applied|].
  intros [Hf Hc]. split; [by eapply (run_op_fresh n (OpTick (ka key)))|by eapply Tick_calm].
Qed.
(** *** Rafts and proposers *)

Lemma NewNode_ok tsi rs opts n : NewNode tsi rs opts = Ok n -> snapshot_fresh n /\ calm n.
Proof.
  unfold NewNode. destruct (_ <? _); [done|]. unfold resetRandomizedElectionTimeout, Intn.
  destruct (_ <=? 0); [done|]. cbn [res_bind]. cbv zeta. intros [= <-].
  split; [apply publish_is_fresh|]. apply calm_publish.
  match goal with |- calm (if ?b then _ else _) => destruct b end; [|destruct (_ <? _); [|constructor]].
  - apply calm_BecomeLeader. destruct (_ =? 0); constructor.
  - apply calm_BecomeFollower. constructor.
Qed.

Lemma proposeAssign_steady rg key reqs rg' logs :
  proposeAssign rg key reqs = Ok (Some (rg', logs)) -> steady rg rg'.
Proof.
  unfold proposeAssign. case_bool_decide; [done|].
  intros (n & Hn%node_of_Ok & (l & _ & (t & _ & [= <- _])%res_bind_Ok)%res_bind_Ok)%res_bind_Ok.
  etrans; [|apply (steady_set _ _ n); [exact Hn|done|done]]. same.
Qed.

Lemma fowardProposeTo_steady rg key reqs leader :
  steadily_p rg (fowardProposeTo rg key reqs leader).
Proof.
  unfold fowardProposeTo. intros r. destruct (last reqs); [|done].
  destruct (_ !! _); [done|]. intros (n & _ & (l & _ & [= <-])%res_bind_Ok)%res_bind_Ok. same.
Qed.

Lemma handleSendProposeEnd_steady rg key reqs from r :
  steadily rg (handleSendProposeEnd rg key reqs from r).
Proof.
  unfold handleSendProposeEnd, sendProposeRespError.
  destruct r; apply steadily_any; intros n _; apply steadily_Ok; same.
Qed.

Lemma proposeBatchEnd_steady rg key logs waitC deadline rg' r :
  proposeBatchEnd rg key logs waitC deadline = Some (rg', r) -> steady rg rg'.
Proof.
  unfold proposeBatchEnd. destruct deadline; [intros [= <- _]; same|].
  destruct (_ !! waitC) as [[]|]; [intros [= <- _]; same|intros [= <- _]; same|done].
Qed.

(** ** The invariant is preserved *)

Lemma fresh_applied n : snapshot_fresh n -> AppliedIndex n = Ok (q_appliedIndex (n_queue n)).
Proof. unfold AppliedIndex, readState. by intros ->. Qed.

Lemma applied_of_node rg key n :
  nodes_ok (rg_nodes rg) -> rg_nodes rg !! key = Some n ->
  applied_of rg key = Some (q_appliedIndex (n_queue n)).
Proof. intros H Hn. unfold applied_of. rewrite Hn. simpl. by rewrite (proj1 (H key n Hn)). Qed.

Lemma wake_new store opts submit : wake_ok (mkGSys (New store opts submit) ∅ PcIdle).
Proof.
  split; simpl; [|apply table_ok_new|done|done].
  exists [], []. apply newLinkedList_spec.
Qed.

(** A steady action keeps the invariant, wherever the loop goes between two
    events. *)
Lemma wake_steady rg rg' t c c' :
  wake_ok (mkGSys rg t c) -> steady rg rg' -> (forall key, due c key -> due c' key) ->
  wake_ok (mkGSys rg' t c').
Proof.
  intros [Hl Ht Hn Hk] [HW HL HN HA] Hc. split; simpl in *; [tauto|by rewrite HW|tauto|].
  intros p tk Hp. destruct (Hk p tk Hp) as (n & Hkey & Htk). destruct (HA _ _ Hkey) as (n' & Hn' & Hq).
  exists n'. split; [done|]. rewrite Hq. destruct (tk_signalled tk); [done|]. destruct Htk; auto.
Qed.

(** The first half of the loop steps the raft of the event. *)
Lemma receiveStep_spec rg m rg' r :
  list_ok rg -> receiveStep rg m = Ok (rg', r) ->
  match r with
  | None => steady rg rg'
  | Some err => exists n n', rg_nodes rg !! ge_RaftKey m = Some n /\
      rg' = set_node rg (ge_RaftKey m) n' /\ (snapshot_fresh n /\ calm n -> snapshot_fresh n' /\ calm n') /\
      q_appliedIndex (n_queue n) <= q_appliedIndex (n_queue n') /\
      (reports m err = false -> q_appliedIndex (n_queue n') = q_appliedIndex (n_queue n))
  end.
Proof.
  intros (rafts & cells & Hl). unfold receiveStep. rewrite (get_spec raftKey _ _ _ _ Hl). cbn [res_bind].
  destruct (l_get raftKey _ rafts) as [key|] eqn:Hg; [|intros [= <- <-]; destruct (ge_WaitC m); same].
  assert (key = ge_RaftKey m) as ->.
  { unfold l_get in Hg. apply head_Some_elem_of in Hg. by apply list_elem_of_filter in Hg as [<- _]. }
  intros (n & Hn%node_of_Ok & H)%res_bind_Ok.
  destruct (if bool_decide _ then _ else _) as [n1 e1] eqn:E1.
  apply res_bind_Ok in H as ([n' err] & HS' & [= <- <-]).
  assert (H1 : n_queue n1 = n_queue n /\ ev_Type e1 = ev_Type (ge_Event m) /\
               (ev_Type (ge_Event m) = ApplyResp -> e1 = ge_Event m) /\
               (snapshot_fresh n /\ calm n -> snapshot_fresh n1 /\ calm n1)).
  { case_bool_decide; injection E1 as <- <-; [|done]. repeat split; try done; try tauto. congruence. }
  destruct H1 as (Hq & Ht & He & Hok). exists n, n'. rewrite <-Hq.
  split; [done|]. split; [done|]. split.
  { intros [Hf Hc]%Hok. split; [|by eapply Step_calm].
    eapply (run_op_fresh n1 (OpStep e1)); [done|]. simpl. by rewrite HS'. }
  destruct (decide (ev_Type (ge_Event m) = ApplyResp)) as [Ha|Ha].
  - rewrite (He Ha) in HS'. destruct (Step_ApplyResp _ _ _ _ HS' Ha) as [->|(-> & Hr & ->)]; [done|].
    split; [lia|]. unfold reports. by rewrite !bool_decide_eq_true_2.
  - rewrite (Step_applied _ _ _ _ HS') by congruence. done.
Qed.
Lemma wake_receive rg t b i m rg' r :
  receiveStep rg m = Ok (rg', r) -> wake_ok (mkGSys rg t (PcReceiving b i)) ->
  wake_ok (mkGSys rg' t match r with
                        | None => PcReceiving b (S i)
                        | Some err => PcStepped b i m err
                        end).
Proof.
  intros HR Hw. pose proof (receiveStep_spec _ _ _ _ (wk_list _ Hw) HR) as H.
  destruct r as [err|]; [|eapply wake_steady; [exact Hw|exact H|done]].
  destruct H as (n & n' & Hn & -> & Hok & Hle & Heq). destruct Hw as [Hl Ht Hns Hk].
  split; simpl in *; [done|done| |].
  - apply map_Forall_insert_2; [|done]. apply Hok, (Hns _ _ Hn).
  - intros p tk Hp. destruct (Hk p tk Hp) as (n0 & Hn0 & Htk).
    destruct (decide (tk_key tk = ge_RaftKey m)) as [E|E].
    + rewrite E in *. assert (n0 = n) as -> by congruence.
      rewrite lookup_insert_eq. exists n'. split; [done|]. destruct (tk_signalled tk); [lia|].
      destruct Htk as [Htk|[]]. destruct (reports m err) eqn:Er; [by right|left; by rewrite Heq].
    + rewrite lookup_insert_ne by done. exists n0. split; [done|]. destruct (tk_signalled tk); [done|].
      destruct Htk as [?|[]]. by left.
Qed.

Lemma wake_done rg t b i m err rg' :
  receiveDone rg m err = Ok rg' -> wake_ok (mkGSys rg t (PcStepped b i m err)) ->
  wake_ok (mkGSys rg' (if reports m err
                       then tk_reach (ge_RaftKey m) (default 0 (applied_of rg (ge_RaftKey m))) <$> t
                       else t) (PcReceiving b (S i))).
Proof.
  intros HD Hw. unfold receiveDone in HD. apply res_bind_Ok in HD as (rg1 & H1 & [= <-]).
  assert (HA : forall t', wake_ok (mkGSys rg1 t' (PcReceiving b (S i))) ->
    wake_ok (mkGSys match ge_WaitC m with
                    | Some ch => {| rg1 with rg_answers := <[ch := err]> (rg_answers rg1) |}
                    | None => rg1 end t' (PcReceiving b (S i)))).
  { intros t' H. eapply wake_steady; [exact H| |done]. destruct (ge_WaitC m); same. }
  apply HA. clear HA.
  destruct (reports m err) eqn:Er; unfold reports in Er.
  - destruct err; [done|]. rewrite Er in H1. clear Er.
    apply res_bind_Ok in H1 as (n & Hn%node_of_Ok & H1).
    destruct Hw as [Hl Ht Hns Hk]. simpl in *.
    rewrite (applied_of_node _ _ _ Hns Hn). simpl.
    rewrite (fresh_applied n) in H1 by apply (Hns _ _ Hn). cbn [res_bind] in H1.
    destruct (gdidApply_ok (rg_wait rg) t (ge_RaftKey m) (q_appliedIndex (n_queue n)) Ht)
      as (w & Hw & Ht'). rewrite Hw in H1. injection H1 as <-.
    split; simpl; [done|done|done|]. intros p tk'. rewrite lookup_fmap.
    destruct (t !! p) as [tk|] eqn:Hp; [|done]. intros [= <-].
    destruct (Hk p tk Hp) as (n0 & Hn0 & Htk). exists n0.
    rewrite (proj1 (tk_reach_key _ _ tk)). split; [done|].
    unfold tk_reach. destruct (bool_decide (tk_key tk = _ /\ _)) eqn:Ed;
      [apply bool_decide_eq_true in Ed|apply bool_decide_eq_false in Ed]; simpl.
    + destruct Ed as [Ek ?]. rewrite Ek in Hn0. assert (n0 = n) as -> by congruence. done.
    + destruct (tk_signalled tk) eqn:Es; [done|]. destruct Htk as [?|[_ Hd]]; [by left|]. left.
      assert (n0 = n) as -> by congruence. destruct (decide (tk_maxIndex tk <= q_appliedIndex (n_queue n))); [|lia].
      by destruct Ed.
  - assert (rg1 = rg) as ->.
    { destruct err; [by injection H1|]. rewrite Er in H1. by injection H1. }
    eapply wake_steady; [exact Hw|reflexivity|]. intros key. unfold due, reports. by rewrite Er; intros [].
Qed.

Lemma wake_register rg t c key i pick rg' p already :
  waitForApply rg key i pick = Ok (rg', p, already) -> wake_ok (mkGSys rg t c) ->
  wake_ok (mkGSys rg' (<[p := new_ticket key i (applied_of rg key)]> t) c).
Proof.
  unfold waitForApply. intros (n & Hn%node_of_Ok & H)%res_bind_Ok [Hl Ht Hns Hk]. simpl in *.
  rewrite (applied_of_node _ _ _ Hns Hn). rewrite (fresh_applied n) in H by apply (Hns _ _ Hn).
  cbn [res_bind] in H.
  destruct (gwaitApply_ok (rg_wait rg) t key i (Some (q_appliedIndex (n_queue n))) pick Ht)
    as (w & p' & E & Hp & Ht'). rewrite E in H. injection H as <- -> _.
  split; simpl; [done|done|done|]. intros p' tk [[<- <-]|[_ Hp']]%lookup_insert_Some; [|eauto].
  exists n. split; [done|]. unfold new_ticket. simpl.
  destruct (i <=? _) eqn:Ei; [by apply Z.leb_le|left; by apply Z.leb_gt].
Qed.

(** A change of the waiters that keeps every remaining ticket and its signal. *)
Lemma wake_waiters rg t t' w c :
  table_ok w t' ->
  (forall p tk', t' !! p = Some tk' -> exists tk, t !! p = Some tk /\ tk_key tk' = tk_key tk /\
     tk_maxIndex tk' = tk_maxIndex tk /\ tk_signalled tk' = tk_signalled tk) ->
  wake_ok (mkGSys rg t c) -> wake_ok (mkGSys {| rg with rg_wait := w |} t' c).
Proof.
  intros Hw Hsub [Hl Ht Hns Hk]. split; simpl in *; [done|done|done|].
  intros p tk' Hp. destruct (Hsub p tk' Hp) as (tk & Htk & -> & -> & ->). eauto.
Qed.

(** A raft is added, or added again after it was removed, when no proposer waits for its
    key. *)
Lemma wake_add rg rg' t c key tsi rs opts n :
  wake_ok (mkGSys rg t c) -> map_Forall (fun _ tk => tk_key tk <> key) t -> NewNode tsi rs opts = Ok n ->
  AddRaft rg key n = Ok rg' -> wake_ok (mkGSys rg' t c).
Proof.
  intros [Hl Ht Hn Hk] Hno Hnew (found & _ & (ll & Hll & [= <-])%res_bind_Ok)%res_bind_Ok. simpl in *.
  assert (HL : exists rafts cells, is_list raftKey ll rafts cells).
  { destruct Hl as (rafts & cells & H). destruct (push_spec raftKey _ _ _ key H) as (ll' & cells' & E & H').
    rewrite Hll in E. injection E as <-. eauto. }
  destruct found; split; simpl; try done; eauto.
  - apply map_Forall_insert_2; [by eapply NewNode_ok|done].
  - intros p tk Hp. rewrite lookup_insert_ne; [by eapply Hk|]. intros E. by apply (Hno p tk Hp).
Qed.

Lemma gstep_ok s s' : gstep s s' -> wake_ok s -> wake_ok s'.
Proof.
  intros Hst Hw. destruct Hst; only 3: (by apply (wake_receive _ _ _ _ _ _ (Some err) H0));
    only 9: (by eapply wake_add);
    try (eapply wake_steady; [exact Hw| |done]).
  - same.
  - apply (receiveStep_spec _ _ _ _ (wk_list _ Hw) H0).
  - by eapply wake_done.
  - apply (handleReadys_steady _ (wk_nodes _ Hw) _ H0).
  - by apply (ticks_steady _ _ _ H).
  - etrans; [|apply (runJob_steady _ _ _ H0)]. same.
  - destruct H as [H|H]; [apply (AddEvent_steady _ _ _ _ H)|apply (TryAddEvent_steady _ _ _ _ H)].
  - same.
  - apply (RemoveRaft_steady _ _ _ H).
  - by eapply proposeAssign_steady.
  - by eapply wake_register.
  - same.
  - by eapply proposeBatchEnd_steady.
  - apply (fowardProposeTo_steady _ _ _ _ _ H).
  - apply (handleSendProposeEnd_steady _ _ _ _ _ _ H).
  - destruct (gput_ok _ _ p (wk_table _ Hw) H) as (w' & E & Ht). simpl in E.
    rewrite H0 in E. injection E as <-. eapply wake_waiters; [exact Ht| |exact Hw].
    intros q tk [_ Hq]%lookup_delete_Some. eauto 10.
  - pose proof (recv_ok _ _ p tk (wk_table _ Hw) H) as HR. simpl in HR. rewrite H0 in HR.
    eapply wake_waiters; [apply HR| |exact Hw].
    intros q tk' [[<- <-]|[_ Hq]]%lookup_insert_Some; eauto 10.
Qed.

Lemma gsteps_ok store opts submit s :
  rtc gstep (mkGSys (New store opts submit) ∅ PcIdle) s -> wake_ok s.
Proof.
  intros H. pose proof (wake_new store opts submit) as H0. revert H0.
  induction H as [|x y z Hxy _ IH]; [done|]. intros Hx. by apply IH, (gstep_ok x).
Qed.
End Wake.


(** ** A storage in memory *)

(** The logs of each raft. *)
Definition GMem : Type := gmap string (list Log).

#[export] Instance memGStorage : GStorage GMem := {|
  AppendLogs s key logs _ := (<[key := default [] (s !! key) ++ logs]> s, true);
  GetTermStartIndex s key t :=
    Some (default 0 (log_Index <$> head (filter (fun l => log_Term l = t)
                                                (default [] (s !! key)))));
  LeaderLastLogTerm s key := Some (default 0 (log_Term <$> last (default [] (s !! key))));
  LeaderTermGreaterEqThan s key t :=
    Some (default t (log_Term <$> head (filter (fun l => t <= log_Term l)
                                               (default [] (s !! key)))));
  GetLogs s key start end_ limit :=
    let ls := filter (fun l => start <= log_Index l < end_) (default [] (s !! key)) in
    Some (if limit =? 0 then ls else take (Z.to_nat limit) ls);
  Apply s _ _ := (s, true);
  TruncateLogTo s key i :=
    (<[key := filter (fun l => log_Index l <= i) (default [] (s !! key))]> s, true);
  DeleteLeaderTermStartIndexGreaterThanTerm s _ _ := (s, true);
  SaveConfig s _ _ := (s, true)
|}.

(** ** Runs *)

Definition double (old need : Z) : Z := Z.max (2 * old) need.
#[local] Existing Instance bigEndian.

Definition solo_opts : Options := {| NewOptions with opt_NodeId := 1; opt_Replicas := [1] |}.
Definition solo_node : res Node := NewNode 0 (mkRaftState 0 1 0) solo_opts.

(** A group with the raft "a" of node 1, which is alone. *)
Definition solo_group : res (@RaftGroup GMem) :=
  let! n := solo_node in AddRaft (New ∅ NewGOptions (fun _ => true)) "a" n.

(** Every job that was submitted, in order. *)
Fixpoint run_jobs (fuel : nat) (rg : @RaftGroup GMem) : res (@RaftGroup GMem) :=
  match fuel with
  | O => Ok rg
  | S fuel =>
      match rg_jobs rg with
      | [] => Ok rg
      | j :: _ => let! rg := runJob double (take_job rg 0) j in run_jobs fuel rg
      end
  end.

(** [k] rounds of the loop, with the workers in between. *)
Fixpoint rounds (k : nat) (rg : @RaftGroup GMem) : res (@RaftGroup GMem) :=
  match k with
  | O => Ok rg
  | S k =>
      let! rg := readyEvents double rg in
      let! rg := run_jobs (length (rg_jobs rg)) rg in
      rounds k rg
  end.

(** Two proposals one after the other, the first of which meets its deadline
    before the loop has read its event. *)
Definition shadowed : res (option Z * proposer * list Z) :=
  let! rg := solo_group in
  let! r1 := proposeBatchStart double rg "a" [mkProposeReq 7 []] None 0 in
  let! (rg, logs1) := match r1 with Some (rg, logs, _) => Ok (rg, logs) | None => Panic end in
  let! (rg, out1) := match proposeBatchEnd rg "a" logs1 0 true with
                     | Some r => Ok r
                     | None => Panic
                     end in
  let! (rg, second) := proposeUntilAppliedStart double rg "a" [mkProposeReq 8 []] None 1 in
  match out1, second with
  | inl _, PAnswer logs2 _ p =>
      let! rg := rounds 5 rg in
      let! (rg, out2) := match proposeBatchEnd rg "a" logs2 1 false with
                         | Some r => Ok r
                         | None => Panic
                         end in
      let! (rg, next) := afterLocal rg "a" [mkProposeReq 8 []] p out2 true None false in
      let! last := match next with
                   | PApplied resps p => afterApplied rg resps p
                   | _ => Panic
                   end in
      match last with
      | Some (rg, out) => Ok (applied_of rg "a", out, log_Id <$> default [] (rg_store rg !! "a"))
      | None => Panic
      end
  | _, _ => Panic
  end.

Definition sync_of_2 : Event :=
  {| emptyEvent with ev_Type := SyncReq; ev_From := 2; ev_To := 1; ev_Term := 1; ev_Index := 1;
                     ev_Reason := ReasonOk |}.

(** Node 1 leads nodes 1 and 2 with one stored log, and the pool refuses the
    submissions that [submit] says. *)
Definition pair_group (submit : nat -> bool) : res (@RaftGroup GMem) :=
  let! n := NewNode 1 (mkRaftState 1 1 1) solo_opts in
  let! (n, _) := Step n {| emptyEvent with ev_Type := ConfChange; ev_Config :=
      {| emptyConfig with cfg_Replicas := [1; 2]; cfg_Leader := 1; cfg_Term := 1;
                          cfg_Version := 1; cfg_Role := RoleLeader |} |} in
  AddRaft (New ({["a" := [{| EmptyLog with log_Index := 1; log_Term := 1 |}]]} : GMem)
             NewGOptions submit) "a" n.

(** Replica 2 asks [k] times; what it was sent. *)
Fixpoint syncs (k : nat) (rg : @RaftGroup GMem) : res (list (EventType * nat)) :=
  match k with
  | O => Ok (map (fun s => (ev_Type s.2, length (ev_Logs s.2)))
               (filter (fun s => ev_To s.2 = 2) (rg_sent rg)))
  | S k =>
      let! rg := AddEvent double rg "a" sync_of_2 in
      let! rg := rounds 3 rg in
      syncs k rg
  end.

(** ** Theorems *)

Module GroupWakeProps.

(** C6.  No proposer of a group is forgotten or woken early.  The loop, the workers
    and the proposers take their steps in any order; rafts are added, removed and
    added again, a raft only when no proposer holds a ticket for its key (a new raft
    of the key may have applied what the ticket of the old one waits for).  In every
    state they can reach, a ticket belongs to a raft of the group with a published
    applied index; a signalled ticket is reached by this index; and a ticket that is
    reached was signalled already, unless the loop is between the two halves of its
    handling of an [ApplyResp] for this very raft, and then the second half returns.
    Outside of this window signalled and reached are the same. *)
Theorem group_wakeup (growslice : Z -> Z -> Z) (W : WkProto) (St : Type) (HS : GStorage St)
    (store : St) (opts : GOptions) (submit : nat -> bool)
    (rg : @RaftGroup St) (t : table) (c : pc) (p : nat) (tk : ticket) :
  rtc (gstep growslice) (mkGSys (New store opts submit) ∅ PcIdle) (mkGSys rg t c) ->
  t !! p = Some tk ->
  exists applied, applied_of rg (tk_key tk) = Some applied /\
    (tk_signalled tk = true -> tk_maxIndex tk <= applied) /\
    (tk_maxIndex tk <= applied -> tk_signalled tk = true \/ due c (tk_key tk)) /\
    (~ due c (tk_key tk) -> tk_signalled tk = true <-> tk_maxIndex tk <= applied) /\
    (is_Some (recv (rg_wait rg) p) <-> tk_signalled tk = true /\ tk_received tk = false) /\
    (forall b i m err, c = PcStepped b i m err -> due c (tk_key tk) -> is_Ok (receiveDone rg m err)).
Proof.
  intros Hr Hp. pose proof (gsteps_ok _ _ _ _ _ Hr) as [Hl Ht Hn Hk]. simpl in *.
  destruct (Hk p tk Hp) as (n & Hkey & Htk). exists (q_appliedIndex (n_queue n)).
  split; [by apply applied_of_node|].
  assert (H1 : tk_signalled tk = true -> tk_maxIndex tk <= q_appliedIndex (n_queue n)).
  { by intros E; rewrite E in Htk. }
  assert (H2 : tk_maxIndex tk <= q_appliedIndex (n_queue n) ->
               tk_signalled tk = true \/ due c (tk_key tk)).
  { intros Hle. destruct (tk_signalled tk); [by left|]. destruct Htk; [lia|by right]. }
  split; [done|]. split; [done|]. split; [tauto|]. split.
  - pose proof (recv_ok _ _ p tk Ht Hp) as HR. destruct (recv _ p).
    + destruct HR as (-> & -> & _). split; eauto.
    + split; [by intros [? [=]]|]. intros [E1 E2]. destruct HR; congruence.
  - intros b i m err -> [Hrep Hkm]. unfold receiveDone. unfold reports in Hrep.
    destruct err; [done|]. rewrite Hrep, Hkm. rewrite (proj2 (node_of_Ok _ _ n) Hkey). cbn [res_bind].
    rewrite (fresh_applied n) by apply (Hn _ _ Hkey). cbn [res_bind].
    destruct (gdidApply_ok (rg_wait rg) t (tk_key tk) (q_appliedIndex (n_queue n)) Ht) as (w & -> & _).
    simpl. by eexists.
Qed.

(** The group after the registration, with a response of the storage in the
    queue, and after each half of its handling. *)
Definition wk0 : @RaftGroup GMem := New ∅ NewGOptions (fun _ => true).
Definition applyResp1 : Event :=
  {| emptyEvent with ev_Type := ApplyResp; ev_Index := 1; ev_Reason := ReasonOk |}.
Definition wk1 := match solo_group with Ok rg => rg | _ => wk0 end.
Definition wk2 := match waitForApply wk1 "a" 1 None with Ok (rg, _, _) => rg | _ => wk0 end.
Definition wk3 := match AddEvent double wk2 "a" applyResp1 with Ok rg => rg | _ => wk0 end.
Definition wk3q := match Get (rg_mq wk3) with Ok r => r | _ => (rg_mq wk3, Fresh []) end.
Definition wk4 := {| wk3 with rg_mq := wk3q.1 |}.
Definition wk_m := mkGEvent "a" applyResp1 None.
Definition wk5 := match receiveStep wk4 wk_m with Ok (rg, _) => rg | _ => wk0 end.
Definition wk6 := match receiveDone wk5 wk_m None with Ok rg => rg | _ => wk0 end.
Definition wk_t : table := {[0%nat := new_ticket "a" 1 (Some 0)]}.

Lemma group_wakeup_witness :
  rtc (gstep double) (mkGSys wk0 ∅ PcIdle)
      (mkGSys wk6 (tk_reach "a" 1 <$> wk_t) (PcReceiving wk3q.2 1)) /\
  applied_of wk6 "a" = Some 1 /\
  exists tk, (tk_reach "a" 1 <$> wk_t) !! 0%nat = Some tk /\ tk_maxIndex tk = 1 /\
             tk_signalled tk = true.
Proof.
  assert (Hr : rtc (gstep double) (mkGSys wk0 ∅ PcIdle)
      (mkGSys wk6 (tk_reach "a" 1 <$> wk_t) (PcReceiving wk3q.2 1))).
  { apply (rtc_l _ _ (mkGSys wk1 ∅ PcIdle)).
    { apply (g_add _ wk0 ∅ PcIdle "a" 0 (mkRaftState 0 1 0) solo_opts
               match solo_node with Ok n => n | _ => CommitProps.the_node Panic end wk1);
        [apply map_Forall_empty|vm_compute; reflexivity..]. }
    apply (rtc_l _ _ (mkGSys wk2 wk_t PcIdle)).
    { apply (g_register _ wk1 ∅ PcIdle "a" 1 None wk2 0%nat false). vm_compute. reflexivity. }
    apply (rtc_l _ _ (mkGSys wk3 wk_t PcIdle)).
    { apply (g_event _ wk2 wk_t PcIdle "a" applyResp1 wk3). left. vm_compute. reflexivity. }
    apply (rtc_l _ _ (mkGSys wk4 wk_t (PcReceiving wk3q.2 0))).
    { apply (g_get _ wk3 wk_t wk3q.1 wk3q.2). vm_compute. reflexivity. }
    apply (rtc_l _ _ (mkGSys wk5 wk_t (PcStepped wk3q.2 0 wk_m None))).
    { apply (g_stepped _ wk4 wk_t wk3q.2 0 wk_m wk5 None); vm_compute; reflexivity. }
    apply rtc_once, (g_done _ wk5 wk_t wk3q.2 0 wk_m None wk6). vm_compute. reflexivity. }
  split; [exact Hr|]. split; [vm_compute; reflexivity|].
  exists (mkTicket "a" 1 true false). split; [vm_compute; reflexivity|]. split; [reflexivity|].
  destruct (group_wakeup double _ GMem _ ∅ NewGOptions (fun _ => true) wk6 _ _ 0
              (mkTicket "a" 1 true false) Hr) as (a & Ha & _ & _ & Hiff & _);
    [vm_compute; reflexivity|].
  apply Hiff; [intros []|]. vm_compute in Ha. injection Ha as <-. simpl. lia.
Defined.

(**  A proposal that meets its deadline releases the mutex of the raft while
    its event is still queued, so that the next proposal gets the same index.  The
    queue then takes the second event for a duplicate and reports success: here
    proposal 8 returns as applied at index 1, and the log that was stored and
    applied there is the one of proposal 7, which was reported as failed. *)
Theorem timed_out_proposal_shadows_next :
  shadowed = Ok (Some 1, PDone [mkProposeResp 8 1], [7]).
Proof. vm_compute. reflexivity. Qed.

(**  The answer the loop makes up for a refused read of logs does not name
    the replica that asked, so that the flag which says that a read for it is
    under way stays set.  With a pool that refuses one task, a replica that asks
    eight times is never answered; with a pool that refuses none it gets the log
    each time. *)
Theorem refused_read_silences_replica :
  (let! rg := pair_group (fun _ => true) in syncs 8 rg) = Ok (replicate 8 (SyncResp, 1%nat)) /\
  (let! rg := pair_group (fun k => negb (Nat.eqb k 0)) in syncs 8 rg) = Ok [].
Proof. split; vm_compute; reflexivity. Qed.
End GroupWakeProps.
