(* ===== verification/KeyBytes.v ===== *)
(** * Bytes of the database keys

    What the package [pkg/wkdb/key] uses of Go's standard library: byte slices
    that are made with a length and written in place, big-endian integers,
    [bytes.Compare], the 64 bit FNV-1a hash, decimal numbers and the validity of
    UTF-8.

    - [make]: a new slice and the writes to it, in order, with their panics.
    - [bcompare]: the order of the keys in the store; on fields of equal width it
      is the order of the fields ([bcompare_app], [bcompare_be]).
    - [in_range]: the keys an iterator with two bounds visits. *)

From Stdlib Require Import Strings.Byte.
From stdpp Require Import pretty.
From S2P Require Import Prelude RaftTypes WkProto.

(** ** Slices that are written in place *)

(** A write to a slice: an element, a big-endian integer through
    [binary.BigEndian], or a [copy], which stops at the end of the slice. *)
Inductive write :=
| WByte (i : nat) (b : byte)
| WUint (width i : nat) (v : Z)
| WCopy (i : nat) (bs : bytes).

(** [bs] over the places from [i] on, which have to exist. *)
Definition put (i : nat) (bs key : bytes) : res bytes :=
  if (i + length bs <=? length key)%nat
  then Ok (take i key ++ bs ++ drop (i + length bs) key) else Panic.

Definition do_write (key : bytes) (w : write) : res bytes :=
  match w with
  | WByte i b => put i [b] key
  | WUint width i v => put i (be_bytes width v) key
  | WCopy i bs =>
      if (i <=? length key)%nat then put i (take (length key - i) bs) key else Panic
  end.

Fixpoint do_writes (key : bytes) (ws : list write) : res bytes :=
  match ws with
  | [] => Ok key
  | w :: ws => let! key := do_write key w in do_writes key ws
  end.

(** [key := make([]byte, n)] and the writes to it. *)
Definition make (n : nat) (ws : list write) : res bytes := do_writes (replicate n x00) ws.

(** ** The order of the keys *)

(** [bytes.Compare] *)
Fixpoint bcompare (a b : bytes) : comparison :=
  match a, b with
  | [], [] => Eq
  | [], _ => Lt
  | _, [] => Gt
  | x :: a, y :: b =>
      match Z_of_byte x ?= Z_of_byte y with
      | Eq => bcompare a b
      | c => c
      end
  end.

Definition ble (a b : bytes) : Prop := bcompare a b <> Gt.
Definition blt (a b : bytes) : Prop := bcompare a b = Lt.

#[export] Instance ble_dec a b : Decision (ble a b).
Proof. unfold ble. destruct (bcompare a b); [left|left|right]; naive_solver. Defined.
#[export] Instance blt_dec a b : Decision (blt a b).
Proof. unfold blt. apply _. Defined.

(** The keys an iterator with these bounds visits. *)
Definition in_range (lower upper k : bytes) : Prop := ble lower k /\ blt k upper.

#[export] Instance in_range_dec lower upper k : Decision (in_range lower upper k).
Proof. unfold in_range. apply _. Defined.

Lemma Z_of_byte_inj a b : Z_of_byte a = Z_of_byte b -> a = b.
Proof.
  unfold Z_of_byte. intros H%N2Z.inj. pose proof (Byte.of_to_N a) as Ha.
  rewrite H, Byte.of_to_N in Ha. congruence.
Qed.

#[export] Instance byte_eq_dec : EqDecision byte.
Proof. intros a b. apply Byte.byte_eq_dec. Defined.

#[export] Program Instance byte_countable : Countable byte := {|
  encode b := Pos.succ (match Byte.to_N b with N0 => 1 | Npos p => Pos.succ p end)%positive;
  decode p := Byte.of_N (N.pred (N.pred (Npos p)))
|}.
Next Obligation. by intros []. Qed.

Lemma bcompare_refl a : bcompare a a = Eq.
Proof. induction a as [|x a IH]; simpl; [done|]. by rewrite Z.compare_refl. Qed.

Lemma bcompare_eq a b : bcompare a b = Eq <-> a = b.
Proof.
  split; [|intros ->; apply bcompare_refl]. revert b.
  induction a as [|x a IH]; intros [|y b]; simpl; try done.
  destruct (_ ?= _) eqn:E; try done. apply Z.compare_eq, Z_of_byte_inj in E as ->.
  intros H. f_equal. by apply IH.
Qed.

Lemma bcompare_antisym a b : bcompare b a = CompOpp (bcompare a b).
Proof.
  revert b. induction a as [|x a IH]; intros [|y b]; simpl; try done.
  rewrite (Z.compare_antisym (Z_of_byte x)). destruct (_ ?= _); simpl; auto.
Qed.

Lemma blt_trans a b c : blt a b -> blt b c -> blt a c.
Proof.
  unfold blt. revert b c. induction a as [|x a IH]; intros [|y b] [|z c]; simpl; try done.
  destruct (Z.compare_spec (Z_of_byte x) (Z_of_byte y)),
    (Z.compare_spec (Z_of_byte y) (Z_of_byte z)); try done; intros H1 H2.
  - replace (Z_of_byte x ?= Z_of_byte z) with Eq by (symmetry; apply Z.compare_eq_iff; lia). eauto.
  - replace (Z_of_byte x ?= Z_of_byte z) with Lt by (symmetry; apply Z.compare_lt_iff; lia). done.
  - replace (Z_of_byte x ?= Z_of_byte z) with Lt by (symmetry; apply Z.compare_lt_iff; lia). done.
  - replace (Z_of_byte x ?= Z_of_byte z) with Lt by (symmetry; apply Z.compare_lt_iff; lia). done.
Qed.

Lemma blt_irrefl a : ~ blt a a.
Proof. unfold blt. by rewrite bcompare_refl. Qed.

Lemma ble_blt_eq a b : ble a b <-> blt a b \/ a = b.
Proof.
  unfold ble, blt. rewrite <-bcompare_eq. destruct (bcompare a b); naive_solver.
Qed.

(** Parts of equal length are compared first. *)
Lemma bcompare_app a b x y :
  length a = length b ->
  bcompare (a ++ x) (b ++ y) = match bcompare a b with Eq => bcompare x y | c => c end.
Proof.
  revert b. induction a as [|p a IH]; intros [|q b]; simpl; try done.
  intros [= H]. destruct (_ ?= _); auto.
Qed.

Lemma bcompare_prefix p x y : bcompare (p ++ x) (p ++ y) = bcompare x y.
Proof. by rewrite bcompare_app, bcompare_refl. Qed.

(** The order of two integers of the same width is the order of their bytes. *)
Lemma bcompare_be k a b :
  0 <= a < 2 ^ (8 * Z.of_nat k) -> 0 <= b < 2 ^ (8 * Z.of_nat k) ->
  bcompare (be_bytes k a) (be_bytes k b) = (a ?= b).
Proof.
  revert a b. induction k as [|k IH]; intros a b Ha Hb; simpl be_bytes.
  { simpl in *. symmetry. apply Z.compare_eq_iff. lia. }
  assert (Hs : forall z, 0 <= z < 2 ^ (8 * Z.of_nat (S k)) -> 0 <= Z.shiftr z 8 < 2 ^ (8 * Z.of_nat k)).
  { intros z Hz. rewrite Z.shiftr_div_pow2 by lia. split; [apply Z.div_pos; lia|].
    apply Z.div_lt_upper_bound; [lia|]. rewrite <-Z.pow_add_r by lia.
    replace (8 + 8 * Z.of_nat k) with (8 * Z.of_nat (S k)) by lia. lia. }
  rewrite bcompare_app by (by rewrite !be_bytes_length).
  rewrite IH by auto. simpl. rewrite !byte_of_Z_of_byte. unfold u8.
  rewrite !Z.shiftr_div_pow2 by lia. change (2 ^ 8) with two8.
  pose proof (Z.div_mod a two8 ltac:(lia)). pose proof (Z.div_mod b two8 ltac:(lia)).
  pose proof (Z.mod_pos_bound a two8 ltac:(lia)). pose proof (Z.mod_pos_bound b two8 ltac:(lia)).
  destruct (Z.compare_spec (a / two8) (b / two8)), (Z.compare_spec (a mod two8) (b mod two8)),
    (Z.compare_spec a b); try done; lia.
Qed.

(** What lies between two keys with a common prefix has the prefix. *)
Lemma range_prefix p a b k :
  in_range (p ++ a) (p ++ b) k -> exists c, k = p ++ c /\ in_range a b c.
Proof.
  revert k. induction p as [|x p IH]; intros k [H1 H2].
  { exists k. by split. }
  destruct k as [|y k].
  { unfold ble in H1. by simpl in H1. }
  unfold ble in H1. unfold blt in H2. simpl in H1, H2.
  rewrite (Z.compare_antisym (Z_of_byte x)) in H2.
  destruct (Z_of_byte x ?= Z_of_byte y) eqn:E; simpl in H2; try done.
  apply Z.compare_eq, Z_of_byte_inj in E as <-.
  destruct (IH k) as (c & -> & Hc); [by split|]. by exists c.
Qed.

Lemma in_range_prefix p a b c : in_range (p ++ a) (p ++ b) (p ++ c) <-> in_range a b c.
Proof. unfold in_range, ble, blt. by rewrite !bcompare_prefix. Qed.

(** A field of the same width in front: the bounds of the field decide, and the
    rest only at the bounds themselves. *)
Lemma range_field k lo hi v a b c :
  0 <= lo < 2 ^ (8 * Z.of_nat k) -> 0 <= hi < 2 ^ (8 * Z.of_nat k) ->
  0 <= v < 2 ^ (8 * Z.of_nat k) ->
  in_range (be_bytes k lo ++ a) (be_bytes k hi ++ b) (be_bytes k v ++ c) <->
  (lo < v \/ lo = v /\ ble a c) /\ (v < hi \/ v = hi /\ blt c b).
Proof.
  intros Hlo Hhi Hv. unfold in_range, ble, blt.
  rewrite !bcompare_app by (by rewrite !be_bytes_length). rewrite !bcompare_be by done.
  destruct (Z.compare_spec lo v), (Z.compare_spec v hi); subst; naive_solver lia.
Qed.

(** Integers and their bytes determine each other. *)
Lemma be_bytes_inj k a b :
  0 <= a < 2 ^ (8 * Z.of_nat k) -> 0 <= b < 2 ^ (8 * Z.of_nat k) ->
  be_bytes k a = be_bytes k b -> a = b.
Proof. intros Ha Hb E. rewrite <-(be_val_bytes k a), <-(be_val_bytes k b); [by f_equal|done|done]. Qed.

Lemma be_val_app' bs1 bs2 :
  be_val (bs1 ++ bs2) = be_val bs1 * 2 ^ (8 * len bs2) + be_val bs2.
Proof.
  revert bs1. induction bs2 as [|b bs2 IH] using rev_ind; intros bs1.
  { rewrite app_nil_r. change (be_val []) with 0. simpl. lia. }
  rewrite app_assoc, !be_val_app, IH, length_app. simpl.
  assert (HL : forall z b, Z.lor (Z.shiftl z 8) (Z_of_byte b) = z * two8 + Z_of_byte b).
  { intros z c. pose proof (Z_of_byte_range c) as Hc. unfold is_u8 in Hc.
    rewrite Z.shiftl_mul_pow2 by lia. change (2 ^ 8) with two8.
    rewrite <-Z.add_lor_land.
    replace (Z.land (z * two8) (Z_of_byte c)) with 0; [lia|]. symmetry.
    apply Z.bits_inj'. intros i Hi. rewrite Z.land_spec, Z.bits_0.
    destruct (Z.ltb_spec i 8).
    - change two8 with (2 ^ 8). rewrite Z.mul_pow2_bits_low by lia. done.
    - replace (Z.testbit (Z_of_byte c) i) with false; [by rewrite andb_false_r|]. symmetry.
      apply Z.testbit_false; [lia|]. rewrite Z.div_small; [done|]. split; [lia|].
      eapply Z.lt_le_trans; [apply Hc|]. change two8 with (2 ^ 8). apply Z.pow_le_mono_r; lia. }
  rewrite !HL.
  replace (8 * Z.of_nat (length bs2 + 1)) with (8 * len bs2 + 8) by lia.
  rewrite Z.pow_add_r by lia. change (2 ^ 8) with two8. lia.
Qed.

Lemma be_val_bound bs : 0 <= be_val bs < 2 ^ (8 * len bs).
Proof.
  induction bs as [|b bs IH] using rev_ind; [by vm_compute|].
  rewrite be_val_app', length_app. simpl. pose proof (Z_of_byte_range b) as Hb. unfold is_u8 in Hb.
  replace (be_val [b]) with (Z_of_byte b) by (unfold be_val; simpl; by rewrite Z.lor_0_l).
  replace (8 * Z.of_nat (length bs + 1)) with (8 * len bs + 8) by lia.
  rewrite Z.pow_add_r by lia. change (2 ^ (8 * 1)) with two8. change (2 ^ 8) with two8. nia.
Qed.

(** ** Strings *)

Definition str_bytes (s : string) : bytes := String.list_byte_of_string s.

(** [strconv.FormatInt] and [FormatUint] of an unsigned number, in base 10. *)
Definition FormatInt (v : Z) : string := pretty (Z.to_N v).

(** [hash/fnv]: [New64a], [Write] and [Sum64]. *)
Definition fnv64a (data : bytes) : Z :=
  foldl (fun h b => u64 (Z.lxor h (Z_of_byte b) * 1099511628211)) 14695981039346656037 data.

Lemma fnv64a_range data : is_u64 (fnv64a data).
Proof.
  unfold fnv64a. assert (H : is_u64 14695981039346656037) by (unfold is_u64; lia). revert H.
  generalize 14695981039346656037. induction data as [|b data IH]; intros h Hh; simpl; [done|].
  apply IH, u64_range.
Qed.

(** ** UTF-8 *)

Definition between (lo hi : Z) (b : byte) : bool := (lo <=? Z_of_byte b) && (Z_of_byte b <=? hi).
Definition continuation (b : byte) : bool := between 128 191 b.

(** [utf8.Valid]: one to four bytes per rune, no overlong forms, no surrogates,
    nothing above U+10FFFF. *)
Fixpoint utf8_valid (s : bytes) : bool :=
  match s with
  | [] => true
  | b :: s1 =>
      if between 0 127 b then utf8_valid s1
      else
        match s1 with
        | [] => false
        | c :: s2 =>
            if between 194 223 b then continuation c && utf8_valid s2
            else
              match s2 with
              | [] => false
              | d :: s3 =>
                  if between 224 239 b then
                    (if between 224 224 b then between 160 191 c
                     else if between 237 237 b then between 128 159 c
                     else continuation c) && continuation d && utf8_valid s3
                  else
                    match s3 with
                    | [] => false
                    | e :: s4 =>
                        between 240 244 b &&
                        (if between 240 240 b then between 144 191 c
                         else if between 244 244 b then between 128 143 c
                         else continuation c) && continuation d && continuation e && utf8_valid s4
                    end
              end
        end
  end.
