(* ===== verification/RaftCodecTyped.v ===== *)
(** * What the network can deliver

    [Event.Unmarshal] on arbitrary bytes.  A decoder of an integer returns a value
    of its Go type ([WkProtoTypes]); from this, whatever bytes a node receives,
    an event that is decoded has all its fields in their widths, is encoded
    without loss, and its encoding is decoded to the same event. *)

From Stdlib Require Import Strings.Byte.
From S2P Require Import Prelude RaftTypes WkProto RaftCodec KeyBytes.

(** ** Decoders and the types of their results *)

Definition yields {A} (d : Decoder A) (Q : A -> Prop) : Prop :=
  forall s a s', d s = Some (a, s') -> Q a.

(** The results of the decoders of [wkproto] have the types of its signatures, and
    [Bytes] returns as many bytes as it is asked for. *)
Class WkProtoTypes (W : WkProto) := {
  Uint8_type : yields Uint8 is_u8;
  Uint16_type : yields Uint16 is_u16;
  Uint32_type : yields Uint32 is_u32;
  Uint64_type : yields Uint64 is_u64;
  Bytes_type n : yields (Bytes n) (fun b => len b = n)
}.

Create HintDb typed.
#[export] Hint Resolve Uint8_type Uint16_type Uint32_type Uint64_type Bytes_type : typed.

Lemma yields_ret {A} (a : A) (Q : A -> Prop) : Q a -> yields (dret a) Q.
Proof. by intros H s a' s' [= <- _]. Qed.

Lemma yields_bind {A B} (d : Decoder A) (k : A -> Decoder B) (Q : A -> Prop) (R : B -> Prop) :
  yields d Q -> (forall a, Q a -> yields (k a) R) -> yields (dbind d k) R.
Proof.
  intros Hd Hk s b s'. unfold dbind. destruct (d s) as [[a s1]|] eqn:E; [|done].
  intros Hb. eapply Hk; [by eapply Hd|done].
Qed.

Lemma yields_opt {A} b (d : Decoder A) dflt (Q : A -> Prop) :
  yields d Q -> Q dflt -> yields (dopt b d dflt) Q.
Proof. intros H1 H2. destruct b; [done|by apply yields_ret]. Qed.

Lemma yields_repeat {A} k (d : Decoder A) (Q : A -> Prop) :
  yields d Q -> yields (drepeat k d) (fun l => length l = k /\ Forall Q l).
Proof.
  intros Hd. induction k as [|k IH]; simpl; [by apply yields_ret|].
  eapply yields_bind; [exact Hd|]. intros a Ha. eapply yields_bind; [exact IH|].
  intros l [Hl Hq]. apply yields_ret. simpl. by rewrite Hl; auto.
Qed.

(** *** Big-endian integers *)

Lemma be_dec_type k : yields (be_dec k) (fun v => 0 <= v < 2 ^ (8 * Z.of_nat k)).
Proof.
  intros s v s'. unfold be_dec. destruct (Nat.ltb_spec (length s) k); [done|]. intros [= <- _].
  pose proof (be_val_bound (take k s)) as Hb. rewrite length_take in Hb.
  by replace (k `min` length s)%nat with k in Hb by lia.
Qed.

#[export] Instance bigEndian_types : WkProtoTypes bigEndian.
Proof.
  split; [apply (be_dec_type 1)|apply (be_dec_type 2)|apply (be_dec_type 4)|apply (be_dec_type 8)|].
  intros n s b s'. cbn. unfold be_bytes_dec.
  destruct (Z.ltb_spec (len s) n); [done|]. destruct (Z.ltb_spec n 0); [done|]. simpl.
  intros [= <- _]. rewrite length_take. lia.
Qed.

(** ** Enumerations *)

(** An integer that is converted keeps its value. *)
Lemma enum_num {A} (l : list A) (other : Z -> A) (num : A -> Z) z :
  map num l = map Z.of_nat (seq 0 (length l)) -> (forall z, num (other z) = z) ->
  num (enum_of l other z) = z.
Proof.
  intros Hl Ho. unfold enum_of. destruct (Z.leb_spec 0 z); [|done].
  destruct (l !! Z.to_nat z) as [a|] eqn:E; simpl; [|done].
  pose proof (f_equal (.!! Z.to_nat z) Hl) as H'. simpl in H'.
  rewrite !list_lookup_fmap, E in H'. pose proof (lookup_lt_Some _ _ _ E) as Hlt.
  rewrite lookup_seq_lt in H' by done. simpl in H'. injection H' as ->. lia.
Qed.

Lemma enum_fits {A} (l : list A) (other : Z -> A) (num : A -> Z) (Q : Z -> Prop) z :
  map num l = map Z.of_nat (seq 0 (length l)) -> (forall z, num (other z) = z) -> Q z ->
  Q (num (enum_of l other z)) /\ canonical (enum_of l other) num (enum_of l other z).
Proof. intros Hl Ho Hq. unfold canonical. by rewrite enum_num. Qed.

(** ** Events *)

Section Typed.
Context {W : WkProto} {T : WkProtoTypes W}.

(** One step of a decoder: the next field and its type. *)
Ltac typed_field := eapply yields_bind; [solve [eauto with typed]|intros ? ?].

Lemma repeat_u32 {A} (d : Decoder A) (Q : A -> Prop) n :
  is_u32 n -> yields d Q -> yields (drepeat (Z.to_nat n) d) (fun l => Forall Q l /\ is_u32 (len l)).
Proof.
  intros Hn Hd s l s' E. apply (yields_repeat _ _ _ Hd) in E as [Hl Hq].
  split; [done|]. unfold is_u32 in *. lia.
Qed.
#[local] Hint Resolve repeat_u32 : typed.

Lemma Config_dec_typed : yields Config_dec config_fits.
Proof.
  unfold Config_dec. do 10 typed_field. cbv beta in *. destruct_and!. apply yields_ret. split; cbn; try done.
  by apply enum_fits.
Qed.

(** A decoded log has no local fields. *)
Definition log_typed (l : Log) : Prop := log_fits l /\ wire_log l = l.

Lemma Log_Unmarshal_typed data l : len data < two32 -> Log_Unmarshal data = Some l -> log_typed l.
Proof.
  intros Hlt. unfold Log_Unmarshal. destruct (Z.ltb_spec (len data) 20); [done|]. intros [= <-].
  split; [|done].
  assert (Hb : forall k n, (k + n <= 20)%nat ->
            0 <= be_val (take n (drop k data)) < 2 ^ (8 * Z.of_nat n)).
  { intros k n Hk. pose proof (be_val_bound (take n (drop k data))) as H'.
    rewrite length_take, length_drop in H'.
    by replace (n `min` (length data - k))%nat with n in H' by lia. }
  split; cbn [log_Id log_Index log_Term log_Data].
  - rewrite <-(drop_0 data). apply (Hb 0%nat 8%nat). lia.
  - apply (Hb 8%nat 8%nat). lia.
  - apply (Hb 16%nat 4%nat). lia.
  - rewrite length_drop. lia.
Qed.

Lemma Log_dec_typed : yields Log_dec log_typed.
Proof.
  unfold Log_dec. typed_field. typed_field. intros s l s'.
  destruct (Log_Unmarshal _) as [l'|] eqn:E; [|done]. intros [= <- _].
  eapply Log_Unmarshal_typed; [|exact E]. unfold is_u32 in *. lia.
Qed.
#[local] Hint Resolve Config_dec_typed Log_dec_typed : typed.

Lemma enum_typed {A} (d : Decoder Z) (l : list A) (other : Z -> A) (num : A -> Z) (Q : Z -> Prop) :
  map num l = map Z.of_nat (seq 0 (length l)) -> (forall z, num (other z) = z) -> yields d Q ->
  yields (do! t <- d; dret (enum_of l other t))
    (fun a => Q (num a) /\ canonical (enum_of l other) num a).
Proof.
  intros Hl Ho Hd. eapply yields_bind; [exact Hd|]. intros z Hz. by apply yields_ret, enum_fits.
Qed.

Lemma logs_typed :
  yields (do! logsLen <- Uint32; drepeat (Z.to_nat logsLen) Log_dec)
    (fun l => Forall log_typed l /\ is_u32 (len l)).
Proof. typed_field. eauto with typed. Qed.

(** All fields of a decoded event have the types they are declared with. *)
Lemma Event_dec_typed flag :
  yields (Event_dec flag) (fun e => event_fits e /\
    wire_event e = {| e with ev_Config := if Config_IsEmpty (ev_Config e) then emptyConfig
                                         else ev_Config e |}).
Proof.
  unfold Event_dec. eapply yields_bind.
  { apply yields_opt; [by apply (enum_typed Uint16 _ _ EventType_num is_u16); [..|apply Uint16_type]|].
    by vm_compute. }
  intros ? ?. do 8 (eapply yields_bind; [apply yields_opt; [solve [eauto with typed]|]; by vm_compute|intros ? ?]).
  eapply yields_bind; [apply yields_opt; [solve [eauto with typed]|]; decide_goal|intros ? ?].
  eapply yields_bind; [apply yields_opt; [apply logs_typed|]; split; [constructor|by vm_compute]|intros logs [Hlogs ?]].
  eapply yields_bind.
  { apply yields_opt; [by apply (enum_typed Uint8 _ _ Reason_num is_u8); [..|apply Uint8_type]|].
    by vm_compute. }
  intros ? ?. eapply yields_bind.
  { apply yields_opt; [by apply (enum_typed Uint8 _ _ Speed_num is_u8); [..|apply Uint8_type]|].
    by vm_compute. }
  intros ? ?. apply yields_ret. split.
  - split; cbn; try done. eapply Forall_impl; [exact Hlogs|]. by intros l [? _].
  - unfold wire_event. cbn. f_equal. clear -Hlogs.
    induction Hlogs as [|l logs [_ Hl] _ IH]; [done|]. cbn. by rewrite Hl, IH.
Qed.
End Typed.

Module CodecTypes.

(** C13. Whatever bytes arrive from the network, an event that is decoded is well typed:
    every integer, enumeration, replica, learner and log is within the width of its Go type.
    Encoding and decoding it again gives the same event, except that a configuration which
    [IsEmpty] takes for empty (it does not look at the leader) comes back as the empty one.
    This holds for every encoder and decoder that satisfies the laws of wkproto. *)
Theorem decoded_event_typed (W : WkProto) (L : WkProtoLaws W) (T : WkProtoTypes W)
    (data : bytes) (e : Event) :
  Event_Unmarshal data = Some e ->
  event_fits e /\
  Event_Unmarshal (Event_Marshal e) =
    Some {| e with ev_Config := if Config_IsEmpty (ev_Config e) then emptyConfig else ev_Config e |}.
Proof.
  unfold Event_Unmarshal at 1. intros H. apply bind_Some in H as ([e' s] & Hd & [= ->]).
  unfold dbind in Hd. destruct (Uint32 data) as [[flag s1]|]; [|done].
  apply Event_dec_typed in Hd as [Hf Hw]. split; [done|].
  unfold Event_Unmarshal. by rewrite (reads_all _ _ _ (Event_dec_reads e Hf)), Hw.
Qed.

(** The bytes of a vote request with a log that carries one byte. *)
Definition arrived : bytes :=
  [x00; x00; x04; x03] ++ [x00; x0e] ++ [x00; x00; x00; x00; x00; x00; x00; x09] ++
  [x00; x00; x00; x01] ++ [x00; x00; x00; x15] ++ replicate 20 xff ++ [x07].

Lemma decoded_event_typed_witness :
  exists e, Event_Unmarshal arrived = Some e /\ event_fits e /\ ev_Type e = VoteReq /\
    Event_Unmarshal (Event_Marshal e) = Some e.
Proof.
  destruct (Event_Unmarshal arrived) as [e|] eqn:E; [|by vm_compute in E].
  pose proof (decoded_event_typed bigEndian bigEndian_laws bigEndian_types arrived e E) as [Hf Hr].
  vm_compute in E. injection E as <-. eexists. split; [done|]. split; [exact Hf|]. split; [done|exact Hr].
Defined.
End CodecTypes.
