(* ===== verification/ClusterConfig.v ===== *)
(** * The configuration of the cluster

    [pkg/cluster/node/clusterconfig] and [pkg/cluster/node/types]: the nodes and
    slots of a cluster are a configuration that every node holds, changed by
    commands that are replicated through one raft ([RaftDriver]) and applied in the
    order of its log.

    - The data and the functions of [config.go].  They change one configuration
      under a mutex; a loop that changes the first match is [upd_first].
    - The commands: their encoding ([cmd.go]), the proposals ([server_propose.go])
      and their application ([server_apply.go]).  Protobuf is an interface
      ([Protobuf]) with the law that a message survives.
    - [configToRaftConfig]: the raft configuration a cluster configuration stands
      for, which is handed to the raft as an event.

    The file the configuration is written to, and errors of writing it, are left
    out; that it was written once ([inited]) is kept.  The clock is an argument. *)

From Stdlib Require Import Strings.Byte.
From S2P Require Import Prelude RaftTypes WkProto RaftCodec.

(** ** Data *)

(** [pkg/cluster/node/types/config.pb.go] [lines 23-28] *)
Inductive NodeRole := NodeRoleReplica | NodeRoleProxy | NodeRoleOther (z : Z).
(** [pkg/cluster/node/types/config.pb.go] [lines 69-76] *)
Inductive NodeStatus :=
| NodeStatusUnkown | NodeStatusWillJoin | NodeStatusJoining | NodeStatusJoined
| NodeStatusOther (z : Z).
(** [pkg/cluster/node/types/config.pb.go] [lines 173-179] *)
Inductive SlotStatus :=
| SlotStatusNormal | SlotStatusCandidate | SlotStatusLeaderTransfer | SlotStatusOther (z : Z).

#[export] Instance NodeRole_eq_dec : EqDecision NodeRole.
Proof. solve_decision. Defined.
#[export] Instance NodeStatus_eq_dec : EqDecision NodeStatus.
Proof. solve_decision. Defined.
#[export] Instance SlotStatus_eq_dec : EqDecision SlotStatus.
Proof. solve_decision. Defined.

(** Enumerations of protobuf are 32 bit integers. *)
Definition NodeStatus_num (s : NodeStatus) : Z :=
  match s with
  | NodeStatusUnkown => 0 | NodeStatusWillJoin => 1 | NodeStatusJoining => 2
  | NodeStatusJoined => 3 | NodeStatusOther z => z
  end.
Definition NodeStatus_of : Z -> NodeStatus :=
  enum_of [NodeStatusUnkown; NodeStatusWillJoin; NodeStatusJoining; NodeStatusJoined] NodeStatusOther.
Definition SlotStatus_num (s : SlotStatus) : Z :=
  match s with
  | SlotStatusNormal => 0 | SlotStatusCandidate => 1 | SlotStatusLeaderTransfer => 2
  | SlotStatusOther z => z
  end.
Definition SlotStatus_of : Z -> SlotStatus :=
  enum_of [SlotStatusNormal; SlotStatusCandidate; SlotStatusLeaderTransfer] SlotStatusOther.

(** [pkg/cluster/node/types/config.pb.go] [Node] *)
Record CNode := mkCNode {
  nd_Id : Z;
  nd_ClusterAddr : string;
  nd_ApiServerAddr : string;
  nd_Join : bool;
  nd_Online : bool;
  nd_OfflineCount : Z;
  nd_LastOffline : Z;
  nd_AllowVote : bool;
  nd_Role : NodeRole;
  nd_Status : NodeStatus;
  nd_CreatedAt : Z
}.

(** [pkg/cluster/node/types/config.pb.go] [Slot] *)
Record Slot := mkSlot {
  sl_Id : Z;
  sl_Leader : Z;
  sl_Term : Z;
  sl_Replicas : list Z;
  sl_Learners : list Z;
  sl_MigrateFrom : Z;
  sl_MigrateTo : Z;
  sl_ExpectLeader : Z;
  sl_Status : SlotStatus
}.

(** [pkg/cluster/node/types/config.pb.go] [Config] *)
Record CConfig := mkCConfig {
  cc_Version : Z;
  cc_SlotCount : Z;
  cc_SlotReplicaCount : Z;
  cc_ChannelReplicaCount : Z;
  cc_Term : Z;
  cc_MigrateFrom : Z;
  cc_MigrateTo : Z;
  cc_Learners : list Z;
  cc_Nodes : list CNode;
  cc_Slots : list Slot
}.

Definition zeroSlot : Slot := mkSlot 0 0 0 [] [] 0 0 0 SlotStatusNormal.
Definition zeroConfig : CConfig := mkCConfig 0 0 0 0 0 0 0 [] [] [].

Definition set_nodes (c : CConfig) (l : list CNode) : CConfig := {| c with cc_Nodes := l |}.
Definition set_slots (c : CConfig) (l : list Slot) : CConfig := {| c with cc_Slots := l |}.

(** [pkg/cluster/node/types/config.go] [(s *Slot) Equal]

    The lists are compared as sets, and in one direction only. *)
Definition Slot_Equal (s v : Slot) : bool :=
  (sl_Id s =? sl_Id v) && (len (sl_Replicas s) =? len (sl_Replicas v)) &&
  (len (sl_Learners s) =? len (sl_Learners v)) && (sl_MigrateFrom s =? sl_MigrateFrom v) &&
  (sl_MigrateTo s =? sl_MigrateTo v) && (sl_Leader s =? sl_Leader v) &&
  (sl_ExpectLeader s =? sl_ExpectLeader v) && (sl_Term s =? sl_Term v) &&
  bool_decide (sl_Status s = sl_Status v) &&
  forallb (fun r => existsb (Z.eqb r) (sl_Replicas v)) (sl_Replicas s) &&
  forallb (fun r => existsb (Z.eqb r) (sl_Learners v)) (sl_Learners s).

(** [pkg/cluster/node/types/config.go] [(n *Node) Equal] *)
Definition Node_Equal (n v : CNode) : bool :=
  (nd_Id n =? nd_Id v) && bool_decide (nd_ApiServerAddr n = nd_ApiServerAddr v) &&
  bool_decide (nd_Status n = nd_Status v) && Bool.eqb (nd_Online n) (nd_Online v) &&
  Bool.eqb (nd_AllowVote n) (nd_AllowVote v) && bool_decide (nd_ClusterAddr n = nd_ClusterAddr v).

(** ** The functions of [config.go] *)

(** The first element that satisfies [p] is replaced by its image. *)
Fixpoint upd_first {A} (p : A -> bool) (f : A -> A) (l : list A) : list A :=
  match l with
  | [] => []
  | x :: l => if p x then f x :: l else x :: upd_first p f l
  end.

Definition is_node (id : Z) (n : CNode) : bool := nd_Id n =? id.
Definition is_slot (id : Z) (s : Slot) : bool := sl_Id s =? id.

(** [pkg/cluster/node/clusterconfig/config.go] [(c *Config) addSlot] *)
Definition addSlot (c : CConfig) (slot : Slot) : CConfig := set_slots c (cc_Slots c ++ [slot]).

(** [pkg/cluster/node/clusterconfig/config.go] [(c *Config) hasNode] *)
Definition hasNode (c : CConfig) (id : Z) : bool := existsb (is_node id) (cc_Nodes c).

(** [pkg/cluster/node/clusterconfig/config.go] [(c *Config) addOrUpdateNode] *)
Definition addOrUpdateNode (c : CConfig) (node : CNode) : CConfig :=
  if existsb (is_node (nd_Id node)) (cc_Nodes c)
  then set_nodes c (upd_first (is_node (nd_Id node)) (fun _ => node) (cc_Nodes c))
  else set_nodes c (cc_Nodes c ++ [node]).

(** [pkg/cluster/node/clusterconfig/config.go] [(c *Config) addNode] *)
Definition addNode (c : CConfig) (node : CNode) : CConfig := set_nodes c (cc_Nodes c ++ [node]).

(** [pkg/cluster/node/clusterconfig/config.go] [(c *Config) updateNode] *)
Definition updateNode (c : CConfig) (n : CNode) : CConfig :=
  set_nodes c (upd_first (is_node (nd_Id n)) (fun _ => n) (cc_Nodes c)).

(** [pkg/cluster/node/clusterconfig/config.go] [(c *Config) updateApiServerAddr] *)
Definition updateApiServerAddr (c : CConfig) (nodeId : Z) (addr : string) : CConfig :=
  set_nodes c (upd_first (is_node nodeId) (fun n => {| n with nd_ApiServerAddr := addr |}) (cc_Nodes c)).

(** [pkg/cluster/node/clusterconfig/config.go] [(c *Config) updateNodeOnlineStatus]

    [now] is [time.Now().Unix()]. *)
Definition updateNodeOnlineStatus (c : CConfig) (nodeId : Z) (online : bool) (now : Z) : CConfig :=
  set_nodes c (upd_first (is_node nodeId) (fun n =>
    if online then {| n with nd_Online := true |}
    else {| n with nd_Online := false; nd_OfflineCount := u32 (nd_OfflineCount n + 1);
                   nd_LastOffline := now |}) (cc_Nodes c)).

(** [pkg/cluster/node/clusterconfig/config.go] [(c *Config) updateNodeJoining] *)
Definition updateNodeJoining (c : CConfig) (nodeId : Z) : CConfig :=
  let c := set_nodes c (upd_first (is_node nodeId)
             (fun n => {| n with nd_Status := NodeStatusJoining |}) (cc_Nodes c)) in
  let c := {| c with cc_Learners := RemoveUint64 (cc_Learners c) nodeId |} in
  if cc_MigrateTo c =? nodeId then {| c with cc_MigrateTo := 0; cc_MigrateFrom := 0 |} else c.

(** The slot with the same id is replaced, or the slot is added. *)
Definition putSlot (slots : list Slot) (slot : Slot) : list Slot :=
  if existsb (is_slot (sl_Id slot)) slots
  then upd_first (is_slot (sl_Id slot)) (fun _ => slot) slots else slots ++ [slot].

(** [pkg/cluster/node/clusterconfig/config.go] [(c *Config) updateNodeJoined] *)
Definition updateNodeJoined (c : CConfig) (nodeId : Z) (slots : list Slot) : CConfig :=
  let c := set_nodes c (upd_first (is_node nodeId)
             (fun n => {| n with nd_Status := NodeStatusJoined |}) (cc_Nodes c)) in
  set_slots c (foldl putSlot (cc_Slots c) slots).

(** [pkg/cluster/node/clusterconfig/config.go] [(c *Config) updateSlotMigrate] *)
Definition updateSlotMigrate (c : CConfig) (slotId fromNodeId toNodeId : Z) : CConfig :=
  set_slots c (upd_first
    (fun s => is_slot slotId s && (sl_MigrateFrom s =? 0) && (sl_MigrateTo s =? 0))
    (fun s => let s := {| s with sl_MigrateFrom := fromNodeId; sl_MigrateTo := toNodeId |} in
              if ArrayContainsUint64 (sl_Replicas s) toNodeId then s
              else {| s with sl_Learners := sl_Learners s ++ [toNodeId] |}) (cc_Slots c)).

(** [pkg/cluster/node/clusterconfig/config.go] [(c *Config) updateSlotStatus] *)
Definition updateSlotStatus (c : CConfig) (slotId : Z) (status : SlotStatus) : CConfig :=
  set_slots c (upd_first (is_slot slotId) (fun s => {| s with sl_Status := status |}) (cc_Slots c)).

(** [pkg/cluster/node/clusterconfig/config.go] [(c *Config) updateSlots] *)
Definition updateSlots (c : CConfig) (slots : list Slot) : CConfig :=
  set_slots c (foldl (fun l slot => upd_first (is_slot (sl_Id slot)) (fun _ => slot) l) (cc_Slots c) slots).

(** [pkg/cluster/node/clusterconfig/config.go] [(c *Config) updateNodeStatus] *)
Definition updateNodeStatus (c : CConfig) (nodeId : Z) (status : NodeStatus) : CConfig :=
  set_nodes c (upd_first (is_node nodeId) (fun n => {| n with nd_Status := status |}) (cc_Nodes c)).

(** [pkg/cluster/node/clusterconfig/config.go] [(c *Config) slot] *)
Definition slot (c : CConfig) (id : Z) : option Slot := find (is_slot id) (cc_Slots c).
(** [pkg/cluster/node/clusterconfig/config.go] [(c *Config) node] *)
Definition node (c : CConfig) (id : Z) : option CNode := find (is_node id) (cc_Nodes c).
(** [pkg/cluster/node/clusterconfig/config.go] [(c *Config) nodeOnline] *)
Definition nodeOnline (c : CConfig) (nodeId : Z) : bool :=
  match find (is_node nodeId) (cc_Nodes c) with
  | Some n => nd_Online n
  | None => false
  end.

Definition joined (n : CNode) : bool := bool_decide (nd_Status n = NodeStatusJoined).

(** [pkg/cluster/node/clusterconfig/config.go] [(c *Config) allowVoteNodes] *)
Definition allowVoteNodes (c : CConfig) : list CNode := List.filter nd_AllowVote (cc_Nodes c).
(** [pkg/cluster/node/clusterconfig/config.go] [(c *Config) allowVoteAndJoinedNodes] *)
Definition allowVoteAndJoinedNodes (c : CConfig) : list CNode :=
  List.filter (fun n => nd_AllowVote n && joined n) (cc_Nodes c).
(** [pkg/cluster/node/clusterconfig/config.go] [(c *Config) allowVoteAndJoinedNodeCount] *)
Definition allowVoteAndJoinedNodeCount (c : CConfig) : Z := len (allowVoteAndJoinedNodes c).
(** [pkg/cluster/node/clusterconfig/config.go] [(c *Config) allowVoteAndJoinedOnlineNodes] *)
Definition allowVoteAndJoinedOnlineNodes (c : CConfig) : list CNode :=
  List.filter (fun n => nd_AllowVote n && joined n && nd_Online n) (cc_Nodes c).
(** [pkg/cluster/node/clusterconfig/config.go] [(c *Config) allowVoteAndJoinedOnlineNodeCount] *)
Definition allowVoteAndJoinedOnlineNodeCount (c : CConfig) : Z := len (allowVoteAndJoinedOnlineNodes c).
(** [pkg/cluster/node/clusterconfig/config.go] [(c *Config) onlineNodes] *)
Definition onlineNodes (c : CConfig) : list CNode := List.filter nd_Online (cc_Nodes c).
(** [pkg/cluster/node/clusterconfig/config.go] [(c *Config) willJoinNodes] *)
Definition willJoinNodes (c : CConfig) : list CNode :=
  List.filter (fun n => bool_decide (nd_Status n = NodeStatusWillJoin)) (cc_Nodes c).
(** [pkg/cluster/node/clusterconfig/config.go] [(c *Config) hasJoiningNode] *)
Definition hasJoiningNode (c : CConfig) : bool :=
  existsb (fun n => bool_decide (nd_Status n = NodeStatusJoining)) (cc_Nodes c).
(** [pkg/cluster/node/clusterconfig/config.go] [(c *Config) hasWillJoinNode] *)
Definition hasWillJoinNode (c : CConfig) : bool :=
  existsb (fun n => bool_decide (nd_Status n = NodeStatusWillJoin)) (cc_Nodes c).

(** ** Commands *)

(** [google.golang.org/protobuf]: [Marshal] may refuse a message (a string that is
    not UTF-8). *)
Class Protobuf := {
  Config_pbMarshal : CConfig -> option bytes;
  Config_pbUnmarshal : bytes -> option CConfig;
  Node_pbMarshal : CNode -> option bytes;
  Node_pbUnmarshal : bytes -> option CNode;
  Slot_pbMarshal : Slot -> option bytes;
  Slot_pbUnmarshal : bytes -> option Slot
}.

Class ProtobufLaws (B : Protobuf) := {
  Config_pb c bs : Config_pbMarshal c = Some bs -> Config_pbUnmarshal bs = Some c;
  Node_pb n bs : Node_pbMarshal n = Some bs -> Node_pbUnmarshal bs = Some n;
  Slot_pb s bs : Slot_pbMarshal s = Some bs -> Slot_pbUnmarshal bs = Some s
}.

(** [pkg/cluster/node/clusterconfig/cmd.go] [lines 11-26] *)
Inductive CMDType :=
| CMDTypeUnknown | CMDTypeConfigChange | CMDTypeConfigApiServerAddrChange | CMDTypeNodeJoin
| CMDTypeNodeJoining | CMDTypeNodeJoined | CMDTypeNodeOnlineStatusChange | CMDTypeSlotMigrate
| CMDTypeSlotUpdate | CMDTypeNodeStatusChange | CMDTypeSlotStatusChange | CMDTypeOther (z : Z).

Definition CMDType_num (t : CMDType) : Z :=
  match t with
  | CMDTypeUnknown => 0 | CMDTypeConfigChange => 1 | CMDTypeConfigApiServerAddrChange => 2
  | CMDTypeNodeJoin => 3 | CMDTypeNodeJoining => 4 | CMDTypeNodeJoined => 5
  | CMDTypeNodeOnlineStatusChange => 6 | CMDTypeSlotMigrate => 7 | CMDTypeSlotUpdate => 8
  | CMDTypeNodeStatusChange => 9 | CMDTypeSlotStatusChange => 10 | CMDTypeOther z => z
  end.
Definition CMDType_of : Z -> CMDType :=
  enum_of [CMDTypeUnknown; CMDTypeConfigChange; CMDTypeConfigApiServerAddrChange; CMDTypeNodeJoin;
           CMDTypeNodeJoining; CMDTypeNodeJoined; CMDTypeNodeOnlineStatusChange; CMDTypeSlotMigrate;
           CMDTypeSlotUpdate; CMDTypeNodeStatusChange; CMDTypeSlotStatusChange] CMDTypeOther.

(** [pkg/cluster/node/clusterconfig/cmd.go] [CMD] *)
Record CMD := mkCMD { cmd_Type : CMDType; cmd_Data : bytes; cmd_version : Z }.

(** [pkg/cluster/node/clusterconfig/cmd.go] [NewCMD] *)
Definition NewCMD (cmdType : CMDType) (data : bytes) : CMD := mkCMD cmdType data 0.

Section Commands.
Context {W : WkProto} {B : Protobuf}.

(** [pkg/cluster/node/clusterconfig/cmd.go] [(c *CMD) Marshal] *)
Definition CMD_Marshal (c : CMD) : bytes :=
  WriteUint16 1 ++ WriteUint16 (CMDType_num (cmd_Type c)) ++ WriteBytes (cmd_Data c).

(** [pkg/cluster/node/clusterconfig/cmd.go] [(c *CMD) Unmarshal] *)
Definition CMD_Unmarshal (data : bytes) : option CMD :=
  '(c, _) ← (do! version <- Uint16;
             do! cmdType <- Uint16;
             do! d <- BinaryAll;
             dret (mkCMD (CMDType_of cmdType) d version)) data;
  Some c.

(** [pkg/cluster/node/clusterconfig/cmd.go] [EncodeApiServerAddrChange] *)
Definition EncodeApiServerAddrChange (nodeId : Z) (apiServerAddr : string) : bytes :=
  WriteUint64 nodeId ++ WriteString apiServerAddr.
(** [pkg/cluster/node/clusterconfig/cmd.go] [DecodeApiServerAddrChange] *)
Definition DecodeApiServerAddrChange (data : bytes) : option (Z * string) :=
  fst <$> (do! nodeId <- Uint64; do! addr <- String_; dret (nodeId, addr)) data.

(** [pkg/wkutil/common.go] [BoolToUint8] *)
Definition BoolToUint8 (b : bool) : Z := if b then 1 else 0.
(** [pkg/wkutil/common.go] [Uint8ToBool] *)
Definition Uint8ToBool (b : Z) : bool := b =? 1.

(** [pkg/cluster/node/clusterconfig/cmd.go] [EncodeNodeOnlineStatusChange] *)
Definition EncodeNodeOnlineStatusChange (nodeId : Z) (online : bool) : bytes :=
  WriteUint64 nodeId ++ WriteUint8 (BoolToUint8 online).
(** [pkg/cluster/node/clusterconfig/cmd.go] [DecodeNodeOnlineStatusChange] *)
Definition DecodeNodeOnlineStatusChange (data : bytes) : option (Z * bool) :=
  fst <$> (do! nodeId <- Uint64; do! online <- Uint8; dret (nodeId, Uint8ToBool online)) data.

(** [pkg/cluster/node/clusterconfig/cmd.go] [EncodeMigrateSlot] *)
Definition EncodeMigrateSlot (slotId fromNodeId toNodeId : Z) : bytes :=
  WriteUint32 slotId ++ WriteUint64 fromNodeId ++ WriteUint64 toNodeId.
(** [pkg/cluster/node/clusterconfig/cmd.go] [DecodeMigrateSlot] *)
Definition DecodeMigrateSlot (data : bytes) : option (Z * Z * Z) :=
  fst <$> (do! slotId <- Uint32; do! fromNodeId <- Uint64; do! toNodeId <- Uint64;
           dret (slotId, fromNodeId, toNodeId)) data.

(** [pkg/cluster/node/clusterconfig/cmd.go] [EncodeNodeStatusChange]

    [uint32] of a protobuf enumeration. *)
Definition EncodeNodeStatusChange (nodeId : Z) (status : NodeStatus) : bytes :=
  WriteUint64 nodeId ++ WriteUint32 (u32 (NodeStatus_num status)).
(** [pkg/cluster/node/clusterconfig/cmd.go] [DecodeNodeStatusChange] *)
Definition DecodeNodeStatusChange (data : bytes) : option (Z * NodeStatus) :=
  fst <$> (do! nodeId <- Uint64; do! status <- Uint32; dret (nodeId, NodeStatus_of (i32 status))) data.

(** [pkg/cluster/node/clusterconfig/cmd.go] [EncodeSlotStatusChange] *)
Definition EncodeSlotStatusChange (slotId : Z) (status : SlotStatus) : bytes :=
  WriteUint32 slotId ++ WriteUint32 (u32 (SlotStatus_num status)).
(** [pkg/cluster/node/clusterconfig/cmd.go] [DecodeSlotStatusChange] *)
Definition DecodeSlotStatusChange (data : bytes) : option (Z * SlotStatus) :=
  fst <$> (do! slotId <- Uint32; do! status <- Uint32; dret (slotId, SlotStatus_of (i32 status))) data.

(** [pkg/cluster/node/clusterconfig/cmd.go] [EncodeLeaderChange] *)
Definition EncodeLeaderChange (leaderId : Z) : bytes := WriteUint64 leaderId.
(** [pkg/cluster/node/clusterconfig/cmd.go] [DecodeLeaderChange] *)
Definition DecodeLeaderChange (data : bytes) : option Z := fst <$> Uint64 data.

(** [pkg/cluster/node/types/config.go] [(s SlotSet) Marshal] *)
Fixpoint SlotSet_Marshal (s : list Slot) : option bytes :=
  match s with
  | [] => Some []
  | slot :: rest =>
      data ← Slot_pbMarshal slot;
      more ← SlotSet_Marshal rest;
      Some (WriteBinary data ++ more)
  end.

(** [pkg/cluster/node/types/config.go] [(s *SlotSet) Unmarshal]

    [for decoder.Len() > 0]: every round takes at least the two bytes of a
    length, so the length of the data is enough fuel. *)
Fixpoint SlotSet_loop (fuel : nat) (data : bytes) : res (option (list Slot)) :=
  match data with
  | [] => Ok (Some [])
  | _ =>
      match fuel with
      | O => NoFuel
      | S fuel =>
          match Binary data with
          | None => Ok None
          | Some (slotData, rest) =>
              match Slot_pbUnmarshal slotData with
              | None => Ok None
              | Some slot =>
                  let! more := SlotSet_loop fuel rest in
                  Ok (match more with Some slots => Some (slot :: slots) | None => None end)
              end
          end
      end
  end.
Definition SlotSet_Unmarshal (data : bytes) : res (option (list Slot)) :=
  SlotSet_loop (length data) data.

(** [pkg/cluster/node/clusterconfig/cmd.go] [EncodeNodeJoined]

    The loop over the slots is that of [SlotSet.Marshal]. *)
Definition EncodeNodeJoined (nodeId : Z) (slots : list Slot) : option bytes :=
  more ← SlotSet_Marshal slots;
  Some (WriteUint64 nodeId ++ more).
(** [pkg/cluster/node/clusterconfig/cmd.go] [DecodeNodeJoined] *)
Definition DecodeNodeJoined (data : bytes) : res (option (Z * list Slot)) :=
  match Uint64 data with
  | None => Ok None
  | Some (nodeId, rest) =>
      let! slots := SlotSet_loop (length rest) rest in
      Ok (match slots with Some slots => Some (nodeId, slots) | None => None end)
  end.

(** ** Application *)

(** What a node of the cluster keeps: the configuration, that it was saved, and the
    events handed to its raft. *)
Record CServer := mkCServer {
  cs_NodeId : Z;
  cs_cfg : CConfig;
  cs_inited : bool;
  cs_raftEvents : list Event
}.

(** [pkg/cluster/node/clusterconfig/server.go] [(s *Server) configToRaftConfig] *)
Definition configToRaftConfig (nodeId : Z) (c : CConfig) : Config :=
  let replicas := map nd_Id (List.filter (fun n =>
    nd_AllowVote n && bool_decide (nd_Role n = NodeRoleReplica) &&
    negb (ArrayContainsUint64 (cc_Learners c) (nd_Id n))) (cc_Nodes c)) in
  let leader := match replicas with
                | [r] => if r =? nodeId then nodeId else 0
                | _ => 0
                end in
  {| emptyConfig with cfg_Replicas := replicas; cfg_MigrateFrom := cc_MigrateFrom c;
                      cfg_MigrateTo := cc_MigrateTo c; cfg_Learners := cc_Learners c;
                      cfg_Leader := leader |}.

Definition with_cfg (s : CServer) (c : CConfig) : CServer := {| s with cs_cfg := c |}.

(** [pkg/cluster/node/clusterconfig/server.go] [(s *Server) switchConfig] *)
Definition cswitchConfig (s : CServer) : CServer :=
  {| s with cs_raftEvents := cs_raftEvents s ++
     [{| emptyEvent with ev_Type := ConfChange;
                         ev_Config := configToRaftConfig (cs_NodeId s) (cs_cfg s) |}] |}.

(** A handler of a command; [None] is an error. *)
Definition chandled := res (option CServer).

(** [pkg/cluster/node/clusterconfig/server_apply.go] [(s *Server) handleConfigChange] *)
Definition handleConfigChange (s : CServer) (data : bytes) : chandled :=
  Ok (cfg ← Config_pbUnmarshal data; Some (with_cfg s cfg)).

(** [pkg/cluster/node/clusterconfig/server_apply.go] [(s *Server) handleApiServerAddrChange] *)
Definition handleApiServerAddrChange (s : CServer) (data : bytes) : chandled :=
  Ok ('(nodeId, addr) ← DecodeApiServerAddrChange data;
      Some (with_cfg s (updateApiServerAddr (cs_cfg s) nodeId addr))).

(** [pkg/cluster/node/clusterconfig/server_apply.go] [(s *Server) handleNodeOnlineStatusChange] *)
Definition handleNodeOnlineStatusChange (s : CServer) (data : bytes) (now : Z) : chandled :=
  Ok ('(nodeId, online) ← DecodeNodeOnlineStatusChange data;
      Some (with_cfg s (updateNodeOnlineStatus (cs_cfg s) nodeId online now))).

(** [pkg/cluster/node/clusterconfig/server_apply.go] [(s *Server) handleSlotUpdate] *)
Definition handleSlotUpdate (s : CServer) (data : bytes) : chandled :=
  let! slotset := SlotSet_Unmarshal data in
  Ok (slots ← slotset; Some (with_cfg s (updateSlots (cs_cfg s) slots))).

(** [pkg/cluster/node/clusterconfig/server_apply.go] [lines 131-138] *)
Definition addLearner (c : CConfig) (id : Z) : CConfig :=
  if ArrayContainsUint64 (cc_Learners c) id then c
  else {| c with cc_Learners := cc_Learners c ++ [id]; cc_MigrateFrom := id; cc_MigrateTo := id |}.

(** [pkg/cluster/node/clusterconfig/server_apply.go] [(s *Server) handleNodeJoin] *)
Definition handleNodeJoin (s : CServer) (data : bytes) : chandled :=
  Ok (newNode ← Node_pbUnmarshal data;
      Some (cswitchConfig (with_cfg s (addLearner (addOrUpdateNode (cs_cfg s) newNode) (nd_Id newNode))))).

(** [pkg/cluster/node/clusterconfig/server_apply.go] [(s *Server) handleNodeJoining]

    [binary.BigEndian.Uint64] panics on less than eight bytes. *)
Definition chandleNodeJoining (s : CServer) (data : bytes) : chandled :=
  match be_dec 8 data with
  | None => Panic
  | Some (nodeId, _) => Ok (Some (cswitchConfig (with_cfg s (updateNodeJoining (cs_cfg s) nodeId))))
  end.

(** [pkg/cluster/node/clusterconfig/server_apply.go] [(s *Server) handleNodeJoined] *)
Definition handleNodeJoined (s : CServer) (data : bytes) : chandled :=
  let! r := DecodeNodeJoined data in
  Ok ('(nodeId, slots) ← r;
      Some (cswitchConfig (with_cfg s (updateNodeJoined (cs_cfg s) nodeId slots)))).

(** [pkg/cluster/node/clusterconfig/server_apply.go] [(s *Server) handleSlotMigrate] *)
Definition handleSlotMigrate (s : CServer) (data : bytes) : chandled :=
  Ok ('(slotId, fromNodeId, toNodeId) ← DecodeMigrateSlot data;
      Some (with_cfg s (updateSlotMigrate (cs_cfg s) slotId fromNodeId toNodeId))).

(** [pkg/cluster/node/clusterconfig/server_apply.go] [(s *Server) handleSlotStatusChange] *)
Definition handleSlotStatusChange (s : CServer) (data : bytes) : chandled :=
  Ok ('(slotId, status) ← DecodeSlotStatusChange data;
      Some (with_cfg s (updateSlotStatus (cs_cfg s) slotId status))).

(** [pkg/cluster/node/clusterconfig/server_apply.go] [(s *Server) handleCmd] *)
Definition handleCmd (s : CServer) (cmd : CMD) (now : Z) : chandled :=
  match cmd_Type cmd with
  | CMDTypeConfigChange => handleConfigChange s (cmd_Data cmd)
  | CMDTypeConfigApiServerAddrChange => handleApiServerAddrChange s (cmd_Data cmd)
  | CMDTypeNodeOnlineStatusChange => handleNodeOnlineStatusChange s (cmd_Data cmd) now
  | CMDTypeSlotUpdate => handleSlotUpdate s (cmd_Data cmd)
  | CMDTypeNodeJoin => handleNodeJoin s (cmd_Data cmd)
  | CMDTypeNodeJoining => chandleNodeJoining s (cmd_Data cmd)
  | CMDTypeNodeJoined => handleNodeJoined s (cmd_Data cmd)
  | CMDTypeSlotMigrate => handleSlotMigrate s (cmd_Data cmd)
  | CMDTypeSlotStatusChange => handleSlotStatusChange s (cmd_Data cmd)
  | _ => Ok (Some s)
  end.

(** [pkg/cluster/node/clusterconfig/server_apply.go] [(s *Server) applyLog]

    An error of a handler panics. *)
Definition applyLog (s : CServer) (log : Log) (now : Z) : chandled :=
  match CMD_Unmarshal (log_Data log) with
  | None => Ok None
  | Some cmd =>
      let! r := handleCmd s cmd now in
      match r with
      | None => Panic
      | Some s =>
          Ok (Some {| s with cs_inited := true;
                cs_cfg := {| (cs_cfg s) with cc_Term := log_Term log; cc_Version := log_Index log |} |})
      end
  end.

(** [pkg/cluster/node/clusterconfig/server_apply.go] [(s *Server) applyLogs]

    [now] is the clock at each log. *)
Fixpoint applyLogs (s : CServer) (logs : list Log) (now : nat -> Z) : chandled :=
  match logs with
  | [] => Ok (Some s)
  | log :: rest =>
      let! r := applyLog s log (now O) in
      match r with
      | None => Ok None
      | Some s => applyLogs s rest (fun n => now (S n))
      end
  end.

(** ** Proposals

    The data of the log a proposal asks for; [None] is an error of the encoding. *)

(** [pkg/cluster/node/clusterconfig/server_propose.go] [(s *Server) ProposeConfig] *)
Definition ProposeConfig (cfg : CConfig) : option bytes :=
  data ← Config_pbMarshal cfg; Some (CMD_Marshal (NewCMD CMDTypeConfigChange data)).
(** [pkg/cluster/node/clusterconfig/server_propose.go] [(s *Server) ProposeApiServerAddr] *)
Definition ProposeApiServerAddr (nodeId : Z) (apiServerAddr : string) : option bytes :=
  Some (CMD_Marshal (NewCMD CMDTypeConfigApiServerAddrChange
                       (EncodeApiServerAddrChange nodeId apiServerAddr))).
(** [pkg/cluster/node/clusterconfig/server_propose.go] [(s *Server) ProposeNodeOnlineStatus] *)
Definition ProposeNodeOnlineStatus (nodeId : Z) (online : bool) : option bytes :=
  Some (CMD_Marshal (NewCMD CMDTypeNodeOnlineStatusChange (EncodeNodeOnlineStatusChange nodeId online))).
(** [pkg/cluster/node/clusterconfig/server_propose.go] [(s *Server) ProposeSlots] *)
Definition ProposeSlots (slots : list Slot) : option bytes :=
  data ← SlotSet_Marshal slots; Some (CMD_Marshal (NewCMD CMDTypeSlotUpdate data)).
(** [pkg/cluster/node/clusterconfig/server_propose.go] [(s *Server) ProposeJoined] *)
Definition ProposeJoined (nodeId : Z) (slots : list Slot) : option bytes :=
  data ← EncodeNodeJoined nodeId slots; Some (CMD_Marshal (NewCMD CMDTypeNodeJoined data)).
(** [pkg/cluster/node/clusterconfig/server_propose.go] [(s *Server) ProposeJoining] *)
Definition ProposeJoining (nodeId : Z) : option bytes :=
  Some (CMD_Marshal (NewCMD CMDTypeNodeJoining (be_bytes 8 nodeId))).
(** [pkg/cluster/node/clusterconfig/server_propose.go] [(s *Server) ProposeJoin] *)
Definition ProposeJoin (n : CNode) : option bytes :=
  data ← Node_pbMarshal n; Some (CMD_Marshal (NewCMD CMDTypeNodeJoin data)).
(** [pkg/cluster/node/clusterconfig/server_propose.go] [(s *Server) ProposeMigrateSlot]

    A migration of a slot to the same node is not proposed. *)
Definition ProposeMigrateSlot (slotId fromNodeId toNodeId : Z) : option (option bytes) :=
  if fromNodeId =? toNodeId then Some None
  else Some (Some (CMD_Marshal (NewCMD CMDTypeSlotMigrate (EncodeMigrateSlot slotId fromNodeId toNodeId)))).
(** [pkg/cluster/node/clusterconfig/server_propose.go] [(s *Server) ProposeSlotStatusChange] *)
Definition ProposeSlotStatusChange (slotId : Z) (status : SlotStatus) : option bytes :=
  Some (CMD_Marshal (NewCMD CMDTypeSlotStatusChange (EncodeSlotStatusChange slotId status))).
End Commands.
