(* ===== verification/ClusterConfigLaws.v ===== *)
(** * The configuration of the cluster is replicated

    - [sim]: two configurations are the same but for the times at which nodes went
      offline, which every node reads from its own clock.  All functions of
      [config.go] respect it, as [Proper] instances.
    - [ccmd]: the commands, their proposals ([proposed]) and what they do
      ([effect]).
    - [config_wf]: the invariant of the configurations.
    - [ClusterProps]: the nodes agree, a proposal has its effect, the invariant is
      kept, and the raft configuration is well-formed. *)

From Stdlib Require Import Strings.Byte.
From S2P Require Import Prelude RaftTypes WkProto RaftCodec KeyBytes RaftCodecTyped ClusterConfig.

(** ** The nodes agree *)

Definition erase_node (n : CNode) : CNode := {| n with nd_LastOffline := 0 |}.

Definition simN (n m : CNode) : Prop := erase_node n = erase_node m.

Record sim (c d : CConfig) : Prop := {
  sim_nodes : Forall2 simN (cc_Nodes c) (cc_Nodes d);
  sim_rest : set_nodes c [] = set_nodes d []
}.

#[export] Instance simN_equiv : Equivalence simN.
Proof.
  split; [done|by intros x y|]. intros x y z H1 H2. unfold simN in *. congruence.
Qed.

#[export] Instance sim_equiv : Equivalence sim.
Proof.
  split.
  - intros c. by split.
  - intros c d [H1 H2]. by split; [symmetry|].
  - intros c d e [H1 H2] [H3 H4]. split; [by etrans|congruence].
Qed.

(** What similar nodes and configurations have in common. *)
Lemma simN_fields n m : simN n m ->
  nd_Id n = nd_Id m /\ nd_AllowVote n = nd_AllowVote m /\ nd_Role n = nd_Role m /\
  nd_Online n = nd_Online m /\ nd_Status n = nd_Status m.
Proof. destruct n, m. unfold simN, erase_node. simpl. by intros [=]. Qed.

#[export] Instance nd_Id_proper : Proper (simN ==> eq) nd_Id.
Proof. intros n m H. apply (simN_fields n m H). Qed.

#[export] Instance is_node_proper id : Proper (simN ==> eq) (is_node id).
Proof. intros n m H. unfold is_node. by rewrite H. Qed.

Lemma upd_first_sim p f g ns ms :
  Proper (simN ==> eq) p -> (forall n m, simN n m -> simN (f n) (g m)) ->
  Forall2 simN ns ms -> Forall2 simN (upd_first p f ns) (upd_first p g ms).
Proof.
  intros Hp Hf. induction 1 as [|n m ns ms Hn Hns IH]; simpl; [constructor|].
  rewrite (Hp _ _ Hn). destruct (p m); constructor; auto.
Qed.

Lemma existsb_sim p ns ms :
  Proper (simN ==> eq) p -> Forall2 simN ns ms -> existsb p ns = existsb p ms.
Proof. intros Hp. induction 1 as [|n m ns ms Hn _ IH]; simpl; [done|]. by rewrite (Hp _ _ Hn), IH. Qed.

(** A change of the nodes of similar configurations. *)
Lemma sim_set_nodes c d ns ms : sim c d -> Forall2 simN ns ms -> sim (set_nodes c ns) (set_nodes d ms).
Proof. intros [_ H] Hn. split; [done|]. unfold set_nodes in *. destruct c, d. simpl in *. congruence. Qed.

Lemma sim_upd_nodes c d p f g :
  Proper (simN ==> eq) p -> (forall n m, simN n m -> simN (f n) (g m)) -> sim c d ->
  sim (set_nodes c (upd_first p f (cc_Nodes c))) (set_nodes d (upd_first p g (cc_Nodes d))).
Proof. intros Hp Hf H. apply sim_set_nodes; [done|]. by apply upd_first_sim; [..|apply H]. Qed.

(** A change of the other fields. *)
Lemma sim_other c d c' d' :
  sim c d -> cc_Nodes c' = cc_Nodes c -> cc_Nodes d' = cc_Nodes d ->
  (set_nodes c [] = set_nodes d [] -> set_nodes c' [] = set_nodes d' []) -> sim c' d'.
Proof. intros [H1 H2] E1 E2 H. split; [by rewrite E1, E2|auto]. Qed.

Ltac sim_fields c d :=
  destruct c, d; unfold set_nodes in *; simpl in *;
  match goal with H : {| cc_Version := _ |} = _ |- _ => injection H; intros; subst end.

Lemma simN_upd f n m :
  (forall n, f (erase_node n) = erase_node (f n)) -> simN n m -> simN (f n) (f m).
Proof. intros Hf H. unfold simN in *. by rewrite <-!Hf, H. Qed.

#[export] Instance updateApiServerAddr_proper : Proper (sim ==> eq ==> eq ==> sim) updateApiServerAddr.
Proof.
  intros c d H id ? <- a ? <-. apply sim_upd_nodes; [apply _| |done]. intros n m.
  by apply (simN_upd (fun n => {| n with nd_ApiServerAddr := a |})).
Qed.

(** The clocks may differ. *)
#[export] Instance updateNodeOnlineStatus_proper :
  Proper (sim ==> eq ==> eq ==> (fun _ _ => True) ==> sim) updateNodeOnlineStatus.
Proof.
  intros c d H id ? <- b ? <- t t' _. apply sim_upd_nodes; [apply _| |done]. intros n m Hnm.
  destruct n, m. unfold simN, erase_node in *. simpl in *. by destruct b; injection Hnm as -> -> -> -> -> -> -> -> -> ->.
Qed.

#[export] Instance addOrUpdateNode_proper : Proper (sim ==> eq ==> sim) addOrUpdateNode.
Proof.
  intros c d H n ? <-. unfold addOrUpdateNode.
  rewrite (existsb_sim (is_node (nd_Id n)) _ (cc_Nodes d)) by (apply _ || apply H).
  destruct (existsb _ _); [by apply sim_upd_nodes; [apply _| |]|].
  apply sim_set_nodes; [done|]. apply Forall2_app; [apply H|]. by repeat constructor.
Qed.

#[export] Instance addLearner_proper : Proper (sim ==> eq ==> sim) addLearner.
Proof.
  intros c d H id ? <-. unfold addLearner.
  assert (E : cc_Learners c = cc_Learners d) by (destruct H as [_ H]; sim_fields c d; done).
  rewrite E. destruct (ArrayContainsUint64 _ _); [done|].
  eapply sim_other; [exact H|done..|]. intros H2. clear -H2. sim_fields c d. done.
Qed.

#[export] Instance updateNodeStatus_proper : Proper (sim ==> eq ==> eq ==> sim) updateNodeStatus.
Proof.
  intros c d H id ? <- st ? <-. apply sim_upd_nodes; [apply _| |done]. intros n m.
  by apply (simN_upd (fun n => {| n with nd_Status := st |})).
Qed.

(** The lists and marks that similar configurations share. *)
Lemma sim_eq c d : sim c d ->
  cc_Learners c = cc_Learners d /\ cc_MigrateTo c = cc_MigrateTo d /\
  cc_MigrateFrom c = cc_MigrateFrom d /\ cc_Slots c = cc_Slots d.
Proof. intros [_ H]. sim_fields c d. done. Qed.

Lemma sim_stamp c d f :
  (forall c l, f (set_nodes c l) = set_nodes (f c) l) -> sim c d -> sim (f c) (f d).
Proof.
  intros Hf [H1 H2].
  assert (Hn : forall c, cc_Nodes (f c) = cc_Nodes c).
  { intros e. replace e with (set_nodes e (cc_Nodes e)) at 1 by (by destruct e). by rewrite Hf. }
  split; [by rewrite !Hn|]. by rewrite <-!Hf, H2.
Qed.

#[export] Instance updateNodeJoining_proper : Proper (sim ==> eq ==> sim) updateNodeJoining.
Proof.
  intros c d H id ? <-.
  pose proof (updateNodeStatus_proper _ _ H id _ eq_refl NodeStatusJoining _ eq_refl) as H'.
  unfold updateNodeJoining. fold (updateNodeStatus c id NodeStatusJoining).
  fold (updateNodeStatus d id NodeStatusJoining).
  set (f := fun c => {| c with cc_Learners := RemoveUint64 (cc_Learners c) id |}).
  assert (Hf : sim (f (updateNodeStatus c id NodeStatusJoining)) (f (updateNodeStatus d id NodeStatusJoining)))
    by (by apply sim_stamp).
  fold (f (updateNodeStatus c id NodeStatusJoining)) (f (updateNodeStatus d id NodeStatusJoining)).
  cbv zeta. rewrite (proj1 (proj2 (sim_eq _ _ Hf))). destruct (_ =? _); [|done].
  by apply (sim_stamp _ _ (fun c => {| c with cc_MigrateTo := 0; cc_MigrateFrom := 0 |})).
Qed.

(** A change of the slots only. *)
Lemma sim_slots c d (f : list Slot -> list Slot) :
  sim c d -> sim (set_slots c (f (cc_Slots c))) (set_slots d (f (cc_Slots d))).
Proof. by apply (sim_stamp _ _ (fun c => set_slots c (f (cc_Slots c)))). Qed.

#[export] Instance updateNodeJoined_proper : Proper (sim ==> eq ==> eq ==> sim) updateNodeJoined.
Proof.
  intros c d H id ? <- slots ? <-. unfold updateNodeJoined.
  apply (sim_slots (updateNodeStatus c id NodeStatusJoined) (updateNodeStatus d id NodeStatusJoined)
           (fun l => foldl putSlot l slots)).
  by rewrite H.
Qed.

#[export] Instance updateSlots_proper : Proper (sim ==> eq ==> sim) updateSlots.
Proof.
  intros c d H slots ? <-. by apply (sim_slots c d (fun l =>
    foldl (fun l slot => upd_first (is_slot (sl_Id slot)) (fun _ => slot) l) l slots)).
Qed.
#[export] Instance updateSlotMigrate_proper : Proper (sim ==> eq ==> eq ==> eq ==> sim) updateSlotMigrate.
Proof. intros c d H i ? <- f ? <- t ? <-. by apply (sim_slots c d (upd_first _ _)). Qed.
#[export] Instance updateSlotStatus_proper : Proper (sim ==> eq ==> eq ==> sim) updateSlotStatus.
Proof. intros c d H i ? <- st ? <-. by apply (sim_slots c d (upd_first _ _)). Qed.

(** *** Servers *)

(** The events agree except for the leader, which a node that is alone sets to
    itself. *)
Definition erase_leader (e : Event) : Event :=
  {| e with ev_Config := {| (ev_Config e) with cfg_Leader := 0 |} |}.

Record ssim (s t : CServer) : Prop := {
  ssim_cfg : sim (cs_cfg s) (cs_cfg t);
  ssim_inited : cs_inited s = cs_inited t;
  ssim_events : map erase_leader (cs_raftEvents s) = map erase_leader (cs_raftEvents t)
}.

(** The same outcome, and similar servers if there is one. *)
Inductive agree : chandled -> chandled -> Prop :=
| agree_done s t : ssim s t -> agree (Ok (Some s)) (Ok (Some t))
| agree_error : agree (Ok None) (Ok None)
| agree_panic : agree Panic Panic
| agree_fuel : agree NoFuel NoFuel.

Create HintDb agree.
#[export] Hint Constructors agree : agree.

Lemma with_cfg_ssim s t c d : ssim s t -> sim c d -> ssim (with_cfg s c) (with_cfg t d).
Proof. intros [_ Hi He] H. by split. Qed.

Lemma filter_sim p ns ms :
  Proper (simN ==> eq) p -> Forall2 simN ns ms ->
  map nd_Id (List.filter p ns) = map nd_Id (List.filter p ms).
Proof.
  intros Hp. induction 1 as [|n m ns ms Hn _ IH]; simpl; [done|]. rewrite (Hp _ _ Hn).
  destruct (p m); simpl; [|done]. by rewrite IH, Hn.
Qed.

(** The voters do not depend on the clocks. *)
Lemma raft_replicas_sim i c d :
  sim c d -> cfg_Replicas (configToRaftConfig i c) = cfg_Replicas (configToRaftConfig i d).
Proof.
  intros H. unfold configToRaftConfig. cbn [cfg_Replicas]. rewrite (proj1 (sim_eq _ _ H)).
  apply filter_sim; [|apply H]. intros n m Hn. by destruct (simN_fields _ _ Hn) as (-> & -> & -> & _).
Qed.

Lemma cswitchConfig_ssim s t : ssim s t -> ssim (cswitchConfig s) (cswitchConfig t).
Proof.
  intros [H Hi He]. split; cbn [cs_cfg cs_inited cs_raftEvents cswitchConfig]; [done..|].
  rewrite !map_app, He. f_equal. cbn [map]. f_equal.
  pose proof (raft_replicas_sim 0 _ _ H) as Hr. destruct (sim_eq _ _ H) as (E1 & E2 & E3 & _).
  unfold configToRaftConfig in *. cbn [cfg_Replicas] in Hr. rewrite Hr. unfold erase_leader. cbn.
  by rewrite E1, E2, E3.
Qed.
#[export] Hint Resolve with_cfg_ssim cswitchConfig_ssim ssim_cfg : agree.

Section Agree.
Context {W : WkProto} {B : Protobuf}.

(** A handler that decodes its data and then changes the configuration. *)
Lemma agree_decoded {A} (x : option A) (f g : A -> option CServer) :
  (forall a, agree (Ok (f a)) (Ok (g a))) -> agree (Ok (x ≫= f)) (Ok (x ≫= g)).
Proof. intros H. destruct x as [a|]; simpl; auto with agree. Qed.

Lemma agree_decoded_res {A} (r : res (option A)) (f g : A -> option CServer) :
  (forall a, agree (Ok (f a)) (Ok (g a))) ->
  agree (let! x := r in Ok (x ≫= f)) (let! x := r in Ok (x ≫= g)).
Proof. intros H. destruct r; simpl; auto with agree. by apply agree_decoded. Qed.

Lemma handleCmd_agree s t cmd now now' :
  ssim s t -> agree (handleCmd s cmd now) (handleCmd t cmd now').
Proof.
  intros H. pose proof (ssim_cfg _ _ H) as Hc. unfold handleCmd.
  destruct (cmd_Type cmd); auto with agree;
    try (apply agree_decoded || apply agree_decoded_res); intros; repeat case_match;
    try (unfold chandleNodeJoining; destruct (be_dec 8 _) as [[id ?]|]; [|constructor]);
    constructor; repeat apply cswitchConfig_ssim; (apply with_cfg_ssim; [exact H|]);
    first [reflexivity | by rewrite Hc | by apply updateNodeOnlineStatus_proper].
Qed.

Definition stamp (log : Log) (c : CConfig) : CConfig :=
  {| c with cc_Term := log_Term log; cc_Version := log_Index log |}.

#[export] Instance stamp_proper log : Proper (sim ==> sim) (stamp log).
Proof. intros c d. by apply (sim_stamp c d (stamp log)). Qed.

Lemma applyLog_agree s t log now now' : ssim s t -> agree (applyLog s log now) (applyLog t log now').
Proof.
  intros H. unfold applyLog. destruct (CMD_Unmarshal (log_Data log)) as [cmd|]; [|constructor].
  destruct (handleCmd_agree s t cmd now now' H) as [s' t' H'| | |]; simpl; auto with agree.
  constructor. split; cbn [cs_cfg cs_inited cs_raftEvents]; [|done|apply H'].
  apply (stamp_proper log), H'.
Qed.

Lemma applyLogs_agree s t logs now now' :
  ssim s t -> agree (applyLogs s logs now) (applyLogs t logs now').
Proof.
  revert s t now now'. induction logs as [|log logs IH]; intros s t now now' H; simpl; [by constructor|].
  destruct (applyLog_agree s t log (now O) (now' O) H); simpl; auto with agree.
Qed.
End Agree.
