(* ===== verification/ClusterCommands.v ===== *)
(** * Commands of the cluster configuration

    - [ccmd]: the commands, the data that is proposed for them ([proposal]) and what
      they do ([effect]), without bytes.  Applying the log of a proposal is its
      effect ([applyLogs_run]); the loops that decode slots never run out of fuel.
    - [config_wf]: the invariant of the configurations, kept by every command, and
      what the raft configuration is made of. *)

From Stdlib Require Import Strings.Byte.
From S2P Require Import Prelude RaftTypes WkProto RaftCodec KeyBytes RaftCodecTyped ClusterConfig ClusterConfigLaws.

(** [Binary] takes at least the bytes of a length. *)
Class WkProtoBinary (W : WkProto) := {
  Binary_shrinks s b s' : Binary s = Some (b, s') -> (length s' < length s)%nat
}.

#[local] Arguments be_bytes : simpl never.

#[export] Instance bigEndian_binary : WkProtoBinary bigEndian.
Proof.
  split. intros s b s'. cbn. unfold dbind, be_dec, be_bytes_dec.
  destruct (Nat.ltb_spec (length s) 2); [done|]. case_match; [done|]. intros [= <- <-].
  rewrite !length_drop. lia.
Qed.

Inductive ccmd :=
| CConfigChange (c : CConfig)
| CApiServerAddr (id : Z) (addr : string)
| COnlineStatus (id : Z) (online : bool)
| CSlotUpdate (slots : list Slot)
| CNodeJoin (n : CNode)
| CNodeJoining (id : Z)
| CNodeJoined (id : Z) (slots : list Slot)
| CSlotMigrate (slotId from to_ : Z)
| CSlotStatus (slotId : Z) (status : SlotStatus).

(** What a command does to the configuration, and whether the raft is told. *)
Definition effect (c : CConfig) (cmd : ccmd) (now : Z) : CConfig :=
  match cmd with
  | CConfigChange d => d
  | CApiServerAddr id addr => updateApiServerAddr c id addr
  | COnlineStatus id b => updateNodeOnlineStatus c id b now
  | CSlotUpdate slots => updateSlots c slots
  | CNodeJoin n => addLearner (addOrUpdateNode c n) (nd_Id n)
  | CNodeJoining id => updateNodeJoining c id
  | CNodeJoined id slots => updateNodeJoined c id slots
  | CSlotMigrate i f t => updateSlotMigrate c i f t
  | CSlotStatus i st => updateSlotStatus c i st
  end.
Definition switches (cmd : ccmd) : bool :=
  match cmd with CNodeJoin _ | CNodeJoining _ | CNodeJoined _ _ => true | _ => false end.

Definition run1 (s : CServer) (cmd : ccmd) (log : Log) (now : Z) : CServer :=
  let s := with_cfg s (effect (cs_cfg s) cmd now) in
  let s := if switches cmd then cswitchConfig s else s in
  {| s with cs_inited := true; cs_cfg := stamp log (cs_cfg s) |}.

Fixpoint run (s : CServer) (cmds : list ccmd) (logs : list Log) (now : nat -> Z) : CServer :=
  match cmds, logs with
  | cmd :: cmds, log :: logs => run (run1 s cmd log (now O)) cmds logs (fun n => now (S n))
  | _, _ => s
  end.

Section Effects.
Context {W : WkProto} {L : WkProtoLaws W} {T : WkProtoBinary W}.
Context {B : Protobuf} {BL : ProtobufLaws B}.

(** The data of the log of a command, as the proposals build it. *)
Definition proposal (cmd : ccmd) : option bytes :=
  match cmd with
  | CConfigChange c => ProposeConfig c
  | CApiServerAddr id addr => ProposeApiServerAddr id addr
  | COnlineStatus id b => ProposeNodeOnlineStatus id b
  | CSlotUpdate slots => ProposeSlots slots
  | CNodeJoin n => ProposeJoin n
  | CNodeJoining id => ProposeJoining id
  | CNodeJoined id slots => ProposeJoined id slots
  | CSlotMigrate i f t => match ProposeMigrateSlot i f t with Some data => data | None => None end
  | CSlotStatus i st => ProposeSlotStatusChange i st
  end.

(** Arguments of their Go types; a slot and an address fit the 16 bit length that
    [wkproto] writes. *)
Definition slot_fits (s : Slot) : Prop := forall b, Slot_pbMarshal s = Some b -> len b < two16.
Definition status_fits (st : SlotStatus) : Prop :=
  - 2147483648 <= SlotStatus_num st < 2147483648 /\ canonical SlotStatus_of SlotStatus_num st.
Definition cmd_fits (cmd : ccmd) : Prop :=
  match cmd with
  | CApiServerAddr id addr => is_u64 id /\ Z.of_nat (String.length addr) < two16
  | COnlineStatus id _ | CNodeJoining id => is_u64 id
  | CSlotUpdate slots => Forall slot_fits slots
  | CNodeJoined id slots => is_u64 id /\ Forall slot_fits slots
  | CSlotMigrate i f t => is_u32 i /\ is_u64 f /\ is_u64 t
  | CSlotStatus i st => is_u32 i /\ status_fits st
  | CConfigChange _ | CNodeJoin _ => True
  end.

Lemma reads_fst {A} (d : Decoder A) bs a : reads d bs a -> fst <$> d bs = Some a.
Proof. intros H. by rewrite (reads_all _ _ _ H). Qed.

Lemma CMD_roundtrip t data :
  is_u16 (CMDType_num t) -> canonical CMDType_of CMDType_num t ->
  CMD_Unmarshal (CMD_Marshal (NewCMD t data)) = Some (mkCMD t data 1).
Proof.
  intros Ht Hc. unfold CMD_Unmarshal, CMD_Marshal, dbind. cbn [cmd_Type cmd_Data NewCMD].
  rewrite (Uint16_reads 1) by done. rewrite (Uint16_reads (CMDType_num t) Ht).
  rewrite BinaryAll_reads. simpl. by rewrite Hc.
Qed.

(** The last field of a decoder. *)
Lemma reads_last {A C} (d : Decoder A) (f : A -> C) bs a :
  reads d bs a -> reads (do! x <- d; dret (f x)) bs (f a).
Proof. apply reads_map. Qed.

Ltac read_fields := apply reads_fst; repeat (eapply reads_bind; [solve [eauto with wire]|]); apply reads_last.

Lemma ApiServerAddr_roundtrip id addr :
  is_u64 id -> Z.of_nat (String.length addr) < two16 ->
  DecodeApiServerAddrChange (EncodeApiServerAddrChange id addr) = Some (id, addr).
Proof. intros H1 H2. unfold DecodeApiServerAddrChange. read_fields. by apply String_reads. Qed.

Lemma OnlineStatus_roundtrip id b :
  is_u64 id -> DecodeNodeOnlineStatusChange (EncodeNodeOnlineStatusChange id b) = Some (id, b).
Proof.
  intros H1. unfold DecodeNodeOnlineStatusChange. apply reads_fst.
  eapply reads_bind; [by apply Uint64_reads|].
  eapply reads_map_eq; [apply Uint8_reads; by destruct b|by destruct b].
Qed.

Lemma MigrateSlot_roundtrip i f t :
  is_u32 i -> is_u64 f -> is_u64 t ->
  DecodeMigrateSlot (EncodeMigrateSlot i f t) = Some (i, f, t).
Proof. intros H1 H2 H3. unfold DecodeMigrateSlot. read_fields. by apply Uint64_reads. Qed.

Lemma i32_u32 z : - 2147483648 <= z < 2147483648 -> i32 (u32 z) = z.
Proof.
  intros Hz. unfold i32, u32. rewrite Z.add_mod_idemp_l by done. rewrite Z.mod_small; [lia|].
  lia.
Qed.

Lemma SlotStatus_roundtrip i st :
  is_u32 i -> status_fits st -> DecodeSlotStatusChange (EncodeSlotStatusChange i st) = Some (i, st).
Proof.
  intros H1 [H2 H3]. unfold DecodeSlotStatusChange. apply reads_fst.
  eapply reads_bind; [by apply Uint32_reads|].
  eapply reads_map_eq; [apply Uint32_reads, u32_range|]. by rewrite i32_u32, H3.
Qed.

(** *** The loop over the slots *)

Lemma WriteBinary_nonempty b : len b < two16 -> WriteBinary b <> [].
Proof.
  intros Hb E. pose proof (reads_all _ _ _ (Binary_reads b Hb)) as H. apply Binary_shrinks in H.
  rewrite E in H. simpl in H. lia.
Qed.

Lemma SlotSet_loop_reads slots bs fuel :
  SlotSet_Marshal slots = Some bs -> Forall slot_fits slots -> (length bs <= fuel)%nat ->
  SlotSet_loop fuel bs = Ok (Some slots).
Proof.
  revert bs fuel. induction slots as [|s slots IH]; simpl; intros bs fuel E Hf Hl.
  { injection E as <-. by destruct fuel. }
  apply Forall_cons in Hf as [Hs Hf].
  destruct (Slot_pbMarshal s) as [d|] eqn:Ed; [|done]. simpl in E.
  destruct (SlotSet_Marshal slots) as [more|] eqn:Em; [|done]. injection E as <-.
  pose proof (Binary_reads d (Hs d Ed) more) as Hr. pose proof (Binary_shrinks _ _ _ Hr) as Hlt.
  destruct (WriteBinary d ++ more) as [|b rest] eqn:Ew; [simpl in Hlt; lia|].
  destruct fuel as [|fuel]; [simpl in Hl; lia|]. cbn [SlotSet_loop].
  rewrite Hr, (Slot_pb _ _ Ed), (IH more) by (done || simpl in *; lia). done.
Qed.

Lemma SlotSet_loop_fuel fuel data : (length data <= fuel)%nat -> SlotSet_loop fuel data <> NoFuel.
Proof.
  revert data. induction fuel as [|fuel IH]; intros data Hl; destruct data as [|b data]; try done.
  { simpl in Hl. lia. }
  cbn [SlotSet_loop]. destruct (Binary (b :: data)) as [[d rest]|] eqn:Eb; [|done].
  destruct (Slot_pbUnmarshal d); [|done]. apply Binary_shrinks in Eb. simpl in Eb, Hl.
  specialize (IH rest ltac:(lia)). by destruct (SlotSet_loop fuel rest).
Qed.

(** *** Applying what was proposed *)

Lemma applyLog_cmd s log now t data :
  log_Data log = CMD_Marshal (NewCMD t data) -> is_u16 (CMDType_num t) -> canonical CMDType_of CMDType_num t ->
  applyLog s log now =
    let! r := handleCmd s (mkCMD t data 1) now in
    match r with
    | None => Panic
    | Some s => Ok (Some {| s with cs_inited := true; cs_cfg := stamp log (cs_cfg s) |})
    end.
Proof. intros E Ht Hc. unfold applyLog. by rewrite E, CMD_roundtrip. Qed.

(** The handler of a command that was proposed is its effect. *)
Lemma applyLog_proposed s cmd log now :
  cmd_fits cmd -> proposal cmd = Some (log_Data log) ->
  applyLog s log now = Ok (Some (run1 s cmd log now)).
Proof.
  intros Hf Hp. destruct cmd; cbn [cmd_fits proposal] in Hf, Hp;
    unfold ProposeConfig, ProposeSlots, ProposeJoined, ProposeJoin, ProposeMigrateSlot,
      ProposeApiServerAddr, ProposeNodeOnlineStatus, ProposeJoining, ProposeSlotStatusChange,
      EncodeNodeJoined in Hp;
    try destruct (_ =? _); simplify_option_eq;
    lazymatch goal with E : _ = log_Data _ |- _ =>
      symmetry in E; rewrite (applyLog_cmd _ _ _ _ _ E) by done; clear E end;
    cbn [handleCmd cmd_Type cmd_Data].
  - unfold handleConfigChange. by erewrite Config_pb.
  - destruct Hf. unfold handleApiServerAddrChange. by rewrite ApiServerAddr_roundtrip.
  - unfold handleNodeOnlineStatusChange. by rewrite OnlineStatus_roundtrip.
  - unfold handleSlotUpdate, SlotSet_Unmarshal. by rewrite (SlotSet_loop_reads slots).
  - unfold handleNodeJoin. by erewrite Node_pb.
  - unfold chandleNodeJoining. rewrite (reads_all (be_dec 8) _ id (be_dec_reads 8 id Hf)). done.
  - destruct Hf. unfold handleNodeJoined, DecodeNodeJoined. rewrite (Uint64_reads id) by done.
    by rewrite (SlotSet_loop_reads slots).
  - destruct Hf as (? & ? & ?). unfold handleSlotMigrate. by rewrite MigrateSlot_roundtrip.
  - destruct Hf. unfold handleSlotStatusChange. by rewrite SlotStatus_roundtrip.
Qed.

Lemma applyLogs_run s cmds logs now :
  Forall cmd_fits cmds -> Forall2 (fun cmd log => proposal cmd = Some (log_Data log)) cmds logs ->
  applyLogs s logs now = Ok (Some (run s cmds logs now)).
Proof.
  intros Hf Hp. revert s now Hf. induction Hp as [|cmd log cmds logs Hc Hp IH]; intros s now Hf; [done|].
  apply Forall_cons in Hf as [Hc' Hf]. cbn [applyLogs run]. rewrite (applyLog_proposed s cmd log) by done.
  simpl. by apply IH.
Qed.

(** No log, of any content, runs a loop out of fuel. *)
Lemma applyLogs_fuel s logs now : applyLogs s logs now <> NoFuel.
Proof.
  revert s now. induction logs as [|log logs IH]; intros s now; [done|]. cbn [applyLogs].
  assert (H : applyLog s log (now O) <> NoFuel).
  { unfold applyLog. destruct (CMD_Unmarshal _) as [cmd|]; [|done].
    enough (H : handleCmd s cmd (now O) <> NoFuel) by (destruct (handleCmd _ _ _) as [[]| |]; done).
    unfold handleCmd. destruct (cmd_Type cmd); try done.
    - unfold chandleNodeJoining. by repeat case_match.
    - unfold handleNodeJoined, DecodeNodeJoined. destruct (Uint64 _) as [[id rest]|]; [|done].
      pose proof (SlotSet_loop_fuel (length rest) rest ltac:(lia)). by destruct (SlotSet_loop _ _).
    - unfold handleSlotUpdate, SlotSet_Unmarshal.
      pose proof (SlotSet_loop_fuel (length (cmd_Data cmd)) (cmd_Data cmd) ltac:(lia)). by destruct (SlotSet_loop _ _). }
  destruct (applyLog s log (now O)) as [[s'|]| |]; try done. apply IH.
Qed.
End Effects.

(** ** The invariant *)

(** A slot: its voters and learners are disjoint, and it is migrated to one of
    them. *)
Record slot_wf (s : Slot) : Prop := {
  slot_disjoint : forall id, id ∈ sl_Replicas s -> id ∉ sl_Learners s;
  slot_migrate : sl_MigrateTo s <> 0 -> sl_MigrateTo s ∈ sl_Replicas s ++ sl_Learners s
}.

Record config_wf (c : CConfig) : Prop := {
  wf_nodes : NoDup (map nd_Id (cc_Nodes c));
  wf_slots : NoDup (map sl_Id (cc_Slots c));
  wf_learners : NoDup (cc_Learners c);
  wf_learner_nodes : forall id, id ∈ cc_Learners c -> id ∈ map nd_Id (cc_Nodes c);
  wf_migrate : cc_MigrateTo c <> 0 -> cc_MigrateTo c ∈ cc_Learners c /\ cc_MigrateFrom c = cc_MigrateTo c;
  wf_slot : Forall slot_wf (cc_Slots c)
}.

(** The commands whose data carries configurations or slots. *)
Definition cmd_wf (cmd : ccmd) : Prop :=
  match cmd with
  | CConfigChange c => config_wf c
  | CSlotUpdate slots | CNodeJoined _ slots => Forall slot_wf slots
  | _ => True
  end.

Lemma upd_first_map {A K} (k : A -> K) (p : A -> bool) f l :
  (forall x, p x = true -> k (f x) = k x) -> map k (upd_first p f l) = map k l.
Proof.
  intros H. induction l as [|x l IH]; simpl; [done|]. destruct (p x) eqn:E; simpl; [by rewrite H|by rewrite IH].
Qed.

Lemma upd_first_forall {A} (P : A -> Prop) (p : A -> bool) f l :
  (forall x, p x = true -> P x -> P (f x)) -> Forall P l -> Forall P (upd_first p f l).
Proof.
  intros H. induction 1 as [|x l Hx Hl IH]; simpl; [constructor|]. destruct (p x) eqn:E; constructor; auto.
Qed.

Lemma existsb_ids {A} (k : A -> Z) id l : existsb (fun x => k x =? id) l = true <-> id ∈ map k l.
Proof.
  rewrite existsb_exists, list_elem_of_In, in_map_iff. split.
  - intros (x & Hx & E). exists x. by apply Z.eqb_eq in E.
  - intros (x & <- & Hx). exists x. by rewrite Z.eqb_refl.
Qed.

Lemma is_node_id id n : is_node id n = true -> nd_Id n = id.
Proof. apply Z.eqb_eq. Qed.
Lemma is_slot_id id s : is_slot id s = true -> sl_Id s = id.
Proof. apply Z.eqb_eq. Qed.

(** The nodes of a configuration change, and keep their ids. *)
Lemma wf_set_nodes c l : map nd_Id l = map nd_Id (cc_Nodes c) -> config_wf c -> config_wf (set_nodes c l).
Proof. intros E []. split; cbn; by rewrite ?E. Qed.

Lemma wf_upd_nodes c p f :
  (forall n, p n = true -> nd_Id (f n) = nd_Id n) -> config_wf c ->
  config_wf (set_nodes c (upd_first p f (cc_Nodes c))).
Proof. intros H. apply wf_set_nodes. by apply upd_first_map. Qed.

Lemma wf_set_slots c l : NoDup (map sl_Id l) -> Forall slot_wf l -> config_wf c -> config_wf (set_slots c l).
Proof. intros H1 H2 []. by split. Qed.

(** The slots, and that they are well-formed. *)
Definition slots_wf (l : list Slot) : Prop := NoDup (map sl_Id l) /\ Forall slot_wf l.

Lemma slots_wf_upd p f l :
  (forall s, p s = true -> sl_Id (f s) = sl_Id s) -> (forall s, p s = true -> slot_wf s -> slot_wf (f s)) ->
  slots_wf l -> slots_wf (upd_first p f l).
Proof. intros H1 H2 [H3 H4]. split; [by rewrite upd_first_map|by apply upd_first_forall]. Qed.

Lemma slots_wf_put l s : slot_wf s -> slots_wf l -> slots_wf (putSlot l s).
Proof.
  intros Hs Hl. unfold putSlot. destruct (existsb _ l) eqn:E.
  - apply slots_wf_upd; [|done..]. intros x Hx. by apply is_slot_id in Hx.
  - destruct Hl as [H1 H2]. split; [|by apply Forall_app; split; [|repeat constructor; apply Hs]].
    rewrite map_app. apply NoDup_app. split; [done|]. split; [|by apply NoDup_singleton].
    intros i Hi Hi'. apply list_elem_of_singleton in Hi'. subst i.
    apply (existsb_ids sl_Id) in Hi. unfold is_slot in E. congruence.
Qed.

Lemma slots_wf_fold (f : list Slot -> Slot -> list Slot) l slots :
  (forall l s, slot_wf s -> slots_wf l -> slots_wf (f l s)) ->
  Forall slot_wf slots -> slots_wf l -> slots_wf (foldl f l slots).
Proof. intros Hf Hs. revert l. induction Hs as [|s slots Hs _ IH]; simpl; auto. Qed.

Lemma RemoveUint64_elem items target id : NoDup items ->
  id ∈ RemoveUint64 items target <-> id ∈ items /\ id <> target.
Proof. intros H. apply (RemoveUint64_NoDup items target H). Qed.

(** *** Every operation keeps it *)

Lemma addOrUpdateNode_ids c n :
  map nd_Id (cc_Nodes (addOrUpdateNode c n)) =
    if decide (nd_Id n ∈ map nd_Id (cc_Nodes c)) then map nd_Id (cc_Nodes c)
    else map nd_Id (cc_Nodes c) ++ [nd_Id n].
Proof.
  unfold addOrUpdateNode. pose proof (existsb_ids nd_Id (nd_Id n) (cc_Nodes c)) as H.
  change (fun x => nd_Id x =? nd_Id n) with (is_node (nd_Id n)) in H.
  destruct (existsb _ _), (decide _); try naive_solver; cbn.
  - apply upd_first_map. intros x Hx. by rewrite (is_node_id _ _ Hx).
  - by rewrite map_app.
Qed.

Lemma addOrUpdateNode_wf c n : config_wf c -> config_wf (addOrUpdateNode c n).
Proof.
  intros Hw. pose proof (addOrUpdateNode_ids c n) as E.
  assert (Hr : exists l, addOrUpdateNode c n = set_nodes c l)
    by (unfold addOrUpdateNode; destruct (existsb _ _); by eexists).
  destruct Hr as [l Hl]. rewrite Hl in *. cbn in E. destruct Hw. split; cbn; rewrite ?E; try done.
  - destruct (decide _); [done|]. apply NoDup_app. split; [done|].
    split; [|by apply NoDup_singleton]. intros i Hi ->%list_elem_of_singleton. done.
  - intros i Hi. destruct (decide _); [auto|]. apply elem_of_app. auto.
Qed.

Lemma addOrUpdateNode_has c n : nd_Id n ∈ map nd_Id (cc_Nodes (addOrUpdateNode c n)).
Proof. rewrite addOrUpdateNode_ids. destruct (decide _); [done|]. set_solver. Qed.

Lemma addLearner_wf c id :
  id ∈ map nd_Id (cc_Nodes c) -> config_wf c -> config_wf (addLearner c id).
Proof.
  intros Hid Hw. unfold addLearner. destruct (ArrayContainsUint64 _ _) eqn:E; [done|].
  apply ArrayContainsUint64_false in E. destruct Hw. split; cbn; try done.
  - apply NoDup_app. split; [done|]. split; [|by apply NoDup_singleton].
    intros i Hi ->%list_elem_of_singleton. done.
  - intros i [Hi| ->%list_elem_of_singleton]%elem_of_app; auto.
  - intros _. split; [|done]. apply elem_of_app. right. by apply list_elem_of_singleton.
Qed.

Lemma updateNodeJoining_wf c id : config_wf c -> config_wf (updateNodeJoining c id).
Proof.
  intros Hw. unfold updateNodeJoining.
  assert (Hw' : config_wf (updateNodeStatus c id NodeStatusJoining)) by (by apply wf_upd_nodes).
  unfold updateNodeStatus in Hw'. revert Hw'. generalize (set_nodes c (upd_first (is_node id)
    (fun n => {| n with nd_Status := NodeStatusJoining |}) (cc_Nodes c))). clear.
  intros c []. cbv zeta. cbn [cc_MigrateTo].
  destruct (Z.eqb_spec (cc_MigrateTo c) id); split; cbn; try done;
    try (by apply RemoveUint64_NoDup); try (intros i [Hi _]%RemoveUint64_elem; auto).
  intros Hm. split; [|by apply wf_migrate0]. apply RemoveUint64_elem; [done|]. by split; [apply wf_migrate0|].
Qed.

Lemma updateNodeJoined_wf c id slots :
  Forall slot_wf slots -> config_wf c -> config_wf (updateNodeJoined c id slots).
Proof.
  intros Hs Hw. unfold updateNodeJoined.
  assert (Hl : slots_wf (foldl putSlot (cc_Slots c) slots))
    by (apply slots_wf_fold; [apply slots_wf_put|done|split; apply Hw]).
  apply wf_set_slots; [apply Hl..|]. by apply wf_upd_nodes.
Qed.

Lemma updateSlots_wf c slots : Forall slot_wf slots -> config_wf c -> config_wf (updateSlots c slots).
Proof.
  intros Hs Hw. unfold updateSlots.
  assert (Hl : slots_wf (foldl (fun l s => upd_first (is_slot (sl_Id s)) (fun _ => s) l) (cc_Slots c) slots)).
  { apply slots_wf_fold; [|done|split; apply Hw]. intros l s Hx Hl.
    apply slots_wf_upd; [|done..]. intros x E. by rewrite (is_slot_id _ _ E). }
  by apply wf_set_slots; [apply Hl..|].
Qed.

Lemma wf_upd_slots c p f :
  (forall s, p s = true -> sl_Id (f s) = sl_Id s) -> (forall s, p s = true -> slot_wf s -> slot_wf (f s)) ->
  config_wf c -> config_wf (set_slots c (upd_first p f (cc_Slots c))).
Proof.
  intros H1 H2 Hw. assert (Hl : slots_wf (upd_first p f (cc_Slots c)))
    by (apply slots_wf_upd; [done..|split; apply Hw]).
  by apply wf_set_slots; [apply Hl..|].
Qed.

Lemma updateSlotMigrate_wf c i f t : config_wf c -> config_wf (updateSlotMigrate c i f t).
Proof.
  apply wf_upd_slots; intros s _; [by cbn [sl_Replicas]; destruct (ArrayContainsUint64 _ _)|]. intros [H1 H2]. cbn [sl_Replicas].
  destruct (ArrayContainsUint64 (sl_Replicas s) t) eqn:E; split; cbn; try done.
  - intros _. apply ArrayContainsUint64_spec in E. set_solver.
  - apply ArrayContainsUint64_false in E. set_solver.
  - set_solver.
Qed.

Lemma effect_wf c cmd now : cmd_wf cmd -> config_wf c -> config_wf (effect c cmd now).
Proof.
  intros Hc Hw. destruct cmd; cbn [effect cmd_wf] in *; try done.
  - by apply wf_upd_nodes.
  - apply wf_upd_nodes; [|done]. by destruct online.
  - by apply updateSlots_wf.
  - apply addLearner_wf; [apply addOrUpdateNode_has|by apply addOrUpdateNode_wf].
  - by apply updateNodeJoining_wf.
  - by apply updateNodeJoined_wf.
  - by apply updateSlotMigrate_wf.
  - apply wf_upd_slots; [done| |done]. intros s _ [H1 H2]. by split.
Qed.
