(* ===== verification/ClusterProps.v ===== *)
(** * Properties of the cluster configuration

    The raft configuration that is derived from a configuration, the invariant of
    the servers, an instance of [Protobuf], and the theorems: nodes that apply the
    same logs agree, a proposal has its effect, the invariant is kept, and a node
    joins as a learner before it votes. *)

From Stdlib Require Import Strings.Byte.
From stdpp Require Import countable strings.
From S2P Require Import Prelude RaftTypes WkProto RaftCodec KeyBytes RaftCodecTyped ClusterConfig ClusterConfigLaws ClusterCommands.

(** ** The raft configuration *)

Lemma raft_replicas_elem i c id :
  id ∈ cfg_Replicas (configToRaftConfig i c) <->
  exists n, n ∈ cc_Nodes c /\ nd_Id n = id /\ nd_AllowVote n = true /\ nd_Role n = NodeRoleReplica /\
    id ∉ cc_Learners c.
Proof.
  unfold configToRaftConfig. cbn [cfg_Replicas].
  rewrite list_elem_of_In, in_map_iff. setoid_rewrite filter_In. setoid_rewrite list_elem_of_In.
  setoid_rewrite andb_true_iff. setoid_rewrite andb_true_iff. setoid_rewrite bool_decide_eq_true.
  setoid_rewrite negb_true_iff. setoid_rewrite ArrayContainsUint64_false. setoid_rewrite list_elem_of_In.
  naive_solver.
Qed.

(** What the raft is told: voters without repetition, apart from the learners, and
    a migration only of a learner to itself. *)
Record raft_wf (c : Config) : Prop := {
  raft_nodup : NoDup (cfg_Replicas c);
  raft_disjoint : forall id, id ∈ cfg_Replicas c -> id ∉ cfg_Learners c;
  raft_learners : NoDup (cfg_Learners c);
  raft_migrate : cfg_MigrateTo c <> 0 -> cfg_MigrateTo c ∈ cfg_Learners c /\ cfg_MigrateFrom c = cfg_MigrateTo c;
  raft_leader : cfg_Leader c <> 0 -> cfg_Replicas c = [cfg_Leader c]
}.

Lemma filter_map_NoDup {A K} (k : A -> K) (p : A -> bool) l :
  NoDup (map k l) -> NoDup (map k (List.filter p l)).
Proof.
  induction l as [|x l IH]; simpl; [done|]. intros [Hx Hl]%NoDup_cons.
  destruct (p x); simpl; [|auto]. constructor; [|auto]. contradict Hx.
  rewrite list_elem_of_In, in_map_iff in *. setoid_rewrite filter_In in Hx. naive_solver.
Qed.

Lemma configToRaftConfig_wf i c : config_wf c -> raft_wf (configToRaftConfig i c).
Proof.
  intros [Hn _ Hl _ Hm _]. split.
  - by apply filter_map_NoDup.
  - intros id (n & _ & _ & _ & _ & H)%raft_replicas_elem. done.
  - done.
  - done.
  - unfold configToRaftConfig. cbn [cfg_Leader cfg_Replicas]. generalize (map nd_Id (List.filter (fun n =>
      nd_AllowVote n && bool_decide (nd_Role n = NodeRoleReplica) &&
      negb (ArrayContainsUint64 (cc_Learners c) (nd_Id n))) (cc_Nodes c))).
    intros [|r [|r' l]] H; [done| |done]. revert H. destruct (Z.eqb_spec r i); [congruence|done].
Qed.

(** *** Servers *)

Definition conf_event_wf (e : Event) : Prop := ev_Type e = ConfChange /\ raft_wf (ev_Config e).

Record server_wf (s : CServer) : Prop := {
  server_cfg : config_wf (cs_cfg s);
  server_events : Forall conf_event_wf (cs_raftEvents s)
}.

Lemma stamp_wf log c : config_wf c -> config_wf (stamp log c).
Proof. intros []. by split. Qed.

Lemma run1_wf s cmd log now : cmd_wf cmd -> server_wf s -> server_wf (run1 s cmd log now).
Proof.
  intros Hc [Hw He]. pose proof (effect_wf (cs_cfg s) cmd now Hc Hw) as Hw'. unfold run1.
  split; destruct (switches cmd); cbn; try (by apply stamp_wf); [|done].
  apply Forall_app. split; [done|]. apply Forall_singleton. split; [done|]. by apply configToRaftConfig_wf.
Qed.

Lemma run_wf s cmds logs now : Forall cmd_wf cmds -> server_wf s -> server_wf (run s cmds logs now).
Proof.
  intros Hc. revert s logs now. induction Hc as [|cmd cmds Hc _ IH]; intros s logs now Hs; [done|].
  destruct logs as [|log logs]; [done|]. cbn [run]. by apply IH, run1_wf.
Qed.

(** The version of a configuration is the index of the last log. *)
Lemma run_version s cmds logs now :
  length cmds = length logs ->
  cc_Version (cs_cfg (run s cmds logs now)) = default (cc_Version (cs_cfg s)) (log_Index <$> last logs).
Proof.
  revert s logs now. induction cmds as [|cmd cmds IH]; intros s [|log logs] now E; try done.
  cbn [run]. rewrite IH by (simpl in E; lia). rewrite last_cons. destruct (last logs); [done|].
  simpl. by destruct (switches cmd).
Qed.

(** *** Joining *)

(** The element with an id is replaced, the others stay. *)
Lemma upd_first_elem {A} (k : A -> Z) id f (l : list A) x :
  NoDup (map k l) ->
  x ∈ upd_first (fun y => k y =? id) f l <->
  (exists y, y ∈ l /\ k y = id /\ x = f y) \/ (x ∈ l /\ k x <> id).
Proof.
  induction l as [|y l IH]; simpl; [set_solver|]. intros [Hy Hl]%NoDup_cons.
  assert (Hn : forall z, z ∈ l -> k z <> k y).
  { intros z Hz E. apply Hy. rewrite <-E. apply list_elem_of_In, in_map, list_elem_of_In, Hz. }
  destruct (Z.eqb_spec (k y) id) as [<-|Hne]; rewrite elem_of_cons, ?IH by done.
  - setoid_rewrite elem_of_cons. naive_solver.
  - setoid_rewrite elem_of_cons. naive_solver.
Qed.

Lemma addOrUpdateNode_elem c n m : config_wf c ->
  m ∈ cc_Nodes (addOrUpdateNode c n) <-> m = n \/ (m ∈ cc_Nodes c /\ nd_Id m <> nd_Id n).
Proof.
  intros Hw. unfold addOrUpdateNode. destruct (existsb (is_node (nd_Id n)) (cc_Nodes c)) eqn:E; cbn [cc_Nodes set_nodes].
  - unfold is_node. rewrite (upd_first_elem nd_Id) by apply Hw. apply existsb_exists in E as (y & Hy & Ey).
    apply list_elem_of_In in Hy. apply is_node_id in Ey. naive_solver.
  - rewrite elem_of_app, list_elem_of_singleton. split; [|naive_solver]. intros [Hm|]; [|by left]. right.
    split; [done|]. intros Em. assert (Hx : existsb (is_node (nd_Id n)) (cc_Nodes c) = true); [|congruence].
    apply existsb_exists. exists m. split; [by apply list_elem_of_In|]. by apply Z.eqb_eq.
Qed.

Definition votes (c : CConfig) (id : Z) : Prop := id ∈ cfg_Replicas (configToRaftConfig 0 c).

Lemma votes_spec i c id : id ∈ cfg_Replicas (configToRaftConfig i c) <-> votes c id.
Proof. by unfold votes; rewrite !raft_replicas_elem. Qed.

Lemma addLearner_learners c id x : x ∈ cc_Learners (addLearner c id) <-> x ∈ cc_Learners c \/ x = id.
Proof.
  unfold addLearner. destruct (ArrayContainsUint64 _ _) eqn:E; cbn [cc_Learners].
  - apply ArrayContainsUint64_spec in E. naive_solver.
  - by rewrite elem_of_app, list_elem_of_singleton.
Qed.

Lemma addLearner_nodes c id : cc_Nodes (addLearner c id) = cc_Nodes c.
Proof. unfold addLearner. by destruct (ArrayContainsUint64 _ _). Qed.
Lemma addOrUpdateNode_learners c n : cc_Learners (addOrUpdateNode c n) = cc_Learners c.
Proof. unfold addOrUpdateNode. by destruct (existsb _ _). Qed.

(** A node that joins does not vote; the others are not affected. *)
Lemma join_votes c n now id : config_wf c ->
  votes (effect c (CNodeJoin n) now) id <-> id <> nd_Id n /\ votes c id.
Proof.
  intros Hw. unfold votes. cbn [effect]. rewrite !raft_replicas_elem.
  setoid_rewrite addLearner_learners. setoid_rewrite addLearner_nodes. rewrite addOrUpdateNode_learners.
  setoid_rewrite addOrUpdateNode_elem; [|done]. naive_solver.
Qed.

Lemma updateNodeJoining_fields c id :
  cc_Nodes (updateNodeJoining c id) =
    upd_first (is_node id) (fun n => {| n with nd_Status := NodeStatusJoining |}) (cc_Nodes c) /\
  cc_Learners (updateNodeJoining c id) = RemoveUint64 (cc_Learners c) id /\
  cc_MigrateTo (updateNodeJoining c id) = (if cc_MigrateTo c =? id then 0 else cc_MigrateTo c).
Proof. unfold updateNodeJoining. cbn [cc_MigrateTo set_nodes]. by destruct (_ =? id). Qed.

(** When it has caught up it votes, if it may; the others are not affected. *)
Lemma joining_votes c id now x : config_wf c ->
  votes (effect c (CNodeJoining id) now) x <->
  votes c x \/ (x = id /\ exists n, n ∈ cc_Nodes c /\ nd_Id n = id /\ nd_AllowVote n = true /\
                  nd_Role n = NodeRoleReplica).
Proof.
  intros Hw. unfold votes. cbn [effect]. destruct (updateNodeJoining_fields c id) as (E1 & E2 & _).
  rewrite !raft_replicas_elem. rewrite E2. setoid_rewrite E1. unfold is_node.
  setoid_rewrite (upd_first_elem nd_Id); [|apply Hw]. setoid_rewrite (RemoveUint64_elem _ _ _ (wf_learners _ Hw)). split.
  - intros (n & [(m & Hm & Em & ->)|[Hn Ne]] & En & Hv & Hr & Hl); cbn in *; [right; naive_solver|].
    left. exists n. naive_solver.
  - intros [(n & Hn & En & Hv & Hr & Hl)|(-> & n & Hn & En & Hv & Hr)].
    + destruct (decide (x = id)) as [->|Hne]; [|exists n; naive_solver].
      exists {| n with nd_Status := NodeStatusJoining |}. cbn. naive_solver.
    + exists {| n with nd_Status := NodeStatusJoining |}. cbn. naive_solver.
Qed.

(** ** An instance of protobuf

    Messages as the bits of their codes, for the witnesses. *)

#[export] Instance NodeRole_countable : Countable NodeRole.
Proof.
  refine (inj_countable' (fun r => match r with NodeRoleReplica => inl true | NodeRoleProxy => inl false
                                   | NodeRoleOther z => inr z end)
    (fun x => match x with inl true => NodeRoleReplica | inl false => NodeRoleProxy | inr z => NodeRoleOther z end) _).
  by intros [].
Defined.

#[export] Instance NodeStatus_countable : Countable NodeStatus.
Proof.
  refine (inj_countable' (fun s => match s with
      | NodeStatusUnkown => (false, 0) | NodeStatusWillJoin => (false, 1) | NodeStatusJoining => (false, 2)
      | NodeStatusJoined => (false, 3) | NodeStatusOther z => (true, z) end)
    (fun x => match x with (true, z) => NodeStatusOther z | (false, z) => NodeStatus_of z end) _).
  by intros [].
Defined.

#[export] Instance SlotStatus_countable : Countable SlotStatus.
Proof.
  refine (inj_countable' (fun s => match s with
      | SlotStatusNormal => (false, 0) | SlotStatusCandidate => (false, 1)
      | SlotStatusLeaderTransfer => (false, 2) | SlotStatusOther z => (true, z) end)
    (fun x => match x with (true, z) => SlotStatusOther z | (false, z) => SlotStatus_of z end) _).
  by intros [].
Defined.

#[export] Instance CNode_eq_dec : EqDecision CNode.
Proof. solve_decision. Defined.
#[export] Instance Slot_eq_dec : EqDecision Slot.
Proof. solve_decision. Defined.
#[export] Instance CConfig_eq_dec : EqDecision CConfig.
Proof. solve_decision. Defined.

#[export] Instance CNode_countable : Countable CNode.
Proof.
  refine (inj_countable' (fun '(mkCNode a b c d e f g h i j k) => ((a, b, (c, d)), (e, f, (g, h)), (i, (j, k))))
    (fun '((a, b, (c, d)), (e, f, (g, h)), (i, (j, k))) => mkCNode a b c d e f g h i j k) _).
  by intros [].
Defined.

#[export] Instance Slot_countable : Countable Slot.
Proof.
  refine (inj_countable' (fun '(mkSlot a b c d e f g h i) => ((a, b, (c, d)), (e, f, (g, (h, i)))))
    (fun '((a, b, (c, d)), (e, f, (g, (h, i)))) => mkSlot a b c d e f g h i) _).
  by intros [].
Defined.

#[export] Instance CConfig_countable : Countable CConfig.
Proof.
  refine (inj_countable' (fun '(mkCConfig a b c d e f g h i j) => ((a, b, (c, d)), (e, f, (g, (h, (i, j))))))
    (fun '((a, b, (c, d)), (e, f, (g, (h, (i, j))))) => mkCConfig a b c d e f g h i j) _).
  by intros [].
Defined.

Fixpoint pos_bytes (p : positive) : bytes :=
  match p with
  | xH => []
  | xO p => x00 :: pos_bytes p
  | xI p => x01 :: pos_bytes p
  end.
Fixpoint bytes_pos (bs : bytes) : positive :=
  match bs with
  | [] => xH
  | b :: bs => if bool_decide (b = x00) then xO (bytes_pos bs) else xI (bytes_pos bs)
  end.

Lemma bytes_pos_bytes p : bytes_pos (pos_bytes p) = p.
Proof. induction p as [p IH|p IH|]; simpl; by rewrite ?IH. Qed.

Definition msg_bytes {A} `{Countable A} (a : A) : option bytes := Some (pos_bytes (encode a)).
Definition msg_of {A} `{Countable A} (bs : bytes) : option A := decode (bytes_pos bs).

Lemma msg_roundtrip {A} `{Countable A} (a : A) bs : msg_bytes a = Some bs -> msg_of bs = Some a.
Proof. intros [= <-]. unfold msg_of. by rewrite bytes_pos_bytes, decode_encode. Qed.

#[export] Instance codedProtobuf : Protobuf := {|
  Config_pbMarshal := msg_bytes; Config_pbUnmarshal := msg_of;
  Node_pbMarshal := msg_bytes; Node_pbUnmarshal := msg_of;
  Slot_pbMarshal := msg_bytes; Slot_pbUnmarshal := msg_of
|}.
#[export] Instance codedProtobuf_laws : ProtobufLaws codedProtobuf.
Proof. split; intros ? ?; apply msg_roundtrip. Qed.

(** ** Theorems *)

Module ClusterProps.

Definition demo_node (id : Z) : CNode :=
  mkCNode id "n" "" false true 0 0 true NodeRoleReplica NodeStatusJoined 7.
Definition demo_slot (id leader : Z) : Slot := mkSlot id leader 1 [1; 2] [] 0 0 0 SlotStatusNormal.
Definition demo_config : CConfig :=
  mkCConfig 0 2 2 2 0 0 0 [] [demo_node 1; demo_node 2] [demo_slot 0 1; demo_slot 1 2].
Definition demo_server (id : Z) : CServer := mkCServer id zeroConfig false [].
Definition demo_cmds : list ccmd :=
  [CConfigChange demo_config; COnlineStatus 2 false; CNodeJoin (demo_node 3); CNodeJoining 3;
   CSlotMigrate 1 2 3; CNodeJoined 3 [demo_slot 0 2]].
Definition demo_logs : list Log :=
  imap (fun i cmd => {| EmptyLog with log_Index := Z.of_nat i + 1; log_Term := 1;
                        log_Data := default [] (proposal cmd) |}) demo_cmds.

(** The nodes agree on the configuration.  Two nodes that apply the same logs,
    of whatever content and whatever their clocks say, have the same outcome, and
    then the same configuration up to the times at which nodes went offline, and
    hand the same configurations to their rafts up to the leader a lone node
    names. *)
Theorem replicas_agree {W : WkProto} {B : Protobuf} s t logs now now' :
  ssim s t -> agree (applyLogs s logs now) (applyLogs t logs now').
Proof. apply applyLogs_agree. Qed.

Lemma replicas_agree_witness :
  agree (applyLogs (demo_server 1) demo_logs (fun _ => 100)) (applyLogs (demo_server 2) demo_logs (fun n => Z.of_nat n)) /\
  (let! r := applyLogs (demo_server 1) demo_logs (fun _ => 100) in Ok (cc_Version ∘ cs_cfg <$> r)) = Ok (Some 6).
Proof. split; [by apply replicas_agree|by vm_compute]. Defined.

(** C18. What is proposed happens.  For commands of any kind whose proposals are
    encoded, applying their logs changes the server exactly as the commands say,
    one after the other, and stamps the term and the index of each log; no decoder
    fails and nothing panics. *)
Theorem proposals_take_effect {W : WkProto} {WL : WkProtoLaws W} {WB : WkProtoBinary W}
    {B : Protobuf} {BL : ProtobufLaws B}
    s cmds logs now :
  Forall cmd_fits cmds -> Forall2 (fun cmd log => proposal cmd = Some (log_Data log)) cmds logs ->
  applyLogs s logs now = Ok (Some (run s cmds logs now)).
Proof. apply applyLogs_run. Qed.

Lemma demo_fits : Forall cmd_fits demo_cmds.
Proof.
  assert (Hs : forall i l, is_u8 i -> is_u8 l -> slot_fits (demo_slot 0 2)).
  { intros i l _ _ b [= <-]. by vm_compute. }
  repeat constructor; try done. by apply (Hs 0 2).
Qed.

Lemma proposals_take_effect_witness :
  applyLogs (demo_server 1) demo_logs (fun _ => 100) =
    Ok (Some (run (demo_server 1) demo_cmds demo_logs (fun _ => 100))).
Proof. apply proposals_take_effect; [apply demo_fits|]. repeat constructor. Defined.

(** C19. The invariant of the configuration. Node ids and slot ids are unique, learners are
    nodes and listed once, a migration names a learner, and a slot is migrated to one of its
    members, which vote or learn but not both; whatever is handed to the raft has distinct
    voters, none of whom is a learner. Applying the logs of any sequence of proposed
    commands keeps this, provided that what a command carries keeps to it: a configuration
    command a configuration with the invariant, the commands that update slots or finish a
    join slots whose voters do not learn and whose migration is to a member. The other
    commands (joining nodes, migrations, online states, addresses) carry anything that is
    encoded. The version is the index of the last log. *)
Theorem cluster_config_invariant {W : WkProto} {WL : WkProtoLaws W} {WB : WkProtoBinary W}
    {B : Protobuf} {BL : ProtobufLaws B}
    s cmds logs now :
  server_wf s -> Forall cmd_fits cmds -> Forall cmd_wf cmds ->
  Forall2 (fun cmd log => proposal cmd = Some (log_Data log)) cmds logs ->
  exists s', applyLogs s logs now = Ok (Some s') /\ server_wf s' /\
    cc_Version (cs_cfg s') = default (cc_Version (cs_cfg s)) (log_Index <$> last logs).
Proof.
  intros Hs Hf Hc Hp. exists (run s cmds logs now). split_and!.
  - by apply applyLogs_run.
  - by apply run_wf.
  - eapply run_version, Forall2_length, Hp.
Qed.

Lemma cluster_config_invariant_witness :
  exists s', applyLogs (demo_server 1) demo_logs (fun _ => 100) = Ok (Some s') /\ server_wf s' /\
    cc_Version (cs_cfg s') = 6.
Proof.
  assert (Hz : forall s, sl_Learners s = [] -> sl_MigrateTo s = 0 -> slot_wf s).
  { intros s E1 E2. split; [rewrite E1; set_solver|done]. }
  assert (Hc : config_wf demo_config).
  { split; cbn; [by apply (bool_decide_unpack _); vm_compute..| | |]; [set_solver|done|].
    rewrite !Forall_cons, Forall_nil. by split_and!; try apply Hz. }
  apply (cluster_config_invariant (demo_server 1) demo_cmds demo_logs (fun _ => 100)).
  - split; [|constructor]. split; cbn; [by apply NoDup_nil_2..|set_solver|done|by apply Forall_nil].
  - apply demo_fits.
  - unfold demo_cmds. rewrite !Forall_cons, Forall_nil. cbn [cmd_wf]. rewrite Forall_cons, Forall_nil. by split_and!; try apply Hz.
  - repeat constructor.
Defined.

(** A node joins in two steps.  The command that joins it makes it a learner:
    it does not vote, and the voters are the others as before.  The command that
    follows when it has caught up takes it from the learners, ends its migration and
    makes it a voter; the other voters stay.  One command changes at most one
    vote. *)
Theorem join_learns_then_votes c n now :
  config_wf c -> nd_AllowVote n = true -> nd_Role n = NodeRoleReplica -> nd_Id n <> 0 ->
  let id := nd_Id n in
  let c1 := effect c (CNodeJoin n) now in
  let c2 := effect c1 (CNodeJoining id) now in
  (id ∈ cc_Learners c1 /\ (forall x, votes c1 x <-> x <> id /\ votes c x)) /\
  (id ∉ cc_Learners c2 /\ cc_MigrateTo c2 <> id /\ (forall x, votes c2 x <-> x = id \/ votes c x)).
Proof.
  intros Hw Hv Hr Hz id c1 c2.
  assert (Hw1 : config_wf c1) by (by apply effect_wf).
  assert (H1 : forall x, votes c1 x <-> x <> id /\ votes c x) by (intros x; by apply join_votes).
  assert (Hin : n ∈ cc_Nodes c1) by (cbn; rewrite addLearner_nodes, addOrUpdateNode_elem by done; by left).
  destruct (updateNodeJoining_fields c1 id) as (_ & E2 & E3).
  split; split; [by cbn; rewrite addLearner_learners; right|done| |split].
  - cbn [c2 effect]. rewrite E2. by intros [_ ?]%(RemoveUint64_elem _ _ _ (wf_learners _ Hw1)).
  - cbn [c2 effect]. rewrite E3. by destruct (Z.eqb_spec (cc_MigrateTo c1) id); [|done].
  - intros x. unfold c2. rewrite joining_votes, H1 by done.
    destruct (decide (x = id)); naive_solver.
Qed.

Lemma join_learns_then_votes_witness :
  votes demo_config 1 /\
  votes (effect (effect demo_config (CNodeJoin (demo_node 3)) 0) (CNodeJoining 3) 0) 3.
Proof.
  split; [unfold votes; apply (bool_decide_unpack _); by vm_compute|].
  apply (join_learns_then_votes demo_config (demo_node 3) 0); [|done..|by left].
  split; cbn; [by apply (bool_decide_unpack _); vm_compute..| | |]; [set_solver|done|].
  rewrite !Forall_cons, Forall_nil. split_and!; split; set_solver.
Defined.
End ClusterProps.
