(* ===== verification/ClusterEvents.v ===== *)
(** * Events of the cluster configuration

    [pkg/cluster/node/event]: what the leader of the configuration proposes.  The
    handlers read the configuration and propose one command ([ccmd]):

    - [handleClusterInit]: the first configuration;
    - [handleNodeJoining]: the slots a joining node takes over;
    - [handleSlotLeaderAutoBalance]: leaders of slots are moved to nodes that lead
      too few;
    - [handleSlotChangeByNodeOnlineStatus]: leaders of slots after a node went
      offline or came back;
    - [tick]: the nodes that are silent, or back.

    Go iterates over a map in an unspecified order; [MapRange] gives the order of
    every iteration, and the theorems hold for all of them.  The counts of the maps
    are 32 bit and wrap.  Random numbers and the clock are arguments. *)

From S2P Require Import Prelude RaftTypes WkProto RaftCodec ClusterConfig ClusterConfigLaws ClusterCommands.

(** The order of the [i]-th iteration over a map. *)
Class MapRange := { range : forall {V}, nat -> gmap Z V -> list (Z * V) }.
Class MapRangeLaws (R : MapRange) := {
  range_perm {V} i (m : gmap Z V) : range i m ≡ₚ map_to_list m
}.

(** [m[k]] of a map of counts, and [m[k]++]. *)
Definition cnt (m : gmap Z Z) (k : Z) : Z := default 0 (m !! k).
Definition incr (m : gmap Z Z) (k : Z) : gmap Z Z := <[k := u32 (cnt m k + 1)]> m.

(** Division of Go. *)
Definition udiv (a b : Z) : res Z := if b =? 0 then Panic else Ok (a / b).
Definition umod (a b : Z) : res Z := if b =? 0 then Panic else Ok (a mod b).

(** A quotient rounded up: the average of the handlers. *)
Definition avgCount (a b : Z) : res Z :=
  let! q := udiv a b in
  let! r := umod a b in
  Ok (if 0 <? r then u32 (q + 1) else q).

(** A loop that may panic. *)
Fixpoint rfold {A B} (f : A -> B -> res A) (a : A) (l : list B) : res A :=
  match l with
  | [] => Ok a
  | b :: l => let! a := f a b in rfold f a l
  end.

Section Events.
Context {R : MapRange}.

(** ** The balance of the leaders *)

Definition migrating (s : Slot) : bool := negb (sl_MigrateFrom s =? 0) || negb (sl_MigrateTo s =? 0).

(** [pkg/cluster/node/event/handle_slotleader_balance.go] [lines 57-67] *)
Definition balanceCounts (slots : list Slot) : gmap Z Z * gmap Z Z :=
  foldl (fun '(slotCounts, leaderCounts) slot =>
    if sl_Leader slot =? 0 then (slotCounts, leaderCounts)
    else (foldl incr slotCounts (sl_Replicas slot), incr leaderCounts (sl_Leader slot)))
    (∅, ∅) slots.

(** [pkg/cluster/node/event/handle_slotleader_balance.go] [lines 71-97]

    How many leaders a node has too many, and too few. *)
Definition balanceQuotas (replicaCount : Z) (leaderCounts : gmap Z Z) (nodes : list (Z * Z))
    : res (gmap Z Z * gmap Z Z) :=
  rfold (fun '(exports, imports) '(nodeId, slotCount) =>
    if slotCount =? 0 then Ok (exports, imports)
    else
      let leaderCount := cnt leaderCounts nodeId in
      let! avgLeaderCount := avgCount slotCount replicaCount in
      Ok (if avgLeaderCount <? leaderCount then (<[nodeId := leaderCount - avgLeaderCount]> exports, imports)
          else if leaderCount <? avgLeaderCount then (exports, <[nodeId := avgLeaderCount - leaderCount]> imports)
          else (exports, imports)))
    (∅, ∅) nodes.

(** [pkg/cluster/node/event/handle_slotleader_balance.go] [lines 128-143]

    The loop over the slots; it stops when a quota is used up.  The counts are
    32 bit variables. *)
Fixpoint moveLeaders (exportNodeId importNodeId : Z) (slots : list Slot) (exportCount importCount : Z)
    (newSlots : list Slot) : Z * list Slot :=
  match slots with
  | [] => (exportCount, newSlots)
  | slot :: rest =>
      if migrating slot then moveLeaders exportNodeId importNodeId rest exportCount importCount newSlots
      else if (sl_Leader slot =? exportNodeId) && ArrayContainsUint64 (sl_Replicas slot) importNodeId then
        let newSlot := {| slot with sl_MigrateFrom := exportNodeId; sl_MigrateTo := importNodeId |} in
        let exportCount := u32 (exportCount - 1) in
        let importCount := u32 (importCount - 1) in
        if (exportCount =? 0) || (importCount =? 0) then (exportCount, newSlots ++ [newSlot])
        else moveLeaders exportNodeId importNodeId rest exportCount importCount (newSlots ++ [newSlot])
      else moveLeaders exportNodeId importNodeId rest exportCount importCount newSlots
  end.

(** [pkg/cluster/node/event/handle_slotleader_balance.go] [lines 119-144]

    The loop over the nodes that import, for one that exports. *)
Definition importLeaders (cfg : CConfig) (exportNodeId : Z) (imports : list (Z * Z))
    (st : Z * list Slot) : Z * list Slot :=
  foldl (fun '(exportCount, newSlots) '(importNodeId, importCount) =>
    if importCount =? 0 then (exportCount, newSlots)
    else if negb (nodeOnline cfg importNodeId) then (exportCount, newSlots)
    else moveLeaders exportNodeId importNodeId (cc_Slots cfg) exportCount importCount newSlots)
    st imports.

(** [pkg/cluster/node/event/handle_slotleader_balance.go] [(s *Server) autoBalanceSlotLeaders]

    The handler has a copy of the method in [handler.go]. *)
Definition autoBalanceSlotLeaders (cfg : CConfig) : res (list Slot) :=
  let slots := cc_Slots cfg in
  match slots with
  | [] => Ok []
  | firstSlot :: _ =>
      if existsb migrating slots then Ok []
      else
        let '(slotCounts, leaderCounts) := balanceCounts slots in
        let! (exports, imports) :=
          balanceQuotas (u32 (len (sl_Replicas firstSlot))) leaderCounts (range 0 slotCounts) in
        Ok (snd (foldl (fun '(i, newSlots) '(exportNodeId, exportCount) =>
          (S i, if exportCount =? 0 then newSlots
                else if negb (nodeOnline cfg exportNodeId) then newSlots
                else snd (importLeaders cfg exportNodeId (range (2 + i) imports) (exportCount, newSlots))))
          (O, []) (range 1 exports)))
  end.

(** [pkg/cluster/node/event/handle_slotleader_balance.go] [(s *Server) handleSlotLeaderAutoBalance] *)
Definition handleSlotLeaderAutoBalance (cfg : CConfig) : res (option ccmd) :=
  if existsb (fun n => negb (joined n)) (cc_Nodes cfg) then Ok None
  else if existsb (fun s => migrating s || bool_decide (sl_Status s = SlotStatusCandidate)) (cc_Slots cfg)
  then Ok None
  else
    let! changedSlots := autoBalanceSlotLeaders cfg in
    Ok (match changedSlots with [] => None | _ => Some (CSlotUpdate changedSlots) end).

(** ** The first configuration *)

(** [pkg/cluster/node/clusterconfig/options.go] [Options] *)
Record COptions := mkCOptions {
  o_NodeId : Z;
  o_ServerAddr : string;
  o_ApiServerAddr : string;
  o_InitNodes : gmap Z string;
  o_SlotCount : Z;
  o_SlotMaxReplicaCount : Z;
  o_ChannelMaxReplicaCount : Z;
  o_PongMaxTick : Z
}.

Definition initNode (id : Z) (addr apiAddr : string) (now : Z) : CNode :=
  mkCNode id addr apiAddr false true 0 0 true NodeRoleReplica NodeStatusJoined now.

(** [pkg/cluster/node/event/handler_clusterinit.go] [lines 18-54] *)
Definition initNodes (opts : COptions) (now : Z) : list CNode :=
  if bool_decide (o_InitNodes opts = ∅)
  then [initNode (o_NodeId opts) (o_ServerAddr opts) (o_ApiServerAddr opts) now]
  else map (fun '(nodeId, addr) =>
         initNode nodeId addr (if nodeId =? o_NodeId opts then o_ApiServerAddr opts else "") now)
         (range 0 (o_InitNodes opts)).

(** [pkg/cluster/node/event/handler_clusterinit.go] [lines 65-73]

    [offset] is the number of the slot. *)
Definition initReplicas (replicas : list Z) (replicaCount : Z) (offset : nat) : list Z :=
  if len replicas <=? replicaCount then replicas
  else map (fun i => nth ((offset + i) mod length replicas) replicas 0) (seq 0 (Z.to_nat replicaCount)).

(** [pkg/cluster/node/event/handler_clusterinit.go] [lines 61-80]

    [rand i n] is the [i]-th random number below [n]; [crypto/rand] panics when
    there is none. *)
Definition initSlot (rand : nat -> Z -> Z) (replicas : list Z) (replicaCount : Z) (i : nat) : res Slot :=
  match initReplicas replicas replicaCount i with
  | [] => Panic
  | r0 :: rs =>
      let l := r0 :: rs in
      Ok {| zeroSlot with sl_Id := Z.of_nat i; sl_Replicas := l; sl_Term := 1;
                          sl_Leader := nth (Z.to_nat (rand i (len l))) l 0 |}
  end.

(** [pkg/cluster/node/event/handler_clusterinit.go] [lines 85-94] *)
Definition takeLeaders (slots newSlots : list Slot) : list Slot :=
  foldl (fun slots newSlot =>
    upd_first (is_slot (sl_Id newSlot)) (fun oldSlot =>
      if negb (sl_MigrateFrom newSlot =? 0) && negb (sl_MigrateTo newSlot =? 0)
      then {| oldSlot with sl_Leader := sl_MigrateTo newSlot |} else oldSlot) slots)
    slots newSlots.

(** [pkg/cluster/node/event/handler_clusterinit.go] [(h *handler) handleClusterInit]

    The configuration that is proposed.  There is always a node, so the slots are
    always made. *)
Definition handleClusterInit (opts : COptions) (rand : nat -> Z -> Z) (now : Z) : res CConfig :=
  let nodes := initNodes opts now in
  let replicas := map nd_Id nodes in
  let! slots := rfold (fun slots i =>
                   let! s := initSlot rand replicas (o_SlotMaxReplicaCount opts) i in Ok (slots ++ [s]))
                  [] (seq 0 (Z.to_nat (o_SlotCount opts))) in
  let cfg := {| zeroConfig with cc_SlotCount := o_SlotCount opts;
                  cc_SlotReplicaCount := o_SlotMaxReplicaCount opts;
                  cc_ChannelReplicaCount := o_ChannelMaxReplicaCount opts;
                  cc_Nodes := nodes; cc_Slots := slots |} in
  let! newSlots := autoBalanceSlotLeaders cfg in
  Ok (set_slots cfg (takeLeaders slots newSlots)).

(** ** A joining node *)

(** [pkg/cluster/node/event/handle_node_joining.go] [lines 53-61] *)
Definition joinCounts (joiningId : Z) (slots : list Slot) : gmap Z Z * gmap Z Z :=
  foldl (fun '(leaderCounts, slotCounts) slot =>
    (incr leaderCounts (sl_Leader slot), foldl incr slotCounts (sl_Replicas slot)))
    (∅, {[joiningId := 0]}) slots.

(** [pkg/cluster/node/event/handle_node_joining.go] [lines 64-79]

    What the nodes have above the average.  What they have below it is computed
    as well, and not used. *)
Definition aboveAverage (avg : Z) (counts : list (Z * Z)) : gmap Z Z :=
  foldl (fun m '(nodeId, count) => if avg <? count then <[nodeId := count - avg]> m else m) ∅ counts.

Definition migrateTo (slot : Slot) (fromId toId : Z) : Slot :=
  {| slot with sl_MigrateFrom := fromId; sl_MigrateTo := toId; sl_Learners := sl_Learners slot ++ [toId] |}.

(** [pkg/cluster/node/event/handle_node_joining.go] [lines 89-134]

    The loop over the slots for the node [nodeId]: slots that it leads first use up
    the leaders it has too many, then the slots it is a replica of.  A slot that is
    already migrated is skipped. *)
Fixpoint takeSlots (joiningId nodeId : Z) (slots : list Slot) (fromSlotCount fromLeaderCount : Z)
    (migrateSlots : list Slot) : Z * list Slot :=
  match slots with
  | [] => (fromSlotCount, migrateSlots)
  | slot :: rest =>
      if existsb (is_slot (sl_Id slot)) migrateSlots
      then takeSlots joiningId nodeId rest fromSlotCount fromLeaderCount migrateSlots
      else if (0 <? fromSlotCount) && (0 <? fromLeaderCount) && (sl_Leader slot =? nodeId)
      then takeSlots joiningId nodeId rest (fromSlotCount - 1) (fromLeaderCount - 1)
             (migrateSlots ++ [migrateTo slot (sl_Leader slot) joiningId])
      else if (0 <? fromSlotCount) && ArrayContainsUint64 (sl_Replicas slot) nodeId
      then takeSlots joiningId nodeId rest (fromSlotCount - 1) fromLeaderCount
             (migrateSlots ++ [migrateTo slot nodeId joiningId])
      else takeSlots joiningId nodeId rest fromSlotCount fromLeaderCount migrateSlots
  end.

(** [pkg/cluster/node/event/handle_node_joining.go] [lines 81-136]

    The loop over the nodes that vote; what is left of a count is kept in its
    map. *)
Definition takeAllSlots (joiningId : Z) (slots : list Slot) (fromLeaders : gmap Z Z)
    (st : gmap Z Z * list Slot) (node : CNode) : gmap Z Z * list Slot :=
  let '(from, migrateSlots) := st in
  let fromSlotCount := cnt from (nd_Id node) in
  if fromSlotCount =? 0 then st
  else let '(leftCount, migrateSlots) :=
         takeSlots joiningId (nd_Id node) slots fromSlotCount (cnt fromLeaders (nd_Id node)) migrateSlots in
       (<[nd_Id node := leftCount]> from, migrateSlots).

(** [pkg/cluster/node/event/handle_node_joining.go] [lines 25-138]

    While every slot has fewer replicas than configured, the node becomes a
    learner of all slots. *)
Definition joiningSlots (cfg : CConfig) (joiningId : Z) (firstSlot : Slot) : res (list Slot) :=
  let slots := cc_Slots cfg in
  if u32 (len (sl_Replicas firstSlot)) <? cc_SlotReplicaCount cfg
  then Ok (map (fun slot => migrateTo slot joiningId joiningId) slots)
  else
    let voteNodes := allowVoteNodes cfg in
    let voteNodeCount := u32 (len voteNodes) in
    let! avgSlotCount := avgCount (u32 (u32 (len slots) * cc_SlotReplicaCount cfg)) voteNodeCount in
    let! avgLeaderCount := avgCount (u32 (len slots)) voteNodeCount in
    let '(leaderCounts, slotCounts) := joinCounts joiningId slots in
    let from := aboveAverage avgSlotCount (range 0 slotCounts) in
    let fromLeaders := aboveAverage avgLeaderCount (range 1 leaderCounts) in
    Ok (snd (foldl (takeAllSlots joiningId slots fromLeaders) (from, []) voteNodes)).

(** [pkg/cluster/node/event/handle_node_joining.go] [(s *Server) handleNodeJoining] *)
Definition handleNodeJoining (cfg : CConfig) : res (option ccmd) :=
  match cc_Slots cfg with
  | [] => Ok None
  | firstSlot :: _ =>
      match find (fun n => bool_decide (nd_Status n = NodeStatusJoining)) (cc_Nodes cfg) with
      | None => Ok None
      | Some joiningNode =>
          let! migrateSlots := joiningSlots cfg (nd_Id joiningNode) firstSlot in
          Ok (match migrateSlots with
              | [] => None
              | _ => Some (CNodeJoined (nd_Id joiningNode) migrateSlots)
              end)
      end
  end.

(** ** Nodes that come and go *)

Definition leaderCounts (slots : list Slot) : gmap Z Z := foldl (fun m s => incr m (sl_Leader s)) ∅ slots.

(** [pkg/cluster/node/event/handle_onlinestatus.go] [lines 66-81]

    The loop over the slots that [fromId] leads. *)
Fixpoint giveBack (nodeId fromId : Z) (slots : list Slot) (exportCount needCount : Z) (newSlots : list Slot)
    : Z * list Slot :=
  match slots with
  | [] => (needCount, newSlots)
  | slot :: rest =>
      if (sl_Leader slot =? fromId) && (0 <? exportCount) && (0 <? needCount) &&
         (sl_MigrateFrom slot =? 0) && (sl_MigrateTo slot =? 0) && ArrayContainsUint64 (sl_Replicas slot) nodeId
      then giveBack nodeId fromId rest (exportCount - 1) (needCount - 1)
             (newSlots ++ [{| slot with sl_MigrateFrom := fromId; sl_MigrateTo := nodeId |}])
      else giveBack nodeId fromId rest exportCount needCount newSlots
  end.

(** [pkg/cluster/node/event/handle_onlinestatus.go] [lines 51-83] *)
Fixpoint giveBackAll (nodeId avg : Z) (slots : list Slot) (counts : list (Z * Z)) (needCount : Z)
    (newSlots : list Slot) : list Slot :=
  match counts with
  | [] => newSlots
  | (nId, leaderCount) :: rest =>
      if leaderCount <? avg then giveBackAll nodeId avg slots rest needCount newSlots
      else if needCount <=? 0 then newSlots
      else if nId =? nodeId then giveBackAll nodeId avg slots rest needCount newSlots
      else
        let '(needCount, newSlots) := giveBack nodeId nId slots (leaderCount - avg) needCount newSlots in
        giveBackAll nodeId avg slots rest needCount newSlots
  end.

(** [pkg/cluster/node/event/handle_onlinestatus.go] [lines 29-83] *)
Definition slotsForOnline (cfg : CConfig) (nodeId : Z) : res (list Slot) :=
  let slots := cc_Slots cfg in
  let! avg := udiv (cc_SlotCount cfg) (u32 (allowVoteAndJoinedOnlineNodeCount cfg)) in
  let counts := leaderCounts slots in
  let current := cnt counts nodeId in
  if avg <=? current then Ok []
  else Ok (giveBackAll nodeId avg slots (range 0 counts) (avg - current) []).

(** [pkg/cluster/node/event/handle_onlinestatus.go] [lines 106-128]

    The node that is expected to lead [slot] next: the first in the order of the
    map that does not lead more than the average. *)
Fixpoint nextLeader (nodeId avg : Z) (counts : list (Z * Z)) : option Z :=
  match counts with
  | [] => None
  | (nId, leaderCount) :: rest =>
      if nId =? nodeId then nextLeader nodeId avg rest
      else if avg <? leaderCount then nextLeader nodeId avg rest
      else Some nId
  end.

(** [pkg/cluster/node/event/handle_onlinestatus.go] [lines 101-129]

    [current] counts the slots that the node leads; it is not 0 while there is
    one. *)
Fixpoint slotElections (nodeId avg : Z) (slots : list Slot) (i : nat) (counts : gmap Z Z) (current : Z)
    (newSlots : list Slot) : list Slot :=
  match slots with
  | [] => newSlots
  | slot :: rest =>
      if negb (sl_Leader slot =? nodeId) then slotElections nodeId avg rest (S i) counts current newSlots
      else if current <=? 0 then slotElections nodeId avg rest (S i) counts current newSlots
      else if (sl_MigrateFrom slot =? 0) && (sl_MigrateTo slot =? 0) &&
              negb (bool_decide (sl_Status slot = SlotStatusCandidate)) then
        match nextLeader nodeId avg (range i counts) with
        | None => slotElections nodeId avg rest (S i) counts current newSlots
        | Some nId =>
            slotElections nodeId avg rest (S i) (incr counts nId) (current - 1)
              (newSlots ++ [{| slot with sl_Status := SlotStatusCandidate; sl_ExpectLeader := nId |}])
        end
      else slotElections nodeId avg rest (S i) counts current newSlots
  end.

(** [pkg/cluster/node/event/handle_onlinestatus.go] [lines 86-129] *)
Definition slotsForOffline (cfg : CConfig) (nodeId : Z) : res (list Slot) :=
  let slots := cc_Slots cfg in
  let! avg := udiv (cc_SlotCount cfg) (u32 (allowVoteAndJoinedOnlineNodeCount cfg)) in
  let counts := leaderCounts slots in
  Ok (slotElections nodeId avg slots 0 counts (cnt counts nodeId) []).

(** [pkg/cluster/node/event/handle_onlinestatus.go] [(h *handler) handleSlotChangeByNodeOnlineStatus] *)
Definition handleSlotChangeByNodeOnlineStatus (cfg : CConfig) (nodeId : Z) (online : bool) : res (option ccmd) :=
  let! newSlots := (if online then slotsForOnline cfg nodeId else slotsForOffline cfg nodeId) in
  Ok (match newSlots with [] => None | _ => Some (CSlotUpdate newSlots) end).

(** ** The loop *)

(** [pkg/cluster/node/event/server.go] [Server]

    What the leader counts: the ticks since a node was heard of. *)
Record EServer := mkEServer { es_opts : COptions; es_tickMap : gmap Z Z; es_cfg : CServer }.

(** A proposal is applied before the handler goes on, or fails. *)
Context (propose : CServer -> ccmd -> option CServer).

(** The slots that are to be elected, [OnSlotElection]. *)
Context (onSlotElection : CServer -> list Slot -> CServer).

(** [pkg/cluster/node/event/handle_onlinestatus.go] [(h *handler) handleOnlineStatus] *)
Definition handleOnlineStatus (s : CServer) (nodeId : Z) (online : bool) : res CServer :=
  match propose s (COnlineStatus nodeId online) with
  | None => Ok s
  | Some s =>
      let! r := handleSlotChangeByNodeOnlineStatus (cs_cfg s) nodeId online in
      Ok (match r with Some cmd => default s (propose s cmd) | None => s end)
  end.

(** [pkg/cluster/node/event/server.go] [(s *Server) Step]

    [raftStep] hands the event to the raft of the configuration. *)
Definition eventStep (raftStep : CServer -> Event -> CServer) (isLeader : CServer -> bool) (s : EServer) (e : Event)
    : EServer :=
  let cfg := raftStep (es_cfg s) e in
  if isLeader cfg && bool_decide (ev_Type e = SyncReq)
  then {| s with es_cfg := cfg; es_tickMap := <[ev_From e := 0]> (es_tickMap s) |}
  else {| s with es_cfg := cfg |}.

(** [pkg/cluster/node/event/server.go] [lines 145-168]

    The nodes of the configuration at the beginning; whether one is online is read
    when it is its turn, from the node that the configuration shares. *)
Fixpoint tickNodes (s : EServer) (nodes : list CNode) : res EServer :=
  match nodes with
  | [] => Ok s
  | n :: rest =>
      if nd_Id n =? o_NodeId (es_opts s) then tickNodes s rest
      else
        let tk := cnt (es_tickMap s) (nd_Id n) + 1 in
        let s := {| s with es_tickMap := <[nd_Id n := tk]> (es_tickMap s) |} in
        let online := nodeOnline (cs_cfg (es_cfg s)) (nd_Id n) in
        if (o_PongMaxTick (es_opts s) <=? tk) && online then
          let! c := handleOnlineStatus (es_cfg s) (nd_Id n) false in
          tickNodes {| s with es_cfg := c |} rest
        else if (tk <? o_PongMaxTick (es_opts s)) && negb online then
          let! c := handleOnlineStatus (es_cfg s) (nd_Id n) true in
          tickNodes {| s with es_cfg := c |} rest
        else tickNodes s rest
  end.

(** [pkg/cluster/node/event/server.go] [(s *Server) tick]

    [stopAt]: the server is found to be stopping after so many nodes. *)
Definition tick (stopAt : option nat) (isLeader : bool) (s : EServer) : res EServer :=
  let nodes := cc_Nodes (cs_cfg (es_cfg s)) in
  if isLeader then tickNodes s (match stopAt with Some k => take k nodes | None => nodes end) else Ok s.

(** [pkg/cluster/node/event/handler_compare.go] [(h *handler) handleCompare]

    [TrimSpace] of an address. *)
Definition handleCompare (trimSpace : string -> string) (leaderId : Z) (opts : COptions) (s : CServer) : CServer :=
  if leaderId =? 0 then s
  else if bool_decide (trimSpace (o_ApiServerAddr opts) = "") then s
  else match node (cs_cfg s) (o_NodeId opts) with
       | Some localNode =>
           if bool_decide (nd_ApiServerAddr localNode = o_ApiServerAddr opts) then s
           else default s (propose s (CApiServerAddr (o_NodeId opts) (o_ApiServerAddr opts)))
       | None => s
       end.

(** [pkg/cluster/node/event/handle_slot_election.go] [(h *handler) handleSlotLeaderElection] *)
Definition handleSlotLeaderElection (s : CServer) : CServer :=
  match List.filter (fun slot => bool_decide (sl_Status slot = SlotStatusCandidate)) (cc_Slots (cs_cfg s)) with
  | [] => s
  | electionSlots => onSlotElection s electionSlots
  end.

(** A handler that proposes; an error ends the round. *)
Definition proposing (h : CConfig -> res (option ccmd)) (s : CServer) (next : CServer -> res CServer) : res CServer :=
  let! r := h (cs_cfg s) in
  match r with
  | None => next s
  | Some cmd => match propose s cmd with Some s => next s | None => Ok s end
  end.

(** [pkg/cluster/node/event/server.go] [(s *Server) handleEvents]

    The leadership is taken as unchanged during a round. *)
Definition handleEvents (trimSpace : string -> string) (rand : nat -> Z -> Z) (now : Z)
    (leaderId : Z) (isLeader : bool) (opts : COptions) (s : CServer) : res CServer :=
  if leaderId =? 0 then Ok s
  else if isLeader && negb (cs_inited s) then
    let! cfg := handleClusterInit opts rand now in
    Ok (default s (propose s (CConfigChange cfg)))
  else
    let s := handleCompare trimSpace leaderId opts s in
    if isLeader
    then proposing handleNodeJoining s (fun s =>
         proposing handleSlotLeaderAutoBalance s (fun s => Ok (handleSlotLeaderElection s)))
    else Ok s.
End Events.
