(* ===== verification/ClusterEventsLaws.v ===== *)
(** * What the leader of the configuration proposes

    Lemmas about the handlers of [ClusterEvents]: where the slots of a proposal
    come from, that ids are not repeated, that counts are kept to, and when a
    handler panics; then the theorems ([EventProps]). *)

From S2P Require Import Prelude RaftTypes WkProto RaftCodec ClusterConfig ClusterConfigLaws ClusterCommands ClusterProps ClusterEvents.

(** ** Loops *)

Lemma rfold_ind {A B} (P : A -> Prop) (f : A -> B -> res A) l a a' :
  (forall a b a', b ∈ l -> P a -> f a b = Ok a' -> P a') ->
  P a -> rfold f a l = Ok a' -> P a'.
Proof.
  revert a. induction l as [|b l IH]; intros a Hf Ha; simpl; [by intros [= <-]|].
  intros (a1 & H1 & H2)%res_bind_Ok. eapply IH; [|eapply Hf; [left|..]; done|done].
  intros. eapply Hf; [right|..]; done.
Qed.

Lemma rfold_ok {A B} (P : A -> Prop) (f : A -> B -> res A) l a :
  (forall a b, b ∈ l -> P a -> returns (f a b) P) -> P a -> returns (rfold f a l) P.
Proof.
  revert a. induction l as [|b l IH]; intros a Hf Ha; simpl; [by exists a|].
  eapply returns_bind; [apply Hf; [left|done]|]. intros a1 H1. apply IH; [|done].
  intros. apply Hf; [by right|done].
Qed.

Lemma foldl_ind {A B} (P : A -> Prop) (f : A -> B -> A) l a :
  (forall a b, b ∈ l -> P a -> P (f a b)) -> P a -> P (foldl f a l).
Proof.
  revert a. induction l as [|b l IH]; intros a Hf Ha; simpl; [done|].
  apply IH; [|apply Hf; [left|done]]. intros. apply Hf; [by right|done].
Qed.

Lemma ArrayContains_elem l x : ArrayContainsUint64 l x = true -> x ∈ l.
Proof. apply ArrayContainsUint64_spec. Qed.

(** ** The balance of the leaders *)

(** The leadership of [s] is to move to its replica [t]. *)
Record moved (cfg : CConfig) (ns : Slot) (s : Slot) (t : Z) : Prop := {
  moved_slot : s ∈ cc_Slots cfg;
  moved_is : ns = {| s with sl_MigrateFrom := sl_Leader s; sl_MigrateTo := t |};
  moved_idle : migrating s = false;
  moved_replica : t ∈ sl_Replicas s;
  moved_other : t <> sl_Leader s;
  moved_online : nodeOnline cfg (sl_Leader s) = true /\ nodeOnline cfg t = true
}.

Section Balance.
Context {R : MapRange} {RL : MapRangeLaws R}.

Lemma moveLeaders_moved cfg e i slots ec ic newSlots :
  i <> e -> nodeOnline cfg e = true -> nodeOnline cfg i = true ->
  (forall s, s ∈ slots -> s ∈ cc_Slots cfg) ->
  Forall (fun ns => exists s t, moved cfg ns s t) newSlots ->
  Forall (fun ns => exists s t, moved cfg ns s t) (snd (moveLeaders e i slots ec ic newSlots)).
Proof.
  intros Hne He Hi. revert ec ic newSlots.
  induction slots as [|s slots IH]; intros ec ic newSlots Hs Hn; simpl; [done|].
  assert (Hs' : forall s, s ∈ slots -> s ∈ cc_Slots cfg) by (intros; apply Hs; by right).
  destruct (migrating s) eqn:Em; [by apply IH|].
  destruct (Z.eqb_spec (sl_Leader s) e) as [El|]; [|by apply IH].
  destruct (ArrayContainsUint64 (sl_Replicas s) i) eqn:Ec; simpl; [|by apply IH].
  assert (Hn' : Forall (fun ns => exists s t, moved cfg ns s t)
                  (newSlots ++ [{| s with sl_MigrateFrom := e; sl_MigrateTo := i |}])).
  { apply Forall_app. split; [done|]. apply Forall_singleton. exists s, i. subst e.
    split; try done; [apply Hs; left|by apply ArrayContains_elem]. }
  destruct (_ || _); [done|]. by apply IH.
Qed.

(** No node is to give and to take leaders. *)
Lemma balanceQuotas_apart rc counts (m : gmap Z Z) exports imports :
  balanceQuotas rc counts (range 0 m) = Ok (exports, imports) ->
  forall k, is_Some (exports !! k) -> is_Some (imports !! k) -> False.
Proof.
  intros H.
  set (low k := exists sc avg, (k, sc) ∈ range 0 m /\ avgCount sc rc = Ok avg /\ avg < cnt counts k).
  set (high k := exists sc avg, (k, sc) ∈ range 0 m /\ avgCount sc rc = Ok avg /\ cnt counts k < avg).
  assert (Hq : forall k, (is_Some (exports !! k) -> low k) /\ (is_Some (imports !! k) -> high k)).
  { refine (rfold_ind (fun '(e, i) => forall k, (is_Some (e !! k) -> low k) /\ (is_Some (i !! k) -> high k))
      _ _ (∅, ∅) _ _ _ H).
    - intros [e i] [id sc] [e' i'] Hin IH. destruct (sc =? 0); [by intros [= <- <-]|].
      intros (avg & Ha & E)%res_bind_Ok. injection E as E.
      destruct (Z.ltb_spec avg (cnt counts id)); [|destruct (Z.ltb_spec (cnt counts id) avg)];
        injection E as <- <-; [| |done]; intros k; (split; [|try apply IH]); try apply IH;
        intros Hk; destruct (decide (id = k)) as [->|Hne]; try (by eexists _, _);
        rewrite lookup_insert_ne in Hk by done; by apply IH.
    - intros k. rewrite !lookup_empty. by split; intros [? ?]. }
  intros k He Hi. destruct (proj1 (Hq k) He) as (sc & avg & H1 & H2 & H3).
  destruct (proj2 (Hq k) Hi) as (sc' & avg' & H1' & H2' & H3').
  rewrite (range_perm 0 m) in H1, H1'. apply elem_of_map_to_list in H1, H1'.
  assert (sc = sc') as <- by congruence. assert (avg = avg') as <- by congruence. lia.
Qed.

Lemma autoBalance_moved cfg newSlots :
  autoBalanceSlotLeaders cfg = Ok newSlots -> Forall (fun ns => exists s t, moved cfg ns s t) newSlots.
Proof.
  unfold autoBalanceSlotLeaders. destruct (cc_Slots cfg) as [|first rest] eqn:Es; [by intros [= <-]|].
  rewrite <-Es. destruct (existsb _ _); [by intros [= <-]|].
  destruct (balanceCounts (cc_Slots cfg)) as [sc lc].
  intros ([e i] & Hq & E)%res_bind_Ok. injection E as <-.
  refine (foldl_ind (fun st => Forall (fun ns => exists s t, moved cfg ns s t) (snd st)) _ _ (O, []) _ _); [|constructor].
  intros [n acc] [en ec] Hen Hacc. simpl. destruct (ec =? 0); [done|].
  destruct (nodeOnline cfg en) eqn:Eo; [|done]. simpl.
  refine (foldl_ind (fun st => Forall (fun ns => exists s t, moved cfg ns s t) (snd st)) _ _ (ec, acc) _ _); [|done].
  intros [ec' acc'] [im ic] Him Hacc'. simpl. destruct (ic =? 0); [done|].
  destruct (nodeOnline cfg im) eqn:Ei; [|done]. simpl. apply moveLeaders_moved; try done.
  intros ->. rewrite (range_perm _ e) in Hen. rewrite (range_perm _ i) in Him.
  apply elem_of_map_to_list in Hen, Him. by eapply (balanceQuotas_apart _ _ _ _ _ Hq).
Qed.

(** It does not panic when the first slot has replicas. *)
Lemma autoBalance_ok cfg :
  (forall s, head (cc_Slots cfg) = Some s -> 0 < len (sl_Replicas s) < two32) ->
  is_Ok (autoBalanceSlotLeaders cfg).
Proof.
  intros H. unfold autoBalanceSlotLeaders. destruct (cc_Slots cfg) as [|first rest] eqn:Es; [by eexists|].
  specialize (H first eq_refl). rewrite <-Es. destruct (existsb _ _); [by eexists|].
  destruct (balanceCounts (cc_Slots cfg)) as [sc lc].
  assert (Hq : returns (balanceQuotas (u32 (len (sl_Replicas first))) lc (range 0 sc)) (fun _ => True)).
  { apply rfold_ok; [|done]. intros [e i] [id c] _ _. destruct (c =? 0); [by eexists|].
    unfold avgCount, udiv, umod. rewrite u32_small by (unfold is_u32; lia).
    destruct (Z.eqb_spec (len (sl_Replicas first)) 0); [lia|]. simpl. by eexists. }
  destruct Hq as ([e i] & -> & _). by eexists.
Qed.
End Balance.

(** ** The first configuration *)

(** A slot as it is made: a leader among as many distinct nodes as are configured
    or there are. *)
Record slot_initial (ids : list Z) (count : Z) (s : Slot) : Prop := {
  initial_leader : sl_Leader s ∈ sl_Replicas s;
  initial_nodup : NoDup (sl_Replicas s);
  initial_nodes : forall r, r ∈ sl_Replicas s -> r ∈ ids;
  initial_count : len (sl_Replicas s) = Z.min count (len ids);
  initial_rest : {| s with sl_Id := 0; sl_Leader := 0; sl_Replicas := [] |} = {| zeroSlot with sl_Term := 1 |}
}.

Lemma mod_inj (n o x y : nat) : (x < n)%nat -> (y < n)%nat -> ((o + x) mod n = (o + y) mod n)%nat -> x = y.
Proof.
  intros Hx Hy E. pose proof (Nat.div_mod_eq (o + x) n) as H1. pose proof (Nat.div_mod_eq (o + y) n) as H2.
  rewrite E in H1. set (q1 := ((o + x) / n)%nat) in *. set (q2 := ((o + y) / n)%nat) in *.
  assert (q1 = q2) as Hq; [|rewrite Hq in H1; lia]. clear E. clearbody q1 q2.
  destruct (Nat.lt_trichotomy q1 q2) as [?|[?|?]]; [|done|]; nia.
Qed.

Lemma nth_elem {A} (l : list A) i d : (i < length l)%nat -> nth i l d ∈ l.
Proof. intros H. rewrite list_elem_of_In. by apply nth_In. Qed.

Lemma initReplicas_spec ids count off :
  NoDup ids -> 0 < count -> ids <> [] ->
  let l := initReplicas ids count off in
  NoDup l /\ (forall r, r ∈ l -> r ∈ ids) /\ len l = Z.min count (len ids).
Proof.
  intros Hn Hc He. unfold initReplicas. destruct (Z.leb_spec (len ids) count); cbv zeta; [split_and!; [done..|lia]|].
  assert (Hpos : (0 < length ids)%nat) by (destruct ids; [done|simpl; lia]).
  split_and!.
  - apply NoDup_fmap_2_strong; [|apply NoDup_seq]. intros x y Hx Hy E. apply elem_of_seq in Hx, Hy.
    assert (Hm : forall z, ((off + z) mod length ids < length ids)%nat) by (intros; apply Nat.mod_upper_bound; lia).
    rewrite !nth_lookup in E.
    destruct (lookup_lt_is_Some_2 ids _ (Hm x)) as [a Ea]. destruct (lookup_lt_is_Some_2 ids _ (Hm y)) as [b Eb].
    rewrite Ea, Eb in E. simpl in E. subst b. pose proof (NoDup_lookup _ _ _ _ Hn Ea Eb) as Em.
    apply mod_inj in Em; lia.
  - intros r Hr. apply list_elem_of_fmap in Hr as (i & -> & _). apply nth_elem, Nat.mod_upper_bound. lia.
  - rewrite length_map, length_seq. lia.
Qed.

Lemma initSlot_ok rand ids count i :
  NoDup ids -> ids <> [] -> 0 < count -> (forall i n, 0 < n -> 0 <= rand i n < n) ->
  returns (initSlot rand ids count i) (fun s => sl_Id s = Z.of_nat i /\ slot_initial ids count s).
Proof.
  intros Hn He Hc Hr. unfold initSlot. destruct (initReplicas_spec ids count i Hn Hc He) as (H1 & H2 & H3).
  destruct (initReplicas ids count i) as [|r0 rs] eqn:E.
  { simpl in H3. destruct ids; [done|simpl in H3; lia]. }
  eexists. split; [done|]. split; [done|]. split; cbn [sl_Leader sl_Replicas]; try done.
  apply nth_elem. pose proof (Hr i (len (r0 :: rs)) ltac:(simpl; lia)). lia.
Qed.

Lemma rfold_app {A B} (f : A -> B -> res A) a l1 l2 :
  rfold f a (l1 ++ l2) = let! a := rfold f a l1 in rfold f a l2.
Proof. revert a. induction l1 as [|b l1 IH]; intros a; simpl; [done|]. destruct (f a b); simpl; auto. Qed.

Lemma initSlots_ok rand ids count n :
  NoDup ids -> ids <> [] -> 0 < count -> (forall i n, 0 < n -> 0 <= rand i n < n) ->
  returns (rfold (fun slots i => let! s := initSlot rand ids count i in Ok (slots ++ [s])) [] (seq 0 n))
    (fun slots => map sl_Id slots = map Z.of_nat (seq 0 n) /\ Forall (slot_initial ids count) slots).
Proof.
  intros Hn He Hc Hr. induction n as [|n IH]; [by eexists|].
  rewrite seq_S, rfold_app. eapply returns_bind; [exact IH|]. intros slots [H1 H2]. cbn [rfold].
  destruct (initSlot_ok rand ids count n Hn He Hc Hr) as (s & Es & H3 & H4). cbn [Nat.add]. rewrite Es. cbn [res_bind].
  eexists. split; [done|]. rewrite !map_app, H1. cbn [map]. rewrite H3. split; [done|].
  apply Forall_app. split; [done|]. by apply Forall_singleton.
Qed.

(** A leader that is moved at once is one of the replicas. *)
Lemma takeLeaders_ok cfg ids count newSlots :
  NoDup (map sl_Id (cc_Slots cfg)) -> Forall (slot_initial ids count) (cc_Slots cfg) ->
  Forall (fun ns => exists s t, moved cfg ns s t) newSlots ->
  map sl_Id (takeLeaders (cc_Slots cfg) newSlots) = map sl_Id (cc_Slots cfg) /\
  Forall (slot_initial ids count) (takeLeaders (cc_Slots cfg) newSlots).
Proof.
  intros Hn Hi Hm. unfold takeLeaders.
  set (same s s0 := sl_Id s = sl_Id s0 /\ sl_Replicas s = sl_Replicas s0 /\ s0 ∈ cc_Slots cfg).
  enough (H : map sl_Id (takeLeaders (cc_Slots cfg) newSlots) = map sl_Id (cc_Slots cfg) /\
              Forall (fun s => slot_initial ids count s /\ exists s0, same s s0) (takeLeaders (cc_Slots cfg) newSlots)).
  { destruct H as [H1 H2]. split; [done|]. eapply Forall_impl; [exact H2|]. by intros s [? _]. }
  apply (foldl_ind (fun l => map sl_Id l = map sl_Id (cc_Slots cfg) /\
           Forall (fun s => slot_initial ids count s /\ exists s0, same s s0) l)).
  2: { split; [done|]. rewrite Forall_forall in Hi |- *. intros s Hs. split; [auto|]. by exists s. }
  intros l ns Hns [H1 H2]. split.
  { rewrite upd_first_map; [done|]. intros s _. by destruct (_ && _). }
  apply upd_first_forall; [|done]. intros s Hs [Hsi (s0 & E1 & E2 & Hs0)].
  apply is_slot_id in Hs. rewrite Forall_forall in Hm.
  destruct (Hm ns Hns) as (s' & t & [Hs' -> _ Ht _ _]). cbn [sl_MigrateFrom sl_MigrateTo sl_Id] in *.
  destruct (_ && _); [|by split; [|exists s0]]. split; [|by exists s0].
  assert (s' = s0) as ->.
  { apply list_elem_of_lookup in Hs' as [i Hi'], Hs0 as [j Hj].
    assert (i = j) as ->; [|congruence]. eapply (NoDup_lookup _ _ _ (sl_Id s') Hn).
    - by rewrite list_lookup_fmap, Hi'.
    - rewrite list_lookup_fmap, Hj. simpl. congruence. }
  destruct Hsi as [_ ? ? ? ?]. split; cbn; try done. by rewrite E2.
Qed.

Section Init.
Context {R : MapRange} {RL : MapRangeLaws R}.

Lemma initNodes_ids opts now :
  NoDup (map nd_Id (initNodes opts now)) /\ map nd_Id (initNodes opts now) <> [] /\
  (forall id, id ∈ map nd_Id (initNodes opts now) <->
     if bool_decide (o_InitNodes opts = ∅) then id = o_NodeId opts else is_Some (o_InitNodes opts !! id)).
Proof.
  unfold initNodes. case_bool_decide as E; simpl.
  - split_and!; [apply NoDup_singleton|done|]. intros id. apply list_elem_of_singleton.
  - assert (Hids : map nd_Id (map (fun '(nodeId, addr) => initNode nodeId addr
        (if nodeId =? o_NodeId opts then o_ApiServerAddr opts else "") now) (range 0 (o_InitNodes opts))) =
      (range 0 (o_InitNodes opts)).*1).
    { rewrite map_map. apply map_ext. by intros []. }
    rewrite Hids. split_and!.
    + rewrite range_perm. apply NoDup_fst_map_to_list.
    + intros H0. apply E. apply map_eq. intros k. rewrite lookup_empty.
      destruct (o_InitNodes opts !! k) as [v|] eqn:Ek; [|done]. exfalso.
      apply elem_of_map_to_list in Ek. rewrite <-(range_perm 0) in Ek. apply (list_elem_of_fmap_2 fst) in Ek.
      rewrite H0 in Ek. by apply not_elem_of_nil in Ek.
    + intros id. rewrite list_elem_of_fmap. split.
      * intros ([k v] & -> & Hk). rewrite range_perm in Hk. apply elem_of_map_to_list in Hk. by eexists.
      * intros [v Hv]. exists (id, v). split; [done|]. rewrite range_perm. by apply elem_of_map_to_list.
Qed.

Lemma clusterInit_ok opts rand now :
  0 < o_SlotMaxReplicaCount opts < two32 -> (forall i n, 0 < n -> 0 <= rand i n < n) ->
  let ids := map nd_Id (initNodes opts now) in
  returns (handleClusterInit opts rand now) (fun cfg =>
    cc_Nodes cfg = initNodes opts now /\ cc_Learners cfg = [] /\ cc_MigrateTo cfg = 0 /\
    map sl_Id (cc_Slots cfg) = map Z.of_nat (seq 0 (Z.to_nat (o_SlotCount opts))) /\
    Forall (slot_initial ids (o_SlotMaxReplicaCount opts)) (cc_Slots cfg)).
Proof.
  intros Hc Hr ids. destruct (initNodes_ids opts now) as (Hn & He & _).
  unfold handleClusterInit. eapply returns_bind.
  { apply (initSlots_ok rand ids (o_SlotMaxReplicaCount opts)); [done..|lia|done]. }
  intros slots [H1 H2].
  set (cfg := {| zeroConfig with cc_SlotCount := o_SlotCount opts; cc_SlotReplicaCount := o_SlotMaxReplicaCount opts;
                  cc_ChannelReplicaCount := o_ChannelMaxReplicaCount opts;
                  cc_Nodes := initNodes opts now; cc_Slots := slots |}).
  assert (Hids : NoDup (map sl_Id (cc_Slots cfg))).
  { cbn. rewrite H1. apply NoDup_fmap_2; [apply _|apply NoDup_seq]. }
  destruct (autoBalance_ok cfg) as [newSlots Hb].
  { intros s Hs. cbn in Hs. destruct slots as [|s0 slots]; [done|]. injection Hs as <-.
    apply Forall_cons in H2 as [[_ _ _ Hl _] _]. rewrite Hl. fold ids in He. destruct ids; [done|]. simpl. lia. }
  cbn [res_bind]. fold cfg. rewrite Hb. cbn [res_bind].
  pose proof (takeLeaders_ok cfg ids _ newSlots Hids H2 (autoBalance_moved _ _ Hb)) as [H3 H4].
  eexists. split; [done|]. cbn in *. split_and!; try done. by rewrite H3.
Qed.
End Init.

(** ** A joining node *)

(** [ns] is [s] on its way to the node [j]. *)
Definition handed (slots : list Slot) (j : Z) (ns : Slot) : Prop :=
  exists s f, s ∈ slots /\ ns = migrateTo s f j /\ (f ∈ sl_Replicas s \/ f = sl_Leader s \/ f = j).

Definition given (id : Z) (l : list Slot) : Z := len (List.filter (fun s => sl_MigrateFrom s =? id) l).

Lemma given_app id l s : given id (l ++ [s]) = given id l + (if sl_MigrateFrom s =? id then 1 else 0).
Proof. unfold given. rewrite List.filter_app, length_app. simpl. destruct (_ =? id); simpl; lia. Qed.

Definition handing (slots : list Slot) (j : Z) (l : list Slot) : Prop :=
  Forall (handed slots j) l /\ NoDup (map sl_Id l).

Lemma handing_app slots j l s f :
  handing slots j l -> s ∈ slots -> (f ∈ sl_Replicas s \/ f = sl_Leader s \/ f = j) ->
  existsb (is_slot (sl_Id s)) l = false -> handing slots j (l ++ [migrateTo s f j]).
Proof.
  intros [H1 H2] Hs Hf He. split.
  - apply Forall_app. split; [done|]. apply Forall_singleton. by exists s, f.
  - rewrite map_app. apply NoDup_app. split; [done|]. split; [|apply NoDup_singleton].
    intros i Hi ->%list_elem_of_singleton. apply (existsb_ids sl_Id) in Hi. unfold is_slot in He. cbn in Hi. congruence.
Qed.

Lemma takeSlots_spec slots0 j n slots fc lc ms rest ms' :
  (forall s, s ∈ slots -> s ∈ slots0) -> 0 <= fc -> handing slots0 j ms ->
  takeSlots j n slots fc lc ms = (rest, ms') ->
  handing slots0 j ms' /\ 0 <= rest /\ given n ms' + rest = given n ms + fc /\
  (forall id, id <> n -> given id ms' = given id ms).
Proof.
  revert fc lc ms. induction slots as [|s slots IH]; intros fc lc ms Hs Hfc Hh; cbn [takeSlots].
  { by intros [= <- <-]. }
  assert (Hs' : forall s, s ∈ slots -> s ∈ slots0) by (intros; apply Hs; by right).
  assert (Hin : s ∈ slots0) by (apply Hs; left).
  destruct (existsb _ ms) eqn:Ex; [by apply IH|].
  destruct (Z.ltb_spec 0 fc); cbn [andb]; [|by apply IH].
  assert (Hstep : forall f lc', f = n -> (f ∈ sl_Replicas s \/ f = sl_Leader s \/ f = j) ->
    takeSlots j n slots (fc - 1) lc' (ms ++ [migrateTo s f j]) = (rest, ms') ->
    handing slots0 j ms' /\ 0 <= rest /\ given n ms' + rest = given n ms + fc /\
    (forall id, id <> n -> given id ms' = given id ms)).
  { intros f lc' -> Hf E. apply IH in E; [|done|lia|by apply handing_app].
    destruct E as (E1 & E2 & E3 & E4). split_and!; try done.
    - rewrite given_app in E3. cbn [sl_MigrateFrom migrateTo] in E3. rewrite Z.eqb_refl in E3. lia.
    - intros id Hid. rewrite E4, given_app by done. cbn [sl_MigrateFrom migrateTo].
      destruct (Z.eqb_spec n id); [congruence|lia]. }
  destruct (Z.ltb_spec 0 lc), (Z.eqb_spec (sl_Leader s) n) as [El|]; cbn [andb];
    try (apply Hstep; [done|by right; left]);
    (destruct (ArrayContainsUint64 (sl_Replicas s) n) eqn:Ec; [|by apply IH]);
    (apply Hstep; [done|left; by apply ArrayContains_elem]).
Qed.

Lemma foldl_take slots j fromLeaders nodes from ms :
  (forall id, 0 <= cnt from id) -> handing slots j ms ->
  let '(from', ms') := foldl (takeAllSlots j slots fromLeaders) (from, ms) nodes in
  handing slots j ms' /\ (forall id, 0 <= cnt from' id) /\
  (forall id, given id ms' + cnt from' id = given id ms + cnt from id).
Proof.
  revert from ms. induction nodes as [|n nodes IH]; intros from ms Hp Hh; cbn [foldl]; [done|].
  unfold takeAllSlots at 2. destruct (Z.eqb_spec (cnt from (nd_Id n)) 0); [by apply IH|].
  destruct (takeSlots _ _ _ _ _ _) as [rest ms1] eqn:E.
  apply (takeSlots_spec slots) in E as (H1 & H2 & H3 & H4); [|done..].
  assert (Hc : forall id, cnt (<[nd_Id n := rest]> from) id = if decide (nd_Id n = id) then rest else cnt from id).
  { intros id. unfold cnt. destruct (decide (nd_Id n = id)) as [<-|]; [by rewrite lookup_insert_eq|by rewrite lookup_insert_ne]. }
  specialize (IH (<[nd_Id n := rest]> from) ms1).
  destruct (foldl _ _ nodes) as [from' ms'].
  destruct IH as (I1 & I2 & I3); [intros id; rewrite Hc; by destruct (decide _)|done|].
  split_and!; try done. intros id. rewrite I3, Hc. destruct (decide (nd_Id n = id)) as [<-|]; [lia|by rewrite H4].
Qed.

Section Joining.
Context {R : MapRange} {RL : MapRangeLaws R}.

Lemma aboveAverage_spec avg (m : gmap Z Z) i id :
  cnt (aboveAverage avg (range i m)) id = Z.max 0 (cnt m id - avg) \/
  (m !! id = None /\ cnt (aboveAverage avg (range i m)) id = 0).
Proof.
  assert (H : forall (l : list (Z * Z)) (acc : gmap Z Z), NoDup l.*1 -> (forall k, k ∈ l.*1 -> acc !! k = None) ->
    forall k, foldl (fun m '(nodeId, count) => if avg <? count then <[nodeId := count - avg]> m else m) acc l !! k =
      match (list_to_map l : gmap Z Z) !! k with Some c => if avg <? c then Some (c - avg) else None | None => acc !! k end).
  { intros l. induction l as [|[k0 c0] l IH]; intros acc Hn Ha k; cbn [foldl]; [done|].
    apply NoDup_cons in Hn as [Hk Hn]. cbn [fst] in *. rewrite IH; [|done|].
    - cbn [list_to_map foldr]. destruct (decide (k0 = k)) as [->|Hne].
      + cbn [fst snd]. rewrite lookup_insert_eq. rewrite (not_elem_of_list_to_map_1 l k Hk).
        destruct (avg <? c0); [by rewrite lookup_insert_eq|]. apply Ha. left.
      + cbn [fst snd]. rewrite lookup_insert_ne by done. destruct ((list_to_map l : gmap Z Z) !! k); [done|].
        destruct (avg <? c0); [by rewrite lookup_insert_ne|done].
    - intros k' Hk'. destruct (avg <? c0); [|by apply Ha; right].
      rewrite lookup_insert_ne; [by apply Ha; right|]. by intros ->. }
  assert (Hnd : NoDup (range i m).*1) by (rewrite range_perm; apply NoDup_fst_map_to_list).
  unfold cnt at 1 3, aboveAverage. rewrite H; [|done|by intros].
  rewrite <-(list_to_map_proper (map_to_list m) (range i m)); [|apply NoDup_fst_map_to_list|by rewrite range_perm].
  rewrite list_to_map_to_list, lookup_empty. unfold cnt.
  destruct (m !! id) as [c|]; [left|by right]. simpl. destruct (Z.ltb_spec avg c); simpl; lia.
Qed.

Lemma aboveAverage_pos avg (m : gmap Z Z) i id : 0 <= cnt (aboveAverage avg (range i m)) id.
Proof. destruct (aboveAverage_spec avg m i id) as [->|[_ ->]]; lia. Qed.

(** The slots a joining node gets, and how many of each node. *)
Lemma joiningSlots_spec cfg j first ms :
  NoDup (map sl_Id (cc_Slots cfg)) -> joiningSlots cfg j first = Ok ms ->
  handing (cc_Slots cfg) j ms /\
  (cc_SlotReplicaCount cfg <= u32 (len (sl_Replicas first)) ->
   exists avg, avgCount (u32 (u32 (len (cc_Slots cfg)) * cc_SlotReplicaCount cfg)) (u32 (len (allowVoteNodes cfg))) = Ok avg /\
   forall id, given id ms <= Z.max 0 (cnt (snd (joinCounts j (cc_Slots cfg))) id - avg)).
Proof.
  intros Hn. unfold joiningSlots. destruct (Z.ltb_spec (u32 (len (sl_Replicas first))) (cc_SlotReplicaCount cfg)).
  { intros [= <-]. split; [|lia]. split.
    - apply Forall_forall. intros ns Hns. apply list_elem_of_fmap in Hns as (s & -> & Hs). exists s, j. auto.
    - rewrite map_map. exact Hn. }
  intros (avg & Ha & H')%res_bind_Ok. apply res_bind_Ok in H' as (avgL & _ & H').
  destruct (joinCounts j (cc_Slots cfg)) as [lc sc] eqn:Ej. injection H' as <-.
  pose proof (foldl_take (cc_Slots cfg) j (aboveAverage avgL (range 1 lc)) (allowVoteNodes cfg)
    (aboveAverage avg (range 0 sc)) [] (aboveAverage_pos avg sc 0)) as Hf.
  destruct (foldl _ _ _) as [from' ms']. destruct Hf as (H1 & H2 & H3); [by repeat constructor|].
  split; [done|]. intros _. exists avg. split; [done|]. intros id. specialize (H3 id). specialize (H2 id).
  cbn [snd given List.filter length] in *. destruct (aboveAverage_spec avg sc 0 id) as [E|[_ E]]; unfold given in *; simpl in *; lia.
Qed.

(** A slot that is handed to a node outside its replicas is well-formed. *)
Lemma handed_wf slots j ns :
  Forall slot_wf slots -> (forall s, s ∈ slots -> j ∉ sl_Replicas s) -> handed slots j ns -> slot_wf ns.
Proof.
  intros Hw Hj (s & f & Hs & -> & _). rewrite Forall_forall in Hw. destruct (Hw s Hs) as [H1 H2].
  specialize (Hj s Hs). split; cbn; set_solver.
Qed.
End Joining.

(** ** Nodes that come and go *)

(** The leadership of [s] returns to [nodeId]. *)
Definition returned (slots : list Slot) (nodeId : Z) (ns : Slot) : Prop :=
  exists s, s ∈ slots /\ ns = {| s with sl_MigrateFrom := sl_Leader s; sl_MigrateTo := nodeId |} /\
    nodeId ∈ sl_Replicas s /\ migrating s = false /\ sl_Leader s <> nodeId.

Lemma giveBack_spec slots0 nodeId from slots ec need new :
  (forall s, s ∈ slots -> s ∈ slots0) -> from <> nodeId -> 0 <= need -> Forall (returned slots0 nodeId) new ->
  let '(need', new') := giveBack nodeId from slots ec need new in
  Forall (returned slots0 nodeId) new' /\ 0 <= need' /\ len new' + need' = len new + need.
Proof.
  intros Hs Hne. revert ec need new. induction slots as [|s slots IH]; intros ec need new Hneed Hnew; cbn [giveBack]; [done|].
  assert (Hs' : forall s, s ∈ slots -> s ∈ slots0) by (intros; apply Hs; by right).
  destruct (Z.eqb_spec (sl_Leader s) from) as [El|]; cbn [andb]; [|by apply IH].
  destruct (0 <? ec); cbn [andb]; [|by apply IH].
  destruct (Z.ltb_spec 0 need); cbn [andb]; [|by apply IH].
  destruct (Z.eqb_spec (sl_MigrateFrom s) 0); cbn [andb]; [|by apply IH].
  destruct (Z.eqb_spec (sl_MigrateTo s) 0); cbn [andb]; [|by apply IH].
  destruct (ArrayContainsUint64 (sl_Replicas s) nodeId) eqn:Ec; [|by apply IH].
  specialize (IH Hs' (ec - 1) (need - 1) (new ++ [{| s with sl_MigrateFrom := from; sl_MigrateTo := nodeId |}]) ltac:(lia)).
  destruct (giveBack _ _ slots _ _ _) as [need' new']. rewrite length_app in IH. cbn [length] in IH.
  destruct IH as (I1 & I2 & I3); [|split_and!; [done..|lia]].
  apply Forall_app. split; [done|]. apply Forall_singleton. exists s. subst from.
  split_and!; [apply Hs; left|done|by apply ArrayContains_elem| |done].
  unfold migrating. rewrite e, e0. done.
Qed.

Lemma giveBackAll_spec nodeId avg slots counts need new :
  0 <= need -> Forall (returned slots nodeId) new ->
  Forall (returned slots nodeId) (giveBackAll nodeId avg slots counts need new) /\
  len (giveBackAll nodeId avg slots counts need new) <= len new + need.
Proof.
  revert need new. induction counts as [|[id c] counts IH]; intros need new Hn Hnew; cbn [giveBackAll]; [split; [done|lia]|].
  destruct (c <? avg); [by apply IH|]. destruct (Z.leb_spec need 0); [split; [done|lia]|].
  destruct (Z.eqb_spec id nodeId); [by apply IH|].
  pose proof (giveBack_spec slots nodeId id slots (c - avg) need new) as H1.
  destruct (giveBack _ _ _ _ _ _) as [need' new']. destruct H1 as (H1 & H2 & H3); [done..|].
  destruct (IH need' new' H2 H1) as [I1 I2]. split; [done|]. lia.
Qed.

(** [s], led by [nodeId], is to elect a leader. *)
Definition elected (nodeId : Z) (s ns : Slot) : Prop :=
  sl_Leader s = nodeId /\ migrating s = false /\ sl_Status s <> SlotStatusCandidate /\
  exists x, x <> nodeId /\ ns = {| s with sl_Status := SlotStatusCandidate; sl_ExpectLeader := x |}.

Section Online.
Context {R : MapRange} {RL : MapRangeLaws R}.

Lemma nextLeader_ne nodeId avg l x : nextLeader nodeId avg l = Some x -> x <> nodeId /\ exists c, (x, c) ∈ l /\ c <= avg.
Proof.
  induction l as [|[id c] l IH]; cbn [nextLeader]; [done|].
  assert (Hr : nextLeader nodeId avg l = Some x -> x <> nodeId /\ exists c0, (x, c0) ∈ (id, c) :: l /\ c0 <= avg).
  { intros H. destruct (IH H) as (? & c' & ? & ?). split; [done|]. exists c'. by split; [right|]. }
  destruct (Z.eqb_spec id nodeId); [done|]. destruct (Z.ltb_spec avg c); [done|]. intros [= <-].
  split; [done|]. exists c. by split; [left|].
Qed.

Lemma slotElections_spec nodeId avg slots i counts cur new :
  exists l, slotElections nodeId avg slots i counts cur new = new ++ l /\
    map sl_Id l `sublist_of` map sl_Id slots /\ Forall (fun ns => exists s, s ∈ slots /\ elected nodeId s ns) l.
Proof.
  revert i counts cur new. induction slots as [|s slots IH]; intros i counts cur new; cbn [slotElections].
  { exists []. by rewrite app_nil_r. }
  assert (Hskip : forall cur, exists l, slotElections nodeId avg slots (S i) counts cur new = new ++ l /\
    map sl_Id l `sublist_of` map sl_Id (s :: slots) /\
    Forall (fun ns => exists s0, s0 ∈ s :: slots /\ elected nodeId s0 ns) l).
  { intros cur'. destruct (IH (S i) counts cur' new) as (l & -> & H1 & H2). exists l. split_and!; [done|by apply sublist_cons|].
    eapply Forall_impl; [exact H2|]. intros ns (s' & ? & ?). exists s'. by split; [right|]. }
  destruct (Z.eqb_spec (sl_Leader s) nodeId) as [El|]; cbn [negb]; [|apply Hskip].
  destruct (cur <=? 0); [apply Hskip|].
  destruct (Z.eqb_spec (sl_MigrateFrom s) 0) as [Ef|]; cbn [andb]; [|apply Hskip].
  destruct (Z.eqb_spec (sl_MigrateTo s) 0) as [Et|]; cbn [andb]; [|apply Hskip].
  case_bool_decide as Es; cbn [negb]; [apply Hskip|].
  destruct (nextLeader _ _ _) as [x|] eqn:Ex; [|apply Hskip].
  destruct (IH (S i) (incr counts x) (cur - 1)
    (new ++ [{| s with sl_Status := SlotStatusCandidate; sl_ExpectLeader := x |}])) as (l & -> & H1 & H2).
  eexists (_ :: l). rewrite <-app_assoc. split_and!; [done|by apply sublist_skip|].
  constructor.
  - exists s. split; [left|]. split_and!; [done| |done|].
    + unfold migrating. by rewrite Ef, Et.
    + exists x. split; [apply (nextLeader_ne _ _ _ _ Ex)|done].
  - eapply Forall_impl; [exact H2|]. intros ns (s' & ? & ?). exists s'. by split; [right|].
Qed.

(** When a node leads every slot, there is no other node in the counts. *)
Lemma leaderCounts_dom slots k : is_Some (leaderCounts slots !! k) -> exists s, s ∈ slots /\ sl_Leader s = k.
Proof.
  unfold leaderCounts. revert k. apply (foldl_ind (fun m => forall k, is_Some (m !! k) -> exists s, s ∈ slots /\ sl_Leader s = k)).
  - intros m s Hs IH k. unfold incr. destruct (decide (sl_Leader s = k)) as [<-|Hne]; [by exists s|].
    rewrite lookup_insert_ne by done. apply IH.
  - intros k. rewrite lookup_empty. by intros [? ?].
Qed.

Lemma sole_leader_elections nodeId avg slots i counts cur new :
  (forall k, is_Some (counts !! k) -> k = nodeId) -> slotElections nodeId avg slots i counts cur new = new.
Proof.
  intros Hk. revert i cur. induction slots as [|s slots IH]; intros i cur; cbn [slotElections]; [done|].
  destruct (nextLeader nodeId avg (range i counts)) as [x|] eqn:Ex.
  - apply nextLeader_ne in Ex as (Hne & c & Hin & _). rewrite (range_perm i counts) in Hin.
    apply elem_of_map_to_list in Hin. exfalso. apply Hne, Hk. by eexists.
  - by repeat case_match.
Qed.

Lemma online_udiv cfg :
  0 < allowVoteAndJoinedOnlineNodeCount cfg < two32 ->
  udiv (cc_SlotCount cfg) (u32 (allowVoteAndJoinedOnlineNodeCount cfg)) =
    Ok (cc_SlotCount cfg / allowVoteAndJoinedOnlineNodeCount cfg).
Proof.
  intros H. unfold udiv. rewrite u32_small by (unfold is_u32; lia). by destruct (Z.eqb_spec (allowVoteAndJoinedOnlineNodeCount cfg) 0); [lia|].
Qed.
End Online.
