(* ===== verification/ClusterEventsProps.v ===== *)
(** * Properties of the events of the cluster configuration

    A round of events and a tick keep the invariant of the configuration and do not
    panic; the first configuration, the balance of the leaders and the slots of a
    joining node are what they should be; and three cases in which the slots are
    left as they are. *)

From S2P Require Import Prelude RaftTypes WkProto RaftCodec ClusterConfig ClusterConfigLaws ClusterCommands ClusterProps ClusterEvents ClusterEventsLaws.

(** ** The proposals are well-formed *)

Lemma moved_wf cfg ns s t : Forall slot_wf (cc_Slots cfg) -> moved cfg ns s t -> slot_wf ns.
Proof.
  intros Hw [Hs -> _ Ht _ _]. rewrite Forall_forall in Hw. destruct (Hw s Hs) as [H1 H2]. split; cbn; [done|].
  intros _. apply elem_of_app. by left.
Qed.

Lemma returned_wf slots id ns : Forall slot_wf slots -> returned slots id ns -> slot_wf ns.
Proof.
  intros Hw (s & Hs & -> & Hr & _). rewrite Forall_forall in Hw. destruct (Hw s Hs) as [H1 H2]. split; cbn; [done|].
  intros _. apply elem_of_app. by left.
Qed.

Lemma elected_wf id s ns : slot_wf s -> elected id s ns -> slot_wf ns.
Proof. intros [H1 H2] (_ & _ & _ & x & _ & ->). by split. Qed.

(** A handler proposes slots only when it has some. *)
Lemma some_slots (l : list Slot) (f : list Slot -> ccmd) cmd :
  match l with [] => None | _ => Some (f l) end = Some cmd -> cmd = f l.
Proof. destruct l; [done|]. by intros [= <-]. Qed.

Section Handlers.
Context {R : MapRange} {RL : MapRangeLaws R}.

Lemma balance_wf cfg cmd :
  config_wf cfg -> handleSlotLeaderAutoBalance cfg = Ok (Some cmd) -> cmd_wf cmd.
Proof.
  intros Hw. unfold handleSlotLeaderAutoBalance. destruct (existsb _ _); [done|]. destruct (existsb _ _); [done|].
  intros (l & Hl & E)%res_bind_Ok. injection E as E%some_slots. subst cmd.
  eapply Forall_impl; [by apply autoBalance_moved|]. intros ns (s & t & H). eapply moved_wf; [apply Hw|done].
Qed.

Lemma joining_wf cfg cmd :
  config_wf cfg -> (forall n s, n ∈ cc_Nodes cfg -> nd_Status n = NodeStatusJoining -> s ∈ cc_Slots cfg -> nd_Id n ∉ sl_Replicas s) ->
  handleNodeJoining cfg = Ok (Some cmd) ->
  cmd_wf cmd /\ exists id slots, cmd = CNodeJoined id slots /\ Forall (handed (cc_Slots cfg) id) slots.
Proof.
  intros Hw Hj. unfold handleNodeJoining. destruct (cc_Slots cfg) as [|first rest] eqn:Es; [done|].
  destruct (find _ _) as [n|] eqn:En; [|done]. apply find_some in En as [Hn Hst%bool_decide_eq_true].
  apply list_elem_of_In in Hn. rewrite <-Es in *.
  intros (l & Hl & E)%res_bind_Ok. injection E as E%(some_slots _ (CNodeJoined (nd_Id n))). subst cmd.
  apply joiningSlots_spec in Hl as [[Hh _] _]; [|apply Hw]. split; [|by eexists _, _].
  eapply Forall_impl; [exact Hh|]. intros ns. apply handed_wf; [apply Hw|]. intros s Hs. by apply Hj.
Qed.

Lemma onlineChange_wf cfg id b cmd :
  config_wf cfg -> handleSlotChangeByNodeOnlineStatus cfg id b = Ok (Some cmd) -> cmd_wf cmd.
Proof.
  intros Hw. unfold handleSlotChangeByNodeOnlineStatus. intros (l & Hl & E)%res_bind_Ok.
  injection E as E%some_slots. subst cmd. cbn [cmd_wf]. destruct b.
  - unfold slotsForOnline in Hl. apply res_bind_Ok in Hl as (avg & _ & Hl).
    destruct (Z.leb_spec avg (cnt (leaderCounts (cc_Slots cfg)) id)); injection Hl as <-; [constructor|].
    eapply Forall_impl; [apply giveBackAll_spec; [lia|constructor]|]. intros ns. apply returned_wf, Hw.
  - unfold slotsForOffline in Hl. apply res_bind_Ok in Hl as (avg & _ & Hl). injection Hl as <-.
    destruct (slotElections_spec id avg (cc_Slots cfg) 0 (leaderCounts (cc_Slots cfg))
      (cnt (leaderCounts (cc_Slots cfg)) id) []) as (l & -> & _ & Hf). cbn [app].
    eapply Forall_impl; [exact Hf|]. intros ns (s & Hs & He). eapply elected_wf; [|done].
    pose proof (wf_slot _ Hw) as Hws. rewrite Forall_forall in Hws. auto.
Qed.

(** *** A round *)

(** What a round of events needs of a configuration: voters, slots with replicas,
    and no joining node among them. *)
Record events_ready (c : CConfig) : Prop := {
  ready_voters : 0 < len (allowVoteNodes c) < two32;
  ready_slots : Forall (fun s => 0 < len (sl_Replicas s) < two32) (cc_Slots c);
  ready_joining n s : n ∈ cc_Nodes c -> nd_Status n = NodeStatusJoining -> s ∈ cc_Slots c -> nd_Id n ∉ sl_Replicas s
}.

Lemma filter_len {A} (p q : A -> bool) l l' : map p l = map q l' -> len (List.filter p l) = len (List.filter q l').
Proof.
  revert l'. induction l as [|x l IH]; intros [|y l'] E; try done. simpl in *. injection E as E1 E2. rewrite E1.
  specialize (IH l' E2). destruct (q y); simpl; lia.
Qed.

Lemma ready_transfer c d :
  map nd_AllowVote (cc_Nodes d) = map nd_AllowVote (cc_Nodes c) ->
  (forall n, n ∈ cc_Nodes d -> nd_Status n = NodeStatusJoining ->
     exists m, m ∈ cc_Nodes c /\ nd_Status m = NodeStatusJoining /\ nd_Id m = nd_Id n) ->
  (forall s, s ∈ cc_Slots d -> exists s', s' ∈ cc_Slots c /\ sl_Replicas s' = sl_Replicas s) ->
  events_ready c -> events_ready d.
Proof.
  intros Hv Hn Hs [H1 H2 H3]. split.
  - unfold allowVoteNodes in *. by rewrite (filter_len _ _ _ _ Hv).
  - apply Forall_forall. intros s (s' & Hs' & <-)%Hs. rewrite Forall_forall in H2. auto.
  - intros n s Hin Hst Hin'. destruct (Hn n Hin Hst) as (m & Hm & Hst' & <-). destruct (Hs s Hin') as (s' & Hs' & <-). by apply H3.
Qed.

Lemma upd_first_in {A} (p : A -> bool) f l x : x ∈ upd_first p f l -> x ∈ l \/ exists y, y ∈ l /\ x = f y.
Proof.
  induction l as [|y l IH]; simpl; [by left|]. destruct (p y); rewrite !elem_of_cons.
  - intros [->|]; [right; exists y; by split; [left|]|by left; right].
  - intros [->|[Hx|(z & Hz & ->)]%IH]; [by left; left|by left; right|right; exists z; by split; [right|]].
Qed.

Lemma api_ready c id addr : events_ready c -> events_ready (updateApiServerAddr c id addr).
Proof.
  apply ready_transfer; cbn.
  - by apply upd_first_map.
  - intros n [Hn|(y & Hy & ->)]%upd_first_in Hst; eauto.
  - intros s Hs. by exists s.
Qed.

Lemma putSlot_in slots ms s : s ∈ foldl putSlot slots ms -> s ∈ slots \/ s ∈ ms.
Proof.
  revert slots. induction ms as [|m ms IH]; intros slots; simpl; [by left|]. intros [H|H]%IH; [|by right; right].
  unfold putSlot in H. destruct (existsb _ slots).
  - apply upd_first_in in H as [H|(y & _ & ->)]; [by left|by right; left].
  - apply elem_of_app in H as [H| ->%list_elem_of_singleton]; [by left|by right; left].
Qed.

Lemma joined_ready c id slots :
  Forall (handed (cc_Slots c) id) slots -> events_ready c -> events_ready (updateNodeJoined c id slots).
Proof.
  intros Hh. apply ready_transfer; cbn.
  - by apply upd_first_map.
  - intros n [Hn|(y & Hy & ->)]%upd_first_in Hst; [by exists n|done].
  - intros s [Hs|Hs]%putSlot_in; [by exists s|]. rewrite Forall_forall in Hh.
    destruct (Hh s Hs) as (s' & f & Hs' & -> & _). by exists s'.
Qed.

(** Slots that change, but not their replicas. *)
Definition same_replicas (c : CConfig) (ns : Slot) : Prop := exists s, s ∈ cc_Slots c /\ sl_Replicas s = sl_Replicas ns.
Lemma slots_ready c slots : Forall (same_replicas c) slots -> events_ready c -> events_ready (updateSlots c slots).
Proof.
  intros Hs. apply ready_transfer; [done|by eauto|]. intros s Hin. cbn [updateSlots set_slots cc_Slots] in Hin.
  assert (Hor : s ∈ cc_Slots c \/ s ∈ slots).
  { clear Hs. revert Hin. generalize (cc_Slots c). induction slots as [|x slots IH]; intros l; cbn [foldl]; [by left|].
    intros [[H|(y & _ & ->)]%upd_first_in|H]%IH; [by left|by right; left|by right; right]. }
  destruct Hor as [H|H]; [by exists s|]. rewrite Forall_forall in Hs. by apply Hs.
Qed.

Lemma stamp_ready log c : events_ready c -> events_ready (stamp log c).
Proof. intros []. by split. Qed.

Lemma balance_ready c cmd now : handleSlotLeaderAutoBalance c = Ok (Some cmd) -> events_ready c -> events_ready (effect c cmd now).
Proof.
  unfold handleSlotLeaderAutoBalance. destruct (existsb _ _); [done|]. destruct (existsb _ _); [done|].
  intros (l & Hl & E)%res_bind_Ok. injection E as E%some_slots. subst cmd. apply slots_ready.
  eapply Forall_impl; [by apply autoBalance_moved|]. intros ns (s & t & [Hs -> _ _ _ _]). by exists s.
Qed.

Lemma avgCount_ok a b : 0 < b < two32 -> is_Ok (avgCount a (u32 b)).
Proof.
  intros H. unfold avgCount, udiv, umod. rewrite u32_small by (unfold is_u32; lia).
  destruct (Z.eqb_spec b 0); [lia|]. by eexists.
Qed.

Lemma joining_ok c : events_ready c -> is_Ok (handleNodeJoining c).
Proof.
  intros [Hv _ _]. unfold handleNodeJoining. destruct (cc_Slots c) as [|first rest] eqn:Es; [by eexists|].
  destruct (find _ _) as [n|]; [|by eexists]. unfold joiningSlots. rewrite Es.
  destruct (_ <? _); [by eexists|].
  destruct (avgCount_ok (u32 (u32 (len (first :: rest)) * cc_SlotReplicaCount c)) _ Hv) as [a ->].
  destruct (avgCount_ok (u32 (len (first :: rest))) _ Hv) as [b ->]. cbn [res_bind].
  destruct (joinCounts _ _). by eexists.
Qed.

Lemma balance_ok c : events_ready c -> is_Ok (handleSlotLeaderAutoBalance c).
Proof.
  intros [_ Hs _]. unfold handleSlotLeaderAutoBalance. destruct (existsb _ _); [by eexists|].
  destruct (existsb _ _); [by eexists|]. destruct (autoBalance_ok c) as [l ->]; [|by eexists].
  intros s E. rewrite Forall_forall in Hs. apply Hs. destruct (cc_Slots c); [done|]. injection E as <-. left.
Qed.
End Handlers.

(** ** Rounds and ticks *)

(** A proposal is applied with the log and at the time that [ok] says, or fails. *)
Definition proposes (ok : CServer -> ccmd -> option (Log * Z)) (s : CServer) (cmd : ccmd) : option CServer :=
  '(log, now) ← ok s cmd; Some (run1 s cmd log now).

Lemma run1_cfg s cmd log now : cs_cfg (run1 s cmd log now) = stamp log (effect (cs_cfg s) cmd now).
Proof. unfold run1. by destruct (switches cmd). Qed.

Lemma proposes_wf ok s cmd s' :
  proposes ok s cmd = Some s' -> cmd_wf cmd -> server_wf s -> server_wf s'.
Proof.
  unfold proposes. destruct (ok s cmd) as [[log now]|]; [|done]. intros [= <-]. apply run1_wf.
Qed.

Lemma proposes_cfg ok s cmd s' :
  proposes ok s cmd = Some s' -> exists log now, cs_cfg s' = stamp log (effect (cs_cfg s) cmd now).
Proof.
  unfold proposes. destruct (ok s cmd) as [[log now]|]; [|done]. intros [= <-]. exists log, now. apply run1_cfg.
Qed.

Lemma filter_true {A} (l : list A) : List.filter (fun _ => true) l = l.
Proof. induction l as [|x l IH]; [done|]. cbn. by rewrite IH. Qed.

Section Rounds.
Context {R : MapRange} {RL : MapRangeLaws R} (ok : CServer -> ccmd -> option (Log * Z)).

Lemma slot_initial_wf ids count s : slot_initial ids count s -> slot_wf s.
Proof.
  intros [_ _ _ _ H]. injection H as E1 E2 E3 E4 E5 E6. split; [rewrite E2; set_solver|by rewrite E4].
Qed.

Lemma initNodes_vote opts now n : n ∈ initNodes opts now -> nd_AllowVote n = true /\ nd_Status n = NodeStatusJoined.
Proof.
  unfold initNodes. case_bool_decide; [by intros ->%list_elem_of_singleton|]. intros ([id addr] & -> & _)%list_elem_of_fmap. done.
Qed.
Lemma initNodes_len opts now : Z.of_nat (size (o_InitNodes opts)) < two32 -> 0 < len (initNodes opts now) < two32.
Proof.
  intros Hs. split.
  - destruct (initNodes_ids opts now) as (_ & H & _). destruct (initNodes opts now); [done|]. cbn [length]. lia.
  - unfold initNodes. case_bool_decide; [done|]. rewrite length_map, (Permutation_length (range_perm 0 (o_InitNodes opts))), length_map_to_list.
    done.
Qed.
Lemma clusterInit_wf opts rand now :
  0 < o_SlotMaxReplicaCount opts < two32 -> (forall i n, 0 < n -> 0 <= rand i n < n) ->
  returns (handleClusterInit opts rand now) config_wf.
Proof.
  intros Hc Hr. destruct (clusterInit_ok opts rand now Hc Hr) as (cfg & -> & H1 & H2 & H3 & H4 & H5).
  eexists. split; [done|]. split.
  - rewrite H1. apply initNodes_ids.
  - rewrite H4. apply NoDup_fmap_2; [apply _|apply NoDup_seq].
  - rewrite H2. constructor.
  - rewrite H2. set_solver.
  - by rewrite H3.
  - eapply Forall_impl; [exact H5|]. apply slot_initial_wf.
Qed.
Lemma clusterInit_ready opts rand now cfg :
  0 < o_SlotMaxReplicaCount opts < two32 -> (forall i n, 0 < n -> 0 <= rand i n < n) -> Z.of_nat (size (o_InitNodes opts)) < two32 ->
  handleClusterInit opts rand now = Ok cfg -> events_ready cfg.
Proof.
  intros Hc Hr Hsize E. destruct (clusterInit_ok opts rand now Hc Hr) as (cfg' & E' & H1 & _ & _ & _ & H5). rewrite E in E'. injection E' as <-.
  pose proof (initNodes_len opts now Hsize) as Hlen. split.
  - unfold allowVoteNodes. rewrite H1, (filter_len _ (fun _ => true) _ (initNodes opts now)); [by rewrite filter_true|].
    apply map_ext_in. intros n Hn. by apply list_elem_of_In, initNodes_vote in Hn as [-> _].
  - eapply Forall_impl; [exact H5|]. intros s [_ _ _ El _]. rewrite El, length_map. lia.
  - intros n s Hn Hst. rewrite H1 in Hn. apply initNodes_vote in Hn as [_ Hn]. by rewrite Hst in Hn.
Qed.

(** What a round keeps: a configuration that is there is ready for the events. *)
Definition round_wf (s : CServer) : Prop :=
  server_wf s /\ (cs_inited s = true \/ cc_Nodes (cs_cfg s) <> [] -> events_ready (cs_cfg s)).
Lemma round_proposes cmd s s' : proposes ok s cmd = Some s' -> cmd_wf cmd -> server_wf s ->
  (forall now, events_ready (effect (cs_cfg s) cmd now)) -> round_wf s'.
Proof.
  intros E Hc Hs Hr. split; [by eapply proposes_wf|]. intros _. apply proposes_cfg in E as (log & now & ->). by apply stamp_ready.
Qed.

Lemma handleCompare_wf trim leaderId opts s :
  round_wf s -> round_wf (handleCompare (proposes ok) trim leaderId opts s) /\
    cs_inited (handleCompare (proposes ok) trim leaderId opts s) = true \/ handleCompare (proposes ok) trim leaderId opts s = s.
Proof.
  intros [Hs Hr]. unfold handleCompare. destruct (leaderId =? 0); [by right|]. case_bool_decide; [by right|].
  destruct (node _ _) as [n|] eqn:En; [|by right]. case_bool_decide; [by right|].
  destruct (proposes ok s _) as [s'|] eqn:E; [|by right]. left. split.
  - eapply round_proposes; [exact E|done|done|]. intros now. apply api_ready, Hr. right. unfold node in En. by destruct (cc_Nodes _).
  - unfold proposes in E. destruct (ok s _) as [[log now]|]; [|done]. by injection E as <-.
Qed.

(** A handler that proposes, and the rest of the round. *)
Lemma proposing_wf h s next :
  is_Ok (h (cs_cfg s)) -> server_wf s -> events_ready (cs_cfg s) ->
  (forall cmd, h (cs_cfg s) = Ok (Some cmd) -> cmd_wf cmd /\ forall now, events_ready (effect (cs_cfg s) cmd now)) ->
  (forall s', server_wf s' -> events_ready (cs_cfg s') -> returns (next s') round_wf) ->
  returns (proposing (proposes ok) h s next) round_wf.
Proof.
  intros [r Hr] Hs Hrd Hc Hn. unfold proposing. rewrite Hr. cbn [res_bind]. destruct r as [cmd|]; [|by apply Hn].
  destruct (Hc cmd Hr) as [H1 H2]. destruct (proposes ok s cmd) as [s'|] eqn:E; [|by exists s].
  apply Hn; [by eapply proposes_wf|]. apply proposes_cfg in E as (log & now & ->). by apply stamp_ready.
Qed.

Lemma round_ok elect trim rand now leaderId isLeader opts s :
  round_wf s -> 0 < o_SlotMaxReplicaCount opts < two32 -> (forall i n, 0 < n -> 0 <= rand i n < n) ->
  Z.of_nat (size (o_InitNodes opts)) < two32 ->
  (forall s, server_wf s -> events_ready (cs_cfg s) -> round_wf (handleSlotLeaderElection elect s)) ->
  returns (handleEvents (proposes ok) elect trim rand now leaderId isLeader opts s) round_wf.
Proof.
  intros Hs Ho Hrand Hsize He. unfold handleEvents. destruct (leaderId =? 0); [by exists s|].
  destruct (isLeader && negb (cs_inited s)) eqn:Ei.
  { destruct (clusterInit_wf opts rand now Ho Hrand) as (cfg & Ec & Hcfg). pose proof (clusterInit_ready opts rand now cfg Ho Hrand Hsize Ec) as Hrd.
    rewrite Ec. cbn [res_bind]. eexists. split; [done|].
    destruct (proposes ok s _) as [s'|] eqn:E; [|done]. eapply round_proposes; [exact E|done|apply Hs|done]. }
  pose proof (handleCompare_wf trim leaderId opts s Hs) as Hcmp. cbv zeta.
  assert (Hc : round_wf (handleCompare (proposes ok) trim leaderId opts s) /\
    (isLeader = true -> events_ready (cs_cfg (handleCompare (proposes ok) trim leaderId opts s)))).
  { destruct Hcmp as [[H1 H2]| ->]; [split; [done|intros _; apply H1; by left]|]. split; [done|]. intros ->. apply Hs. left.
    by destruct (cs_inited s). }
  revert Hc. generalize (handleCompare (proposes ok) trim leaderId opts s). clear s Hs Hcmp Ei. intros s [Hs Hr].
  destruct isLeader; [|by exists s]. specialize (Hr eq_refl). destruct Hs as [Hs _].
  apply proposing_wf; [by apply joining_ok|done|done| |].
  { intros cmd Hcmd. apply joining_wf in Hcmd as (Hcmd & id & slots & -> & Hh); [|apply Hs|apply Hr]. split; [done|].
    intros now'. by apply joined_ready. }
  intros s1 Hs1 Hr1. apply proposing_wf; [by apply balance_ok|done|done| |].
  { intros cmd Hcmd. split; [eapply balance_wf; [apply Hs1|done]|]. intros now'. by apply balance_ready. }
  intros s2 Hs2 Hr2. eexists. split; [done|]. by apply He.
Qed.
End Rounds.

(** *** Ticks *)

Lemma find_upd {A} (k : A -> Z) id f (l : list A) x :
  (forall a, k (f a) = k a) ->
  find (fun a => k a =? x) (upd_first (fun a => k a =? id) f l) =
    if decide (x = id) then f <$> find (fun a => k a =? x) l else find (fun a => k a =? x) l.
Proof.
  intros Hk. destruct (decide (x = id)) as [->|Hne].
  - induction l as [|a l IH]; simpl; [done|]. destruct (Z.eqb_spec (k a) id) as [E|]; simpl.
    + by rewrite Hk, E, Z.eqb_refl.
    + destruct (Z.eqb_spec (k a) id); [done|]. exact IH.
  - induction l as [|a l IH]; simpl; [done|]. destruct (Z.eqb_spec (k a) id) as [E|]; simpl.
    + rewrite Hk, E. destruct (Z.eqb_spec id x); [congruence|done].
    + by rewrite IH.
Qed.

Definition has_node (c : CConfig) (id : Z) : Prop := id ∈ map nd_Id (cc_Nodes c).

Lemma node_in c id : has_node c id -> exists n, find (is_node id) (cc_Nodes c) = Some n.
Proof.
  intros (n & -> & Hn)%list_elem_of_fmap. destruct (find (is_node (nd_Id n)) (cc_Nodes c)) as [m|] eqn:E; [by eauto|].
  exfalso. apply list_elem_of_In in Hn. pose proof (find_none _ _ E n Hn) as H. unfold is_node in H.
  by rewrite Z.eqb_refl in H.
Qed.

(** Being online after the command that says so. *)
Lemma online_effect c id b now log x : has_node c id ->
  nodeOnline (stamp log (effect c (COnlineStatus id b) now)) x = if decide (x = id) then b else nodeOnline c x.
Proof.
  intros Hid. unfold nodeOnline. cbn [effect stamp cc_Nodes updateNodeOnlineStatus set_nodes]. unfold is_node.
  rewrite (find_upd nd_Id) by (intros n; by destruct b).
  destruct (decide (x = id)) as [->|]; [|done]. destruct (node_in c id Hid) as [n E]. unfold is_node in E. rewrite E.
  simpl. by destruct b.
Qed.

(** The node that ticks votes and is online: there is a node to count. *)
Definition self_votes (opts : COptions) (c : CConfig) : Prop :=
  len (cc_Nodes c) < two32 /\
  exists n, find (is_node (o_NodeId opts)) (cc_Nodes c) = Some n /\ nd_AllowVote n = true /\ joined n = true /\ nd_Online n = true.

Lemma self_counts opts c : self_votes opts c -> 0 < allowVoteAndJoinedOnlineNodeCount c < two32.
Proof.
  intros (Hl & n & Hn & H1 & H2 & H3). unfold allowVoteAndJoinedOnlineNodeCount, allowVoteAndJoinedOnlineNodes.
  apply find_some in Hn as [Hn _].
  assert (Hin : In n (List.filter (fun n => nd_AllowVote n && joined n && nd_Online n) (cc_Nodes c))).
  { apply filter_In. by rewrite H1, H2, H3. }
  pose proof (List.filter_length_le (fun n => nd_AllowVote n && joined n && nd_Online n) (cc_Nodes c)).
  destruct (List.filter _ _) as [|m l]; [done|]. simpl in *. lia.
Qed.

Lemma self_online opts c id b now log :
  id <> o_NodeId opts -> self_votes opts c -> self_votes opts (stamp log (effect c (COnlineStatus id b) now)).
Proof.
  intros Hne (Hl & n & Hn & H). split.
  - cbn. rewrite <-(length_map nd_Id), upd_first_map, length_map; [done|]. intros x _. by destruct b.
  - exists n. split; [|done]. cbn [effect stamp cc_Nodes updateNodeOnlineStatus set_nodes]. unfold is_node in *.
    rewrite (find_upd nd_Id) by (intros m; by destruct b). by rewrite decide_False by congruence.
Qed.

Section Ticks.
Context {R : MapRange} {RL : MapRangeLaws R} (ok : CServer -> ccmd -> option (Log * Z)).

Lemma onlineChange_ok c id b :
  0 < allowVoteAndJoinedOnlineNodeCount c < two32 -> is_Ok (handleSlotChangeByNodeOnlineStatus c id b).
Proof.
  intros H. unfold handleSlotChangeByNodeOnlineStatus, slotsForOnline, slotsForOffline. rewrite online_udiv by done.
  cbn [res_bind]. destruct b; [destruct (_ <=? _)|]; by eexists.
Qed.

Lemma onlineChange_slots c id b cmd :
  handleSlotChangeByNodeOnlineStatus c id b = Ok (Some cmd) -> exists slots, cmd = CSlotUpdate slots.
Proof.
  unfold handleSlotChangeByNodeOnlineStatus. intros (l & _ & E)%res_bind_Ok. injection E as E%some_slots. by eexists.
Qed.

(** What a tick keeps, and the nodes of a server. *)
Definition tick_wf (opts : COptions) (s : CServer) : Prop := server_wf s /\ self_votes opts (cs_cfg s).

(** The status of a node is proposed, then the slots are changed. *)
Lemma handleOnlineStatus_spec opts s id b :
  id <> o_NodeId opts -> has_node (cs_cfg s) id -> tick_wf opts s ->
  returns (handleOnlineStatus (proposes ok) s id b) (fun s' =>
    tick_wf opts s' /\ map nd_Id (cc_Nodes (cs_cfg s')) = map nd_Id (cc_Nodes (cs_cfg s)) /\
    (forall x, nodeOnline (cs_cfg s') x =
       if decide (x = id /\ is_Some (ok s (COnlineStatus id b))) then b else nodeOnline (cs_cfg s) x)).
Proof.
  intros Hne Hin [Hw Hself]. unfold handleOnlineStatus.
  destruct (proposes ok s (COnlineStatus id b)) as [s1|] eqn:E1.
  2: { exists s. split_and!; try done. intros x. rewrite decide_False; [done|]. intros [_ [v Hv]].
       unfold proposes in E1. by rewrite Hv in E1; destruct v. }
  assert (Hs1 : is_Some (ok s (COnlineStatus id b))) by (unfold proposes in E1; by destruct (ok s _)).
  pose proof (proposes_wf _ _ _ _ E1 I Hw) as Hw1. apply proposes_cfg in E1 as (log & now & E1).
  assert (Hself1 : self_votes opts (cs_cfg s1)) by (rewrite E1; by apply self_online).
  assert (Hids : map nd_Id (cc_Nodes (cs_cfg s1)) = map nd_Id (cc_Nodes (cs_cfg s))).
  { rewrite E1. cbn. apply upd_first_map. intros n _. by destruct b. }
  assert (Hon : forall x, nodeOnline (cs_cfg s1) x =
    if decide (x = id /\ is_Some (ok s (COnlineStatus id b))) then b else nodeOnline (cs_cfg s) x).
  { intros x. rewrite E1, online_effect by done.
    destruct (decide (x = id)), (decide (_ /\ _)) as [[? ?]|Hn]; try done. exfalso. by apply Hn. }
  destruct (onlineChange_ok (cs_cfg s1) id b (self_counts _ _ Hself1)) as [r Hr]. rewrite Hr. cbn [res_bind].
  eexists. split; [done|]. destruct r as [cmd|]; [|done].
  pose proof (onlineChange_wf _ _ _ _ (server_cfg _ Hw1) Hr) as Hc. apply onlineChange_slots in Hr as [slots ->].
  destruct (proposes ok s1 _) as [s2|] eqn:E2; [|done].
  pose proof (proposes_wf _ _ _ _ E2 Hc Hw1) as Hw2. apply proposes_cfg in E2 as (log2 & now2 & E2).
  simpl. unfold tick_wf, self_votes, nodeOnline in *. rewrite E2.
  split; [split; [exact Hw2|exact Hself1]|split; [exact Hids|exact Hon]].
Qed.

(** The counts after a tick over the nodes with [ids]; after it the nodes that were
    heard of are online and the others are not, if the proposals are applied. *)
Record ticked (s : EServer) (ids : list Z) (s' : EServer) : Prop := {
  ticked_opts : es_opts s' = es_opts s;
  ticked_wf : tick_wf (es_opts s) (es_cfg s');
  ticked_ids : map nd_Id (cc_Nodes (cs_cfg (es_cfg s'))) = map nd_Id (cc_Nodes (cs_cfg (es_cfg s)));
  ticked_others id : id ∉ ids \/ id = o_NodeId (es_opts s) ->
    cnt (es_tickMap s') id = cnt (es_tickMap s) id /\
    nodeOnline (cs_cfg (es_cfg s')) id = nodeOnline (cs_cfg (es_cfg s)) id;
  ticked_nodes id : id ∈ ids -> id <> o_NodeId (es_opts s) ->
    cnt (es_tickMap s') id = cnt (es_tickMap s) id + 1 /\
    ((forall s cmd, is_Some (ok s cmd)) ->
     nodeOnline (cs_cfg (es_cfg s')) id = (cnt (es_tickMap s') id <? o_PongMaxTick (es_opts s)))
}.

Lemma ticked_trans s id ids s1 s2 :
  id ∉ ids -> ticked s [id] s1 -> ticked s1 ids s2 -> ticked s (id :: ids) s2.
Proof.
  intros Hid [A1 A2 A3 A4 A5] [B1 B2 B3 B4 B5]. rewrite A1 in *. split; [congruence|done|congruence|..].
  - intros x Hx. destruct (B4 x) as [-> ->]; [|apply A4]; set_solver.
  - intros x [->|Hx]%elem_of_cons Ho.
    + destruct (B4 id) as [-> ->]; [by left|]. by apply A5; [left|].
    + destruct (B5 x Hx Ho) as [E1 E2]. split; [|done]. rewrite E1.
      destruct (A4 x) as [-> _]; [|done]. left. intros ->%list_elem_of_singleton. done.
Qed.

(** One node whose count goes up and whose status is made to agree with it. *)
Lemma ticked_one s id c :
  id <> o_NodeId (es_opts s) -> tick_wf (es_opts s) c ->
  let tk := cnt (es_tickMap s) id + 1 in
  map nd_Id (cc_Nodes (cs_cfg c)) = map nd_Id (cc_Nodes (cs_cfg (es_cfg s))) ->
  (forall x, x <> id -> nodeOnline (cs_cfg c) x = nodeOnline (cs_cfg (es_cfg s)) x) ->
  ((forall s cmd, is_Some (ok s cmd)) -> nodeOnline (cs_cfg c) id = (tk <? o_PongMaxTick (es_opts s))) ->
  ticked s [id] {| s with es_tickMap := <[id := tk]> (es_tickMap s); es_cfg := c |}.
Proof.
  intros Hne Hw tk Hids Hoth Hown. split; try done; cbn; intros x Hx.
  - assert (x <> id) by (intros ->; destruct Hx as [Hx|]; [apply Hx; left|done]).
    split; [|by apply Hoth]. unfold cnt. by rewrite lookup_insert_ne.
  - apply list_elem_of_singleton in Hx as ->. intros _. unfold cnt at 1 3. by rewrite lookup_insert_eq.
Qed.

Lemma tickNodes_spec s nodes :
  tick_wf (es_opts s) (es_cfg s) -> NoDup (map nd_Id nodes) ->
  (forall id, id ∈ map nd_Id nodes -> has_node (cs_cfg (es_cfg s)) id) ->
  returns (tickNodes (proposes ok) s nodes) (ticked s (map nd_Id nodes)).
Proof.
  revert s. induction nodes as [|n nodes IH]; intros s Hw Hnd Hin; cbn [tickNodes].
  { exists s. split; [done|]. split; try done. intros id Hid. by apply not_elem_of_nil in Hid. }
  apply NoDup_cons in Hnd as [Hn Hnd].
  assert (Hh : has_node (cs_cfg (es_cfg s)) (nd_Id n)) by (apply Hin; left).
  assert (Hnext : forall s1, ticked s [nd_Id n] s1 -> returns (tickNodes (proposes ok) s1 nodes) (ticked s (map nd_Id (n :: nodes)))).
  { intros s1 H1. destruct (IH s1) as (s2 & -> & H2); [rewrite (ticked_opts _ _ _ H1); apply H1|done| |].
    - intros id Hid. unfold has_node. rewrite (ticked_ids _ _ _ H1). apply Hin. by right.
    - exists s2. split; [done|]. by eapply ticked_trans. }
  destruct (Z.eqb_spec (nd_Id n) (o_NodeId (es_opts s))) as [Eo|Hne].
  { apply Hnext. split; try done. intros id ->%list_elem_of_singleton. done. }
  set (tk := cnt (es_tickMap s) (nd_Id n) + 1). cbv zeta. cbn [es_opts es_cfg].
  assert (Hset : forall b, b = (tk <? o_PongMaxTick (es_opts s)) ->
    returns (let! c := handleOnlineStatus (proposes ok) (es_cfg s) (nd_Id n) b in
             tickNodes (proposes ok) {| s with es_tickMap := <[nd_Id n := tk]> (es_tickMap s); es_cfg := c |} nodes)
      (ticked s (map nd_Id (n :: nodes)))).
  { intros b Hb. destruct (handleOnlineStatus_spec (es_opts s) (es_cfg s) (nd_Id n) b Hne Hh Hw) as (c & -> & Hc1 & Hc2 & Hc3).
    cbn [res_bind]. apply Hnext, ticked_one; try done.
    - intros x Hx. rewrite Hc3, decide_False by (by intros [? _]). done.
    - intros Hok. by rewrite Hc3, decide_True. }
  assert (Hkeep : nodeOnline (cs_cfg (es_cfg s)) (nd_Id n) = (tk <? o_PongMaxTick (es_opts s)) ->
    returns (tickNodes (proposes ok) {| s with es_tickMap := <[nd_Id n := tk]> (es_tickMap s) |} nodes)
      (ticked s (map nd_Id (n :: nodes)))).
  { intros E. apply Hnext. by apply (ticked_one s (nd_Id n) (es_cfg s)). }
  destruct (Z.leb_spec (o_PongMaxTick (es_opts s)) tk), (Z.ltb_spec tk (o_PongMaxTick (es_opts s))),
    (nodeOnline (cs_cfg (es_cfg s)) (nd_Id n)); cbn [andb negb]; try lia; auto.
Qed.

(** A tick, also one that a stop cuts short. *)
Lemma tick_spec stopAt s : tick_wf (es_opts s) (es_cfg s) ->
  let nodes := cc_Nodes (cs_cfg (es_cfg s)) in
  returns (tick (proposes ok) stopAt true s) (ticked s (map nd_Id (match stopAt with Some k => take k nodes | None => nodes end))).
Proof.
  intros Hw nodes. assert (Hnd : NoDup (map nd_Id nodes)) by apply Hw. unfold tick. fold nodes.
  destruct stopAt as [k|]; apply tickNodes_spec; try done.
  - change (NoDup (nd_Id <$> take k nodes)). rewrite fmap_take. eapply sublist_NoDup; [exact Hnd|apply sublist_take].
  - intros id. change (id ∈ nd_Id <$> take k nodes -> has_node (cs_cfg (es_cfg s)) id). rewrite fmap_take.
    intros (i & Hi)%list_elem_of_lookup. apply lookup_take_Some in Hi as [Hi _]. by eapply list_elem_of_lookup_2.
Qed.
End Ticks.

(** ** A leader at work *)

(** A tick, with what becomes of its proposals; an event, after which the configuration is the
    one given; and a configuration that changes otherwise. *)
Inductive leader_item :=
| LTick (ok : CServer -> ccmd -> option (Log * Z))
| LEvent (e : Event) (c : CServer)
| LConfig (c : CServer).

Section Leading.
Context {R : MapRange} {RL : MapRangeLaws R}.

Definition lead_item (s : EServer) (it : leader_item) : res EServer :=
  match it with
  | LTick ok => tick (proposes ok) None true s
  | LEvent e c => Ok (eventStep (fun _ _ => c) (fun _ => true) s e)
  | LConfig c => Ok {| s with es_cfg := c |}
  end.
Fixpoint lead (s : EServer) (items : list leader_item) : res EServer :=
  match items with
  | [] => Ok s
  | it :: items => let! s := lead_item s it in lead s items
  end.

(** The node itself votes and is online, and the node [id] is there. *)
Definition leading (opts : COptions) (id : Z) (c : CServer) : Prop := tick_wf opts c /\ has_node (cs_cfg c) id.
Definition item_ok (opts : COptions) (id : Z) (it : leader_item) : Prop :=
  match it with
  | LTick _ => True
  | LEvent _ c | LConfig c => leading opts id c
  end.

(** A message by which the leader hears of [id]; the ticks among some items. *)
Definition hears (id : Z) (it : leader_item) : Prop :=
  match it with
  | LEvent e _ => ev_Type e = SyncReq /\ ev_From e = id
  | _ => False
  end.
#[global] Instance hears_dec id it : Decision (hears id it).
Proof. destruct it; apply _. Defined.
Definition is_tick (it : leader_item) : bool := match it with LTick _ => true | _ => false end.
Definition ticks (items : list leader_item) : Z := len (List.filter is_tick items).

(** When the last item is a tick whose proposals are applied, the node is online if and only
    if fewer than [PongMaxTick] ticks are counted. *)
Definition tracked (items : list leader_item) (id k : Z) (s : EServer) : Prop :=
  forall before ok, items = before ++ [LTick ok] -> (forall s cmd, is_Some (ok s cmd)) ->
    nodeOnline (cs_cfg (es_cfg s)) id = (k <? o_PongMaxTick (es_opts s)).

Lemma lead_app s items items' : lead s (items ++ items') = let! s := lead s items in lead s items'.
Proof.
  revert s. induction items as [|it items IH]; intros s; [done|]. cbn [app lead]. destruct (lead_item s it) as [s1| |]; [apply IH|done..].
Qed.

(** One item: what is counted for [id]. *)
Lemma lead_item_spec s id it : leading (es_opts s) id (es_cfg s) -> id <> o_NodeId (es_opts s) -> item_ok (es_opts s) id it ->
  returns (lead_item s it) (fun s' => es_opts s' = es_opts s /\ leading (es_opts s) id (es_cfg s') /\
    cnt (es_tickMap s') id = (if decide (hears id it) then 0 else cnt (es_tickMap s) id + (if is_tick it then 1 else 0)) /\
    tracked [it] id (cnt (es_tickMap s') id) s').
Proof.
  intros [Hw Hh] Hne Hit. destruct it as [ok|e c|c]; cbn [lead_item].
  - destruct (tick_spec ok None s Hw) as (s' & -> & Ht). exists s'. split; [done|]. destruct (ticked_nodes _ _ _ _ Ht id Hh Hne) as [E1 E2].
    split_and!; [apply Ht|split; [apply Ht|unfold has_node; rewrite (ticked_ids _ _ _ _ Ht); exact Hh]| |].
    + rewrite E1. by destruct (decide (hears id (LTick ok))).
    + intros before ok' E Hok. destruct before as [|x before]; [|by destruct before]. injection E as <-. rewrite (ticked_opts _ _ _ _ Ht). by apply E2.
  - eexists. split; [done|]. unfold eventStep. cbn [andb hears is_tick].
    split_and!; [by destruct (bool_decide _)|by destruct (bool_decide _)| |by intros [|x [|]] ok'].
    destruct (decide (_ /\ _)) as [[E1 E2]|Hn].
    + rewrite bool_decide_eq_true_2 by done. cbn. unfold cnt. by rewrite E2, lookup_insert_eq.
    + case_bool_decide as E; cbn; [|lia]. unfold cnt. rewrite lookup_insert_ne; [lia|]. intros E'. by apply Hn.
  - eexists. split; [done|]. split_and!; [done|done| |by intros [|x [|]] ok']. destruct (decide _) as [[]|]. cbn. lia.
Qed.

Lemma ticks_app items items' : ticks (items ++ items') = ticks items + ticks items'.
Proof. unfold ticks. rewrite List.filter_app, length_app. lia. Qed.

(** All items: while [id] is not heard of, its ticks are counted. *)
Lemma lead_spec s id items : leading (es_opts s) id (es_cfg s) -> id <> o_NodeId (es_opts s) -> Forall (item_ok (es_opts s) id) items ->
  returns (lead s items) (fun s' => es_opts s' = es_opts s /\ leading (es_opts s) id (es_cfg s') /\
    (Forall (fun it => ~ hears id it) items -> cnt (es_tickMap s') id = cnt (es_tickMap s) id + ticks items) /\
    tracked items id (cnt (es_tickMap s') id) s').
Proof.
  intros Hl Hne Hits. induction items as [|it items IH] using rev_ind.
  { exists s. split; [done|]. split_and!; [done|done|intros _; unfold ticks; cbn; lia|by intros [|] ok]. }
  apply Forall_app in Hits as [Hits [Hit _]%Forall_cons]. destruct (IH Hits) as (s1 & E1 & Eo & Hl1 & Hc1 & _).
  rewrite lead_app, E1. cbn [res_bind lead]. rewrite <-Eo in Hl1, Hne, Hit.
  destruct (lead_item_spec s1 id it Hl1 Hne Hit) as (s2 & -> & Eo2 & Hl2 & Hc2 & Ht). exists s2. split; [done|]. rewrite Eo in *.
  split_and!; [done|done| |].
  - intros [Hn [Hn1 _]%Forall_cons]%Forall_app. rewrite Hc2, Hc1, ticks_app by done. rewrite decide_False by done. unfold ticks. cbn.
    by destruct (is_tick it); cbn; lia.
  - intros before ok [_ [= ->]]%app_inj_2 Hok; [|done]. by apply (Ht [] ok).
Qed.
End Leading.

(** ** Theorems *)

(** An order of iteration, for the witnesses. *)
#[export] Instance listRange : MapRange := {| range V i m := map_to_list m |}.
#[export] Instance listRange_laws : MapRangeLaws listRange.
Proof. by split. Qed.

Module EventProps.
Import ClusterProps.ClusterProps.

Definition demo_opts : COptions :=
  mkCOptions 1 "a" "" {[1 := "a"; 2 := "b"; 3 := "c"]} 4 2 2 3.
Definition first_rand (i : nat) (n : Z) : Z := 0.

(** The first configuration of a cluster, for every order in which the nodes of
    the options are visited and every outcome of the random choices: the handler
    does not panic, the nodes are those of the options (or the node itself), there
    are as many slots as configured, numbered from 0, and each has a leader among
    its replicas, which are as many distinct nodes as configured, or all of them;
    the configuration satisfies the invariant. *)
Theorem cluster_init {R : MapRange} {RL : MapRangeLaws R} opts rand now :
  0 < o_SlotMaxReplicaCount opts < two32 -> (forall i n, 0 < n -> 0 <= rand i n < n) ->
  let ids := map nd_Id (initNodes opts now) in
  returns (handleClusterInit opts rand now) (fun cfg =>
    config_wf cfg /\ cc_Nodes cfg = initNodes opts now /\
    (forall id, id ∈ ids <-> if bool_decide (o_InitNodes opts = ∅) then id = o_NodeId opts
                             else is_Some (o_InitNodes opts !! id)) /\
    map sl_Id (cc_Slots cfg) = map Z.of_nat (seq 0 (Z.to_nat (o_SlotCount opts))) /\
    Forall (slot_initial ids (o_SlotMaxReplicaCount opts)) (cc_Slots cfg)).
Proof.
  intros Hc Hr ids. destruct (clusterInit_wf opts rand now Hc Hr) as (cfg & E & Hw).
  destruct (clusterInit_ok opts rand now Hc Hr) as (cfg' & E' & H1 & _ & _ & H2 & H3).
  exists cfg. rewrite E in E'. injection E' as <-. split_and!; try done. apply initNodes_ids.
Qed.

Lemma cluster_init_witness :
  returns (handleClusterInit demo_opts first_rand 7) (fun cfg =>
    map sl_Replicas (cc_Slots cfg) = [[3; 2]; [2; 1]; [1; 3]; [3; 2]] /\
    Forall (slot_initial [3; 2; 1] 2) (cc_Slots cfg)).
Proof.
  destruct (cluster_init demo_opts first_rand 7) as (cfg & E & _ & _ & _ & _ & H); [cbn; lia|intros; unfold first_rand; lia|].
  exists cfg. split; [done|]. split; [|exact H]. revert E. vm_compute. by intros [= <-].
Defined.

(** The balance of the leaders.  When the slots have replicas the handler
    does not panic, and every slot it changes is one of the configuration that is
    not on its way, whose leadership moves from its leader, which is online, to
    another of its replicas, which is online too.  The order in which maps are
    visited does not matter. *)
Theorem balance_moves_to_replicas {R : MapRange} {RL : MapRangeLaws R} cfg :
  Forall (fun s => 0 < len (sl_Replicas s) < two32) (cc_Slots cfg) ->
  returns (autoBalanceSlotLeaders cfg) (fun newSlots => Forall (fun ns => exists s t, moved cfg ns s t) newSlots).
Proof.
  intros Hs. destruct (autoBalance_ok cfg) as [l E].
  - intros s Hs'. rewrite Forall_forall in Hs. apply Hs. destruct (cc_Slots cfg); [done|]. injection Hs' as <-. left.
  - exists l. split; [done|]. by apply autoBalance_moved.
Qed.

(** Two slots, both led by node 1. *)
Definition lop_sided : CConfig :=
  {| demo_config with cc_Nodes := [demo_node 1; demo_node 2; demo_node 3];
       cc_Slots := [mkSlot 0 1 1 [1; 2] [] 0 0 0 SlotStatusNormal; mkSlot 1 1 1 [1; 3] [] 0 0 0 SlotStatusNormal] |}.

Lemma balance_moves_to_replicas_witness :
  returns (autoBalanceSlotLeaders lop_sided) (fun newSlots =>
    Forall (fun ns => exists s t, moved lop_sided ns s t) newSlots).
Proof. apply balance_moves_to_replicas. repeat constructor. Defined.

(** The balance moves too many leaders: node 1 leads one slot more than it should,
    and loses both, because the count of the leaders to give away is not looked at
    before the next node that takes one, and wraps around. *)
Lemma balance_exports_too_many :
  map (fun s => (sl_Id s, sl_MigrateFrom s, sl_MigrateTo s)) <$>
    (match autoBalanceSlotLeaders lop_sided with Ok l => Some l | _ => None end) =
  Some [(1, 1, 3); (0, 1, 2)].
Proof. by vm_compute. Qed.

(** The slots of a joining node.  Whatever the order of the maps, the slots
    handed to it are slots of the configuration, each once, and it becomes their
    learner; when the slots have all their replicas, a node gives away no more
    slots than it has above the average. *)
Theorem joining_takes_its_share {R : MapRange} {RL : MapRangeLaws R} cfg j first ms :
  config_wf cfg -> joiningSlots cfg j first = Ok ms ->
  (Forall (handed (cc_Slots cfg) j) ms /\ NoDup (map sl_Id ms) /\ Forall (fun s => j ∈ sl_Learners s) ms) /\
  (cc_SlotReplicaCount cfg <= u32 (len (sl_Replicas first)) ->
   exists avg,
     avgCount (u32 (u32 (len (cc_Slots cfg)) * cc_SlotReplicaCount cfg)) (u32 (len (allowVoteNodes cfg))) = Ok avg /\
     forall id, given id ms <= Z.max 0 (cnt (snd (joinCounts j (cc_Slots cfg))) id - avg)).
Proof.
  intros Hw E. apply joiningSlots_spec in E as [[H1 H2] H3]; [|apply Hw]. split_and!; try done.
  eapply Forall_impl; [exact H1|]. intros ns (s & f & _ & -> & _). cbn. apply elem_of_app. right.
  by apply list_elem_of_singleton.
Qed.

Definition joining_config : CConfig :=
  {| demo_config with cc_SlotReplicaCount := 2;
       cc_Nodes := [demo_node 1; demo_node 2; {| (demo_node 3) with nd_Status := NodeStatusJoining |}];
       cc_Slots := [demo_slot 0 1; demo_slot 1 2; demo_slot 2 1] |}.

Lemma joining_config_wf : config_wf joining_config.
Proof.
  split; cbn; [by apply (bool_decide_unpack _); vm_compute..| | |]; [set_solver|done|].
  rewrite !Forall_cons, Forall_nil. split_and!; split; set_solver.
Qed.

Lemma joining_takes_its_share_witness :
  returns (joiningSlots joining_config 3 (demo_slot 0 1)) (fun ms =>
    map (fun s => (sl_Id s, sl_MigrateFrom s)) ms = [(0, 1); (1, 2)] /\ NoDup (map sl_Id ms)).
Proof.
  destruct (joiningSlots joining_config 3 (demo_slot 0 1)) as [ms| |] eqn:E; [|by vm_compute in E..].
  exists ms. split; [done|]. split; [revert E; vm_compute; by intros [= <-]|].
  by apply (joining_takes_its_share joining_config 3 (demo_slot 0 1) ms joining_config_wf E).
Defined.

(** A node may never finish joining: with one slot of one replica nobody has a slot
    too many, nothing is proposed, and the node stays in the joining state, in which
    the leaders are not balanced either. *)
Lemma join_never_finishes :
  let cfg := {| joining_config with cc_SlotReplicaCount := 1; cc_Slots := [mkSlot 0 1 1 [1] [] 0 0 0 SlotStatusNormal] |} in
  handleNodeJoining cfg = Ok None /\ hasJoiningNode cfg = true /\ handleSlotLeaderAutoBalance cfg = Ok None.
Proof. by vm_compute. Qed.

Definition all_applied (s : CServer) (cmd : ccmd) : option (Log * Z) :=
  Some ({| EmptyLog with log_Index := cc_Version (cs_cfg s) + 1; log_Term := 1 |}, 100).

(** C34. The leader tracks who is alive. While a node leads, votes and is online itself,
    whatever ticks, events and changes of the configuration follow one another and whichever
    proposals fail, no tick panics, one that a stop cuts short included, and the invariant
    of the configuration is kept. For another node that is in the configuration all the
    time, the count is the number of ticks since the last synchronization request from it,
    or since the node began to count, if there was none; after a tick whose proposals are
    applied it is online exactly if this is fewer than [PongMaxTick]. (So a leader that has
    not counted a node before takes one that has long been silent as online for that many
    ticks.) *)
Theorem tick_tracks_liveness {R : MapRange} {RL : MapRangeLaws R} s id items :
  leading (es_opts s) id (es_cfg s) -> id <> o_NodeId (es_opts s) -> Forall (item_ok (es_opts s) id) items ->
  returns (lead s items) (fun s' =>
    server_wf (es_cfg s') /\
    (forall before it after, items = before ++ it :: after -> hears id it -> Forall (fun it => ~ hears id it) after ->
       cnt (es_tickMap s') id = ticks after /\ tracked after id (ticks after) s') /\
    (Forall (fun it => ~ hears id it) items -> es_tickMap s !! id = None ->
       cnt (es_tickMap s') id = ticks items /\ tracked items id (ticks items) s') /\
    forall ok k, returns (tick (proposes ok) (Some k) true s') (fun s2 => server_wf (es_cfg s2))).
Proof.
  intros Hl Hne Hits. destruct (lead_spec s id items Hl Hne Hits) as (s' & E & Eo & [Hw' Hh'] & Hc & Ht). exists s'. split; [done|].
  split_and!; [apply Hw'| | |].
  - intros before it after -> Hhe Hn. apply Forall_app in Hits as [Hb [Hit Ha]%Forall_cons].
    destruct (lead_spec s id before Hl Hne Hb) as (s1 & E1 & Eo1 & Hl1 & _). rewrite lead_app, E1 in E. cbn [res_bind lead] in E.
    rewrite <-Eo1 in Hl1, Hne, Hit, Ha. destruct (lead_item_spec s1 id it Hl1 Hne Hit) as (s2 & E2 & Eo2 & Hl2 & Hc2 & _).
    rewrite E2 in E. cbn [res_bind] in E. rewrite <-Eo2 in Hl2, Hne, Ha.
    destruct (lead_spec s2 id after Hl2 Hne Ha) as (s3 & E3 & _ & _ & Hc3 & Ht3). rewrite E3 in E. injection E as ->.
    rewrite decide_True in Hc2 by done. rewrite Hc3, Hc2 in Ht3 by done. rewrite Hc3, Hc2 by done. by split.
  - intros Hn H0. rewrite Hc in Ht |- * by done. assert (E0 : cnt (es_tickMap s) id = 0) by (unfold cnt; by rewrite H0). by rewrite E0 in *.
  - intros ok k. rewrite <-Eo in Hw'. destruct (tick_spec ok (Some k) s' Hw') as (s2 & -> & Ht2). exists s2. split; [done|]. apply Ht2.
Qed.

(** Node 2 is heard of once, then three ticks pass. *)
Definition sync2 : Event := {| emptyEvent with ev_Type := SyncReq; ev_From := 2 |}.
Definition leader1 : EServer := mkEServer demo_opts {[2 := 2; 3 := 0]} (mkCServer 1 joining_config true []).
Definition silent_run : list leader_item :=
  [LTick all_applied; LEvent sync2 (es_cfg leader1); LTick all_applied; LTick all_applied; LTick all_applied].

Lemma tick_tracks_liveness_witness :
  returns (lead leader1 silent_run) (fun s' =>
    cnt (es_tickMap s') 2 = 3 /\ nodeOnline (cs_cfg (es_cfg s')) 2 = (3 <? o_PongMaxTick demo_opts)).
Proof.
  assert (Hl : leading (es_opts leader1) 2 (es_cfg leader1)).
  { split; [split; [split; [apply joining_config_wf|constructor]|]|].
    - split; [by vm_compute|]. by exists (demo_node 1).
    - unfold has_node. apply (bool_decide_unpack _). by vm_compute. }
  destruct (tick_tracks_liveness leader1 2 silent_run) as (s' & E & _ & H & _).
  - exact Hl.
  - done.
  - repeat (apply Forall_cons_2; [first [exact I|exact Hl]|]). apply Forall_nil_2.
  - exists s'. split; [exact E|].
    destruct (H [LTick all_applied] (LEvent sync2 (es_cfg leader1)) [LTick all_applied; LTick all_applied; LTick all_applied]) as [H1 H2].
    + reflexivity.
    + split; reflexivity.
    + repeat (apply Forall_cons_2; [by intros []|]). apply Forall_nil_2.
    + split; [exact H1|]. assert (E' : es_opts s' = demo_opts) by (revert E; vm_compute; by intros [= <-]).
      rewrite <-E'. apply (H2 [LTick all_applied; LTick all_applied] all_applied); [done|]. by intros c cmd.
Defined.

(** The slots of a node that led them all are not given a new leader.  The
    handler chooses among the nodes that lead a slot: if the node that goes offline
    leads every slot, there is none, no election is proposed and the slots keep
    their offline leader, for every configuration. *)
Theorem sole_leader_not_replaced {R : MapRange} {RL : MapRangeLaws R} cfg id :
  0 < allowVoteAndJoinedOnlineNodeCount cfg < two32 -> (forall s, s ∈ cc_Slots cfg -> sl_Leader s = id) ->
  handleSlotChangeByNodeOnlineStatus cfg id false = Ok None.
Proof.
  intros Hc Hl. unfold handleSlotChangeByNodeOnlineStatus, slotsForOffline. rewrite online_udiv by done. cbn [res_bind].
  rewrite sole_leader_elections; [done|]. intros k (s & Hs & <-)%leaderCounts_dom. by apply Hl.
Qed.

Lemma sole_leader_not_replaced_witness :
  handleSlotChangeByNodeOnlineStatus (updateNodeOnlineStatus lop_sided 1 false 100) 1 false = Ok None.
Proof.
  apply sole_leader_not_replaced; [by vm_compute|]. intros s. cbn. rewrite !elem_of_cons.
  intros [->|[->|H]]; [done..|by apply not_elem_of_nil in H].
Defined.
End EventProps.
