(* ===== verification/WkTables.v ===== *)
(** * The tables of the database

    [pkg/wkdb/key/table.go]: every table has an identifier of two bytes, the
    lengths of its keys, and two bytes for each of its columns and indexes.  A
    field that the struct of a table does not have is 0 or empty here. *)

From Stdlib Require Import Strings.Byte.
From S2P Require Import Prelude RaftTypes WkProto KeyBytes.

(** [pkg/wkdb/key/table.go] [lines 10-15]

    The kinds of data in a table. *)
Inductive dataType := dataTypeTable | dataTypeIndex | dataTypeSecondIndex | dataTypeOther.

Definition dataType_byte (t : dataType) : byte :=
  match t with
  | dataTypeTable => x01
  | dataTypeIndex => x02
  | dataTypeSecondIndex => x03
  | dataTypeOther => x04
  end.

(** [[2]byte] *)
Abbreviation name2 := (byte * byte)%type.

Record Table := mkTable {
  t_Id : name2;
  t_Size : nat;
  t_IndexSize : nat;
  t_SecondIndexSize : nat;
  t_OtherIndexSize : nat;
  t_Column : list (string * name2);
  t_Index : list (string * name2);
  t_SecondIndex : list (string * name2);
  t_OtherIndex : list (string * name2)
}.
Definition noTable : Table := mkTable (x00, x00) 0 0 0 0 [] [] [] [].

(** A field of one of the inner structs. *)
Definition field (fields : list (string * name2)) (f : string) : name2 :=
  default (x00, x00) (snd <$> head (filter (fun p => p.1 = f) fields)).
Definition column (t : Table) (f : string) : name2 := field (t_Column t) f.
Definition index (t : Table) (f : string) : name2 := field (t_Index t) f.
Definition secondIndex (t : Table) (f : string) : name2 := field (t_SecondIndex t) f.

(** [pkg/wkdb/key/table.go] [lines 23-108] *)
Definition TableMessage : Table :=
  {| noTable with
     t_Id := (x01, x01);
     t_Size := (2 + 2 + 8 + 8 + 2)%nat;
     t_IndexSize := (2 + 2 + 2 + 8)%nat;
     t_SecondIndexSize := (2 + 2 + 2 + 8 + 16)%nat;
     t_Column :=
       [("Header", (x01, x01)); ("Setting", (x01, x02)); ("Expire", (x01, x03));
        ("MessageId", (x01, x04)); ("MessageSeq", (x01, x05)); ("ClientMsgNo", (x01, x06));
        ("Timestamp", (x01, x07)); ("ChannelId", (x01, x08)); ("ChannelType", (x01, x09));
        ("Topic", (x01, x0a)); ("FromUid", (x01, x0b)); ("Payload", (x01, x0c));
        ("Term", (x01, x0d)); ("StreamNo", (x01, x0e)); ("SearchOutbox", (x01, x0f))];
     t_Index := [("MessageId", (x01, x01))];
     t_SecondIndex :=
       [("FromUid", (x01, x01)); ("ClientMsgNo", (x01, x02)); ("Timestamp", (x01, x03));
        ("Channel", (x01, x04))] |}.

(** [pkg/wkdb/key/table.go] [lines 112-179] *)
Definition TableUser : Table :=
  {| noTable with
     t_Id := (x02, x01);
     t_Size := (2 + 2 + 8 + 2)%nat;
     t_IndexSize := (2 + 2 + 2 + 8)%nat;
     t_SecondIndexSize := (2 + 2 + 2 + 8 + 8)%nat;
     t_Column :=
       [("Uid", (x02, x01)); ("DeviceCount", (x02, x02));
        ("OnlineDeviceCount", (x02, x03)); ("ConnCount", (x02, x04));
        ("SendMsgCount", (x02, x05)); ("RecvMsgCount", (x02, x06));
        ("SendMsgBytes", (x02, x07)); ("RecvMsgBytes", (x02, x08));
        ("CreatedAt", (x02, x09)); ("UpdatedAt", (x02, x0a)); ("PluginNo", (x02, x0b))];
     t_Index := [("Uid", (x02, x01))];
     t_SecondIndex := [("CreatedAt", (x02, x01)); ("UpdatedAt", (x02, x02))] |}.

(** [pkg/wkdb/key/table.go] [lines 183-239] *)
Definition TableDevice : Table :=
  {| noTable with
     t_Id := (x03, x01);
     t_Size := (2 + 2 + 8 + 2)%nat;
     t_IndexSize := (2 + 2 + 2 + 8)%nat;
     t_SecondIndexSize := (2 + 2 + 2 + 8 + 8)%nat;
     t_Column :=
       [("Uid", (x03, x01)); ("Token", (x03, x02)); ("TokenVersion", (x03, x07));
        ("DeviceFlag", (x03, x03)); ("DeviceLevel", (x03, x04)); ("CreatedAt", (x03, x05));
        ("UpdatedAt", (x03, x06))];
     t_SecondIndex :=
       [("Uid", (x03, x01)); ("DeviceLevel", (x03, x02)); ("CreatedAt", (x03, x03));
        ("UpdatedAt", (x03, x04)); ("DeviceFlag", (x03, x05))] |}.

(** [pkg/wkdb/key/table.go] [lines 243-286] *)
Definition TableSubscriber : Table :=
  {| noTable with
     t_Id := (x04, x01);
     t_Size := (2 + 2 + 8 + 8 + 2)%nat;
     t_IndexSize := (2 + 2 + 2 + 8 + 8)%nat;
     t_SecondIndexSize := (2 + 2 + 2 + 8 + 8 + 8)%nat;
     t_Column := [("Uid", (x04, x01)); ("CreatedAt", (x04, x02)); ("UpdatedAt", (x04, x03))];
     t_Index := [("Uid", (x04, x01))];
     t_SecondIndex := [("CreatedAt", (x04, x01)); ("UpdatedAt", (x04, x02))] |}.

(** [pkg/wkdb/key/table.go] [lines 290-307] *)
Definition TableSubscriberChannelRelation : Table :=
  {| noTable with
     t_Id := (x05, x01);
     t_Size := (2 + 2 + 8 + 2)%nat;
     t_IndexSize := (2 + 2 + 2 + 8 + 8)%nat;
     t_Column := [("Channel", (x05, x01))] |}.

(** [pkg/wkdb/key/table.go] [lines 311-405] *)
Definition TableChannelInfo : Table :=
  {| noTable with
     t_Id := (x06, x01);
     t_Size := (2 + 2 + 8 + 2)%nat;
     t_IndexSize := (2 + 2 + 2 + 8)%nat;
     t_SecondIndexSize := (2 + 2 + 2 + 8 + 8)%nat;
     t_Column :=
       [("Id", (x06, x01)); ("ChannelId", (x06, x02)); ("ChannelType", (x06, x03));
        ("Ban", (x06, x04)); ("Large", (x06, x05)); ("Disband", (x06, x06));
        ("SubscriberCount", (x06, x07)); ("AllowlistCount", (x06, x08));
        ("DenylistCount", (x06, x09)); ("CreatedAt", (x06, x0a));
        ("UpdatedAt", (x06, x0b)); ("SendBan", (x06, x0c)); ("AllowStranger", (x06, x0d))];
     t_Index := [("Channel", (x06, x01))];
     t_SecondIndex :=
       [("Ban", (x06, x01)); ("Disband", (x06, x02)); ("SubscriberCount", (x06, x03));
        ("AllowlistCount", (x06, x04)); ("DenylistCount", (x06, x05));
        ("CreatedAt", (x06, x06)); ("UpdatedAt", (x06, x07)); ("SendBan", (x06, x08));
        ("AllowStranger", (x06, x09))] |}.

(** [pkg/wkdb/key/table.go] [lines 409-452] *)
Definition TableDenylist : Table :=
  {| noTable with
     t_Id := (x07, x01);
     t_Size := (2 + 2 + 8 + 8 + 2)%nat;
     t_IndexSize := (2 + 2 + 2 + 8 + 8)%nat;
     t_SecondIndexSize := (2 + 2 + 2 + 8 + 8 + 8)%nat;
     t_Column := [("Uid", (x07, x01)); ("CreatedAt", (x07, x02)); ("UpdatedAt", (x07, x03))];
     t_Index := [("Uid", (x07, x01))];
     t_SecondIndex := [("CreatedAt", (x07, x01)); ("UpdatedAt", (x07, x02))] |}.

(** [pkg/wkdb/key/table.go] [lines 456-499] *)
Definition TableAllowlist : Table :=
  {| noTable with
     t_Id := (x08, x01);
     t_Size := (2 + 2 + 8 + 8 + 2)%nat;
     t_IndexSize := (2 + 2 + 2 + 8 + 8)%nat;
     t_SecondIndexSize := (2 + 2 + 2 + 8 + 8 + 8)%nat;
     t_Column := [("Uid", (x08, x01)); ("CreatedAt", (x08, x02)); ("UpdatedAt", (x08, x03))];
     t_Index := [("Uid", (x08, x01))];
     t_SecondIndex := [("CreatedAt", (x08, x01)); ("UpdatedAt", (x08, x02))] |}.

(** [pkg/wkdb/key/table.go] [lines 503-567] *)
Definition TableConversation : Table :=
  {| noTable with
     t_Id := (x09, x01);
     t_Size := (2 + 2 + 8 + 8 + 2)%nat;
     t_IndexSize := (2 + 2 + 2 + 8 + 8)%nat;
     t_SecondIndexSize := (2 + 2 + 8 + 2 + 8 + 8)%nat;
     t_Column :=
       [("Uid", (x09, x01)); ("ChannelId", (x09, x02)); ("ChannelType", (x09, x03));
        ("Type", (x09, x04)); ("UnreadCount", (x09, x05)); ("ReadedToMsgSeq", (x09, x06));
        ("CreatedAt", (x09, x07)); ("UpdatedAt", (x09, x08));
        ("DeletedAtMsgSeq", (x09, x09))];
     t_Index := [("Channel", (x09, x01))];
     t_SecondIndex :=
       [("Type", (x09, x01)); ("CreatedAt", (x09, x02)); ("UpdatedAt", (x09, x03))] |}.

(** [pkg/wkdb/key/table.go] [lines 571-577] *)
Definition TableMessageNotifyQueue : Table :=
  {| noTable with
     t_Id := (x0a, x01);
     t_Size := (2 + 2 + 8)%nat |}.

(** [pkg/wkdb/key/table.go] [lines 581-669] *)
Definition TableChannelClusterConfig : Table :=
  {| t_Id := (x0b, x01);
     t_Size := (2 + 2 + 8 + 2)%nat;
     t_IndexSize := (2 + 2 + 2 + 8 + 8)%nat;
     t_SecondIndexSize := (2 + 2 + 2 + 8 + 8)%nat;
     t_OtherIndexSize := (2 + 2 + 2 + 8 + 8)%nat;
     t_Index := [("Channel", (x00, x00))];
     t_SecondIndex :=
       [("LeaderId", (x0b, x01)); ("CreatedAt", (x0b, x02)); ("UpdatedAt", (x0b, x03))];
     t_OtherIndex := [("LeaderId", (x0b, x01))];
     t_Column :=
       [("ChannelId", (x0b, x01)); ("ChannelType", (x0b, x02));
        ("ReplicaMaxCount", (x0b, x03)); ("Replicas", (x0b, x04));
        ("Learners", (x0b, x05)); ("LeaderId", (x0b, x06)); ("Term", (x0b, x07));
        ("MigrateFrom", (x0b, x08)); ("MigrateTo", (x0b, x09)); ("Status", (x0b, x0a));
        ("ConfVersion", (x0b, x0b)); ("Version", (x0b, x0c)); ("CreatedAt", (x0b, x0d));
        ("UpdatedAt", (x0b, x0e))] |}.

(** [pkg/wkdb/key/table.go] [lines 673-679] *)
Definition TableLeaderTermSequence : Table :=
  {| noTable with
     t_Id := (x0c, x01);
     t_Size := (2 + 2 + 8 + 4)%nat |}.

(** [pkg/wkdb/key/table.go] [lines 683-697] *)
Definition TableChannelCommon : Table :=
  {| noTable with
     t_Id := (x0d, x01);
     t_Size := (2 + 2 + 8 + 2)%nat;
     t_Column := [("AppliedIndex", (x0d, x01))] |}.

(** [pkg/wkdb/key/table.go] [lines 701-733] *)
Definition TableTotal : Table :=
  {| noTable with
     t_Id := (x0f, x01);
     t_Size := (2 + 2 + 8 + 2)%nat;
     t_Column :=
       [("User", (x0f, x01)); ("Device", (x0f, x02)); ("Session", (x0f, x03));
        ("Conversation", (x0f, x04)); ("Message", (x0f, x05)); ("Channel", (x0f, x06));
        ("ChannelClusterConfig", (x0f, x07))] |}.

(** [pkg/wkdb/key/table.go] [lines 737-751] *)
Definition TableSystemUid : Table :=
  {| noTable with
     t_Id := (x10, x01);
     t_Size := (2 + 2 + 8 + 2)%nat;
     t_Column := [("Uid", (x10, x01))] |}.

(** [pkg/wkdb/key/table.go] [lines 756-760] *)
Definition TableConversationLocalUser : Table :=
  {| noTable with
     t_Id := (x13, x01) |}.

(** [pkg/wkdb/key/table.go] [lines 764-787] *)
Definition TableTester : Table :=
  {| noTable with
     t_Id := (x14, x01);
     t_Size := (2 + 2 + 8 + 2)%nat;
     t_Column :=
       [("No", (x14, x01)); ("Addr", (x14, x02)); ("CreatedAt", (x14, x03));
        ("UpdatedAt", (x14, x04))] |}.

(** [pkg/wkdb/key/table.go] [lines 791-832] *)
Definition TablePlugin : Table :=
  {| noTable with
     t_Id := (x15, x01);
     t_Size := (2 + 2 + 8 + 2)%nat;
     t_Column :=
       [("No", (x15, x01)); ("Name", (x15, x02)); ("ConfigTemplate", (x15, x03));
        ("CreatedAt", (x15, x04)); ("UpdatedAt", (x15, x05)); ("Status", (x15, x06));
        ("Version", (x15, x07)); ("Methods", (x15, x08)); ("Priority", (x15, x09));
        ("Config", (x15, x0a))] |}.

(** [pkg/wkdb/key/table.go] [lines 837-873] *)
Definition TablePluginUser : Table :=
  {| noTable with
     t_Id := (x16, x01);
     t_Size := (2 + 2 + 8 + 2)%nat;
     t_SecondIndexSize := (2 + 2 + 2 + 8 + 8)%nat;
     t_Column :=
       [("PluginNo", (x16, x01)); ("Uid", (x16, x02)); ("CreatedAt", (x16, x03));
        ("UpdatedAt", (x16, x04))];
     t_SecondIndex := [("Uid", (x16, x01)); ("PluginNo", (x16, x02))] |}.

(** [pkg/wkdb/key/table.go] [lines 877-897] *)
Definition TableMessageEvent : Table :=
  {| noTable with
     t_Id := (x18, x01);
     t_IndexSize := (2 + 2 + 2 + 8 + 8 + 8)%nat;
     t_Index :=
       [("ClientSeq", (x18, x01)); ("ClientKeySeq", (x18, x02)); ("EventID", (x18, x03))] |}.

(** [pkg/wkdb/key/table.go] [lines 901-907] *)
Definition TableMessageEventState : Table :=
  {| noTable with
     t_Id := (x19, x01);
     t_Size := (2 + 2 + 8 + 8 + 8)%nat |}.

(** [pkg/wkdb/key/table.go] [lines 911-917] *)
Definition TableMessageEventSeq : Table :=
  {| noTable with
     t_Id := (x1a, x01);
     t_Size := (2 + 2 + 8 + 8)%nat |}.

(** [pkg/wkdb/key/table.go] [lines 919-923] *)
Definition TableSearchOutbox : Table :=
  {| noTable with
     t_Id := (x1b, x01) |}.

(** [pkg/wkdb/key/search_outbox_quarantine.go] [TableSearchOutboxQuarantine] *)
Definition TableSearchOutboxQuarantine : Table := {| noTable with t_Id := (x1c, x01) |}.
(** [pkg/wkdb/key/search_outbox_quarantine.go] [TableSearchOutboxState] *)
Definition TableSearchOutboxState : Table := {| noTable with t_Id := (x1d, x01) |}.

Definition tables : list Table :=
  [TableMessage; TableUser; TableDevice; TableSubscriber; TableSubscriberChannelRelation;
   TableChannelInfo; TableDenylist; TableAllowlist; TableConversation; TableMessageNotifyQueue;
   TableChannelClusterConfig; TableLeaderTermSequence; TableChannelCommon; TableTotal;
   TableSystemUid; TableConversationLocalUser; TableTester; TablePlugin; TablePluginUser;
   TableMessageEvent; TableMessageEventState; TableMessageEventSeq; TableSearchOutbox;
   TableSearchOutboxQuarantine; TableSearchOutboxState].

(** The identifiers are distinct, and so are the columns and the indexes of a
    table. *)
Lemma tables_distinct : NoDup (t_Id <$> tables).
Proof. decide_goal. Qed.

Lemma columns_distinct :
  Forall (fun t => NoDup (t_Column t).*2 /\ NoDup (t_Index t).*2 /\ NoDup (t_SecondIndex t).*2) tables.
Proof. decide_goal. Qed.
