(* ===== verification/WkKey.v ===== *)
(** * The keys of the database

    [pkg/wkdb/key/key.go]: every key starts with the identifier of its table, the
    kind of data and a zero byte; then come fixed-width fields.  The functions
    are the writes of the source to a slice of the length of the source. *)

From Stdlib Require Import Strings.Byte.
From S2P Require Import Prelude RaftTypes WkProto KeyBytes WkTables.

(** ** Helpers *)

Definition MaxUint64 : Z := 18446744073709551615.
Definition MaxUint32 : Z := 4294967295.
Definition MaxInt64 : Z := 9223372036854775807.

(** [pkg/wkdb/key/key.go] [MinColumnKey] *)
Definition MinColumnKey : name2 := (x00, x00).
(** [pkg/wkdb/key/key.go] [MaxColumnKey] *)
Definition MaxColumnKey : name2 := (xff, xff).

(** The first four writes of every function. *)
Definition header (t : Table) (dt : dataType) : list write :=
  [WByte 0 (t_Id t).1; WByte 1 (t_Id t).2; WByte 2 (dataType_byte dt); WByte 3 x00].

(** [binary.BigEndian.Uint64(key[i:])] and the like, and [key[i]]. *)
Definition read_uint (width i : nat) (key : bytes) : res Z :=
  if (i + width <=? length key)%nat then Ok (be_val (take width (drop i key))) else Panic.
Definition read_byte (i : nat) (key : bytes) : res byte :=
  match key !! i with
  | Some b => Ok b
  | None => Panic
  end.

(** [pkg/wkdb/key/key.go] [HashWithString] *)
Definition HashWithString (s : string) : Z := fnv64a (str_bytes s).

(** [pkg/wkdb/key/key.go] [ChannelKey] *)
Definition ChannelKey (channelId : string) (channelType : Z) : string :=
  channelId +:+ "-" +:+ FormatInt channelType.

(** [pkg/wkdb/key/key.go] [channelToNum] *)
Definition channelToNum (channelId : string) (channelType : Z) : Z :=
  fnv64a (str_bytes (ChannelKey channelId channelType)).

(** [pkg/wkdb/key/key.go] [ChannelToNum] *)
Definition ChannelToNum (channelId : string) (channelType : Z) : Z :=
  channelToNum channelId channelType.

(** [pkg/wkdb/key/key.go] [ChannelHash] *)
Definition ChannelHash (channelId : string) (channelType : Z) : Z :=
  HashWithString (channelId +:+ ":" +:+ FormatInt channelType).

(** [strings.TrimSpace(s) == ""]: every rune is a space of Unicode. *)
Fixpoint blank (s : bytes) : bool :=
  match s with
  | [] => true
  | (x09 | x0a | x0b | x0c | x0d | x20) :: s => blank s
  | xc2 :: (x85 | xa0) :: s => blank s
  | xe1 :: x9a :: x80 :: s => blank s
  | xe2 :: x80 :: b :: s =>
      (between 128 138 b || between 168 169 b || between 175 175 b) && blank s
  | xe2 :: x81 :: x9f :: s => blank s
  | xe3 :: x80 :: x80 :: s => blank s
  | _ => false
  end.

(** ** Tables with keys of a fixed length *)

(** [pkg/wkdb/key/key.go] [NewMessageColumnKey] *)
Definition NewMessageColumnKey (channelId : string) (channelType messageSeq : Z)
    (columnName : name2)
  : res bytes :=
  make (t_Size TableMessage) (header TableMessage dataTypeTable ++
    [WUint 8 4 (channelToNum channelId channelType); WUint 8 12 messageSeq;
     WByte 20 columnName.1; WByte 21 columnName.2]).

(** [pkg/wkdb/key/key.go] [NewMessageColumnKeyWithPrimary] *)
Definition NewMessageColumnKeyWithPrimary (primary : bytes) (columnName : name2) : res bytes :=
  make (t_Size TableMessage) (header TableMessage dataTypeTable ++
    [WCopy 4 primary; WByte 20 columnName.1; WByte 21 columnName.2]).

(** [pkg/wkdb/key/key.go] [NewMessagePrimaryKey] *)
Definition NewMessagePrimaryKey (channelId : string) (channelType messageSeq : Z) : res bytes :=
  make 20 (header TableMessage dataTypeTable ++
    [WUint 8 4 (channelToNum channelId channelType); WUint 8 12 messageSeq]).

(** [pkg/wkdb/key/key.go] [NewMessageLowKey] *)
Definition NewMessageLowKey : res bytes :=
  make 12 (header TableMessage dataTypeTable ++
    [WUint 8 4 0; WUint 8 12 0]).

(** [pkg/wkdb/key/key.go] [NewMessageHighKey] *)
Definition NewMessageHighKey : res bytes :=
  make 12 (header TableMessage dataTypeTable ++
    [WUint 8 4 MaxUint64; WUint 8 12 MaxUint64]).

(** [pkg/wkdb/key/key.go] [NewChannelLastMessageSeqKey] *)
Definition NewChannelLastMessageSeqKey (channelId : string) (channelType : Z) : res bytes :=
  make 12 (header TableMessage dataTypeOther ++
    [WUint 8 4 (channelToNum channelId channelType)]).

(** [pkg/wkdb/key/key.go] [ParseMessageColumnKey] *)
Definition ParseMessageColumnKey (key : bytes) : res (option (Z * name2)) :=
  if negb (length key =? t_Size TableMessage)%nat then Ok None
  else
    let! messageSeq := read_uint 8 12 key in
    let! columnName0 := read_byte 20 key in
    let! columnName1 := read_byte 21 key in
    Ok (Some (messageSeq, (columnName0, columnName1))).

(** [pkg/wkdb/key/key.go] [NewMessageIndexMessageIdKey] *)
Definition NewMessageIndexMessageIdKey (messageId : Z) : res bytes :=
  make (t_IndexSize TableMessage) (header TableMessage dataTypeIndex ++
    [WByte 4 (index TableMessage "MessageId").1; WByte 5 (index TableMessage "MessageId").2;
     WUint 8 6 messageId]).

(** [pkg/wkdb/key/key.go] [NewMessageSecondIndexFromUidKey] *)
Definition NewMessageSecondIndexFromUidKey (uid : string) (primaryKey : bytes) : res bytes :=
  make (t_SecondIndexSize TableMessage) (header TableMessage dataTypeSecondIndex ++
    [WByte 4 (secondIndex TableMessage "FromUid").1;
     WByte 5 (secondIndex TableMessage "FromUid").2; WUint 8 6 (HashWithString uid);
     WCopy 14 primaryKey]).

(** [pkg/wkdb/key/key.go] [NewMessageSecondIndexClientMsgNoKey] *)
Definition NewMessageSecondIndexClientMsgNoKey (clientMsgNo : string) (primaryKey : bytes)
  : res bytes :=
  make (t_SecondIndexSize TableMessage) (header TableMessage dataTypeSecondIndex ++
    [WByte 4 (secondIndex TableMessage "ClientMsgNo").1;
     WByte 5 (secondIndex TableMessage "ClientMsgNo").2; WUint 8 6 (HashWithString clientMsgNo);
     WCopy 14 primaryKey]).

(** [pkg/wkdb/key/key.go] [NewMessageIndexTimestampKey] *)
Definition NewMessageIndexTimestampKey (timestamp : Z) (primaryKey : bytes) : res bytes :=
  make (t_SecondIndexSize TableMessage) (header TableMessage dataTypeIndex ++
    [WByte 4 (secondIndex TableMessage "Timestamp").1;
     WByte 5 (secondIndex TableMessage "Timestamp").2; WUint 8 6 timestamp; WCopy 14 primaryKey]).

(** [pkg/wkdb/key/key.go] [NewUserColumnKey] *)
Definition NewUserColumnKey (id : Z) (columnName : name2) : res bytes :=
  make (t_Size TableUser) (header TableUser dataTypeTable ++
    [WUint 8 4 id; WByte 12 columnName.1; WByte 13 columnName.2]).

(** [pkg/wkdb/key/key.go] [NewUserIndexKey] *)
Definition NewUserIndexKey (indexName : name2) (columnValue : Z) : res bytes :=
  make (t_IndexSize TableUser) (header TableUser dataTypeIndex ++
    [WByte 4 indexName.1; WByte 5 indexName.2; WUint 8 6 columnValue]).

(** [pkg/wkdb/key/key.go] [NewUserSecondIndexKey] *)
Definition NewUserSecondIndexKey (indexName : name2) (columnValue id : Z) : res bytes :=
  make (t_SecondIndexSize TableUser) (header TableUser dataTypeSecondIndex ++
    [WByte 4 indexName.1; WByte 5 indexName.2; WUint 8 6 columnValue; WUint 8 14 id]).

(** [pkg/wkdb/key/key.go] [ParseUserSecondIndexKey] *)
Definition ParseUserSecondIndexKey (key : bytes) : res (option (Z * Z)) :=
  if negb (length key =? t_SecondIndexSize TableUser)%nat then Ok None
  else
    let! columnValue := read_uint 8 6 key in
    let! id := read_uint 8 14 key in
    Ok (Some (columnValue, id)).

(** [pkg/wkdb/key/key.go] [ParseUserColumnKey] *)
Definition ParseUserColumnKey (key : bytes) : res (option (Z * name2)) :=
  if negb (length key =? t_Size TableUser)%nat then Ok None
  else
    let! id := read_uint 8 4 key in
    let! columnName0 := read_byte 12 key in
    let! columnName1 := read_byte 13 key in
    Ok (Some (id, (columnName0, columnName1))).

(** [pkg/wkdb/key/key.go] [NewDeviceColumnKey] *)
Definition NewDeviceColumnKey (id : Z) (columnName : name2) : res bytes :=
  make (t_Size TableDevice) (header TableDevice dataTypeTable ++
    [WUint 8 4 id; WByte 12 columnName.1; WByte 13 columnName.2]).

(** [pkg/wkdb/key/key.go] [NewDeviceIndexKey] *)
Definition NewDeviceIndexKey (indexName : name2) (columnValue : Z) : res bytes :=
  make (t_IndexSize TableDevice) (header TableDevice dataTypeIndex ++
    [WByte 4 indexName.1; WByte 5 indexName.2; WUint 8 6 columnValue]).

(** [pkg/wkdb/key/key.go] [NewDeviceSecondIndexKey] *)
Definition NewDeviceSecondIndexKey (indexName : name2) (columnValue id : Z) : res bytes :=
  make (t_SecondIndexSize TableDevice) (header TableDevice dataTypeSecondIndex ++
    [WByte 4 indexName.1; WByte 5 indexName.2; WUint 8 6 columnValue; WUint 8 14 id]).

(** [pkg/wkdb/key/key.go] [ParseDeviceColumnKey] *)
Definition ParseDeviceColumnKey (key : bytes) : res (option (Z * name2)) :=
  if negb (length key =? t_Size TableDevice)%nat then Ok None
  else
    let! id := read_uint 8 4 key in
    let! columnName0 := read_byte 12 key in
    let! columnName1 := read_byte 13 key in
    Ok (Some (id, (columnName0, columnName1))).

(** [pkg/wkdb/key/key.go] [ParseDeviceSecondIndexKey] *)
Definition ParseDeviceSecondIndexKey (key : bytes) : res (option (Z * Z)) :=
  if negb (length key =? t_SecondIndexSize TableDevice)%nat then Ok None
  else
    let! columnValue := read_uint 8 6 key in
    let! id := read_uint 8 14 key in
    Ok (Some (columnValue, id)).

(** [pkg/wkdb/key/key.go] [NewSubscriberColumnKey] *)
Definition NewSubscriberColumnKey (channelId : string) (channelType id : Z) (columnName : name2)
  : res bytes :=
  make (t_Size TableSubscriber) (header TableSubscriber dataTypeTable ++
    [WUint 8 4 (channelToNum channelId channelType); WUint 8 12 id; WByte 20 columnName.1;
     WByte 21 columnName.2]).

(** [pkg/wkdb/key/key.go] [NewSubscriberIndexKey] *)
Definition NewSubscriberIndexKey (channelId : string) (channelType : Z) (indexName : name2)
    (primaryKey : Z)
  : res bytes :=
  make (t_IndexSize TableSubscriber) (header TableSubscriber dataTypeIndex ++
    [WByte 4 indexName.1; WByte 5 indexName.1; WUint 8 6 (channelToNum channelId channelType);
     WUint 8 14 primaryKey]).

(** [pkg/wkdb/key/key.go] [NewSubscriberSecondIndexKey] *)
Definition NewSubscriberSecondIndexKey (channelId : string) (channelType : Z)
    (indexName : name2) (columnValue id : Z)
  : res bytes :=
  make (t_SecondIndexSize TableSubscriber) (header TableSubscriber dataTypeSecondIndex ++
    [WByte 4 indexName.1; WByte 5 indexName.2; WUint 8 6 (channelToNum channelId channelType);
     WUint 8 14 columnValue; WUint 8 22 id]).

(** [pkg/wkdb/key/key.go] [ParseSubscriberSecondIndexKey] *)
Definition ParseSubscriberSecondIndexKey (key : bytes) : res (option (Z * Z)) :=
  if negb (length key =? t_SecondIndexSize TableSubscriber)%nat then Ok None
  else
    let! columnValue := read_uint 8 14 key in
    let! id := read_uint 8 22 key in
    Ok (Some (columnValue, id)).

(** [pkg/wkdb/key/key.go] [ParseSubscriberColumnKey] *)
Definition ParseSubscriberColumnKey (key : bytes) : res (option (Z * name2)) :=
  if negb (length key =? t_Size TableSubscriber)%nat then Ok None
  else
    let! id := read_uint 8 12 key in
    let! columnName0 := read_byte 20 key in
    let! columnName1 := read_byte 21 key in
    Ok (Some (id, (columnName0, columnName1))).

(** [pkg/wkdb/key/key.go] [NewSubscriberChannelRelationColumnKey] *)
Definition NewSubscriberChannelRelationColumnKey (id : Z) (columnName : name2) : res bytes :=
  make (t_Size TableSubscriberChannelRelation)
    (header TableSubscriberChannelRelation dataTypeTable ++
    [WUint 8 4 id; WByte 12 columnName.1; WByte 13 columnName.2]).

(** [pkg/wkdb/key/key.go] [NewChannelInfoColumnKey] *)
Definition NewChannelInfoColumnKey (id : Z) (columnName : name2) : res bytes :=
  make (t_Size TableChannelInfo) (header TableChannelInfo dataTypeTable ++
    [WUint 8 4 id; WByte 12 columnName.1; WByte 13 columnName.2]).

(** [pkg/wkdb/key/key.go] [NewChannelInfoIndexKey] *)
Definition NewChannelInfoIndexKey (indexName : name2) (columnValue : Z) : res bytes :=
  make (t_IndexSize TableChannelInfo) (header TableChannelInfo dataTypeIndex ++
    [WByte 4 indexName.1; WByte 5 indexName.2; WUint 8 6 columnValue]).

(** [pkg/wkdb/key/key.go] [NewChannelInfoSecondIndexKey] *)
Definition NewChannelInfoSecondIndexKey (indexName : name2) (columnValue id : Z) : res bytes :=
  make (t_SecondIndexSize TableChannelInfo) (header TableChannelInfo dataTypeIndex ++
    [WByte 4 indexName.1; WByte 5 indexName.2; WUint 8 6 columnValue; WUint 8 14 id]).

(** [pkg/wkdb/key/key.go] [ParseChannelInfoSecondIndexKey] *)
Definition ParseChannelInfoSecondIndexKey (key : bytes) : res (option (Z * Z)) :=
  if negb (length key =? t_SecondIndexSize TableChannelInfo)%nat then Ok None
  else
    let! columnValue := read_uint 8 6 key in
    let! id := read_uint 8 14 key in
    Ok (Some (columnValue, id)).

(** [pkg/wkdb/key/key.go] [ParseChannelInfoColumnKey] *)
Definition ParseChannelInfoColumnKey (key : bytes) : res (option (Z * name2)) :=
  if negb (length key =? t_Size TableChannelInfo)%nat then Ok None
  else
    let! id := read_uint 8 4 key in
    let! columnName0 := read_byte 12 key in
    let! columnName1 := read_byte 13 key in
    Ok (Some (id, (columnName0, columnName1))).

(** [pkg/wkdb/key/key.go] [NewDenylistColumnKey] *)
Definition NewDenylistColumnKey (channelId : string) (channelType id : Z) (columnName : name2)
  : res bytes :=
  make (t_Size TableDenylist) (header TableDenylist dataTypeTable ++
    [WUint 8 4 (channelToNum channelId channelType); WUint 8 12 id; WByte 20 columnName.1;
     WByte 21 columnName.2]).

(** [pkg/wkdb/key/key.go] [NewDenylistPrimaryKey] *)
Definition NewDenylistPrimaryKey (channelId : string) (channelType id : Z) : res bytes :=
  make 20 (header TableDenylist dataTypeTable ++
    [WUint 8 4 (channelToNum channelId channelType); WUint 8 12 id]).

(** [pkg/wkdb/key/key.go] [NewDenylistIndexKey] *)
Definition NewDenylistIndexKey (channelId : string) (channelType : Z) (indexName : name2)
    (primaryKey : Z)
  : res bytes :=
  make (t_IndexSize TableDenylist) (header TableDenylist dataTypeIndex ++
    [WByte 4 indexName.1; WByte 5 indexName.2; WUint 8 6 (channelToNum channelId channelType);
     WUint 8 14 primaryKey]).

(** [pkg/wkdb/key/key.go] [NewDenylistSecondIndexKey] *)
Definition NewDenylistSecondIndexKey (channelId : string) (channelType : Z) (indexName : name2)
    (columnValue id : Z)
  : res bytes :=
  make (t_SecondIndexSize TableDenylist) (header TableDenylist dataTypeSecondIndex ++
    [WByte 4 indexName.1; WByte 5 indexName.2; WUint 8 6 (channelToNum channelId channelType);
     WUint 8 14 columnValue; WUint 8 22 id]).

(** [pkg/wkdb/key/key.go] [ParseDenylistColumnKey] *)
Definition ParseDenylistColumnKey (key : bytes) : res (option (Z * name2)) :=
  if negb (length key =? t_Size TableDenylist)%nat then Ok None
  else
    let! id := read_uint 8 12 key in
    let! columnName0 := read_byte 20 key in
    let! columnName1 := read_byte 21 key in
    Ok (Some (id, (columnName0, columnName1))).

(** [pkg/wkdb/key/key.go] [NewAllowlistColumnKey] *)
Definition NewAllowlistColumnKey (channelId : string) (channelType id : Z) (columnName : name2)
  : res bytes :=
  make (t_Size TableDenylist) (header TableAllowlist dataTypeTable ++
    [WUint 8 4 (channelToNum channelId channelType); WUint 8 12 id; WByte 20 columnName.1;
     WByte 21 columnName.2]).

(** [pkg/wkdb/key/key.go] [NewAllowlistPrimaryKey] *)
Definition NewAllowlistPrimaryKey (channelId : string) (channelType id : Z) : res bytes :=
  make 20 (header TableAllowlist dataTypeTable ++
    [WUint 8 4 (channelToNum channelId channelType); WUint 8 12 id]).

(** [pkg/wkdb/key/key.go] [NewAllowlistIndexKey] *)
Definition NewAllowlistIndexKey (channelId : string) (channelType : Z) (indexName : name2)
    (primaryKey : Z)
  : res bytes :=
  make (t_IndexSize TableAllowlist) (header TableAllowlist dataTypeIndex ++
    [WByte 4 indexName.1; WByte 5 indexName.1; WUint 8 6 (channelToNum channelId channelType);
     WUint 8 14 primaryKey]).

(** [pkg/wkdb/key/key.go] [NewAllowlistSecondIndexKey] *)
Definition NewAllowlistSecondIndexKey (channelId : string) (channelType : Z) (indexName : name2)
    (columnValue id : Z)
  : res bytes :=
  make (t_SecondIndexSize TableAllowlist) (header TableAllowlist dataTypeSecondIndex ++
    [WByte 4 indexName.1; WByte 5 indexName.2; WUint 8 6 (channelToNum channelId channelType);
     WUint 8 14 columnValue; WUint 8 22 id]).

(** [pkg/wkdb/key/key.go] [NewAllowlistIndexUidLowKey] *)
Definition NewAllowlistIndexUidLowKey (channelId : string) (channelType : Z) : res bytes :=
  make (t_IndexSize TableAllowlist) (header TableAllowlist dataTypeIndex ++
    [WByte 4 (index TableAllowlist "Uid").1; WByte 5 (index TableAllowlist "Uid").2;
     WUint 8 6 (channelToNum channelId channelType); WUint 8 14 0]).

(** [pkg/wkdb/key/key.go] [NewAllowlistIndexUidHighKey] *)
Definition NewAllowlistIndexUidHighKey (channelId : string) (channelType : Z) : res bytes :=
  make (t_IndexSize TableAllowlist) (header TableAllowlist dataTypeIndex ++
    [WByte 4 (index TableAllowlist "Uid").1; WByte 5 (index TableAllowlist "Uid").2;
     WUint 8 6 (channelToNum channelId channelType); WUint 8 14 MaxUint64]).

(** [pkg/wkdb/key/key.go] [ParseAllowlistColumnKey] *)
Definition ParseAllowlistColumnKey (key : bytes) : res (option (Z * name2)) :=
  if negb (length key =? t_Size TableAllowlist)%nat then Ok None
  else
    let! id := read_uint 8 12 key in
    let! columnName0 := read_byte 20 key in
    let! columnName1 := read_byte 21 key in
    Ok (Some (id, (columnName0, columnName1))).

(** [pkg/wkdb/key/key.go] [NewConversationColumnKey] *)
Definition NewConversationColumnKey (uid : string) (primaryKey : Z) (columnName : name2)
  : res bytes :=
  make (t_Size TableConversation) (header TableConversation dataTypeTable ++
    [WUint 8 4 (HashWithString uid); WUint 8 12 primaryKey; WByte 20 columnName.1;
     WByte 21 columnName.2]).

(** [pkg/wkdb/key/key.go] [NewConversationPrimaryKey] *)
Definition NewConversationPrimaryKey (uid : string) (primaryKey : Z) : res bytes :=
  make 20 (header TableConversation dataTypeTable ++
    [WUint 8 4 (HashWithString uid); WUint 8 12 primaryKey]).

(** [pkg/wkdb/key/key.go] [NewConversationUidHashKey] *)
Definition NewConversationUidHashKey (uidHash : Z) : res bytes :=
  make 12 (header TableConversation dataTypeTable ++
    [WUint 8 4 uidHash]).

(** [pkg/wkdb/key/key.go] [NewConversationIndexChannelKey] *)
Definition NewConversationIndexChannelKey (uid channelId : string) (channelType : Z)
  : res bytes :=
  make (t_IndexSize TableConversation) (header TableConversation dataTypeIndex ++
    [WByte 4 (index TableConversation "Channel").1;
     WByte 5 (index TableConversation "Channel").2; WUint 8 6 (HashWithString uid);
     WUint 8 14 (channelToNum channelId channelType)]).

(** [pkg/wkdb/key/key.go] [NewConversationSecondIndexKey] *)
Definition NewConversationSecondIndexKey (uid : string) (indexName : name2)
    (indexValue primaryKey : Z)
  : res bytes :=
  make (t_SecondIndexSize TableConversation) (header TableConversation dataTypeSecondIndex ++
    [WUint 8 4 (HashWithString uid); WByte 12 indexName.1; WByte 13 indexName.2;
     WUint 8 14 indexValue; WUint 8 22 primaryKey]).

(** [pkg/wkdb/key/key.go] [ParseConversationSecondIndexKey] *)
Definition ParseConversationSecondIndexKey (key : bytes) : res (option (Z * name2 * Z)) :=
  if negb (length key =? t_SecondIndexSize TableConversation)%nat then Ok None
  else
    let! columnName0 := read_byte 12 key in
    let! columnName1 := read_byte 13 key in
    let! columnValue := read_uint 8 14 key in
    let! primaryKey := read_uint 8 22 key in
    Ok (Some (primaryKey, (columnName0, columnName1), columnValue)).

(** [pkg/wkdb/key/key.go] [ParseConversationColumnKey] *)
Definition ParseConversationColumnKey (key : bytes) : res (option (Z * name2)) :=
  if negb (length key =? t_Size TableConversation)%nat then Ok None
  else
    let! primaryKey := read_uint 8 12 key in
    let! columnName0 := read_byte 20 key in
    let! columnName1 := read_byte 21 key in
    Ok (Some (primaryKey, (columnName0, columnName1))).

(** [pkg/wkdb/key/key.go] [NewMessageNotifyQueueKey] *)
Definition NewMessageNotifyQueueKey (messageId : Z) : res bytes :=
  make (t_Size TableMessageNotifyQueue) (header TableMessageNotifyQueue dataTypeTable ++
    [WUint 8 4 messageId]).

(** [pkg/wkdb/key/key.go] [NewChannelClusterConfigColumnKey] *)
Definition NewChannelClusterConfigColumnKey (primaryKey : Z) (columnName : name2) : res bytes :=
  make (t_Size TableChannelClusterConfig) (header TableChannelClusterConfig dataTypeTable ++
    [WUint 8 4 primaryKey; WByte 12 columnName.1; WByte 13 columnName.2]).

(** [pkg/wkdb/key/key.go] [NewChannelClusterConfigIndexKey] *)
Definition NewChannelClusterConfigIndexKey (channelId : string) (channelType : Z) : res bytes :=
  make (t_IndexSize TableChannelInfo) (header TableChannelClusterConfig dataTypeIndex ++
    [WByte 4 (index TableChannelClusterConfig "Channel").1;
     WByte 5 (index TableChannelClusterConfig "Channel").2;
     WUint 8 6 (channelToNum channelId channelType)]).

(** [pkg/wkdb/key/key.go] [NewChannelClusterConfigSecondIndexKey] *)
Definition NewChannelClusterConfigSecondIndexKey (indexName : name2) (columnValue primaryKey : Z)
  : res bytes :=
  make (t_SecondIndexSize TableChannelClusterConfig)
    (header TableChannelClusterConfig dataTypeSecondIndex ++
    [WByte 4 indexName.1; WByte 5 indexName.2; WUint 8 6 columnValue; WUint 8 14 primaryKey]).

(** [pkg/wkdb/key/key.go] [ParseChannelClusterConfigColumnKey] *)
Definition ParseChannelClusterConfigColumnKey (key : bytes) : res (option (Z * name2)) :=
  if negb (length key =? t_Size TableChannelClusterConfig)%nat then Ok None
  else
    let! primaryKey := read_uint 8 4 key in
    let! columnName0 := read_byte 12 key in
    let! columnName1 := read_byte 13 key in
    Ok (Some (primaryKey, (columnName0, columnName1))).

(** [pkg/wkdb/key/key.go] [ParseChannelClusterConfigSecondIndexKey] *)
Definition ParseChannelClusterConfigSecondIndexKey (key : bytes) : res (option (Z * Z)) :=
  if negb (length key =? t_SecondIndexSize TableChannelClusterConfig)%nat then Ok None
  else
    let! columnValue := read_uint 8 6 key in
    let! id := read_uint 8 14 key in
    Ok (Some (columnValue, id)).

(** [pkg/wkdb/key/key.go] [NewLeaderTermSequenceTermKey] *)
Definition NewLeaderTermSequenceTermKey (shardNo : string) (term : Z) : res bytes :=
  make (t_Size TableLeaderTermSequence) (header TableLeaderTermSequence dataTypeTable ++
    [WUint 8 4 (HashWithString shardNo); WUint 4 12 term]).

(** [pkg/wkdb/key/key.go] [ParseLeaderTermSequenceTermKey] *)
Definition ParseLeaderTermSequenceTermKey (key : bytes) : res (option (Z)) :=
  if negb (length key =? t_Size TableLeaderTermSequence)%nat then Ok None
  else
    let! term := read_uint 4 12 key in
    Ok (Some term).

(** [pkg/wkdb/key/key.go] [NewChannelCommonColumnKey] *)
Definition NewChannelCommonColumnKey (channelId : string) (channelType : Z) (columnName : name2)
  : res bytes :=
  make (t_Size TableChannelCommon) (header TableChannelCommon dataTypeTable ++
    [WUint 8 4
    (channelToNum channelId channelType); WByte 12 columnName.1; WByte 13 columnName.2]).

(** [pkg/wkdb/key/key.go] [NewTotalColumnKey] *)
Definition NewTotalColumnKey (columnName : name2) : res bytes :=
  make (t_Size TableTotal) (header TableTotal dataTypeTable ++
    [WUint 8 4 0; WByte 12 columnName.1; WByte 13 columnName.2]).

(** [pkg/wkdb/key/key.go] [NewSystemUidColumnKey] *)
Definition NewSystemUidColumnKey (id : Z) (columnName : name2) : res bytes :=
  make (t_Size TableSystemUid) (header TableSystemUid dataTypeTable ++
    [WUint 8 4 id; WByte 12 columnName.1; WByte 13 columnName.2]).

(** [pkg/wkdb/key/key.go] [NewConversationLocalUserLowKey] *)
Definition NewConversationLocalUserLowKey (channelId : string) (channelType : Z) : res bytes :=
  make 13 (header TableConversationLocalUser dataTypeTable ++
    [WUint 8 4 (channelToNum channelId channelType); WByte 12 x00]).

(** [pkg/wkdb/key/key.go] [NewConversationLocalUserHighKey] *)
Definition NewConversationLocalUserHighKey (channelId : string) (channelType : Z) : res bytes :=
  make 13 (header TableConversationLocalUser dataTypeTable ++
    [WUint 8 4 (channelToNum channelId channelType); WByte 12 xff]).

(** [pkg/wkdb/key/key.go] [NewTesterColumnKey] *)
Definition NewTesterColumnKey (id : Z) (columnName : name2) : res bytes :=
  make (t_Size TableTester) (header TableTester dataTypeTable ++
    [WUint 8 4 id; WByte 12 columnName.1; WByte 13 columnName.2]).

(** [pkg/wkdb/key/key.go] [ParseTesterColumnKey] *)
Definition ParseTesterColumnKey (key : bytes) : res (option (Z * name2)) :=
  if negb (length key =? t_Size TableTester)%nat then Ok None
  else
    let! id := read_uint 8 4 key in
    let! columnName0 := read_byte 12 key in
    let! columnName1 := read_byte 13 key in
    Ok (Some (id, (columnName0, columnName1))).

(** [pkg/wkdb/key/key.go] [NewPluginColumnKey] *)
Definition NewPluginColumnKey (id : Z) (columnName : name2) : res bytes :=
  make (t_Size TablePlugin) (header TablePlugin dataTypeTable ++
    [WUint 8 4 id; WByte 12 columnName.1; WByte 13 columnName.2]).

(** [pkg/wkdb/key/key.go] [ParsePluginColumnKey] *)
Definition ParsePluginColumnKey (key : bytes) : res (option (Z * name2)) :=
  if negb (length key =? t_Size TablePlugin)%nat then Ok None
  else
    let! id := read_uint 8 4 key in
    let! columnName0 := read_byte 12 key in
    let! columnName1 := read_byte 13 key in
    Ok (Some (id, (columnName0, columnName1))).

(** [pkg/wkdb/key/key.go] [NewPluginUserColumnKey] *)
Definition NewPluginUserColumnKey (pluginId : Z) (columnName : name2) : res bytes :=
  make (t_Size TablePluginUser) (header TablePluginUser dataTypeTable ++
    [WUint 8 4 pluginId; WByte 12 columnName.1; WByte 13 columnName.2]).

(** [pkg/wkdb/key/key.go] [ParsePluginUserColumnKey] *)
Definition ParsePluginUserColumnKey (key : bytes) : res (option (Z * name2)) :=
  if negb (length key =? t_Size TablePluginUser)%nat then Ok None
  else
    let! pluginId := read_uint 8 4 key in
    let! columnName0 := read_byte 12 key in
    let! columnName1 := read_byte 13 key in
    Ok (Some (pluginId, (columnName0, columnName1))).

(** [pkg/wkdb/key/key.go] [NewPluginUserSecondIndexKey] *)
Definition NewPluginUserSecondIndexKey (indexName : name2) (columnValue id : Z) : res bytes :=
  make (t_SecondIndexSize TablePluginUser) (header TablePluginUser dataTypeIndex ++
    [WByte 4 indexName.1; WByte 5 indexName.2; WUint 8 6 columnValue; WUint 8 14 id]).

(** [pkg/wkdb/key/key.go] [ParsePluginUserSecondIndexKey] *)
Definition ParsePluginUserSecondIndexKey (key : bytes) : res (option (Z * Z)) :=
  if negb (length key =? t_SecondIndexSize TablePluginUser)%nat then Ok None
  else
    let! columnValue := read_uint 8 6 key in
    let! id := read_uint 8 14 key in
    Ok (Some (columnValue, id)).

(** [pkg/wkdb/key/key.go] [newMessageEventIndexKey] *)
Definition newMessageEventIndexKey (indexName : name2) (channelHash columnValue seq : Z)
  : res bytes :=
  make (t_IndexSize TableMessageEvent) (header TableMessageEvent dataTypeIndex ++
    [WByte 4 indexName.1; WByte 5 indexName.2; WUint 8 6 channelHash; WUint 8 14 columnValue;
     WUint 8 22 seq]).

(** [pkg/wkdb/key/key.go] [NewMessageEventClientSeqKey] *)
Definition NewMessageEventClientSeqKey (channelId : string) (channelType : Z)
    (clientMsgNo : string) (msgEventSeq : Z)
  : res bytes :=
  newMessageEventIndexKey (index TableMessageEvent "ClientSeq")
    (ChannelHash channelId channelType) (HashWithString clientMsgNo) msgEventSeq.

(** [pkg/wkdb/key/key.go] [NewMessageEventClientSeqLowKey] *)
Definition NewMessageEventClientSeqLowKey (channelId : string) (channelType : Z)
    (clientMsgNo : string)
  : res bytes :=
  NewMessageEventClientSeqKey channelId channelType clientMsgNo 0.

(** [pkg/wkdb/key/key.go] [NewMessageEventClientSeqHighKey] *)
Definition NewMessageEventClientSeqHighKey (channelId : string) (channelType : Z)
    (clientMsgNo : string)
  : res bytes :=
  NewMessageEventClientSeqKey channelId channelType clientMsgNo MaxUint64.

(** [pkg/wkdb/key/key.go] [NewMessageEventKeySeqKey] *)
Definition NewMessageEventKeySeqKey (channelId : string) (channelType : Z)
    (clientMsgNo eventKey : string) (msgEventSeq : Z)
  : res bytes :=
  newMessageEventIndexKey (index TableMessageEvent "ClientKeySeq")
    (ChannelHash channelId channelType) (HashWithString (clientMsgNo +:+ ":" +:+ eventKey)) msgEventSeq.

(** [pkg/wkdb/key/key.go] [NewMessageEventKeySeqLowKey] *)
Definition NewMessageEventKeySeqLowKey (channelId : string) (channelType : Z)
    (clientMsgNo eventKey : string)
  : res bytes :=
  NewMessageEventKeySeqKey channelId channelType clientMsgNo eventKey 0.

(** [pkg/wkdb/key/key.go] [NewMessageEventKeySeqHighKey] *)
Definition NewMessageEventKeySeqHighKey (channelId : string) (channelType : Z)
    (clientMsgNo eventKey : string)
  : res bytes :=
  NewMessageEventKeySeqKey channelId channelType clientMsgNo eventKey MaxUint64.

(** [pkg/wkdb/key/key.go] [NewMessageEventIDIndexKey] *)
Definition NewMessageEventIDIndexKey (channelId : string) (channelType : Z)
    (clientMsgNo eventID : string)
  : res bytes :=
  newMessageEventIndexKey (index TableMessageEvent "EventID")
    (ChannelHash channelId channelType) (HashWithString clientMsgNo) (HashWithString eventID).

(** [pkg/wkdb/key/key.go] [ParseMessageEventIndexKey] *)
Definition ParseMessageEventIndexKey (key : bytes) : res (option (name2 * Z * Z * Z)) :=
  if negb (length key =? t_IndexSize TableMessageEvent)%nat then Ok None
  else
    let! indexName0 := read_byte 4 key in
    let! indexName1 := read_byte 5 key in
    let! channelHash := read_uint 8 6 key in
    let! columnValue := read_uint 8 14 key in
    let! seq := read_uint 8 22 key in
    Ok (Some ((indexName0, indexName1), channelHash, columnValue, seq)).

(** [pkg/wkdb/key/key.go] [NewMessageEventStateKey] *)
Definition NewMessageEventStateKey (channelId : string) (channelType : Z)
    (clientMsgNo eventKey : string)
  : res bytes :=
  make (t_Size TableMessageEventState) (header TableMessageEventState dataTypeTable ++
    [WUint 8 4 (ChannelHash channelId channelType); WUint 8 12 (HashWithString clientMsgNo);
     WUint 8 20 (HashWithString eventKey)]).

(** [pkg/wkdb/key/key.go] [NewMessageEventStateLowKey] *)
Definition NewMessageEventStateLowKey (channelId : string) (channelType : Z)
    (clientMsgNo : string)
  : res bytes :=
  make (t_Size TableMessageEventState) (header TableMessageEventState dataTypeTable ++
    [WUint 8 4 (ChannelHash channelId channelType); WUint 8 12 (HashWithString clientMsgNo);
     WUint 8 20 0]).

(** [pkg/wkdb/key/key.go] [NewMessageEventStateHighKey] *)
Definition NewMessageEventStateHighKey (channelId : string) (channelType : Z)
    (clientMsgNo : string)
  : res bytes :=
  make (t_Size TableMessageEventState) (header TableMessageEventState dataTypeTable ++
    [WUint 8 4 (ChannelHash channelId channelType); WUint 8 12 (HashWithString clientMsgNo);
     WUint 8 20 MaxUint64]).

(** [pkg/wkdb/key/key.go] [NewMessageEventSeqKey] *)
Definition NewMessageEventSeqKey (channelId : string) (channelType : Z) (clientMsgNo : string)
  : res bytes :=
  make (t_Size TableMessageEventSeq) (header TableMessageEventSeq dataTypeOther ++
    [WUint 8 4 (ChannelHash channelId channelType); WUint 8 12 (HashWithString clientMsgNo)]).

(** [pkg/wkdb/key/key.go] [NewMessageSearchLowKeWith] *)
Definition NewMessageSearchLowKeWith (channelId : string) (channelType messageSeq : Z) : res bytes :=
  make 20 (header TableMessage dataTypeTable ++
    [WUint 8 4 (if negb (blank (str_bytes channelId)) && negb (channelType =? 0)
                then channelToNum channelId channelType else 0);
     WUint 8 12 messageSeq]).

(** [pkg/wkdb/key/key.go] [NewMessageSearchHighKeWith] *)
Definition NewMessageSearchHighKeWith (channelId : string) (channelType messageSeq : Z) : res bytes :=
  make 20 (header TableMessage dataTypeTable ++
    [WUint 8 4 (if negb (blank (str_bytes channelId)) && negb (channelType =? 0)
                then channelToNum channelId channelType else MaxUint64);
     WUint 8 12 messageSeq]).

(** [pkg/wkdb/key/key.go] [ParseMessageSecondIndexKey] *)
Definition ParseMessageSecondIndexKey (key : bytes) : res (option bytes) :=
  if negb (length key =? t_SecondIndexSize TableMessage)%nat then Ok None
  else Ok (Some (take 16 (drop 14 key))).

(** [pkg/wkdb/key/key.go] [NewConversationLocalUserKey] *)
Definition NewConversationLocalUserKey (channelId : string) (channelType : Z) (uid : string)
  : res bytes :=
  make (12 + length (str_bytes uid)) (header TableConversationLocalUser dataTypeTable ++
    [WUint 8 4 (channelToNum channelId channelType); WCopy 12 (str_bytes uid)]).

(** [pkg/wkdb/key/key.go] [ParseConversationLocalUserKey] *)
Definition ParseConversationLocalUserKey (key : bytes) : res (option string) :=
  if (length key <? 12)%nat then Ok None
  else Ok (Some (String.string_of_list_byte (drop 12 key))).

(** ** The outbox of the search *)

(** [pkg/wkdb/key/key.go] [MaxSearchOutboxChannelIDBytes] *)
Definition MaxSearchOutboxChannelIDBytes : Z := 100.

(** [pkg/wkdb/key/key.go] [IsValidSearchOutboxChannelIdentity] *)
Definition IsValidSearchOutboxChannelIdentity (channelID : string) (channelType : Z) : bool :=
  negb (bool_decide (channelID = "")) && negb (channelType =? 0) &&
  utf8_valid (str_bytes channelID) &&
  (len (str_bytes channelID) <=? MaxSearchOutboxChannelIDBytes).

(** [pkg/wkdb/key/key.go] [searchOutboxChannelPrefix]

    [None] is an error. *)
Definition searchOutboxChannelPrefix (channelID : string) (channelType : Z) : res (option bytes) :=
  let channelBytes := str_bytes channelID in
  if negb (IsValidSearchOutboxChannelIdentity channelID channelType) then Ok None
  else
    let! prefix := make (2 + 2 + 1 + 2 + length channelBytes)
      [WByte 0 (t_Id TableSearchOutbox).1; WByte 1 (t_Id TableSearchOutbox).2;
       WByte 2 (dataType_byte dataTypeTable); WByte 3 x00; WByte 4 (byte_of_Z channelType);
       WUint 2 5 (u16 (len channelBytes)); WCopy 7 channelBytes] in
    Ok (Some prefix).

(** [pkg/wkdb/key/key.go] [NewSearchOutboxKey] *)
Definition NewSearchOutboxKey (channelID : string) (channelType messageSeq messageID : Z)
  : res (option bytes) :=
  let! p := searchOutboxChannelPrefix channelID channelType in
  match p with
  | None => Ok None
  | Some prefix =>
      if (messageSeq =? 0) || (MaxUint32 <? messageSeq) || (messageID <=? 0) then Ok None
      else
        let offset := length prefix in
        let! keyBytes := make (length prefix + 8 + 8)
          [WCopy 0 prefix; WUint 8 offset messageSeq; WUint 8 (offset + 8) (u64 messageID)] in
        Ok (Some keyBytes)
  end.

(** [pkg/wkdb/key/key.go] [ParseSearchOutboxKey] *)
Definition ParseSearchOutboxKey (raw : bytes) : res (option (string * Z * Z * Z)) :=
  let fixedBytes := (2 + 2 + 1 + 2 + 8 + 8)%nat in
  if (length raw <? fixedBytes)%nat then Ok None
  else
    let! r0 := read_byte 0 raw in
    let! r1 := read_byte 1 raw in
    let! r2 := read_byte 2 raw in
    let! r3 := read_byte 3 raw in
    let! r4 := read_byte 4 raw in
    if negb (bool_decide (r0 = (t_Id TableSearchOutbox).1)) ||
       negb (bool_decide (r1 = (t_Id TableSearchOutbox).2)) ||
       negb (bool_decide (r2 = dataType_byte dataTypeTable)) ||
       negb (bool_decide (r3 = x00)) || bool_decide (r4 = x00) then Ok None
    else
      let! channelLength := read_uint 2 5 raw in
      if (channelLength =? 0) || (MaxSearchOutboxChannelIDBytes <? channelLength) ||
         negb (len raw =? Z.of_nat fixedBytes + channelLength) then Ok None
      else
        let n := Z.to_nat channelLength in
        let channelBytes := take n (drop 7 raw) in
        if negb (utf8_valid channelBytes) then Ok None
        else
          let offset := (7 + n)%nat in
          let! messageSeq := read_uint 8 offset raw in
          let! rawMessageID := read_uint 8 (offset + 8) raw in
          if (messageSeq =? 0) || (MaxUint32 <? messageSeq) || (rawMessageID =? 0) ||
             (MaxInt64 <? rawMessageID) then Ok None
          else Ok (Some (String.string_of_list_byte channelBytes, Z_of_byte r4, messageSeq,
                         i64 rawMessageID)).

(** [pkg/wkdb/key/key.go] [NewSearchOutboxLowKey] *)
Definition NewSearchOutboxLowKey : bytes :=
  [(t_Id TableSearchOutbox).1; (t_Id TableSearchOutbox).2; dataType_byte dataTypeTable; x00].
(** [pkg/wkdb/key/key.go] [NewSearchOutboxHighKey] *)
Definition NewSearchOutboxHighKey : bytes :=
  [(t_Id TableSearchOutbox).1; (t_Id TableSearchOutbox).2; dataType_byte dataTypeTable; x01].

(** [pkg/wkdb/key/key.go] [NewSearchOutboxFloorKey] *)
Definition NewSearchOutboxFloorKey (channelID : string) (channelType : Z) : res (option bytes) :=
  let! p := searchOutboxChannelPrefix channelID channelType in
  match p with
  | None => Ok None
  | Some prefix =>
      let! keyBytes := do_write prefix (WByte 2 (dataType_byte dataTypeOther)) in
      Ok (Some keyBytes)
  end.

(** [pkg/wkdb/key/key.go] [lines 117-123]

    The loop over the bytes of [upper] from the last one, given in reverse. *)
Fixpoint incremented (rev_upper : bytes) : option bytes :=
  match rev_upper with
  | [] => None
  | b :: rest =>
      if bool_decide (b = xff) then incremented rest
      else Some (rev (byte_of_Z (Z_of_byte b + 1) :: rest))
  end.

(** [pkg/wkdb/key/key.go] [NewSearchOutboxChannelRange] *)
Definition NewSearchOutboxChannelRange (channelID : string) (channelType firstMessageSeq : Z)
  : res (option (bytes * bytes)) :=
  let! p := searchOutboxChannelPrefix channelID channelType in
  match p with
  | None => Ok None
  | Some prefix =>
      if (firstMessageSeq =? 0) || (MaxUint32 <? firstMessageSeq) then Ok None
      else
        let! lower := make (length prefix + 8 + 8)
          [WCopy 0 prefix; WUint 8 (length prefix) firstMessageSeq;
           WUint 8 (length prefix + 8) 1] in
        match incremented (rev prefix) with
        | Some upper => Ok (Some (lower, upper))
        | None => Ok None
        end
  end.

(** [pkg/wkdb/key/search_outbox_quarantine.go] [NewSearchOutboxQuarantineLowKey] *)
Definition NewSearchOutboxQuarantineLowKey : bytes :=
  [(t_Id TableSearchOutboxQuarantine).1; (t_Id TableSearchOutboxQuarantine).2;
   dataType_byte dataTypeTable; x00].
(** [pkg/wkdb/key/search_outbox_quarantine.go] [NewSearchOutboxQuarantineHighKey] *)
Definition NewSearchOutboxQuarantineHighKey : bytes :=
  [(t_Id TableSearchOutboxQuarantine).1; (t_Id TableSearchOutboxQuarantine).2;
   dataType_byte dataTypeTable; x01].
(** [pkg/wkdb/key/search_outbox_quarantine.go] [NewSearchOutboxQuarantineKey] *)
Definition NewSearchOutboxQuarantineKey (rawKey : bytes) : bytes :=
  NewSearchOutboxQuarantineLowKey ++ rawKey.
(** [pkg/wkdb/key/search_outbox_quarantine.go] [NewSearchOutboxStateKey] *)
Definition NewSearchOutboxStateKey (rawKey : bytes) : bytes :=
  [(t_Id TableSearchOutboxState).1; (t_Id TableSearchOutboxState).2;
   dataType_byte dataTypeTable; x00] ++ rawKey.
