(* ===== verification/WkKeyLaws.v ===== *)
(** * What the keys of the database stand for

    A key under which something is stored stands for a table, a kind of data and
    the values of its fields ([logical]); names of channels and users appear as
    their hashes.  [call] has every call of [WkKey] that makes such a key.

    - [encode_inj]: the shapes of the tables are such that the bytes determine
      what they stand for.
    - [build_spec]: every call returns the bytes of its layout.
    - [KeyProps]: the keys of different things are different, keys are parsed
      back, and a scan between two bounds sees exactly what it is meant to. *)

From Stdlib Require Import Strings.Byte.
From S2P Require Import Prelude RaftTypes WkProto KeyBytes WkTables WkKey.

(** ** Logical keys *)

Inductive fld :=
| F64 (v : Z)
| F32 (v : Z)
| F2 (n : name2)
| F16 (bs : bytes)
| FRest (bs : bytes).

Definition fld_bytes (f : fld) : bytes :=
  match f with
  | F64 v => be_bytes 8 v
  | F32 v => be_bytes 4 v
  | F2 n => [n.1; n.2]
  | F16 bs => bs
  | FRest bs => bs
  end.

Definition fld_ok (f : fld) : Prop :=
  match f with
  | F64 v => is_u64 v
  | F32 v => is_u32 v
  | F16 bs => length bs = 16%nat
  | _ => True
  end.

(** The width of a field; [None] is the rest of the key. *)
Definition fld_shape (f : fld) : option nat :=
  match f with
  | F64 _ => Some 8%nat
  | F32 _ => Some 4%nat
  | F2 _ => Some 2%nat
  | F16 _ => Some 16%nat
  | FRest _ => None
  end.

Record logical := mkLogical {
  lk_id : name2;
  lk_kind : dataType;
  lk_fields : list fld
}.

Definition prefix4 (id : name2) (kind : dataType) : bytes := [id.1; id.2; dataType_byte kind; x00].
Definition encode_key (l : logical) : bytes :=
  prefix4 (lk_id l) (lk_kind l) ++ flat_map fld_bytes (lk_fields l).

#[export] Instance dataType_eq_dec : EqDecision dataType.
Proof. solve_decision. Defined.

(** *** Shapes *)

Record shape := mkShape {
  sh_id : name2;
  sh_kind : dataType;
  sh_widths : list (option nat)
}.
#[export] Instance shape_eq_dec : EqDecision shape.
Proof. solve_decision. Defined.

Definition shape_of (l : logical) : shape :=
  mkShape (lk_id l) (lk_kind l) (fld_shape <$> lk_fields l).

(** The length of a shape, when it is fixed. *)
Fixpoint total (ws : list (option nat)) : option nat :=
  match ws with
  | [] => Some O
  | Some w :: ws => n ← total ws; Some (w + n)%nat
  | None :: _ => None
  end.

(** Two shapes that cannot be confused. *)
Definition apart (s s' : shape) : bool :=
  bool_decide (s = s') || negb (bool_decide (sh_id s = sh_id s')) ||
  negb (bool_decide (sh_kind s = sh_kind s')) ||
  match total (sh_widths s), total (sh_widths s') with
  | Some n, Some n' => negb (n =? n')%nat
  | _, _ => false
  end.

Lemma fld_length f w : fld_ok f -> fld_shape f = Some w -> length (fld_bytes f) = w.
Proof. destruct f; simpl; intros H [= <-]; try apply be_bytes_length; done. Qed.

Lemma fields_length fs n :
  Forall fld_ok fs -> total (fld_shape <$> fs) = Some n -> length (flat_map fld_bytes fs) = n.
Proof.
  intros H. revert n. induction H as [|f fs Hf _ IH]; intros n; [by intros [= <-]|].
  rewrite !fmap_cons. cbn [total flat_map]. destruct (fld_shape f) as [w|] eqn:E; [|done].
  intros (m & Hm & [= <-])%bind_Some. by rewrite length_app, (fld_length f w Hf E), (IH m Hm).
Qed.

Lemma fld_inj f f' :
  fld_ok f -> fld_ok f' -> fld_shape f = fld_shape f' -> fld_bytes f = fld_bytes f' -> f = f'.
Proof.
  destruct f as [v|v|n|bs|bs], f' as [v'|v'|n'|bs'|bs']; try done; simpl; intros H H' _ E; f_equal;
    try done.
  - by apply (be_bytes_inj 8).
  - by apply (be_bytes_inj 4).
  - injection E. destruct n, n'. simpl. congruence.
Qed.

(** A field of variable length is the last one. *)
Fixpoint rest_last (ws : list (option nat)) : bool :=
  match ws with
  | [] => true
  | Some _ :: ws => rest_last ws
  | None :: ws => bool_decide (ws = [])
  end.

Lemma fields_inj fs fs' :
  Forall fld_ok fs -> Forall fld_ok fs' -> fld_shape <$> fs = fld_shape <$> fs' ->
  rest_last (fld_shape <$> fs) = true ->
  flat_map fld_bytes fs = flat_map fld_bytes fs' -> fs = fs'.
Proof.
  intros H. revert fs'. induction H as [|f fs Hf _ IH]; intros [|f' fs'] H'; try done.
  apply Forall_cons in H' as [Hf' H']. rewrite !fmap_cons. cbn [flat_map rest_last].
  intros [= Hs Hss] Hr E. destruct (fld_shape f) as [w|] eqn:Ew.
  - apply app_inj_1 in E as [E1 E2];
      [|rewrite (fld_length f w), (fld_length f' w) by congruence; done].
    f_equal; [|by apply IH]. apply fld_inj; congruence.
  - apply bool_decide_eq_true in Hr. rewrite Hr in Hss. destruct fs, fs'; try done.
    simpl in E. rewrite !app_nil_r in E. f_equal. apply fld_inj; congruence.
Qed.

Lemma dataType_byte_inj a b : dataType_byte a = dataType_byte b -> a = b.
Proof. by destruct a, b. Qed.

(** Keys with shapes that are apart stand for the same thing when their bytes
    are the same. *)
Lemma encode_inj l l' :
  Forall fld_ok (lk_fields l) -> Forall fld_ok (lk_fields l') ->
  apart (shape_of l) (shape_of l') = true -> rest_last (sh_widths (shape_of l)) = true ->
  encode_key l = encode_key l' -> l = l'.
Proof.
  destruct l as [[i1 i2] k fs], l' as [[i1' i2'] k' fs']. unfold encode_key, shape_of, prefix4. simpl.
  intros H H' Ha Hr [= <- <- Ek%dataType_byte_inj E]. subst k'.
  unfold apart in Ha. simpl in Ha. rewrite !orb_true_iff in Ha.
  destruct Ha as [[[Ha|Ha]|Ha]|Ha].
  - apply bool_decide_eq_true in Ha. injection Ha as Ha. f_equal. by apply fields_inj.
  - by rewrite bool_decide_eq_true_2 in Ha.
  - by rewrite bool_decide_eq_true_2 in Ha.
  - exfalso. destruct (total (fld_shape <$> fs)) as [n|] eqn:En; [|done].
    destruct (total (fld_shape <$> fs')) as [n'|] eqn:En'; [|done].
    apply (fields_length fs) in En; [|done]. apply (fields_length fs') in En'; [|done].
    rewrite E in En. destruct (Nat.eqb_spec n n'); [done|congruence].
Qed.

(** ** The calls *)

(** Every call that makes a key under which something is stored. *)
Inductive call :=
| KMessageColumn (channelId : string) (channelType messageSeq : Z) (columnName : name2)
| KMessageColumnPrimary (primary : bytes) (columnName : name2)
| KLastMessageSeq (channelId : string) (channelType : Z)
| KMessageId (messageId : Z)
| KMessageFromUid (uid : string) (primaryKey : bytes)
| KMessageClientMsgNo (clientMsgNo : string) (primaryKey : bytes)
| KMessageTimestamp (timestamp : Z) (primaryKey : bytes)
| KUserColumn (id : Z) (columnName : name2)
| KUserIndex (indexName : name2) (columnValue : Z)
| KUserSecond (indexName : name2) (columnValue id : Z)
| KDeviceColumn (id : Z) (columnName : name2)
| KDeviceIndex (indexName : name2) (columnValue : Z)
| KDeviceSecond (indexName : name2) (columnValue id : Z)
| KSubscriberColumn (channelId : string) (channelType id : Z) (columnName : name2)
| KSubscriberIndex (channelId : string) (channelType : Z) (indexName : name2) (primaryKey : Z)
| KSubscriberSecond (channelId : string) (channelType : Z) (indexName : name2)
    (columnValue id : Z)
| KSubscriberChannelRelationColumn (id : Z) (columnName : name2)
| KChannelInfoColumn (id : Z) (columnName : name2)
| KChannelInfoIndex (indexName : name2) (columnValue : Z)
| KChannelInfoSecond (indexName : name2) (columnValue id : Z)
| KDenylistColumn (channelId : string) (channelType id : Z) (columnName : name2)
| KDenylistIndex (channelId : string) (channelType : Z) (indexName : name2) (primaryKey : Z)
| KDenylistSecond (channelId : string) (channelType : Z) (indexName : name2) (columnValue id : Z)
| KAllowlistColumn (channelId : string) (channelType id : Z) (columnName : name2)
| KAllowlistIndex (channelId : string) (channelType : Z) (indexName : name2) (primaryKey : Z)
| KAllowlistSecond (channelId : string) (channelType : Z) (indexName : name2) (columnValue id : Z)
| KConversationColumn (uid : string) (primaryKey : Z) (columnName : name2)
| KConversationChannel (uid channelId : string) (channelType : Z)
| KConversationSecond (uid : string) (indexName : name2) (indexValue primaryKey : Z)
| KMessageNotifyQueue (messageId : Z)
| KChannelClusterConfigColumn (primaryKey : Z) (columnName : name2)
| KChannelClusterConfigIndex (channelId : string) (channelType : Z)
| KChannelClusterConfigSecond (indexName : name2) (columnValue primaryKey : Z)
| KLeaderTerm (shardNo : string) (term : Z)
| KChannelCommon (channelId : string) (channelType : Z) (columnName : name2)
| KTotal (columnName : name2)
| KSystemUidColumn (id : Z) (columnName : name2)
| KLocalUser (channelId : string) (channelType : Z) (uid : string)
| KTesterColumn (id : Z) (columnName : name2)
| KPluginColumn (id : Z) (columnName : name2)
| KPluginUserColumn (pluginId : Z) (columnName : name2)
| KPluginUserSecond (indexName : name2) (columnValue id : Z)
| KEventClientSeq (channelId : string) (channelType : Z) (clientMsgNo : string) (msgEventSeq : Z)
| KEventKeySeq (channelId : string) (channelType : Z) (clientMsgNo eventKey : string)
    (msgEventSeq : Z)
| KEventID (channelId : string) (channelType : Z) (clientMsgNo eventID : string)
| KEventState (channelId : string) (channelType : Z) (clientMsgNo eventKey : string)
| KEventSeq (channelId : string) (channelType : Z) (clientMsgNo : string)
| KOutbox (channelID : string) (channelType messageSeq messageID : Z)
| KOutboxFloor (channelID : string) (channelType : Z)
| KQuarantine (rawKey : bytes)
| KOutboxState (rawKey : bytes).

(** A function that returns an error instead of a key makes none. *)
Definition made (m : res (option bytes)) : res bytes :=
  let! r := m in
  match r with
  | Some k => Ok k
  | None => Panic
  end.

Definition build (c : call) : res bytes :=
  match c with
  | KMessageColumn channelId channelType messageSeq columnName =>
      NewMessageColumnKey channelId channelType messageSeq columnName
  | KMessageColumnPrimary primary columnName => NewMessageColumnKeyWithPrimary primary columnName
  | KLastMessageSeq channelId channelType => NewChannelLastMessageSeqKey channelId channelType
  | KMessageId messageId => NewMessageIndexMessageIdKey messageId
  | KMessageFromUid uid primaryKey => NewMessageSecondIndexFromUidKey uid primaryKey
  | KMessageClientMsgNo clientMsgNo primaryKey =>
      NewMessageSecondIndexClientMsgNoKey clientMsgNo primaryKey
  | KMessageTimestamp timestamp primaryKey => NewMessageIndexTimestampKey timestamp primaryKey
  | KUserColumn id columnName => NewUserColumnKey id columnName
  | KUserIndex indexName columnValue => NewUserIndexKey indexName columnValue
  | KUserSecond indexName columnValue id => NewUserSecondIndexKey indexName columnValue id
  | KDeviceColumn id columnName => NewDeviceColumnKey id columnName
  | KDeviceIndex indexName columnValue => NewDeviceIndexKey indexName columnValue
  | KDeviceSecond indexName columnValue id => NewDeviceSecondIndexKey indexName columnValue id
  | KSubscriberColumn channelId channelType id columnName =>
      NewSubscriberColumnKey channelId channelType id columnName
  | KSubscriberIndex channelId channelType indexName primaryKey =>
      NewSubscriberIndexKey channelId channelType indexName primaryKey
  | KSubscriberSecond channelId channelType indexName columnValue id =>
      NewSubscriberSecondIndexKey channelId channelType indexName columnValue id
  | KSubscriberChannelRelationColumn id columnName =>
      NewSubscriberChannelRelationColumnKey id columnName
  | KChannelInfoColumn id columnName => NewChannelInfoColumnKey id columnName
  | KChannelInfoIndex indexName columnValue => NewChannelInfoIndexKey indexName columnValue
  | KChannelInfoSecond indexName columnValue id =>
      NewChannelInfoSecondIndexKey indexName columnValue id
  | KDenylistColumn channelId channelType id columnName =>
      NewDenylistColumnKey channelId channelType id columnName
  | KDenylistIndex channelId channelType indexName primaryKey =>
      NewDenylistIndexKey channelId channelType indexName primaryKey
  | KDenylistSecond channelId channelType indexName columnValue id =>
      NewDenylistSecondIndexKey channelId channelType indexName columnValue id
  | KAllowlistColumn channelId channelType id columnName =>
      NewAllowlistColumnKey channelId channelType id columnName
  | KAllowlistIndex channelId channelType indexName primaryKey =>
      NewAllowlistIndexKey channelId channelType indexName primaryKey
  | KAllowlistSecond channelId channelType indexName columnValue id =>
      NewAllowlistSecondIndexKey channelId channelType indexName columnValue id
  | KConversationColumn uid primaryKey columnName =>
      NewConversationColumnKey uid primaryKey columnName
  | KConversationChannel uid channelId channelType =>
      NewConversationIndexChannelKey uid channelId channelType
  | KConversationSecond uid indexName indexValue primaryKey =>
      NewConversationSecondIndexKey uid indexName indexValue primaryKey
  | KMessageNotifyQueue messageId => NewMessageNotifyQueueKey messageId
  | KChannelClusterConfigColumn primaryKey columnName =>
      NewChannelClusterConfigColumnKey primaryKey columnName
  | KChannelClusterConfigIndex channelId channelType =>
      NewChannelClusterConfigIndexKey channelId channelType
  | KChannelClusterConfigSecond indexName columnValue primaryKey =>
      NewChannelClusterConfigSecondIndexKey indexName columnValue primaryKey
  | KLeaderTerm shardNo term => NewLeaderTermSequenceTermKey shardNo term
  | KChannelCommon channelId channelType columnName =>
      NewChannelCommonColumnKey channelId channelType columnName
  | KTotal columnName => NewTotalColumnKey columnName
  | KSystemUidColumn id columnName => NewSystemUidColumnKey id columnName
  | KLocalUser channelId channelType uid => NewConversationLocalUserKey channelId channelType uid
  | KTesterColumn id columnName => NewTesterColumnKey id columnName
  | KPluginColumn id columnName => NewPluginColumnKey id columnName
  | KPluginUserColumn pluginId columnName => NewPluginUserColumnKey pluginId columnName
  | KPluginUserSecond indexName columnValue id =>
      NewPluginUserSecondIndexKey indexName columnValue id
  | KEventClientSeq channelId channelType clientMsgNo msgEventSeq =>
      NewMessageEventClientSeqKey channelId channelType clientMsgNo msgEventSeq
  | KEventKeySeq channelId channelType clientMsgNo eventKey msgEventSeq =>
      NewMessageEventKeySeqKey channelId channelType clientMsgNo eventKey msgEventSeq
  | KEventID channelId channelType clientMsgNo eventID =>
      NewMessageEventIDIndexKey channelId channelType clientMsgNo eventID
  | KEventState channelId channelType clientMsgNo eventKey =>
      NewMessageEventStateKey channelId channelType clientMsgNo eventKey
  | KEventSeq channelId channelType clientMsgNo =>
      NewMessageEventSeqKey channelId channelType clientMsgNo
  | KOutbox channelID channelType messageSeq messageID =>
      made (NewSearchOutboxKey channelID channelType messageSeq messageID)
  | KOutboxFloor channelID channelType => made (NewSearchOutboxFloorKey channelID channelType)
  | KQuarantine rawKey => Ok (NewSearchOutboxQuarantineKey rawKey)
  | KOutboxState rawKey => Ok (NewSearchOutboxStateKey rawKey)
  end.

(** The part of an outbox key that names the channel. *)
Definition outbox_channel (channelID : string) (channelType : Z) : bytes :=
  byte_of_Z channelType :: be_bytes 2 (len (str_bytes channelID)) ++ str_bytes channelID.

Definition layout (c : call) : logical :=
  match c with
  | KMessageColumn channelId channelType messageSeq columnName =>
      mkLogical (t_Id TableMessage) dataTypeTable
        [F64 (channelToNum channelId channelType); F64 messageSeq; F2 columnName]
  | KMessageColumnPrimary primary columnName =>
      mkLogical (t_Id TableMessage) dataTypeTable
        [F64 (be_val (take 8 primary)); F64 (be_val (drop 8 primary)); F2 columnName]
  | KLastMessageSeq channelId channelType =>
      mkLogical (t_Id TableMessage) dataTypeOther
        [F64 (channelToNum channelId channelType)]
  | KMessageId messageId =>
      mkLogical (t_Id TableMessage) dataTypeIndex
        [F2 (index TableMessage "MessageId"); F64 messageId]
  | KMessageFromUid uid primaryKey =>
      mkLogical (t_Id TableMessage) dataTypeSecondIndex
        [F2 (secondIndex TableMessage "FromUid"); F64 (HashWithString uid); F16 primaryKey]
  | KMessageClientMsgNo clientMsgNo primaryKey =>
      mkLogical (t_Id TableMessage) dataTypeSecondIndex
        [F2 (secondIndex TableMessage "ClientMsgNo");
         F64 (HashWithString clientMsgNo); F16 primaryKey]
  | KMessageTimestamp timestamp primaryKey =>
      mkLogical (t_Id TableMessage) dataTypeIndex
        [F2 (secondIndex TableMessage "Timestamp"); F64 timestamp; F16 primaryKey]
  | KUserColumn id columnName =>
      mkLogical (t_Id TableUser) dataTypeTable
        [F64 id; F2 columnName]
  | KUserIndex indexName columnValue =>
      mkLogical (t_Id TableUser) dataTypeIndex
        [F2 indexName; F64 columnValue]
  | KUserSecond indexName columnValue id =>
      mkLogical (t_Id TableUser) dataTypeSecondIndex
        [F2 indexName; F64 columnValue; F64 id]
  | KDeviceColumn id columnName =>
      mkLogical (t_Id TableDevice) dataTypeTable
        [F64 id; F2 columnName]
  | KDeviceIndex indexName columnValue =>
      mkLogical (t_Id TableDevice) dataTypeIndex
        [F2 indexName; F64 columnValue]
  | KDeviceSecond indexName columnValue id =>
      mkLogical (t_Id TableDevice) dataTypeSecondIndex
        [F2 indexName; F64 columnValue; F64 id]
  | KSubscriberColumn channelId channelType id columnName =>
      mkLogical (t_Id TableSubscriber) dataTypeTable
        [F64 (channelToNum channelId channelType); F64 id; F2 columnName]
  | KSubscriberIndex channelId channelType indexName primaryKey =>
      mkLogical (t_Id TableSubscriber) dataTypeIndex
        [F2 (indexName.1, indexName.1); F64 (channelToNum channelId channelType); F64 primaryKey]
  | KSubscriberSecond channelId channelType indexName columnValue id =>
      mkLogical (t_Id TableSubscriber) dataTypeSecondIndex
        [F2 indexName; F64 (channelToNum channelId channelType); F64 columnValue; F64 id]
  | KSubscriberChannelRelationColumn id columnName =>
      mkLogical (t_Id TableSubscriberChannelRelation) dataTypeTable
        [F64 id; F2 columnName]
  | KChannelInfoColumn id columnName =>
      mkLogical (t_Id TableChannelInfo) dataTypeTable
        [F64 id; F2 columnName]
  | KChannelInfoIndex indexName columnValue =>
      mkLogical (t_Id TableChannelInfo) dataTypeIndex
        [F2 indexName; F64 columnValue]
  | KChannelInfoSecond indexName columnValue id =>
      mkLogical (t_Id TableChannelInfo) dataTypeIndex
        [F2 indexName; F64 columnValue; F64 id]
  | KDenylistColumn channelId channelType id columnName =>
      mkLogical (t_Id TableDenylist) dataTypeTable
        [F64 (channelToNum channelId channelType); F64 id; F2 columnName]
  | KDenylistIndex channelId channelType indexName primaryKey =>
      mkLogical (t_Id TableDenylist) dataTypeIndex
        [F2 indexName; F64 (channelToNum channelId channelType); F64 primaryKey]
  | KDenylistSecond channelId channelType indexName columnValue id =>
      mkLogical (t_Id TableDenylist) dataTypeSecondIndex
        [F2 indexName; F64 (channelToNum channelId channelType); F64 columnValue; F64 id]
  | KAllowlistColumn channelId channelType id columnName =>
      mkLogical (t_Id TableAllowlist) dataTypeTable
        [F64 (channelToNum channelId channelType); F64 id; F2 columnName]
  | KAllowlistIndex channelId channelType indexName primaryKey =>
      mkLogical (t_Id TableAllowlist) dataTypeIndex
        [F2 (indexName.1, indexName.1); F64 (channelToNum channelId channelType); F64 primaryKey]
  | KAllowlistSecond channelId channelType indexName columnValue id =>
      mkLogical (t_Id TableAllowlist) dataTypeSecondIndex
        [F2 indexName; F64 (channelToNum channelId channelType); F64 columnValue; F64 id]
  | KConversationColumn uid primaryKey columnName =>
      mkLogical (t_Id TableConversation) dataTypeTable
        [F64 (HashWithString uid); F64 primaryKey; F2 columnName]
  | KConversationChannel uid channelId channelType =>
      mkLogical (t_Id TableConversation) dataTypeIndex
        [F2 (index TableConversation "Channel");
         F64 (HashWithString uid); F64 (channelToNum channelId channelType)]
  | KConversationSecond uid indexName indexValue primaryKey =>
      mkLogical (t_Id TableConversation) dataTypeSecondIndex
        [F64 (HashWithString uid); F2 indexName; F64 indexValue; F64 primaryKey]
  | KMessageNotifyQueue messageId =>
      mkLogical (t_Id TableMessageNotifyQueue) dataTypeTable
        [F64 messageId]
  | KChannelClusterConfigColumn primaryKey columnName =>
      mkLogical (t_Id TableChannelClusterConfig) dataTypeTable
        [F64 primaryKey; F2 columnName]
  | KChannelClusterConfigIndex channelId channelType =>
      mkLogical (t_Id TableChannelClusterConfig) dataTypeIndex
        [F2 (index TableChannelClusterConfig "Channel"); F64 (channelToNum channelId channelType)]
  | KChannelClusterConfigSecond indexName columnValue primaryKey =>
      mkLogical (t_Id TableChannelClusterConfig) dataTypeSecondIndex
        [F2 indexName; F64 columnValue; F64 primaryKey]
  | KLeaderTerm shardNo term =>
      mkLogical (t_Id TableLeaderTermSequence) dataTypeTable
        [F64 (HashWithString shardNo); F32 term]
  | KChannelCommon channelId channelType columnName =>
      mkLogical (t_Id TableChannelCommon) dataTypeTable
        [F64 (channelToNum channelId channelType); F2 columnName]
  | KTotal columnName =>
      mkLogical (t_Id TableTotal) dataTypeTable
        [F64 0; F2 columnName]
  | KSystemUidColumn id columnName =>
      mkLogical (t_Id TableSystemUid) dataTypeTable
        [F64 id; F2 columnName]
  | KLocalUser channelId channelType uid =>
      mkLogical (t_Id TableConversationLocalUser) dataTypeTable
        [F64 (channelToNum channelId channelType); FRest (str_bytes uid)]
  | KTesterColumn id columnName =>
      mkLogical (t_Id TableTester) dataTypeTable
        [F64 id; F2 columnName]
  | KPluginColumn id columnName =>
      mkLogical (t_Id TablePlugin) dataTypeTable
        [F64 id; F2 columnName]
  | KPluginUserColumn pluginId columnName =>
      mkLogical (t_Id TablePluginUser) dataTypeTable
        [F64 pluginId; F2 columnName]
  | KPluginUserSecond indexName columnValue id =>
      mkLogical (t_Id TablePluginUser) dataTypeIndex
        [F2 indexName; F64 columnValue; F64 id]
  | KEventClientSeq channelId channelType clientMsgNo msgEventSeq =>
      mkLogical (t_Id TableMessageEvent) dataTypeIndex
        [F2 (index TableMessageEvent "ClientSeq"); F64 (ChannelHash channelId channelType);
         F64 (HashWithString clientMsgNo); F64 msgEventSeq]
  | KEventKeySeq channelId channelType clientMsgNo eventKey msgEventSeq =>
      mkLogical (t_Id TableMessageEvent) dataTypeIndex
        [F2 (index TableMessageEvent "ClientKeySeq"); F64 (ChannelHash channelId channelType);
         F64 (HashWithString (clientMsgNo +:+ ":" +:+ eventKey)); F64 msgEventSeq]
  | KEventID channelId channelType clientMsgNo eventID =>
      mkLogical (t_Id TableMessageEvent) dataTypeIndex
        [F2 (index TableMessageEvent "EventID"); F64 (ChannelHash channelId channelType);
         F64 (HashWithString clientMsgNo); F64 (HashWithString eventID)]
  | KEventState channelId channelType clientMsgNo eventKey =>
      mkLogical (t_Id TableMessageEventState) dataTypeTable
        [F64 (ChannelHash channelId channelType);
         F64 (HashWithString clientMsgNo); F64 (HashWithString eventKey)]
  | KEventSeq channelId channelType clientMsgNo =>
      mkLogical (t_Id TableMessageEventSeq) dataTypeOther
        [F64 (ChannelHash channelId channelType); F64 (HashWithString clientMsgNo)]
  | KOutbox channelID channelType messageSeq messageID =>
      mkLogical (t_Id TableSearchOutbox) dataTypeTable
        [FRest (outbox_channel channelID channelType ++
                be_bytes 8 messageSeq ++ be_bytes 8 messageID)]
  | KOutboxFloor channelID channelType =>
      mkLogical (t_Id TableSearchOutbox) dataTypeOther [FRest (outbox_channel channelID channelType)]
  | KQuarantine rawKey => mkLogical (t_Id TableSearchOutboxQuarantine) dataTypeTable [FRest rawKey]
  | KOutboxState rawKey => mkLogical (t_Id TableSearchOutboxState) dataTypeTable [FRest rawKey]
  end.

(** The arguments fit their types. *)
Definition call_ok (c : call) : Prop :=
  match c with
  | KMessageColumn _ _ messageSeq _ => is_u64 messageSeq
  | KMessageColumnPrimary primary _ => length primary = 16%nat
  | KMessageId messageId => is_u64 messageId
  | KMessageFromUid _ primaryKey => length primaryKey = 16%nat
  | KMessageClientMsgNo _ primaryKey => length primaryKey = 16%nat
  | KMessageTimestamp timestamp primaryKey => is_u64 timestamp /\ length primaryKey = 16%nat
  | KUserColumn id _ => is_u64 id
  | KUserIndex _ columnValue => is_u64 columnValue
  | KUserSecond _ columnValue id => is_u64 columnValue /\ is_u64 id
  | KDeviceColumn id _ => is_u64 id
  | KDeviceIndex _ columnValue => is_u64 columnValue
  | KDeviceSecond _ columnValue id => is_u64 columnValue /\ is_u64 id
  | KSubscriberColumn _ _ id _ => is_u64 id
  | KSubscriberIndex _ _ _ primaryKey => is_u64 primaryKey
  | KSubscriberSecond _ _ _ columnValue id => is_u64 columnValue /\ is_u64 id
  | KSubscriberChannelRelationColumn id _ => is_u64 id
  | KChannelInfoColumn id _ => is_u64 id
  | KChannelInfoIndex _ columnValue => is_u64 columnValue
  | KChannelInfoSecond _ columnValue id => is_u64 columnValue /\ is_u64 id
  | KDenylistColumn _ _ id _ => is_u64 id
  | KDenylistIndex _ _ _ primaryKey => is_u64 primaryKey
  | KDenylistSecond _ _ _ columnValue id => is_u64 columnValue /\ is_u64 id
  | KAllowlistColumn _ _ id _ => is_u64 id
  | KAllowlistIndex _ _ _ primaryKey => is_u64 primaryKey
  | KAllowlistSecond _ _ _ columnValue id => is_u64 columnValue /\ is_u64 id
  | KConversationColumn _ primaryKey _ => is_u64 primaryKey
  | KConversationSecond _ _ indexValue primaryKey => is_u64 indexValue /\ is_u64 primaryKey
  | KMessageNotifyQueue messageId => is_u64 messageId
  | KChannelClusterConfigColumn primaryKey _ => is_u64 primaryKey
  | KChannelClusterConfigSecond _ columnValue primaryKey => is_u64 columnValue /\ is_u64 primaryKey
  | KLeaderTerm _ term => is_u32 term
  | KSystemUidColumn id _ => is_u64 id
  | KTesterColumn id _ => is_u64 id
  | KPluginColumn id _ => is_u64 id
  | KPluginUserColumn pluginId _ => is_u64 pluginId
  | KPluginUserSecond _ columnValue id => is_u64 columnValue /\ is_u64 id
  | KEventClientSeq _ _ _ msgEventSeq => is_u64 msgEventSeq
  | KEventKeySeq _ _ _ _ msgEventSeq => is_u64 msgEventSeq
  | KOutbox channelID channelType messageSeq messageID =>
      IsValidSearchOutboxChannelIdentity channelID channelType = true /\ is_u8 channelType /\
      0 < messageSeq <= MaxUint32 /\ 0 < messageID <= MaxInt64
  | KOutboxFloor channelID channelType =>
      IsValidSearchOutboxChannelIdentity channelID channelType = true /\ is_u8 channelType
  | _ => True
  end.

#[export] Instance call_ok_dec c : Decision (call_ok c).
Proof. destruct c; simpl; apply _. Defined.

(** ** The bytes of a call *)

(** A slice of 16 bytes, byte by byte. *)
Ltac bytes16 p H :=
  do 16 (destruct p as [|? p]; [discriminate H|]); destruct p; [|discriminate H].

(** A copy to the end of a slice. *)
Lemma put_end i bs key :
  (i + length bs = length key)%nat -> put i bs key = Ok (take i key ++ bs).
Proof.
  intros H. unfold put. destruct (Nat.leb_spec (i + length bs) (length key)); [|lia].
  rewrite drop_ge by lia. by rewrite app_nil_r.
Qed.

Lemma copy_end i bs key :
  (i + length bs = length key)%nat -> do_write key (WCopy i bs) = Ok (take i key ++ bs).
Proof.
  intros H. simpl. destruct (Nat.leb_spec i (length key)); [|lia].
  rewrite take_ge by lia. by apply put_end.
Qed.

Lemma do_writes_app key ws1 ws2 :
  do_writes key (ws1 ++ ws2) = (let! key := do_writes key ws1 in do_writes key ws2).
Proof.
  revert key. induction ws1 as [|w ws1 IH]; intros key; simpl; [done|].
  destruct (do_write key w); simpl; auto.
Qed.

Lemma LocalUser_spec channelId channelType uid :
  NewConversationLocalUserKey channelId channelType uid =
  Ok (prefix4 (t_Id TableConversationLocalUser) dataTypeTable ++
      be_bytes 8 (channelToNum channelId channelType) ++ str_bytes uid).
Proof.
  unfold NewConversationLocalUserKey, make. generalize (channelToNum channelId channelType) as h.
  generalize (str_bytes uid) as bs. intros bs h.
  change [WUint 8 4 h; WCopy 12 bs] with ([WUint 8 4 h] ++ [WCopy 12 bs]).
  rewrite app_assoc, do_writes_app, replicate_add.
  change (do_writes (replicate 12 x00 ++ replicate (length bs) x00)
            (header TableConversationLocalUser dataTypeTable ++ [WUint 8 4 h])) with
    (Ok (prefix4 (t_Id TableConversationLocalUser) dataTypeTable ++ be_bytes 8 h ++
         replicate (length bs) x00)).
  cbn [res_bind do_writes]. rewrite copy_end; [reflexivity|].
  rewrite !length_app, be_bytes_length, length_replicate. reflexivity.
Qed.

Lemma len_u16 {A} (l : list A) : len l <= 100 -> u16 (len l) = len l.
Proof. intros. apply u16_small. unfold is_u16. lia. Qed.

Lemma valid_identity channelID channelType :
  IsValidSearchOutboxChannelIdentity channelID channelType = true ->
  channelID <> "" /\ channelType <> 0 /\ utf8_valid (str_bytes channelID) = true /\
  len (str_bytes channelID) <= 100.
Proof.
  unfold IsValidSearchOutboxChannelIdentity, MaxSearchOutboxChannelIDBytes.
  rewrite !andb_true_iff, !negb_true_iff. intros [[[H1 H2] H3] H4].
  apply bool_decide_eq_false in H1. apply Z.eqb_neq in H2. apply Z.leb_le in H4. done.
Qed.

Lemma outbox_prefix_spec channelID channelType :
  IsValidSearchOutboxChannelIdentity channelID channelType = true ->
  searchOutboxChannelPrefix channelID channelType =
  Ok (Some (prefix4 (t_Id TableSearchOutbox) dataTypeTable ++ outbox_channel channelID channelType)).
Proof.
  intros H. destruct (valid_identity _ _ H) as (_ & _ & _ & Hl).
  unfold searchOutboxChannelPrefix, outbox_channel, make. rewrite H. cbn [negb].
  rewrite len_u16 by done. generalize dependent (str_bytes channelID). intros bs Hl.
  generalize (len bs) as n. generalize (byte_of_Z channelType) as t. intros t n.
  match goal with |- context [do_writes _ [?a; ?b; ?c; ?d; ?e; ?f; ?g]] =>
    change [a; b; c; d; e; f; g] with ([a; b; c; d; e; f] ++ [g]) end.
  rewrite do_writes_app. change (2 + 2 + 1 + 2 + length bs)%nat with (7 + length bs)%nat.
  rewrite replicate_add.
  match goal with |- context [do_writes (replicate 7 x00 ++ ?r) ?ws] =>
    change (do_writes (replicate 7 x00 ++ r) ws) with
      (Ok (prefix4 (t_Id TableSearchOutbox) dataTypeTable ++ t :: be_bytes 2 n ++ r)) end.
  cbn [res_bind do_writes]. rewrite copy_end; [reflexivity|].
  rewrite length_app. cbn [length]. rewrite length_app, be_bytes_length, length_replicate. reflexivity.
Qed.

(** A prefix that is copied and followed by two integers. *)
Lemma tail16_spec prefix a b :
  make (length prefix + 8 + 8)
    [WCopy 0 prefix; WUint 8 (length prefix) a; WUint 8 (length prefix + 8) b] =
  Ok (prefix ++ be_bytes 8 a ++ be_bytes 8 b).
Proof.
  unfold make. rewrite <-Nat.add_assoc, replicate_add. cbn [do_writes]. cbn [do_write].
  rewrite (proj2 (Nat.leb_le 0 _)) by lia.
  rewrite take_ge by (rewrite length_app, length_replicate; lia).
  unfold put at 1. rewrite length_app, length_replicate.
  rewrite (proj2 (Nat.leb_le _ _)) by lia. cbn [res_bind take]. rewrite app_nil_l, Nat.add_0_l.
  rewrite drop_app_length' by by rewrite length_replicate.
  unfold put at 1. rewrite length_app, length_replicate, be_bytes_length.
  rewrite (proj2 (Nat.leb_le _ _)) by (cbn; lia). cbn [res_bind].
  rewrite take_app_length. rewrite <-drop_drop, drop_app_length.
  rewrite put_end.
  - cbn [res_bind]. f_equal. rewrite app_assoc. rewrite take_app_length'; [by rewrite <-app_assoc|].
    by rewrite length_app, be_bytes_length.
  - rewrite !length_app, !be_bytes_length. simpl. lia.
Qed.

Lemma outbox_spec channelID channelType messageSeq messageID :
  call_ok (KOutbox channelID channelType messageSeq messageID) ->
  NewSearchOutboxKey channelID channelType messageSeq messageID =
  Ok (Some (prefix4 (t_Id TableSearchOutbox) dataTypeTable ++ outbox_channel channelID channelType ++
            be_bytes 8 messageSeq ++ be_bytes 8 messageID)).
Proof.
  intros (H & _ & Hs & Hm). unfold NewSearchOutboxKey. rewrite (outbox_prefix_spec _ _ H).
  cbn [res_bind]. unfold MaxUint32, MaxInt64 in *.
  destruct (Z.eqb_spec messageSeq 0), (Z.ltb_spec 4294967295 messageSeq), (Z.leb_spec messageID 0);
    try lia. cbn [orb].
  rewrite tail16_spec. cbn [res_bind]. rewrite u64_small by (unfold is_u64; lia).
  by rewrite <-app_assoc.
Qed.

Lemma outbox_floor_spec channelID channelType :
  IsValidSearchOutboxChannelIdentity channelID channelType = true ->
  NewSearchOutboxFloorKey channelID channelType =
  Ok (Some (prefix4 (t_Id TableSearchOutbox) dataTypeOther ++ outbox_channel channelID channelType)).
Proof.
  intros H. unfold NewSearchOutboxFloorKey. rewrite (outbox_prefix_spec _ _ H). reflexivity.
Qed.

Lemma WithPrimary_spec primary columnName :
  length primary = 16%nat ->
  NewMessageColumnKeyWithPrimary primary columnName =
  Ok (prefix4 (t_Id TableMessage) dataTypeTable ++ primary ++ [columnName.1; columnName.2]).
Proof. intros H. bytes16 primary H. reflexivity. Qed.

Lemma be_bytes_val bs : be_bytes (length bs) (be_val bs) = bs.
Proof.
  pose proof (be_val_bound bs) as Hb.
  apply bcompare_eq. assert (HV : forall a b : bytes, length a = length b ->
    bcompare a b = (be_val a ?= be_val b)).
  { intros a. induction a as [|x a IH] using rev_ind; intros b Hl.
    - by destruct b.
    - destruct b as [|y b _] using rev_ind; [rewrite length_app in Hl; simpl in Hl; lia|].
      rewrite !length_app in Hl. simpl in Hl.
      rewrite bcompare_app by lia. rewrite IH by lia. rewrite !be_val_app'.
      replace (be_val [x]) with (Z_of_byte x) by (unfold be_val; simpl; by rewrite Z.lor_0_l).
      replace (be_val [y]) with (Z_of_byte y) by (unfold be_val; simpl; by rewrite Z.lor_0_l).
      change (2 ^ (8 * len [x])) with two8. change (2 ^ (8 * len [y])) with two8.
      pose proof (Z_of_byte_range x) as Hx. pose proof (Z_of_byte_range y) as Hy.
      unfold is_u8 in *. cbn [bcompare].
      destruct (Z.compare_spec (be_val a) (be_val b)), (Z.compare_spec (Z_of_byte x) (Z_of_byte y)),
        (Z.compare_spec (be_val a * two8 + Z_of_byte x) (be_val b * two8 + Z_of_byte y));
        try done; lia. }
  rewrite HV by apply be_bytes_length. rewrite be_val_bytes by done. apply Z.compare_refl.
Qed.

Ltac key_fields :=
  unfold encode_key;
  cbn [layout lk_id lk_kind lk_fields flat_map fld_bytes made res_bind].

Lemma build_spec c : call_ok c -> build c = Ok (encode_key (layout c)).
Proof.
  intros H.
  destruct c; try reflexivity; unfold build.
  - rewrite WithPrimary_spec by exact H. key_fields.
    do 2 f_equal. simpl in H.
    rewrite app_nil_r, app_assoc. f_equal.
    rewrite <-(take_drop 8 primary) at 1. f_equal.
    + symmetry. etrans; [|apply be_bytes_val]. f_equal. rewrite length_take. lia.
    + symmetry. etrans; [|apply be_bytes_val]. f_equal. rewrite length_drop. lia.
  - simpl in H. bytes16 primaryKey H. reflexivity.
  - simpl in H. bytes16 primaryKey H. reflexivity.
  - destruct H as [_ H]. bytes16 primaryKey H. reflexivity.
  - rewrite LocalUser_spec. key_fields.
    by rewrite app_nil_r.
  - rewrite outbox_spec by exact H. key_fields.
    by rewrite app_nil_r.
  - rewrite outbox_floor_spec by apply H. key_fields.
    by rewrite app_nil_r.
  - unfold NewSearchOutboxQuarantineKey. key_fields. by rewrite app_nil_r.
  - unfold NewSearchOutboxStateKey. key_fields. by rewrite app_nil_r.
Qed.

(** ** The shapes of the calls *)

Definition samples : list call :=
  [KMessageColumn "" 0 0 MinColumnKey; KLastMessageSeq "" 0; KMessageId 0; KMessageFromUid "" [];
   KMessageTimestamp 0 []; KUserColumn 0 MinColumnKey; KUserIndex MinColumnKey 0;
   KUserSecond MinColumnKey 0 0; KDeviceColumn 0 MinColumnKey; KDeviceIndex MinColumnKey 0;
   KDeviceSecond MinColumnKey 0 0; KSubscriberColumn "" 0 0 MinColumnKey;
   KSubscriberIndex "" 0 MinColumnKey 0; KSubscriberSecond "" 0 MinColumnKey 0 0;
   KSubscriberChannelRelationColumn 0 MinColumnKey; KChannelInfoColumn 0 MinColumnKey;
   KChannelInfoIndex MinColumnKey 0; KChannelInfoSecond MinColumnKey 0 0;
   KDenylistColumn "" 0 0 MinColumnKey; KDenylistIndex "" 0 MinColumnKey 0;
   KDenylistSecond "" 0 MinColumnKey 0 0; KAllowlistColumn "" 0 0 MinColumnKey;
   KAllowlistIndex "" 0 MinColumnKey 0; KAllowlistSecond "" 0 MinColumnKey 0 0;
   KConversationColumn "" 0 MinColumnKey; KConversationChannel "" "" 0;
   KConversationSecond "" MinColumnKey 0 0; KMessageNotifyQueue 0;
   KChannelClusterConfigColumn 0 MinColumnKey; KChannelClusterConfigIndex "" 0;
   KChannelClusterConfigSecond MinColumnKey 0 0; KLeaderTerm "" 0; KChannelCommon "" 0 MinColumnKey;
   KTotal MinColumnKey; KSystemUidColumn 0 MinColumnKey; KLocalUser "" 0 "";
   KTesterColumn 0 MinColumnKey; KPluginColumn 0 MinColumnKey; KPluginUserColumn 0 MinColumnKey;
   KPluginUserSecond MinColumnKey 0 0; KEventID "" 0 "" ""; KEventState "" 0 "" "";
   KEventSeq "" 0 ""; KOutbox "" 0 0 0; KOutboxFloor "" 0; KQuarantine []; KOutboxState []].

Definition shapes : list shape := (fun c => shape_of (layout c)) <$> samples.

(** No two tables can be confused. *)
Lemma shapes_apart :
  forallb (fun s => rest_last (sh_widths s) && forallb (apart s) shapes) shapes = true.
Proof. vm_compute. reflexivity. Qed.

Lemma layout_shape c : shape_of (layout c) ∈ shapes.
Proof. destruct c; apply (bool_decide_unpack _); vm_compute; exact I. Qed.

Lemma calls_apart c c' :
  apart (shape_of (layout c)) (shape_of (layout c')) = true /\
  rest_last (sh_widths (shape_of (layout c))) = true.
Proof.
  pose proof shapes_apart as H. rewrite forallb_forall in H.
  specialize (H _ (proj1 (list_elem_of_In _ _) (layout_shape c))).
  apply andb_true_iff in H as [H1 H2]. split; [|done].
  rewrite forallb_forall in H2. apply H2, list_elem_of_In, layout_shape.
Qed.

Lemma HashWithString_range s : is_u64 (HashWithString s).
Proof. apply fnv64a_range. Qed.
Lemma channelToNum_range c t : is_u64 (channelToNum c t).
Proof. apply fnv64a_range. Qed.
Lemma ChannelHash_range c t : is_u64 (ChannelHash c t).
Proof. apply fnv64a_range. Qed.
#[export] Hint Resolve HashWithString_range channelToNum_range ChannelHash_range : go_ints.

Lemma be_val_u64 bs : length bs = 8%nat -> is_u64 (be_val bs).
Proof. intros H. pose proof (be_val_bound bs) as Hb. rewrite H in Hb. exact Hb. Qed.

Lemma layout_ok c : call_ok c -> Forall fld_ok (lk_fields (layout c)).
Proof.
  intros H; destruct c; simpl in *; destruct_and?;
    repeat apply List.Forall_cons; try apply List.Forall_nil; simpl; auto with go_ints;
    try apply be_val_u64; try (unfold is_u64; lia); try (rewrite length_take; lia);
    rewrite length_drop; lia.
Qed.

(** The bytes of a call determine what it stands for. *)
Lemma layout_inj c c' :
  call_ok c -> call_ok c' -> encode_key (layout c) = encode_key (layout c') -> layout c = layout c'.
Proof.
  intros H H'. destruct (calls_apart c c'). apply encode_inj; auto using layout_ok.
Qed.

(** ** Scans *)

(** A scan between two keys of one kind of data sees nothing else. *)
Lemma scan_kind id kind a b l :
  in_range (prefix4 id kind ++ a) (prefix4 id kind ++ b) (encode_key l) <->
  lk_id l = id /\ lk_kind l = kind /\ in_range a b (flat_map fld_bytes (lk_fields l)).
Proof.
  split.
  - intros H. pose proof H as (c & Hc & _)%range_prefix.
    destruct l as [[i1 i2] k fs], id as [j1 j2]. unfold encode_key, prefix4 in Hc, H. simpl in *.
    injection Hc as -> -> ->%dataType_byte_inj _. split; [done|]. split; [done|].
    apply (in_range_prefix [j1; j2; dataType_byte kind; x00]). exact H.
  - intros (<- & <- & H). unfold encode_key. by apply in_range_prefix.
Qed.

Definition two_pow64 : 2 ^ (8 * Z.of_nat 8) = two64 := eq_refl.

(** A bound on the first of the fields. *)
Lemma scan_u64 lo hi v a b c :
  is_u64 lo -> is_u64 hi -> is_u64 v ->
  in_range (be_bytes 8 lo ++ a) (be_bytes 8 hi ++ b) (be_bytes 8 v ++ c) <->
  (lo < v \/ lo = v /\ ble a c) /\ (v < hi \/ v = hi /\ blt c b).
Proof. apply (range_field 8). Qed.

Lemma ble_nil a : ble [] a.
Proof. by destruct a. Qed.
Lemma blt_nil a : ~ blt a [].
Proof. by destruct a. Qed.

(** The calls of the table of the messages. *)
Lemma message_columns c :
  lk_id (layout c) = t_Id TableMessage -> lk_kind (layout c) = dataTypeTable ->
  exists h s col, layout c = mkLogical (t_Id TableMessage) dataTypeTable [F64 h; F64 s; F2 col].
Proof. destruct c; simpl; intros E1 E2; try discriminate E1; try discriminate E2; eauto. Qed.

Lemma subscriber_columns c :
  lk_id (layout c) = t_Id TableSubscriber -> lk_kind (layout c) = dataTypeTable ->
  exists h i col, layout c = mkLogical (t_Id TableSubscriber) dataTypeTable [F64 h; F64 i; F2 col].
Proof. destruct c; simpl; intros E1 E2; try discriminate E1; try discriminate E2; eauto. Qed.

(** ** The outbox *)

Lemma byte_succ b : b <> xff -> Z_of_byte (byte_of_Z (Z_of_byte b + 1)) = Z_of_byte b + 1.
Proof.
  intros H. rewrite byte_of_Z_of_byte. apply u8_small. pose proof (Z_of_byte_range b) as Hb.
  unfold is_u8 in *. assert (Z_of_byte b <> Z_of_byte xff) by (intros E; by apply H, Z_of_byte_inj).
  change (Z_of_byte xff) with 255 in *. lia.
Qed.

(** The bound of the source is above exactly the keys with the prefix. *)
Lemma incremented_range p u a k :
  incremented (rev p) = Some u ->
  in_range (p ++ a) u k <-> exists c, k = p ++ c /\ ble a c.
Proof.
  revert a. induction p as [|b q IH] using rev_ind; intros a; [done|].
  rewrite rev_app_distr. cbn [rev app incremented]. case_bool_decide as Eb.
  - subst b. intros Hu. rewrite <-app_assoc. rewrite (IH ([xff] ++ a) Hu). split.
    + intros (c & -> & Hc). destruct c as [|y c]; [by unfold ble in Hc|]. unfold ble in Hc.
      cbn [app bcompare] in Hc. change (Z_of_byte xff) with 255 in Hc.
      pose proof (Z_of_byte_range y) as Hy. unfold is_u8 in Hy.
      destruct (Z.compare_spec 255 (Z_of_byte y)) as [E|E|E]; [|lia|done].
      assert (y = xff) as -> by (apply Z_of_byte_inj; rewrite <-E; done).
      exists c. rewrite <-app_assoc. done.
    + intros (c & -> & Hc). exists (xff :: c). rewrite <-app_assoc. split; [done|]. done.
  - intros [= <-]. rewrite rev_involutive, <-app_assoc. cbn [app].
    pose proof (byte_succ b Eb) as Hs. split.
    + intros (c & -> & [H1 H2])%range_prefix. destruct c as [|y c]; [by unfold ble in H1|].
      unfold ble in H1. unfold blt in H2. cbn [bcompare] in H1, H2. rewrite Hs in H2.
      destruct (Z.compare_spec (Z_of_byte b) (Z_of_byte y)) as [E|E|E];
        [|destruct (Z.compare_spec (Z_of_byte y) (Z_of_byte b + 1)); [by destruct c|lia|done]|done].
      apply Z_of_byte_inj in E as <-. exists c. by rewrite <-app_assoc.
    + intros (c & -> & Hc). rewrite <-app_assoc. cbn [app]. apply in_range_prefix.
      split; [unfold ble; cbn [bcompare]; by rewrite Z.compare_refl|].
      unfold blt. cbn [bcompare]. rewrite Hs.
      by rewrite (proj2 (Z.compare_lt_iff (Z_of_byte b) (Z_of_byte b + 1))) by lia.
Qed.

Lemma incremented_some p b : b ∈ p -> b <> xff -> is_Some (incremented (rev p)).
Proof.
  intros Hb Hne. assert (H : b ∈ rev p) by (by apply list_elem_of_In, in_rev; rewrite rev_involutive; apply list_elem_of_In).
  induction (rev p) as [|x l IH]; [by apply not_elem_of_nil in H|]. cbn [incremented].
  case_bool_decide as E; [|eauto]. apply IH. apply elem_of_cons in H as [->|]; done.
Qed.

Lemma str_bytes_inj s s' : str_bytes s = str_bytes s' -> s = s'.
Proof.
  unfold str_bytes. intros H.
  by rewrite <-(String.string_of_list_byte_of_string s), H, String.string_of_list_byte_of_string.
Qed.

Lemma byte_of_Z_inj a b : is_u8 a -> is_u8 b -> byte_of_Z a = byte_of_Z b -> a = b.
Proof.
  intros Ha Hb E. apply (f_equal Z_of_byte) in E. rewrite !byte_of_Z_of_byte in E.
  by rewrite !u8_small in E.
Qed.

(** The name of a channel is not a prefix of another one. *)
Lemma outbox_channel_inj ch t ch' t' x y :
  is_u8 t -> is_u8 t' -> len (str_bytes ch) <= 100 -> len (str_bytes ch') <= 100 ->
  outbox_channel ch t ++ x = outbox_channel ch' t' ++ y -> ch = ch' /\ t = t' /\ x = y.
Proof.
  intros Ht Ht' Hl Hl' E. unfold outbox_channel in E.
  change (([byte_of_Z t] ++ be_bytes 2 (len (str_bytes ch)) ++ str_bytes ch) ++ x =
          ([byte_of_Z t'] ++ be_bytes 2 (len (str_bytes ch')) ++ str_bytes ch') ++ y) in E.
  rewrite <-!app_assoc in E. apply app_inj_1 in E as [[= E1] E2]; [|done].
  apply byte_of_Z_inj in E1; [|done|done].
  apply app_inj_1 in E2 as [E2 E3]; [|by rewrite !be_bytes_length].
  apply (be_bytes_inj 2) in E2; [|cbn; lia|cbn; lia].
  apply app_inj_1 in E3 as [E3 E4]; [|lia]. apply str_bytes_inj in E3. done.
Qed.

Lemma u64_of_u32 v : 0 < v <= MaxUint32 -> is_u64 v.
Proof. unfold MaxUint32, is_u64. lia. Qed.
Lemma u64_of_i64 v : 0 < v <= MaxInt64 -> is_u64 v.
Proof. unfold MaxInt64, is_u64. lia. Qed.

Lemma outbox_keys c :
  lk_id (layout c) = t_Id TableSearchOutbox -> lk_kind (layout c) = dataTypeTable ->
  exists ch t s m, c = KOutbox ch t s m.
Proof. destruct c; simpl; intros E1 E2; try discriminate E1; try discriminate E2; eauto. Qed.

(** What the parser reads at its offsets. *)
Lemma read_after pre w v post :
  0 <= v < 2 ^ (8 * Z.of_nat w) ->
  read_uint w (length pre) (pre ++ be_bytes w v ++ post) = Ok v.
Proof.
  intros Hv. unfold read_uint. rewrite !length_app, be_bytes_length.
  rewrite (proj2 (Nat.leb_le _ _)) by lia. rewrite drop_app_length.
  rewrite take_app_length' by (by rewrite be_bytes_length). by rewrite be_val_bytes.
Qed.

Lemma ParseSearchOutboxKey_spec ch t s m :
  call_ok (KOutbox ch t s m) ->
  ParseSearchOutboxKey (encode_key (layout (KOutbox ch t s m))) = Ok (Some (ch, t, s, m)).
Proof.
  intros (H & Ht & Hs & Hm). destruct (valid_identity _ _ H) as (Hne & Ht0 & Hu & Hl).
  key_fields. rewrite app_nil_r. unfold outbox_channel. cbn [app].
  set (bs := str_bytes ch) in *. set (tb := byte_of_Z t).
  set (p4 := prefix4 (t_Id TableSearchOutbox) dataTypeTable).
  set (raw := p4 ++ tb :: (be_bytes 2 (len bs) ++ bs) ++ be_bytes 8 s ++ be_bytes 8 m).
  assert (Hraw : length raw = (23 + length bs)%nat).
  { unfold raw. rewrite length_app. cbn [length]. rewrite !length_app, !be_bytes_length. simpl. lia. }
  assert (Hbs : bs <> []).
  { intros E. apply Hne, str_bytes_inj. exact E. }
  assert (Hpos : 0 < len bs) by (destruct bs; [done|simpl; lia]).
  assert (R5 : read_uint 2 5 raw = Ok (len bs)).
  { replace raw with ((p4 ++ [tb]) ++ be_bytes 2 (len bs) ++ (bs ++ be_bytes 8 s ++ be_bytes 8 m)).
    - apply (read_after (p4 ++ [tb])). cbn. lia.
    - unfold raw. by rewrite <-!app_assoc. }
  assert (R7 : drop 7 raw = bs ++ be_bytes 8 s ++ be_bytes 8 m).
  { replace raw with ((p4 ++ tb :: be_bytes 2 (len bs)) ++ bs ++ be_bytes 8 s ++ be_bytes 8 m).
    - by rewrite drop_app_length'.
    - unfold raw. by rewrite <-!app_assoc. }
  assert (Rs : read_uint 8 (7 + length bs) raw = Ok s).
  { replace raw with ((p4 ++ tb :: be_bytes 2 (len bs) ++ bs) ++ be_bytes 8 s ++ be_bytes 8 m).
    - change (7 + length bs)%nat with (length (p4 ++ tb :: be_bytes 2 (len bs) ++ bs)).
      apply read_after. by apply u64_of_u32.
    - unfold raw. by rewrite <-!app_assoc. }
  assert (Rm : read_uint 8 (7 + length bs + 8) raw = Ok m).
  { replace raw with ((p4 ++ tb :: be_bytes 2 (len bs) ++ bs ++ be_bytes 8 s) ++ be_bytes 8 m ++ []).
    - replace (7 + length bs + 8)%nat with (length (p4 ++ tb :: be_bytes 2 (len bs) ++ bs ++ be_bytes 8 s)).
      + apply read_after. by apply u64_of_i64.
      + rewrite length_app. cbn [length]. rewrite !length_app, !be_bytes_length. simpl. lia.
    - unfold raw. rewrite app_nil_r, <-!app_assoc. cbn [app]. by rewrite <-!app_assoc. }
  unfold ParseSearchOutboxKey. cbv zeta. rewrite Hraw.
  destruct (Nat.ltb_spec (23 + length bs) (2 + 2 + 1 + 2 + 8 + 8)); [lia|].
  change (read_byte 0 raw) with (@Ok byte x1b). change (read_byte 1 raw) with (@Ok byte x01).
  change (read_byte 2 raw) with (@Ok byte x01). change (read_byte 3 raw) with (@Ok byte x00).
  change (read_byte 4 raw) with (Ok tb). cbn [res_bind].
  assert (Htb : tb <> x00).
  { intros E. apply Ht0. apply (f_equal Z_of_byte) in E. unfold tb in E.
    rewrite byte_of_Z_of_byte, u8_small in E by done. exact E. }
  rewrite (bool_decide_eq_false_2 _ Htb). cbn [negb orb t_Id TableSearchOutbox dataType_byte fst snd].
  rewrite !bool_decide_eq_true_2 by done. cbn [negb orb]. rewrite R5. cbn [res_bind].
  unfold MaxSearchOutboxChannelIDBytes.
  destruct (Z.eqb_spec (len bs) 0), (Z.ltb_spec 100 (len bs)); try lia. cbn [orb].
  rewrite (proj2 (Z.eqb_eq _ _)) by lia. cbn [negb]. rewrite Nat2Z.id, R7, take_app_length, Hu.
  cbn [negb]. rewrite Rs. cbn [res_bind]. rewrite Rm. cbn [res_bind].
  unfold MaxUint32, MaxInt64 in *.
  destruct (Z.eqb_spec s 0), (Z.ltb_spec 4294967295 s), (Z.eqb_spec m 0),
    (Z.ltb_spec 9223372036854775807 m); try lia. cbn [orb].
  unfold tb. rewrite byte_of_Z_of_byte, u8_small by done.
  rewrite i64_small by (unfold is_i64; lia). unfold bs, str_bytes.
  by rewrite String.string_of_list_byte_of_string.
Qed.

(** The range of a channel. *)
Lemma outbox_range_some ch t first :
  IsValidSearchOutboxChannelIdentity ch t = true -> 0 < first <= MaxUint32 ->
  let p := prefix4 (t_Id TableSearchOutbox) dataTypeTable ++ outbox_channel ch t in
  exists upper, NewSearchOutboxChannelRange ch t first = Ok (Some (p ++ be_bytes 8 first ++ be_bytes 8 1, upper)) /\
    incremented (rev p) = Some upper.
Proof.
  intros Hv Hf p. destruct (incremented_some p x1b) as [u Hu]; [constructor|done|]. exists u. split; [|done].
  unfold NewSearchOutboxChannelRange. rewrite (outbox_prefix_spec _ _ Hv). cbn [res_bind].
  unfold MaxUint32 in *. destruct (Z.eqb_spec first 0), (Z.ltb_spec 4294967295 first); try lia.
  cbn [orb]. rewrite tail16_spec. cbn [res_bind]. fold p. by rewrite Hu.
Qed.

(** ** Parsing *)

(** What the parser of a kind of keys returns for the key of a call. *)
Definition parsed (c : call) (k : bytes) : Prop :=
  match c with
  | KMessageColumn _ _ seq col => ParseMessageColumnKey k = Ok (Some (seq, col))
  | KMessageFromUid _ primary | KMessageClientMsgNo _ primary | KMessageTimestamp _ primary =>
      ParseMessageSecondIndexKey k = Ok (Some primary)
  | KUserColumn id col => ParseUserColumnKey k = Ok (Some (id, col))
  | KUserSecond _ v id => ParseUserSecondIndexKey k = Ok (Some (v, id))
  | KDeviceColumn id col => ParseDeviceColumnKey k = Ok (Some (id, col))
  | KDeviceSecond _ v id => ParseDeviceSecondIndexKey k = Ok (Some (v, id))
  | KSubscriberColumn _ _ id col => ParseSubscriberColumnKey k = Ok (Some (id, col))
  | KSubscriberSecond _ _ _ v id => ParseSubscriberSecondIndexKey k = Ok (Some (v, id))
  | KChannelInfoColumn id col => ParseChannelInfoColumnKey k = Ok (Some (id, col))
  | KChannelInfoSecond _ v id => ParseChannelInfoSecondIndexKey k = Ok (Some (v, id))
  | KDenylistColumn _ _ id col => ParseDenylistColumnKey k = Ok (Some (id, col))
  | KAllowlistColumn _ _ id col => ParseAllowlistColumnKey k = Ok (Some (id, col))
  | KConversationColumn _ pk col => ParseConversationColumnKey k = Ok (Some (pk, col))
  | KConversationSecond _ name v pk =>
      ParseConversationSecondIndexKey k = Ok (Some (pk, name, v))
  | KChannelClusterConfigColumn pk col =>
      ParseChannelClusterConfigColumnKey k = Ok (Some (pk, col))
  | KChannelClusterConfigSecond _ v pk =>
      ParseChannelClusterConfigSecondIndexKey k = Ok (Some (v, pk))
  | KLeaderTerm _ term => ParseLeaderTermSequenceTermKey k = Ok (Some term)
  | KLocalUser _ _ uid => ParseConversationLocalUserKey k = Ok (Some uid)
  | KTesterColumn id col => ParseTesterColumnKey k = Ok (Some (id, col))
  | KPluginColumn id col => ParsePluginColumnKey k = Ok (Some (id, col))
  | KPluginUserColumn id col => ParsePluginUserColumnKey k = Ok (Some (id, col))
  | KPluginUserSecond _ v id => ParsePluginUserSecondIndexKey k = Ok (Some (v, id))
  | KEventClientSeq ch t no seq =>
      ParseMessageEventIndexKey k =
      Ok (Some (index TableMessageEvent "ClientSeq", ChannelHash ch t, HashWithString no, seq))
  | KEventKeySeq ch t no key seq =>
      ParseMessageEventIndexKey k =
      Ok (Some (index TableMessageEvent "ClientKeySeq", ChannelHash ch t,
                HashWithString (no +:+ ":" +:+ key), seq))
  | KOutbox ch t s m => ParseSearchOutboxKey k = Ok (Some (ch, t, s, m))
  | _ => False
  end.

(** The keys the package has a parser for. *)
Definition has_parser (c : call) : Prop :=
  match c with
  | KMessageColumn _ _ _ _ | KMessageFromUid _ _ | KMessageClientMsgNo _ _ | KMessageTimestamp _ _ | KUserColumn _ _
  | KUserSecond _ _ _ | KDeviceColumn _ _ | KDeviceSecond _ _ _ | KSubscriberColumn _ _ _ _ | KSubscriberSecond _ _ _ _ _
  | KChannelInfoColumn _ _ | KChannelInfoSecond _ _ _ | KDenylistColumn _ _ _ _ | KAllowlistColumn _ _ _ _
  | KConversationColumn _ _ _ | KConversationSecond _ _ _ _ | KChannelClusterConfigColumn _ _
  | KChannelClusterConfigSecond _ _ _ | KLeaderTerm _ _ | KLocalUser _ _ _ | KTesterColumn _ _ | KPluginColumn _ _
  | KPluginUserColumn _ _ | KPluginUserSecond _ _ _ | KEventClientSeq _ _ _ _ | KEventKeySeq _ _ _ _ _ | KOutbox _ _ _ _ => True
  | _ => False
  end.

(** Reads an integer back from the bytes the key function wrote. *)
Ltac read_back :=
  lazymatch goal with
  | |- _ = Ok (Some (?n, ?a, ?b, ?c)) =>
      transitivity (Ok (Some (n, be_val (be_bytes 8 a), be_val (be_bytes 8 b), be_val (be_bytes 8 c))))
  | |- _ = Ok (Some (?a, ?n, ?b)) =>
      transitivity (Ok (Some (be_val (be_bytes 8 a), (n.1, n.2), be_val (be_bytes 8 b))))
  | |- _ = Ok (Some (?a, ?b)) =>
      lazymatch type of b with
      | Z => transitivity (Ok (Some (be_val (be_bytes 8 a), be_val (be_bytes 8 b))))
      | _ => transitivity (Ok (Some (be_val (be_bytes 8 a), (b.1, b.2))))
      end
  | |- _ = Ok (Some ?a) => transitivity (Ok (Some (be_val (be_bytes 4 a))))
  end; [reflexivity|rewrite !be_val_bytes;
    first [done | assumption | apply HashWithString_range | apply ChannelHash_range]].

Lemma parsed_spec c : has_parser c -> call_ok c -> parsed c (encode_key (layout c)).
Proof.
  intros Hp H; pose proof H as H0; destruct c; try (exfalso; exact Hp); unfold parsed; simpl in H; destruct_and?;
    try (repeat match goal with n : (byte * byte)%type |- _ => destruct n end; read_back; fail).
  - bytes16 primaryKey H. reflexivity.
  - bytes16 primaryKey H. reflexivity.
  - match goal with Hp : length primaryKey = _ |- _ => bytes16 primaryKey Hp end. reflexivity.
  - key_fields. rewrite app_nil_r. unfold ParseConversationLocalUserKey.
    rewrite length_app, length_app, be_bytes_length. cbn [prefix4 length Nat.add Nat.ltb Nat.leb].
    rewrite app_assoc, drop_app_length' by (by rewrite length_app, be_bytes_length).
    unfold str_bytes. by rewrite String.string_of_list_byte_of_string.
  - by apply ParseSearchOutboxKey_spec.
Qed.

(** ** Rows *)

(** The bytes of a row of a table whose rows have an owner and a number. *)
Definition row (t : Table) (h i : Z) (col : name2) : bytes :=
  encode_key (mkLogical (t_Id t) dataTypeTable [F64 h; F64 i; F2 col]).

Lemma row_eq t h i col :
  row t h i col = prefix4 (t_Id t) dataTypeTable ++ be_bytes 8 h ++ be_bytes 8 i ++ [col.1; col.2].
Proof. unfold row. key_fields. by rewrite app_nil_r. Qed.

Lemma col_cases (c : name2) :
  ble [MinColumnKey.1; MinColumnKey.2] [c.1; c.2] /\
  (blt [c.1; c.2] [MaxColumnKey.1; MaxColumnKey.2] <-> c <> MaxColumnKey).
Proof.
  destruct c as [c1 c2]. unfold ble, blt, MinColumnKey, MaxColumnKey. cbn [bcompare fst snd].
  pose proof (Z_of_byte_range c1) as H1. pose proof (Z_of_byte_range c2) as H2. unfold is_u8 in *.
  change (Z_of_byte x00) with 0. change (Z_of_byte xff) with 255.
  assert (E : (c1, c2) = (xff, xff) <-> Z_of_byte c1 = 255 /\ Z_of_byte c2 = 255).
  { split; [by intros [= -> ->]|]. intros [A B]. f_equal; by apply Z_of_byte_inj. }
  rewrite E. clear E. split.
  - destruct (Z.compare_spec 0 (Z_of_byte c1)), (Z.compare_spec 0 (Z_of_byte c2)); try done; lia.
  - destruct (Z.compare_spec (Z_of_byte c1) 255), (Z.compare_spec (Z_of_byte c2) 255);
      split; try done; try lia; naive_solver lia.
Qed.

(** The range of the rows [lo] to [hi] of an owner, with column bounds. *)
Lemma row_range t h lo hi h' i col :
  is_u64 h -> is_u64 lo -> is_u64 hi -> is_u64 h' -> is_u64 i ->
  in_range (row t h lo MinColumnKey) (row t h hi MaxColumnKey) (row t h' i col) <->
  h' = h /\ lo <= i /\ (i < hi \/ i = hi /\ col <> MaxColumnKey).
Proof.
  intros Hh Hlo Hhi Hh' Hi. rewrite !row_eq, in_range_prefix, scan_u64 by done.
  destruct (col_cases col) as [Hmin Hmax]. split.
  - intros [H1 H2]. assert (h' = h) as -> by lia.
    destruct H1 as [?|[_ H1]]; [lia|]. destruct H2 as [?|[_ H2]]; [lia|]. split; [done|].
    pose proof (proj1 (scan_u64 lo hi i _ _ _ Hlo Hhi Hi) (conj H1 H2)) as [H3 H4].
    split; [lia|]. rewrite Hmax in H4. exact H4.
  - intros (-> & H1 & H2).
    assert (in_range (be_bytes 8 lo ++ [MinColumnKey.1; MinColumnKey.2])
              (be_bytes 8 hi ++ [MaxColumnKey.1; MaxColumnKey.2])
              (be_bytes 8 i ++ [col.1; col.2])) as [H3 H4].
    { apply scan_u64; [done|done|done|]. rewrite Hmax. split; [|exact H2].
      destruct (decide (lo = i)); [by right|left; lia]. }
    auto.
Qed.

(** The same with the bounds of a primary key, which have no column. *)
Lemma primary_range t h lo hi h' i col :
  is_u64 h -> is_u64 lo -> is_u64 hi -> is_u64 h' -> is_u64 i ->
  in_range (prefix4 (t_Id t) dataTypeTable ++ be_bytes 8 h ++ be_bytes 8 lo)
           (prefix4 (t_Id t) dataTypeTable ++ be_bytes 8 h ++ be_bytes 8 hi) (row t h' i col) <->
  h' = h /\ lo <= i < hi.
Proof.
  intros Hh Hlo Hhi Hh' Hi. rewrite row_eq, in_range_prefix.
  rewrite <-(app_nil_r (be_bytes 8 lo)), <-(app_nil_r (be_bytes 8 hi)).
  rewrite scan_u64 by done. split.
  - intros [H1 H2]. assert (h' = h) as -> by lia.
    destruct H1 as [?|[_ H1]]; [lia|]. destruct H2 as [?|[_ H2]]; [lia|].
    pose proof (proj1 (scan_u64 lo hi i _ _ _ Hlo Hhi Hi) (conj H1 H2)) as [H3 H4].
    destruct H4 as [H4|[_ H4]]; [|by apply blt_nil in H4]. lia.
  - intros (-> & H1 & H2).
    assert (in_range (be_bytes 8 lo ++ []) (be_bytes 8 hi ++ []) (be_bytes 8 i ++ [col.1; col.2]))
      as [H3 H4]; [|auto].
    apply scan_u64; [done|done|done|]. split; [|by left].
    destruct (decide (lo = i)); [right; split; [done|apply ble_nil]|left; lia].
Qed.

(** ** Parsers return *)

Lemma is_Ok_bind {A B} (m : res A) (f : A -> res B) :
  is_Ok m -> (forall a, is_Ok (f a)) -> is_Ok (res_bind m f).
Proof. intros [a ->] Hf. apply Hf. Qed.

Lemma read_uint_ok w i key : (i + w <= length key)%nat -> is_Ok (read_uint w i key).
Proof. intros H. unfold read_uint. rewrite (proj2 (Nat.leb_le _ _)) by lia. by eexists. Qed.

Lemma read_byte_ok i key : (i < length key)%nat -> is_Ok (read_byte i key).
Proof. intros H. unfold read_byte. destruct (lookup_lt_is_Some_2 key i H) as [b ->]; by eexists. Qed.

(** A parser that has checked the length of its argument. *)
Ltac read_total :=
  let E := fresh "E" in
  match goal with |- context [(?n =? ?m)%nat] => destruct (Nat.eqb_spec n m) as [E|_] end;
  cbn [negb]; [|by eexists];
  repeat (apply is_Ok_bind; [first [apply read_uint_ok | apply read_byte_ok]; rewrite E; cbn; lia|];
          intros ?);
  by eexists.

(** ** Theorems *)

Module KeyProps.

(** What a call stands for: the layout of its key, but with the kind of data and the index that
    are meant where the code writes others.  The indexes of the uids of subscribers and of allow
    lists write the first byte of their name twice; the second indexes of channels, of the users
    of plugins and of the times of messages are marked as indexes. *)
Definition meaning (c : call) : logical :=
  match c with
  | KSubscriberIndex channelId channelType indexName primaryKey =>
      mkLogical (t_Id TableSubscriber) dataTypeIndex
        [F2 indexName; F64 (channelToNum channelId channelType); F64 primaryKey]
  | KAllowlistIndex channelId channelType indexName primaryKey =>
      mkLogical (t_Id TableAllowlist) dataTypeIndex
        [F2 indexName; F64 (channelToNum channelId channelType); F64 primaryKey]
  | KChannelInfoSecond indexName columnValue id =>
      mkLogical (t_Id TableChannelInfo) dataTypeSecondIndex [F2 indexName; F64 columnValue; F64 id]
  | KPluginUserSecond indexName columnValue id =>
      mkLogical (t_Id TablePluginUser) dataTypeSecondIndex [F2 indexName; F64 columnValue; F64 id]
  | KMessageTimestamp timestamp primaryKey =>
      mkLogical (t_Id TableMessage) dataTypeSecondIndex
        [F2 (secondIndex TableMessage "Timestamp"); F64 timestamp; F16 primaryKey]
  | _ => layout c
  end.

(** The indexes of the uids are called with the name the table declares, as all callers do. *)
Definition declared (c : call) : Prop :=
  match c with
  | KSubscriberIndex _ _ indexName _ => indexName = index TableSubscriber "Uid"
  | KAllowlistIndex _ _ indexName _ => indexName = index TableAllowlist "Uid"
  | _ => True
  end.
#[export] Instance declared_dec c : Decision (declared c).
Proof. destruct c; simpl; apply _. Defined.

Definition as_written (l : logical) : logical :=
  let 'mkLogical id kind fs := l in
  match kind, fs with
  | dataTypeIndex, F2 n :: fs' =>
      if bool_decide (id = t_Id TableSubscriber \/ id = t_Id TableAllowlist) then mkLogical id kind (F2 (n.1, n.1) :: fs') else l
  | dataTypeSecondIndex, F2 n :: fs' =>
      if bool_decide (id = t_Id TableChannelInfo \/ id = t_Id TablePluginUser \/
                      (id = t_Id TableMessage /\ n = secondIndex TableMessage "Timestamp"))
      then mkLogical id dataTypeIndex fs else l
  | _, _ => l
  end.
Definition as_meant (l : logical) : logical :=
  let 'mkLogical id kind fs := l in
  match kind, fs with
  | dataTypeIndex, F2 n :: fs' =>
      if bool_decide (id = t_Id TableSubscriber) then mkLogical id kind (F2 (index TableSubscriber "Uid") :: fs')
      else if bool_decide (id = t_Id TableAllowlist) then mkLogical id kind (F2 (index TableAllowlist "Uid") :: fs')
      else if bool_decide (id = t_Id TablePluginUser) then mkLogical id dataTypeSecondIndex fs
      else if bool_decide (id = t_Id TableChannelInfo \/ id = t_Id TableMessage) && (length fs =? 3)%nat
      then mkLogical id dataTypeSecondIndex fs else l
  | _, _ => l
  end.

Lemma layout_as_written c : layout c = as_written (meaning c).
Proof. destruct c; reflexivity. Qed.
Lemma meaning_as_meant c : declared c -> meaning c = as_meant (layout c).
Proof. destruct c; simpl; intros H; subst; reflexivity. Qed.

(** C8.  Keys identify what is stored under them.  Every call of a function that makes a
    key to store something under returns one, when its integers are in the range of
    their types, primary keys have 16 bytes, the channel of an outbox key is valid for
    the search and the index of the uids is called by its declared name.  Two calls
    return the same bytes exactly when they stand for the same table, kind of data and
    fields: no table, column or index can overwrite another one.  Strings stand for
    their hashes: a channel for that of its id and type, a user for that of the uid, an
    event of a message for that of its client number and key joined by a colon. *)
Theorem keys_identify (c c' : call) :
  call_ok c -> call_ok c' -> declared c -> declared c' ->
  returns (build c) (fun k => returns (build c') (fun k' => k = k' <-> meaning c = meaning c')).
Proof.
  intros H H' Hd Hd'. exists (encode_key (layout c)). split; [by apply build_spec|].
  exists (encode_key (layout c')). split; [by apply build_spec|]. split.
  - intros E%layout_inj; [|done..]. rewrite !meaning_as_meant by done. by rewrite E.
  - intros E. by rewrite !layout_as_written, E.
Qed.

Lemma keys_identify_witness :
  exists k k', build (KChannelInfoIndex (index TableChannelInfo "Channel") 1) = Ok k /\
    build (KChannelInfoSecond (secondIndex TableChannelInfo "Ban") 1 7) = Ok k' /\ k <> k'.
Proof.
  destruct (keys_identify (KChannelInfoIndex (index TableChannelInfo "Channel") 1)
              (KChannelInfoSecond (secondIndex TableChannelInfo "Ban") 1 7))
    as (k & Hk & k' & Hk' & Hiff); [decide_goal|decide_goal|exact I|exact I|].
  exists k, k'. split; [exact Hk|]. split; [exact Hk'|]. intros E%Hiff. discriminate E.
Defined.

(** Every parser of the package. *)
Definition parsers_return (raw : bytes) : Prop :=
  is_Ok (ParseMessageColumnKey raw) /\ is_Ok (ParseUserSecondIndexKey raw) /\ is_Ok (ParseUserColumnKey raw) /\
  is_Ok (ParseDeviceColumnKey raw) /\ is_Ok (ParseDeviceSecondIndexKey raw) /\
  is_Ok (ParseSubscriberSecondIndexKey raw) /\ is_Ok (ParseSubscriberColumnKey raw) /\
  is_Ok (ParseChannelInfoSecondIndexKey raw) /\ is_Ok (ParseChannelInfoColumnKey raw) /\
  is_Ok (ParseDenylistColumnKey raw) /\ is_Ok (ParseAllowlistColumnKey raw) /\
  is_Ok (ParseConversationSecondIndexKey raw) /\ is_Ok (ParseConversationColumnKey raw) /\
  is_Ok (ParseChannelClusterConfigColumnKey raw) /\ is_Ok (ParseChannelClusterConfigSecondIndexKey raw) /\
  is_Ok (ParseLeaderTermSequenceTermKey raw) /\ is_Ok (ParseTesterColumnKey raw) /\ is_Ok (ParsePluginColumnKey raw) /\
  is_Ok (ParsePluginUserColumnKey raw) /\ is_Ok (ParsePluginUserSecondIndexKey raw) /\
  is_Ok (ParseMessageEventIndexKey raw) /\ is_Ok (ParseMessageSecondIndexKey raw) /\
  is_Ok (ParseConversationLocalUserKey raw) /\ is_Ok (ParseSearchOutboxKey raw).

Lemma parsers_total raw : parsers_return raw.
Proof.
  unfold parsers_return. do 21 (split; [match goal with |- is_Ok (?f raw) => unfold f end; read_total|]).
  split; [unfold ParseMessageSecondIndexKey; destruct (negb _); by eexists|].
  split; [unfold ParseConversationLocalUserKey; destruct (_ <? _)%nat; by eexists|].
  unfold ParseSearchOutboxKey. cbv zeta.
  destruct (Nat.ltb_spec (length raw) (2 + 2 + 1 + 2 + 8 + 8)); [by eexists|].
  do 5 (apply is_Ok_bind; [apply read_byte_ok; lia|intros ?]).
  match goal with |- is_Ok (if ?b then _ else _) => destruct b; [by eexists|] end.
  apply is_Ok_bind; [apply read_uint_ok; lia|]. intros n. destruct (Z.eqb_spec (len raw) (Z.of_nat (2 + 2 + 1 + 2 + 8 + 8) + n)) as [En|];
    [|rewrite orb_true_r; by eexists].
  destruct (_ || negb true); [by eexists|]. destruct (negb _); [by eexists|].
  do 2 (apply is_Ok_bind; [apply read_uint_ok; lia|intros ?]). destruct (_ || _); by eexists.
Qed.

(** C38.  For each of the 27 kinds of keys the package has a parser for, the key that a call
    makes is parsed back to the fields the parser returns (its integers being in the range
    of their types, primary keys of 16 bytes and the channel of an outbox key valid for the
    search).  None of the 24 parsers panics, whatever bytes it is given. *)
Theorem keys_roundtrip (c : call) (raw : bytes) :
  parsers_return raw /\ (has_parser c -> call_ok c -> returns (build c) (parsed c)).
Proof.
  split; [apply parsers_total|]. intros Hp H.
  exists (encode_key (layout c)). split; [by apply build_spec|by apply parsed_spec].
Qed.

Lemma keys_roundtrip_witness :
  exists k, NewSubscriberSecondIndexKey "g" 2 (secondIndex TableSubscriber "CreatedAt") 5 9 = Ok k /\
            ParseSubscriberSecondIndexKey k = Ok (Some (5, 9)).
Proof.
  destruct (keys_roundtrip (KSubscriberSecond "g" 2 (secondIndex TableSubscriber "CreatedAt") 5 9) [])
    as [_ H]. destruct (H I) as (k & Hk & Hp); [decide_goal|]. exists k. split; [exact Hk|exact Hp].
Defined.

(**  A scan of the messages of a channel from one sequence number to another
    is exact: of everything that can be stored, it visits the columns of the
    messages of this channel (by its hash) with a sequence number from the first
    up to and without the last, in the order of the numbers, and nothing else. *)
Theorem message_scan_exact (ch : string) (t lo hi : Z) (c : call) :
  is_u64 lo -> is_u64 hi -> call_ok c ->
  exists lower upper k,
    NewMessagePrimaryKey ch t lo = Ok lower /\ NewMessagePrimaryKey ch t hi = Ok upper /\
    build c = Ok k /\
    (in_range lower upper k <-> exists seq col, lo <= seq < hi /\
       layout c = mkLogical (t_Id TableMessage) dataTypeTable
                     [F64 (channelToNum ch t); F64 seq; F2 col]) /\
    (ble lower upper <-> lo <= hi).
Proof.
  intros Hlo Hhi Hc. do 2 eexists. exists (encode_key (layout c)).
  split; [reflexivity|]. split; [reflexivity|]. split; [by apply build_spec|].
  pose proof (layout_ok c Hc) as Hok.
  split.
  - change (in_range (prefix4 (t_Id TableMessage) dataTypeTable ++ be_bytes 8 (channelToNum ch t) ++
               be_bytes 8 lo) (prefix4 (t_Id TableMessage) dataTypeTable ++
               be_bytes 8 (channelToNum ch t) ++ be_bytes 8 hi) (encode_key (layout c)) <->
            exists seq col, lo <= seq < hi /\ layout c = mkLogical (t_Id TableMessage) dataTypeTable
                       [F64 (channelToNum ch t); F64 seq; F2 col]).
    split.
    + intros H. pose proof H as (E1 & E2 & _)%scan_kind.
      destruct (message_columns c E1 E2) as (h & s & col & E). rewrite E in *.
      apply Forall_cons in Hok as [Hh [Hs _]%Forall_cons]. simpl in Hh, Hs.
      apply (primary_range TableMessage) in H as [-> ?]; auto with go_ints. eauto.
    + intros (s & col & Hs & E). rewrite E in *.
      apply Forall_cons in Hok as [_ [Hs' _]%Forall_cons]. simpl in Hs'.
      apply (primary_range TableMessage); auto with go_ints.
  - unfold ble. change (bcompare (prefix4 (t_Id TableMessage) dataTypeTable ++
      be_bytes 8 (channelToNum ch t) ++ be_bytes 8 lo) (prefix4 (t_Id TableMessage) dataTypeTable ++
      be_bytes 8 (channelToNum ch t) ++ be_bytes 8 hi) <> Gt <-> lo <= hi).
    rewrite !bcompare_prefix. rewrite (bcompare_be 8) by done.
    rewrite Z.compare_gt_iff. lia.
Qed.

Lemma message_scan_exact_witness :
  exists lower upper k, NewMessagePrimaryKey "g" 2 10 = Ok lower /\
    NewMessagePrimaryKey "g" 2 20 = Ok upper /\
    NewMessageColumnKey "g" 2 15 (column TableMessage "Payload") = Ok k /\ in_range lower upper k.
Proof.
  destruct (message_scan_exact "g" 2 10 20 (KMessageColumn "g" 2 15 (column TableMessage "Payload")))
    as (lower & upper & k & H1 & H2 & H3 & H4 & _); [decide_goal|decide_goal|decide_goal|].
  exists lower, upper, k. split; [exact H1|]. split; [exact H2|]. split; [exact H3|].
  apply H4. exists 15, (column TableMessage "Payload"). split; [lia|reflexivity].
Defined.

(**  The range of a channel of the search outbox is exact: it exists for every
    valid channel and first sequence number, and of everything that can be stored
    it contains the entries of this very channel (not of one with the same hash)
    from the first sequence number on, and nothing else. *)
Theorem outbox_range_exact (ch : string) (t first : Z) (c : call) :
  IsValidSearchOutboxChannelIdentity ch t = true -> is_u8 t -> 0 < first <= MaxUint32 -> call_ok c ->
  exists lower upper k,
    NewSearchOutboxChannelRange ch t first = Ok (Some (lower, upper)) /\ build c = Ok k /\
    (in_range lower upper k <-> exists s m, first <= s /\ c = KOutbox ch t s m).
Proof.
  intros Hv Ht Hf Hc. destruct (valid_identity _ _ Hv) as (_ & _ & _ & Hl).
  destruct (outbox_range_some ch t first Hv Hf) as (u & Er & Hu).
  set (p := prefix4 (t_Id TableSearchOutbox) dataTypeTable ++ outbox_channel ch t) in *.
  exists (p ++ be_bytes 8 first ++ be_bytes 8 1), u, (encode_key (layout c)).
  split; [done|split; [by apply build_spec|]].
  rewrite (incremented_range p u _ _ Hu). split.
  - intros (x & Hx & Hle). unfold p in Hx. rewrite <-app_assoc in Hx.
    assert (E : lk_id (layout c) = t_Id TableSearchOutbox /\ lk_kind (layout c) = dataTypeTable).
    { destruct (layout c) as [[i1 i2] k fs]. unfold encode_key, prefix4 in Hx. simpl in *.
      injection Hx as -> -> Hk _. change x01 with (dataType_byte dataTypeTable) in Hk.
      apply dataType_byte_inj in Hk as ->. done. }
    destruct (outbox_keys c (proj1 E) (proj2 E)) as (ch' & t' & s & m & ->). clear E.
    destruct Hc as (Hv' & Ht' & Hs & Hm). destruct (valid_identity _ _ Hv') as (_ & _ & _ & Hl').
    revert Hx. key_fields. rewrite app_nil_r. intros Hx%app_inv_head.
    apply outbox_channel_inj in Hx as (-> & -> & <-); [|done|done|done|done].
    exists s, m. split; [|done]. unfold ble in Hle.
    rewrite bcompare_app in Hle by (by rewrite !be_bytes_length).
    rewrite (bcompare_be 8) in Hle by (by apply u64_of_u32).
    destruct (Z.compare_spec first s); [lia|lia|done].
  - intros (s & m & Hs & ->). destruct Hc as (_ & _ & Hs' & Hm).
    exists (be_bytes 8 s ++ be_bytes 8 m). split.
    + key_fields. unfold p. rewrite app_nil_r. by rewrite <-!app_assoc.
    + unfold ble. rewrite bcompare_app by (by rewrite !be_bytes_length).
      rewrite (bcompare_be 8) by (by apply u64_of_u32).
      destruct (Z.compare_spec first s); [|done|lia].
      rewrite (bcompare_be 8); [|by cbn|by apply u64_of_i64].
      destruct (Z.compare_spec 1 m); [done|done|lia].
Qed.

Lemma outbox_range_exact_witness :
  exists lower upper k, NewSearchOutboxChannelRange "ch" 2 7 = Ok (Some (lower, upper)) /\
    build (KOutbox "ch" 2 8 5) = Ok k /\ in_range lower upper k.
Proof.
  destruct (outbox_range_exact "ch" 2 7 (KOutbox "ch" 2 8 5))
    as (lower & upper & k & H1 & H2 & H3);
    [vm_compute; reflexivity|decide_goal|unfold MaxUint32; lia|decide_goal|].
  exists lower, upper, k. split; [exact H1|]. split; [exact H2|]. apply H3.
  exists 8, 5. split; [lia|reflexivity].
Defined.

(** Two pairs of bounds the package offers cannot be used: the bounds of all
    messages are written past the end of their slices and panic, and no index of
    a member of an allow list lies between the bounds for the index of the uids,
    because the index writes the first byte of its name twice. *)
Theorem bounds_that_do_not_work (ch : string) (t v : Z) :
  is_u64 v ->
  NewMessageLowKey = Panic /\ NewMessageHighKey = Panic /\
  exists lower upper k,
    NewAllowlistIndexUidLowKey ch t = Ok lower /\ NewAllowlistIndexUidHighKey ch t = Ok upper /\
    NewAllowlistIndexKey ch t (index TableAllowlist "Uid") v = Ok k /\ ~ in_range lower upper k.
Proof.
  intros Hv. split; [reflexivity|]. split; [reflexivity|].
  do 3 eexists. split; [reflexivity|]. split; [reflexivity|]. split; [reflexivity|].
  intros [_ H]. unfold blt in H. simpl in H. discriminate H.
Qed.

Lemma bounds_that_do_not_work_witness :
  NewMessageLowKey = Panic /\ is_u64 (HashWithString "u1").
Proof.
  split; [|decide_goal]. apply (bounds_that_do_not_work "g" 2 (HashWithString "u1")). decide_goal.
Defined.

(** Two different events get one key, since the parts are joined by a colon that
    both may contain. *)
Theorem event_keys_collide :
  NewMessageEventKeySeqKey "g" 2 "a:b" "c" 1 = NewMessageEventKeySeqKey "g" 2 "a" "b:c" 1.
Proof. reflexivity. Qed.
End KeyProps.
