(* ===== verification/WkKv.v ===== *)
(** * The store and the cache under the database

    The database keeps its rows in Pebble ([github.com/cockroachdb/pebble]), one
    store per shard, and caches answers in an LRU cache
    ([github.com/hashicorp/golang-lru/v2]).  The sources of both are not part of
    the repository: each is a class of operations with the laws the database
    relies on, and each has an instance.

    - [Pebble]: a map of byte strings, ordered by [bcompare].  A batch is a list
      of writes that is committed as a whole; reading through an indexed batch is
      reading the map after its writes.
    - [LRU]: a map that may forget an entry whenever one is added. *)

From Stdlib Require Import Strings.Byte Sorting.Sorted.
From stdpp Require Import sorting.
From S2P Require Import Prelude ZTables RaftTypes WkProto KeyBytes.

(** ** Writes *)

Inductive wop :=
| WSet (k v : bytes)
| WDelete (k : bytes)
| WDeleteRange (lower upper : bytes).

Abbreviation kvmap := (gmap bytes bytes).

Definition apply_wop (m : kvmap) (w : wop) : kvmap :=
  match w with
  | WSet k v => <[k := v]> m
  | WDelete k => delete k m
  | WDeleteRange lower upper => filter (fun p => ~ in_range lower upper p.1) m
  end.

Definition apply_wops (m : kvmap) (ws : list wop) : kvmap := foldl apply_wop m ws.

(** ** Pebble *)

(** What [Get] returns: a value, [ErrNotFound], or another error. *)
Inductive got :=
| Found (v : bytes)
| NotFound
| GetErr.

(** Reads never change the store.  [kv_iter] is what an iterator with bounds visits
    from [First] until it is no longer valid; [kv_commit] of a batch fails with
    [None], and then nothing of it is written. *)
Class Pebble (DB : Type) := {
  kv_get : DB -> bytes -> got;
  kv_batch_get : DB -> list wop -> bytes -> got;
  kv_iter : DB -> bytes -> bytes -> list (bytes * bytes);
  kv_commit : DB -> list wop -> option DB
}.

(** The order of what an iterator visits. *)
Definition key_lt (p q : bytes * bytes) : Prop := blt p.1 q.1.

Definition got_agrees (g : got) (v : option bytes) : Prop :=
  match g with
  | Found x => v = Some x
  | NotFound => v = None
  | GetErr => True
  end.

Class PebbleLaws (DB : Type) {P : Pebble DB} := {
  kv_map : DB -> kvmap;
  kv_get_law db k : got_agrees (kv_get db k) (kv_map db !! k);
  kv_batch_get_law db ws k : got_agrees (kv_batch_get db ws k) (apply_wops (kv_map db) ws !! k);
  kv_iter_law db lower upper k v :
    (k, v) ∈ kv_iter db lower upper <-> in_range lower upper k /\ kv_map db !! k = Some v;
  kv_iter_sorted db lower upper : StronglySorted key_lt (kv_iter db lower upper);
  kv_commit_law db ws db' : kv_commit db ws = Some db' -> kv_map db' = apply_wops (kv_map db) ws
}.

(** Some store can fail. *)
Definition store_fails (DB : Type) {P : Pebble DB} : Prop :=
  exists db : DB, (exists ws, kv_commit db ws = None) \/ (exists key, kv_get db key = GetErr).

(** *** Writes and iterators *)

Lemma filter_lookup (m : kvmap) lower upper k :
  filter (fun p => ~ in_range lower upper p.1) m !! k =
  if decide (in_range lower upper k) then None else m !! k.
Proof.
  rewrite map_lookup_filter.
  destruct (m !! k) as [v|]; simpl; [|by destruct (decide _)].
  destruct (decide (in_range lower upper k)).
  - by rewrite option_guard_False by (intros H; by apply H).
  - by rewrite option_guard_True.
Qed.

Lemma range_lookup (m : kvmap) lower upper k :
  apply_wop m (WDeleteRange lower upper) !! k = if decide (in_range lower upper k) then None else m !! k.
Proof. apply filter_lookup. Qed.

Lemma apply_wops_cons m w ws : apply_wops m (w :: ws) = apply_wops (apply_wop m w) ws.
Proof. done. Qed.

Lemma apply_wops_app m ws1 ws2 : apply_wops m (ws1 ++ ws2) = apply_wops (apply_wops m ws1) ws2.
Proof. apply foldl_app. Qed.

Lemma sorted_NoDup (l : list (bytes * bytes)) : StronglySorted key_lt l -> NoDup l.
Proof.
  induction 1 as [|p l _ IH Hp]; constructor; [|done]. intros Hin.
  rewrite Forall_forall in Hp. by apply Hp, blt_irrefl in Hin.
Qed.

Section Iterators.
Context {DB : Type} {P : Pebble DB} {PL : PebbleLaws DB}.

(** What an iterator visits is what is there, in order. *)
Lemma iter_is (db : DB) lower upper l : StronglySorted key_lt l ->
  (forall k v, in_range lower upper k /\ kv_map db !! k = Some v <-> (k, v) ∈ l) -> kv_iter db lower upper = l.
Proof.
  intros Hs Hl. eapply StronglySorted_unique_strong; [|apply kv_iter_sorted|exact Hs|].
  { intros x y _ _ Hxy Hyx. exfalso. eapply blt_irrefl, blt_trans; [exact Hxy|exact Hyx]. }
  apply NoDup_Permutation; [apply sorted_NoDup, kv_iter_sorted|by apply sorted_NoDup|]. intros [k v]. by rewrite kv_iter_law.
Qed.

(** The keys [key i] hold the entries of a table of numbers; [U] are the numbers of their
    width. *)
Lemma iter_numbers {V} (key : Z -> bytes) (U : Z -> Prop) (val : V -> bytes) (t : gmap Z V) (db : DB) lo hi :
  (forall i v, t !! i = Some v -> U i) -> (forall i, U i -> kv_map db !! key i = val <$> t !! i) ->
  (forall k v, in_range (key lo) (key hi) k -> kv_map db !! k = Some v -> exists i, U i /\ k = key i) ->
  (forall i, U i -> in_range (key lo) (key hi) (key i) <-> lo <= i < hi) ->
  (forall i j, U i -> U j -> i < j -> blt (key i) (key j)) ->
  kv_iter db (key lo) (key hi) = (fun p => (key p.1, val p.2)) <$> range_of t lo hi.
Proof.
  intros HU Hcol Hkey Hin Hlt. apply iter_is.
  - assert (Hu : Forall (fun p : Z * V => U p.1) (range_of t lo hi)).
    { apply Forall_forall. intros [i v] [_ Hv]%range_elem. by eapply HU. }
    revert Hu. induction (range_sorted t lo hi) as [|p l _ IH Hp]; intros Hu; [constructor|]. apply Forall_cons in Hu as [Hu1 Hu].
    rewrite fmap_cons. constructor; [by apply IH|]. apply Forall_fmap, Forall_forall. intros q Hq.
    rewrite Forall_forall in Hp, Hu. apply Hlt; [done|by apply Hu|by apply Hp].
  - intros k v. rewrite list_elem_of_fmap. split.
    + intros [Hr Hv]. destruct (Hkey k v Hr Hv) as (i & Hi & ->). apply Hin in Hr; [|done].
      rewrite Hcol in Hv by done. apply fmap_Some in Hv as (w & Hw & ->). exists (i, w). split; [done|]. by apply range_elem.
    + intros ([i w] & [= -> ->] & [Hlohi Hw]%range_elem). assert (Hi : U i) by by eapply HU.
      rewrite Hcol, Hw by done. split; [|done]. by apply Hin.
Qed.
End Iterators.

(** *** An instance: the map itself, without errors *)

(** Insertion into a sorted list of entries. *)
Fixpoint insert_entry (p : bytes * bytes) (l : list (bytes * bytes)) : list (bytes * bytes) :=
  match l with
  | [] => [p]
  | q :: l => if decide (blt p.1 q.1) then p :: q :: l else q :: insert_entry p l
  end.
Definition sort_entries (l : list (bytes * bytes)) : list (bytes * bytes) :=
  foldr insert_entry [] l.

Definition got_of (v : option bytes) : got :=
  match v with
  | Some v => Found v
  | None => NotFound
  end.

#[export] Instance mapPebble : Pebble kvmap := {|
  kv_get m k := got_of (m !! k);
  kv_batch_get m ws k := got_of (apply_wops m ws !! k);
  kv_iter m lower upper := sort_entries (filter (fun p => in_range lower upper p.1) (map_to_list m));
  kv_commit m ws := Some (apply_wops m ws)
|}.

Lemma blt_total a b : a <> b -> blt a b \/ blt b a.
Proof.
  unfold blt. rewrite (bcompare_antisym a b). destruct (bcompare a b) eqn:E; simpl; auto.
  by apply bcompare_eq in E.
Qed.

Lemma insert_entry_elem p q l : q ∈ insert_entry p l <-> q = p \/ q ∈ l.
Proof.
  induction l as [|r l IH]; simpl; [by rewrite elem_of_cons|].
  destruct (decide _); rewrite !elem_of_cons; [done|]. rewrite IH. tauto.
Qed.

Lemma sort_entries_elem q l : q ∈ sort_entries l <-> q ∈ l.
Proof.
  induction l as [|p l IH]; [done|]. simpl. by rewrite insert_entry_elem, elem_of_cons, IH.
Qed.

Lemma insert_entry_sorted p l :
  (forall q, q ∈ l -> q.1 <> p.1) -> StronglySorted key_lt l -> StronglySorted key_lt (insert_entry p l).
Proof.
  induction l as [|r l IH]; intros Hne Hs; simpl; [repeat constructor|].
  apply StronglySorted_inv in Hs as [Hs Hr].
  destruct (decide (blt p.1 r.1)) as [Hlt|Hge].
  - constructor; [by constructor|]. constructor; [done|].
    eapply List.Forall_impl; [|exact Hr]. intros q Hq. by eapply blt_trans.
  - constructor; [apply IH; [|done]; intros q Hq; apply Hne; by constructor|].
    apply Forall_forall. intros q [->|Hq]%insert_entry_elem; [|by eapply Forall_forall].
    destruct (blt_total r.1 p.1) as [?|?]; [apply Hne; constructor|done|done].
Qed.

Lemma sort_entries_sorted l : NoDup l.*1 -> StronglySorted key_lt (sort_entries l).
Proof.
  induction l as [|p l IH]; simpl; [constructor|]. intros [Hp Hn]%NoDup_cons.
  apply insert_entry_sorted; [|auto]. intros q Hq E. rewrite sort_entries_elem in Hq. apply Hp. rewrite <-E.
  apply list_elem_of_fmap. by exists q.
Qed.

#[export] Instance mapPebble_laws : PebbleLaws kvmap.
Proof.
  refine {| kv_map m := m |}; cbn [kv_get kv_batch_get kv_iter kv_commit mapPebble].
  - intros m k. unfold got_of. by destruct (m !! k).
  - intros m ws k. unfold got_of. by destruct (_ !! k).
  - intros m lower upper k v. rewrite sort_entries_elem, list_elem_of_filter.
    pose proof (elem_of_map_to_list (M := gmap bytes) m k v) as E. simpl. tauto.
  - intros m lower upper. apply sort_entries_sorted.
    eapply sublist_NoDup; [apply (NoDup_fst_map_to_list m)|]. apply fmap_sublist, sublist_filter.
  - intros m ws m' [= <-]. done.
Defined.

Lemma no_failing_map : ~ store_fails kvmap.
Proof. intros (m & [(ws & E)|(key & E)]); cbn in E; [done|]. unfold got_of in E. by destruct (m !! key). Qed.

(** ** LRU *)

(** A lookup moves the entry to the front, which is not visible. *)
Class LRU (V C : Type) := {
  lru_new : Z -> C;
  lru_get : C -> string -> option V * C;
  lru_add : C -> string -> V -> C;
  lru_remove : C -> string -> C;
  lru_keys : C -> list string
}.

Class LRULaws (V C : Type) {L : LRU V C} := {
  lru_map : C -> gmap string V;
  lru_new_law n : lru_map (lru_new n) = ∅;
  lru_get_law c k : (lru_get c k).1 = lru_map c !! k /\ lru_map (lru_get c k).2 = lru_map c;
  lru_add_law c k v : lru_map (lru_add c k v) ⊆ <[k := v]> (lru_map c);
  lru_remove_law c k : lru_map (lru_remove c k) = delete k (lru_map c);
  lru_keys_law c k : k ∈ lru_keys c <-> is_Some (lru_map c !! k)
}.

(** *** An instance: a list with the entry used last in front, of bounded length *)

Record lru_list (V : Type) := mkLru { ll_max : nat; ll_items : list (string * V) }.
Arguments mkLru {V}.
Arguments ll_max {V}.
Arguments ll_items {V}.

Section LruList.
Context {V : Type}.
Implicit Types c : lru_list V.

Definition ll_without (k : string) (l : list (string * V)) : list (string * V) :=
  filter (fun p => p.1 <> k) l.

#[export] Instance listLRU : LRU V (lru_list V) := {|
  lru_new n := mkLru (Z.to_nat n) [];
  lru_get c k :=
    match (list_to_map (ll_items c) : gmap string V) !! k with
    | Some v => (Some v, mkLru (ll_max c) ((k, v) :: ll_without k (ll_items c)))
    | None => (None, c)
    end;
  lru_add c k v := mkLru (ll_max c) (take (ll_max c) ((k, v) :: ll_without k (ll_items c)));
  lru_remove c k := mkLru (ll_max c) (ll_without k (ll_items c));
  lru_keys c := (ll_items c).*1
|}.

Lemma without_map k (l : list (string * V)) :
  (list_to_map (ll_without k l) : gmap string V) = delete k (list_to_map l).
Proof.
  unfold ll_without. induction l as [|[x v] l IH]; simpl; [by rewrite delete_empty|].
  rewrite filter_cons. simpl. destruct (decide (x = k)) as [->|Hne].
  - destruct (decide (k <> k)) as [[]|_]; [done|]. by rewrite delete_insert_eq.
  - rewrite decide_True by done. simpl. rewrite IH. by rewrite delete_insert_ne.
Qed.

Lemma take_map n (l : list (string * V)) :
  (list_to_map (take n l) : gmap string V) ⊆ list_to_map l.
Proof.
  revert n. induction l as [|[x v] l IH]; intros [|n]; simpl.
  1-3: apply map_empty_subseteq.
  apply insert_mono, IH.
Qed.

#[export] Instance listLRU_laws : LRULaws V (lru_list V).
Proof.
  refine {| lru_map c := list_to_map (ll_items c) |}; simpl.
  - done.
  - intros c k. destruct (_ !! k) as [v|] eqn:E; simpl; [|done]. split; [done|].
    rewrite without_map, insert_delete_eq. by apply insert_id.
  - intros c k v. etrans; [apply take_map|]. simpl. by rewrite without_map, insert_delete_eq.
  - intros c k. apply without_map.
  - intros c k. rewrite <-elem_of_dom, dom_list_to_map, elem_of_list_to_set. done.
Defined.
End LruList.
