(* ===== verification/WkPermission.v ===== *)
(** * The cache of the permissions

    [pkg/wkdb/cache_permission.go]: one LRU cache for the answers to "is this user
    on this list of this channel" and "has this channel an allow list", under keys
    that are formatted strings.

    - The clock is an oracle that is read once per [time.Now] and [time.Since].
    - An expired entry is removed by a goroutine of its own: [pc_removals] are the
      removals that are under way, and [run_removal] is one of them running. *)

From S2P Require Import Prelude RaftTypes WkProto KeyBytes WkKv.

(** [pkg/wkdb/cache_permission.go] [PermissionType] *)
Inductive PermissionType :=
| PermissionTypeDenylist
| PermissionTypeSubscriber
| PermissionTypeAllowlist
| PermissionTypeHasAllowlist.

Definition permType_num (p : PermissionType) : Z :=
  match p with
  | PermissionTypeDenylist => 1
  | PermissionTypeSubscriber => 2
  | PermissionTypeAllowlist => 3
  | PermissionTypeHasAllowlist => 4
  end.

#[export] Instance PermissionType_eq_dec : EqDecision PermissionType.
Proof. solve_decision. Defined.

(** [pkg/wkdb/cache_permission.go] [PermissionCacheItem] *)
Record PermissionCacheItem := mkItem {
  it_Exists : bool;
  it_CachedAt : Z;
  it_TTL : Z
}.

Section Cache.
Context {C : Type} {L : LRU PermissionCacheItem C}.

(** [pkg/wkdb/cache_permission.go] [PermissionCache] *)
Record PermissionCache := mkPermissionCache {
  pc_cache : C;
  pc_maxCacheSize : Z;
  pc_cacheTTL : Z;
  pc_clock : nat -> Z;
  pc_reads : nat;
  pc_removals : list string
}.

(** [pkg/wkdb/cache_permission.go] [NewPermissionCache] *)
Definition NewPermissionCache (maxCacheSize : Z) (clock : nat -> Z) : PermissionCache :=
  let maxCacheSize := if maxCacheSize <=? 0 then 10000 else maxCacheSize in
  mkPermissionCache (lru_new maxCacheSize) maxCacheSize (30 * 60 * 1000000000) clock 0 [].

Definition set_cache (c : PermissionCache) (l : C) : PermissionCache := {| c with pc_cache := l |}.

(** [time.Now()] *)
Definition now (c : PermissionCache) : Z * PermissionCache :=
  (pc_clock c (pc_reads c), {| c with pc_reads := S (pc_reads c) |}).

(** [pkg/wkdb/cache_permission.go] [(c *PermissionCacheItem) IsExpired] *)
Definition IsExpired (i : PermissionCacheItem) (t : Z) : bool := it_TTL i <? t - it_CachedAt i.

(** [pkg/wkdb/cache_permission.go] [(c *PermissionCache) getPermissionKey] *)
Definition getPermissionKey (permType : PermissionType) (channelId : string) (channelType : Z)
    (uid : string) : string :=
  let channel := FormatInt (permType_num permType) +:+ ":" +:+ channelId +:+ ":" +:+
                 FormatInt channelType in
  if bool_decide (uid = "") then channel else channel +:+ ":" +:+ uid.

(** [pkg/wkdb/cache_permission.go] [(c *PermissionCache) getPermission]

    The result is the answer and whether there is one. *)
Definition getPermission (c : PermissionCache) (key : string) : PermissionCache * (bool * bool) :=
  let '(item, l) := lru_get (pc_cache c) key in
  let c := set_cache c l in
  match item with
  | Some i =>
      let '(t, c) := now c in
      if negb (IsExpired i t) then (c, (it_Exists i, true))
      else ({| c with pc_removals := pc_removals c ++ [key] |}, (false, false))
  | None => (c, (false, false))
  end.

(** [pkg/wkdb/cache_permission.go] [lines 117-119]

    The goroutine that removes an expired entry. *)
Definition run_removal (c : PermissionCache) (i : nat) : option PermissionCache :=
  match pc_removals c !! i with
  | None => None
  | Some key =>
      Some {| (set_cache c (lru_remove (pc_cache c) key)) with
                pc_removals := delete i (pc_removals c) |}
  end.

(** [pkg/wkdb/cache_permission.go] [(c *PermissionCache) setPermission] *)
Definition setPermission (c : PermissionCache) (key : string) (exists_ : bool) : PermissionCache :=
  let '(t, c) := now c in
  set_cache c (lru_add (pc_cache c) key (mkItem exists_ t (pc_cacheTTL c))).

(** [pkg/wkdb/cache_permission.go] [(c *PermissionCache) GetDenylistExists] *)
Definition GetDenylistExists c channelId channelType uid : PermissionCache * (bool * bool) :=
  getPermission c (getPermissionKey PermissionTypeDenylist channelId channelType uid).
(** [pkg/wkdb/cache_permission.go] [(c *PermissionCache) SetDenylistExists] *)
Definition SetDenylistExists c channelId channelType uid exists_ : PermissionCache :=
  setPermission c (getPermissionKey PermissionTypeDenylist channelId channelType uid) exists_.
(** [pkg/wkdb/cache_permission.go] [(c *PermissionCache) GetSubscriberExists] *)
Definition GetSubscriberExists c channelId channelType uid : PermissionCache * (bool * bool) :=
  getPermission c (getPermissionKey PermissionTypeSubscriber channelId channelType uid).
(** [pkg/wkdb/cache_permission.go] [(c *PermissionCache) SetSubscriberExists] *)
Definition SetSubscriberExists c channelId channelType uid exists_ : PermissionCache :=
  setPermission c (getPermissionKey PermissionTypeSubscriber channelId channelType uid) exists_.
(** [pkg/wkdb/cache_permission.go] [(c *PermissionCache) GetAllowlistExists] *)
Definition GetAllowlistExists c channelId channelType uid : PermissionCache * (bool * bool) :=
  getPermission c (getPermissionKey PermissionTypeAllowlist channelId channelType uid).
(** [pkg/wkdb/cache_permission.go] [(c *PermissionCache) SetAllowlistExists] *)
Definition SetAllowlistExists c channelId channelType uid exists_ : PermissionCache :=
  setPermission c (getPermissionKey PermissionTypeAllowlist channelId channelType uid) exists_.
(** [pkg/wkdb/cache_permission.go] [(c *PermissionCache) GetHasAllowlist] *)
Definition GetHasAllowlist c channelId channelType : PermissionCache * (bool * bool) :=
  getPermission c (getPermissionKey PermissionTypeHasAllowlist channelId channelType "").
(** [pkg/wkdb/cache_permission.go] [(c *PermissionCache) SetHasAllowlist] *)
Definition SetHasAllowlist c channelId channelType hasAllowlist : PermissionCache :=
  setPermission c (getPermissionKey PermissionTypeHasAllowlist channelId channelType "") hasAllowlist.

(** [pkg/wkdb/cache_permission.go] [(c *PermissionCache) BatchSetDenylistExists] *)
Definition BatchSetDenylistExists c channelId channelType (uids : list string) exists_
  : PermissionCache :=
  foldl (fun c uid => SetDenylistExists c channelId channelType uid exists_) c uids.
(** [pkg/wkdb/cache_permission.go] [(c *PermissionCache) BatchSetSubscriberExists] *)
Definition BatchSetSubscriberExists c channelId channelType (uids : list string) exists_
  : PermissionCache :=
  foldl (fun c uid => SetSubscriberExists c channelId channelType uid exists_) c uids.
(** [pkg/wkdb/cache_permission.go] [(c *PermissionCache) BatchSetAllowlistExists]

    Adding members also says that the channel has an allow list. *)
Definition BatchSetAllowlistExists c channelId channelType (uids : list string) exists_
  : PermissionCache :=
  let c := foldl (fun c uid => SetAllowlistExists c channelId channelType uid exists_) c uids in
  if exists_ && (0 <? len uids) then SetHasAllowlist c channelId channelType true else c.

(** [pkg/wkdb/cache_permission.go] [(c *PermissionCache) InvalidateUser] *)
Definition InvalidateUser c channelId channelType (uid : string) : PermissionCache :=
  foldl (fun c permType =>
           set_cache c (lru_remove (pc_cache c) (getPermissionKey permType channelId channelType uid)))
    c [PermissionTypeDenylist; PermissionTypeSubscriber; PermissionTypeAllowlist].

(** [fmt.Sprintf("%d:%s:%d:", ...)] *)
Definition permPrefix (permType : PermissionType) (channelId : string) (channelType : Z) : string :=
  FormatInt (permType_num permType) +:+ ":" +:+ channelId +:+ ":" +:+ FormatInt channelType +:+ ":".

(** [len(key) > len(prefix) && key[:len(prefix)] == prefix] *)
Definition extends (prefix key : string) : bool :=
  bool_decide (String.length prefix < String.length key)%nat && String.prefix prefix key.

(** [pkg/wkdb/cache_permission.go] [(c *PermissionCache) InvalidateChannel] *)
Definition InvalidateChannel c channelId channelType : PermissionCache :=
  let hasAllowlistKey := getPermissionKey PermissionTypeHasAllowlist channelId channelType "" in
  foldl (fun c key =>
           if extends (permPrefix PermissionTypeDenylist channelId channelType) key ||
              extends (permPrefix PermissionTypeSubscriber channelId channelType) key ||
              extends (permPrefix PermissionTypeAllowlist channelId channelType) key ||
              bool_decide (key = hasAllowlistKey)
           then set_cache c (lru_remove (pc_cache c) key) else c)
    c (lru_keys (pc_cache c)).

(** [pkg/wkdb/cache_permission.go] [(c *PermissionCache) InvalidateChannelByType] *)
Definition InvalidateChannelByType c permType channelId channelType : PermissionCache :=
  if bool_decide (permType = PermissionTypeHasAllowlist) then
    set_cache c (lru_remove (pc_cache c) (getPermissionKey permType channelId channelType ""))
  else
    foldl (fun c key =>
             if extends (permPrefix permType channelId channelType) key
             then set_cache c (lru_remove (pc_cache c) key) else c)
      c (lru_keys (pc_cache c)).

(** [pkg/wkdb/cache_permission.go] [(c *PermissionCache) SetCacheTTL] *)
Definition SetCacheTTL (c : PermissionCache) (ttl : Z) : PermissionCache :=
  {| c with pc_cacheTTL := ttl |}.

(** [pkg/wkdb/cache_permission.go] [(c *PermissionCache) RemoveExpiredItems] *)
Definition RemoveExpiredItems (c : PermissionCache) : PermissionCache * Z :=
  foldl (fun '(c, removedCount) key =>
           let '(item, l) := lru_get (pc_cache c) key in
           let c := set_cache c l in
           match item with
           | Some i =>
               let '(t, c) := now c in
               if IsExpired i t
               then (set_cache c (lru_remove (pc_cache c) key), removedCount + 1)
               else (c, removedCount)
           | None => (c, removedCount)
           end)
    (c, 0) (lru_keys (pc_cache c)).
End Cache.
Arguments PermissionCache : clear implicits.
