(* ===== verification/WkMembers.v ===== *)
(** * The member lists of the channels

    [pkg/wkdb/subscriber.go], [denylist.go] and [allowlist.go]: three lists of
    users per channel, each a table with a row per member, a unique index by user
    and two secondary indexes by time, next to the cache of the permissions and
    the counts of [ChannelInfo].

    The three files have the same functions on their own tables; a function they
    share is written once, over what differs ([MemberTable]), and used at the three
    tables.  Writes to a batch do not fail (a batch is in memory); a commit may.
    The calls of a list are made one after the other: the mutex of the counts and
    the metrics are left out. *)

From Stdlib Require Import Strings.Byte.
From S2P Require Import Prelude RaftTypes WkProto KeyBytes WkTables WkKey WkKv WkPermission.

(** [pkg/wkdb/model.go] [Member]

    Times are nanoseconds since 1970. *)
Record Member := mkMember {
  mb_Id : Z;
  mb_Uid : string;
  mb_CreatedAt : option Z;
  mb_UpdatedAt : option Z
}.

Definition string_of_bytes (bs : bytes) : string := String.string_of_list_byte bs.

(** ** What differs between the lists *)

Record MemberTable := mkMemberTable {
  mt_table : Table;
  mt_ColumnKey : string -> Z -> Z -> name2 -> res bytes;
  mt_IndexKey : string -> Z -> name2 -> Z -> res bytes;
  mt_SecondIndexKey : string -> Z -> name2 -> Z -> Z -> res bytes;
  mt_ParseColumnKey : bytes -> res (option (Z * name2));
  (** the bounds of a scan of all members *)
  mt_LowKey : string -> Z -> res bytes;
  mt_HighKey : string -> Z -> res bytes;
  (** the value under which the index of a member is written and deleted *)
  mt_writtenIndex : Member -> Z;
  mt_deletedIndex : Member -> Z
}.

Definition SubscriberTable : MemberTable := {|
  mt_table := TableSubscriber;
  mt_ColumnKey := NewSubscriberColumnKey;
  mt_IndexKey := NewSubscriberIndexKey;
  mt_SecondIndexKey := NewSubscriberSecondIndexKey;
  mt_ParseColumnKey := ParseSubscriberColumnKey;
  mt_LowKey ch t := NewSubscriberColumnKey ch t 0 MinColumnKey;
  mt_HighKey ch t := NewSubscriberColumnKey ch t MaxUint64 MaxColumnKey;
  mt_writtenIndex := mb_Id;
  mt_deletedIndex m := HashWithString (mb_Uid m)
|}.

Definition DenylistTable : MemberTable := {|
  mt_table := TableDenylist;
  mt_ColumnKey := NewDenylistColumnKey;
  mt_IndexKey := NewDenylistIndexKey;
  mt_SecondIndexKey := NewDenylistSecondIndexKey;
  mt_ParseColumnKey := ParseDenylistColumnKey;
  mt_LowKey ch t := NewDenylistPrimaryKey ch t 0;
  mt_HighKey ch t := NewDenylistPrimaryKey ch t MaxUint64;
  mt_writtenIndex := mb_Id;
  mt_deletedIndex := mb_Id
|}.

Definition AllowlistTable : MemberTable := {|
  mt_table := TableAllowlist;
  mt_ColumnKey := NewAllowlistColumnKey;
  mt_IndexKey := NewAllowlistIndexKey;
  mt_SecondIndexKey := NewAllowlistSecondIndexKey;
  mt_ParseColumnKey := ParseAllowlistColumnKey;
  mt_LowKey ch t := NewAllowlistPrimaryKey ch t 0;
  mt_HighKey ch t := NewAllowlistPrimaryKey ch t MaxUint64;
  mt_writtenIndex m := HashWithString (mb_Uid m);
  mt_deletedIndex := mb_Id
|}.

Section Members.
Context {DB : Type} {P : Pebble DB} {C : Type} {L : LRU PermissionCacheItem C}.

(** [pkg/wkdb/wukongdb.go] [wukongDB]

    The fields of the member lists. *)
Record wukongDB := mkWukongDB {
  wk_dbs : list DB;
  wk_permissionCache : PermissionCache C
}.

Definition set_permissions (wk : wukongDB) (c : PermissionCache C) : wukongDB :=
  {| wk with wk_permissionCache := c |}.

(** [pkg/wkdb/message.go] [(wk *wukongDB) channelDbIndex] *)
Definition channelDbIndex (wk : wukongDB) (channelId : string) (channelType : Z) : res nat :=
  if len (wk_dbs wk) =? 0 then Panic
  else Ok (Z.to_nat (u32 (ChannelToNum channelId channelType mod len (wk_dbs wk)))).

(** [pkg/wkdb/message.go] [(wk *wukongDB) channelDb] *)
Definition channelDb (wk : wukongDB) (channelId : string) (channelType : Z) : res (nat * DB) :=
  let! dbIndex := channelDbIndex wk channelId channelType in
  match wk_dbs wk !! dbIndex with
  | Some db => Ok (dbIndex, db)
  | None => Panic
  end.

(** [pkg/wkdb/channel.go] [(wk *wukongDB) getChannelPrimaryKey] *)
Definition getChannelPrimaryKey (channelId : string) (channelType : Z) : Z :=
  ChannelToNum channelId channelType.

(** [w.Commit]: the store of the shard is replaced, or the error returned. *)
Definition commit (wk : wukongDB) (i : nat) (db : DB) (w : list wop) : option wukongDB :=
  match kv_commit db w with
  | None => None
  | Some db' => Some {| wk with wk_dbs := <[i := db']> (wk_dbs wk) |}
  end.

Definition commitErr : GoError := ErrOther "commit".

(** ** One member *)

Section Table.
Context (T : MemberTable).
Implicit Types (channelId : string) (channelType : Z).

(** One of the times of a member: its column and its secondary index. *)
Definition writeTime channelId channelType (id : Z) (col : string) (tm : option Z)
  : res (list wop) :=
  match tm with
  | None => Ok []
  | Some tm =>
      let ct := u64 tm in
      let! k := mt_ColumnKey T channelId channelType id (column (mt_table T) col) in
      let! s := mt_SecondIndexKey T channelId channelType (secondIndex (mt_table T) col) ct id in
      Ok [WSet k (be_bytes 8 ct); WSet s []]
  end.

(** The writes of [writeSubscriber] after its check, [writeDenylist] and
    [writeAllowlist]. *)
Definition writeMember channelId channelType (member : Member) : res (list wop) :=
  let! uidKey := mt_ColumnKey T channelId channelType (mb_Id member) (column (mt_table T) "Uid") in
  let! indexKey := mt_IndexKey T channelId channelType (index (mt_table T) "Uid")
                     (mt_writtenIndex T member) in
  let! created := writeTime channelId channelType (mb_Id member) "CreatedAt" (mb_CreatedAt member) in
  let! updated := writeTime channelId channelType (mb_Id member) "UpdatedAt" (mb_UpdatedAt member) in
  Ok ([WSet uidKey (str_bytes (mb_Uid member)); WSet indexKey (be_bytes 8 (mb_Id member))] ++
      created ++ updated).

(** A secondary index of a member is deleted. *)
Definition deleteTime channelId channelType (id : Z) (col : string) (tm : option Z)
  : res (list wop) :=
  match tm with
  | None => Ok []
  | Some tm =>
      let! s := mt_SecondIndexKey T channelId channelType (secondIndex (mt_table T) col) (u64 tm) id in
      Ok [WDelete s]
  end.

(** [deleteSubscriberIndex], [deleteDenylistIndex] and [deleteAllowlistIndex]. *)
Definition deleteMemberIndex channelId channelType (member : Member) : res (list wop) :=
  let! indexKey := mt_IndexKey T channelId channelType (index (mt_table T) "Uid")
                     (mt_deletedIndex T member) in
  let! created := deleteTime channelId channelType (mb_Id member) "CreatedAt" (mb_CreatedAt member) in
  let! updated := deleteTime channelId channelType (mb_Id member) "UpdatedAt" (mb_UpdatedAt member) in
  Ok ([WDelete indexKey] ++ created ++ updated).

(** [removeSubscriber], [removeDenylist] and [removeAllowlist]. *)
Definition removeMember channelId channelType (member : Member) : res (list wop) :=
  let! low := mt_ColumnKey T channelId channelType (mb_Id member) MinColumnKey in
  let! high := mt_ColumnKey T channelId channelType (mb_Id member) MaxColumnKey in
  let! deletes := deleteMemberIndex channelId channelType member in
  Ok (WDeleteRange low high :: deletes).

(** The ranges of a secondary index, without the last of all values. *)
Definition deleteAllTimes channelId channelType (col : string) : res wop :=
  let! low := mt_SecondIndexKey T channelId channelType (secondIndex (mt_table T) col) 0 0 in
  let! high := mt_SecondIndexKey T channelId channelType (secondIndex (mt_table T) col) MaxUint64 0 in
  Ok (WDeleteRange low high).

(** [deleteAllSubscriberIndex], [deleteAllDenylistIndex] and
    [deleteAllAllowlistIndex]. *)
Definition deleteAllMemberIndex channelId channelType : res (list wop) :=
  let! low := mt_IndexKey T channelId channelType (index (mt_table T) "Uid") 0 in
  let! high := mt_IndexKey T channelId channelType (index (mt_table T) "Uid") MaxUint64 in
  let! created := deleteAllTimes channelId channelType "CreatedAt" in
  let! updated := deleteAllTimes channelId channelType "UpdatedAt" in
  Ok [WDeleteRange low high; created; updated].

(** The writes of a loop over members. *)
Fixpoint batchOf (f : Member -> res (list wop)) (members : list Member) : res (list wop) :=
  match members with
  | [] => Ok []
  | m :: rest => let! w := f m in let! ws := batchOf f rest in Ok (w ++ ws)
  end.

(** ** Scans *)

(** [int64(wk.endian.Uint64(value))], kept when it is positive. *)
Definition readTime (old : option Z) (value : bytes) : res (option Z) :=
  let! v := read_uint 8 0 value in
  let tm := i64 v in
  Ok (if 0 <? tm then Some tm else old).

(** The column of an entry is assigned to the member the scan is at. *)
Definition readColumn (m : Member) (columnName : name2) (value : bytes) : res Member :=
  if bool_decide (columnName = column (mt_table T) "Uid") then
    Ok {| m with mb_Uid := string_of_bytes value |}
  else if bool_decide (columnName = column (mt_table T) "CreatedAt") then
    let! tm := readTime (mb_CreatedAt m) value in Ok {| m with mb_CreatedAt := tm |}
  else if bool_decide (columnName = column (mt_table T) "UpdatedAt") then
    let! tm := readTime (mb_UpdatedAt m) value in Ok {| m with mb_UpdatedAt := tm |}
  else Ok m.

Definition noMember : Member := mkMember 0 "" None None.

(** The loop of [iterateSubscriber] and its copies.  The callback goes on with a
    new value, or stops; [None] is an error of the parser. *)
Fixpoint iterateLoop {A} (iterFnc : A -> Member -> A * bool) (entries : list (bytes * bytes))
    (preId : Z) (preMember : Member) (hasData : bool) (acc : A) : res (option A) :=
  match entries with
  | [] => Ok (Some (if hasData then (iterFnc acc preMember).1 else acc))
  | (k, v) :: rest =>
      let! parsed := mt_ParseColumnKey T k in
      match parsed with
      | None => Ok None
      | Some (id, columnName) =>
          if negb (id =? preId) then
            let '(acc, more) := if negb (preId =? 0) then iterFnc acc preMember else (acc, true) in
            if negb more then Ok (Some acc)
            else
              let! m := readColumn {| noMember with mb_Id := id |} columnName v in
              iterateLoop iterFnc rest id m true acc
          else
            let! m := readColumn preMember columnName v in
            iterateLoop iterFnc rest preId m true acc
      end
  end.

Definition iterateMember {A} (iterFnc : A -> Member -> A * bool) (entries : list (bytes * bytes))
    (acc : A) : res (option A) :=
  iterateLoop iterFnc entries 0 noMember false acc.

(** The callback that collects all members. *)
Definition collect (members : list Member) (m : Member) : list Member * bool := (members ++ [m], true).

Definition parseErr : GoError := ErrOther "invalid key length".

(** A scan between two keys that collects. *)
Definition scanMembers (db : DB) (low high : res bytes) (members : list Member)
  : res (option (list Member)) :=
  let! low := low in
  let! high := high in
  iterateMember collect (kv_iter db low high) members.

(** [getSubscribersByUids], [getDenylistByUids] and [getAllowlistByUids]. *)
Fixpoint getMembersByUids (db : DB) channelId channelType (uids : list string)
    (members : list Member) : res (option (list Member)) :=
  match uids with
  | [] => Ok (Some members)
  | uid :: rest =>
      let id := HashWithString uid in
      let! r := scanMembers db (mt_ColumnKey T channelId channelType id MinColumnKey)
                  (mt_ColumnKey T channelId channelType id MaxColumnKey) members in
      match r with
      | None => Ok None
      | Some members => getMembersByUids db channelId channelType rest members
      end
  end.

(** [GetSubscribers], [GetDenylist] and [GetAllowlist]. *)
Definition getMembers (wk : wukongDB) channelId channelType : res (GoError + list Member) :=
  let! (_, db) := channelDb wk channelId channelType in
  let! r := scanMembers db (mt_LowKey T channelId channelType) (mt_HighKey T channelId channelType) [] in
  Ok (match r with
      | Some members => inr members
      | None => inl parseErr
      end).

(** The lookup of [ExistSubscriber], [ExistDenylist] and [ExistAllowlist] after a
    miss of the cache. *)
Definition lookupMember (db : DB) channelId channelType (uid : string) : res (option bool) :=
  let! k := mt_IndexKey T channelId channelType (index (mt_table T) "Uid") (HashWithString uid) in
  Ok (match kv_get db k with
      | Found _ => Some true
      | NotFound => Some false
      | GetErr => None
      end).
End Table.

(** ** Subscribers *)

(** [pkg/wkdb/subscriber.go] [(wk *wukongDB) writeSubscriber] *)
Definition writeSubscriber (channelId : string) (channelType : Z) (member : Member)
  : res (GoError + list wop) :=
  if mb_Id member =? 0 then Ok (inl (ErrOther "writeSubscriber: member.Id is 0"))
  else let! w := writeMember SubscriberTable channelId channelType member in Ok (inr w).
(** [pkg/wkdb/subscriber.go] [(wk *wukongDB) deleteSubscriberIndex] *)
Definition deleteSubscriberIndex := deleteMemberIndex SubscriberTable.
(** [pkg/wkdb/subscriber.go] [(wk *wukongDB) deleteAllSubscriberIndex] *)
Definition deleteAllSubscriberIndex := deleteAllMemberIndex SubscriberTable.
(** [pkg/wkdb/subscriber.go] [(wk *wukongDB) removeSubscriber] *)
Definition removeSubscriber := removeMember SubscriberTable.
(** [pkg/wkdb/subscriber.go] [(wk *wukongDB) iterateSubscriber] *)
Definition iterateSubscriber {A} := @iterateMember SubscriberTable A.
(** [pkg/wkdb/subscriber.go] [(wk *wukongDB) getSubscribersByUids] *)
Definition getSubscribersByUids := getMembersByUids SubscriberTable.

(** The loop of [AddSubscribers]. *)
Fixpoint writeSubscribers (channelId : string) (channelType : Z) (subscribers : list Member)
  : res (GoError + list wop) :=
  match subscribers with
  | [] => Ok (inr [])
  | s :: rest =>
      let! w := writeSubscriber channelId channelType {| s with mb_Id := HashWithString (mb_Uid s) |} in
      match w with
      | inl err => Ok (inl err)
      | inr w =>
          let! ws := writeSubscribers channelId channelType rest in
          Ok (match ws with inl err => inl err | inr ws => inr (w ++ ws) end)
      end
  end.

(** [pkg/wkdb/subscriber.go] [(wk *wukongDB) AddSubscribers] *)
Definition AddSubscribers (wk : wukongDB) (channelId : string) (channelType : Z)
    (subscribers : list Member) : res (wukongDB * option GoError) :=
  let! (i, db) := channelDb wk channelId channelType in
  if getChannelPrimaryKey channelId channelType =? 0 then Ok (wk, Some (ErrOther "not found"))
  else
    let! w := writeSubscribers channelId channelType subscribers in
    match w with
    | inl err => Ok (wk, Some err)
    | inr w =>
        match commit wk i db w with
        | None => Ok (wk, Some commitErr)
        | Some wk =>
            Ok (set_permissions wk (BatchSetSubscriberExists (wk_permissionCache wk) channelId
                                      channelType (map mb_Uid subscribers) true), None)
        end
    end.

(** [pkg/wkdb/subscriber.go] [(wk *wukongDB) GetSubscribers] *)
Definition GetSubscribers := getMembers SubscriberTable.

(** [pkg/wkdb/subscriber.go] [(wk *wukongDB) GetSubscriberCount]

    The callback counts; the bounds are keys of the column [Uid]. *)
Definition GetSubscriberCount (wk : wukongDB) (channelId : string) (channelType : Z)
  : res (GoError + Z) :=
  let! (_, db) := channelDb wk channelId channelType in
  let! low := NewSubscriberColumnKey channelId channelType 0 (column TableSubscriber "Uid") in
  let! high := NewSubscriberColumnKey channelId channelType MaxUint64 (column TableSubscriber "Uid") in
  let! r := iterateSubscriber (fun count _ => (count + 1, true)) (kv_iter db low high) 0 in
  Ok (match r with
      | Some count => inr count
      | None => inl parseErr
      end).

(** [pkg/wkutil/common.go] [RemoveRepeatedElement] *)
Fixpoint removeRepeated (seen arr : list string) : list string :=
  match arr with
  | [] => []
  | item :: rest =>
      if bool_decide (item ∈ seen) then removeRepeated seen rest
      else item :: removeRepeated (item :: seen) rest
  end.
Definition RemoveRepeatedElement (arr : list string) : list string := removeRepeated [] arr.

(** [pkg/wkdb/subscriber.go] [(wk *wukongDB) RemoveSubscribers] *)
Definition RemoveSubscribers (wk : wukongDB) (channelId : string) (channelType : Z)
    (subscribers : list string) : res (wukongDB * option GoError) :=
  let subscribers := RemoveRepeatedElement subscribers in
  let! (i, db) := channelDb wk channelId channelType in
  let! members := getSubscribersByUids db channelId channelType subscribers [] in
  match members with
  | None => Ok (wk, Some parseErr)
  | Some members =>
      let! w := batchOf (removeSubscriber channelId channelType) members in
      match commit wk i db w with
      | None => Ok (wk, Some commitErr)
      | Some wk =>
          Ok (set_permissions wk (BatchSetSubscriberExists (wk_permissionCache wk) channelId
                                    channelType subscribers false), None)
      end
  end.

(** [pkg/wkdb/subscriber.go] [(wk *wukongDB) ExistSubscriber] *)
Definition ExistSubscriber (wk : wukongDB) (channelId : string) (channelType : Z) (uid : string)
  : res (wukongDB * (GoError + bool)) :=
  let '(c, (exists_, found)) := GetSubscriberExists (wk_permissionCache wk) channelId channelType uid in
  let wk := set_permissions wk c in
  if found then Ok (wk, inr exists_)
  else
    let! (_, db) := channelDb wk channelId channelType in
    let! r := lookupMember SubscriberTable db channelId channelType uid in
    Ok (match r with
        | None => (wk, inl (ErrOther "get"))
        | Some exists_ =>
            (set_permissions wk (SetSubscriberExists (wk_permissionCache wk) channelId channelType
                                   uid exists_), inr exists_)
        end).

(** [pkg/wkdb/subscriber.go] [(wk *wukongDB) RemoveAllSubscriber] *)
Definition RemoveAllSubscriber (wk : wukongDB) (channelId : string) (channelType : Z)
  : res (wukongDB * option GoError) :=
  if getChannelPrimaryKey channelId channelType =? 0 then Ok (wk, Some (ErrOther "not found"))
  else
    let! (i, db) := channelDb wk channelId channelType in
    let! low := NewSubscriberColumnKey channelId channelType 0 MinColumnKey in
    let! high := NewSubscriberColumnKey channelId channelType MaxUint64 MaxColumnKey in
    let! w := deleteAllSubscriberIndex channelId channelType in
    match commit wk i db (WDeleteRange low high :: w) with
    | None => Ok (wk, Some commitErr)
    | Some wk =>
        Ok (set_permissions wk (InvalidateChannelByType (wk_permissionCache wk)
                                  PermissionTypeSubscriber channelId channelType), None)
    end.

(** ** The counts of the other lists *)

(** [pkg/wkdb/channel.go] [(wk *wukongDB) incChannelInfoColumnCount]

    The writes that are added to the batch [w]; [None] is an error.  A count of 0
    sets the column to 0. *)
Definition incChannelInfoColumnCount (db : DB) (id : Z) (columnName indexName : name2) (count : Z)
    (w : list wop) : res (option (list wop)) :=
  let! countKey := NewChannelInfoColumnKey id columnName in
  if count =? 0 then Ok (Some (w ++ [WSet countKey [x00; x00; x00; x00]]))
  else
    match kv_batch_get db w countKey with
    | GetErr => Ok None
    | g =>
        let! oldCount := match g with
                         | Found ((_ :: _) as countBytes) => read_uint 4 0 countBytes
                         | _ => Ok 0
                         end in
        let count := i64 (count + oldCount) in
        (* [PutUint32(countBytes, uint32(count))] writes the first four bytes *)
        let countBytes := be_bytes 4 (u32 count) ++
                          match g with Found v => drop 4 v | _ => [] end in
        let! secondIndexKey := NewChannelInfoSecondIndexKey indexName (u64 count) id in
        Ok (Some (w ++ [WSet countKey countBytes; WSet secondIndexKey []]))
    end.

(** ** Deny list *)

(** [pkg/wkdb/denylist.go] [(wk *wukongDB) incChannelInfoDenylistCount] *)
Definition incChannelInfoDenylistCount (db : DB) (id count : Z) (w : list wop)
  : res (option (list wop)) :=
  incChannelInfoColumnCount db id (column TableChannelInfo "DenylistCount")
    (secondIndex TableChannelInfo "DenylistCount") count w.
(** [pkg/wkdb/denylist.go] [(wk *wukongDB) writeDenylist] *)
Definition writeDenylist := writeMember DenylistTable.
(** [pkg/wkdb/denylist.go] [(wk *wukongDB) deleteDenylistIndex] *)
Definition deleteDenylistIndex := deleteMemberIndex DenylistTable.
(** [pkg/wkdb/denylist.go] [(wk *wukongDB) deleteAllDenylistIndex] *)
Definition deleteAllDenylistIndex := deleteAllMemberIndex DenylistTable.
(** [pkg/wkdb/denylist.go] [(wk *wukongDB) removeDenylist] *)
Definition removeDenylist := removeMember DenylistTable.
(** [pkg/wkdb/denylist.go] [(wk *wukongDB) iterateDenylist] *)
Definition iterateDenylist {A} := @iterateMember DenylistTable A.
(** [pkg/wkdb/denylist.go] [(wk *wukongDB) getDenylistByUids] *)
Definition getDenylistByUids := getMembersByUids DenylistTable.
(** [pkg/wkdb/denylist.go] [(wk *wukongDB) GetDenylist] *)
Definition GetDenylist := getMembers DenylistTable.

Definition identified (m : Member) : Member := {| m with mb_Id := HashWithString (mb_Uid m) |}.

(** [pkg/wkdb/denylist.go] [(wk *wukongDB) AddDenylist] *)
Definition AddDenylist (wk : wukongDB) (channelId : string) (channelType : Z)
    (members : list Member) : res (wukongDB * option GoError) :=
  let! (i, db) := channelDb wk channelId channelType in
  let! w := batchOf (writeDenylist channelId channelType) (map identified members) in
  let! w := incChannelInfoDenylistCount db (getChannelPrimaryKey channelId channelType)
              (len members) w in
  match w with
  | None => Ok (wk, Some (ErrOther "get"))
  | Some w =>
      match commit wk i db w with
      | None => Ok (wk, Some commitErr)
      | Some wk =>
          Ok (set_permissions wk (BatchSetDenylistExists (wk_permissionCache wk) channelId
                                    channelType (map mb_Uid members) true), None)
      end
  end.

(** [pkg/wkdb/denylist.go] [(wk *wukongDB) ExistDenylist] *)
Definition ExistDenylist (wk : wukongDB) (channelId : string) (channelType : Z) (uid : string)
  : res (wukongDB * (GoError + bool)) :=
  let '(c, (exists_, found)) := GetDenylistExists (wk_permissionCache wk) channelId channelType uid in
  let wk := set_permissions wk c in
  if found then Ok (wk, inr exists_)
  else
    let! (_, db) := channelDb wk channelId channelType in
    let! r := lookupMember DenylistTable db channelId channelType uid in
    Ok (match r with
        | None => (wk, inl (ErrOther "get"))
        | Some exists_ =>
            (set_permissions wk (SetDenylistExists (wk_permissionCache wk) channelId channelType
                                   uid exists_), inr exists_)
        end).

(** [pkg/wkdb/denylist.go] [(wk *wukongDB) RemoveDenylist] *)
Definition RemoveDenylist (wk : wukongDB) (channelId : string) (channelType : Z)
    (uids : list string) : res (wukongDB * option GoError) :=
  let! (i, db) := channelDb wk channelId channelType in
  let! members := getDenylistByUids db channelId channelType uids [] in
  match members with
  | None => Ok (wk, Some parseErr)
  | Some members =>
      let! w := batchOf (removeDenylist channelId channelType) members in
      let! w := incChannelInfoDenylistCount db (getChannelPrimaryKey channelId channelType)
                  (- len members) w in
      match w with
      | None => Ok (wk, Some (ErrOther "get"))
      | Some w =>
          match commit wk i db w with
          | None => Ok (wk, Some commitErr)
          | Some wk =>
              Ok (set_permissions wk (BatchSetDenylistExists (wk_permissionCache wk) channelId
                                        channelType uids false), None)
          end
      end
  end.

(** [pkg/wkdb/denylist.go] [(wk *wukongDB) RemoveAllDenylist] *)
Definition RemoveAllDenylist (wk : wukongDB) (channelId : string) (channelType : Z)
  : res (wukongDB * option GoError) :=
  let! (i, db) := channelDb wk channelId channelType in
  let! low := NewDenylistPrimaryKey channelId channelType 0 in
  let! high := NewDenylistPrimaryKey channelId channelType MaxUint64 in
  let! w := deleteAllDenylistIndex channelId channelType in
  let! w := incChannelInfoDenylistCount db (getChannelPrimaryKey channelId channelType) 0
              (WDeleteRange low high :: w) in
  match w with
  | None => Ok (wk, Some (ErrOther "get"))
  | Some w =>
      match commit wk i db w with
      | None => Ok (wk, Some commitErr)
      | Some wk =>
          Ok (set_permissions wk (InvalidateChannelByType (wk_permissionCache wk)
                                    PermissionTypeDenylist channelId channelType), None)
      end
  end.

(** ** Allow list *)

(** [pkg/wkdb/allowlist.go] [(wk *wukongDB) incChannelInfoAllowlistCount] *)
Definition incChannelInfoAllowlistCount (db : DB) (id count : Z) (w : list wop)
  : res (option (list wop)) :=
  incChannelInfoColumnCount db id (column TableChannelInfo "AllowlistCount")
    (secondIndex TableChannelInfo "AllowlistCount") count w.
(** [pkg/wkdb/allowlist.go] [(wk *wukongDB) writeAllowlist] *)
Definition writeAllowlist := writeMember AllowlistTable.
(** [pkg/wkdb/allowlist.go] [(wk *wukongDB) deleteAllowlistIndex] *)
Definition deleteAllowlistIndex := deleteMemberIndex AllowlistTable.
(** [pkg/wkdb/allowlist.go] [(wk *wukongDB) deleteAllAllowlistIndex] *)
Definition deleteAllAllowlistIndex := deleteAllMemberIndex AllowlistTable.
(** [pkg/wkdb/allowlist.go] [(wk *wukongDB) removeAllowlist] *)
Definition removeAllowlist := removeMember AllowlistTable.
(** [pkg/wkdb/allowlist.go] [(wk *wukongDB) iterateAllowlist] *)
Definition iterateAllowlist {A} := @iterateMember AllowlistTable A.
(** [pkg/wkdb/allowlist.go] [(wk *wukongDB) getAllowlistByUids] *)
Definition getAllowlistByUids := getMembersByUids AllowlistTable.
(** [pkg/wkdb/allowlist.go] [(wk *wukongDB) GetAllowlist] *)
Definition GetAllowlist := getMembers AllowlistTable.

(** [pkg/wkdb/allowlist.go] [(wk *wukongDB) AddAllowlist] *)
Definition AddAllowlist (wk : wukongDB) (channelId : string) (channelType : Z)
    (members : list Member) : res (wukongDB * option GoError) :=
  let! (i, db) := channelDb wk channelId channelType in
  let! w := batchOf (writeAllowlist channelId channelType) (map identified members) in
  let! w := incChannelInfoAllowlistCount db (getChannelPrimaryKey channelId channelType)
              (len members) w in
  match w with
  | None => Ok (wk, Some (ErrOther "get"))
  | Some w =>
      match commit wk i db w with
      | None => Ok (wk, Some commitErr)
      | Some wk =>
          Ok (set_permissions wk (BatchSetAllowlistExists (wk_permissionCache wk) channelId
                                    channelType (map mb_Uid members) true), None)
      end
  end.

(** [pkg/wkdb/allowlist.go] [(wk *wukongDB) ExistAllowlist] *)
Definition ExistAllowlist (wk : wukongDB) (channelId : string) (channelType : Z) (uid : string)
  : res (wukongDB * (GoError + bool)) :=
  let '(c, (exists_, found)) := GetAllowlistExists (wk_permissionCache wk) channelId channelType uid in
  let wk := set_permissions wk c in
  if found then Ok (wk, inr exists_)
  else
    let! (_, db) := channelDb wk channelId channelType in
    let! r := lookupMember AllowlistTable db channelId channelType uid in
    Ok (match r with
        | None => (wk, inl (ErrOther "get"))
        | Some exists_ =>
            (set_permissions wk (SetAllowlistExists (wk_permissionCache wk) channelId channelType
                                   uid exists_), inr exists_)
        end).

(** [pkg/wkdb/allowlist.go] [(wk *wukongDB) HasAllowlist]

    The callback stops at the first member. *)
Definition HasAllowlist (wk : wukongDB) (channelId : string) (channelType : Z)
  : res (wukongDB * (GoError + bool)) :=
  let '(c, (has, found)) := GetHasAllowlist (wk_permissionCache wk) channelId channelType in
  let wk := set_permissions wk c in
  if found then Ok (wk, inr has)
  else
    let! (_, db) := channelDb wk channelId channelType in
    let! low := NewAllowlistPrimaryKey channelId channelType 0 in
    let! high := NewAllowlistPrimaryKey channelId channelType MaxUint64 in
    let! r := iterateAllowlist (fun _ _ => (true, false)) (kv_iter db low high) false in
    Ok (match r with
        | None => (wk, inl parseErr)
        | Some has =>
            (set_permissions wk (SetHasAllowlist (wk_permissionCache wk) channelId channelType has),
             inr has)
        end).

(** [pkg/wkdb/allowlist.go] [(wk *wukongDB) RemoveAllowlist] *)
Definition RemoveAllowlist (wk : wukongDB) (channelId : string) (channelType : Z)
    (uids : list string) : res (wukongDB * option GoError) :=
  let! (i, db) := channelDb wk channelId channelType in
  let! members := getAllowlistByUids db channelId channelType uids [] in
  match members with
  | None => Ok (wk, Some parseErr)
  | Some members =>
      let! w := batchOf (removeAllowlist channelId channelType) members in
      let! w := incChannelInfoAllowlistCount db (getChannelPrimaryKey channelId channelType)
                  (- len members) w in
      match w with
      | None => Ok (wk, Some (ErrOther "get"))
      | Some w =>
          match commit wk i db w with
          | None => Ok (wk, Some commitErr)
          | Some wk =>
              Ok (set_permissions wk (BatchSetAllowlistExists (wk_permissionCache wk) channelId
                                        channelType uids false), None)
          end
      end
  end.

(** [pkg/wkdb/allowlist.go] [(wk *wukongDB) RemoveAllAllowlist] *)
Definition RemoveAllAllowlist (wk : wukongDB) (channelId : string) (channelType : Z)
  : res (wukongDB * option GoError) :=
  let! (i, db) := channelDb wk channelId channelType in
  let! low := NewAllowlistPrimaryKey channelId channelType 0 in
  let! high := NewAllowlistPrimaryKey channelId channelType MaxUint64 in
  let! w := deleteAllAllowlistIndex channelId channelType in
  let! w := incChannelInfoAllowlistCount db (getChannelPrimaryKey channelId channelType) 0
              (WDeleteRange low high :: w) in
  match w with
  | None => Ok (wk, Some (ErrOther "get"))
  | Some w =>
      match commit wk i db w with
      | None => Ok (wk, Some commitErr)
      | Some wk =>
          let c := InvalidateChannelByType (wk_permissionCache wk) PermissionTypeAllowlist
                     channelId channelType in
          let c := InvalidateChannelByType c PermissionTypeHasAllowlist channelId channelType in
          Ok (set_permissions wk c, None)
      end
  end.
End Members.
