(* ===== verification/WkMembersLaws.v ===== *)
(** * The rows of the member lists

    The abstract view of a list is a finite map from channel and user to the two
    times ([alist]), for the names in use, whose hashes are distinct ([Names]).

    - [zone]: the prefixes of the keys of one channel in one table; a write to
      another zone leaves them ([wops_frame]).
    - [TableLaws]: what a member table has to provide; the three tables do.
    - [chan_rep]: the rows and the index of a channel are those of its members.
      Writing a member, deleting one and deleting all keep it ([write_rep],
      [remove_rep], [remove_all_rep]). *)

From Stdlib Require Import Strings.Byte Strings.Ascii Sorting.Sorted.
From stdpp Require Import sorting.
From S2P Require Import Prelude RaftTypes WkProto KeyBytes WkTables WkKey WkKeyLaws WkKv.
From S2P Require Import WkPermission WkMembers.

(** ** Writes and tables *)

Lemma prefix4_inj id kind r id' kind' r' :
  prefix4 id kind ++ r = prefix4 id' kind' ++ r' -> id = id' /\ kind = kind' /\ r = r'.
Proof.
  destruct id, id'. unfold prefix4. simpl. intros [= -> -> ->%dataType_byte_inj ->]. done.
Qed.

(** The prefixes of the keys of one channel in a table: of its rows and of its
    index entries. *)
Inductive zone (id : name2) (h : Z) : bytes -> Prop :=
| zone_row : zone id h (prefix4 id dataTypeTable ++ be_bytes 8 h)
| zone_index kind (n : name2) : kind <> dataTypeTable ->
    zone id h (prefix4 id kind ++ [n.1; n.2] ++ be_bytes 8 h).

Lemma zones_apart id h p r id' h' p' r' :
  is_u64 h -> is_u64 h' -> zone id h p -> zone id' h' p' -> p ++ r = p' ++ r' -> (id, h) = (id', h').
Proof.
  intros Hh Hh' [|kind n Hk] [|kind' n' Hk']; rewrite <-!app_assoc;
    intros (-> & Ek & E)%prefix4_inj; try congruence.
  - apply app_inj_1 in E as [E _]; [|by rewrite !be_bytes_length].
    apply (be_bytes_inj 8) in E; [by rewrite E|done|done].
  - apply app_inj_1 in E as [_ E]; [|done]. apply app_inj_1 in E as [E _]; [|by rewrite !be_bytes_length].
    apply (be_bytes_inj 8) in E; [by rewrite E|done|done].
Qed.

(** All keys of a write belong to one channel of a table. *)
Definition wop_in (id : name2) (h : Z) (w : wop) : Prop :=
  match w with
  | WSet k _ | WDelete k => exists p r, zone id h p /\ k = p ++ r
  | WDeleteRange lower upper => exists p a b, zone id h p /\ lower = p ++ a /\ upper = p ++ b
  end.

Definition foreign (id : name2) (h : Z) (w : wop) : Prop :=
  exists id' h', is_u64 h' /\ (id', h') <> (id, h) /\ wop_in id' h' w.

Lemma wop_frame id h w m p r :
  is_u64 h -> foreign id h w -> zone id h p -> apply_wop m w !! (p ++ r) = m !! (p ++ r).
Proof.
  intros Hh (id' & h' & Hh' & Hne & Hw) Hp.
  assert (Hd : forall q x, zone id' h' q -> q ++ x <> p ++ r).
  { intros q x Hq E. by apply Hne, (zones_apart id' h' q x id h p r). }
  destruct w as [k v|k|lower upper].
  - destruct Hw as (q & x & Hq & ->). apply lookup_insert_ne. by apply Hd.
  - destruct Hw as (q & x & Hq & ->). apply lookup_delete_ne. by apply Hd.
  - destruct Hw as (q & a & b & Hq & -> & ->). rewrite range_lookup.
    destruct (decide _) as [(c & E & _)%range_prefix|]; [|done]. by edestruct Hd.
Qed.

Lemma wops_frame id h ws m p r :
  is_u64 h -> Forall (foreign id h) ws -> zone id h p ->
  apply_wops m ws !! (p ++ r) = m !! (p ++ r).
Proof.
  intros Hh H Hp. revert m. induction H as [|w ws Hw _ IH]; intros m; [done|].
  simpl. rewrite IH. by apply (wop_frame id h).
Qed.

(** ** Laws of a member table *)

Definition idx (t : Table) (name : name2) (h v : Z) : bytes :=
  encode_key (mkLogical (t_Id t) dataTypeIndex [F2 name; F64 h; F64 v]).
Definition sidx (t : Table) (name : name2) (h v i : Z) : bytes :=
  encode_key (mkLogical (t_Id t) dataTypeSecondIndex [F2 name; F64 h; F64 v; F64 i]).

Class TableLaws (T : MemberTable) := {
  tl_indexName : name2;
  tl_ColumnKey ch t i col :
    mt_ColumnKey T ch t i col = Ok (row (mt_table T) (channelToNum ch t) i col);
  tl_IndexKey ch t v :
    mt_IndexKey T ch t (index (mt_table T) "Uid") v =
    Ok (idx (mt_table T) tl_indexName (channelToNum ch t) v);
  tl_SecondIndexKey ch t name v i :
    mt_SecondIndexKey T ch t name v i = Ok (sidx (mt_table T) name (channelToNum ch t) v i);
  tl_Parse h i col : is_u64 i -> mt_ParseColumnKey T (row (mt_table T) h i col) = Ok (Some (i, col));
  tl_bounds ch t : exists a b,
    mt_LowKey T ch t =
      Ok ((prefix4 (t_Id (mt_table T)) dataTypeTable ++ be_bytes 8 (channelToNum ch t)) ++ a) /\
    mt_HighKey T ch t =
      Ok ((prefix4 (t_Id (mt_table T)) dataTypeTable ++ be_bytes 8 (channelToNum ch t)) ++ b) /\
    forall i col, 0 < i < MaxUint64 ->
      in_range ((prefix4 (t_Id (mt_table T)) dataTypeTable ++ be_bytes 8 (channelToNum ch t)) ++ a)
               ((prefix4 (t_Id (mt_table T)) dataTypeTable ++ be_bytes 8 (channelToNum ch t)) ++ b)
               (row (mt_table T) (channelToNum ch t) i col);
  tl_columns :
    bcompare [(column (mt_table T) "Uid").1; (column (mt_table T) "Uid").2]
             [(column (mt_table T) "CreatedAt").1; (column (mt_table T) "CreatedAt").2] = Lt /\
    bcompare [(column (mt_table T) "CreatedAt").1; (column (mt_table T) "CreatedAt").2]
             [(column (mt_table T) "UpdatedAt").1; (column (mt_table T) "UpdatedAt").2] = Lt /\
    column (mt_table T) "Uid" <> MaxColumnKey /\ column (mt_table T) "CreatedAt" <> MaxColumnKey /\
    column (mt_table T) "UpdatedAt" <> MaxColumnKey;
  tl_written m : mb_Id m = HashWithString (mb_Uid m) -> mt_writtenIndex T m = mb_Id m;
  tl_deleted m : mb_Id m = HashWithString (mb_Uid m) -> mt_deletedIndex T m = mb_Id m
}.

Lemma MaxUint64_u64 : is_u64 MaxUint64.
Proof. unfold is_u64, MaxUint64. lia. Qed.
Lemma zero_u64 : is_u64 0.
Proof. unfold is_u64. lia. Qed.
#[export] Hint Resolve MaxUint64_u64 zero_u64 : go_ints.

Lemma row_parse (parse : bytes -> res (option (Z * name2))) t h i col :
  (parse (row t h i col) = Ok (Some (be_val (be_bytes 8 i), (col.1, col.2)))) -> is_u64 i ->
  parse (row t h i col) = Ok (Some (i, col)).
Proof. intros -> Hi. rewrite be_val_bytes by exact Hi. by destruct col. Qed.

Lemma primary_bounds t ch ty i col :
  0 < i < MaxUint64 ->
  in_range ((prefix4 (t_Id t) dataTypeTable ++ be_bytes 8 (channelToNum ch ty)) ++ be_bytes 8 0)
           ((prefix4 (t_Id t) dataTypeTable ++ be_bytes 8 (channelToNum ch ty)) ++ be_bytes 8 MaxUint64)
           (row t (channelToNum ch ty) i col).
Proof.
  intros Hi. rewrite <-!app_assoc. apply (primary_range t);
    [apply fnv64a_range|auto with go_ints|auto with go_ints|apply fnv64a_range|..];
    unfold is_u64, MaxUint64 in *; lia.
Qed.

#[export] Instance Subscriber_laws : TableLaws SubscriberTable.
Proof.
  refine {| tl_indexName := ((index TableSubscriber "Uid").1, (index TableSubscriber "Uid").1) |};
    try (intros; reflexivity).
  - intros h i col Hi. by apply row_parse.
  - intros ch t.
    exists (be_bytes 8 0 ++ [MinColumnKey.1; MinColumnKey.2]),
      (be_bytes 8 MaxUint64 ++ [MaxColumnKey.1; MaxColumnKey.2]).
    split; [reflexivity|]. split; [reflexivity|]. intros i col Hi.
    rewrite <-!app_assoc, <-!row_eq. apply row_range;
      [apply fnv64a_range|auto with go_ints|auto with go_ints|apply fnv64a_range|..];
      unfold is_u64, MaxUint64 in *; lia.
  - split; [reflexivity|]. split; [reflexivity|]. by vm_compute.
  - by intros m ->.
Defined.

#[export] Instance Denylist_laws : TableLaws DenylistTable.
Proof.
  refine {| tl_indexName := index TableDenylist "Uid" |}; try (intros; reflexivity).
  - intros h i col Hi. by apply row_parse.
  - intros ch t. exists (be_bytes 8 0), (be_bytes 8 MaxUint64).
    split; [reflexivity|]. split; [reflexivity|]. intros i col. apply primary_bounds.
  - split; [reflexivity|]. split; [reflexivity|]. by vm_compute.
Defined.

#[export] Instance Allowlist_laws : TableLaws AllowlistTable.
Proof.
  refine {| tl_indexName := ((index TableAllowlist "Uid").1, (index TableAllowlist "Uid").1) |};
    try (intros; reflexivity).
  - intros h i col Hi. by apply row_parse.
  - intros ch t. exists (be_bytes 8 0), (be_bytes 8 MaxUint64).
    split; [reflexivity|]. split; [reflexivity|]. intros i col. apply primary_bounds.
  - split; [reflexivity|]. split; [reflexivity|]. by vm_compute.
  - by intros m ->.
Defined.

(** Keys of a table and what they are made of. *)
Lemma idx_eq t name h v :
  idx t name h v = prefix4 (t_Id t) dataTypeIndex ++ [name.1; name.2] ++ be_bytes 8 h ++ be_bytes 8 v.
Proof. unfold idx, encode_key. simpl lk_fields. cbn [flat_map fld_bytes]. by rewrite !app_nil_r. Qed.
Lemma sidx_eq t name h v i :
  sidx t name h v i = prefix4 (t_Id t) dataTypeSecondIndex ++ [name.1; name.2] ++
                      be_bytes 8 h ++ be_bytes 8 v ++ be_bytes 8 i.
Proof. unfold sidx, encode_key. simpl lk_fields. cbn [flat_map fld_bytes]. by rewrite !app_nil_r. Qed.

Lemma rows_apart t h i col i' col' :
  is_u64 i -> is_u64 i' -> row t h i col = row t h i' col' -> i = i' /\ col = col'.
Proof.
  intros Hi Hi'. rewrite !row_eq. intros E. apply app_inv_head, app_inv_head in E.
  apply app_inj_1 in E as [E1 E2]; [|by rewrite !be_bytes_length].
  apply (be_bytes_inj 8) in E1; [|done..]. destruct col, col'. simpl in E2. by injection E2 as -> ->.
Qed.

Lemma rows_lt t h i col i' col' :
  is_u64 i -> is_u64 i' -> i < i' \/ i = i' /\ bcompare [col.1; col.2] [col'.1; col'.2] = Lt ->
  blt (row t h i col) (row t h i' col').
Proof.
  intros Hi Hi' H. unfold blt. rewrite !row_eq, !bcompare_prefix.
  rewrite bcompare_app, (bcompare_be 8) by (done || by rewrite !be_bytes_length).
  destruct (Z.compare_spec i i'); [|done|lia]. destruct H as [?|[_ ?]]; [lia|done].
Qed.

Lemma indexes_apart t name h v v' :
  is_u64 v -> is_u64 v' -> idx t name h v = idx t name h v' -> v = v'.
Proof.
  intros Hv Hv'. rewrite !idx_eq. intros E. do 3 apply app_inv_head in E.
  by apply (be_bytes_inj 8) in E.
Qed.

Lemma row_not_idx t h i col t' name h' v : row t h i col <> idx t' name h' v.
Proof. rewrite row_eq, idx_eq. by intros (_ & ? & _)%prefix4_inj. Qed.
Lemma row_not_sidx t h i col t' name h' v j : row t h i col <> sidx t' name h' v j.
Proof. rewrite row_eq, sidx_eq. by intros (_ & ? & _)%prefix4_inj. Qed.
Lemma idx_not_sidx t name h v t' name' h' v' j : idx t name h v <> sidx t' name' h' v' j.
Proof. rewrite idx_eq, sidx_eq. by intros (_ & ? & _)%prefix4_inj. Qed.

Lemma row_zone t h i col : exists r, zone (t_Id t) h (prefix4 (t_Id t) dataTypeTable ++ be_bytes 8 h) /\
  row t h i col = (prefix4 (t_Id t) dataTypeTable ++ be_bytes 8 h) ++ r.
Proof. eexists. split; [constructor|]. by rewrite row_eq, <-app_assoc. Qed.

(** ** Names *)

(** The channels and the users in use.  Channels and users are told apart by their
    hashes, and the ids of the channels have no colon. *)
Class Names := {
  Chan : string -> Z -> Prop;
  User : string -> Prop;
  chan_type c t : Chan c t -> is_u8 t;
  chan_colon c t : Chan c t -> ":"%char ∉ String.list_ascii_of_string c;
  chan_inj c t c' t' : Chan c t -> Chan c' t' -> channelToNum c t = channelToNum c' t' ->
    c = c' /\ t = t';
  chan_hash c t : Chan c t -> channelToNum c t <> 0;
  user_nonempty u : User u -> u <> "";
  user_hash u : User u -> 0 < HashWithString u < MaxUint64;
  user_inj u u' : User u -> User u' -> HashWithString u = HashWithString u' -> u = u'
}.

(** A list: its members by channel and user, with the two times. *)
Abbreviation times := (option Z * option Z)%type.
Abbreviation alist := (gmap (string * Z * string) times).

Definition time_ok (tm : option Z) : Prop := forall z, tm = Some z -> 0 < z < 2 ^ 63.
Definition times_ok (A : alist) : Prop := map_Forall (fun _ tms => time_ok tms.1 /\ time_ok tms.2) A.

(** A later time replaces an earlier one; no time leaves it. *)
Definition newer (new old : option Z) : option Z :=
  match new with
  | Some t => Some t
  | None => old
  end.

Definition add_member (A : alist) (c : string) (t : Z) (m : Member) : alist :=
  let old := default (None, None) (A !! (c, t, mb_Uid m)) in
  <[(c, t, mb_Uid m) := (newer (mb_CreatedAt m) old.1, newer (mb_UpdatedAt m) old.2)]> A.
Definition remove_member (A : alist) (c : string) (t : Z) (u : string) : alist := delete (c, t, u) A.
Definition remove_channel (A : alist) (c : string) (t : Z) : alist :=
  filter (fun p => (p.1.1.1, p.1.1.2) <> (c, t)) A.

(** ** A table represents a list *)

Section Rep.
Context {N : Names} (T : MemberTable) {TL : TableLaws T}.
Implicit Types (A : alist) (m : kvmap).

Abbreviation tb := (mt_table T).
Abbreviation hash := HashWithString.

Lemma hash_u64 u : User u -> is_u64 (hash u).
Proof. intros H%user_hash. unfold is_u64, MaxUint64 in *. lia. Qed.

Definition time_bytes (tm : Z) : bytes := be_bytes 8 (u64 tm).

(** The value of a column of a member's row. *)
Definition cell (u : string) (tms : times) (col : name2) : option bytes :=
  if decide (col = column tb "Uid") then Some (str_bytes u)
  else if decide (col = column tb "CreatedAt") then time_bytes <$> tms.1
  else if decide (col = column tb "UpdatedAt") then time_bytes <$> tms.2
  else None.

(** The rows and the index of a channel are those of its members. *)
Record chan_rep A (c : string) (t : Z) m : Prop := {
  cr_row u col : User u ->
    m !! row tb (channelToNum c t) (hash u) col = A !! (c, t, u) ≫= (fun tms => cell u tms col);
  cr_only r v : m !! ((prefix4 (t_Id tb) dataTypeTable ++ be_bytes 8 (channelToNum c t)) ++ r) = Some v ->
    exists u col, User u /\ r = be_bytes 8 (hash u) ++ [col.1; col.2];
  cr_index u : User u ->
    is_Some (m !! idx tb tl_indexName (channelToNum c t) (hash u)) <-> is_Some (A !! (c, t, u))
}.

Lemma cr_rows A c t m i col v :
  chan_rep A c t m -> is_u64 i -> m !! row tb (channelToNum c t) i col = Some v ->
  exists u tms, User u /\ i = hash u /\ A !! (c, t, u) = Some tms /\ cell u tms col = Some v.
Proof.
  intros R Hi Hm. pose proof Hm as Hm'. rewrite row_eq in Hm'.
  rewrite app_assoc in Hm'. apply (cr_only _ _ _ _ R) in Hm' as (u & col' & Hu & E).
  apply app_inj_1 in E as [E1 _]; [|by rewrite !be_bytes_length].
  apply (be_bytes_inj 8) in E1 as ->; [|done|by apply hash_u64].
  rewrite (cr_row _ _ _ _ R) in Hm by done. destruct (A !! (c, t, u)) as [tms|] eqn:E; [|done].
  eauto 10.
Qed.

Lemma chan_rep_ext A A' c t m :
  (forall u, A !! (c, t, u) = A' !! (c, t, u)) -> chan_rep A c t m -> chan_rep A' c t m.
Proof.
  intros HA [R1 R2 R3]. split; [|done|]; intros; rewrite <-HA; auto.
Qed.

Lemma chan_rep_frame A c t m ws :
  Forall (foreign (t_Id tb) (channelToNum c t)) ws -> chan_rep A c t m ->
  chan_rep A c t (apply_wops m ws).
Proof.
  intros Hw [R1 R2 R3]. pose proof (fnv64a_range) as Hu.
  assert (Hh : is_u64 (channelToNum c t)) by apply Hu.
  split.
  - intros u col Hus. destruct (row_zone tb (channelToNum c t) (hash u) col) as (r & Hz & E).
    rewrite E, (wops_frame (t_Id tb) (channelToNum c t)), <-E by done. auto.
  - intros r v. rewrite (wops_frame (t_Id tb) (channelToNum c t)); [apply R2|done|done|constructor].
  - intros u Hus. rewrite <-R3 by done. rewrite idx_eq, !app_assoc, <-(app_assoc (prefix4 _ _)).
    by rewrite (wops_frame (t_Id tb) (channelToNum c t)) by (done || by constructor).
Qed.

(** *** Writes to one row *)

Abbreviation num := channelToNum.

Definition time_writes (h i : Z) (col : string) (tm : option Z) : list wop :=
  match tm with
  | None => []
  | Some tm => [WSet (row tb h i (column tb col)) (time_bytes tm);
                WSet (sidx tb (secondIndex tb col) h (u64 tm) i) []]
  end.

Lemma writeTime_eq c t i col tm : writeTime T c t i col tm = Ok (time_writes (num c t) i col tm).
Proof. destruct tm as [tm|]; simpl; [|done]. by rewrite tl_ColumnKey, tl_SecondIndexKey. Qed.

(** The sets of a batch that are not in an index are cells of row [i]. *)
Definition sets_row (h i : Z) (w : wop) : Prop :=
  match w with
  | WSet k _ => (exists col, k = row tb h i col) \/ (forall r, k <> prefix4 (t_Id tb) dataTypeTable ++ r)
  | _ => True
  end.

Lemma sets_row_only h i ws m r v :
  Forall (sets_row h i) ws ->
  apply_wops m ws !! ((prefix4 (t_Id tb) dataTypeTable ++ be_bytes 8 h) ++ r) = Some v ->
  (exists v', m !! ((prefix4 (t_Id tb) dataTypeTable ++ be_bytes 8 h) ++ r) = Some v') \/
  exists col : name2, r = be_bytes 8 i ++ [col.1; col.2].
Proof.
  intros Hws. revert m. induction Hws as [|w ws Hw _ IH]; intros m Hv; [eauto|].
  cbn [apply_wops foldl] in Hv. destruct (IH _ Hv) as [(v' & Hv')|?]; [|by right]. destruct w as [k x|k|lo up].
  - cbn [apply_wop] in Hv'. apply lookup_insert_Some in Hv' as [[E _]|[_ ?]]; [|eauto]. right.
    destruct Hw as [[col ->]|Hn]; [|by rewrite <-app_assoc in E; apply Hn in E].
    exists col. rewrite row_eq, <-app_assoc in E. by do 2 apply app_inv_head in E.
  - cbn [apply_wop] in Hv'. apply lookup_delete_Some in Hv' as [_ ?]. eauto.
  - rewrite range_lookup in Hv'. destruct (decide _); [done|eauto].
Qed.

Lemma sidx_not_row name h v j r : sidx tb name h v j <> prefix4 (t_Id tb) dataTypeTable ++ r.
Proof. rewrite sidx_eq. by intros (_ & ? & _)%prefix4_inj. Qed.
Lemma idx_not_row name h v r : idx tb name h v <> prefix4 (t_Id tb) dataTypeTable ++ r.
Proof. rewrite idx_eq. by intros (_ & ? & _)%prefix4_inj. Qed.

Lemma row_in h i col v : wop_in (t_Id tb) h (WSet (row tb h i col) v).
Proof. destruct (row_zone tb h i col) as (r & Hz & E). simpl. eauto. Qed.
Lemma idx_in name h v : exists p r, zone (t_Id tb) h p /\ idx tb name h v = p ++ r.
Proof.
  eexists _, (be_bytes 8 v). split; [by eapply (zone_index _ _ dataTypeIndex name)|].
  by rewrite idx_eq, <-!app_assoc.
Qed.
Lemma sidx_in name h v i : exists p r, zone (t_Id tb) h p /\ sidx tb name h v i = p ++ r.
Proof.
  eexists _, (be_bytes 8 v ++ be_bytes 8 i).
  split; [by eapply (zone_index _ _ dataTypeSecondIndex name)|]. by rewrite sidx_eq, <-!app_assoc.
Qed.

Lemma time_writes_ok h i col tm :
  Forall (wop_in (t_Id tb) h) (time_writes h i col tm) /\ Forall (sets_row h i) (time_writes h i col tm).
Proof.
  destruct tm as [tm|]; [|by split]. split.
  - apply Forall_cons. split; [apply row_in|]. apply Forall_singleton, sidx_in.
  - apply Forall_cons. split; [left; eauto|]. apply Forall_singleton. right. apply sidx_not_row.
Qed.

Lemma time_writes_idx h i col tm m name v :
  apply_wops m (time_writes h i col tm) !! idx tb name h v = m !! idx tb name h v.
Proof.
  destruct tm as [tm|]; [|done]. simpl.
  rewrite lookup_insert_ne by (apply not_eq_sym, idx_not_sidx).
  by rewrite lookup_insert_ne by apply row_not_idx.
Qed.

Lemma time_writes_row h i col tm m i' col' :
  is_u64 i -> is_u64 i' ->
  apply_wops m (time_writes h i col tm) !! row tb h i' col' =
  match tm with
  | Some tm => if decide (i' = i /\ col' = column tb col) then Some (time_bytes tm)
               else m !! row tb h i' col'
  | None => m !! row tb h i' col'
  end.
Proof.
  intros Hi Hi'. destruct tm as [tm|]; [|done]. simpl.
  rewrite lookup_insert_ne by (apply not_eq_sym, row_not_sidx).
  destruct (decide _) as [[-> ->]|Hne]; [by rewrite lookup_insert_eq|].
  apply lookup_insert_ne. intros E. apply Hne. apply rows_apart in E as [-> ->]; done.
Qed.

Definition member_ok (mb : Member) : Prop :=
  User (mb_Uid mb) /\ mb_Id mb = hash (mb_Uid mb) /\
  time_ok (mb_CreatedAt mb) /\ time_ok (mb_UpdatedAt mb).

Definition member_writes (h : Z) (mb : Member) : list wop :=
  [WSet (row tb h (mb_Id mb) (column tb "Uid")) (str_bytes (mb_Uid mb));
   WSet (idx tb tl_indexName h (mb_Id mb)) (be_bytes 8 (mb_Id mb))] ++
  time_writes h (mb_Id mb) "CreatedAt" (mb_CreatedAt mb) ++
  time_writes h (mb_Id mb) "UpdatedAt" (mb_UpdatedAt mb).

Lemma writeMember_eq c t mb :
  mb_Id mb = hash (mb_Uid mb) -> writeMember T c t mb = Ok (member_writes (num c t) mb).
Proof.
  intros Hid. unfold writeMember. rewrite tl_ColumnKey. simpl. rewrite tl_IndexKey. simpl.
  rewrite !writeTime_eq. simpl. by rewrite tl_written.
Qed.

Lemma columns_apart :
  column tb "Uid" <> column tb "CreatedAt" /\ column tb "Uid" <> column tb "UpdatedAt" /\
  column tb "CreatedAt" <> column tb "UpdatedAt".
Proof.
  destruct tl_columns as (H1 & H2 & _). split_and!; intros E.
  - rewrite E in H1. by rewrite bcompare_refl in H1.
  - rewrite E in H1. rewrite bcompare_antisym, H2 in H1. done.
  - rewrite E in H2. by rewrite bcompare_refl in H2.
Qed.

Lemma member_writes_in h mb :
  Forall (wop_in (t_Id tb) h) (member_writes h mb) /\
  Forall (sets_row h (mb_Id mb)) (member_writes h mb).
Proof.
  unfold member_writes. rewrite !Forall_app, !Forall_cons, !Forall_nil.
  pose proof (time_writes_ok h (mb_Id mb) "CreatedAt" (mb_CreatedAt mb)) as [? ?].
  pose proof (time_writes_ok h (mb_Id mb) "UpdatedAt" (mb_UpdatedAt mb)) as [? ?].
  split_and!; try done; [apply row_in|apply idx_in|left; eauto|right; apply idx_not_row].
Qed.

(** Writing a member adds it to the list. *)
Lemma write_rep A c t m mb :
  member_ok mb -> chan_rep A c t m ->
  chan_rep (add_member A c t mb) c t (apply_wops m (member_writes (num c t) mb)).
Proof.
  intros (Hu & Hid & _ & _) R. pose proof (hash_u64 _ Hu) as Hi. rewrite <-Hid in Hi.
  destruct columns_apart as (N1 & N2 & N3). split.
  - intros u col Hus. pose proof (hash_u64 _ Hus) as Hi'. unfold member_writes.
    rewrite !apply_wops_app, !time_writes_row by done. simpl.
    rewrite lookup_insert_ne by (apply not_eq_sym, row_not_idx).
    unfold add_member. destruct (decide (u = mb_Uid mb)) as [->|Hne].
    + rewrite lookup_insert_eq, <-Hid. simpl. unfold cell. cbn [fst snd].
      destruct (decide (col = column tb "Uid")) as [->|Nu].
      { rewrite lookup_insert_eq. destruct (mb_CreatedAt mb), (mb_UpdatedAt mb); simpl;
          rewrite ?decide_False by tauto; done. }
      rewrite lookup_insert_ne by (intros [_ E]%rows_apart; congruence).
      rewrite Hid, (cr_row _ _ _ _ R) by done. unfold cell.
      destruct (mb_CreatedAt mb), (mb_UpdatedAt mb), (A !! _) as [[]|]; simpl;
        repeat (case_decide; try (exfalso; intuition congruence)); done.
    + assert (hash u <> mb_Id mb) as Hni by (rewrite Hid; intros E; by apply Hne, user_inj).
      rewrite lookup_insert_ne by (intros [E _]%rows_apart; congruence).
      rewrite lookup_insert_ne by congruence.
      destruct (mb_CreatedAt mb), (mb_UpdatedAt mb); rewrite ?decide_False by tauto;
        by apply (cr_row _ _ _ _ R).
  - intros r v Hv.
    destruct (sets_row_only _ (mb_Id mb) _ _ _ _ (proj2 (member_writes_in _ _)) Hv) as [[v' Hv']|[col ->]];
      [by eapply cr_only|rewrite Hid; eauto].
  - intros u Hus. pose proof (hash_u64 _ Hus) as Hi'. unfold member_writes.
    rewrite !apply_wops_app, !time_writes_idx. simpl. unfold add_member.
    destruct (decide (u = mb_Uid mb)) as [->|Hne].
    + rewrite <-Hid, !lookup_insert_eq. by split; eauto.
    + rewrite !lookup_insert_ne; [by apply (cr_index _ _ _ _ R)|congruence|apply row_not_idx|].
      intros E%indexes_apart; [|done..]. apply Hne. by apply user_inj; [..|congruence].
Qed.

(** *** Deletes *)

(** Writes to the secondary indexes leave the rows and the index. *)
Definition second_only (w : wop) : Prop :=
  match w with
  | WSet k _ | WDelete k => exists r, k = prefix4 (t_Id tb) dataTypeSecondIndex ++ r
  | WDeleteRange lower upper => exists a b,
      lower = prefix4 (t_Id tb) dataTypeSecondIndex ++ a /\
      upper = prefix4 (t_Id tb) dataTypeSecondIndex ++ b
  end.

Lemma second_frame ws m kind r :
  Forall second_only ws -> kind <> dataTypeSecondIndex ->
  apply_wops m ws !! (prefix4 (t_Id tb) kind ++ r) = m !! (prefix4 (t_Id tb) kind ++ r).
Proof.
  intros Hws Hk. revert m. induction Hws as [|w ws Hw _ IH]; intros m; [done|].
  cbn [apply_wops foldl]. rewrite IH. destruct w as [k v|k|lower upper].
  - destruct Hw as [x ->]. apply lookup_insert_ne. by intros (_ & ? & _)%prefix4_inj.
  - destruct Hw as [x ->]. apply lookup_delete_ne. by intros (_ & ? & _)%prefix4_inj.
  - destruct Hw as (a & b & -> & ->). rewrite range_lookup.
    destruct (decide _) as [(x & E & _)%range_prefix|]; [|done]. by apply prefix4_inj in E as (_ & ? & _).
Qed.

Lemma second_frame_row ws m h i col :
  Forall second_only ws -> apply_wops m ws !! row tb h i col = m !! row tb h i col.
Proof. intros H. rewrite row_eq. by apply second_frame. Qed.
Lemma second_frame_idx ws m name h v :
  Forall second_only ws -> apply_wops m ws !! idx tb name h v = m !! idx tb name h v.
Proof. intros H. rewrite idx_eq. by apply second_frame. Qed.

Definition time_deletes (h i : Z) (col : string) (tm : option Z) : list wop :=
  match tm with
  | None => []
  | Some tm => [WDelete (sidx tb (secondIndex tb col) h (u64 tm) i)]
  end.

Definition member_deletes (h : Z) (mb : Member) : list wop :=
  [WDeleteRange (row tb h (mb_Id mb) MinColumnKey) (row tb h (mb_Id mb) MaxColumnKey);
   WDelete (idx tb tl_indexName h (mb_Id mb))] ++
  time_deletes h (mb_Id mb) "CreatedAt" (mb_CreatedAt mb) ++
  time_deletes h (mb_Id mb) "UpdatedAt" (mb_UpdatedAt mb).

Lemma removeMember_eq c t mb :
  mb_Id mb = hash (mb_Uid mb) -> removeMember T c t mb = Ok (member_deletes (num c t) mb).
Proof.
  intros Hid. unfold removeMember, deleteMemberIndex, member_deletes.
  rewrite !tl_ColumnKey. simpl. rewrite tl_IndexKey, tl_deleted by done. simpl.
  destruct (mb_CreatedAt mb), (mb_UpdatedAt mb); simpl;
    repeat (rewrite tl_SecondIndexKey; simpl); done.
Qed.

Lemma time_deletes_ok h i col tm :
  Forall (wop_in (t_Id tb) h) (time_deletes h i col tm) /\ Forall second_only (time_deletes h i col tm).
Proof.
  destruct tm as [tm|]; [|by split]. split; apply Forall_singleton; [apply sidx_in|].
  simpl. rewrite sidx_eq. eauto.
Qed.

Lemma member_deletes_in h mb : Forall (wop_in (t_Id tb) h) (member_deletes h mb).
Proof.
  unfold member_deletes. rewrite !Forall_app, !Forall_cons, Forall_nil.
  pose proof (time_deletes_ok h (mb_Id mb) "CreatedAt" (mb_CreatedAt mb)) as [? _].
  pose proof (time_deletes_ok h (mb_Id mb) "UpdatedAt" (mb_UpdatedAt mb)) as [? _].
  split_and!; try done; [|apply idx_in].
  destruct (row_zone tb h (mb_Id mb) MinColumnKey) as (r & Hz & E).
  destruct (row_zone tb h (mb_Id mb) MaxColumnKey) as (r' & _ & E').
  simpl. eauto 10.
Qed.

Lemma no_max_cell u tms : cell u tms MaxColumnKey = None.
Proof.
  destruct tl_columns as (_ & _ & N1 & N2 & N3). unfold cell. by rewrite !decide_False by congruence.
Qed.

Lemma num_u64 c t : is_u64 (num c t).
Proof. apply fnv64a_range. Qed.
#[local] Hint Resolve num_u64 hash_u64 : go_ints.

(** The deletes of a member: what is left of the rows and of the index. *)
Lemma member_deletes_row c t mb m i col :
  is_u64 (mb_Id mb) -> is_u64 i ->
  apply_wops m (member_deletes (num c t) mb) !! row tb (num c t) i col =
  if decide (i = mb_Id mb /\ col <> MaxColumnKey) then None else m !! row tb (num c t) i col.
Proof.
  intros Hid Hi. unfold member_deletes. rewrite !apply_wops_app, !second_frame_row by apply time_deletes_ok.
  cbn [apply_wops foldl apply_wop]. rewrite lookup_delete_ne by (apply not_eq_sym, row_not_idx).
  etrans; [apply range_lookup|]. apply decide_ext.
  rewrite row_range by auto with go_ints. intuition lia.
Qed.

Lemma range_keeps m lower upper k v :
  apply_wop m (WDeleteRange lower upper) !! k = Some v -> m !! k = Some v.
Proof. rewrite range_lookup. by destruct (decide _). Qed.

Lemma remove_rep A c t m mb :
  User (mb_Uid mb) -> mb_Id mb = hash (mb_Uid mb) -> chan_rep A c t m ->
  chan_rep (remove_member A c t (mb_Uid mb)) c t (apply_wops m (member_deletes (num c t) mb)).
Proof.
  intros Hu Hid R. pose proof (hash_u64 _ Hu) as Hi. rewrite <-Hid in Hi. unfold remove_member. split.
  - intros u col Hus. pose proof (hash_u64 _ Hus) as Hi'. rewrite member_deletes_row by done.
    destruct (decide (u = mb_Uid mb)) as [->|Hne].
    + rewrite lookup_delete_eq. simpl. destruct (decide _) as [_|Hc]; [done|].
      rewrite (cr_row _ _ _ _ R) by done.
      destruct (decide (col = MaxColumnKey)) as [->|]; [|by exfalso; auto].
      destruct (A !! _); [apply no_max_cell|done].
    + rewrite lookup_delete_ne by congruence. rewrite decide_False; [by apply (cr_row _ _ _ _ R)|].
      intros [E _]. apply Hne. apply user_inj; [done..|congruence].
  - intros r v. unfold member_deletes.
    rewrite !apply_wops_app, <-app_assoc, !second_frame by first [done|apply time_deletes_ok].
    cbn [apply_wops foldl]. intros Hv. cbn [apply_wop] in Hv.
    rewrite lookup_delete_ne in Hv by apply idx_not_row.
    apply range_keeps in Hv. rewrite app_assoc in Hv. by eapply cr_only.
  - intros u Hus. pose proof (hash_u64 _ Hus) as Hi'. unfold member_deletes.
    rewrite !apply_wops_app, !second_frame_idx by apply time_deletes_ok.
    cbn [apply_wops foldl apply_wop]. destruct (decide (u = mb_Uid mb)) as [->|Hne].
    + by rewrite <-Hid, !lookup_delete_eq.
    + rewrite !lookup_delete_ne; [|congruence|].
      2:{ intros E%indexes_apart; [|done..]. apply Hne. by apply user_inj; [..|congruence]. }
      rewrite <-(cr_index _ _ _ _ R) by done. rewrite filter_lookup, decide_False; [done|]. rewrite !row_eq, !app_assoc. intros (x & E & _)%range_prefix.
      rewrite idx_eq, <-!app_assoc in E. by apply prefix4_inj in E as (_ & ? & _).
Qed.

(** *** All members of a channel *)

Definition time_ranges (h : Z) : list wop :=
  [WDeleteRange (sidx tb (secondIndex tb "CreatedAt") h 0 0)
                (sidx tb (secondIndex tb "CreatedAt") h MaxUint64 0);
   WDeleteRange (sidx tb (secondIndex tb "UpdatedAt") h 0 0)
                (sidx tb (secondIndex tb "UpdatedAt") h MaxUint64 0)].
Definition index_deletes (h : Z) : list wop :=
  WDeleteRange (idx tb tl_indexName h 0) (idx tb tl_indexName h MaxUint64) :: time_ranges h.

Lemma time_ranges_second h : Forall second_only (time_ranges h).
Proof.
  unfold time_ranges. rewrite !Forall_cons, Forall_nil. simpl. rewrite !sidx_eq. eauto 10.
Qed.

Lemma deleteAllMemberIndex_eq c t : deleteAllMemberIndex T c t = Ok (index_deletes (num c t)).
Proof.
  unfold deleteAllMemberIndex, deleteAllTimes. rewrite !tl_IndexKey. simpl.
  by repeat (rewrite tl_SecondIndexKey; simpl).
Qed.

Lemma index_deletes_in h : Forall (wop_in (t_Id tb) h) (index_deletes h).
Proof.
  unfold index_deletes, time_ranges. rewrite !Forall_cons, Forall_nil. split_and!; try done; simpl.
  - eexists _, (be_bytes 8 0), (be_bytes 8 MaxUint64).
    split; [by eapply (zone_index _ _ dataTypeIndex tl_indexName)|].
    by rewrite !idx_eq, <-!app_assoc.
  - eexists _, (be_bytes 8 0 ++ be_bytes 8 0), (be_bytes 8 MaxUint64 ++ be_bytes 8 0).
    split; [by eapply (zone_index _ _ dataTypeSecondIndex (secondIndex tb "CreatedAt"))|].
    by rewrite !sidx_eq, <-!app_assoc.
  - eexists _, (be_bytes 8 0 ++ be_bytes 8 0), (be_bytes 8 MaxUint64 ++ be_bytes 8 0).
    split; [by eapply (zone_index _ _ dataTypeSecondIndex (secondIndex tb "UpdatedAt"))|].
    by rewrite !sidx_eq, <-!app_assoc.
Qed.

Lemma remove_channel_None A c t u : remove_channel A c t !! (c, t, u) = None.
Proof.
  unfold remove_channel. apply map_lookup_filter_None. right. intros tms _. simpl. auto.
Qed.

Lemma channel_range_in c t low high :
  mt_LowKey T c t = Ok low -> mt_HighKey T c t = Ok high ->
  wop_in (t_Id tb) (num c t) (WDeleteRange low high).
Proof.
  intros Hlo Hhi. destruct (tl_bounds c t) as (a & b & E1 & E2 & _). simpl.
  eexists _, a, b. split; [constructor|]. split; congruence.
Qed.

Lemma remove_all_rep A c t m low high :
  mt_LowKey T c t = Ok low -> mt_HighKey T c t = Ok high -> chan_rep A c t m ->
  chan_rep (remove_channel A c t) c t (apply_wops m (WDeleteRange low high :: index_deletes (num c t))).
Proof.
  intros Hlo Hhi R. destruct (tl_bounds c t) as (a & b & E1 & E2 & Hb).
  assert (Hr : forall u col, User u -> in_range low high (row tb (num c t) (hash u) col)).
  { intros u col Hu%user_hash. replace low with ((prefix4 (t_Id tb) dataTypeTable ++ be_bytes 8 (num c t)) ++ a)
      by congruence.
    replace high with ((prefix4 (t_Id tb) dataTypeTable ++ be_bytes 8 (num c t)) ++ b) by congruence.
    by apply Hb. }
  assert (Hz : forall m r, apply_wops m (index_deletes (num c t)) !! (prefix4 (t_Id tb) dataTypeTable ++ r)
                      = m !! (prefix4 (t_Id tb) dataTypeTable ++ r)).
  { intros m' r. unfold index_deletes. rewrite apply_wops_cons, second_frame by (apply time_ranges_second || done).
    rewrite range_lookup, decide_False; [done|]. rewrite !idx_eq. intros (x & E & _)%range_prefix.
    by apply prefix4_inj in E as (_ & ? & _). }
  split.
  - intros u col Hu. rewrite apply_wops_cons, row_eq, Hz, <-row_eq, remove_channel_None, range_lookup.
    by rewrite decide_True by auto.
  - intros r v. rewrite apply_wops_cons, <-app_assoc, Hz, range_lookup. intros Hv. exfalso. destruct (decide _) as [|Hn]; [done|].
    rewrite app_assoc in Hv. apply (cr_only _ _ _ _ R) in Hv as (u & col & Hu & ->).
    apply Hn. rewrite <-row_eq. by apply Hr.
  - intros u Hu. rewrite remove_channel_None. split; [|by intros []]. intros [v Hv]. exfalso.
    unfold index_deletes in Hv. rewrite !apply_wops_cons in Hv.
    rewrite second_frame_idx, range_lookup in Hv by apply time_ranges_second.
    rewrite decide_True in Hv; [done|]. rewrite !idx_eq, !in_range_prefix.
    rewrite <-(app_nil_r (be_bytes 8 0)), <-(app_nil_r (be_bytes 8 MaxUint64)),
      <-(app_nil_r (be_bytes 8 (hash u))).
    pose proof (user_hash _ Hu). apply (range_field 8); unfold MaxUint64 in *; lia.
Qed.
End Rep.
