(* ===== verification/WkMembersScan.v ===== *)
(** * Scans of the member lists

    What an iterator visits between two keys of a channel is the entries of the
    members, one member after the other ([scan_entries]), and the loop of
    [iterateSubscriber] and its copies calls back once per member ([iterate_spec]).
    The list of members that a scan returns is determined by the abstract list
    ([members_of]). *)

From Stdlib Require Import Strings.Byte Strings.Ascii Sorting.Sorted.
From stdpp Require Import sorting.
From S2P Require Import Prelude RaftTypes WkProto KeyBytes WkTables WkKey WkKeyLaws WkKv.
From S2P Require Import WkPermission WkMembers WkMembersLaws.

Definition member_of (u : string) (tms : times) : Member :=
  mkMember (HashWithString u) u tms.1 tms.2.

(** The members of a channel in the order of their ids. *)
Definition members_of (A : alist) (c : string) (t : Z) (ms : list Member) : Prop :=
  StronglySorted (fun x y => mb_Id x < mb_Id y) ms /\
  forall mb, mb ∈ ms <-> exists u tms, A !! (c, t, u) = Some tms /\ mb = member_of u tms.

(** A callback that is called for each member until it stops. *)
Fixpoint visit {B} (f : B -> Member -> B * bool) (acc : B) (ms : list Member) : B :=
  match ms with
  | [] => acc
  | m :: ms => let '(acc, more) := f acc m in if more then visit f acc ms else acc
  end.

Lemma visit_collect acc ms : visit collect acc ms = acc ++ ms.
Proof.
  revert acc. induction ms as [|m ms IH]; intros acc; simpl; [by rewrite app_nil_r|].
  by rewrite IH, <-app_assoc.
Qed.

Lemma visit_count acc ms : visit (fun count _ => (count + 1, true)) acc ms = acc + len ms.
Proof.
  revert acc. induction ms as [|m ms IH]; intros acc; simpl; [lia|]. rewrite IH. lia.
Qed.

Section Scan.
Context {N : Names} (T : MemberTable) {TL : TableLaws T}.
Implicit Types (A : alist) (m : kvmap).

Abbreviation tb := (mt_table T).
Abbreviation hash := HashWithString.
Abbreviation num := channelToNum.

(** ** The entries of a member *)

Definition time_entry (h i : Z) (col : string) (tm : option Z) : list (bytes * bytes) :=
  match tm with
  | None => []
  | Some tm => [(row tb h i (column tb col), time_bytes tm)]
  end.
Definition entries (h : Z) (p : string * times) : list (bytes * bytes) :=
  (row tb h (hash p.1) (column tb "Uid"), str_bytes p.1) ::
  time_entry h (hash p.1) "CreatedAt" p.2.1 ++ time_entry h (hash p.1) "UpdatedAt" p.2.2.

Lemma entries_elem h u tms k v :
  (k, v) ∈ entries h (u, tms) <-> exists col, k = row tb h (hash u) col /\ cell T u tms col = Some v.
Proof.
  destruct (columns_apart T) as (N1 & N2 & N3). unfold entries, cell. cbn [fst snd].
  rewrite elem_of_cons, elem_of_app. destruct tms as [ct ut]. cbn [fst snd]. split.
  - intros [[= -> ->]|[Hc|Hu]].
    + exists (column tb "Uid"). by rewrite decide_True.
    + destruct ct as [ct|]; simpl in Hc; [|by apply not_elem_of_nil in Hc].
      apply list_elem_of_singleton in Hc as [= -> ->]. exists (column tb "CreatedAt").
      by rewrite decide_False, decide_True by congruence.
    + destruct ut as [ut|]; simpl in Hu; [|by apply not_elem_of_nil in Hu].
      apply list_elem_of_singleton in Hu as [= -> ->]. exists (column tb "UpdatedAt").
      by rewrite decide_False, decide_False, decide_True by congruence.
  - intros (col & -> & Hc). repeat case_decide; subst; simpl in Hc; [left; congruence|..|done].
    + destruct ct; simpl in *; [|done]. injection Hc as <-. right. left. by apply list_elem_of_singleton.
    + destruct ut; simpl in *; [|done]. injection Hc as <-. right. right. by apply list_elem_of_singleton.
Qed.

Lemma entries_sorted h u tms : User u -> StronglySorted key_lt (entries h (u, tms)).
Proof.
  intros Hu%hash_u64. destruct tl_columns as (H1 & H2 & _).
  assert (H3 : bcompare [(column tb "Uid").1; (column tb "Uid").2]
                 [(column tb "UpdatedAt").1; (column tb "UpdatedAt").2] = Lt)
    by (by eapply (blt_trans _ _ _ H1 H2)).
  unfold entries. destruct tms as [[ct|] [ut|]]; simpl; repeat constructor;
    apply rows_lt; auto.
Qed.

Lemma concat_sorted h us :
  Forall (fun p => User p.1) us -> StronglySorted (fun x y => hash x.1 < hash y.1) us ->
  StronglySorted key_lt (us ≫= entries h).
Proof.
  intros Hus Hs. induction Hs as [|[u tms] us Hs IH Hlt]; [constructor|].
  apply Forall_cons in Hus as [Hu Hus]. simpl in Hu. rewrite bind_cons.
  apply StronglySorted_app_2; [|by apply entries_sorted|by apply IH].
  intros [k1 v1] [k2 v2] H1 ([u2 tms2] & H2 & Hin)%list_elem_of_bind.
  apply entries_elem in H1 as (c1 & -> & _). apply entries_elem in H2 as (c2 & -> & _).
  rewrite Forall_forall in Hlt, Hus. apply Hlt in Hin as Hl. apply Hus in Hin as Hu2.
  apply rows_lt; [by apply hash_u64|by apply hash_u64|by left].
Qed.

(** ** What an iterator visits *)

Context {DB : Type} {P : Pebble DB} {PL : PebbleLaws DB}.

(** A range of the rows of a channel that holds the rows of the members [us]. *)
Record covers A (c : string) (t : Z) (us : list (string * times)) (lo hi : bytes) : Prop := {
  cv_users : Forall (fun p => User p.1) us;
  cv_sorted : StronglySorted (fun x y => hash x.1 < hash y.1) us;
  cv_zone : exists a b, lo = (prefix4 (t_Id tb) dataTypeTable ++ be_bytes 8 (num c t)) ++ a /\
                   hi = (prefix4 (t_Id tb) dataTypeTable ++ be_bytes 8 (num c t)) ++ b;
  cv_in u tms : (u, tms) ∈ us -> A !! (c, t, u) = Some tms;
  cv_range u tms col : User u -> A !! (c, t, u) = Some tms -> col <> MaxColumnKey ->
    in_range lo hi (row tb (num c t) (hash u) col) <-> (u, tms) ∈ us
}.

Lemma scan_entries A c t us lo hi db :
  chan_rep T A c t (kv_map db) -> covers A c t us lo hi -> kv_iter db lo hi = us ≫= entries (num c t).
Proof.
  intros R [Hus Hs (a & b & -> & ->) Hin Hrange].
  pose proof (concat_sorted (num c t) us Hus Hs) as Hs1.
  apply iter_is; [exact Hs1|]. intros k v. rewrite list_elem_of_bind. split.
  - intros [Hk Hv]. pose proof Hk as (r & -> & _)%range_prefix.
    pose proof Hv as (u & col & Hu & ->)%(cr_only _ _ _ _ _ R).
    assert (Er : (prefix4 (t_Id tb) dataTypeTable ++ be_bytes 8 (num c t)) ++
                 be_bytes 8 (hash u) ++ [col.1; col.2] = row tb (num c t) (hash u) col)
      by (by rewrite row_eq, <-app_assoc).
    rewrite Er in Hk, Hv |- *. clear Er.
    rewrite (cr_row _ _ _ _ _ R) in Hv by done.
    destruct (A !! (c, t, u)) as [tms|] eqn:E; [|done]. simpl in Hv.
    exists (u, tms). split; [by apply entries_elem; eauto|]. eapply Hrange; [done..| |exact Hk].
    intros ->. by rewrite no_max_cell in Hv.
  - intros ([u tms] & (col & -> & Hc)%entries_elem & Hu).
    rewrite Forall_forall in Hus. pose proof (Hus _ Hu) as Hus'. simpl in Hus'.
    rewrite (cr_row _ _ _ _ _ R), (Hin _ _ Hu) by done. split; [|done].
    eapply Hrange; [done|by apply Hin| |done]. intros ->. by rewrite no_max_cell in Hc.
Qed.

(** ** The loop over the entries *)

Lemma readTime_bytes old z : 0 < z < 2 ^ 63 -> readTime old (time_bytes z) = Ok (Some z).
Proof.
  intros Hz. change (2 ^ 63) with two63 in Hz. unfold readTime, time_bytes, read_uint.
  rewrite be_bytes_length. cbn [Nat.leb Nat.add].
  rewrite drop_0, (take_ge (be_bytes 8 (u64 z))), be_val_bytes
    by first [apply u64_range|by rewrite be_bytes_length].
  cbn [res_bind]. rewrite u64_small, i64_small by (unfold is_u64, is_i64; lia).
  by destruct (Z.ltb_spec 0 z); [|lia].
Qed.

Definition pair_ok (p : string * times) : Prop :=
  User p.1 /\ time_ok p.2.1 /\ time_ok p.2.2.

(** The entries of the member the loop is at. *)
Lemma loop_times {B} (f : B -> Member -> B * bool) h u tms rest acc :
  pair_ok (u, tms) ->
  iterateLoop T f (time_entry h (hash u) "CreatedAt" tms.1 ++
                   time_entry h (hash u) "UpdatedAt" tms.2 ++ rest)
    (hash u) (mkMember (hash u) u None None) true acc =
  iterateLoop T f rest (hash u) (member_of u tms) true acc.
Proof.
  intros (Hu & Hc & Hd). pose proof (hash_u64 _ Hu) as Hi. destruct (columns_apart T) as (N1 & N2 & N3).
  destruct tms as [ct ut]. cbn [fst snd] in *.
  destruct ct as [ct|], ut as [ut|]; cbn [time_entry app iterateLoop];
    rewrite ?tl_Parse by done; cbn [res_bind]; rewrite ?Z.eqb_refl; cbn [negb];
    unfold readColumn; repeat (rewrite bool_decide_eq_false_2 by congruence);
    rewrite ?bool_decide_eq_true_2 by done; cbn [mb_CreatedAt mb_UpdatedAt];
    rewrite ?readTime_bytes by auto; cbn [res_bind iterateLoop]; rewrite ?tl_Parse by done;
    cbn [res_bind]; rewrite ?Z.eqb_refl; cbn [negb mb_CreatedAt mb_UpdatedAt];
    repeat (rewrite bool_decide_eq_false_2 by congruence);
    rewrite ?bool_decide_eq_true_2 by done; cbn [mb_CreatedAt mb_UpdatedAt];
    rewrite ?readTime_bytes by auto; done.
Qed.

Lemma loop_member {B} (f : B -> Member -> B * bool) h u tms rest pre pm has acc :
  pair_ok (u, tms) -> hash u <> pre ->
  iterateLoop T f (entries h (u, tms) ++ rest) pre pm has acc =
  let '(acc, more) := if negb (pre =? 0) then f acc pm else (acc, true) in
  if negb more then Ok (Some acc) else iterateLoop T f rest (hash u) (member_of u tms) true acc.
Proof.
  intros Hp Hne. pose proof Hp as (Hu & _). pose proof (hash_u64 _ Hu) as Hi.
  unfold entries. cbn [fst snd app iterateLoop]. rewrite tl_Parse by done. cbn [res_bind].
  destruct (Z.eqb_spec (hash u) pre); [done|]. cbn [negb].
  destruct (if negb (pre =? 0) then f acc pm else (acc, true)) as [acc' more].
  destruct more; cbn [negb]; [|done]. unfold readColumn. rewrite bool_decide_eq_true_2 by done.
  cbn [res_bind]. rewrite <-app_assoc. rewrite <-(loop_times f h u tms rest acc') by done.
  unfold string_of_bytes, str_bytes. by rewrite String.string_of_list_byte_of_string.
Qed.

Lemma loop_all {B} (f : B -> Member -> B * bool) h us u tms acc :
  Forall pair_ok ((u, tms) :: us) ->
  StronglySorted (fun x y => hash x.1 < hash y.1) ((u, tms) :: us) ->
  iterateLoop T f (us ≫= entries h) (hash u) (member_of u tms) true acc =
  Ok (Some (visit f acc (map (fun p => member_of p.1 p.2) ((u, tms) :: us)))).
Proof.
  revert u tms acc. induction us as [|[u' tms'] us IH]; intros u tms acc Hok Hs.
  { cbn. by destruct (f acc (member_of u tms)) as [? []]. }
  apply Forall_cons in Hok as [Hok Hok']. apply StronglySorted_cons in Hs as [Hlt Hs].
  pose proof Hok' as [Hu' _]%Forall_cons. apply Forall_cons in Hlt as [Hlt _]. simpl in Hlt.
  rewrite bind_cons, loop_member by (done || lia).
  destruct Hok as [Hu _]. pose proof (user_hash _ Hu) as Hh. simpl in Hh.
  destruct (Z.eqb_spec (hash u) 0); [lia|]. cbn [negb map visit fst snd].
  destruct (f acc (member_of u tms)) as [acc' []]; cbn [negb]; [|done]. by rewrite IH.
Qed.

(** The loop calls back once for each member. *)
Lemma iterate_spec {B} (f : B -> Member -> B * bool) h us acc :
  Forall pair_ok us -> StronglySorted (fun x y => hash x.1 < hash y.1) us ->
  iterateMember T f (us ≫= entries h) acc =
  Ok (Some (visit f acc (map (fun p => member_of p.1 p.2) us))).
Proof.
  intros Hok Hs. unfold iterateMember. destruct us as [|[u tms] us]; [done|].
  pose proof Hok as [Hu _]%Forall_cons. pose proof Hu as [Hus _]. pose proof (user_hash _ Hus) as Hh.
  simpl in Hh. rewrite bind_cons, loop_member by (done || lia). simpl negb. cbn iota.
  by apply loop_all.
Qed.

(** ** The members of a channel *)

Definition names_ok A : Prop := forall c t u tms, A !! (c, t, u) = Some tms -> Chan c t /\ pair_ok (u, tms).

Definition by_hash (x y : string * times) : Prop := hash x.1 <= hash y.1.
#[local] Instance by_hash_dec x y : Decision (by_hash x y).
Proof. unfold by_hash. apply _. Defined.
#[local] Instance by_hash_total : Total by_hash.
Proof. intros x y. unfold by_hash. lia. Qed.
#[local] Instance by_hash_trans : Transitive by_hash.
Proof. intros x y z. unfold by_hash. lia. Qed.

(** The pairs of a channel, sorted by the hash of the user. *)
Definition pairs_of A (c : string) (t : Z) : list (string * times) :=
  merge_sort by_hash
    ((fun p => (p.1.2, p.2)) <$> filter (fun p => (p.1.1.1, p.1.1.2) = (c, t)) (map_to_list A)).

Lemma pairs_elem A c t u tms : (u, tms) ∈ pairs_of A c t <-> A !! (c, t, u) = Some tms.
Proof.
  unfold pairs_of. rewrite merge_sort_Permutation, list_elem_of_fmap.
  rewrite <-elem_of_map_to_list. split.
  - intros ([[[c' t'] u'] tms'] & [= -> ->] & [E Hin]%list_elem_of_filter). simpl in E.
    by injection E as -> ->.
  - intros Hin. exists (c, t, u, tms). split; [done|]. apply list_elem_of_filter. by split.
Qed.

Lemma pairs_ok A c t : names_ok A -> Forall pair_ok (pairs_of A c t).
Proof.
  intros HA. apply Forall_forall. intros [u tms] Hin%pairs_elem. by eapply HA.
Qed.

Lemma pairs_NoDup A c t : NoDup (pairs_of A c t).*1.
Proof.
  unfold pairs_of. rewrite merge_sort_Permutation, <-list_fmap_compose.
  assert (H : NoDup (filter (fun p => (p.1.1.1, p.1.1.2) = (c, t)) (map_to_list A)).*1).
  { eapply sublist_NoDup; [apply (NoDup_fst_map_to_list A)|]. apply fmap_sublist, sublist_filter. }
  assert (Hc : Forall (fun p => (p.1.1.1, p.1.1.2) = (c, t))
                 (filter (fun p => (p.1.1.1, p.1.1.2) = (c, t)) (map_to_list A))).
  { apply Forall_forall. by intros p [? _]%list_elem_of_filter. }
  revert H Hc. generalize (filter (fun p => (p.1.1.1, p.1.1.2) = (c, t)) (map_to_list A)).
  induction l as [|[[[c' t'] u] tms] l IH]; simpl; [constructor|].
  intros [Hn H]%NoDup_cons [E Hc]%Forall_cons. simpl in E. injection E as -> ->.
  constructor; [|auto]. intros (p & Ep & Hp)%list_elem_of_fmap. apply Hn.
  rewrite Forall_forall in Hc. pose proof (Hc _ Hp) as E. destruct p as [[[c' t'] u'] tms'].
  simpl in *. injection E as -> ->. subst. by apply (list_elem_of_fmap_2 fst) in Hp.
Qed.

Lemma pairs_sorted A c t :
  names_ok A -> StronglySorted (fun x y => hash x.1 < hash y.1) (pairs_of A c t).
Proof.
  intros HA. pose proof (StronglySorted_merge_sort by_hash
    ((fun p => (p.1.2, p.2)) <$> filter (fun p => (p.1.1.1, p.1.1.2) = (c, t)) (map_to_list A))) as Hs.
  pose proof (pairs_NoDup A c t) as Hn. pose proof (pairs_ok A c t HA) as Hok.
  fold (pairs_of A c t) in Hs. revert Hs Hn Hok. generalize (pairs_of A c t).
  induction 1 as [|[u tms] l Hs IH Hle]; simpl; [constructor|].
  intros [Hn Hnd]%NoDup_cons [[Hu _] Hok]%Forall_cons. constructor; [by apply IH|].
  apply Forall_forall. intros [u' tms'] Hin. rewrite Forall_forall in Hle, Hok.
  pose proof (Hle _ Hin) as Hle'. unfold by_hash in Hle'. simpl in *.
  destruct (decide (hash u = hash u')) as [E|]; [|lia]. exfalso. apply Hn.
  apply user_inj in E as ->; [by apply (list_elem_of_fmap_2 fst) in Hin|done|by apply (Hok _ Hin)].
Qed.

Lemma pairs_members A c t :
  names_ok A -> members_of A c t (map (fun p => member_of p.1 p.2) (pairs_of A c t)).
Proof.
  intros HA. split.
  - apply (StronglySorted_fmap (fun p => member_of p.1 p.2) (fun x y => hash x.1 < hash y.1));
      [done|by apply pairs_sorted].
  - intros mb. rewrite list_elem_of_fmap. split.
    + intros ([u tms] & -> & Hin%pairs_elem). eauto.
    + intros (u & tms & Hin & ->). exists (u, tms). split; [done|]. by apply pairs_elem.
Qed.

(** The ranges that are scanned. *)
Lemma covers_channel A c t a b :
  names_ok A ->
  (forall i col, 0 < i < MaxUint64 ->
     in_range ((prefix4 (t_Id tb) dataTypeTable ++ be_bytes 8 (num c t)) ++ a)
              ((prefix4 (t_Id tb) dataTypeTable ++ be_bytes 8 (num c t)) ++ b)
              (row tb (num c t) i col)) ->
  covers A c t (pairs_of A c t) ((prefix4 (t_Id tb) dataTypeTable ++ be_bytes 8 (num c t)) ++ a)
    ((prefix4 (t_Id tb) dataTypeTable ++ be_bytes 8 (num c t)) ++ b).
Proof.
  intros HA Hr. split.
  - eapply Forall_impl; [by apply pairs_ok|]. by intros p [? _].
  - by apply pairs_sorted.
  - eauto.
  - intros u tms. by rewrite pairs_elem.
  - intros u tms col Hu Hin _. rewrite pairs_elem. split; [done|]. intros _. by apply Hr, user_hash.
Qed.

(** The pair of one user. *)
Definition pair_of A (c : string) (t : Z) (u : string) : list (string * times) :=
  match A !! (c, t, u) with
  | Some tms => [(u, tms)]
  | None => []
  end.

Lemma covers_user A c t u :
  User u ->
  covers A c t (pair_of A c t u) (row tb (num c t) (hash u) MinColumnKey)
    (row tb (num c t) (hash u) MaxColumnKey).
Proof.
  intros Hu. unfold pair_of. split.
  - destruct (A !! (c, t, u)); repeat constructor. done.
  - destruct (A !! (c, t, u)); repeat constructor.
  - destruct (row_zone tb (num c t) (hash u) MinColumnKey) as (a & _ & ->).
    destruct (row_zone tb (num c t) (hash u) MaxColumnKey) as (b & _ & ->). eauto.
  - intros u' tms Hin. destruct (A !! (c, t, u)) as [x|] eqn:E; [|by apply not_elem_of_nil in Hin].
    by apply list_elem_of_singleton in Hin as [= -> ->].
  - intros u' tms col Hu' Hin Hcol. rewrite row_range by (apply fnv64a_range). split.
    + intros (_ & H). assert (u' = u) as -> by (apply user_inj; [done..|lia]).
      rewrite Hin. by apply list_elem_of_singleton.
    + intros H. destruct (A !! (c, t, u)) as [x|] eqn:E; [|by apply not_elem_of_nil in H].
      apply list_elem_of_singleton in H as [= -> ->]. split; [done|]. split; [lia|]. by right.
Qed.

Lemma pair_of_ok A c t u : names_ok A -> Forall pair_ok (pair_of A c t u).
Proof.
  intros HA. unfold pair_of. destruct (A !! (c, t, u)) as [tms|] eqn:E; [|done].
  apply Forall_singleton. by eapply HA.
Qed.

(** A scan of one user's row finds the member, if it is one. *)
Lemma scan_user A c t u db acc :
  User u -> names_ok A -> chan_rep T A c t (kv_map db) ->
  scanMembers T db (mt_ColumnKey T c t (hash u) MinColumnKey) (mt_ColumnKey T c t (hash u) MaxColumnKey)
    acc = Ok (Some (acc ++ map (fun p => member_of p.1 p.2) (pair_of A c t u))).
Proof.
  intros Hu HA R. unfold scanMembers. rewrite !tl_ColumnKey. cbn [res_bind].
  pose proof (covers_user A c t u Hu) as Hcv.
  rewrite (scan_entries A c t _ _ _ db R Hcv), iterate_spec, visit_collect;
    [done|by apply pair_of_ok|apply Hcv].
Qed.

(** A scan of a channel with a callback. *)
Lemma scan_channel {B} (f : B -> Member -> B * bool) A c t db acc a b :
  names_ok A -> chan_rep T A c t (kv_map db) ->
  (forall i col, 0 < i < MaxUint64 ->
     in_range ((prefix4 (t_Id tb) dataTypeTable ++ be_bytes 8 (num c t)) ++ a)
              ((prefix4 (t_Id tb) dataTypeTable ++ be_bytes 8 (num c t)) ++ b)
              (row tb (num c t) i col)) ->
  exists ms, members_of A c t ms /\
    iterateMember T f (kv_iter db ((prefix4 (t_Id tb) dataTypeTable ++ be_bytes 8 (num c t)) ++ a)
                         ((prefix4 (t_Id tb) dataTypeTable ++ be_bytes 8 (num c t)) ++ b)) acc =
    Ok (Some (visit f acc ms)).
Proof.
  intros HA R Hr. exists (map (fun p => member_of p.1 p.2) (pairs_of A c t)).
  split; [by apply pairs_members|]. pose proof (covers_channel A c t a b HA Hr) as Hcv.
  rewrite (scan_entries A c t _ _ _ db R Hcv). by apply iterate_spec; [apply pairs_ok|apply Hcv].
Qed.
End Scan.
