(* ===== verification/WkMembersCache.v ===== *)
(** * The cache of the permissions agrees with the lists

    [cache_ok]: every cached answer for a channel and a user in use is the answer
    of the abstract lists.  It survives whatever the cache forgets (evictions,
    expired entries, their late removal, invalidations), and an operation that
    changes a list keeps it by caching the new answers ([batch_cache]) or by
    forgetting the old ones ([invalidate_cache]). *)

From Stdlib Require Import Strings.Byte Strings.Ascii Sorting.Sorted.
From stdpp Require Import pretty.
From S2P Require Import Prelude RaftTypes WkProto KeyBytes WkTables WkKey WkKeyLaws WkKv.
From S2P Require Import WkPermission WkMembers WkMembersLaws.

(** ** Keys *)

Abbreviation colonless s := (":"%char ∉ String.list_ascii_of_string s).

Lemma str_app_cons x a b : String x a +:+ b = String x (a +:+ b).
Proof. done. Qed.
Lemma str_app_assoc (a b c : string) : a +:+ (b +:+ c) = (a +:+ b) +:+ c.
Proof. induction a as [|x a IH]; [done|]. by rewrite !str_app_cons, IH. Qed.
Lemma str_length_app (a b : string) : String.length (a +:+ b) = (String.length a + String.length b)%nat.
Proof. induction a as [|x a IH]; [done|]. rewrite str_app_cons. simpl. by rewrite IH. Qed.

(** Two texts with a separator that is in neither of the first parts. *)
Lemma sep_split sep a b x y :
  sep ∉ String.list_ascii_of_string a -> sep ∉ String.list_ascii_of_string b ->
  a +:+ String sep x = b +:+ String sep y -> a = b /\ x = y.
Proof.
  revert b. induction a as [|ch a IH]; intros [|ch' b]; cbn [String.list_ascii_of_string String.app].
  - intros _ _ E. injection E as E. by split.
  - intros _ Hb [= <- _]. by destruct Hb; constructor.
  - intros Ha _ [= -> _]. by destruct Ha; constructor.
  - intros Ha Hb [= -> E]. apply not_elem_of_cons in Ha as [_ Ha], Hb as [_ Hb].
    destruct (IH b Ha Hb E) as [-> ->]. done.
Qed.
Lemma colon_split a b x y :
  colonless a -> colonless b -> a +:+ ":" +:+ x = b +:+ ":" +:+ y -> a = b /\ x = y.
Proof. apply (sep_split ":"). Qed.

Definition is_digit (ch : ascii) : bool := bool_decide (ch ∈ String.list_ascii_of_string "0123456789").
Lemma FormatInt_digits t : is_u8 t -> Forall (fun ch => is_digit ch) (String.list_ascii_of_string (FormatInt t)).
Proof.
  intros Ht.
  assert (H : forallb (fun n => bool_decide (Forall (fun ch => is_digit ch) (String.list_ascii_of_string (FormatInt (Z.of_nat n)))))
                (seq 0 256) = true) by (by vm_compute).
  rewrite forallb_forall in H. specialize (H (Z.to_nat t)). rewrite Z2Nat.id in H by (unfold is_u8 in Ht; lia).
  eapply bool_decide_eq_true_1, H, in_seq. unfold is_u8 in Ht. lia.
Qed.
Lemma FormatInt_without ch t : is_u8 t -> is_digit ch = false -> ch ∉ String.list_ascii_of_string (FormatInt t).
Proof. intros Ht%FormatInt_digits Hch Hin. rewrite Forall_forall in Ht. apply Ht in Hin. by rewrite Hch in Hin. Qed.
Lemma FormatInt_byte t : is_u8 t -> colonless (FormatInt t).
Proof. intros Ht. by apply FormatInt_without. Qed.

Lemma FormatInt_inj a b : is_u8 a -> is_u8 b -> FormatInt a = FormatInt b -> a = b.
Proof.
  unfold is_u8, FormatInt. intros Ha Hb E%(inj pretty). lia.
Qed.

(** The lists, and their names in the cache. *)
Inductive listId := Subscribers | Denied | Allowed.
#[export] Instance listId_eq_dec : EqDecision listId.
Proof. solve_decision. Defined.

Definition permOf (l : listId) : PermissionType :=
  match l with
  | Subscribers => PermissionTypeSubscriber
  | Denied => PermissionTypeDenylist
  | Allowed => PermissionTypeAllowlist
  end.

Lemma permOf_colonless p : colonless (FormatInt (permType_num p)).
Proof. destruct p; apply FormatInt_byte; by vm_compute. Qed.

Lemma perm_num_inj p q : FormatInt (permType_num p) = FormatInt (permType_num q) -> p = q.
Proof. by destruct p, q. Qed.

Section Keys.
Context {N : Names}.

(** Two members have the same key in the cache only if they are the same. *)
Lemma getPermissionKey_inj p c t u q c' t' u' :
  Chan c t -> Chan c' t' -> User u -> User u' ->
  getPermissionKey p c t u = getPermissionKey q c' t' u' -> p = q /\ c = c' /\ t = t' /\ u = u'.
Proof.
  intros Hc Hc' Hu%user_nonempty Hu'%user_nonempty. unfold getPermissionKey.
  rewrite !bool_decide_eq_false_2 by done. rewrite <-!str_app_assoc. intros E.
  apply colon_split in E as [->%perm_num_inj E]; [|apply permOf_colonless..].
  apply colon_split in E as [-> E]; [|by eapply chan_colon..].
  apply chan_type in Hc, Hc'. apply colon_split in E as [->%FormatInt_inj ->]; auto using FormatInt_byte.
Qed.

Lemma prefix_app a b : String.prefix a (a +:+ b) = true.
Proof. induction a as [|x a IH]; [by destruct b|]. rewrite str_app_cons. simpl. by destruct (ascii_dec x x). Qed.

(** The entries of a channel are recognised by their prefix. *)
Lemma permPrefix_extends p c t u :
  User u -> extends (permPrefix p c t) (getPermissionKey p c t u) = true.
Proof.
  intros Hu%user_nonempty.
  assert (getPermissionKey p c t u = permPrefix p c t +:+ u) as ->.
  { unfold getPermissionKey, permPrefix. rewrite bool_decide_eq_false_2 by done.
    by rewrite <-!str_app_assoc. }
  unfold extends. rewrite prefix_app, andb_true_r. apply bool_decide_eq_true. rewrite str_length_app.
  destruct u; [done|]. cbn [String.length]. lia.
Qed.

Lemma hasAllowlist_key p c t c' t' u :
  p <> PermissionTypeHasAllowlist ->
  getPermissionKey p c t u <> getPermissionKey PermissionTypeHasAllowlist c' t' "".
Proof.
  intros Hp. unfold getPermissionKey at 2. rewrite bool_decide_eq_true_2 by done.
  unfold getPermissionKey. destruct (bool_decide _); rewrite <-?str_app_assoc;
    intros [E _]%colon_split; try apply permOf_colonless; by apply Hp, perm_num_inj.
Qed.
End Keys.

(** ** Answers *)

Abbreviation lists := (listId -> alist).

Section Answers.
Context {N : Names} {C : Type} {L : LRU PermissionCacheItem C} {LL : LRULaws PermissionCacheItem C}.
Implicit Types (c : PermissionCache C) (A : lists).

Definition items c : gmap string PermissionCacheItem := lru_map (pc_cache c).

(** Every cached answer that is not in [X] is the answer of the lists. *)
Definition cache_except (X : listId -> string -> Z -> string -> Prop) A c : Prop :=
  forall l ch t u item, Chan ch t -> User u -> ~ X l ch t u ->
    items c !! getPermissionKey (permOf l) ch t u = Some item ->
    it_Exists item = bool_decide (is_Some (A l !! (ch, t, u))).

Definition cache_ok A c : Prop := cache_except (fun _ _ _ _ => False) A c.

Lemma cache_except_sub X A c c' : items c' ⊆ items c -> cache_except X A c -> cache_except X A c'.
Proof. intros Hs H l ch t u item Hc Hu Hx Hi. eapply H; eauto. by eapply lookup_weaken. Qed.

Lemma getPermission_spec c key c' b found :
  getPermission c key = (c', (b, found)) ->
  items c' = items c /\ (found = true -> exists item, items c !! key = Some item /\ it_Exists item = b).
Proof.
  unfold getPermission, items. destruct (lru_get_law (pc_cache c) key) as [H1 H2].
  destruct (lru_get (pc_cache c) key) as [item l] eqn:E. simpl in H1, H2. destruct item as [i|].
  - unfold now. cbn [fst snd]. destruct (negb _); intros [= <- <- <-]; cbn [set_cache pc_cache];
      (split; [done|]); [|done]. intros _. exists i. done.
  - intros [= <- <- <-]. cbn [set_cache pc_cache]. split; [done|]. done.
Qed.

Lemma setPermission_items c key b :
  exists item, it_Exists item = b /\ items (setPermission c key b) ⊆ <[key := item]> (items c).
Proof. unfold setPermission, now, items. eexists. split; [|apply lru_add_law]. done. Qed.

Lemma remove_items c key : items (set_cache c (lru_remove (pc_cache c) key)) = delete key (items c).
Proof. unfold items. apply lru_remove_law. Qed.

Lemma run_removal_items c i c' : run_removal c i = Some c' -> items c' ⊆ items c.
Proof.
  unfold run_removal, items. destruct (_ !! i) as [key|]; [|done]. intros [= <-].
  cbn [set_cache pc_cache]. rewrite lru_remove_law. apply delete_subseteq.
Qed.

Lemma RemoveExpiredItems_items c : items (RemoveExpiredItems c).1 ⊆ items c.
Proof.
  unfold RemoveExpiredItems. generalize 0 at 1. generalize (lru_keys (pc_cache c)) as keys.
  intros keys n. revert c n. induction keys as [|key keys IH]; intros c n; simpl; [done|].
  destruct (lru_get_law (pc_cache c) key) as [_ H]. destruct (lru_get (pc_cache c) key) as [[i|] l];
    simpl in H; [|etrans; [apply IH|by unfold items; cbn [set_cache pc_cache]; rewrite H]].
  unfold now. cbn [set_cache pc_cache pc_clock pc_reads fst snd]. destruct (IsExpired _ _);
    (etrans; [apply IH|]); unfold items; cbn [set_cache pc_cache];
    [rewrite lru_remove_law, H; apply delete_subseteq|by rewrite H].
Qed.

(** Removing the keys that satisfy a test. *)
Lemma remove_keys_items (test : string -> bool) keys c :
  let c' := foldl (fun c key => if test key then set_cache c (lru_remove (pc_cache c) key) else c) c keys in
  items c' ⊆ items c /\ forall key, key ∈ keys -> test key = true -> items c' !! key = None.
Proof.
  simpl. revert c. induction keys as [|k keys IH]; intros c; simpl.
  { split; [done|]. by intros key ?%not_elem_of_nil. }
  destruct (IH (if test k then set_cache c (lru_remove (pc_cache c) k) else c)) as [H1 H2].
  assert (Hs : items (if test k then set_cache c (lru_remove (pc_cache c) k) else c) ⊆ items c).
  { destruct (test k); [|done]. rewrite remove_items. apply delete_subseteq. }
  split; [by etrans|]. intros key [->|Hin]%elem_of_cons Ht; [|auto].
  rewrite Ht in H1 |- *. rewrite remove_items in H1.
  destruct (items _ !! k) as [x|] eqn:E; [|done]. exfalso.
  eapply (lookup_weaken _ _ _ _ E) in H1. by rewrite lookup_delete_eq in H1.
Qed.

Lemma InvalidateChannelByType_items c l ch t :
  let c' := InvalidateChannelByType c (permOf l) ch t in
  items c' ⊆ items c /\ forall u, User u -> items c' !! getPermissionKey (permOf l) ch t u = None.
Proof.
  simpl. unfold InvalidateChannelByType. rewrite bool_decide_eq_false_2 by (by destruct l).
  destruct (remove_keys_items (extends (permPrefix (permOf l) ch t)) (lru_keys (pc_cache c)) c) as [H1 H2].
  split; [done|]. intros u Hu. pose proof (permPrefix_extends (permOf l) ch t u Hu) as Ht.
  destruct (decide (getPermissionKey (permOf l) ch t u ∈ lru_keys (pc_cache c))) as [Hin|Hn]; [auto|].
  destruct (items (foldl _ _ _) !! _) as [x|] eqn:E; [|done]. exfalso. apply Hn, lru_keys_law.
  eapply (lookup_weaken _ _ _ _ E) in H1. unfold items in H1. eauto.
Qed.

Lemma InvalidateHas_items c ch t :
  items (InvalidateChannelByType c PermissionTypeHasAllowlist ch t) ⊆ items c.
Proof.
  unfold InvalidateChannelByType. rewrite bool_decide_eq_true_2 by done.
  rewrite remove_items. apply delete_subseteq.
Qed.

(** ** Keeping the answers *)

(** One answer is cached. *)
Lemma set_answer X A c l ch t u b :
  Chan ch t -> User u -> bool_decide (is_Some (A l !! (ch, t, u))) = b -> cache_except X A c ->
  cache_except (fun l' ch' t' u' => X l' ch' t' u' /\ (l', ch', t', u') <> (l, ch, t, u)) A
    (setPermission c (getPermissionKey (permOf l) ch t u) b).
Proof.
  intros Hc Hu Hb H l' ch' t' u' item Hc' Hu' Hx Hi.
  destruct (setPermission_items c (getPermissionKey (permOf l) ch t u) b) as (it & Hit & Hs).
  eapply lookup_weaken in Hi; [|exact Hs]. apply lookup_insert_Some in Hi as [[E <-]|[Hne Hi]].
  - apply getPermissionKey_inj in E as (Ep & <- & <- & <-); [|done..].
    assert (l' = l) as -> by (by destruct l, l'). by rewrite Hit.
  - eapply H; [done..| |done]. intros HX. apply Hx. split; [done|]. by intros [= -> -> -> ->].
Qed.

(** A batch of answers replaces those of the changed members. *)
Lemma batch_cache A c l ch t uids b :
  Chan ch t -> Forall User uids ->
  (forall u, u ∈ uids -> bool_decide (is_Some (A l !! (ch, t, u))) = b) ->
  cache_except (fun l' ch' t' u => (l', ch', t') = (l, ch, t) /\ u ∈ uids) A c ->
  cache_ok A (foldl (fun c u => setPermission c (getPermissionKey (permOf l) ch t u) b) c uids).
Proof.
  intros Hc Hus. revert c. induction Hus as [|u uids Hu _ IH]; intros c Hb H; simpl.
  { intros l' ch' t' u' item Hc' Hu' _. apply H; [done..|]. by intros [_ ?%not_elem_of_nil]. }
  apply IH; [intros u' Hu'; apply Hb; by right|].
  intros l' ch' t' u' item Hc' Hu' Hx.
  apply (set_answer _ A c l ch t u b Hc Hu (Hb u ltac:(left)) H l' ch' t' u' item Hc' Hu').
  intros [[[= -> -> ->] [->|Hin]%elem_of_cons] Hne]; [done|]. by apply Hx.
Qed.

Lemma cache_except_set_has X A c ch t b : cache_except X A c -> cache_except X A (SetHasAllowlist c ch t b).
Proof.
  intros H l' ch' t' u' item Hc' Hu' Hx Hi. unfold SetHasAllowlist in Hi.
  destruct (setPermission_items c (getPermissionKey PermissionTypeHasAllowlist ch t "") b) as (it & _ & Hs).
  eapply lookup_weaken in Hi; [|exact Hs]. rewrite lookup_insert_ne in Hi; [by eapply H|].
  apply not_eq_sym, hasAllowlist_key. by destruct l'.
Qed.

(** An operation on one list of one channel invalidates only what it changes. *)
Lemma cache_ok_except X A A' c :
  (forall l ch t u, ~ X l ch t u -> is_Some (A l !! (ch, t, u)) <-> is_Some (A' l !! (ch, t, u))) ->
  cache_ok A c -> cache_except X A' c.
Proof.
  intros HA H l ch t u item Hc Hu Hx Hi. erewrite (H l ch t u item) by (done || tauto).
  by apply bool_decide_ext, HA.
Qed.

Lemma invalidate_cache A c l ch t :
  cache_except (fun l' ch' t' _ => (l', ch', t') = (l, ch, t)) A c ->
  cache_ok A (InvalidateChannelByType c (permOf l) ch t).
Proof.
  intros H l' ch' t' u item Hc Hu _ Hi.
  destruct (InvalidateChannelByType_items c l ch t) as [Hs Hn].
  destruct (decide ((l', ch', t') = (l, ch, t))) as [[= -> -> ->]|Hne]; [by rewrite Hn in Hi|].
  eapply H; eauto. by eapply lookup_weaken.
Qed.
End Answers.
