(* ===== verification/WkMembersRefine.v ===== *)
(** * The member lists refine abstract lists

    [Rep] relates the state of the database to three abstract lists: each shard
    represents the lists of its channels, the cache agrees with the lists, and a
    cached "has no allow list" is right.

    - [batch_rep]: a committed batch changes one list of one channel.
    - [op_result]: an operation that changes a list is done, or reports an error
      of the store and changes nothing; one lemma per operation.
    - [read_result]: an answer is right, or an error of the store is reported. *)

From Stdlib Require Import Strings.Byte Strings.Ascii Sorting.Sorted.
From S2P Require Import Prelude RaftTypes WkProto KeyBytes WkTables WkKey WkKeyLaws WkKv.
From S2P Require Import WkPermission WkMembers WkMembersLaws WkMembersScan WkMembersCache.

Definition table_of (l : listId) : MemberTable :=
  match l with
  | Subscribers => SubscriberTable
  | Denied => DenylistTable
  | Allowed => AllowlistTable
  end.

#[export] Instance table_laws l : TableLaws (table_of l).
Proof. destruct l; apply _. Defined.

Abbreviation id_of l := (t_Id (mt_table (table_of l))).
Abbreviation num := channelToNum.

Lemma ids_apart l l' : id_of l = id_of l' -> l = l'.
Proof. by destruct l, l'. Qed.
Lemma info_apart l : id_of l <> t_Id TableChannelInfo.
Proof. by destruct l. Qed.

(** ** Counts *)

Definition crow (id : Z) (col : name2) : bytes :=
  prefix4 (t_Id TableChannelInfo) dataTypeTable ++ be_bytes 8 id ++ [col.1; col.2].

(** A write to the counts: a column keeps at least four bytes. *)
Definition count_wop (w : wop) : Prop :=
  (exists h, is_u64 h /\ wop_in (t_Id TableChannelInfo) h w) /\
  match w with
  | WSet k v => forall id col, k = crow id col -> (4 <= length v)%nat
  | _ => True
  end.

Definition counts_ok (m : kvmap) : Prop :=
  forall id col v, col ∈ [column TableChannelInfo "DenylistCount"; column TableChannelInfo "AllowlistCount"] ->
    m !! crow id col = Some v -> (4 <= length v)%nat.

Lemma count_keys id name v i :
  NewChannelInfoColumnKey id name = Ok (crow id name) /\
  NewChannelInfoSecondIndexKey name v i =
    Ok ((prefix4 (t_Id TableChannelInfo) dataTypeIndex ++ [name.1; name.2] ++ be_bytes 8 v) ++ be_bytes 8 i).
Proof. done. Qed.

Lemma crow_in id col : is_u64 id -> exists h, is_u64 h /\ exists p r,
  zone (t_Id TableChannelInfo) h p /\ crow id col = p ++ r.
Proof.
  intros Hi. exists id. split; [done|]. eexists _, [col.1; col.2]. split; [apply zone_row|].
  unfold crow. by rewrite app_assoc.
Qed.

Section Refine.
Context {N : Names} {DB : Type} {P : Pebble DB} {PL : PebbleLaws DB}.
Context {C : Type} {L : LRU PermissionCacheItem C} {LL : LRULaws PermissionCacheItem C}.
Implicit Types (A : alist) (S : lists) (m : kvmap) (wk : wukongDB (DB := DB) (C := C)).

(** Some call of the store fails. *)
Definition faulty : Prop :=
  (exists db k, kv_get db k = GetErr) \/ (exists db ws k, kv_batch_get db ws k = GetErr) \/
  (exists db ws, kv_commit db ws = None).

(** The count is changed, or a read failed. *)
Lemma inc_spec (db : DB) id col name count w :
  is_u64 id -> col ∈ [column TableChannelInfo "DenylistCount"; column TableChannelInfo "AllowlistCount"] ->
  counts_ok (apply_wops (kv_map db) w) ->
  (exists cw, incChannelInfoColumnCount db id col name count w = Ok (Some (w ++ cw)) /\ Forall count_wop cw) \/
  (incChannelInfoColumnCount db id col name count w = Ok None /\ faulty).
Proof.
  intros Hid Hcol Hok. unfold incChannelInfoColumnCount. rewrite (proj1 (count_keys id col 0 0)).
  cbn [res_bind]. pose proof (crow_in id col Hid) as (h & Hh & p & r & Hz & Er).
  destruct (count =? 0).
  { left. eexists. split; [done|]. apply Forall_singleton. split; [|intros; simpl; lia].
    exists h. split; [done|]. simpl. eauto. }
  pose proof (kv_batch_get_law db w (crow id col)) as Hg.
  destruct (kv_batch_get db w (crow id col)) as [v| |] eqn:E.
  3: { right. split; [done|]. right. left. eauto. }
  - left. simpl in Hg. pose proof (Hok _ _ _ Hcol Hg) as Hv.
    assert (Hr : exists old, match v with [] => Ok 0 | _ :: _ => read_uint 4 0 v end = Ok old).
    { destruct v as [|b v]; [eauto|]. unfold read_uint.
      destruct (Nat.leb_spec (0 + 4) (length (b :: v))) as [|Hlt]; [eauto|].
      exfalso. simpl in Hv, Hlt. lia. }
    destruct Hr as [old Hr]. rewrite Hr. cbn [res_bind]. rewrite (proj2 (count_keys id name _ _)).
    cbn [res_bind]. eexists. split; [done|]. apply Forall_cons. split; [|apply Forall_singleton].
    + split; [exists h; simpl; eauto|]. intros _ _ _. rewrite length_app, be_bytes_length. lia.
    + split; [|intros ? ?; unfold crow; rewrite <-app_assoc; by intros (_ & ? & _)%prefix4_inj].
      eexists. split; [apply u64_range|]. eexists _, _. split; [by apply (zone_index _ _ dataTypeIndex)|done].
  - left. cbn [res_bind]. rewrite (proj2 (count_keys id name _ _)).
    cbn [res_bind]. eexists. split; [done|]. apply Forall_cons. split; [|apply Forall_singleton].
    + split; [exists h; simpl; eauto|]. intros _ _ _. rewrite length_app, be_bytes_length. lia.
    + split; [|intros ? ?; unfold crow; rewrite <-app_assoc; by intros (_ & ? & _)%prefix4_inj].
      eexists. split; [apply u64_range|]. eexists _, _. split; [by apply (zone_index _ _ dataTypeIndex)|done].
Qed.

(** ** Batches *)

(** A batch of an operation on one list of one channel. *)
Definition batch_ok (l : listId) (c : string) (t : Z) (ws : list wop) : Prop :=
  Forall (fun w => wop_in (id_of l) (num c t) w \/ count_wop w) ws.

Lemma batch_foreign l c t ws l' c' t' :
  batch_ok l c t ws -> (l = l' -> num c t <> num c' t') ->
  Forall (foreign (id_of l') (num c' t')) ws.
Proof.
  intros Hb Hne. eapply Forall_impl; [exact Hb|]. intros w [Hw|[(h & Hh & Hw) _]].
  - exists (id_of l), (num c t). split; [apply num_u64|]. split; [|done].
    intros [= E1%ids_apart E2]. by apply Hne.
  - exists (t_Id TableChannelInfo), h. split; [done|]. split; [|done].
    intros [= E _]. symmetry in E. by apply info_apart in E.
Qed.

Lemma count_foreign l c t ws :
  Forall count_wop ws -> Forall (foreign (id_of l) (num c t)) ws.
Proof.
  intros Hb. eapply Forall_impl; [exact Hb|]. intros w [(h & Hh & Hw) _].
  exists (t_Id TableChannelInfo), h. split; [done|]. split; [|done].
  intros [= E _]. symmetry in E. by apply info_apart in E.
Qed.

Lemma counts_kept l c t ws m : batch_ok l c t ws -> counts_ok m -> counts_ok (apply_wops m ws).
Proof.
  intros Hb. revert m. induction Hb as [|w ws Hw _ IH]; intros m Hm; [done|].
  apply IH. intros id col v Hcol Hv. destruct w as [k x|k|lo hi].
  - cbn [apply_wop] in Hv. apply lookup_insert_Some in Hv as [[-> ->]|[_ Hv]]; [|by eapply Hm].
    destruct Hw as [(p & r & Hz & E)|[_ H]]; [exfalso|by eapply H].
    destruct Hz; unfold crow in E; rewrite <-!app_assoc in E;
      apply prefix4_inj in E as (E & _); symmetry in E; by apply info_apart in E.
  - cbn [apply_wop] in Hv. apply lookup_delete_Some in Hv as [_ Hv]. by eapply Hm.
  - apply range_keeps in Hv. by eapply Hm.
Qed.

(** ** The state *)

Definition shard (n : nat) (c : string) (t : Z) : nat :=
  Z.to_nat (u32 (ChannelToNum c t mod Z.of_nat n)).

Definition update S (l : listId) A : lists := fun l' => if decide (l' = l) then A else S l'.

Record store_rep S (dbs : list DB) : Prop := {
  sr_shards : (0 < length dbs)%nat /\ Z.of_nat (length dbs) < 2 ^ 32;
  sr_chan l c t db : Chan c t -> dbs !! shard (length dbs) c t = Some db ->
    chan_rep (table_of l) (S l) c t (kv_map db);
  sr_counts i db : dbs !! i = Some db -> counts_ok (kv_map db)
}.

(** A cached "has no allow list" is right. *)
Definition has_ok S (c : PermissionCache C) : Prop :=
  forall ch t item, Chan ch t ->
    items c !! getPermissionKey PermissionTypeHasAllowlist ch t "" = Some item ->
    it_Exists item = false -> forall u, S Allowed !! (ch, t, u) = None.

Record Rep S wk : Prop := {
  rp_names l : names_ok (S l);
  rp_store : store_rep S (wk_dbs wk);
  rp_cache : cache_ok S (wk_permissionCache wk);
  rp_has : has_ok S (wk_permissionCache wk)
}.

Lemma shard_lt S dbs c t : store_rep S dbs -> (shard (length dbs) c t < length dbs)%nat.
Proof.
  intros [[Hl Hl'] _ _]. unfold shard.
  pose proof (Z.mod_pos_bound (ChannelToNum c t) (Z.of_nat (length dbs)) ltac:(lia)).
  rewrite u32_small by (unfold is_u32; change (2 ^ 32) with two32 in Hl'; lia). lia.
Qed.

(** The shard of a channel is there. *)
Lemma channelDb_spec S wk c t :
  store_rep S (wk_dbs wk) -> exists db,
    channelDb wk c t = Ok (shard (length (wk_dbs wk)) c t, db) /\
    wk_dbs wk !! shard (length (wk_dbs wk)) c t = Some db.
Proof.
  intros R. pose proof (shard_lt _ _ c t R) as Hlt.
  destruct (lookup_lt_is_Some_2 _ _ Hlt) as [db Hdb]. exists db. split; [|done].
  unfold channelDb, channelDbIndex. destruct R as [[Hl _] _ _].
  destruct (Z.eqb_spec (len (wk_dbs wk)) 0); [lia|]. cbn [res_bind].
  unfold shard in Hdb |- *. by rewrite Hdb.
Qed.

(** A committed batch changes one list of one channel. *)
Lemma batch_rep S dbs l c t ws db db' A' :
  Chan c t -> store_rep S dbs -> dbs !! shard (length dbs) c t = Some db ->
  batch_ok l c t ws -> kv_commit db ws = Some db' ->
  chan_rep (table_of l) A' c t (apply_wops (kv_map db) ws) ->
  (forall c' t' u, (c', t') <> (c, t) -> A' !! (c', t', u) = S l !! (c', t', u)) ->
  store_rep (update S l A') (<[shard (length dbs) c t := db']> dbs).
Proof.
  intros Hc R Hdb Hb Hcm HA Hsame. pose proof (kv_commit_law _ _ _ Hcm) as Hm.
  pose proof (shard_lt _ _ c t R) as Hlt. destruct R as [Hl Hch Hco]. split.
  - by rewrite length_insert.
  - rewrite length_insert. intros l' c' t' d Hc' Hd. unfold update.
    destruct (decide (shard (length dbs) c' t' = shard (length dbs) c t)) as [E|E].
    + rewrite E, list_lookup_insert_eq in Hd by done. injection Hd as <-. rewrite Hm.
      rewrite <-E in Hdb. specialize (Hch l' c' t' db Hc' Hdb).
      destruct (decide (l' = l)) as [->|Hl'].
      * destruct (decide ((c', t') = (c, t))) as [[= -> ->]|Hne]; [done|].
        eapply chan_rep_ext; [intros u; symmetry; by apply Hsame|].
        apply chan_rep_frame; [|done]. eapply batch_foreign; [done|]. intros _ En.
        apply Hne. by apply chan_inj in En as [-> ->].
      * apply chan_rep_frame; [|done]. by eapply batch_foreign; [done|].
    + rewrite list_lookup_insert_ne in Hd by done. specialize (Hch l' c' t' d Hc' Hd).
      destruct (decide (l' = l)) as [->|Hl']; [|done].
      eapply chan_rep_ext; [|exact Hch]. intros u. symmetry. apply Hsame. intros [= -> ->]. done.
  - intros i d Hd. destruct (decide (i = shard (length dbs) c t)) as [->|Hi].
    + rewrite list_lookup_insert_eq in Hd by done. injection Hd as <-. rewrite Hm.
      eapply counts_kept; [done|]. by eapply Hco.
    + rewrite list_lookup_insert_ne in Hd by done. by eapply Hco.
Qed.

(** ** Lists of members *)

Definition add_members A (c : string) (t : Z) (ms : list Member) : alist :=
  foldl (fun A mb => add_member A c t mb) A ms.
Definition remove_members A (c : string) (t : Z) (us : list string) : alist :=
  foldl (fun A u => remove_member A c t u) A us.

(** A member that an operation may add: its [Id] is not used. *)
Definition new_member (mb : Member) : Prop :=
  User (mb_Uid mb) /\ time_ok (mb_CreatedAt mb) /\ time_ok (mb_UpdatedAt mb).

Lemma add_members_other A c t ms c' t' u :
  ~ ((c', t') = (c, t) /\ u ∈ map mb_Uid ms) -> add_members A c t ms !! (c', t', u) = A !! (c', t', u).
Proof.
  revert A. induction ms as [|mb ms IH]; intros A H; [done|]. cbn [add_members foldl]. simpl in H.
  fold (add_members (add_member A c t mb) c t ms).
  rewrite IH by (intros [E Hin]; apply H; split; [done|by right]). unfold add_member.
  apply lookup_insert_ne. intros [= <- <- <-]. apply H. split; [done|by left].
Qed.

Lemma add_members_some A c t ms u : is_Some (A !! (c, t, u)) \/ u ∈ map mb_Uid ms ->
  is_Some (add_members A c t ms !! (c, t, u)).
Proof.
  revert A. induction ms as [|mb ms IH]; intros A H; simpl in *.
  { destruct H as [H|H%not_elem_of_nil]; done. }
  apply IH. unfold add_member. destruct (decide (u = mb_Uid mb)) as [->|Hne].
  - left. rewrite lookup_insert_eq. eauto.
  - rewrite lookup_insert_ne by congruence. destruct H as [H|H]; [by left|]. right.
    by apply elem_of_cons in H as [->|H].
Qed.

Lemma remove_members_lookup A c t us c' t' u :
  remove_members A c t us !! (c', t', u) =
  if decide ((c', t') = (c, t) /\ u ∈ us) then None else A !! (c', t', u).
Proof.
  revert A. induction us as [|v us IH]; intros A; simpl.
  { rewrite decide_False; [done|]. by intros [_ ?%not_elem_of_nil]. }
  fold (remove_members (remove_member A c t v) c t us). rewrite IH. unfold remove_member.
  destruct (decide ((c', t') = (c, t) /\ u ∈ v :: us)) as [[E Hin]|Hn].
  - injection E as -> ->. destruct (decide _) as [|Hn]; [done|].
    apply elem_of_cons in Hin as [->|Hin]; [apply lookup_delete_eq|]. exfalso. by apply Hn.
  - rewrite decide_False by (intros [E Hin]; apply Hn; split; [done|by right]).
    apply lookup_delete_ne. intros [= -> -> ->]. apply Hn. split; [done|by left].
Qed.

Lemma remove_channel_other A c t c' t' u :
  (c', t') <> (c, t) -> remove_channel A c t !! (c', t', u) = A !! (c', t', u).
Proof.
  intros Hne. unfold remove_channel. rewrite map_lookup_filter.
  destruct (A !! (c', t', u)); simpl; [|done]. by rewrite option_guard_True.
Qed.

Lemma add_member_names A c t mb : Chan c t -> new_member mb -> names_ok A -> names_ok (add_member A c t mb).
Proof.
  intros Hc (Hu & H1 & H2) HA c' t' u tms. unfold add_member. intros Hl.
  apply lookup_insert_Some in Hl as [[[= <- <- <-] <-]|[_ Hl]]; [|by eapply HA]. split; [done|].
  assert (Ho : time_ok (default (None, None) (A !! (c, t, mb_Uid mb))).1 /\
               time_ok (default (None, None) (A !! (c, t, mb_Uid mb))).2).
  { destruct (A !! _) as [tms|] eqn:E; [|by split]. apply HA in E as [_ (_ & ? & ?)]. done. }
  destruct Ho. split; [done|]. simpl. by destruct (mb_CreatedAt mb), (mb_UpdatedAt mb).
Qed.

Lemma add_members_names A c t ms :
  Chan c t -> Forall new_member ms -> names_ok A -> names_ok (add_members A c t ms).
Proof.
  intros Hc Hms. revert A. induction Hms as [|mb ms Hm _ IH]; intros A HA; [done|].
  by apply IH, add_member_names.
Qed.

Lemma names_sub A A' : (forall k tms, A' !! k = Some tms -> A !! k = Some tms) -> names_ok A -> names_ok A'.
Proof. intros Hs HA c t u tms H. by eapply HA, Hs. Qed.

(** *** Their batches *)

Lemma write_batch l A c t m ms :
  Forall new_member ms -> chan_rep (table_of l) A c t m -> exists ws,
    batchOf (writeMember (table_of l) c t) (map identified ms) = Ok ws /\
    Forall (wop_in (id_of l) (num c t)) ws /\
    chan_rep (table_of l) (add_members A c t ms) c t (apply_wops m ws).
Proof.
  intros Hms. revert A m. induction Hms as [|mb ms Hm _ IH]; intros A m R; [by exists []|].
  destruct Hm as (Hu & H1 & H2).
  apply (write_rep (table_of l) _ _ _ _ (identified mb)) in R; [|by split_and!].
  destruct (IH _ _ R) as (ws & E & Hin & R').
  exists (member_writes (table_of l) (num c t) (identified mb) ++ ws).
  cbn [map batchOf]. rewrite (writeMember_eq (table_of l)) by done. cbn [res_bind]. rewrite E. cbn [res_bind].
  split; [done|]. rewrite Forall_app, apply_wops_app. split; [|done].
  split; [apply (member_writes_in (table_of l))|done].
Qed.

Lemma writeSubscribers_eq c t ms :
  Forall new_member ms ->
  writeSubscribers c t ms =
  let! ws := batchOf (writeMember SubscriberTable c t) (map identified ms) in Ok (inr ws).
Proof.
  induction 1 as [|mb ms (Hu & _) _ IH]; [done|]. cbn [writeSubscribers map batchOf].
  unfold writeSubscriber. change ({| mb with mb_Id := _ |}) with (identified mb).
  pose proof (user_hash _ Hu) as Hh. destruct (Z.eqb_spec (mb_Id (identified mb)) 0) as [E|_].
  { cbn in E. lia. }
  destruct (writeMember SubscriberTable c t (identified mb)) as [w| |]; cbn [res_bind]; [|done..].
  rewrite IH. by destruct (batchOf _ _).
Qed.

Lemma getMembersByUids_spec l A c t us db acc :
  Forall User us -> names_ok A -> chan_rep (table_of l) A c t (kv_map db) ->
  getMembersByUids (table_of l) db c t us acc =
  Ok (Some (acc ++ (us ≫= fun u => map (fun p => member_of p.1 p.2) (pair_of A c t u)))).
Proof.
  intros Hus HA R. revert acc. induction Hus as [|u us Hu _ IH]; intros acc.
  { cbn. by rewrite app_nil_r. }
  cbn [getMembersByUids]. rewrite (scan_user _ A) by done. cbn [res_bind].
  by rewrite IH, bind_cons, app_assoc.
Qed.

Lemma remove_batch l A c t m ms :
  Forall (fun mb => User (mb_Uid mb) /\ mb_Id mb = HashWithString (mb_Uid mb)) ms ->
  chan_rep (table_of l) A c t m -> exists ws,
    batchOf (removeMember (table_of l) c t) ms = Ok ws /\
    Forall (wop_in (id_of l) (num c t)) ws /\
    chan_rep (table_of l) (remove_members A c t (map mb_Uid ms)) c t (apply_wops m ws).
Proof.
  intros Hms. revert A m. induction Hms as [|mb ms [Hu Hid] _ IH]; intros A m R; [by exists []|].
  apply (remove_rep (table_of l) _ _ _ _ mb) in R; [|done..].
  destruct (IH _ _ R) as (ws & E & Hin & R').
  exists (member_deletes (table_of l) (num c t) mb ++ ws).
  cbn [map batchOf]. rewrite (removeMember_eq (table_of l)) by done. cbn [res_bind]. rewrite E. cbn [res_bind].
  split; [done|]. rewrite Forall_app, apply_wops_app. split; [|done].
  split; [apply (member_deletes_in (table_of l))|done].
Qed.

(** The members that are found and their deletion. *)
Lemma remove_found l A c t us db :
  Forall User us -> names_ok A -> chan_rep (table_of l) A c t (kv_map db) -> exists ms ws,
    getMembersByUids (table_of l) db c t us [] = Ok (Some ms) /\
    batchOf (removeMember (table_of l) c t) ms = Ok ws /\
    Forall (wop_in (id_of l) (num c t)) ws /\
    chan_rep (table_of l) (remove_members A c t us) c t (apply_wops (kv_map db) ws).
Proof.
  intros Hus HA R. rewrite (getMembersByUids_spec l A) by done.
  set (ms := us ≫= _). assert (Hms : forall mb, mb ∈ ms <-> exists u tms,
    u ∈ us /\ A !! (c, t, u) = Some tms /\ mb = member_of u tms).
  { intros mb. unfold ms. rewrite list_elem_of_bind. split.
    - intros (u & ([u' tms] & -> & Hp)%list_elem_of_fmap & Hu). unfold pair_of in Hp.
      destruct (A !! (c, t, u)) as [x|] eqn:E; [|by apply not_elem_of_nil in Hp].
      apply list_elem_of_singleton in Hp as [= -> ->]. eauto.
    - intros (u & tms & Hu & E & ->). exists u. split; [|done]. unfold pair_of. rewrite E. by left. }
  destruct (remove_batch l A c t (kv_map db) ms) as (ws & E & Hin & R'); [|done|].
  { apply Forall_forall. intros mb (u & tms & Hu & _ & ->)%Hms. split; [|done].
    rewrite Forall_forall in Hus. by apply Hus. }
  exists ms, ws. split; [done|]. split; [done|]. split; [done|].
  eapply chan_rep_ext; [|exact R']. intros u. rewrite !remove_members_lookup.
  destruct (decide ((c, t) = (c, t) /\ u ∈ map mb_Uid ms)) as [[_ H]|H].
  - apply list_elem_of_fmap in H as (mb & -> & (u' & tms & Hu & _ & ->)%Hms).
    by rewrite decide_True.
  - destruct (decide _) as [[_ Hu]|]; [|done]. destruct (A !! (c, t, u)) as [tms|] eqn:E'; [|done].
    exfalso. apply H. split; [done|]. apply list_elem_of_fmap. exists (member_of u tms).
    split; [done|]. apply Hms. eauto.
Qed.

(** ** The cache after an operation *)

(** [BatchSetSubscriberExists] and its copies. *)
Definition batch_set (c : PermissionCache C) (l : listId) (ch : string) (t : Z) (uids : list string)
    (b : bool) : PermissionCache C :=
  foldl (fun c u => setPermission c (getPermissionKey (permOf l) ch t u) b) c uids.

Lemma has_ok_sub S c c' : items c' ⊆ items c -> has_ok S c -> has_ok S c'.
Proof. intros Hs H ch t item Hc Hi. eapply H; [done|]. by eapply lookup_weaken. Qed.

Lemma has_ok_set S c l ch t u b :
  has_ok S c -> has_ok S (setPermission c (getPermissionKey (permOf l) ch t u) b).
Proof.
  intros H ch' t' item Hc Hi.
  destruct (setPermission_items c (getPermissionKey (permOf l) ch t u) b) as (it & _ & Hs).
  eapply lookup_weaken in Hi; [|exact Hs]. rewrite lookup_insert_ne in Hi; [by eapply H|].
  apply hasAllowlist_key. by destruct l.
Qed.

Lemma has_ok_batch S c l ch t uids b : has_ok S c -> has_ok S (batch_set c l ch t uids b).
Proof.
  unfold batch_set. revert c. induction uids as [|u uids IH]; intros c H; [done|]. by apply IH, has_ok_set.
Qed.

Lemma has_ok_shrink S S' c :
  (forall ch t u, S Allowed !! (ch, t, u) = None -> S' Allowed !! (ch, t, u) = None) ->
  has_ok S c -> has_ok S' c.
Proof. intros HS H ch t item Hc Hi Hf u. by eapply HS, H. Qed.

Lemma has_key_inj c t c' t' : Chan c t -> Chan c' t' ->
  getPermissionKey PermissionTypeHasAllowlist c t "" = getPermissionKey PermissionTypeHasAllowlist c' t' "" ->
  c = c' /\ t = t'.
Proof.
  intros Hc Hc'. unfold getPermissionKey. rewrite !bool_decide_eq_true_2 by done. intros E.
  apply colon_split in E as [_ E]; [|apply permOf_colonless..].
  apply colon_split in E as [-> E]; [|by eapply chan_colon..].
  apply chan_type in Hc, Hc'. by apply FormatInt_inj in E as ->.
Qed.

(** "Has an allow list" is cached: [true] is always safe. *)
Lemma has_ok_has S S' c ch t b :
  Chan ch t -> (b = false -> forall u, S' Allowed !! (ch, t, u) = None) ->
  (forall ch' t' u, (ch', t') <> (ch, t) -> S' Allowed !! (ch', t', u) = S Allowed !! (ch', t', u)) ->
  has_ok S c -> has_ok S' (SetHasAllowlist c ch t b).
Proof.
  intros Hc Hb Hsame H ch' t' item Hc' Hi Hf. unfold SetHasAllowlist in Hi.
  destruct (setPermission_items c (getPermissionKey PermissionTypeHasAllowlist ch t "") b) as (it & Hit & Hs).
  eapply lookup_weaken in Hi; [|exact Hs]. apply lookup_insert_Some in Hi as [[E <-]|[Hne Hi]].
  - apply has_key_inj in E as [<- <-]; [|done..]. apply Hb. congruence.
  - intros u. rewrite Hsame by (intros [= -> ->]; done). by eapply H.
Qed.

Lemma update_same S l A : update S l A l = A.
Proof. unfold update. by rewrite decide_True. Qed.
Lemma update_other S l A l' : l' <> l -> update S l A l' = S l'.
Proof. intros H. unfold update. by rewrite decide_False. Qed.

(** An operation on some members of a list caches their new state. *)
Lemma changed_cache S c l ch t uids A' b :
  Chan ch t -> Forall User uids ->
  (forall u, u ∈ uids -> bool_decide (is_Some (A' !! (ch, t, u))) = b) ->
  (forall ch' t' u, ~ ((ch', t') = (ch, t) /\ u ∈ uids) -> A' !! (ch', t', u) = S l !! (ch', t', u)) ->
  cache_ok S c -> cache_ok (update S l A') (batch_set c l ch t uids b).
Proof.
  intros Hc Hu Hb Hsame H. unfold batch_set. apply batch_cache; [done|done|by rewrite update_same|].
  eapply cache_ok_except; [|exact H]. intros l' ch' t' u Hx.
  destruct (decide (l' = l)) as [->|Hl]; [|by rewrite update_other].
  rewrite update_same, Hsame; [done|]. intros [[= -> ->] Hin]. by apply Hx.
Qed.

(** ** Commits *)

Lemma commit_spec wk i db ws :
  (exists db', kv_commit db ws = Some db' /\
     commit wk i db ws = Some {| wk with wk_dbs := <[i := db']> (wk_dbs wk) |}) \/
  (commit wk i db ws = None /\ faulty).
Proof.
  unfold commit. destruct (kv_commit db ws) as [db'|] eqn:E; [left; eauto|].
  right. split; [done|]. right. right. eauto.
Qed.

(** The state after a commit and a change of the cache. *)
Lemma commit_rep S wk l c t ws db db' A' pc :
  Chan c t -> Rep S wk -> wk_dbs wk !! shard (length (wk_dbs wk)) c t = Some db ->
  batch_ok l c t ws -> kv_commit db ws = Some db' ->
  chan_rep (table_of l) A' c t (apply_wops (kv_map db) ws) ->
  (forall c' t' u, (c', t') <> (c, t) -> A' !! (c', t', u) = S l !! (c', t', u)) ->
  names_ok A' -> cache_ok (update S l A') pc -> has_ok (update S l A') pc ->
  Rep (update S l A') (mkWukongDB (<[shard (length (wk_dbs wk)) c t := db']> (wk_dbs wk)) pc).
Proof.
  intros Hc R Hdb Hb Hcm HA Hsame Hn Hpc Hh. split; [|by eapply batch_rep; [|apply R|..]|done|done].
  intros l'. unfold update. destruct (decide (l' = l)); [done|]. apply R.
Qed.

Lemma table_batch l c t ws cw :
  Forall (wop_in (id_of l) (num c t)) ws -> Forall count_wop cw -> batch_ok l c t (ws ++ cw).
Proof.
  intros H1 H2. apply Forall_app. split; (eapply Forall_impl; [eassumption|]); tauto.
Qed.

Lemma table_batch_rep l A c t m ws cw :
  Forall count_wop cw -> chan_rep (table_of l) A c t (apply_wops m ws) ->
  chan_rep (table_of l) A c t (apply_wops m (ws ++ cw)).
Proof.
  intros H R. rewrite apply_wops_app. apply chan_rep_frame; [|done]. by apply count_foreign.
Qed.

Lemma table_counts l c t ws S dbs i db :
  Forall (wop_in (id_of l) (num c t)) ws -> store_rep S dbs -> dbs !! i = Some db ->
  counts_ok (apply_wops (kv_map db) ws).
Proof.
  intros H R Hdb. apply (counts_kept l c t); [|by eapply sr_counts].
  eapply Forall_impl; [exact H|]. tauto.
Qed.

(** ** The operations that change a list *)

(** The operation is done, or it reports an error of the store and nothing has
    changed. *)
Definition op_result S' wk (r : res (wukongDB (DB := DB) (C := C) * option GoError)) : Prop :=
  exists wk' e, r = Ok (wk', e) /\ ((e = None /\ Rep S' wk') \/ (is_Some e /\ faulty /\ wk' = wk)).

Lemma finish S wk l c t ws db A' (F : PermissionCache C -> PermissionCache C) :
  Chan c t -> Rep S wk -> wk_dbs wk !! shard (length (wk_dbs wk)) c t = Some db ->
  batch_ok l c t ws -> chan_rep (table_of l) A' c t (apply_wops (kv_map db) ws) ->
  (forall c' t' u, (c', t') <> (c, t) -> A' !! (c', t', u) = S l !! (c', t', u)) ->
  names_ok A' -> cache_ok (update S l A') (F (wk_permissionCache wk)) ->
  has_ok (update S l A') (F (wk_permissionCache wk)) ->
  op_result (update S l A') wk
    (match commit wk (shard (length (wk_dbs wk)) c t) db ws with
     | None => Ok (wk, Some commitErr)
     | Some wk => Ok (set_permissions wk (F (wk_permissionCache wk)), None)
     end).
Proof.
  intros Hc R Hdb Hb HA Hsame Hn Hpc Hh.
  destruct (commit_spec wk (shard (length (wk_dbs wk)) c t) db ws) as [(db' & Hcm & ->)|[-> Hf]].
  - eexists _, _. split; [done|]. left. split; [done|]. by eapply (commit_rep S wk l).
  - eexists _, _. split; [done|]. right. eauto.
Qed.

(** The same with a change of a count in the batch. *)
Lemma counted_finish S wk l c t ws db A' col name count (F : PermissionCache C -> PermissionCache C) :
  Chan c t -> Rep S wk -> wk_dbs wk !! shard (length (wk_dbs wk)) c t = Some db ->
  col ∈ [column TableChannelInfo "DenylistCount"; column TableChannelInfo "AllowlistCount"] ->
  Forall (wop_in (id_of l) (num c t)) ws -> chan_rep (table_of l) A' c t (apply_wops (kv_map db) ws) ->
  (forall c' t' u, (c', t') <> (c, t) -> A' !! (c', t', u) = S l !! (c', t', u)) ->
  names_ok A' -> cache_ok (update S l A') (F (wk_permissionCache wk)) ->
  has_ok (update S l A') (F (wk_permissionCache wk)) ->
  op_result (update S l A') wk
    (let! w := incChannelInfoColumnCount db (getChannelPrimaryKey c t) col name count ws in
     match w with
     | None => Ok (wk, Some (ErrOther "get"))
     | Some w =>
         match commit wk (shard (length (wk_dbs wk)) c t) db w with
         | None => Ok (wk, Some commitErr)
         | Some wk => Ok (set_permissions wk (F (wk_permissionCache wk)), None)
         end
     end).
Proof.
  intros Hc R Hdb Hcol Hws HA Hsame Hn Hpc Hh.
  destruct (inc_spec db (getChannelPrimaryKey c t) col name count ws) as [(cw & -> & Hcw)|[-> Hf]];
    [apply num_u64|done|eapply table_counts; [done|apply R|done]|..]; cbn [res_bind].
  - apply finish; try done; [by apply table_batch|by apply table_batch_rep].
  - eexists _, _. split; [done|]. right. eauto.
Qed.

(** The caches after adding members to a list and after removing them. *)
Lemma added_cache S c l ch t ms :
  Chan ch t -> Forall new_member ms -> cache_ok S c ->
  cache_ok (update S l (add_members (S l) ch t ms)) (batch_set c l ch t (map mb_Uid ms) true).
Proof.
  intros Hc Hms H. apply changed_cache; [done| | |by intros; apply add_members_other|done].
  - apply Forall_map. eapply Forall_impl; [exact Hms|]. by intros mb [? _].
  - intros u Hu. apply bool_decide_eq_true, add_members_some. by right.
Qed.

Lemma removed_cache S c l ch t us :
  Chan ch t -> Forall User us -> cache_ok S c ->
  cache_ok (update S l (remove_members (S l) ch t us)) (batch_set c l ch t us false).
Proof.
  intros Hc Hus H. apply changed_cache; [done|done|..|done].
  - intros u Hu. apply bool_decide_eq_false. rewrite remove_members_lookup, decide_True by done. by intros [].
  - intros ch' t' u Hn. by rewrite remove_members_lookup, decide_False.
Qed.

Lemma removed_has S c l A' :
  (forall k, S l !! k = None -> A' !! k = None) -> has_ok S c -> has_ok (update S l A') c.
Proof.
  intros Hs. apply has_ok_shrink. intros ch t u HN.
  destruct (decide (Allowed = l)) as [<-|Hne]; [by rewrite update_same; auto|by rewrite update_other].
Qed.

Lemma remove_members_None A c t us k : A !! k = None -> remove_members A c t us !! k = None.
Proof. destruct k as [[c' t'] u]. rewrite remove_members_lookup. by destruct (decide _). Qed.
Lemma remove_channel_shrinks A c t k : A !! k = None -> remove_channel A c t !! k = None.
Proof.
  destruct k as [[c' t'] u]. intros H. destruct (decide ((c', t') = (c, t))) as [[= -> ->]|Hne];
    [apply remove_channel_None|by rewrite remove_channel_other].
Qed.

Lemma other_has S c l A' : l <> Allowed -> has_ok S c -> has_ok (update S l A') c.
Proof. intros Hl. apply has_ok_shrink. intros ch t u. by rewrite update_other. Qed.

Lemma add_other_channels A c t ms c' t' u :
  (c', t') <> (c, t) -> add_members A c t ms !! (c', t', u) = A !! (c', t', u).
Proof. intros H. apply add_members_other. tauto. Qed.
Lemma remove_other_channels A c t us c' t' u :
  (c', t') <> (c, t) -> remove_members A c t us !! (c', t', u) = A !! (c', t', u).
Proof. intros H. rewrite remove_members_lookup. rewrite decide_False; [done|]. tauto. Qed.

(** *** Adding *)

Lemma AddSubscribers_ok S wk c t ms :
  Rep S wk -> Chan c t -> Forall new_member ms ->
  op_result (update S Subscribers (add_members (S Subscribers) c t ms)) wk (AddSubscribers wk c t ms).
Proof.
  intros R Hc Hms. unfold AddSubscribers.
  destruct (channelDb_spec S wk c t (rp_store _ _ R)) as (db & -> & Hdb). cbn [res_bind].
  pose proof (sr_chan _ _ (rp_store _ _ R) Subscribers c t db Hc Hdb) as Rc.
  unfold getChannelPrimaryKey. destruct (Z.eqb_spec (ChannelToNum c t) 0) as [E|_].
  { by apply chan_hash in Hc. }
  rewrite writeSubscribers_eq by done.
  destruct (write_batch Subscribers _ c t _ ms Hms Rc) as (ws & E & Hws & Rc').
  cbn [table_of] in E. rewrite E. cbn [res_bind].
  apply (finish S wk Subscribers c t ws db _
           (fun pc => BatchSetSubscriberExists pc c t (map mb_Uid ms) true)); try done.
  - rewrite <-(app_nil_r ws). by apply table_batch.
  - by intros; apply add_other_channels.
  - apply add_members_names; [done|done|apply R].
  - apply added_cache; [done|done|apply R].
  - apply other_has; [done|]. apply (has_ok_batch _ _ Subscribers), R.
Qed.

Lemma AddDenylist_ok S wk c t ms :
  Rep S wk -> Chan c t -> Forall new_member ms ->
  op_result (update S Denied (add_members (S Denied) c t ms)) wk (AddDenylist wk c t ms).
Proof.
  intros R Hc Hms. unfold AddDenylist, incChannelInfoDenylistCount, writeDenylist.
  destruct (channelDb_spec S wk c t (rp_store _ _ R)) as (db & -> & Hdb). cbn [res_bind].
  pose proof (sr_chan _ _ (rp_store _ _ R) Denied c t db Hc Hdb) as Rc.
  destruct (write_batch Denied _ c t _ ms Hms Rc) as (ws & E & Hws & Rc').
  cbn [table_of] in E. rewrite E. cbn [res_bind].
  apply (counted_finish S wk Denied c t ws db _ _ _ _
           (fun pc => BatchSetDenylistExists pc c t (map mb_Uid ms) true)); try done.
  - by left.
  - by intros; apply add_other_channels.
  - apply add_members_names; [done|done|apply R].
  - apply added_cache; [done|done|apply R].
  - apply other_has; [done|]. apply (has_ok_batch _ _ Denied), R.
Qed.

(** The cache of the allow list also learns that there is one. *)
Lemma added_allow S c ch t ms :
  Chan ch t -> Forall new_member ms -> cache_ok S c -> has_ok S c ->
  let c' := BatchSetAllowlistExists c ch t (map mb_Uid ms) true in
  cache_ok (update S Allowed (add_members (S Allowed) ch t ms)) c' /\
  has_ok (update S Allowed (add_members (S Allowed) ch t ms)) c'.
Proof.
  intros Hc Hms H Hh c'. unfold c', BatchSetAllowlistExists. clear c'.
  change (foldl _ c (map mb_Uid ms)) with (batch_set c Allowed ch t (map mb_Uid ms) true).
  pose proof (added_cache S c Allowed ch t ms Hc Hms H) as H'.
  pose proof (has_ok_batch S c Allowed ch t (map mb_Uid ms) true Hh) as Hh'.
  destruct ms as [|mb ms].
  - split; [done|]. eapply has_ok_shrink; [|exact Hh']. intros. by rewrite update_same.
  - simpl andb. cbn iota. split; [by apply cache_except_set_has|].
    eapply has_ok_has; [done|done| |exact Hh']. intros. rewrite update_same. by apply add_other_channels.
Qed.

Lemma AddAllowlist_ok S wk c t ms :
  Rep S wk -> Chan c t -> Forall new_member ms ->
  op_result (update S Allowed (add_members (S Allowed) c t ms)) wk (AddAllowlist wk c t ms).
Proof.
  intros R Hc Hms. unfold AddAllowlist, incChannelInfoAllowlistCount, writeAllowlist.
  destruct (channelDb_spec S wk c t (rp_store _ _ R)) as (db & -> & Hdb). cbn [res_bind].
  pose proof (sr_chan _ _ (rp_store _ _ R) Allowed c t db Hc Hdb) as Rc.
  destruct (write_batch Allowed _ c t _ ms Hms Rc) as (ws & E & Hws & Rc').
  cbn [table_of] in E. rewrite E. cbn [res_bind].
  destruct (added_allow S (wk_permissionCache wk) c t ms Hc Hms) as [H1 H2]; [apply R..|].
  apply (counted_finish S wk Allowed c t ws db _ _ _ _
           (fun pc => BatchSetAllowlistExists pc c t (map mb_Uid ms) true)); try done.
  - by right; left.
  - by intros; apply add_other_channels.
  - apply add_members_names; [done|done|apply R].
Qed.

(** *** Removing *)

Lemma removeRepeated_elem seen us u :
  u ∈ seen \/ u ∈ removeRepeated seen us <-> u ∈ seen \/ u ∈ us.
Proof.
  revert seen. induction us as [|v us IH]; intros seen; simpl; [done|].
  case_bool_decide as Hv.
  - rewrite IH, elem_of_cons. split; [tauto|]. intros [?|[->|?]]; tauto.
  - rewrite !elem_of_cons. specialize (IH (v :: seen)). rewrite !elem_of_cons in IH. tauto.
Qed.

Lemma RemoveRepeatedElement_elem us u : u ∈ RemoveRepeatedElement us <-> u ∈ us.
Proof.
  pose proof (removeRepeated_elem [] us u) as H. unfold RemoveRepeatedElement.
  pose proof (not_elem_of_nil u). tauto.
Qed.

Lemma remove_repeated A c t us :
  remove_members A c t (RemoveRepeatedElement us) = remove_members A c t us.
Proof.
  apply map_eq. intros [[c' t'] u]. rewrite !remove_members_lookup. apply decide_ext.
  by rewrite RemoveRepeatedElement_elem.
Qed.

Lemma remove_members_names A c t us : names_ok A -> names_ok (remove_members A c t us).
Proof.
  apply names_sub. intros [[c' t'] u] tms. rewrite remove_members_lookup. by destruct (decide _).
Qed.

Lemma RemoveSubscribers_ok S wk c t us :
  Rep S wk -> Chan c t -> Forall User us ->
  op_result (update S Subscribers (remove_members (S Subscribers) c t us)) wk (RemoveSubscribers wk c t us).
Proof.
  intros R Hc Hus. unfold RemoveSubscribers. rewrite <-remove_repeated.
  assert (Hus' : Forall User (RemoveRepeatedElement us)).
  { rewrite Forall_forall in Hus |- *. intros u. rewrite RemoveRepeatedElement_elem. apply Hus. }
  revert Hus'. generalize (RemoveRepeatedElement us). clear us Hus. intros us Hus.
  destruct (channelDb_spec S wk c t (rp_store _ _ R)) as (db & -> & Hdb). cbn [res_bind].
  pose proof (sr_chan _ _ (rp_store _ _ R) Subscribers c t db Hc Hdb) as Rc.
  destruct (remove_found Subscribers _ c t us db Hus (rp_names _ _ R _) Rc) as (ms & ws & Em & Ew & Hws & Rc').
  cbn [table_of] in Em, Ew. unfold getSubscribersByUids, removeSubscriber. rewrite Em. cbn [res_bind].
  rewrite Ew. cbn [res_bind].
  apply (finish S wk Subscribers c t ws db _
           (fun pc => BatchSetSubscriberExists pc c t us false)); try done.
  - rewrite <-(app_nil_r ws). by apply table_batch.
  - by intros; apply remove_other_channels.
  - apply remove_members_names, R.
  - apply removed_cache; [done|done|apply R].
  - apply other_has; [done|]. apply (has_ok_batch _ _ Subscribers), R.
Qed.

Lemma RemoveDenylist_ok S wk c t us :
  Rep S wk -> Chan c t -> Forall User us ->
  op_result (update S Denied (remove_members (S Denied) c t us)) wk (RemoveDenylist wk c t us).
Proof.
  intros R Hc Hus. unfold RemoveDenylist, incChannelInfoDenylistCount, getDenylistByUids, removeDenylist.
  destruct (channelDb_spec S wk c t (rp_store _ _ R)) as (db & -> & Hdb). cbn [res_bind].
  pose proof (sr_chan _ _ (rp_store _ _ R) Denied c t db Hc Hdb) as Rc.
  destruct (remove_found Denied _ c t us db Hus (rp_names _ _ R _) Rc) as (ms & ws & Em & Ew & Hws & Rc').
  cbn [table_of] in Em, Ew. rewrite Em. cbn [res_bind]. rewrite Ew. cbn [res_bind].
  apply (counted_finish S wk Denied c t ws db _ _ _ _
           (fun pc => BatchSetDenylistExists pc c t us false)); try done.
  - by left.
  - by intros; apply remove_other_channels.
  - apply remove_members_names, R.
  - apply removed_cache; [done|done|apply R].
  - apply other_has; [done|]. apply (has_ok_batch _ _ Denied), R.
Qed.

Lemma RemoveAllowlist_ok S wk c t us :
  Rep S wk -> Chan c t -> Forall User us ->
  op_result (update S Allowed (remove_members (S Allowed) c t us)) wk (RemoveAllowlist wk c t us).
Proof.
  intros R Hc Hus. unfold RemoveAllowlist, incChannelInfoAllowlistCount, getAllowlistByUids, removeAllowlist.
  destruct (channelDb_spec S wk c t (rp_store _ _ R)) as (db & -> & Hdb). cbn [res_bind].
  pose proof (sr_chan _ _ (rp_store _ _ R) Allowed c t db Hc Hdb) as Rc.
  destruct (remove_found Allowed _ c t us db Hus (rp_names _ _ R _) Rc) as (ms & ws & Em & Ew & Hws & Rc').
  cbn [table_of] in Em, Ew. rewrite Em. cbn [res_bind]. rewrite Ew. cbn [res_bind].
  apply (counted_finish S wk Allowed c t ws db _ _ _ _
           (fun pc => BatchSetAllowlistExists pc c t us false)); try done.
  - by right; left.
  - by intros; apply remove_other_channels.
  - apply remove_members_names, R.
  - apply removed_cache; [done|done|apply R].
  - apply removed_has; [intros k; apply remove_members_None|]. apply (has_ok_batch _ _ Allowed), R.
Qed.

(** *** Removing all *)

Lemma remove_channel_names A c t : names_ok A -> names_ok (remove_channel A c t).
Proof.
  apply names_sub. intros [[c' t'] u] tms. destruct (decide ((c', t') = (c, t))) as [[= -> ->]|Hne];
    [by rewrite remove_channel_None|by rewrite remove_channel_other].
Qed.

(** The keys and the writes of [RemoveAllSubscriber] and its copies. *)
Lemma remove_all_batch l A c t m :
  chan_rep (table_of l) A c t m -> exists low high,
    mt_LowKey (table_of l) c t = Ok low /\ mt_HighKey (table_of l) c t = Ok high /\
    Forall (wop_in (id_of l) (num c t)) (WDeleteRange low high :: index_deletes (table_of l) (num c t)) /\
    chan_rep (table_of l) (remove_channel A c t) c t
      (apply_wops m (WDeleteRange low high :: index_deletes (table_of l) (num c t))).
Proof.
  intros R. destruct (tl_bounds (T := table_of l) c t) as (a & b & E1 & E2 & _).
  eexists _, _. split; [exact E1|]. split; [exact E2|]. split; [|by apply remove_all_rep].
  apply Forall_cons. split; [by apply (channel_range_in (table_of l))|].
  apply (index_deletes_in (table_of l)).
Qed.

Lemma forgotten_cache S c l ch t :
  cache_ok S c ->
  cache_ok (update S l (remove_channel (S l) ch t)) (InvalidateChannelByType c (permOf l) ch t).
Proof.
  intros H. apply invalidate_cache. eapply cache_ok_except; [|exact H]. intros l' ch' t' u Hx.
  destruct (decide (l' = l)) as [->|Hl]; [|by rewrite update_other].
  rewrite update_same, remove_channel_other; [done|]. congruence.
Qed.

Lemma forgotten_has S c l ch t :
  has_ok S c ->
  has_ok (update S l (remove_channel (S l) ch t)) (InvalidateChannelByType c (permOf l) ch t).
Proof.
  intros H. apply removed_has; [intros k; apply remove_channel_shrinks|].
  eapply has_ok_sub; [|exact H]. apply InvalidateChannelByType_items.
Qed.

Lemma RemoveAllSubscriber_ok S wk c t :
  Rep S wk -> Chan c t ->
  op_result (update S Subscribers (remove_channel (S Subscribers) c t)) wk (RemoveAllSubscriber wk c t).
Proof.
  intros R Hc. unfold RemoveAllSubscriber, getChannelPrimaryKey.
  destruct (Z.eqb_spec (ChannelToNum c t) 0) as [E|_]; [by apply chan_hash in Hc|].
  destruct (channelDb_spec S wk c t (rp_store _ _ R)) as (db & -> & Hdb). cbn [res_bind].
  pose proof (sr_chan _ _ (rp_store _ _ R) Subscribers c t db Hc Hdb) as Rc.
  destruct (remove_all_batch Subscribers _ c t _ Rc) as (low & high & E1 & E2 & Hws & Rc').
  cbn [table_of mt_LowKey mt_HighKey SubscriberTable] in E1, E2. rewrite E1, E2. cbn [res_bind].
  unfold deleteAllSubscriberIndex. rewrite (deleteAllMemberIndex_eq SubscriberTable). cbn [res_bind].
  apply (finish S wk Subscribers c t _ db _
           (fun pc => InvalidateChannelByType pc (permOf Subscribers) c t)); try done.
  - rewrite <-(app_nil_r (_ :: _)). by apply table_batch.
  - by intros; apply remove_channel_other.
  - apply remove_channel_names, R.
  - apply forgotten_cache, R.
  - apply forgotten_has, R.
Qed.

Lemma RemoveAllDenylist_ok S wk c t :
  Rep S wk -> Chan c t ->
  op_result (update S Denied (remove_channel (S Denied) c t)) wk (RemoveAllDenylist wk c t).
Proof.
  intros R Hc. unfold RemoveAllDenylist, incChannelInfoDenylistCount.
  destruct (channelDb_spec S wk c t (rp_store _ _ R)) as (db & -> & Hdb). cbn [res_bind].
  pose proof (sr_chan _ _ (rp_store _ _ R) Denied c t db Hc Hdb) as Rc.
  destruct (remove_all_batch Denied _ c t _ Rc) as (low & high & E1 & E2 & Hws & Rc').
  cbn [table_of mt_LowKey mt_HighKey DenylistTable] in E1, E2. rewrite E1, E2. cbn [res_bind].
  unfold deleteAllDenylistIndex. rewrite (deleteAllMemberIndex_eq DenylistTable). cbn [res_bind].
  apply (counted_finish S wk Denied c t _ db _ _ _ _
           (fun pc => InvalidateChannelByType pc (permOf Denied) c t)); try done.
  - by left.
  - by intros; apply remove_channel_other.
  - apply remove_channel_names, R.
  - apply forgotten_cache, R.
  - apply forgotten_has, R.
Qed.

Lemma RemoveAllAllowlist_ok S wk c t :
  Rep S wk -> Chan c t ->
  op_result (update S Allowed (remove_channel (S Allowed) c t)) wk (RemoveAllAllowlist wk c t).
Proof.
  intros R Hc. unfold RemoveAllAllowlist, incChannelInfoAllowlistCount.
  destruct (channelDb_spec S wk c t (rp_store _ _ R)) as (db & -> & Hdb). cbn [res_bind].
  pose proof (sr_chan _ _ (rp_store _ _ R) Allowed c t db Hc Hdb) as Rc.
  destruct (remove_all_batch Allowed _ c t _ Rc) as (low & high & E1 & E2 & Hws & Rc').
  cbn [table_of mt_LowKey mt_HighKey AllowlistTable] in E1, E2. rewrite E1, E2. cbn [res_bind].
  unfold deleteAllAllowlistIndex. rewrite (deleteAllMemberIndex_eq AllowlistTable). cbn [res_bind].
  apply (counted_finish S wk Allowed c t _ db _ _ _ _
           (fun pc => InvalidateChannelByType (InvalidateChannelByType pc (permOf Allowed) c t)
                        PermissionTypeHasAllowlist c t)); try done.
  - by right; left.
  - by intros; apply remove_channel_other.
  - apply remove_channel_names, R.
  - eapply cache_except_sub; [apply InvalidateHas_items|]. apply forgotten_cache, R.
  - eapply has_ok_sub; [apply InvalidateHas_items|]. apply forgotten_has, R.
Qed.

(** ** Reads *)

(** The answer is right, or an error of the store is reported. *)
Definition read_result {B} S (right : B -> Prop)
    (r : res (wukongDB (DB := DB) (C := C) * (GoError + B))) : Prop :=
  exists wk' a, r = Ok (wk', a) /\ Rep S wk' /\
    match a with
    | inr b => right b
    | inl _ => faulty
    end.

Lemma Rep_cache S wk pc :
  Rep S wk -> cache_ok S pc -> has_ok S pc -> Rep S (set_permissions wk pc).
Proof. intros [R1 R2 R3 R4] H1 H2. by split. Qed.

Lemma lookupMember_spec l A c t u db :
  User u -> chan_rep (table_of l) A c t (kv_map db) -> exists r,
    lookupMember (table_of l) db c t u = Ok r /\
    match r with
    | Some b => b = bool_decide (is_Some (A !! (c, t, u)))
    | None => faulty
    end.
Proof.
  intros Hu R. unfold lookupMember. rewrite (tl_IndexKey (T := table_of l)). cbn [res_bind].
  eexists. split; [done|]. pose proof (cr_index _ _ _ _ _ R u Hu) as Hi.
  set (k := idx _ _ _ _) in *. pose proof (kv_get_law db k) as Hg.
  destruct (kv_get db k) as [v| |] eqn:E; simpl in Hg.
  - symmetry. apply bool_decide_eq_true, Hi. rewrite Hg. eauto.
  - symmetry. apply bool_decide_eq_false. rewrite <-Hi, Hg. by intros [].
  - left. eauto.
Qed.

(** [ExistSubscriber] and its copies. *)
Definition exist (l : listId) wk (c : string) (t : Z) (u : string) :=
  let '(pc, (exists_, found)) :=
    getPermission (wk_permissionCache wk) (getPermissionKey (permOf l) c t u) in
  let wk := set_permissions wk pc in
  if found then Ok (wk, inr exists_)
  else
    let! (_, db) := channelDb wk c t in
    let! r := lookupMember (table_of l) db c t u in
    Ok (match r with
        | None => (wk, inl (ErrOther "get"))
        | Some exists_ =>
            (set_permissions wk (setPermission (wk_permissionCache wk)
               (getPermissionKey (permOf l) c t u) exists_), inr exists_)
        end).

Lemma exist_ok S wk l c t u :
  Rep S wk -> Chan c t -> User u ->
  read_result S (fun b => b = bool_decide (is_Some (S l !! (c, t, u)))) (exist l wk c t u).
Proof.
  intros R Hc Hu. unfold exist.
  destruct (getPermission _ _) as [pc [b found]] eqn:E. apply getPermission_spec in E as [Ei Hf].
  assert (Hpc : cache_ok S pc) by (eapply cache_except_sub; [by rewrite Ei|apply R]).
  assert (Hh : has_ok S pc) by (eapply has_ok_sub; [by rewrite Ei|apply R]).
  destruct found.
  { eexists _, _. split; [done|]. split; [by apply Rep_cache|].
    destruct (Hf eq_refl) as (item & Hi & <-). apply (rp_cache _ _ R l c t u item); [done|done|intros []|done]. }
  destruct (channelDb_spec S (set_permissions wk pc) c t (rp_store _ _ R)) as (db & -> & Hdb).
  cbn [res_bind]. pose proof (sr_chan _ _ (rp_store _ _ R) l c t db Hc Hdb) as Rc.
  destruct (lookupMember_spec l _ c t u db Hu Rc) as ([b'|] & -> & Hr); cbn [res_bind].
  - eexists _, _. split; [done|]. split; [|done]. apply Rep_cache; [by apply Rep_cache|..].
    + intros l' ch t' u' item Hc' Hu' _.
      apply (set_answer (fun _ _ _ _ => False) S pc l c t u b' Hc Hu (eq_sym Hr) Hpc l' ch t' u' item Hc' Hu').
      tauto.
    + by apply has_ok_set.
  - eexists _, _. split; [done|]. split; [by apply Rep_cache|done].
Qed.

(** [GetSubscribers], [GetDenylist] and [GetAllowlist] never fail. *)
Lemma getMembers_ok S wk l c t :
  Rep S wk -> Chan c t -> exists ms,
    members_of (S l) c t ms /\ getMembers (table_of l) wk c t = Ok (inr ms).
Proof.
  intros R Hc. unfold getMembers, scanMembers.
  destruct (channelDb_spec S wk c t (rp_store _ _ R)) as (db & -> & Hdb). cbn [res_bind].
  pose proof (sr_chan _ _ (rp_store _ _ R) l c t db Hc Hdb) as Rc.
  destruct (tl_bounds (T := table_of l) c t) as (a & b & -> & -> & Hb). cbn [res_bind].
  destruct (scan_channel (table_of l) collect (S l) c t db [] a b (rp_names _ _ R l) Rc Hb) as (ms & Hms & ->).
  exists ms. split; [done|]. cbn [res_bind]. by rewrite visit_collect.
Qed.

Lemma GetSubscriberCount_ok S wk c t :
  Rep S wk -> Chan c t -> exists ms,
    members_of (S Subscribers) c t ms /\ GetSubscriberCount wk c t = Ok (inr (len ms)).
Proof.
  intros R Hc. unfold GetSubscriberCount.
  destruct (channelDb_spec S wk c t (rp_store _ _ R)) as (db & -> & Hdb). cbn [res_bind].
  pose proof (sr_chan _ _ (rp_store _ _ R) Subscribers c t db Hc Hdb) as Rc.
  change NewSubscriberColumnKey with (mt_ColumnKey SubscriberTable).
  rewrite !(tl_ColumnKey (T := SubscriberTable)). cbn [res_bind]. rewrite !row_eq, !app_assoc, <-!(app_assoc (_ ++ _)).
  destruct (scan_channel SubscriberTable (fun count _ => (count + 1, true)) (S Subscribers) c t db 0
    (be_bytes 8 0 ++ [(column TableSubscriber "Uid").1; (column TableSubscriber "Uid").2])
    (be_bytes 8 MaxUint64 ++ [(column TableSubscriber "Uid").1; (column TableSubscriber "Uid").2])
    (rp_names _ _ R _) Rc) as (ms & Hms & E).
  { intros i col Hi. rewrite row_eq, !app_assoc, <-!(app_assoc (_ ++ _)). apply in_range_prefix.
    apply (range_field 8); unfold MaxUint64 in *; lia. }
  exists ms. split; [done|]. unfold iterateSubscriber. cbn [mt_table SubscriberTable] in E |- *.
  rewrite E. cbn [res_bind]. by rewrite visit_count.
Qed.

Lemma visit_first ms : visit (fun _ _ => (true, false)) false ms = negb (bool_decide (ms = [])).
Proof. by destruct ms. Qed.

(** The answer "no" is right. *)
Lemma HasAllowlist_ok S wk c t :
  Rep S wk -> Chan c t ->
  read_result S (fun b => b = false -> forall u, S Allowed !! (c, t, u) = None) (HasAllowlist wk c t).
Proof.
  intros R Hc. unfold HasAllowlist, GetHasAllowlist.
  destruct (getPermission _ _) as [pc [b found]] eqn:E. apply getPermission_spec in E as [Ei Hf].
  assert (Hpc : cache_ok S pc) by (eapply cache_except_sub; [by rewrite Ei|apply R]).
  assert (Hh : has_ok S pc) by (eapply has_ok_sub; [by rewrite Ei|apply R]).
  destruct found.
  { eexists _, _. split; [done|]. split; [by apply Rep_cache|].
    destruct (Hf eq_refl) as (item & Hi & <-). by eapply (rp_has _ _ R). }
  destruct (channelDb_spec S (set_permissions wk pc) c t (rp_store _ _ R)) as (db & -> & Hdb).
  cbn [res_bind]. pose proof (sr_chan _ _ (rp_store _ _ R) Allowed c t db Hc Hdb) as Rc.
  destruct (tl_bounds (T := AllowlistTable) c t) as (a & b' & E1 & E2 & Hb).
  cbn [mt_LowKey mt_HighKey AllowlistTable] in E1, E2. rewrite E1, E2. cbn [res_bind].
  destruct (scan_channel AllowlistTable (fun _ _ => (true, false)) (S Allowed) c t db false a b'
              (rp_names _ _ R _) Rc Hb) as (ms & [_ Hms] & Es).
  unfold iterateAllowlist. rewrite Es, visit_first. cbn [res_bind].
  assert (Hright : negb (bool_decide (ms = [])) = false -> forall u, S Allowed !! (c, t, u) = None).
  { intros ->%negb_false_iff%bool_decide_eq_true u. destruct (S Allowed !! (c, t, u)) as [tms|] eqn:Eu; [|done].
    exfalso. apply (not_elem_of_nil (member_of u tms)), Hms. eauto. }
  eexists _, _. split; [done|]. split; [|exact Hright]. apply Rep_cache; [by apply Rep_cache|..].
  - by apply cache_except_set_has.
  - by eapply has_ok_has.
Qed.
End Refine.
