(* ===== verification/WkMembersProps.v ===== *)
(** * Correctness of the member lists

    [mop] is a call of the member lists or of the cache, [exec] runs it as the code
    does, and [astep] is what it means on three abstract lists.  [MemberProps]
    states that every sequence of calls refines the abstract lists, and shows
    where the counts and the cache go wrong. *)

From Stdlib Require Import Strings.Byte Strings.Ascii Sorting.Sorted.
From S2P Require Import Prelude RaftTypes WkProto KeyBytes WkTables WkKey WkKeyLaws WkKv.
From S2P Require Import WkPermission WkMembers WkMembersLaws WkMembersScan WkMembersCache WkMembersRefine.

(** ** Calls *)

Inductive mop :=
| MAdd (l : listId) (c : string) (t : Z) (ms : list Member)
| MRemove (l : listId) (c : string) (t : Z) (us : list string)
| MRemoveAll (l : listId) (c : string) (t : Z)
| MExist (l : listId) (c : string) (t : Z) (u : string)
| MGet (l : listId) (c : string) (t : Z)
| MCount (c : string) (t : Z)
| MHasAllowlist (c : string) (t : Z)
| MRemoval (i : nat)
| MRemoveExpired
| MInvalidateUser (c : string) (t : Z) (u : string)
| MInvalidateChannel (c : string) (t : Z)
| MSetTTL (ttl : Z).

Inductive answer :=
| AFail (e : GoError)
| ADone
| ABool (b : bool)
| AMembers (ms : list Member)
| ANumber (n : Z).

Section Exec.
Context {DB : Type} {P : Pebble DB} {C : Type} {L : LRU PermissionCacheItem C}.
Abbreviation state := (wukongDB (DB := DB) (C := C)).
Implicit Types wk : state.

Definition changed (r : res (state * option GoError)) : res (state * answer) :=
  let! (wk, e) := r in Ok (wk, match e with Some e => AFail e | None => ADone end).
Definition answered {B} (f : B -> answer) (r : res (state * (GoError + B))) : res (state * answer) :=
  let! (wk, a) := r in Ok (wk, match a with inl e => AFail e | inr b => f b end).
Definition unchanged {B} wk (f : B -> answer) (r : res (GoError + B)) : res (state * answer) :=
  answered f (let! a := r in Ok (wk, a)).

Definition exec wk (o : mop) : res (state * answer) :=
  match o with
  | MAdd Subscribers c t ms => changed (AddSubscribers wk c t ms)
  | MAdd Denied c t ms => changed (AddDenylist wk c t ms)
  | MAdd Allowed c t ms => changed (AddAllowlist wk c t ms)
  | MRemove Subscribers c t us => changed (RemoveSubscribers wk c t us)
  | MRemove Denied c t us => changed (RemoveDenylist wk c t us)
  | MRemove Allowed c t us => changed (RemoveAllowlist wk c t us)
  | MRemoveAll Subscribers c t => changed (RemoveAllSubscriber wk c t)
  | MRemoveAll Denied c t => changed (RemoveAllDenylist wk c t)
  | MRemoveAll Allowed c t => changed (RemoveAllAllowlist wk c t)
  | MExist Subscribers c t u => answered ABool (ExistSubscriber wk c t u)
  | MExist Denied c t u => answered ABool (ExistDenylist wk c t u)
  | MExist Allowed c t u => answered ABool (ExistAllowlist wk c t u)
  | MGet Subscribers c t => unchanged wk AMembers (GetSubscribers wk c t)
  | MGet Denied c t => unchanged wk AMembers (GetDenylist wk c t)
  | MGet Allowed c t => unchanged wk AMembers (GetAllowlist wk c t)
  | MCount c t => unchanged wk ANumber (GetSubscriberCount wk c t)
  | MHasAllowlist c t => answered ABool (HasAllowlist wk c t)
  | MRemoval i =>
      Ok (match run_removal (wk_permissionCache wk) i with
          | Some pc => set_permissions wk pc
          | None => wk
          end, ADone)
  | MRemoveExpired => Ok (set_permissions wk (RemoveExpiredItems (wk_permissionCache wk)).1, ADone)
  | MInvalidateUser c t u => Ok (set_permissions wk (InvalidateUser (wk_permissionCache wk) c t u), ADone)
  | MInvalidateChannel c t =>
      Ok (set_permissions wk (InvalidateChannel (wk_permissionCache wk) c t), ADone)
  | MSetTTL ttl => Ok (set_permissions wk (SetCacheTTL (wk_permissionCache wk) ttl), ADone)
  end.

Fixpoint execs wk (os : list mop) : res (state * list answer) :=
  match os with
  | [] => Ok (wk, [])
  | o :: os =>
      let! (wk, a) := exec wk o in
      let! (wk, aa) := execs wk os in Ok (wk, a :: aa)
  end.
End Exec.

(** ** What the calls mean *)

Section Meaning.
Context {N : Names} {DB : Type} {P : Pebble DB} {PL : PebbleLaws DB}.

(** The names of a call are in use, and its times can be stored. *)
Definition named (o : mop) : Prop :=
  match o with
  | MAdd _ c t ms => Chan c t /\ Forall new_member ms
  | MRemove _ c t us => Chan c t /\ Forall User us
  | MExist _ c t u => Chan c t /\ User u
  | MRemoveAll _ c t | MGet _ c t | MCount c t | MHasAllowlist c t => Chan c t
  | _ => True
  end.

(** A call may fail if the store can fail, and then nothing changes. *)
Inductive astep : lists -> mop -> answer -> lists -> Prop :=
| a_fail S o e : faulty (DB := DB) -> astep S o (AFail e) S
| a_add S l c t ms : astep S (MAdd l c t ms) ADone (update S l (add_members (S l) c t ms))
| a_remove S l c t us : astep S (MRemove l c t us) ADone (update S l (remove_members (S l) c t us))
| a_removeAll S l c t : astep S (MRemoveAll l c t) ADone (update S l (remove_channel (S l) c t))
| a_exist S l c t u : astep S (MExist l c t u) (ABool (bool_decide (is_Some (S l !! (c, t, u))))) S
| a_get S l c t ms : members_of (S l) c t ms -> astep S (MGet l c t) (AMembers ms) S
| a_count S c t ms : members_of (S Subscribers) c t ms -> astep S (MCount c t) (ANumber (len ms)) S
| a_has S c t b : (b = false -> forall u, S Allowed !! (c, t, u) = None) ->
    astep S (MHasAllowlist c t) (ABool b) S
| a_removal S i : astep S (MRemoval i) ADone S
| a_expired S : astep S MRemoveExpired ADone S
| a_invUser S c t u : astep S (MInvalidateUser c t u) ADone S
| a_invChannel S c t : astep S (MInvalidateChannel c t) ADone S
| a_ttl S ttl : astep S (MSetTTL ttl) ADone S.

Inductive asteps : lists -> list mop -> list answer -> lists -> Prop :=
| as_nil S : asteps S [] [] S
| as_cons S o a S' os aa S'' : astep S o a S' -> asteps S' os aa S'' ->
    asteps S (o :: os) (a :: aa) S''.

Context {C : Type} {L : LRU PermissionCacheItem C} {LL : LRULaws PermissionCacheItem C}.
Abbreviation state := (wukongDB (DB := DB) (C := C)).

Definition simulates S o (r : res (state * answer)) : Prop :=
  exists wk' a S', r = Ok (wk', a) /\ astep S o a S' /\ Rep S' wk'.

Lemma changed_sim S o (wk : state) S' r :
  Rep S wk -> op_result S' wk r -> astep S o ADone S' -> simulates S o (changed r).
Proof.
  intros R (wk' & e & -> & H) Ha. unfold changed. cbn [res_bind].
  destruct H as [[-> R']|[[e' ->] [Hf ->]]]; eexists _, _, _; (split; [done|]); [done|].
  split; [by apply a_fail|done].
Qed.

Lemma answered_sim {B} S o right (f : B -> answer) (r : res (state * (GoError + B))) :
  read_result S right r -> (forall b, right b -> astep S o (f b) S) -> simulates S o (answered f r).
Proof.
  intros (wk' & a & -> & R & H) Hf. unfold answered. cbn [res_bind].
  eexists _, _, _. split; [done|]. split; [|done]. destruct a; [by apply a_fail|by apply Hf].
Qed.

Lemma read_sim {B} S o (wk : state) (f : B -> answer) (r : res (GoError + B)) b :
  Rep S wk -> r = Ok (inr b) -> astep S o (f b) S -> simulates S o (unchanged wk f r).
Proof. intros R -> Ha. eexists _, _, _. split; [done|]. by split. Qed.

Lemma cache_sim S o (wk : state) pc :
  Rep S wk -> items pc ⊆ items (wk_permissionCache wk) -> astep S o ADone S ->
  simulates S o (Ok (set_permissions wk pc, ADone)).
Proof.
  intros R Hs Ha. eexists _, _, _. split; [done|]. split; [done|].
  apply Rep_cache; [done|eapply cache_except_sub; [done|apply R]|eapply has_ok_sub; [done|apply R]].
Qed.

Lemma InvalidateUser_items (c : PermissionCache C) ch t u : items (InvalidateUser c ch t u) ⊆ items c.
Proof.
  unfold InvalidateUser. cbn [foldl]. rewrite !remove_items.
  etrans; [apply delete_subseteq|]. etrans; [apply delete_subseteq|]. apply delete_subseteq.
Qed.

Lemma InvalidateChannel_items (c : PermissionCache C) ch t : items (InvalidateChannel c ch t) ⊆ items c.
Proof.
  unfold InvalidateChannel.
  match goal with |- context [foldl (fun c key => if @?f key then _ else _)] =>
    apply (remove_keys_items f) end.
Qed.

(** Every call is a step of the abstract lists. *)
Lemma exec_sim S (wk : state) o : Rep S wk -> named o -> simulates S o (exec wk o).
Proof.
  intros R Hn. destruct o as [l c t ms|l c t us|l c t|l c t u|l c t|c t|c t|i| |c t u|c t|ttl]; simpl in Hn.
  - destruct Hn as [Hc Hms]. destruct l; (eapply changed_sim; [exact R| |constructor]);
      auto using AddSubscribers_ok, AddDenylist_ok, AddAllowlist_ok.
  - destruct Hn as [Hc Hus]. destruct l; (eapply changed_sim; [exact R| |constructor]);
      auto using RemoveSubscribers_ok, RemoveDenylist_ok, RemoveAllowlist_ok.
  - destruct l; (eapply changed_sim; [exact R| |constructor]);
      auto using RemoveAllSubscriber_ok, RemoveAllDenylist_ok, RemoveAllAllowlist_ok.
  - destruct Hn as [Hc Hu]. pose proof (exist_ok S wk l c t u R Hc Hu) as H.
    destruct l; (eapply answered_sim; [exact H|intros b ->; constructor]).
  - destruct (getMembers_ok S wk l c t R Hn) as (ms & Hms & E).
    destruct l; (eapply read_sim; [done|exact E|by constructor]).
  - destruct (GetSubscriberCount_ok S wk c t R Hn) as (ms & Hms & E).
    eapply read_sim; [done|exact E|by constructor].
  - eapply answered_sim; [by apply HasAllowlist_ok|by constructor].
  - cbn [exec]. destruct (run_removal _ i) as [pc|] eqn:E;
      [apply cache_sim; [done|by eapply run_removal_items|constructor]|].
    eexists _, _, _. split; [done|]. split; [constructor|done].
  - apply cache_sim; [done|apply RemoveExpiredItems_items|constructor].
  - apply cache_sim; [done|apply InvalidateUser_items|constructor].
  - apply cache_sim; [done|apply InvalidateChannel_items|constructor].
  - apply cache_sim; [done|done|constructor].
Qed.

Lemma execs_sim S (wk : state) os :
  Rep S wk -> Forall named os ->
  exists wk' aa S', execs wk os = Ok (wk', aa) /\ asteps S os aa S' /\ Rep S' wk'.
Proof.
  intros R Hn. revert S wk R. induction Hn as [|o os Ho _ IH]; intros S wk R.
  { eexists _, _, _. split; [done|]. split; [constructor|done]. }
  destruct (exec_sim S wk o R Ho) as (wk1 & a & S1 & E1 & Ha & R1).
  destruct (IH S1 wk1 R1) as (wk2 & aa & S2 & E2 & Has & R2).
  cbn [execs]. rewrite E1. cbn [res_bind]. rewrite E2. cbn [res_bind].
  eexists _, _, _. split; [done|]. split; [|done]. by eapply as_cons.
Qed.

(** A new database has empty lists. *)
Definition no_members : lists := fun _ => ∅.

Lemma empty_rep (dbs : list DB) (pc : PermissionCache C) :
  (0 < length dbs)%nat -> Z.of_nat (length dbs) < 2 ^ 32 -> (forall db, db ∈ dbs -> kv_map db = ∅) ->
  items pc = ∅ -> Rep no_members (mkWukongDB dbs pc).
Proof.
  intros Hl Hl' Hdb Hpc. unfold no_members. split.
  - intros l c t u tms. by rewrite lookup_empty.
  - split; [done|..].
    + intros l c t db _ Hd. apply list_elem_of_lookup_2, Hdb in Hd as ->. split.
      * intros u col _. by rewrite !lookup_empty.
      * intros r v. by rewrite lookup_empty.
      * intros u _. rewrite !lookup_empty. done.
    + intros i db Hd. apply list_elem_of_lookup_2, Hdb in Hd as ->. intros id col v _.
      by rewrite lookup_empty.
  - intros l ch t u item _ _ _. cbn [wk_permissionCache]. by rewrite Hpc, lookup_empty.
  - intros ch t item _. cbn [wk_permissionCache]. by rewrite Hpc, lookup_empty.
Qed.
End Meaning.

(** ** An instance of the names *)

Definition demo_chans : list (string * Z) := [("g", 2); ("h", 2)].
Definition demo_users : list string := ["a"; "b"].

(** No two elements of a list have the same image. *)
Lemma images_apart {X} `{EqDecision X} (f : X -> Z) (l : list X) (x y : X) :
  forallb (fun x => forallb (fun y => bool_decide (x = y) || negb (f x =? f y)) l) l = true ->
  x ∈ l -> y ∈ l -> f x = f y -> x = y.
Proof.
  intros H Hx%list_elem_of_In Hy%list_elem_of_In E. rewrite forallb_forall in H.
  specialize (H x Hx). rewrite forallb_forall in H. specialize (H y Hy).
  apply orb_true_iff in H as [H|H]; [by apply bool_decide_eq_true in H|].
  apply negb_true_iff, Z.eqb_neq in H. done.
Qed.

Lemma checked {X} (f : X -> bool) (l : list X) (x : X) : forallb f l = true -> x ∈ l -> f x = true.
Proof. intros H Hx%list_elem_of_In. rewrite forallb_forall in H. auto. Qed.

#[export] Instance demo_names : Names.
Proof.
  refine {| Chan c t := (c, t) ∈ demo_chans; User u := u ∈ demo_users |}.
  - intros c t H. apply (checked (fun p => bool_decide (is_u8 p.2)) demo_chans _ ltac:(by vm_compute)) in H.
    by apply bool_decide_eq_true in H.
  - intros c t H.
    apply (checked (fun p => bool_decide (":"%char ∉ String.list_ascii_of_string p.1)) demo_chans _
             ltac:(by vm_compute)) in H.
    by apply bool_decide_eq_true in H.
  - intros c t c' t' H H' E. assert ((c, t) = (c', t')) as [= -> ->]; [|done].
    by apply (images_apart (fun p => channelToNum p.1 p.2) demo_chans); [vm_compute|..].
  - intros c t H.
    apply (checked (fun p => negb (channelToNum p.1 p.2 =? 0)) demo_chans _ ltac:(by vm_compute)) in H.
    by apply negb_true_iff, Z.eqb_neq in H.
  - intros u H. apply (checked (fun u => bool_decide (u <> "")) demo_users _ ltac:(by vm_compute)) in H.
    by apply bool_decide_eq_true in H.
  - intros u H.
    apply (checked (fun u => bool_decide (0 < HashWithString u < MaxUint64)) demo_users _ ltac:(by vm_compute)) in H.
    by apply bool_decide_eq_true in H.
  - intros u u'. by apply (images_apart HashWithString demo_users); vm_compute.
Defined.

Module MemberProps.

(** C3. For channels and users in use that are told apart by their hashes (which are not
    zero and, for users, not the greatest number), channels having an id without a colon and
    a type of one byte, users a uid that is not empty: from an empty database, every
    sequence of calls of the subscriber, deny and allow lists and of the permission cache,
    on those channels and users and with times that are positive 63-bit numbers, returns (it
    never panics), and its answers are those of three abstract lists: [Exist*] is
    membership, [Get*] the members with their latest times in the order of their hashes,
    [GetSubscriberCount] their number, and a [HasAllowlist] that says no is right. A call
    reports an error only if the store can fail, and then nothing has changed. This holds
    for any number of shards from 1 to below 2^32, any cache size and clock, and whatever
    the cache evicts, expires or invalidates on the way. (With a colon in an id cache keys
    collide: [permission_keys_collide].) *)
Theorem member_lists_refine {N : Names} {DB} {P : Pebble DB} {PL : PebbleLaws DB}
    {C} {L : LRU PermissionCacheItem C} {LL : LRULaws PermissionCacheItem C}
    (dbs : list DB) (maxCacheSize : Z) (clock : nat -> Z) (os : list mop) :
  (0 < length dbs)%nat -> Z.of_nat (length dbs) < 2 ^ 32 ->
  (forall db, db ∈ dbs -> kv_map db = ∅) -> Forall named os ->
  exists (wk : wukongDB (DB := DB) (C := C)) answers S,
    execs (mkWukongDB dbs (NewPermissionCache maxCacheSize clock)) os = Ok (wk, answers) /\
    asteps (DB := DB) no_members os answers S.
Proof.
  intros Hl Hl' Hdb Hos.
  destruct (execs_sim (C := C) no_members (mkWukongDB dbs (NewPermissionCache maxCacheSize clock)) os)
    as (wk & aa & S & E & Ha & _); [|done|eauto].
  apply empty_rep; try done. unfold items. apply lru_new_law.
Qed.

Definition demo_member (u : string) (t : Z) : Member := mkMember 0 u (Some t) None.

Lemma member_lists_refine_witness :
  exists (wk : wukongDB (DB := kvmap) (C := lru_list PermissionCacheItem)) answers S,
    execs (mkWukongDB [∅; ∅] (NewPermissionCache 1 (fun n => Z.of_nat n)))
      [MAdd Denied "g" 2 [demo_member "a" 5; demo_member "b" 6]; MRemove Denied "g" 2 ["a"];
       MExist Denied "g" 2 "a"; MExist Denied "g" 2 "b"; MGet Denied "g" 2] = Ok (wk, answers) /\
    asteps (DB := kvmap) no_members
      [MAdd Denied "g" 2 [demo_member "a" 5; demo_member "b" 6]; MRemove Denied "g" 2 ["a"];
       MExist Denied "g" 2 "a"; MExist Denied "g" 2 "b"; MGet Denied "g" 2] answers S.
Proof.
  apply member_lists_refine; [simpl; lia|simpl; lia|..].
  - intros db Hdb. by repeat (apply elem_of_cons in Hdb as [->|Hdb]; [done|]); apply not_elem_of_nil in Hdb.
  - assert (Hg : Chan "g" 2) by (by left). assert (Ha : User "a") by (by left).
    assert (Hb : User "b") by (by right; left).
    assert (Hm : forall u z, User u -> 0 < z < 2 ^ 63 -> new_member (demo_member u z)).
    { intros u z Hu Hz. split; [done|]. by split; [intros x [= <-]|intros x]. }
    rewrite !Forall_cons, !Forall_nil. cbn [named]. rewrite !Forall_cons, !Forall_nil.
    split_and!; try done; apply Hm; (done || lia).
Defined.

(** The final answers of a run on a store of one shard. *)
Definition answers_of (os : list mop) : res (list answer) :=
  let! (_, aa) := execs (mkWukongDB [∅ : kvmap]
    (NewPermissionCache (C := lru_list PermissionCacheItem) 100 (fun n => Z.of_nat n))) os in Ok aa.

(** The member is removed and the allow list is empty again, but
    [HasAllowlist] goes on saying that there is one: [RemoveAllowlist] caches that
    the user is gone and leaves the cached answer about the list. *)
Theorem has_allowlist_stale :
  answers_of [MAdd Allowed "g" 2 [demo_member "a" 5]; MRemove Allowed "g" 2 ["a"];
              MGet Allowed "g" 2; MHasAllowlist "g" 2] =
  Ok [ADone; ADone; AMembers []; ABool true].
Proof. by vm_compute. Qed.

(** The value of the column that counts the denied users of a channel. *)
Definition deny_count (os : list mop) (c : string) (t : Z) : res (option bytes) :=
  let! (wk, _) := execs (mkWukongDB [∅ : kvmap]
    (NewPermissionCache (C := lru_list PermissionCacheItem) 100 (fun n => Z.of_nat n))) os in
  let! k := NewChannelInfoColumnKey (getChannelPrimaryKey c t) (column TableChannelInfo "DenylistCount") in
  Ok (match wk_dbs wk with
      | db :: _ => (db : kvmap) !! k
      | [] => None
      end).

(** The count of a deny list is not the number of its members: with two
    members on the list, removing a user who is not on it sets the count to 0 (an
    increment of 0 means "reset"), and adding a member again counts it twice. *)
Theorem counts_drift :
  let two := [MAdd Denied "g" 2 [demo_member "a" 5; demo_member "b" 6]] in
  deny_count two "g" 2 = Ok (Some (be_bytes 4 2)) /\
  deny_count (two ++ [MRemove Denied "g" 2 ["x"]]) "g" 2 = Ok (Some (be_bytes 4 0)) /\
  deny_count (two ++ [MAdd Denied "g" 2 [demo_member "a" 7]]) "g" 2 = Ok (Some (be_bytes 4 3)) /\
  answers_of (two ++ [MRemove Denied "g" 2 ["x"]; MExist Denied "g" 2 "a"]) =
    Ok [ADone; ADone; ABool true].
Proof. by vm_compute. Qed.

(** Two users of two channels share a cache key when the id of a channel has
    a colon: denying the user "x" in channel "a:1" of type 2 makes the user "2:x"
    denied in channel "a" of type 1, whose deny list is empty. *)
Theorem permission_keys_collide :
  getPermissionKey PermissionTypeDenylist "a:1" 2 "x" = getPermissionKey PermissionTypeDenylist "a" 1 "2:x" /\
  answers_of [MAdd Denied "a:1" 2 [demo_member "x" 5]; MGet Denied "a" 1; MExist Denied "a" 1 "2:x"] =
    Ok [ADone; AMembers []; ABool true].
Proof. by vm_compute. Qed.
End MemberProps.
