(* ===== verification/WkModel.v ===== *)
(** * The records of the database and their encodings

    [pkg/wkdb/model.go]: messages, devices, users, channels, conversations, sessions,
    the cluster configuration of a channel, members, testers and plugins, with the
    methods that encode and decode them.  They travel inside the logs of the slots
    and channels ([StoreCmd]).

    Times are nanoseconds since 1970, [None] a nil pointer.  [UnixNano] is a 64 bit
    integer; a time that was decoded is the instant [time.Unix] gives.  The packet
    of a message and its frame are those of [wkproto] ([Frames]). *)

From Stdlib Require Import Strings.Byte.
From S2P Require Import Prelude RaftTypes WkProto RaftCodec ClusterConfig WkMembers.

(** ** Data *)

(** [pkg/wkdb/model.go] [Device] *)
Record Device := mkDevice {
  dv_Id : Z;
  dv_Uid : string;
  dv_Token : string;
  dv_TokenVersion : Z;
  dv_DeviceFlag : Z;
  dv_DeviceLevel : Z;
  dv_ConnCount : Z;
  dv_SendMsgCount : Z;
  dv_RecvMsgCount : Z;
  dv_SendMsgBytes : Z;
  dv_RecvMsgBytes : Z;
  dv_CreatedAt : option Z;
  dv_UpdatedAt : option Z
}.

(** [pkg/wkdb/model.go] [User] *)
Record User := mkUser {
  us_Id : Z;
  us_Uid : string;
  us_DeviceCount : Z;
  us_OnlineDeviceCount : Z;
  us_ConnCount : Z;
  us_SendMsgCount : Z;
  us_RecvMsgCount : Z;
  us_SendMsgBytes : Z;
  us_RecvMsgBytes : Z;
  us_PluginNo : string;
  us_CreatedAt : option Z;
  us_UpdatedAt : option Z
}.

(** [pkg/wkdb/model.go] [ChannelInfo] *)
Record ChannelInfo := mkChannelInfo {
  ci_Id : Z;
  ci_ChannelId : string;
  ci_ChannelType : Z;
  ci_Ban : bool;
  ci_Large : bool;
  ci_Disband : bool;
  ci_SubscriberCount : Z;
  ci_DenylistCount : Z;
  ci_AllowlistCount : Z;
  ci_LastMsgSeq : Z;
  ci_LastMsgTime : Z;
  ci_Webhook : string;
  ci_SendBan : bool;
  ci_AllowStranger : bool;
  ci_CreatedAt : option Z;
  ci_UpdatedAt : option Z
}.

(** [pkg/wkdb/model.go] [NewChannelInfo] *)
Definition NewChannelInfo (channelId : string) (channelType : Z) : ChannelInfo :=
  mkChannelInfo 0 channelId channelType false false false 0 0 0 0 0 "" false false None None.

(** [pkg/wkdb/model.go] [Session]

    Times of a session are seconds. *)
Record Session := mkSession {
  se_Id : Z;
  se_SessionType : Z;
  se_Uid : string;
  se_ChannelId : string;
  se_ChannelType : Z;
  se_CreatedAt : Z;
  se_UpdatedAt : Z
}.

(** [pkg/wkdb/model.go] [Conversation] *)
Record Conversation := mkConversation {
  cv_Id : Z;
  cv_Uid : string;
  cv_Type : Z;
  cv_ChannelId : string;
  cv_ChannelType : Z;
  cv_UnreadCount : Z;
  cv_ReadToMsgSeq : Z;
  cv_DeletedAtMsgSeq : Z;
  cv_CreatedAt : option Z;
  cv_UpdatedAt : option Z
}.

(** [pkg/wkdb/model.go] [ConversationType] *)
Definition ConversationTypeChat : Z := 0.
Definition ConversationTypeCMD : Z := 1.

(** [pkg/wkdb/model.go] [ChannelClusterConfig] *)
Record ChannelClusterConfig := mkChannelClusterConfig {
  cl_Id : Z;
  cl_ChannelId : string;
  cl_ChannelType : Z;
  cl_ReplicaMaxCount : Z;
  cl_Replicas : list Z;
  cl_Learners : list Z;
  cl_LeaderId : Z;
  cl_Term : Z;
  cl_MigrateFrom : Z;
  cl_MigrateTo : Z;
  cl_Status : Z;
  cl_ConfVersion : Z;
  cl_CreatedAt : option Z;
  cl_UpdatedAt : option Z;
  cl_version : Z
}.

(** [pkg/wkdb/model.go] [(c *ChannelClusterConfig) Equal]

    Times and the version of the encoding are not compared. *)
Definition ChannelClusterConfig_Equal (c cfg : ChannelClusterConfig) : bool :=
  (cl_Id c =? cl_Id cfg) && bool_decide (cl_ChannelId c = cl_ChannelId cfg) &&
  (cl_ChannelType c =? cl_ChannelType cfg) && (cl_ReplicaMaxCount c =? cl_ReplicaMaxCount cfg) &&
  ArrayEqualUint64 (cl_Replicas c) (cl_Replicas cfg) && ArrayEqualUint64 (cl_Learners c) (cl_Learners cfg) &&
  (cl_LeaderId c =? cl_LeaderId cfg) && (cl_Term c =? cl_Term cfg) &&
  (cl_MigrateFrom c =? cl_MigrateFrom cfg) && (cl_MigrateTo c =? cl_MigrateTo cfg) &&
  (cl_Status c =? cl_Status cfg) && (cl_ConfVersion c =? cl_ConfVersion cfg).

(** [pkg/wkdb/model.go] [BatchUpdateConversationModel] *)
Record BatchUpdateConversationModel := mkBatchUpdate {
  bu_Uids : gmap string Z;
  bu_ChannelId : string;
  bu_ChannelType : Z
}.

(** [pkg/wkdb/model.go] [Channel] *)
Record Channel := mkChannel { ch_ChannelId : string; ch_ChannelType : Z }.

(** [pkg/wkdb/model.go] [Tester] *)
Record Tester := mkTester {
  te_Id : Z;
  te_No : string;
  te_Addr : string;
  te_CreatedAt : option Z;
  te_UpdatedAt : option Z
}.

(** [pkg/wkdb/model.go] [PluginUser] *)
Record PluginUser := mkPluginUser {
  pu_Uid : string;
  pu_PluginNo : string;
  pu_CreatedAt : option Z;
  pu_UpdatedAt : option Z
}.

(** [pkg/wkdb/model.go] [Plugin]

    [Cfg] is [map[string]interface{}]. *)
Record Plugin (Cfg : Type) := mkPlugin {
  pl_No : string;
  pl_Name : string;
  pl_ConfigTemplate : bytes;
  pl_CreatedAt : option Z;
  pl_UpdatedAt : option Z;
  pl_Status : Z;
  pl_Version : string;
  pl_Methods : list string;
  pl_Priority : Z;
  pl_Config : option Cfg
}.
Arguments mkPlugin {Cfg}.
Arguments pl_No {Cfg}.
Arguments pl_Name {Cfg}.
Arguments pl_ConfigTemplate {Cfg}.
Arguments pl_CreatedAt {Cfg}.
Arguments pl_UpdatedAt {Cfg}.
Arguments pl_Status {Cfg}.
Arguments pl_Version {Cfg}.
Arguments pl_Methods {Cfg}.
Arguments pl_Priority {Cfg}.
Arguments pl_Config {Cfg}.

(** [pkg/wkdb/message_event.go] [MessageEvent] *)
Record MessageEvent := mkMessageEvent {
  me_ChannelId : string;
  me_ChannelType : Z;
  me_ClientMsgNo : string;
  me_MsgEventSeq : Z;
  me_EventID : string;
  me_EventKey : string;
  me_EventType : string;
  me_Visibility : string;
  me_OccurredAt : Z;
  me_Payload : bytes;
  me_Headers : gmap string string
}.

(** ** Encodings *)

(** 32 bit integers of [wkproto] with a sign. *)
Class WkProtoInt32 := { WriteInt32 : Z -> bytes; Int32 : Decoder Z }.
Definition is_i32 (z : Z) : Prop := - 2147483648 <= z < 2147483648.
Class WkProtoInt32Laws (I : WkProtoInt32) := { Int32_reads v : is_i32 v -> reads Int32 (WriteInt32 v) v }.

(** The packets of [wkproto] and their frames: [EncodeFrame] writes the latest
    version; a frame may be of another kind ([Some None]). *)
Class Frames := {
  Packet : Type;
  MessageID : Packet -> Z;
  LatestVersion : Z;
  EncodeFrame : Packet -> option bytes;
  DecodeFrame : bytes -> Z -> option (option Packet)
}.
Class FramesLaws (F : Frames) := {
  LatestVersion_small : 0 < LatestVersion <= 155;
  Frame_reads p bs : EncodeFrame p = Some bs -> DecodeFrame bs LatestVersion = Some (Some p)
}.

Section Codecs.
Context {W : WkProto} {I : WkProtoInt32} {F : Frames}.

Definition write_time (t : option Z) : bytes :=
  WriteUint64 (match t with Some t => u64 t | None => 0 end).
Definition time_of (v : Z) : option Z := if 0 <? v then Some v else None.
Definition read_time : Decoder (option Z) := do! v <- Uint64; dret (time_of v).

(** The end of a decoder: the rest is ignored. *)
Definition run_dec {A} (d : Decoder A) (data : bytes) : option A := fst <$> d data.

(** A decoder of data that was decoded already. *)
Definition dinner {A} (dec : bytes -> option A) (d : Decoder bytes) : Decoder A := fun s =>
  match d s with
  | Some (b, rest) => match dec b with Some a => Some (a, rest) | None => None end
  | None => None
  end.

(** [pkg/wkdb/model.go] [Message] *)
Record Message := mkMessage { ms_RecvPacket : Packet; ms_Term : Z; ms_SearchOutbox : bool; ms_version : Z }.

Definition messageDataVersionLegacy : Z := 0.
Definition messageDataVersionSearchOutbox : Z := 1.

(** [pkg/wkdb/model.go] [(m *Message) Marshal] *)
Definition Message_Marshal (m : Message) : option bytes :=
  data ← EncodeFrame (ms_RecvPacket m);
  let dataVersion := if ms_SearchOutbox m then messageDataVersionSearchOutbox else ms_version m in
  if messageDataVersionSearchOutbox <? dataVersion then None
  else Some (WriteUint8 (u8 (LatestVersion + 100)) ++ WriteUint8 dataVersion ++ WriteUint32 (u32 (len data)) ++
             WriteBytes data ++ WriteUint64 (ms_Term m) ++
             (if messageDataVersionSearchOutbox <=? dataVersion
              then WriteUint8 (if ms_SearchOutbox m then 1 else 0) else [])).

(** [pkg/wkdb/model.go] [lines 34-75]

    The version of the protocol, that of the data, and the frame. *)
Definition Message_head : Decoder (Z * Z * bytes) :=
  do! version <- Uint8;
  if 100 <? version then
    do! dataVersion <- Uint8;
    if messageDataVersionSearchOutbox <? dataVersion then fun _ => None
    else do! n <- Uint32; do! data <- Bytes n; dret (version - 100, dataVersion, data)
  else do! data <- Binary; dret (version, messageDataVersionLegacy, data).

(** [pkg/wkdb/model.go] [(m *Message) Unmarshal] *)
Definition Message_Unmarshal (data : bytes) : option Message :=
  run_dec (do! (version, dataVersion, recvPacketData) <- Message_head;
    match DecodeFrame recvPacketData version with
    | Some (Some recvPacket) =>
        do! term <- Uint64;
        if messageDataVersionSearchOutbox <=? dataVersion then
          do! flag <- Uint8;
          if flag =? 0 then dret (mkMessage recvPacket term false dataVersion)
          else if flag =? 1 then dret (mkMessage recvPacket term true dataVersion)
          else fun _ => None
        else dret (mkMessage recvPacket term false dataVersion)
    | _ => fun _ => None
    end) data.

(** [pkg/wkdb/model.go] [(s *Session) Marshal] *)
Definition Session_Marshal (s : Session) : bytes :=
  WriteUint64 (se_Id s) ++ WriteUint8 (se_SessionType s) ++ WriteString (se_Uid s) ++
  WriteString (se_ChannelId s) ++ WriteUint8 (se_ChannelType s) ++ WriteInt64 (se_CreatedAt s) ++
  WriteInt64 (se_UpdatedAt s).

(** [pkg/wkdb/model.go] [(s *Session) Unmarshal] *)
Definition Session_Unmarshal (data : bytes) : option Session :=
  run_dec (do! id <- Uint64; do! sessionType <- Uint8; do! uid <- String_; do! channelId <- String_;
           do! channelType <- Uint8; do! createdAt <- Int64; do! updatedAt <- Int64;
           dret (mkSession id sessionType uid channelId channelType createdAt updatedAt)) data.

(** [pkg/wkdb/model.go] [(c *Conversation) Marshal]

    [DeletedAtMsgSeq] is not encoded. *)
Definition Conversation_Marshal (c : Conversation) : option bytes :=
  if bool_decide (cv_Uid c = "") then None
  else Some (WriteUint64 (cv_Id c) ++ WriteString (cv_Uid c) ++ WriteUint8 (cv_Type c) ++
             WriteString (cv_ChannelId c) ++ WriteUint8 (cv_ChannelType c) ++ WriteUint32 (cv_UnreadCount c) ++
             WriteUint64 (cv_ReadToMsgSeq c) ++ write_time (cv_CreatedAt c) ++ write_time (cv_UpdatedAt c)).

(** [pkg/wkdb/model.go] [(c *Conversation) Unmarshal] *)
Definition Conversation_Unmarshal (data : bytes) : option Conversation :=
  c ← run_dec (do! id <- Uint64; do! uid <- String_; do! t <- Uint8; do! channelId <- String_;
               do! channelType <- Uint8; do! unreadCount <- Uint32; do! readToMsgSeq <- Uint64;
               do! createdAt <- read_time; do! updatedAt <- read_time;
               dret (mkConversation id uid t channelId channelType unreadCount readToMsgSeq 0 createdAt updatedAt)) data;
  if bool_decide (cv_Uid c = "") then None else Some c.

(** A list whose elements are encoded one after the other, or an error. *)
Fixpoint marshal_all {A} (enc : A -> option bytes) (l : list A) : option bytes :=
  match l with
  | [] => Some []
  | x :: l => data ← enc x; more ← marshal_all enc l; Some (WriteBinary data ++ more)
  end.

(** [pkg/wkdb/model.go] [(c ConversationSet) Marshal]

    The number of conversations is cut to 16 bits. *)
Definition ConversationSet_Marshal (c : list Conversation) : option bytes :=
  more ← marshal_all Conversation_Marshal c; Some (WriteUint16 (u16 (len c)) ++ more).

(** [pkg/wkdb/model.go] [(c *ConversationSet) Unmarshal] *)
Definition ConversationSet_Unmarshal (data : bytes) : option (list Conversation) :=
  run_dec (do! size <- Uint16; drepeat (Z.to_nat size) (dinner Conversation_Unmarshal Binary)) data.

Definition write_ids (l : list Z) : bytes := WriteUint16 (u16 (len l)) ++ mjoin (WriteUint64 <$> l).
Definition read_ids : Decoder (list Z) := do! n <- Uint16; drepeat (Z.to_nat n) Uint64.

(** [pkg/wkdb/model.go] [(c *ChannelClusterConfig) Marshal]

    The id is not encoded. *)
Definition ChannelClusterConfig_Marshal (c : ChannelClusterConfig) : bytes :=
  WriteUint16 1 ++ WriteString (cl_ChannelId c) ++ WriteUint8 (cl_ChannelType c) ++
  WriteUint16 (cl_ReplicaMaxCount c) ++ write_ids (cl_Replicas c) ++ write_ids (cl_Learners c) ++
  WriteUint64 (cl_LeaderId c) ++ WriteUint32 (cl_Term c) ++ WriteUint64 (cl_MigrateFrom c) ++
  WriteUint64 (cl_MigrateTo c) ++ WriteUint8 (cl_Status c) ++ WriteUint64 (cl_ConfVersion c) ++
  write_time (cl_CreatedAt c) ++ write_time (cl_UpdatedAt c).

(** [pkg/wkdb/model.go] [(c *ChannelClusterConfig) Unmarshal] *)
Definition ChannelClusterConfig_Unmarshal (data : bytes) : option ChannelClusterConfig :=
  run_dec (do! version <- Uint16; do! channelId <- String_; do! channelType <- Uint8;
           do! replicaMaxCount <- Uint16; do! replicas <- read_ids; do! learners <- read_ids;
           do! leaderId <- Uint64; do! term <- Uint32; do! migrateFrom <- Uint64; do! migrateTo <- Uint64;
           do! status <- Uint8; do! confVersion <- Uint64; do! createdAt <- read_time; do! updatedAt <- read_time;
           dret (mkChannelClusterConfig 0 channelId channelType replicaMaxCount replicas learners leaderId term
                   migrateFrom migrateTo status confVersion createdAt updatedAt version)) data.

(** [pkg/wkdb/model.go] [(m *Member) Marshal]

    The version of the data, a private field, is an argument. *)
Definition Member_Marshal (version : Z) (m : Member) : option bytes :=
  Some (WriteUint16 version ++ WriteUint64 (mb_Id m) ++ WriteString (mb_Uid m) ++
        write_time (mb_CreatedAt m) ++ write_time (mb_UpdatedAt m)).

(** [pkg/wkdb/model.go] [(m *Member) Unmarshal] *)
Definition Member_Unmarshal (data : bytes) : option (Z * Member) :=
  run_dec (do! version <- Uint16; do! id <- Uint64; do! uid <- String_; do! createdAt <- read_time;
           do! updatedAt <- read_time; dret (version, mkMember id uid createdAt updatedAt)) data.

(** [pkg/wkdb/model.go] [(t *Tester) Marshal] *)
Definition Tester_Marshal (t : Tester) : bytes :=
  WriteUint64 (te_Id t) ++ WriteString (te_No t) ++ WriteString (te_Addr t).

(** [pkg/wkdb/model.go] [(t *Tester) Unmarshal] *)
Definition Tester_Unmarshal (data : bytes) : option Tester :=
  run_dec (do! id <- Uint64; do! no <- String_; do! addr <- String_; dret (mkTester id no addr None None)) data.

(** The entries of a map, in the order [order] of its iteration. *)
Definition write_uids (order : gmap string Z -> list (string * Z)) (m : gmap string Z) : bytes :=
  WriteUint16 (u16 (Z.of_nat (size m))) ++ mjoin ((fun '(uid, seq) => WriteString uid ++ WriteUint64 seq) <$> order m).
Definition read_uids : Decoder (gmap string Z) :=
  do! n <- Uint16;
  do! l <- drepeat (Z.to_nat n) (do! uid <- String_; do! seq <- Uint64; dret (uid, seq));
  dret (foldl (fun m '(uid, seq) => <[uid := seq]> m) ∅ l).

(** [pkg/wkdb/model.go] [(u *BatchUpdateConversationModel) Marshal] *)
Definition BatchUpdate_Marshal (order : gmap string Z -> list (string * Z)) (u : BatchUpdateConversationModel) : bytes :=
  write_uids order (bu_Uids u) ++ WriteString (bu_ChannelId u) ++ WriteUint8 (bu_ChannelType u).

(** [pkg/wkdb/model.go] [(u *BatchUpdateConversationModel) Unmarshal] *)
Definition BatchUpdate_dec : Decoder BatchUpdateConversationModel :=
  do! uids <- read_uids; do! channelId <- String_; do! channelType <- Uint8;
  dret (mkBatchUpdate uids channelId channelType).
End Codecs.
