(* ===== verification/StoreCmd.v ===== *)
(** * The commands of the store

    [pkg/cluster/store/model.go] and [device_revoke.go]: the commands that the logs
    of the slots carry, with their encoders and decoders.  A decoder that fails has
    no result; the callers ignore what it had read.

    [encoding/json] is an interface ([Json]): what is written is read back unless it
    holds something JSON cannot express, such as a string that is not UTF-8.  The
    order in which Go visits a map is an oracle ([StrRange]). *)

From Stdlib Require Import Strings.Byte.
From S2P Require Import Prelude RaftTypes WkProto RaftCodec ClusterConfig WkMembers WkModel.

(** ** Interfaces *)

(** [json.Marshal] and [json.Unmarshal] at a type. *)
Class Json (A : Type) := {
  json_Marshal : A -> option bytes;
  json_Unmarshal : bytes -> option A;
  json_expressible : A -> Prop
}.
Class JsonLaws {A} (J : Json A) := {
  json_reads a bs : json_expressible a -> json_Marshal a = Some bs -> json_Unmarshal bs = Some a
}.

(** The entries of a map in the order of its [i]-th iteration. *)
Class StrRange := { srange : forall {V}, nat -> gmap string V -> list (string * V) }.
Class StrRangeLaws (R : StrRange) := {
  srange_perm {V} i (m : gmap string V) : srange i m ≡ₚ map_to_list m
}.

(** ** Commands *)

(** [pkg/cluster/store/model.go] [lines 15-105] *)
Inductive SCMDType :=
| CMDUnknown | CMDAddDevice | CMDUpdateDevice | CMDAddUser | CMDUpdateUser | CMDAddChannelInfo
| CMDUpdateChannelInfo | CMDAddSubscribers | CMDRemoveSubscribers | CMDRemoveAllSubscriber
| CMDDeleteChannel | CMDAddDenylist | CMDRemoveDenylist | CMDRemoveAllDenylist | CMDAddAllowlist
| CMDRemoveAllowlist | CMDRemoveAllAllowlist | CMDAppendMessagesOfNotifyQueue
| CMDRemoveMessagesOfNotifyQueue | CMDDeleteChannelAndClearMessages | CMDAddOrUpdateUserConversations
| CMDDeleteConversation | CMDDeleteConversations | CMDSystemUIDsAdd | CMDSystemUIDsRemove
| cmdSaveStreamMetaRemoved | cmdStreamEndRemoved | cmdAppendStreamItemRemoved
| CMDChannelClusterConfigSave | CMDChannelClusterConfigDelete | CMDBatchUpdateConversation
| cmdAddStreamMetaRemoved | cmdAddStreamsRemoved | CMDAddOrUpdateConversations | CMDAddOrUpdateTester
| CMDRemoveTester | CMDUpdateUserPluginNo | CMDAddOrUpdatePlugin | CMDUpdatePluginConfig
| CMDRemovePluginUser | CMDAddOrUpdateConversationsBatchIfNotExist | CMDUpdateConversationDeletedAtMsgSeq
| cmdSaveStreamV2Removed | CMDAppendMessageEvent | CMDUpdateConversationIfSeqGreater
| CMDUpdateDeviceIfTokenMatches | CMDOther (z : Z).

#[export] Instance SCMDType_eq_dec : EqDecision SCMDType.
Proof. solve_decision. Defined.

(** The constants in order: the number of a command is its position. *)
Definition SCMDType_list : list SCMDType :=
  [CMDUnknown; CMDAddDevice; CMDUpdateDevice; CMDAddUser; CMDUpdateUser; CMDAddChannelInfo;
   CMDUpdateChannelInfo; CMDAddSubscribers; CMDRemoveSubscribers; CMDRemoveAllSubscriber;
   CMDDeleteChannel; CMDAddDenylist; CMDRemoveDenylist; CMDRemoveAllDenylist; CMDAddAllowlist;
   CMDRemoveAllowlist; CMDRemoveAllAllowlist; CMDAppendMessagesOfNotifyQueue;
   CMDRemoveMessagesOfNotifyQueue; CMDDeleteChannelAndClearMessages; CMDAddOrUpdateUserConversations;
   CMDDeleteConversation; CMDDeleteConversations; CMDSystemUIDsAdd; CMDSystemUIDsRemove;
   cmdSaveStreamMetaRemoved; cmdStreamEndRemoved; cmdAppendStreamItemRemoved;
   CMDChannelClusterConfigSave; CMDChannelClusterConfigDelete; CMDBatchUpdateConversation;
   cmdAddStreamMetaRemoved; cmdAddStreamsRemoved; CMDAddOrUpdateConversations; CMDAddOrUpdateTester;
   CMDRemoveTester; CMDUpdateUserPluginNo; CMDAddOrUpdatePlugin; CMDUpdatePluginConfig;
   CMDRemovePluginUser; CMDAddOrUpdateConversationsBatchIfNotExist; CMDUpdateConversationDeletedAtMsgSeq;
   cmdSaveStreamV2Removed; CMDAppendMessageEvent; CMDUpdateConversationIfSeqGreater;
   CMDUpdateDeviceIfTokenMatches].

(** [pkg/cluster/store/model.go] [(c CMDType) Uint16] *)
Definition SCMDType_num (t : SCMDType) : Z :=
  match t with
  | CMDOther z => z
  | _ => match list_find (fun t' => t = t') SCMDType_list with Some (i, _) => Z.of_nat i | None => 0 end
  end.
Definition SCMDType_of : Z -> SCMDType := enum_of SCMDType_list CMDOther.

(** [pkg/cluster/store/version.go] [CmdVersionChannelInfo] *)
Definition CmdVersionChannelInfo : Z := 3.
(** [pkg/cluster/store/version.go] [CmdVersionMessageEvent] *)
Definition CmdVersionMessageEvent : Z := 1.

(** [pkg/cluster/store/model.go] [CMD] *)
Record SCMD := mkSCMD { sc_CmdType : SCMDType; sc_Data : bytes; sc_version : Z }.

(** [pkg/cluster/store/model.go] [NewCMD] *)
Definition NewSCMD (cmdType : SCMDType) (data : bytes) : SCMD := mkSCMD cmdType data 0.
(** [pkg/cluster/store/model.go] [NewCMDWithVersion] *)
Definition NewSCMDWithVersion (cmdType : SCMDType) (data : bytes) (version : Z) : SCMD :=
  mkSCMD cmdType data version.

(** [pkg/cluster/store/device_revoke.go] [conditionalDeviceUpdate] *)
Record conditionalDeviceUpdate := mkConditional { cd_Device : Device; cd_Version : Z; cd_Hash : string }.

(** [encoding/hex]: [DecodeString]. *)
Definition hex_val (b : byte) : option Z :=
  let z := Z_of_byte b in
  if (48 <=? z) && (z <=? 57) then Some (z - 48)
  else if (97 <=? z) && (z <=? 102) then Some (z - 87)
  else if (65 <=? z) && (z <=? 70) then Some (z - 55)
  else None.
Fixpoint hex_bytes (l : bytes) : option bytes :=
  match l with
  | [] => Some []
  | a :: b :: l => x ← hex_val a; y ← hex_val b; more ← hex_bytes l; Some (byte_of_Z (16 * x + y) :: more)
  | _ => None
  end.
Definition hex_DecodeString (s : string) : option bytes := hex_bytes (String.list_byte_of_string s).

Section StoreCodecs.
Context {W : WkProto} {I : WkProtoInt32}.

(** [pkg/cluster/store/model.go] [(c *CMD) Marshal]

    A command without a version gets version 1. *)
Definition SCMD_Marshal (c : SCMD) : bytes :=
  WriteUint16 (if sc_version c =? 0 then 1 else sc_version c) ++ WriteUint16 (SCMDType_num (sc_CmdType c)) ++
  WriteBytes (sc_Data c).

(** [pkg/cluster/store/model.go] [(c *CMD) Unmarshal] *)
Definition SCMD_Unmarshal (data : bytes) : option SCMD :=
  run_dec (do! version <- Uint16; do! cmdType <- Uint16; do! d <- BinaryAll;
           dret (mkSCMD (SCMDType_of cmdType) d version)) data.

(** The type of a command is set as soon as it is read. *)
Definition SCMD_type_read (data : bytes) : SCMDType :=
  match run_dec (do! _ <- Uint16; Uint16) data with Some t => SCMDType_of t | None => CMDUnknown end.

(** [pkg/cluster/store/device_revoke.go] [slotLogDiagnosticData]

    The text that replaces the data is in Chinese. *)
Definition slotLogDiagnosticData (redacted data : bytes) : bytes :=
  if bool_decide (SCMD_type_read data = CMDUpdateDeviceIfTokenMatches) then redacted else data.

(** ** Members and channels *)

(** [pkg/cluster/store/model.go] [EncodeMembers]

    The private version of a member is 0 outside the package of the database. *)
Definition EncodeMembers (channelId : string) (channelType : Z) (members : list Member) : bytes :=
  match marshal_all (Member_Marshal 0) members with
  | Some data => WriteString channelId ++ WriteUint8 channelType ++ WriteUint32 (u32 (len members)) ++ data
  | None => []
  end.
(** [pkg/cluster/store/model.go] [(c *CMD) DecodeMembers] *)
Definition DecodeMembers (c : SCMD) : option (string * Z * list Member) :=
  run_dec (do! channelId <- String_; do! channelType <- Uint8; do! count <- Uint32;
           do! members <- drepeat (Z.to_nat count) (dinner (fun d => snd <$> Member_Unmarshal d) Binary);
           dret (channelId, channelType, members)) (sc_Data c).

(** [pkg/cluster/store/model.go] [EncodeChannelUids] *)
Definition EncodeChannelUids (channelId : string) (channelType : Z) (uids : list string) : bytes :=
  WriteString channelId ++ WriteUint8 channelType ++ WriteUint32 (u32 (len uids)) ++ mjoin (WriteString <$> uids).
(** [pkg/cluster/store/model.go] [(c *CMD) DecodeChannelUids] *)
Definition DecodeChannelUids (c : SCMD) : option (string * Z * list string) :=
  run_dec (do! channelId <- String_; do! channelType <- Uint8; do! count <- Uint32;
           do! uids <- drepeat (Z.to_nat count) String_; dret (channelId, channelType, uids)) (sc_Data c).

(** [pkg/cluster/store/model.go] [EncodeChannel] *)
Definition EncodeChannel (channelId : string) (channelType : Z) : bytes :=
  WriteString channelId ++ WriteUint8 channelType.
(** [pkg/cluster/store/model.go] [(c *CMD) DecodeChannel] *)
Definition DecodeChannel (c : SCMD) : option (string * Z) :=
  run_dec (do! channelId <- String_; do! channelType <- Uint8; dret (channelId, channelType)) (sc_Data c).

(** [pkg/cluster/store/model.go] [EncodeChannelInfo] *)
Definition EncodeChannelInfo (c : ChannelInfo) (version : Z) : bytes :=
  WriteString (ci_ChannelId c) ++ WriteUint8 (ci_ChannelType c) ++ WriteUint8 (BoolToUint8 (ci_Ban c)) ++
  WriteUint8 (BoolToUint8 (ci_Large c)) ++ WriteUint8 (BoolToUint8 (ci_Disband c)) ++
  write_time (ci_CreatedAt c) ++ write_time (ci_UpdatedAt c) ++
  (if 0 <? version then WriteString (ci_Webhook c) else []) ++
  (if 2 <? version
   then WriteUint8 (BoolToUint8 (ci_AllowStranger c)) ++ WriteUint8 (BoolToUint8 (ci_SendBan c)) else []).
(** [pkg/cluster/store/model.go] [(c *CMD) DecodeChannelInfo]

    The version of the command says which fields there are. *)
Definition DecodeChannelInfo (c : SCMD) : option ChannelInfo :=
  run_dec (do! channelId <- String_; do! channelType <- Uint8; do! ban <- Uint8; do! large <- Uint8;
           do! disband <- Uint8; do! createdAt <- read_time; do! updatedAt <- read_time;
           do! webhook <- dopt (0 <? sc_version c) String_ "";
           do! (allowStranger, sendBan) <-
             dopt (2 <? sc_version c) (do! a <- Uint8; do! s <- Uint8; dret (Uint8ToBool a, Uint8ToBool s)) (false, false);
           dret (mkChannelInfo 0 channelId channelType (Uint8ToBool ban) (Uint8ToBool large) (Uint8ToBool disband)
                   0 0 0 0 0 webhook sendBan allowStranger createdAt updatedAt)) (sc_Data c).

(** [pkg/cluster/store/model.go] [EncodeCMDChannelClusterConfigSave] *)
Definition EncodeCMDChannelClusterConfigSave (channelID : string) (channelType : Z) (data : bytes) : bytes :=
  WriteString channelID ++ WriteUint8 channelType ++ WriteBytes data.
(** [pkg/cluster/store/model.go] [(c *CMD) DecodeCMDChannelClusterConfigSave] *)
Definition DecodeCMDChannelClusterConfigSave (c : SCMD) : option (string * Z * bytes) :=
  run_dec (do! channelID <- String_; do! channelType <- Uint8; do! data <- BinaryAll;
           dret (channelID, channelType, data)) (sc_Data c).

(** ** Users and devices *)

(** [pkg/cluster/store/model.go] [EncodeCMDUser] *)
Definition EncodeCMDUser (u : User) : bytes :=
  WriteUint64 (us_Id u) ++ WriteString (us_Uid u) ++ write_time (us_CreatedAt u) ++ write_time (us_UpdatedAt u).
(** [pkg/cluster/store/model.go] [(c *CMD) DecodeCMDUser] *)
Definition DecodeCMDUser (c : SCMD) : option User :=
  run_dec (do! id <- Uint64; do! uid <- String_; do! createdAt <- read_time; do! updatedAt <- read_time;
           dret (mkUser id uid 0 0 0 0 0 0 0 "" createdAt updatedAt)) (sc_Data c).

(** [pkg/cluster/store/model.go] [EncodeCMDDevice] *)
Definition EncodeCMDDevice (d : Device) : bytes :=
  WriteUint64 (dv_Id d) ++ WriteString (dv_Uid d) ++ WriteUint64 (dv_DeviceFlag d) ++
  WriteUint8 (dv_DeviceLevel d) ++ WriteString (dv_Token d) ++ write_time (dv_CreatedAt d) ++
  write_time (dv_UpdatedAt d) ++ (if 0 <? dv_TokenVersion d then WriteUint64 (dv_TokenVersion d) else []).
(** [pkg/cluster/store/model.go] [lines 769-774]

    The version of the token, that older logs do not have. *)
Definition read_TokenVersion : Decoder Z := fun s =>
  if 0 <? len s then if len s =? 8 then Uint64 s else None else Some (0, s).
(** [pkg/cluster/store/model.go] [(c *CMD) DecodeCMDDevice] *)
Definition DecodeCMDDevice (c : SCMD) : option Device :=
  run_dec (do! id <- Uint64; do! uid <- String_; do! deviceFlag <- Uint64; do! deviceLevel <- Uint8;
           do! token <- String_; do! createdAt <- read_time; do! updatedAt <- read_time;
           do! tokenVersion <- read_TokenVersion;
           dret (mkDevice id uid token tokenVersion deviceFlag deviceLevel 0 0 0 0 0 createdAt updatedAt)) (sc_Data c).

(** [pkg/cluster/store/model.go] [EncodeCMDUserAndDevice] *)
Definition EncodeCMDUserAndDevice (id : Z) (uid : string) (deviceFlag deviceLevel : Z) (token : string)
    (createdAt updatedAt : option Z) : bytes :=
  WriteUint64 id ++ WriteString uid ++ WriteUint64 deviceFlag ++ WriteUint8 deviceLevel ++ WriteString token ++
  write_time createdAt ++ write_time updatedAt.
(** [pkg/cluster/store/model.go] [(c *CMD) DecodeCMDUserAndDevice] *)
Definition DecodeCMDUserAndDevice (c : SCMD) : option (Z * string * Z * Z * string * option Z * option Z) :=
  run_dec (do! id <- Uint64; do! uid <- String_; do! deviceFlag <- Uint64; do! deviceLevel <- Uint8;
           do! token <- String_; do! createdAt <- read_time; do! updatedAt <- read_time;
           dret (id, uid, deviceFlag, deviceLevel, token, createdAt, updatedAt)) (sc_Data c).

(** [pkg/cluster/store/device_revoke.go] [(c *CMD) DecodeConditionalDevice] *)
Definition DecodeConditionalDevice {J : Json conditionalDeviceUpdate} (c : SCMD) : option (Device * Z * string) :=
  update ← json_Unmarshal (sc_Data c);
  hash ← hex_DecodeString (cd_Hash update);
  let d := cd_Device update in
  if negb (len hash =? 32) || (dv_Id d =? 0) || bool_decide (dv_Uid d = "") || bool_decide (dv_Token d = "") ||
     (dv_TokenVersion d <=? cd_Version update) || (9007199254740991 <=? dv_TokenVersion d)
  then None else Some (d, cd_Version update, cd_Hash update).

(** [pkg/cluster/store/model.go] [EncodeCMDUpdateMessageOfUserCursorIfNeed] *)
Definition EncodeCMDUpdateMessageOfUserCursorIfNeed (uid : string) (messageSeq : Z) : bytes :=
  WriteString uid ++ WriteUint64 messageSeq.
(** [pkg/cluster/store/model.go] [(c *CMD) DecodeCMDUpdateMessageOfUserCursorIfNeed] *)
Definition DecodeCMDUpdateMessageOfUserCursorIfNeed (c : SCMD) : option (string * Z) :=
  run_dec (do! uid <- String_; do! messageSeq <- Uint64; dret (uid, messageSeq)) (sc_Data c).

(** [pkg/cluster/store/model.go] [EncodeCMDSystemUIDs] *)
Definition EncodeCMDSystemUIDs (uids : list string) : bytes :=
  WriteUint32 (u32 (len uids)) ++ mjoin (WriteString <$> uids).
(** [pkg/cluster/store/model.go] [(c *CMD) DecodeCMDSystemUIDs] *)
Definition DecodeCMDSystemUIDs (c : SCMD) : option (list string) :=
  run_dec (do! count <- Uint32; drepeat (Z.to_nat count) String_) (sc_Data c).

(** ** Conversations *)

(** [pkg/cluster/store/model.go] [EncodeCMDAddOrUpdateUserConversations] *)
Definition EncodeCMDAddOrUpdateUserConversations (uid : string) (conversations : list Conversation) : option bytes :=
  data ← marshal_all Conversation_Marshal conversations;
  Some (WriteString uid ++ WriteUint32 (u32 (len conversations)) ++ data).
(** [pkg/cluster/store/model.go] [(c *CMD) DecodeCMDAddOrUpdateUserConversations] *)
Definition DecodeCMDAddOrUpdateUserConversations (c : SCMD) : option (string * list Conversation) :=
  if len (sc_Data c) =? 0 then Some ("", [])
  else run_dec (do! uid <- String_; do! count <- Uint32;
                do! conversations <- drepeat (Z.to_nat count) (dinner Conversation_Unmarshal Binary);
                dret (uid, conversations)) (sc_Data c).

(** [pkg/cluster/store/model.go] [EncodeCMDAddOrUpdateConversations] *)
Definition EncodeCMDAddOrUpdateConversations (conversations : list Conversation) : option bytes :=
  ConversationSet_Marshal conversations.
(** [pkg/cluster/store/model.go] [(c *CMD) DecodeCMDAddOrUpdateConversations] *)
Definition DecodeCMDAddOrUpdateConversations (c : SCMD) : option (list Conversation) :=
  ConversationSet_Unmarshal (sc_Data c).

(** [pkg/cluster/store/model.go] [EncodeCMDDeleteConversation] *)
Definition EncodeCMDDeleteConversation (uid channelId : string) (channelType : Z) : bytes :=
  WriteString uid ++ WriteString channelId ++ WriteUint8 channelType.
(** [pkg/cluster/store/model.go] [(c *CMD) DecodeCMDDeleteConversation] *)
Definition DecodeCMDDeleteConversation (c : SCMD) : option (string * string * Z) :=
  run_dec (do! uid <- String_; do! channelId <- String_; do! channelType <- Uint8;
           dret (uid, channelId, channelType)) (sc_Data c).

(** [pkg/cluster/store/model.go] [EncodeCMDDeleteConversations] *)
Definition EncodeCMDDeleteConversations (uid : string) (channels : list Channel) : bytes :=
  WriteString uid ++ WriteInt32 (i32 (len channels)) ++
  mjoin ((fun ch => WriteString (ch_ChannelId ch) ++ WriteUint8 (ch_ChannelType ch)) <$> channels).
(** [pkg/cluster/store/model.go] [(c *CMD) DecodeCMDDeleteConversations] *)
Definition DecodeCMDDeleteConversations (c : SCMD) : option (string * list Channel) :=
  run_dec (do! uid <- String_; do! count <- Int32;
           do! channels <- drepeat (Z.to_nat count) (do! i <- String_; do! t <- Uint8; dret (mkChannel i t));
           dret (uid, channels)) (sc_Data c).

(** [pkg/cluster/store/model.go] [EncodeCMDBatchUpdateConversation] *)
Definition EncodeCMDBatchUpdateConversation {R : StrRange} (models : list BatchUpdateConversationModel) : bytes :=
  WriteUint32 (u32 (len models)) ++ mjoin (imap (fun i => BatchUpdate_Marshal (srange i)) models).
(** [pkg/cluster/store/model.go] [(c *CMD) DecodeCMDBatchUpdateConversation] *)
Definition DecodeCMDBatchUpdateConversation (c : SCMD) : option (list BatchUpdateConversationModel) :=
  run_dec (do! count <- Uint32; drepeat (Z.to_nat count) BatchUpdate_dec) (sc_Data c).

(** [pkg/cluster/store/model.go] [EncodeCMDAddOrUpdateConversationsWithChannel] *)
Definition EncodeCMDAddOrUpdateConversationsWithChannel (channelId : string) (channelType : Z)
    (subscribers : list string) (readToMsgSeq conversationType unreadCount createdAt updatedAt : Z) : bytes :=
  WriteString channelId ++ WriteUint8 channelType ++ WriteUint32 (u32 (len subscribers)) ++
  mjoin (WriteString <$> subscribers) ++ WriteUint64 readToMsgSeq ++ WriteUint8 conversationType ++
  WriteInt32 (i32 unreadCount) ++ WriteInt64 createdAt ++ WriteInt64 updatedAt.
(** [pkg/cluster/store/model.go] [(c *CMD) DecodeCMDAddOrUpdateConversationsWithChannel] *)
Definition DecodeCMDAddOrUpdateConversationsWithChannel (c : SCMD) :
    option (string * Z * list string * Z * Z * Z * Z * Z) :=
  run_dec (do! channelId <- String_; do! channelType <- Uint8; do! count <- Uint32;
           do! subscribers <- drepeat (Z.to_nat count) String_; do! readToMsgSeq <- Uint64;
           do! conversationType <- Uint8; do! unreadCount <- Int32; do! createdAt <- Int64; do! updatedAt <- Int64;
           dret (channelId, channelType, subscribers, readToMsgSeq, conversationType, unreadCount,
                 createdAt, updatedAt)) (sc_Data c).

(** [pkg/cluster/store/model.go] [EncodeCMDUpdateConversationDeletedAtMsgSeq] *)
Definition EncodeCMDUpdateConversationDeletedAtMsgSeq (uid channelId : string) (channelType deletedAtMsgSeq : Z) : bytes :=
  WriteString uid ++ WriteString channelId ++ WriteUint8 channelType ++ WriteUint64 deletedAtMsgSeq.
(** [pkg/cluster/store/model.go] [(c *CMD) DecodeCMDUpdateConversationDeletedAtMsgSeq] *)
Definition DecodeCMDUpdateConversationDeletedAtMsgSeq (c : SCMD) : option (string * string * Z * Z) :=
  run_dec (do! uid <- String_; do! channelId <- String_; do! channelType <- Uint8; do! seq <- Uint64;
           dret (uid, channelId, channelType, seq)) (sc_Data c).

(** [pkg/cluster/store/model.go] [EncodeCMDUpdateConversationIfSeqGreater] *)
Definition EncodeCMDUpdateConversationIfSeqGreater (uid channelId : string) (channelType readToMsgSeq : Z) : bytes :=
  WriteString uid ++ WriteString channelId ++ WriteUint8 channelType ++ WriteUint64 readToMsgSeq.
(** [pkg/cluster/store/model.go] [(c *CMD) DecodeCMDUpdateConversationIfSeqGreater] *)
Definition DecodeCMDUpdateConversationIfSeqGreater (c : SCMD) : option (string * string * Z * Z) :=
  run_dec (do! uid <- String_; do! channelId <- String_; do! channelType <- Uint8; do! seq <- Uint64;
           dret (uid, channelId, channelType, seq)) (sc_Data c).

(** ** Testers, plugins and message events *)

(** [pkg/cluster/store/model.go] [EncodeCMDAddOrUpdateTester]

    A nil time is dereferenced; the id is not encoded. *)
Definition EncodeCMDAddOrUpdateTester (tester : Tester) : res bytes :=
  match te_CreatedAt tester, te_UpdatedAt tester with
  | Some c, Some u => Ok (WriteString (te_No tester) ++ WriteString (te_Addr tester) ++ WriteUint64 (u64 c) ++
                          WriteUint64 (u64 u))
  | _, _ => Panic
  end.
(** [pkg/cluster/store/model.go] [(c *CMD) DecodeCMDAddOrUpdateTester] *)
Definition DecodeCMDAddOrUpdateTester (c : SCMD) : option Tester :=
  run_dec (do! no <- String_; do! addr <- String_; do! createdAt <- Uint64; do! updatedAt <- Uint64;
           dret (mkTester 0 no addr (Some createdAt) (Some updatedAt))) (sc_Data c).

(** [pkg/cluster/store/model.go] [EncodeCMDRemoveTester] *)
Definition EncodeCMDRemoveTester (no : string) : bytes := WriteString no.
(** [pkg/cluster/store/model.go] [(c *CMD) DecodeCMDRemoveTester] *)
Definition DecodeCMDRemoveTester (c : SCMD) : option string := run_dec String_ (sc_Data c).

(** [pkg/cluster/store/model.go] [EncodeCMDUserPluginNo] *)
Definition EncodeCMDUserPluginNo (p : PluginUser) : bytes :=
  WriteString (pu_Uid p) ++ WriteString (pu_PluginNo p) ++ write_time (pu_CreatedAt p) ++ write_time (pu_UpdatedAt p).
(** [pkg/cluster/store/model.go] [(c *CMD) DecodeCMDUserPluginNo] *)
Definition DecodeCMDUserPluginNo (c : SCMD) : option PluginUser :=
  run_dec (do! uid <- String_; do! pluginNo <- String_; do! createdAt <- read_time; do! updatedAt <- read_time;
           dret (mkPluginUser uid pluginNo createdAt updatedAt)) (sc_Data c).

(** [pkg/cluster/store/model.go] [EncodeCMDPluginUser] *)
Definition EncodeCMDPluginUser (pluginNo uid : string) : bytes := WriteString pluginNo ++ WriteString uid.
(** [pkg/cluster/store/model.go] [(c *CMD) DecodeCMDPluginUser] *)
Definition DecodeCMDPluginUser (c : SCMD) : option (string * string) :=
  run_dec (do! pluginNo <- String_; do! uid <- String_; dret (pluginNo, uid)) (sc_Data c).

(** [pkg/cluster/store/model.go] [EncodeCMDPlugin]

    The configuration of the plugin is not encoded. *)
Definition EncodeCMDPlugin {Cfg} (p : Plugin Cfg) : bytes :=
  WriteString (pl_No p) ++ WriteString (pl_Name p) ++ WriteUint32 (u32 (len (pl_ConfigTemplate p))) ++
  WriteBytes (pl_ConfigTemplate p) ++ write_time (pl_CreatedAt p) ++ write_time (pl_UpdatedAt p) ++
  WriteUint32 (u32 (pl_Status p)) ++ WriteString (pl_Version p) ++ WriteUint16 (u16 (len (pl_Methods p))) ++
  mjoin (WriteString <$> pl_Methods p) ++ WriteUint32 (pl_Priority p).
(** [pkg/cluster/store/model.go] [(c *CMD) DecodeCMDPlugin] *)
Definition DecodeCMDPlugin {Cfg} (c : SCMD) : option (Plugin Cfg) :=
  run_dec (do! no <- String_; do! name <- String_; do! configLen <- Uint32; do! configTemplate <- Bytes configLen;
           do! createdAt <- read_time; do! updatedAt <- read_time; do! status <- Uint32; do! version <- String_;
           do! methodLen <- Uint16; do! methods <- drepeat (Z.to_nat methodLen) String_; do! priority <- Uint32;
           dret (mkPlugin no name configTemplate createdAt updatedAt status version methods priority None)) (sc_Data c).

(** [pkg/cluster/store/model.go] [EncodeCMDPluginConfig]

    An error of the JSON encoder is ignored. *)
Definition EncodeCMDPluginConfig {Cfg} {J : Json Cfg} (pluginNo : string) (config : Cfg) : bytes :=
  let cfgData := default [] (json_Marshal config) in
  WriteString pluginNo ++ WriteUint32 (u32 (len cfgData)) ++ WriteBytes cfgData.
(** [pkg/cluster/store/model.go] [(c *CMD) DecodeCMDPluginConfig] *)
Definition DecodeCMDPluginConfig {Cfg} {J : Json Cfg} (c : SCMD) : option (string * Cfg) :=
  '(pluginNo, cfgData) ← run_dec (do! pluginNo <- String_; do! cfgLen <- Uint32; do! cfgData <- Bytes cfgLen;
                                  dret (pluginNo, cfgData)) (sc_Data c);
  config ← json_Unmarshal cfgData; Some (pluginNo, config).

(** [pkg/cluster/store/model.go] [EncodeCMDMessageEvent]

    An event that cannot be encoded gives no data. *)
Definition EncodeCMDMessageEvent {J : Json MessageEvent} (event : option MessageEvent) : bytes :=
  match event with None => [] | Some event => default [] (json_Marshal event) end.
(** [pkg/cluster/store/model.go] [(c *CMD) DecodeCMDMessageEvent] *)
Definition DecodeCMDMessageEvent {J : Json MessageEvent} (c : SCMD) : option MessageEvent :=
  json_Unmarshal (sc_Data c).
End StoreCodecs.
