(* ===== verification/StoreCmdLaws.v ===== *)
(** * What the decoders of the store read back

    The commands of [StoreCmd]: a decoder returns what its encoder was given, with
    the fields that are not encoded reset ([stored_user] and the like), whenever
    the lengths and numbers fit their width. *)

From S2P Require Import Prelude RaftTypes WkProto RaftCodec ClusterConfig ClusterCommands WkMembers WkModel StoreCmd.

#[export] Hint Resolve u8_range u16_range u32_range u64_range : wire.

(** A string whose length can be written. *)
Abbreviation str_fits s := (Z.of_nat (String.length s) < two16).

Section Laws.
Context {W : WkProto} {WL : WkProtoLaws W} {I : WkProtoInt32} {IL : WkProtoInt32Laws I}.

(** ** Fields *)

Lemma run_reads {A} (d : Decoder A) bs a : reads d bs a -> run_dec d bs = Some a.
Proof. apply reads_fst. Qed.

(** The instant that is read back: 1970 is the absence of a time. *)
Definition stored_time (t : option Z) : option Z := time_of (match t with Some t => u64 t | None => 0 end).

Lemma read_time_reads t : reads read_time (write_time t) (stored_time t).
Proof.
  apply (reads_map Uint64 time_of), Uint64_reads. destruct t; [apply u64_range|].
  split; [lia|done].
Qed.

Lemma stored_time_fits t : (forall z, t = Some z -> 0 < z /\ is_u64 z) -> stored_time t = t.
Proof.
  destruct t as [z|]; [|done]. intros H. destruct (H z eq_refl) as [Hz Hu].
  unfold stored_time, time_of. rewrite u64_small by done. by destruct (Z.ltb_spec 0 z); [|lia].
Qed.

Lemma read_bool b : reads Uint8 (WriteUint8 (BoolToUint8 b)) (BoolToUint8 b).
Proof. apply Uint8_reads. by destruct b. Qed.
Lemma Uint8ToBool_of b : Uint8ToBool (BoolToUint8 b) = b.
Proof. by destruct b. Qed.

Lemma count32 {A} (l : list A) : len l < two32 -> Z.to_nat (u32 (len l)) = length l.
Proof. intros H. rewrite u32_small by (split; lia). lia. Qed.
Lemma count16 {A} (l : list A) : len l < two16 -> Z.to_nat (u16 (len l)) = length l.
Proof. intros H. rewrite u16_small by (split; lia). lia. Qed.

Lemma read_list {A B} (d : Decoder B) (enc : A -> bytes) (f : A -> B) (l : list A) n :
  n = length l -> Forall (fun x => reads d (enc x) (f x)) l -> reads (drepeat n d) (mjoin (enc <$> l)) (f <$> l).
Proof. intros -> H. by apply reads_repeat. Qed.

Lemma read_strings l n : n = length l -> Forall (fun s => str_fits s) l ->
  reads (drepeat n String_) (mjoin (WriteString <$> l)) l.
Proof.
  intros Hn Hl. rewrite <-(list_fmap_id l) at 2. apply read_list; [done|].
  eapply Forall_impl; [exact Hl|]. intros s Hs. by apply String_reads.
Qed.

(** A list of encoded records. *)
Lemma read_marshalled {A B} (enc : A -> option bytes) (dec : bytes -> option B) (f : A -> B) (l : list A) data n :
  n = length l -> marshal_all enc l = Some data ->
  Forall (fun x => forall b, enc x = Some b -> len b < two16 /\ dec b = Some (f x)) l ->
  reads (drepeat n (dinner dec Binary)) data (f <$> l).
Proof.
  intros -> Hm Hl. revert data Hm. induction Hl as [|x l Hx _ IH]; intros data Hm; simpl in Hm.
  { injection Hm as <-. apply reads_ret. }
  destruct (enc x) as [b|] eqn:Eb; [|done]. destruct (marshal_all enc l) as [more|]; [|done].
  injection Hm as <-. destruct (Hx b eq_refl) as [Hb Hd]. simpl.
  eapply reads_bind.
  { intros rest. unfold dinner. rewrite (Binary_reads b Hb). by rewrite Hd. }
  apply (reads_map _ (cons (f x))). by apply IH.
Qed.
End Laws.

#[export] Hint Resolve read_time_reads read_bool : wire.

(** Reads one field after the other. *)
Ltac read_field :=
  lazymatch goal with
  | |- reads (dbind _ (fun _ => dret _)) _ _ => eapply reads_map_eq; [solve [eauto with wire]|try reflexivity]
  | |- reads (dbind _ _) _ _ => eapply reads_bind; [solve [eauto with wire]|cbv beta]
  end.
Ltac read_record := apply run_reads; repeat read_field.

(** A decoder whose last field reads all that is left. *)
Lemma run_bind {A B} (d : Decoder A) (k : A -> Decoder B) bs1 bs2 a :
  reads d bs1 a -> run_dec (dbind d k) (bs1 ++ bs2) = run_dec (k a) bs2.
Proof. intros H. unfold run_dec, dbind. by rewrite H. Qed.

Section Records.
Context {W : WkProto} {WL : WkProtoLaws W} {I : WkProtoInt32} {IL : WkProtoInt32Laws I}.

(** ** Records *)

Definition member_fits (m : Member) : Prop :=
  is_u64 (mb_Id m) /\ str_fits (mb_Uid m) /\
  (forall b, Member_Marshal 0 m = Some b -> len b < two16).
Definition stored_member (m : Member) : Member :=
  mkMember (mb_Id m) (mb_Uid m) (stored_time (mb_CreatedAt m)) (stored_time (mb_UpdatedAt m)).

Lemma Member_reads m b : member_fits m -> Member_Marshal 0 m = Some b -> Member_Unmarshal b = Some (0, stored_member m).
Proof.
  intros (H1 & H2 & _) [= <-]. unfold Member_Unmarshal.
  assert (is_u16 0) by done. read_record.
Qed.

Definition conversation_fits (c : Conversation) : Prop :=
  is_u64 (cv_Id c) /\ str_fits (cv_Uid c) /\ is_u8 (cv_Type c) /\ str_fits (cv_ChannelId c) /\
  is_u8 (cv_ChannelType c) /\ is_u32 (cv_UnreadCount c) /\ is_u64 (cv_ReadToMsgSeq c) /\
  (forall b, Conversation_Marshal c = Some b -> len b < two16).
Definition stored_conversation (c : Conversation) : Conversation :=
  {| c with cv_DeletedAtMsgSeq := 0; cv_CreatedAt := stored_time (cv_CreatedAt c);
     cv_UpdatedAt := stored_time (cv_UpdatedAt c) |}.

Lemma Conversation_reads c b :
  conversation_fits c -> Conversation_Marshal c = Some b -> Conversation_Unmarshal b = Some (stored_conversation c).
Proof.
  intros (H1 & H2 & H3 & H4 & H5 & H6 & H7 & _). unfold Conversation_Marshal, Conversation_Unmarshal.
  case_bool_decide as Hu; [done|]. intros [= <-].
  erewrite run_reads; [|repeat read_field]. simpl. by rewrite bool_decide_eq_false_2.
Qed.

Lemma conversations_read cs data n :
  n = length cs -> Forall conversation_fits cs -> marshal_all Conversation_Marshal cs = Some data ->
  reads (drepeat n (dinner Conversation_Unmarshal Binary)) data (stored_conversation <$> cs).
Proof.
  intros Hn Hf Hm. eapply read_marshalled; [done..|]. eapply Forall_impl; [exact Hf|].
  intros c Hc b Hb. split; [by apply Hc|]. by apply Conversation_reads.
Qed.

Definition config_fits (c : ChannelClusterConfig) : Prop :=
  str_fits (cl_ChannelId c) /\ is_u8 (cl_ChannelType c) /\ is_u16 (cl_ReplicaMaxCount c) /\
  (len (cl_Replicas c) < two16 /\ Forall is_u64 (cl_Replicas c)) /\
  (len (cl_Learners c) < two16 /\ Forall is_u64 (cl_Learners c)) /\
  is_u64 (cl_LeaderId c) /\ is_u32 (cl_Term c) /\ is_u64 (cl_MigrateFrom c) /\ is_u64 (cl_MigrateTo c) /\
  is_u8 (cl_Status c) /\ is_u64 (cl_ConfVersion c).
Definition stored_config (c : ChannelClusterConfig) : ChannelClusterConfig :=
  {| c with cl_Id := 0; cl_CreatedAt := stored_time (cl_CreatedAt c);
     cl_UpdatedAt := stored_time (cl_UpdatedAt c); cl_version := 1 |}.

Lemma read_ids_reads l : len l < two16 /\ Forall is_u64 l -> reads read_ids (write_ids l) l.
Proof.
  intros [Hl Hf]. unfold read_ids, write_ids. eapply reads_bind; [apply Uint16_reads, u16_range|].
  rewrite <-(list_fmap_id l) at 3. apply read_list; [by apply count16|].
  eapply Forall_impl; [exact Hf|]. intros v Hv. by apply Uint64_reads.
Qed.

Lemma ClusterConfig_reads c : config_fits c -> ChannelClusterConfig_Unmarshal (ChannelClusterConfig_Marshal c) = Some (stored_config c).
Proof.
  intros (H1 & H2 & H3 & H4 & H5 & H6 & H7 & H8 & H9 & H10 & H11). unfold ChannelClusterConfig_Unmarshal.
  pose proof (read_ids_reads _ H4). pose proof (read_ids_reads _ H5).
  assert (is_u16 1) by done. read_record.
Qed.

Lemma Session_reads s :
  is_u64 (se_Id s) -> is_u8 (se_SessionType s) -> str_fits (se_Uid s) -> str_fits (se_ChannelId s) ->
  is_u8 (se_ChannelType s) -> is_i64 (se_CreatedAt s) -> is_i64 (se_UpdatedAt s) ->
  Session_Unmarshal (Session_Marshal s) = Some s.
Proof. intros H1 H2 H3 H4 H5 H6 H7. unfold Session_Unmarshal. read_record. by destruct s. Qed.

(** *** Messages *)

Definition message_fits {F : Frames} (m : Message) : Prop :=
  is_u64 (ms_Term m) /\ is_u8 (ms_version m) /\
  (forall data, EncodeFrame (ms_RecvPacket m) = Some data -> len data < two32).
(** A message for the search outbox has the version that says so. *)
Definition stored_message {F : Frames} (m : Message) : Message :=
  {| m with ms_version := if ms_SearchOutbox m then messageDataVersionSearchOutbox else ms_version m |}.

Lemma Message_head_reads {F : Frames} {FL : FramesLaws F} dataVersion data :
  is_u8 dataVersion -> dataVersion <= messageDataVersionSearchOutbox -> len data < two32 ->
  reads Message_head (WriteUint8 (u8 (LatestVersion + 100)) ++ WriteUint8 dataVersion ++ WriteUint32 (u32 (len data)) ++
    WriteBytes data) (LatestVersion, dataVersion, data).
Proof.
  intros Hv Hle Hd. pose proof LatestVersion_small as Hs. unfold Message_head.
  eapply reads_bind; [apply Uint8_reads, u8_range|]. rewrite u8_small by (split; lia).
  destruct (Z.ltb_spec 100 (LatestVersion + 100)); [|lia].
  eapply reads_bind; [by apply Uint8_reads|]. destruct (Z.ltb_spec messageDataVersionSearchOutbox dataVersion); [lia|].
  eapply reads_bind; [apply Uint32_reads, u32_range|]. rewrite u32_small by (split; lia).
  eapply reads_map_eq; [apply Bytes_reads; lia|]. f_equal. f_equal. lia.
Qed.

Lemma Message_reads {F : Frames} {FL : FramesLaws F} m bs :
  message_fits m -> Message_Marshal m = Some bs -> Message_Unmarshal bs = Some (stored_message m).
Proof.
  intros (H1 & H2 & H3) E. unfold Message_Marshal in E. destruct (EncodeFrame (ms_RecvPacket m)) as [data|] eqn:Ed; [|done].
  cbn [mbind option_bind] in E. pose proof (Frame_reads _ _ Ed) as Hfr. specialize (H3 data eq_refl).
  set (dv := if ms_SearchOutbox m then messageDataVersionSearchOutbox else ms_version m) in E.
  assert (is_u8 dv) as Hu by (unfold dv; by destruct (ms_SearchOutbox m)).
  destruct (Z.ltb_spec messageDataVersionSearchOutbox dv) as [|Hdv]; [done|]. injection E as <-.
  unfold Message_Unmarshal. pose proof (Message_head_reads dv data Hu Hdv H3) as Hh.
  set (head := _ ++ _ ++ _ ++ WriteBytes data) in Hh.
  match goal with |- run_dec _ (_ ++ _ ++ _ ++ _ ++ ?tail) = _ =>
    replace (WriteUint8 (u8 (LatestVersion + 100)) ++ WriteUint8 dv ++ WriteUint32 (u32 (len data)) ++
      WriteBytes data ++ tail) with (head ++ tail) by (unfold head; by rewrite <-!app_assoc)
  end.
  rewrite (run_bind _ _ _ _ _ Hh), Hfr.
  erewrite run_bind by by apply Uint64_reads.
  unfold stored_message. fold dv. destruct m as [p t sb v]. cbn [ms_SearchOutbox ms_version ms_Term ms_RecvPacket] in *.
  destruct (Z.leb_spec messageDataVersionSearchOutbox dv) as [Hge|Hlt].
  - apply run_reads. destruct sb.
    + rewrite <-(app_nil_r (WriteUint8 1)). eapply reads_bind; [by apply Uint8_reads|]. apply reads_ret.
    + rewrite <-(app_nil_r (WriteUint8 0)). eapply reads_bind; [by apply Uint8_reads|]. apply reads_ret.
  - destruct sb; [unfold dv, messageDataVersionSearchOutbox in Hlt; lia|]. done.
Qed.

(** What an older encoder wrote: the version of the protocol, the frame and the term. *)
Lemma Message_legacy_reads {F : Frames} version data term p :
  0 < version <= 100 -> len data < two16 -> is_u64 term -> DecodeFrame data version = Some (Some p) ->
  Message_Unmarshal (WriteUint8 version ++ WriteBinary data ++ WriteUint64 term) =
    Some (mkMessage p term false messageDataVersionLegacy).
Proof.
  intros Hv Hd Ht Hf. unfold Message_Unmarshal. apply run_reads. rewrite app_assoc.
  eapply reads_bind with (a := (version, messageDataVersionLegacy, data)).
  - unfold Message_head. eapply reads_bind; [apply Uint8_reads; split; lia|].
    destruct (Z.ltb_spec 100 version); [lia|]. eapply reads_map_eq; [by apply Binary_reads|done].
  - rewrite Hf. eapply reads_map_eq; [by apply Uint64_reads|done].
Qed.
End Records.

#[export] Hint Resolve read_ids_reads : wire.

Section Commands.
Context {W : WkProto} {WL : WkProtoLaws W} {I : WkProtoInt32} {IL : WkProtoInt32Laws I}.
Implicit Types c : SCMD.

(** ** Commands *)

(** The type of a command that the code has a name for. *)
Definition known (t : SCMDType) : Prop := match t with CMDOther _ => False | _ => True end.

Lemma SCMDType_known t : known t -> SCMDType_of (SCMDType_num t) = t /\ is_u16 (SCMDType_num t).
Proof. destruct t; intros Ht; try done; split; vm_compute; done. Qed.

Lemma SCMD_reads t data v :
  known t -> is_u16 v ->
  SCMD_Unmarshal (SCMD_Marshal (mkSCMD t data v)) = Some (mkSCMD t data (if v =? 0 then 1 else v)).
Proof.
  intros [Ht Hn]%SCMDType_known Hv. unfold SCMD_Unmarshal, SCMD_Marshal, run_dec, dbind. cbn [sc_CmdType sc_Data sc_version].
  rewrite (Uint16_reads (if v =? 0 then 1 else v)) by (by destruct (v =? 0)).
  rewrite (Uint16_reads (SCMDType_num t) Hn). rewrite BinaryAll_reads. simpl. by rewrite Ht.
Qed.

Lemma Members_read c channelId channelType ms :
  str_fits channelId -> is_u8 channelType -> len ms < two32 -> Forall member_fits ms ->
  sc_Data c = EncodeMembers channelId channelType ms ->
  DecodeMembers c = Some (channelId, channelType, stored_member <$> ms).
Proof.
  intros H1 H2 H3 H4 Hc. unfold DecodeMembers. rewrite Hc. unfold EncodeMembers.
  assert (exists data, marshal_all (Member_Marshal 0) ms = Some data) as [data Hd].
  { clear. induction ms as [|m ms [data IH]]; [by eexists|]. simpl. rewrite IH. by eexists. }
  rewrite Hd. apply run_reads. do 3 read_field.
  eapply reads_map_eq; [|reflexivity]. eapply read_marshalled; [by apply count32|done|].
  eapply Forall_impl; [exact H4|]. intros m Hm b Hb. split; [by apply Hm|]. by rewrite (Member_reads m b).
Qed.

Lemma ChannelUids_read c channelId channelType uids :
  str_fits channelId -> is_u8 channelType -> len uids < two32 -> Forall (fun s => str_fits s) uids ->
  sc_Data c = EncodeChannelUids channelId channelType uids ->
  DecodeChannelUids c = Some (channelId, channelType, uids).
Proof.
  intros H1 H2 H3 H4 Hc. unfold DecodeChannelUids. rewrite Hc. apply run_reads. do 3 read_field.
  eapply reads_map_eq; [|reflexivity]. apply read_strings; [by apply count32|done].
Qed.

Lemma Channel_read c channelId channelType :
  str_fits channelId -> is_u8 channelType -> sc_Data c = EncodeChannel channelId channelType ->
  DecodeChannel c = Some (channelId, channelType).
Proof. intros H1 H2 Hc. unfold DecodeChannel. rewrite Hc. read_record. Qed.

Definition stored_channel (ci : ChannelInfo) : ChannelInfo :=
  mkChannelInfo 0 (ci_ChannelId ci) (ci_ChannelType ci) (ci_Ban ci) (ci_Large ci) (ci_Disband ci) 0 0 0 0 0
    (ci_Webhook ci) (ci_SendBan ci) (ci_AllowStranger ci) (stored_time (ci_CreatedAt ci)) (stored_time (ci_UpdatedAt ci)).

Lemma ChannelInfo_read c ci :
  str_fits (ci_ChannelId ci) -> is_u8 (ci_ChannelType ci) -> str_fits (ci_Webhook ci) ->
  sc_version c = CmdVersionChannelInfo -> sc_Data c = EncodeChannelInfo ci CmdVersionChannelInfo ->
  DecodeChannelInfo c = Some (stored_channel ci).
Proof.
  intros H1 H2 H3 Hv Hc. unfold DecodeChannelInfo. rewrite Hv, Hc. unfold EncodeChannelInfo.
  change (0 <? CmdVersionChannelInfo) with true. change (2 <? CmdVersionChannelInfo) with true. cbn [dopt].
  apply run_reads. do 8 read_field. rewrite <-(app_nil_r (_ ++ _)).
  eapply reads_bind; [by do 2 read_field|]. rewrite !Uint8ToBool_of. apply reads_ret.
Qed.

Lemma ConfigSave_read c channelId channelType data :
  str_fits channelId -> is_u8 channelType -> sc_Data c = EncodeCMDChannelClusterConfigSave channelId channelType data ->
  DecodeCMDChannelClusterConfigSave c = Some (channelId, channelType, data).
Proof.
  intros H1 H2 Hc. unfold DecodeCMDChannelClusterConfigSave, EncodeCMDChannelClusterConfigSave, run_dec, dbind in *.
  by rewrite Hc, (String_reads _ H1), (Uint8_reads _ H2), BinaryAll_reads.
Qed.

Definition stored_user (u : User) : User :=
  mkUser (us_Id u) (us_Uid u) 0 0 0 0 0 0 0 "" (stored_time (us_CreatedAt u)) (stored_time (us_UpdatedAt u)).

Lemma User_read c u :
  is_u64 (us_Id u) -> str_fits (us_Uid u) -> sc_Data c = EncodeCMDUser u -> DecodeCMDUser c = Some (stored_user u).
Proof. intros H1 H2 Hc. unfold DecodeCMDUser. rewrite Hc. read_record. Qed.

Definition device_fits (d : Device) : Prop :=
  is_u64 (dv_Id d) /\ str_fits (dv_Uid d) /\ is_u64 (dv_DeviceFlag d) /\ is_u8 (dv_DeviceLevel d) /\
  str_fits (dv_Token d) /\ is_u64 (dv_TokenVersion d).
Definition stored_device (d : Device) : Device :=
  mkDevice (dv_Id d) (dv_Uid d) (dv_Token d) (dv_TokenVersion d) (dv_DeviceFlag d) (dv_DeviceLevel d) 0 0 0 0 0
    (stored_time (dv_CreatedAt d)) (stored_time (dv_UpdatedAt d)).

Lemma TokenVersion_read v :
  is_u64 v -> read_TokenVersion (if 0 <? v then WriteUint64 v else []) = Some (v, []).
Proof.
  intros Hv. unfold read_TokenVersion. destruct (Z.ltb_spec 0 v) as [H|H].
  - rewrite Uint64_width. apply (reads_all _ _ _ (Uint64_reads v Hv)).
  - destruct Hv. simpl. by assert (v = 0) as -> by lia.
Qed.

Lemma Device_read c d : device_fits d -> sc_Data c = EncodeCMDDevice d -> DecodeCMDDevice c = Some (stored_device d).
Proof.
  intros (H1 & H2 & H3 & H4 & H5 & H6) Hc. unfold DecodeCMDDevice. rewrite Hc. unfold EncodeCMDDevice.
  do 7 (erewrite run_bind; [|solve [eauto with wire]]).
  unfold run_dec, dbind. by rewrite TokenVersion_read.
Qed.

Lemma ConditionalDevice_read {JD : Json conditionalDeviceUpdate} {JL : JsonLaws JD} c c' d v h r :
  json_expressible (mkConditional d v h) -> json_Marshal (mkConditional d v h) = Some (sc_Data c) ->
  sc_Data c' = sc_Data c -> DecodeConditionalDevice c = Some r -> DecodeConditionalDevice c' = Some (d, v, h).
Proof.
  intros Hx Hm Hc. unfold DecodeConditionalDevice. rewrite Hc, (json_reads _ _ Hx Hm). simpl.
  destruct (hex_DecodeString h); [|done]. simpl. by case_match.
Qed.

Lemma SystemUIDs_read c uids :
  len uids < two32 -> Forall (fun s => str_fits s) uids -> sc_Data c = EncodeCMDSystemUIDs uids ->
  DecodeCMDSystemUIDs c = Some uids.
Proof.
  intros H1 H2 Hc. unfold DecodeCMDSystemUIDs. rewrite Hc. apply run_reads.
  eapply reads_bind; [apply Uint32_reads, u32_range|]. apply read_strings; [by apply count32|done].
Qed.

Lemma UserConversations_read c uid cs :
  str_fits uid -> len cs < two32 -> Forall conversation_fits cs ->
  EncodeCMDAddOrUpdateUserConversations uid cs = Some (sc_Data c) ->
  DecodeCMDAddOrUpdateUserConversations c = Some (uid, stored_conversation <$> cs).
Proof.
  intros H1 H2 H3. unfold EncodeCMDAddOrUpdateUserConversations, DecodeCMDAddOrUpdateUserConversations.
  destruct (marshal_all _ cs) as [data|] eqn:Ed; [|done]. intros [= Hc]. rewrite <-Hc.
  destruct (Z.eqb_spec (len (WriteString uid ++ WriteUint32 (u32 (len cs)) ++ data)) 0) as [E|_].
  { exfalso. rewrite !length_app, Uint32_width in E. lia. }
  apply run_reads. do 2 read_field. eapply reads_map_eq; [|reflexivity].
  apply conversations_read; [by apply count32|done..].
Qed.

Lemma Conversations_read c cs :
  len cs < two16 -> Forall conversation_fits cs -> EncodeCMDAddOrUpdateConversations cs = Some (sc_Data c) ->
  DecodeCMDAddOrUpdateConversations c = Some (stored_conversation <$> cs).
Proof.
  intros H1 H2. unfold EncodeCMDAddOrUpdateConversations, ConversationSet_Marshal, DecodeCMDAddOrUpdateConversations,
    ConversationSet_Unmarshal. destruct (marshal_all _ cs) as [data|] eqn:Ed; [|done]. intros [= <-].
  apply run_reads. eapply reads_bind; [apply Uint16_reads, u16_range|].
  apply conversations_read; [by apply count16|done..].
Qed.

Lemma DeleteConversation_read c uid channelId channelType :
  str_fits uid -> str_fits channelId -> is_u8 channelType ->
  sc_Data c = EncodeCMDDeleteConversation uid channelId channelType ->
  DecodeCMDDeleteConversation c = Some (uid, channelId, channelType).
Proof. intros H1 H2 H3 Hc. unfold DecodeCMDDeleteConversation. rewrite Hc. read_record. Qed.

Lemma i32_small z : 0 <= z < 2147483648 -> i32 z = z.
Proof. intros Hz. unfold i32. rewrite Z.mod_small; lia. Qed.

Definition channel_fits (ch : Channel) : Prop := str_fits (ch_ChannelId ch) /\ is_u8 (ch_ChannelType ch).

Lemma DeleteConversations_read c uid chs :
  str_fits uid -> len chs < 2147483648 -> Forall channel_fits chs ->
  sc_Data c = EncodeCMDDeleteConversations uid chs -> DecodeCMDDeleteConversations c = Some (uid, chs).
Proof.
  intros H1 H2 H3 Hc. unfold DecodeCMDDeleteConversations. rewrite Hc. apply run_reads.
  unfold EncodeCMDDeleteConversations. rewrite i32_small by lia.
  eapply reads_bind; [by apply String_reads|]. eapply reads_bind; [apply Int32_reads; unfold is_i32; lia|].
  eapply reads_map_eq; [|reflexivity]. rewrite <-(list_fmap_id chs) at 3.
  apply read_list; [lia|]. eapply Forall_impl; [exact H3|]. intros [i t] [Hi Ht]. simpl in *.
  by do 2 read_field.
Qed.

Lemma DeletedAtMsgSeq_read c uid channelId channelType seq :
  str_fits uid -> str_fits channelId -> is_u8 channelType -> is_u64 seq ->
  sc_Data c = EncodeCMDUpdateConversationDeletedAtMsgSeq uid channelId channelType seq ->
  DecodeCMDUpdateConversationDeletedAtMsgSeq c = Some (uid, channelId, channelType, seq).
Proof. intros H1 H2 H3 H4 Hc. unfold DecodeCMDUpdateConversationDeletedAtMsgSeq. rewrite Hc. read_record. Qed.

Lemma IfSeqGreater_read c uid channelId channelType seq :
  str_fits uid -> str_fits channelId -> is_u8 channelType -> is_u64 seq ->
  sc_Data c = EncodeCMDUpdateConversationIfSeqGreater uid channelId channelType seq ->
  DecodeCMDUpdateConversationIfSeqGreater c = Some (uid, channelId, channelType, seq).
Proof. intros H1 H2 H3 H4 Hc. unfold DecodeCMDUpdateConversationIfSeqGreater. rewrite Hc. read_record. Qed.

Definition stored_tester (t : Tester) : Tester :=
  mkTester 0 (te_No t) (te_Addr t) (u64 <$> te_CreatedAt t) (u64 <$> te_UpdatedAt t).

Lemma Tester_read c t :
  str_fits (te_No t) -> str_fits (te_Addr t) -> EncodeCMDAddOrUpdateTester t = Ok (sc_Data c) ->
  DecodeCMDAddOrUpdateTester c = Some (stored_tester t).
Proof.
  intros H1 H2. unfold EncodeCMDAddOrUpdateTester, DecodeCMDAddOrUpdateTester, stored_tester.
  destruct (te_CreatedAt t), (te_UpdatedAt t); [|done..]. intros [= <-]. read_record.
Qed.

Lemma RemoveTester_read c no : str_fits no -> sc_Data c = EncodeCMDRemoveTester no -> DecodeCMDRemoveTester c = Some no.
Proof. intros H1 Hc. unfold DecodeCMDRemoveTester. rewrite Hc. by apply run_reads, String_reads. Qed.

Definition stored_plugin_user (p : PluginUser) : PluginUser :=
  mkPluginUser (pu_Uid p) (pu_PluginNo p) (stored_time (pu_CreatedAt p)) (stored_time (pu_UpdatedAt p)).

Lemma UserPluginNo_read c p :
  str_fits (pu_Uid p) -> str_fits (pu_PluginNo p) -> sc_Data c = EncodeCMDUserPluginNo p ->
  DecodeCMDUserPluginNo c = Some (stored_plugin_user p).
Proof. intros H1 H2 Hc. unfold DecodeCMDUserPluginNo. rewrite Hc. read_record. Qed.

Lemma PluginUser_read c pluginNo uid :
  str_fits pluginNo -> str_fits uid -> sc_Data c = EncodeCMDPluginUser pluginNo uid ->
  DecodeCMDPluginUser c = Some (pluginNo, uid).
Proof. intros H1 H2 Hc. unfold DecodeCMDPluginUser. rewrite Hc. read_record. Qed.

(** *** Commands no method of the store proposes *)

Definition model_fits (u : BatchUpdateConversationModel) : Prop :=
  Z.of_nat (size (bu_Uids u)) < two16 /\ map_Forall (fun uid seq => str_fits uid /\ is_u64 seq) (bu_Uids u) /\
  str_fits (bu_ChannelId u) /\ is_u8 (bu_ChannelType u).

Lemma inserts_all (l : list (string * Z)) (m : gmap string Z) :
  NoDup l.*1 -> foldl (fun m '(uid, seq) => <[uid := seq]> m) m l = list_to_map l ∪ m.
Proof.
  revert m. induction l as [|[k v] l IH]; intros m Hn; simpl; [by rewrite (left_id_L ∅ (∪))|].
  apply NoDup_cons in Hn as [Hk Hn]. rewrite IH by done. rewrite <-insert_union_r.
  - by rewrite insert_union_l.
  - by apply not_elem_of_list_to_map_1.
Qed.

Lemma read_entries (l : list (string * Z)) n :
  n = length l -> Forall (fun e => str_fits e.1 /\ is_u64 e.2) l ->
  reads (drepeat n (do! uid <- String_; do! seq <- Uint64; dret (uid, seq)))
    (mjoin ((fun '(uid, seq) => WriteString uid ++ WriteUint64 seq) <$> l)) l.
Proof.
  intros Hn Hl. rewrite <-(list_fmap_id l) at 2. apply read_list; [done|].
  eapply Forall_impl; [exact Hl|]. intros [uid seq] [H1 H2]. simpl in *. by do 2 read_field.
Qed.

Lemma BatchUpdate_reads {R : StrRange} {RL : StrRangeLaws R} i u :
  model_fits u -> reads BatchUpdate_dec (BatchUpdate_Marshal (srange i) u) u.
Proof.
  intros (H1 & H2 & H3 & H4). pose proof (srange_perm i (bu_Uids u)) as Hp.
  assert (reads read_uids (write_uids (srange i) (bu_Uids u)) (bu_Uids u)) as Hu.
  { unfold read_uids, write_uids. eapply reads_bind; [apply Uint16_reads, u16_range|].
    eapply reads_map_eq; [apply read_entries|].
    - rewrite u16_small by (split; lia). rewrite Hp, length_map_to_list. lia.
    - rewrite Hp. apply Forall_forall. intros [uid seq] Hin%elem_of_map_to_list. by apply (H2 uid).
    - rewrite inserts_all by (rewrite Hp; apply NoDup_fst_map_to_list).
      rewrite (right_id_L ∅ (∪)), (list_to_map_proper _ (map_to_list (bu_Uids u))), list_to_map_to_list; [done| |done].
      rewrite Hp. apply NoDup_fst_map_to_list. }
  unfold BatchUpdate_dec, BatchUpdate_Marshal. eapply reads_bind; [exact Hu|]. do 2 read_field. by destruct u.
Qed.

Lemma BatchUpdates_read {R : StrRange} {RL : StrRangeLaws R} c models :
  len models < two32 -> Forall model_fits models -> sc_Data c = EncodeCMDBatchUpdateConversation models ->
  DecodeCMDBatchUpdateConversation c = Some models.
Proof.
  intros H1 H2 Hc. unfold DecodeCMDBatchUpdateConversation. rewrite Hc. apply run_reads.
  eapply reads_bind; [apply Uint32_reads, u32_range|]. rewrite count32 by done. clear H1 Hc.
  enough (forall k, reads (drepeat (length models) BatchUpdate_dec)
    (mjoin (imap (fun i => BatchUpdate_Marshal (srange (k + i))) models)) models) as H by apply (H O).
  induction H2 as [|u models Hu _ IH]; intros k; [apply reads_ret|].
  cbn [imap length drepeat mjoin list_join]. eapply reads_bind; [by apply BatchUpdate_reads|].
  apply (reads_map _ (cons u)). specialize (IH (S k)). erewrite imap_ext; [exact IH|].
  intros i x _. simpl. f_equal. f_equal. lia.
Qed.

Lemma Plugin_read {Cfg} c (p : Plugin Cfg) :
  str_fits (pl_No p) -> str_fits (pl_Name p) -> len (pl_ConfigTemplate p) < two32 -> is_u32 (pl_Status p) ->
  str_fits (pl_Version p) -> len (pl_Methods p) < two16 -> Forall (fun s => str_fits s) (pl_Methods p) ->
  is_u32 (pl_Priority p) -> sc_Data c = EncodeCMDPlugin p ->
  DecodeCMDPlugin c = Some (mkPlugin (pl_No p) (pl_Name p) (pl_ConfigTemplate p) (stored_time (pl_CreatedAt p))
    (stored_time (pl_UpdatedAt p)) (pl_Status p) (pl_Version p) (pl_Methods p) (pl_Priority p) (@None Cfg)).
Proof.
  intros H1 H2 H3 H4 H5 H6 H7 H8 Hc. unfold DecodeCMDPlugin. rewrite Hc. unfold EncodeCMDPlugin.
  rewrite (u32_small (len _)), (u32_small (pl_Status p)) by (done || (split; lia)).
  assert (is_u32 (len (pl_ConfigTemplate p))) by (split; lia).
  assert (len (pl_ConfigTemplate p) < two63) by lia.
  assert (reads (drepeat (Z.to_nat (u16 (len (pl_Methods p)))) String_) (mjoin (WriteString <$> pl_Methods p)) (pl_Methods p)).
  { apply read_strings; [by apply count16|done]. }
  read_record.
Qed.

Lemma PluginConfig_read {Cfg} {J : Json Cfg} {JL : JsonLaws J} c pluginNo (config : Cfg) data :
  str_fits pluginNo -> json_expressible config -> json_Marshal config = Some data -> len data < two32 ->
  sc_Data c = EncodeCMDPluginConfig pluginNo config -> DecodeCMDPluginConfig c = Some (pluginNo, config).
Proof.
  intros H1 H2 H3 H4 Hc. unfold DecodeCMDPluginConfig. rewrite Hc. unfold EncodeCMDPluginConfig. rewrite H3.
  cbn [default from_option id]. rewrite u32_small by (split; lia).
  assert (is_u32 (len data)) by (split; lia). assert (len data < two63) by lia.
  erewrite run_reads; [|repeat read_field]. simpl. by rewrite (json_reads _ _ H2 H3).
Qed.

Lemma ConversationsWithChannel_read c channelId channelType uids seq t unread created updated :
  str_fits channelId -> is_u8 channelType -> len uids < two32 -> Forall (fun s => str_fits s) uids ->
  is_u64 seq -> is_u8 t -> is_i32 unread -> is_i64 created -> is_i64 updated ->
  sc_Data c = EncodeCMDAddOrUpdateConversationsWithChannel channelId channelType uids seq t unread created updated ->
  DecodeCMDAddOrUpdateConversationsWithChannel c =
    Some (channelId, channelType, uids, seq, t, unread, created, updated).
Proof.
  intros H1 H2 H3 H4 H5 H6 H7 H8 H9 Hc. unfold DecodeCMDAddOrUpdateConversationsWithChannel. rewrite Hc.
  unfold EncodeCMDAddOrUpdateConversationsWithChannel.
  assert (i32 unread = unread) as ->.
  { unfold i32. destruct H7. rewrite Z.mod_small; lia. }
  pose proof (read_strings uids (Z.to_nat (u32 (len uids))) (count32 _ H3) H4). pose proof (Int32_reads _ H7).
  read_record.
Qed.

Lemma UserAndDevice_read c id uid flag level token created updated :
  is_u64 id -> str_fits uid -> is_u64 flag -> is_u8 level -> str_fits token ->
  sc_Data c = EncodeCMDUserAndDevice id uid flag level token created updated ->
  DecodeCMDUserAndDevice c = Some (id, uid, flag, level, token, stored_time created, stored_time updated).
Proof. intros H1 H2 H3 H4 H5 Hc. unfold DecodeCMDUserAndDevice. rewrite Hc. read_record. Qed.

Lemma UserCursor_read c uid seq :
  str_fits uid -> is_u64 seq -> sc_Data c = EncodeCMDUpdateMessageOfUserCursorIfNeed uid seq ->
  DecodeCMDUpdateMessageOfUserCursorIfNeed c = Some (uid, seq).
Proof. intros H1 H2 Hc. unfold DecodeCMDUpdateMessageOfUserCursorIfNeed. rewrite Hc. read_record. Qed.

Lemma MessageEvent_read {J : Json MessageEvent} {JL : JsonLaws J} c e data :
  json_expressible e -> json_Marshal e = Some data -> sc_Data c = EncodeCMDMessageEvent (Some e) ->
  DecodeCMDMessageEvent c = Some e.
Proof.
  intros H1 H2 Hc. unfold DecodeCMDMessageEvent. rewrite Hc. simpl. rewrite H2. by apply json_reads.
Qed.
End Commands.
