(* ===== verification/StoreApply.v ===== *)
(** * Applying the logs of a slot

    [pkg/cluster/store/store_apply.go]: a log of a slot holds a command; its handler
    decodes the command and calls the database.  Fewer than ten logs are applied one
    after the other; more are applied as a batch, in which the saves of channel
    configurations, the conversations of users and the conversations that are only
    added when missing come after everything else.

    The database is an interface ([Wdb]): one call per operation ([dbop]), whose
    result is the new database and whether it succeeded.  The configurations of a
    batch are saved by the workers of [StoreSave]; what they do to the database is a
    list of batches ([SaveSchedule]).  Stopping the store is not modelled. *)

From S2P Require Import Prelude RaftTypes WkProto RaftCodec ClusterConfig WkMembers WkModel StoreCmd.

(** The calls of the handlers to [wkdb.DB]. *)
Inductive dbop :=
| DbSaveChannelClusterConfigs (cfgs : list ChannelClusterConfig)
| DbAddOrUpdateConversations (conversations : list Conversation)
| DbAddOrUpdateConversationsWithUser (uid : string) (conversations : list Conversation)
| DbAddOrUpdateConversationsBatchIfNotExist (conversations : list Conversation)
| DbDeleteConversation (uid channelId : string) (channelType : Z)
| DbDeleteConversations (uid : string) (channels : list Channel)
| DbUpdateConversationDeletedAtMsgSeq (uid channelId : string) (channelType deletedAtMsgSeq : Z)
| DbUpdateConversationIfSeqGreater (uid channelId : string) (channelType readToMsgSeq : Z)
| DbAddSubscribers (channelId : string) (channelType : Z) (members : list Member)
| DbRemoveSubscribers (channelId : string) (channelType : Z) (uids : list string)
| DbRemoveAllSubscriber (channelId : string) (channelType : Z)
| DbAddDenylist (channelId : string) (channelType : Z) (members : list Member)
| DbRemoveDenylist (channelId : string) (channelType : Z) (uids : list string)
| DbRemoveAllDenylist (channelId : string) (channelType : Z)
| DbAddAllowlist (channelId : string) (channelType : Z) (members : list Member)
| DbRemoveAllowlist (channelId : string) (channelType : Z) (uids : list string)
| DbRemoveAllAllowlist (channelId : string) (channelType : Z)
| DbAddUser (u : User)
| DbUpdateUser (u : User)
| DbAddDevice (d : Device)
| DbUpdateDevice (d : Device)
| DbUpdateDeviceIfTokenMatches (d : Device) (version : Z) (hash : string)
| DbAddChannel (c : ChannelInfo)
| DbUpdateChannel (c : ChannelInfo)
| DbDeleteChannel (channelId : string) (channelType : Z)
| DbAddSystemUids (uids : list string)
| DbRemoveSystemUids (uids : list string)
| DbAddOrUpdateTester (t : Tester)
| DbRemoveTester (no : string)
| DbAddOrUpdatePluginUsers (pluginUsers : list PluginUser)
| DbRemovePluginUser (pluginNo uid : string)
| DbAppendMessageEventWithState (event : MessageEvent).

Class Wdb := { database : Type; db_exec : database -> dbop -> res (database * bool) }.

(** The batches in which the workers save configurations that were handed to them
    in some order. *)
Class SaveSchedule := { save_batches : list ChannelClusterConfig -> list (list ChannelClusterConfig) }.
Class SaveScheduleLaws (S : SaveSchedule) := {
  save_batches_perm cfgs : mjoin (save_batches cfgs) ≡ₚ cfgs;
  save_batches_full cfgs : Forall (fun b => b <> []) (save_batches cfgs)
}.

Section Apply.
Context {W : WkProto} {I : WkProtoInt32} {JD : Json conditionalDeviceUpdate} {JE : Json MessageEvent}.
Context {R : StrRange} {D : Wdb} {S : SaveSchedule}.
(** [opts.IsCmdChannel] *)
Context (IsCmdChannel : string -> bool).
Implicit Types db : database.

(** Calls of the database up to the first that fails. *)
Fixpoint run_ops db (ops : list dbop) : res (database * bool) :=
  match ops with
  | [] => Ok (db, true)
  | op :: ops =>
      let! (db, ok) := db_exec db op in
      if ok then run_ops db ops else Ok (db, false)
  end.

(** A handler: an error of the decoder is returned, the calls are made otherwise. *)
Definition handle {A} (decoded : option A) (ops : A -> list dbop) db : res (database * bool) :=
  match decoded with None => Ok (db, false) | Some a => run_ops db (ops a) end.

(** [pkg/cluster/store/store_apply.go] [lines 218-227]

    The configuration of a command, with the index of its log as version. *)
Definition decode_config (cmd : SCMD) (confVersion : Z) : option ChannelClusterConfig :=
  '(_, _, configData) ← DecodeCMDChannelClusterConfigSave cmd;
  cfg ← ChannelClusterConfig_Unmarshal configData;
  Some {| cfg with cl_ConfVersion := confVersion |}.

(** [pkg/cluster/store/store_apply.go] [(s *Store) handleChannelClusterConfigSave] *)
Definition handleChannelClusterConfigSave (cmd : SCMD) (confVersion : Z) : database -> res (database * bool) :=
  handle (decode_config cmd confVersion) (fun cfg => [DbSaveChannelClusterConfigs [cfg]]).
(** [pkg/cluster/store/store_apply.go] [(s *Store) handleAddSubscribers] *)
Definition handleAddSubscribers (cmd : SCMD) : database -> res (database * bool) :=
  handle (DecodeMembers cmd) (fun '(channelId, channelType, members) => [DbAddSubscribers channelId channelType members]).
(** [pkg/cluster/store/store_apply.go] [(s *Store) handleRemoveSubscribers] *)
Definition handleRemoveSubscribers (cmd : SCMD) : database -> res (database * bool) :=
  handle (DecodeChannelUids cmd) (fun '(channelId, channelType, uids) => [DbRemoveSubscribers channelId channelType uids]).
(** [pkg/cluster/store/store_apply.go] [(s *Store) handleAddUser] *)
Definition handleAddUser (cmd : SCMD) : database -> res (database * bool) :=
  handle (DecodeCMDUser cmd) (fun u => [DbAddUser u]).
(** [pkg/cluster/store/store_apply.go] [(s *Store) handleUpdateUser] *)
Definition handleUpdateUser (cmd : SCMD) : database -> res (database * bool) :=
  handle (DecodeCMDUser cmd) (fun u => [DbUpdateUser u]).
(** [pkg/cluster/store/store_apply.go] [(s *Store) handleAddDevice] *)
Definition handleAddDevice (cmd : SCMD) : database -> res (database * bool) :=
  handle (DecodeCMDDevice cmd) (fun d => [DbAddDevice d]).
(** [pkg/cluster/store/store_apply.go] [(s *Store) handleUpdateDevice] *)
Definition handleUpdateDevice (cmd : SCMD) : database -> res (database * bool) :=
  handle (DecodeCMDDevice cmd) (fun d => [DbUpdateDevice d]).
(** [pkg/cluster/store/device_revoke.go] [(s *Store) handleConditionalDeviceUpdate] *)
Definition handleConditionalDeviceUpdate (cmd : SCMD) : database -> res (database * bool) :=
  handle (DecodeConditionalDevice cmd) (fun '(d, version, hash) => [DbUpdateDeviceIfTokenMatches d version hash]).
(** [pkg/cluster/store/store_apply.go] [(s *Store) handleAddChannelInfo] *)
Definition handleAddChannelInfo (cmd : SCMD) : database -> res (database * bool) :=
  handle (DecodeChannelInfo cmd) (fun c => [DbAddChannel c]).
(** [pkg/cluster/store/store_apply.go] [(s *Store) handleUpdateChannel] *)
Definition handleUpdateChannel (cmd : SCMD) : database -> res (database * bool) :=
  handle (DecodeChannelInfo cmd) (fun c => [DbUpdateChannel c]).
(** [pkg/cluster/store/store_apply.go] [(s *Store) handleRemoveAllSubscriber] *)
Definition handleRemoveAllSubscriber (cmd : SCMD) : database -> res (database * bool) :=
  handle (DecodeChannel cmd) (fun '(channelId, channelType) => [DbRemoveAllSubscriber channelId channelType]).
(** [pkg/cluster/store/store_apply.go] [(s *Store) handleDeleteChannel] *)
Definition handleDeleteChannel (cmd : SCMD) : database -> res (database * bool) :=
  handle (DecodeChannel cmd) (fun '(channelId, channelType) => [DbDeleteChannel channelId channelType]).
(** [pkg/cluster/store/store_apply.go] [(s *Store) handleAddDenylist] *)
Definition handleAddDenylist (cmd : SCMD) : database -> res (database * bool) :=
  handle (DecodeMembers cmd) (fun '(channelId, channelType, members) => [DbAddDenylist channelId channelType members]).
(** [pkg/cluster/store/store_apply.go] [(s *Store) handleRemoveDenylist] *)
Definition handleRemoveDenylist (cmd : SCMD) : database -> res (database * bool) :=
  handle (DecodeChannelUids cmd) (fun '(channelId, channelType, uids) => [DbRemoveDenylist channelId channelType uids]).
(** [pkg/cluster/store/store_apply.go] [(s *Store) handleRemoveAllDenylist] *)
Definition handleRemoveAllDenylist (cmd : SCMD) : database -> res (database * bool) :=
  handle (DecodeChannel cmd) (fun '(channelId, channelType) => [DbRemoveAllDenylist channelId channelType]).
(** [pkg/cluster/store/store_apply.go] [(s *Store) handleAddAllowlist] *)
Definition handleAddAllowlist (cmd : SCMD) : database -> res (database * bool) :=
  handle (DecodeMembers cmd) (fun '(channelId, channelType, members) => [DbAddAllowlist channelId channelType members]).
(** [pkg/cluster/store/store_apply.go] [(s *Store) handleRemoveAllowlist] *)
Definition handleRemoveAllowlist (cmd : SCMD) : database -> res (database * bool) :=
  handle (DecodeChannelUids cmd) (fun '(channelId, channelType, uids) => [DbRemoveAllowlist channelId channelType uids]).
(** [pkg/cluster/store/store_apply.go] [(s *Store) handleRemoveAllAllowlist] *)
Definition handleRemoveAllAllowlist (cmd : SCMD) : database -> res (database * bool) :=
  handle (DecodeChannel cmd) (fun '(channelId, channelType) => [DbRemoveAllAllowlist channelId channelType]).
(** [pkg/cluster/store/store_apply.go] [(s *Store) handleAddOrUpdateUserConversations] *)
Definition handleAddOrUpdateUserConversations (cmd : SCMD) : database -> res (database * bool) :=
  handle (DecodeCMDAddOrUpdateUserConversations cmd)
    (fun '(uid, conversations) => [DbAddOrUpdateConversationsWithUser uid conversations]).
(** [pkg/cluster/store/store_apply.go] [(s *Store) handleDeleteConversation] *)
Definition handleDeleteConversation (cmd : SCMD) : database -> res (database * bool) :=
  handle (DecodeCMDDeleteConversation cmd)
    (fun '(uid, channelId, channelType) => [DbDeleteConversation uid channelId channelType]).
(** [pkg/cluster/store/store_apply.go] [(s *Store) handleDeleteConversations] *)
Definition handleDeleteConversations (cmd : SCMD) : database -> res (database * bool) :=
  handle (DecodeCMDDeleteConversations cmd) (fun '(uid, channels) => [DbDeleteConversations uid channels]).

(** [pkg/cluster/store/store_apply.go] [lines 502-520]

    The calls for one model: the users are visited in the order of the map. *)
Definition model_ops (i : nat) (model : BatchUpdateConversationModel) : list dbop :=
  let conversationType := if IsCmdChannel (bu_ChannelId model) then ConversationTypeCMD else ConversationTypeChat in
  (fun '(uid, seq) => DbAddOrUpdateConversationsWithUser uid
     [mkConversation 0 uid conversationType (bu_ChannelId model) (bu_ChannelType model) 0 seq 0 None None]) <$>
  srange i (bu_Uids model).
(** [pkg/cluster/store/store_apply.go] [(s *Store) handleBatchUpdateConversation] *)
Definition handleBatchUpdateConversation (cmd : SCMD) : database -> res (database * bool) :=
  handle (DecodeCMDBatchUpdateConversation cmd) (fun models => mjoin (imap model_ops models)).

(** [pkg/cluster/store/store_apply.go] [(s *Store) handleSystemUIDsAdd] *)
Definition handleSystemUIDsAdd (cmd : SCMD) : database -> res (database * bool) :=
  handle (DecodeCMDSystemUIDs cmd) (fun uids => [DbAddSystemUids uids]).
(** [pkg/cluster/store/store_apply.go] [(s *Store) handleSystemUIDsRemove] *)
Definition handleSystemUIDsRemove (cmd : SCMD) : database -> res (database * bool) :=
  handle (DecodeCMDSystemUIDs cmd) (fun uids => [DbRemoveSystemUids uids]).
(** [pkg/cluster/store/store_apply.go] [(s *Store) handleAddOrUpdateConversations] *)
Definition handleAddOrUpdateConversations (cmd : SCMD) : database -> res (database * bool) :=
  handle (DecodeCMDAddOrUpdateConversations cmd) (fun conversations => [DbAddOrUpdateConversations conversations]).
(** [pkg/cluster/store/store_apply.go] [(s *Store) handleAddOrUpdateTester] *)
Definition handleAddOrUpdateTester (cmd : SCMD) : database -> res (database * bool) :=
  handle (DecodeCMDAddOrUpdateTester cmd) (fun tester => [DbAddOrUpdateTester tester]).
(** [pkg/cluster/store/store_apply.go] [(s *Store) handleRemoveTester] *)
Definition handleRemoveTester (cmd : SCMD) : database -> res (database * bool) :=
  handle (DecodeCMDRemoveTester cmd) (fun no => [DbRemoveTester no]).
(** [pkg/cluster/store/store_apply.go] [(s *Store) handleUpdateUserPluginNo] *)
Definition handleUpdateUserPluginNo (cmd : SCMD) : database -> res (database * bool) :=
  handle (DecodeCMDUserPluginNo cmd) (fun pluginUser => [DbAddOrUpdatePluginUsers [pluginUser]]).
(** [pkg/cluster/store/store_apply.go] [(s *Store) handleRemovePluginUser] *)
Definition handleRemovePluginUser (cmd : SCMD) : database -> res (database * bool) :=
  handle (DecodeCMDPluginUser cmd) (fun '(pluginNo, uid) => [DbRemovePluginUser pluginNo uid]).
(** [pkg/cluster/store/store_apply.go] [(s *Store) handleAddOrUpdateConversationsBatchIfNotExist] *)
Definition handleAddOrUpdateConversationsBatchIfNotExist (cmd : SCMD) : database -> res (database * bool) :=
  handle (DecodeCMDAddOrUpdateConversations cmd)
    (fun conversations => [DbAddOrUpdateConversationsBatchIfNotExist conversations]).
(** [pkg/cluster/store/store_apply.go] [(s *Store) handleUpdateConversationDeletedAtMsgSeq] *)
Definition handleUpdateConversationDeletedAtMsgSeq (cmd : SCMD) : database -> res (database * bool) :=
  handle (DecodeCMDUpdateConversationDeletedAtMsgSeq cmd)
    (fun '(uid, channelId, channelType, seq) => [DbUpdateConversationDeletedAtMsgSeq uid channelId channelType seq]).
(** [pkg/cluster/store/store_apply.go] [(s *Store) handleAppendMessageEvent] *)
Definition handleAppendMessageEvent (cmd : SCMD) : database -> res (database * bool) :=
  handle (DecodeCMDMessageEvent cmd) (fun event => [DbAppendMessageEventWithState event]).
(** [pkg/cluster/store/store_apply.go] [(s *Store) handleUpdateConversationIfSeqGreater] *)
Definition handleUpdateConversationIfSeqGreater (cmd : SCMD) : database -> res (database * bool) :=
  handle (DecodeCMDUpdateConversationIfSeqGreater cmd)
    (fun '(uid, channelId, channelType, seq) => [DbUpdateConversationIfSeqGreater uid channelId channelType seq]).

(** [pkg/cluster/store/store_apply.go] [(s *Store) applyCMD]

    Commands that are not known, the removed ones and those whose handler was taken
    out are skipped. *)
Definition applyCMD (cmd : SCMD) (logIndex : Z) : database -> res (database * bool) :=
  match sc_CmdType cmd with
  | CMDChannelClusterConfigSave => handleChannelClusterConfigSave cmd logIndex
  | CMDAddOrUpdateConversations => handleAddOrUpdateConversations cmd
  | CMDAddSubscribers => handleAddSubscribers cmd
  | CMDRemoveSubscribers => handleRemoveSubscribers cmd
  | CMDAddUser => handleAddUser cmd
  | CMDUpdateUser => handleUpdateUser cmd
  | CMDAddDevice => handleAddDevice cmd
  | CMDUpdateDevice => handleUpdateDevice cmd
  | CMDUpdateDeviceIfTokenMatches => handleConditionalDeviceUpdate cmd
  | CMDAddChannelInfo => handleAddChannelInfo cmd
  | CMDUpdateChannelInfo => handleUpdateChannel cmd
  | CMDRemoveAllSubscriber => handleRemoveAllSubscriber cmd
  | CMDDeleteChannel => handleDeleteChannel cmd
  | CMDAddDenylist => handleAddDenylist cmd
  | CMDRemoveDenylist => handleRemoveDenylist cmd
  | CMDRemoveAllDenylist => handleRemoveAllDenylist cmd
  | CMDAddAllowlist => handleAddAllowlist cmd
  | CMDRemoveAllowlist => handleRemoveAllowlist cmd
  | CMDRemoveAllAllowlist => handleRemoveAllAllowlist cmd
  | CMDAddOrUpdateUserConversations => handleAddOrUpdateUserConversations cmd
  | CMDDeleteConversation => handleDeleteConversation cmd
  | CMDDeleteConversations => handleDeleteConversations cmd
  | CMDBatchUpdateConversation => handleBatchUpdateConversation cmd
  | CMDSystemUIDsAdd => handleSystemUIDsAdd cmd
  | CMDSystemUIDsRemove => handleSystemUIDsRemove cmd
  | CMDAddOrUpdateTester => handleAddOrUpdateTester cmd
  | CMDRemoveTester => handleRemoveTester cmd
  | CMDUpdateUserPluginNo => handleUpdateUserPluginNo cmd
  | CMDRemovePluginUser => handleRemovePluginUser cmd
  | CMDAddOrUpdateConversationsBatchIfNotExist => handleAddOrUpdateConversationsBatchIfNotExist cmd
  | CMDUpdateConversationDeletedAtMsgSeq => handleUpdateConversationDeletedAtMsgSeq cmd
  | CMDAppendMessageEvent => handleAppendMessageEvent cmd
  | CMDUpdateConversationIfSeqGreater => handleUpdateConversationIfSeqGreater cmd
  | _ => fun db => Ok (db, true)
  end.

(** [pkg/cluster/store/store_apply.go] [(s *Store) applyLog] *)
Definition applySlotLog (log : Log) : database -> res (database * bool) :=
  match SCMD_Unmarshal (log_Data log) with
  | None => fun db => Ok (db, false)
  | Some cmd => applyCMD cmd (log_Index log)
  end.

(** [pkg/cluster/store/store_apply.go] [lines 251-261]

    The configurations are handed to the workers one by one; a configuration that
    cannot be decoded ends the loop, and those before it are saved all the same. *)
Fixpoint decode_configs (cmds : list (SCMD * Z)) : list ChannelClusterConfig * bool :=
  match cmds with
  | [] => ([], true)
  | (cmd, confVersion) :: cmds =>
      match decode_config cmd confVersion with
      | None => ([], false)
      | Some cfg => let '(cfgs, ok) := decode_configs cmds in (cfg :: cfgs, ok)
      end
  end.

(** Every batch is saved, and one that fails fails the call. *)
Fixpoint save_all db (batches : list (list ChannelClusterConfig)) : res (database * bool) :=
  match batches with
  | [] => Ok (db, true)
  | b :: batches =>
      let! (db, ok) := db_exec db (DbSaveChannelClusterConfigs b) in
      let! (db, oks) := save_all db batches in Ok (db, ok && oks)
  end.

(** [pkg/cluster/store/store_apply.go] [(s *Store) handleChannelClusterConfigSavesForCMDs] *)
Definition handleChannelClusterConfigSavesForCMDs (cmds : list (SCMD * Z)) db : res (database * bool) :=
  let '(cfgs, ok) := decode_configs cmds in
  let! (db, oks) := save_all db (save_batches cfgs) in Ok (db, ok && oks).

(** The conversations of each user, in the order of the commands. *)
Fixpoint group_conversations (m : gmap string (list Conversation)) (cmds : list SCMD) :
    option (gmap string (list Conversation)) :=
  match cmds with
  | [] => Some m
  | cmd :: cmds =>
      '(uid, conversations) ← DecodeCMDAddOrUpdateUserConversations cmd;
      group_conversations (<[uid := default [] (m !! uid) ++ conversations]> m) cmds
  end.

(** [pkg/cluster/store/store_apply.go] [(s *Store) handleAddOrUpdateUserConversationsForCMDs] *)
Definition handleAddOrUpdateUserConversationsForCMDs (cmds : list SCMD) : database -> res (database * bool) :=
  handle (group_conversations ∅ cmds) (fun m =>
    (fun '(uid, conversations) => DbAddOrUpdateConversationsWithUser uid conversations) <$> srange 0 m).

(** [pkg/cluster/store/store_apply.go] [(s *Store) handleAddOrUpdateConversationsBatchIfNotExistForCMDs] *)
Definition handleAddOrUpdateConversationsBatchIfNotExistForCMDs (cmds : list SCMD) : database -> res (database * bool) :=
  handle (mapM DecodeCMDAddOrUpdateConversations cmds)
    (fun conversations => [DbAddOrUpdateConversationsBatchIfNotExist (mjoin conversations)]).

(** The kinds of commands a batch puts off. *)
Definition is_save (cmd : SCMD) : bool := bool_decide (sc_CmdType cmd = CMDChannelClusterConfigSave).
Definition is_user_conversations (cmd : SCMD) : bool :=
  bool_decide (sc_CmdType cmd = CMDAddOrUpdateUserConversations).
Definition is_if_not_exist (cmd : SCMD) : bool :=
  bool_decide (sc_CmdType cmd = CMDAddOrUpdateConversationsBatchIfNotExist).
Definition put_off (cmd : SCMD) : bool := is_save cmd || is_user_conversations cmd || is_if_not_exist cmd.

(** [pkg/cluster/store/store_apply.go] [lines 55-73] *)
Fixpoint apply_others db (cmds : list (SCMD * Z)) : res (database * bool) :=
  match cmds with
  | [] => Ok (db, true)
  | (cmd, logIndex) :: cmds =>
      if put_off cmd then apply_others db cmds
      else let! (db, ok) := applyCMD cmd logIndex db in
           if ok then apply_others db cmds else Ok (db, false)
  end.

(** A step that is skipped when an earlier one failed. *)
Definition if_ok (r : res (database * bool)) (k : database -> res (database * bool)) : res (database * bool) :=
  let! (db, ok) := r in if ok then k db else Ok (db, false).
(** A step that is skipped when it has nothing to do. *)
Definition if_any {A} (l : list A) (k : list A -> database -> res (database * bool)) db : res (database * bool) :=
  match l with [] => Ok (db, true) | _ => k l db end.

(** [pkg/cluster/store/store_apply.go] [(s *Store) applyCMDs] *)
Definition applyCMDs (cmds : list (SCMD * Z)) db : res (database * bool) :=
  if_ok (apply_others db cmds) (fun db =>
  if_ok (if_any (List.filter (fun c => is_save c.1) cmds) handleChannelClusterConfigSavesForCMDs db) (fun db =>
  if_ok (if_any (List.filter is_user_conversations cmds.*1) handleAddOrUpdateUserConversationsForCMDs db) (fun db =>
  if_any (List.filter is_if_not_exist cmds.*1) handleAddOrUpdateConversationsBatchIfNotExistForCMDs db))).

(** [pkg/cluster/store/store_apply.go] [lines 35-43]

    An error of a single log panics. *)
Fixpoint apply_each db (logs : list Log) : res (database * bool) :=
  match logs with
  | [] => Ok (db, true)
  | log :: logs =>
      let! (db, ok) := applySlotLog log db in
      if ok then apply_each db logs else Panic
  end.

(** [pkg/cluster/store/store_apply.go] [(s *Store) ApplySlotLogs]

    In a batch a log that is no command panics before anything is applied, and an
    error of the database is returned. *)
Definition ApplySlotLogs db (logs : list Log) : res (database * bool) :=
  if 10 <=? len logs then
    match mapM (fun log => cmd ← SCMD_Unmarshal (log_Data log); Some (cmd, log_Index log)) logs with
    | None => Panic
    | Some cmds => applyCMDs cmds db
    end
  else apply_each db logs.
End Apply.
