(* ===== verification/StorePropose.v ===== *)
(** * The proposals of the store

    The methods of [pkg/cluster/store] that change data: [channel.go], [user.go],
    [conversation.go], [channel_clusterconfig.go], [tester.go], [plugin.go] and
    [device_revoke.go].  Each encodes a command and proposes it to a slot
    ([icluster.Slot], an interface of the store).

    A method is a function to the proposals it makes, each a slot with the data of
    the log, and whether it got through without an error of its own.  The later
    proposals of a method that makes several are those made when the earlier ones
    succeed. *)

From S2P Require Import Prelude RaftTypes WkProto RaftCodec ClusterConfig ClusterEvents WkMembers WkModel StoreCmd.

(** [opts.Slot] and the constants of [wkproto]. *)
Class SlotService := { GetSlotId : string -> Z; ChannelTypePerson : Z }.

(** What a method of the store proposes. *)
Abbreviation proposals := (list (Z * bytes) * bool)%type.

Section Propose.
Context {W : WkProto} {I : WkProtoInt32} {JD : Json conditionalDeviceUpdate} {SS : SlotService} {R : MapRange}.

Definition propose (slotId : Z) (cmd : SCMD) : proposals := ([(slotId, SCMD_Marshal cmd)], true).

(** A call that fails before it proposes. *)
Definition or_fail (r : option proposals) : proposals := default ([], false) r.

(** ** Channels *)

(** [pkg/cluster/store/channel.go] [(s *Store) AddSubscribers] *)
Definition Store_AddSubscribers (channelId : string) (channelType : Z) (subscribers : list Member) : proposals :=
  if len subscribers =? 0 then ([], true)
  else propose (GetSlotId channelId) (NewSCMD CMDAddSubscribers (EncodeMembers channelId channelType subscribers)).
(** [pkg/cluster/store/channel.go] [(s *Store) RemoveSubscribers] *)
Definition Store_RemoveSubscribers (channelId : string) (channelType : Z) (subscribers : list string) : proposals :=
  if len subscribers =? 0 then ([], true)
  else propose (GetSlotId channelId) (NewSCMD CMDRemoveSubscribers (EncodeChannelUids channelId channelType subscribers)).
(** [pkg/cluster/store/channel.go] [(s *Store) RemoveAllSubscriber] *)
Definition Store_RemoveAllSubscriber (channelId : string) (channelType : Z) : proposals :=
  propose (GetSlotId channelId) (NewSCMD CMDRemoveAllSubscriber (EncodeChannel channelId channelType)).
(** [pkg/cluster/store/channel.go] [(s *Store) AddChannelInfo] *)
Definition Store_AddChannelInfo (channelInfo : ChannelInfo) : proposals :=
  propose (GetSlotId (ci_ChannelId channelInfo))
    (NewSCMDWithVersion CMDAddChannelInfo (EncodeChannelInfo channelInfo CmdVersionChannelInfo) CmdVersionChannelInfo).
(** [pkg/cluster/store/channel.go] [(s *Store) UpdateChannelInfo] *)
Definition Store_UpdateChannelInfo (channelInfo : ChannelInfo) : proposals :=
  propose (GetSlotId (ci_ChannelId channelInfo))
    (NewSCMDWithVersion CMDUpdateChannelInfo (EncodeChannelInfo channelInfo CmdVersionChannelInfo) CmdVersionChannelInfo).
(** [pkg/cluster/store/channel.go] [(s *Store) DeleteChannel] *)
Definition Store_DeleteChannel (channelId : string) (channelType : Z) : proposals :=
  propose (GetSlotId channelId) (NewSCMD CMDDeleteChannel (EncodeChannel channelId channelType)).
(** [pkg/cluster/store/channel.go] [(s *Store) AddDenylist] *)
Definition Store_AddDenylist (channelId : string) (channelType : Z) (members : list Member) : proposals :=
  if len members =? 0 then ([], true)
  else propose (GetSlotId channelId) (NewSCMD CMDAddDenylist (EncodeMembers channelId channelType members)).
(** [pkg/cluster/store/channel.go] [(s *Store) RemoveAllDenylist] *)
Definition Store_RemoveAllDenylist (channelId : string) (channelType : Z) : proposals :=
  propose (GetSlotId channelId) (NewSCMD CMDRemoveAllDenylist (EncodeChannel channelId channelType)).
(** [pkg/cluster/store/channel.go] [(s *Store) RemoveDenylist] *)
Definition Store_RemoveDenylist (channelId : string) (channelType : Z) (uids : list string) : proposals :=
  if len uids =? 0 then ([], true)
  else propose (GetSlotId channelId) (NewSCMD CMDRemoveDenylist (EncodeChannelUids channelId channelType uids)).
(** [pkg/cluster/store/channel.go] [(s *Store) AddAllowlist] *)
Definition Store_AddAllowlist (channelId : string) (channelType : Z) (members : list Member) : proposals :=
  if len members =? 0 then ([], true)
  else propose (GetSlotId channelId) (NewSCMD CMDAddAllowlist (EncodeMembers channelId channelType members)).
(** [pkg/cluster/store/channel.go] [(s *Store) RemoveAllAllowlist] *)
Definition Store_RemoveAllAllowlist (channelId : string) (channelType : Z) : proposals :=
  propose (GetSlotId channelId) (NewSCMD CMDRemoveAllAllowlist (EncodeChannel channelId channelType)).
(** [pkg/cluster/store/channel.go] [(s *Store) RemoveAllowlist] *)
Definition Store_RemoveAllowlist (channelId : string) (channelType : Z) (uids : list string) : proposals :=
  if len uids =? 0 then ([], true)
  else propose (GetSlotId channelId) (NewSCMD CMDRemoveAllowlist (EncodeChannelUids channelId channelType uids)).

(** [pkg/cluster/store/channel_clusterconfig.go] [(s *Store) SaveChannelClusterConfig]

    The version that is returned is the index of the log. *)
Definition Store_SaveChannelClusterConfig (cfg : ChannelClusterConfig) : proposals :=
  propose (GetSlotId (cl_ChannelId cfg)) (NewSCMD CMDChannelClusterConfigSave
    (EncodeCMDChannelClusterConfigSave (cl_ChannelId cfg) (cl_ChannelType cfg) (ChannelClusterConfig_Marshal cfg))).

(** ** Users, devices and system users *)

(** [pkg/cluster/store/user.go] [(s *Store) AddUser] *)
Definition Store_AddUser (u : User) : proposals :=
  propose (GetSlotId (us_Uid u)) (NewSCMD CMDAddUser (EncodeCMDUser u)).
(** [pkg/cluster/store/user.go] [(s *Store) UpdateUser] *)
Definition Store_UpdateUser (u : User) : proposals :=
  propose (GetSlotId (us_Uid u)) (NewSCMD CMDUpdateUser (EncodeCMDUser u)).
(** [pkg/cluster/store/user.go] [(s *Store) AddDevice] *)
Definition Store_AddDevice (d : Device) : proposals :=
  propose (GetSlotId (dv_Uid d)) (NewSCMD CMDAddDevice (EncodeCMDDevice d)).
(** [pkg/cluster/store/user.go] [(s *Store) UpdateDevice] *)
Definition Store_UpdateDevice (d : Device) : proposals :=
  propose (GetSlotId (dv_Uid d)) (NewSCMD CMDUpdateDevice (EncodeCMDDevice d)).
(** [pkg/cluster/store/device_revoke.go] [(s *Store) UpdateDeviceIfTokenMatches]

    What could not be applied is not proposed. *)
Definition Store_UpdateDeviceIfTokenMatches (device : Device) (version : Z) (hash : string) : proposals :=
  or_fail (data ← json_Marshal (mkConditional device version hash);
           let command := NewSCMD CMDUpdateDeviceIfTokenMatches data in
           _ ← DecodeConditionalDevice command;
           Some (propose (GetSlotId (dv_Uid device)) command)).
(** [pkg/cluster/store/user.go] [(s *Store) AddSystemUids] *)
Definition Store_AddSystemUids (uids : list string) : proposals :=
  propose 0 (NewSCMD CMDSystemUIDsAdd (EncodeCMDSystemUIDs uids)).
(** [pkg/cluster/store/user.go] [(s *Store) RemoveSystemUids] *)
Definition Store_RemoveSystemUids (uids : list string) : proposals :=
  propose 0 (NewSCMD CMDSystemUIDsRemove (EncodeCMDSystemUIDs uids)).

(** ** Conversations *)

(** The conversations of each slot, in order. *)
Definition by_slot (conversations : list Conversation) : gmap Z (list Conversation) :=
  foldl (fun m c => let slotId := GetSlotId (cv_Uid c) in <[slotId := default [] (m !! slotId) ++ [c]]> m)
    ∅ conversations.

(** The data of the command of a slot. *)
Definition slot_command (cmdType : SCMDType) (conversations : list Conversation) : option bytes :=
  data ← EncodeCMDAddOrUpdateConversations conversations; Some (SCMD_Marshal (NewSCMD cmdType data)).

(** [pkg/cluster/store/conversation.go] [(s *Store) AddOrUpdateConversations]

    The slots are proposed to concurrently, and those that fail do not stop the
    others. *)
Definition Store_AddOrUpdateConversations (conversations : list Conversation) : proposals :=
  let slots := range 0 (by_slot conversations) in
  (omap (fun '(slotId, cs) => pair slotId <$> slot_command CMDAddOrUpdateConversations cs) slots,
   forallb (fun '(_, cs) => bool_decide (is_Some (slot_command CMDAddOrUpdateConversations cs))) slots).

(** A conversation without an id gets the next primary key. *)
Definition with_id (key : Z) (c : Conversation) : Conversation :=
  if cv_Id c =? 0 then {| c with cv_Id := key |} else c.

(** [pkg/cluster/store/conversation.go] [(s *Store) AddOrUpdateUserConversations]

    [nextKey] gives the keys the database hands out. *)
Definition Store_AddOrUpdateUserConversations (nextKey : nat -> Z) (uid : string) (conversations : list Conversation) :
    proposals :=
  if len conversations =? 0 then ([], true)
  else or_fail (data ← EncodeCMDAddOrUpdateUserConversations uid (imap (fun i => with_id (nextKey i)) conversations);
                Some (propose (GetSlotId uid) (NewSCMD CMDAddOrUpdateUserConversations data))).

(** [pkg/cluster/store/conversation.go] [lines 88-99]

    [exist] is [ExistConversation] of the database, [None] its error. *)
Fixpoint missing_conversations (exist : string -> string -> Z -> option bool) (nextKey : nat -> Z) (i : nat)
    (conversations : list Conversation) : option (list Conversation) :=
  match conversations with
  | [] => Some []
  | c :: conversations =>
      there ← exist (cv_Uid c) (cv_ChannelId c) (cv_ChannelType c);
      more ← missing_conversations exist nextKey (Datatypes.S i) conversations;
      Some (if (there : bool) then more else with_id (nextKey i) c :: more)
  end.
(** [pkg/cluster/store/conversation.go] [lines 110-123]

    One command per slot, until one cannot be encoded. *)
Fixpoint propose_in_turn (slots : list (Z * list Conversation)) : proposals :=
  match slots with
  | [] => ([], true)
  | (slotId, cs) :: slots =>
      match slot_command CMDAddOrUpdateConversationsBatchIfNotExist cs with
      | None => ([], false)
      | Some data => let '(more, ok) := propose_in_turn slots in ((slotId, data) :: more, ok)
      end
  end.
(** [pkg/cluster/store/conversation.go] [(s *Store) AddConversationsIfNotExist] *)
Definition Store_AddConversationsIfNotExist (exist : string -> string -> Z -> option bool) (nextKey : nat -> Z)
    (conversations : list Conversation) : proposals :=
  or_fail (cs ← missing_conversations exist nextKey 0 conversations;
           Some (propose_in_turn (range 0 (by_slot cs)))).

(** [pkg/cluster/store/conversation.go] [(s *Store) UpdateConversationDeletedAtMsgSeq] *)
Definition Store_UpdateConversationDeletedAtMsgSeq (uid channelId : string) (channelType deletedAtMsgSeq : Z) : proposals :=
  propose (GetSlotId uid) (NewSCMD CMDUpdateConversationDeletedAtMsgSeq
    (EncodeCMDUpdateConversationDeletedAtMsgSeq uid channelId channelType deletedAtMsgSeq)).
(** [pkg/cluster/store/conversation.go] [(s *Store) DeleteConversation] *)
Definition Store_DeleteConversation (uid channelID : string) (channelType : Z) : proposals :=
  propose (GetSlotId uid) (NewSCMD CMDDeleteConversation (EncodeCMDDeleteConversation uid channelID channelType)).
(** [pkg/cluster/store/conversation.go] [(s *Store) DeleteConversations] *)
Definition Store_DeleteConversations (uid : string) (channels : list Channel) : proposals :=
  propose (GetSlotId uid) (NewSCMD CMDDeleteConversations (EncodeCMDDeleteConversations uid channels)).
(** [pkg/cluster/store/conversation.go] [(s *Store) UpdateConversationIfSeqGreaterAsync]

    The slot is that of the channel unless the channel is a person. *)
Definition Store_UpdateConversationIfSeqGreaterAsync (uid channelId : string) (channelType readToMsgSeq : Z) : proposals :=
  propose (if channelType =? ChannelTypePerson then GetSlotId uid else GetSlotId channelId)
    (NewSCMD CMDUpdateConversationIfSeqGreater
       (EncodeCMDUpdateConversationIfSeqGreater uid channelId channelType readToMsgSeq)).

(** ** Messages *)

(** [pkg/cluster/store/message.go] [(s *Store) AppendMessages]

    The requests that are proposed to the channel; [None] when a message cannot be
    encoded.  Without messages nothing is proposed. *)
Definition Store_AppendMessages {F : Frames} (msgs : list Message) : option (list ProposeReq) :=
  mapM (fun msg => data ← Message_Marshal msg; Some (mkProposeReq (u64 (MessageID (ms_RecvPacket msg))) data)) msgs.

(** ** Testers and plugins: slot 0 *)

(** [pkg/cluster/store/tester.go] [(s *Store) AddOrUpdateTester] *)
Definition Store_AddOrUpdateTester (u : Tester) : res proposals :=
  let! data := EncodeCMDAddOrUpdateTester u in Ok (propose 0 (NewSCMD CMDAddOrUpdateTester data)).
(** [pkg/cluster/store/tester.go] [(s *Store) RemoveTester] *)
Definition Store_RemoveTester (no : string) : proposals :=
  propose 0 (NewSCMD CMDRemoveTester (EncodeCMDRemoveTester no)).
(** [pkg/cluster/store/plugin.go] [(s *Store) UpdateUserPluginNo]

    [now1] and [now2] are two readings of the clock. *)
Definition Store_UpdateUserPluginNo (now1 now2 : Z) (uid pluginNo : string) : proposals :=
  propose 0 (NewSCMD CMDUpdateUserPluginNo
    (EncodeCMDUserPluginNo (mkPluginUser uid pluginNo (Some now1) (Some now2)))).
(** [pkg/cluster/store/plugin.go] [(s *Store) RemovePluginUser] *)
Definition Store_RemovePluginUser (uid pluginNo : string) : proposals :=
  propose 0 (NewSCMD CMDRemovePluginUser (EncodeCMDPluginUser pluginNo uid)).
End Propose.
