(* ===== verification/StoreCalls.v ===== *)
(** * The calls of the store and their effects

    The methods of the store as one type ([scall]), the proposals they make
    ([call]) and what the replicas of a slot do when the log of a proposal is
    applied ([effects]): the call of the database with the arguments of the method,
    as far as they are encoded. *)

From S2P Require Import Prelude RaftTypes WkProto RaftCodec ClusterConfig ClusterCommands ClusterEvents WkMembers WkModel.
From S2P Require Import StoreCmd StoreCmdLaws StoreApply StorePropose.

Inductive scall :=
| SAddSubscribers (channelId : string) (channelType : Z) (members : list Member)
| SRemoveSubscribers (channelId : string) (channelType : Z) (uids : list string)
| SRemoveAllSubscriber (channelId : string) (channelType : Z)
| SAddDenylist (channelId : string) (channelType : Z) (members : list Member)
| SRemoveDenylist (channelId : string) (channelType : Z) (uids : list string)
| SRemoveAllDenylist (channelId : string) (channelType : Z)
| SAddAllowlist (channelId : string) (channelType : Z) (members : list Member)
| SRemoveAllowlist (channelId : string) (channelType : Z) (uids : list string)
| SRemoveAllAllowlist (channelId : string) (channelType : Z)
| SAddChannelInfo (c : ChannelInfo)
| SUpdateChannelInfo (c : ChannelInfo)
| SDeleteChannel (channelId : string) (channelType : Z)
| SSaveChannelClusterConfig (cfg : ChannelClusterConfig)
| SAddUser (u : User)
| SUpdateUser (u : User)
| SAddDevice (d : Device)
| SUpdateDevice (d : Device)
| SUpdateDeviceIfTokenMatches (d : Device) (version : Z) (hash : string)
| SAddSystemUids (uids : list string)
| SRemoveSystemUids (uids : list string)
| SAddOrUpdateConversations (cs : list Conversation)
| SAddOrUpdateUserConversations (nextKey : nat -> Z) (uid : string) (cs : list Conversation)
| SAddConversationsIfNotExist (exist : string -> string -> Z -> option bool) (nextKey : nat -> Z)
    (cs : list Conversation)
| SUpdateConversationDeletedAtMsgSeq (uid channelId : string) (channelType seq : Z)
| SDeleteConversation (uid channelId : string) (channelType : Z)
| SDeleteConversations (uid : string) (channels : list Channel)
| SUpdateConversationIfSeqGreater (uid channelId : string) (channelType seq : Z)
| SAddOrUpdateTester (t : Tester)
| SRemoveTester (no : string)
| SUpdateUserPluginNo (now1 now2 : Z) (uid pluginNo : string)
| SRemovePluginUser (uid pluginNo : string).

Section Calls.
Context {W : WkProto} {WL : WkProtoLaws W} {I : WkProtoInt32} {IL : WkProtoInt32Laws I}.
Context {JD : Json conditionalDeviceUpdate} {JDL : JsonLaws JD} {JE : Json MessageEvent}.
Context {SS : SlotService} {MR : MapRange} {ML : MapRangeLaws MR} {R : StrRange} {D : Wdb} {SC : SaveSchedule}.
Context (IsCmdChannel : string -> bool).

Definition call (o : scall) : res proposals :=
  match o with
  | SAddSubscribers c t ms => Ok (Store_AddSubscribers c t ms)
  | SRemoveSubscribers c t us => Ok (Store_RemoveSubscribers c t us)
  | SRemoveAllSubscriber c t => Ok (Store_RemoveAllSubscriber c t)
  | SAddDenylist c t ms => Ok (Store_AddDenylist c t ms)
  | SRemoveDenylist c t us => Ok (Store_RemoveDenylist c t us)
  | SRemoveAllDenylist c t => Ok (Store_RemoveAllDenylist c t)
  | SAddAllowlist c t ms => Ok (Store_AddAllowlist c t ms)
  | SRemoveAllowlist c t us => Ok (Store_RemoveAllowlist c t us)
  | SRemoveAllAllowlist c t => Ok (Store_RemoveAllAllowlist c t)
  | SAddChannelInfo c => Ok (Store_AddChannelInfo c)
  | SUpdateChannelInfo c => Ok (Store_UpdateChannelInfo c)
  | SDeleteChannel c t => Ok (Store_DeleteChannel c t)
  | SSaveChannelClusterConfig cfg => Ok (Store_SaveChannelClusterConfig cfg)
  | SAddUser u => Ok (Store_AddUser u)
  | SUpdateUser u => Ok (Store_UpdateUser u)
  | SAddDevice d => Ok (Store_AddDevice d)
  | SUpdateDevice d => Ok (Store_UpdateDevice d)
  | SUpdateDeviceIfTokenMatches d v h => Ok (Store_UpdateDeviceIfTokenMatches d v h)
  | SAddSystemUids us => Ok (Store_AddSystemUids us)
  | SRemoveSystemUids us => Ok (Store_RemoveSystemUids us)
  | SAddOrUpdateConversations cs => Ok (Store_AddOrUpdateConversations cs)
  | SAddOrUpdateUserConversations k u cs => Ok (Store_AddOrUpdateUserConversations k u cs)
  | SAddConversationsIfNotExist e k cs => Ok (Store_AddConversationsIfNotExist e k cs)
  | SUpdateConversationDeletedAtMsgSeq u c t seq => Ok (Store_UpdateConversationDeletedAtMsgSeq u c t seq)
  | SDeleteConversation u c t => Ok (Store_DeleteConversation u c t)
  | SDeleteConversations u chs => Ok (Store_DeleteConversations u chs)
  | SUpdateConversationIfSeqGreater u c t seq => Ok (Store_UpdateConversationIfSeqGreaterAsync u c t seq)
  | SAddOrUpdateTester t => Store_AddOrUpdateTester t
  | SRemoveTester no => Ok (Store_RemoveTester no)
  | SUpdateUserPluginNo n1 n2 u p => Ok (Store_UpdateUserPluginNo n1 n2 u p)
  | SRemovePluginUser u p => Ok (Store_RemovePluginUser u p)
  end.

(** ** Arguments that can be encoded *)

Definition strs_fit (l : list string) : Prop := len l < two32 /\ Forall (fun s => str_fits s) l.
Definition members_fit (ms : list Member) : Prop := len ms < two32 /\ Forall member_fits ms.
(** Conversations of a user, and few enough for a command. *)
Definition owned (c : Conversation) : Prop := cv_Uid c <> "" /\ conversation_fits c.
Definition conversations_fit (cs : list Conversation) : Prop := len cs < two16 /\ Forall owned cs.
Definition channelinfo_fits (c : ChannelInfo) : Prop :=
  str_fits (ci_ChannelId c) /\ is_u8 (ci_ChannelType c) /\ str_fits (ci_Webhook c).

(** The arguments of a call fit their encoding. *)
Definition call_fits (o : scall) : Prop :=
  match o with
  | SAddSubscribers c t ms | SAddDenylist c t ms | SAddAllowlist c t ms => str_fits c /\ is_u8 t /\ members_fit ms
  | SRemoveSubscribers c t us | SRemoveDenylist c t us | SRemoveAllowlist c t us => str_fits c /\ is_u8 t /\ strs_fit us
  | SRemoveAllSubscriber c t | SRemoveAllDenylist c t | SRemoveAllAllowlist c t | SDeleteChannel c t =>
      str_fits c /\ is_u8 t
  | SAddChannelInfo c | SUpdateChannelInfo c => channelinfo_fits c
  | SSaveChannelClusterConfig cfg => config_fits cfg
  | SAddUser u | SUpdateUser u => is_u64 (us_Id u) /\ str_fits (us_Uid u)
  | SAddDevice d | SUpdateDevice d => device_fits d
  | SUpdateDeviceIfTokenMatches d v h =>
      let update := mkConditional d v h in
      json_expressible update /\ is_Some (json_Marshal update) /\
      (exists hash, hex_DecodeString h = Some hash /\ len hash = 32) /\ dv_Id d <> 0 /\ dv_Uid d <> "" /\
      dv_Token d <> "" /\ v < dv_TokenVersion d < 9007199254740991
  | SAddSystemUids us | SRemoveSystemUids us => strs_fit us
  | SAddOrUpdateConversations cs => conversations_fit cs
  | SAddOrUpdateUserConversations k u cs =>
      str_fits u /\ len cs < two32 /\ Forall owned (imap (fun i => with_id (k i)) cs)
  | SAddConversationsIfNotExist e k cs =>
      exists found, missing_conversations e k 0 cs = Some found /\ conversations_fit found
  | SUpdateConversationDeletedAtMsgSeq u c t seq | SUpdateConversationIfSeqGreater u c t seq =>
      str_fits u /\ str_fits c /\ is_u8 t /\ is_u64 seq
  | SDeleteConversation u c t => str_fits u /\ str_fits c /\ is_u8 t
  | SDeleteConversations u chs => str_fits u /\ len chs < 2147483648 /\ Forall channel_fits chs
  | SAddOrUpdateTester t =>
      str_fits (te_No t) /\ str_fits (te_Addr t) /\ is_Some (te_CreatedAt t) /\ is_Some (te_UpdatedAt t)
  | SRemoveTester no => str_fits no
  | SUpdateUserPluginNo _ _ u p | SRemovePluginUser u p => str_fits u /\ str_fits p
  end.

(** ** Effects *)

(** The calls of the database for a log, given its index. *)
Abbreviation effect_t := (Z -> list dbop).

Definition on {A} (l : list A) (slotId : Z) (op : dbop) : list (Z * effect_t) :=
  match l with [] => [] | _ => [(slotId, fun _ => [op])] end.

(** The conversations of each slot. *)
Definition on_slots (op : list Conversation -> dbop) (cs : list Conversation) : list (Z * effect_t) :=
  (fun slotId => (slotId, fun _ : Z =>
     [op (stored_conversation <$> List.filter (fun c => GetSlotId (cv_Uid c) =? slotId) cs)]))
  <$> (range 0 (by_slot cs)).*1.

Definition effects (o : scall) : list (Z * effect_t) :=
  match o with
  | SAddSubscribers c t ms => on ms (GetSlotId c) (DbAddSubscribers c t (stored_member <$> ms))
  | SRemoveSubscribers c t us => on us (GetSlotId c) (DbRemoveSubscribers c t us)
  | SRemoveAllSubscriber c t => [(GetSlotId c, fun _ => [DbRemoveAllSubscriber c t])]
  | SAddDenylist c t ms => on ms (GetSlotId c) (DbAddDenylist c t (stored_member <$> ms))
  | SRemoveDenylist c t us => on us (GetSlotId c) (DbRemoveDenylist c t us)
  | SRemoveAllDenylist c t => [(GetSlotId c, fun _ => [DbRemoveAllDenylist c t])]
  | SAddAllowlist c t ms => on ms (GetSlotId c) (DbAddAllowlist c t (stored_member <$> ms))
  | SRemoveAllowlist c t us => on us (GetSlotId c) (DbRemoveAllowlist c t us)
  | SRemoveAllAllowlist c t => [(GetSlotId c, fun _ => [DbRemoveAllAllowlist c t])]
  | SAddChannelInfo c => [(GetSlotId (ci_ChannelId c), fun _ => [DbAddChannel (stored_channel c)])]
  | SUpdateChannelInfo c => [(GetSlotId (ci_ChannelId c), fun _ => [DbUpdateChannel (stored_channel c)])]
  | SDeleteChannel c t => [(GetSlotId c, fun _ => [DbDeleteChannel c t])]
  | SSaveChannelClusterConfig cfg =>
      [(GetSlotId (cl_ChannelId cfg), fun logIndex =>
          [DbSaveChannelClusterConfigs [{| (stored_config cfg) with cl_ConfVersion := logIndex |}]])]
  | SAddUser u => [(GetSlotId (us_Uid u), fun _ => [DbAddUser (stored_user u)])]
  | SUpdateUser u => [(GetSlotId (us_Uid u), fun _ => [DbUpdateUser (stored_user u)])]
  | SAddDevice d => [(GetSlotId (dv_Uid d), fun _ => [DbAddDevice (stored_device d)])]
  | SUpdateDevice d => [(GetSlotId (dv_Uid d), fun _ => [DbUpdateDevice (stored_device d)])]
  | SUpdateDeviceIfTokenMatches d v h => [(GetSlotId (dv_Uid d), fun _ => [DbUpdateDeviceIfTokenMatches d v h])]
  | SAddSystemUids us => [(0, fun _ => [DbAddSystemUids us])]
  | SRemoveSystemUids us => [(0, fun _ => [DbRemoveSystemUids us])]
  | SAddOrUpdateConversations cs => on_slots DbAddOrUpdateConversations cs
  | SAddOrUpdateUserConversations k u cs =>
      on cs (GetSlotId u) (DbAddOrUpdateConversationsWithUser u
        (stored_conversation <$> imap (fun i => with_id (k i)) cs))
  | SAddConversationsIfNotExist e k cs =>
      on_slots DbAddOrUpdateConversationsBatchIfNotExist (default [] (missing_conversations e k 0 cs))
  | SUpdateConversationDeletedAtMsgSeq u c t seq =>
      [(GetSlotId u, fun _ => [DbUpdateConversationDeletedAtMsgSeq u c t seq])]
  | SDeleteConversation u c t => [(GetSlotId u, fun _ => [DbDeleteConversation u c t])]
  | SDeleteConversations u chs => [(GetSlotId u, fun _ => [DbDeleteConversations u chs])]
  | SUpdateConversationIfSeqGreater u c t seq =>
      [(if t =? ChannelTypePerson then GetSlotId u else GetSlotId c,
        fun _ => [DbUpdateConversationIfSeqGreater u c t seq])]
  | SAddOrUpdateTester t => [(0, fun _ => [DbAddOrUpdateTester (stored_tester t)])]
  | SRemoveTester no => [(0, fun _ => [DbRemoveTester no])]
  | SUpdateUserPluginNo n1 n2 u p =>
      [(0, fun _ => [DbAddOrUpdatePluginUsers [stored_plugin_user (mkPluginUser u p (Some n1) (Some n2))]])]
  | SRemovePluginUser u p => [(0, fun _ => [DbRemovePluginUser p u])]
  end.
End Calls.
