(* ===== verification/StoreCallsLaws.v ===== *)
(** * From a call of the store to the databases of the replicas

    The calls of the database a command stands for ([cmd_ops]), that applying a log
    makes exactly those, and that the log of a proposal stands for the effect of the
    call that made it ([call_carried]). *)

From S2P Require Import Prelude RaftTypes WkProto RaftCodec ClusterConfig ClusterCommands ClusterEvents WkMembers WkModel.
From S2P Require Import StoreCmd StoreCmdLaws StoreApply StorePropose StoreCalls.

Section Ops.
Context {W : WkProto} {I : WkProtoInt32}.
Context {JD : Json conditionalDeviceUpdate} {JE : Json MessageEvent} {R : StrRange}.
Context (IsCmdChannel : string -> bool).

(** The calls of a command, unless it cannot be decoded. *)
Definition cmd_ops (cmd : SCMD) (logIndex : Z) : option (list dbop) :=
  match sc_CmdType cmd with
  | CMDChannelClusterConfigSave => (fun cfg => [DbSaveChannelClusterConfigs [cfg]]) <$> decode_config cmd logIndex
  | CMDAddOrUpdateConversations => (fun cs => [DbAddOrUpdateConversations cs]) <$> DecodeCMDAddOrUpdateConversations cmd
  | CMDAddSubscribers => (fun '(c, t, ms) => [DbAddSubscribers c t ms]) <$> DecodeMembers cmd
  | CMDRemoveSubscribers => (fun '(c, t, us) => [DbRemoveSubscribers c t us]) <$> DecodeChannelUids cmd
  | CMDAddUser => (fun u => [DbAddUser u]) <$> DecodeCMDUser cmd
  | CMDUpdateUser => (fun u => [DbUpdateUser u]) <$> DecodeCMDUser cmd
  | CMDAddDevice => (fun d => [DbAddDevice d]) <$> DecodeCMDDevice cmd
  | CMDUpdateDevice => (fun d => [DbUpdateDevice d]) <$> DecodeCMDDevice cmd
  | CMDUpdateDeviceIfTokenMatches =>
      (fun '(d, v, h) => [DbUpdateDeviceIfTokenMatches d v h]) <$> DecodeConditionalDevice cmd
  | CMDAddChannelInfo => (fun c => [DbAddChannel c]) <$> DecodeChannelInfo cmd
  | CMDUpdateChannelInfo => (fun c => [DbUpdateChannel c]) <$> DecodeChannelInfo cmd
  | CMDRemoveAllSubscriber => (fun '(c, t) => [DbRemoveAllSubscriber c t]) <$> DecodeChannel cmd
  | CMDDeleteChannel => (fun '(c, t) => [DbDeleteChannel c t]) <$> DecodeChannel cmd
  | CMDAddDenylist => (fun '(c, t, ms) => [DbAddDenylist c t ms]) <$> DecodeMembers cmd
  | CMDRemoveDenylist => (fun '(c, t, us) => [DbRemoveDenylist c t us]) <$> DecodeChannelUids cmd
  | CMDRemoveAllDenylist => (fun '(c, t) => [DbRemoveAllDenylist c t]) <$> DecodeChannel cmd
  | CMDAddAllowlist => (fun '(c, t, ms) => [DbAddAllowlist c t ms]) <$> DecodeMembers cmd
  | CMDRemoveAllowlist => (fun '(c, t, us) => [DbRemoveAllowlist c t us]) <$> DecodeChannelUids cmd
  | CMDRemoveAllAllowlist => (fun '(c, t) => [DbRemoveAllAllowlist c t]) <$> DecodeChannel cmd
  | CMDAddOrUpdateUserConversations =>
      (fun '(u, cs) => [DbAddOrUpdateConversationsWithUser u cs]) <$> DecodeCMDAddOrUpdateUserConversations cmd
  | CMDDeleteConversation => (fun '(u, c, t) => [DbDeleteConversation u c t]) <$> DecodeCMDDeleteConversation cmd
  | CMDDeleteConversations => (fun '(u, chs) => [DbDeleteConversations u chs]) <$> DecodeCMDDeleteConversations cmd
  | CMDBatchUpdateConversation =>
      (fun models => mjoin (imap (model_ops IsCmdChannel) models)) <$> DecodeCMDBatchUpdateConversation cmd
  | CMDSystemUIDsAdd => (fun us => [DbAddSystemUids us]) <$> DecodeCMDSystemUIDs cmd
  | CMDSystemUIDsRemove => (fun us => [DbRemoveSystemUids us]) <$> DecodeCMDSystemUIDs cmd
  | CMDAddOrUpdateTester => (fun t => [DbAddOrUpdateTester t]) <$> DecodeCMDAddOrUpdateTester cmd
  | CMDRemoveTester => (fun no => [DbRemoveTester no]) <$> DecodeCMDRemoveTester cmd
  | CMDUpdateUserPluginNo => (fun p => [DbAddOrUpdatePluginUsers [p]]) <$> DecodeCMDUserPluginNo cmd
  | CMDRemovePluginUser => (fun '(p, u) => [DbRemovePluginUser p u]) <$> DecodeCMDPluginUser cmd
  | CMDAddOrUpdateConversationsBatchIfNotExist =>
      (fun cs => [DbAddOrUpdateConversationsBatchIfNotExist cs]) <$> DecodeCMDAddOrUpdateConversations cmd
  | CMDUpdateConversationDeletedAtMsgSeq =>
      (fun '(u, c, t, seq) => [DbUpdateConversationDeletedAtMsgSeq u c t seq]) <$>
      DecodeCMDUpdateConversationDeletedAtMsgSeq cmd
  | CMDAppendMessageEvent => (fun e => [DbAppendMessageEventWithState e]) <$> DecodeCMDMessageEvent cmd
  | CMDUpdateConversationIfSeqGreater =>
      (fun '(u, c, t, seq) => [DbUpdateConversationIfSeqGreater u c t seq]) <$>
      DecodeCMDUpdateConversationIfSeqGreater cmd
  | _ => Some []
  end.

Lemma handle_fmap {D : Wdb} {A} (dec : option A) f (db : database) :
  handle dec f db = handle (f <$> dec) id db.
Proof. by destruct dec. Qed.

(** Applying a command makes its calls. *)
Lemma applyCMD_ops {D : Wdb} cmd logIndex (db : database) :
  applyCMD IsCmdChannel cmd logIndex db = handle (cmd_ops cmd logIndex) id db.
Proof. unfold applyCMD, cmd_ops. destruct (sc_CmdType cmd); try done; apply handle_fmap. Qed.

(** The data of a log and the calls it stands for. *)
Definition carries (data : bytes) (e : Z -> list dbop) : Prop :=
  exists cmd, SCMD_Unmarshal data = Some cmd /\ forall logIndex, cmd_ops cmd logIndex = Some (e logIndex).

Lemma carries_apply {D : Wdb} log e (db : database) :
  carries (log_Data log) e -> applySlotLog IsCmdChannel log db = run_ops db (e (log_Index log)).
Proof. intros (cmd & E & H). unfold applySlotLog. by rewrite E, applyCMD_ops, H. Qed.
End Ops.

Section Carried.
Context {W : WkProto} {WL : WkProtoLaws W} {I : WkProtoInt32} {IL : WkProtoInt32Laws I}.
Context {JD : Json conditionalDeviceUpdate} {JDL : JsonLaws JD} {JE : Json MessageEvent} {R : StrRange}.
Context (IsCmdChannel : string -> bool).
Abbreviation carries := (carries IsCmdChannel).
Abbreviation cmd_ops := (cmd_ops IsCmdChannel).

Lemma carries_cmd t data v e :
  known t -> is_u16 v ->
  (forall logIndex, cmd_ops (mkSCMD t data (if v =? 0 then 1 else v)) logIndex = Some (e logIndex)) ->
  carries (SCMD_Marshal (mkSCMD t data v)) e.
Proof. intros Ht Hv H. eexists. split; [by apply SCMD_reads|]. exact H. Qed.

(** *** Conversations by slot *)

Context {SS : SlotService} {MR : MapRange} {ML : MapRangeLaws MR}.

Abbreviation of_slot slotId := (fun c => GetSlotId (cv_Uid c) =? slotId).

Lemma by_slot_lookup cs slotId :
  by_slot cs !! slotId = match List.filter (of_slot slotId) cs with [] => None | l => Some l end.
Proof.
  unfold by_slot. induction cs as [|c cs IH] using rev_ind; [apply lookup_empty|].
  rewrite foldl_app. cbn [foldl]. rewrite List.filter_app. cbn [List.filter].
  destruct (Z.eqb_spec (GetSlotId (cv_Uid c)) slotId) as [<-|Hne].
  - rewrite lookup_insert_eq, IH. by destruct (List.filter _ cs).
  - rewrite lookup_insert_ne, IH by done. by rewrite app_nil_r.
Qed.

Lemma range_by_slot i cs slotId l :
  (slotId, l) ∈ range i (by_slot cs) -> l = List.filter (of_slot slotId) cs.
Proof.
  rewrite range_perm, elem_of_map_to_list, by_slot_lookup. destruct (List.filter _ cs); [done|congruence].
Qed.

Lemma marshal_all_some cs : Forall owned cs -> is_Some (marshal_all Conversation_Marshal cs).
Proof.
  induction 1 as [|c cs [Hc _] _ [b IH]]; [by eexists|]. cbn [marshal_all].
  assert (is_Some (Conversation_Marshal c)) as [d ->].
  { unfold Conversation_Marshal. rewrite bool_decide_eq_false_2 by done. by eexists. }
  simpl. rewrite IH. by eexists.
Qed.

Lemma owned_fits cs : Forall owned cs -> Forall conversation_fits cs.
Proof. intros H. eapply Forall_impl; [exact H|]. by intros c [_ ?]. Qed.

Lemma slot_command_some t cs op :
  known t -> (forall c logIndex, sc_CmdType c = t ->
    cmd_ops c logIndex = (fun cs => [op cs]) <$> DecodeCMDAddOrUpdateConversations c) ->
  conversations_fit cs ->
  exists data, slot_command t cs = Some data /\ carries data (fun _ => [op (stored_conversation <$> cs)]).
Proof.
  intros Ht Hop [Hl Hf]. unfold slot_command, EncodeCMDAddOrUpdateConversations, ConversationSet_Marshal.
  destruct (marshal_all_some cs Hf) as [b E]. rewrite E. simpl. eexists. split; [done|].
  apply carries_cmd; [done|done|]. intros logIndex. rewrite Hop by done.
  erewrite Conversations_read; [done|done|by apply owned_fits|].
  unfold EncodeCMDAddOrUpdateConversations, ConversationSet_Marshal. by rewrite E.
Qed.

Lemma filter_fits f cs : conversations_fit cs -> conversations_fit (List.filter f cs).
Proof.
  intros [Hl Hf]. split.
  - pose proof (List.filter_length_le f cs). lia.
  - apply List.Forall_forall. intros c [Hin _]%List.filter_In. by apply (proj1 (List.Forall_forall _ _) Hf).
Qed.

(** Every slot that is visited gets its command. *)
Lemma slots_carried t op cs (slots : list (Z * list Conversation)) :
  known t -> (forall c logIndex, sc_CmdType c = t ->
    cmd_ops c logIndex = (fun cs => [op cs]) <$> DecodeCMDAddOrUpdateConversations c) ->
  conversations_fit cs -> (forall slotId l, (slotId, l) ∈ slots -> l = List.filter (of_slot slotId) cs) ->
  Forall (fun '(_, l) => is_Some (slot_command t l)) slots /\
  Forall2 (fun p e => p.1 = e.1 /\ carries p.2 e.2)
    (omap (fun '(slotId, l) => pair slotId <$> slot_command t l) slots)
    ((fun slotId => (slotId, fun _ : Z => [op (stored_conversation <$> List.filter (of_slot slotId) cs)])) <$> slots.*1).
Proof.
  intros Ht Hop Hf. induction slots as [|[slotId l] slots IH]; intros Hs; [by split|].
  destruct IH as [IH1 IH2]. { intros s' l' ?. apply Hs. by apply list_elem_of_further. }
  assert (l = List.filter (of_slot slotId) cs) as -> by (apply Hs, list_elem_of_here).
  destruct (slot_command_some t (List.filter (of_slot slotId) cs) op Ht Hop) as (data & E & Hc).
  { by apply filter_fits. }
  split; [by constructor; [rewrite E; eexists|]|]. cbn [omap list_omap fmap list_fmap fst]. rewrite E. simpl.
  by constructor.
Qed.

Lemma propose_in_turn_all slots :
  Forall (fun '(_, l) => is_Some (slot_command CMDAddOrUpdateConversationsBatchIfNotExist l)) slots ->
  propose_in_turn slots =
    (omap (fun '(slotId, l) => pair slotId <$> slot_command CMDAddOrUpdateConversationsBatchIfNotExist l) slots, true).
Proof.
  induction 1 as [|[slotId l] slots [data E] _ IH]; [done|]. cbn [propose_in_turn omap list_omap].
  rewrite E, IH. done.
Qed.

(** A call succeeds, and its proposals carry its effects. *)
Definition carried (r : res proposals) (es : list (Z * (Z -> list dbop))) : Prop :=
  exists ps, r = Ok (ps, true) /\ Forall2 (fun p e => p.1 = e.1 /\ carries p.2 e.2) ps es.

Lemma carried_one slotId t data v e :
  known t -> is_u16 v ->
  (forall logIndex, cmd_ops (mkSCMD t data (if v =? 0 then 1 else v)) logIndex = Some (e logIndex)) ->
  carried (Ok (propose slotId (mkSCMD t data v))) [(slotId, e)].
Proof.
  intros Ht Hv He. eexists. split; [done|]. constructor; [|done]. split; [done|]. by apply carries_cmd.
Qed.

Lemma carried_on {A} (l : list A) slotId t data op :
  known t ->
  (forall logIndex, cmd_ops (mkSCMD t data 1) logIndex = Some [op]) ->
  carried (Ok (if len l =? 0 then ([], true) else propose slotId (NewSCMD t data))) (on l slotId op).
Proof.
  intros Ht He. destruct l as [|x l].
  - eexists. split; [done|]. constructor.
  - destruct (Z.eqb_spec (len (x :: l)) 0) as [E|_]; [simpl in E; lia|]. by apply carried_one.
Qed.
(** A command whose decoder reads back the arguments. *)
Ltac carried_cmd law :=
  first [apply carried_one|apply carried_on]; [done|try done..|]; intros ?; unfold StoreCallsLaws.cmd_ops; cbn [sc_CmdType];
  erewrite law; [reflexivity|try done..].

Lemma config_carried cfg logIndex :
  config_fits cfg ->
  decode_config (mkSCMD CMDChannelClusterConfigSave (EncodeCMDChannelClusterConfigSave (cl_ChannelId cfg)
    (cl_ChannelType cfg) (ChannelClusterConfig_Marshal cfg)) 1) logIndex =
  Some {| (stored_config cfg) with cl_ConfVersion := logIndex |}.
Proof.
  intros Hf. pose proof Hf as (H1 & H2 & _). unfold decode_config. erewrite ConfigSave_read by done. simpl.
  by rewrite ClusterConfig_reads.
Qed.

Lemma conditional_carried d v h :
  call_fits (SUpdateDeviceIfTokenMatches d v h) ->
  carried (call (SUpdateDeviceIfTokenMatches d v h)) (effects (SUpdateDeviceIfTokenMatches d v h)).
Proof.
  intros (Hx & [data Hm] & (hash & Hh & Hl) & H1 & H2 & H3 & H4). cbn [call effects].
  unfold Store_UpdateDeviceIfTokenMatches. rewrite Hm. cbn [mbind option_bind].
  assert (forall version, DecodeConditionalDevice (mkSCMD CMDUpdateDeviceIfTokenMatches data version) = Some (d, v, h)) as E.
  { intros version. unfold DecodeConditionalDevice. cbn [sc_Data]. rewrite (json_reads _ _ Hx Hm). simpl.
    rewrite Hh. simpl. rewrite !bool_decide_eq_false_2 by done.
    destruct (Z.eqb_spec (len hash) 32), (Z.eqb_spec (dv_Id d) 0), (Z.leb_spec (dv_TokenVersion d) v),
      (Z.leb_spec 9007199254740991 (dv_TokenVersion d)); (done || lia). }
  unfold NewSCMD. rewrite E. apply carried_one; [done..|]. intros ?.
  unfold StoreCallsLaws.cmd_ops. cbn [sc_CmdType]. by rewrite E.
Qed.

Lemma user_conversations_carried k u cs :
  call_fits (SAddOrUpdateUserConversations k u cs) ->
  carried (call (SAddOrUpdateUserConversations k u cs)) (effects (SAddOrUpdateUserConversations k u cs)).
Proof.
  intros (H1 & H2 & H3). cbn [call effects]. unfold Store_AddOrUpdateUserConversations, EncodeCMDAddOrUpdateUserConversations.
  pose proof (length_imap (fun i => with_id (k i)) cs) as Hl.
  destruct (marshal_all_some _ H3) as [b E]. rewrite E. simpl. apply carried_on; [done|].
  intros ?. unfold StoreCallsLaws.cmd_ops. cbn [sc_CmdType].
  erewrite UserConversations_read; [done|done|by rewrite Hl|by apply owned_fits|].
  unfold EncodeCMDAddOrUpdateUserConversations. by rewrite E.
Qed.

Lemma by_slot_carried cs :
  conversations_fit cs -> carried (call (SAddOrUpdateConversations cs)) (effects (SAddOrUpdateConversations cs)).
Proof.
  intros Hf. cbn [call effects]. unfold Store_AddOrUpdateConversations, on_slots.
  destruct (slots_carried CMDAddOrUpdateConversations DbAddOrUpdateConversations cs (range 0 (by_slot cs)))
    as [H1 H2]; [done| |done|intros ? ?; apply range_by_slot|].
  { intros c ? Hc. unfold StoreCallsLaws.cmd_ops. by rewrite Hc. }
  eexists. split; [|exact H2]. do 2 f_equal. apply forallb_forall. intros [slotId l] Hin%list_elem_of_In.
  apply bool_decide_eq_true. rewrite Forall_forall in H1. by apply (H1 (slotId, l)).
Qed.

Lemma if_not_exist_carried e k cs :
  call_fits (SAddConversationsIfNotExist e k cs) ->
  carried (call (SAddConversationsIfNotExist e k cs)) (effects (SAddConversationsIfNotExist e k cs)).
Proof.
  intros (found & E & Hf). cbn [call effects]. unfold Store_AddConversationsIfNotExist, on_slots. rewrite E. simpl.
  destruct (slots_carried CMDAddOrUpdateConversationsBatchIfNotExist DbAddOrUpdateConversationsBatchIfNotExist
    found (range 0 (by_slot found))) as [H1 H2]; [done| |done|intros ? ?; apply range_by_slot|].
  { intros c ? Hc. unfold StoreCallsLaws.cmd_ops. by rewrite Hc. }
  eexists. split; [|exact H2]. by rewrite propose_in_turn_all.
Qed.

Lemma tester_carried t :
  call_fits (SAddOrUpdateTester t) -> carried (call (SAddOrUpdateTester t)) (effects (SAddOrUpdateTester t)).
Proof.
  intros (H1 & H2 & [c Hc] & [u Hu]). cbn [call effects]. unfold Store_AddOrUpdateTester.
  destruct (EncodeCMDAddOrUpdateTester t) as [data| |] eqn:E;
    [|unfold EncodeCMDAddOrUpdateTester in E; by rewrite Hc, Hu in E..].
  cbn [res_bind]. apply carried_one; [done..|]. intros ?. unfold StoreCallsLaws.cmd_ops. cbn [sc_CmdType].
  by erewrite Tester_read.
Qed.

(** The effect of every call reaches the slots it is proposed to. *)
Lemma call_carried o : call_fits o -> carried (call o) (effects o).
Proof.
  destruct o; try (intros Hf; first [by apply conditional_carried|by apply user_conversations_carried|
      by apply by_slot_carried|by apply if_not_exist_carried|by apply tester_carried]);
    cbn [call_fits call effects]; unfold members_fit, strs_fit, channelinfo_fits; intros Hf; destruct_and? Hf.
  - carried_cmd Members_read.
  - carried_cmd ChannelUids_read.
  - carried_cmd Channel_read.
  - carried_cmd Members_read.
  - carried_cmd ChannelUids_read.
  - carried_cmd Channel_read.
  - carried_cmd Members_read.
  - carried_cmd ChannelUids_read.
  - carried_cmd Channel_read.
  - carried_cmd ChannelInfo_read.
  - carried_cmd ChannelInfo_read.
  - carried_cmd Channel_read.
  - carried_cmd config_carried.
  - carried_cmd User_read.
  - carried_cmd User_read.
  - carried_cmd Device_read.
  - carried_cmd Device_read.
  - carried_cmd SystemUIDs_read.
  - carried_cmd SystemUIDs_read.
  - carried_cmd DeletedAtMsgSeq_read.
  - carried_cmd DeleteConversation_read.
  - carried_cmd DeleteConversations_read.
  - carried_cmd IfSeqGreater_read.
  - carried_cmd RemoveTester_read.
  - carried_cmd UserPluginNo_read.
  - carried_cmd PluginUser_read.
Qed.
End Carried.
