(* ===== verification/StoreBatch.v ===== *)
(** * Batches of logs

    What [ApplySlotLogs] does to the database, against the calls the logs stand for
    in their order: one by one for a short batch; for a long one the calls of the
    commands that are put off come last and are merged, and nothing is lost, added
    or, within a user, reordered. *)

From S2P Require Import Prelude RaftTypes WkProto RaftCodec ClusterConfig WkMembers WkModel.
From S2P Require Import StoreCmd StoreApply StoreCallsLaws.

(** A call of several records as calls of one. *)
Definition split_op (op : dbop) : list dbop :=
  match op with
  | DbSaveChannelClusterConfigs cfgs => (fun cfg => DbSaveChannelClusterConfigs [cfg]) <$> cfgs
  | DbAddOrUpdateConversationsWithUser uid cs => (fun c => DbAddOrUpdateConversationsWithUser uid [c]) <$> cs
  | DbAddOrUpdateConversationsBatchIfNotExist cs => (fun c => DbAddOrUpdateConversationsBatchIfNotExist [c]) <$> cs
  | op => [op]
  end.
Definition split_ops (ops : list dbop) : list dbop := mjoin (split_op <$> ops).

(** The conversations some calls write for a user, and those they add if missing. *)
Definition written_for (uid : string) (ops : list dbop) : list Conversation :=
  mjoin ((fun op => match op with
                    | DbAddOrUpdateConversationsWithUser u cs => if bool_decide (u = uid) then cs else []
                    | _ => []
                    end) <$> ops).
Definition added_if_missing (ops : list dbop) : list Conversation :=
  mjoin ((fun op => match op with DbAddOrUpdateConversationsBatchIfNotExist cs => cs | _ => [] end) <$> ops).
(** The calls a batch puts off. *)
Definition late_op (op : dbop) : bool :=
  match op with
  | DbSaveChannelClusterConfigs _ | DbAddOrUpdateConversationsWithUser _ _
  | DbAddOrUpdateConversationsBatchIfNotExist _ => true
  | _ => false
  end.

Lemma split_ops_app a b : split_ops (a ++ b) = split_ops a ++ split_ops b.
Proof. unfold split_ops. by rewrite fmap_app, join_app. Qed.
#[export] Instance split_ops_perm : Proper ((≡ₚ) ==> (≡ₚ)) split_ops.
Proof.
  intros a b Hp. unfold split_ops. induction Hp; cbn [fmap list_fmap mjoin list_join]; [done|by f_equiv| |by etrans].
  rewrite !app_assoc. apply Permutation_app_tail, Permutation_app_comm.
Qed.
Lemma written_for_app u a b : written_for u (a ++ b) = written_for u a ++ written_for u b.
Proof. unfold written_for. by rewrite fmap_app, join_app. Qed.
Lemma added_if_missing_app a b : added_if_missing (a ++ b) = added_if_missing a ++ added_if_missing b.
Proof. unfold added_if_missing. by rewrite fmap_app, join_app. Qed.

Lemma sublist_whole {A} (l1 l2 : list A) : l1 `sublist_of` l2 -> (length l2 <= length l1)%nat -> l1 = l2.
Proof.
  induction 1 as [|x l1 l2 _ IH|x l1 l2 H IH]; intros Hl; [done|f_equal; apply IH; simpl in Hl; lia|].
  apply sublist_length in H. simpl in Hl. lia.
Qed.

Section Runs.
Context {D : Wdb}.
Implicit Types db : database.

(** [f] succeeds exactly where the calls [ops] do, with their result. *)
Definition runs (f : database -> res (database * bool)) (ops : list dbop) : Prop :=
  forall db db', f db = Ok (db', true) <-> run_ops db ops = Ok (db', true).

Lemma run_ops_app db a b : run_ops db (a ++ b) = if_ok (run_ops db a) (fun db => run_ops db b).
Proof.
  revert db. induction a as [|op a IH]; intros db; [done|]. cbn [run_ops app]. unfold if_ok.
  destruct (db_exec db op) as [[db1 ok]| |]; [|done..]. cbn [res_bind]. destruct ok; [|done].
  rewrite IH. done.
Qed.

Lemma if_ok_true r k db' :
  if_ok r k = Ok (db', true) <-> exists db1, r = Ok (db1, true) /\ k db1 = Ok (db', true).
Proof.
  unfold if_ok. destruct r as [[db1 ok]| |]; cbn [res_bind]; [destruct ok|..]; split; try done.
  - intros H. by exists db1.
  - by intros (db2 & [= <-] & H).
  - by intros (db2 & [=] & _).
  - by intros (db2 & [=] & _).
  - by intros (db2 & [=] & _).
Qed.

Lemma runs_seq f g a b : runs f a -> runs g b -> runs (fun db => if_ok (f db) g) (a ++ b).
Proof.
  intros Hf Hg db db'. rewrite run_ops_app, !if_ok_true. split; intros (db1 & H1 & H2); exists db1;
    split; by (apply Hf || apply Hg).
Qed.

Lemma runs_none : runs (fun db => Ok (db, true)) [].
Proof. done. Qed.

Lemma runs_handle {A} (dec : option A) f a : dec = Some a -> runs (handle dec f) (f a).
Proof. by intros ->. Qed.

Lemma runs_any {A} (l : list A) (k : list A -> database -> res (database * bool)) ops :
  (l = [] -> ops = []) -> (l <> [] -> runs (k l) ops) -> runs (if_any l k) ops.
Proof. destruct l; intros H1 H2; [by rewrite H1|by apply H2]. Qed.

Lemma runs_save_all batches : runs (fun db => save_all db batches) (DbSaveChannelClusterConfigs <$> batches).
Proof.
  induction batches as [|b batches IH]; intros db db'; [done|]. cbn [save_all fmap list_fmap run_ops].
  destruct (db_exec db (DbSaveChannelClusterConfigs b)) as [[db1 ok]| |]; [|done..]. cbn [res_bind].
  destruct ok.
  - etrans; [|apply IH]. by destruct (save_all db1 batches) as [[db2 oks]| |].
  - destruct (save_all db1 batches) as [[db2 oks]| |]; done.
Qed.
End Runs.

(** ** The conversations of the users *)

Definition grouped (m : gmap string (list Conversation)) (us : list (string * list Conversation)) :=
  foldl (fun m '(u, cs) => <[u := default [] (m !! u) ++ cs]> m) m us.

Abbreviation WithUser := (fun '(u, cs) => DbAddOrUpdateConversationsWithUser u cs).

Lemma grouped_insert (m : gmap string (list Conversation)) u cs :
  split_ops (WithUser <$> map_to_list (<[u := default [] (m !! u) ++ cs]> m)) ≡ₚ
  split_ops (WithUser <$> map_to_list m) ++ split_op (DbAddOrUpdateConversationsWithUser u cs).
Proof.
  rewrite <-insert_delete_eq, map_to_list_insert by apply lookup_delete_eq.
  destruct (m !! u) as [old|] eqn:E.
  - rewrite <-(map_to_list_delete m u old E). unfold split_ops. cbn [default from_option id fmap list_fmap mjoin list_join split_op].
    rewrite fmap_app, <-!app_assoc. apply Permutation_app_head. apply Permutation_app_comm.
  - rewrite delete_id by done. unfold split_ops. cbn [default from_option id fmap list_fmap mjoin list_join split_op app].
    apply Permutation_app_comm.
Qed.

Lemma grouped_split m us :
  split_ops (WithUser <$> map_to_list (grouped m us)) ≡ₚ
  split_ops (WithUser <$> map_to_list m) ++ split_ops (WithUser <$> us).
Proof.
  revert m. induction us as [|[u cs] us IH]; intros m; [by rewrite app_nil_r|].
  cbn [grouped foldl]. fold (grouped (<[u:=default [] (m !! u) ++ cs]> m) us).
  rewrite IH, grouped_insert. unfold split_ops. cbn [fmap list_fmap mjoin list_join].
  by rewrite <-app_assoc.
Qed.

Lemma grouped_lookup m us u :
  default [] (grouped m us !! u) = default [] (m !! u) ++ written_for u (WithUser <$> us).
Proof.
  revert m. induction us as [|[u' cs] us IH]; intros m; [by rewrite app_nil_r|].
  cbn [grouped foldl]. fold (grouped (<[u':=default [] (m !! u') ++ cs]> m) us).
  rewrite IH. unfold written_for. cbn [fmap list_fmap mjoin list_join]. rewrite app_assoc. f_equal.
  case_bool_decide as E.
  - subst u'. by rewrite lookup_insert_eq.
  - by rewrite lookup_insert_ne, app_nil_r by done.
Qed.

(** What is written for a user, whatever the order of the users. *)
Lemma written_for_map (l : list (string * list Conversation)) (m : gmap string (list Conversation)) u :
  l ≡ₚ map_to_list m -> written_for u (WithUser <$> l) = default [] (m !! u).
Proof.
  intros Hp. assert (NoDup l.*1) as Hn by (rewrite Hp; apply NoDup_fst_map_to_list).
  assert (forall cs, (u, cs) ∈ l <-> m !! u = Some cs) as Hin by (intros cs; by rewrite Hp, elem_of_map_to_list).
  clear Hp. destruct (m !! u) as [cs|]; cbn [default from_option id].
  - assert ((u, cs) ∈ l) as H by by apply Hin. clear Hin. induction l as [|[u' cs'] l IH]; [by apply not_elem_of_nil in H|].
    apply NoDup_cons in Hn as [Hu Hn]. unfold written_for in *. cbn [fmap list_fmap mjoin list_join] in *.
    apply elem_of_cons in H as [[= <- <-]|H].
    + rewrite bool_decide_eq_true_2 by done. clear IH Hn. rewrite <-(app_nil_r cs) at 2. f_equal.
      induction l as [|[u' cs'] l IH]; [done|]. cbn [fmap list_fmap mjoin list_join fst] in *.
      apply not_elem_of_cons in Hu as [H1 H2]. rewrite bool_decide_eq_false_2 by congruence. by apply IH.
    + rewrite bool_decide_eq_false_2; [by apply IH|]. intros ->. apply Hu, list_elem_of_fmap. by exists (u, cs).
  - unfold written_for. assert (forall cs, (u, cs) ∉ l) as H by (intros cs ?%Hin; done). clear Hin Hn.
    induction l as [|[u' cs'] l IH]; [done|]. cbn [fmap list_fmap mjoin list_join].
    rewrite bool_decide_eq_false_2; [apply IH; intros cs ?; eapply H; by apply list_elem_of_further|].
    intros ->. eapply H, list_elem_of_here.
Qed.

(** ** A batch *)

Section Batch.
Context {W : WkProto} {I : WkProtoInt32}.
Context {JD : Json conditionalDeviceUpdate} {JE : Json MessageEvent}.
Context {R : StrRange} {RL : StrRangeLaws R} {D : Wdb} {SC : SaveSchedule} {SL : SaveScheduleLaws SC}.
Context (IsCmdChannel : string -> bool).
Abbreviation cmd_ops := (cmd_ops IsCmdChannel).

(** Commands, the indices of their logs and the calls they stand for. *)
Implicit Types zs : list (SCMD * Z * list dbop).
Definition reads_as (z : SCMD * Z * list dbop) : Prop := cmd_ops z.1.1 z.1.2 = Some z.2.

(** The calls of the commands [f] selects. *)
Definition sel (f : SCMD -> bool) zs : list dbop := mjoin ((List.filter (fun z => f z.1.1) zs).*2).
Definition is_other (c : SCMD) : bool := negb (put_off c).

Lemma sel_cons f z zs : sel f (z :: zs) = (if f z.1.1 then z.2 else []) ++ sel f zs.
Proof. unfold sel. cbn [List.filter]. by destruct (f z.1.1). Qed.

Lemma others_run zs : Forall reads_as zs -> runs (fun db => apply_others IsCmdChannel db zs.*1) (sel is_other zs).
Proof.
  induction 1 as [|[[c i] ops] zs Hz _ IH]; [apply runs_none|]. rewrite sel_cons. unfold is_other at 1.
  cbn [fmap list_fmap fst snd apply_others]. destruct (put_off c); [exact IH|].
  cbn [negb]. intros db db'. rewrite run_ops_app, (applyCMD_ops IsCmdChannel), Hz. cbn [handle id].
  change (if_ok (run_ops db ops) (fun db => apply_others IsCmdChannel db zs.*1) = Ok (db', true) <->
          if_ok (run_ops db ops) (fun db => run_ops db (sel is_other zs)) = Ok (db', true)). rewrite !if_ok_true.
  split; intros (db1 & H1 & H2); exists db1; (split; [done|]); by apply IH.
Qed.

(** Commands of a kind that is one call each. *)
Lemma sel_decoded {A} (f : SCMD -> bool) (dec : SCMD * Z -> option A) (op : A -> dbop) zs :
  (forall c i, f c = true -> cmd_ops c i = (fun a => [op a]) <$> dec (c, i)) -> Forall reads_as zs ->
  exists l, mapM dec (List.filter (fun c => f c.1) zs.*1) = Some l /\ sel f zs = op <$> l.
Proof.
  intros Hop. induction 1 as [|[[c i] ops] zs Hz _ (l & IH1 & IH2)]; [by exists []|].
  rewrite sel_cons, IH2. cbn [fmap list_fmap List.filter fst snd].
  destruct (f c) eqn:E; [|by exists l]. unfold reads_as in Hz. cbn [fst snd] in Hz.
  rewrite (Hop c i E) in Hz. destruct (dec (c, i)) as [a|] eqn:Ed; [|done].
  injection Hz as <-. exists (a :: l). split; [|done]. cbn [mapM]. rewrite Ed. cbn. by rewrite IH1.
Qed.

Lemma mapM_fst {A} (dec : SCMD -> option A) (l : list (SCMD * Z)) :
  mapM (fun c => dec c.1) l = mapM dec l.*1.
Proof.
  induction l as [|c l IH]; [done|]. cbn [mapM fmap list_fmap]. destruct (dec c.1); [|done]. cbn. by rewrite IH.
Qed.

Lemma filter_fst f (l : list (SCMD * Z)) : (List.filter (fun c => f c.1) l).*1 = List.filter f l.*1.
Proof. induction l as [|c l IH]; [done|]. cbn [List.filter fmap list_fmap]. destruct (f c.1); by rewrite <-IH. Qed.

Lemma decode_configs_all l cfgs :
  mapM (fun c => decode_config c.1 c.2) l = Some cfgs -> decode_configs l = (cfgs, true).
Proof.
  revert cfgs. induction l as [|[c i] l IH]; intros cfgs; cbn [mapM decode_configs]; [by intros [= <-]|].
  cbn [fst snd]. destruct (decode_config c i) as [cfg|]; [|done].
  destruct (mapM _ l) as [cfgs'|]; [|done]. intros [= <-]. by rewrite (IH cfgs').
Qed.

Lemma group_all m cmds us :
  mapM DecodeCMDAddOrUpdateUserConversations cmds = Some us -> group_conversations m cmds = Some (grouped m us).
Proof.
  revert m us. induction cmds as [|c cmds IH]; intros m us; cbn [mapM group_conversations]; [by intros [= <-]|].
  destruct (DecodeCMDAddOrUpdateUserConversations c) as [[u cs]|]; [|done].
  destruct (mapM _ cmds) as [us'|] eqn:E; [|done]. intros [= <-]. cbn [mbind option_bind]. by rewrite (IH _ us').
Qed.

Lemma runs_saves zs :
  Forall reads_as zs -> exists cfgs,
    runs (if_any (List.filter (fun c => is_save c.1) zs.*1) handleChannelClusterConfigSavesForCMDs)
      (DbSaveChannelClusterConfigs <$> save_batches cfgs) /\
    sel is_save zs = (fun cfg => DbSaveChannelClusterConfigs [cfg]) <$> cfgs.
Proof.
  intros Hz. destruct (sel_decoded is_save (fun c => decode_config c.1 c.2)
    (fun cfg => DbSaveChannelClusterConfigs [cfg]) zs) as (cfgs & E & Hs); [|done|].
  { intros c i Hc%bool_decide_eq_true. unfold StoreCallsLaws.cmd_ops. by rewrite Hc. }
  exists cfgs. split; [|exact Hs]. apply runs_any.
  - intros Hl. rewrite Hl in E. injection E as <-.
    pose proof (save_batches_full []) as Hf. pose proof (save_batches_perm []) as Hp.
    apply Permutation_nil_r in Hp. by destruct Hf as [|b bs Hb]; [|destruct b].
  - intros _ db db'. unfold handleChannelClusterConfigSavesForCMDs.
    rewrite (decode_configs_all _ _ E). etrans; [|apply runs_save_all].
    by destruct (save_all db (save_batches cfgs)) as [[db1 oks]| |].
Qed.

Lemma runs_users zs :
  Forall reads_as zs -> exists us,
    runs (if_any (List.filter is_user_conversations zs.*1.*1) (handleAddOrUpdateUserConversationsForCMDs))
      (WithUser <$> srange 0 (grouped ∅ us)) /\
    sel is_user_conversations zs = WithUser <$> us.
Proof.
  intros Hz. destruct (sel_decoded is_user_conversations
    (fun c => DecodeCMDAddOrUpdateUserConversations c.1) WithUser zs) as (us & E & Hs); [|done|].
  { intros c i Hc%bool_decide_eq_true. unfold StoreCallsLaws.cmd_ops. rewrite Hc. cbn [fst].
    by destruct (DecodeCMDAddOrUpdateUserConversations c) as [[u cs]|]. }
  exists us. split; [|exact Hs]. rewrite mapM_fst in E.
  rewrite (filter_fst is_user_conversations) in E. apply runs_any.
  - intros Hl. rewrite Hl in E. injection E as <-. pose proof (srange_perm 0 (grouped ∅ [])) as Hp.
    cbn [grouped foldl] in Hp |- *. rewrite map_to_list_empty in Hp. by apply Permutation_nil_r in Hp as ->.
  - intros _. unfold handleAddOrUpdateUserConversationsForCMDs.
    apply (runs_handle (group_conversations ∅ _) (fun m => WithUser <$> srange 0 m)). by apply group_all.
Qed.

Lemma runs_missing zs :
  Forall reads_as zs -> exists ops css,
    runs (if_any (List.filter is_if_not_exist zs.*1.*1) handleAddOrUpdateConversationsBatchIfNotExistForCMDs) ops /\
    (css = [] /\ ops = [] \/ css <> [] /\ ops = [DbAddOrUpdateConversationsBatchIfNotExist (mjoin css)]) /\
    sel is_if_not_exist zs = DbAddOrUpdateConversationsBatchIfNotExist <$> css.
Proof.
  intros Hz. destruct (sel_decoded is_if_not_exist
    (fun c => DecodeCMDAddOrUpdateConversations c.1) DbAddOrUpdateConversationsBatchIfNotExist zs) as (css & E & Hs); [|done|].
  { intros c i Hc%bool_decide_eq_true. unfold StoreCallsLaws.cmd_ops. by rewrite Hc. }
  rewrite mapM_fst in E.  rewrite (filter_fst is_if_not_exist) in E.
  destruct (List.filter is_if_not_exist zs.*1.*1) as [|c l] eqn:El.
  - injection E as <-. exists [], []. split; [apply runs_none|]. split; [by left|exact Hs].
  - exists [DbAddOrUpdateConversationsBatchIfNotExist (mjoin css)], css. split; [|split; [right|exact Hs]].
    2: { split; [|done]. intros ->. cbn [mapM] in E. destruct (DecodeCMDAddOrUpdateConversations c); [|done].
         by destruct (mapM DecodeCMDAddOrUpdateConversations l). }
    apply runs_any; [done|]. intros _. unfold handleAddOrUpdateConversationsBatchIfNotExistForCMDs.
    by apply (runs_handle (mapM _ _) (fun css => [DbAddOrUpdateConversationsBatchIfNotExist (mjoin css)])).
Qed.

(** What a command that is put off stands for. *)
Inductive late_kind (c : SCMD) : list dbop -> Prop :=
| lk_save cfg : is_save c = true -> is_user_conversations c = false -> is_if_not_exist c = false ->
    late_kind c [DbSaveChannelClusterConfigs [cfg]]
| lk_user u cs : is_save c = false -> is_user_conversations c = true -> is_if_not_exist c = false ->
    late_kind c [DbAddOrUpdateConversationsWithUser u cs]
| lk_missing cs : is_save c = false -> is_user_conversations c = false -> is_if_not_exist c = true ->
    late_kind c [DbAddOrUpdateConversationsBatchIfNotExist cs].

Lemma put_off_kind c i ops : put_off c = true -> reads_as (c, i, ops) -> late_kind c ops.
Proof.
  unfold put_off, reads_as, StoreCallsLaws.cmd_ops. cbn [fst snd].
  intros Hp. unfold is_save, is_user_conversations, is_if_not_exist in Hp.
  destruct (sc_CmdType c) eqn:Ec; try (vm_compute in Hp; discriminate Hp); clear Hp; intros Hr.
  - destruct (DecodeCMDAddOrUpdateUserConversations c) as [[u cs]|]; [|done]. injection Hr as <-.
    apply lk_user; unfold is_save, is_user_conversations, is_if_not_exist; by rewrite Ec.
  - destruct (decode_config c i) as [cfg|]; [|done]. injection Hr as <-.
    apply lk_save; unfold is_save, is_user_conversations, is_if_not_exist; by rewrite Ec.
  - destruct (DecodeCMDAddOrUpdateConversations c) as [cs|]; [|done]. injection Hr as <-.
    apply lk_missing; unfold is_save, is_user_conversations, is_if_not_exist; by rewrite Ec.
Qed.

Lemma not_put_off c :
  put_off c = false -> is_save c = false /\ is_user_conversations c = false /\ is_if_not_exist c = false.
Proof. unfold put_off. by intros [[? ?]%orb_false_iff ?]%orb_false_iff. Qed.

(** The calls that are put off, by kind. *)
Lemma rest_split zs :
  Forall reads_as zs ->
  split_ops (sel put_off zs) ≡ₚ
    split_ops (sel is_save zs) ++ split_ops (sel is_user_conversations zs) ++ split_ops (sel is_if_not_exist zs).
Proof.
  induction 1 as [|[[c i] ops] zs Hz _ IH]; [done|]. rewrite !sel_cons, !split_ops_app, IH. cbn [fst snd].
  destruct (put_off c) eqn:Ec.
  - destruct (put_off_kind c i ops Ec Hz) as [? -> -> ->|? ? -> -> ->|? -> -> ->];
      unfold split_ops at 1; cbn [fmap list_fmap mjoin list_join split_op app]; rewrite ?app_nil_r; [done|solve_Permutation..].
  - by destruct (not_put_off c Ec) as (-> & -> & ->).
Qed.

Lemma rest_written zs u :
  Forall reads_as zs -> written_for u (sel put_off zs) = written_for u (sel is_user_conversations zs).
Proof.
  induction 1 as [|[[c i] ops] zs Hz _ IH]; [done|]. rewrite !sel_cons, !written_for_app, IH. cbn [fst snd].
  destruct (put_off c) eqn:Ec.
  - destruct (put_off_kind c i ops Ec Hz) as [? H1 H2 H3|? ? H1 H2 H3|? H1 H2 H3]; by rewrite H2.
  - destruct (not_put_off c Ec) as (H1 & H2 & H3). by rewrite H2.
Qed.

Lemma rest_missing zs :
  Forall reads_as zs -> added_if_missing (sel put_off zs) = added_if_missing (sel is_if_not_exist zs).
Proof.
  induction 1 as [|[[c i] ops] zs Hz _ IH]; [done|]. rewrite !sel_cons, !added_if_missing_app, IH. cbn [fst snd].
  destruct (put_off c) eqn:Ec.
  - destruct (put_off_kind c i ops Ec Hz) as [? H1 H2 H3|? ? H1 H2 H3|? H1 H2 H3]; by rewrite H3.
  - destruct (not_put_off c Ec) as (H1 & H2 & H3). by rewrite H3.
Qed.

Lemma sel_sublist f zs : sel f zs `sublist_of` mjoin zs.*2.
Proof.
  induction zs as [|z zs IH]; [done|]. rewrite sel_cons. cbn [fmap list_fmap mjoin list_join].
  apply sublist_app; [|done]. destruct (f z.1.1); [done|apply sublist_nil_l].
Qed.

Lemma sel_both zs : sel is_other zs ++ sel put_off zs ≡ₚ mjoin zs.*2.
Proof.
  induction zs as [|z zs IH]; [done|]. rewrite !sel_cons. cbn [fmap list_fmap mjoin list_join]. unfold is_other at 1.
  destruct (put_off z.1.1); cbn [negb app]; rewrite <-IH; solve_Permutation.
Qed.

Lemma save_batches_split cfgs :
  split_ops (DbSaveChannelClusterConfigs <$> save_batches cfgs) ≡ₚ (fun cfg => DbSaveChannelClusterConfigs [cfg]) <$> cfgs.
Proof.
  rewrite <-(save_batches_perm cfgs) at 2. unfold split_ops.
  induction (save_batches cfgs) as [|b bs IH]; [done|]. cbn [fmap list_fmap mjoin list_join split_op].
  rewrite fmap_app. by f_equiv.
Qed.

Lemma save_batches_nil : save_batches [] = [].
Proof.
  pose proof (save_batches_full []) as Hf. pose proof (save_batches_perm []) as Hp.
  apply Permutation_nil_r in Hp. by destruct Hf as [|b bs Hb]; [|destruct b].
Qed.

Lemma srange_empty {V} i : srange i (∅ : gmap string V) = [].
Proof. pose proof (srange_perm i (∅ : gmap string V)) as Hp. rewrite map_to_list_empty in Hp. by apply Permutation_nil_r in Hp. Qed.

Lemma written_for_other u {A} (f : A -> dbop) l :
  (forall a, match f a with DbAddOrUpdateConversationsWithUser _ _ => False | _ => True end) ->
  written_for u (f <$> l) = [].
Proof.
  intros Hf. induction l as [|a l IH]; [done|]. change (f <$> a :: l) with ([f a] ++ (f <$> l)).
  rewrite written_for_app, IH. specialize (Hf a). unfold written_for. cbn. by destruct (f a).
Qed.

Lemma added_other {A} (f : A -> dbop) l :
  (forall a, match f a with DbAddOrUpdateConversationsBatchIfNotExist _ => False | _ => True end) ->
  added_if_missing (f <$> l) = [].
Proof.
  intros Hf. induction l as [|a l IH]; [done|]. change (f <$> a :: l) with ([f a] ++ (f <$> l)).
  rewrite added_if_missing_app, IH. specialize (Hf a). unfold added_if_missing. cbn. by destruct (f a).
Qed.

Lemma added_missing css : added_if_missing (DbAddOrUpdateConversationsBatchIfNotExist <$> css) = mjoin css.
Proof. unfold added_if_missing. rewrite <-list_fmap_compose. unfold compose. by rewrite list_fmap_id. Qed.

Lemma split_missing css :
  split_ops (DbAddOrUpdateConversationsBatchIfNotExist <$> css) =
  (fun c => DbAddOrUpdateConversationsBatchIfNotExist [c]) <$> mjoin css.
Proof.
  unfold split_ops. induction css as [|cs css IH]; [done|]. cbn [fmap list_fmap mjoin list_join split_op].
  rewrite fmap_app. by f_equal.
Qed.

(** The late calls of a batch against those of the commands that were put off. *)
Record merged (rest late : list dbop) : Prop := {
  mg_late : Forall (fun op => late_op op = true) late;
  mg_split : split_ops late ≡ₚ split_ops rest;
  mg_written u : written_for u late = written_for u rest;
  mg_missing : added_if_missing late = added_if_missing rest;
  mg_none : rest = [] -> late = []
}.

Lemma batch_merged zs cfgs us css ops :
  Forall reads_as zs ->
  sel is_save zs = (fun cfg => DbSaveChannelClusterConfigs [cfg]) <$> cfgs ->
  sel is_user_conversations zs = WithUser <$> us ->
  sel is_if_not_exist zs = DbAddOrUpdateConversationsBatchIfNotExist <$> css ->
  (css = [] /\ ops = [] \/ css <> [] /\ ops = [DbAddOrUpdateConversationsBatchIfNotExist (mjoin css)]) ->
  merged (sel put_off zs)
    ((DbSaveChannelClusterConfigs <$> save_batches cfgs) ++ (WithUser <$> srange 0 (grouped ∅ us)) ++ ops).
Proof.
  intros Hz Hs Hu Hm Ho. split.
  - repeat apply Forall_app_2; [by apply Forall_fmap, Forall_true|apply Forall_fmap, Forall_true; by intros [u cs]|].
    destruct Ho as [[_ ->]|[_ ->]]; [done|]. by constructor.
  - rewrite rest_split, Hs, Hu, Hm, !split_ops_app, save_batches_split by done.
    rewrite (srange_perm 0 (grouped ∅ us)), grouped_split, map_to_list_empty. f_equiv; [|f_equiv; [done|]].
    + unfold split_ops. symmetry. clear. induction cfgs as [|cfg cfgs IH]; [done|].
      exact (perm_skip (DbSaveChannelClusterConfigs [cfg]) IH).
    + rewrite split_missing. destruct Ho as [[-> ->]|[_ ->]]; [done|]. unfold split_ops.
      cbn [fmap list_fmap mjoin list_join split_op]. by rewrite app_nil_r.
  - intros u. rewrite rest_written, Hu, !written_for_app by done.
    rewrite written_for_other by done. rewrite (written_for_map _ (grouped ∅ us)) by apply srange_perm.
    rewrite grouped_lookup, lookup_empty. destruct Ho as [[_ ->]|[_ ->]]; by rewrite app_nil_r.
  - rewrite rest_missing, Hm, !added_if_missing_app, added_missing by done.
    rewrite !added_other by (try done; by intros [u cs]). destruct Ho as [[-> ->]|[_ ->]]; [done|].
    unfold added_if_missing. cbn. by rewrite app_nil_r.
  - intros Hr. assert (forall f, (forall c, f c = true -> put_off c = true) -> sel f zs = []) as Hnil.
    { intros f Hf. assert (sel f zs `sublist_of` sel put_off zs) as Hsub.
      { clear -Hf. induction zs as [|z zs IH]; [done|]. rewrite !sel_cons. apply sublist_app; [|done].
        destruct (f z.1.1) eqn:E; [by rewrite (Hf _ E)|apply sublist_nil_l]. }
      rewrite Hr in Hsub. by apply sublist_nil_r in Hsub. }
    rewrite (Hnil is_save) in Hs by (intros c Hc; unfold put_off; by rewrite Hc).
    rewrite (Hnil is_user_conversations) in Hu by (intros c Hc; unfold put_off; by rewrite Hc, orb_true_r).
    rewrite (Hnil is_if_not_exist) in Hm by (intros c Hc; unfold put_off; by rewrite Hc, orb_true_r).
    symmetry in Hs, Hu, Hm. apply fmap_nil_inv in Hs as ->. apply fmap_nil_inv in Hu as ->. apply fmap_nil_inv in Hm as ->.
    rewrite save_batches_nil. cbn [grouped foldl]. rewrite srange_empty. by destruct Ho as [[_ ->]|[? ->]].
Qed.

(** A batch makes the other calls in order, and then the late ones. *)
Lemma batch_runs zs :
  Forall reads_as zs ->
  exists late, runs (applyCMDs IsCmdChannel zs.*1) (sel is_other zs ++ late) /\ merged (sel put_off zs) late.
Proof.
  intros Hz. destruct (runs_saves zs Hz) as (cfgs & R1 & Hs). destruct (runs_users zs Hz) as (us & R2 & Hu).
  destruct (runs_missing zs Hz) as (ops & css & R3 & Ho & Hm).
  eexists. split; [|by eapply batch_merged]. unfold applyCMDs.
  apply (runs_seq (fun db => apply_others IsCmdChannel db zs.*1)); [by apply others_run|].
  apply (runs_seq (if_any _ handleChannelClusterConfigSavesForCMDs)); [done|].
  by apply (runs_seq (if_any _ handleAddOrUpdateUserConversationsForCMDs)).
Qed.

(** *** Logs *)

(** The calls of logs that carry the effects [es], one log after the other. *)
Definition ops_of (logs : list Log) (es : list (Z -> list dbop)) : list dbop :=
  mjoin (zip_with (fun log (e : Z -> list dbop) => e (log_Index log)) logs es).
Definition carry (logs : list Log) (es : list (Z -> list dbop)) : Prop :=
  Forall2 (fun log e => carries IsCmdChannel (log_Data log) e) logs es.

Lemma logs_read logs es :
  carry logs es ->
  exists zs, mapM (fun log => cmd ← SCMD_Unmarshal (log_Data log); Some (cmd, log_Index log)) logs = Some zs.*1 /\
    Forall reads_as zs /\ mjoin zs.*2 = ops_of logs es.
Proof.
  induction 1 as [|log e logs es (cmd & E & He) _ (zs & E1 & Hz & E2)]; [by exists []|].
  exists ((cmd, log_Index log, e (log_Index log)) :: zs). split_and!.
  - cbn [mapM]. rewrite E. cbn [mbind option_bind]. by rewrite E1.
  - constructor; [apply He|done].
  - unfold ops_of. cbn. f_equal. exact E2.
Qed.

(** Short batches: the calls in order; an error of the database panics. *)
Lemma each_exact logs es (db : database) :
  carry logs es ->
  apply_each IsCmdChannel db logs =
    let! (db', ok) := run_ops db (ops_of logs es) in if ok then Ok (db', true) else Panic.
Proof.
  intros H. revert db. induction H as [|log e logs es Hc _ IH]; intros db; [done|]. cbn [apply_each].
  rewrite (carries_apply IsCmdChannel log e) by done. unfold ops_of. cbn [zip_with mjoin list_join].
  rewrite run_ops_app. fold (ops_of logs es). unfold if_ok.
  destruct (run_ops db (e (log_Index log))) as [[db1 ok]| |]; [|done..]. cbn [res_bind].
  destruct ok; [apply IH|done].
Qed.

(** What a batch does: [first] in order, then [late]. *)
Lemma slot_runs logs es :
  carry logs es ->
  exists first rest late,
    runs (fun db => ApplySlotLogs IsCmdChannel db logs) (first ++ late) /\
    first `sublist_of` ops_of logs es /\ rest `sublist_of` ops_of logs es /\ first ++ rest ≡ₚ ops_of logs es /\
    merged rest late /\ Forall (fun op => late_op op = true) rest /\ (len logs < 10 -> first = ops_of logs es).
Proof.
  intros Hc. unfold ApplySlotLogs. destruct (Z.leb_spec 10 (len logs)) as [Hl|Hl].
  - destruct (logs_read logs es Hc) as (zs & E & Hz & Ho). rewrite E, <-Ho.
    destruct (batch_runs zs Hz) as (late & Hr & Hm).
    exists (sel is_other zs), (sel put_off zs), late.
    split_and!; [done|apply sel_sublist|apply sel_sublist|apply sel_both|done| |lia].
    clear -Hz. induction Hz as [|[[c i] ops] zs Hz _ IH]; [constructor|]. rewrite sel_cons. cbn [fst snd].
    apply Forall_app_2; [|done]. destruct (put_off c) eqn:Ec; [|constructor].
    destruct (put_off_kind c i ops Ec Hz); by constructor.
  - exists (ops_of logs es), [], []. split_and!; [|done|apply sublist_nil_l|by rewrite app_nil_r| |done|done].
    + intros db db'. rewrite (each_exact logs es) by done. rewrite app_nil_r.
      destruct (run_ops db (ops_of logs es)) as [[db1 ok]| |]; [|done..]. cbn [res_bind]. by destruct ok.
    + by split.
Qed.

(** Without commands that are put off a batch is its logs in order. *)
Lemma early_runs logs es :
  carry logs es -> Forall (fun op => late_op op = false) (ops_of logs es) ->
  runs (fun db => ApplySlotLogs IsCmdChannel db logs) (ops_of logs es).
Proof.
  intros Hc He. destruct (slot_runs logs es Hc) as (first & rest & late & Hr & H1 & H2 & Hp & Hm & Hl & _).
  assert (rest = []) as ->.
  { destruct rest as [|op rest]; [done|]. apply Forall_cons in Hl as [Hop _].
    rewrite <-Hp in He. apply Forall_app in He as [_ [He _]%Forall_cons]. congruence. }
  rewrite (mg_none _ _ Hm eq_refl), !app_nil_r in *.
  assert (first = ops_of logs es) as <-; [|done].
  apply sublist_whole; [done|]. by rewrite Hp.
Qed.

(** Several batches, up to the first error. *)
Fixpoint apply_batches (db : database) (batches : list (list Log)) : res (database * bool) :=
  match batches with
  | [] => Ok (db, true)
  | logs :: batches => if_ok (ApplySlotLogs IsCmdChannel db logs) (fun db => apply_batches db batches)
  end.

Lemma ops_of_app l1 l2 e1 e2 : length l1 = length e1 -> ops_of (l1 ++ l2) (e1 ++ e2) = ops_of l1 e1 ++ ops_of l2 e2.
Proof. intros H. unfold ops_of. by rewrite zip_with_app, join_app. Qed.

Lemma early_batches batches es :
  carry (mjoin batches) es -> Forall (fun op => late_op op = false) (ops_of (mjoin batches) es) ->
  runs (fun db => apply_batches db batches) (ops_of (mjoin batches) es).
Proof.
  revert es. induction batches as [|logs batches IH]; intros es Hc He.
  - apply Forall2_nil_inv_l in Hc as ->. apply runs_none.
  - cbn [mjoin list_join] in *. apply Forall2_app_inv_l in Hc as (e1 & e2 & H1 & H2 & ->).
    assert (length logs = length e1) as Hlen by by eapply Forall2_length.
    rewrite ops_of_app in * by done.
    apply Forall_app in He as [He1 He2].
    apply (runs_seq (fun db => ApplySlotLogs IsCmdChannel db logs)); [by apply early_runs|by apply IH].
Qed.
End Batch.
