(* ===== verification/StoreSave.v ===== *)
(** * The workers that save channel configurations

    [pkg/cluster/store]: [Start] runs fifty [loopSaveChannelClusterConfig]; the
    handlers send their configurations to a channel of 2048 places and wait for the
    answer.  A worker takes a request, collects what is waiting, up to a thousand,
    saves the batch with one call of the database and answers all its requests.

    A step of the system is one receive, send or call of a handler or a worker, in
    any interleaving.  [saver_invariant] describes every state that can be reached.
    Stopping the store is not modelled. *)

From S2P Require Import Prelude RaftTypes ClusterConfig WkMembers WkModel StoreApply.

(** [pkg/cluster/store/store.go] [channelCfgReq]

    The channel of the answer is the number of the request. *)
Record channelCfgReq := mkReq { rq_id : nat; rq_cfg : ChannelClusterConfig }.

Definition workers : nat := 50.
Definition channelCfgCh_size : Z := 2048.
Definition maxSizeBatch : Z := 1000.

(** What a worker is doing, unless it waits for a request. *)
Inductive wphase := Collecting (cfgs : list channelCfgReq) | Saving (cfgs : list channelCfgReq).
Definition phase_reqs (p : wphase) : list channelCfgReq :=
  match p with Collecting l | Saving l => l end.

Inductive slabel :=
| LSend (cfg : ChannelClusterConfig)
| LTake (w : nat)
| LMore (w : nat)
| LClose (w : nat)
| LSave (w : nat).

Section Saver.
Context {D : Wdb}.

(** The channel, the workers, the database and the answers; [sv_sent] and
    [sv_batches] record the requests in the order they were sent and the batches in
    the order they were saved. *)
Record saver := mkSaver {
  sv_ch : list channelCfgReq;
  sv_workers : gmap nat wphase;
  sv_db : database;
  sv_answers : list (nat * bool);
  sv_sent : list channelCfgReq;
  sv_batches : list (list channelCfgReq)
}.

Definition new_saver (db : database) : saver := mkSaver [] ∅ db [] [] [].

(** [pkg/cluster/store/store_apply.go] [(s *Store) handleChannelClusterConfigSaves]

    One call of the database; every request gets its result. *)
Definition handleChannelClusterConfigSaves (st : saver) (reqs : list channelCfgReq) : option saver :=
  match db_exec (sv_db st) (DbSaveChannelClusterConfigs (rq_cfg <$> reqs)) with
  | Ok (db, ok) =>
      Some {| st with sv_db := db; sv_answers := sv_answers st ++ ((fun r => (rq_id r, ok)) <$> reqs);
              sv_batches := sv_batches st ++ [reqs] |}
  | _ => None
  end.

(** [pkg/cluster/store/store_apply.go] [(s *Store) loopSaveChannelClusterConfig]

    A worker takes a request, takes more while there are any and the batch is not
    full, and saves. *)
Definition loop_step (st : saver) (w : nat) (l : slabel) : option saver :=
  match l, sv_workers st !! w, sv_ch st with
  | LTake _, None, r :: ch =>
      if (w <? workers)%nat then Some {| st with sv_ch := ch; sv_workers := <[w := Collecting [r]]> (sv_workers st) |}
      else None
  | LMore _, Some (Collecting cfgs), r :: ch =>
      if len cfgs <? maxSizeBatch
      then Some {| st with sv_ch := ch; sv_workers := <[w := Collecting (cfgs ++ [r])]> (sv_workers st) |} else None
  | LClose _, Some (Collecting cfgs), ch =>
      if (len ch =? 0) || (maxSizeBatch <=? len cfgs)
      then Some {| st with sv_workers := <[w := Saving cfgs]> (sv_workers st) |} else None
  | LSave _, Some (Saving cfgs), _ =>
      handleChannelClusterConfigSaves {| st with sv_workers := delete w (sv_workers st) |} cfgs
  | _, _, _ => None
  end.

(** A handler sends its configuration ([handleChannelClusterConfigSave]) when there
    is room; a worker takes a step. *)
Definition saver_step (st : saver) (l : slabel) : option saver :=
  match l with
  | LSend cfg =>
      if len (sv_ch st) <? channelCfgCh_size
      then let r := mkReq (length (sv_sent st)) cfg in
           Some {| st with sv_ch := sv_ch st ++ [r]; sv_sent := sv_sent st ++ [r] |}
      else None
  | LTake w | LMore w | LClose w | LSave w => loop_step st w l
  end.

Fixpoint saver_run (st : saver) (ls : list slabel) : option saver :=
  match ls with
  | [] => Some st
  | l :: ls => st ← saver_step st l; saver_run st ls
  end.

(** Nothing waits and nothing is being saved. *)
Definition quiet (st : saver) : Prop := sv_ch st = [] /\ sv_workers st = ∅.

(** ** Every reachable state *)

Definition busy (st : saver) : list (list channelCfgReq) := (fun p => phase_reqs p.2) <$> map_to_list (sv_workers st).

(** The batches have been saved with these results, from the first on. *)
Inductive saved : database -> list (list channelCfgReq) -> list (nat * bool) -> database -> Prop :=
| sv_nil db : saved db [] [] db
| sv_snoc db bs aa db1 b ok db2 : saved db bs aa db1 ->
    db_exec db1 (DbSaveChannelClusterConfigs (rq_cfg <$> b)) = Ok (db2, ok) ->
    saved db (bs ++ [b]) (aa ++ ((fun r => (rq_id r, ok)) <$> b)) db2.

(** A batch of requests that are out of the channel, in the order they were sent. *)
Definition batch_ok (taken b : list channelCfgReq) : Prop :=
  b <> [] /\ len b <= maxSizeBatch /\ b `sublist_of` taken.

Record saver_inv (db0 : database) (st : saver) : Prop := {
  si_ids : rq_id <$> sv_sent st = seq 0 (length (sv_sent st));
  si_all : exists taken, sv_sent st = taken ++ sv_ch st /\
             mjoin (sv_batches st) ++ mjoin (busy st) ≡ₚ taken /\
             Forall (batch_ok taken) (sv_batches st) /\
             map_Forall (fun _ p => batch_ok taken (phase_reqs p)) (sv_workers st);
  si_few : map_Forall (fun w _ => (w < workers)%nat) (sv_workers st);
  si_saved : saved db0 (sv_batches st) (sv_answers st) (sv_db st)
}.

Lemma new_saver_inv db0 : saver_inv db0 (new_saver db0).
Proof.
  split; try done; [|apply sv_nil]. by exists [].
Qed.

Lemma busy_insert st w p : sv_workers st !! w = None ->
  mjoin ((fun p => phase_reqs p.2) <$> map_to_list (<[w := p]> (sv_workers st))) ≡ₚ phase_reqs p ++ mjoin (busy st).
Proof.
  intros Hw. unfold busy. rewrite map_to_list_insert by done. done.
Qed.

Lemma busy_lookup st w p : sv_workers st !! w = Some p ->
  mjoin (busy st) ≡ₚ phase_reqs p ++ mjoin ((fun p => phase_reqs p.2) <$> map_to_list (delete w (sv_workers st))).
Proof. intros Hw. unfold busy. by rewrite <-(map_to_list_delete _ _ _ Hw). Qed.

Lemma busy_replace st w p q : sv_workers st !! w = Some p ->
  mjoin ((fun p => phase_reqs p.2) <$> map_to_list (<[w := q]> (sv_workers st))) ≡ₚ
  phase_reqs q ++ mjoin ((fun p => phase_reqs p.2) <$> map_to_list (delete w (sv_workers st))).
Proof. intros Hw. rewrite <-insert_delete_eq, map_to_list_insert by apply lookup_delete_eq. done. Qed.

Lemma batch_ok_more taken r b : batch_ok taken b -> batch_ok (taken ++ r) b.
Proof. intros (H1 & H2 & H3). split_and!; [done..|]. by apply sublist_inserts_r. Qed.

Lemma all_ok_more {K} `{Countable K} taken r (m : gmap K wphase) :
  map_Forall (fun _ p => batch_ok taken (phase_reqs p)) m ->
  map_Forall (fun _ p => batch_ok (taken ++ r) (phase_reqs p)) m.
Proof. intros Hm k p Hp. by apply batch_ok_more, (Hm k). Qed.

Lemma send_inv db0 st cfg st' : saver_inv db0 st -> saver_step st (LSend cfg) = Some st' -> saver_inv db0 st'.
Proof.
  intros [Hid (taken & Hs & Hp & Hb & Hw) Hf Hsv] E. cbn [saver_step] in E.
  destruct (_ <? _); [|done]. injection E as <-. split; cbn [sv_ch sv_workers sv_db sv_answers sv_sent sv_batches]; [| |done..].
  - rewrite fmap_app, length_app, Hid. cbn. by rewrite Nat.add_1_r, seq_S.
  - exists taken. by rewrite Hs, <-app_assoc.
Qed.

Lemma take_inv db0 st w st' : saver_inv db0 st -> saver_step st (LTake w) = Some st' -> saver_inv db0 st'.
Proof.
  intros [Hid (taken & Hs & Hp & Hb & Hw) Hf Hsv] E. cbn [saver_step] in E. unfold loop_step in E.
  destruct (sv_workers st !! w) as [p|] eqn:Ew; [done|]. destruct (sv_ch st) as [|r ch] eqn:Ech; [done|].
  destruct (Nat.ltb_spec w workers); [|done]. injection E as <-.
  split; cbn [sv_ch sv_workers sv_db sv_answers sv_sent sv_batches]; [done| | |done].
  - exists (taken ++ [r]). split_and!.
    + by rewrite Hs, <-app_assoc.
    + unfold busy. cbn [sv_workers]. rewrite busy_insert, <-Hp by done. cbn [phase_reqs]. solve_Permutation.
    + eapply Forall_impl; [exact Hb|]. intros b. apply batch_ok_more.
    + apply map_Forall_insert_2; [|by apply all_ok_more]. split_and!; [done|cbn; unfold maxSizeBatch; lia|].
      by apply sublist_inserts_l.
  - by apply map_Forall_insert_2.
Qed.

Lemma more_inv db0 st w st' : saver_inv db0 st -> saver_step st (LMore w) = Some st' -> saver_inv db0 st'.
Proof.
  intros [Hid (taken & Hs & Hp & Hb & Hw) Hf Hsv] E. cbn [saver_step] in E. unfold loop_step in E.
  destruct (sv_workers st !! w) as [[cfgs|cfgs]|] eqn:Ew; [|done..]. destruct (sv_ch st) as [|r ch] eqn:Ech; [done|].
  destruct (Z.ltb_spec (len cfgs) maxSizeBatch); [|done]. injection E as <-.
  split; cbn [sv_ch sv_workers sv_db sv_answers sv_sent sv_batches]; [done| | |done].
  - exists (taken ++ [r]). split_and!.
    + by rewrite Hs, <-app_assoc.
    + unfold busy. cbn [sv_workers]. rewrite (busy_replace _ _ (Collecting cfgs)) by done.
      rewrite <-Hp, (busy_lookup st w (Collecting cfgs)) by done. cbn [phase_reqs]. solve_Permutation.
    + eapply Forall_impl; [exact Hb|]. intros b. apply batch_ok_more.
    + apply map_Forall_insert_2; [|by apply all_ok_more]. destruct (Hw w _ Ew) as (H1 & H2 & H3). cbn [phase_reqs] in *.
      split_and!; [by destruct cfgs|rewrite length_app; cbn; lia|by apply sublist_app].
  - apply map_Forall_insert_2; [|done]. by apply (Hf w (Collecting cfgs)).
Qed.

Lemma close_inv db0 st w st' : saver_inv db0 st -> saver_step st (LClose w) = Some st' -> saver_inv db0 st'.
Proof.
  intros [Hid (taken & Hs & Hp & Hb & Hw) Hf Hsv] E. cbn [saver_step] in E. unfold loop_step in E.
  destruct (sv_workers st !! w) as [[cfgs|cfgs]|] eqn:Ew; [|done..].
  destruct (_ || _); [|done]. injection E as <-.
  split; cbn [sv_ch sv_workers sv_db sv_answers sv_sent sv_batches]; [done| | |done].
  - exists taken. split_and!; [done| |done|apply map_Forall_insert_2; [by apply (Hw w _ Ew)|done]].
    unfold busy. cbn [sv_workers]. rewrite (busy_replace _ _ (Collecting cfgs)) by done.
    by rewrite <-Hp, (busy_lookup st w (Collecting cfgs)).
  - apply map_Forall_insert_2; [|done]. by apply (Hf w (Collecting cfgs)).
Qed.

Lemma save_inv db0 st w st' : saver_inv db0 st -> saver_step st (LSave w) = Some st' -> saver_inv db0 st'.
Proof.
  intros [Hid (taken & Hs & Hp & Hb & Hw) Hf Hsv] E. cbn [saver_step] in E. unfold loop_step in E.
  destruct (sv_workers st !! w) as [[cfgs|cfgs]|] eqn:Ew; [done| |done].
  unfold handleChannelClusterConfigSaves in E. cbn [sv_db] in E.
  destruct (db_exec _ _) as [[db ok]| |] eqn:Ed; [|done..]. injection E as <-.
  split; cbn [sv_ch sv_workers sv_db sv_answers sv_sent sv_batches]; [done| | |by econstructor].
  - exists taken. split_and!; [done| |apply Forall_app_2; [done|]|by apply map_Forall_delete].
    + unfold busy. cbn [sv_workers]. rewrite <-Hp, (busy_lookup st w (Saving cfgs)) by done. rewrite join_app.
      cbn [mjoin list_join phase_reqs]. rewrite app_nil_r. solve_Permutation.
    + constructor; [|done]. apply (Hw w _ Ew).
  - by apply map_Forall_delete.
Qed.

Lemma saver_run_inv db0 st ls st' : saver_inv db0 st -> saver_run st ls = Some st' -> saver_inv db0 st'.
Proof.
  revert st. induction ls as [|l ls IH]; intros st Hi E; [by injection E as <-|]. cbn [saver_run] in E.
  destruct (saver_step st l) as [st1|] eqn:E1; [|done]. apply (IH st1); [|done].
  destruct l; eauto using send_inv, take_inv, more_inv, close_inv, save_inv.
Qed.

(** ** Answers *)

Lemma saved_ids db0 bs aa db : saved db0 bs aa db -> aa.*1 = rq_id <$> mjoin bs.
Proof.
  induction 1 as [|db0 bs aa db1 b ok db2 _ IH _]; [done|]. rewrite fmap_app, join_app, fmap_app, IH. f_equal.
  cbn [mjoin list_join]. rewrite app_nil_r, <-list_fmap_compose. done.
Qed.

Lemma save_all_app db a b :
  save_all db (a ++ b) = let! (db1, ok1) := save_all db a in
                         let! (db2, ok2) := save_all db1 b in Ok (db2, ok1 && ok2).
Proof.
  revert db. induction a as [|x a IH]; intros db; cbn [save_all app res_bind].
  { by destruct (save_all db b) as [[db2 ok2]| |]. }
  destruct (db_exec db _) as [[db1 ok]| |]; [|done..]. cbn [res_bind]. rewrite IH.
  destruct (save_all db1 a) as [[db2 ok2]| |]; [|done..]. cbn [res_bind].
  destruct (save_all db2 b) as [[db3 ok3]| |]; [|done..]. cbn [res_bind]. by rewrite andb_assoc.
Qed.

Definition configs_of (b : list channelCfgReq) : list ChannelClusterConfig := rq_cfg <$> b.

(** The database is that of the batches in turn, which succeed if all answers do. *)
(** The batches saved one after the other: the database, and the result of its own batch for
    every request. *)
Fixpoint batch_answers (db : database) (bs : list (list channelCfgReq)) : res (database * list (nat * bool)) :=
  match bs with
  | [] => Ok (db, [])
  | b :: bs =>
      let! (db, ok) := db_exec db (DbSaveChannelClusterConfigs (rq_cfg <$> b)) in
      let! (db, aa) := batch_answers db bs in
      Ok (db, ((fun r => (rq_id r, ok)) <$> b) ++ aa)
  end.

Lemma batch_answers_snoc db bs b :
  batch_answers db (bs ++ [b]) =
    let! (db, aa) := batch_answers db bs in
    let! (db, ok) := db_exec db (DbSaveChannelClusterConfigs (rq_cfg <$> b)) in
    Ok (db, aa ++ ((fun r => (rq_id r, ok)) <$> b)).
Proof.
  revert db. induction bs as [|b' bs IH]; intros db; cbn [app batch_answers res_bind].
  - destruct (db_exec _ _) as [[db1 ok]| |]; [|done..]. cbn. by rewrite app_nil_r.
  - destruct (db_exec _ _) as [[db1 ok]| |]; [|done..]. cbn [res_bind]. rewrite IH.
    destruct (batch_answers db1 bs) as [[db2 aa]| |]; [|done..]. cbn [res_bind].
    destruct (db_exec _ _) as [[db3 ok']| |]; [|done..]. cbn [res_bind]. by rewrite app_assoc.
Qed.

Lemma saved_answers db0 bs aa db : saved db0 bs aa db -> batch_answers db0 bs = Ok (db, aa).
Proof.
  induction 1 as [|db0 bs aa db1 b ok db2 _ IH Hx]; [done|]. rewrite batch_answers_snoc, IH. cbn [res_bind]. by rewrite Hx.
Qed.

Lemma saved_save_all db0 bs aa db :
  saved db0 bs aa db -> Forall (fun b => b <> []) bs ->
  save_all db0 (configs_of <$> bs) = Ok (db, forallb snd aa).
Proof.
  induction 1 as [|db0 bs aa db1 b ok db2 _ IH Hx]; intros Hb; [done|]. apply Forall_app in Hb as [Hb [Hne _]%Forall_cons].
  rewrite fmap_app, save_all_app, IH by done. cbn [res_bind fmap list_fmap save_all].
  unfold configs_of at 1. rewrite Hx. cbn [res_bind]. do 2 f_equal.
  rewrite forallb_app, andb_true_r. f_equal. destruct b as [|r b]; [done|]. clear.
  cbn. induction b as [|r' b IH]; cbn; [by rewrite andb_true_r|]. destruct ok; cbn in *; done.
Qed.

(** ** Progress *)

Definition worker_label (l : slabel) : bool := match l with LSend _ => false | _ => true end.

Definition phase_work (p : wphase) : nat := match p with Collecting _ => 2 | Saving _ => 1 end.
Definition work (st : saver) : nat :=
  3 * length (sv_ch st) + sum_list_with (fun p => phase_work p.2) (map_to_list (sv_workers st)).

Lemma work_insert (m : gmap nat wphase) w p : m !! w = None ->
  sum_list_with (fun p => phase_work p.2) (map_to_list (<[w := p]> m)) =
  (phase_work p + sum_list_with (fun p => phase_work p.2) (map_to_list m))%nat.
Proof. intros Hw. by rewrite map_to_list_insert. Qed.

Lemma work_lookup (m : gmap nat wphase) w p : m !! w = Some p ->
  sum_list_with (fun p => phase_work p.2) (map_to_list m) =
  (phase_work p + sum_list_with (fun p => phase_work p.2) (map_to_list (delete w m)))%nat.
Proof. intros Hw. by rewrite <-(map_to_list_delete _ _ _ Hw). Qed.

(** A step of a worker leaves less to do. *)
Lemma worker_works st l st' : worker_label l = true -> saver_step st l = Some st' -> (work st' < work st)%nat.
Proof.
  unfold work. intros Hl E. destruct l as [cfg|w|w|w|w]; [done|..]; cbn [saver_step] in E; unfold loop_step in E;
    destruct (sv_workers st !! w) as [p|] eqn:Ew; try done.
  - destruct (sv_ch st) as [|r ch]; [done|]. destruct (_ <? _)%nat; [|done]. injection E as <-. cbn [sv_ch sv_workers].
    rewrite work_insert by done. cbn. lia.
  - destruct p as [cfgs|]; [|done]. destruct (sv_ch st) as [|r ch]; [done|]. destruct (_ <? _); [|done]. injection E as <-.
    cbn [sv_ch sv_workers]. rewrite <-insert_delete_eq, work_insert, (work_lookup (sv_workers st) w (Collecting cfgs))
      by (done || apply lookup_delete_eq). cbn. lia.
  - destruct p as [cfgs|]; [|done]. destruct (_ || _); [|done]. injection E as <-.
    cbn [sv_ch sv_workers]. rewrite <-insert_delete_eq, work_insert, (work_lookup (sv_workers st) w (Collecting cfgs))
      by (done || apply lookup_delete_eq). cbn. lia.
  - destruct p as [|cfgs]; [done|]. unfold handleChannelClusterConfigSaves in E.
    destruct (db_exec _ _) as [[db ok]| |]; [|done..]. injection E as <-. cbn [sv_ch sv_workers].
    rewrite (work_lookup (sv_workers st) w (Saving cfgs)) by done. cbn. lia.
Qed.

(** The database answers. *)
Definition db_returns : Prop := forall db cfgs, exists r, db_exec db (DbSaveChannelClusterConfigs cfgs) = Ok r.

(** While anything waits some worker can go on. *)
Lemma worker_progress db0 st :
  db_returns -> saver_inv db0 st -> ~ quiet st -> exists l st', worker_label l = true /\ saver_step st l = Some st'.
Proof.
  intros Hd [_ (taken & _ & _ & _ & Hb) Hf _] Hq. destruct (map_choose_or_empty (sv_workers st)) as [(w & p & Ew)|Ew].
  - destruct p as [cfgs|cfgs].
    + destruct (sv_ch st) as [|r ch] eqn:Ech.
      * exists (LClose w). cbn [saver_step]. unfold loop_step. rewrite Ew, Ech. by eexists.
      * destruct (Z.ltb_spec (len cfgs) maxSizeBatch) as [H|H].
        -- exists (LMore w). cbn [saver_step]. unfold loop_step. rewrite Ew, Ech.
           destruct (Z.ltb_spec (len cfgs) maxSizeBatch); [by eexists|lia].
        -- exists (LClose w). cbn [saver_step]. unfold loop_step. rewrite Ew.
           destruct (Z.leb_spec maxSizeBatch (len cfgs)); [|lia]. rewrite orb_true_r. by eexists.
    + exists (LSave w). cbn [saver_step]. unfold loop_step, handleChannelClusterConfigSaves. rewrite Ew. cbn [sv_db].
      destruct (Hd (sv_db st) (rq_cfg <$> cfgs)) as [[db ok] ->]. by eexists.
  - exists (LTake 0). cbn [saver_step]. unfold loop_step. rewrite Ew, lookup_empty.
    destruct (sv_ch st) as [|r ch] eqn:Ech; [by destruct Hq|]. by eexists.
Qed.

(** The workers alone empty the channel. *)
Lemma workers_finish db0 st :
  db_returns -> saver_inv db0 st ->
  exists ls st', forallb worker_label ls = true /\ saver_run st ls = Some st' /\ quiet st'.
Proof.
  intros Hd. remember (work st) as n eqn:Hn. revert st Hn. induction (lt_wf n) as [n _ IH]; intros st Hn Hi.
  destruct (decide (sv_ch st = [])) as [Hc|Hc]; [destruct (decide (sv_workers st = ∅)) as [Hw|Hw]|].
  { by exists [], st. }
  all: destruct (worker_progress db0 st Hd Hi) as (l & st1 & Hl & E1); [by intros [? ?]|];
    pose proof (worker_works st l st1 Hl E1) as Hlt;
    destruct (IH (work st1) ltac:(lia) st1 eq_refl) as (ls & st' & Hls & Er & Hq);
      [by apply (saver_run_inv db0 st [l]); [|cbn; rewrite E1]|];
    exists (l :: ls), st'; cbn [forallb saver_run]; rewrite Hl, E1; done.
Qed.
End Saver.
