(* ===== verification/StoreProps.v ===== *)
(** * Theorems about the store

    From a call of the store, over the log of a slot, to the database of a replica.
    The last part composes the store with the member lists of the database
    ([WkMembersProps]): the replicas of a slot answer alike however the logs were
    batched. *)

From Stdlib Require Import Strings.Byte.
From S2P Require Import Prelude RaftTypes WkProto RaftCodec ClusterConfig ClusterCommands ClusterEvents ClusterProps.
From S2P Require Import ClusterEventsProps WkKey WkKeyLaws WkKv WkPermission WkMembers WkMembersLaws WkMembersScan.
From S2P Require Import WkMembersCache WkMembersRefine WkMembersProps WkModel.
From S2P Require Import StoreCmd StoreCmdLaws StoreApply StorePropose StoreCalls StoreCallsLaws StoreBatch StoreSave.

(** ** Instances of the interfaces *)

#[export] Instance bigEndianInt32 : WkProtoInt32 := {|
  WriteInt32 v := be_bytes 4 (u32 v);
  Int32 := do! v <- be_dec 4; dret (i32 v)
|}.
#[export] Instance bigEndianInt32_laws : WkProtoInt32Laws bigEndianInt32.
Proof.
  split. intros v Hv. eapply (reads_map_eq (be_dec 4) i32); [apply (be_dec_reads 4), u32_range|by apply i32_u32].
Qed.

#[export] Instance Device_eq_dec : EqDecision Device.
Proof. solve_decision. Defined.
#[export] Instance Device_countable : Countable Device.
Proof.
  refine (inj_countable' (fun '(mkDevice a b c d e f g h i j k l m) => ((a, b, c, d), (e, f, g, h), (i, j, k, (l, m))))
    (fun '((a, b, c, d), (e, f, g, h), (i, j, k, (l, m))) => mkDevice a b c d e f g h i j k l m) _).
  by intros [].
Defined.
#[export] Instance conditional_eq_dec : EqDecision conditionalDeviceUpdate.
Proof. solve_decision. Defined.
#[export] Instance conditional_countable : Countable conditionalDeviceUpdate.
Proof. refine (inj_countable' (fun '(mkConditional a b c) => (a, b, c)) (fun '(a, b, c) => mkConditional a b c) _). by intros []. Defined.
Definition codedJson {A} `{Countable A} : Json A :=
  {| json_Marshal := msg_bytes; json_Unmarshal := msg_of; json_expressible _ := True |}.
#[export] Instance deviceJson : Json conditionalDeviceUpdate := codedJson.
#[export] Instance deviceJson_laws : JsonLaws deviceJson.
Proof. split. intros a bs _. apply msg_roundtrip. Qed.
(** The examples have no message events. *)
#[export] Instance eventJson : Json MessageEvent :=
  {| json_Marshal _ := None; json_Unmarshal _ := None; json_expressible _ := False |}.

#[export] Instance listStrRange : StrRange := {| srange V i m := map_to_list m |}.
#[export] Instance listStrRange_laws : StrRangeLaws listStrRange.
Proof. by split. Qed.

(** A database that records its calls. *)
#[export] Instance traceDB : Wdb := {| database := list dbop; db_exec db op := Ok (db ++ [op], true) |}.

(** The workers save one batch. *)
#[export] Instance oneBatch : SaveSchedule := {| save_batches cfgs := match cfgs with [] => [] | _ => [cfgs] end |}.
#[export] Instance oneBatch_laws : SaveScheduleLaws oneBatch.
Proof. split; intros [|cfg cfgs]; cbn; rewrite ?app_nil_r; by repeat constructor. Qed.

(** Slots by the length of the name. *)
#[export] Instance demoSlots : SlotService :=
  {| GetSlotId s := Z.of_nat (String.length s) mod 64; ChannelTypePerson := 1 |}.

Module StoreProps.

(** C15. A call of the store takes effect. When the arguments of a call fit their encoding,
    it makes its proposals without an error, each to the slot the method computes: that of
    the channel or of the user, slot 0 for system users, testers and plugins, and that of
    the channel for [UpdateConversationIfSeqGreater] when the channel is not a person. A
    replica that applies the log of a proposal makes exactly the calls of the database the
    method stands for, with the arguments of the call except what is not encoded: the id,
    the counters and the last message of a channel, the counters and the plugin of a user,
    the counters of a device, [DeletedAtMsgSeq] of a conversation, and the id of a tester
    and of a channel configuration come back as zero, a time of 1970 or none as none, and a
    channel configuration has the index of the log as its version. *)
Theorem store_calls_take_effect {W : WkProto} {WL : WkProtoLaws W} {I : WkProtoInt32} {IL : WkProtoInt32Laws I}
    {JD : Json conditionalDeviceUpdate} {JDL : JsonLaws JD} {JE : Json MessageEvent}
    {SS : SlotService} {MR : MapRange} {ML : MapRangeLaws MR} {R : StrRange} {D : Wdb}
    (IsCmdChannel : string -> bool) (o : scall) :
  call_fits o ->
  exists ps, call o = Ok (ps, true) /\
    Forall2 (fun p e => p.1 = e.1 /\ forall log (db : database), log_Data log = p.2 ->
      applySlotLog IsCmdChannel log db = run_ops db (e.2 (log_Index log))) ps (effects o).
Proof.
  intros Hf. destruct (call_carried IsCmdChannel o Hf) as (ps & E & H). exists ps. split; [done|].
  eapply Forall2_impl; [exact H|]. intros p e [Hs Hc]. split; [done|]. intros log db Hl.
  apply carries_apply. by rewrite Hl.
Qed.

Definition demo_device : Device :=
  mkDevice 7 "u1" "token" 5 1 0 0 0 0 0 0 (Some 10) None.
Definition demo_hash : string := "000102030405060708090a0b0c0d0e0f101112131415161718191A1B1C1D1E1F".

Lemma store_calls_take_effect_witness :
  exists ps, call (SUpdateDeviceIfTokenMatches demo_device 4 demo_hash) = Ok (ps, true) /\
    Forall2 (fun p e => p.1 = e.1 /\ forall log (db : database), log_Data log = p.2 ->
      applySlotLog (fun _ => false) log db = run_ops db (e.2 (log_Index log))) ps
      (effects (SUpdateDeviceIfTokenMatches demo_device 4 demo_hash)).
Proof.
  apply store_calls_take_effect. cbn [call_fits]. split; [done|]. split; [by eexists|].
  split; [|split_and!; (done || lia)].
  exists (byte_of_Z <$> seqZ 0 32). by split; vm_compute.
Defined.

(** C16. A batch of slot logs loses and invents nothing.  Whatever the logs and their
    number, [ApplySlotLogs] succeeds exactly when a certain sequence of calls of the
    database does, with its result: first calls of the logs in their order, and then
    late calls that stand for the rest, also taken in their order.  Split into calls
    of one record, they are the calls of the logs, up to the order; the
    conversations of a user are written in the order of the logs that were put off,
    and so are those added when missing.  Fewer than ten logs have no late calls. *)
Theorem slot_batch_complete {W : WkProto} {I : WkProtoInt32} {JD : Json conditionalDeviceUpdate} {JE : Json MessageEvent}
    {R : StrRange} {RL : StrRangeLaws R} {D : Wdb} {SC : SaveSchedule} {SL : SaveScheduleLaws SC}
    (IsCmdChannel : string -> bool) (logs : list Log) (es : list (Z -> list dbop)) :
  carry IsCmdChannel logs es ->
  exists first rest late,
    (forall db db', ApplySlotLogs IsCmdChannel db logs = Ok (db', true) <-> run_ops db (first ++ late) = Ok (db', true)) /\
    first `sublist_of` ops_of logs es /\ rest `sublist_of` ops_of logs es /\ first ++ rest ≡ₚ ops_of logs es /\
    split_ops (first ++ late) ≡ₚ split_ops (ops_of logs es) /\
    (forall uid, written_for uid late = written_for uid rest) /\ added_if_missing late = added_if_missing rest /\
    (len logs < 10 -> first = ops_of logs es /\ late = []).
Proof.
  intros Hc. destruct (slot_runs IsCmdChannel logs es Hc) as (first & rest & late & Hr & H1 & H2 & Hp & Hm & _ & Hl).
  exists first, rest, late. split_and!; [done..| | | |].
  - by rewrite <-Hp, !split_ops_app, (mg_split _ _ Hm).
  - apply Hm.
  - apply Hm.
  - intros Hs. specialize (Hl Hs). split; [done|]. apply (mg_none _ _ Hm).
    rewrite Hl in Hp. apply Permutation_length in Hp. rewrite length_app in Hp. destruct rest; [done|simpl in Hp; lia].
Qed.

(** The log of a call that makes one proposal. *)
Definition log_of (i : nat) (o : scall) : Log :=
  {| EmptyLog with log_Index := Z.of_nat i + 1;
     log_Data := match call o with Ok ((_, data) :: _, _) => data | _ => [] end |}.
Definition effect_of (o : scall) : Z -> list dbop := match effects o with (_, e) :: _ => e | [] => fun _ => [] end.

Definition demo_conversation : Conversation := mkConversation 9 "u1" 0 "g" 2 0 4 0 None None.
Definition demo_calls : list scall :=
  SAddOrUpdateUserConversations (fun _ => 0) "u1" [demo_conversation] :: SDeleteConversation "u1" "g" 2 ::
  repeat (SDeleteChannel "h" 2) 8.
Definition demo_slot_logs : list Log := imap log_of demo_calls.

Ltac solve_carry :=
  repeat (constructor; [eexists; split; [vm_compute; reflexivity|intros ?; vm_compute; reflexivity]|]); constructor.

Lemma demo_carry : carry (fun _ => false) demo_slot_logs (effect_of <$> demo_calls).
Proof. solve_carry. Qed.

Lemma slot_batch_complete_witness :
  exists first rest late,
    (forall db db', ApplySlotLogs (fun _ => false) db demo_slot_logs = Ok (db', true) <->
       run_ops db (first ++ late) = Ok (db', true)) /\
    first `sublist_of` ops_of demo_slot_logs (effect_of <$> demo_calls) /\
    rest `sublist_of` ops_of demo_slot_logs (effect_of <$> demo_calls) /\
    first ++ rest ≡ₚ ops_of demo_slot_logs (effect_of <$> demo_calls) /\
    split_ops (first ++ late) ≡ₚ split_ops (ops_of demo_slot_logs (effect_of <$> demo_calls)) /\
    (forall uid, written_for uid late = written_for uid rest) /\ added_if_missing late = added_if_missing rest /\
    (len demo_slot_logs < 10 -> first = ops_of demo_slot_logs (effect_of <$> demo_calls) /\ late = []).
Proof.
  apply slot_batch_complete, demo_carry.
Defined.

(** A conversation is written and then deleted.  A replica that gets the ten logs in
    one batch deletes first and then writes; one that gets five at a time ends
    without the conversation. *)
Theorem batch_size_changes_result :
  let written := DbAddOrUpdateConversationsWithUser "u1" [demo_conversation] in
  let deleted := DbDeleteConversation "u1" "g" 2 in
  let others := repeat (DbDeleteChannel "h" 2) 8 in
  apply_batches (fun _ => false) [] [demo_slot_logs] = Ok (deleted :: others ++ [written], true) /\
  apply_batches (fun _ => false) [] [take 5 demo_slot_logs; drop 5 demo_slot_logs] =
    Ok (written :: deleted :: others, true).
Proof. split; by vm_compute. Qed.

(** Batches do not matter without late commands.  When the logs of a slot hold no
    saves of channel configurations, no conversations of a user and none to add when
    missing, then any two ways to cut them into batches succeed with the same
    database, that of the calls of the logs in their order. *)
Theorem slot_batches_agree {W : WkProto} {I : WkProtoInt32} {JD : Json conditionalDeviceUpdate} {JE : Json MessageEvent}
    {R : StrRange} {RL : StrRangeLaws R} {D : Wdb} {SC : SaveSchedule} {SL : SaveScheduleLaws SC}
    (IsCmdChannel : string -> bool) (batches batches' : list (list Log)) (es : list (Z -> list dbop)) :
  mjoin batches = mjoin batches' -> carry IsCmdChannel (mjoin batches) es ->
  Forall (fun op => late_op op = false) (ops_of (mjoin batches) es) ->
  forall db db',
    (apply_batches IsCmdChannel db batches = Ok (db', true) <-> run_ops db (ops_of (mjoin batches) es) = Ok (db', true)) /\
    (apply_batches IsCmdChannel db batches = Ok (db', true) <-> apply_batches IsCmdChannel db batches' = Ok (db', true)).
Proof.
  intros He Hc Hl db db'. pose proof (early_batches IsCmdChannel batches es Hc Hl db db') as H1.
  rewrite He in Hc, Hl. pose proof (early_batches IsCmdChannel batches' es Hc Hl db db') as H2. rewrite He in H1 |- *.
  split; [exact H1|]. by rewrite H1, H2.
Qed.

Definition early_calls : list scall :=
  SAddSubscribers "g" 2 [mkMember 1 "a" (Some 5) None] :: SRemoveSubscribers "g" 2 ["a"] ::
  repeat (SDeleteConversations "u1" [mkChannel "g" 2]) 10.
Definition early_logs : list Log := imap log_of early_calls.

Lemma slot_batches_agree_witness :
  let db' : database := ops_of early_logs (effect_of <$> early_calls) in
  apply_batches (fun _ => false) [] [early_logs] = Ok (db', true) /\
  apply_batches (fun _ => false) [] [take 3 early_logs; drop 3 early_logs] = Ok (db', true) /\ length db' = 12%nat.
Proof.
  intros db'.
  assert (H : forall d d' : database, _) by
    (apply (slot_batches_agree (D := traceDB) (fun _ => false) [early_logs] [take 3 early_logs; drop 3 early_logs]
      (effect_of <$> early_calls)); [by vm_compute|change (mjoin [early_logs]) with early_logs; solve_carry|repeat constructor]).
  destruct (H ([] : list dbop) db') as [H1 H2].
  assert (E : apply_batches (fun _ => false) ([] : list dbop) [early_logs] = Ok (db', true))
    by (apply H1; vm_compute; reflexivity).
  split; [exact E|]. split; [by apply H2|reflexivity].
Defined.

(** C17. Every configuration is saved and answered once.  Whatever the handlers send
    and however the fifty workers interleave, when every call of the database returns,
    the workers alone can always finish what has been sent; and whenever nothing waits
    any more, the batches they saved, each of one to a thousand requests in the order
    they were sent, are together the requests that were sent, every request has exactly
    one answer, and the database and the answers are those of saving the batches one
    after the other, a request being answered with the result of its own batch. *)
Theorem configs_saved_once {D : Wdb} (db0 : database) (ls : list slabel) (st : saver) :
  db_returns -> saver_run (new_saver db0) ls = Some st ->
  (exists more st', forallb worker_label more = true /\ saver_run st more = Some st' /\ quiet st') /\
  (quiet st ->
   mjoin (sv_batches st) ≡ₚ sv_sent st /\ Forall (batch_ok (sv_sent st)) (sv_batches st) /\
   (sv_answers st).*1 ≡ₚ seq 0 (length (sv_sent st)) /\
   batch_answers db0 (sv_batches st) = Ok (sv_db st, sv_answers st)).
Proof.
  intros Hd Hr. pose proof (saver_run_inv db0 _ _ _ (new_saver_inv db0) Hr) as Hi.
  split; [by apply (workers_finish db0)|]. intros [Hch Hw]. destruct Hi as [Hid (taken & Hs & Hp & Hb & _) _ Hsv].
  unfold busy in Hp. rewrite Hw, map_to_list_empty, app_nil_r in Hp. rewrite Hch, app_nil_r in Hs. subst taken.
  split_and!; [done|done| |].
  - by rewrite (saved_ids _ _ _ _ Hsv), Hp, Hid.
  - by apply saved_answers.
Qed.

Definition demo_cfg (term : Z) : ChannelClusterConfig :=
  mkChannelClusterConfig 0 "g" 2 3 [1; 2; 3] [] 1 term 0 0 0 term None None 1.
Definition demo_labels : list slabel :=
  [LSend (demo_cfg 1); LTake 0; LSend (demo_cfg 2); LTake 1; LClose 1; LSave 1; LSend (demo_cfg 3); LMore 0; LClose 0; LSave 0].

Lemma configs_saved_once_witness : exists st,
  saver_run (new_saver []) demo_labels = Some st /\ quiet st /\
  (exists more st', forallb worker_label more = true /\ saver_run st more = Some st' /\ quiet st') /\
  (quiet st ->
   mjoin (sv_batches st) ≡ₚ sv_sent st /\ Forall (batch_ok (sv_sent st)) (sv_batches st) /\
   (sv_answers st).*1 ≡ₚ seq 0 (length (sv_sent st)) /\
   batch_answers [] (sv_batches st) = Ok (sv_db st, sv_answers st)).
Proof.
  assert (is_Some (saver_run (new_saver []) demo_labels)) as [st E] by (vm_compute; by eexists).
  exists st. split; [done|]. split; [vm_compute in E; by injection E as <-|].
  apply (configs_saved_once (D := traceDB) [] demo_labels); [|done]. intros db cfgs. by eexists.
Defined.

(** Two configurations of a channel are sent in the order of their versions; two
    workers take one each, and the older one is saved last. *)
Theorem older_config_saved_last :
  sv_db <$> saver_run (new_saver [])
    [LSend (demo_cfg 1); LSend (demo_cfg 2); LTake 0; LTake 1; LClose 1; LSave 1; LClose 0; LSave 0] =
  Some [DbSaveChannelClusterConfigs [demo_cfg 2]; DbSaveChannelClusterConfigs [demo_cfg 1]].
Proof. by vm_compute. Qed.

(** The other calls about the conversations of a user are proposed to the slot of the
    user; the read position in a channel that is no person goes to the slot of the
    channel, whose replicas need not hold the conversation. *)
Theorem read_position_goes_elsewhere :
  (call (SDeleteConversation "u1" "group" 2), call (SUpdateConversationIfSeqGreater "u1" "group" 2 9)) =
  (Ok ([(2, (log_Data (log_of 0 (SDeleteConversation "u1" "group" 2))))], true),
   Ok ([(5, (log_Data (log_of 0 (SUpdateConversationIfSeqGreater "u1" "group" 2 9))))], true)).
Proof. by vm_compute. Qed.

(** A command holds the number of its conversations in 16 bits: 65536 of them are
    read back as none. *)
Theorem conversations_cut {W : WkProto} {WL : WkProtoLaws W} (cs : list Conversation) data version :
  len cs = two16 -> EncodeCMDAddOrUpdateConversations cs = Some data ->
  DecodeCMDAddOrUpdateConversations (mkSCMD CMDAddOrUpdateConversations data version) = Some [].
Proof.
  intros Hl. unfold EncodeCMDAddOrUpdateConversations, ConversationSet_Marshal, DecodeCMDAddOrUpdateConversations,
    ConversationSet_Unmarshal. rewrite Hl. destruct (marshal_all _ cs) as [more|]; [|done]. intros [= <-].
  change (u16 two16) with 0. unfold run_dec, dbind. cbn [sc_Data]. by rewrite (Uint16_reads 0).
Qed.

(** Messages survive the log.  Messages whose packet can be framed and whose
    version is known are proposed with their ids, and what is proposed for a
    message is read back by [Unmarshal] as that message, with the version that says
    whether it is for the search outbox. *)
Theorem messages_read_back {W : WkProto} {WL : WkProtoLaws W} {F : Frames} {FL : FramesLaws F} (msgs : list Message) :
  Forall message_fits msgs ->
  Forall (fun m => is_Some (EncodeFrame (ms_RecvPacket m)) /\ ms_version m <= messageDataVersionSearchOutbox) msgs ->
  exists reqs, Store_AppendMessages msgs = Some reqs /\
    Forall2 (fun m r => preq_Id r = u64 (MessageID (ms_RecvPacket m)) /\
                        Message_Unmarshal (preq_Data r) = Some (stored_message m)) msgs reqs.
Proof.
  induction 1 as [|m msgs Hm _ IH]; intros Hs; [by exists []|].
  apply Forall_cons in Hs as [[[data Ed] Hv] Hs]. destruct (IH Hs) as (reqs & E & Hr).
  assert (is_Some (Message_Marshal m)) as [bs Eb].
  { unfold Message_Marshal. rewrite Ed. cbn [mbind option_bind].
    destruct (Z.ltb_spec messageDataVersionSearchOutbox
      (if ms_SearchOutbox m then messageDataVersionSearchOutbox else ms_version m)) as [H|_]; [|by eexists].
    destruct (ms_SearchOutbox m); lia. }
  eexists. split.
  - unfold Store_AppendMessages in *. cbn [mapM]. rewrite Eb. cbn [mbind option_bind]. by rewrite E.
  - constructor; [|done]. split; [done|]. by apply Message_reads.
Qed.

(** Frames that are the packets themselves. *)
#[local] Instance plainFrames : Frames :=
  {| Packet := bytes; MessageID p := len p; LatestVersion := 5; EncodeFrame p := Some p; DecodeFrame b _ := Some (Some b) |}.
#[local] Instance plainFrames_laws : FramesLaws plainFrames.
Proof. split; [done|]. by intros p bs [= <-]. Qed.

Lemma messages_read_back_witness :
  exists reqs, Store_AppendMessages [mkMessage ([x01; x02] : Packet) 3 true 0; mkMessage ([x03] : Packet) 3 false 0] = Some reqs /\
    Forall2 (fun m r => preq_Id r = u64 (MessageID (ms_RecvPacket m)) /\
                        Message_Unmarshal (preq_Data r) = Some (stored_message m))
      [mkMessage ([x01; x02] : Packet) 3 true 0; mkMessage ([x03] : Packet) 3 false 0] reqs.
Proof.
  apply messages_read_back; repeat (apply Forall_cons; split); try apply Forall_nil; try done.
  - split; [done|]. split; [done|]. by intros data [= <-].
  - split; [done|]. split; [done|]. by intros data [= <-].
Defined.

(** ** The member lists of the replicas *)

(** The calls of the database that change the member lists. *)
Definition member_op (op : dbop) : option mop :=
  match op with
  | DbAddSubscribers c t ms => Some (MAdd Subscribers c t ms)
  | DbRemoveSubscribers c t us => Some (MRemove Subscribers c t us)
  | DbRemoveAllSubscriber c t => Some (MRemoveAll Subscribers c t)
  | DbAddDenylist c t ms => Some (MAdd Denied c t ms)
  | DbRemoveDenylist c t us => Some (MRemove Denied c t us)
  | DbRemoveAllDenylist c t => Some (MRemoveAll Denied c t)
  | DbAddAllowlist c t ms => Some (MAdd Allowed c t ms)
  | DbRemoveAllowlist c t us => Some (MRemove Allowed c t us)
  | DbRemoveAllAllowlist c t => Some (MRemoveAll Allowed c t)
  | _ => None
  end.

Section Members.
Context {N : Names} {DB : Type} {P : Pebble DB} {PL : PebbleLaws DB}.
Context {C : Type} {L : LRU PermissionCacheItem C} {LL : LRULaws PermissionCacheItem C}.
Abbreviation wk_state := (wukongDB (DB := DB) (C := C)).
(** The other operations of the database. *)
Context (others : wk_state -> dbop -> res (wk_state * bool)).

(** The database of a replica. *)
Definition memberDB : Wdb := {|
  database := wk_state;
  db_exec wk op :=
    match member_op op with
    | Some o => let! (wk, a) := exec wk o in Ok (wk, match a with AFail _ => false | _ => true end)
    | None => others wk op
    end
|}.

(** Changes of the lists, on a store that does not fail, all succeed. *)
Lemma members_run S (wk : wk_state) ops mops :
  ~ faulty (DB := DB) -> Rep S wk -> Forall2 (fun op o => member_op op = Some o) ops mops -> Forall named mops ->
  exists wk' S', run_ops (D := memberDB) wk ops = Ok (wk', true) /\
    asteps (DB := DB) S mops ((fun _ => ADone) <$> mops) S' /\ Rep S' wk'.
Proof.
  intros Hf. revert S wk. intros S wk Hr H. revert S wk Hr.
  induction H as [|op o ops mops Ho _ IH]; intros S wk Hr Hn.
  { exists wk, S. split; [done|]. by split; [constructor|]. }
  apply Forall_cons in Hn as [Hn1 Hn2]. destruct (exec_sim S wk o Hr Hn1) as (wk1 & a & S1 & E & Ha & Hr1).
  cbn [run_ops db_exec memberDB]. rewrite Ho, E. cbn [res_bind].
  assert (a = ADone) as ->.
  { destruct op; inversion Ho; subst; by inversion Ha. }
  destruct (IH S1 wk1 Hr1 Hn2) as (wk2 & S2 & E2 & Hs & Hr2). exists wk2, S2. split; [exact E2|].
  by split; [eapply as_cons|].
Qed.
End Members.

(** What a call of the store that changes the member lists means. *)
Definition member_call (o : scall) : option mop :=
  match o with
  | SAddSubscribers c t ms => Some (MAdd Subscribers c t (stored_member <$> ms))
  | SRemoveSubscribers c t us => Some (MRemove Subscribers c t us)
  | SRemoveAllSubscriber c t => Some (MRemoveAll Subscribers c t)
  | SAddDenylist c t ms => Some (MAdd Denied c t (stored_member <$> ms))
  | SRemoveDenylist c t us => Some (MRemove Denied c t us)
  | SRemoveAllDenylist c t => Some (MRemoveAll Denied c t)
  | SAddAllowlist c t ms => Some (MAdd Allowed c t (stored_member <$> ms))
  | SRemoveAllowlist c t us => Some (MRemove Allowed c t us)
  | SRemoveAllAllowlist c t => Some (MRemoveAll Allowed c t)
  | _ => None
  end.

(** [log] is the log of the only proposal of the call. *)
Definition proposed_by {W : WkProto} {I : WkProtoInt32} {JD : Json conditionalDeviceUpdate} {SS : SlotService}
    {MR : MapRange} (log : Log) (o : scall) : Prop :=
  exists slotId, call o = Ok ([(slotId, log_Data log)], true).

Lemma on_inv {A} (l : list A) slotId op se : on l slotId op = [se] -> se = (slotId, fun _ => [op]).
Proof. destruct l; cbn; congruence. Qed.

Lemma member_effect {SS : SlotService} {MR : MapRange} o m se :
  member_call o = Some m -> effects o = [se] -> exists op, (forall i, se.2 i = [op]) /\ member_op op = Some m.
Proof.
  destruct o; cbn [member_call effects]; try done; intros [= <-] He;
    (apply on_inv in He || (injection He as He)); subst se; eexists; by split.
Qed.

Section Replica.
Context {W : WkProto} {WL : WkProtoLaws W} {I : WkProtoInt32} {IL : WkProtoInt32Laws I}.
Context {JD : Json conditionalDeviceUpdate} {JDL : JsonLaws JD} {JE : Json MessageEvent}.
Context {SS : SlotService} {MR : MapRange} {ML : MapRangeLaws MR} {R : StrRange}.
Context (IsCmdChannel : string -> bool).

(** The logs of calls that change the lists carry those changes. *)
Lemma member_logs logs os mops :
  Forall call_fits os -> Forall2 proposed_by logs os -> Forall2 (fun o m => member_call o = Some m) os mops ->
  exists es, carry IsCmdChannel logs es /\ Forall2 (fun op o => member_op op = Some o) (ops_of logs es) mops.
Proof.
  intros Hf Hl. revert mops. induction Hl as [|log o logs os [slotId Hp] _ IH]; intros mops Hm.
  { apply Forall2_nil_inv_l in Hm as ->. exists []. split; constructor. }
  apply Forall_cons in Hf as [Ho Hf]. apply Forall2_cons_inv_l in Hm as (m & mops' & Hm & Hms & ->).
  destruct (IH Hf mops' Hms) as (es & Hc & Hops).
  destruct (call_carried IsCmdChannel o Ho) as (ps & E & Hps). rewrite Hp in E. injection E as <-.
  apply Forall2_cons_inv_l in Hps as (se & ses & [_ Hse] & Hnil & He). apply Forall2_nil_inv_l in Hnil as ->.
  destruct (member_effect o m se Hm He) as (op & Hop & Hm'). cbn [snd] in Hse.
  exists (se.2 :: es). split; [by constructor|]. unfold ops_of. cbn [zip_with mjoin list_join]. rewrite Hop. by constructor.
Qed.
End Replica.

Lemma member_op_early op o : member_op op = Some o -> late_op op = false.
Proof. by destruct op. Qed.

(** C14. The replicas of a slot hold the same members. From an empty database that does not
    fail (1 to below 2^32 shards), a replica that applies the logs of calls of the store on
    the subscriber, deny and allow lists, in whatever batches, applies them all, and from
    then on every sequence of calls of its database, reads included, is answered as the
    three abstract lists answer after the calls that were proposed, in the order of the
    logs; a time of 1970 counts as none. The calls are those that make a proposal, with
    arguments that fit their encoding (strings of 16 bits of length, fewer than 2^32
    members) and on channels and users that are told apart by their hashes, which are not
    zero: channels with an id without a colon and a type of one byte, users with a uid that
    is not empty, times that are positive 63-bit numbers. *)
Theorem replicated_members {W : WkProto} {WL : WkProtoLaws W} {I : WkProtoInt32} {IL : WkProtoInt32Laws I}
    {JD : Json conditionalDeviceUpdate} {JDL : JsonLaws JD} {JE : Json MessageEvent}
    {SS : SlotService} {MR : MapRange} {ML : MapRangeLaws MR} {R : StrRange} {RL : StrRangeLaws R}
    {SC : SaveSchedule} {SL : SaveScheduleLaws SC}
    {N : Names} {DB} {P : Pebble DB} {PL : PebbleLaws DB}
    {C} {L : LRU PermissionCacheItem C} {LL : LRULaws PermissionCacheItem C}
    (others : wukongDB (DB := DB) (C := C) -> dbop -> res (wukongDB (DB := DB) (C := C) * bool))
    (IsCmdChannel : string -> bool) (dbs : list DB) (maxCacheSize : Z) (clock : nat -> Z)
    (os : list scall) (mops : list mop) (batches : list (list Log)) :
  ~ faulty (DB := DB) -> (0 < length dbs)%nat -> Z.of_nat (length dbs) < 2 ^ 32 ->
  (forall db, db ∈ dbs -> kv_map db = ∅) ->
  Forall call_fits os -> Forall2 (fun o m => member_call o = Some m) os mops -> Forall named mops ->
  Forall2 proposed_by (mjoin batches) os ->
  exists (wk : wukongDB (DB := DB) (C := C)) S,
    apply_batches (D := memberDB others) IsCmdChannel (mkWukongDB dbs (NewPermissionCache maxCacheSize clock)) batches =
      Ok (wk, true) /\
    asteps (DB := DB) no_members mops ((fun _ => ADone) <$> mops) S /\
    forall calls, Forall named calls ->
      exists wk' answers S', execs wk calls = Ok (wk', answers) /\ asteps (DB := DB) S calls answers S'.
Proof.
  intros Hfault Hn Hn' Hdb Hf Hm Hnamed Hl.
  destruct (member_logs IsCmdChannel (mjoin batches) os mops Hf Hl Hm) as (es & Hc & Hops).
  assert (Rep (C := C) no_members (mkWukongDB dbs (NewPermissionCache maxCacheSize clock))) as Hr.
  { apply empty_rep; try done. unfold items. apply lru_new_law. }
  destruct (members_run others _ _ _ mops Hfault Hr Hops Hnamed) as (wk & S & E & Hs & Hr').
  exists wk, S. split_and!; [|done|].
  - apply (early_batches (D := memberDB others) IsCmdChannel batches es Hc); [|exact E].
    clear -Hops. induction Hops; constructor; eauto using member_op_early.
  - intros calls Hcalls. destruct (execs_sim S wk calls Hr' Hcalls) as (wk' & aa & S' & E' & Ha & _). eauto.
Qed.

Definition deny_calls : list scall :=
  [SAddDenylist "g" 2 [MemberProps.demo_member "a" 5; MemberProps.demo_member "b" 6]; SRemoveDenylist "g" 2 ["a"]].
Definition deny_ops : list mop :=
  [MAdd Denied "g" 2 [MemberProps.demo_member "a" 5; MemberProps.demo_member "b" 6]; MRemove Denied "g" 2 ["a"]].

Lemma demo_member_fits u z : (u = "a" \/ u = "b") -> z = 5 \/ z = 6 -> member_fits (MemberProps.demo_member u z).
Proof.
  intros Hu Hz. split; [done|]. split; [by destruct Hu as [-> | ->]|].
  destruct Hu as [-> | ->], Hz as [-> | ->]; intros b [= <-]; by vm_compute.
Qed.

Lemma demo_deny_named : Forall named deny_ops.
Proof.
  assert (Hm : forall u z, WkMembersLaws.User u -> 0 < z < 2 ^ 63 -> new_member (MemberProps.demo_member u z)).
  { intros u z Hu Hz. split; [done|]. by split; [intros x [= <-]|intros x]. }
  assert (WkMembersLaws.User "a") by (by left). assert (WkMembersLaws.User "b") by (by right; left). assert (Chan "g" 2) by (by left).
  unfold deny_ops. rewrite !Forall_cons, Forall_nil. cbn [named]. rewrite !Forall_cons, Forall_nil.
  split_and!; try done; apply Hm; (done || lia).
Qed.

Lemma replicated_members_witness :
  exists (wk : wukongDB (DB := kvmap) (C := lru_list PermissionCacheItem)) S,
    apply_batches (D := memberDB (fun wk _ => Ok (wk, false))) (fun _ => false)
      (mkWukongDB [∅; ∅] (NewPermissionCache 100 (fun n => Z.of_nat n))) 
      ((fun log => [log]) <$> imap log_of deny_calls) =
      Ok (wk, true) /\
    asteps (DB := kvmap) no_members deny_ops ((fun _ => ADone) <$> deny_ops) S /\
    forall calls, Forall named calls ->
      exists wk' answers S', execs wk calls = Ok (wk', answers) /\ asteps (DB := kvmap) S calls answers S'.
Proof.
  apply (replicated_members _ _ _ _ _ deny_calls).
  - intros [(db & k & H)|[(db & ws & k & H)|(db & ws & H)]]; cbn in H; [| |done].
    + by destruct (db !! k).
    + by destruct (apply_wops db ws !! k).
  - simpl. lia.
  - done.
  - intros db Hdb. by repeat (apply elem_of_cons in Hdb as [->|Hdb]; [done|]); apply not_elem_of_nil in Hdb.
  - unfold deny_calls. rewrite !Forall_cons, Forall_nil. unfold call_fits, members_fit, strs_fit.
    rewrite !Forall_cons, !Forall_nil. split_and!; try done; apply demo_member_fits; auto.
  - repeat constructor.
  - apply demo_deny_named.
  - repeat (constructor; [by eexists; vm_compute|]). constructor.
Defined.
End StoreProps.
