(* ===== verification/SlotStorage.v ===== *)
(** * The log storage of the slots

    [pkg/cluster/slot/storage_pebble.go] and [pkg/cluster/slot/key]: the logs of the
    rafts of the slots, their applied index and the first log of every term, in the
    key-value stores of [WkKv], one per shard.

    A reading operation returns [None] on an error; a writing one the new storage and
    whether it succeeded.  [now] is the clock.  What the server does with applied logs
    and configurations ([opts.OnApply], [opts.OnSaveConfig]) is an argument, with a
    state of its own.  A lock per shard makes [AppendLogs], [TruncateLogTo] and [Apply]
    steps of their own. *)

From Stdlib Require Import Strings.Byte.
From S2P Require Import Prelude RaftTypes WkProto RaftCodec KeyBytes WkKv.

Definition MaxUint64 : Z := two64 - 1.
Definition MaxUint32 : Z := two32 - 1.

(** ** Keys *)

(** [pkg/cluster/slot/key/key.go] [shardNoToShardID] *)
Definition shardNoToShardID (shardNo : string) : Z := fnv64a (str_bytes shardNo).

(** [pkg/cluster/slot/key/key.go] [NewLogKey] *)
Definition NewLogKey (shardNo : string) (index : Z) : res bytes :=
  make 20 [WByte 0 x01; WByte 1 x01; WByte 2 x00; WByte 3 x00;
           WUint 8 4 (shardNoToShardID shardNo); WUint 8 12 index].
(** [pkg/cluster/slot/key/key.go] [NewMaxIndexKey] *)
Definition NewMaxIndexKey (shardNo : string) : res bytes :=
  make 12 [WByte 0 x03; WByte 1 x03; WByte 2 x00; WByte 3 x00; WUint 8 4 (shardNoToShardID shardNo)].
(** [pkg/cluster/slot/key/key.go] [NewLeaderTermStartIndexKey] *)
Definition NewLeaderTermStartIndexKey (shardNo : string) (term : Z) : res bytes :=
  make 16 [WByte 0 x04; WByte 1 x04; WByte 2 x00; WByte 3 x00;
           WUint 8 4 (shardNoToShardID shardNo); WUint 4 12 term].
(** [pkg/cluster/slot/key/key.go] [GetTermFromLeaderTermStartIndexKey] *)
Definition GetTermFromLeaderTermStartIndexKey (key : bytes) : res Z :=
  if (length key <? 16)%nat then Panic else Ok (be_val (take 4 (drop 12 key))).
(** [pkg/cluster/slot/key/key.go] [NewAppliedIndexKey] *)
Definition NewAppliedIndexKey (shardNo : string) : res bytes :=
  make 12 [WByte 0 x02; WByte 1 x02; WByte 2 x00; WByte 3 x00; WUint 8 4 (shardNoToShardID shardNo)].

(** ** Storage *)

(** The 32 bit FNV-1 hash ([fnv.New32]). *)
Definition fnv1_32 (data : bytes) : Z :=
  foldl (fun h b => Z.lxor (u32 (h * 16777619)) (Z_of_byte b)) 2166136261 data.

Section Storage.
Context {DB : Type} {P : Pebble DB}.

(** [pkg/cluster/slot/storage_pebble.go] [PebbleShardLogStorage] *)
Record PebbleShardLogStorage := mkStorage { ps_dbs : list DB; ps_shardNum : Z }.
Implicit Types p : PebbleShardLogStorage.

(** [pkg/cluster/slot/storage_pebble.go] [(p *PebbleShardLogStorage) shardId] *)
Definition shardId p (v : string) : res Z :=
  if bool_decide (v = "") then Panic
  else if ps_shardNum p =? 1 then Ok 0
  else if ps_shardNum p =? 0 then Panic
  else Ok (fnv1_32 (str_bytes v) mod ps_shardNum p).

(** [pkg/cluster/slot/storage_pebble.go] [(p *PebbleShardLogStorage) shardDB]

    With the number of the shard, at which its new state is put. *)
Definition shardDB p (v : string) : res (nat * DB) :=
  let! i := shardId p v in
  match ps_dbs p !! Z.to_nat i with
  | Some db => Ok (Z.to_nat i, db)
  | None => Panic
  end.

(** A batch of a shard is committed. *)
Definition commit_shard p (i : nat) (db : DB) (ws : list wop) : PebbleShardLogStorage * bool :=
  match kv_commit db ws with
  | Some db => ({| p with ps_dbs := <[i := db]> (ps_dbs p) |}, true)
  | None => (p, false)
  end.

(** [pkg/cluster/slot/storage_pebble.go] [lines 451-466]

    A stored log: its encoding and the time it was stored. *)
Definition read_log (data : bytes) : res (option Log) :=
  if (length data <? 8)%nat then Panic
  else let n := (length data - 8)%nat in
       Ok (l ← Log_Unmarshal (take n data);
           Some {| l with log_Time := i64 (be_val (drop n data)) |}).

(** [pkg/cluster/slot/storage_pebble.go] [(p *PebbleShardLogStorage) getLog] *)
Definition getLog p (shardNo : string) (index : Z) : res (option Log) :=
  let! keyData := NewLogKey shardNo index in
  let! (_, db) := shardDB p shardNo in
  match kv_get db keyData with
  | NotFound => Ok (Some EmptyLog)
  | GetErr => Ok None
  | Found data => read_log data
  end.

(** [pkg/cluster/slot/storage_pebble.go] [(p *PebbleShardLogStorage) lastLog] *)
Definition lastLog p (shardNo : string) : res (option Log) :=
  let! (_, db) := shardDB p shardNo in
  let! lower := NewLogKey shardNo 0 in
  let! upper := NewLogKey shardNo MaxUint64 in
  match last (kv_iter db lower upper) with
  | Some (_, data) => read_log data
  | None => Ok (Some EmptyLog)
  end.

(** [pkg/cluster/slot/storage_pebble.go] [(p *PebbleShardLogStorage) LastIndex] *)
Definition LastIndex p (shardNo : string) : res (option Z) :=
  let! r := lastLog p shardNo in Ok (log_Index <$> r).

(** [pkg/cluster/slot/storage_pebble.go] [(p *PebbleShardLogStorage) LastIndexAndTerm] *)
Definition LastIndexAndTerm p (shardNo : string) : res (option (Z * Z)) :=
  let! r := LastIndex p shardNo in
  match r with
  | None => Ok None
  | Some lastIndex =>
      if lastIndex =? 0 then Ok (Some (0, 0))
      else let! l := getLog p shardNo lastIndex in Ok ((fun l => (lastIndex, log_Term l)) <$> l)
  end.

(** [pkg/cluster/slot/storage_pebble.go] [(p *PebbleShardLogStorage) SetAppliedIndex] *)
Definition SetAppliedIndex p (shardNo : string) (index now : Z) : res (PebbleShardLogStorage * bool) :=
  let! keyData := NewAppliedIndexKey shardNo in
  let! (i, db) := shardDB p shardNo in
  Ok (commit_shard p i db [WSet keyData (be_bytes 8 index ++ be_bytes 8 (u64 now))]).

(** [pkg/cluster/slot/storage_pebble.go] [(p *PebbleShardLogStorage) AppliedIndex] *)
Definition AppliedIndex p (shardNo : string) : res (option Z) :=
  let! keyData := NewAppliedIndexKey shardNo in
  let! (_, db) := shardDB p shardNo in
  match kv_get db keyData with
  | NotFound => Ok (Some 0)
  | GetErr => Ok None
  | Found data =>
      if (length data =? 0)%nat then Ok (Some 0)
      else if (length data <? 8)%nat then Panic else Ok (Some (be_val (take 8 data)))
  end.

(** [pkg/cluster/slot/storage_pebble.go] [(p *PebbleShardLogStorage) GetState]

    An applied index beyond the last log is set back. *)
Definition GetState p (shardNo : string) (now : Z) : res (PebbleShardLogStorage * option RaftState) :=
  let! r := LastIndexAndTerm p shardNo in
  match r with
  | None => Ok (p, None)
  | Some (lastLogIndex, lastLogTerm) =>
      let! a := AppliedIndex p shardNo in
      match a with
      | None => Ok (p, None)
      | Some applied =>
          if lastLogIndex <? applied then
            let! (p, ok) := SetAppliedIndex p shardNo lastLogIndex now in
            Ok (p, if ok then Some (mkRaftState lastLogIndex lastLogTerm lastLogIndex) else None)
          else Ok (p, Some (mkRaftState lastLogIndex lastLogTerm applied))
      end
  end.

(** [pkg/cluster/slot/storage_pebble.go] [(p *PebbleShardLogStorage) SetLeaderTermStartIndex] *)
Definition SetLeaderTermStartIndex p (shardNo : string) (term index : Z) : res (PebbleShardLogStorage * bool) :=
  let! keyData := NewLeaderTermStartIndexKey shardNo term in
  let! (i, db) := shardDB p shardNo in
  Ok (commit_shard p i db [WSet keyData (be_bytes 8 index)]).

(** [pkg/cluster/slot/storage_pebble.go] [lines 207-226]

    The writes of the logs; [now] is the clock at each. *)
Fixpoint log_writes (shardNo : string) (logs : list Log) (now : nat -> Z) : res (list wop) :=
  match logs with
  | [] => Ok []
  | lg :: logs =>
      let! keyData := NewLogKey shardNo (log_Index lg) in
      let! ws := log_writes shardNo logs (fun n => now (S n)) in
      Ok (WSet keyData (Log_Marshal lg ++ be_bytes 8 (u64 (now O))) :: ws)
  end.

(** [pkg/cluster/slot/storage_pebble.go] [(p *PebbleShardLogStorage) AppendLogs]

    The start of the term is written at once, the logs with the batch. *)
Definition AppendLogs p (shardNo : string) (logs : list Log) (termStartIndexInfo : option TermStartIndexInfo)
    (now : nat -> Z) : res (PebbleShardLogStorage * bool) :=
  let! _ := shardDB p shardNo in
  let! p := match termStartIndexInfo with
            | None => Ok p
            | Some info =>
                let! (p, ok) := SetLeaderTermStartIndex p shardNo (tsi_Term info) (tsi_Index info) in
                if ok then Ok p else Panic
            end in
  let! ws := log_writes shardNo logs now in
  let! (i, db) := shardDB p shardNo in
  Ok (commit_shard p i db ws).

(** [pkg/cluster/slot/storage_pebble.go] [(p *PebbleShardLogStorage) TruncateLogTo]

    Nothing is cut if the index is below the applied one. *)
Definition TruncateLogTo p (shardNo : string) (index : Z) : res (PebbleShardLogStorage * bool) :=
  if index =? 0 then Ok (p, false)
  else
    let! r := lastLog p shardNo in
    match r with
    | None => Ok (p, false)
    | Some lastLog =>
        if log_Index lastLog <=? index then Ok (p, true)
        else
          let! a := AppliedIndex p shardNo in
          match a with
          | None => Ok (p, false)
          | Some appliedIdx =>
              if index <? appliedIdx then Ok (p, true)
              else
                let! keyData := NewLogKey shardNo (index +64 1) in
                let! maxKeyData := NewLogKey shardNo MaxUint64 in
                let! (i, db) := shardDB p shardNo in
                Ok (commit_shard p i db [WDeleteRange keyData maxKeyData])
          end
    end.

(** [pkg/cluster/slot/storage_pebble.go] [lines 310-332]

    The logs an iterator visits, until their size reaches the limit. *)
Fixpoint collect_logs (entries : list (bytes * bytes)) (size limitSize : Z) : res (option (list Log)) :=
  match entries with
  | [] => Ok (Some [])
  | (_, data) :: entries =>
      let! l := read_log data in
      match l with
      | None => Ok None
      | Some l =>
          let size := size +64 u64 (LogSize l) in
          if negb (limitSize =? 0) && (limitSize <=? size) then Ok (Some [l])
          else let! more := collect_logs entries size limitSize in Ok (cons l <$> more)
      end
  end.

(** [pkg/cluster/slot/storage_pebble.go] [(p *PebbleShardLogStorage) GetLogs] *)
Definition GetLogs p (shardNo : string) (startLogIndex endLogIndex limitSize : Z) : res (option (list Log)) :=
  let! lowKey := NewLogKey shardNo startLogIndex in
  let! highKey := NewLogKey shardNo (if endLogIndex =? 0 then MaxUint64 else endLogIndex) in
  let! (_, db) := shardDB p shardNo in
  collect_logs (kv_iter db lowKey highKey) 0 limitSize.

(** [pkg/cluster/slot/storage_pebble.go] [lines 390-413]

    At most [limit] logs. *)
Fixpoint collect_last (entries : list (bytes * bytes)) (size limit : Z) : res (option (list Log)) :=
  match entries with
  | [] => Ok (Some [])
  | (_, data) :: entries =>
      let! l := read_log data in
      match l with
      | None => Ok None
      | Some l =>
          if negb (limit =? 0) && (limit <=? size + 1) then Ok (Some [l])
          else let! more := collect_last entries (size + 1) limit in Ok (cons l <$> more)
      end
  end.

(** [pkg/cluster/slot/storage_pebble.go] [(p *PebbleShardLogStorage) GetLogsInReverseOrder] *)
Definition GetLogsInReverseOrder p (shardNo : string) (startLogIndex endLogIndex limit : Z) : res (option (list Log)) :=
  let! lowKey := NewLogKey shardNo startLogIndex in
  let! highKey := NewLogKey shardNo (if endLogIndex =? 0 then MaxUint64 else endLogIndex) in
  let! (_, db) := shardDB p shardNo in
  collect_last (rev (kv_iter db lowKey highKey)) 0 limit.

(** The terms of the keys an iterator visits. *)
Fixpoint term_keys (entries : list (bytes * bytes)) : res (list Z) :=
  match entries with
  | [] => Ok []
  | (k, _) :: entries =>
      let! t := GetTermFromLeaderTermStartIndexKey k in
      let! ts := term_keys entries in Ok (t :: ts)
  end.

(** [pkg/cluster/slot/storage_pebble.go] [(p *PebbleShardLogStorage) LeaderLastLogTerm] *)
Definition LeaderLastLogTerm p (shardNo : string) : res (option Z) :=
  let! lower := NewLeaderTermStartIndexKey shardNo 0 in
  let! upper := NewLeaderTermStartIndexKey shardNo MaxUint32 in
  let! (_, db) := shardDB p shardNo in
  let! ts := term_keys (kv_iter db lower upper) in
  Ok (Some (foldl (fun maxTerm term => if maxTerm <? term then term else maxTerm) 0 ts)).

(** [pkg/cluster/slot/storage_pebble.go] [(p *PebbleShardLogStorage) GetTermStartIndex] *)
Definition GetTermStartIndex p (shardNo : string) (term : Z) : res (option Z) :=
  let! keyData := NewLeaderTermStartIndexKey shardNo term in
  let! (_, db) := shardDB p shardNo in
  match kv_get db keyData with
  | NotFound => Ok (Some 0)
  | GetErr => Ok None
  | Found data =>
      if (length data =? 0)%nat then Ok (Some 0)
      else if (length data <? 8)%nat then Panic else Ok (Some (be_val (take 8 data)))
  end.

(** [pkg/cluster/slot/storage_pebble.go] [lines 582-588]

    The loop ends at the first term that is not smaller. *)
Fixpoint first_term (entries : list (bytes * bytes)) (maxTerm : Z) : res Z :=
  match entries with
  | [] => Ok maxTerm
  | (k, _) :: entries =>
      let! t := GetTermFromLeaderTermStartIndexKey k in
      if maxTerm <=? t then Ok t else first_term entries maxTerm
  end.

(** [pkg/cluster/slot/storage_pebble.go] [(p *PebbleShardLogStorage) LeaderTermGreaterEqThan] *)
Definition LeaderTermGreaterEqThan p (shardNo : string) (term : Z) : res (option Z) :=
  let! lower := NewLeaderTermStartIndexKey shardNo term in
  let! upper := NewLeaderTermStartIndexKey shardNo MaxUint32 in
  let! (_, db) := shardDB p shardNo in
  let! t := first_term (kv_iter db lower upper) term in Ok (Some t).

(** [pkg/cluster/slot/storage_pebble.go] [(p *PebbleShardLogStorage) DeleteLeaderTermStartIndexGreaterThanTerm] *)
Definition DeleteLeaderTermStartIndexGreaterThanTerm p (shardNo : string) (term : Z) :
    res (PebbleShardLogStorage * bool) :=
  let! lower := NewLeaderTermStartIndexKey shardNo (u32 (term + 1)) in
  let! upper := NewLeaderTermStartIndexKey shardNo MaxUint32 in
  let! (i, db) := shardDB p shardNo in
  Ok (commit_shard p i db ((fun e => WDelete e.1) <$> kv_iter db lower upper)).

(** ** Callbacks *)

Section Callbacks.
Context {App : Type}.
(** [opts.OnApply] and [opts.OnSaveConfig], when they are set. *)
Context (OnApply : option (Z -> list Log -> App -> res (App * bool))).
Context (OnSaveConfig : option (Z -> Config -> App -> res (App * bool))).
Context (KeyToSlotId : string -> Z).

(** [pkg/cluster/slot/storage_pebble.go] [(p *PebbleShardLogStorage) Apply] *)
Definition Apply p (app : App) (shardNo : string) (logs : list Log) (now : Z) :
    res (PebbleShardLogStorage * App * bool) :=
  let! _ := shardId p shardNo in
  match OnApply with
  | None => Ok (p, app, true)
  | Some onApply =>
      let! (app, ok) := onApply (KeyToSlotId shardNo) logs app in
      if ok then
        match last logs with
        | None => Panic
        | Some l => let! (p, ok) := SetAppliedIndex p shardNo (log_Index l) now in Ok (p, app, ok)
        end
      else Ok (p, app, false)
  end.

(** [pkg/cluster/slot/storage_pebble.go] [(p *PebbleShardLogStorage) SaveConfig] *)
Definition SaveConfig (app : App) (shardNo : string) (cfg : Config) : res (App * bool) :=
  match OnSaveConfig with
  | None => Ok (app, true)
  | Some onSaveConfig => onSaveConfig (KeyToSlotId shardNo) cfg app
  end.
End Callbacks.
End Storage.
Arguments PebbleShardLogStorage : clear implicits.
