(* ===== verification/SlotStorageLaws.v ===== *)
(** * What the log storage of the slots holds

    The keys of [SlotStorage] and their order, the abstract state of a slot
    ([slotlog]: its logs by index, its applied index, the first log of each term),
    and the relation [Rep] between the stores of the shards and the slots. *)

From Stdlib Require Import Strings.Byte Sorting.Sorted.
From S2P Require Import Prelude ZTables RaftTypes WkProto RaftCodec KeyBytes WkKv SlotStorage.

(** ** Keys *)

(** What a key stands for; [s] is the hash of the name of a slot. *)
Inductive lkey := KLog (s i : Z) | KApplied (s : Z) | KTerm (s t : Z).
Definition key_slot (lk : lkey) : Z := match lk with KLog s _ | KApplied s | KTerm s _ => s end.
Definition lkey_ok (lk : lkey) : Prop :=
  is_u64 (key_slot lk) /\ match lk with KLog _ i => is_u64 i | KTerm _ t => is_u32 t | KApplied _ => True end.

Definition key_bytes (lk : lkey) : bytes :=
  match lk with
  | KLog s i => ([x01; x01; x00; x00] ++ be_bytes 8 s) ++ be_bytes 8 i
  | KApplied s => [x02; x02; x00; x00] ++ be_bytes 8 s
  | KTerm s t => ([x04; x04; x00; x00] ++ be_bytes 8 s) ++ be_bytes 4 t
  end.

Lemma NewLogKey_bytes k i : NewLogKey k i = Ok (key_bytes (KLog (shardNoToShardID k) i)).
Proof. reflexivity. Qed.
Lemma NewAppliedIndexKey_bytes k : NewAppliedIndexKey k = Ok (key_bytes (KApplied (shardNoToShardID k))).
Proof. reflexivity. Qed.
Lemma NewLeaderTermStartIndexKey_bytes k t :
  NewLeaderTermStartIndexKey k t = Ok (key_bytes (KTerm (shardNoToShardID k) t)).
Proof. reflexivity. Qed.

#[local] Arguments be_bytes : simpl never.

Lemma be8_inj a b : is_u64 a -> is_u64 b -> be_bytes 8 a = be_bytes 8 b -> a = b.
Proof. apply (be_bytes_inj 8). Qed.
Lemma be4_inj a b : is_u32 a -> is_u32 b -> be_bytes 4 a = be_bytes 4 b -> a = b.
Proof. apply (be_bytes_inj 4). Qed.

Lemma key_bytes_inj a b : lkey_ok a -> lkey_ok b -> key_bytes a = key_bytes b -> a = b.
Proof.
  destruct a as [s i|s|s t], b as [s' i'|s'|s' t']; intros [Hs Hi] [Hs' Hi'] E; cbn [key_slot key_bytes] in *;
    try discriminate E; rewrite <-?(app_assoc [_; _; _; _]) in E; apply app_inv_head in E.
  - apply app_inj_1 in E as [E1 E2]; [|by rewrite !be_bytes_length]. apply be8_inj in E1 as ->; [|done..].
    by apply be8_inj in E2 as ->.
  - by apply be8_inj in E as ->.
  - apply app_inj_1 in E as [E1 E2]; [|by rewrite !be_bytes_length]. apply be8_inj in E1 as ->; [|done..].
    by apply be4_inj in E2 as ->.
Qed.

Lemma range_be8 a b v : is_u64 a -> is_u64 b -> is_u64 v ->
  in_range (be_bytes 8 a) (be_bytes 8 b) (be_bytes 8 v) <-> a <= v < b.
Proof.
  intros Ha Hb Hv. unfold in_range, ble, blt. rewrite !(bcompare_be 8) by done.
  destruct (Z.compare_spec a v), (Z.compare_spec v b); naive_solver lia.
Qed.
Lemma range_be4 a b v : is_u32 a -> is_u32 b -> is_u32 v ->
  in_range (be_bytes 4 a) (be_bytes 4 b) (be_bytes 4 v) <-> a <= v < b.
Proof.
  intros Ha Hb Hv. unfold in_range, ble, blt. rewrite !(bcompare_be 4) by done.
  destruct (Z.compare_spec a v), (Z.compare_spec v b); naive_solver lia.
Qed.

(** A key whose first bytes are those of logs, or of terms, of a slot. *)
Lemma key_prefix_log lk s c : lkey_ok lk -> is_u64 s ->
  key_bytes lk = ([x01; x01; x00; x00] ++ be_bytes 8 s) ++ c -> exists i, lk = KLog s i /\ is_u64 i /\ c = be_bytes 8 i.
Proof.
  destruct lk as [s' i|s'|s' t]; intros [Hs' Hi] Hs E; cbn [key_bytes key_slot] in *; try discriminate E.
  rewrite <-!(app_assoc [_; _; _; _]) in E. apply app_inv_head in E. apply app_inj_1 in E as [E1 <-]; [|by rewrite !be_bytes_length].
  apply be8_inj in E1 as ->; [|done..]. by exists i.
Qed.
Lemma key_prefix_term lk s c : lkey_ok lk -> is_u64 s ->
  key_bytes lk = ([x04; x04; x00; x00] ++ be_bytes 8 s) ++ c -> exists t, lk = KTerm s t /\ is_u32 t /\ c = be_bytes 4 t.
Proof.
  destruct lk as [s' i|s'|s' t]; intros [Hs' Hi] Hs E; cbn [key_bytes key_slot] in *; try discriminate E.
  rewrite <-!(app_assoc [_; _; _; _]) in E. apply app_inv_head in E. apply app_inj_1 in E as [E1 <-]; [|by rewrite !be_bytes_length].
  apply be8_inj in E1 as ->; [|done..]. by exists t.
Qed.

(** Between two logs of a slot there are the logs of the slot in between. *)
Lemma log_range s a b lk : is_u64 s -> is_u64 a -> is_u64 b -> lkey_ok lk ->
  in_range (key_bytes (KLog s a)) (key_bytes (KLog s b)) (key_bytes lk) <-> exists i, lk = KLog s i /\ a <= i < b.
Proof.
  intros Hs Ha Hb Hk. split.
  - intros Hr. cbn [key_bytes] in Hr. pose proof (range_prefix _ _ _ _ Hr) as (c & E & Hc).
    destruct (key_prefix_log lk s c Hk Hs E) as (i & -> & Hi & ->). exists i. split; [done|]. by apply range_be8.
  - intros (i & -> & Hi). destruct Hk as [_ Hi']. cbn [key_bytes]. apply in_range_prefix. by apply range_be8.
Qed.
Lemma term_range s a b lk : is_u64 s -> is_u32 a -> is_u32 b -> lkey_ok lk ->
  in_range (key_bytes (KTerm s a)) (key_bytes (KTerm s b)) (key_bytes lk) <-> exists t, lk = KTerm s t /\ a <= t < b.
Proof.
  intros Hs Ha Hb Hk. split.
  - intros Hr. cbn [key_bytes] in Hr. pose proof (range_prefix _ _ _ _ Hr) as (c & E & Hc).
    destruct (key_prefix_term lk s c Hk Hs E) as (t & -> & Ht & ->). exists t. split; [done|]. by apply range_be4.
  - intros (t & -> & Ht). destruct Hk as [_ Ht']. cbn [key_bytes]. apply in_range_prefix. by apply range_be4.
Qed.

Lemma log_key_lt s i j : is_u64 i -> is_u64 j -> blt (key_bytes (KLog s i)) (key_bytes (KLog s j)) <-> i < j.
Proof. intros Hi Hj. unfold blt. cbn [key_bytes]. rewrite bcompare_prefix, (bcompare_be 8) by done. by rewrite Z.compare_lt_iff. Qed.
Lemma term_key_lt s t u : is_u32 t -> is_u32 u -> blt (key_bytes (KTerm s t)) (key_bytes (KTerm s u)) <-> t < u.
Proof. intros Hi Hj. unfold blt. cbn [key_bytes]. rewrite bcompare_prefix, (bcompare_be 4) by done. by rewrite Z.compare_lt_iff. Qed.

Lemma GetTerm_key s t : is_u32 t -> GetTermFromLeaderTermStartIndexKey (key_bytes (KTerm s t)) = Ok t.
Proof.
  intros Ht. unfold GetTermFromLeaderTermStartIndexKey. cbn [key_bytes].
  rewrite !length_app, !be_bytes_length. cbn [length Nat.add Nat.ltb Nat.leb].
  rewrite drop_app_length' by (by rewrite length_app, be_bytes_length).
  rewrite take_ge by (by rewrite be_bytes_length). by rewrite (be_val_bytes 4).
Qed.

(** ** Stored logs *)

(** A log as it is read back: the record is not stored, and the time is that of the
    store. *)
Definition stored_log (now : Z) (l : Log) : Log := {| (wire_log l) with log_Time := i64 now |}.
Definition log_value (l : Log) : bytes := Log_Marshal l ++ be_bytes 8 (u64 (log_Time l)).

(** A log that has been read back. *)
Record is_stored (l : Log) : Prop := {
  st_fits : log_fits l;
  st_index : 1 <= log_Index l < MaxUint64;
  st_wire : wire_log l = {| l with log_Time := zero_time |};
  st_time : is_i64 (log_Time l)
}.

Lemma i64_u64 z : is_i64 z -> i64 (u64 z) = z.
Proof.
  intros Hz. unfold i64, u64, is_i64 in *. rewrite Z.add_mod_idemp_l by lia. rewrite Z.mod_small by lia. lia.
Qed.
Lemma i64_range z : is_i64 (i64 z).
Proof. unfold is_i64, i64. pose proof (Z.mod_pos_bound (z + two63) two64 ltac:(lia)). lia. Qed.

Lemma read_stored l : is_stored l -> read_log (log_value l) = Ok (Some l).
Proof.
  intros [Hf _ Hw Ht]. unfold read_log, log_value. rewrite length_app, be_bytes_length.
  destruct (Nat.ltb_spec (length (Log_Marshal l) + 8) 8); [lia|].
  replace (length (Log_Marshal l) + 8 - 8)%nat with (length (Log_Marshal l)) by lia.
  rewrite take_app_length, drop_app_length, (Log_roundtrip l Hf). cbn [mbind option_bind].
  rewrite (be_val_bytes 8) by apply u64_range. rewrite i64_u64 by done. rewrite Hw. by destruct l.
Qed.

Lemma stored_log_value now l : log_value (stored_log now l) = Log_Marshal l ++ be_bytes 8 (u64 now).
Proof.
  unfold log_value, stored_log, Log_Marshal, wire_log. cbn [log_Id log_Index log_Term log_Data log_Time]. do 2 f_equal.
  unfold u64, i64. rewrite Zminus_mod_idemp_l. f_equal. lia.
Qed.

Lemma stored_is_stored now l : log_fits l -> 1 <= log_Index l < MaxUint64 -> is_stored (stored_log now l).
Proof.
  intros [? ? ? ?] Hi. split; [by split|done|done|apply i64_range].
Qed.

(** ** Slots *)

(** A slot: its logs, its applied index and the start of the terms. *)
Record slotlog := mkSlotLog { sl_logs : gmap Z Log; sl_applied : Z; sl_terms : gmap Z Z }.
Definition no_slot : slotlog := mkSlotLog ∅ 0 ∅.

Record slot_ok (a : slotlog) : Prop := {
  so_logs : map_Forall (fun i l => log_Index l = i /\ is_stored l) (sl_logs a);
  so_applied : is_u64 (sl_applied a);
  so_terms : map_Forall (fun t i => 0 <= t < MaxUint32 /\ is_u64 i) (sl_terms a)
}.

(** The slots in use: their names have different hashes. *)
Class Slots := {
  IsSlot : string -> Prop;
  slot_nonempty k : IsSlot k -> k <> "";
  slot_inj k k' : IsSlot k -> IsSlot k' -> shardNoToShardID k = shardNoToShardID k' -> k = k'
}.

(** The entries of a slot in a store. *)
Record slot_rep (m : kvmap) (s : Z) (a : slotlog) : Prop := {
  sr_logs i : is_u64 i -> m !! key_bytes (KLog s i) = log_value <$> sl_logs a !! i;
  sr_applied : match m !! key_bytes (KApplied s) with
               | Some v => exists t, v = be_bytes 8 (sl_applied a) ++ be_bytes 8 t
               | None => sl_applied a = 0
               end;
  sr_terms t : is_u32 t -> m !! key_bytes (KTerm s t) = be_bytes 8 <$> sl_terms a !! t
}.

(** Every entry has one of the keys. *)
Definition keys_wf (m : kvmap) : Prop := forall k v, m !! k = Some v -> exists lk, lkey_ok lk /\ k = key_bytes lk.

Lemma shard_hash k : is_u64 (shardNoToShardID k).
Proof. apply fnv64a_range. Qed.

(** A log index that is stored is a positive number of 64 bits, and not the largest. *)
Lemma stored_index a i l :
  slot_ok a -> sl_logs a !! i = Some l -> log_Index l = i /\ is_stored l /\ 1 <= i < MaxUint64.
Proof. intros Ha Hl. destruct (so_logs a Ha i l Hl) as [<- Hst]. split_and!; [done|done|apply Hst..]. Qed.
