(* ===== verification/SlotStorageRefine.v ===== *)
(** * The log storage of the slots refines the slots

    [Rep A p]: the stores of [p] hold the slots [A].  Every operation of the storage
    answers as the abstract one, and leaves stores that hold the slots the abstract
    one leaves; an operation reports an error only when a store does. *)

From Stdlib Require Import Strings.Byte Sorting.Sorted.
From stdpp Require Import sorting.
From S2P Require Import Prelude ZTables RaftTypes WkProto RaftCodec KeyBytes WkKv SlotStorage SlotStorageLaws.

#[local] Arguments be_bytes : simpl never.
#[local] Arguments key_bytes : simpl never.

Section Refine.
Context {DB : Type} {P : Pebble DB} {PL : PebbleLaws DB}.
Implicit Types (m : kvmap) (s : Z) (a : slotlog).

(** ** What an iterator visits *)

Section Column.
(** The keys [C i] hold the entries of a table; [U] are the numbers of their width. *)
Context {V : Type} (C : Z -> lkey) (U : Z -> Prop) (val : V -> bytes) (t : gmap Z V) (db : DB) (lo hi : Z).
Context (HU : forall i v, t !! i = Some v -> U i).
Context (Hcol : forall i, U i -> kv_map db !! key_bytes (C i) = val <$> t !! i).
Context (Hok : forall i, U i -> lkey_ok (C i)).
Context (Hin : forall lk, lkey_ok lk ->
  in_range (key_bytes (C lo)) (key_bytes (C hi)) (key_bytes lk) <-> exists i, lk = C i /\ U i /\ lo <= i < hi).
Context (Hlt : forall i j, U i -> U j -> blt (key_bytes (C i)) (key_bytes (C j)) <-> i < j).

Definition column_entry (p : Z * V) : bytes * bytes := (key_bytes (C p.1), val p.2).

Lemma iter_column : keys_wf (kv_map db) ->
  kv_iter db (key_bytes (C lo)) (key_bytes (C hi)) = column_entry <$> range_of t lo hi.
Proof.
  intros Hwf. apply (iter_numbers (fun i => key_bytes (C i)) U); [exact HU|exact Hcol| | |].
  - intros k v Hr (lk & Hlk & ->)%Hwf. apply Hin in Hr as (i & -> & Hi & _); [by exists i|done].
  - intros i Hi. rewrite Hin by by apply Hok. split; [|by exists i]. intros (j & E & Hj & Hlohi).
    apply Hok in Hi as Hki. apply (f_equal key_bytes) in E. destruct (Z.lt_trichotomy i j) as [H|[->|H]]; [|done|].
    + apply Hlt in H; [|done..]. rewrite E in H. by apply blt_irrefl in H.
    + apply Hlt in H; [|done..]. rewrite E in H. by apply blt_irrefl in H.
  - intros i j Hi Hj. by apply Hlt.
Qed.
End Column.

Lemma iter_logs db s a lo hi :
  keys_wf (kv_map db) -> slot_rep (kv_map db) s a -> slot_ok a -> is_u64 s -> is_u64 lo -> is_u64 hi ->
  kv_iter db (key_bytes (KLog s lo)) (key_bytes (KLog s hi)) =
  column_entry (KLog s) log_value <$> range_of (sl_logs a) lo hi.
Proof.
  intros Hwf Hr Ha Hs Hlo Hhi. apply (iter_column _ is_u64); [| | | | |done].
  - intros i v Hv. destruct (stored_index a i v Ha Hv) as (_ & _ & ?). unfold is_u64, MaxUint64 in *. lia.
  - intros i Hi. by apply (sr_logs _ _ _ Hr).
  - by split.
  - intros lk Hlk. rewrite log_range by done. split; [|naive_solver].
    intros (i & -> & ?). exists i. split_and!; [done|apply Hlk|lia..].
  - intros i j Hi Hj. by apply log_key_lt.
Qed.

Lemma iter_terms db s a lo hi :
  keys_wf (kv_map db) -> slot_rep (kv_map db) s a -> slot_ok a -> is_u64 s -> is_u32 lo -> is_u32 hi ->
  kv_iter db (key_bytes (KTerm s lo)) (key_bytes (KTerm s hi)) =
  column_entry (KTerm s) (be_bytes 8) <$> range_of (sl_terms a) lo hi.
Proof.
  intros Hwf Hr Ha Hs Hlo Hhi. apply (iter_column _ is_u32); [| | | | |done].
  - intros i v Hv. destruct (so_terms a Ha i v Hv) as [? _]. unfold is_u32, MaxUint32 in *. lia.
  - intros i Hi. by apply (sr_terms _ _ _ Hr).
  - by split.
  - intros lk Hlk. rewrite term_range by done. split; [|naive_solver].
    intros (i & -> & ?). exists i. split_and!; [done|apply Hlk|lia..].
  - intros i j Hi Hj. by apply term_key_lt.
Qed.

(** ** Writes *)

(** A write to entries of the slot [s]. *)
Definition slot_write s (w : wop) : Prop :=
  match w with
  | WSet k _ | WDelete k => exists lk, lkey_ok lk /\ key_slot lk = s /\ k = key_bytes lk
  | WDeleteRange lower upper => exists i j, is_u64 i /\ is_u64 j /\
      lower = key_bytes (KLog s i) /\ upper = key_bytes (KLog s j)
  end.

Lemma write_wf s w m : slot_write s w -> keys_wf m -> keys_wf (apply_wop m w).
Proof.
  intros Hw Hwf k v. destruct w as [k' v'|k'|lower upper]; simpl.
  - destruct Hw as (lk & Hlk & _ & ->). intros [[<- _]|[_ Hv]]%lookup_insert_Some; [by exists lk|by eapply Hwf].
  - intros [_ Hv]%lookup_delete_Some. by eapply Hwf.
  - rewrite filter_lookup. destruct (decide _); [done|]. by apply Hwf.
Qed.

Lemma write_frame s w m lk : is_u64 s -> slot_write s w -> lkey_ok lk -> key_slot lk <> s ->
  apply_wop m w !! key_bytes lk = m !! key_bytes lk.
Proof.
  intros Hs Hw Hlk Hne. destruct w as [k' v'|k'|lower upper].
  - destruct Hw as (lk' & Hlk' & <- & ->). apply lookup_insert_ne. intros ->%key_bytes_inj; done.
  - destruct Hw as (lk' & Hlk' & <- & ->). apply lookup_delete_ne. intros ->%key_bytes_inj; done.
  - destruct Hw as (i & j & Hi & Hj & -> & ->). rewrite range_lookup.
    destruct (decide _) as [Hr|]; [|done]. apply log_range in Hr as (n & -> & _); done.
Qed.

Lemma writes_wf s ws m : Forall (slot_write s) ws -> keys_wf m -> keys_wf (apply_wops m ws).
Proof. intros Hws. revert m. induction Hws as [|w ws Hw _ IH]; intros m Hm; [done|]. by apply IH, (write_wf s). Qed.
Lemma writes_frame s ws m lk : is_u64 s -> Forall (slot_write s) ws -> lkey_ok lk -> key_slot lk <> s ->
  apply_wops m ws !! key_bytes lk = m !! key_bytes lk.
Proof.
  intros Hs Hws Hlk Hne. revert m. induction Hws as [|w ws Hw _ IH]; intros m; [done|].
  rewrite apply_wops_cons, IH. by apply (write_frame s).
Qed.

(** The entries of a slot are not touched by the writes to another. *)
Lemma writes_other s s' ws m a : is_u64 s -> is_u64 s' -> s <> s' -> Forall (slot_write s) ws ->
  slot_rep m s' a -> slot_rep (apply_wops m ws) s' a.
Proof.
  intros Hs Hs' Hne Hws [Hl Ha Ht]. split.
  - intros i Hi. rewrite (writes_frame s) by first [done|by intros ->]. by apply (Hl i).
  - by rewrite (writes_frame s) by first [done|by intros ->].
  - intros t Hu. rewrite (writes_frame s) by first [done|by intros ->]. by apply Ht.
Qed.

(** ** Operations on a slot *)

Definition put_log a (l : Log) : slotlog := {| a with sl_logs := <[log_Index l := l]> (sl_logs a) |}.
Definition put_applied a (i : Z) : slotlog := {| a with sl_applied := i |}.
Definition put_term a (t i : Z) : slotlog := {| a with sl_terms := <[t := i]> (sl_terms a) |}.
Definition cut_logs a (i : Z) : slotlog := {| a with sl_logs := filter (fun p => p.1 <= i) (sl_logs a) |}.
Definition cut_terms a (t : Z) : slotlog := {| a with sl_terms := filter (fun p => p.1 <= t) (sl_terms a) |}.

Lemma put_log_ok a l : slot_ok a -> is_stored l -> slot_ok (put_log a l).
Proof. intros [Hl Ha Ht] Hst. split; [|done|done]. by apply map_Forall_insert_2. Qed.
Lemma put_applied_ok a i : slot_ok a -> is_u64 i -> slot_ok (put_applied a i).
Proof. intros [Hl Ha Ht] Hi. by split. Qed.
Lemma put_term_ok a t i : slot_ok a -> 0 <= t < MaxUint32 -> is_u64 i -> slot_ok (put_term a t i).
Proof. intros [Hl Ha Ht] Hu Hi. split; [done|done|]. by apply map_Forall_insert_2. Qed.
Lemma cut_logs_ok a i : slot_ok a -> slot_ok (cut_logs a i).
Proof. intros [Hl Ha Ht]. split; [|done|done]. intros j l [Hj _]%map_lookup_filter_Some. by apply Hl. Qed.
Lemma cut_terms_ok a t : slot_ok a -> slot_ok (cut_terms a t).
Proof. intros [Hl Ha Ht]. split; [done|done|]. intros j i [Hj _]%map_lookup_filter_Some. by apply Ht. Qed.

(** *** Their writes *)

#[local] Instance lkey_eq_dec : EqDecision lkey.
Proof. solve_decision. Defined.

Lemma insert_key m lk lk' v : lkey_ok lk -> lkey_ok lk' ->
  <[key_bytes lk := v]> m !! key_bytes lk' = if decide (lk = lk') then Some v else m !! key_bytes lk'.
Proof.
  intros H H'. destruct (decide (lk = lk')) as [->|Hne]; [apply lookup_insert_eq|].
  apply lookup_insert_ne. by intros ?%key_bytes_inj.
Qed.
Lemma delete_key m lk lk' : lkey_ok lk -> lkey_ok lk' ->
  delete (key_bytes lk) m !! key_bytes lk' = if decide (lk = lk') then None else m !! key_bytes lk'.
Proof.
  intros H H'. destruct (decide (lk = lk')) as [->|Hne]; [apply lookup_delete_eq|].
  apply lookup_delete_ne. by intros ?%key_bytes_inj.
Qed.

Lemma put_log_rep m s a l : is_u64 s -> is_stored l -> slot_rep m s a ->
  slot_rep (<[key_bytes (KLog s (log_Index l)) := log_value l]> m) s (put_log a l).
Proof.
  intros Hs Hst [Hl Ha Ht]. assert (Hk : lkey_ok (KLog s (log_Index l))) by (split; [done|apply Hst]). split.
  - intros i Hi. rewrite insert_key by done. cbn [put_log sl_logs]. destruct (decide _) as [[= <-]|Hne].
    + by rewrite lookup_insert_eq.
    + rewrite lookup_insert_ne by congruence. by apply Hl.
  - by rewrite insert_key, decide_False by done.
  - intros t Hu. rewrite insert_key, decide_False by done. by apply Ht.
Qed.
Lemma put_applied_rep m s a i now : is_u64 s -> slot_rep m s a ->
  slot_rep (<[key_bytes (KApplied s) := be_bytes 8 i ++ be_bytes 8 now]> m) s (put_applied a i).
Proof.
  intros Hs [Hl Ha Ht]. assert (Hk : lkey_ok (KApplied s)) by done. split.
  - intros j Hj. rewrite insert_key, decide_False by done. by apply Hl.
  - rewrite lookup_insert_eq. by exists now.
  - intros t Hu. rewrite insert_key, decide_False by done. by apply Ht.
Qed.
Lemma put_term_rep m s a t i : is_u64 s -> is_u32 t -> slot_rep m s a ->
  slot_rep (<[key_bytes (KTerm s t) := be_bytes 8 i]> m) s (put_term a t i).
Proof.
  intros Hs Hu [Hl Ha Ht]. assert (Hk : lkey_ok (KTerm s t)) by done. split.
  - intros j Hj. rewrite insert_key, decide_False by done. by apply Hl.
  - by rewrite insert_key, decide_False by done.
  - intros t' Hu'. rewrite insert_key by done. cbn [put_term sl_terms]. destruct (decide _) as [[= <-]|Hne].
    + by rewrite lookup_insert_eq.
    + rewrite lookup_insert_ne by congruence. by apply Ht.
Qed.

(** All logs beyond [i] are in the range that is deleted. *)
Lemma cut_logs_rep m s a i : is_u64 s -> 0 <= i < MaxUint64 -> slot_ok a -> slot_rep m s a ->
  slot_rep (apply_wop m (WDeleteRange (key_bytes (KLog s (i + 1))) (key_bytes (KLog s MaxUint64)))) s (cut_logs a i).
Proof.
  intros Hs Hi Hok [Hl Ha Ht]. assert (H1 : is_u64 (i + 1) /\ is_u64 MaxUint64) by (unfold is_u64, MaxUint64 in *; lia).
  destruct H1 as [H1 H2].
  assert (Hcut : forall lk, lkey_ok lk -> (forall j, lk <> KLog s j) ->
    apply_wop m (WDeleteRange (key_bytes (KLog s (i + 1))) (key_bytes (KLog s MaxUint64))) !! key_bytes lk = m !! key_bytes lk).
  { intros lk Hk Hne. rewrite range_lookup, decide_False; [done|]. rewrite log_range by done. naive_solver. }
  split.
  - intros j Hj. rewrite range_lookup, Hl by done. cbn [cut_logs sl_logs]. rewrite map_lookup_filter.
    destruct (decide _) as [Hr|Hr]; rewrite log_range in Hr by done.
    + destruct Hr as (j' & [= <-] & Hj'). destruct (sl_logs a !! j); simpl; [|done].
      by rewrite option_guard_False by lia.
    + destruct (sl_logs a !! j) as [l|] eqn:El; simpl; [|done].
      destruct (stored_index a j l Hok El) as (_ & _ & ?).
      rewrite option_guard_True; [done|]. destruct (decide (j <= i)); [done|]. exfalso. apply Hr. exists j. split; [done|lia].
  - by rewrite Hcut by done.
  - intros t Hu. rewrite Hcut by done. by apply Ht.
Qed.

(** A list of deletes of terms. *)
Lemma deletes_terms s (ts : list Z) m : is_u64 s -> Forall is_u32 ts ->
  let m' := apply_wops m ((fun t => WDelete (key_bytes (KTerm s t))) <$> ts) in
  (forall lk, lkey_ok lk -> (forall t, lk <> KTerm s t) -> m' !! key_bytes lk = m !! key_bytes lk) /\
  (forall t, is_u32 t -> m' !! key_bytes (KTerm s t) = if decide (t ∈ ts) then None else m !! key_bytes (KTerm s t)).
Proof.
  intros Hs Hts. revert m. induction Hts as [|t ts Ht _ IH]; intros m; [split; intros; [done|]|].
  { by rewrite decide_False by (by intros ?%not_elem_of_nil). }
  rewrite fmap_cons, apply_wops_cons. specialize (IH (apply_wop m (WDelete (key_bytes (KTerm s t))))) as [IH1 IH2].
  split.
  - intros lk Hk Hne. rewrite IH1 by done. simpl. rewrite delete_key by done. by rewrite decide_False by naive_solver.
  - intros t' Ht'. rewrite IH2 by done. simpl. rewrite delete_key by done.
    destruct (decide (t' ∈ ts)); [by rewrite decide_True by by right|]. destruct (decide (t' = t)) as [->|].
    + rewrite decide_True by done. by rewrite decide_True by left.
    + rewrite decide_False by congruence. by rewrite decide_False by (intros [?|?]%elem_of_cons; done).
Qed.

Lemma cut_terms_rep m s a t : is_u64 s -> 0 <= t < MaxUint32 -> slot_ok a -> slot_rep m s a ->
  slot_rep (apply_wops m ((fun t => WDelete (key_bytes (KTerm s t))) <$> (range_of (sl_terms a) (t + 1) MaxUint32).*1)) s
    (cut_terms a t).
Proof.
  intros Hs Hu Hok [Hl Ha Ht].
  assert (Hin : forall t' i, sl_terms a !! t' = Some i -> t' ∈ (range_of (sl_terms a) (t + 1) MaxUint32).*1 <-> t < t').
  { intros t' i Hi. rewrite list_elem_of_fmap. split.
    - intros ([? ?] & -> & ?%range_elem). simpl. lia.
    - intros Hlt. exists (t', i). split; [done|]. apply range_elem. split; [|done].
      destruct (so_terms a Hok t' i Hi). lia. }
  destruct (deletes_terms s (range_of (sl_terms a) (t + 1) MaxUint32).*1 m Hs) as [H1 H2].
  { apply Forall_fmap, Forall_forall. intros [t' i] [? _]%range_elem. unfold is_u32, MaxUint32 in *. simpl. lia. }
  split.
  - intros j Hj. rewrite H1 by done. by apply Hl.
  - by rewrite H1 by done.
  - intros t' Ht'. rewrite H2, Ht by done. cbn [cut_terms sl_terms]. rewrite map_lookup_filter.
    destruct (sl_terms a !! t') as [i|] eqn:Ei; simpl; [|by destruct (decide _)].
    destruct (decide (t' ∈ _)) as [Hd|Hd]; rewrite (Hin _ _ Ei) in Hd.
    + by rewrite option_guard_False by lia.
    + by rewrite option_guard_True by lia.
Qed.

(** ** The storage *)

Context {SL : Slots}.
Abbreviation slots := (string -> slotlog).
Abbreviation storage := (PebbleShardLogStorage DB).
Abbreviation hash := shardNoToShardID.
Implicit Types (A : slots) (p : storage) (k : string).

Record Rep A p : Prop := {
  rp_num : 0 < ps_shardNum p;
  rp_len : len (ps_dbs p) = ps_shardNum p;
  rp_keys i db : ps_dbs p !! i = Some db -> keys_wf (kv_map db);
  rp_ok k : IsSlot k -> slot_ok (A k);
  rp_slot k i db : IsSlot k -> shardDB p k = Ok (i, db) -> slot_rep (kv_map db) (hash k) (A k)
}.

Definition set_slot A k a : slots := fun k' => if decide (k' = k) then a else A k'.

Lemma Rep_ext A A' p : (forall k, A k = A' k) -> Rep A p -> Rep A' p.
Proof. intros HA [? ? ? Hok Hsl]. split; [done..| |]; intros k ?; rewrite <-HA; eauto. Qed.

Lemma Rep_same A p k : Rep A p -> Rep (set_slot A k (A k)) p.
Proof. apply Rep_ext. intros k'. unfold set_slot. by destruct (decide _) as [->|]. Qed.

(** The shard of a slot, and the storage after a batch on it. *)
Lemma shardDB_ok A p k : Rep A p -> IsSlot k -> exists i db, shardDB p k = Ok (i, db) /\ ps_dbs p !! i = Some db.
Proof.
  intros [Hn Hl _ _ _] Hk. unfold shardDB, shardId. rewrite bool_decide_eq_false_2 by by apply slot_nonempty.
  assert (Hx : forall x, 0 <= x < ps_shardNum p -> exists i db,
    (let! i := Ok x in match ps_dbs p !! Z.to_nat i with Some db => Ok (Z.to_nat i, db) | None => Panic end) = Ok (i, db) /\
    ps_dbs p !! i = Some db).
  { intros x Hx. destruct (lookup_lt_is_Some_2 (ps_dbs p) (Z.to_nat x)) as [db Hdb]; [lia|].
    cbn [res_bind]. rewrite Hdb. eauto. }
  destruct (Z.eqb_spec (ps_shardNum p) 1); [apply Hx; lia|]. destruct (Z.eqb_spec (ps_shardNum p) 0); [lia|].
  by apply Hx, Z.mod_pos_bound.
Qed.

Lemma shardDB_set p k i db k' db' :
  shardDB p k = Ok (i, db) ->
  shardDB {| p with ps_dbs := <[i := db']> (ps_dbs p) |} k' =
  match shardDB p k' with
  | Ok (j, db) => Ok (j, if decide (i = j) then db' else db)
  | r => r
  end.
Proof.
  unfold shardDB. change (shardId {| p with ps_dbs := _ |} k') with (shardId p k').
  destruct (shardId p k) as [x| |]; [|done..]. cbn [res_bind]. destruct (ps_dbs p !! Z.to_nat x) as [y|] eqn:Ey; [|done].
  intros [= <- <-]. destruct (shardId p k') as [j| |]; [|done..]. cbn [res_bind ps_dbs].
  destruct (decide (Z.to_nat x = Z.to_nat j)) as [E|E].
  - rewrite <-E, list_lookup_insert_eq, Ey by by eapply lookup_lt_Some. by rewrite decide_True.
  - rewrite list_lookup_insert_ne by done. by destruct (ps_dbs p !! Z.to_nat j); rewrite ?decide_False by done.
Qed.

(** A store can fail. *)
Abbreviation fails := (store_fails DB).

(** A batch of writes to a slot is committed, or nothing is written. *)
Lemma commit_ok A p k i db ws a : Rep A p -> IsSlot k -> shardDB p k = Ok (i, db) ->
  Forall (slot_write (hash k)) ws -> slot_ok a -> slot_rep (apply_wops (kv_map db) ws) (hash k) a ->
  (exists p', commit_shard p i db ws = (p', true) /\ Rep (set_slot A k a) p') \/
  (commit_shard p i db ws = (p, false) /\ fails).
Proof.
  intros R Hk Hdb Hws Ha Hrep. unfold commit_shard. destruct (kv_commit db ws) as [db'|] eqn:Ec;
    [|right; split; [done|exists db; eauto]]. left. eexists. split; [done|]. apply kv_commit_law in Ec.
  destruct (shardDB_ok A p k R Hk) as (i' & db0 & E & Hi). rewrite Hdb in E. injection E as <- <-.
  destruct R as [Hn Hl Hkeys Hok Hsl]. split; [done|by rewrite <-Hl; cbn [ps_dbs]; unfold len; rewrite length_insert| | |].
  - cbn [ps_dbs]. intros j d [(<- & <- & _)|[_ Hd]]%list_lookup_insert_Some; [|by eapply Hkeys].
    rewrite Ec. eapply writes_wf; [done|by eapply Hkeys].
  - intros k' Hk'. unfold set_slot. destruct (decide _); auto.
  - intros k' j d Hk'. rewrite (shardDB_set p k i db) by done.
    destruct (shardDB p k') as [[j' d']| |] eqn:Ed; [|done..]. intros [= <- <-]. unfold set_slot.
    destruct (decide (k' = k)) as [->|Hne].
    { rewrite Hdb in Ed. injection Ed as <- <-. by rewrite decide_True, Ec by done. }
    pose proof (Hsl k' j' d' Hk' Ed) as Hr'. destruct (decide (i = j')) as [<-|]; [|done].
    assert (d' = db) as ->.
    { destruct (shardDB_ok A p k' (Build_Rep A p Hn Hl Hkeys Hok Hsl) Hk') as (? & ? & E & ?). congruence. }
    rewrite Ec. apply (writes_other (hash k)); [apply shard_hash..| |done|done].
    intros E. by apply Hne, slot_inj.
Qed.

(** ** Reading *)

Lemma get_key db lk v : kv_map db !! key_bytes lk = v ->
  kv_get db (key_bytes lk) = got_of v \/ (kv_get db (key_bytes lk) = GetErr /\ fails).
Proof.
  intros Hv. pose proof (kv_get_law db (key_bytes lk)) as Hg. rewrite Hv in Hg.
  destruct (kv_get db (key_bytes lk)) eqn:E; simpl in Hg; [rewrite Hg; by left..|]. right. split; [done|]. exists db. eauto.
Qed.

Definition last_log a : Log := default EmptyLog (sl_logs a !! top (sl_logs a)).

Lemma top_log a : slot_ok a -> 0 <= top (sl_logs a) < MaxUint64.
Proof.
  intros Ha. destruct (top_in (sl_logs a)) as [->|[l Hl]]; [done|].
  destruct (stored_index a _ l Ha Hl) as (_ & _ & ?). lia.
Qed.
Lemma last_log_index a : slot_ok a -> log_Index (last_log a) = top (sl_logs a).
Proof.
  intros Ha. unfold last_log. destruct (sl_logs a !! top (sl_logs a)) as [l|] eqn:El; simpl.
  - by destruct (stored_index a _ l Ha El) as (-> & _).
  - destruct (top_in (sl_logs a)) as [->|[? ?]]; [done|congruence].
Qed.

Lemma u64_bounds : is_u64 0 /\ is_u64 MaxUint64 /\ is_u32 0 /\ is_u32 MaxUint32.
Proof. unfold is_u64, is_u32, MaxUint64, MaxUint32. lia. Qed.

Lemma rev_fmap {B D} (f : B -> D) (l : list B) : rev (f <$> l) = f <$> rev l.
Proof. symmetry. apply List.map_rev. Qed.

(** The shortest beginning of the logs whose size reaches the limit. *)
Fixpoint cut_size (logs : list Log) (size limitSize : Z) : list Log :=
  match logs with
  | [] => []
  | l :: logs =>
      let size := size +64 u64 (LogSize l) in
      if negb (limitSize =? 0) && (limitSize <=? size) then [l] else l :: cut_size logs size limitSize
  end.
Definition upper_bound (hi : Z) : Z := if hi =? 0 then MaxUint64 else hi.

Lemma collect_logs_ok (f : Z * Log -> bytes) (qs : list (Z * Log)) size limit :
  Forall (fun q => read_log (log_value q.2) = Ok (Some q.2)) qs ->
  collect_logs ((fun q => (f q, log_value q.2)) <$> qs) size limit = Ok (Some (cut_size qs.*2 size limit)).
Proof.
  intros Hqs. revert size. induction Hqs as [|[i l] qs Hl _ IH]; intros size; [done|].
  rewrite !fmap_cons. cbn [collect_logs cut_size snd]. cbn [snd] in Hl. rewrite Hl. cbn [res_bind].
  destruct (_ && _); [done|]. by rewrite IH.
Qed.

Lemma collect_last_ok (f : Z * Log -> bytes) (qs : list (Z * Log)) size limit :
  Forall (fun q => read_log (log_value q.2) = Ok (Some q.2)) qs -> 0 <= size ->
  collect_last ((fun q => (f q, log_value q.2)) <$> qs) size limit =
  Ok (Some (if limit =? 0 then qs.*2 else take (Z.to_nat (Z.max 1 (limit - size))) qs.*2)).
Proof.
  intros Hqs. revert size. induction Hqs as [|[i l] qs Hl _ IH]; intros size Hsz;
    [by cbn; destruct (_ =? _); rewrite ?take_nil|].
  rewrite !fmap_cons. cbn [collect_last snd]. cbn [snd] in Hl. rewrite Hl. cbn [res_bind].
  destruct (Z.eqb_spec limit 0) as [->|Hne]; cbn [negb andb].
  - rewrite IH by lia. done.
  - destruct (Z.leb_spec limit (size + 1)).
    + by replace (Z.to_nat (Z.max 1 (limit - size))) with 1%nat by lia.
    + rewrite IH by lia. destruct (Z.eqb_spec limit 0); [lia|]. cbn [res_bind fmap option_fmap option_map].
      replace (Z.to_nat (Z.max 1 (limit - size))) with (S (Z.to_nat (Z.max 1 (limit - (size + 1))))) by lia. done.
Qed.

Section Reads.
Context A p k (R : Rep A p) (Hk : IsSlot k).
Abbreviation a := (A k).

Lemma read_logs lo hi : Forall (fun q => read_log (log_value q.2) = Ok (Some q.2)) (range_of (sl_logs a) lo hi).
Proof.
  apply Forall_forall. intros [i l] [_ Hl]%range_elem. apply read_stored.
  by destruct (stored_index a i l (rp_ok A p R k Hk) Hl) as (_ & ? & _).
Qed.

Lemma lastLog_ok : lastLog p k = Ok (Some (last_log a)).
Proof.
  destruct (shardDB_ok A p k R Hk) as (i & db & Hdb & Hi). unfold lastLog. rewrite Hdb. cbn [res_bind].
  rewrite !NewLogKey_bytes. cbn [res_bind]. pose proof (rp_ok A p R k Hk) as Ha. destruct u64_bounds as (? & ? & _).
  rewrite (iter_logs db (hash k) a);
    [|by eapply rp_keys|by eapply rp_slot|done|apply shard_hash|done|done].
  rewrite fmap_last, range_last; [|by pose proof (top_log a Ha); lia|].
  2: { intros j l Hl. destruct (stored_index a j l Ha Hl) as (_ & _ & ?). lia. }
  unfold last_log. destruct (sl_logs a !! top (sl_logs a)) as [l|] eqn:El; simpl; [|done].
  apply read_stored. by destruct (stored_index a _ l Ha El) as (_ & ? & _).
Qed.

Lemma getLog_ok i : is_u64 i -> getLog p k i = Ok (Some (default EmptyLog (sl_logs a !! i))) \/ (getLog p k i = Ok None /\ fails).
Proof.
  intros Hi. destruct (shardDB_ok A p k R Hk) as (j & db & Hdb & Hj). unfold getLog. rewrite NewLogKey_bytes, Hdb.
  cbn [res_bind]. destruct (get_key db (KLog (hash k) i) _ (sr_logs _ _ _ (rp_slot A p R k j db Hk Hdb) i Hi)) as [->|[-> ?]];
    [left|by right].
  destruct (sl_logs a !! i) as [l|] eqn:El; simpl; [|done].
  apply read_stored. by destruct (stored_index a _ l (rp_ok A p R k Hk) El) as (_ & ? & _).
Qed.

Lemma LastIndexAndTerm_ok :
  LastIndexAndTerm p k = Ok (Some (top (sl_logs a), log_Term (last_log a))) \/ (LastIndexAndTerm p k = Ok None /\ fails).
Proof.
  unfold LastIndexAndTerm, LastIndex. rewrite lastLog_ok. cbn [res_bind fmap option_fmap option_map].
  pose proof (rp_ok A p R k Hk) as Ha. rewrite last_log_index by done. pose proof (top_log a Ha).
  destruct (Z.eqb_spec (top (sl_logs a)) 0) as [E|E].
  - left. do 3 f_equal; [done|]. unfold last_log. rewrite E. destruct (sl_logs a !! 0) as [l|] eqn:El; [|done].
    destruct (stored_index a _ l Ha El) as (_ & _ & ?). lia.
  - destruct (getLog_ok (top (sl_logs a))) as [->|[-> ?]]; [unfold is_u64, MaxUint64 in *; lia|by left|by right].
Qed.

Lemma AppliedIndex_ok : AppliedIndex p k = Ok (Some (sl_applied a)) \/ (AppliedIndex p k = Ok None /\ fails).
Proof.
  destruct (shardDB_ok A p k R Hk) as (j & db & Hdb & Hj). unfold AppliedIndex. rewrite NewAppliedIndexKey_bytes, Hdb.
  cbn [res_bind]. destruct (get_key db (KApplied (hash k)) _ eq_refl) as [->|[-> ?]]; [left|by right].
  pose proof (sr_applied _ _ _ (rp_slot A p R k j db Hk Hdb)) as Hr.
  destruct (kv_map db !! key_bytes (KApplied (hash k))) as [v|]; simpl; [|by rewrite Hr].
  destruct Hr as (t & ->). rewrite length_app, !be_bytes_length. cbn [Nat.add Nat.eqb Nat.ltb Nat.leb].
  rewrite take_app_length' by (symmetry; apply be_bytes_length). rewrite (be_val_bytes 8); [done|apply (so_applied a (rp_ok A p R k Hk))].
Qed.

Lemma GetTermStartIndex_ok t : is_u32 t ->
  GetTermStartIndex p k t = Ok (Some (default 0 (sl_terms a !! t))) \/ (GetTermStartIndex p k t = Ok None /\ fails).
Proof.
  intros Ht. destruct (shardDB_ok A p k R Hk) as (j & db & Hdb & Hj). unfold GetTermStartIndex.
  rewrite NewLeaderTermStartIndexKey_bytes, Hdb. cbn [res_bind].
  destruct (get_key db (KTerm (hash k) t) _ (sr_terms _ _ _ (rp_slot A p R k j db Hk Hdb) t Ht)) as [->|[-> ?]];
    [left|by right].
  destruct (sl_terms a !! t) as [i|] eqn:Ei; [|done]. cbn [got_of fmap option_fmap option_map].
  rewrite take_ge, be_bytes_length by (by rewrite be_bytes_length). cbn [Nat.eqb Nat.ltb Nat.leb].
  rewrite (be_val_bytes 8); [done|]. by destruct (so_terms a (rp_ok A p R k Hk) t i Ei).
Qed.

Lemma GetLogs_ok lo hi limit : is_u64 lo -> is_u64 hi ->
  GetLogs p k lo hi limit = Ok (Some (cut_size (range_of (sl_logs a) lo (upper_bound hi)).*2 0 limit)).
Proof.
  intros Hlo Hhi. destruct (shardDB_ok A p k R Hk) as (j & db & Hdb & Hj). unfold GetLogs.
  rewrite !NewLogKey_bytes, Hdb. cbn [res_bind]. fold (upper_bound hi).
  assert (is_u64 (upper_bound hi)) by (unfold upper_bound; destruct (_ =? _); [apply u64_bounds|done]).
  rewrite (iter_logs db (hash k) a);
    [|by eapply rp_keys|by eapply rp_slot|by eapply rp_ok|apply shard_hash|done|done].
  apply (collect_logs_ok (fun q => key_bytes (KLog (hash k) q.1))), read_logs.
Qed.

Lemma GetLogsInReverseOrder_ok lo hi limit : is_u64 lo -> is_u64 hi ->
  GetLogsInReverseOrder p k lo hi limit = Ok (Some (limited limit (rev (range_of (sl_logs a) lo (upper_bound hi)).*2))).
Proof.
  intros Hlo Hhi. destruct (shardDB_ok A p k R Hk) as (j & db & Hdb & Hj). unfold GetLogsInReverseOrder.
  rewrite !NewLogKey_bytes, Hdb. cbn [res_bind]. fold (upper_bound hi).
  assert (is_u64 (upper_bound hi)) by (unfold upper_bound; destruct (_ =? _); [apply u64_bounds|done]).
  rewrite (iter_logs db (hash k) a);
    [|by eapply rp_keys|by eapply rp_slot|by eapply rp_ok|apply shard_hash|done|done].
  rewrite !rev_fmap.
  rewrite (collect_last_ok (fun q => key_bytes (KLog (hash k) q.1))) by (done || apply Forall_rev, read_logs).
  unfold limited. by rewrite Z.sub_0_r.
Qed.

Lemma term_keys_ok (qs : list (Z * Z)) : Forall (fun q => is_u32 q.1) qs ->
  term_keys (column_entry (KTerm (hash k)) (be_bytes 8) <$> qs) = Ok qs.*1.
Proof.
  induction 1 as [|[t i] qs Ht _ IH]; [done|]. rewrite !fmap_cons. cbn [term_keys column_entry fst].
  rewrite GetTerm_key by done. cbn [res_bind]. rewrite IH. done.
Qed.

Lemma terms_u32 lo hi : Forall (fun q => is_u32 q.1) (range_of (sl_terms a) lo hi).
Proof.
  apply Forall_forall. intros [t i] [_ Ht]%range_elem. destruct (so_terms a (rp_ok A p R k Hk) t i Ht) as [? _].
  unfold is_u32, MaxUint32 in *. simpl. lia.
Qed.

(** The maximum the loop keeps. *)
Lemma foldl_maxterm (ts : list Z) t : foldl (fun maxTerm term => if maxTerm <? term then term else maxTerm) t ts =
  Z.max t (foldr Z.max t ts).
Proof.
  revert t. induction ts as [|u ts IH]; intros t; simpl; [lia|]. rewrite IH.
  assert (H : forall x y, x <= y -> foldr Z.max y ts = Z.max y (foldr Z.max x ts)).
  { intros x y Hxy. clear -Hxy. induction ts as [|v ts IH]; simpl; [lia|]. rewrite IH. lia. }
  destruct (Z.ltb_spec t u); [rewrite (H t u) by lia|]; lia.
Qed.

Lemma LeaderLastLogTerm_ok : LeaderLastLogTerm p k = Ok (Some (top (sl_terms a))).
Proof.
  destruct (shardDB_ok A p k R Hk) as (j & db & Hdb & Hj). unfold LeaderLastLogTerm.
  rewrite !NewLeaderTermStartIndexKey_bytes, Hdb. cbn [res_bind]. destruct u64_bounds as (_ & _ & ? & ?).
  pose proof (rp_ok A p R k Hk) as Ha.
  rewrite (iter_terms db (hash k) a);
    [|by eapply rp_keys|by eapply rp_slot|done|apply shard_hash|done|done].
  rewrite term_keys_ok by apply terms_u32. cbn [res_bind]. do 2 f_equal. rewrite foldl_maxterm.
  assert (Hin : forall t, t ∈ (range_of (sl_terms a) 0 MaxUint32).*1 <-> is_Some (sl_terms a !! t)).
  { intros t. rewrite list_elem_of_fmap. split.
    - intros ([? i] & -> & [_ ?]%range_elem). eauto.
    - intros [i Hi]. exists (t, i). split; [done|]. apply range_elem. split; [|done]. by destruct (so_terms a Ha t i Hi). }
  pose proof (top_nonneg (sl_terms a)). apply Z.le_antisymm.
  - destruct (foldr_max_in (range_of (sl_terms a) 0 MaxUint32).*1) as [->|[i Hi]%Hin]; [lia|].
    pose proof (top_ge _ _ _ Hi). lia.
  - destruct (top_in (sl_terms a)) as [->|Hi]; [lia|]. apply Hin, foldr_max_ge in Hi. lia.
Qed.

Lemma LeaderTermGreaterEqThan_ok t : is_u32 t ->
  LeaderTermGreaterEqThan p k t = Ok (Some (default t (fst <$> head (range_of (sl_terms a) t MaxUint32)))).
Proof.
  intros Ht. destruct (shardDB_ok A p k R Hk) as (j & db & Hdb & Hj). unfold LeaderTermGreaterEqThan.
  rewrite !NewLeaderTermStartIndexKey_bytes, Hdb. cbn [res_bind]. destruct u64_bounds as (_ & _ & ? & ?).
  rewrite (iter_terms db (hash k) a);
    [|by eapply rp_keys|by eapply rp_slot|by eapply rp_ok|apply shard_hash|done|done].
  pose proof (terms_u32 t MaxUint32) as Hu.
  destruct (range_of (sl_terms a) t MaxUint32) as [|[t' i] qs] eqn:Er; [done|]. apply Forall_cons in Hu as [Hu _].
  rewrite fmap_cons. cbn [first_term column_entry fst]. rewrite GetTerm_key by done. cbn [res_bind].
  assert ((t', i) ∈ range_of (sl_terms a) t MaxUint32) as [? _]%range_elem by (rewrite Er; by left).
  destruct (Z.leb_spec t t'); [done|lia].
Qed.
End Reads.

(** ** Writing *)

(** An operation has changed the slot [k] to [a], or a store has failed and nothing has. *)
Definition wrote A p k a (r : res (storage * bool)) : Prop :=
  (exists p', r = Ok (p', true) /\ Rep (set_slot A k a) p') \/ (r = Ok (p, false) /\ fails).

Fixpoint stamped (logs : list Log) (now : nat -> Z) : list Log :=
  match logs with
  | [] => []
  | l :: logs => stored_log (now O) l :: stamped logs (fun n => now (S n))
  end.
Definition log_ok (l : Log) : Prop := log_fits l /\ 1 <= log_Index l < MaxUint64.
Definition log_write s (l : Log) : wop := WSet (key_bytes (KLog s (log_Index l))) (log_value l).

Lemma log_writes_ok k logs now : log_writes k logs now = Ok (log_write (hash k) <$> stamped logs now).
Proof.
  revert now. induction logs as [|l logs IH]; intros now; [done|]. cbn [log_writes stamped].
  rewrite NewLogKey_bytes, IH. cbn [res_bind]. rewrite fmap_cons. unfold log_write at 2.
  by rewrite stored_log_value.
Qed.
Lemma stamped_ok logs now : Forall log_ok logs -> Forall is_stored (stamped logs now).
Proof. intros Hl. revert now. induction Hl as [|l logs [? ?] _ IH]; intros now; constructor; [by apply stored_is_stored|apply IH]. Qed.

Lemma log_write_in s l : is_u64 s -> is_stored l -> slot_write s (log_write s l).
Proof. intros Hs Hl. exists (KLog s (log_Index l)). split_and!; [split; [done|apply Hl]|done|done]. Qed.

Lemma put_logs_rep m s a ls : is_u64 s -> Forall is_stored ls -> slot_ok a -> slot_rep m s a ->
  slot_ok (foldl put_log a ls) /\ slot_rep (apply_wops m (log_write s <$> ls)) s (foldl put_log a ls).
Proof.
  intros Hs Hls. revert m a. induction Hls as [|l ls Hl _ IH]; intros m a Ha Hr; [done|].
  rewrite fmap_cons, apply_wops_cons. apply IH; [by apply put_log_ok|by apply put_log_rep].
Qed.

Section Writes.
Context A p k (R : Rep A p) (Hk : IsSlot k).
Abbreviation a := (A k).

Lemma commit_one i db ws a' : shardDB p k = Ok (i, db) -> Forall (slot_write (hash k)) ws -> slot_ok a' ->
  slot_rep (apply_wops (kv_map db) ws) (hash k) a' -> wrote A p k a' (Ok (commit_shard p i db ws)).
Proof.
  intros. destruct (commit_ok A p k i db ws a') as [(p' & E & HR)|[E HF]]; try done.
  - left. exists p'. by rewrite E.
  - right. by rewrite E.
Qed.

Lemma SetAppliedIndex_ok i now : is_u64 i -> wrote A p k (put_applied a i) (SetAppliedIndex p k i now).
Proof.
  intros Hi. destruct (shardDB_ok A p k R Hk) as (j & db & Hdb & Hj). unfold SetAppliedIndex.
  rewrite NewAppliedIndexKey_bytes, Hdb. cbn [res_bind]. apply commit_one; [done| | |].
  - apply Forall_singleton. exists (KApplied (hash k)). split_and!; [|done|done]. split; [apply shard_hash|done].
  - apply put_applied_ok; [by eapply rp_ok|done].
  - apply put_applied_rep; [apply shard_hash|by eapply rp_slot].
Qed.

Lemma SetLeaderTermStartIndex_ok t i : 0 <= t < MaxUint32 -> is_u64 i ->
  wrote A p k (put_term a t i) (SetLeaderTermStartIndex p k t i).
Proof.
  intros Ht Hi. destruct (shardDB_ok A p k R Hk) as (j & db & Hdb & Hj). unfold SetLeaderTermStartIndex.
  assert (is_u32 t) by (unfold is_u32, MaxUint32 in *; lia).
  rewrite NewLeaderTermStartIndexKey_bytes, Hdb. cbn [res_bind]. apply commit_one; [done| | |].
  - apply Forall_singleton. exists (KTerm (hash k) t). split_and!; [|done|done]. split; [apply shard_hash|done].
  - apply put_term_ok; [by eapply rp_ok|done|done].
  - apply put_term_rep; [apply shard_hash|done|by eapply rp_slot].
Qed.

Lemma append_only logs now : Forall log_ok logs ->
  wrote A p k (foldl put_log a (stamped logs now))
    (let! ws := log_writes k logs now in let! (i, db) := shardDB p k in Ok (commit_shard p i db ws)).
Proof.
  intros Hl. destruct (shardDB_ok A p k R Hk) as (j & db & Hdb & Hj). rewrite log_writes_ok, Hdb. cbn [res_bind].
  pose proof (stamped_ok logs now Hl) as Hst.
  destruct (put_logs_rep (kv_map db) (hash k) a (stamped logs now)) as [Ho Hr];
    [apply shard_hash|done|by eapply rp_ok|by eapply rp_slot|].
  apply commit_one; [done| |done|done]. apply Forall_fmap, (Forall_impl _ _ _ Hst). intros l. by apply log_write_in, shard_hash.
Qed.

Lemma DeleteTerms_ok t : 0 <= t < MaxUint32 -> wrote A p k (cut_terms a t) (DeleteLeaderTermStartIndexGreaterThanTerm p k t).
Proof.
  intros Ht. destruct (shardDB_ok A p k R Hk) as (j & db & Hdb & Hj). unfold DeleteLeaderTermStartIndexGreaterThanTerm.
  rewrite !NewLeaderTermStartIndexKey_bytes, Hdb. cbn [res_bind]. destruct u64_bounds as (_ & _ & ? & ?).
  assert (Hu : u32 (t + 1) = t + 1 /\ is_u32 (t + 1)) by (unfold u32, is_u32, MaxUint32 in *; rewrite Z.mod_small; lia).
  destruct Hu as [-> Hu]. rewrite (iter_terms db (hash k) a);
    [|by eapply rp_keys|by eapply rp_slot|by eapply rp_ok|apply shard_hash|done|done].
  rewrite <-list_fmap_compose.
  replace ((fun e : bytes * bytes => WDelete e.1) ∘ column_entry (KTerm (hash k)) (be_bytes 8) <$> range_of (sl_terms a) (t + 1) MaxUint32)
    with ((fun t => WDelete (key_bytes (KTerm (hash k) t))) <$> (range_of (sl_terms a) (t + 1) MaxUint32).*1)
    by (by rewrite <-list_fmap_compose).
  apply commit_one; [done| |apply cut_terms_ok; by eapply rp_ok|].
  - apply Forall_fmap, Forall_fmap, (Forall_impl _ _ _ (terms_u32 A p k R Hk (t + 1) MaxUint32)). intros [t' i] Ht'.
    exists (KTerm (hash k) t'). split_and!; [split; [apply shard_hash|done]|done|done].
  - apply cut_terms_rep; [apply shard_hash|done|by eapply rp_ok|by eapply rp_slot].
Qed.

Lemma cut_logs_id i : top (sl_logs a) <= i -> cut_logs a i = a.
Proof.
  intros Hi. unfold cut_logs. destruct a as [L ap T] eqn:E. cbn [sl_logs sl_applied sl_terms] in *. f_equal.
  apply map_filter_id. intros j l Hl. simpl. pose proof (top_ge L j l Hl). lia.
Qed.

Lemma TruncateLogTo_ok i : is_u64 i -> i <> 0 ->
  wrote A p k (if i <? sl_applied a then a else cut_logs a i) (TruncateLogTo p k i).
Proof.
  intros Hi Hne. unfold TruncateLogTo. destruct (Z.eqb_spec i 0); [done|].
  pose proof (rp_ok A p R k Hk) as Ha. rewrite (lastLog_ok A) by done. cbn [res_bind]. rewrite last_log_index by done.
  destruct (Z.leb_spec (top (sl_logs a)) i) as [Hle|Hlt].
  { left. exists p. split; [done|]. rewrite cut_logs_id by done. destruct (_ <? _); by apply Rep_same. }
  destruct (AppliedIndex_ok A p k R Hk) as [->|[-> ?]]; cbn [res_bind]; [|by right].
  destruct (Z.ltb_spec i (sl_applied a)); [left; exists p; split; [done|by apply Rep_same]|].
  destruct (shardDB_ok A p k R Hk) as (j & db & Hdb & Hj). rewrite !NewLogKey_bytes, Hdb. cbn [res_bind].
  pose proof (top_log a Ha). assert (Hi1 : i +64 1 = i + 1) by (unfold MaxUint64, u64, is_u64 in *; rewrite Z.mod_small; lia).
  rewrite Hi1. apply commit_one; [done| |by apply cut_logs_ok|].
  - apply Forall_singleton. exists (i + 1), MaxUint64. unfold is_u64, MaxUint64 in *. split_and!; [lia..|done|done].
  - apply cut_logs_rep; [apply shard_hash|unfold is_u64 in *; lia|done|by eapply rp_slot].
Qed.
End Writes.
End Refine.
