(* ===== verification/SlotStorageProps.v ===== *)
(** * What the log storage of the slots promises

    Every sequence of operations on a storage that was empty answers as the slots
    themselves do ([slot_storage_refines]); the state a slot is started with makes a
    raft that never panics ([restarted_slot]). *)

From Stdlib Require Import Strings.Byte.
From S2P Require Import Prelude ZTables RaftTypes RaftQueue RaftNode RaftInv WkProto RaftCodec.
From S2P Require Import KeyBytes WkKv SlotStorage SlotStorageLaws SlotStorageRefine.

(** ** Operations *)

Inductive slot_op :=
| OpAppend (k : string) (logs : list Log) (info : option TermStartIndexInfo) (now : nat -> Z)
| OpTruncate (k : string) (index : Z)
| OpSetApplied (k : string) (index now : Z)
| OpDeleteTerms (k : string) (term : Z)
| OpGetState (k : string) (now : Z)
| OpLastIndexAndTerm (k : string)
| OpAppliedIndex (k : string)
| OpGetLogs (k : string) (lo hi limitSize : Z)
| OpLastLogs (k : string) (lo hi limit : Z)
| OpLastTerm (k : string)
| OpNextTerm (k : string) (term : Z)
| OpTermStart (k : string) (term : Z).

Inductive slot_answer :=
| ADone
| ANum (z : Z)
| APair (x y : Z)
| ALogs (logs : list Log)
| AState (st : RaftState).

Definition op_slot (op : slot_op) : string :=
  match op with
  | OpAppend k _ _ _ | OpTruncate k _ | OpSetApplied k _ _ | OpDeleteTerms k _ | OpGetState k _
  | OpLastIndexAndTerm k | OpAppliedIndex k | OpGetLogs k _ _ _ | OpLastLogs k _ _ _ | OpLastTerm k
  | OpNextTerm k _ | OpTermStart k _ => k
  end.

(** The arguments are of the width of their Go types; logs are numbered from 1, and the
    largest index and term are not in use. *)
Definition op_fits (op : slot_op) : Prop :=
  match op with
  | OpAppend _ logs info _ =>
      Forall log_ok logs /\
      match info with Some i => 0 <= tsi_Term i < MaxUint32 /\ is_u64 (tsi_Index i) | None => True end
  | OpTruncate _ i | OpSetApplied _ i _ => is_u64 i
  | OpDeleteTerms _ t => 0 <= t < MaxUint32
  | OpGetLogs _ lo hi _ | OpLastLogs _ lo hi _ => is_u64 lo /\ is_u64 hi
  | OpNextTerm _ t | OpTermStart _ t => is_u32 t
  | OpGetState _ _ | OpLastIndexAndTerm _ | OpAppliedIndex _ | OpLastTerm _ => True
  end.

(** What an operation does to a slot and answers; [None] is an error. *)
Definition slot_does (a : slotlog) (op : slot_op) : option (slotlog * slot_answer) :=
  let last := top (sl_logs a) in
  match op with
  | OpAppend _ logs info now =>
      let a := match info with Some i => put_term a (tsi_Term i) (tsi_Index i) | None => a end in
      Some (foldl put_log a (stamped logs now), ADone)
  | OpTruncate _ i =>
      if i =? 0 then None else Some (if i <? sl_applied a then a else cut_logs a i, ADone)
  | OpSetApplied _ i _ => Some (put_applied a i, ADone)
  | OpDeleteTerms _ t => Some (cut_terms a t, ADone)
  | OpGetState _ _ =>
      let applied := Z.min (sl_applied a) last in
      Some (put_applied a applied, AState (mkRaftState last (log_Term (last_log a)) applied))
  | OpLastIndexAndTerm _ => Some (a, APair last (log_Term (last_log a)))
  | OpAppliedIndex _ => Some (a, ANum (sl_applied a))
  | OpGetLogs _ lo hi limitSize => Some (a, ALogs (cut_size (range_of (sl_logs a) lo (upper_bound hi)).*2 0 limitSize))
  | OpLastLogs _ lo hi limit => Some (a, ALogs (limited limit (rev (range_of (sl_logs a) lo (upper_bound hi)).*2)))
  | OpLastTerm _ => Some (a, ANum (top (sl_terms a)))
  | OpNextTerm _ t => Some (a, ANum (default t (fst <$> head (range_of (sl_terms a) t MaxUint32))))
  | OpTermStart _ t => Some (a, ANum (default 0 (sl_terms a !! t)))
  end.

Section Runs.
Context {DB : Type} {P : Pebble DB}.
Abbreviation storage := (PebbleShardLogStorage DB).
Implicit Types p : storage.

Definition answered p {B} (f : B -> slot_answer) (r : res (option B)) : res (storage * option slot_answer) :=
  let! b := r in Ok (p, f <$> b).
Definition written (r : res (storage * bool)) : res (storage * option slot_answer) :=
  let! (p, ok) := r in Ok (p, if ok : bool then Some ADone else None).

(** The operation of the storage. *)
Definition slot_exec p (op : slot_op) : res (storage * option slot_answer) :=
  match op with
  | OpAppend k logs info now => written (AppendLogs p k logs info now)
  | OpTruncate k i => written (TruncateLogTo p k i)
  | OpSetApplied k i now => written (SetAppliedIndex p k i now)
  | OpDeleteTerms k t => written (DeleteLeaderTermStartIndexGreaterThanTerm p k t)
  | OpGetState k now => let! (p, r) := GetState p k now in Ok (p, AState <$> r)
  | OpLastIndexAndTerm k => answered p (fun r => APair r.1 r.2) (LastIndexAndTerm p k)
  | OpAppliedIndex k => answered p ANum (AppliedIndex p k)
  | OpGetLogs k lo hi limitSize => answered p ALogs (GetLogs p k lo hi limitSize)
  | OpLastLogs k lo hi limit => answered p ALogs (GetLogsInReverseOrder p k lo hi limit)
  | OpLastTerm k => answered p ANum (LeaderLastLogTerm p k)
  | OpNextTerm k t => answered p ANum (LeaderTermGreaterEqThan p k t)
  | OpTermStart k t => answered p ANum (GetTermStartIndex p k t)
  end.

Fixpoint slot_execs p (ops : list slot_op) : res (storage * list (option slot_answer)) :=
  match ops with
  | [] => Ok (p, [])
  | op :: ops =>
      let! (p, r) := slot_exec p op in
      let! (p, rs) := slot_execs p ops in Ok (p, r :: rs)
  end.
End Runs.

(** The slots after an operation and its answer.  [failing]: a store can fail; then the
    operation reports an error and changes nothing, except that an append of logs may have
    recorded the start of the term. *)
Inductive slots_step (failing : Prop) (A : string -> slotlog) :
    slot_op -> (string -> slotlog) -> option slot_answer -> Prop :=
| step_done op a r : slot_does (A (op_slot op)) op = Some (a, r) ->
    slots_step failing A op (set_slot A (op_slot op) a) (Some r)
| step_refused op : slot_does (A (op_slot op)) op = None -> slots_step failing A op A None
| step_failed op : failing -> slots_step failing A op A None
| step_half k logs info now : failing ->
    slots_step failing A (OpAppend k logs (Some info) now)
      (set_slot A k (put_term (A k) (tsi_Term info) (tsi_Index info))) None.

Inductive slots_steps (failing : Prop) (A : string -> slotlog) :
    list slot_op -> (string -> slotlog) -> list (option slot_answer) -> Prop :=
| steps_nil : slots_steps failing A [] A []
| steps_cons op ops A1 A2 r rs : slots_step failing A op A1 r -> slots_steps failing A1 ops A2 rs ->
    slots_steps failing A (op :: ops) A2 (r :: rs).

(** ** Simulation *)

Section Simulation.
Context {DB : Type} {P : Pebble DB} {PL : PebbleLaws DB} {SL : Slots}.
Abbreviation storage := (PebbleShardLogStorage DB).
Implicit Types (p : storage) (A : string -> slotlog).

Lemma set_slot_eq A k a : set_slot A k a k = a.
Proof. unfold set_slot. by rewrite decide_True. Qed.
Lemma set_slot_twice A k a b p : Rep (set_slot (set_slot A k a) k b) p -> Rep (set_slot A k b) p.
Proof. apply Rep_ext. intros k'. unfold set_slot. by destruct (decide (k' = k)). Qed.

(** The result of an operation is a step of the slots, or a store has failed. *)
Definition simulates A op (r : res (storage * option slot_answer)) : Prop :=
  match r with
  | Ok (p, ans) => exists A', slots_step (store_fails DB) A op A' ans /\ Rep A' p
  | Panic => store_fails DB
  | NoFuel => False
  end.

Lemma slot_read_sim A p op {B} (f : B -> slot_answer) r b :
  Rep A p -> slot_does (A (op_slot op)) op = Some (A (op_slot op), f b) ->
  r = Ok (Some b) \/ (r = Ok None /\ store_fails DB) -> simulates A op (answered p f r).
Proof.
  intros R Hd [->|[-> HF]]; cbn.
  - eexists. split; [by apply step_done|]. by apply Rep_same.
  - exists A. split; [by apply step_failed|done].
Qed.

Lemma slot_write_sim A p op a r : Rep A p -> slot_does (A (op_slot op)) op = Some (a, ADone) ->
  wrote A p (op_slot op) a r -> simulates A op (written r).
Proof.
  intros R Hd [(p' & -> & HR)|[-> HF]]; cbn.
  - eexists. split; [by apply step_done|done].
  - exists A. split; [by apply step_failed|done].
Qed.

Lemma append_sim A p k logs info now : Rep A p -> IsSlot k -> op_fits (OpAppend k logs info now) ->
  simulates A (OpAppend k logs info now) (written (AppendLogs p k logs info now)).
Proof.
  intros R Hk [Hl Hi]. unfold AppendLogs. destruct (shardDB_ok A p k R Hk) as (j & db & Hdb & _).
  rewrite Hdb at 1. cbn [res_bind]. destruct info as [info|].
  - destruct (SetLeaderTermStartIndex_ok A p k R Hk (tsi_Term info) (tsi_Index info)) as [(p1 & -> & R1)|[-> HF]];
      [apply Hi..| |done]. cbn [res_bind].
    destruct (append_only _ p1 k R1 Hk logs now Hl) as [(p2 & -> & R2)|[-> HF]]; cbn.
    + eexists. split; [by apply step_done|]. rewrite set_slot_eq in R2. by apply set_slot_twice in R2.
    + eexists. split; [by apply step_half|done].
  - cbn [res_bind]. eapply slot_write_sim; [done|done|]. by apply append_only.
Qed.

Lemma state_sim A p k now : Rep A p -> IsSlot k -> simulates A (OpGetState k now) (slot_exec p (OpGetState k now)).
Proof.
  intros R Hk. cbn [slot_exec]. unfold GetState. pose proof (rp_ok A p R k Hk) as Ha.
  destruct (LastIndexAndTerm_ok A p k R Hk) as [->|[-> HF]]; cbn [res_bind];
    [|exists A; split; [by apply step_failed|done]].
  destruct (AppliedIndex_ok A p k R Hk) as [->|[-> HF]]; cbn [res_bind];
    [|exists A; split; [by apply step_failed|done]].
  destruct (Z.ltb_spec (top (sl_logs (A k))) (sl_applied (A k))).
  - destruct (SetAppliedIndex_ok A p k R Hk (top (sl_logs (A k))) now) as [(p' & -> & HR)|[-> HF]]; cbn.
    + pose proof (top_log _ Ha). unfold is_u64, MaxUint64 in *. lia.
    + eexists. split; [apply step_done; cbn; by rewrite Z.min_r by lia|done].
    + exists A. split; [by apply step_failed|done].
  - eexists. split; [apply step_done; cbn; by rewrite Z.min_l by lia|].
    replace (put_applied (A k) (sl_applied (A k))) with (A k) by by destruct (A k). by apply Rep_same.
Qed.

Lemma exec_slot A p op : Rep A p -> IsSlot (op_slot op) -> op_fits op -> simulates A op (slot_exec p op).
Proof.
  intros R Hk Hf. destruct op as [k logs info now|k i|k i now|k t|k now|k|k|k lo hi limit|k lo hi limit|k|k t|k t];
    cbn [op_slot op_fits] in *; cbn [slot_exec].
  - by apply append_sim.
  - destruct (Z.eqb_spec i 0) as [->|Hne].
    + exists A. split; [by apply step_refused|done].
    + eapply slot_write_sim; [done| |by apply TruncateLogTo_ok]. cbn. by destruct (Z.eqb_spec i 0).
  - eapply slot_write_sim; [done|done|by apply SetAppliedIndex_ok].
  - eapply slot_write_sim; [done|done|by apply DeleteTerms_ok].
  - by apply state_sim.
  - eapply (slot_read_sim _ _ _ (fun r => APair r.1 r.2)); [done| |by apply (LastIndexAndTerm_ok A)]. done.
  - eapply slot_read_sim; [done| |by apply (AppliedIndex_ok A)]. done.
  - eapply slot_read_sim; [done| |left; by apply (GetLogs_ok A); try apply Hf]. done.
  - eapply slot_read_sim; [done| |left; by apply (GetLogsInReverseOrder_ok A); try apply Hf]. done.
  - eapply slot_read_sim; [done| |left; by apply (LeaderLastLogTerm_ok A)]. done.
  - eapply slot_read_sim; [done| |left; by apply (LeaderTermGreaterEqThan_ok A); try apply Hf]. done.
  - eapply slot_read_sim; [done| |by apply (GetTermStartIndex_ok A); try apply Hf]. done.
Qed.

Definition slot_ops_ok (ops : list slot_op) : Prop := Forall (fun op => IsSlot (op_slot op) /\ op_fits op) ops.

Lemma execs_slot A p ops : Rep A p -> slot_ops_ok ops ->
  match slot_execs p ops with
  | Ok (p', rs) => exists A', slots_steps (store_fails DB) A ops A' rs /\ Rep A' p'
  | Panic => store_fails DB
  | NoFuel => False
  end.
Proof.
  intros R Hops. revert A p R. induction Hops as [|op ops [Hk Hf] _ IH]; intros A p R.
  { exists A. split; [constructor|done]. }
  cbn [slot_execs]. pose proof (exec_slot A p op R Hk Hf) as Hs.
  destruct (slot_exec p op) as [[p1 r]| |]; cbn in Hs |- *; [|done..].
  destruct Hs as (A1 & Hs & R1). specialize (IH A1 p1 R1).
  destruct (slot_execs p1 ops) as [[p2 rs]| |]; cbn; [|done..].
  destruct IH as (A2 & Hss & R2). exists A2. split; [by econstructor|done].
Qed.

(** A storage that has just been opened. *)
Definition new_storage p : Prop :=
  0 < ps_shardNum p /\ len (ps_dbs p) = ps_shardNum p /\ Forall (fun db => kv_map db = ∅) (ps_dbs p).

Lemma new_rep p : new_storage p -> Rep (fun _ => no_slot) p.
Proof.
  intros (Hn & Hl & Hdb). rewrite Forall_forall in Hdb. split; [done|done| | |].
  - intros i db Hi k v. rewrite Hdb by by eapply list_elem_of_lookup_2. by rewrite lookup_empty.
  - intros k _. split; [apply map_Forall_empty|done|apply map_Forall_empty].
  - intros k i db _. unfold shardDB. destruct (shardId p k) as [x| |]; [|done..]. cbn [res_bind].
    destruct (ps_dbs p !! Z.to_nat x) as [d|] eqn:Ed; [|done]. intros [= <- <-].
    rewrite Hdb by by eapply list_elem_of_lookup_2.
    split; [intros j _|by rewrite lookup_empty|intros t _]; by rewrite !lookup_empty.
Qed.
End Simulation.

(** What the slots answer, when no store fails. *)
Fixpoint slot_answers (A : string -> slotlog) (ops : list slot_op) : list (option slot_answer) :=
  match ops with
  | [] => []
  | op :: ops =>
      match slot_does (A (op_slot op)) op with
      | Some (a, r) => Some r :: slot_answers (set_slot A (op_slot op) a) ops
      | None => None :: slot_answers A ops
      end
  end.

Lemma steps_answers failing A ops A' rs : ~ failing -> slots_steps failing A ops A' rs -> rs = slot_answers A ops.
Proof.
  intros Hno. induction 1 as [|A op ops A1 A2 r rs Hs _ IH]; [done|]. cbn [slot_answers].
  destruct Hs as [op a r E|op E|op ?|]; [by rewrite E, IH|by rewrite E, IH|done..].
Qed.

(** ** The slots of a cluster *)

(** The names of the slots of a cluster with 64 of them. *)
Definition slot_names : list string := FormatInt <$> seqZ 0 64.

Lemma slot_names_apart : NoDup (shardNoToShardID <$> slot_names).
Proof. apply (bool_decide_unpack _). vm_compute. exact I. Qed.

#[export] Instance sixtyFourSlots : Slots.
Proof.
  refine {| IsSlot k := k ∈ slot_names |}.
  - intros k Hk ->. revert Hk. apply (bool_decide_unpack (¬ ("" ∈ slot_names))). vm_compute. exact I.
  - intros k k' (i & Hi)%list_elem_of_lookup (j & Hj)%list_elem_of_lookup E.
    assert (i = j) as ->; [|congruence]. eapply NoDup_lookup; [apply slot_names_apart| |];
      rewrite list_lookup_fmap; [rewrite Hi|rewrite Hj]; [reflexivity|]. simpl. by rewrite E.
Defined.

Module SlotStorageProps.

(** C20. The log storage of the slots. Whatever operations are called on a storage that was
    just opened, for slots with a name that is not empty and whose ids differ, with
    arguments of the width of their types, logs numbered from 1 and the largest index and
    term not in use, every answer is that of the slot itself: appended logs are read back in
    the order of their index, within the bounds and the size that were asked for; truncation
    removes exactly the logs with greater indexes, removes nothing if the index is below the
    applied index, and is refused with an error for index 0; the state has the last log and
    an applied index that is at most its index; the start of a term, the last term and the
    next term are those that were recorded. Any other error is reported only if a store
    fails, and an operation that reports one has written nothing except, by an append, the
    start of its term. The program stops only if a store fails (nothing is said of what was
    written then), and no loop runs on. *)
Theorem slot_storage_refines (DB : Type) (P : Pebble DB) (PL : PebbleLaws DB) (SL : Slots)
    (p : PebbleShardLogStorage DB) (ops : list slot_op) :
  new_storage p -> slot_ops_ok ops ->
  match slot_execs p ops with
  | Ok (p', rs) =>
      (exists A, slots_steps (store_fails DB) (fun _ => no_slot) ops A rs /\ Rep A p') /\
      (~ store_fails DB -> rs = slot_answers (fun _ => no_slot) ops)
  | Panic => store_fails DB
  | NoFuel => False
  end.
Proof.
  intros Hp Hops. pose proof (execs_slot _ p ops (new_rep p Hp) Hops) as H.
  destruct (slot_execs p ops) as [[p' rs]| |]; [|done..]. split; [done|].
  intros Hno. destruct H as (A & Hs & _). by eapply steps_answers.
Qed.

(** Three shards, and a slot with logs of the terms 1 and 2. *)
Definition three_shards : PebbleShardLogStorage kvmap := mkStorage [∅; ∅; ∅] 3.
Definition demo_log (i t : Z) : Log := {| EmptyLog with log_Id := 100 + i; log_Index := i; log_Term := t; log_Data := [x07] |}.
Definition demo_run : list slot_op :=
  [OpAppend "5" [demo_log 1 1; demo_log 2 1] (Some (mkTSI 1 1)) (fun n => 10 + Z.of_nat n);
   OpAppend "6" [demo_log 1 1] (Some (mkTSI 1 1)) (fun _ => 12);
   OpAppend "5" [demo_log 3 2] (Some (mkTSI 2 3)) (fun _ => 13);
   OpSetApplied "5" 2 14; OpGetState "5" 15; OpGetLogs "5" 2 0 0; OpLastLogs "5" 1 0 1; OpNextTerm "5" 2;
   OpTruncate "5" 1; OpLastIndexAndTerm "5"; OpTruncate "5" 2; OpDeleteTerms "5" 1; OpLastIndexAndTerm "5";
   OpLastTerm "5"; OpTermStart "5" 2; OpGetLogs "6" 1 0 0; OpTruncate "6" 0].

(** A number to look at in an answer. *)
Definition answer_num (r : slot_answer) : Z :=
  match r with
  | ADone => 0
  | ANum z | APair z _ => z
  | ALogs logs => len logs
  | AState st => rs_LastLogIndex st
  end.

Lemma demo_log_ok i t : 1 <= i < 1000 -> 0 <= t < 1000 -> log_ok (demo_log i t).
Proof. intros Hi Ht. split; [split|]; cbn; unfold is_u64, is_u32, MaxUint64; lia. Qed.
Lemma demo_run_ok : slot_ops_ok demo_run.
Proof.
  unfold demo_run, slot_ops_ok. repeat (apply Forall_cons; split); [..|apply Forall_nil_2].
  all: split; [cbn [op_slot IsSlot sixtyFourSlots]; apply (bool_decide_unpack _); vm_compute; exact I|]; cbn [op_fits tsi_Term tsi_Index].
  all: try (split; [repeat (apply Forall_cons; split; [apply demo_log_ok; lia|]); apply Forall_nil_2|]).
  all: unfold is_u64, is_u32, MaxUint32; lia.
Qed.

Lemma slot_storage_refines_witness :
  exists p', slot_execs three_shards demo_run =
    Ok (p', slot_answers (fun _ => no_slot) demo_run) /\
    map (option_map answer_num) (drop 7 (slot_answers (fun _ => no_slot) demo_run)) =
      [Some 2; Some 0; Some 3; Some 0; Some 0; Some 2; Some 1; Some 0; Some 1; None] /\
    slot_answers (fun _ => no_slot) demo_run !! 4%nat = Some (Some (AState (mkRaftState 3 2 2))).
Proof.
  pose proof (slot_storage_refines kvmap mapPebble mapPebble_laws sixtyFourSlots three_shards demo_run) as H.
  destruct (slot_execs three_shards demo_run) as [[p' rs]| |].
  - exists p'. destruct H as [_ H]; [split_and!; [reflexivity|reflexivity|repeat constructor]|apply demo_run_ok|].
    rewrite (H no_failing_map). split_and!; [reflexivity|vm_compute; reflexivity|vm_compute; reflexivity].
  - exfalso. apply no_failing_map, H; [split_and!; [reflexivity|reflexivity|repeat constructor]|apply demo_run_ok].
  - exfalso. apply H; [split_and!; [reflexivity|reflexivity|repeat constructor]|apply demo_run_ok].
Defined.

(** A store that takes some more batches and then fails. *)
#[local] Instance tiredPebble : Pebble (kvmap * nat) := {|
  kv_get db k := kv_get db.1 k;
  kv_batch_get db ws k := kv_batch_get db.1 ws k;
  kv_iter db lower upper := kv_iter db.1 lower upper;
  kv_commit db ws := match db.2 with O => None | S n => Some (apply_wops db.1 ws, n) end
|}.

(** The start of a term can be recorded without the logs that were appended with it: they
    are not written together. *)
Lemma append_half_done :
  let p : PebbleShardLogStorage (kvmap * nat) := mkStorage [(∅, 1%nat)] 1 in
  (let! (_, rs) := slot_execs p [OpAppend "5" [demo_log 1 1] (Some (mkTSI 1 1)) (fun _ => 10);
                                 OpLastTerm "5"; OpTermStart "5" 1; OpLastIndexAndTerm "5"] in Ok rs) =
  Ok [None; Some (ANum 1); Some (ANum 1); Some (APair 0 0)].
Proof. vm_compute. reflexivity. Qed.
End SlotStorageProps.
