(* ===== verification/SlotServer.v ===== *)
(** * The server of the slots

    [pkg/cluster/slot]: the rafts of the slots of a node.  The server follows the
    configuration of the cluster: a slot of the node has a raft in the group
    ([RaftGroup]), started from the state of the log storage ([SlotStorage], which is
    also the storage of the group), and its configuration reaches the raft as an event.

    [sv_slots] is the field [slot] of the [Slot] objects, by key.  What the options give
    as [Node] is the configuration of [ClusterConfig].  A clock [now] gives the time at
    which a slot is looked at. *)

From Stdlib Require Import Strings.Byte Strings.Ascii.
From S2P Require Import Prelude RaftTypes RaftQueue RaftNode WkProto RaftCodec.
From S2P Require Import GroupQueue GroupList GroupWait RaftGroup ClusterConfig KeyBytes WkKv.
From S2P Require SlotStorage.

(** ** Names of slots *)

(** [pkg/cluster/slot/server.go] [SlotIdToKey] *)
Definition SlotIdToKey (slotId : Z) : string := FormatInt slotId.

(** [strconv.ParseUint] in base 10 with 32 bits: the value that is returned, with or
    without an error. *)
Fixpoint parse_digits (n : Z) (s : string) : Z :=
  match s with
  | EmptyString => n
  | String c s =>
      let d := Z.of_nat (nat_of_ascii c) - 48 in
      if (0 <=? d) && (d <=? 9) then
        let n := n * 10 + d in
        if two32 - 1 <? n then two32 - 1 else parse_digits n s
      else 0
  end.
Definition ParseUint32 (s : string) : Z := parse_digits 0 s.

(** [pkg/cluster/slot/server.go] [KeyToSlotId] *)
Definition KeyToSlotId (key : string) : Z := ParseUint32 key.

(** [crc32.ChecksumIEEE]. *)
Definition crc_bit (crc : Z) : Z :=
  if Z.odd crc then Z.lxor (Z.shiftr crc 1) 3988292384 else Z.shiftr crc 1.
Definition crc_byte (crc : Z) (b : byte) : Z := Nat.iter 8 crc_bit (Z.lxor crc (Z_of_byte b)).
Definition ChecksumIEEE (data : bytes) : Z := Z.lxor (foldl crc_byte 4294967295 data) 4294967295.

(** [pkg/wkutil/bitmap.go] [GetSlotNum] *)
Definition GetSlotNum (slotCount : Z) (v : string) : res Z :=
  if u32 slotCount =? 0 then Panic else Ok (ChecksumIEEE (str_bytes v) mod u32 slotCount).

(** ** Server *)

Section Server.
Context (growslice : Z -> Z -> Z) {W : WkProto} {DB : Type} {P : Pebble DB}.
Abbreviation storage := (SlotStorage.PebbleShardLogStorage DB).

(** [pkg/cluster/slot/server.go] [Server] *)
Record SlotServer := mkSlotServer {
  sv_raftGroup : @RaftGroup storage;
  sv_slots : gmap string Slot;
  sv_NodeId : Z;
  sv_SlotCount : Z
}.
Implicit Types s : SlotServer.

Definition with_group s (rg : @RaftGroup storage) : SlotServer := {| s with sv_raftGroup := rg |}.

(** [pkg/cluster/slot/server.go] [NewServer]

    With the stores of the shards opened. *)
Definition NewServer (store : storage) (submit : nat -> bool) (nodeId slotCount : Z) : SlotServer :=
  mkSlotServer (New store NewGOptions submit) ∅ nodeId slotCount.

(** [pkg/cluster/slot/slot.go] [newSlot]

    The storage is given the applied index it repairs. *)
Definition newSlot (store : storage) (nodeId : Z) (slot : Slot) (now : Z) : res (storage * Node) :=
  let shardNo := SlotIdToKey (sl_Id slot) in
  let! (store, state) := SlotStorage.GetState store shardNo now in
  match state with
  | None => Panic
  | Some state =>
      let! r := SlotStorage.GetTermStartIndex store shardNo (rs_LastTerm state) in
      match r with
      | None => Panic
      | Some lastLogIndex =>
          let! n := NewNode lastLogIndex state {| NewOptions with opt_NodeId := nodeId |} in Ok (store, n)
      end
  end.

(** [pkg/cluster/slot/slot.go] [(s *Slot) needUpdate] *)
Definition needUpdate (slot newSlot : Slot) : bool := negb (Slot_Equal slot newSlot).

(** [pkg/cluster/slot/event.go] [(s *Server) slotToConfig] *)
Definition slotToConfig (nodeId : Z) (st : Slot) : Config :=
  let role :=
    if bool_decide (sl_Status st = SlotStatusCandidate) then RoleCandidate
    else if ArrayContainsUint64 (sl_Learners st) nodeId then RoleLearner
    else if sl_Leader st =? nodeId then RoleLeader else RoleFollower in
  {| emptyConfig with
       cfg_MigrateFrom := sl_MigrateFrom st; cfg_MigrateTo := sl_MigrateTo st;
       cfg_Replicas := sl_Replicas st; cfg_Learners := sl_Learners st;
       cfg_Term := sl_Term st; cfg_Leader := sl_Leader st; cfg_Role := role |}.

(** The event that hands a raft its configuration. *)
Definition confChange (nodeId : Z) (slot : Slot) : Event :=
  {| emptyEvent with ev_Type := ConfChange; ev_Config := slotToConfig nodeId slot |}.

(** The slot has a replica on the node, or one that is learning. *)
Definition slot_here (nodeId : Z) (slot : Slot) : bool :=
  ArrayContainsUint64 (sl_Replicas slot) nodeId || ArrayContainsUint64 (sl_Learners slot) nodeId.

(** [pkg/cluster/slot/event.go] [(s *Server) AddOrUpdateSlotRaft] *)
Definition AddOrUpdateSlotRaft s (slot : Slot) (now : Z) : res SlotServer :=
  if sl_Leader slot =? 0 then Ok s
  else
    let rg := sv_raftGroup s in
    let shardNo := SlotIdToKey (sl_Id slot) in
    let! rft := GetRaft rg shardNo in
    if negb (slot_here (sv_NodeId s) slot) then
      match rft with
      | Some rft => let! rg := RemoveRaft rg rft in Ok (with_group s rg)
      | None => Ok s
      end
    else
      match rft with
      | None =>
          let! (store, n) := newSlot (rg_store rg) (sv_NodeId s) slot now in
          let! rg := AddRaft (set_store rg store) shardNo n in
          let! rg := AddEvent growslice rg shardNo (confChange (sv_NodeId s) slot) in
          Ok {| s with sv_raftGroup := rg; sv_slots := <[shardNo := slot]> (sv_slots s) |}
      | Some _ =>
          match sv_slots s !! shardNo with
          | None => Panic
          | Some raftSlot =>
              if needUpdate raftSlot slot then
                let! rg := AddEvent growslice rg shardNo (confChange (sv_NodeId s) slot) in
                Ok (with_group s rg)
              else Ok s
          end
      end.

(** [pkg/cluster/slot/server.go] [lines 54-57]

    The loop over the slots of the configuration, when the server starts. *)
Fixpoint startSlots s (slots : list Slot) (now : Z -> Z) : res SlotServer :=
  match slots with
  | [] => Ok s
  | slot :: slots => let! s := AddOrUpdateSlotRaft s slot (now (sl_Id slot)) in startSlots s slots now
  end.

(** [pkg/cluster/slot/event.go] [(s *Server) OnConfigChange] *)
Definition OnConfigChange s (cfg : CConfig) (now : Z -> Z) : res SlotServer :=
  startSlots s (List.filter (fun slot => negb (sl_Leader slot =? 0)) (cc_Slots cfg)) now.

(** [pkg/cluster/slot/server.go] [(s *Server) AddEvent] *)
Definition SlotServer_AddEvent s (shardNo : string) (event : Event) : res SlotServer :=
  let! rg := AddEvent growslice (sv_raftGroup s) shardNo event in
  Ok (with_group s (Advance rg)).

(** [pkg/cluster/slot/server.go] [(s *Server) getSlotId] *)
Definition getSlotId s (cfg : CConfig) (v : string) : res Z :=
  let slotCount := if cc_SlotCount cfg =? 0 then sv_SlotCount s else cc_SlotCount cfg in
  GetSlotNum slotCount v.

(** [pkg/cluster/slot/iserver.go] [(s *Server) SlotLeaderId] *)
Definition SlotLeaderId (cfg : CConfig) (slotId : Z) : Z :=
  match slot cfg slotId with
  | Some slotConfig => sl_Leader slotConfig
  | None => 0
  end.

(** [pkg/cluster/slot/server.go] [(s *Server) AppliedIndex] *)
Definition SlotServer_AppliedIndex s (slotId : Z) : res (option Z) :=
  SlotStorage.AppliedIndex (rg_store (sv_raftGroup s)) (SlotIdToKey slotId).
(** [pkg/cluster/slot/server.go] [(s *Server) LastIndex] *)
Definition SlotServer_LastIndex s (slotId : Z) : res (option Z) :=
  SlotStorage.LastIndex (rg_store (sv_raftGroup s)) (SlotIdToKey slotId).
(** [pkg/cluster/slot/server.go] [(s *Server) LastLog] *)
Definition SlotServer_LastLog s (slotId : Z) : res (option Log) :=
  SlotStorage.lastLog (rg_store (sv_raftGroup s)) (SlotIdToKey slotId).
(** [pkg/cluster/slot/server.go] [(s *Server) GetLogsInReverseOrder] *)
Definition SlotServer_GetLogsInReverseOrder s (slotId startLogIndex endLogIndex limit : Z) : res (option (list Log)) :=
  SlotStorage.GetLogsInReverseOrder (rg_store (sv_raftGroup s)) (SlotIdToKey slotId) startLogIndex endLogIndex limit.

(** [pkg/cluster/slot/iserver.go] [lines 131-153]

    One slot of [MustWaitAllSlotsReady]: its leader is known, and a raft of this node has
    taken over the leader and the term. *)
Definition slotReady s (slotConfig : Slot) : res bool :=
  if sl_Leader slotConfig =? 0 then Ok false
  else if negb (slot_here (sv_NodeId s) slotConfig) then Ok true
  else
    let! slotRaft := GetRaft (sv_raftGroup s) (SlotIdToKey (sl_Id slotConfig)) in
    match slotRaft with
    | None => Ok false
    | Some key =>
        let! n := node_of (sv_raftGroup s) key in
        let! leader := LeaderId n in
        if leader =? 0 then Ok false
        else
          let! localConfig := NodeConfig n in
          Ok (negb (negb (cfg_Leader localConfig =? sl_Leader slotConfig) ||
                    negb (cfg_Term localConfig =? sl_Term slotConfig)))
    end.

Fixpoint slotsReady s (slots : list Slot) : res bool :=
  match slots with
  | [] => Ok true
  | slotConfig :: slots => let! ready := slotReady s slotConfig in if ready then slotsReady s slots else Ok false
  end.

(** [pkg/cluster/slot/iserver.go] [lines 121-156]

    A tick of [MustWaitAllSlotsReady]: whether it returns. *)
Definition allSlotsReady s (cfg : CConfig) : res bool :=
  let slotCount := if cc_SlotCount cfg =? 0 then sv_SlotCount s else cc_SlotCount cfg in
  if negb (len (cc_Slots cfg) =? slotCount) then Ok false else slotsReady s (cc_Slots cfg).
End Server.
