(* ===== verification/SlotServerProps.v ===== *)
(** * What the server of the slots promises

    A slot that is started gets a raft that never panics, whatever was done to its logs
    before ([started_slot]); the rafts of a node and the configurations they are handed
    follow the configurations of the cluster ([slots_follow_config]); the name of a slot
    stands for its number ([slot_names_roundtrip]). *)

From Stdlib Require Import Strings.Byte Strings.Ascii.
From stdpp Require Import pretty.
From S2P Require Import Prelude ZTables RaftTypes RaftQueue RaftNode RaftInv WkProto RaftCodec.
From S2P Require Import KeyBytes WkKv SlotStorageLaws SlotStorageRefine SlotStorageProps.
From S2P Require Import GroupQueue GroupList GroupWait RaftGroup ClusterConfig SlotServer.
From S2P Require SlotStorage.

(** ** Names *)

Lemma parse_char n d s : 0 <= d < 10 -> 0 <= n -> n * 10 + d < two32 ->
  parse_digits n (String (pretty_N_char (Z.to_N d)) s) = parse_digits (n * 10 + d) s.
Proof.
  intros Hd Hn Hm. cbn [parse_digits].
  assert (E : Z.of_nat (nat_of_ascii (pretty_N_char (Z.to_N d))) - 48 = d).
  { assert (Hc : d = 0 \/ d = 1 \/ d = 2 \/ d = 3 \/ d = 4 \/ d = 5 \/ d = 6 \/ d = 7 \/ d = 8 \/ d = 9) by lia.
    repeat (destruct Hc as [->|Hc]; [reflexivity|]). by subst. }
  rewrite E. destruct (Z.leb_spec 0 d), (Z.leb_spec d 9); [|lia..]. cbn [andb].
  by destruct (Z.ltb_spec (two32 - 1) (n * 10 + d)); [lia|].
Qed.

Lemma parse_pretty (x : N) s : Z.of_N x < two32 -> parse_digits 0 (pretty_N_go x s) = parse_digits (Z.of_N x) s.
Proof.
  revert s. induction (N.lt_wf_0 x) as [x _ IH]; intros s Hx.
  destruct (decide (0 < x)%N) as [Hpos|Hz]; [|assert (x = 0%N) as -> by lia; by rewrite pretty_N_go_0].
  assert (x / 10 < x)%N by (apply N.div_lt; lia). assert (x = 10 * (x / 10) + x mod 10)%N by (apply N.div_mod; lia).
  assert (x mod 10 < 10)%N by (apply N.mod_lt; lia).
  rewrite pretty_N_go_step, IH by lia.
  remember (x mod 10)%N as r eqn:Er. remember (x / 10)%N as q eqn:Eq. clear Er Eq IH.
  pose proof (parse_char (Z.of_N q) (Z.of_N r) s ltac:(lia) ltac:(lia) ltac:(lia)) as Hp. rewrite N2Z.id in Hp.
  rewrite Hp. f_equal. lia.
Qed.

Lemma SlotIdToKey_roundtrip id : is_u32 id -> KeyToSlotId (SlotIdToKey id) = id.
Proof.
  intros Hid. unfold is_u32 in Hid. unfold KeyToSlotId, ParseUint32, SlotIdToKey, FormatInt, pretty, pretty_N.
  destruct (decide _) as [E|E]; [by assert (id = 0) as -> by lia|].
  rewrite parse_pretty by lia. simpl. lia.
Qed.

Section ServerLaws.
Context (growslice : Z -> Z -> Z) {W : WkProto} {DB : Type} {P : Pebble DB} {PL : PebbleLaws DB} {SL : Slots}.
Abbreviation storage := (SlotStorage.PebbleShardLogStorage DB).
Abbreviation server := (@SlotServer DB).
Abbreviation failing := (store_fails DB).
Implicit Types (A : string -> slotlog) (s : server).

(** ** Starting a slot *)

Lemma last_log_term a : slot_ok a -> is_u32 (log_Term (last_log a)).
Proof.
  intros Ha. unfold last_log. destruct (sl_logs a !! top (sl_logs a)) as [l|] eqn:El; simpl; [|done].
  destruct (stored_index a _ l Ha El) as (_ & Hst & _). apply (lf_term l), Hst.
Qed.

(** The applied index a slot is started with. *)
Definition started a : slotlog := put_applied a (Z.min (sl_applied a) (top (sl_logs a))).

Lemma GetState_ok A p k now : Rep A p -> IsSlot k ->
  (exists p', SlotStorage.GetState p k now =
     Ok (p', Some (mkRaftState (top (sl_logs (A k))) (log_Term (last_log (A k))) (sl_applied (started (A k))))) /\
     Rep (set_slot A k (started (A k))) p') \/
  (exists p', SlotStorage.GetState p k now = Ok (p', None) /\ failing).
Proof.
  intros R Hk. pose proof (state_sim A p k now R Hk) as H. cbn [slot_exec] in H.
  destruct (SlotStorage.GetState p k now) as [[p' r]| |] eqn:E.
  - cbn in H. destruct H as (A' & Hs & R'). destruct r as [st|]; cbn in Hs; inversion Hs; subst.
    + left. exists p'. cbn in *. simplify_eq. by split.
    + cbn in *. done.
    + right. by exists p'.
  - exfalso. cbn in H. unfold SlotStorage.GetState in E.
    destruct (LastIndexAndTerm_ok A p k R Hk) as [E1|[E1 _]]; rewrite E1 in E; cbn [res_bind] in E; [|done].
    destruct (AppliedIndex_ok A p k R Hk) as [E2|[E2 _]]; rewrite E2 in E; cbn [res_bind] in E; [|done].
    destruct (_ <? _); [|done]. pose proof (rp_ok A p R k Hk) as Ha. pose proof (top_log _ Ha).
    destruct (SetAppliedIndex_ok A p k R Hk (top (sl_logs (A k))) now) as [(p' & E3 & _)|[E3 _]];
      [unfold is_u64, SlotStorage.MaxUint64 in *; lia|rewrite E3 in E; done..].
  - done.
Qed.

Lemma newSlot_ok A p nodeId slot now : Rep A p -> IsSlot (SlotIdToKey (sl_Id slot)) ->
  let k := SlotIdToKey (sl_Id slot) in
  match newSlot p nodeId slot now with
  | Ok (p', n) =>
      Rep (set_slot A k (started (A k))) p' /\ node_inv n /\ opt_NodeId (n_opts n) = nodeId /\
      n_queue n = newQueue (sl_applied (started (A k))) (top (sl_logs (A k)))
  | Panic => failing
  | NoFuel => False
  end.
Proof.
  intros R Hk k. unfold newSlot. fold k. fold k in Hk. pose proof (rp_ok A p R k Hk) as Ha.
  destruct (GetState_ok A p k now R Hk) as [(p' & -> & R')|(p' & -> & HF)]; cbn [res_bind]; [|done].
  cbn [rs_LastTerm]. pose proof (last_log_term _ Ha) as Ht.
  destruct (GetTermStartIndex_ok _ p' k R' Hk _ Ht) as [->|[-> HF]]; cbn [res_bind]; [|done].
  pose proof (top_log _ Ha) as Hl. pose proof (so_applied _ Ha) as Hap.
  destruct (NewNode_inv (default 0 (sl_terms (set_slot A k (started (A k)) k) !! log_Term (last_log (A k))))
    (mkRaftState (top (sl_logs (A k))) (log_Term (last_log (A k))) (sl_applied (started (A k))))
    {| NewOptions with opt_NodeId := nodeId |}) as (n & -> & Hn & Ho & _ & Hq).
  - done.
  - cbn. unfold is_u64 in *. lia.
  - cbn. unfold SlotStorage.MaxUint64 in *. lia.
  - cbn. unfold is_u32 in *. lia.
  - cbn [res_bind]. split_and!; [done|done|by rewrite Ho|done].
Qed.

(** ** The rafts of a node *)

(** The rafts of a node, with the configuration each was started with, and the events
    that wait for them. *)
Record view := mkView { vw_rafts : gmap string Slot; vw_events : list GEvent }.

Definition conf_event (nodeId : Z) (slot : Slot) : GEvent :=
  mkGEvent (SlotIdToKey (sl_Id slot)) (confChange nodeId slot) None.
Definition hand_over (nodeId : Z) (v : view) (slot : Slot) : view :=
  {| v with vw_events := vw_events v ++ [conf_event nodeId slot] |}.

(** A configuration of a slot: without a leader it is not looked at; a slot that is not on
    the node has no raft; the raft of a slot that is, is given the configuration when it
    starts, and later unless it is the one it was started with. *)
Definition view_step (nodeId : Z) (v : view) (slot : Slot) : view :=
  let k := SlotIdToKey (sl_Id slot) in
  if sl_Leader slot =? 0 then v
  else if negb (slot_here nodeId slot) then {| v with vw_rafts := delete k (vw_rafts v) |}
  else match vw_rafts v !! k with
       | None => hand_over nodeId {| v with vw_rafts := <[k := slot]> (vw_rafts v) |} slot
       | Some old => if Slot_Equal old slot then v else hand_over nodeId v slot
       end.

Record has_view s (v : view) : Prop := {
  hv_list : exists rafts cells, is_list raftKey (rg_raftList (sv_raftGroup s)) rafts cells /\
              forall k, k ∈ rafts <-> is_Some (vw_rafts v !! k);
  hv_slots k slot : vw_rafts v !! k = Some slot -> sv_slots s !! k = Some slot;
  hv_events : eq_nodrop (rg_mq (sv_raftGroup s)) = vw_events v
}.

Lemma must_nodrop q m : eq_nodrop (MustAdd growslice q m) = eq_nodrop q ++ [m].
Proof.
  unfold MustAdd, shrinkNodropArray. cbn [eq_nodrop]. destruct (Z.eqb_spec (len (eq_nodrop q ++ [m])) 0) as [E|];
    [rewrite length_app in E; simpl in E; lia|]. by destruct (_ <? _).
Qed.

Lemma get_view s v k : has_view s v ->
  GetRaft (sv_raftGroup s) k = Ok (if vw_rafts v !! k then Some k else None).
Proof.
  intros [(rafts & cells & Hl & Hk) _ _]. unfold GetRaft. rewrite (get_spec _ _ _ _ _ Hl). f_equal.
  unfold l_get. specialize (Hk k).
  destruct (filter (fun r : string => raftKey r = k) rafts) as [|r l] eqn:E; simpl.
  - destruct (vw_rafts v !! k) eqn:Ev; [|done]. exfalso.
    assert (Hin : k ∈ filter (fun r : string => raftKey r = k) rafts)
      by (apply list_elem_of_filter; split; [done|apply Hk; eauto]).
    rewrite E in Hin. by apply not_elem_of_nil in Hin.
  - assert (Hin : r ∈ filter (fun r : string => raftKey r = k) rafts) by (rewrite E; left).
    apply list_elem_of_filter in Hin as [Hr Hin]. unfold raftKey in Hr. subst r. apply Hk in Hin as [sl ->]. done.
Qed.

Lemma event_view s v slot : has_view s v ->
  exists rg, AddEvent growslice (sv_raftGroup s) (SlotIdToKey (sl_Id slot)) (confChange (sv_NodeId s) slot) = Ok rg /\
    has_view (with_group s rg) (hand_over (sv_NodeId s) v slot) /\ rg_store rg = rg_store (sv_raftGroup s).
Proof.
  intros [Hl Hs He]. eexists. split; [reflexivity|]. split; [|done]. split; [done|done|].
  cbn [with_group sv_raftGroup mustAdd rg_mq hand_over vw_events]. by rewrite must_nodrop, He.
Qed.

(** The server has a view, and its storage holds the slots. *)
Definition server_ok A s (v : view) : Prop := has_view s v /\ Rep A (rg_store (sv_raftGroup s)).
(** What happens to a server on [nodeId]: it is in the view, or a store has failed. *)
Definition follows (nodeId : Z) (r : res server) (v : view) : Prop :=
  match r with
  | Ok s => sv_NodeId s = nodeId /\ exists A, server_ok A s v
  | Panic => failing
  | NoFuel => False
  end.

Lemma remove_view s v k : has_view s v ->
  exists rg, RemoveRaft (sv_raftGroup s) k = Ok rg /\ rg_store rg = rg_store (sv_raftGroup s) /\
    has_view (with_group s rg) {| v with vw_rafts := delete k (vw_rafts v) |}.
Proof.
  intros [(rafts & cells & Hl & Hk) Hs He]. unfold RemoveRaft.
  destruct (remove_spec _ _ _ _ k Hl) as (ll & cells' & -> & Hl'). cbn [res_bind]. eexists. split_and!; [done|done|].
  split; [|cbn; by intros k' slot [_ ?]%lookup_delete_Some; apply Hs|done].
  eexists _, _. split; [exact Hl'|]. intros k'. cbn [vw_rafts]. unfold l_remove. rewrite list_elem_of_filter.
  rewrite Hk. rewrite lookup_delete_is_Some. unfold raftKey. naive_solver.
Qed.

Lemma add_view s v (store : storage) slot n : has_view s v ->
  vw_rafts v !! SlotIdToKey (sl_Id slot) = None ->
  let k := SlotIdToKey (sl_Id slot) in
  exists rg, AddRaft (set_store (sv_raftGroup s) store) k n = Ok rg /\ rg_store rg = store /\
    has_view {| s with sv_raftGroup := rg; sv_slots := <[k := slot]> (sv_slots s) |}
             {| v with vw_rafts := <[k := slot]> (vw_rafts v) |}.
Proof.
  intros [(rafts & cells & Hl & Hk) Hs He] Hno k. fold k in Hno. unfold AddRaft. cbn [set_store rg_raftList].
  rewrite (existNoLock_spec _ _ _ _ _ Hl). cbn [res_bind].
  destruct (push_spec _ _ _ _ k Hl) as (ll & cells' & -> & Hl'). cbn [res_bind].
  assert (Hnk : k ∉ rafts) by (rewrite Hk, Hno; by intros [? ?]).
  assert (Hnk' : raftKey k ∉ raftKey <$> rafts).
  { intros (x & E & Hx)%list_elem_of_fmap. unfold raftKey in E. by subst x. }
  rewrite bool_decide_eq_false_2 by done. eexists. split_and!; [done|done|]. split.
  - eexists _, _. split; [exact Hl'|]. intros k'. unfold l_push. rewrite bool_decide_eq_false_2 by done.
    cbn [vw_rafts]. rewrite elem_of_app, Hk, list_elem_of_singleton.
    destruct (decide (k' = k)) as [->|Hne]; [rewrite lookup_insert_eq; split; eauto|].
    rewrite lookup_insert_ne by done. naive_solver.
  - cbn [vw_rafts sv_slots]. intros k' slot'. destruct (decide (k' = k)) as [->|Hne].
    + by rewrite !lookup_insert_eq.
    + rewrite !lookup_insert_ne by done. apply Hs.
  - done.
Qed.

Lemma AddOrUpdate_view A s v slot now : server_ok A s v -> IsSlot (SlotIdToKey (sl_Id slot)) ->
  follows (sv_NodeId s) (AddOrUpdateSlotRaft growslice s slot now) (view_step (sv_NodeId s) v slot).
Proof.
  intros [Hv R] Hk. unfold AddOrUpdateSlotRaft, view_step. cbv zeta. set (k := SlotIdToKey (sl_Id slot)) in *.
  destruct (sl_Leader slot =? 0); [by split; [|exists A]|]. rewrite (get_view s v k Hv). cbn [res_bind].
  destruct (slot_here (sv_NodeId s) slot); cbn [negb].
  - destruct (vw_rafts v !! k) as [old|] eqn:Ek.
    + rewrite (hv_slots s v Hv k old Ek). unfold needUpdate. destruct (Slot_Equal old slot); cbn [negb].
      * by split; [|exists A].
      * destruct (event_view s v slot Hv) as (rg & E & Hv' & Hst). fold k in E. rewrite E. cbn [res_bind]. split; [done|].
        exists A. split; [done|]. cbn. by rewrite Hst.
    + pose proof (newSlot_ok A _ (sv_NodeId s) slot now R Hk) as Hnew.
      destruct (newSlot _ _ _ _) as [[store n]| |]; [|done..]. destruct Hnew as (R' & _). cbn [res_bind].
      destruct (add_view s v store slot n Hv Ek) as (rg & E & Hst & Hv'). fold k in E, Hv'. rewrite E. cbn [res_bind].
      destruct (event_view _ _ slot Hv') as (rg' & E' & Hv'' & Hst'). fold k in E'. cbn [sv_raftGroup sv_NodeId] in E', Hst'.
      rewrite E'. cbn [res_bind].
      split; [done|]. eexists. split; [exact Hv''|]. cbn. rewrite Hst', Hst. exact R'.
  - destruct (vw_rafts v !! k) as [old|] eqn:Ek.
    + destruct (remove_view s v k Hv) as (rg & -> & Hst & Hv'). cbn [res_bind]. split; [done|].
      exists A. split; [done|]. cbn. by rewrite Hst.
    + split; [done|]. exists A. rewrite delete_id by done. by destruct v.
Qed.

Lemma startSlots_view A s v slots now : server_ok A s v -> Forall (fun slot => IsSlot (SlotIdToKey (sl_Id slot))) slots ->
  follows (sv_NodeId s) (startSlots growslice s slots now) (foldl (view_step (sv_NodeId s)) v slots).
Proof.
  intros Hs Hslots. revert A s v Hs. induction Hslots as [|slot slots Hk _ IH]; intros A s v Hs; [by split; [|exists A]|].
  cbn [startSlots foldl]. pose proof (AddOrUpdate_view A s v slot (now (sl_Id slot)) Hs Hk) as H.
  destruct (AddOrUpdateSlotRaft _ _ _ _) as [s'| |]; cbn [follows res_bind] in H |- *; [|done..].
  destruct H as [Hn (A' & Hs')]. rewrite <-Hn in Hs' |- *. by apply (IH A').
Qed.

(** Slots without a leader can be left out. *)
Lemma filter_view nodeId v slots :
  foldl (view_step nodeId) v (List.filter (fun slot => negb (sl_Leader slot =? 0)) slots) = foldl (view_step nodeId) v slots.
Proof.
  revert v. induction slots as [|slot slots IH]; intros v; [done|]. cbn [List.filter foldl].
  destruct (sl_Leader slot =? 0) eqn:E; cbn [negb foldl]; rewrite IH; [|done]. unfold view_step at 3. cbv zeta. by rewrite E.
Qed.

(** The configurations a server sees. *)
Fixpoint follow_configs s (cfgs : list CConfig) (now : Z -> Z) : res server :=
  match cfgs with
  | [] => Ok s
  | cfg :: cfgs => let! s := OnConfigChange growslice s cfg now in follow_configs s cfgs now
  end.
Definition cfg_slots_ok (cfg : CConfig) : Prop := Forall (fun slot => IsSlot (SlotIdToKey (sl_Id slot))) (cc_Slots cfg).

Lemma follow_view A s v cfgs now : server_ok A s v -> Forall cfg_slots_ok cfgs ->
  follows (sv_NodeId s) (follow_configs s cfgs now) (foldl (view_step (sv_NodeId s)) v (cfgs ≫= cc_Slots)).
Proof.
  intros Hs Hc. revert A s v Hs. induction Hc as [|cfg cfgs Hcfg _ IH]; intros A s v Hs; [by split; [|exists A]|].
  cbn [follow_configs]. rewrite bind_cons, foldl_app. unfold OnConfigChange.
  set (slots := List.filter (fun slot => negb (sl_Leader slot =? 0)) (cc_Slots cfg)).
  assert (Hsl : Forall (fun slot => IsSlot (SlotIdToKey (sl_Id slot))) slots).
  { apply List.Forall_forall. intros x [Hx _]%List.filter_In. unfold cfg_slots_ok in Hcfg.
    rewrite List.Forall_forall in Hcfg. by apply Hcfg. }
  pose proof (startSlots_view A s v slots now Hs Hsl) as H. unfold slots in H at 2. rewrite filter_view in H.
  destruct (startSlots _ _ _ _) as [s'| |]; cbn [follows res_bind] in H |- *; [|done..].
  destruct H as [Hn (A' & Hs')]. rewrite <-Hn in Hs' |- *. by apply (IH A').
Qed.

Lemma new_view store submit nodeId slotCount :
  new_storage store -> server_ok (fun _ => no_slot) (NewServer store submit nodeId slotCount) (mkView ∅ []).
Proof.
  intros Hst. split; [|by apply new_rep]. split; [|done|done].
  exists [], []. split; [apply newLinkedList_spec|]. intros k. cbn. rewrite lookup_empty.
  split; [by intros ?%not_elem_of_nil|by intros [? ?]].
Qed.
End ServerLaws.

Module SlotServerProps.

(** C28. A slot can be started from every storage. After any operations on the log storage
    as in [slot_storage_refines], failed ones and truncations included, a slot is started
    with the last log of the storage and with an applied index that is at most its index,
    which the storage has then too. Starting a slot fails only if a store does. The raft
    that is made does not panic, whatever events, ticks and rounds it is given, on the
    conditions of [op_ok]: a ping and a request for a vote have a term, the largest term is
    not used, logs that are proposed or synchronized continue the log, the storage does not
    answer that it has stored a log beyond the last one, nor that it has truncated logs that
    are stored while others are pending. *)
Theorem started_slot (DB : Type) (P : Pebble DB) (PL : PebbleLaws DB) (SL : Slots)
    (p p1 : SlotStorage.PebbleShardLogStorage DB) (ops : list slot_op) (rs : list (option slot_answer))
    (nodeId now : Z) (slot : Slot) :
  let k := SlotIdToKey (sl_Id slot) in
  new_storage p -> slot_ops_ok ops -> IsSlot k -> slot_execs p ops = Ok (p1, rs) ->
  match newSlot p1 nodeId slot now with
  | Ok (p2, n) =>
      exists A, slots_steps (store_fails DB) (fun _ => no_slot) ops A rs /\
        Rep (set_slot A k (started (A k))) p2 /\
        n_queue n = newQueue (Z.min (sl_applied (A k)) (top (sl_logs (A k)))) (top (sl_logs (A k))) /\
        forall nops, ops_ok n nops -> returns (run_ops n nops) (fun n' => queue_wf (n_queue n'))
  | Panic => store_fails DB
  | NoFuel => False
  end.
Proof.
  intros k Hp Hops Hk E. pose proof (execs_slot _ p ops (new_rep p Hp) Hops) as H. rewrite E in H.
  destruct H as (A & Hs & R). pose proof (newSlot_ok A p1 nodeId slot now R Hk) as Hn.
  destruct (newSlot p1 nodeId slot now) as [[p2 n]| |]; [|done..]. destruct Hn as (R2 & Hi & _ & Hq).
  exists A. split_and!; [done|done|exact Hq|]. intros nops Hok.
  destruct (run_ops_inv n nops Hi Hok) as (n' & -> & Hn' & _). eexists. split; [done|apply Hn'].
Qed.

Definition slot5 : Slot := {| zeroSlot with sl_Id := 5; sl_Leader := 1; sl_Term := 1; sl_Replicas := [1; 2] |}.

(** The logs 1 to 3, of which 4 were recorded as applied. *)
Definition ahead_run : list slot_op :=
  [OpAppend "5" [SlotStorageProps.demo_log 1 1; SlotStorageProps.demo_log 2 1; SlotStorageProps.demo_log 3 2]
     (Some (mkTSI 1 1)) (fun _ => 10); OpSetApplied "5" 4 11].
Definition ahead_storage : SlotStorage.PebbleShardLogStorage kvmap :=
  match slot_execs SlotStorageProps.three_shards ahead_run with
  | Ok (p, _) => p
  | _ => SlotStorageProps.three_shards
  end.

Lemma ahead_ok : slot_ops_ok ahead_run.
Proof.
  unfold ahead_run, slot_ops_ok. repeat (apply Forall_cons; split); [..|apply Forall_nil_2].
  all: split; [cbn [op_slot IsSlot sixtyFourSlots]; apply (bool_decide_unpack _); vm_compute; exact I|];
    cbn [op_fits tsi_Term tsi_Index].
  - split; [repeat (apply Forall_cons; split; [apply SlotStorageProps.demo_log_ok; lia|]); apply Forall_nil_2|].
    unfold is_u64, SlotStorage.MaxUint32. lia.
  - unfold is_u64. lia.
Qed.
Lemma ahead_exec : slot_execs SlotStorageProps.three_shards ahead_run = Ok (ahead_storage, [Some ADone; Some ADone]).
Proof.
  assert (E : match slot_execs SlotStorageProps.three_shards ahead_run with Ok (_, rs) => Some rs | _ => None end =
              Some [Some ADone; Some ADone]) by (vm_compute; reflexivity).
  unfold ahead_storage. destruct (slot_execs _ _) as [[p rs]| |]; [|discriminate E..]. by injection E as ->.
Qed.
Lemma slot5_name : IsSlot (SlotIdToKey (sl_Id slot5)).
Proof. change (SlotIdToKey (sl_Id slot5) ∈ slot_names). apply (bool_decide_unpack _). vm_compute. exact I. Qed.
Lemma three_new : new_storage SlotStorageProps.three_shards.
Proof. split_and!; [reflexivity|reflexivity|repeat constructor]. Qed.

Lemma started_slot_witness :
  exists p2 n, newSlot ahead_storage 1 slot5 12 = Ok (p2, n) /\ q_appliedIndex (n_queue n) = 3 /\ q_lastLogIndex (n_queue n) = 3 /\
    returns (run_ops n [OpTick false; OpReady]) (fun n' => queue_wf (n_queue n')).
Proof.
  pose proof (started_slot kvmap mapPebble mapPebble_laws sixtyFourSlots SlotStorageProps.three_shards ahead_storage
    ahead_run [Some ADone; Some ADone] 1 12 slot5 three_new ahead_ok) as H.
  assert (E3 : match newSlot ahead_storage 1 slot5 12 with
               | Ok (_, n) => (q_appliedIndex (n_queue n) =? 3) && (q_lastLogIndex (n_queue n) =? 3) &&
                              bool_decide (ops_ok n [OpTick false; OpReady])
               | _ => false end = true) by (vm_compute; reflexivity).
  destruct (newSlot ahead_storage 1 slot5 12) as [[p2 n]| |]; [|discriminate E3..].
  apply andb_true_iff in E3 as [[E1%Z.eqb_eq E2%Z.eqb_eq]%andb_true_iff E3%bool_decide_eq_true].
  exists p2, n. split; [reflexivity|]. split; [exact E1|]. split; [exact E2|].
  destruct (H slot5_name ahead_exec) as (A & _ & _ & _ & Hn). apply Hn, E3.
Defined.

(** C29.  The rafts of a node follow the configuration of the cluster.  After any sequence
    of configurations, from a server that was just started, the node has a raft for exactly
    the slots that are on it by the last configuration of the slot with a leader, and every
    raft was given, in order, its configuration (the role of the node, the replicas, the
    learners, the leader and the term) when it was started and whenever one arrived that
    differs from the one it was started with.  It fails only if a store does. *)
Theorem slots_follow_config (growslice : Z -> Z -> Z) (DB : Type) (P : Pebble DB)
    (PL : PebbleLaws DB) (SL : Slots) (store : SlotStorage.PebbleShardLogStorage DB) (submit : nat -> bool)
    (nodeId slotCount : Z) (cfgs : list CConfig) (now : Z -> Z) :
  new_storage store -> Forall cfg_slots_ok cfgs ->
  match follow_configs growslice (NewServer store submit nodeId slotCount) cfgs now with
  | Ok s => has_view s (foldl (view_step nodeId) (mkView ∅ []) (cfgs ≫= cc_Slots)) /\ sv_NodeId s = nodeId
  | Panic => store_fails DB
  | NoFuel => False
  end.
Proof.
  intros Hst Hc. pose proof (follow_view growslice _ _ _ cfgs now (new_view store submit nodeId slotCount Hst) Hc) as H.
  destruct (follow_configs _ _ _ _) as [s| |]; [|done..]. destruct H as [Hn (A & Hv & _)]. done.
Qed.

(** *** Runs *)

Definition cfg_of (slots : list Slot) : CConfig := {| zeroConfig with cc_SlotCount := 64; cc_Slots := slots |}.
(** The slot learns of node 3, and of that no longer. *)
Definition slot5_learning : Slot := {| slot5 with sl_Learners := [3]; sl_MigrateTo := 3 |}.
Definition slot6 : Slot := {| slot5 with sl_Id := 6; sl_Leader := 2; sl_Replicas := [2; 3]; sl_Learners := [1] |}.
Definition demo_cfgs : list CConfig :=
  [cfg_of [slot5; {| slot6 with sl_Leader := 0 |}]; cfg_of [slot5_learning; slot6]; cfg_of [slot5; {| slot6 with sl_Learners := [] |}]].

Lemma demo_cfgs_ok : Forall cfg_slots_ok demo_cfgs.
Proof.
  unfold demo_cfgs, cfg_slots_ok. cbn [cfg_of cc_Slots]. repeat first [apply Forall_nil_2 | apply Forall_cons; split].
  all: cbn [IsSlot sixtyFourSlots]; apply (bool_decide_unpack _); vm_compute; exact I.
Qed.

Definition demo_view : view := foldl (view_step 1) (mkView ∅ []) (demo_cfgs ≫= cc_Slots).

Lemma slots_follow_config_witness :
  exists s, follow_configs Z.max (NewServer SlotStorageProps.three_shards (fun _ => true) 1 64) demo_cfgs (fun _ => 0) = Ok s /\
    has_view s demo_view /\
    map (fun k => bool_decide (is_Some (vw_rafts demo_view !! k))) ["5"; "6"] = [true; false] /\
    map (fun m => (ge_RaftKey m, cfg_Role (ev_Config (ge_Event m)))) (vw_events demo_view) =
      [("5", RoleLeader); ("5", RoleLeader); ("6", RoleLearner)].
Proof.
  pose proof (slots_follow_config Z.max kvmap mapPebble mapPebble_laws sixtyFourSlots SlotStorageProps.three_shards
    (fun _ => true) 1 64 demo_cfgs (fun _ => 0) three_new demo_cfgs_ok) as H.
  destruct (follow_configs _ _ _ _) as [s| |]; [|exfalso; exact (no_failing_map H)|exfalso; exact H].
  exists s. destruct H as [H _]. split_and!; [reflexivity|exact H|vm_compute; reflexivity|vm_compute; reflexivity].
Defined.

(** A raft that is given back the configuration it was started with is not told: the last
    configuration of the slot 5 is [slot5], and the last one its raft was given is
    [slot5_learning]. *)
Lemma first_config_not_repeated :
  map (fun m => cfg_Learners (ev_Config (ge_Event m)))
    (List.filter (fun m => bool_decide (ge_RaftKey m = "5")) (vw_events demo_view)) = [[]; [3]] /\
  last (List.filter (is_slot 5) (demo_cfgs ≫= cc_Slots)) = Some slot5.
Proof. split; vm_compute; reflexivity. Qed.

(** Slots and their names. *)
Lemma slot_of_channel : ChecksumIEEE (str_bytes "123456789") = 3421780262 /\ GetSlotNum 64 "123456789" = Ok 38 /\
  KeyToSlotId "4294967296" = 4294967295 /\ KeyToSlotId "5x" = 0.
Proof. split_and!; vm_compute; reflexivity. Qed.
End SlotServerProps.
