(* ===== verification/WkMessages.v ===== *)
(** * The table of messages

    [pkg/wkdb/message.go]: the messages of the channels, one row per message with a
    column per field, the number of the last message of a channel with its cache
    ([cache_channel_seq.go]), and the index by sender with its cache
    ([cache_user_last_msg_seq.go]).  Messages for the search are also put into an
    outbox ([search_outbox.go]).

    A packet of [wkproto] is a type of the class [RecvPackets], of which the table keeps
    the fields [Msg]; a message that is read has these fields and no others.  [now] is the
    clock.  An operation returns [inl err] when it reports an error. *)

From Stdlib Require Import Strings.Byte.
From S2P Require Import Prelude RaftTypes WkProto KeyBytes WkTables WkKey WkKv WkPermission WkMembers WkModel.

(** ** Messages *)

(** What the repository uses of the packets of [wkproto]: the header of a packet has a
    byte of its own, the settings are a number. *)
Class RecvPackets := {
  Framer : Type;
  zeroFramer : Framer;
  ToFixHeaderUint8 : Framer -> Z;
  FramerFromUint8 : Z -> Framer;
  Setting_Uint8 : Z -> Z
}.
Class RecvPacketsLaws (R : RecvPackets) := {
  Framer_u8 f : is_u8 (ToFixHeaderUint8 f);
  Setting_u8 s : is_u8 (Setting_Uint8 s)
}.

Section Msgs.
Context {R : RecvPackets}.

(** [pkg/wkdb/model.go] [Message]

    The fields that the table keeps: those of the packet, the term and whether the message
    is for the search. *)
Record Msg := mkMsg {
  m_Framer : Framer;
  m_Setting : Z;
  m_Expire : Z;
  m_MessageID : Z;
  m_MessageSeq : Z;
  m_ClientMsgNo : string;
  m_StreamNo : string;
  m_Timestamp : Z;
  m_ChannelID : string;
  m_ChannelType : Z;
  m_Topic : string;
  m_FromUID : string;
  m_Payload : bytes;
  m_Term : Z;
  m_SearchOutbox : bool
}.
Definition EmptyMsg : Msg := mkMsg zeroFramer 0 0 0 0 "" "" 0 "" 0 "" "" [] 0 false.
(** [pkg/wkdb/model.go] [IsEmptyMessage] *)
Definition IsEmptyMessage (m : Msg) : bool := (m_MessageID m =? 0) && (m_MessageSeq m =? 0).
End Msgs.

(** A message as the store of the cluster has it ([WkModel]), with its stored fields and
    its size. *)
Class MsgViews {F : Frames} {R : RecvPackets} := {
  msg_of : Message -> Msg;
  msg_size : Msg -> Z
}.
Arguments MsgViews : clear implicits.

Definition as_string (bs : bytes) : string := String.string_of_list_byte bs.

(** [pkg/wkdb/message_search_source.go] [lines 14-15] *)
Definition MaxMessageSequence : Z := 4294967295.

(** [pkg/wkutil/channel.go] [ChannelToKey] *)
Definition ChannelToKey (channelId : string) (channelType : Z) : string :=
  FormatInt channelType +:+ "&" +:+ channelId.

Section Messages.
Context {W : WkProto} {F : Frames} {R : RecvPackets} {V : MsgViews F R}.

(** ** Rows *)

Definition col (f : string) : name2 := column TableMessage f.

(** [iter.Value()[0]], [Uint32] and [Uint64] of a value. *)
Definition value_byte (v : bytes) : res Z :=
  match v with b :: _ => Ok (Z_of_byte b) | [] => Panic end.
Definition value_uint (w : nat) (v : bytes) : res Z :=
  if (length v <? w)%nat then Panic else Ok (be_val (take w v)).

(** [pkg/wkdb/message.go] [lines 1385-1420]

    A column of a row is read; [None] is an error. *)
Definition readColumn (preMessage : Msg) (columnName : name2) (value : bytes) : res (option Msg) :=
  if bool_decide (columnName = col "Header") then
    let! b := value_byte value in Ok (Some {| preMessage with m_Framer := FramerFromUint8 b |})
  else if bool_decide (columnName = col "Setting") then
    let! b := value_byte value in Ok (Some {| preMessage with m_Setting := b |})
  else if bool_decide (columnName = col "Expire") then
    let! v := value_uint 4 value in Ok (Some {| preMessage with m_Expire := v |})
  else if bool_decide (columnName = col "MessageId") then
    let! v := value_uint 8 value in Ok (Some {| preMessage with m_MessageID := i64 v |})
  else if bool_decide (columnName = col "ClientMsgNo") then
    Ok (Some {| preMessage with m_ClientMsgNo := as_string value |})
  else if bool_decide (columnName = col "StreamNo") then
    Ok (Some {| preMessage with m_StreamNo := as_string value |})
  else if bool_decide (columnName = col "Timestamp") then
    let! v := value_uint 4 value in Ok (Some {| preMessage with m_Timestamp := i32 v |})
  else if bool_decide (columnName = col "ChannelId") then
    Ok (Some {| preMessage with m_ChannelID := as_string value |})
  else if bool_decide (columnName = col "ChannelType") then
    let! b := value_byte value in Ok (Some {| preMessage with m_ChannelType := b |})
  else if bool_decide (columnName = col "Topic") then
    Ok (Some {| preMessage with m_Topic := as_string value |})
  else if bool_decide (columnName = col "FromUid") then
    Ok (Some {| preMessage with m_FromUID := as_string value |})
  else if bool_decide (columnName = col "Payload") then
    Ok (Some {| preMessage with m_Payload := value |})
  else if bool_decide (columnName = col "Term") then
    let! v := value_uint 8 value in Ok (Some {| preMessage with m_Term := v |})
  else if bool_decide (columnName = col "SearchOutbox") then
    if bool_decide (value = [x01]) then Ok (Some {| preMessage with m_SearchOutbox := true |}) else Ok None
  else Ok (Some preMessage).

(** A message with only its number. *)
Definition fresh_msg (messageSeq : Z) : Msg := {| EmptyMsg with m_MessageSeq := u32 messageSeq |}.

(** [pkg/wkdb/message.go] [(wk *wukongDB) writeMessage]

    [primaryValue] has the channel and the number of the message. *)
Definition writeMessage (channelId : string) (channelType : Z) (m : Msg) : res (list wop) :=
  let set f v := (let! k := NewMessageColumnKey channelId channelType (m_MessageSeq m) (col f) in Ok (WSet k v)) in
  let! header := set "Header" [byte_of_Z (ToFixHeaderUint8 (m_Framer m))] in
  let! setting := set "Setting" [byte_of_Z (Setting_Uint8 (m_Setting m))] in
  let! expire := set "Expire" (be_bytes 4 (m_Expire m)) in
  let! messageId := set "MessageId" (be_bytes 8 (u64 (m_MessageID m))) in
  let! messageSeq := set "MessageSeq" (be_bytes 8 (m_MessageSeq m)) in
  let! clientMsgNo := set "ClientMsgNo" (str_bytes (m_ClientMsgNo m)) in
  let! streamNo := set "StreamNo" (str_bytes (m_StreamNo m)) in
  let! timestamp := set "Timestamp" (be_bytes 4 (u32 (m_Timestamp m))) in
  let! channelID := set "ChannelId" (str_bytes (m_ChannelID m)) in
  let! channelType' := set "ChannelType" [byte_of_Z (m_ChannelType m)] in
  let! topic := set "Topic" (str_bytes (m_Topic m)) in
  let! fromUid := set "FromUid" (str_bytes (m_FromUID m)) in
  let! payload := set "Payload" (m_Payload m) in
  let! term := set "Term" (be_bytes 8 (m_Term m)) in
  let! outbox := (if m_SearchOutbox m then let! w := set "SearchOutbox" [x01] in Ok [w] else Ok []) in
  let primaryValue := be_bytes 8 (ChannelToNum channelId channelType) ++ be_bytes 8 (m_MessageSeq m) in
  let! byUid := NewMessageSecondIndexFromUidKey (m_FromUID m) primaryValue in
  let! byId := NewMessageIndexMessageIdKey (u64 (m_MessageID m)) in
  let! byNo := NewMessageSecondIndexClientMsgNoKey (m_ClientMsgNo m) primaryValue in
  let! byTime := NewMessageIndexTimestampKey (u64 (m_Timestamp m)) primaryValue in
  Ok ([header; setting; expire; messageId; messageSeq; clientMsgNo; streamNo; timestamp; channelID; channelType';
       topic; fromUid; payload; term] ++ outbox ++
      [WSet byUid []; WSet byId primaryValue; WSet byNo []; WSet byTime []]).

(** ** Iterators *)

Section Iterate.
Context {A : Type} (iterFnc : A -> Msg -> A * bool) (limit : Z).

(** The variables of the loop. *)
Record iter_state := mkIter { it_size : Z; it_preSeq : Z; it_pre : Msg; it_hasData : bool; it_acc : A }.

(** [pkg/wkdb/message.go] [lines 1351-1430]

    The body of the loop, from the entry the iterator has moved to; [None] is an error. *)
Fixpoint iterateMessages (entries : list (bytes * bytes)) (st : iter_state) : res (option A) :=
  match entries with
  | [] => Ok (Some (if it_hasData st then (iterFnc (it_acc st) (it_pre st)).1 else it_acc st))
  | (k, value) :: entries =>
      let! parsed := ParseMessageColumnKey k in
      match parsed with
      | None => Ok None
      | Some (messageSeq, columnName) =>
          let go st :=
            let! pre := readColumn (it_pre st) columnName value in
            match pre with
            | None => Ok None
            | Some pre => iterateMessages entries {| st with it_pre := pre; it_hasData := true |}
            end in
          if negb (it_preSeq st =? messageSeq) then
            let next st := {| st with it_preSeq := messageSeq; it_pre := fresh_msg messageSeq |} in
            if negb (it_preSeq st =? 0) then
              let size := it_size st + 1 in
              let '(acc, more) := iterFnc (it_acc st) (it_pre st) in
              if negb more then Ok (Some acc)
              else if negb (limit =? 0) && (limit <=? size) then Ok (Some acc)
              else go (next {| st with it_size := size; it_acc := acc |})
            else go (next st)
          else go st
      end
  end.

(** [pkg/wkdb/message.go] [(wk *wukongDB) iteratorChannelMessagesDirection]

    The loop moves the iterator before it reads an entry, also the first time. *)
Definition iteratorChannelMessagesDirection (entries : list (bytes * bytes)) (reverse : bool) (acc : A) : res (option A) :=
  match (if reverse then rev entries else entries) with
  | [] => Ok (Some acc)
  | _ :: entries => iterateMessages entries (mkIter 0 0 EmptyMsg false acc)
  end.

(** [pkg/wkdb/message.go] [(wk *wukongDB) iteratorChannelMessages] *)
Definition iteratorChannelMessages (entries : list (bytes * bytes)) (acc : A) : res (option A) :=
  iteratorChannelMessagesDirection entries false acc.
End Iterate.

Definition collectMsg (msgs : list Msg) (m : Msg) : list Msg * bool := (msgs ++ [m], true).
Definition firstMsg (_ m : Msg) : Msg * bool := (m, false).

(** [pkg/wkdb/message.go] [lines 1442-1511]

    The loop of [parseChannelMessagesWithLimitSize]; [started] is [lastNeedAppend]. *)
Fixpoint parseMessages (entries : list (bytes * bytes)) (limitSize size preSeq : Z) (pre : Msg) (started : bool)
    (msgs : list Msg) : res (option (list Msg)) :=
  match entries with
  | [] => Ok (Some (if started then msgs ++ [pre] else msgs))
  | (k, value) :: entries =>
      let! parsed := ParseMessageColumnKey k in
      match parsed with
      | None => Ok None
      | Some (messageSeq, columnName) =>
          if messageSeq =? 0 then Panic
          else
            let go size preSeq pre msgs :=
              let! pre := readColumn pre columnName value in
              match pre with
              | None => Ok None
              | Some pre => parseMessages entries limitSize size preSeq pre true msgs
              end in
            if negb (preSeq =? messageSeq) then
              if negb (preSeq =? 0) then
                let size := size +64 u64 (msg_size pre) in
                let msgs := msgs ++ [pre] in
                if negb (limitSize =? 0) && (limitSize <=? size) then Ok (Some msgs)
                else go size messageSeq (fresh_msg messageSeq) msgs
              else go size messageSeq (fresh_msg messageSeq) msgs
            else go size preSeq pre msgs
      end
  end.

(** [pkg/wkdb/message.go] [(wk *wukongDB) parseChannelMessagesWithLimitSize] *)
Definition parseChannelMessagesWithLimitSize (entries : list (bytes * bytes)) (limitSize : Z) : res (option (list Msg)) :=
  parseMessages entries limitSize 0 0 EmptyMsg false [].
End Messages.
