(* ===== verification/WkMessageDB.v ===== *)
(** * The operations on the messages

    [pkg/wkdb/message.go], [leader_term_sequence.go], [cache_channel_seq.go],
    [cache_user_last_msg_seq.go], and of [search_outbox.go] what an append and a
    truncation do.

    The database is [wukongDB] with the two caches.  An operation is a function of the
    database ([Db]) that returns the new one with an error or an answer. *)

From Stdlib Require Import Strings.Byte Strings.Ascii.
From S2P Require Import Prelude RaftTypes WkProto KeyBytes WkTables WkKey WkKv WkPermission WkMembers WkModel WkMessages.

Section MessageDB.
Context {W : WkProto} {F : Frames} {R : RecvPackets} {V : MsgViews F R}.
Context {DB : Type} {P : Pebble DB} {C : Type} {L : LRU PermissionCacheItem C}.
Context {SC : Type} {LS : LRU bytes SC} {UC : Type} {LU : LRU Z UC}.

(** [pkg/wkdb/wukongdb.go] [wukongDB]

    The fields of the messages. *)
Record messageDB := mkMessageDB {
  mg_wk : wukongDB (DB := DB) (C := C);
  mg_channelSeqCache : SC;
  mg_userLastMsgSeqCache : UC
}.
Implicit Types d : messageDB.

(** *** Operations *)

Definition Db (A : Type) : Type := messageDB -> res (messageDB * (GoError + A)).
Definition db_ret {A} (a : A) : Db A := fun d => Ok (d, inr a).
Definition db_err {A} (e : GoError) : Db A := fun d => Ok (d, inl e).
Definition db_bind {A B} (m : Db A) (f : A -> Db B) : Db B := fun d =>
  let! (d, r) := m d in
  match r with
  | inl e => Ok (d, inl e)
  | inr a => f a d
  end.
(** A computation that may panic. *)
Definition db_res {A} (r : res A) : Db A := fun d => let! a := r in Ok (d, inr a).
#[local] Notation "'db!' x ':=' m 'in' k" := (db_bind m (fun x => k)) (at level 10, x pattern, m at level 100, k at level 200).

Definition ErrNotFound : GoError := ErrOther "not found".
Definition readErr : GoError := ErrOther "read".
Definition outboxErr : GoError := ErrOther "search outbox".

(** The store of a channel, and its batch. *)
Definition channel_db (channelId : string) (channelType : Z) : Db (nat * DB) := fun d =>
  let! r := channelDb (mg_wk d) channelId channelType in Ok (d, inr r).
Definition commit_batch (i : nat) (db : DB) (ws : list wop) : Db unit := fun d =>
  match commit (mg_wk d) i db ws with
  | Some wk => Ok ({| d with mg_wk := wk |}, inr tt)
  | None => Ok (d, inl commitErr)
  end.
(** An error of an iterator. *)
Definition or_parse {A} (r : option A) : Db A := match r with Some a => db_ret a | None => db_err readErr end.

(** ** The last number of a channel *)

Definition on_seqCache {A} (f : SC -> A * SC) : Db A := fun d =>
  let '(a, c) := f (mg_channelSeqCache d) in Ok ({| d with mg_channelSeqCache := c |}, inr a).

(** [pkg/wkdb/cache_channel_seq.go] [(c *channelSeqCache) getChannelLastSeq] *)
Definition getChannelLastSeq (channelId : string) (channelType : Z) : Db (option (Z * Z)) :=
  db! item := on_seqCache (fun c => lru_get c (ChannelToKey channelId channelType)) in
  match item with
  | None => db_ret None
  | Some item =>
      db_res (let! seq := value_uint 8 item in
              let! setTime := value_uint 8 (drop 8 item) in Ok (Some (seq, setTime)))
  end.
Definition seq_bytes (seq now : Z) : bytes := be_bytes 8 seq ++ be_bytes 8 (u64 now).
(** [pkg/wkdb/cache_channel_seq.go] [(c *channelSeqCache) setChannelLastSeq] *)
Definition setChannelLastSeq (channelId : string) (channelType seq now : Z) : Db unit :=
  on_seqCache (fun c => (tt, lru_add c (ChannelToKey channelId channelType) (seq_bytes seq now))).
(** [pkg/wkdb/cache_channel_seq.go] [(c *channelSeqCache) setChannelLastSeqWithBytes] *)
Definition setChannelLastSeqWithBytes (channelId : string) (channelType : Z) (data : bytes) : Db unit :=
  on_seqCache (fun c => (tt, if 0 <? len data then lru_add c (ChannelToKey channelId channelType) data else c)).
(** [pkg/wkdb/cache_channel_seq.go] [(c *channelSeqCache) invalidateChannelLastSeq] *)
Definition invalidateChannelLastSeq (channelId : string) (channelType : Z) : Db unit :=
  on_seqCache (fun c => (tt, lru_remove c (ChannelToKey channelId channelType))).

(** [pkg/wkdb/message.go] [(wk *wukongDB) setChannelLastMessageSeq] *)
Definition setChannelLastMessageSeq (channelId : string) (channelType seq now : Z) : res wop :=
  let! k := NewChannelLastMessageSeqKey channelId channelType in Ok (WSet k (seq_bytes seq now)).

(** [pkg/wkdb/message.go] [(wk *wukongDB) GetChannelLastMessageSeq] *)
Definition GetChannelLastMessageSeq (channelId : string) (channelType : Z) : Db (Z * Z) :=
  db! cached := getChannelLastSeq channelId channelType in
  match cached with
  | Some r => db_ret r
  | None =>
      db! (_, db) := channel_db channelId channelType in
      db! k := db_res (NewChannelLastMessageSeqKey channelId channelType) in
      match kv_get db k with
      | NotFound => db_ret (0, 0)
      | GetErr => db_err readErr
      | Found result =>
          if (length result =? 0)%nat then db_ret (0, 0)
          else
            db! seq := db_res (value_uint 8 result) in
            db! setTime := db_res (value_uint 8 (drop 8 result)) in
            db! _ := setChannelLastSeqWithBytes channelId channelType result in
            db_ret (seq, setTime)
      end
  end.

(** [pkg/wkdb/message.go] [(wk *wukongDB) SetChannelLastMessageSeq] *)
Definition SetChannelLastMessageSeq (channelId : string) (channelType seq now now' : Z) : Db unit :=
  db! (i, db) := channel_db channelId channelType in
  db! w := db_res (setChannelLastMessageSeq channelId channelType seq now) in
  db! _ := commit_batch i db [w] in
  setChannelLastSeq channelId channelType seq now'.

(** ** The search outbox *)

(** [pkg/wkdb/search_outbox.go] [(wk *wukongDB) GetSearchOutboxFloor]

    [None]: not enabled. *)
Definition GetSearchOutboxFloor (channelID : string) (channelType : Z) : Db (option Z) :=
  if negb (IsValidSearchOutboxChannelIdentity channelID channelType) then db_ret None
  else
    db! keyBytes := db_res (NewSearchOutboxFloorKey channelID channelType) in
    match keyBytes with
    | None => db_err outboxErr
    | Some keyBytes =>
        db! (_, db) := channel_db channelID channelType in
        match kv_get db keyBytes with
        | NotFound => db_ret None
        | GetErr => db_err outboxErr
        | Found value =>
            if negb (length value =? 8)%nat then db_err outboxErr
            else db! floor := db_res (value_uint 8 value) in db_ret (Some floor)
        end
    end.

(** [pkg/wkdb/search_outbox.go] [(wk *wukongDB) ensureSearchOutboxFloor]

    The writes it adds to the batch. *)
Definition ensureSearchOutboxFloor (channelID : string) (channelType firstSearchOutboxSeq : Z) : Db (list wop) :=
  if firstSearchOutboxSeq =? 0 then db_err outboxErr
  else
    db! floor := GetSearchOutboxFloor channelID channelType in
    match floor with
    | Some _ => db_ret []
    | None =>
        db! keyBytes := db_res (NewSearchOutboxFloorKey channelID channelType) in
        match keyBytes with
        | None => db_err outboxErr
        | Some keyBytes => db_ret [WSet keyBytes (be_bytes 8 (firstSearchOutboxSeq -64 1))]
        end
    end.

Definition searchOutboxActive : Z := 1.
Definition searchOutboxAcknowledged : Z := 3.

(** [pkg/wkdb/search_outbox_quarantine.go] [searchOutboxState] *)
Record searchOutboxState := mkOutboxState { os_Epoch : Z; os_Status : Z }.
(** [pkg/wkdb/search_outbox_quarantine.go] [(state searchOutboxState) marshal] *)
Definition searchOutboxState_marshal (st : searchOutboxState) : bytes :=
  [x01; byte_of_Z (os_Status st)] ++ be_bytes 8 (os_Epoch st).

(** [pkg/wkdb/search_outbox_quarantine.go] [(wk *wukongDB) loadSearchOutboxState]

    With the bytes read as [loadSearchOutboxBytes] does, and whether there are any. *)
Definition loadSearchOutboxState (db : DB) (rawKey : bytes) : Db (searchOutboxState * bool) :=
  match kv_get db (NewSearchOutboxStateKey rawKey) with
  | NotFound => db_ret (mkOutboxState 1 searchOutboxActive, false)
  | GetErr => db_err outboxErr
  | Found value =>
      match value with
      | v0 :: v1 :: epoch =>
          if negb (length value =? 10)%nat || negb (Z_of_byte v0 =? 1) || (Z_of_byte v1 <? searchOutboxActive) ||
             (searchOutboxAcknowledged <? Z_of_byte v1) || (be_val epoch =? 0)
          then db_err outboxErr
          else db_ret (mkOutboxState (be_val epoch) (Z_of_byte v1), true)
      | _ => db_err outboxErr
      end
  end.

(** [pkg/wkdb/search_outbox.go] [(id SearchOutboxIdentity) Validate] *)
Definition SearchOutboxIdentity_valid (channelID : string) (channelType messageSeq messageID : Z) : bool :=
  negb (bool_decide (channelID = "") || (MaxSearchOutboxChannelIDBytes <? len (str_bytes channelID)) ||
        (channelType =? 0) || (messageSeq =? 0) || (MaxMessageSequence <? messageSeq) || (messageID <=? 0)).

(** [pkg/wkdb/search_outbox.go] [(wk *wukongDB) writeSearchOutbox]

    The identity is that of the fields of the message; the writes it adds to the batch. *)
Definition writeSearchOutbox (message : Message) : Db (list wop) :=
  let m := msg_of message in
  if negb (SearchOutboxIdentity_valid (m_ChannelID m) (m_ChannelType m) (m_MessageSeq m) (m_MessageID m)) then db_err outboxErr
  else
    db! keyBytes := db_res (NewSearchOutboxKey (m_ChannelID m) (m_ChannelType m) (m_MessageSeq m) (m_MessageID m)) in
    match keyBytes with
    | None => db_err outboxErr
    | Some keyBytes =>
        db! (_, db) := channel_db (m_ChannelID m) (m_ChannelType m) in
        db! (state, exists_) := loadSearchOutboxState db keyBytes in
        if negb (os_Status state =? searchOutboxActive) then db_ret []
        else
          match Message_Marshal message with
          | None => db_err outboxErr
          | Some value =>
              db_ret ((if exists_ : bool then [] else [WSet (NewSearchOutboxStateKey keyBytes) (searchOutboxState_marshal state)]) ++
                      [WSet keyBytes value])
          end
    end.

(** ** Appending *)

(** [pkg/wkdb/message.go] [lines 62-71]

    The writes of the messages and of their tasks for the search. *)
Fixpoint writeMessages (channelId : string) (channelType : Z) (msgs : list Message) : Db (list wop) :=
  match msgs with
  | [] => db_ret []
  | msg :: msgs =>
      db! ws := db_res (writeMessage channelId channelType (msg_of msg)) in
      db! out := if m_SearchOutbox (msg_of msg) then writeSearchOutbox msg else db_ret [] in
      db! more := writeMessages channelId channelType msgs in
      db_ret (ws ++ out ++ more)
  end.

(** [pkg/wkdb/cache_user_last_msg_seq.go] [(c *userLastMsgSeqCache) makeKey] *)
Definition userSeqKey (fromUid channelId : string) (channelType : Z) : string :=
  fromUid +:+ ":" +:+ channelId +:+ ":" +:+ String (ascii_of_nat (Z.to_nat channelType)) EmptyString.
Definition on_userCache {A} (f : UC -> A * UC) : Db A := fun d =>
  let '(a, c) := f (mg_userLastMsgSeqCache d) in Ok ({| d with mg_userLastMsgSeqCache := c |}, inr a).

(** [pkg/wkdb/cache_user_last_msg_seq.go] [(c *userLastMsgSeqCache) updateIfGreater] *)
Definition updateIfGreater (fromUid channelId : string) (channelType seq : Z) : Db unit :=
  let key := userSeqKey fromUid channelId channelType in
  db! existing := on_userCache (fun c => lru_get c key) in
  if match existing with Some e => e <? seq | None => true end
  then on_userCache (fun c => (tt, lru_add c key seq)) else db_ret tt.

(** [pkg/wkdb/message.go] [lines 86-90] *)
Fixpoint updateUserSeqs (channelId : string) (channelType : Z) (msgs : list Message) : Db unit :=
  match msgs with
  | [] => db_ret tt
  | msg :: msgs =>
      let m := msg_of msg in
      db! _ := if bool_decide (m_FromUID m = "") then db_ret tt
               else updateIfGreater (m_FromUID m) channelId channelType (m_MessageSeq m) in
      updateUserSeqs channelId channelType msgs
  end.

(** [pkg/wkdb/message.go] [(wk *wukongDB) AppendMessages] *)
Definition AppendMessages (channelId : string) (channelType : Z) (msgs : list Message) (now now' : Z) : Db unit :=
  if existsb (fun msg => negb (bool_decide (m_ChannelID (msg_of msg) = channelId)) ||
                         negb (m_ChannelType (msg_of msg) =? channelType)) msgs
  then db_err (ErrOther "append message channel identity differs from target")
  else
    db! (i, db) := channel_db channelId channelType in
    db! floor := match find (fun msg => m_SearchOutbox (msg_of msg)) msgs with
                 | Some msg => ensureSearchOutboxFloor channelId channelType (m_MessageSeq (msg_of msg))
                 | None => db_ret []
                 end in
    db! ws := writeMessages channelId channelType msgs in
    match last msgs with
    | None => db_res Panic
    | Some lastMsg =>
        let seq := m_MessageSeq (msg_of lastMsg) in
        db! w := db_res (setChannelLastMessageSeq channelId channelType seq now) in
        db! _ := commit_batch i db (floor ++ ws ++ [w]) in
        db! _ := setChannelLastSeq channelId channelType seq now' in
        updateUserSeqs channelId channelType msgs
    end.

(** ** Loading *)

(** The entries between two messages of a channel. *)
Definition message_entries (db : DB) (channelId : string) (channelType minSeq maxSeq : Z) : res (list (bytes * bytes)) :=
  let! lower := NewMessagePrimaryKey channelId channelType minSeq in
  let! upper := NewMessagePrimaryKey channelId channelType maxSeq in
  Ok (kv_iter db lower upper).
Definition collect_messages (db : DB) (channelId : string) (channelType minSeq maxSeq limit : Z) : Db (list Msg) :=
  db! entries := db_res (message_entries db channelId channelType minSeq maxSeq) in
  db! r := db_res (iteratorChannelMessages collectMsg limit entries []) in
  or_parse r.

(** [pkg/wkdb/message.go] [lines 347-365]

    The numbers [LoadPrevRangeMsgs] looks at. *)
Definition prevRange (startMessageSeq endMessageSeq limit : Z) : Z * Z :=
  let maxSeq := startMessageSeq +64 1 in
  let minSeq :=
    if endMessageSeq =? 0 then
      if startMessageSeq <? u64 limit then 1 else startMessageSeq -64 u64 limit +64 1
    else if u64 limit <? startMessageSeq -64 endMessageSeq then startMessageSeq -64 u64 limit +64 1
    else endMessageSeq +64 1 in
  (minSeq, maxSeq).

(** [pkg/wkdb/message.go] [(wk *wukongDB) LoadPrevRangeMsgs] *)
Definition LoadPrevRangeMsgs (channelId : string) (channelType startMessageSeq endMessageSeq limit : Z) : Db (list Msg) :=
  if startMessageSeq =? 0 then db_err (ErrOther "start messageSeq must be greater than 0")
  else if negb (endMessageSeq =? 0) && (startMessageSeq <? endMessageSeq)
  then db_err (ErrOther "end messageSeq must be less than start messageSeq")
  else
    let '(minSeq, maxSeq) := prevRange startMessageSeq endMessageSeq limit in
    db! (lastSeq, _) := GetChannelLastMessageSeq channelId channelType in
    let maxSeq := if lastSeq <? maxSeq then lastSeq +64 1 else maxSeq in
    db! (_, db) := channel_db channelId channelType in
    collect_messages db channelId channelType minSeq maxSeq limit.

(** [pkg/wkdb/message.go] [(wk *wukongDB) LoadNextRangeMsgs] *)
Definition LoadNextRangeMsgs (channelId : string) (channelType startMessageSeq endMessageSeq limit : Z) : Db (list Msg) :=
  let minSeq := startMessageSeq in
  let maxSeq := if endMessageSeq =? 0 then MaxUint64 else endMessageSeq in
  db! (lastSeq, _) := GetChannelLastMessageSeq channelId channelType in
  let maxSeq := if lastSeq <? maxSeq then lastSeq +64 1 else maxSeq in
  db! (_, db) := channel_db channelId channelType in
  collect_messages db channelId channelType minSeq maxSeq limit.

(** [pkg/wkdb/message.go] [(wk *wukongDB) LoadMsg] *)
Definition LoadMsg (channelId : string) (channelType seq : Z) : Db Msg :=
  db! (_, db) := channel_db channelId channelType in
  db! entries := db_res (message_entries db channelId channelType seq (seq +64 1)) in
  db! r := db_res (iteratorChannelMessages firstMsg 1 entries EmptyMsg) in
  db! msg := or_parse r in
  if IsEmptyMessage msg then db_err ErrNotFound else db_ret msg.

(** [pkg/wkdb/message.go] [(wk *wukongDB) LoadLastMsgs] *)
Definition LoadLastMsgs (channelId : string) (channelType limit : Z) : Db (list Msg) :=
  db! (lastSeq, _) := GetChannelLastMessageSeq channelId channelType in
  if lastSeq =? 0 then db_ret [] else LoadPrevRangeMsgs channelId channelType lastSeq 0 limit.

(** [pkg/wkdb/message.go] [(wk *wukongDB) GetLastMsg] *)
Definition GetLastMsg (channelId : string) (channelType : Z) : Db Msg :=
  db! (lastSeq, _) := GetChannelLastMessageSeq channelId channelType in
  if lastSeq =? 0 then db_ret EmptyMsg else LoadMsg channelId channelType lastSeq.

(** [pkg/wkdb/message.go] [(wk *wukongDB) LoadLastMsgsWithEnd] *)
Definition LoadLastMsgsWithEnd (channelID : string) (channelType endMessageSeq limit : Z) : Db (list Msg) :=
  db! (lastSeq, _) := GetChannelLastMessageSeq channelID channelType in
  if lastSeq =? 0 then db_ret []
  else if lastSeq <? endMessageSeq then db_ret []
  else LoadPrevRangeMsgs channelID channelType lastSeq endMessageSeq limit.

(** [pkg/wkdb/message.go] [(wk *wukongDB) LoadNextRangeMsgsForSize] *)
Definition LoadNextRangeMsgsForSize (channelId : string) (channelType startMessageSeq endMessageSeq limitSize : Z) : Db (list Msg) :=
  let maxSeq := if endMessageSeq =? 0 then MaxUint64 else endMessageSeq in
  db! (_, db) := channel_db channelId channelType in
  db! entries := db_res (message_entries db channelId channelType startMessageSeq maxSeq) in
  db! r := db_res (parseChannelMessagesWithLimitSize entries limitSize) in
  or_parse r.

(** [pkg/wkdb/message.go] [(wk *wukongDB) GetMessage]

    The loop over the stores of the shards. *)
Fixpoint getMessageIn (dbs : list DB) (messageIdKey : bytes) : Db Msg :=
  match dbs with
  | [] => db_err ErrNotFound
  | db :: dbs =>
      match kv_get db messageIdKey with
      | NotFound => getMessageIn dbs messageIdKey
      | GetErr => db_err readErr
      | Found result =>
          if negb (length result =? 16)%nat then db_err (ErrOther "invalid message index key")
          else
            db! lower := db_res (NewMessageColumnKeyWithPrimary result MinColumnKey) in
            db! upper := db_res (NewMessageColumnKeyWithPrimary result MaxColumnKey) in
            db! r := db_res (iteratorChannelMessages firstMsg 0 (kv_iter db lower upper) EmptyMsg) in
            db! msg := or_parse r in
            if IsEmptyMessage msg then db_err ErrNotFound else db_ret msg
      end
  end.
Definition GetMessage (messageId : Z) : Db Msg := fun d =>
  (db! messageIdKey := db_res (NewMessageIndexMessageIdKey messageId) in getMessageIn (wk_dbs (mg_wk d)) messageIdKey) d.

(** [pkg/wkdb/message.go] [(wk *wukongDB) queryUserLastMsgSeqFromDB] *)
Definition queryUserLastMsgSeqFromDB (fromUid channelId : string) (channelType : Z) : Db Z :=
  db! (_, db) := channel_db channelId channelType in
  let primary v := be_bytes 8 (ChannelToNum channelId channelType) ++ be_bytes 8 v in
  db! highKey := db_res (NewMessageSecondIndexFromUidKey fromUid (primary MaxUint64)) in
  db! lowKey := db_res (NewMessageSecondIndexFromUidKey fromUid (primary 0)) in
  match last (kv_iter db lowKey highKey) with
  | None => db_ret 0
  | Some (k, _) =>
      db! r := db_res (ParseMessageSecondIndexKey k) in
      db! primaryBytes := or_parse r in
      db_ret (be_val (drop 8 primaryBytes))
  end.

(** [pkg/wkdb/message.go] [(wk *wukongDB) GetUserLastMsgSeq] *)
Definition GetUserLastMsgSeq (fromUid channelId : string) (channelType : Z) : Db Z :=
  let key := userSeqKey fromUid channelId channelType in
  db! cached := on_userCache (fun c => lru_get c key) in
  match cached with
  | Some seq => db_ret seq
  | None =>
      db! seq := queryUserLastMsgSeqFromDB fromUid channelId channelType in
      db! _ := on_userCache (fun c => (tt, lru_add c key seq)) in
      db_ret seq
  end.

(** ** Truncation *)

(** [pkg/wkdb/message.go] [lines 582-611]

    The batch of a truncation. *)
Definition truncateWrites (channelId : string) (channelType messageSeq : Z) (floor : option Z) : Db (list wop) :=
  db! floorKey :=
    match floor with
    | Some floor =>
        if messageSeq <? floor then
          db! k := db_res (NewSearchOutboxFloorKey channelId channelType) in
          match k with Some k => db_ret [WDelete k] | None => db_err outboxErr end
        else db_ret []
    | None => db_ret []
    end in
  db! outbox :=
    (if IsValidSearchOutboxChannelIdentity channelId channelType && (messageSeq <? MaxMessageSequence) then
       db! r := db_res (NewSearchOutboxChannelRange channelId channelType (messageSeq +64 1)) in
       match r with Some (lower, upper) => db_ret [WDeleteRange lower upper] | None => db_err outboxErr end
     else db_ret []) in
  db! lower := db_res (NewMessagePrimaryKey channelId channelType (messageSeq +64 1)) in
  db! upper := db_res (NewMessagePrimaryKey channelId channelType MaxUint64) in
  db_ret (floorKey ++ outbox ++ [WDeleteRange lower upper]).

(** [pkg/wkdb/message.go] [(wk *wukongDB) TruncateLogTo] *)
Definition TruncateLogTo (channelId : string) (channelType messageSeq now : Z) : Db unit :=
  if messageSeq =? 0 then db_err (ErrOther "messageSeq must be greater than 0")
  else
    db! (lastMsgSeq, _) := GetChannelLastMessageSeq channelId channelType in
    if lastMsgSeq <=? messageSeq then db_ret tt
    else
      db! floor := GetSearchOutboxFloor channelId channelType in
      db! ws := truncateWrites channelId channelType messageSeq floor in
      db! (i, db) := channel_db channelId channelType in
      db! w := db_res (setChannelLastMessageSeq channelId channelType messageSeq now) in
      db! _ := commit_batch i db (ws ++ [w]) in
      invalidateChannelLastSeq channelId channelType.

End MessageDB.
