(* ===== verification/WkMessagesLaws.v ===== *)
(** * The rows of the messages

    The columns of a message ([msg_cells]), that a row is read back ([read_cells]), what
    the loops over the rows of several messages return ([iterate_msgs], [parse_msgs]), and
    what a store holds of a channel ([chan_rep]). *)

From Stdlib Require Import Strings.Byte Strings.Ascii Sorting.Sorted.
From stdpp Require Import sorting.
From S2P Require Import Prelude ZTables RaftTypes WkProto KeyBytes WkTables WkKey WkKeyLaws WkKv.
From S2P Require Import WkPermission WkMembers WkMembersLaws WkModel WkMessages.

#[local] Arguments be_bytes : simpl never.

(** ** Columns *)

Section Cells.
Context {R : RecvPackets}.
Implicit Types m : Msg.

(** The columns of a message, in the order of their keys. *)
Definition msg_cells m : list (name2 * bytes) :=
  [(col "Header", [byte_of_Z (ToFixHeaderUint8 (m_Framer m))]);
   (col "Setting", [byte_of_Z (Setting_Uint8 (m_Setting m))]);
   (col "Expire", be_bytes 4 (m_Expire m));
   (col "MessageId", be_bytes 8 (u64 (m_MessageID m)));
   (col "MessageSeq", be_bytes 8 (m_MessageSeq m));
   (col "ClientMsgNo", str_bytes (m_ClientMsgNo m));
   (col "Timestamp", be_bytes 4 (u32 (m_Timestamp m)));
   (col "ChannelId", str_bytes (m_ChannelID m));
   (col "ChannelType", [byte_of_Z (m_ChannelType m)]);
   (col "Topic", str_bytes (m_Topic m));
   (col "FromUid", str_bytes (m_FromUID m));
   (col "Payload", m_Payload m);
   (col "Term", be_bytes 8 (m_Term m));
   (col "StreamNo", str_bytes (m_StreamNo m))] ++
  (if m_SearchOutbox m then [(col "SearchOutbox", [x01])] else []).

(** The widths of the fields; messages are numbered from 1. *)
Record msg_fits m : Prop := {
  mf_expire : is_u32 (m_Expire m);
  mf_id : is_i64 (m_MessageID m);
  mf_seq : 1 <= m_MessageSeq m < two32;
  mf_timestamp : is_i32 (m_Timestamp m);
  mf_type : is_u8 (m_ChannelType m);
  mf_term : is_u64 (m_Term m)
}.

(** A message as it is read back. *)
Definition read_back m : Msg :=
  {| m with m_Framer := FramerFromUint8 (ToFixHeaderUint8 (m_Framer m)); m_Setting := Setting_Uint8 (m_Setting m) |}.
(** A message without its header. *)
Definition headless m : Msg := {| m with m_Framer := zeroFramer |}.

(** All columns of a row, one after the other. *)
Fixpoint readColumns (pre : Msg) (cells : list (name2 * bytes)) : res (option Msg) :=
  match cells with
  | [] => Ok (Some pre)
  | (c, v) :: cells =>
      let! r := readColumn pre c v in
      match r with
      | None => Ok None
      | Some pre => readColumns pre cells
      end
  end.

Lemma value_byte_of z : is_u8 z -> value_byte [byte_of_Z z] = Ok z.
Proof. intros Hz. cbn. rewrite byte_of_Z_of_byte. by rewrite u8_small. Qed.
Lemma value_uint_of w z : 0 <= z < 2 ^ (8 * Z.of_nat w) -> value_uint w (be_bytes w z) = Ok z.
Proof.
  intros Hz. unfold value_uint. rewrite be_bytes_length, Nat.ltb_irrefl.
  rewrite take_ge by (by rewrite be_bytes_length). by rewrite be_val_bytes.
Qed.
Lemma as_string_bytes s : as_string (str_bytes s) = s.
Proof. apply String.string_of_list_byte_of_string. Qed.
Lemma i64_of_u64 z : is_i64 z -> i64 (u64 z) = z.
Proof. intros Hz. unfold i64, u64, is_i64 in *. rewrite Z.add_mod_idemp_l by lia. rewrite Z.mod_small by lia. lia. Qed.
Lemma i32_of_u32 z : is_i32 z -> i32 (u32 z) = z.
Proof. intros Hz. unfold i32, u32, is_i32 in *. rewrite Z.add_mod_idemp_l by lia. rewrite Z.mod_small by lia. lia. Qed.
End Cells.

Section Reading.
Context {R : RecvPackets} {RL : RecvPacketsLaws R}.
Implicit Types m : Msg.

Lemma column_then p c v cells p' r :
  readColumn p c v = Ok (Some p') -> readColumns p' cells = r -> readColumns p ((c, v) :: cells) = r.
Proof. intros E <-. cbn [readColumns]. by rewrite E. Qed.

(** A column that holds one byte or an integer. *)
Lemma column_byte p f c z : (forall v, readColumn p c v = let! b := value_byte v in Ok (Some (f b))) -> is_u8 z ->
  readColumn p c [byte_of_Z z] = Ok (Some (f z)).
Proof. intros E Hz. by rewrite E, value_byte_of. Qed.
Lemma column_uint p (f : Z -> Msg) c w z : (forall v, readColumn p c v = let! v := value_uint w v in Ok (Some (f v))) ->
  0 <= z < 2 ^ (8 * Z.of_nat w) -> readColumn p c (be_bytes w z) = Ok (Some (f z)).
Proof. intros E Hz. by rewrite E, value_uint_of. Qed.

(** The fields of a record that has just been updated. *)
#[local] Ltac fields := cbv beta; cbn [WkMessages.m_Framer WkMessages.m_Setting WkMessages.m_Expire WkMessages.m_MessageID
  WkMessages.m_MessageSeq WkMessages.m_ClientMsgNo WkMessages.m_StreamNo WkMessages.m_Timestamp WkMessages.m_ChannelID
  WkMessages.m_ChannelType WkMessages.m_Topic WkMessages.m_FromUID WkMessages.m_Payload WkMessages.m_Term
  WkMessages.m_SearchOutbox].
#[local] Ltac read_next tac := eapply column_then; [tac|fields].

(** The columns after the header. *)
Lemma read_tail m p : msg_fits m -> m_MessageSeq p = m_MessageSeq m -> m_SearchOutbox p = false ->
  readColumns p (tail (msg_cells m)) = Ok (Some {| (read_back m) with m_Framer := m_Framer p |}).
Proof.
  intros [He Hi Hs Ht Hty Hte] Ep Eo. destruct p as [pf ? ? ? ? ? ? ? ? ? ? ? ? ? ?], m as [f s e i q no st ts ci ct tp fu pa te so].
  unfold msg_cells, read_back. cbn [app tail]. revert He Hi Hs Ht Hty Hte Ep Eo. fields. intros He Hi Hs Ht Hty Hte -> ->.
  read_next ltac:(eapply column_byte; [intros; reflexivity|apply Setting_u8]).
  read_next ltac:(eapply (column_uint _ _ _ 4); [intros; reflexivity|exact He]).
  read_next ltac:(eapply (column_uint _ _ _ 8); [intros; reflexivity|apply u64_range]).
  read_next ltac:(reflexivity).
  read_next ltac:(reflexivity).
  read_next ltac:(eapply (column_uint _ _ _ 4); [intros; reflexivity|apply u32_range]).
  read_next ltac:(reflexivity).
  read_next ltac:(eapply column_byte; [intros; reflexivity|exact Hty]).
  read_next ltac:(reflexivity).
  read_next ltac:(reflexivity).
  read_next ltac:(reflexivity).
  read_next ltac:(eapply (column_uint _ _ _ 8); [intros; reflexivity|exact Hte]).
  read_next ltac:(reflexivity).
  rewrite !as_string_bytes, i64_of_u64, i32_of_u32 by done. by destruct so.
Qed.

Lemma fresh_seq seq : 1 <= seq < two32 -> m_MessageSeq (fresh_msg seq) = seq.
Proof. intros H. apply u32_small. unfold is_u32. lia. Qed.

(** A whole row, and a row without its first column. *)
Lemma read_headless m : msg_fits m -> readColumns (fresh_msg (m_MessageSeq m)) (tail (msg_cells m)) = Ok (Some (headless (read_back m))).
Proof. intros Hm. rewrite read_tail; [done|done|by apply fresh_seq, mf_seq|done]. Qed.
Lemma read_cells m : msg_fits m -> readColumns (fresh_msg (m_MessageSeq m)) (msg_cells m) = Ok (Some (read_back m)).
Proof.
  intros Hm. change (msg_cells m) with ((col "Header", [byte_of_Z (ToFixHeaderUint8 (m_Framer m))]) :: tail (msg_cells m)).
  eapply column_then; [eapply column_byte; [intros; reflexivity|apply Framer_u8]|].
  rewrite read_tail; [done|done|by apply fresh_seq, mf_seq|done].
Qed.
Lemma cells_cons m : exists cv, msg_cells m = cv :: tail (msg_cells m).
Proof. by eexists. Qed.
Lemma cells_some m : msg_cells m <> [].
Proof. done. Qed.
Lemma cells_tail m : tail (msg_cells m) <> [].
Proof. done. Qed.

(** ** Loops *)

Definition cell_entry (h i : Z) (cv : name2 * bytes) : bytes * bytes := (row TableMessage h i cv.1, cv.2).
(** The entries of a message. *)
Definition msg_entries (h : Z) (p : Z * Msg) : list (bytes * bytes) := cell_entry h p.1 <$> msg_cells p.2.

Lemma parse_row h i c : is_u64 i -> ParseMessageColumnKey (row TableMessage h i c) = Ok (Some (i, c)).
Proof. by apply row_parse. Qed.

(** A message with the number it is stored under. *)
Definition numbered (p : Z * Msg) : Prop := m_MessageSeq p.2 = p.1 /\ msg_fits p.2.
Lemma numbered_u64 p : numbered p -> is_u64 p.1.
Proof. intros [<- Hm%mf_seq]. unfold is_u64. lia. Qed.
Lemma numbered_pos p : numbered p -> (p.1 =? 0) = false.
Proof. intros [<- Hm%mf_seq]. lia. Qed.
Lemma numbered_row j m : numbered (j, m) -> readColumns (fresh_msg j) (msg_cells m) = Ok (Some (read_back m)).
Proof. intros [E Hm]. cbn [fst snd] in *. subst j. by apply read_cells. Qed.
Lemma numbered_tail j m : numbered (j, m) -> readColumns (fresh_msg j) (tail (msg_cells m)) = Ok (Some (headless (read_back m))).
Proof. intros [E Hm]. cbn [fst snd] in *. subst j. by apply read_headless. Qed.

Section Iterate.
Context {A : Type} (iterFnc : A -> Msg -> A * bool) (limit : Z).

(** What the loop returns from the message it has just read and the messages that follow. *)
Fixpoint visit_msgs (size : Z) (acc : A) (pre : Msg) (ms : list Msg) : A :=
  match ms with
  | [] => (iterFnc acc pre).1
  | m :: ms =>
      let '(acc, more) := iterFnc acc pre in
      if negb more then acc
      else if negb (limit =? 0) && (limit <=? size + 1) then acc
      else visit_msgs (size + 1) acc m ms
  end.

(** The columns that are left of a message. *)
Lemma iterate_cells h i cells rest size pre pre' has acc : is_u64 i -> readColumns pre cells = Ok (Some pre') ->
  iterateMessages iterFnc limit ((cell_entry h i <$> cells) ++ rest) (mkIter size i pre has acc) =
  iterateMessages iterFnc limit rest (mkIter size i pre' (match cells with [] => has | _ => true end) acc).
Proof.
  intros Hi. revert pre has. induction cells as [|[c v] cells IH]; intros pre has; cbn [readColumns].
  { by intros [= ->]. }
  destruct (readColumn pre c v) as [[p|]| |] eqn:E; cbn [res_bind]; [|done..]. intros Hr.
  rewrite fmap_cons. cbn [cell_entry app fst snd iterateMessages]. rewrite parse_row by done. cbn [res_bind it_preSeq].
  rewrite Z.eqb_refl. cbn [negb it_pre]. rewrite E. cbn [res_bind it_size it_preSeq it_acc].
  rewrite (IH p true Hr). by destruct cells.
Qed.

(** The columns of the next message. *)
Lemma iterate_next h j cells rest size i pre has acc pre' :
  is_u64 j -> i <> j -> cells <> [] -> readColumns (fresh_msg j) cells = Ok (Some pre') ->
  iterateMessages iterFnc limit ((cell_entry h j <$> cells) ++ rest) (mkIter size i pre has acc) =
  let start size acc := iterateMessages iterFnc limit rest (mkIter size j pre' true acc) in
  if i =? 0 then start size acc
  else
    let '(acc, more) := iterFnc acc pre in
    if negb more then Ok (Some acc)
    else if negb (limit =? 0) && (limit <=? size + 1) then Ok (Some acc)
    else start (size + 1) acc.
Proof.
  intros Hj Hne Hc Hr. destruct cells as [|[c v] cells]; [done|]. cbv zeta.
  pose proof (fun size acc => iterate_cells h j _ rest size _ _ has acc Hj Hr) as E. rewrite fmap_cons in E |- *.
  cbn [cell_entry app fst snd iterateMessages] in E |- *. rewrite parse_row in E |- * by exact Hj.
  cbn [res_bind it_preSeq] in E |- *. setoid_rewrite Z.eqb_refl in E. destruct (Z.eqb_spec i j) as [|_]; [done|].
  cbn [negb it_acc it_pre it_size] in E |- *. destruct (i =? 0); cbn [negb]; [apply E|].
  destruct (iterFnc acc pre) as [acc' [|]]; cbn [negb]; [|done]. destruct (_ && _); [done|apply E].
Qed.

Lemma iterate_msgs h ps size i pre acc : Forall numbered ps -> i <> 0 -> Forall (fun p => i < p.1) ps ->
  StronglySorted (fun p q => p.1 < q.1) ps ->
  iterateMessages iterFnc limit (ps ≫= msg_entries h) (mkIter size i pre true acc) =
  Ok (Some (visit_msgs size acc pre (read_back <$> ps.*2))).
Proof.
  intros Hps Hi Hlt Hs. revert size i pre acc Hlt Hi. induction Hs as [|[j m] ps _ IH Hj]; intros size i pre acc Hlt Hi; [done|].
  apply Forall_cons in Hps as [Hm Hps]. apply Forall_cons in Hlt as [Hlt _]. cbn [fst snd] in *.
  pose proof (numbered_u64 _ Hm) as Hj64. pose proof (numbered_pos _ Hm) as Hj0. cbn [fst] in Hj64, Hj0.
  rewrite bind_cons. unfold msg_entries at 1. cbn [fst snd].
  assert (Hne : i <> j) by lia.
  rewrite (iterate_next _ _ _ _ _ _ _ _ _ _ Hj64 Hne (cells_some m) (numbered_row _ _ Hm)). cbv zeta.
  destruct (Z.eqb_spec i 0) as [|_]; [done|]. rewrite !fmap_cons. cbn [visit_msgs snd].
  destruct (iterFnc acc pre) as [acc' [|]]; cbn [negb]; [|done].
  destruct (negb (limit =? 0) && (limit <=? size + 1)); [done|]. apply IH; [done|done|lia].
Qed.

(** The whole loop: the first message loses its header. *)
Lemma iterate_all h ps acc : Forall numbered ps -> StronglySorted (fun p q => p.1 < q.1) ps ->
  iteratorChannelMessages iterFnc limit (ps ≫= msg_entries h) acc =
  Ok (Some (match ps with [] => acc | p :: ps => visit_msgs 0 acc (headless (read_back p.2)) (read_back <$> ps.*2) end)).
Proof.
  intros Hps Hs. destruct Hs as [|[j m] ps Hs Hj]; [done|]. apply Forall_cons in Hps as [Hm Hps]. cbn [fst snd] in *.
  pose proof (numbered_u64 _ Hm) as Hj64. pose proof (numbered_pos _ Hm) as Hj0. cbn [fst] in Hj64, Hj0.
  rewrite bind_cons. unfold msg_entries at 1, iteratorChannelMessages, iteratorChannelMessagesDirection. cbn [snd fst].
  destruct (cells_cons m) as [cv E]. rewrite E, fmap_cons, <-app_comm_cons.
  assert (Hne : 0 <> j) by lia.
  rewrite (iterate_next _ _ _ _ _ _ _ _ _ _ Hj64 Hne (cells_tail m) (numbered_tail _ _ Hm)). cbv zeta. cbn [Z.eqb].
  apply iterate_msgs; [done|lia|exact Hj|done].
Qed.
End Iterate.

(** Collecting the messages, and taking the first. *)
Lemma visit_collectMsg limit size acc pre ms : 0 <= size -> size < limit \/ limit = 0 \/ size = 0 ->
  visit_msgs collectMsg limit size acc pre ms =
  acc ++ (if limit =? 0 then pre :: ms else take (Z.to_nat (Z.max 1 (limit - size))) (pre :: ms)).
Proof.
  revert size acc pre. induction ms as [|m ms IH]; intros size acc pre Hsize Hl; cbn [visit_msgs collectMsg fst negb].
  { destruct (limit =? 0); [done|]. destruct (Z.to_nat (Z.max 1 (limit - size))) as [|n] eqn:En; [lia|]. cbn [take]. by rewrite take_nil. }
  destruct (Z.eqb_spec limit 0) as [E0|E0]; cbn [negb andb].
  { rewrite IH by lia. by rewrite <-app_assoc. }
  destruct (Z.leb_spec limit (size + 1)) as [Hle|Hle].
  { replace (Z.to_nat (Z.max 1 (limit - size))) with 1%nat by lia. done. }
  rewrite IH by lia. rewrite <-app_assoc.
  replace (Z.to_nat (Z.max 1 (limit - size))) with (S (Z.to_nat (Z.max 1 (limit - (size + 1))))) by lia. done.
Qed.

(** The messages of an answer: the first has lost its header. *)
Definition answered_msgs (ms : list Msg) : list Msg :=
  match ms with
  | [] => []
  | m :: ms => headless (read_back m) :: (read_back <$> ms)
  end.

Lemma collect_all h ps limit : Forall numbered ps -> StronglySorted (fun p q => p.1 < q.1) ps ->
  iteratorChannelMessages collectMsg limit (ps ≫= msg_entries h) [] = Ok (Some (limited limit (answered_msgs ps.*2))).
Proof.
  intros Hps Hs. rewrite iterate_all by done. do 2 f_equal. destruct ps as [|[j m] ps]; unfold limited.
  { cbn. destruct (limit =? 0); [done|]. by rewrite take_nil. }
  cbn [fst snd fmap list_fmap answered_msgs]. rewrite visit_collectMsg by lia. by rewrite Z.sub_0_r.
Qed.
Lemma first_all h ps limit m0 : Forall numbered ps -> StronglySorted (fun p q => p.1 < q.1) ps ->
  iteratorChannelMessages firstMsg limit (ps ≫= msg_entries h) m0 = Ok (Some (default m0 (head (answered_msgs ps.*2)))).
Proof. intros Hps Hs. rewrite iterate_all by done. do 2 f_equal. destruct ps as [|[j m] [|q ps]]; done. Qed.

(** *** The loop with a limit on the size *)

Section Sized.
Context {F : Frames} {V : MsgViews F R} (limitSize : Z).

(** The messages up to the one with which the sizes reach the limit. *)
Fixpoint cut_sizes (size : Z) (ms : list Msg) : list Msg :=
  match ms with
  | [] => []
  | m :: ms =>
      let size := size +64 u64 (msg_size m) in
      m :: (if negb (limitSize =? 0) && (limitSize <=? size) then [] else cut_sizes size ms)
  end.

(** One entry. *)
Definition parse_column (c : name2) (v : bytes) (rest : list (bytes * bytes)) (size i : Z) (pre : Msg) (msgs : list Msg) : res (option (list Msg)) :=
  let! pre := readColumn pre c v in
  match pre with
  | None => Ok None
  | Some pre => parseMessages rest limitSize size i pre true msgs
  end.
Lemma parse_entry h j c v rest size i pre started msgs : is_u64 j -> j <> 0 ->
  parseMessages (cell_entry h j (c, v) :: rest) limitSize size i pre started msgs =
  if i =? j then parse_column c v rest size i pre msgs
  else if i =? 0 then parse_column c v rest size j (fresh_msg j) msgs
  else
    let size := size +64 u64 (msg_size pre) in
    if negb (limitSize =? 0) && (limitSize <=? size) then Ok (Some (msgs ++ [pre]))
    else parse_column c v rest size j (fresh_msg j) (msgs ++ [pre]).
Proof.
  intros Hj Hj0. unfold cell_entry. cbn [fst snd]. generalize (parse_row h j c Hj). generalize (row TableMessage h j c). intros k E.
  cbn [parseMessages]. rewrite E. cbn [res_bind]. rewrite (proj2 (Z.eqb_neq j 0) Hj0).
  destruct (i =? j); [done|]. by destruct (i =? 0).
Qed.

Lemma parse_cells h i cells rest size pre pre' started msgs : is_u64 i -> i <> 0 -> readColumns pre cells = Ok (Some pre') ->
  parseMessages ((cell_entry h i <$> cells) ++ rest) limitSize size i pre started msgs =
  parseMessages rest limitSize size i pre' (match cells with [] => started | _ => true end) msgs.
Proof.
  intros Hi Hi0. revert pre started. induction cells as [|[c v] cells IH]; intros pre started; cbn [readColumns].
  { by intros [= ->]. }
  destruct (readColumn pre c v) as [[p|]| |] eqn:E; cbn [res_bind]; [|done..]. intros Hr.
  rewrite fmap_cons, <-app_comm_cons, parse_entry, Z.eqb_refl by done. unfold parse_column. rewrite E. cbn [res_bind].
  rewrite (IH p true Hr). by destruct cells.
Qed.

(** The columns of the next message. *)
Lemma parse_next h j cells rest size i pre started msgs pre' :
  is_u64 j -> j <> 0 -> i <> j -> cells <> [] -> readColumns (fresh_msg j) cells = Ok (Some pre') ->
  parseMessages ((cell_entry h j <$> cells) ++ rest) limitSize size i pre started msgs =
  let start size msgs := parseMessages rest limitSize size j pre' true msgs in
  if i =? 0 then start size msgs
  else
    let size := size +64 u64 (msg_size pre) in
    if negb (limitSize =? 0) && (limitSize <=? size) then Ok (Some (msgs ++ [pre])) else start size (msgs ++ [pre]).
Proof.
  intros Hj Hj0 Hne Hc Hr. destruct cells as [|[c v] cells]; [done|]. cbv zeta.
  assert (E : forall size msgs, parse_column c v ((cell_entry h j <$> cells) ++ rest) size j (fresh_msg j) msgs =
                                parseMessages rest limitSize size j pre' true msgs).
  { intros s ms. pose proof (parse_cells h j _ rest s _ _ true ms Hj Hj0 Hr) as E.
    by rewrite fmap_cons, <-app_comm_cons, parse_entry, Z.eqb_refl in E. }
  rewrite fmap_cons, <-app_comm_cons, parse_entry, (proj2 (Z.eqb_neq i j) Hne) by done. cbv zeta. by rewrite !E.
Qed.

Lemma parse_msgs h ps size i pre msgs : Forall numbered ps -> i <> 0 -> Forall (fun p => i < p.1) ps ->
  StronglySorted (fun p q => p.1 < q.1) ps ->
  parseMessages (ps ≫= msg_entries h) limitSize size i pre true msgs =
  Ok (Some (msgs ++ cut_sizes size (pre :: (read_back <$> ps.*2)))).
Proof.
  intros Hps Hi Hlt Hs. revert size i pre msgs Hlt Hi. induction Hs as [|[j m] ps _ IH Hj]; intros size i pre msgs Hlt Hi.
  { cbn. by destruct (_ && _). }
  apply Forall_cons in Hps as [Hm Hps]. apply Forall_cons in Hlt as [Hlt _]. cbn [fst snd] in *.
  pose proof (numbered_u64 _ Hm) as Hj64. pose proof (numbered_pos _ Hm) as Hj0. cbn [fst] in Hj64, Hj0.
  assert (i <> j /\ j <> 0) as [Hne Hn0] by lia. rewrite bind_cons. unfold msg_entries at 1. cbn [fst snd].
  rewrite (parse_next _ _ _ _ _ _ _ _ _ _ Hj64 Hn0 Hne (cells_some m) (numbered_row _ _ Hm)). cbv zeta. destruct (Z.eqb_spec i 0) as [|_]; [done|].
  rewrite !fmap_cons. cbn [cut_sizes snd]. destruct (negb (limitSize =? 0) && _); [done|].
  rewrite IH by (done || lia). cbn [cut_sizes]. by rewrite <-app_assoc.
Qed.

Lemma parse_all h ps : Forall numbered ps -> StronglySorted (fun p q => p.1 < q.1) ps ->
  parseChannelMessagesWithLimitSize (ps ≫= msg_entries h) limitSize = Ok (Some (cut_sizes 0 (read_back <$> ps.*2))).
Proof.
  intros Hps Hs. destruct Hs as [|[j m] ps Hs Hj]; [done|]. apply Forall_cons in Hps as [Hm Hps]. cbn [fst snd] in *.
  pose proof (numbered_u64 _ Hm) as Hj64. pose proof (numbered_pos _ Hm) as Hj0. cbn [fst] in Hj64, Hj0.
  assert (Hne : 0 <> j) by lia. rewrite bind_cons. unfold parseChannelMessagesWithLimitSize, msg_entries at 1. cbn [fst snd].
  rewrite (parse_next _ _ _ _ _ _ _ _ _ _ Hj64 (not_eq_sym Hne) Hne (cells_some m) (numbered_row _ _ Hm)). cbv zeta.
  cbn [Z.eqb]. rewrite parse_msgs; [done|done|lia|exact Hj|done].
Qed.
End Sized.
End Reading.
