(* ===== verification/WkMessagesRep.v ===== *)
(** * The messages that a store holds

    A channel has its messages by number and the last number ([chanlog]).  [holds m h a]:
    the store [m] has the rows and the last number of the channel with the hash [h]; no
    write elsewhere changes that ([holds_frame]), writing a message adds it
    ([holds_message]), and a range of keys is the messages with these numbers
    ([scan_messages]). *)

From Stdlib Require Import Strings.Byte Sorting.Sorted.
From stdpp Require Import sorting.
From S2P Require Import Prelude ZTables RaftTypes WkProto KeyBytes WkTables WkKey WkKeyLaws WkKv.
From S2P Require Import WkPermission WkMembers WkMembersLaws WkModel WkMessages WkMessageDB WkMessagesLaws.

#[local] Arguments be_bytes : simpl never.

(** ** Writes under a prefix *)

(** All keys that a write changes start with [p]. *)
Definition under (p : bytes) (w : wop) : Prop :=
  match w with
  | WSet k _ | WDelete k => exists r, k = p ++ r
  | WDeleteRange lower upper => forall k, in_range lower upper k -> exists r, k = p ++ r
  end.

Lemma under_frame p ws m k : Forall (under p) ws -> (forall r, k <> p ++ r) -> apply_wops m ws !! k = m !! k.
Proof.
  intros Hws Hk. revert m. induction Hws as [|w ws Hw _ IH]; intros m; [done|]. rewrite apply_wops_cons, IH.
  destruct w as [k' v|k'|lower upper].
  - destruct Hw as [r ->]. apply lookup_insert_ne. intros E. by apply (Hk r).
  - destruct Hw as [r ->]. apply lookup_delete_ne. intros E. by apply (Hk r).
  - rewrite range_lookup. destruct (decide _) as [[r E]%Hw|]; [|done]. by apply Hk in E.
Qed.

(** A write to a kind of entries of a table. *)
Definition of_kind (id : name2) (kind : dataType) (w : wop) : Prop := under (prefix4 id kind) w.

Section Reps.
Context {R : RecvPackets}.
Implicit Types (m : kvmap) (mg : Msg) (h : Z).

Abbreviation TM := TableMessage.
Definition rows_of h : bytes := prefix4 (t_Id TM) dataTypeTable ++ be_bytes 8 h.
Definition last_key h : bytes := prefix4 (t_Id TM) dataTypeOther ++ be_bytes 8 h.

Lemma row_under h i c : row TM h i c = rows_of h ++ be_bytes 8 i ++ [c.1; c.2].
Proof. unfold rows_of. by rewrite row_eq, <-app_assoc. Qed.
Lemma rows_not_last h r h' : rows_of h ++ r <> last_key h'.
Proof. unfold rows_of, last_key. rewrite <-app_assoc. by intros (_ & ? & _)%prefix4_inj. Qed.
Lemma rows_apart_owner h r h' r' : is_u64 h -> is_u64 h' -> rows_of h ++ r = rows_of h' ++ r' -> h = h'.
Proof.
  intros Hh Hh'. unfold rows_of. rewrite <-!app_assoc. intros E%app_inv_head.
  apply app_inj_1 in E as [E _]; [|by rewrite !be_bytes_length]. by apply (be_bytes_inj 8) in E.
Qed.
Lemma last_key_inj h h' : is_u64 h -> is_u64 h' -> last_key h = last_key h' -> h = h'.
Proof. intros Hh Hh' E%app_inv_head. by apply (be_bytes_inj 8) in E. Qed.

(** ** Cells *)

Definition cells_map mg : gmap name2 bytes := list_to_map (msg_cells mg).
(** A message written over another: it stays for the search. *)
Definition merged mg (old : option Msg) : Msg :=
  match old with
  | Some o => {| mg with m_SearchOutbox := m_SearchOutbox mg || m_SearchOutbox o |}
  | None => mg
  end.

Definition msg_columns : list name2 := (msg_cells EmptyMsg).*1.
Definition base_cells mg : list (name2 * bytes) := take 14 (msg_cells mg).
Definition flag_cells (b : bool) : list (name2 * bytes) := if b then [(col "SearchOutbox", [x01])] else [].

Lemma cells_split mg : msg_cells mg = base_cells mg ++ flag_cells (m_SearchOutbox mg).
Proof. reflexivity. Qed.
Lemma base_columns mg : (base_cells mg).*1 = msg_columns.
Proof. reflexivity. Qed.
Lemma columns_NoDup : NoDup (msg_columns ++ [col "SearchOutbox"]).
Proof. apply (bool_decide_unpack _). by vm_compute. Qed.
Lemma cells_NoDup mg : NoDup (msg_cells mg).*1.
Proof.
  rewrite cells_split, fmap_app, base_columns. pose proof columns_NoDup as H. destruct (m_SearchOutbox mg); [done|].
  cbn [flag_cells fmap list_fmap]. rewrite app_nil_r. by apply NoDup_app in H as [H _].
Qed.
Lemma cells_elem mg c v : cells_map mg !! c = Some v <-> (c, v) ∈ msg_cells mg.
Proof. symmetry. apply elem_of_list_to_map, cells_NoDup. Qed.
Lemma base_lookup mg c : (list_to_map (base_cells mg) : gmap name2 bytes) !! c = None <-> c ∉ msg_columns.
Proof. by rewrite <-(base_columns mg), not_elem_of_list_to_map. Qed.

(** The columns of the new message replace those of the old one. *)
Lemma merged_cells mg o c : cells_map (merged mg (Some o)) !! c = union_with (fun v _ => Some v) (cells_map mg !! c) (cells_map o !! c).
Proof.
  unfold cells_map. rewrite !cells_split, !list_to_map_app, !lookup_union.
  change (base_cells (merged mg (Some o))) with (base_cells mg). cbn [merged m_SearchOutbox].
  destruct (list_to_map (base_cells mg) !! c) as [v|] eqn:E1.
  { destruct (list_to_map (flag_cells (_ || _)) !! c), (list_to_map (flag_cells (m_SearchOutbox mg)) !! c);
      cbn; by destruct (_ ∪ _). }
  apply base_lookup in E1. rewrite (proj2 (base_lookup o c) E1).
  destruct (m_SearchOutbox mg), (m_SearchOutbox o); cbn [orb flag_cells];
    by destruct ((list_to_map [(col "SearchOutbox", [x01])] : gmap name2 bytes) !! c).
Qed.

(** ** What a store holds *)

(** A channel: its messages by number, the number of the last one, and the number after
    which the search starts, if it has started. *)
Record chanlog := mkChanlog { cl_msgs : gmap Z Msg; cl_last : Z; cl_floor : option Z }.
Implicit Types a : chanlog.

Record chan_fits a : Prop := {
  cf_msgs i mg : cl_msgs a !! i = Some mg -> numbered (i, mg);
  cf_last : 0 <= cl_last a < MaxUint64
}.
Lemma last_u64 a : chan_fits a -> is_u64 (cl_last a).
Proof. intros [_ H]. unfold is_u64, MaxUint64 in *. lia. Qed.

(** The last number with some time. *)
Definition last_bytes (v : bytes) (z : Z) : Prop := exists now, v = seq_bytes z now.
Definition last_value (v : option bytes) (z : Z) : Prop :=
  match v with
  | Some v => last_bytes v z
  | None => z = 0
  end.

Record holds m h a : Prop := {
  ho_row i c : is_u64 i -> m !! row TM h i c = cl_msgs a !! i ≫= (fun mg => cells_map mg !! c);
  ho_only r v : m !! (rows_of h ++ r) = Some v -> exists i (c : name2), is_u64 i /\ r = be_bytes 8 i ++ [c.1; c.2];
  ho_last : last_value (m !! last_key h) (cl_last a)
}.

Lemma holds_same m m' h a : (forall r, m' !! (rows_of h ++ r) = m !! (rows_of h ++ r)) -> m' !! last_key h = m !! last_key h ->
  holds m h a -> holds m' h a.
Proof.
  intros Hr Hl [H1 H2 H3]. split.
  - intros i c Hi. by rewrite row_under, Hr, <-row_under, (H1 i c Hi).
  - intros r v. rewrite Hr. apply H2.
  - by rewrite Hl.
Qed.

(** A write to other kinds of entries. *)
Definition elsewhere (w : wop) : Prop := exists id kind,
  (id, kind) <> (t_Id TM, dataTypeTable) /\ (id, kind) <> (t_Id TM, dataTypeOther) /\ of_kind id kind w.

Lemma holds_frame m h a ws : Forall elsewhere ws -> holds m h a -> holds (apply_wops m ws) h a.
Proof.
  intros Hws. revert m. induction Hws as [|w ws (id & kind & H1 & H2 & Hw) _ IH]; intros m Hm; [done|].
  rewrite apply_wops_cons. apply IH. revert Hm. change (apply_wop m w) with (apply_wops m [w]).
  apply holds_same; [intros r|]; apply (under_frame (prefix4 id kind)); try by apply Forall_singleton.
  - intros x. unfold rows_of. rewrite <-app_assoc. intros (<- & <- & _)%prefix4_inj. done.
  - intros x. unfold last_key. intros (<- & <- & _)%prefix4_inj. done.
Qed.
(** Another channel. *)
Lemma holds_other_rows m h h' a ws : is_u64 h -> is_u64 h' -> h <> h' ->
  Forall (under (rows_of h')) ws -> holds m h a -> holds (apply_wops m ws) h a.
Proof.
  intros Hh Hh' Hne Hws. apply holds_same; [intros r|]; apply (under_frame (rows_of h')); try done.
  intros x E. by apply rows_apart_owner in E.
Qed.
Lemma holds_other_last m h h' a v : is_u64 h -> is_u64 h' -> h <> h' ->
  holds m h a -> holds (apply_wop m (WSet (last_key h') v)) h a.
Proof.
  intros Hh Hh' Hne. apply holds_same; [intros r|]; apply lookup_insert_ne.
  - intros E. symmetry in E. by apply rows_not_last in E.
  - intros E%last_key_inj; [by symmetry in E|done|done].
Qed.

(** *** Writing the last number *)

Lemma holds_last m h a z now : holds m h a -> holds (apply_wop m (WSet (last_key h) (seq_bytes z now))) h {| a with cl_last := z |}.
Proof.
  intros [H1 H2 H3]. split; cbn [cl_msgs cl_last apply_wop].
  - intros i c Hi. rewrite lookup_insert_ne; [by apply H1|]. rewrite row_under. intros E. symmetry in E. by apply rows_not_last in E.
  - intros r v. rewrite lookup_insert_ne; [apply H2|]. intros E. symmetry in E. by apply rows_not_last in E.
  - rewrite lookup_insert_eq. by exists now.
Qed.

(** *** Writing a message *)

Definition cell_set h i (cv : name2 * bytes) : wop := WSet (row TM h i cv.1) cv.2.
Lemma cell_set_under h i cells : Forall (under (rows_of h)) (cell_set h i <$> cells).
Proof. apply Forall_fmap, Forall_true. intros [c v]. eexists. apply row_under. Qed.

Lemma cell_sets_row m h i cells j c : is_u64 i -> is_u64 j -> NoDup cells.*1 ->
  apply_wops m (cell_set h i <$> cells) !! row TM h j c =
  if decide (i = j) then union_with (fun v _ => Some v) ((list_to_map cells : gmap name2 bytes) !! c) (m !! row TM h j c)
  else m !! row TM h j c.
Proof.
  intros Hi Hj. revert m. induction cells as [|[d v] cells IH]; intros m Hnd.
  { cbn. rewrite lookup_empty. case_decide; [|done]. by destruct (m !! _). }
  rewrite fmap_cons, apply_wops_cons. rewrite fmap_cons in Hnd. apply NoDup_cons in Hnd as [Hd Hnd].
  rewrite (IH _ Hnd). cbn [list_to_map foldr fst snd uncurry cell_set apply_wop] in *.
  destruct (decide (row TM h i d = row TM h j c)) as [E|Hne].
  - pose proof E as [-> ->]%rows_apart; [|done|done]. rewrite !decide_True by done. rewrite !lookup_insert_eq.
    rewrite (not_elem_of_list_to_map_1 (M := gmap name2) cells c) by done. by destruct (m !! _).
  - rewrite lookup_insert_ne by done. case_decide as Hij; [|done]. subst j. rewrite lookup_insert_ne; [done|]. by intros ->.
Qed.
Lemma cell_sets_only m h i cells r v : is_u64 i ->
  apply_wops m (cell_set h i <$> cells) !! (rows_of h ++ r) = Some v ->
  is_Some (m !! (rows_of h ++ r)) \/ exists c : name2, r = be_bytes 8 i ++ [c.1; c.2].
Proof.
  intros Hi. revert m. induction cells as [|[d w] cells IH]; intros m; [eauto|].
  rewrite fmap_cons, apply_wops_cons. intros [[x Hx]|?]%IH; [|by right].
  cbn [cell_set apply_wop fst snd] in Hx. apply lookup_insert_Some in Hx as [[E _]|[_ ?]]; [|eauto].
  right. exists d. rewrite row_under in E. by apply app_inv_head in E.
Qed.

Definition put_msg a mg : chanlog :=
  {| a with cl_msgs := <[m_MessageSeq mg := merged mg (cl_msgs a !! m_MessageSeq mg)]> (cl_msgs a) |}.

Lemma merged_fits mg old : msg_fits mg -> msg_fits (merged mg old).
Proof. destruct old; [|done]. by intros []; split. Qed.
Lemma put_msg_fits a mg : chan_fits a -> msg_fits mg -> chan_fits (put_msg a mg).
Proof.
  intros [H1 H2] Hm. split; cbn [put_msg cl_msgs cl_last]; [|done]. intros i mg' [[<- <-]|[_ ?]]%lookup_insert_Some; [|auto].
  split; cbn [fst snd]; [by destruct (_ !! _)|by apply merged_fits].
Qed.

Lemma holds_message m h a mg cells : msg_fits mg -> cells ≡ₚ msg_cells mg ->
  holds m h a -> holds (apply_wops m (cell_set h (m_MessageSeq mg) <$> cells)) h (put_msg a mg).
Proof.
  intros Hm Hp [H1 H2 H3]. assert (Hs : is_u64 (m_MessageSeq mg)) by (pose proof (mf_seq _ Hm); unfold is_u64; lia).
  assert (Hnd : NoDup cells.*1) by (rewrite Hp; apply cells_NoDup). split; cbn [put_msg cl_msgs cl_last].
  - intros i c Hi. rewrite cell_sets_row by done. rewrite (H1 i c Hi).
    rewrite (list_to_map_proper (M := gmap name2) cells (msg_cells mg)) by done. case_decide as E.
    + subst i. rewrite lookup_insert_eq. cbn [mbind option_bind]. destruct (cl_msgs a !! m_MessageSeq mg) as [o|].
      * by rewrite merged_cells.
      * cbn [merged mbind option_bind]. fold (cells_map mg). by destruct (cells_map mg !! c).
    + by rewrite lookup_insert_ne.
  - intros r v Hv. apply cell_sets_only in Hv as [[x Hx]|[c ->]]; [by eapply H2|by exists (m_MessageSeq mg), c|done].
  - rewrite (under_frame (rows_of h)); [done|apply cell_set_under|]. intros r E. symmetry in E. by apply rows_not_last in E.
Qed.

(** *** The writes of a message *)

(** The columns in the order of their writes. *)
Definition written_cells mg : list (name2 * bytes) :=
  take 6 (msg_cells mg) ++ [(col "StreamNo", str_bytes (m_StreamNo mg))] ++ take 7 (drop 6 (msg_cells mg)) ++
  flag_cells (m_SearchOutbox mg).
Lemma written_perm mg : written_cells mg ≡ₚ msg_cells mg.
Proof.
  unfold written_cells. rewrite cells_split. unfold base_cells. rewrite <-(take_drop 6 (take 14 _)).
  rewrite take_take, skipn_firstn_comm. cbn [Nat.min Nat.sub]. rewrite <-!app_assoc. apply Permutation_app; [done|].
  rewrite !app_assoc. apply Permutation_app; [|done]. cbn [app take drop msg_cells]. solve_Permutation.
Qed.

(** The indexes by sender, id, client number and time. *)
Definition second_entry (kind : dataType) (n : name2) (v : Z) (primary : bytes) : bytes :=
  prefix4 (t_Id TM) kind ++ [n.1; n.2] ++ be_bytes 8 v ++ primary.
Definition msg_primary h i : bytes := be_bytes 8 h ++ be_bytes 8 i.
Definition index_sets h mg : list wop :=
  let primary := msg_primary h (m_MessageSeq mg) in
  [WSet (second_entry dataTypeSecondIndex (secondIndex TM "FromUid") (HashWithString (m_FromUID mg)) primary) [];
   WSet (second_entry dataTypeIndex (index TM "MessageId") (u64 (m_MessageID mg)) []) primary;
   WSet (second_entry dataTypeSecondIndex (secondIndex TM "ClientMsgNo") (HashWithString (m_ClientMsgNo mg)) primary) [];
   WSet (second_entry dataTypeIndex (secondIndex TM "Timestamp") (u64 (m_Timestamp mg)) primary) []].

Lemma index_keys u no i ts h seq :
  NewMessageSecondIndexFromUidKey u (msg_primary h seq) =
    Ok (second_entry dataTypeSecondIndex (secondIndex TM "FromUid") (HashWithString u) (msg_primary h seq)) /\
  NewMessageIndexMessageIdKey i = Ok (second_entry dataTypeIndex (index TM "MessageId") i []) /\
  NewMessageSecondIndexClientMsgNoKey no (msg_primary h seq) =
    Ok (second_entry dataTypeSecondIndex (secondIndex TM "ClientMsgNo") (HashWithString no) (msg_primary h seq)) /\
  NewMessageIndexTimestampKey ts (msg_primary h seq) =
    Ok (second_entry dataTypeIndex (secondIndex TM "Timestamp") ts (msg_primary h seq)).
Proof. split_and!; reflexivity. Qed.
Lemma column_key c t i d : NewMessageColumnKey c t i d = Ok (row TM (ChannelToNum c t) i d).
Proof. reflexivity. Qed.
Lemma primary_key c t i : NewMessagePrimaryKey c t i = Ok (rows_of (ChannelToNum c t) ++ be_bytes 8 i).
Proof. reflexivity. Qed.
Lemma last_key_eq c t : NewChannelLastMessageSeqKey c t = Ok (last_key (ChannelToNum c t)).
Proof. reflexivity. Qed.

Lemma column_set c t i d v : (let! k := NewMessageColumnKey c t i d in Ok (WSet k v)) = Ok (cell_set (ChannelToNum c t) i (d, v)).
Proof. by rewrite column_key. Qed.
Lemma writeMessage_eq c t mg : writeMessage c t mg =
  Ok ((cell_set (ChannelToNum c t) (m_MessageSeq mg) <$> written_cells mg) ++ index_sets (ChannelToNum c t) mg).
Proof.
  unfold writeMessage. cbv zeta. rewrite !column_set. cbn [res_bind].
  destruct (index_keys (m_FromUID mg) (m_ClientMsgNo mg) (u64 (m_MessageID mg)) (u64 (m_Timestamp mg)) (ChannelToNum c t) (m_MessageSeq mg))
    as (E1 & E2 & E3 & E4). unfold msg_primary in *. destruct (m_SearchOutbox mg) eqn:Eo; cbn [res_bind];
    rewrite E1, E2, E3, E4; cbn [res_bind]; unfold written_cells, index_sets, msg_cells; by rewrite Eo.
Qed.

Lemma second_entry_elsewhere kind n v p x : kind <> dataTypeTable -> kind <> dataTypeOther -> elsewhere (WSet (second_entry kind n v p) x).
Proof. intros H1 H2. exists (t_Id TM), kind. split_and!; [congruence|congruence|by eexists]. Qed.
Lemma index_sets_elsewhere h mg : Forall elsewhere (index_sets h mg).
Proof. unfold index_sets. repeat (apply Forall_cons_2; [apply second_entry_elsewhere; discriminate|]). apply Forall_nil_2. Qed.

(** *** Truncation *)

Definition cut_msgs a (seq : Z) : chanlog := {| a with cl_msgs := filter (fun p => p.1 <= seq) (cl_msgs a) |}.
Lemma cut_msgs_fits a seq : chan_fits a -> chan_fits (cut_msgs a seq).
Proof. intros [H1 H2]. split; [|done]. intros i mg [Hi _]%map_lookup_filter_Some. by apply H1. Qed.

Definition truncate_op h seq : wop := WDeleteRange (rows_of h ++ be_bytes 8 (seq + 1)) (rows_of h ++ be_bytes 8 MaxUint64).
Lemma truncate_under h seq : under (rows_of h) (truncate_op h seq).
Proof. intros k (r & -> & _)%range_prefix. by exists r. Qed.

Lemma rows_range h i j k c : is_u64 h -> is_u64 i -> is_u64 j -> is_u64 k ->
  in_range (rows_of h ++ be_bytes 8 i) (rows_of h ++ be_bytes 8 j) (row TM h k c) <-> i <= k < j.
Proof. intros Hh Hi Hj Hk. unfold rows_of. rewrite <-!app_assoc, primary_range by done. naive_solver. Qed.

Lemma holds_truncate m h a seq : is_u64 h -> 0 <= seq < MaxUint64 -> chan_fits a -> holds m h a ->
  holds (apply_wop m (truncate_op h seq)) h (cut_msgs a seq).
Proof.
  intros Hh Hs Ha [H1 H2 H3]. assert (Hu : is_u64 (seq + 1)) by (unfold is_u64, MaxUint64 in *; lia). unfold truncate_op. split; cbn [cut_msgs cl_msgs cl_last].
  - intros i c Hi. rewrite range_lookup. destruct (decide _) as [Hr|Hr].
    + apply rows_range in Hr; [|done|done|auto with go_ints|done]. rewrite (map_lookup_filter_None_2 _ _ i); [done|].
      right. intros x _ Hx. cbn in Hx. lia.
    + rewrite (H1 i c Hi). destruct (cl_msgs a !! i) as [mg|] eqn:Em.
      * rewrite (map_lookup_filter_Some_2 _ _ i mg); [done|done|]. cbn [fst]. apply (cf_msgs a Ha) in Em as [E Hm%mf_seq]. cbn [fst snd] in E, Hm.
        destruct (decide (i <= seq)); [done|]. destruct Hr. apply rows_range; [done|done|auto with go_ints|done|]. unfold MaxUint64. lia.
      * rewrite (map_lookup_filter_None_2 _ _ i); [done|by left].
  - intros r v. rewrite range_lookup. destruct (decide _); [done|apply H2].
  - rewrite range_lookup. destruct (decide _) as [(r & E & _)%range_prefix|]; [|done]. symmetry in E. by apply rows_not_last in E.
Qed.

(** ** Scans *)

Lemma columns_sorted mg : StronglySorted (fun p q : name2 * bytes => bcompare [p.1.1; p.1.2] [q.1.1; q.1.2] = Lt) (msg_cells mg).
Proof.
  unfold msg_cells. destruct (m_SearchOutbox mg); cbn [app]; repeat constructor; by vm_compute.
Qed.
Lemma msg_entries_sorted h i mg : is_u64 i -> StronglySorted key_lt (msg_entries h (i, mg)).
Proof.
  intros Hi. unfold msg_entries. cbn [fst snd]. induction (columns_sorted mg) as [|p l _ IH Hp]; [constructor|].
  rewrite fmap_cons. constructor; [done|]. apply Forall_fmap. eapply Forall_impl; [exact Hp|]. intros q Hq. apply rows_lt; auto.
Qed.
Lemma msg_entries_elem h p k v : (k, v) ∈ msg_entries h p <-> exists c, k = row TM h p.1 c /\ cells_map p.2 !! c = Some v.
Proof.
  unfold msg_entries. rewrite list_elem_of_fmap. split.
  - intros ([c w] & [= -> ->] & Hin). exists c. split; [done|]. by apply cells_elem.
  - intros (c & -> & Hc%cells_elem). by exists (c, v).
Qed.
Lemma all_entries_sorted h ps : Forall numbered ps -> StronglySorted (fun p q => p.1 < q.1) ps -> StronglySorted key_lt (ps ≫= msg_entries h).
Proof.
  intros Hps Hs. induction Hs as [|[i mg] ps Hs IH Hlt]; [constructor|].
  apply Forall_cons in Hps as [Hm%numbered_u64 Hps]. rewrite bind_cons.
  apply StronglySorted_app_2; [|by apply msg_entries_sorted|by apply IH].
  intros [k1 v1] [k2 v2] (c1 & -> & _)%msg_entries_elem ([j mg'] & (c2 & -> & _)%msg_entries_elem & Hin)%list_elem_of_bind.
  rewrite Forall_forall in Hps, Hlt. apply rows_lt; [done|by apply numbered_u64, Hps|left; by apply (Hlt _ Hin)].
Qed.

Section Scan.
Context {DB : Type} {P : Pebble DB} {PL : PebbleLaws DB}.

Lemma range_numbered a lo hi : chan_fits a -> Forall numbered (range_of (cl_msgs a) lo hi).
Proof. intros Ha. apply Forall_forall. intros [i mg] [_ Hi]%range_elem. by apply (cf_msgs a Ha). Qed.

Lemma scan_messages db h a lo hi : is_u64 h -> is_u64 lo -> is_u64 hi -> chan_fits a -> holds (kv_map db) h a ->
  kv_iter db (rows_of h ++ be_bytes 8 lo) (rows_of h ++ be_bytes 8 hi) = range_of (cl_msgs a) lo hi ≫= msg_entries h.
Proof.
  intros Hh Hlo Hhi Ha [H1 H2 _].
  pose proof (all_entries_sorted h _ (range_numbered a lo hi Ha) (range_sorted _ lo hi)) as Hs.
  apply iter_is; [exact Hs|]. intros k v. rewrite list_elem_of_bind. split.
  - intros [Hr Hv]. pose proof Hr as (r & -> & _)%range_prefix. pose proof Hv as (i & c & Hi & ->)%H2.
    rewrite <-row_under in Hr, Hv |- *. apply rows_range in Hr; [|done..]. rewrite (H1 i c Hi) in Hv.
    destruct (cl_msgs a !! i) as [mg|] eqn:Em; [|done]. exists (i, mg). split; [by apply msg_entries_elem; eauto|]. by apply range_elem.
  - intros ([i mg] & (c & -> & Hc)%msg_entries_elem & [Hi Hmg]%range_elem). cbn [fst snd] in *.
    pose proof (numbered_u64 _ (cf_msgs a Ha _ _ Hmg)) as Hu. cbn [fst] in Hu.
    rewrite (H1 i c Hu), Hmg. split; [by apply rows_range|done].
Qed.
End Scan.
End Reps.
