(* ===== verification/WkMessagesRefine.v ===== *)
(** * The operations on the messages

    [Rep A d]: the database [d] has the channels [A], and its cache of last numbers is
    right.  [wp op Q d]: the operation returns, with [Q].  Every operation leaves a
    database that has the channels of the abstract one; it reports an error only for
    arguments that are refused, or when a store fails. *)

From Stdlib Require Import Strings.Byte Strings.Ascii Sorting.Sorted.
From S2P Require Import Prelude ZTables RaftTypes WkProto KeyBytes WkTables WkKey WkKeyLaws WkKv.
From S2P Require Import WkPermission WkMembers WkMembersLaws WkMembersCache WkMembersRefine WkModel WkMessages WkMessageDB WkMessagesLaws WkMessagesRep.

#[local] Arguments be_bytes : simpl never.

(** ** The tasks for the search *)

(** The values of the outbox: the number it starts with, and the state of a task. *)
Definition state_ok (v : bytes) : Prop :=
  exists s e, is_u8 s /\ 1 <= s <= 3 /\ 0 < e < two64 /\ v = [x01; byte_of_Z s] ++ be_bytes 8 e.
Definition floor_zone : bytes := prefix4 (t_Id TableSearchOutbox) dataTypeOther.
Definition state_zone : bytes := prefix4 (t_Id TableSearchOutboxState) dataTypeTable.
Record outbox_ok (m : kvmap) : Prop := {
  ob_floor r v : m !! (floor_zone ++ r) = Some v -> length v = 8%nat;
  ob_state r v : m !! (state_zone ++ r) = Some v -> state_ok v
}.
(** The tables that the messages use; [aside]: how many shards there are and what each has in
    the other tables, which no operation on messages changes. *)
Definition msg_tables : list name2 := [t_Id TableMessage; t_Id TableSearchOutbox; t_Id TableSearchOutboxState].
Definition in_tables (w : wop) : Prop := exists id kind, id ∈ msg_tables /\ of_kind id kind w.
Class Aside := mkAside { shards : nat; aside : nat -> kvmap }.
Definition same_aside (m m' : kvmap) : Prop :=
  forall id kind r, id ∉ msg_tables -> m !! (prefix4 id kind ++ r) = m' !! (prefix4 id kind ++ r).

Lemma aside_kept ws m m' : Forall in_tables ws -> same_aside m m' -> same_aside (apply_wops m ws) m'.
Proof.
  intros Hws Hm id kind r Hid. rewrite <-Hm by done. clear Hm. revert m. induction Hws as [|w ws (id' & kind' & Hin & Hw) _ IH]; intros m; [done|].
  rewrite apply_wops_cons, IH. change (apply_wop m w) with (apply_wops m [w]). apply (under_frame (prefix4 id' kind')).
  - by apply Forall_singleton.
  - intros x (-> & _)%prefix4_inj. done.
Qed.

(** A write that keeps the values so, and these tables. *)
Definition outbox_write (w : wop) : Prop := in_tables w /\
  match w with
  | WSet k v => (forall r, k = floor_zone ++ r -> length v = 8%nat) /\ (forall r, k = state_zone ++ r -> state_ok v)
  | _ => True
  end.

Lemma outbox_kept ws m : Forall outbox_write ws -> outbox_ok m -> outbox_ok (apply_wops m ws).
Proof.
  intros Hws. revert m. induction Hws as [|w ws Hw _ IH]; intros m Hm; [done|]. apply IH. destruct Hm as [H1 H2].
  destruct w as [k x|k|lo hi]; cbn [apply_wop].
  - destruct Hw as (_ & Hf & Hs). split; intros r v [[-> ->]|[_ ?]]%lookup_insert_Some; eauto.
  - split; intros r v [_ ?]%lookup_delete_Some; eauto.
  - split; intros r v; rewrite filter_lookup; destruct (decide _); try done; eauto.
Qed.

(** *** Where the search of a channel starts *)

Definition floor_key (c : string) (t : Z) : bytes := floor_zone ++ outbox_channel c t.
Definition floor_in (m : kvmap) (c : string) (t : Z) : option Z :=
  if IsValidSearchOutboxChannelIdentity c t then be_val <$> m !! floor_key c t else None.

(** A write that leaves all of them, and one that leaves those of other channels. *)
Definition floor_free (w : wop) : Prop := exists id kind, (id, kind) <> (t_Id TableSearchOutbox, dataTypeOther) /\ of_kind id kind w.
Definition floor_write (c : string) (t : Z) (w : wop) : Prop :=
  floor_free w \/ (exists v, w = WSet (floor_key c t) v) \/ w = WDelete (floor_key c t).

Lemma floor_free_lookup w m r : floor_free w -> apply_wop m w !! (floor_zone ++ r) = m !! (floor_zone ++ r).
Proof.
  intros (id & kind & Hne & Hw). change (apply_wop m w) with (apply_wops m [w]). apply (under_frame (prefix4 id kind)); [by apply Forall_singleton|].
  intros x (<- & <- & _)%prefix4_inj. done.
Qed.
Lemma floor_other ws m c t c' t' : is_u8 t -> is_u8 t' -> IsValidSearchOutboxChannelIdentity c t = true -> (c', t') <> (c, t) ->
  Forall (floor_write c t) ws -> floor_in (apply_wops m ws) c' t' = floor_in m c' t'.
Proof.
  intros Ht Ht' Hv Hne Hws. unfold floor_in. destruct (IsValidSearchOutboxChannelIdentity c' t') eqn:Hv'; [|done]. f_equal.
  assert (Hk : floor_key c t <> floor_key c' t').
  { intros E%app_inv_head. destruct (valid_identity _ _ Hv) as (_ & _ & _ & Hl), (valid_identity _ _ Hv') as (_ & _ & _ & Hl').
    destruct (outbox_channel_inj c t c' t' [] []) as (-> & -> & _); [done|done|done|done|by rewrite !app_nil_r|done]. }
  revert m. induction Hws as [|w ws Hw _ IH]; intros m; [done|]. rewrite apply_wops_cons, IH.
  destruct Hw as [Hw|[[v ->]| ->]]; [by apply floor_free_lookup|by apply lookup_insert_ne|by apply lookup_delete_ne].
Qed.

(** A batch that takes it from [f] to [f']. *)
Record floor_batch (c : string) (t : Z) (f f' : option Z) (ws : list wop) : Prop := {
  fb_write : Forall (floor_write c t) ws;
  fb_valid : Forall floor_free ws \/ IsValidSearchOutboxChannelIdentity c t = true;
  fb_floor m : floor_in m c t = f -> floor_in (apply_wops m ws) c t = f'
}.
Lemma floor_same c t f ws : Forall floor_free ws -> floor_batch c t f f ws.
Proof.
  intros Hws. split; [eapply Forall_impl; [exact Hws|]; by left|by left|]. intros m <-. unfold floor_in. destruct (IsValidSearchOutboxChannelIdentity c t); [|done].
  f_equal. revert m. induction Hws as [|w ws Hw _ IH]; intros m; [done|]. rewrite apply_wops_cons, IH. by apply floor_free_lookup.
Qed.
Lemma floor_app c t f f1 f2 ws ws' : floor_batch c t f f1 ws -> floor_batch c t f1 f2 ws' -> floor_batch c t f f2 (ws ++ ws').
Proof.
  intros [H1 H2 H3] [H4 H5 H6]. split; [by apply Forall_app_2| |intros m Hm; rewrite apply_wops_app; auto].
  destruct H2, H5; auto. left. by apply Forall_app_2.
Qed.
Lemma floor_kept_other ws m c t f f' c' t' : is_u8 t -> is_u8 t' -> (c', t') <> (c, t) -> floor_batch c t f f' ws ->
  floor_in (apply_wops m ws) c' t' = floor_in m c' t'.
Proof.
  intros Ht Ht' Hne [H1 [H2|H2] _]; [|by apply (floor_other ws m c t)]. by apply (fb_floor _ _ _ _ _ (floor_same c' t' (floor_in m c' t') ws H2)).
Qed.
Lemma floor_set c t f z : IsValidSearchOutboxChannelIdentity c t = true -> is_u64 z ->
  floor_batch c t f (Some z) [WSet (floor_key c t) (be_bytes 8 z)].
Proof.
  intros Hv Hz. split; [apply Forall_singleton; right; left; by eexists|by right|]. intros m _. unfold floor_in. rewrite Hv.
  cbn [apply_wops foldl apply_wop]. rewrite lookup_insert_eq. cbn. f_equal. by apply (be_val_bytes 8).
Qed.
Lemma floor_delete c t f : IsValidSearchOutboxChannelIdentity c t = true -> floor_batch c t f None [WDelete (floor_key c t)].
Proof.
  intros Hv. split; [apply Forall_singleton; by right; right|by right|]. intros m _. unfold floor_in. rewrite Hv.
  cbn [apply_wops foldl apply_wop]. by rewrite lookup_delete_eq.
Qed.

(** Writes to entries of another kind. *)
Lemma outbox_write_kind id kind r v :
  id ∈ msg_tables -> (id, kind) <> (t_Id TableSearchOutbox, dataTypeOther) -> (id, kind) <> (t_Id TableSearchOutboxState, dataTypeTable) ->
  outbox_write (WSet (prefix4 id kind ++ r) v).
Proof. intros Hi H1 H2. split; [exists id, kind; split; [done|by eexists]|]. split; intros x (-> & -> & _)%prefix4_inj; done. Qed.
Lemma outbox_tables w : outbox_write w -> in_tables w.
Proof. by intros []. Qed.
Lemma tm_table : t_Id TableMessage ∈ msg_tables.
Proof. by left. Qed.
Lemma outbox_table : t_Id TableSearchOutbox ∈ msg_tables.
Proof. by right; left. Qed.
Lemma state_table : t_Id TableSearchOutboxState ∈ msg_tables.
Proof. by right; right; left. Qed.
#[local] Hint Resolve tm_table outbox_table state_table : core.

(** ** Channels *)

(** The channels in use have different hashes. *)
Class MsgChannels := {
  IsChan : string -> Z -> Prop;
  ischan_type c t : IsChan c t -> is_u8 t;
  ischan_inj c t c' t' : IsChan c t -> IsChan c' t' -> ChannelToNum c t = ChannelToNum c' t' -> c = c' /\ t = t'
}.

Lemma hash_range c t : is_u64 (ChannelToNum c t).
Proof. apply channelToNum_range. Qed.

Lemma ChannelToKey_inj c t c' t' : is_u8 t -> is_u8 t' -> ChannelToKey c t = ChannelToKey c' t' -> c = c' /\ t = t'.
Proof.
  intros Ht Ht'. unfold ChannelToKey. intros [E ->]%(sep_split "&"); [|by apply FormatInt_without..].
  split; [done|]. by apply FormatInt_inj.
Qed.

(** ** Batches *)

Section Batches.
Context {R : RecvPackets}.

(** A write of an operation on the channel with the hash [h]. *)
Definition chan_write (h : Z) (w : wop) : Prop :=
  under (rows_of h) w \/ (exists v, w = WSet (last_key h) v) \/ elsewhere w.

Lemma batch_other m h h' a ws : is_u64 h -> is_u64 h' -> h <> h' -> Forall (chan_write h') ws -> holds m h a -> holds (apply_wops m ws) h a.
Proof.
  intros Hh Hh' Hne Hws. revert m. induction Hws as [|w ws Hw _ IH]; intros m Hm; [done|]. rewrite apply_wops_cons. apply IH.
  destruct Hw as [Hw|[[v ->]|Hw]].
  - by apply (holds_other_rows m h h' a [w]), Hm; [..|apply Forall_singleton].
  - by apply holds_other_last.
  - by apply (holds_frame m h a [w]), Hm; apply Forall_singleton.
Qed.

Lemma under_rows_outbox h w : under (rows_of h) w -> outbox_write w.
Proof.
  intros Hw. split.
  - exists (t_Id TableMessage), dataTypeTable. split; [done|]. destruct w as [k v|k|lo hi]; unfold of_kind, under in *.
    + destruct Hw as [r ->]. unfold rows_of. rewrite <-app_assoc. by eexists.
    + destruct Hw as [r ->]. unfold rows_of. rewrite <-app_assoc. by eexists.
    + intros k (r & ->)%Hw. unfold rows_of. rewrite <-app_assoc. by eexists.
  - destruct w as [k v| |]; [|done..]. destruct Hw as [r ->]. unfold rows_of. rewrite <-app_assoc. by apply outbox_write_kind.
Qed.
Lemma under_rows_free h w : under (rows_of h) w -> floor_free w.
Proof.
  intros Hw. exists (t_Id TableMessage), dataTypeTable. split; [done|]. destruct w as [k v|k|lo hi]; unfold of_kind, under, rows_of in *.
  - destruct Hw as [r ->]. rewrite <-app_assoc. by eexists.
  - destruct Hw as [r ->]. rewrite <-app_assoc. by eexists.
  - intros k (r & ->)%Hw. rewrite <-app_assoc. by eexists.
Qed.
Lemma last_outbox h v : outbox_write (WSet (last_key h) v).
Proof. by apply outbox_write_kind. Qed.
Lemma last_free h v : floor_free (WSet (last_key h) v).
Proof. exists (t_Id TableMessage), dataTypeOther. split; [done|by eexists]. Qed.
Lemma index_free h mg : Forall floor_free (index_sets h mg).
Proof.
  unfold index_sets, second_entry. repeat (apply Forall_cons_2; [eexists _, _; split; [|by eexists]; done|]). apply Forall_nil_2.
Qed.
Lemma index_outbox h mg : Forall outbox_write (index_sets h mg).
Proof. unfold index_sets, second_entry. repeat (apply Forall_cons_2; [by apply outbox_write_kind|]). apply Forall_nil_2. Qed.
End Batches.

(** ** The database *)

Section Refine.
Context {W : WkProto} {F : Frames} {R : RecvPackets} {RL : RecvPacketsLaws R} {V : MsgViews F R}.
Context {DB : Type} {P : Pebble DB} {PL : PebbleLaws DB} {C : Type} {L : LRU PermissionCacheItem C}.
Context {SC : Type} {LS : LRU bytes SC} {LSL : LRULaws bytes SC} {UC : Type} {LU : LRU Z UC} {MC : MsgChannels} {AS : Aside}.
Abbreviation database := (messageDB (DB := DB) (C := C) (SC := SC) (UC := UC)).
Abbreviation chans := (string * Z -> chanlog).
Implicit Types (d : database) (A : chans).

Definition dbs_of d : list DB := wk_dbs (mg_wk d).
Definition set_chan A (c : string) (t : Z) (a : chanlog) : chans := fun k => if decide (k = (c, t)) then a else A k.
Lemma set_chan_eq A c t a : set_chan A c t a (c, t) = a.
Proof. unfold set_chan. by rewrite decide_True. Qed.

Record store_holds A (dbs : list DB) : Prop := {
  sh_count : (0 < length dbs)%nat /\ Z.of_nat (length dbs) < 2 ^ 32;
  sh_chan c t db : IsChan c t -> dbs !! shard (length dbs) c t = Some db -> holds (kv_map db) (ChannelToNum c t) (A (c, t));
  sh_floor c t db : IsChan c t -> dbs !! shard (length dbs) c t = Some db -> floor_in (kv_map db) c t = cl_floor (A (c, t));
  sh_outbox i db : dbs !! i = Some db -> outbox_ok (kv_map db);
  sh_shards : length dbs = shards;
  sh_aside i db : dbs !! i = Some db -> same_aside (kv_map db) (aside i)
}.
(** A last number in the cache is right. *)
Definition seqs_ok A (sc : SC) : Prop := forall c t v, IsChan c t -> lru_map sc !! ChannelToKey c t = Some v -> last_bytes v (cl_last (A (c, t))).

Record Rep A d : Prop := {
  rep_store : store_holds A (dbs_of d);
  rep_cache : seqs_ok A (mg_channelSeqCache d);
  rep_fits c t : IsChan c t -> chan_fits (A (c, t))
}.

(** A channel in use: its hash, its shard. *)
Definition db_of d (c : string) (t : Z) (db : DB) : Prop := dbs_of d !! shard (length (dbs_of d)) c t = Some db.

Lemma shard_below A dbs c t : store_holds A dbs -> (shard (length dbs) c t < length dbs)%nat.
Proof.
  intros [[Hl Hl'] _ _ _ _ _]. unfold shard.
  pose proof (Z.mod_pos_bound (ChannelToNum c t) (Z.of_nat (length dbs)) ltac:(lia)).
  rewrite u32_small by (unfold is_u32; change (2 ^ 32) with two32 in Hl'; lia). lia.
Qed.

(** A committed batch changes one channel. *)
Lemma commit_holds A dbs c t ws db db' a : IsChan c t -> store_holds A dbs -> dbs !! shard (length dbs) c t = Some db ->
  Forall (chan_write (ChannelToNum c t)) ws -> Forall outbox_write ws -> kv_commit db ws = Some db' ->
  holds (apply_wops (kv_map db) ws) (ChannelToNum c t) a -> floor_batch c t (cl_floor (A (c, t))) (cl_floor a) ws ->
  store_holds (set_chan A c t a) (<[shard (length dbs) c t := db']> dbs).
Proof.
  intros Hc HS Hdb Hw Ho Hcm Ha Hfb. pose proof (kv_commit_law _ _ _ Hcm) as Hm. pose proof (shard_below _ _ c t HS) as Hlt.
  destruct HS as [Hl Hch Hfl Hob Hsh Has]. split.
  - by rewrite length_insert.
  - rewrite length_insert. intros c' t' d Hc' Hd. unfold set_chan. case_decide as Hk.
    + injection Hk as -> ->. rewrite list_lookup_insert_eq in Hd by done. injection Hd as <-. by rewrite Hm.
    + destruct (decide (shard (length dbs) c' t' = shard (length dbs) c t)) as [E|E].
      * rewrite E, list_lookup_insert_eq in Hd by done. injection Hd as <-. rewrite Hm. rewrite <-E in Hdb.
        eapply batch_other; [apply hash_range|apply hash_range| |exact Hw|by apply Hch].
        intros En. apply Hk. by apply ischan_inj in En as [-> ->].
      * rewrite list_lookup_insert_ne in Hd by done. by apply Hch.
  - rewrite length_insert. intros c' t' d Hc' Hd. unfold set_chan. case_decide as Hk.
    + injection Hk as -> ->. rewrite list_lookup_insert_eq in Hd by done. injection Hd as <-. rewrite Hm. by apply (fb_floor _ _ _ _ _ Hfb), Hfl.
    + destruct (decide (shard (length dbs) c' t' = shard (length dbs) c t)) as [E|E].
      * rewrite E, list_lookup_insert_eq in Hd by done. injection Hd as <-. rewrite Hm. rewrite <-E in Hdb.
        rewrite (floor_kept_other ws _ c t _ _ c' t' (ischan_type _ _ Hc) (ischan_type _ _ Hc') Hk Hfb). by apply Hfl.
      * rewrite list_lookup_insert_ne in Hd by done. by apply Hfl.
  - intros i d Hd. destruct (decide (i = shard (length dbs) c t)) as [->|Hi].
    + rewrite list_lookup_insert_eq in Hd by done. injection Hd as <-. rewrite Hm. apply outbox_kept; [done|]. by eapply Hob.
    + rewrite list_lookup_insert_ne in Hd by done. by eapply Hob.
  - by rewrite length_insert.
  - intros i d Hd. destruct (decide (i = shard (length dbs) c t)) as [->|Hi].
    + rewrite list_lookup_insert_eq in Hd by done. injection Hd as <-. rewrite Hm. apply aside_kept; [|by eapply Has].
      eapply Forall_impl; [exact Ho|apply outbox_tables].
    + rewrite list_lookup_insert_ne in Hd by done. by eapply Has.
Qed.

(** *** Operations that return *)

Definition wp {X} (op : Db (DB := DB) (C := C) (SC := SC) (UC := UC) X) (Q : database -> GoError + X -> Prop) d : Prop :=
  exists d' r, op d = Ok (d', r) /\ Q d' r.

Lemma wp_bind {X Y} (op : Db X) (f : X -> Db Y) Q d :
  wp op (fun d' r => match r with inl e => Q d' (inl e) | inr x => wp (f x) Q d' end) d -> wp (db_bind op f) Q d.
Proof.
  intros (d' & r & E & HQ). unfold wp, db_bind. rewrite E. cbn [res_bind]. destruct r as [e|x]; [by eexists _, _|]. done.
Qed.
Lemma wp_ret {X} (x : X) (Q : _ -> _ -> Prop) d : Q d (inr x) -> wp (db_ret x) Q d.
Proof. intros H. by eexists _, _. Qed.
Lemma wp_err {X} e (Q : _ -> GoError + X -> Prop) d : Q d (inl e) -> wp (db_err e) Q d.
Proof. intros H. by eexists _, _. Qed.
Lemma wp_res {X} (r : res X) x (Q : _ -> _ -> Prop) d : r = Ok x -> Q d (inr x) -> wp (db_res r) Q d.
Proof. intros E H. unfold wp, db_res. rewrite E. by eexists _, _. Qed.
Lemma wp_mono {X} (op : Db X) (Q Q' : _ -> _ -> Prop) d : (forall d' r, Q d' r -> Q' d' r) -> wp op Q d -> wp op Q' d.
Proof. intros H (d' & r & E & HQ). eexists _, _. eauto. Qed.

Lemma wp_channel_db A c t (Q : _ -> _ -> Prop) d : Rep A d ->
  (forall db, db_of d c t db -> Q d (inr (shard (length (dbs_of d)) c t, db))) -> wp (channel_db c t) Q d.
Proof.
  intros [HS _ _] HQ. pose proof (shard_below _ _ c t HS) as Hlt. destruct (lookup_lt_is_Some_2 _ _ Hlt) as [db Hdb].
  exists d, (inr (shard (length (dbs_of d)) c t, db)). split; [|by apply HQ]. unfold channel_db, channelDb, channelDbIndex.
  destruct HS as [[Hl _] _ _ _ _ _]. unfold dbs_of in *. destruct (Z.eqb_spec (len (wk_dbs (mg_wk d))) 0); [lia|]. cbn [res_bind].
  unfold shard in Hdb |- *. by rewrite Hdb.
Qed.

(** The cache of last numbers. *)
Lemma wp_seqCache {X} (f : SC -> X * SC) (Q : _ -> _ -> Prop) d :
  Q {| d with mg_channelSeqCache := (f (mg_channelSeqCache d)).2 |} (inr (f (mg_channelSeqCache d)).1) -> wp (on_seqCache f) Q d.
Proof. intros H. unfold wp, on_seqCache. destruct (f _). by eexists _, _. Qed.

Lemma seqs_add A sc c t v : IsChan c t -> last_bytes v (cl_last (A (c, t))) -> seqs_ok A sc -> seqs_ok A (lru_add sc (ChannelToKey c t) v).
Proof.
  intros Hc Hv Hs c' t' x Hc' Hx. eapply lookup_weaken in Hx; [|apply lru_add_law].
  apply lookup_insert_Some in Hx as [[E <-]|[_ Hx]]; [|by apply Hs].
  apply ChannelToKey_inj in E as [-> ->]; [done|by eapply ischan_type..].
Qed.
(** The last number of a channel changes in the cache, or leaves it. *)
Lemma seqs_replace A sc c t a v : IsChan c t -> last_bytes v (cl_last a) -> seqs_ok A sc ->
  seqs_ok (set_chan A c t a) (lru_add sc (ChannelToKey c t) v).
Proof.
  intros Hc Hv Hs c' t' x Hc' Hx. eapply lookup_weaken in Hx; [|apply lru_add_law]. unfold set_chan.
  apply lookup_insert_Some in Hx as [[E <-]|[Hne Hx]].
  - apply ChannelToKey_inj in E as [-> ->]; [by rewrite decide_True|by eapply ischan_type..].
  - rewrite decide_False; [by apply Hs|]. intros [= -> ->]. done.
Qed.
Lemma seqs_remove A sc c t a : IsChan c t -> seqs_ok A sc -> seqs_ok (set_chan A c t a) (lru_remove sc (ChannelToKey c t)).
Proof.
  intros Hc Hs c' t' v Hc' Hv. rewrite lru_remove_law in Hv. apply lookup_delete_Some in Hv as [Hne Hv].
  unfold set_chan. rewrite decide_False; [by apply Hs|]. intros [= -> ->]. done.
Qed.
Lemma set_fits A c t a : chan_fits a -> (forall c t, IsChan c t -> chan_fits (A (c, t))) -> forall c' t', IsChan c' t' -> chan_fits (set_chan A c t a (c', t')).
Proof. intros Ha HA c' t' Hc'. unfold set_chan. case_decide; [done|by apply HA]. Qed.

(** *** The last number *)

Lemma value_seq z now : is_u64 z -> value_uint 8 (seq_bytes z now) = Ok z.
Proof.
  intros Hz. unfold value_uint, seq_bytes. rewrite length_app, !be_bytes_length. cbn [Nat.ltb Nat.leb Nat.add].
  rewrite take_app_length' by by rewrite be_bytes_length. by rewrite be_val_bytes.
Qed.
Lemma value_time z now : value_uint 8 (drop 8 (seq_bytes z now)) = Ok (u64 now).
Proof.
  unfold seq_bytes. rewrite drop_app_length' by by rewrite be_bytes_length. apply value_uint_of. apply u64_range.
Qed.

(** A read: the stores stay as they are, and an answer or an error of a store. *)
Definition reads {X} A d (op : Db X) (a : X -> Prop) : Prop :=
  wp op (fun d' r => Rep A d' /\ dbs_of d' = dbs_of d /\ match r with inl _ => store_fails DB | inr x => a x end) d.

Lemma wp_reads {X} A (op : Db X) (a : X -> Prop) (Q : _ -> _ -> Prop) d : reads A d op a ->
  (forall d' x, Rep A d' -> dbs_of d' = dbs_of d -> a x -> Q d' (inr x)) ->
  (forall d' e, Rep A d' -> dbs_of d' = dbs_of d -> store_fails DB -> Q d' (inl e)) -> wp op Q d.
Proof. intros H H1 H2. eapply wp_mono; [|exact H]. intros d' [e|x] (HR & E & Hx); auto. Qed.

Lemma got_cases (db : DB) k : kv_get db k = got_of (kv_map db !! k) \/ kv_get db k = GetErr /\ store_fails DB.
Proof.
  pose proof (kv_get_law db k) as H. destruct (kv_get db k) as [v| |] eqn:E; cbn in H; [left; by rewrite H..|].
  right. split; [done|]. exists db. right. by exists k.
Qed.

Lemma GetLast_ok A c t d : Rep A d -> IsChan c t -> reads A d (GetChannelLastMessageSeq c t) (fun r => r.1 = cl_last (A (c, t))).
Proof.
  intros HR Hc. pose proof (last_u64 _ (rep_fits A d HR c t Hc)) as Hlast. unfold reads, GetChannelLastMessageSeq, getChannelLastSeq.
  apply wp_bind, wp_bind, wp_seqCache. destruct (lru_get_law (mg_channelSeqCache d) (ChannelToKey c t)) as [E1 E2].
  set (d1 := {| d with mg_channelSeqCache := _ |}). assert (HR1 : Rep A d1).
  { destruct HR as [H1 H2 H3]. split; [done| |done]. intros c' t' v Hc'. cbn [d1 mg_channelSeqCache]. rewrite E2. by apply H2. }
  rewrite E1. destruct (lru_map (mg_channelSeqCache d) !! ChannelToKey c t) as [v|] eqn:Ev.
  { apply (rep_cache A d HR) in Ev as [now ->]; [|done]. eapply wp_res; [rewrite value_seq by done; cbn [res_bind]; by rewrite value_time|].
    by apply wp_ret. }
  apply wp_ret, wp_bind, (wp_channel_db A); [done|]. intros db Hdb. apply wp_bind. eapply wp_res; [apply last_key_eq|].
  pose proof (ho_last _ _ _ (sh_chan _ _ (rep_store _ _ HR1) c t db Hc Hdb)) as Hl.
  destruct (got_cases db (last_key (ChannelToNum c t))) as [->|[-> HF]]; [|by apply wp_err].
  destruct (kv_map db !! last_key (ChannelToNum c t)) as [v|]; cbn [got_of last_value] in *; [|by apply wp_ret].
  destruct Hl as [now ->]. change (length (seq_bytes (cl_last (A (c, t))) now) =? 0)%nat with false.
  apply wp_bind. eapply wp_res; [by apply value_seq|]. apply wp_bind. eapply wp_res; [apply value_time|].
  apply wp_bind, wp_seqCache, wp_ret. cbn [fst snd]. split_and!; [|done|done].
  destruct HR1 as [H1 H2 H3]. split; [done| |done]. apply seqs_add; [done|by exists now|exact H2].
Qed.

(** *** Loading messages *)

(** A read with the given answer; [None]: it is refused. *)
Definition gives {X} A d (op : Db X) (o : option X) : Prop :=
  wp op (fun d' r => Rep A d' /\ dbs_of d' = dbs_of d /\ match r with inl _ => store_fails DB \/ o = None | inr x => o = Some x end) d.

Lemma gives_ret {X} A d (x : X) : Rep A d -> gives A d (db_ret x) (Some x).
Proof. intros HR. by apply wp_ret. Qed.
Lemma gives_err {X} A d e : Rep A d -> gives A d (db_err e) (None : option X).
Proof. intros HR. apply wp_err. auto. Qed.
(** After a read. *)
Lemma reads_gives {X Y} A d (op : Db X) (a : X -> Prop) (f : X -> Db Y) o : reads A d op a ->
  (forall d' x, Rep A d' -> dbs_of d' = dbs_of d -> a x -> gives A d' (f x) o) -> gives A d (db_bind op f) o.
Proof.
  intros H Hf. apply wp_bind. eapply wp_reads; [exact H| |by auto].
  intros d' x HR E Hx. eapply wp_mono; [|by apply Hf]. intros d2 r (HR2 & E2 & Hr). rewrite E2, E. done.
Qed.
Lemma channel_reads A d c t : Rep A d -> reads A d (channel_db c t) (fun r => db_of d c t r.2).
Proof. intros HR. by apply (wp_channel_db A). Qed.

Abbreviation msgs_of A c t := (cl_msgs (A (c, t))).

Lemma entries_ok A d c t db lo hi : Rep A d -> IsChan c t -> db_of d c t db -> is_u64 lo -> is_u64 hi ->
  message_entries db c t lo hi = Ok (range_of (msgs_of A c t) lo hi ≫= msg_entries (ChannelToNum c t)).
Proof.
  intros HR Hc Hdb Hlo Hhi. unfold message_entries. rewrite !primary_key. cbn [res_bind]. f_equal.
  apply scan_messages; [apply hash_range|done|done|by eapply rep_fits|]. by apply (sh_chan _ _ (rep_store _ _ HR)).
Qed.

Lemma collect_ok A d c t db lo hi limit : Rep A d -> IsChan c t -> db_of d c t db -> is_u64 lo -> is_u64 hi ->
  gives A d (collect_messages db c t lo hi limit) (Some (limited limit (answered_msgs (range_of (msgs_of A c t) lo hi).*2))).
Proof.
  intros HR Hc Hdb Hlo Hhi. unfold gives, collect_messages. apply wp_bind. eapply wp_res; [by eapply entries_ok|].
  apply wp_bind. eapply wp_res; [apply collect_all; [by eapply range_numbered, rep_fits|apply range_sorted]|]. by apply gives_ret.
Qed.

(** The numbers between which [LoadPrevRangeMsgs] looks. *)
Lemma prevRange_eq start fin limit : 0 < start < MaxUint64 -> 0 <= fin <= start -> 0 <= limit < 2 ^ 63 ->
  prevRange start fin limit = (Z.max (fin + 1) (start - limit + 1), start + 1).
Proof.
  intros Hs Hf Hl. unfold prevRange. rewrite (u64_small limit) by (unfold is_u64; lia). unfold MaxUint64 in Hs.
  rewrite (u64_small (start + 1)) by (unfold is_u64; lia). f_equal.
  destruct (Z.eqb_spec fin 0) as [->|]; [destruct (Z.ltb_spec start limit)|]; [lia|..].
  - rewrite (u64_small (start - limit)), u64_small by (unfold is_u64; lia). lia.
  - rewrite (u64_small (start - fin)) by (unfold is_u64; lia). destruct (Z.ltb_spec limit (start - fin)).
    + rewrite (u64_small (start - limit)), u64_small by (unfold is_u64; lia). lia.
    + rewrite u64_small by (unfold is_u64; lia). lia.
Qed.

(** No more messages than the range has numbers. *)
Lemma answered_length ms : length (answered_msgs ms) = length ms.
Proof. destruct ms; cbn; [done|]. by rewrite length_fmap. Qed.
Lemma limited_range A c t lo hi limit : 0 <= limit -> hi - lo <= limit ->
  limited limit (answered_msgs (range_of (msgs_of A c t) lo hi).*2) = answered_msgs (range_of (msgs_of A c t) lo hi).*2.
Proof.
  intros Hl Hr. unfold limited. destruct (Z.eqb_spec limit 0); [done|]. apply take_ge.
  rewrite answered_length, length_fmap. pose proof (range_length (msgs_of A c t) lo hi). lia.
Qed.

(** The end of a range: at most the last number. *)
Lemma upto_last last hi : is_u64 last -> is_u64 hi ->
  (if last <? hi then last +64 1 else hi) = Z.min (last + 1) hi /\ is_u64 (Z.min (last + 1) hi).
Proof.
  intros Hl Hh. unfold is_u64 in *. destruct (Z.ltb_spec last hi); [rewrite u64_small by (unfold is_u64; lia)|]; lia.
Qed.

Definition prev_msgs (a : chanlog) (start fin limit : Z) : list Msg :=
  answered_msgs (range_of (cl_msgs a) (Z.max (fin + 1) (start - limit + 1)) (Z.min (cl_last a) start + 1)).*2.

Lemma LoadPrev_ok A d c t start fin limit : Rep A d -> IsChan c t ->
  0 < start < MaxUint64 -> 0 <= fin <= start -> 0 <= limit < 2 ^ 63 ->
  gives A d (LoadPrevRangeMsgs c t start fin limit) (Some (prev_msgs (A (c, t)) start fin limit)).
Proof.
  intros HR Hc Hs Hf Hl. unfold LoadPrevRangeMsgs, prev_msgs. destruct (Z.eqb_spec start 0); [lia|].
  destruct (Z.ltb_spec start fin); [lia|]. rewrite andb_false_r, prevRange_eq by done. cbv beta iota.
  eapply reads_gives; [by apply GetLast_ok|]. intros d1 [last now] HR1 E1 Hlast. cbn [fst] in Hlast. subst last.
  pose proof (last_u64 _ (rep_fits _ _ HR c t Hc)) as Hu. assert (Hst : is_u64 (start + 1)) by (unfold is_u64, MaxUint64 in *; lia).
  destruct (upto_last _ _ Hu Hst) as [-> Hmin]. eapply reads_gives; [by apply channel_reads|]. intros d2 [i db] HR2 E2 Hdb.
  replace (Z.min (cl_last (A (c, t))) start + 1) with (Z.min (cl_last (A (c, t)) + 1) (start + 1)) by lia.
  rewrite <-(limited_range A c t _ _ limit) by lia. apply collect_ok; [done|done| | |done].
  - unfold db_of. rewrite E2. exact Hdb.
  - unfold is_u64, MaxUint64 in *. lia.
Qed.
Lemma LoadPrev_refused A d c t start fin limit : Rep A d -> start = 0 \/ fin <> 0 /\ start < fin ->
  gives A d (LoadPrevRangeMsgs c t start fin limit) None.
Proof.
  intros HR H. unfold LoadPrevRangeMsgs. destruct (Z.eqb_spec start 0); [by apply gives_err|].
  destruct H as [|[Hf Hlt]]; [done|]. destruct (Z.eqb_spec fin 0); [done|]. destruct (Z.ltb_spec start fin); [by apply gives_err|lia].
Qed.

Definition next_msgs (a : chanlog) (start fin limit : Z) : list Msg :=
  limited limit (answered_msgs (range_of (cl_msgs a) start (Z.min (cl_last a + 1) (if fin =? 0 then MaxUint64 else fin))).*2).

Lemma LoadNext_ok A d c t start fin limit : Rep A d -> IsChan c t -> is_u64 start -> is_u64 fin ->
  gives A d (LoadNextRangeMsgs c t start fin limit) (Some (next_msgs (A (c, t)) start fin limit)).
Proof.
  intros HR Hc Hs Hf. unfold LoadNextRangeMsgs, next_msgs. cbv zeta.
  assert (Hm : is_u64 (if fin =? 0 then MaxUint64 else fin)) by (destruct (fin =? 0); auto with go_ints).
  eapply reads_gives; [by apply GetLast_ok|]. intros d1 [last now] HR1 E1 Hlast. cbn [fst] in Hlast. subst last.
  pose proof (last_u64 _ (rep_fits _ _ HR c t Hc)) as Hu. destruct (upto_last _ _ Hu Hm) as [-> Hmin].
  eapply reads_gives; [by apply channel_reads|]. intros d2 [i db] HR2 E2 Hdb. apply collect_ok; [done|done| |done|done].
  unfold db_of. rewrite E2. exact Hdb.
Qed.

Definition one_msg (a : chanlog) (seq : Z) : option Msg := (fun mg => headless (read_back mg)) <$> cl_msgs a !! seq.

Lemma LoadMsg_ok A d c t seq : Rep A d -> IsChan c t -> is_u64 seq -> gives A d (LoadMsg c t seq) (one_msg (A (c, t)) seq).
Proof.
  intros HR Hc Hs. unfold LoadMsg, one_msg. pose proof (rep_fits _ _ HR c t Hc) as Ha.
  eapply reads_gives; [by apply channel_reads|]. intros d1 [i db] HR1 E1 Hdb. cbn [snd] in Hdb.
  assert (Hdb1 : db_of d1 c t db) by (unfold db_of; by rewrite E1).
  assert (E : range_of (msgs_of A c t) seq (seq +64 1) = match msgs_of A c t !! seq with Some mg => [(seq, mg)] | None => [] end).
  { destruct (Z.eq_dec seq MaxUint64) as [->|Hne].
    - destruct (msgs_of A c t !! MaxUint64) as [mg|] eqn:Em; [|by apply range_empty].
      apply (cf_msgs _ Ha) in Em as [Em Hm%mf_seq]. cbn [fst snd] in *. unfold MaxUint64 in *. lia.
    - rewrite u64_small by (unfold is_u64, MaxUint64 in *; lia). apply range_single. }
  apply wp_bind. eapply wp_res; [eapply entries_ok; [done|done|done|done|apply u64_range]|]. apply wp_bind.
  eapply wp_res; [apply first_all; [by apply range_numbered|apply range_sorted]|]. apply wp_bind, wp_ret. rewrite E.
  destruct (msgs_of A c t !! seq) as [mg|] eqn:Em; cbn; [|by apply gives_err].
  apply (cf_msgs _ Ha) in Em as [Em Hm%mf_seq]. cbn [fst snd] in *. unfold IsEmptyMessage. cbn.
  destruct (Z.eqb_spec (m_MessageSeq mg) 0); [lia|]. rewrite andb_false_r. by apply gives_ret.
Qed.

Lemma LoadLast_ok A d c t limit : Rep A d -> IsChan c t -> 0 <= limit < 2 ^ 63 ->
  gives A d (LoadLastMsgs c t limit)
    (Some (if cl_last (A (c, t)) =? 0 then [] else prev_msgs (A (c, t)) (cl_last (A (c, t))) 0 limit)).
Proof.
  intros HR Hc Hl. unfold LoadLastMsgs. pose proof (cf_last _ (rep_fits _ _ HR c t Hc)) as Hu.
  eapply reads_gives; [by apply GetLast_ok|]. intros d1 [last now] HR1 E1 Hlast. cbn [fst] in Hlast. subst last.
  destruct (Z.eqb_spec (cl_last (A (c, t))) 0); [by apply gives_ret|]. apply LoadPrev_ok; unfold is_u64 in *; try done; lia.
Qed.

Lemma LoadLastWithEnd_ok A d c t fin limit : Rep A d -> IsChan c t -> 0 <= fin -> 0 <= limit < 2 ^ 63 ->
  gives A d (LoadLastMsgsWithEnd c t fin limit)
    (Some (if (cl_last (A (c, t)) =? 0) || (cl_last (A (c, t)) <? fin) then [] else prev_msgs (A (c, t)) (cl_last (A (c, t))) fin limit)).
Proof.
  intros HR Hc Hf Hl. unfold LoadLastMsgsWithEnd. pose proof (cf_last _ (rep_fits _ _ HR c t Hc)) as Hu.
  eapply reads_gives; [by apply GetLast_ok|]. intros d1 [last now] HR1 E1 Hlast. cbn [fst] in Hlast. subst last.
  destruct (Z.eqb_spec (cl_last (A (c, t))) 0); [by apply gives_ret|]. cbn [orb].
  destruct (Z.ltb_spec (cl_last (A (c, t))) fin); [by apply gives_ret|]. apply LoadPrev_ok; unfold is_u64 in *; try done; lia.
Qed.

Lemma GetLastMsg_ok A d c t : Rep A d -> IsChan c t ->
  gives A d (GetLastMsg c t) (if cl_last (A (c, t)) =? 0 then Some EmptyMsg else one_msg (A (c, t)) (cl_last (A (c, t)))).
Proof.
  intros HR Hc. unfold GetLastMsg. pose proof (last_u64 _ (rep_fits _ _ HR c t Hc)) as Hu.
  eapply reads_gives; [by apply GetLast_ok|]. intros d1 [last now] HR1 E1 Hlast. cbn [fst] in Hlast. subst last.
  destruct (Z.eqb_spec (cl_last (A (c, t))) 0); [by apply gives_ret|]. by apply LoadMsg_ok.
Qed.

Definition sized_msgs (a : chanlog) (start fin limitSize : Z) : list Msg :=
  cut_sizes limitSize 0 (read_back <$> (range_of (cl_msgs a) start (if fin =? 0 then MaxUint64 else fin)).*2).
Lemma LoadForSize_ok A d c t start fin limitSize : Rep A d -> IsChan c t -> is_u64 start -> is_u64 fin ->
  gives A d (LoadNextRangeMsgsForSize c t start fin limitSize) (Some (sized_msgs (A (c, t)) start fin limitSize)).
Proof.
  intros HR Hc Hs Hf. unfold LoadNextRangeMsgsForSize, sized_msgs. cbv zeta.
  assert (Hm : is_u64 (if fin =? 0 then MaxUint64 else fin)) by (destruct (fin =? 0); auto with go_ints).
  eapply reads_gives; [by apply channel_reads|]. intros d1 [i db] HR1 E1 Hdb. cbn [snd] in Hdb.
  apply wp_bind. eapply wp_res; [eapply entries_ok; [exact HR1|done| |done|done]; unfold db_of; by rewrite E1|]. apply wp_bind.
  eapply wp_res; [apply parse_all; [by eapply range_numbered, rep_fits|apply range_sorted]|]. by apply gives_ret.
Qed.

(** *** Writing *)

Lemma wp_commit A c t db ws a (Q : _ -> _ -> Prop) d : Rep A d -> IsChan c t -> db_of d c t db ->
  Forall (chan_write (ChannelToNum c t)) ws -> Forall outbox_write ws -> holds (apply_wops (kv_map db) ws) (ChannelToNum c t) a ->
  floor_batch c t (cl_floor (A (c, t))) (cl_floor a) ws ->
  (forall d', store_holds (set_chan A c t a) (dbs_of d') -> mg_channelSeqCache d' = mg_channelSeqCache d -> Q d' (inr tt)) ->
  (store_fails DB -> forall e, Q d (inl e)) -> wp (commit_batch (shard (length (dbs_of d)) c t) db ws) Q d.
Proof.
  intros HR Hc Hdb Hw Ho Ha Hfb HQ HF. unfold wp, commit_batch, commit. destruct (kv_commit db ws) as [db'|] eqn:E.
  - eexists _, _. split; [done|]. apply HQ; [|done]. eapply commit_holds; [done|apply HR|exact Hdb|exact Hw|exact Ho|exact E|exact Ha|exact Hfb].
  - eexists _, _. split; [done|]. apply HF. exists db. left. by exists ws.
Qed.

(** An operation that changes one channel. *)
Definition writes {X} A d (op : Db X) (c : string) (t : Z) (a : chanlog) : Prop :=
  wp op (fun d' r => match r with inl _ => Rep A d' /\ store_fails DB | inr _ => Rep (set_chan A c t a) d' end) d.

(** The last number is set in the cache after a commit. *)
Lemma set_cached A c t a seq now d d' : Rep A d -> IsChan c t -> chan_fits a -> cl_last a = seq ->
  store_holds (set_chan A c t a) (dbs_of d') -> mg_channelSeqCache d' = mg_channelSeqCache d ->
  Rep (set_chan A c t a) {| d' with mg_channelSeqCache := lru_add (mg_channelSeqCache d') (ChannelToKey c t) (seq_bytes seq now) |}.
Proof.
  intros [_ H2 H3] Hc Ha Hl HS E. split; [exact HS| |by apply set_fits]. cbn [mg_channelSeqCache]. rewrite E.
  apply seqs_replace; [done| |done]. exists now. by rewrite Hl.
Qed.

Lemma SetLast_ok A c t seq now now' d : Rep A d -> IsChan c t -> 0 <= seq < MaxUint64 ->
  writes A d (SetChannelLastMessageSeq c t seq now now') c t {| (A (c, t)) with cl_last := seq |}.
Proof.
  intros HR Hc Hs. unfold writes, SetChannelLastMessageSeq. apply wp_bind, (wp_channel_db A); [done|]. intros db Hdb.
  apply wp_bind. eapply wp_res; [unfold setChannelLastMessageSeq; rewrite last_key_eq; done|]. apply wp_bind.
  eapply (wp_commit A c t _ _ {| (A (c, t)) with cl_last := seq |}); [done|done|done| | | | | |by auto].
  - apply Forall_singleton. right. left. by eexists.
  - apply Forall_singleton, last_outbox.
  - apply (holds_last (kv_map db)). by apply (sh_chan _ _ (rep_store _ _ HR)).
  - apply floor_same, Forall_singleton, last_free.
  - intros d' HS E. apply wp_seqCache. apply (set_cached A c t _ seq now' d d'); [done|done| |done|done|done].
    destruct (rep_fits _ _ HR c t Hc). by split.
Qed.

(** *** The outbox *)

Lemma GetFloor_ok A c t d : Rep A d -> IsChan c t -> reads A d (GetSearchOutboxFloor c t) (fun o => o = cl_floor (A (c, t))).
Proof.
  intros HR Hc. destruct (lookup_lt_is_Some_2 _ _ (shard_below _ _ c t (rep_store _ _ HR))) as [db Hdb].
  pose proof (sh_floor _ _ (rep_store _ _ HR) c t db Hc Hdb) as Hfl. unfold floor_in in Hfl.
  unfold reads, GetSearchOutboxFloor. destruct (IsValidSearchOutboxChannelIdentity c t) eqn:Hv; cbn [negb]; [|by apply wp_ret].
  apply wp_bind. eapply wp_res; [by apply outbox_floor_spec|]. apply wp_bind, (wp_channel_db A); [done|]. intros db' Hdb'.
  unfold db_of in Hdb'. rewrite Hdb in Hdb'. injection Hdb' as <-.
  pose proof (sh_outbox _ _ (rep_store _ _ HR) _ _ Hdb) as Ho. fold floor_zone. fold (floor_key c t).
  destruct (got_cases db (floor_key c t)) as [->|[-> HF]]; [|by apply wp_err].
  destruct (kv_map db !! floor_key c t) as [v|] eqn:Ev; cbn [got_of]; [|by apply wp_ret].
  apply (ob_floor _ Ho) in Ev. rewrite Ev. cbn [Nat.eqb negb]. apply wp_bind.
  eapply wp_res; [unfold value_uint; rewrite Ev; cbn [Nat.ltb Nat.leb]; done|]. apply wp_ret. split_and!; [done|done|].
  rewrite take_ge by (by rewrite Ev). done.
Qed.
Lemma floor_valid A c t d : Rep A d -> IsChan c t -> cl_floor (A (c, t)) <> None -> IsValidSearchOutboxChannelIdentity c t = true.
Proof.
  intros HR Hc. destruct (lookup_lt_is_Some_2 _ _ (shard_below _ _ c t (rep_store _ _ HR))) as [db Hdb].
  rewrite <-(sh_floor _ _ (rep_store _ _ HR) c t db Hc Hdb). unfold floor_in. by destruct (IsValidSearchOutboxChannelIdentity c t).
Qed.

(** A batch for the outbox: it leaves the messages, its values are right, and it takes the
    start of the search from [f] to [f']. *)
Record outbox_batch (c : string) (t : Z) (f f' : option Z) (ws : list wop) : Prop := {
  obt_elsewhere : Forall elsewhere ws;
  obt_write : Forall outbox_write ws;
  obt_floor : floor_batch c t f f' ws
}.
Lemma outbox_batch_nil c t f : outbox_batch c t f f [].
Proof. split; [apply Forall_nil_2..|apply floor_same, Forall_nil_2]. Qed.
Lemma outbox_batch_app c t f f1 f2 ws ws' : outbox_batch c t f f1 ws -> outbox_batch c t f1 f2 ws' -> outbox_batch c t f f2 (ws ++ ws').
Proof. intros [H1 H2 H3] [H4 H5 H6]. split; [by apply Forall_app_2..|by eapply floor_app]. Qed.
Lemma no_outbox A d c t f : Rep A d -> reads A d (db_ret []) (outbox_batch c t f f).
Proof. intros HR. apply wp_ret. split_and!; [done|done|apply outbox_batch_nil]. Qed.
Lemma outbox_elsewhere kind r v : elsewhere (WSet (prefix4 (t_Id TableSearchOutbox) kind ++ r) v).
Proof. exists (t_Id TableSearchOutbox), kind. split_and!; [done|done|by eexists]. Qed.

(** The start of the search after messages are appended. *)
Definition start_search (f : option Z) (ms : list Msg) : option Z :=
  match f with
  | Some f => Some f
  | None => (fun m => m_MessageSeq m - 1) <$> find m_SearchOutbox ms
  end.

Lemma ensureFloor_ok A c t seq d : Rep A d -> IsChan c t -> IsValidSearchOutboxChannelIdentity c t = true -> 0 < seq < two64 ->
  reads A d (ensureSearchOutboxFloor c t seq)
    (outbox_batch c t (cl_floor (A (c, t))) (Some (default (seq - 1) (cl_floor (A (c, t)))))).
Proof.
  intros HR Hc Hv Hs. unfold reads, ensureSearchOutboxFloor. destruct (Z.eqb_spec seq 0); [lia|]. apply wp_bind.
  eapply wp_reads; [by apply GetFloor_ok| |by auto]. intros d1 o HR1 E1 <-. destruct o as [f|].
  - apply wp_ret. split_and!; [done|done|apply outbox_batch_nil].
  - apply wp_bind. eapply wp_res; [by apply outbox_floor_spec|]. apply wp_ret. split_and!; [done|done|]. fold floor_zone. fold (floor_key c t).
    rewrite u64_small by (unfold is_u64; lia). split; [apply Forall_singleton, outbox_elsewhere| |by apply floor_set; [|unfold is_u64; lia]].
    apply Forall_singleton. split; [eexists _, _; split; [apply outbox_table|by eexists]|].
    split; [intros r _; apply be_bytes_length|]. by intros r (E & _ & _)%prefix4_inj.
Qed.

(** A message that may have a task for the search. *)
Definition searchable (c : string) (t : Z) (msg : Message) : Prop :=
  IsValidSearchOutboxChannelIdentity c t = true /\ 0 < m_MessageID (msg_of msg) /\ is_Some (Message_Marshal msg).
(** A message of the channel. *)
Record append_fits (c : string) (t : Z) (msg : Message) : Prop := {
  af_fits : msg_fits (msg_of msg);
  af_chan : m_ChannelID (msg_of msg) = c /\ m_ChannelType (msg_of msg) = t;
  af_search : m_SearchOutbox (msg_of msg) = true -> searchable c t msg
}.

Lemma loadState_ok A d (db : DB) k : Rep A d -> (exists i, dbs_of d !! i = Some db) ->
  reads A d (loadSearchOutboxState db k) (fun r => (os_Status r.1 =? searchOutboxActive) = true -> r.2 = false -> r.1 = mkOutboxState 1 searchOutboxActive).
Proof.
  intros HR [i Hi]. unfold reads, loadSearchOutboxState. change (NewSearchOutboxStateKey k) with (state_zone ++ k).
  pose proof (sh_outbox _ _ (rep_store _ _ HR) _ _ Hi) as Ho.
  destruct (got_cases db (state_zone ++ k)) as [->|[-> HF]]; [|by apply wp_err].
  destruct (kv_map db !! (state_zone ++ k)) as [v|] eqn:Ev; cbn [got_of]; [|by apply wp_ret].
  apply (ob_state _ Ho) in Ev as (s & e & Hs & Hs3 & He & ->). cbn [app].
  rewrite byte_of_Z_of_byte, (u8_small s) by done. rewrite be_val_bytes by (change (2 ^ (8 * Z.of_nat 8)) with two64; lia).
  cbn [length]. rewrite be_bytes_length. change (Z_of_byte x01 =? 1) with true. cbn [Nat.eqb negb orb].
  unfold searchOutboxActive, searchOutboxAcknowledged.
  destruct (Z.ltb_spec s 1), (Z.ltb_spec 3 s), (Z.eqb_spec e 0); try lia. by apply wp_ret.
Qed.

Lemma writeOutbox_ok A c t msg d : Rep A d -> IsChan c t -> append_fits c t msg -> searchable c t msg ->
  reads A d (writeSearchOutbox msg) (fun ws => forall f, outbox_batch c t f f ws).
Proof.
  intros HR Hc [Hf [Ec Et] _] (Hv & Hid & [value Hm]). unfold reads, writeSearchOutbox. rewrite Ec, Et. cbv zeta.
  destruct (valid_identity _ _ Hv) as (Hne & Ht & _ & Hl). destruct (mf_seq _ Hf) as [Hs1 Hs2]. pose proof (mf_id _ Hf) as Hi.
  assert (SearchOutboxIdentity_valid c t (m_MessageSeq (msg_of msg)) (m_MessageID (msg_of msg)) = true) as ->.
  { unfold SearchOutboxIdentity_valid, MaxSearchOutboxChannelIDBytes, MaxMessageSequence. rewrite bool_decide_eq_false_2 by done. lia. }
  cbn [negb]. apply wp_bind. eapply wp_res.
  { apply outbox_spec. split_and!; [done|by eapply ischan_type|lia|unfold MaxUint32; lia|done|unfold MaxInt64, is_i64 in *; lia]. }
  apply wp_bind, (wp_channel_db A); [done|]. intros db Hdb. apply wp_bind.
  eapply wp_reads; [by apply loadState_ok; [|eexists]| |by auto].
  intros d1 [st ex] HR1 E1 Hst. cbn [fst snd] in Hst. destruct (os_Status st =? searchOutboxActive) eqn:Ea; cbn [negb].
  - rewrite Hm. apply wp_ret. split_and!; [done|done|]. intros f. destruct ex; cbn [app].
    + split; [apply Forall_singleton, outbox_elsewhere|by apply Forall_singleton, outbox_write_kind|].
      apply floor_same, Forall_singleton. eexists _, _. split; [|by eexists]. done.
    + rewrite Hst by done. split; [| |apply floor_same]; (apply Forall_cons_2; [|apply Forall_singleton]).
      * exists (t_Id TableSearchOutboxState), dataTypeTable. split_and!; [done|done|by eexists].
      * apply outbox_elsewhere.
      * split; [eexists _, _; split; [apply state_table|by eexists]|].
        split; [by intros r (E & _ & _)%prefix4_inj|]. intros r _. by exists 1, 1.
      * by apply outbox_write_kind.
      * eexists _, _. split; [|by eexists]. done.
      * eexists _, _. split; [|by eexists]. done.
  - apply wp_ret. split_and!; [done|done|apply outbox_batch_nil].
Qed.

(** *** Appending *)

Definition put_msgs (a : chanlog) (ms : list Msg) : chanlog := foldl put_msg a ms.

(** The writes of some messages. *)
Record msg_batch (c : string) (t : Z) (ms : list Msg) (ws : list wop) : Prop := {
  mb_chan : Forall (chan_write (ChannelToNum c t)) ws;
  mb_outbox : Forall outbox_write ws;
  mb_floor f : floor_batch c t f f ws;
  mb_holds m a : holds m (ChannelToNum c t) a -> holds (apply_wops m ws) (ChannelToNum c t) (put_msgs a ms)
}.

Lemma elsewhere_writes h ws : Forall elsewhere ws -> Forall (chan_write h) ws.
Proof. intros H. eapply Forall_impl; [exact H|]. intros w Hw. right. by right. Qed.

Lemma msg_batch_cons c t mg ms out more : msg_fits mg -> (forall f, outbox_batch c t f f out) -> msg_batch c t ms more ->
  msg_batch c t (mg :: ms)
    (((cell_set (ChannelToNum c t) (m_MessageSeq mg) <$> written_cells mg) ++ index_sets (ChannelToNum c t) mg) ++ out ++ more).
Proof.
  intros Hf Hout [H1 H2 Hfl H3]. destruct (Hout None) as [Hout1 Hout2 _]. pose proof (cell_set_under (ChannelToNum c t) (m_MessageSeq mg) (written_cells mg)) as Hu.
  pose proof (index_sets_elsewhere (ChannelToNum c t) mg) as Hix. split.
  - repeat apply Forall_app_2; [|by apply elsewhere_writes..|done]. eapply Forall_impl; [exact Hu|]. intros w Hw. by left.
  - repeat apply Forall_app_2; [|apply index_outbox|done|done]. eapply Forall_impl; [exact Hu|]. intros w Hw. by eapply under_rows_outbox.
  - intros f. eapply floor_app; [|eapply floor_app; [apply Hout|apply Hfl]]. apply floor_same, Forall_app_2; [|apply index_free].
    eapply Forall_impl; [exact Hu|]. intros w Hw. by eapply under_rows_free.
  - intros m a Ha. rewrite !apply_wops_app. apply H3, holds_frame; [done|]. apply holds_frame; [done|].
    apply holds_message; [done|apply written_perm|done].
Qed.

Lemma writeMessages_ok A c t msgs d : Rep A d -> IsChan c t -> Forall (append_fits c t) msgs ->
  reads A d (writeMessages c t msgs) (msg_batch c t (msg_of <$> msgs)).
Proof.
  intros HR Hc Hms. revert d HR. induction Hms as [|msg msgs Hf Hms IH]; intros d HR; unfold reads; cbn [writeMessages].
  { apply wp_ret. split_and!; [done|done|]. split; [apply Forall_nil_2|apply Forall_nil_2|intros f; apply floor_same, Forall_nil_2|done]. }
  apply wp_bind. eapply wp_res; [apply writeMessage_eq|]. apply wp_bind.
  assert (Hout : reads A d (if m_SearchOutbox (msg_of msg) then writeSearchOutbox msg else db_ret [])
    (fun ws => forall f, outbox_batch c t f f ws)).
  { destruct (m_SearchOutbox (msg_of msg)) eqn:Eo; [by eapply writeOutbox_ok, af_search|].
    apply wp_ret. split_and!; [done|done|apply outbox_batch_nil]. }
  eapply wp_reads; [exact Hout| |by auto]. intros d1 out HR1 E1 Ho. apply wp_bind.
  eapply wp_reads; [by apply IH| |intros d2 e HR2 E2; rewrite E2, E1; done]. intros d2 more HR2 E2 Hmore.
  apply wp_ret. split_and!; [done|by rewrite E2, E1|]. rewrite fmap_cons. by apply msg_batch_cons; [apply af_fits with c t|..].
Qed.

(** The channel after an append. *)
Definition appended (a : chanlog) (ms : list Msg) : chanlog :=
  {| (put_msgs a ms) with cl_last := default 0 (m_MessageSeq <$> last ms); cl_floor := start_search (cl_floor a) ms |}.

Lemma put_msgs_fits a ms : chan_fits a -> Forall msg_fits ms -> chan_fits (put_msgs a ms).
Proof. intros Ha Hms. revert a Ha. induction Hms as [|m ms Hm _ IH]; intros a Ha; [done|]. by apply IH, put_msg_fits. Qed.

Lemma wp_userCache {X} (f : UC -> X * UC) (Q : _ -> _ -> Prop) d :
  Q {| d with mg_userLastMsgSeqCache := (f (mg_userLastMsgSeqCache d)).2 |} (inr (f (mg_userLastMsgSeqCache d)).1) -> wp (on_userCache f) Q d.
Proof. intros H. unfold wp, on_userCache. destruct (f _). by eexists _, _. Qed.
Lemma updateUserSeqs_ok A c t msgs d : Rep A d -> wp (updateUserSeqs c t msgs) (fun d' r => Rep A d' /\ r = inr tt) d.
Proof.
  revert d. induction msgs as [|msg msgs IH]; intros d HR; cbn [updateUserSeqs]; [by apply wp_ret|]. apply wp_bind.
  destruct (bool_decide _); [by apply wp_ret, IH|]. unfold updateIfGreater. apply wp_bind, wp_userCache.
  match goal with |- context [if ?b then _ else _] => destruct b end; [apply wp_userCache|apply wp_ret]; apply IH; by destruct HR; split.
Qed.

Lemma same_channel c t msgs : Forall (append_fits c t) msgs ->
  existsb (fun msg => negb (bool_decide (m_ChannelID (msg_of msg) = c)) || negb (m_ChannelType (msg_of msg) =? t)) msgs = false.
Proof.
  induction 1 as [|msg msgs [_ [Ec Et] _] _ IH]; cbn [existsb]; [done|]. rewrite IH, Ec, Et. by rewrite bool_decide_eq_true_2, Z.eqb_refl.
Qed.

Lemma holds_floor m h a f : holds m h a -> holds m h {| a with cl_floor := f |}.
Proof. by intros []. Qed.
Lemma put_msgs_floor a ms : cl_floor (put_msgs a ms) = cl_floor a.
Proof. revert a. induction ms as [|m ms IH]; intros a; [done|]. exact (IH (put_msg a m)). Qed.
(** The batch of an append: the floor of the outbox, the messages and the last number. *)
Lemma append_batch c t ms f f' floor ws z now : outbox_batch c t f f' floor -> msg_batch c t ms ws ->
  let all := floor ++ ws ++ [WSet (last_key (ChannelToNum c t)) (seq_bytes z now)] in
  Forall (chan_write (ChannelToNum c t)) all /\ Forall outbox_write all /\ floor_batch c t f f' all /\
  forall m a, holds m (ChannelToNum c t) a ->
    holds (apply_wops m all) (ChannelToNum c t) {| (put_msgs a ms) with cl_last := z; cl_floor := f' |}.
Proof.
  intros [Hf1 Hf2 Hf3] [H1 H2 H4 H3] all. unfold all. split_and!.
  - repeat apply Forall_app_2; [by apply elsewhere_writes|done|]. apply Forall_singleton. right. left. by eexists.
  - repeat apply Forall_app_2; [done|done|]. apply Forall_singleton, last_outbox.
  - eapply floor_app; [exact Hf3|]. eapply floor_app; [apply H4|]. apply floor_same, Forall_singleton, last_free.
  - intros m a Ha. rewrite !apply_wops_app. apply (holds_floor _ _ {| (put_msgs a ms) with cl_last := z |}).
    apply (holds_last (apply_wops _ ws)), H3. by apply holds_frame.
Qed.

Lemma find_search c t msgs msg : Forall (append_fits c t) msgs -> find (fun msg => m_SearchOutbox (msg_of msg)) msgs = Some msg ->
  searchable c t msg /\ 0 < m_MessageSeq (msg_of msg) < two64.
Proof.
  intros Hms [Hin Ho]%find_some. apply list_elem_of_In in Hin. rewrite Forall_forall in Hms. apply Hms in Hin as [Hf _ Hs].
  split; [by apply Hs|]. pose proof (mf_seq _ Hf). change two64 with 18446744073709551616 in *. lia.
Qed.

Lemma find_msgs f msgs : start_search f (msg_of <$> msgs) =
  match f with
  | Some f => Some f
  | None => (fun msg => m_MessageSeq (msg_of msg) - 1) <$> find (fun msg => m_SearchOutbox (msg_of msg)) msgs
  end.
Proof.
  unfold start_search. destruct f; [done|]. induction msgs as [|msg msgs IH]; [done|]. cbn [fmap list_fmap find].
  by destruct (m_SearchOutbox (msg_of msg)).
Qed.

Lemma Append_ok A c t msgs now now' d : Rep A d -> IsChan c t -> Forall (append_fits c t) msgs -> msgs <> [] ->
  writes A d (AppendMessages c t msgs now now') c t (appended (A (c, t)) (msg_of <$> msgs)).
Proof.
  intros HR Hc Hms Hne. unfold writes, AppendMessages. rewrite same_channel by done.
  apply wp_bind, (wp_channel_db A); [done|]. intros db Hdb. apply wp_bind.
  assert (Hfloor : reads A d (match find (fun msg => m_SearchOutbox (msg_of msg)) msgs with
    | Some msg => ensureSearchOutboxFloor c t (m_MessageSeq (msg_of msg)) | None => db_ret [] end)
    (outbox_batch c t (cl_floor (A (c, t))) (start_search (cl_floor (A (c, t))) (msg_of <$> msgs)))).
  { rewrite find_msgs. destruct (find _ msgs) as [msg|] eqn:Ef.
    - destruct (find_search c t msgs msg Hms Ef) as [[Hv _] Hs]. cbn [fmap option_fmap option_map].
      pose proof (ensureFloor_ok A c t _ d HR Hc Hv Hs) as H. by destruct (cl_floor (A (c, t))).
    - cbn [fmap option_fmap option_map]. destruct (cl_floor (A (c, t))); by apply no_outbox. }
  eapply wp_reads; [exact Hfloor| |by auto]. intros d1 floor HR1 E1 Hfl. apply wp_bind.
  eapply wp_reads; [by apply writeMessages_ok| |by auto]. intros d2 ws HR2 E2 Hws.
  destruct (last msgs) as [lm|] eqn:El; [|by apply last_None in El]. cbv zeta. apply wp_bind.
  eapply wp_res; [unfold setChannelLastMessageSeq; rewrite last_key_eq; done|]. apply wp_bind.
  rewrite <-E1, <-E2. assert (Hdb2 : db_of d2 c t db) by (unfold db_of; by rewrite E2, E1).
  set (z := m_MessageSeq (msg_of lm)). destruct (append_batch c t (msg_of <$> msgs) _ _ floor ws z now Hfl Hws) as (Hb1 & Hb2 & Hb4 & Hb3).
  assert (Ha : appended (A (c, t)) (msg_of <$> msgs) = {| (put_msgs (A (c, t)) (msg_of <$> msgs)) with cl_last := z; cl_floor := start_search (cl_floor (A (c, t))) (msg_of <$> msgs) |})
    by (unfold appended; by rewrite fmap_last, El). rewrite Ha.
  eapply (wp_commit A c t); [done|done|done|exact Hb1|exact Hb2|apply Hb3; by apply (sh_chan _ _ (rep_store _ _ HR2))|exact Hb4| |by auto].
  intros d3 HS E3. apply wp_bind, wp_seqCache. eapply wp_mono; [|apply updateUserSeqs_ok].
  { intros d' r [HR' ->]. exact HR'. }
  eapply set_cached; [exact HR2|done| |done|done|exact E3].
  assert (Hlm : msg_fits (msg_of lm)).
  { apply last_Some_elem_of in El. rewrite Forall_forall in Hms. by apply (af_fits c t), Hms. }
  split; [|pose proof (mf_seq _ Hlm); unfold MaxUint64; cbn; lia]. apply put_msgs_fits; [by apply (rep_fits _ _ HR2)|].
  apply Forall_fmap. eapply Forall_impl; [exact Hms|]. by intros msg [Hf _ _].
Qed.

(** *** Truncation *)

(** A truncation before the start of the search stops it. *)
Definition cut_search (f : option Z) (seq : Z) : option Z :=
  match f with
  | Some f => if seq <? f then None else Some f
  | None => None
  end.
(** The batch of a truncation, without the last number. *)
Lemma truncateWrites_ok A c t seq floor d : Rep A d -> IsChan c t -> 0 < seq < MaxUint64 ->
  (floor <> None -> IsValidSearchOutboxChannelIdentity c t = true) ->
  reads A d (truncateWrites c t seq floor) (fun ws => exists ws', ws = ws' ++ [truncate_op (ChannelToNum c t) seq] /\
    outbox_batch c t floor (cut_search floor seq) ws').
Proof.
  intros HR Hc Hs Hv. unfold reads, truncateWrites. apply wp_bind.
  assert (H1 : reads A d (match floor with
    | Some floor => if seq <? floor then db_bind (db_res (NewSearchOutboxFloorKey c t)) (fun k =>
        match k with Some k => db_ret [WDelete k] | None => db_err outboxErr end) else db_ret []
    | None => db_ret [] end) (outbox_batch c t floor (cut_search floor seq))).
  { destruct floor as [f|]; [|by apply no_outbox]. cbn [cut_search].
    destruct (seq <? f); [|by apply no_outbox].
    apply wp_bind. eapply wp_res; [by apply outbox_floor_spec, Hv|]. apply wp_ret. split_and!; [done|done|].
    assert (Hk : of_kind (t_Id TableSearchOutbox) dataTypeOther (WDelete (prefix4 (t_Id TableSearchOutbox) dataTypeOther ++ outbox_channel c t)))
      by by eexists.
    split; [apply Forall_singleton; eexists _, _; split_and!; [| |exact Hk]; done| |by apply floor_delete, Hv].
    apply Forall_singleton. split; [eexists _, _; split; [apply outbox_table|exact Hk]|done]. }
  eapply wp_reads; [exact H1| |by auto]. intros d1 w1 HR1 E1 Hw1. apply wp_bind.
  assert (Eu : seq +64 1 = seq + 1) by (apply u64_small; unfold is_u64, MaxUint64 in *; lia). rewrite Eu.
  assert (H2 : reads A d1 (if IsValidSearchOutboxChannelIdentity c t && (seq <? MaxMessageSequence)
    then db_bind (db_res (NewSearchOutboxChannelRange c t (seq + 1))) (fun r =>
      match r with Some (lower, upper) => db_ret [WDeleteRange lower upper] | None => db_err outboxErr end)
    else db_ret []) (outbox_batch c t (cut_search floor seq) (cut_search floor seq))).
  { destruct (IsValidSearchOutboxChannelIdentity c t) eqn:Hval; cbn [andb];
      [|by apply no_outbox].
    destruct (Z.ltb_spec seq MaxMessageSequence) as [Hlt|];
      [|by apply no_outbox].
    destruct (outbox_range_some c t (seq + 1) Hval) as (up & Er & Hup); [unfold MaxUint32, MaxMessageSequence in *; lia|].
    apply wp_bind. eapply wp_res; [exact Er|]. apply wp_ret. split_and!; [done|done|].
    match goal with |- outbox_batch _ _ _ _ [?w] => assert (Hk : of_kind (t_Id TableSearchOutbox) dataTypeTable w) end.
    { intros k (x & -> & _)%(incremented_range _ _ _ _ Hup). rewrite <-app_assoc. by eexists. }
    split; [apply Forall_singleton; eexists _, _; split_and!; [| |exact Hk]; done| |].
    - apply Forall_singleton. split; [eexists _, _; split; [apply outbox_table|exact Hk]|done].
    - apply floor_same, Forall_singleton. eexists _, _. split; [|exact Hk]. done. }
  eapply wp_reads; [exact H2| |intros d2 e HR2 E2; rewrite E2, E1; done]. intros d2 w2 HR2 E2 Hw2. apply wp_bind.
  eapply wp_res; [apply primary_key|]. apply wp_bind. eapply wp_res; [apply primary_key|]. apply wp_ret.
  split_and!; [done|by rewrite E2, E1|]. exists (w1 ++ w2). split; [by rewrite <-app_assoc|].
  by eapply outbox_batch_app.
Qed.

(** The channel after a truncation. *)
Definition truncated (a : chanlog) (seq : Z) : chanlog :=
  if cl_last a <=? seq then a else {| (cut_msgs a seq) with cl_last := seq; cl_floor := cut_search (cl_floor a) seq |}.

Lemma Msgs_ext A A' d : (forall k, A' k = A k) -> Rep A d -> Rep A' d.
Proof.
  intros E [[H1 H2 Hf H3 H3' H3''] H4 H5]. split; [split|..]; try done.
  - intros c' t' db. rewrite E. apply H2.
  - intros c' t' db. rewrite E. apply Hf.
  - intros c' t' v. rewrite E. apply H4.
  - intros c' t'. rewrite E. apply H5.
Qed.
Lemma set_chan_same A c t d : Rep A d -> Rep (set_chan A c t (A (c, t))) d.
Proof. apply Msgs_ext. intros k. unfold set_chan. by case_decide as Hk; [subst|]. Qed.

Lemma Truncate_ok A c t seq now d : Rep A d -> IsChan c t -> is_u64 seq -> seq <> 0 ->
  writes A d (TruncateLogTo c t seq now) c t (truncated (A (c, t)) seq).
Proof.
  intros HR Hc Hs Hne. unfold writes, TruncateLogTo, truncated. destruct (Z.eqb_spec seq 0); [done|].
  pose proof (last_u64 _ (rep_fits _ _ HR c t Hc)) as Hu. apply wp_bind.
  eapply wp_reads; [by apply GetLast_ok| |by auto]. intros d1 [last tm] HR1 E1 Hlast. cbn [fst] in Hlast. subst last.
  destruct (Z.leb_spec (cl_last (A (c, t))) seq) as [Hle|Hgt]; [by apply wp_ret, set_chan_same|].
  assert (Hs2 : 0 < seq < MaxUint64) by (unfold is_u64, MaxUint64 in *; lia). apply wp_bind.
  eapply wp_reads; [by apply GetFloor_ok| |by auto]. intros d2 floor HR2 E2 ->. apply wp_bind.
  eapply wp_reads; [apply truncateWrites_ok; [done|done|done|by apply (floor_valid A c t d)]| |by auto]. intros d3 ws HR3 E3 (ws' & -> & [Hw1 Hw2 Hw3]). apply wp_bind, (wp_channel_db A); [done|].
  intros db Hdb. apply wp_bind. eapply wp_res; [unfold setChannelLastMessageSeq; rewrite last_key_eq; done|]. apply wp_bind.
  pose proof (rep_fits _ _ HR c t Hc) as Ha.
  eapply (wp_commit A c t _ _ {| (cut_msgs (A (c, t)) seq) with cl_last := seq; cl_floor := cut_search (cl_floor (A (c, t))) seq |});
    [done|done|done| | | | | |by auto].
  - repeat apply Forall_app_2; [by apply elsewhere_writes|apply Forall_singleton; left; apply truncate_under|].
    apply Forall_singleton. right. left. by eexists.
  - repeat apply Forall_app_2; [done| |apply Forall_singleton, last_outbox].
    apply Forall_singleton. eapply under_rows_outbox, truncate_under.
  - rewrite !apply_wops_app. apply (holds_floor _ _ {| (cut_msgs (A (c, t)) seq) with cl_last := seq |}).
    apply (holds_last (apply_wop (apply_wops _ ws') _)), holds_truncate; [apply hash_range|lia|done|].
    apply holds_frame; [done|]. by apply (sh_chan _ _ (rep_store _ _ HR3)).
  - rewrite <-app_assoc. eapply floor_app; [exact Hw3|]. apply floor_same. repeat apply Forall_cons_2; [|apply last_free|apply Forall_nil_2].
    eapply under_rows_free, truncate_under.
  - intros d4 HS E4. apply wp_seqCache. cbn [fst snd]. split; [exact HS| |apply set_fits; [|apply HR]].
    + cbn [mg_channelSeqCache]. rewrite E4. apply seqs_remove; [done|apply HR3].
    + destruct (cut_msgs_fits _ seq Ha). split; [done|cbn; lia].
Qed.
End Refine.
