(* ===== verification/WkMessagesProps.v ===== *)
(** * What the table of messages promises

    Every sequence of calls on a database that has just been opened answers as the
    channels themselves do ([message_table_refines]). *)

From Stdlib Require Import Strings.Byte Strings.Ascii.
From S2P Require Import Prelude ZTables RaftTypes WkProto KeyBytes WkTables WkKey WkKeyLaws WkKv.
From S2P Require Import WkPermission WkMembers WkMembersRefine WkModel WkMessages WkMessageDB WkMessagesLaws WkMessagesRep WkMessagesRefine.

(** ** Calls *)

Section Calls.
Context {F : Frames} {R : RecvPackets}.

Inductive msg_op :=
| OAppend (c : string) (t : Z) (msgs : list Message) (now now' : Z)
| OTruncate (c : string) (t seq now : Z)
| OSetLast (c : string) (t seq now now' : Z)
| OLastSeq (c : string) (t : Z)
| OPrev (c : string) (t start fin limit : Z)
| ONext (c : string) (t start fin limit : Z)
| OLoad (c : string) (t seq : Z)
| OLast (c : string) (t limit : Z)
| OLastMsg (c : string) (t : Z)
| OLastEnd (c : string) (t fin limit : Z)
| OFloor (c : string) (t : Z)
| OSized (c : string) (t start fin limitSize : Z).

Inductive msg_answer :=
| MDone
| MNum (z : Z)
| MStart (f : option Z)
| MOne (m : Msg)
| MMany (ms : list Msg).

Definition op_chan (op : msg_op) : string * Z :=
  match op with
  | OAppend c t _ _ _ | OTruncate c t _ _ | OSetLast c t _ _ _ | OLastSeq c t | OPrev c t _ _ _ | ONext c t _ _ _
  | OLoad c t _ | OLast c t _ | OLastMsg c t | OLastEnd c t _ _ | OFloor c t | OSized c t _ _ _ => (c, t)
  end.

Context {W : WkProto} {V : MsgViews F R}.

(** Some message is not of the channel. *)
Definition foreign_msg (c : string) (t : Z) (msgs : list Message) : bool :=
  existsb (fun msg => negb (bool_decide (m_ChannelID (msg_of msg) = c)) || negb (m_ChannelType (msg_of msg) =? t)) msgs.

(** The arguments are of the width of their Go types, and messages are numbered from 1. *)
Definition msg_op_fits (op : msg_op) : Prop :=
  match op with
  | OAppend c t msgs _ _ => msgs <> [] /\ (foreign_msg c t msgs = false -> Forall (append_fits c t) msgs)
  | OTruncate _ _ seq _ | OLoad _ _ seq => is_u64 seq
  | OSetLast _ _ seq _ _ => 0 <= seq < MaxUint64
  | OPrev _ _ start fin limit => 0 <= start < MaxUint64 /\ 0 <= fin /\ 0 <= limit < 2 ^ 63
  | ONext _ _ start fin _ | OSized _ _ start fin _ => is_u64 start /\ is_u64 fin
  | OLast _ _ limit => 0 <= limit < 2 ^ 63
  | OLastEnd _ _ fin limit => 0 <= fin /\ 0 <= limit < 2 ^ 63
  | OLastSeq _ _ | OLastMsg _ _ | OFloor _ _ => True
  end.

(** What a call does to its channel and answers; [None]: it is refused. *)
Definition msg_does (a : chanlog) (op : msg_op) : option (chanlog * msg_answer) :=
  match op with
  | OAppend c t msgs _ _ => if foreign_msg c t msgs then None else Some (appended a (msg_of <$> msgs), MDone)
  | OTruncate _ _ seq _ => if seq =? 0 then None else Some (truncated a seq, MDone)
  | OSetLast _ _ seq _ _ => Some ({| a with cl_last := seq |}, MDone)
  | OLastSeq _ _ => Some (a, MNum (cl_last a))
  | OPrev _ _ start fin limit =>
      if (start =? 0) || (start <? fin) then None else Some (a, MMany (prev_msgs a start fin limit))
  | ONext _ _ start fin limit => Some (a, MMany (next_msgs a start fin limit))
  | OLoad _ _ seq => (fun m => (a, MOne m)) <$> one_msg a seq
  | OLast _ _ limit => Some (a, MMany (if cl_last a =? 0 then [] else prev_msgs a (cl_last a) 0 limit))
  | OLastMsg _ _ => (fun m => (a, MOne m)) <$> (if cl_last a =? 0 then Some EmptyMsg else one_msg a (cl_last a))
  | OLastEnd _ _ fin limit =>
      Some (a, MMany (if (cl_last a =? 0) || (cl_last a <? fin) then [] else prev_msgs a (cl_last a) fin limit))
  | OFloor _ _ => Some (a, MStart (cl_floor a))
  | OSized _ _ start fin limitSize => Some (a, MMany (sized_msgs a start fin limitSize))
  end.

Abbreviation chans := (string * Z -> chanlog).

(** The channels after a call and its answer, [None] for an error.  [failing]: a store can
    fail; then the call reports an error and changes nothing. *)
Inductive msgs_step (failing : Prop) (A : chans) : msg_op -> chans -> option msg_answer -> Prop :=
| mstep_done op c t a r : op_chan op = (c, t) -> msg_does (A (c, t)) op = Some (a, r) ->
    msgs_step failing A op (set_chan A c t a) (Some r)
| mstep_refused op : msg_does (A (op_chan op)) op = None -> msgs_step failing A op A None
| mstep_failed op : failing -> msgs_step failing A op A None.

Inductive msgs_steps (failing : Prop) (A : chans) : list msg_op -> chans -> list (option msg_answer) -> Prop :=
| msteps_nil : msgs_steps failing A [] A []
| msteps_cons op ops A1 A2 r rs : msgs_step failing A op A1 r -> msgs_steps failing A1 ops A2 rs ->
    msgs_steps failing A (op :: ops) A2 (r :: rs).

(** What the channels answer when no store fails. *)
Fixpoint msg_answers (A : chans) (ops : list msg_op) : list (option msg_answer) :=
  match ops with
  | [] => []
  | op :: ops =>
      match msg_does (A (op_chan op)) op with
      | Some (a, r) => Some r :: msg_answers (set_chan A (op_chan op).1 (op_chan op).2 a) ops
      | None => None :: msg_answers A ops
      end
  end.
Lemma msteps_answers failing A ops A' rs : ~ failing -> msgs_steps failing A ops A' rs -> rs = msg_answers A ops.
Proof.
  intros Hno. induction 1 as [|A op ops A1 A2 r rs Hs _ IH]; [done|]. cbn [msg_answers].
  destruct Hs as [op c t a r Ec E|op E|op ?]; [rewrite Ec, E; by rewrite IH|by rewrite E, IH|done].
Qed.

(** *** As the code does them *)

Context {DB : Type} {P : Pebble DB} {C : Type} {L : LRU PermissionCacheItem C}.
Context {SC : Type} {LS : LRU bytes SC} {UC : Type} {LU : LRU Z UC}.
Abbreviation database := (messageDB (DB := DB) (C := C) (SC := SC) (UC := UC)).

Definition answer_of {X} (f : X -> msg_answer) (op : Db (DB := DB) (C := C) (SC := SC) (UC := UC) X) (d : database) :
    res (database * option msg_answer) :=
  let! (d, r) := op d in Ok (d, match r with inl _ => None | inr x => Some (f x) end).

Definition msg_exec (d : database) (op : msg_op) : res (database * option msg_answer) :=
  match op with
  | OAppend c t msgs now now' => answer_of (fun _ => MDone) (AppendMessages c t msgs now now') d
  | OTruncate c t seq now => answer_of (fun _ => MDone) (TruncateLogTo c t seq now) d
  | OSetLast c t seq now now' => answer_of (fun _ => MDone) (SetChannelLastMessageSeq c t seq now now') d
  | OLastSeq c t => answer_of (fun r => MNum r.1) (GetChannelLastMessageSeq c t) d
  | OPrev c t start fin limit => answer_of MMany (LoadPrevRangeMsgs c t start fin limit) d
  | ONext c t start fin limit => answer_of MMany (LoadNextRangeMsgs c t start fin limit) d
  | OLoad c t seq => answer_of MOne (LoadMsg c t seq) d
  | OLast c t limit => answer_of MMany (LoadLastMsgs c t limit) d
  | OLastMsg c t => answer_of MOne (GetLastMsg c t) d
  | OLastEnd c t fin limit => answer_of MMany (LoadLastMsgsWithEnd c t fin limit) d
  | OFloor c t => answer_of MStart (GetSearchOutboxFloor c t) d
  | OSized c t start fin limitSize => answer_of MMany (LoadNextRangeMsgsForSize c t start fin limitSize) d
  end.

Fixpoint msg_execs (d : database) (ops : list msg_op) : res (database * list (option msg_answer)) :=
  match ops with
  | [] => Ok (d, [])
  | op :: ops =>
      let! (d, r) := msg_exec d op in
      let! (d, rs) := msg_execs d ops in Ok (d, r :: rs)
  end.

Definition no_messages : chans := fun _ => mkChanlog ∅ 0 None.
End Calls.

(** ** Simulation *)

Section Simulation.
Context {W : WkProto} {F : Frames} {R : RecvPackets} {RL : RecvPacketsLaws R} {V : MsgViews F R}.
Context {DB : Type} {P : Pebble DB} {PL : PebbleLaws DB} {C : Type} {L : LRU PermissionCacheItem C}.
Context {SC : Type} {LS : LRU bytes SC} {LSL : LRULaws bytes SC} {UC : Type} {LU : LRU Z UC} {MC : MsgChannels} {AS : Aside}.
Abbreviation database := (messageDB (DB := DB) (C := C) (SC := SC) (UC := UC)).
Abbreviation chans := (string * Z -> chanlog).
Implicit Types (d : database) (A : chans).

(** A call is a step of the channels. *)
Definition msg_simulates A op (r : res (database * option msg_answer)) : Prop :=
  exists d' ans A', r = Ok (d', ans) /\ msgs_step (store_fails DB) A op A' ans /\ Rep A' d'.

Lemma read_simulates {X} A d op c t (f : X -> msg_answer) (m : Db X) o : op_chan op = (c, t) ->
  msg_does (A (c, t)) op = (fun x => (A (c, t), f x)) <$> o -> gives A d m o -> msg_simulates A op (answer_of f m d).
Proof.
  intros Ec Ed (d' & r & E & HR & _ & Hr). unfold msg_simulates, answer_of. rewrite E. cbn [res_bind].
  destruct r as [e|x].
  - exists d', None, A. split_and!; [done| |done]. destruct Hr as [?|Hn]; [by apply mstep_failed|].
    apply mstep_refused. by rewrite Ec, Ed, Hn.
  - exists d', (Some (f x)), (set_chan A c t (A (c, t))). split_and!; [done| |by apply set_chan_same].
    eapply mstep_done; [done|]. by rewrite Ed, Hr.
Qed.
Lemma write_simulates {X} A d op c t (m : Db X) a : op_chan op = (c, t) -> msg_does (A (c, t)) op = Some (a, MDone) ->
  writes A d m c t a -> msg_simulates A op (answer_of (fun _ => MDone) m d).
Proof.
  intros Ec Ed (d' & r & E & Hr). unfold msg_simulates, answer_of. rewrite E. cbn [res_bind]. destruct r as [e|x].
  - destruct Hr as [HR HF]. exists d', None, A. split_and!; [done|by apply mstep_failed|done].
  - exists d', (Some MDone), (set_chan A c t a). split_and!; [done|by eapply mstep_done|done].
Qed.
Lemma refused_simulates {X} A d op (f : X -> msg_answer) e (m : Db X) : Rep A d -> msg_does (A (op_chan op)) op = None ->
  m = db_err e -> msg_simulates A op (answer_of f m d).
Proof. intros HR Ed ->. exists d, None, A. split_and!; [done|by apply mstep_refused|done]. Qed.

Lemma last_simulates A d c t : Rep A d -> IsChan c t ->
  msg_simulates A (OLastSeq c t) (answer_of (fun r => MNum r.1) (GetChannelLastMessageSeq c t) d).
Proof.
  intros HR Hc. destruct (GetLast_ok A c t d HR Hc) as (d' & r & E & HR' & _ & Hr).
  unfold msg_simulates, answer_of. rewrite E. cbn [res_bind]. destruct r as [e|[z now]].
  - exists d', None, A. split_and!; [done|by apply mstep_failed|done].
  - cbn [fst] in *. subst z. eexists d', _, (set_chan A c t (A (c, t))). split_and!; [done|by eapply mstep_done|by apply set_chan_same].
Qed.

Lemma floor_simulates A d c t : Rep A d -> IsChan c t ->
  msg_simulates A (OFloor c t) (answer_of MStart (GetSearchOutboxFloor c t) d).
Proof.
  intros HR Hc. destruct (GetFloor_ok A c t d HR Hc) as (d' & r & E & HR' & _ & Hr).
  unfold msg_simulates, answer_of. rewrite E. cbn [res_bind]. destruct r as [e|f].
  - exists d', None, A. split_and!; [done|by apply mstep_failed|done].
  - subst f. eexists d', _, (set_chan A c t (A (c, t))). split_and!; [done|by eapply mstep_done|by apply set_chan_same].
Qed.

Lemma exec_msg A d op : Rep A d -> IsChan (op_chan op).1 (op_chan op).2 -> msg_op_fits op -> msg_simulates A op (msg_exec d op).
Proof.
  intros HR Hc Hf. destruct op as [c t msgs now now'|c t seq now|c t seq now now'|c t|c t start fin limit|c t start fin limit|
    c t seq|c t limit|c t|c t fin limit|c t|c t start fin limit]; cbn [op_chan fst snd msg_op_fits] in Hc, Hf; cbn [msg_exec].
  - destruct (foreign_msg c t msgs) eqn:Ef.
    + eapply refused_simulates; [done|cbn; by rewrite Ef|]. unfold AppendMessages. fold (foreign_msg c t msgs). by rewrite Ef.
    + eapply write_simulates; [done|cbn; by rewrite Ef|]. apply Append_ok; [done|done|by apply Hf|apply Hf].
  - destruct (Z.eqb_spec seq 0) as [->|Hne]; [by eapply refused_simulates|].
    eapply write_simulates; [done| |by apply Truncate_ok]. cbn. by destruct (Z.eqb_spec seq 0).
  - by eapply write_simulates; [done|done|apply SetLast_ok].
  - by apply last_simulates.
  - destruct (Z.eqb_spec start 0) as [->|Hne]; [by eapply (read_simulates _ _ _ c t _ _ None); [..|apply LoadPrev_refused; auto]|].
    destruct (Z.ltb_spec start fin) as [Hlt|Hle].
    + eapply (read_simulates _ _ _ c t _ _ None); [done| |apply LoadPrev_refused; [done|right; split; lia]]. cbn.
      destruct (Z.eqb_spec start 0), (Z.ltb_spec start fin); done || lia.
    + eapply (read_simulates _ _ _ c t _ _ (Some _)); [done| |apply LoadPrev_ok; [done|done|lia|lia|apply Hf]]. cbn.
      destruct (Z.eqb_spec start 0), (Z.ltb_spec start fin); done || lia.
  - by eapply read_simulates; [done| |apply LoadNext_ok; [..|apply Hf|apply Hf]].
  - by eapply read_simulates; [done| |apply LoadMsg_ok].
  - by eapply read_simulates; [done| |apply LoadLast_ok].
  - by eapply read_simulates; [done| |apply GetLastMsg_ok].
  - by eapply read_simulates; [done| |apply LoadLastWithEnd_ok; [..|apply Hf|apply Hf]].
  - by apply floor_simulates.
  - by eapply read_simulates; [done| |apply LoadForSize_ok; [..|apply Hf|apply Hf]].
Qed.

Definition msg_ops_ok (ops : list msg_op) : Prop := Forall (fun op => IsChan (op_chan op).1 (op_chan op).2 /\ msg_op_fits op) ops.

Lemma execs_msg A d ops : Rep A d -> msg_ops_ok ops ->
  exists d' rs A', msg_execs d ops = Ok (d', rs) /\ msgs_steps (store_fails DB) A ops A' rs /\ Rep A' d'.
Proof.
  intros HR Hops. revert A d HR. induction Hops as [|op ops [Hc Hf] _ IH]; intros A d HR.
  { exists d, [], A. split_and!; [done|constructor|done]. }
  destruct (exec_msg A d op HR Hc Hf) as (d1 & r & A1 & E1 & Hs & HR1). destruct (IH A1 d1 HR1) as (d2 & rs & A2 & E2 & Hss & HR2).
  exists d2, (r :: rs), A2. cbn [msg_execs]. rewrite E1. cbn [res_bind]. rewrite E2. split_and!; [done|by econstructor|done].
Qed.

(** A database that has just been opened. *)
Definition new_db d : Prop :=
  (0 < length (dbs_of d))%nat /\ Z.of_nat (length (dbs_of d)) < 2 ^ 32 /\
  Forall (fun db => kv_map db = ∅) (dbs_of d) /\ lru_map (mg_channelSeqCache d) = ∅.

Definition nothing_aside (n : nat) : Aside := mkAside n (fun _ => ∅).
Lemma new_db_rep d : new_db d -> Rep (AS := nothing_aside (length (dbs_of d))) no_messages d.
Proof.
  intros (Hl & Hl' & Hdb & Hsc). rewrite Forall_forall in Hdb. split; [split|..].
  - done.
  - intros c t db _ Hi. rewrite Hdb by by eapply list_elem_of_lookup_2. split; cbn [no_messages cl_msgs cl_last].
    + intros i col Hi'. by rewrite !lookup_empty.
    + intros r v. by rewrite lookup_empty.
    + by rewrite lookup_empty.
  - intros c t db _ Hi. rewrite Hdb by by eapply list_elem_of_lookup_2. unfold floor_in. rewrite lookup_empty.
    by destruct (IsValidSearchOutboxChannelIdentity c t).
  - intros i db Hi. rewrite Hdb by by eapply list_elem_of_lookup_2. split; intros r v; by rewrite lookup_empty.
  - done.
  - intros i db Hi. by rewrite Hdb by by eapply list_elem_of_lookup_2.
  - intros c t v _. by rewrite Hsc, lookup_empty.
  - intros c t _. split; [|done]. intros i mg Hm. cbn in Hm. by rewrite lookup_empty in Hm.
Qed.
End Simulation.

(** *** An example *)

(** Packets whose header and settings are bytes, and that are encoded as their payload. *)
#[local] Instance plainPackets : RecvPackets :=
  {| Framer := Z; zeroFramer := 0; ToFixHeaderUint8 := u8; FramerFromUint8 z := z; Setting_Uint8 := u8 |}.
#[local] Instance plainPackets_laws : RecvPacketsLaws plainPackets.
Proof. split; intros; apply u8_range. Qed.
#[local] Instance plainFrames : Frames :=
  {| Packet := Msg; MessageID := m_MessageID; LatestVersion := 5; EncodeFrame p := Some (m_Payload p); DecodeFrame _ _ := None |}.
#[local] Instance plainViews : MsgViews plainFrames plainPackets :=
  {| msg_of ms := {| (ms_RecvPacket ms) with m_Term := ms_Term ms; m_SearchOutbox := ms_SearchOutbox ms |};
     msg_size m := 100 + len (m_Payload m) |}.
#[local] Instance twoChannels : MsgChannels.
Proof.
  refine {| IsChan c t := (c, t) ∈ [("a", 1); ("b", 2)] |}.
  - intros c t. rewrite !elem_of_cons, elem_of_nil. intros [[= -> ->]|[[= -> ->]|[]]]; unfold is_u8; lia.
  - intros c t c' t'. rewrite !elem_of_cons, !elem_of_nil.
    intros [[= -> ->]|[[= -> ->]|[]]] [[= -> ->]|[[= -> ->]|[]]] E; (by vm_compute in E) || done.
Defined.

Definition demo_msg (c : string) (t seq id : Z) (search : bool) : Message :=
  mkMessage (mkMsg (R := plainPackets) 7 3 60 id seq "no" "" 1000 c t "" "user" [x41; x42] 0 false) 2 search 0.
Definition demo_db : messageDB (DB := kvmap) (C := lru_list PermissionCacheItem) (SC := lru_list bytes) (UC := lru_list Z) :=
  mkMessageDB (mkWukongDB [∅; ∅; ∅] (NewPermissionCache 100 (fun n => Z.of_nat n))) (lru_new 100) (lru_new 100).
Definition demo_ops : list msg_op :=
  [OAppend "a" 1 [demo_msg "a" 1 1 11 false; demo_msg "a" 1 2 12 true; demo_msg "a" 1 3 13 false] 5 6;
   OAppend "b" 2 [demo_msg "b" 2 1 21 false] 7 8; OAppend "b" 2 [demo_msg "a" 1 1 22 false] 7 8;
   OPrev "a" 1 3 0 2; OFloor "a" 1; ONext "a" 1 2 0 0; OTruncate "a" 1 2 9; OLastMsg "a" 1; OLoad "a" 1 3; OLast "a" 1 10;
   OSized "a" 1 1 0 100; OLastSeq "b" 2; OSetLast "b" 2 0 1 1; OLastEnd "b" 2 1 5; OTruncate "b" 2 0 1].

Lemma demo_append c t seq id search : (c, t) = ("a", 1) \/ (c, t) = ("b", 2) -> 1 <= seq <= 3 -> 1 <= id < 100 ->
  append_fits c t (demo_msg c t seq id search).
Proof.
  intros Hc Hs Hi. split.
  - split; cbn; unfold is_u32, is_i64, is_i32, is_u64; try lia. destruct Hc as [[= -> ->]|[= -> ->]]; unfold is_u8; lia.
  - done.
  - intros _. split_and!; [|cbn; lia|cbn; by destruct search]. by destruct Hc as [[= -> ->]|[= -> ->]].
Qed.
Lemma demo_ops_ok : msg_ops_ok demo_ops.
Proof.
  unfold msg_ops_ok, demo_ops. repeat (apply Forall_cons; split); [..|apply Forall_nil_2].
  all: split; [cbn [op_chan fst snd IsChan twoChannels]; apply (bool_decide_unpack _); by vm_compute|]; cbn [msg_op_fits].
  all: try (unfold is_u64, MaxUint64; lia).
  all: try (by split; [done|intros Hf; vm_compute in Hf]).
  all: try (split; [done|intros Hf; repeat (apply Forall_cons; split); [..|apply Forall_nil_2]]).
  all: apply demo_append; auto; lia.
Qed.

(** The numbers of an answer. *)
Definition answer_seqs (r : option msg_answer) : list (Z * Z) :=
  match r with
  | None => [(-1, 0)]
  | Some MDone => []
  | Some (MNum z) => [(z, 0)]
  | Some (MStart f) => [(default 0 f, 0)]
  | Some (MOne m) => [(m_MessageSeq m, m_Framer m)]
  | Some (MMany ms) => (fun m => (m_MessageSeq m, m_Framer m)) <$> ms
  end.

Module MessageProps.

(** C21. The table of messages refines the channels. From an empty database of 1 to below
    2^32 shards, every sequence of appends of at least one message (an append of none
    panics: [empty_append_panics]), truncations, settings of the last number and loads
    returns. The channels have types of one byte and hashes that differ; numbers are of the
    width of their types, message numbers from 1 to 2^32 - 1, and a message that is marked
    for the search has a channel and an id the search accepts. The answers are those of the
    channels with their messages, their last numbers and where the search starts, where, as
    in the code, an append over a message keeps the mark of the old one for the search, the
    search starts before the first marked message, a truncation removes every later message
    (and the start of the search, if that is greater), and a range of messages comes back in
    order, within the limits, with the settings as they are stored and the first message
    without its header. An error is reported only for arguments that are refused (a message
    of another channel, a truncation to 0, bounds in the wrong order, a message that is not
    there) or if a store fails, and then nothing has changed. *)
Theorem message_table_refines {W : WkProto} {F : Frames} {R : RecvPackets} {RL : RecvPacketsLaws R} {V : MsgViews F R}
    {DB} {P : Pebble DB} {PL : PebbleLaws DB} {C} {L : LRU PermissionCacheItem C}
    {SC} {LS : LRU bytes SC} {LSL : LRULaws bytes SC} {UC} {LU : LRU Z UC} {MC : MsgChannels}
    (d : messageDB (DB := DB) (C := C) (SC := SC) (UC := UC)) (ops : list msg_op) :
  new_db d -> msg_ops_ok ops ->
  exists d' rs A, msg_execs d ops = Ok (d', rs) /\ msgs_steps (store_fails DB) no_messages ops A rs /\ Rep (AS := nothing_aside (length (dbs_of d))) A d' /\
    (~ store_fails DB -> rs = msg_answers no_messages ops).
Proof.
  intros Hd Hops. destruct (execs_msg _ d ops (new_db_rep d Hd) Hops) as (d' & rs & A & E & Hs & HR).
  exists d', rs, A. split_and!; [done|done|done|]. intros Hno. by eapply msteps_answers.
Qed.

Lemma message_table_refines_witness :
  exists d', msg_execs demo_db demo_ops = Ok (d', msg_answers no_messages demo_ops) /\
    answer_seqs <$> msg_answers no_messages demo_ops =
      [[]; []; [(-1, 0)]; [(2, 0); (3, 7)]; [(1, 0)]; [(2, 0); (3, 7)]; []; [(2, 0)]; [(-1, 0)]; [(1, 0); (2, 7)]; [(1, 7)]; [(1, 0)]; []; []; [(-1, 0)]].
Proof.
  destruct (message_table_refines demo_db demo_ops) as (d' & rs & A & E & _ & _ & H).
  - split_and!; [cbn; lia|by vm_compute|repeat constructor|reflexivity].
  - apply demo_ops_ok.
  - exists d'. rewrite <-(H no_failing_map). split; [exact E|]. rewrite (H no_failing_map). by vm_compute.
Defined.

Definition demo_result {X} (op : Db (DB := kvmap) (C := lru_list PermissionCacheItem) (SC := lru_list bytes) (UC := lru_list Z) X)
    (f : GoError + X -> bool) : bool :=
  match op demo_db with
  | Ok (_, r) => f r
  | _ => false
  end.
Definition demo_truncated : Db (DB := kvmap) (C := lru_list PermissionCacheItem) (SC := lru_list bytes) (UC := lru_list Z) unit :=
  db_bind (AppendMessages "a" 1 [demo_msg "a" 1 1 11 false; demo_msg "a" 1 2 12 false] 5 6) (fun _ => TruncateLogTo "a" 1 1 7).

(** A truncation leaves the indexes and the cache of the senders: the id of a removed message
    finds the message that was appended in its place, and the last number of a sender is
    that of a message that is no longer there. *)
Lemma truncation_leaves_indexes :
  demo_result (db_bind demo_truncated (fun _ =>
      db_bind (AppendMessages "a" 1 [demo_msg "a" 1 2 13 false] 8 9) (fun _ => GetMessage 12)))
    (fun r => match r with inr m => (m_MessageID m =? 13) && (m_MessageSeq m =? 2) | inl _ => false end) = true /\
  demo_result (db_bind demo_truncated (fun _ => GetUserLastMsgSeq "user" "a" 1))
    (fun r => match r with inr seq => seq =? 2 | inl _ => false end) = true /\
  demo_result (db_bind demo_truncated (fun _ => LoadMsg "a" 1 2)) (fun r => match r with inr _ => false | inl _ => true end) = true.
Proof. split_and!; vm_compute; reflexivity. Qed.

(** An append of no messages does not return. *)
Lemma empty_append_panics : AppendMessages "a" 1 [] 5 6 demo_db = Panic.
Proof. vm_compute. reflexivity. Qed.
End MessageProps.
