(* ===== verification/ChannelKeys.v ===== *)
(** * The names of the rafts of the channels

    [pkg/wkutil/channel.go]: the name of a channel's raft, and the channel of a name.  The
    two agree for channels whose id has no ampersand ([ChannelKey_roundtrip]); the ampersands
    of an id are lost ([ChannelKey_loses]). *)

From Stdlib Require Import Strings.Ascii.
From S2P Require Import Prelude RaftTypes WkProto KeyBytes WkTables WkKey WkKv.
From S2P Require Import WkPermission WkMembers WkMembersLaws WkMembersCache WkModel WkMessages.

(** [strings.Split] with a separator of one byte. *)
Fixpoint split_on (sep : ascii) (s : string) : string * list string :=
  match s with
  | EmptyString => (EmptyString, [])
  | String c s =>
      let '(w, ws) := split_on sep s in
      if bool_decide (c = sep) then (EmptyString, w :: ws) else (String c w, ws)
  end.

(** [strconv.Atoi]: the value that is returned, with or without an error. *)
Definition digit (c : ascii) : Z := Z.of_nat (nat_of_ascii c) - 48.
Fixpoint decimal (n : Z) (s : string) : option Z :=
  match s with
  | EmptyString => Some n
  | String c s =>
      if (0 <=? digit c) && (digit c <=? 9) then
        let n := n * 10 + digit c in
        if two64 - 1 <? n then Some (two64 - 1) else decimal n s
      else None
  end.
Definition unsigned (s : string) : option Z :=
  match s with
  | EmptyString => None
  | _ => decimal 0 s
  end.
Definition Atoi (s : string) : Z :=
  match s with
  | String "-" s => match unsigned s with Some n => Z.max (- 2 ^ 63) (- n) | None => 0 end
  | String "+" s => match unsigned s with Some n => Z.min (2 ^ 63 - 1) n | None => 0 end
  | _ => match unsigned s with Some n => Z.min (2 ^ 63 - 1) n | None => 0 end
  end.

(** [pkg/wkutil/channel.go] [ChannelFromlKey] *)
Definition ChannelFromlKey (channelKey : string) : string * Z :=
  match split_on "&" channelKey with
  | (_, []) => ("", 0)
  | (channelType, channelId) => (foldr String.app "" channelId, u8 (Atoi channelType))
  end.

(** ** Names *)

(** The text without the separators. *)
Fixpoint drop_sep (sep : ascii) (s : string) : string :=
  match s with
  | EmptyString => EmptyString
  | String c s => if bool_decide (c = sep) then drop_sep sep s else String c (drop_sep sep s)
  end.

Lemma split_join sep s : let '(w, ws) := split_on sep s in w +:+ foldr String.app "" ws = drop_sep sep s.
Proof.
  induction s as [|c s IH]; [done|]. cbn [split_on drop_sep]. destruct (split_on sep s) as [w ws].
  case_bool_decide; cbn [foldr]; [done|]. by rewrite str_app_cons, IH.
Qed.
Lemma split_first sep a s : sep ∉ String.list_ascii_of_string a ->
  split_on sep (a +:+ String sep s) = (a, (split_on sep s).1 :: (split_on sep s).2).
Proof.
  intros Ha. induction a as [|c a IH].
  - change ("" +:+ String sep s) with (String sep s). cbn [split_on]. rewrite bool_decide_eq_true_2 by done. by destruct (split_on sep s).
  - cbn [String.list_ascii_of_string] in Ha. apply not_elem_of_cons in Ha as [Hc Ha]. rewrite str_app_cons. cbn [split_on].
    rewrite IH by done. by rewrite bool_decide_eq_false_2 by congruence.
Qed.
Lemma drop_sep_id sep s : sep ∉ String.list_ascii_of_string s -> drop_sep sep s = s.
Proof.
  induction s as [|c s IH]; [done|]. cbn [String.list_ascii_of_string drop_sep]. intros [Hc Hs]%not_elem_of_cons.
  rewrite bool_decide_eq_false_2 by congruence. by rewrite IH.
Qed.

Lemma Atoi_byte t : is_u8 t -> Atoi (FormatInt t) = t.
Proof.
  intros Ht. assert (H : forallb (fun n => Atoi (FormatInt (Z.of_nat n)) =? Z.of_nat n) (seq 0 256) = true) by (by vm_compute).
  rewrite forallb_forall in H. specialize (H (Z.to_nat t)). rewrite Z2Nat.id in H by (unfold is_u8 in Ht; lia).
  apply Z.eqb_eq, H, in_seq. unfold is_u8 in Ht. lia.
Qed.

(** The channel of the name of a channel has the id without its ampersands. *)
Lemma ChannelKey_loses c t : is_u8 t -> ChannelFromlKey (ChannelToKey c t) = (drop_sep "&" c, t).
Proof.
  intros Ht. unfold ChannelFromlKey, ChannelToKey. change ("&" +:+ c) with (String "&" c).
  rewrite split_first by by apply FormatInt_without. pose proof (split_join "&" c) as E. destruct (split_on "&" c) as [w ws].
  cbn [fst snd foldr]. rewrite E, Atoi_byte by done. by rewrite u8_small.
Qed.
Lemma ChannelKey_roundtrip c t : is_u8 t -> "&"%char ∉ String.list_ascii_of_string c -> ChannelFromlKey (ChannelToKey c t) = (c, t).
Proof. intros Ht Hc. by rewrite ChannelKey_loses, drop_sep_id. Qed.
Lemma ChannelFromlKey_type k : is_u8 (ChannelFromlKey k).2.
Proof. unfold ChannelFromlKey. destruct (split_on "&" k) as [w [|x ws]]; [done|]. apply u8_range. Qed.
