(* ===== verification/ChannelApplied.v ===== *)
(** * Recording what the channels have applied

    [pkg/cluster/channel/search_applied_observer.go]: the rafts of the channels tell the
    observer the index they have applied, and a worker writes it to the database, so that
    the search knows which messages are final.  The queue and the table of retries are
    bounded.

    The database is an interface ([AppliedDB]).  The callers ([Observe], [Stop]) and the
    worker are threads: [obs_step] interleaves what they do between two operations on the
    lock, on a channel or on the database.  The order of a map is any order. *)

From S2P Require Import Prelude RaftTypes WkProto KeyBytes WkTables WkKey WkModel WkMessages ChannelKeys.

(** What the observer uses of the database: the index a channel has applied, which only
    grows. *)
Class AppliedDB (D : Type) := {
  UpdateAppliedIndex : D -> string -> Z -> Z -> option D
}.
Class AppliedDBLaws (D : Type) {A : AppliedDB D} := {
  watermark : D -> string * Z -> Z;
  update_watermark d c t i d' : is_u64 i -> UpdateAppliedIndex d c t i = Some d' -> i <= watermark d' (c, t);
  update_grows d c t i d' k : is_u64 i -> UpdateAppliedIndex d c t i = Some d' -> watermark d k <= watermark d' k
}.

(** [pkg/cluster/channel/search_applied_observer.go] [lines 14-23] *)
Definition searchAppliedObservationQueueSize : Z := 4096.
Definition searchAppliedRetryCapacity : Z := 4096.
Definition searchAppliedBatchSize : Z := 256.
Definition Millisecond : Z := 1000000.
Definition searchAppliedRetryMinBackoff : Z := 100 * Millisecond.
Definition searchAppliedRetryMaxBackoff : Z := 5000 * Millisecond.
Definition searchAppliedWarnInterval : Z := 5000 * Millisecond.
Definition searchAppliedStopDrainTimeout : Z := 3000 * Millisecond.

(** [pkg/cluster/channel/search_applied_observer.go] [lines 25-29] *)
Inductive obs_err := ErrInvalid | ErrClosed | ErrCapacity | ErrUnhealthy.

(** [pkg/cluster/channel/search_applied_observer.go] [searchAppliedObservation] *)
Record observation := mkObservation { on_key : string; on_index : Z }.

(** [pkg/cluster/channel/search_applied_observer.go] [searchAppliedObserver]

    [retryWake] has room for one, [stopCh] is closed or not; times are [None] when zero. *)
Record observer := mkObserver {
  ob_queue : list observation;
  ob_retryWake : bool;
  ob_stopCh : bool;
  ob_accepting : bool;
  ob_retry : gmap string Z;
  ob_overflowed : bool;
  ob_retryBackoff : Z;
  ob_nextRetryAt : option Z;
  ob_lastWarn : option Z;
  ob_suppressedWarns : Z
}.
Implicit Types o : observer.

(** [pkg/cluster/channel/search_applied_observer.go] [newSearchAppliedObserver] *)
Definition newSearchAppliedObserver : observer := mkObserver [] false false true ∅ false 0 None None 0.

(** [pkg/cluster/channel/search_applied_observer.go] [supportsSearchAppliedObservation] *)
Definition supportsSearchAppliedObservation (channelKey : string) : bool :=
  let '(channelID, channelType) := ChannelFromlKey channelKey in
  IsValidSearchOutboxChannelIdentity channelID channelType.

(** [pkg/cluster/channel/search_applied_observer.go] [(o *searchAppliedObserver) addRetryLocked] *)
Definition addRetryLocked o (x : observation) : observer * option obs_err :=
  match ob_retry o !! on_key x with
  | Some current =>
      (if current <? on_index x then {| o with ob_retry := <[on_key x := on_index x]> (ob_retry o) |} else o, None)
  | None =>
      if searchAppliedRetryCapacity <=? Z.of_nat (size (ob_retry o))
      then ({| o with ob_overflowed := true |}, Some ErrCapacity)
      else ({| o with ob_retry := <[on_key x := on_index x]> (ob_retry o) |}, None)
  end.

(** [pkg/cluster/channel/search_applied_observer.go] [(o *searchAppliedObserver) wakeRetry] *)
Definition wakeRetry o : observer := {| o with ob_retryWake := true |}.

(** [pkg/cluster/channel/search_applied_observer.go] [(o *searchAppliedObserver) Observe] *)
Definition Observe o (key : string) (index : Z) : observer * option obs_err :=
  if bool_decide (key = "") || (index =? 0) then (o, Some ErrInvalid)
  else if negb (supportsSearchAppliedObservation key) then (o, None)
  else if negb (ob_accepting o) then (o, Some ErrClosed)
  else
    let x := mkObservation key index in
    if len (ob_queue o) <? searchAppliedObservationQueueSize
    then ({| o with ob_queue := ob_queue o ++ [x] |}, None)
    else
      let wasEmpty := bool_decide (ob_retry o = ∅) in
      match addRetryLocked o x with
      | (o, Some err) => (wakeRetry o, Some err)
      | (o, None) => (if wasEmpty then wakeRetry o else o, None)
      end.

(** [pkg/cluster/channel/search_applied_observer.go] [(o *searchAppliedObserver) Ready] *)
Definition ObserverReady o : option obs_err :=
  if negb (ob_accepting o) || negb (bool_decide (ob_retry o = ∅)) || ob_overflowed o then Some ErrUnhealthy else None.

(** [pkg/cluster/channel/search_applied_observer.go] [(o *searchAppliedObserver) Stop]

    The part under the lock; then the channel is closed, and the caller waits. *)
Definition StopObserver o : observer := {| o with ob_accepting := false |}.
Definition closeStop o : observer := {| o with ob_stopCh := true |}.

(** [pkg/cluster/channel/search_applied_observer.go] [(o *searchAppliedObserver) deferBatch]

    [order]: the entries in the order of the map. *)
Definition deferBatch o (order : list (string * Z)) : observer :=
  foldl (fun o p => (addRetryLocked o (mkObservation p.1 p.2)).1) o order.

(** [pkg/cluster/channel/search_applied_observer.go] [(o *searchAppliedObserver) recordSuccess] *)
Definition recordSuccess o (key : string) (index : Z) : observer :=
  match ob_retry o !! key with
  | Some retryIndex => if retryIndex <=? index then {| o with ob_retry := delete key (ob_retry o) |} else o
  | None => o
  end.

(** [pkg/cluster/channel/search_applied_observer.go] [(o *searchAppliedObserver) hasRecoveryWork] *)
Definition hasRecoveryWork o : bool := negb (bool_decide (ob_retry o = ∅)).

(** [pkg/cluster/channel/search_applied_observer.go] [lines 170-172]

    An observation that joins a batch. *)
Definition joinBatch (pending : gmap string Z) (x : observation) : gmap string Z :=
  if default 0 (pending !! on_key x) <? on_index x then <[on_key x := on_index x]> pending else pending.

(** [pkg/cluster/channel/search_applied_observer.go] [lines 271-289]

    [finishAttempt] under the lock; [failed]: there is an error. *)
Definition finishAttempt o (failed : bool) (now : Z) : observer :=
  let later backoff := {| o with ob_retryBackoff := backoff; ob_nextRetryAt := Some (now + backoff) |} in
  if failed then
    later (if ob_retryBackoff o =? 0 then searchAppliedRetryMinBackoff
           else Z.min (ob_retryBackoff o * 2) searchAppliedRetryMaxBackoff)
  else if bool_decide (ob_retry o = ∅) then {| o with ob_retryBackoff := 0; ob_nextRetryAt := None |}
  else later searchAppliedRetryMinBackoff.

(** [pkg/cluster/channel/search_applied_observer.go] [(o *searchAppliedObserver) warnRetry] *)
Definition warnRetry o (now : Z) : observer :=
  match ob_lastWarn o with
  | Some lastWarn =>
      if now - lastWarn <? searchAppliedWarnInterval
      then {| o with ob_suppressedWarns := ob_suppressedWarns o +64 1 |}
      else {| o with ob_suppressedWarns := 0; ob_lastWarn := Some now |}
  | None => {| o with ob_suppressedWarns := 0; ob_lastWarn := Some now |}
  end.

(** [pkg/cluster/channel/search_applied_observer.go] [lines 256-256]

    Whether a recovery has to wait. *)
Definition backingOff o (now : Z) : bool :=
  match ob_nextRetryAt o with
  | Some t => now <? t
  | None => false
  end.

(** ** Threads *)

(** Where the worker is, with what it holds; [dl] is the deadline when it drains. *)
Inductive worker :=
| WLoop
| WSelect
| WBatch (dl : option Z) (pending : gmap string Z) (consumed : Z)
| WCheck (pending : gmap string Z)
| WDefer (dl : option Z) (pending : gmap string Z)
| WFlush (dl : option Z) (pending : gmap string Z)
| WRecord (dl : option Z) (pending : gmap string Z) (key : string) (index : Z)
| WFail (dl : option Z) (pending : gmap string Z)
| WFinish (dl : option Z) (failed : bool)
| WWarn (dl : option Z)
| WRecover (dl : option Z)
| WSnapshot (dl : option Z)
| WDrain (deadline : Z)
| WDrainCheck (deadline : Z)
| WDone (clean : bool).

(** Where the worker goes on. *)
Definition back (dl : option Z) : worker :=
  match dl with
  | None => WLoop
  | Some deadline => WDrain deadline
  end.

Section Threads.
Context {D : Type} {AD : AppliedDB D}.

Record osys := mkOsys { sy_obs : observer; sy_worker : worker; sy_db : D }.

(** [pkg/cluster/channel/search_applied_observer.go] [(o *searchAppliedObserver) run]

    The loop, with the two selections of every round. *)
Inductive run_step (o : observer) (d : D) : worker -> observer -> worker -> D -> Prop :=
| w_stopped now : ob_stopCh o = true -> run_step o d WLoop o (WDrain (now + searchAppliedStopDrainTimeout)) d
| w_running : ob_stopCh o = false -> run_step o d WLoop o WSelect d
| w_receive x q : ob_queue o = x :: q ->
    run_step o d WSelect {| o with ob_queue := q |} (WBatch None {[on_key x := on_index x]} 1) d
| w_woken : ob_retryWake o = true -> run_step o d WSelect {| o with ob_retryWake := false |} (WRecover None) d
| w_ticked : run_step o d WSelect o (WRecover None) d
| w_stop now : ob_stopCh o = true -> run_step o d WSelect o (WDrain (now + searchAppliedStopDrainTimeout)) d
| w_check p : run_step o d (WCheck p) o (if hasRecoveryWork o then WDefer None p else WFlush None p) d
| w_defer dl p order : order ≡ₚ map_to_list p -> run_step o d (WDefer dl p) (deferBatch o order) (back dl) d.

(** [pkg/cluster/channel/search_applied_observer.go] [(o *searchAppliedObserver) queueBatch]

    The observations that are there join the first one. *)
Inductive batch_step (o : observer) (d : D) : worker -> observer -> worker -> D -> Prop :=
| w_more dl p n x q : n < searchAppliedBatchSize -> ob_queue o = x :: q ->
    batch_step o d (WBatch dl p n) {| o with ob_queue := q |} (WBatch dl (joinBatch p x) (n + 1)) d
| w_batch dl p n : searchAppliedBatchSize <= n \/ ob_queue o = [] ->
    batch_step o d (WBatch dl p n) o (match dl with None => WCheck p | Some _ => WDefer dl p end) d.

(** [pkg/cluster/channel/search_applied_observer.go] [(o *searchAppliedObserver) flush]

    Any entry that is left is next. *)
Inductive flush_step (o : observer) (d : D) : worker -> observer -> worker -> D -> Prop :=
| w_flushed dl : flush_step o d (WFlush dl ∅) o (WFinish dl false) d
| w_skip dl p k i : p !! k = Some i -> supportsSearchAppliedObservation k = false ->
    flush_step o d (WFlush dl p) o (WRecord dl p k i) d
| w_update dl p k i d' : p !! k = Some i -> supportsSearchAppliedObservation k = true ->
    UpdateAppliedIndex d (ChannelFromlKey k).1 (ChannelFromlKey k).2 i = Some d' ->
    flush_step o d (WFlush dl p) o (WRecord dl p k i) d'
| w_update_fails dl p k i : p !! k = Some i -> supportsSearchAppliedObservation k = true ->
    UpdateAppliedIndex d (ChannelFromlKey k).1 (ChannelFromlKey k).2 i = None ->
    flush_step o d (WFlush dl p) o (WFail dl p) d
| w_record dl p k i : flush_step o d (WRecord dl p k i) (recordSuccess o k i) (WFlush dl (delete k p)) d
| w_fail dl p order : order ≡ₚ map_to_list p -> flush_step o d (WFail dl p) (deferBatch o order) (WFinish dl true) d.

(** [pkg/cluster/channel/search_applied_observer.go] [(o *searchAppliedObserver) retrySnapshot] *)
Definition retrySnapshot (o : observer) (p : gmap string Z) : Prop :=
  p ⊆ ob_retry o /\ Z.of_nat (size p) = Z.min (Z.of_nat (size (ob_retry o))) searchAppliedBatchSize.

(** [pkg/cluster/channel/search_applied_observer.go] [(o *searchAppliedObserver) attemptRecovery] *)
Inductive recover_step (o : observer) (d : D) : worker -> observer -> worker -> D -> Prop :=
| w_recover dl now :
    recover_step o d (WRecover dl) o (if bool_decide (dl = None) && backingOff o now then back dl else WSnapshot dl) d
| w_snapshot dl p : retrySnapshot o p ->
    recover_step o d (WSnapshot dl) o (if bool_decide (p = ∅) then back dl else WFlush dl p) d
| w_finish dl failed now :
    recover_step o d (WFinish dl failed) (finishAttempt o failed now) (if failed then WWarn dl else back dl) d
| w_warn dl now : recover_step o d (WWarn dl) (warnRetry o now) (back dl) d.

(** [pkg/cluster/channel/search_applied_observer.go] [(o *searchAppliedObserver) drainOnStop] *)
Inductive drain_step (o : observer) (d : D) : worker -> observer -> worker -> D -> Prop :=
| w_drain_receive dl x q : ob_queue o = x :: q ->
    drain_step o d (WDrain dl) {| o with ob_queue := q |} (WBatch (Some dl) {[on_key x := on_index x]} 1) d
| w_drain_empty dl : ob_queue o = [] -> drain_step o d (WDrain dl) o (WDrainCheck dl) d
| w_drained dl : hasRecoveryWork o = false -> drain_step o d (WDrainCheck dl) o (WDone true) d
| w_drain_timeout dl now now' : hasRecoveryWork o = true -> dl < now ->
    drain_step o d (WDrainCheck dl) (warnRetry o now') (WDone false) d
| w_drain_recover dl now : hasRecoveryWork o = true -> now <= dl -> drain_step o d (WDrainCheck dl) o (WRecover (Some dl)) d.

Definition worker_step (o : observer) (d : D) (w : worker) (o' : observer) (w' : worker) (d' : D) : Prop :=
  run_step o d w o' w' d' \/ batch_step o d w o' w' d' \/ flush_step o d w o' w' d' \/
  recover_step o d w o' w' d' \/ drain_step o d w o' w' d'.
End Threads.
Arguments osys : clear implicits.
