(* ===== verification/WkApplied.v ===== *)
(** * The applied index of a channel

    [pkg/wkdb/channel.go]: the index a channel has applied, as the database keeps it.  It
    provides what the observer of the channels relies on ([wukong_applied]). *)

From Stdlib Require Import Strings.Byte.
From S2P Require Import Prelude RaftTypes WkProto KeyBytes WkTables WkKey WkKeyLaws WkKv.
From S2P Require Import WkPermission WkMembers WkMembersLaws WkModel WkMessages ChannelApplied.

#[local] Arguments be_bytes : simpl never.

Section Applied.
Context {DB : Type} {P : Pebble DB} {C : Type} {L : LRU PermissionCacheItem C}.
Abbreviation state := (wukongDB (DB := DB) (C := C)).
Implicit Types wk : state.

(** [pkg/wkdb/channel.go] [(wk *wukongDB) GetChannelAppliedIndex] *)
Definition GetChannelAppliedIndex wk (channelId : string) (channelType : Z) : res (GoError + Z) :=
  let! (_, db) := channelDb wk channelId channelType in
  let! k := NewChannelCommonColumnKey channelId channelType (column TableChannelCommon "AppliedIndex") in
  match kv_get db k with
  | NotFound => Ok (inr 0)
  | GetErr => Ok (inl (ErrOther "read"))
  | Found data =>
      if negb (length data =? 8)%nat then Ok (inl (ErrOther "channel applied index is corrupt"))
      else let! v := value_uint 8 data in Ok (inr v)
  end.

(** [pkg/wkdb/channel.go] [(wk *wukongDB) UpdateChannelAppliedIndex] *)
Definition UpdateChannelAppliedIndex wk (channelId : string) (channelType index : Z) : res (state * option GoError) :=
  let! current := GetChannelAppliedIndex wk channelId channelType in
  match current with
  | inl err => Ok (wk, Some err)
  | inr current =>
      if index <=? current then Ok (wk, None)
      else
        let! (i, db) := channelDb wk channelId channelType in
        let! k := NewChannelCommonColumnKey channelId channelType (column TableChannelCommon "AppliedIndex") in
        match commit wk i db [WSet k (be_bytes 8 index)] with
        | Some wk => Ok (wk, None)
        | None => Ok (wk, Some commitErr)
        end
  end.

#[export] Instance wukong_update : AppliedDB state := {|
  UpdateAppliedIndex wk c t i :=
    match UpdateChannelAppliedIndex wk c t i with
    | Ok (wk', None) => Some wk'
    | _ => None
    end
|}.

(** ** What is stored *)

Context {PL : PebbleLaws DB}.

Definition applied_key (h : Z) : bytes :=
  let n := column TableChannelCommon "AppliedIndex" in prefix4 (t_Id TableChannelCommon) dataTypeTable ++ be_bytes 8 h ++ [n.1; n.2].
Lemma applied_key_eq c t : NewChannelCommonColumnKey c t (column TableChannelCommon "AppliedIndex") = Ok (applied_key (ChannelToNum c t)).
Proof. reflexivity. Qed.

Definition applied_value (v : option bytes) : Z :=
  match v with
  | Some data => if (length data =? 8)%nat then be_val data else 0
  | None => 0
  end.
Definition stored_applied wk (k : string * Z) : Z :=
  match channelDb wk k.1 k.2 with
  | Ok (_, db) => applied_value (kv_map db !! applied_key (ChannelToNum k.1 k.2))
  | _ => 0
  end.

Lemma GetApplied_spec wk c t z : GetChannelAppliedIndex wk c t = Ok (inr z) -> z = stored_applied wk (c, t).
Proof.
  unfold GetChannelAppliedIndex, stored_applied. cbn [fst snd]. destruct (channelDb wk c t) as [[i db]| |]; [|done..]. cbn [res_bind].
  rewrite applied_key_eq. cbn [res_bind]. pose proof (kv_get_law db (applied_key (ChannelToNum c t))) as Hg.
  destruct (kv_get db _) as [v| |]; cbn [got_agrees] in Hg; [| |done].
  - rewrite Hg. cbn [applied_value]. destruct (Nat.eqb_spec (length v) 8) as [E|]; cbn [negb]; [|done].
    unfold value_uint. rewrite E. cbn [Nat.ltb Nat.leb res_bind]. rewrite take_ge by lia. by intros [= <-].
  - rewrite Hg. by intros [= <-].
Qed.

(** A shard is replaced by one that differs in one key. *)
Lemma stored_update wk i db db' c t index k : is_u64 index -> channelDb wk c t = Ok (i, db) ->
  kv_map db' = <[applied_key (ChannelToNum c t) := be_bytes 8 index]> (kv_map db) ->
  stored_applied {| wk with wk_dbs := <[i := db']> (wk_dbs wk) |} k =
  match channelDb wk k.1 k.2 with
  | Ok (j, d) => if decide (j = i /\ ChannelToNum k.1 k.2 = ChannelToNum c t) then index else stored_applied wk k
  | _ => 0
  end.
Proof.
  intros Hidx Hc Hm. assert (Hi : wk_dbs wk !! i = Some db).
  { unfold channelDb in Hc. destruct (channelDbIndex wk c t) as [j| |]; [|done..]. cbn [res_bind] in Hc.
    destruct (wk_dbs wk !! j) eqn:Ej; [|done]. by injection Hc as <- <-. }
  unfold stored_applied, channelDb, channelDbIndex. cbn [wk_dbs]. rewrite length_insert.
  destruct (_ =? 0); [done|]. cbn [res_bind]. set (j := Z.to_nat (u32 (ChannelToNum k.1 k.2 mod len (wk_dbs wk)))).
  destruct (decide (j = i)) as [->|Hne].
  - rewrite list_lookup_insert_eq by by eapply lookup_lt_Some. rewrite Hi, Hm.
    destruct (decide (ChannelToNum k.1 k.2 = ChannelToNum c t)) as [->|Hn].
    + rewrite decide_True by done. rewrite lookup_insert_eq. unfold applied_value. rewrite be_bytes_length.
      cbn [Nat.eqb]. by rewrite be_val_bytes.
    + rewrite decide_False by tauto. rewrite lookup_insert_ne; [done|]. unfold applied_key. intros E%app_inv_head.
      apply app_inj_1 in E as [E _]; [|by rewrite !be_bytes_length]. apply (be_bytes_inj 8) in E; [by apply Hn|apply channelToNum_range..].
  - rewrite list_lookup_insert_ne by done. destruct (wk_dbs wk !! j); [|done]. by rewrite decide_False by tauto.
Qed.

(** An update: nothing changed, or one key did. *)
Lemma Update_cases wk c t index wk' : UpdateChannelAppliedIndex wk c t index = Ok (wk', None) ->
  wk' = wk /\ index <= stored_applied wk (c, t) \/
  exists i db db', channelDb wk c t = Ok (i, db) /\ stored_applied wk (c, t) < index /\ wk' = {| wk with wk_dbs := <[i := db']> (wk_dbs wk) |} /\
    kv_map db' = <[applied_key (ChannelToNum c t) := be_bytes 8 index]> (kv_map db).
Proof.
  unfold UpdateChannelAppliedIndex. destruct (GetChannelAppliedIndex wk c t) as [[e|z]| |] eqn:Eg; [done| |done..].
  apply GetApplied_spec in Eg as ->. cbn [res_bind]. destruct (Z.leb_spec index (stored_applied wk (c, t))) as [Hle|Hgt].
  - intros [= <-]. by left.
  - destruct (channelDb wk c t) as [[i db]| |] eqn:Ec; [|done..]. cbn [res_bind]. rewrite applied_key_eq. cbn [res_bind]. unfold commit.
    destruct (kv_commit db _) as [db'|] eqn:Em; [|done]. intros [= <-]. right. exists i, db, db'. split_and!; [done|done|done|].
    apply kv_commit_law in Em. exact Em.
Qed.

Lemma applied_key_shared wk c t c' t' : ChannelToNum c' t' = ChannelToNum c t -> stored_applied wk (c', t') = stored_applied wk (c, t).
Proof. intros E. unfold stored_applied, channelDb, channelDbIndex. cbn [fst snd]. by rewrite E. Qed.

#[export] Instance wukong_applied : AppliedDBLaws state.
Proof.
  refine {| watermark := stored_applied |}.
  - intros wk c t i wk' Hi. cbn. destruct (UpdateChannelAppliedIndex wk c t i) as [[wk1 [e|]]| |] eqn:E; [done| |done..]. intros [= <-].
    apply Update_cases in E as [[-> Hle]|(j & db & db' & Ec & _ & -> & Hm)]; [done|].
    rewrite (stored_update wk j db db' c t i) by done. cbn [fst snd]. rewrite Ec, decide_True by done. lia.
  - intros wk c t i wk' [c' t'] Hi. cbn. destruct (UpdateChannelAppliedIndex wk c t i) as [[wk1 [e|]]| |] eqn:E; [done| |done..]. intros [= <-].
    apply Update_cases in E as [[-> Hle]|(j & db & db' & Ec & Hlt & -> & Hm)]; [done|].
    rewrite (stored_update wk j db db' c t i) by done. cbn [fst snd]. destruct (channelDb wk c' t') as [[j' d']| |] eqn:Ec'.
    + destruct (decide _) as [[_ En]|]; [|lia]. rewrite (applied_key_shared wk c t c' t' En). lia.
    + unfold stored_applied. cbn [fst snd]. by rewrite Ec'.
    + unfold stored_applied. cbn [fst snd]. by rewrite Ec'.
Defined.
End Applied.
