(* ===== verification/ChannelAppliedProps.v ===== *)
(** * What the observer promises

    However the callers and the worker interleave and however the database fails, an index
    that was accepted is written, or still on its way, or the observer says that it lost one
    ([applied_never_lost]); the queue, the retries and the time between two attempts are
    bounded ([observer_bounded]). *)

From S2P Require Import Prelude RaftTypes WkProto KeyBytes WkTables WkKey WkModel WkMessages ChannelKeys ChannelApplied.
From S2P Require Import WkKv WkPermission WkMembers WkApplied.

Section Laws.
Context {D : Type} {AD : AppliedDB D} {AL : AppliedDBLaws D}.
Implicit Types (o : observer) (d : D) (x : observation) (p : gmap string Z).

(** ** Runs *)

(** The observations that [Observe] has accepted are kept with the state.  [reach_env]: others
    write to the database. *)
Inductive obs_reach (d0 : D) : osys D -> list observation -> Prop :=
| reach_new : obs_reach d0 (mkOsys newSearchAppliedObserver WLoop d0) []
| reach_observe s acc k i o r : obs_reach d0 s acc -> is_u64 i -> Observe (sy_obs s) k i = (o, r) ->
    obs_reach d0 (mkOsys o (sy_worker s) (sy_db s))
      (if bool_decide (r = None) && supportsSearchAppliedObservation k then mkObservation k i :: acc else acc)
| reach_stop s acc : obs_reach d0 s acc -> obs_reach d0 (mkOsys (StopObserver (sy_obs s)) (sy_worker s) (sy_db s)) acc
| reach_close s acc : obs_reach d0 s acc -> ob_accepting (sy_obs s) = false ->
    obs_reach d0 (mkOsys (closeStop (sy_obs s)) (sy_worker s) (sy_db s)) acc
| reach_env s acc d : obs_reach d0 s acc -> (forall k, watermark (sy_db s) k <= watermark d k) ->
    obs_reach d0 (mkOsys (sy_obs s) (sy_worker s) d) acc
| reach_worker s acc o w d : obs_reach d0 s acc -> worker_step (sy_obs s) (sy_db s) (sy_worker s) o w d ->
    obs_reach d0 (mkOsys o w d) acc.

(** ** What is on its way *)

(** What the worker holds. *)
Definition held (w : worker) : gmap string Z :=
  match w with
  | WBatch _ p _ | WCheck p | WDefer _ p | WFlush _ p | WRecord _ p _ _ | WFail _ p => p
  | _ => ∅
  end.
(** An entry of a table at least as new. *)
Definition listed p x : Prop := exists j, p !! on_key x = Some j /\ on_index x <= j.
Definition queued (q : list observation) x : Prop := exists y, y ∈ q /\ on_key y = on_key x /\ on_index x <= on_index y.
Definition written_index d x : Prop := on_index x <= watermark d (ChannelFromlKey (on_key x)).

Definition on_its_way (s : osys D) x : Prop :=
  ob_overflowed (sy_obs s) = true \/ written_index (sy_db s) x \/ queued (ob_queue (sy_obs s)) x \/
  listed (held (sy_worker s)) x \/ listed (ob_retry (sy_obs s)) x.

(** Retries only grow, or the observer has overflowed. *)
Definition grows o o' : Prop :=
  (ob_overflowed o = true -> ob_overflowed o' = true) /\ forall x, listed (ob_retry o) x -> listed (ob_retry o') x.
Lemma grows_refl o : grows o o.
Proof. done. Qed.
Lemma grows_trans o1 o2 o3 : grows o1 o2 -> grows o2 o3 -> grows o1 o3.
Proof. intros [H1 H2] [H3 H4]. split; auto. Qed.

Lemma listed_insert p k i x : listed p x -> (forall j, p !! k = Some j -> j <= i) -> listed (<[k := i]> p) x.
Proof.
  intros (j & Hj & Hle) Hk. unfold listed. destruct (decide (on_key x = k)) as [<-|Hne].
  - exists i. rewrite lookup_insert_eq. split; [done|]. specialize (Hk j Hj). lia.
  - exists j. by rewrite lookup_insert_ne.
Qed.
Lemma listed_insert_new p k i : listed (<[k := i]> p) (mkObservation k i).
Proof. exists i. rewrite lookup_insert_eq. split; [done|cbn; lia]. Qed.

Lemma addRetry_grows o x : grows o (addRetryLocked o x).1.
Proof.
  unfold addRetryLocked. destruct (ob_retry o !! on_key x) as [j|] eqn:E.
  - destruct (Z.ltb_spec j (on_index x)); [|done]. split; [done|]. intros y Hy. cbn. apply listed_insert; [done|].
    intros j' Hj'. assert (j' = j) as -> by congruence. lia.
  - destruct (_ <=? _); [done|]. split; [done|]. intros y Hy. cbn. apply listed_insert; [done|]. by rewrite E.
Qed.
Lemma addRetry_lists o x : ob_overflowed (addRetryLocked o x).1 = true \/ listed (ob_retry (addRetryLocked o x).1) x.
Proof.
  unfold addRetryLocked. destruct (ob_retry o !! on_key x) as [j|] eqn:E.
  - right. destruct (Z.ltb_spec j (on_index x)); cbn; [destruct x; apply listed_insert_new|]. exists j. split; [done|lia].
  - destruct (_ <=? _); cbn; [by left|right]. destruct x. apply listed_insert_new.
Qed.
Lemma addRetry_frame o x : ob_queue (addRetryLocked o x).1 = ob_queue o /\ ob_accepting (addRetryLocked o x).1 = ob_accepting o /\
  ob_stopCh (addRetryLocked o x).1 = ob_stopCh o /\ ob_retryBackoff (addRetryLocked o x).1 = ob_retryBackoff o.
Proof. unfold addRetryLocked. destruct (_ !! _); [by destruct (_ <? _)|by destruct (_ <=? _)]. Qed.

Lemma deferBatch_grows o l : grows o (deferBatch o l).
Proof.
  revert o. induction l as [|p l IH]; intros o; [done|]. cbn [deferBatch foldl].
  eapply grows_trans; [apply addRetry_grows|apply IH].
Qed.
Lemma deferBatch_lists o l k i : (k, i) ∈ l -> ob_overflowed (deferBatch o l) = true \/ listed (ob_retry (deferBatch o l)) (mkObservation k i).
Proof.
  revert o. induction l as [|p l IH]; intros o; [by intros ?%elem_of_nil|]. intros [<-|Hin]%elem_of_cons; [|by apply IH].
  cbn [deferBatch foldl fst snd]. destruct (deferBatch_grows (addRetryLocked o (mkObservation k i)).1 l) as [H1 H2].
  destruct (addRetry_lists o (mkObservation k i)) as [H|H]; [left; by apply H1|right; by apply H2].
Qed.
Lemma deferBatch_frame o l : ob_queue (deferBatch o l) = ob_queue o /\ ob_accepting (deferBatch o l) = ob_accepting o /\
  ob_stopCh (deferBatch o l) = ob_stopCh o /\ ob_retryBackoff (deferBatch o l) = ob_retryBackoff o.
Proof.
  revert o. induction l as [|p l IH]; intros o; [done|]. cbn [deferBatch foldl].
  destruct (IH (addRetryLocked o (mkObservation p.1 p.2)).1) as (E1 & E2 & E3 & E4).
  destruct (addRetry_frame o (mkObservation p.1 p.2)) as (E5 & E6 & E7 & E8).
  unfold deferBatch in *. by rewrite E1, E2, E3, E4.
Qed.
(** A whole table that is deferred. *)
Lemma defer_all o p l x : l ≡ₚ map_to_list p -> listed p x -> ob_overflowed (deferBatch o l) = true \/ listed (ob_retry (deferBatch o l)) x.
Proof.
  intros Hl (j & Hj & Hle). destruct (deferBatch_lists o l (on_key x) j) as [H|(j' & Hj' & Hle')]; [|by left|].
  - rewrite Hl. by apply elem_of_map_to_list.
  - right. exists j'. cbn in *. split; [done|lia].
Qed.

Lemma joinBatch_lists p x y : listed p y -> listed (joinBatch p x) y.
Proof.
  intros Hy. unfold joinBatch. destruct (Z.ltb_spec (default 0 (p !! on_key x)) (on_index x)) as [Hlt|]; [|done].
  apply listed_insert; [done|]. intros j Hj. rewrite Hj in Hlt. cbn in Hlt. lia.
Qed.
Lemma joinBatch_new p x : 0 < on_index x -> listed (joinBatch p x) x.
Proof.
  intros Hpos. unfold joinBatch. destruct (Z.ltb_spec (default 0 (p !! on_key x)) (on_index x)) as [Hlt|Hge].
  - destruct x. apply listed_insert_new.
  - destruct (p !! on_key x) as [j|] eqn:E; cbn in Hge; [|lia]. by exists j.
Qed.

(** ** The invariant *)

Definition draining (w : worker) : bool :=
  match w with
  | WBatch dl _ _ | WDefer dl _ | WFlush dl _ | WRecord dl _ _ _ | WFail dl _ | WFinish dl _ | WWarn dl | WRecover dl | WSnapshot dl =>
      bool_decide (dl <> None)
  | WDrain _ | WDrainCheck _ | WDone _ => true
  | WLoop | WSelect | WCheck _ => false
  end.

Record obs_inv (s : osys D) (acc : list observation) : Prop := {
  oi_way x : x ∈ acc -> on_its_way s x;
  oi_supported x : x ∈ acc -> supportsSearchAppliedObservation (on_key x) = true;
  oi_positive x : x ∈ ob_queue (sy_obs s) -> 0 < on_index x;
  oi_record dl p k i : sy_worker s = WRecord dl p k i ->
    p !! k = Some i /\ (supportsSearchAppliedObservation k = true -> i <= watermark (sy_db s) (ChannelFromlKey k));
  oi_stopped : ob_stopCh (sy_obs s) = true \/ draining (sy_worker s) = true -> ob_accepting (sy_obs s) = false;
  oi_drained : (exists dl, sy_worker s = WDrainCheck dl) \/ (exists b, sy_worker s = WDone b) -> ob_queue (sy_obs s) = [];
  oi_done : sy_worker s = WDone true -> ob_retry (sy_obs s) = ∅
}.

Lemma back_held dl : held (back dl) = ∅.
Proof. by destruct dl. Qed.
Lemma back_draining dl : draining (back dl) = bool_decide (dl <> None).
Proof. by destruct dl. Qed.

Lemma listed_empty x : ~ listed ∅ x.
Proof. intros (j & Hj & _). by rewrite lookup_empty in Hj. Qed.
Lemma listed_same p x y : on_key y = on_key x -> on_index x <= on_index y -> listed p y -> listed p x.
Proof. intros E Hle (j & Hj & Hle'). exists j. rewrite <-E. split; [done|lia]. Qed.
Lemma listed_single x : listed {[on_key x := on_index x]} x.
Proof. exists (on_index x). rewrite lookup_singleton_eq. split; [done|lia]. Qed.
(** The first observation is taken out of the queue into a table. *)
Lemma queue_taken y q p x : queued (y :: q) x -> listed p y -> queued q x \/ listed p x.
Proof.
  intros (z & [->|Hz]%elem_of_cons & E & Hle) Hp; [right; by eapply listed_same|left]. by exists z.
Qed.

(** The ways of an observation when nothing is lost. *)
Lemma way_intro o w d x : ob_overflowed o = true \/ written_index d x \/ queued (ob_queue o) x \/ listed (held w) x \/ listed (ob_retry o) x ->
  on_its_way (mkOsys o w d) x.
Proof. done. Qed.

Lemma run_way o d w o' w' d' x : run_step o d w o' w' d' -> on_its_way (mkOsys o w d) x -> on_its_way (mkOsys o' w' d') x.
Proof.
  intros Hs [H|[H|[H|[H|H]]]]; apply way_intro; destruct Hs as [now E|E|y q E|E| |now E|p|dl p l Hl];
    cbn [sy_obs sy_worker sy_db held] in *; try (by apply listed_empty in H); try tauto.
  - left. by apply deferBatch_grows.
  - rewrite E in H. destruct (queue_taken _ _ _ _ H (listed_single y)); tauto.
  - rewrite (proj1 (deferBatch_frame o l)). tauto.
  - destruct (hasRecoveryWork o); tauto.
  - destruct (defer_all o p l x Hl H); tauto.
  - do 4 right. by apply deferBatch_grows.
Qed.

Lemma batch_way o d w o' w' d' x : batch_step o d w o' w' d' -> (forall y, y ∈ ob_queue o -> 0 < on_index y) ->
  on_its_way (mkOsys o w d) x -> on_its_way (mkOsys o' w' d') x.
Proof.
  intros Hs Hpos [H|[H|[H|[H|H]]]]; apply way_intro; destruct Hs as [dl p n y q Hn E|dl p n Hn];
    cbn [sy_obs sy_worker sy_db held ob_overflowed ob_queue ob_retry] in *; try tauto.
  - rewrite E in H. assert (Hy : 0 < on_index y) by (apply Hpos; rewrite E; by left).
    destruct (queue_taken _ _ _ _ H (joinBatch_new p y Hy)); tauto.
  - do 3 right. left. by apply joinBatch_lists.
  - do 3 right. left. by destruct dl.
Qed.

Lemma recordSuccess_way o d k i x : (supportsSearchAppliedObservation k = true -> i <= watermark d (ChannelFromlKey k)) ->
  supportsSearchAppliedObservation (on_key x) = true -> listed (ob_retry o) x -> written_index d x \/ listed (ob_retry (recordSuccess o k i)) x.
Proof.
  intros Hw Hx (j & Hj & Hle). unfold recordSuccess. destruct (ob_retry o !! k) as [r|] eqn:Er; [|right; by exists j].
  destruct (Z.leb_spec r i) as [Hri|]; [|right; by exists j]. destruct (decide (on_key x = k)) as [<-|Hne].
  - left. assert (j = r) as -> by congruence. unfold written_index. specialize (Hw Hx). lia.
  - right. exists j. cbn. by rewrite lookup_delete_ne by congruence.
Qed.
Lemma recordSuccess_frame o k i : ob_overflowed (recordSuccess o k i) = ob_overflowed o /\ ob_queue (recordSuccess o k i) = ob_queue o /\
  ob_accepting (recordSuccess o k i) = ob_accepting o /\ ob_stopCh (recordSuccess o k i) = ob_stopCh o.
Proof. unfold recordSuccess. destruct (_ !! _); [|done]. by destruct (_ <=? _). Qed.

Lemma flush_way o d w o' w' d' x : flush_step o d w o' w' d' -> map_Forall (fun _ i => is_u64 i) (held w) -> supportsSearchAppliedObservation (on_key x) = true ->
  (forall dl p k i, w = WRecord dl p k i ->
     p !! k = Some i /\ (supportsSearchAppliedObservation k = true -> i <= watermark d (ChannelFromlKey k))) ->
  on_its_way (mkOsys o w d) x -> on_its_way (mkOsys o' w' d') x.
Proof.
  intros Hs Hheld Hx Hrec H. apply way_intro. unfold on_its_way in H. destruct Hs as [dl|dl p k i E Hk|dl p k i d' E Hk Hu|dl p k i E Hk Hu|dl p k i|dl p l Hl];
    cbn [sy_obs sy_worker sy_db held] in *; try tauto.
  - destruct H as [H|[H|H]]; [tauto| |tauto]. right. left. unfold written_index in *. etrans; [exact H|]. eapply update_grows; [|exact Hu]. by apply (Hheld k i).
  - destruct (Hrec dl p k i eq_refl) as [Ek Hw]. destruct (recordSuccess_frame o k i) as (-> & -> & _ & _).
    destruct H as [H|[H|[H|[(j & Hj & Hle)|H]]]]; [tauto|tauto|tauto| |destruct (recordSuccess_way o d k i x Hw Hx H); tauto].
    destruct (decide (on_key x = k)) as [<-|Hne].
    + right. left. assert (j = i) as -> by congruence. unfold written_index. specialize (Hw Hx). lia.
    + do 3 right. left. exists j. by rewrite lookup_delete_ne by congruence.
  - rewrite (proj1 (deferBatch_frame o l)). destruct (deferBatch_grows o l) as [Hg1 Hg2].
    destruct H as [H|[H|[H|[H|H]]]]; [left; by apply Hg1|tauto|tauto|destruct (defer_all o p l x Hl H); tauto|do 4 right; by apply Hg2].
Qed.

Lemma finish_frame o failed now : ob_overflowed (finishAttempt o failed now) = ob_overflowed o /\
  ob_queue (finishAttempt o failed now) = ob_queue o /\ ob_retry (finishAttempt o failed now) = ob_retry o /\
  ob_accepting (finishAttempt o failed now) = ob_accepting o /\ ob_stopCh (finishAttempt o failed now) = ob_stopCh o.
Proof. unfold finishAttempt. destruct failed; [done|]. by case_bool_decide. Qed.
Lemma warn_frame o now : ob_overflowed (warnRetry o now) = ob_overflowed o /\ ob_queue (warnRetry o now) = ob_queue o /\
  ob_retry (warnRetry o now) = ob_retry o /\ ob_accepting (warnRetry o now) = ob_accepting o /\ ob_stopCh (warnRetry o now) = ob_stopCh o.
Proof. unfold warnRetry. destruct (ob_lastWarn o); [|done]. by destruct (_ <? _). Qed.

Lemma recover_way o d w o' w' d' x : recover_step o d w o' w' d' -> on_its_way (mkOsys o w d) x -> on_its_way (mkOsys o' w' d') x.
Proof.
  intros Hs H. apply way_intro. unfold on_its_way in H. destruct Hs as [dl now|dl p Hp|dl failed now|dl now];
    cbn [sy_obs sy_worker sy_db held] in *.
  - destruct H as [H|[H|[H|[H|H]]]]; try tauto. by apply listed_empty in H.
  - destruct H as [H|[H|[H|[H|H]]]]; try tauto. by apply listed_empty in H.
  - destruct (finish_frame o failed now) as (-> & -> & -> & _). destruct H as [H|[H|[H|[H|H]]]]; try tauto. by apply listed_empty in H.
  - destruct (warn_frame o now) as (-> & -> & -> & _). destruct H as [H|[H|[H|[H|H]]]]; try tauto. by apply listed_empty in H.
Qed.

Lemma drain_way o d w o' w' d' x : drain_step o d w o' w' d' -> on_its_way (mkOsys o w d) x -> on_its_way (mkOsys o' w' d') x.
Proof.
  intros Hs H. apply way_intro. unfold on_its_way in H. destruct Hs as [dl y q E|dl E|dl E|dl now now' E Ht|dl now E Ht];
    cbn [sy_obs sy_worker sy_db held] in *; try tauto.
  - rewrite E in H. destruct H as [H|[H|[H|[H|H]]]]; try tauto; [destruct (queue_taken _ _ _ _ H (listed_single y)); tauto|by apply listed_empty in H].
  - destruct (warn_frame o now') as (-> & -> & -> & _). tauto.
Qed.

Lemma worker_way o d w o' w' d' x : worker_step o d w o' w' d' -> map_Forall (fun _ i => is_u64 i) (held w) -> supportsSearchAppliedObservation (on_key x) = true ->
  (forall y, y ∈ ob_queue o -> 0 < on_index y) ->
  (forall dl p k i, w = WRecord dl p k i ->
     p !! k = Some i /\ (supportsSearchAppliedObservation k = true -> i <= watermark d (ChannelFromlKey k))) ->
  on_its_way (mkOsys o w d) x -> on_its_way (mkOsys o' w' d') x.
Proof.
  intros [H|[H|[H|[H|H]]]] Hheld Hx Hq Hr; [by eapply run_way|by eapply batch_way|by eapply flush_way|by eapply recover_way|by eapply drain_way].
Qed.

(** What the worker leaves. *)
Lemma worker_frame o d w o' w' d' : worker_step o d w o' w' d' -> map_Forall (fun _ i => is_u64 i) (held w) ->
  ob_accepting o' = ob_accepting o /\ ob_stopCh o' = ob_stopCh o /\ (draining w' = true -> draining w = true \/ ob_stopCh o = true) /\
  (exists l, ob_queue o = l ++ ob_queue o') /\ forall k, watermark d k <= watermark d' k.
Proof.
  assert (Hq : exists l, ob_queue o = l ++ ob_queue o) by by exists [].
  assert (Hw : forall k, watermark d k <= watermark d k) by lia.
  intros [H|[H|[H|[H|H]]]] Hheld.
  - destruct H as [now E|E|y q E|E| |now E|p|dl p l Hl]; cbn; try (split_and!; [done|done|naive_solver|done|done]).
    + split_and!; [done|done|naive_solver| |done]. rewrite E. by exists [y].
    + split_and!; [done|done| |done|done]. by destruct (hasRecoveryWork o).
    + destruct (deferBatch_frame o l) as (-> & -> & -> & _). rewrite back_draining. split_and!; [done|done|by left|done|done].
  - destruct H as [dl p n y q Hn E|dl p n Hn]; cbn.
    + split_and!; [done|done|by left| |done]. rewrite E. by exists [y].
    + split_and!; [done|done| |done|done]. destruct dl; naive_solver.
  - destruct H as [dl|dl p k i E Hk|dl p k i d' E Hk Hu|dl p k i E Hk Hu|dl p k i|dl p l Hl]; cbn; try (split_and!; [done|done|by left|done|done]).
    + split_and!; [done|done|by left|done|]. intros k'. eapply update_grows; [|exact Hu]. by apply (Hheld k i).
    + destruct (recordSuccess_frame o k i) as (_ & -> & -> & ->). split_and!; [done|done|by left|done|done].
    + destruct (deferBatch_frame o l) as (-> & -> & -> & _). split_and!; [done|done|by left|done|done].
  - destruct H as [dl now|dl p Hp|dl failed now|dl now]; cbn.
    + split_and!; [done|done| |done|done]. destruct (_ && _); [rewrite back_draining|]; by left.
    + split_and!; [done|done| |done|done]. case_bool_decide; [rewrite back_draining|]; by left.
    + destruct (finish_frame o failed now) as (_ & -> & _ & -> & ->). split_and!; [done|done| |done|done].
      destruct failed; [|rewrite back_draining]; by left.
    + destruct (warn_frame o now) as (_ & -> & _ & -> & ->). rewrite back_draining. split_and!; [done|done|by left|done|done].
  - destruct H as [dl y q E|dl E|dl E|dl now now' E Ht|dl now E Ht]; cbn; try (split_and!; [done|done|by left|done|done]).
    + split_and!; [done|done|by left| |done]. rewrite E. by exists [y].
    + destruct (warn_frame o now') as (_ & -> & _ & -> & ->). split_and!; [done|done|by left|done|done].
Qed.

(** All indexes are of 64 bits. *)
Record widths o w : Prop := {
  wi_queue x : x ∈ ob_queue o -> is_u64 (on_index x);
  wi_held : map_Forall (fun _ i => is_u64 i) (held w);
  wi_retry : map_Forall (fun _ i => is_u64 i) (ob_retry o)
}.
Lemma addRetry_widths o x : is_u64 (on_index x) -> map_Forall (fun _ i => is_u64 i) (ob_retry o) ->
  map_Forall (fun _ i => is_u64 i) (ob_retry (addRetryLocked o x).1).
Proof.
  intros Hx Ho. unfold addRetryLocked. destruct (ob_retry o !! on_key x); [destruct (_ <? _); [|done]|destruct (_ <=? _); [done|]];
    by apply map_Forall_insert_2.
Qed.
Lemma deferBatch_widths o p l : l ≡ₚ map_to_list p -> map_Forall (fun _ i => is_u64 i) p -> map_Forall (fun _ i => is_u64 i) (ob_retry o) ->
  map_Forall (fun _ i => is_u64 i) (ob_retry (deferBatch o l)).
Proof.
  intros Hl Hp. assert (H : Forall (fun q => is_u64 q.2) l).
  { rewrite Hl. apply Forall_forall. intros [k i] Hi%elem_of_map_to_list. by apply (Hp k i). }
  clear Hl Hp. revert o. induction H as [|q l Hq _ IH]; intros o Ho; [done|]. cbn [deferBatch foldl]. by apply IH, addRetry_widths.
Qed.
Lemma joinBatch_widths p x : is_u64 (on_index x) -> map_Forall (fun _ i => is_u64 i) p -> map_Forall (fun _ i => is_u64 i) (joinBatch p x).
Proof. intros Hx Hp. unfold joinBatch. destruct (_ <? _); [by apply map_Forall_insert_2|done]. Qed.
Lemma recordSuccess_widths o k i : map_Forall (fun _ i => is_u64 i) (ob_retry o) -> map_Forall (fun _ i => is_u64 i) (ob_retry (recordSuccess o k i)).
Proof. intros Ho. unfold recordSuccess. destruct (ob_retry o !! k); [|done]. destruct (_ <=? _); [|done]. by apply map_Forall_delete. Qed.

Lemma taken_widths o w x q p : widths o w -> ob_queue o = x :: q -> (is_u64 (on_index x) -> map_Forall (fun _ i => is_u64 i) p) ->
  (forall y, y ∈ q -> is_u64 (on_index y)) /\ map_Forall (fun _ i => is_u64 i) p.
Proof.
  intros [H1 _ _] E Hp. rewrite E in H1. split; [intros y Hy; apply H1; by right|]. apply Hp, H1. by left.
Qed.

Lemma worker_widths o d w o' w' d' : worker_step o d w o' w' d' -> widths o w -> widths o' w'.
Proof.
  intros Hs HI. pose proof HI as [H1 H2 H3]. assert (He : map_Forall (fun _ i => is_u64 i) (∅ : gmap string Z)) by apply map_Forall_empty.
  destruct Hs as [H|[H|[H|[H|H]]]].
  - destruct H as [now E|E|y q E|E| |now E|p|dl p l Hl]; cbn [held] in *; try (by split).
    + destruct (taken_widths _ _ _ _ {[on_key y := on_index y]} HI E) as [Hq Hp]; [intros; by apply map_Forall_singleton|by split].
    + split; [done|by destruct (hasRecoveryWork o)|done].
    + split; [by rewrite (proj1 (deferBatch_frame o l))|by rewrite back_held|by eapply deferBatch_widths].
  - destruct H as [dl p n y q Hn E|dl p n Hn]; cbn [held] in *.
    + destruct (taken_widths _ _ _ _ (joinBatch p y) HI E) as [Hq Hp]; [intros; by apply joinBatch_widths|by split].
    + split; [done|by destruct dl|done].
  - destruct H as [dl|dl p k i E Hk|dl p k i d' E Hk Hu|dl p k i E Hk Hu|dl p k i|dl p l Hl]; cbn [held] in *; try (by split).
    + destruct (recordSuccess_frame o k i) as (_ & Eq & _). split; [by rewrite Eq|by apply map_Forall_delete|by apply recordSuccess_widths].
    + split; [by rewrite (proj1 (deferBatch_frame o l))|done|by eapply deferBatch_widths].
  - destruct H as [dl now|dl p [Hp _]|dl failed now|dl now]; cbn [held] in *.
    + split; [done| |done]. destruct (_ && _); [by rewrite back_held|done].
    + split; [done| |done]. case_bool_decide; [by rewrite back_held|]. intros k i Hk. by apply (H3 k i), (lookup_weaken p).
    + destruct (finish_frame o failed now) as (_ & Eq & Er & _). split; [by rewrite Eq| |by rewrite Er].
      destruct failed; [done|by rewrite back_held].
    + destruct (warn_frame o now) as (_ & Eq & Er & _). split; [by rewrite Eq|by rewrite back_held|by rewrite Er].
  - destruct H as [dl y q E|dl E|dl E|dl now now' E Ht|dl now E Ht]; cbn [held] in *; try (by split).
    + destruct (taken_widths _ _ _ _ {[on_key y := on_index y]} HI E) as [Hq Hp]; [intros; by apply map_Forall_singleton|by split].
    + destruct (warn_frame o now') as (_ & Eq & Er & _). split; [by rewrite Eq|done|by rewrite Er].
Qed.

(** The states in which the queue has been found empty, and in which the worker has ended. *)
Lemma worker_ends o d w o' w' d' : worker_step o d w o' w' d' -> map_Forall (fun _ i => is_u64 i) (held w) ->
  (forall dl p k i, w' = WRecord dl p k i -> p !! k = Some i /\ (supportsSearchAppliedObservation k = true -> i <= watermark d' (ChannelFromlKey k))) /\
  ((exists dl, w' = WDrainCheck dl) \/ (exists b, w' = WDone b) -> ob_queue o' = [] \/ exists dl, w = WDrainCheck dl) /\
  (w' = WDone true -> ob_retry o' = ∅).
Proof.
  intros [H|[H|[H|[H|H]]]] Hheld.
  - destruct H as [now E|E|y q E|E| |now E|p|dl p l Hl]; split_and!; try naive_solver.
    + by destruct (hasRecoveryWork o).
    + destruct (hasRecoveryWork o); naive_solver.
    + by destruct (hasRecoveryWork o).
    + by destruct dl.
    + destruct dl; naive_solver.
    + by destruct dl.
  - destruct H as [dl p n y q Hn E|dl p n Hn]; split_and!; try naive_solver; destruct dl; naive_solver.
  - destruct H as [dl|dl p k i E Hk|dl p k i d' E Hk Hu|dl p k i E Hk Hu|dl p k i|dl p l Hl]; split_and!; try naive_solver.
    + intros ? ? ? ? [= <- <- <- <-]. split; [done|congruence].
    + intros ? ? ? ? [= <- <- <- <-]. split; [done|]. intros _. apply update_watermark in Hu; [|by apply (Hheld k i)]. by rewrite <-surjective_pairing in Hu.
  - destruct H as [dl now|dl p Hp|dl failed now|dl now]; split_and!;
      repeat match goal with |- context [if ?b then _ else _] => destruct b end; destruct dl; naive_solver.
  - destruct H as [dl y q E|dl E|dl E|dl now now' E Ht|dl now E Ht]; split_and!; try naive_solver.
    intros _. unfold hasRecoveryWork in E. apply negb_false_iff, bool_decide_eq_true in E. done.
Qed.

Lemma inv_worker s acc o w d : obs_inv s acc -> map_Forall (fun _ i => is_u64 i) (held (sy_worker s)) -> worker_step (sy_obs s) (sy_db s) (sy_worker s) o w d -> obs_inv (mkOsys o w d) acc.
Proof.
  intros HI Hh Hs. destruct (worker_frame _ _ _ _ _ _ Hs Hh) as (Ea & Es & Hd & (l & Hq) & Hgrow).
  destruct (worker_ends _ _ _ _ _ _ Hs Hh) as (Hr & He & Hdone). split; cbn [sy_obs sy_worker sy_db]; try done.
  - intros x Hx. eapply worker_way; [exact Hs|exact Hh|by apply (oi_supported _ _ HI)|apply (oi_positive _ _ HI)|apply (oi_record _ _ HI)|].
    pose proof (oi_way _ _ HI x Hx) as H. by destruct s.
  - apply (oi_supported _ _ HI).
  - intros x Hx. apply (oi_positive _ _ HI). rewrite Hq, elem_of_app. by right.
  - rewrite Ea, Es. intros [H|H]; apply (oi_stopped _ _ HI); [by left|]. destruct (Hd H); auto.
  - intros H. destruct (He H) as [?|[dl Hw]]; [done|]. assert (E : ob_queue (sy_obs s) = []) by (apply (oi_drained _ _ HI); eauto).
    rewrite E in Hq. by destruct l, (ob_queue o).
Qed.

Lemma Observe_cases o k i : (exists e, Observe o k i = (o, Some e)) \/ (Observe o k i = (o, None) /\ supportsSearchAppliedObservation k = false) \/
  (supportsSearchAppliedObservation k = true /\ ob_accepting o = true /\ i <> 0 /\
   let x := mkObservation k i in
   (len (ob_queue o) < searchAppliedObservationQueueSize /\ Observe o k i = ({| o with ob_queue := ob_queue o ++ [x] |}, None)) \/
   (exists b, Observe o k i = ({| (addRetryLocked o x).1 with ob_retryWake := b |}, (addRetryLocked o x).2) )).
Proof.
  unfold Observe. case_bool_decide; cbn [orb]; [left; eauto|]. destruct (Z.eqb_spec i 0); [left; eauto|].
  destruct (supportsSearchAppliedObservation k) eqn:Hk; cbn [negb]; [|auto]. destruct (ob_accepting o) eqn:Ha; cbn [negb]; [|left; eauto].
  right. right. split_and!; [done|done|done|]. cbv zeta. destruct (Z.ltb_spec (len (ob_queue o)) searchAppliedObservationQueueSize); [by left|right].
  destruct (addRetryLocked o (mkObservation k i)) as [o' [e|]]; cbn [fst snd]; [by exists true|].
  exists (if bool_decide (ob_retry o = ∅) then true else ob_retryWake o'). case_bool_decide; [done|]. by destruct o'.
Qed.

(** A caller leaves what is on its way, and what it adds is on its way. *)
Lemma observe_way o w d k i o' r x : Observe o k i = (o', r) -> on_its_way (mkOsys o w d) x -> on_its_way (mkOsys o' w d) x.
Proof.
  intros E H. destruct (Observe_cases o k i) as [[e E']|[[E' _]|(_ & _ & _ & [[_ E']|[b E']])]]; rewrite E' in E; simplify_eq/=; [done|done|..].
  - destruct H as [H|[H|[(y & Hy & Hx)|H]]]; apply way_intro; cbn in *; try tauto. do 2 right. left. exists y. rewrite elem_of_app. tauto.
  - destruct (addRetry_grows o (mkObservation k i)) as [Hg1 Hg2]. destruct (addRetry_frame o (mkObservation k i)) as (Eq & _).
    apply way_intro. unfold on_its_way in H. cbn [sy_obs sy_worker sy_db ob_overflowed ob_queue ob_retry] in *. rewrite Eq.
    destruct H as [H|[H|[H|[H|H]]]]; [left; by apply Hg1|tauto|tauto|tauto|do 4 right; by apply Hg2].
Qed.
Lemma observe_accepted o w d k i o' : Observe o k i = (o', None) -> supportsSearchAppliedObservation k = true ->
  on_its_way (mkOsys o' w d) (mkObservation k i).
Proof.
  intros E Hk. destruct (Observe_cases o k i) as [[e E']|[[E' Hn]|(_ & _ & _ & [[_ E']|[b E']])]]; rewrite E' in E; simplify_eq/=; [congruence|..];
    apply way_intro.
  - do 2 right. left. exists (mkObservation k i). cbn [ob_queue]. rewrite elem_of_app, list_elem_of_singleton. split_and!; [by right|done|lia].
  - destruct (addRetry_lists o (mkObservation k i)) as [H|H]; [by left|do 4 right; done].
Qed.

Lemma inv_observe s acc k i o r : obs_inv s acc -> is_u64 i -> Observe (sy_obs s) k i = (o, r) ->
  obs_inv (mkOsys o (sy_worker s) (sy_db s)) (if bool_decide (r = None) && supportsSearchAppliedObservation k then mkObservation k i :: acc else acc).
Proof.
  intros HI Hi E. destruct s as [o0 w d]. cbn [sy_obs sy_worker sy_db] in *.
  assert (Hacc : forall x, x ∈ (if bool_decide (r = None) && supportsSearchAppliedObservation k then mkObservation k i :: acc else acc) ->
    x ∈ acc \/ x = mkObservation k i /\ r = None /\ supportsSearchAppliedObservation k = true).
  { intros x. destruct (bool_decide (r = None)) eqn:Er, (supportsSearchAppliedObservation k); cbn; [|auto..].
    apply bool_decide_eq_true in Er. rewrite elem_of_cons. naive_solver. }
  assert (Hframe : ob_stopCh o = ob_stopCh o0 /\ ob_accepting o = ob_accepting o0 /\ (forall x, x ∈ ob_queue o -> 0 < on_index x) /\
    (ob_accepting o0 = false -> o = o0)).
  { destruct (Observe_cases o0 k i) as [[e E']|[[E' _]|(_ & Ha & Hi0 & [[_ E']|[b E']])]]; rewrite E' in E; simplify_eq/=.
    - split_and!; [done|done|apply (oi_positive _ _ HI)|done].
    - split_and!; [done|done|apply (oi_positive _ _ HI)|done].
    - split_and!; [done|done| |by rewrite Ha]. intros x [Hx|Hx%list_elem_of_singleton]%elem_of_app; [by apply (oi_positive _ _ HI)|].
      subst x. cbn. unfold is_u64 in Hi. lia.
    - destruct (addRetry_frame o0 (mkObservation k i)) as (-> & -> & -> & _). split_and!; [done|done|apply (oi_positive _ _ HI)|by rewrite Ha]. }
  destruct Hframe as (Es & Ea & Hpos & Hsame). split; cbn [sy_obs sy_worker sy_db].
  - intros x [Hx|(-> & -> & Hk)]%Hacc; [eapply observe_way; [exact E|by apply (oi_way _ _ HI)]|by eapply observe_accepted].
  - intros x [Hx|(-> & _ & Hk)]%Hacc; [by apply (oi_supported _ _ HI)|done].
  - done.
  - apply (oi_record _ _ HI).
  - rewrite Es, Ea. apply (oi_stopped _ _ HI).
  - intros H. assert (Hd : ob_accepting o0 = false) by (apply (oi_stopped _ _ HI); right; by destruct H as [[? ->]|[? ->]]).
    rewrite (Hsame Hd). by apply (oi_drained _ _ HI).
  - intros ->. assert (Hd : ob_accepting o0 = false) by (apply (oi_stopped _ _ HI); by right).
    rewrite (Hsame Hd). by apply (oi_done _ _ HI).
Qed.

Lemma observe_widths o w k i o' r : is_u64 i -> Observe o k i = (o', r) -> widths o w -> widths o' w.
Proof.
  intros Hi E [H1 H2 H3]. destruct (Observe_cases o k i) as [[e E']|[[E' _]|(_ & _ & _ & [[_ E']|[b E']])]]; rewrite E' in E; simplify_eq/=; [done|done|..].
  - split; [|done|done]. cbn [ob_queue]. intros x [Hx|Hx%list_elem_of_singleton]%elem_of_app; [by apply H1|by subst x].
  - destruct (addRetry_frame o (mkObservation k i)) as (Eq & _). split; cbn [ob_queue ob_retry]; [by rewrite Eq|done|by apply addRetry_widths].
Qed.
Lemma widths_reach d0 s acc : obs_reach d0 s acc -> widths (sy_obs s) (sy_worker s).
Proof.
  induction 1 as [|s acc k i o r _ HI Hi E|s acc _ HI|s acc _ HI Ha|s acc d _ HI Hd|s acc o w d _ HI Hs]; cbn [sy_obs sy_worker]; [|..|done|].
  - split; [by intros x ?%elem_of_nil|apply map_Forall_empty|apply map_Forall_empty].
  - by eapply observe_widths.
  - by destruct HI; split.
  - by destruct HI; split.
  - by eapply worker_widths.
Qed.

Lemma inv_reach d0 s acc : obs_reach d0 s acc -> obs_inv s acc.
Proof.
  induction 1 as [|s acc k i o r _ HI Hi E|s acc _ HI|s acc _ HI Ha|s acc d _ HI Hd|s acc o w d Hr HI Hs].
  - split; cbn; try done; try (by intros x ?%elem_of_nil); by intros [|].
  - by apply inv_observe.
  - destruct HI as [H1 H2 H3 H4 H5 H6 H7]. by split.
  - destruct HI as [H1 H2 H3 H4 H5 H6 H7]. by split.
  - destruct HI as [H1 H2 H3 H4 H5 H6 H7]. split; try done.
    + intros x [H|[H|H]]%H1; [by left|right; left|by right; right]. unfold written_index in *. etrans; [exact H|apply Hd].
    + intros dl p k i E. destruct (H4 _ _ _ _ E) as [Hp Hw]. split; [done|]. intros Hk. etrans; [by apply Hw|apply Hd].
  - apply (inv_worker s); [done|by eapply wi_held, widths_reach|done].
Qed.

(** ** Bounds *)

Definition obs_bounded o : Prop :=
  len (ob_queue o) <= searchAppliedObservationQueueSize /\ Z.of_nat (size (ob_retry o)) <= searchAppliedRetryCapacity /\
  (ob_retryBackoff o = 0 \/ searchAppliedRetryMinBackoff <= ob_retryBackoff o <= searchAppliedRetryMaxBackoff).

Lemma addRetry_size o x : Z.of_nat (size (ob_retry o)) <= searchAppliedRetryCapacity ->
  Z.of_nat (size (ob_retry (addRetryLocked o x).1)) <= searchAppliedRetryCapacity.
Proof.
  intros H. unfold addRetryLocked. destruct (ob_retry o !! on_key x) as [j|] eqn:E.
  - destruct (_ <? _); [|done]. cbn. rewrite map_size_insert_Some; eauto.
  - destruct (Z.leb_spec searchAppliedRetryCapacity (Z.of_nat (size (ob_retry o)))); [done|]. cbn.
    rewrite map_size_insert_None by done. lia.
Qed.
Lemma addRetry_bounded o x : obs_bounded o -> obs_bounded (addRetryLocked o x).1.
Proof.
  intros (H1 & H2 & H3). destruct (addRetry_frame o x) as (Eq & _ & _ & Eb).
  split_and!; [by rewrite Eq|by apply addRetry_size|by rewrite Eb].
Qed.
Lemma deferBatch_bounded o l : obs_bounded o -> obs_bounded (deferBatch o l).
Proof. revert o. induction l as [|p l IH]; intros o Ho; [done|]. cbn [deferBatch foldl]. by apply IH, addRetry_bounded. Qed.
Lemma finish_bounded o failed now : obs_bounded o -> obs_bounded (finishAttempt o failed now).
Proof.
  intros (H1 & H2 & H3). destruct (finish_frame o failed now) as (_ & Eq & Er & _). split_and!; [by rewrite Eq|by rewrite Er|].
  unfold finishAttempt, searchAppliedRetryMinBackoff, searchAppliedRetryMaxBackoff, Millisecond in *. destruct failed; cbn.
  - right. destruct (Z.eqb_spec (ob_retryBackoff o) 0); lia.
  - case_bool_decide; cbn; lia.
Qed.
Lemma warn_bounded o now : obs_bounded o -> obs_bounded (warnRetry o now).
Proof. unfold warnRetry. destruct (ob_lastWarn o); [|done]. by destruct (_ <? _). Qed.
Lemma taken_bounded o x q : ob_queue o = x :: q -> obs_bounded o -> obs_bounded {| o with ob_queue := q |}.
Proof. intros E (H1 & H2 & H3). split_and!; [|done|done]. rewrite E in H1. cbn [ob_queue]. cbn [length] in H1. lia. Qed.

Lemma worker_bounded o d w o' w' d' : worker_step o d w o' w' d' -> obs_bounded o -> obs_bounded o'.
Proof.
  intros [H|[H|[H|[H|H]]]] Ho; destruct H; try exact Ho; auto using deferBatch_bounded, finish_bounded, warn_bounded.
  - by eapply taken_bounded.
  - by eapply taken_bounded.
  - unfold recordSuccess. destruct (ob_retry o !! k) as [j|] eqn:E; [|done]. destruct (_ <=? _); [|done].
    destruct Ho as (H1 & H2 & H3). split_and!; [done| |done]. cbn. rewrite map_size_delete_Some by eauto. lia.
  - by eapply taken_bounded.
Qed.
Lemma observe_bounded o k i o' r : Observe o k i = (o', r) -> obs_bounded o -> obs_bounded o'.
Proof.
  intros E Ho. destruct (Observe_cases o k i) as [[e E']|[[E' _]|(_ & _ & _ & [[Hl E']|[b E']])]]; rewrite E' in E; simplify_eq/=; [done|done|..].
  - destruct Ho as (H1 & H2 & H3). split_and!; [|done|done]. cbn [ob_queue]. rewrite length_app. cbn [length]. lia.
  - by apply (addRetry_bounded o (mkObservation k i)).
Qed.

(** ** The worker comes to an end *)

Definition wstep (s s' : osys D) : Prop :=
  worker_step (sy_obs s) (sy_db s) (sy_worker s) (sy_obs s') (sy_worker s') (sy_db s').

Lemma run_once o d w o' w' d' : run_step o d w o' w' d' -> rtc wstep (mkOsys o w d) (mkOsys o' w' d').
Proof. intros H. apply rtc_once. by left. Qed.
Lemma batch_once o d w o' w' d' : batch_step o d w o' w' d' -> rtc wstep (mkOsys o w d) (mkOsys o' w' d').
Proof. intros H. apply rtc_once. right. by left. Qed.
Lemma flush_once o d w o' w' d' : flush_step o d w o' w' d' -> rtc wstep (mkOsys o w d) (mkOsys o' w' d').
Proof. intros H. apply rtc_once. do 2 right. by left. Qed.
Lemma recover_once o d w o' w' d' : recover_step o d w o' w' d' -> rtc wstep (mkOsys o w d) (mkOsys o' w' d').
Proof. intros H. apply rtc_once. do 3 right. by left. Qed.
Lemma drain_once o d w o' w' d' : drain_step o d w o' w' d' -> rtc wstep (mkOsys o w d) (mkOsys o' w' d').
Proof. intros H. apply rtc_once. do 4 right. done. Qed.

Section Settles.
Context (never_fails : forall d c t i, is_Some (UpdateAppliedIndex d c t i)).

(** A flush ends; the retries that were at most as new as its entries are gone. *)
Lemma flush_runs dl p o d : exists o' d', rtc wstep (mkOsys o (WFlush dl p) d) (mkOsys o' (WFinish dl false) d') /\
  ob_queue o' = ob_queue o /\ ob_retry o' ⊆ ob_retry o /\
  forall k i j, p !! k = Some i -> ob_retry o !! k = Some j -> j <= i -> ob_retry o' !! k = None.
Proof.
  remember (size p) as n eqn:En. revert p o d En. induction n as [|n IH]; intros p o d En.
  { symmetry in En. apply map_size_empty_inv in En. subst p. exists o, d. split_and!; [apply flush_once; constructor|done|done|].
    intros k i j E. by rewrite lookup_empty in E. }
  destruct (map_choose p) as (k & i & Hk); [intros ->; by rewrite map_size_empty in En|].
  assert (Hrec : exists d1, rtc wstep (mkOsys o (WFlush dl p) d) (mkOsys o (WRecord dl p k i) d1)).
  { destruct (supportsSearchAppliedObservation k) eqn:Hs; [|exists d; by apply flush_once, w_skip].
    destruct (never_fails d (ChannelFromlKey k).1 (ChannelFromlKey k).2 i) as [d1 Hd]. exists d1. by apply flush_once, w_update. }
  destruct Hrec as [d1 Hrec]. destruct (IH (delete k p) (recordSuccess o k i) d1) as (o' & d' & Hr & Eq & Hsub & Hgone).
  { rewrite map_size_delete_Some by eauto. lia. }
  assert (Hsub1 : ob_retry (recordSuccess o k i) ⊆ ob_retry o).
  { unfold recordSuccess. destruct (ob_retry o !! k); [|done]. destruct (_ <=? _); [|done]. apply delete_subseteq. }
  exists o', d'. split_and!.
  - etrans; [exact Hrec|]. etrans; [apply flush_once, w_record|exact Hr].
  - destruct (recordSuccess_frame o k i) as (_ & E & _). by rewrite Eq.
  - by etrans.
  - intros k' i' j' Hp Hj Hle. destruct (ob_retry (recordSuccess o k i) !! k') as [j''|] eqn:Ej.
    + pose proof (lookup_weaken _ _ _ _ Ej Hsub1) as E. assert (j'' = j') as -> by congruence.
      destruct (decide (k' = k)) as [->|Hne]; [|eapply Hgone; [by rewrite lookup_delete_ne by congruence|exact Ej|done]].
      exfalso. assert (i' = i) as -> by congruence. unfold recordSuccess in Ej. rewrite Hj in Ej.
      destruct (Z.leb_spec j' i); [|lia]. cbn in Ej. by rewrite lookup_delete_eq in Ej.
    + by eapply lookup_weaken_None.
Qed.
(** ... and the worker is back. *)
Lemma flush_back dl p o d : exists o' d', rtc wstep (mkOsys o (WFlush dl p) d) (mkOsys o' (back dl) d') /\
  ob_queue o' = ob_queue o /\ ob_retry o' ⊆ ob_retry o /\
  forall k i j, p !! k = Some i -> ob_retry o !! k = Some j -> j <= i -> ob_retry o' !! k = None.
Proof.
  destruct (flush_runs dl p o d) as (o1 & d1 & H1 & Eq & Hsub & Hgone). exists (finishAttempt o1 false 0), d1.
  destruct (finish_frame o1 false 0) as (_ & -> & -> & _). split_and!; [|done|done|done].
  etrans; [exact H1|]. apply recover_once, (w_finish o1 d1 dl false 0).
Qed.

(** What is held is written or deferred. *)
Lemma defer_back dl p o d : exists o', rtc wstep (mkOsys o (WDefer dl p) d) (mkOsys o' (back dl) d) /\ ob_queue o' = ob_queue o.
Proof.
  exists (deferBatch o (map_to_list p)). split; [by apply run_once, w_defer|]. by destruct (deferBatch_frame o (map_to_list p)) as (-> & _).
Qed.
Lemma check_back p o d : exists o' d', rtc wstep (mkOsys o (WCheck p) d) (mkOsys o' WLoop d') /\ ob_queue o' = ob_queue o.
Proof.
  pose proof (run_once _ _ _ _ _ _ (w_check o d p)) as Hc. destruct (hasRecoveryWork o).
  - destruct (defer_back None p o d) as (o' & Hd & Eq). exists o', d. split; [by etrans|done].
  - destruct (flush_back None p o d) as (o' & d' & Hf & Eq & _). exists o', d'. split; [by etrans|done].
Qed.
Lemma batch_back dl p n o d : exists o' d', rtc wstep (mkOsys o (WBatch dl p n) d) (mkOsys o' (back dl) d') /\
  len (ob_queue o') <= len (ob_queue o).
Proof.
  remember (ob_queue o) as q eqn:Eq. revert p n o Eq. induction q as [|x q IH]; intros p n o Eq.
  - pose proof (batch_once _ _ _ _ _ _ (w_batch o d dl p n (or_intror (eq_sym Eq)))) as Hb. destruct dl as [dl|].
    + destruct (defer_back (Some dl) p o d) as (o' & Hd & E). exists o', d. split; [by etrans|]. by rewrite E, <-Eq.
    + destruct (check_back p o d) as (o' & d' & Hd & E). exists o', d'. split; [by etrans|]. by rewrite E, <-Eq.
  - destruct (Z.lt_ge_cases n searchAppliedBatchSize) as [Hn|Hn].
    + destruct (IH (joinBatch p x) (n + 1) {| o with ob_queue := q |} eq_refl) as (o' & d' & Hb & Hl). exists o', d'.
      split; [|cbn [length]; lia]. etrans; [apply batch_once; by eapply w_more|exact Hb].
    + pose proof (batch_once _ _ _ _ _ _ (w_batch o d dl p n (or_introl Hn))) as Hb. destruct dl as [dl|].
      * destruct (defer_back (Some dl) p o d) as (o' & Hd & E). exists o', d. split; [by etrans|]. by rewrite E, <-Eq.
      * destruct (check_back p o d) as (o' & d' & Hd & E). exists o', d'. split; [by etrans|]. by rewrite E, <-Eq.
Qed.

(** Some of the retries. *)
Lemma snapshot_exists o : exists p, retrySnapshot o p.
Proof.
  set (l := take (Z.to_nat searchAppliedBatchSize) (map_to_list (ob_retry o))). exists (list_to_map l).
  assert (Hnd : NoDup l.*1).
  { unfold l. rewrite fmap_take. eapply sublist_NoDup; [apply (NoDup_fst_map_to_list (ob_retry o))|apply sublist_take]. }
  split.
  - apply map_subseteq_spec. intros k i Hk%elem_of_list_to_map; [|done]. apply elem_of_map_to_list.
    eapply elem_of_sublist; [exact Hk|apply sublist_take].
  - rewrite map_size_list_to_map by done. unfold l. rewrite length_take, length_map_to_list. unfold searchAppliedBatchSize. lia.
Qed.

(** A recovery writes at least one retry. *)
Lemma recover_back dl o d : exists o' d', rtc wstep (mkOsys o (WRecover dl) d) (mkOsys o' (back dl) d') /\
  ob_queue o' = ob_queue o /\ ob_retry o' ⊆ ob_retry o /\ (ob_retry o <> ∅ -> ob_retry o' ⊂ ob_retry o).
Proof.
  set (now := default 0 (ob_nextRetryAt o)). pose proof (recover_once _ _ _ _ _ _ (w_recover o d dl now)) as Hr.
  assert (backingOff o now = false) as Hb by (unfold backingOff, now; destruct (ob_nextRetryAt o); cbn; [lia|done]).
  rewrite Hb, andb_false_r in Hr. destruct (snapshot_exists o) as [p Hp].
  pose proof (recover_once _ _ _ _ _ _ (w_snapshot o d dl p Hp)) as Hs. destruct Hp as [Hsub Hsize]. case_bool_decide as He.
  - exists o, d. split_and!; [by etrans|done|done|]. intros Hne. exfalso. subst p. rewrite map_size_empty in Hsize.
    apply Hne, map_size_empty_inv. unfold searchAppliedBatchSize in Hsize. lia.
  - destruct (flush_back dl p o d) as (o' & d' & Hf & Eq & Hsub' & Hgone). exists o', d'.
    split_and!; [etrans; [exact Hr|]; by etrans|done|done|]. intros _. destruct (map_choose p He) as (k & i & Hk).
    split; [done|]. intros Hle. pose proof (lookup_weaken _ _ _ _ Hk Hsub) as Hk'.
    assert (En : ob_retry o' !! k = None) by (eapply Hgone; [exact Hk|exact Hk'|lia]).
    pose proof (lookup_weaken _ _ _ _ Hk' Hle). congruence.
Qed.

Definition at_home (w : worker) : Prop := w = WLoop \/ exists dl, w = WDrain dl.
Lemma back_home dl : at_home (back dl).
Proof. destruct dl; [right; eauto|by left]. Qed.

(** The worker gets back to a loop, or has ended. *)
Lemma to_home o w d : (forall b, w <> WDone b) -> exists o' w' d', rtc wstep (mkOsys o w d) (mkOsys o' w' d') /\
  len (ob_queue o') <= len (ob_queue o) /\ (at_home w' \/ w' = WDone true /\ ob_retry o' = ∅ /\ exists dl, w = WDrainCheck dl).
Proof.
  intros Hw. assert (Hrec : forall dl, exists o' w' d', rtc wstep (mkOsys o (WRecover dl) d) (mkOsys o' w' d') /\
    len (ob_queue o') <= len (ob_queue o) /\ at_home w').
  { intros dl. destruct (recover_back dl o d) as (o' & d' & H & Eq & _). exists o', (back dl), d'. rewrite Eq.
    split_and!; [done|done|apply back_home]. }
  destruct w as [| |dl p n|p|dl p|dl p|dl p k i|dl p|dl failed|dl|dl|dl|dl|dl|b].
  - exists o, WLoop, d. split_and!; [done|done|left; by left].
  - destruct (Hrec None) as (o' & w' & d' & H & Hl & Hh). exists o', w', d'. split_and!; [|done|by left].
    etrans; [apply run_once, w_ticked|exact H].
  - destruct (batch_back dl p n o d) as (o' & d' & H & Hl). exists o', (back dl), d'. split_and!; [done|done|left; apply back_home].
  - destruct (check_back p o d) as (o' & d' & H & Eq). exists o', WLoop, d'. rewrite Eq. split_and!; [done|done|left; by left].
  - destruct (defer_back dl p o d) as (o' & H & Eq). exists o', (back dl), d. rewrite Eq. split_and!; [done|done|left; apply back_home].
  - destruct (flush_back dl p o d) as (o' & d' & H & Eq & _). exists o', (back dl), d'. rewrite Eq. split_and!; [done|done|left; apply back_home].
  - destruct (flush_back dl (delete k p) (recordSuccess o k i) d) as (o' & d' & H & Eq & _). exists o', (back dl), d'.
    destruct (recordSuccess_frame o k i) as (_ & E & _). rewrite Eq, E. split_and!; [|done|left; apply back_home].
    etrans; [apply flush_once, w_record|exact H].
  - exists (warnRetry (finishAttempt (deferBatch o (map_to_list p)) true 0) 0), (back dl), d.
    destruct (warn_frame (finishAttempt (deferBatch o (map_to_list p)) true 0) 0) as (_ & -> & _).
    destruct (finish_frame (deferBatch o (map_to_list p)) true 0) as (_ & -> & _).
    destruct (deferBatch_frame o (map_to_list p)) as (-> & _). split_and!; [|done|left; apply back_home].
    etrans; [by apply flush_once, w_fail|]. etrans; [apply recover_once, (w_finish _ _ dl true 0)|]. apply recover_once, w_warn.
  - destruct failed.
    + exists (warnRetry (finishAttempt o true 0) 0), (back dl), d.
      destruct (warn_frame (finishAttempt o true 0) 0) as (_ & -> & _). destruct (finish_frame o true 0) as (_ & -> & _).
      split_and!; [|done|left; apply back_home]. etrans; [apply recover_once, (w_finish _ _ dl true 0)|]. apply recover_once, w_warn.
    + exists (finishAttempt o false 0), (back dl), d. destruct (finish_frame o false 0) as (_ & -> & _).
      split_and!; [|done|left; apply back_home]. apply recover_once, (w_finish _ _ dl false 0).
  - exists (warnRetry o 0), (back dl), d. destruct (warn_frame o 0) as (_ & -> & _).
    split_and!; [apply recover_once, w_warn|done|left; apply back_home].
  - destruct (Hrec dl) as (o' & w' & d' & H & Hl & Hh). exists o', w', d'. split_and!; [done|done|by left].
  - destruct (snapshot_exists o) as [p Hp]. pose proof (recover_once _ _ _ _ _ _ (w_snapshot o d dl p Hp)) as Hs. case_bool_decide.
    + exists o, (back dl), d. split_and!; [done|done|left; apply back_home].
    + destruct (flush_back dl p o d) as (o' & d' & H' & Eq & _). exists o', (back dl), d'. rewrite Eq.
      split_and!; [by etrans|done|left; apply back_home].
  - exists o, (WDrain dl), d. split_and!; [done|done|left; right; eauto].
  - destruct (hasRecoveryWork o) eqn:Er.
    + destruct (Hrec (Some dl)) as (o' & w' & d' & H & Hl & Hh). exists o', w', d'. split_and!; [|done|by left].
      etrans; [apply drain_once, (w_drain_recover _ _ dl dl Er); lia|exact H].
    + exists o, (WDone true), d. split_and!; [by apply drain_once, w_drained|done|right]. split_and!; [done| |eauto].
      unfold hasRecoveryWork in Er. apply negb_false_iff, bool_decide_eq_true in Er. done.
  - by destruct (Hw b).
Qed.

(** Everything is written: nothing is queued or to be retried, and the worker is in its loop or has ended. *)
Definition settled (s : osys D) : Prop :=
  ob_queue (sy_obs s) = [] /\ ob_retry (sy_obs s) = ∅ /\ (sy_worker s = WLoop \/ sy_worker s = WDone true).

(** One observation leaves the queue. *)
Lemma home_receives o w d x q : at_home w -> ob_queue o = x :: q -> exists o' w' d',
  rtc wstep (mkOsys o w d) (mkOsys o' w' d') /\ at_home w' /\ len (ob_queue o') < len (ob_queue o).
Proof.
  intros Hw Eq. assert (Hdrain : forall dl, exists o' w' d', rtc wstep (mkOsys o (WDrain dl) d) (mkOsys o' w' d') /\
    at_home w' /\ len (ob_queue o') < len (ob_queue o)).
  { intros dl. destruct (batch_back (Some dl) {[on_key x := on_index x]} 1 {| o with ob_queue := q |} d) as (o' & d' & H & Hl).
    exists o', (WDrain dl), d'. split_and!; [|right; eauto|rewrite Eq; cbn [length ob_queue] in *; lia].
    etrans; [by apply drain_once; eapply w_drain_receive|exact H]. }
  destruct Hw as [->|[dl ->]]; [|apply Hdrain]. destruct (ob_stopCh o) eqn:Es.
  - destruct (Hdrain (0 + searchAppliedStopDrainTimeout)) as (o' & w' & d' & H & Hh & Hl). exists o', w', d'. split_and!; [|done|done].
    etrans; [by apply run_once, (w_stopped _ _ 0)|exact H].
  - destruct (batch_back None {[on_key x := on_index x]} 1 {| o with ob_queue := q |} d) as (o' & d' & H & Hl).
    exists o', WLoop, d'. split_and!; [|by left|rewrite Eq; cbn [length ob_queue] in *; lia].
    etrans; [by apply run_once, w_running|]. etrans; [by apply run_once; eapply w_receive|exact H].
Qed.

(** With an empty queue, the retries are written. *)
Lemma home_recovers o w d : at_home w -> ob_queue o = [] -> ob_retry o <> ∅ -> exists o' w' d',
  rtc wstep (mkOsys o w d) (mkOsys o' w' d') /\ at_home w' /\ ob_queue o' = [] /\ (size (ob_retry o') < size (ob_retry o))%nat.
Proof.
  intros Hw Eq Hne. assert (Hr : hasRecoveryWork o = true) by (unfold hasRecoveryWork; by rewrite bool_decide_eq_false_2).
  assert (Hdrain : forall dl, exists o' w' d', rtc wstep (mkOsys o (WDrain dl) d) (mkOsys o' w' d') /\
    at_home w' /\ ob_queue o' = [] /\ (size (ob_retry o') < size (ob_retry o))%nat).
  { intros dl. destruct (recover_back (Some dl) o d) as (o' & d' & H & E & _ & Hsub). exists o', (WDrain dl), d'.
    split_and!; [|right; eauto|by rewrite E|by apply map_subset_size, Hsub].
    etrans; [by apply drain_once, w_drain_empty|]. etrans; [apply drain_once, (w_drain_recover _ _ dl dl Hr); lia|exact H]. }
  destruct Hw as [->|[dl ->]]; [|apply Hdrain]. destruct (ob_stopCh o) eqn:Es.
  - destruct (Hdrain (0 + searchAppliedStopDrainTimeout)) as (o' & w' & d' & H & Hh & Hl). exists o', w', d'. split_and!; [|done|apply Hl..].
    etrans; [by apply run_once, (w_stopped _ _ 0)|exact H].
  - destruct (recover_back None o d) as (o' & d' & H & E & _ & Hsub). exists o', WLoop, d'.
    split_and!; [|by left|by rewrite E|by apply map_subset_size, Hsub].
    etrans; [by apply run_once, w_running|]. etrans; [apply run_once, w_ticked|exact H].
Qed.

Lemma home_settles o w d : at_home w -> exists s', rtc wstep (mkOsys o w d) s' /\ settled s'.
Proof.
  remember (length (ob_queue o)) as n eqn:En. revert o w d En. induction (lt_wf n) as [n _ IHn]; intros o w d En Hw.
  destruct (ob_queue o) as [|x q] eqn:Eq.
  - clear IHn. remember (size (ob_retry o)) as m eqn:Em. clear En. revert o w d Eq Em Hw.
    induction (lt_wf m) as [m _ IHm]; intros o w d Eq Em Hw. destruct (decide (ob_retry o = ∅)) as [He|Hne].
    + destruct Hw as [->|[dl ->]]; [exists (mkOsys o WLoop d); split; [done|]; split_and!; auto|].
      exists (mkOsys o (WDone true) d). split; [|split_and!; auto]. etrans; [by apply drain_once, w_drain_empty|].
      apply drain_once, w_drained. unfold hasRecoveryWork. by rewrite bool_decide_eq_true_2.
    + destruct (home_recovers o w d Hw Eq Hne) as (o' & w' & d' & H & Hh & Eq' & Hlt).
      destruct (IHm (size (ob_retry o')) ltac:(lia) o' w' d' Eq' eq_refl Hh) as (s' & Hs & Hset). exists s'. split; [by etrans|done].
  - destruct (home_receives o w d x q Hw Eq) as (o' & w' & d' & H & Hh & Hlt). rewrite Eq in Hlt.
    destruct (IHn (length (ob_queue o')) ltac:(cbn [length] in *; lia) o' w' d' eq_refl Hh) as (s' & Hs & Hset).
    exists s'. split; [by etrans|done].
Qed.
End Settles.

Lemma bounded_reach d0 s acc : obs_reach d0 s acc -> obs_bounded (sy_obs s).
Proof.
  induction 1 as [|s acc k i o r _ HI Hi E|s acc _ HI|s acc _ HI Ha|s acc d _ HI Hd|s acc o w d _ HI Hs]; cbn [sy_obs]; try done.
  - unfold obs_bounded, newSearchAppliedObserver, searchAppliedObservationQueueSize, searchAppliedRetryCapacity.
    cbn [ob_queue ob_retry ob_retryBackoff length]. rewrite map_size_empty. lia.
  - by eapply observe_bounded.
  - by eapply worker_bounded.
Qed.
Lemma reach_steps d0 s acc s' : obs_reach d0 s acc -> rtc wstep s s' -> obs_reach d0 s' acc.
Proof.
  intros Hr Hs. induction Hs as [|s s1 s2 H _ IH]; [done|]. apply IH. destruct s1 as [o w d]. by eapply reach_worker.
Qed.

(** Nothing is on its way any more. *)
Lemma way_written s x : ob_overflowed (sy_obs s) = false -> ob_queue (sy_obs s) = [] -> held (sy_worker s) = ∅ -> ob_retry (sy_obs s) = ∅ ->
  on_its_way s x -> written_index (sy_db s) x.
Proof.
  intros Ho Eq Eh Er [H|[H|[H|[H|H]]]]; [congruence|done|..].
  - rewrite Eq in H. destruct H as (y & Hy%elem_of_nil & _). done.
  - rewrite Eh in H. by apply listed_empty in H.
  - rewrite Er in H. by apply listed_empty in H.
Qed.
Lemma ready_nothing o : ObserverReady o = None -> ob_overflowed o = false /\ ob_retry o = ∅.
Proof.
  unfold ObserverReady. destruct (ob_accepting o); cbn [negb orb]; [|done]. case_bool_decide; cbn [negb orb]; [|done].
  by destruct (ob_overflowed o).
Qed.
End Laws.

(** *** A database without errors *)

#[local] Instance mapApplied : AppliedDB (gmap (string * Z) Z) := {|
  UpdateAppliedIndex d c t i := Some (<[(c, t) := Z.max i (default 0 (d !! (c, t)))]> d)
|}.
#[local] Instance mapApplied_laws : AppliedDBLaws (gmap (string * Z) Z).
Proof.
  refine {| watermark d k := default 0 (d !! k) |}.
  - intros d c t i d' _ [= <-]. rewrite lookup_insert_eq. cbn. lia.
  - intros d c t i d' k _ [= <-]. destruct (decide (k = (c, t))) as [->|Hne].
    + rewrite lookup_insert_eq. cbn. lia.
    + rewrite lookup_insert_ne by done. lia.
Defined.

Module AppliedProps.

(** C26. Whatever the callers, the worker, the other writers of the database and the stop do
    and however the database fails, an index that the observer has accepted is written to
    the database, or a newer one of the same channel is in the queue, in the hands of the
    worker or to be retried, or the observer has overflowed. So when it reports that it is
    ready (it has not overflowed and nothing is to be retried), its queue is empty and the
    worker holds nothing, everything accepted is written; the same holds when the worker has
    ended in time and the observer has not overflowed. The queue, the retries and the time
    between attempts are bounded. *)
Theorem applied_never_lost {D} {AD : AppliedDB D} {AL : AppliedDBLaws D} (d0 : D) (s : osys D) (acc : list observation) :
  obs_reach d0 s acc ->
  (forall x, x ∈ acc -> on_its_way s x) /\
  (ObserverReady (sy_obs s) = None -> ob_queue (sy_obs s) = [] -> held (sy_worker s) = ∅ ->
     forall x, x ∈ acc -> written_index (sy_db s) x) /\
  (sy_worker s = WDone true -> ob_overflowed (sy_obs s) = false -> forall x, x ∈ acc -> written_index (sy_db s) x) /\
  obs_bounded (sy_obs s).
Proof.
  intros Hr. pose proof (inv_reach _ _ _ Hr) as HI. split_and!.
  - apply (oi_way _ _ HI).
  - intros [Ho He]%ready_nothing Eq Eh x Hx. by apply way_written, (oi_way _ _ HI).
  - intros Ew Ho x Hx. apply way_written; [done|apply (oi_drained _ _ HI); eauto|by rewrite Ew|by apply (oi_done _ _ HI)|].
    by apply (oi_way _ _ HI).
  - by eapply bounded_reach.
Qed.

(** The channel [a] of type 1 has applied 5, the worker has received the index and written it. *)
Definition written5 : osys (gmap (string * Z) Z) := mkOsys (finishAttempt newSearchAppliedObserver false 0) WLoop {[("a", 1) := 5]}.

Lemma applied_never_lost_witness :
  obs_reach (∅ : gmap (string * Z) Z) written5 [mkObservation "1&a" 5] /\
  on_its_way written5 (mkObservation "1&a" 5) /\ written_index (sy_db written5) (mkObservation "1&a" 5) /\ obs_bounded (sy_obs written5).
Proof.
  set (o0 := newSearchAppliedObserver). set (x := mkObservation "1&a" 5). set (d5 := {[("a", 1) := 5]} : gmap (string * Z) Z).
  assert (E1 : Observe o0 "1&a" 5 = ({| o0 with ob_queue := [x] |}, None)) by (vm_compute; reflexivity).
  assert (Es : supportsSearchAppliedObservation "1&a" = true) by (vm_compute; reflexivity).
  assert (Ed : UpdateAppliedIndex ∅ (ChannelFromlKey "1&a").1 (ChannelFromlKey "1&a").2 5 = Some d5) by (vm_compute; reflexivity).
  assert (Hu : is_u64 5) by (vm_compute; done).
  set (p := {["1&a" := 5]} : gmap string Z). set (o1 := {| o0 with ob_queue := [x] |}).
  assert (H1 : obs_reach (∅ : gmap (string * Z) Z) (mkOsys o1 WLoop ∅) [x]).
  { pose proof (reach_observe ∅ _ _ _ _ _ _ (reach_new (∅ : gmap (string * Z) Z)) Hu E1) as H. by rewrite Es in H. }
  assert (H2 : obs_reach ∅ (mkOsys o0 (WFlush None p) ∅) [x]).
  { eapply reach_steps; [exact H1|]. etrans; [by apply run_once, w_running|]. etrans; [by apply run_once, (w_receive o1 ∅ x [])|].
    etrans; [by apply batch_once, (w_batch _ _ None p 1); right|]. by apply run_once, (w_check o0 ∅ p). }
  assert (Hr : obs_reach ∅ written5 [x]).
  { eapply reach_steps; [exact H2|]. etrans; [by apply flush_once, (w_update o0 ∅ None p "1&a" 5 d5)|].
    etrans; [apply flush_once, w_record|]. replace (delete "1&a" p) with (∅ : gmap string Z) by (vm_compute; reflexivity).
    etrans; [apply flush_once, w_flushed|]. by apply recover_once, (w_finish _ _ None false 0). }
  clear H1 H2.
  destruct (applied_never_lost ∅ written5 [mkObservation "1&a" 5] Hr) as (H1 & H2 & _ & H4).
  split_and!; [done|apply H1; by left|apply H2; [done|done|done|by left]|done].
Defined.

(** C27. When the database does not fail, the worker can always finish, unless it gave up at its
    deadline: from every state it can go on, without anyone else, to one where the queue and
    the retries are empty and everything that was accepted is written, or the observer has
    overflowed. *)
Theorem applied_settles {D} {AD : AppliedDB D} {AL : AppliedDBLaws D} (d0 : D) (s : osys D) (acc : list observation) :
  (forall d c t i, is_Some (UpdateAppliedIndex (D := D) d c t i)) -> obs_reach d0 s acc -> sy_worker s <> WDone false ->
  exists s', rtc wstep s s' /\ settled s' /\
    (ob_overflowed (sy_obs s') = false -> forall x, x ∈ acc -> written_index (sy_db s') x).
Proof.
  intros Hdb Hr Hw. pose proof (inv_reach _ _ _ Hr) as HI. assert (Hset : exists s', rtc wstep s s' /\ settled s').
  { assert (Hcase : sy_worker s = WDone true \/ forall b, sy_worker s <> WDone b).
    { destruct (sy_worker s) as [| | | | | | | | | | | | | |[|]]; try (by right). by left. }
    destruct Hcase as [Ew|Hw'].
    - exists s. split; [done|]. split_and!; [apply (oi_drained _ _ HI); eauto|by apply (oi_done _ _ HI)|by right].
    - destruct s as [o w d]. cbn [sy_worker] in *. destruct (to_home Hdb o w d) as (o' & w' & d' & H & Hl & [Hh|(-> & He & Hd)]).
      + exact Hw'.
      + destruct (home_settles Hdb o' w' d' Hh) as (s' & H' & Hset). exists s'. split; [by etrans|done].
      + exists (mkOsys o' (WDone true) d'). split; [done|]. split_and!; [|done|by right]. cbn [sy_obs].
        assert (E : ob_queue o = []) by (apply (oi_drained _ _ HI); eauto). rewrite E in Hl. cbn [length] in Hl.
        destruct (ob_queue o'); [done|cbn [length] in Hl; lia]. }
  destruct Hset as (s' & H & Hset). exists s'. split_and!; [done|done|]. intros Ho x Hx. destruct Hset as (Eq & Er & Ew).
  apply way_written; [done|done|by destruct Ew as [->| ->]|done|]. by eapply (oi_way s' acc), Hx; eapply inv_reach, reach_steps.
Qed.

(** It is in the queue still. *)
Definition queued5 : osys (gmap (string * Z) Z) := mkOsys (Observe newSearchAppliedObserver "1&a" 5).1 WLoop ∅.

Lemma applied_settles_witness :
  exists s', rtc wstep queued5 s' /\ settled s' /\ (ob_overflowed (sy_obs s') = false -> written_index (sy_db s') (mkObservation "1&a" 5)).
Proof.
  assert (Hr : obs_reach ∅ queued5 [mkObservation "1&a" 5]).
  { exact (reach_observe ∅ _ _ "1&a" 5 _ _ (reach_new (∅ : gmap (string * Z) Z)) ltac:(vm_compute; done) eq_refl). }
  destruct (applied_settles ∅ queued5 [mkObservation "1&a" 5]) as (s' & H1 & H2 & H3); [|done|done|].
  - intros d c t i. eexists. reflexivity.
  - exists s'. split_and!; [done|done|]. intros Ho. apply H3; [done|by left].
Defined.
End AppliedProps.
