(* ===== verification/WkLeaderTerm.v ===== *)
(** * The first logs of the terms

    [pkg/wkdb/leader_term_sequence.go]: for a raft, named by its shard number, the index of
    the first log of each term, in a table of the database. *)

From Stdlib Require Import Strings.Byte.
From S2P Require Import Prelude RaftTypes WkProto KeyBytes WkTables WkKey WkKv WkPermission WkMembers WkModel WkMessages WkMessageDB.
From S2P Require SlotStorage.

Section LeaderTerms.
Context {DB : Type} {P : Pebble DB} {C : Type} {L : LRU PermissionCacheItem C}.
Context {SC : Type} {LS : LRU bytes SC} {UC : Type} {LU : LRU Z UC}.
Abbreviation Db := (Db (DB := DB) (C := C) (SC := SC) (UC := UC)).
#[local] Notation "'db!' x ':=' m 'in' k" := (db_bind m (fun x => k)) (at level 10, x pattern, m at level 100, k at level 200).

(** [pkg/wkdb/wukongdb.go] [(wk *wukongDB) shardId]

    There are as many stores as shards. *)
Definition shardId (wk : wukongDB (DB := DB) (C := C)) (v : string) : res Z :=
  if bool_decide (v = "") then Panic
  else
    let shardNum := len (wk_dbs wk) in
    if shardNum =? 1 then Ok 0
    else if shardNum =? 0 then Panic
    else Ok (SlotStorage.fnv1_32 (str_bytes v) mod shardNum).

(** [pkg/wkdb/wukongdb.go] [lines 196-204]

    [shardDB] and [sharedBatchDB]: the store, and its number for a commit. *)
Definition shardDB (v : string) : Db (nat * DB) := fun d =>
  let! i := shardId (mg_wk d) v in
  match wk_dbs (mg_wk d) !! Z.to_nat i with
  | Some db => Ok (d, inr (Z.to_nat i, db))
  | None => Panic
  end.

(** [pkg/wkdb/leader_term_sequence.go] [(wk *wukongDB) SetLeaderTermStartIndex] *)
Definition SetLeaderTermStartIndex (shardNo : string) (term index : Z) : Db unit :=
  db! (i, db) := shardDB shardNo in
  db! k := db_res (NewLeaderTermSequenceTermKey shardNo term) in
  commit_batch i db [WSet k (be_bytes 8 index)].

(** The entries between two terms. *)
Definition term_entries (shardNo : string) (lo hi : Z) : Db (list (bytes * bytes)) :=
  db! (_, db) := shardDB shardNo in
  db! lower := db_res (NewLeaderTermSequenceTermKey shardNo lo) in
  db! upper := db_res (NewLeaderTermSequenceTermKey shardNo hi) in
  db_ret (kv_iter db lower upper).

(** [pkg/wkdb/leader_term_sequence.go] [(wk *wukongDB) LeaderLastTerm] *)
Definition LeaderLastTerm (shardNo : string) : Db Z :=
  db! entries := term_entries shardNo 0 MaxUint32 in
  match last entries with
  | Some (k, _) => db! r := db_res (ParseLeaderTermSequenceTermKey k) in or_parse r
  | None => db_ret 0
  end.

(** [pkg/wkdb/leader_term_sequence.go] [(wk *wukongDB) LeaderTermStartIndex] *)
Definition LeaderTermStartIndex (shardNo : string) (term : Z) : Db Z :=
  db! (_, db) := shardDB shardNo in
  db! k := db_res (NewLeaderTermSequenceTermKey shardNo term) in
  match kv_get db k with
  | NotFound => db_ret 0
  | GetErr => db_err readErr
  | Found indexBytes => db_res (value_uint 8 indexBytes)
  end.

(** [pkg/wkdb/leader_term_sequence.go] [lines 68-78]

    The loop ends at the first term that is not smaller. *)
Fixpoint firstTerm (entries : list (bytes * bytes)) (maxTerm : Z) : Db Z :=
  match entries with
  | [] => db_ret maxTerm
  | (k, _) :: entries =>
      db! r := db_res (ParseLeaderTermSequenceTermKey k) in
      db! qterm := or_parse r in
      if maxTerm <=? qterm then db_ret qterm else firstTerm entries maxTerm
  end.

(** [pkg/wkdb/leader_term_sequence.go] [(wk *wukongDB) LeaderLastTermGreaterEqThan] *)
Definition LeaderLastTermGreaterEqThan (shardNo : string) (term : Z) : Db Z :=
  db! entries := term_entries shardNo term MaxUint32 in
  firstTerm entries term.

(** [pkg/wkdb/leader_term_sequence.go] [(wk *wukongDB) DeleteLeaderTermStartIndexGreaterThanTerm] *)
Definition DeleteLeaderTermStartIndexGreaterThanTerm (shardNo : string) (term : Z) : Db unit :=
  db! (i, db) := shardDB shardNo in
  db! lower := db_res (NewLeaderTermSequenceTermKey shardNo (u32 (term + 1))) in
  db! upper := db_res (NewLeaderTermSequenceTermKey shardNo MaxUint32) in
  commit_batch i db [WDeleteRange lower upper].
End LeaderTerms.
