(* ===== verification/ChannelStorage.v ===== *)
(** * The storage of the rafts of the channels

    [pkg/cluster/channel/storage.go]: the logs of a channel are its messages.  A log that is
    stored becomes a row of the table of messages, and is made from the row again when it is
    read.

    A packet made of the fields of a row ([msg_packet]) and a packet with another number
    ([set_seq]) are those of [wkproto] ([RowPackets]).  [now] is the clock. *)

From Stdlib Require Import Strings.Byte.
From S2P Require Import Prelude RaftTypes RaftNode WkProto KeyBytes WkTables WkKey WkKv WkPermission WkMembers WkModel.
From S2P Require Import WkMessages WkMessageDB WkLeaderTerm ChannelKeys ChannelApplied WkApplied.

Class RowPackets {F : Frames} {R : RecvPackets} := {
  msg_packet : Msg -> Packet;
  set_seq : Packet -> Z -> Packet
}.
Arguments RowPackets : clear implicits.
(** The fields of a message: those of its packet, its term and whether it is for the search. *)
Class RowPacketsLaws {F : Frames} {R : RecvPackets} (V : MsgViews F R) (M : RowPackets F R) := {
  view_term m : m_Term (msg_of m) = ms_Term m;
  view_search m : m_SearchOutbox (msg_of m) = ms_SearchOutbox m;
  packet_msg m term search version :
    msg_of (mkMessage (msg_packet m) term search version) = {| m with m_Term := term; m_SearchOutbox := search |};
  packet_same m : set_seq (msg_packet m) (m_MessageSeq m) = msg_packet m;
  packet_seq p i term search version :
    msg_of (mkMessage (set_seq p i) term search version) =
    {| (msg_of (mkMessage p term search version)) with m_MessageSeq := i |}
}.

Section Storage.
Context {W : WkProto} {F : Frames} {R : RecvPackets} {V : MsgViews F R} {M : RowPackets F R}.
Context {DB : Type} {P : Pebble DB} {C : Type} {L : LRU PermissionCacheItem C}.
Context {SC : Type} {LS : LRU bytes SC} {UC : Type} {LU : LRU Z UC}.
Abbreviation Db := (Db (DB := DB) (C := C) (SC := SC) (UC := UC)).
#[local] Notation "'db!' x ':=' m 'in' k" := (db_bind m (fun x => k)) (at level 10, x pattern, m at level 100, k at level 200).

(** An operation that reads the stores. *)
Definition read_wk {A} (op : wukongDB (DB := DB) (C := C) -> res (GoError + A)) : Db A := fun d =>
  let! r := op (mg_wk d) in Ok (d, r).

(** [pkg/cluster/channel/storage.go] [(s *storage) GetState] *)
Definition GetState (channelId : string) (channelType : Z) : Db RaftState :=
  db! lastMessage := GetLastMsg channelId channelType in
  let last := m_MessageSeq lastMessage in
  db! floor := GetSearchOutboxFloor channelId channelType in
  match floor with
  | None => db_ret (mkRaftState last (u32 (m_Term lastMessage)) last)
  | Some floor =>
      db! applied := read_wk (fun wk => GetChannelAppliedIndex wk channelId channelType) in
      let restartApplied := Z.max floor applied in
      if last <? restartApplied then db_err (ErrOther "search outbox restart index exceeds last log index")
      else db_ret (mkRaftState last (u32 (m_Term lastMessage)) restartApplied)
  end.

(** [pkg/cluster/channel/storage.go] [lines 63-74]

    The messages of the logs, with the number and the term of their logs. *)
Definition log_message (l : Log) : option Message :=
  msg ← Message_Unmarshal (log_Data l);
  Some {| msg with ms_RecvPacket := set_seq (ms_RecvPacket msg) (u32 (log_Index l)); ms_Term := log_Term l |}.

(** [pkg/cluster/channel/storage.go] [(s *storage) AppendLogs] *)
Definition AppendLogs (key : string) (logs : list Log) (termStartIndexInfo : option TermStartIndexInfo) (now now' : Z) : Db unit :=
  let '(channelId, channelType) := ChannelFromlKey key in
  match mapM log_message logs with
  | None => db_err (ErrOther "unmarshal message")
  | Some messages =>
      db! _ := AppendMessages channelId channelType messages now now' in
      match termStartIndexInfo with
      | Some info => SetLeaderTermStartIndex key (tsi_Term info) (tsi_Index info)
      | None => db_ret tt
      end
  end.

(** [pkg/cluster/channel/storage.go] [(s *storage) GetTermStartIndex] *)
Definition GetTermStartIndex (key : string) (term : Z) : Db Z := LeaderTermStartIndex key term.
(** [pkg/cluster/channel/storage.go] [(s *storage) LeaderLastLogTerm] *)
Definition LeaderLastLogTerm (key : string) : Db Z := LeaderLastTerm key.
(** [pkg/cluster/channel/storage.go] [(s *storage) LeaderTermGreaterEqThan] *)
Definition LeaderTermGreaterEqThan (key : string) (term : Z) : Db Z := LeaderLastTermGreaterEqThan key term.

(** [pkg/cluster/channel/storage.go] [(s *storage) LastIndexAndAppendTime] *)
Definition LastIndexAndAppendTime (shardNo : string) : Db (Z * Z) :=
  let '(channelId, channelType) := ChannelFromlKey shardNo in
  GetChannelLastMessageSeq channelId channelType.
(** [pkg/cluster/channel/storage.go] [(s *storage) LastIndex] *)
Definition LastIndex (key : string) : Db Z :=
  let '(channelId, channelType) := ChannelFromlKey key in
  db! (lastMsgSeq, _) := GetChannelLastMessageSeq channelId channelType in db_ret lastMsgSeq.

(** A message of the table. *)
Definition row_message (m : Msg) : Message := mkMessage (msg_packet m) (m_Term m) (m_SearchOutbox m) messageDataVersionLegacy.
(** [pkg/cluster/channel/storage.go] [lines 126-137] *)
Definition message_log (m : Msg) : option Log :=
  data ← Message_Marshal (row_message m);
  Some {| EmptyLog with log_Id := u64 (m_MessageID m); log_Index := m_MessageSeq m; log_Term := u32 (m_Term m); log_Data := data |}.

(** [pkg/cluster/channel/storage.go] [(s *storage) GetLogs] *)
Definition GetLogs (key : string) (startLogIndex endLogIndex limitSize : Z) : Db (list Log) :=
  let '(channelID, channelType) := ChannelFromlKey key in
  db! lastIdx := LastIndex key in
  let endLogIndex := if (endLogIndex =? 0) || (lastIdx +64 1 <? endLogIndex) then lastIdx +64 1 else endLogIndex in
  db! messages := LoadNextRangeMsgsForSize channelID channelType startLogIndex endLogIndex limitSize in
  match mapM message_log messages with
  | None => db_err (ErrOther "marshal message")
  | Some logs => db_ret logs
  end.

(** [pkg/cluster/channel/storage.go] [(s *storage) TruncateLogTo] *)
Definition TruncateLogTo (key : string) (index now : Z) : Db unit :=
  let '(channelId, channelType) := ChannelFromlKey key in
  WkMessageDB.TruncateLogTo channelId channelType index now.

(** [pkg/cluster/channel/storage.go] [(s *storage) DeleteLeaderTermStartIndexGreaterThanTerm] *)
Definition DeleteLeaderTermStartIndexGreaterThanTerm (key : string) (term : Z) : Db unit :=
  WkLeaderTerm.DeleteLeaderTermStartIndexGreaterThanTerm key term.

(** [pkg/cluster/channel/storage.go] [(s *storage) getLastMessage] *)
Definition getLastMessage (channelId : string) (channelType : Z) : Db Msg := GetLastMsg channelId channelType.

(** [pkg/cluster/channel/server.go] [(s *Server) LastLogIndexAndTerm]

    A message that is not there has the number and the term 0. *)
Definition LastLogIndexAndTerm (channelId : string) (channelType : Z) : Db (Z * Z) := fun d =>
  let! (d, r) := getLastMessage channelId channelType d in
  match r with
  | inr msg => Ok (d, inr (u32 (m_Term msg), m_MessageSeq msg))
  | inl (ErrOther "not found") => Ok (d, inr (0, 0))
  | inl err => Ok (d, inl err)
  end.
End Storage.
