(* ===== verification/ChannelServer.v ===== *)
(** * The rafts of the channels

    [pkg/cluster/channel/channel.go]: a channel has a raft, made from the state of its storage
    when it is woken.  A configuration reaches the raft as an event; one of an older term is
    refused before the raft sees it. *)

From S2P Require Import Prelude RaftTypes RaftQueue RaftNode WkProto KeyBytes WkTables WkKey WkKv WkPermission WkMembers WkModel.
From S2P Require Import WkMessages WkMessageDB ChannelKeys.
From S2P Require ChannelStorage.

(** [pkg/cluster/channel/channel.go] [Channel] *)
Record Channel := mkChannel { ch_Node : Node; ch_cfg : ChannelClusterConfig; ch_channelKey : string }.

(** [pkg/cluster/channel/errors.go] [lines 5-9] *)
Definition errStaleConfigTerm : GoError := ErrOther "channel config term is lower than current raft term".

Section Server.
Context {W : WkProto} {F : Frames} {R : RecvPackets} {V : MsgViews F R}.
Context {DB : Type} {P : Pebble DB} {C : Type} {L : LRU PermissionCacheItem C}.
Context {SC : Type} {LS : LRU bytes SC} {UC : Type} {LU : LRU Z UC}.
Abbreviation Db := (Db (DB := DB) (C := C) (SC := SC) (UC := UC)).
#[local] Notation "'db!' x ':=' m 'in' k" := (db_bind m (fun x => k)) (at level 10, x pattern, m at level 100, k at level 200).

(** [pkg/cluster/channel/channel.go] [createChannel] *)
Definition createChannel (nodeId destoryAfterIdleTick : Z) (cfg : ChannelClusterConfig) : Db Channel :=
  let channelKey := ChannelToKey (cl_ChannelId cfg) (cl_ChannelType cfg) in
  db! state := ChannelStorage.GetState (cl_ChannelId cfg) (cl_ChannelType cfg) in
  db! lastLogStartIndex := ChannelStorage.GetTermStartIndex channelKey (rs_LastTerm state) in
  db! n := db_res (NewNode lastLogStartIndex state
             {| NewOptions with opt_AutoSuspend := true; opt_AutoDestory := true; opt_NodeId := nodeId;
                                opt_DestoryAfterIdleTick := destoryAfterIdleTick |}) in
  db_ret (mkChannel n cfg channelKey).
End Server.

(** [pkg/cluster/channel/channel.go] [(ch *Channel) Step] *)
Definition Channel_Step (n : Node) (event : Event) : handled :=
  if bool_decide (ev_Type event = ConfChange) || bool_decide (ev_Type event = ConfigResp) then
    let! cfg := NodeConfig n in
    let currentTerm := cfg_Term cfg in
    let minimumTerm := if currentTerm <? ev_Term event then ev_Term event else currentTerm in
    if negb (cfg_Term (ev_Config event) =? 0) && (cfg_Term (ev_Config event) <? minimumTerm) then
      if currentTerm <? ev_Term event then
        let! (n, err) := Step n {| emptyEvent with ev_Type := TermResp; ev_From := ev_From event; ev_To := ev_To event;
                                                   ev_Term := ev_Term event |} in
        match err with
        | Some err => Ok (n, Some err)
        | None => Ok (n, Some errStaleConfigTerm)
        end
      else Ok (n, Some errStaleConfigTerm)
    else Step n event
  else Step n event.

(** [pkg/cluster/channel/channel.go] [(ch *Channel) needUpdate] *)
Definition needUpdate (ch : Channel) (newCfg : ChannelClusterConfig) : bool := negb (ChannelClusterConfig_Equal (ch_cfg ch) newCfg).

(** [pkg/cluster/channel/channel.go] [channelConfigToRaftConfig] *)
Definition channelConfigToRaftConfig (currentNodeId : Z) (cfg : ChannelClusterConfig) : Config :=
  let role :=
    if ArrayContainsUint64 (cl_Learners cfg) currentNodeId then RoleLearner
    else if cl_LeaderId cfg =? currentNodeId then RoleLeader else RoleFollower in
  {| cfg_MigrateFrom := cl_MigrateFrom cfg; cfg_MigrateTo := cl_MigrateTo cfg; cfg_Replicas := cl_Replicas cfg;
       cfg_Learners := cl_Learners cfg; cfg_Term := cl_Term cfg; cfg_Leader := cl_LeaderId cfg; cfg_Role := role;
       cfg_Version := cl_ConfVersion cfg |}.
