(* ===== verification/ChannelStorageRep.v ===== *)
(** * What the database has of the rafts of the channels

    The first logs of the terms of a raft in a store ([terms_hold]), and the database with
    the messages and the terms of the channels ([ChanRep]).  Writing to one table leaves the
    others ([rep_other_table]). *)

From Stdlib Require Import Strings.Byte Strings.Ascii Sorting.Sorted.
From S2P Require Import Prelude ZTables RaftTypes WkProto KeyBytes WkTables WkKey WkKeyLaws WkKv.
From S2P Require Import WkPermission WkMembers WkMembersLaws WkMembersCache WkMembersRefine WkModel WkMessages WkMessageDB.
From S2P Require Import WkMessagesLaws WkMessagesRep WkMessagesRefine WkLeaderTerm ChannelKeys ChannelApplied WkApplied ChannelStorage.
From S2P Require SlotStorage.

#[local] Arguments be_bytes : simpl never.

(** ** Terms *)

Abbreviation TL := TableLeaderTermSequence.
Definition terms_of (h : Z) : bytes := prefix4 (t_Id TL) dataTypeTable ++ be_bytes 8 h.
Definition term_key (h t : Z) : bytes := terms_of h ++ be_bytes 4 t.

Lemma term_key_eq k t : NewLeaderTermSequenceTermKey k t = Ok (term_key (HashWithString k) t).
Proof. reflexivity. Qed.
Lemma term_key_inj h t h' t' : is_u64 h -> is_u64 h' -> is_u32 t -> is_u32 t' -> term_key h t = term_key h' t' -> h = h' /\ t = t'.
Proof.
  intros Hh Hh' Ht Ht'. unfold term_key, terms_of. rewrite <-!app_assoc. intros E%app_inv_head.
  apply app_inj_1 in E as [E1 E2]; [|by rewrite !be_bytes_length].
  apply (be_bytes_inj 8) in E1; [|done..]. by apply (be_bytes_inj 4) in E2.
Qed.
Lemma terms_apart h r h' r' : is_u64 h -> is_u64 h' -> terms_of h ++ r = terms_of h' ++ r' -> h = h'.
Proof.
  intros Hh Hh'. unfold terms_of. rewrite <-!app_assoc. intros E%app_inv_head.
  apply app_inj_1 in E as [E _]; [|by rewrite !be_bytes_length]. by apply (be_bytes_inj 8) in E.
Qed.
Lemma be4_range a b v : is_u32 a -> is_u32 b -> is_u32 v -> in_range (be_bytes 4 a) (be_bytes 4 b) (be_bytes 4 v) <-> a <= v < b.
Proof.
  intros Ha Hb Hv. unfold in_range, ble, blt. rewrite !(bcompare_be 4) by done.
  destruct (Z.compare_spec a v), (Z.compare_spec v b); naive_solver lia.
Qed.
Lemma term_key_range h lo hi t : is_u32 lo -> is_u32 hi -> is_u32 t ->
  in_range (term_key h lo) (term_key h hi) (term_key h t) <-> lo <= t < hi.
Proof. intros Hl Hh Ht. unfold term_key. by rewrite in_range_prefix, be4_range. Qed.
Lemma chan_term_key_lt h t t' : is_u32 t -> is_u32 t' -> t < t' -> blt (term_key h t) (term_key h t').
Proof. intros Ht Ht' Hlt. unfold blt, term_key. rewrite bcompare_prefix, (bcompare_be 4) by done. by apply Z.compare_lt_iff. Qed.
Lemma term_key_parse h t : is_u32 t -> ParseLeaderTermSequenceTermKey (term_key h t) = Ok (Some t).
Proof.
  intros Ht. unfold ParseLeaderTermSequenceTermKey. change (t_Size TL) with 16%nat.
  assert (El : length (term_key h t) = 16%nat) by (unfold term_key, terms_of; by rewrite !length_app, !be_bytes_length).
  rewrite El. cbn [Nat.eqb negb]. unfold read_uint. rewrite El. cbn [Nat.add Nat.leb res_bind].
  assert (Ed : drop 12 (term_key h t) = be_bytes 4 t).
  { unfold term_key. apply drop_app_length'. unfold terms_of. by rewrite length_app, be_bytes_length. }
  rewrite Ed, take_ge by (by rewrite be_bytes_length). by rewrite (be_val_bytes 4).
Qed.

(** A store has the terms of a raft, and nothing else under its name. *)
Record terms_hold (m : kvmap) (h : Z) (T : gmap Z Z) : Prop := {
  th_get t : is_u32 t -> m !! term_key h t = be_bytes 8 <$> T !! t;
  th_only r v : m !! (terms_of h ++ r) = Some v -> exists t, is_u32 t /\ r = be_bytes 4 t;
  th_fits t i : T !! t = Some i -> 0 <= t < MaxUint32 /\ is_u64 i
}.
Lemma max_u32 : is_u32 MaxUint32.
Proof. done. Qed.
Lemma th_u32 m h T t i : terms_hold m h T -> T !! t = Some i -> is_u32 t.
Proof. intros HT [Ht _]%(th_fits _ _ _ HT). unfold is_u32, MaxUint32 in *. lia. Qed.

Lemma terms_same m m' h T : (forall r, m' !! (terms_of h ++ r) = m !! (terms_of h ++ r)) -> terms_hold m h T -> terms_hold m' h T.
Proof.
  intros E [H1 H2 H3]. split; [|intros r v; rewrite E; apply H2|done]. intros t Ht. unfold term_key. rewrite E. by apply H1.
Qed.

Lemma terms_iter {DB} {P : Pebble DB} {PL : PebbleLaws DB} (db : DB) h T lo hi : is_u32 lo -> is_u32 hi -> terms_hold (kv_map db) h T ->
  kv_iter db (term_key h lo) (term_key h hi) = (fun p => (term_key h p.1, be_bytes 8 p.2)) <$> range_of T lo hi.
Proof.
  intros Hlo Hhi HT. apply (iter_numbers (term_key h) is_u32).
  - intros t i. by apply (th_u32 _ _ _ _ _ HT).
  - by apply th_get.
  - intros k v (r & -> & _)%range_prefix (t & Ht & ->)%(th_only _ _ _ HT). by exists t.
  - intros t Ht. by apply term_key_range.
  - intros t t' Ht Ht'. by apply chan_term_key_lt.
Qed.

(** Writes. *)
Lemma terms_put m h T t i : is_u64 h -> 0 <= t < MaxUint32 -> is_u64 i -> terms_hold m h T ->
  terms_hold (<[term_key h t := be_bytes 8 i]> m) h (<[t := i]> T).
Proof.
  intros Hh Ht Hi [H1 H2 H3]. assert (Hu : is_u32 t) by (unfold is_u32, MaxUint32 in *; lia). split.
  - intros t' Ht'. destruct (decide (t' = t)) as [->|Hne]; [by rewrite !lookup_insert_eq|].
    rewrite !lookup_insert_ne; [by apply H1|done|]. intros E%term_key_inj; [|done..]. by destruct E.
  - intros r v. rewrite lookup_insert_Some. intros [[E _]|[_ ?]]; [|by eapply H2]. apply app_inv_head in E. by exists t.
  - intros t' i' [[<- <-]|[_ ?]]%lookup_insert_Some; [done|by apply H3].
Qed.

(** The terms up to [t]. *)
Definition cut_terms (T : gmap Z Z) (t : Z) : gmap Z Z := filter (fun p => p.1 <= t) T.
Lemma terms_cut m h T t : 0 <= t < MaxUint32 -> terms_hold m h T ->
  terms_hold (apply_wop m (WDeleteRange (term_key h (t + 1)) (term_key h MaxUint32))) h (cut_terms T t).
Proof.
  intros Ht [H1 H2 H3]. assert (Hu : is_u32 (t + 1)) by (unfold is_u32, MaxUint32 in *; lia). split.
  - intros t' Ht'. rewrite range_lookup, H1 by done. unfold cut_terms. rewrite map_lookup_filter. destruct (T !! t') as [i|] eqn:Ei; cbn [fmap option_fmap option_map mbind option_bind];
      [|by destruct (decide _)]. destruct (H3 _ _ Ei) as [Hb _]. unfold guard. destruct (decide (in_range _ _ _)) as [Hr|Hr];
      rewrite term_key_range in Hr by done; cbn [fst]; case_decide; (done || lia).
  - intros r v. rewrite range_lookup. destruct (decide _); [done|]. apply H2.
  - intros t' i [Hi _]%map_lookup_filter_Some. by apply H3.
Qed.

(** ** The database *)

(** The channels in use: their ids have no ampersand, and the names of their rafts have
    different hashes. *)
Class ChanNames {MC : MsgChannels} := {
  name_plain c t : IsChan c t -> "&"%char ∉ String.list_ascii_of_string c;
  name_inj c t c' t' : IsChan c t -> IsChan c' t' ->
    HashWithString (ChannelToKey c t) = HashWithString (ChannelToKey c' t') -> c = c' /\ t = t'
}.
Arguments ChanNames : clear implicits.

Lemma name_hash k : is_u64 (HashWithString k).
Proof. apply fnv64a_range. Qed.

(** The shard of a raft. *)
Definition tshard (n : nat) (k : string) : nat :=
  if decide (n = 1%nat) then 0%nat else Z.to_nat (SlotStorage.fnv1_32 (str_bytes k) mod Z.of_nat n).
Lemma tshard_below n k : (0 < n)%nat -> (tshard n k < n)%nat.
Proof.
  intros Hn. unfold tshard. case_decide; [lia|]. pose proof (Z.mod_pos_bound (SlotStorage.fnv1_32 (str_bytes k)) (Z.of_nat n) ltac:(lia)). lia.
Qed.

(** A channel: its messages, the first logs of its terms, and its applied index. *)
Record chan {R : RecvPackets} := mkChan { cs_log : chanlog; cs_terms : gmap Z Z; cs_applied : Z }.
Arguments chan : clear implicits.

Section Database.
Context {W : WkProto} {F : Frames} {R : RecvPackets} {RL : RecvPacketsLaws R} {V : MsgViews F R}.
Context {DB : Type} {P : Pebble DB} {PL : PebbleLaws DB} {C : Type} {L : LRU PermissionCacheItem C}.
Context {SC : Type} {LS : LRU bytes SC} {LSL : LRULaws bytes SC} {UC : Type} {LU : LRU Z UC} {MC : MsgChannels} {CN : ChanNames MC}.
Abbreviation database := (messageDB (DB := DB) (C := C) (SC := SC) (UC := UC)).
Abbreviation chans := (string * Z -> chan R).
Implicit Types (d : database) (A : chans).

Definition logs_of A : string * Z -> chanlog := fun k => cs_log (A k).
Definition set_cs A (c : string) (t : Z) (x : chan R) : chans := fun k => if decide (k = (c, t)) then x else A k.
Lemma set_cs_eq A c t x : set_cs A c t x (c, t) = x.
Proof. unfold set_cs. by rewrite decide_True. Qed.
Lemma set_cs_logs A c t x k : logs_of (set_cs A c t x) k = set_chan (logs_of A) c t (cs_log x) k.
Proof. unfold logs_of, set_cs, set_chan. by case_decide. Qed.

(** What the shards of a database have. *)
Definition own d : Aside := mkAside (length (dbs_of d)) (fun i => default ∅ (kv_map <$> dbs_of d !! i)).
Lemma Rep_own (E : Aside) (B : string * Z -> chanlog) d : Rep (AS := E) B d -> Rep (AS := own d) B d.
Proof. intros [[H1 H2 Hf H3 _ _] H4 H5]. split; [split|..]; try done. intros i db Hi. cbn. by rewrite Hi. Qed.

(** The applied index that a store has for a channel. *)
Definition applied_in (m : kvmap) (c : string) (t : Z) : Z := default 0 (be_val <$> m !! applied_key (ChannelToNum c t)).

(** A message of a channel that was a log. *)
Record row_ok (c : string) (t : Z) (m : Msg) : Prop := {
  ro_term : is_u32 (m_Term m);
  ro_chan : m_ChannelID m = c /\ m_ChannelType m = t;
  ro_id : 0 < m_MessageID m;
  ro_search : m_SearchOutbox m = true -> IsValidSearchOutboxChannelIdentity c t = true
}.

Record ChanRep A d : Prop := {
  crp_msgs : Rep (AS := own d) (logs_of A) d;
  crp_terms c t db : IsChan c t -> dbs_of d !! tshard (length (dbs_of d)) (ChannelToKey c t) = Some db ->
    terms_hold (kv_map db) (HashWithString (ChannelToKey c t)) (cs_terms (A (c, t)));
  crp_applied i db h v : dbs_of d !! i = Some db -> kv_map db !! applied_key h = Some v -> length v = 8%nat;
  crp_index c t db : IsChan c t -> dbs_of d !! shard (length (dbs_of d)) c t = Some db -> applied_in (kv_map db) c t = cs_applied (A (c, t));
  crp_rows c t i m : IsChan c t -> cl_msgs (cs_log (A (c, t))) !! i = Some m -> row_ok c t m
}.

Lemma not_msg_table id : id = t_Id TL \/ id = t_Id TableChannelCommon -> id ∉ msg_tables.
Proof. intros [-> | ->]; apply (bool_decide_unpack _); by vm_compute. Qed.

(** An operation on messages. *)
Lemma chan_msgs A A' d d' : ChanRep A d -> Rep (AS := own d) (logs_of A') d' -> (forall k, cs_terms (A' k) = cs_terms (A k)) ->
  (forall k, cs_applied (A' k) = cs_applied (A k)) ->
  (forall c t i m, IsChan c t -> cl_msgs (cs_log (A' (c, t))) !! i = Some m -> row_ok c t m) -> ChanRep A' d'.
Proof.
  intros [_ H2 H3 H4 _] HR Ht Ha Hu. pose proof (sh_shards _ _ (rep_store _ _ HR)) as Hl. cbn [shards own] in Hl.
  assert (Hdb : forall i db', dbs_of d' !! i = Some db' -> exists db, dbs_of d !! i = Some db /\ same_aside (kv_map db') (kv_map db)).
  { intros i db' Hi. pose proof (sh_aside _ _ (rep_store _ _ HR) _ _ Hi) as Hs. cbn in Hs. apply lookup_lt_Some in Hi as Hlt.
    rewrite Hl in Hlt. destruct (lookup_lt_is_Some_2 _ _ Hlt) as [db E]. exists db. by rewrite E in Hs. }
  split; [by eapply Rep_own| | | |done].
  - intros c t db' Hc Hi. apply Hdb in Hi as (db & Hi & Hs). rewrite Hl in Hi. rewrite Ht.
    eapply terms_same; [|by eapply H2]. intros r. unfold terms_of. rewrite <-app_assoc. apply Hs, not_msg_table. by left.
  - intros i db' h v Hi Hv. apply Hdb in Hi as (db & Hi & Hs). eapply (H3 i db h); [done|].
    unfold applied_key in *. rewrite <-Hs; [done|]. apply not_msg_table. by right.
  - intros c t db' Hc Hi. apply Hdb in Hi as (db & Hi & Hs). rewrite Hl in Hi. rewrite Ha, <-(H4 c t db Hc Hi).
    unfold applied_in, applied_key. rewrite Hs; [done|]. apply not_msg_table. by right.
Qed.

(** *** Writes to other tables *)

Lemma outbox_other m ws id : id ∉ msg_tables -> Forall (fun w => exists kind, of_kind id kind w) ws -> outbox_ok m -> outbox_ok (apply_wops m ws).
Proof.
  intros Hid Hws. revert m. induction Hws as [|w ws [kind Hw] _ IH]; intros m [H1 H2]; [split; eauto|]. rewrite apply_wops_cons. apply IH.
  change (apply_wop m w) with (apply_wops m [w]).
  split; intros r v; (rewrite (under_frame (prefix4 id kind)); [eauto|by apply Forall_singleton|]); intros x (E & _)%prefix4_inj;
    apply Hid; rewrite <-E; [apply outbox_table|apply state_table].
Qed.

Lemma floor_elsewhere m ws id c t : id ∉ msg_tables -> Forall (fun w => exists kind, of_kind id kind w) ws ->
  floor_in (apply_wops m ws) c t = floor_in m c t.
Proof.
  intros Hid Hws. eapply (fb_floor c t), eq_refl. apply floor_same. eapply Forall_impl; [exact Hws|]. intros w [kind Hw].
  exists id, kind. split; [|done]. intros [= -> _]. apply Hid, outbox_table.
Qed.

Definition with_shard d (i : nat) (db : DB) : database := {| d with mg_wk := {| (mg_wk d) with wk_dbs := <[i := db]> (dbs_of d) |} |}.
Lemma dbs_with_shard d i db : dbs_of (with_shard d i db) = <[i := db]> (dbs_of d).
Proof. done. Qed.

Lemma rep_other_table (E : Aside) (B : string * Z -> chanlog) d i db db' ws id : Rep (AS := E) B d -> dbs_of d !! i = Some db ->
  id ∉ msg_tables -> Forall (fun w => exists kind, of_kind id kind w) ws -> kv_map db' = apply_wops (kv_map db) ws ->
  Rep (AS := own (with_shard d i db')) B (with_shard d i db').
Proof.
  intros [[H1 H2 Hf H3 _ _] H4 H5] Hi Hid Hws Hm. pose proof (lookup_lt_Some _ _ _ Hi) as Hlt.
  assert (Hel : Forall elsewhere ws).
  { eapply Forall_impl; [exact Hws|]. intros w [kind Hw]. exists id, kind.
    split_and!; [intros [= -> _]; apply Hid, tm_table|intros [= -> _]; apply Hid, tm_table|done]. }
  eapply (Rep_own (own (with_shard d i db'))). split; [split|done|done]; unfold dbs_of, with_shard; cbn [mg_wk wk_dbs]; fold (dbs_of d).
  - by rewrite length_insert.
  - rewrite length_insert. intros c t x Hc Hx. destruct (decide (shard (length (dbs_of d)) c t = i)) as [<-|Hne].
    + rewrite list_lookup_insert_eq in Hx by done. injection Hx as <-. rewrite Hm. apply holds_frame; [done|]. by apply H2.
    + rewrite list_lookup_insert_ne in Hx by done. by apply H2.
  - rewrite length_insert. intros c t x Hc Hx. destruct (decide (shard (length (dbs_of d)) c t = i)) as [<-|Hne].
    + rewrite list_lookup_insert_eq in Hx by done. injection Hx as <-. rewrite Hm, (floor_elsewhere _ _ id) by done. by apply Hf.
    + rewrite list_lookup_insert_ne in Hx by done. by apply Hf.
  - intros j x Hx. destruct (decide (j = i)) as [->|Hne].
    + rewrite list_lookup_insert_eq in Hx by done. injection Hx as <-. rewrite Hm. eapply outbox_other; [done|done|by eapply H3].
    + rewrite list_lookup_insert_ne in Hx by done. by eapply H3.
  - done.
  - intros j x Hx. unfold own, dbs_of in *. cbn [aside mg_wk wk_dbs] in *. by rewrite Hx.
Qed.
End Database.
