(* ===== verification/ChannelStorageRefine.v ===== *)
(** * The storage of the rafts of the channels refines the channels

    Every operation of [ChannelStorage] leaves a database that has the channels of the
    abstract one ([ChanRep]) and answers as they do; it reports an error only for arguments
    that are refused, or when a store fails. *)

From Stdlib Require Import Strings.Byte Strings.Ascii Sorting.Sorted.
From S2P Require Import Prelude ZTables RaftTypes WkProto KeyBytes WkTables WkKey WkKeyLaws WkKv.
From S2P Require Import WkPermission WkMembers WkMembersLaws WkMembersRefine WkModel StoreCmdLaws WkMessages WkMessageDB.
From S2P Require Import WkMessagesLaws WkMessagesRep WkMessagesRefine WkLeaderTerm ChannelKeys ChannelApplied WkApplied ChannelStorage ChannelStorageRep.
From S2P Require SlotStorage.

#[local] Arguments be_bytes : simpl never.
#[local] Arguments term_key : simpl never.

Section Refine.
Context {W : WkProto} {F : Frames} {R : RecvPackets} {RL : RecvPacketsLaws R} {V : MsgViews F R} {M : RowPackets F R} {ML : RowPacketsLaws V M}.
Context {DB : Type} {P : Pebble DB} {PL : PebbleLaws DB} {C : Type} {L : LRU PermissionCacheItem C}.
Context {SC : Type} {LS : LRU bytes SC} {LSL : LRULaws bytes SC} {UC : Type} {LU : LRU Z UC} {MC : MsgChannels} {CN : ChanNames MC}.
Abbreviation database := (messageDB (DB := DB) (C := C) (SC := SC) (UC := UC)).
Abbreviation chans := (string * Z -> chan R).
Implicit Types (d : database) (A : chans).

(** ** Operations *)

(** An operation that changes nothing; [None]: it is refused. *)
Definition cgives {X} A d (op : Db X) (Q : option X -> Prop) : Prop :=
  wp op (fun d' r => ChanRep A d' /\ match r with inl _ => store_fails DB \/ Q None | inr x => Q (Some x) end) d.
(** An operation that changes one channel. *)
Definition cwrites {X} A d (op : Db X) (c : string) (t : Z) (x : chan R) : Prop :=
  wp op (fun d' r => match r with inl _ => ChanRep A d' /\ store_fails DB | inr _ => ChanRep (set_cs A c t x) d' end) d.

Lemma same_chan A d d' : ChanRep A d -> Rep (AS := own d) (logs_of A) d' -> ChanRep A d'.
Proof. intros HC HR. eapply chan_msgs; [exact HC|exact HR|done|done|apply HC]. Qed.
Lemma gives_chan {X} A d (op : Db X) o : ChanRep A d -> gives (AS := own d) (logs_of A) d op o -> cgives A d op (fun x => x = o).
Proof.
  intros HC. apply wp_mono. intros d' r (HR & _ & Hr). split; [by eapply same_chan|]. destruct r as [e|x]; [|done].
  destruct Hr as [?|Hr]; [by left|by right].
Qed.
Lemma reads_chan {X} A d (op : Db X) (a : X -> Prop) : ChanRep A d -> reads (AS := own d) (logs_of A) d op a ->
  cgives A d op (fun x => match x with Some x => a x | None => False end).
Proof. intros HC. apply wp_mono. intros d' r (HR & _ & Hr). split; [by eapply same_chan|]. destruct r; [by left|done]. Qed.
Lemma writes_chan {X} A d (op : Db X) c t a : ChanRep A d -> (forall i m, cl_msgs a !! i = Some m -> row_ok c t m) ->
  writes (AS := own d) (logs_of A) d op c t a -> cwrites A d op c t {| (A (c, t)) with cs_log := a |}.
Proof.
  intros HC Hu. apply wp_mono. intros d' r Hr. destruct r as [e|x].
  - destruct Hr as [HR HF]. split; [by eapply same_chan|done].
  - eapply chan_msgs; [exact HC| | | |].
    + eapply Msgs_ext; [|exact Hr]. intros k. apply set_cs_logs.
    + intros k. unfold set_cs. by case_decide as E; [rewrite E|].
    + intros k. unfold set_cs. by case_decide as E; [rewrite E|].
    + intros c' t' i m Hc'. unfold set_cs. case_decide as E; [injection E as -> ->; apply Hu|]. by apply (crp_rows _ _ HC).
Qed.

Lemma cgives_bind {X Y} A d (op : Db X) (Q : option X -> Prop) (f : X -> Db Y) (Q' : option Y -> Prop) : cgives A d op Q ->
  (Q None -> Q' None) -> (forall d' x, ChanRep A d' -> Q (Some x) -> cgives A d' (f x) Q') -> cgives A d (db_bind op f) Q'.
Proof.
  intros Hop Hn Hf. apply wp_bind. eapply wp_mono; [|exact Hop]. intros d' r [HC Hr]. destruct r as [e|x]; [|by apply Hf].
  split; [done|]. destruct Hr as [?|?]; [by left|right; by apply Hn].
Qed.
Lemma cgives_ret {X} A d (x : X) (Q : option X -> Prop) : ChanRep A d -> Q (Some x) -> cgives A d (db_ret x) Q.
Proof. intros HC HQ. by apply wp_ret. Qed.
Lemma cgives_err {X} A d e (Q : option X -> Prop) : ChanRep A d -> Q None -> cgives A d (db_err e) Q.
Proof. intros HC HQ. apply wp_err. split; [done|by right]. Qed.
Lemma cgives_res {X} A d (r : res X) x (Q : option X -> Prop) : ChanRep A d -> r = Ok x -> Q (Some x) -> cgives A d (db_res r) Q.
Proof. intros HC E HQ. by eapply wp_res. Qed.
Lemma cgives_step {X Y} A d (r : res X) x (f : X -> Db Y) (Q : option Y -> Prop) : r = Ok x -> cgives A d (f x) Q -> cgives A d (db_bind (db_res r) f) Q.
Proof. intros E H. apply wp_bind. by eapply wp_res. Qed.
Lemma cgives_mono {X} A d (op : Db X) (Q Q' : option X -> Prop) : (forall x, Q x -> Q' x) -> cgives A d op Q -> cgives A d op Q'.
Proof. intros H. apply wp_mono. intros d' [e|x] [HC Hr]; (split; [done|]); [destruct Hr; eauto|auto]. Qed.

(** ** Names *)

Lemma key_chan c t : IsChan c t -> ChannelFromlKey (ChannelToKey c t) = (c, t).
Proof. intros Hc. apply ChannelKey_roundtrip; [by eapply ischan_type|by eapply name_plain]. Qed.
Lemma key_nonempty c t : ChannelToKey c t <> "".
Proof. unfold ChannelToKey. destruct (FormatInt t); [done|]. done. Qed.

(** The store with the terms of a channel. *)
Definition terms_db d (c : string) (t : Z) (db : DB) : Prop := dbs_of d !! tshard (length (dbs_of d)) (ChannelToKey c t) = Some db.
Lemma shardDB_gives A d c t : ChanRep A d -> exists db, terms_db d c t db /\
  shardDB (ChannelToKey c t) d = Ok (d, inr (tshard (length (dbs_of d)) (ChannelToKey c t), db)).
Proof.
  intros HC. destruct (rep_store _ _ (crp_msgs _ _ HC)) as [[Hl _] _ _ _ _ _].
  destruct (lookup_lt_is_Some_2 (dbs_of d) _ (tshard_below _ (ChannelToKey c t) Hl)) as [db Hdb]. exists db. split; [done|].
  unfold shardDB, shardId. rewrite bool_decide_eq_false_2 by apply key_nonempty. unfold terms_db, tshard in *.
  destruct (decide (length (dbs_of d) = 1%nat)) as [E|E].
  - unfold dbs_of in *. rewrite E. change (Z.of_nat 1 =? 1) with true. cbn [res_bind]. change (Z.to_nat 0) with 0%nat. by rewrite Hdb.
  - unfold dbs_of in *. destruct (Z.eqb_spec (len (wk_dbs (mg_wk d))) 1); [lia|]. destruct (Z.eqb_spec (len (wk_dbs (mg_wk d))) 0); [lia|]. cbn [res_bind]. by rewrite Hdb.
Qed.
Lemma shardDB_chan A d c t : ChanRep A d ->
  wp (shardDB (ChannelToKey c t)) (fun d' r => d' = d /\ exists db, terms_db d c t db /\ r = inr (tshard (length (dbs_of d)) (ChannelToKey c t), db)) d.
Proof. intros HC. destruct (shardDB_gives A d c t HC) as (db & Hdb & E). eexists _, _. split; [exact E|]. split; [done|]. by exists db. Qed.

(** ** The first logs of the terms *)

Section Terms.
Context A d (c : string) (t : Z) (HC : ChanRep A d) (Hc : IsChan c t).
Let k := ChannelToKey c t.
Let T := cs_terms (A (c, t)).

Lemma my_terms db : terms_db d c t db -> terms_hold (kv_map db) (HashWithString k) T.
Proof using HC Hc. intros Hdb. by apply (crp_terms _ _ HC). Qed.

(** The operations start with the store of the raft. *)
Lemma in_shard {X} (f : nat * DB -> Db X) (Q : option X -> Prop) :
  (forall db, terms_db d c t db -> cgives A d (f (tshard (length (dbs_of d)) k, db)) Q) -> cgives A d (db_bind (shardDB k) f) Q.
Proof using HC.
  intros Hf. apply wp_bind. eapply wp_mono; [|by apply (shardDB_chan A d c t)]. intros d' r (-> & db & Hdb & ->). by apply Hf.
Qed.

Lemma entries_gives lo hi : is_u32 lo -> is_u32 hi ->
  cgives A d (term_entries k lo hi) (fun r => r = Some ((fun p => (term_key (HashWithString k) p.1, be_bytes 8 p.2)) <$> range_of T lo hi)).
Proof using HC Hc.
  intros Hlo Hhi. apply in_shard. intros db Hdb. eapply cgives_step; [apply term_key_eq|]. eapply cgives_step; [apply term_key_eq|].
  apply cgives_ret; [done|].
  by rewrite (terms_iter db (HashWithString k) T) by (done || by apply my_terms).
Qed.

Lemma range_u32 lo hi p : p ∈ range_of T lo hi -> is_u32 p.1.
Proof using HC Hc.
  destruct p as [t' i]. intros [_ Hi]%range_elem. destruct (shardDB_gives A d c t HC) as (db & Hdb & _).
  eapply th_u32; [by apply my_terms|exact Hi].
Qed.

Lemma LastTerm_gives : cgives A d (LeaderLastLogTerm k) (fun r => r = Some (top T)).
Proof using HC Hc.
  eapply cgives_bind; [apply entries_gives; [done|apply max_u32]|done|]. intros d1 es HC1 [= ->]. rewrite fmap_last.
  assert (Hl : last (range_of T 0 MaxUint32) = (fun i => (top T, i)) <$> T !! top T).
  { destruct (shardDB_gives A d c t HC) as (db & Hdb & _). pose proof (my_terms db Hdb) as HT. apply range_last.
    - destruct (top_in T) as [->|[i Hi]]; [done|]. apply (th_fits _ _ _ HT) in Hi as [? _]. lia.
    - intros i v [? _]%(th_fits _ _ _ HT). lia. }
  rewrite Hl. destruct (T !! top T) as [i|] eqn:Ei; cbn [fmap option_fmap option_map fst snd].
  - assert (is_u32 (top T)) as Hu.
    { apply (range_u32 0 MaxUint32 (top T, i)), last_Some_elem_of. by rewrite Hl. }
    eapply cgives_step; [by apply term_key_parse|]. by apply cgives_ret.
  - apply cgives_ret; [done|]. destruct (top_in T) as [->|[x Hx]]; [done|congruence].
Qed.

Lemma TermStart_gives term : is_u32 term -> cgives A d (GetTermStartIndex k term) (fun r => r = Some (default 0 (T !! term))).
Proof using HC Hc.
  intros Hu. apply in_shard. intros db Hdb. eapply cgives_step; [apply term_key_eq|]. pose proof (my_terms db Hdb) as HT.
  destruct (got_cases db (term_key (HashWithString k) term)) as [->|[-> HF]]; [|apply wp_err; auto].
  rewrite (th_get _ _ _ HT) by done. destruct (T !! term) as [i|] eqn:Ei; cbn [fmap option_fmap option_map got_of].
  - eapply cgives_res; [done| |done]. unfold value_uint. rewrite be_bytes_length. cbn [Nat.ltb Nat.leb].
    rewrite take_ge by (by rewrite be_bytes_length). rewrite (be_val_bytes 8); [done|]. by apply (th_fits _ _ _ HT) in Ei as [_ ?].
  - by apply cgives_ret.
Qed.

Lemma TermGE_gives term : is_u32 term ->
  cgives A d (LeaderTermGreaterEqThan k term) (fun r => r = Some (default term (fst <$> head (range_of T term MaxUint32)))).
Proof using HC Hc.
  intros Hu. eapply cgives_bind; [apply entries_gives; [done|apply max_u32]|done|]. intros d1 es HC1 [= ->].
  destruct (range_of T term MaxUint32) as [|[t' i] ps] eqn:Er; [by apply cgives_ret|]. rewrite fmap_cons. cbn [firstTerm fst].
  assert (Hin : (t', i) ∈ range_of T term MaxUint32) by (rewrite Er; by left).
  eapply cgives_step; [apply term_key_parse; by apply (range_u32 term MaxUint32 (t', i))|]. apply range_elem in Hin as [? _].
  cbn [or_parse]. apply wp_bind, wp_ret. destruct (Z.leb_spec term t'); [|lia]. by apply wp_ret.
Qed.
End Terms.

(** *** Writing terms *)

Lemma under_terms_kind h w : under (terms_of h) w -> of_kind (t_Id TL) dataTypeTable w.
Proof.
  unfold of_kind, terms_of. destruct w as [k v|k|lo hi]; cbn [under].
  - intros [r ->]. rewrite <-app_assoc. by eexists.
  - intros [r ->]. rewrite <-app_assoc. by eexists.
  - intros H k (r & ->)%H. rewrite <-app_assoc. by eexists.
Qed.

(** A write to a table that is not of the messages. *)
Lemma chan_other A A' d i db db' ws id : ChanRep A d -> dbs_of d !! i = Some db -> id ∉ msg_tables ->
  Forall (fun w => exists kind, of_kind id kind w) ws -> kv_map db' = apply_wops (kv_map db) ws ->
  (forall k, cs_log (A' k) = cs_log (A k)) ->
  (forall c t, IsChan c t -> if decide (tshard (length (dbs_of d)) (ChannelToKey c t) = i)
     then terms_hold (kv_map db') (HashWithString (ChannelToKey c t)) (cs_terms (A' (c, t))) else cs_terms (A' (c, t)) = cs_terms (A (c, t))) ->
  (forall h v, kv_map db' !! applied_key h = Some v -> length v = 8%nat) ->
  (forall c t, IsChan c t -> if decide (shard (length (dbs_of d)) c t = i)
     then applied_in (kv_map db') c t = cs_applied (A' (c, t)) else cs_applied (A' (c, t)) = cs_applied (A (c, t))) ->
  ChanRep A' (with_shard d i db').
Proof.
  intros HC Hi Hid Hws Hm Hlog HT Hap Hix. pose proof (lookup_lt_Some _ _ _ Hi) as Hlt. split.
  - eapply Msgs_ext; [|by eapply (rep_other_table (own d) (logs_of A)); [apply HC|..]]. exact Hlog.
  - rewrite dbs_with_shard, length_insert. intros c t x Hc Hx. specialize (HT c t Hc). destruct (decide _) as [E|E].
    + rewrite E, list_lookup_insert_eq in Hx by done. by injection Hx as <-.
    + rewrite list_lookup_insert_ne in Hx by done. rewrite HT. by apply (crp_terms _ _ HC).
  - rewrite dbs_with_shard. intros j x h v Hx Hv. destruct (decide (j = i)) as [->|Hne].
    + rewrite list_lookup_insert_eq in Hx by done. injection Hx as <-. by eapply Hap.
    + rewrite list_lookup_insert_ne in Hx by done. by eapply (crp_applied _ _ HC).
  - rewrite dbs_with_shard, length_insert. intros c t x Hc Hx. specialize (Hix c t Hc). destruct (decide _) as [E|E].
    + rewrite E, list_lookup_insert_eq in Hx by done. by injection Hx as <-.
    + rewrite list_lookup_insert_ne in Hx by done. rewrite Hix. by apply (crp_index _ _ HC).
  - intros c t i' m Hc. rewrite Hlog. by apply (crp_rows _ _ HC).
Qed.

Lemma chan_terms A d c t db db' ws T' : ChanRep A d -> IsChan c t -> terms_db d c t db ->
  Forall (under (terms_of (HashWithString (ChannelToKey c t)))) ws -> kv_map db' = apply_wops (kv_map db) ws ->
  terms_hold (kv_map db') (HashWithString (ChannelToKey c t)) T' ->
  ChanRep (set_cs A c t {| (A (c, t)) with cs_terms := T' |}) (with_shard d (tshard (length (dbs_of d)) (ChannelToKey c t)) db').
Proof.
  intros HC Hc Hdb Hws Hm HT.
  assert (Hfr : forall h, apply_wops (kv_map db) ws !! applied_key h = kv_map db !! applied_key h).
  { intros h. apply (under_frame (terms_of (HashWithString (ChannelToKey c t)))); [done|]. intros r. unfold applied_key, terms_of.
    rewrite <-(app_assoc (prefix4 (t_Id TL) dataTypeTable)). by intros (E & _)%prefix4_inj. }
  eapply chan_other; [exact HC|exact Hdb|apply not_msg_table; by left| |exact Hm|..].
  - eapply Forall_impl; [exact Hws|]. intros w Hw%under_terms_kind. by eexists.
  - intros k. unfold set_cs. by case_decide as E; [rewrite E|].
  - intros c' t' Hc'. unfold set_cs. destruct (decide ((c', t') = (c, t))) as [[= -> ->]|Hk]; [by rewrite decide_True|].
    case_decide as E; [|done]. rewrite Hm. eapply terms_same; [|apply (crp_terms _ _ HC); [done|by rewrite E]]. intros r.
    apply (under_frame (terms_of (HashWithString (ChannelToKey c t)))); [done|]. intros r' E'%terms_apart; [|apply name_hash..].
    apply Hk. by apply name_inj in E' as [-> ->].
  - intros h v Hv. eapply (crp_applied _ _ HC _ db h); [exact Hdb|].
    rewrite Hm in Hv. by rewrite Hfr in Hv.
  - intros c' t' Hc'. assert (E : cs_applied (set_cs A c t {| (A (c, t)) with cs_terms := T' |} (c', t')) = cs_applied (A (c', t')))
      by (unfold set_cs; by case_decide as E; [rewrite E|]). case_decide as Ei; [|done]. rewrite E, <-(crp_index _ _ HC c' t' db Hc') by (by rewrite Ei).
    unfold applied_in. by rewrite Hm, Hfr.
Qed.

Lemma commit_terms A d c t db ws T' : ChanRep A d -> IsChan c t -> terms_db d c t db ->
  Forall (under (terms_of (HashWithString (ChannelToKey c t)))) ws ->
  terms_hold (apply_wops (kv_map db) ws) (HashWithString (ChannelToKey c t)) T' ->
  cwrites A d (commit_batch (tshard (length (dbs_of d)) (ChannelToKey c t)) db ws) c t {| (A (c, t)) with cs_terms := T' |}.
Proof.
  intros HC Hc Hdb Hws HT. unfold cwrites, wp, commit_batch, commit. destruct (kv_commit db ws) as [db'|] eqn:E.
  - eexists _, _. split; [done|]. apply kv_commit_law in E. rewrite <-E in HT. by eapply chan_terms.
  - eexists _, _. split; [done|]. split; [done|]. exists db. left. by exists ws.
Qed.

Lemma wp_shard {X} A d c t (f : nat * DB -> Db X) Q : ChanRep A d ->
  (forall db, terms_db d c t db -> wp (f (tshard (length (dbs_of d)) (ChannelToKey c t), db)) Q d) ->
  wp (db_bind (shardDB (ChannelToKey c t)) f) Q d.
Proof.
  intros HC Hf. apply wp_bind. eapply wp_mono; [|by apply (shardDB_chan A d c t)]. intros d' r (-> & db & Hdb & ->). by apply Hf.
Qed.

Lemma SetTerm_writes A d c t term index : ChanRep A d -> IsChan c t -> 0 <= term < MaxUint32 -> is_u64 index ->
  cwrites A d (SetLeaderTermStartIndex (ChannelToKey c t) term index) c t
    {| (A (c, t)) with cs_terms := <[term := index]> (cs_terms (A (c, t))) |}.
Proof.
  intros HC Hc Ht Hi. eapply wp_shard; [exact HC|]. intros db Hdb. apply wp_bind. eapply wp_res; [apply term_key_eq|].
  apply commit_terms; [done|done|done| |].
  - apply Forall_singleton. by eexists.
  - apply terms_put; [apply name_hash|done|done|]. by apply (crp_terms _ _ HC).
Qed.
Lemma DeleteTerms_writes A d c t term : ChanRep A d -> IsChan c t -> 0 <= term < MaxUint32 ->
  cwrites A d (DeleteLeaderTermStartIndexGreaterThanTerm (ChannelToKey c t) term) c t
    {| (A (c, t)) with cs_terms := cut_terms (cs_terms (A (c, t))) term |}.
Proof.
  intros HC Hc Ht. eapply wp_shard; [exact HC|]. intros db Hdb. apply wp_bind. eapply wp_res; [apply term_key_eq|].
  apply wp_bind. eapply wp_res; [apply term_key_eq|]. rewrite u32_small by (unfold is_u32, MaxUint32 in *; lia).
  apply commit_terms; [done|done|done| |].
  - apply Forall_singleton. intros k (r & -> & _)%range_prefix. by eexists.
  - apply terms_cut; [done|]. by apply (crp_terms _ _ HC).
Qed.

(** ** The applied index *)

Definition write_wk (op : wukongDB (DB := DB) (C := C) -> res (wukongDB (DB := DB) (C := C) * option GoError)) : Db unit := fun d =>
  let! (wk, e) := op (mg_wk d) in Ok ({| d with mg_wk := wk |}, match e with Some e => inl e | None => inr tt end).

Lemma channelDb_chan A d c t : ChanRep A d ->
  exists db, db_of d c t db /\ channelDb (mg_wk d) c t = Ok (shard (length (dbs_of d)) c t, db).
Proof.
  intros HC. destruct (wp_channel_db (AS := own d) (logs_of A) c t
    (fun d' r => exists db, db_of d c t db /\ r = inr (shard (length (dbs_of d)) c t, db)) d) as (d' & r & E & db & Hdb & ->);
    [apply HC|by eauto|]. exists db. split; [done|]. unfold channel_db in E.
  destruct (channelDb (mg_wk d) c t) as [[i x]| |]; [|done..]. by injection E as _ -> ->.
Qed.
Lemma applied_chan A d c t db : ChanRep A d -> db_of d c t db ->
  match kv_get db (applied_key (ChannelToNum c t)) with
  | NotFound => kv_map db !! applied_key (ChannelToNum c t) = None
  | GetErr => store_fails DB
  | Found v => kv_map db !! applied_key (ChannelToNum c t) = Some v /\ length v = 8%nat
  end.
Proof.
  intros HC Hdb. destruct (got_cases db (applied_key (ChannelToNum c t))) as [->|[-> HF]]; [|done].
  destruct (kv_map db !! applied_key (ChannelToNum c t)) as [v|] eqn:Ev; cbn [got_of]; [|done]. split; [done|]. by eapply (crp_applied _ _ HC).
Qed.

(** The applied index is read. *)
Lemma GetApplied_cases A d c t : ChanRep A d -> IsChan c t ->
  GetChannelAppliedIndex (mg_wk d) c t = Ok (inr (cs_applied (A (c, t)))) \/
  (exists e, GetChannelAppliedIndex (mg_wk d) c t = Ok (inl e)) /\ store_fails DB.
Proof.
  intros HC Hc. destruct (channelDb_chan A d c t HC) as (db & Hdb & E). unfold GetChannelAppliedIndex. rewrite E. cbn [res_bind].
  rewrite applied_key_eq. cbn [res_bind]. rewrite <-(crp_index _ _ HC c t db Hc Hdb). unfold applied_in.
  pose proof (applied_chan A d c t db HC Hdb) as Ha. destruct (kv_get db _) as [v| |].
  - destruct Ha as [-> Hv]. left. rewrite Hv. cbn [Nat.eqb negb]. unfold value_uint. rewrite Hv. cbn [Nat.ltb Nat.leb res_bind].
    rewrite take_ge by (by rewrite Hv). done.
  - left. by rewrite Ha.
  - right. split; [by eexists|done].
Qed.
Lemma applied_nonneg A d c t : ChanRep A d -> IsChan c t -> 0 <= cs_applied (A (c, t)).
Proof.
  intros HC Hc. destruct (channelDb_chan A d c t HC) as (db & Hdb & _). rewrite <-(crp_index _ _ HC c t db Hc Hdb). unfold applied_in.
  destruct (kv_map db !! _); cbn; [apply be_val_bound|done].
Qed.
Lemma Applied_gives A d c t : ChanRep A d -> IsChan c t ->
  cgives A d (read_wk (fun wk => GetChannelAppliedIndex wk c t)) (fun r => r = Some (cs_applied (A (c, t)))).
Proof.
  intros HC Hc. unfold cgives, wp, read_wk. destruct (GetApplied_cases A d c t HC Hc) as [->|[(e & ->) HF]]; cbn [res_bind].
  - eexists _, _. split; [done|]. by split.
  - eexists _, _. split; [done|]. split; [done|]. by left.
Qed.

Lemma ChanRep_ext A A' d : (forall k, A' k = A k) -> ChanRep A d -> ChanRep A' d.
Proof.
  intros E [H1 H2 H3 H4 H5]. split; [|intros c t db; rewrite E; apply H2|done|intros c t db; rewrite E; apply H4|intros c t i m; rewrite E; apply H5].
  eapply Msgs_ext; [|exact H1]. intros k. unfold logs_of. by rewrite E.
Qed.
Lemma set_same A c t k : set_cs A c t (A (c, t)) k = A k.
Proof. unfold set_cs. by case_decide as E; [rewrite E|]. Qed.

Lemma applied_key_inj c t c' t' : IsChan c t -> IsChan c' t' -> applied_key (ChannelToNum c t) = applied_key (ChannelToNum c' t') -> c = c' /\ t = t'.
Proof.
  intros Hc Hc' E. apply ischan_inj; [done|done|]. unfold applied_key in E. apply app_inv_head in E.
  apply app_inj_1 in E as [E _]; [|by rewrite !be_bytes_length]. apply (be_bytes_inj 8) in E; [done|apply hash_range..].
Qed.
Lemma UpdateApplied_writes A d c t index : ChanRep A d -> IsChan c t -> is_u64 index ->
  cwrites A d (write_wk (fun wk => UpdateChannelAppliedIndex wk c t index)) c t
    {| (A (c, t)) with cs_applied := Z.max index (cs_applied (A (c, t))) |}.
Proof.
  intros HC Hc Hi. unfold cwrites, wp, write_wk, UpdateChannelAppliedIndex.
  destruct (GetApplied_cases A d c t HC Hc) as [->|[(e & ->) HF]]; cbn [res_bind]; [|eexists _, _; split; [done|]; split; [|done]; by destruct d].
  destruct (Z.leb_spec index (cs_applied (A (c, t)))) as [Hle|Hgt].
  { eexists _, _. split; [done|]. eapply ChanRep_ext; [|by destruct d]. intros k. unfold set_cs. case_decide as E; [|done]. rewrite E, Z.max_r by done.
    by destruct (A (c, t)). }
  destruct (channelDb_chan A d c t HC) as (db & Hdb & ->). cbn [res_bind]. rewrite applied_key_eq. cbn [res_bind].
  unfold commit. destruct (kv_commit db _) as [db'|] eqn:Ecm; eexists _, _; (split; [done|]).
  2: { split; [by destruct d|]. exists db. left. by eexists. }
  apply kv_commit_law in Ecm. eapply (chan_other A _ d _ db db'); [exact HC|exact Hdb|apply not_msg_table; by right| |exact Ecm|..].
  - apply Forall_singleton. exists dataTypeTable. by eexists.
  - intros k. unfold set_cs. by case_decide as E; [rewrite E|].
  - intros c' t' Hc'. assert (E : cs_terms (set_cs A c t {| (A (c, t)) with cs_applied := Z.max index (cs_applied (A (c, t))) |} (c', t')) = cs_terms (A (c', t')))
      by (unfold set_cs; by case_decide as E; [rewrite E|]). rewrite E. case_decide as Es; [|done].
    rewrite Ecm. eapply terms_same; [|apply (crp_terms _ _ HC); [done|by rewrite Es]].
    intros r. apply lookup_insert_ne. unfold terms_of. rewrite <-app_assoc. by intros (E' & _)%prefix4_inj.
  - intros h v. rewrite Ecm. cbn [apply_wops foldl apply_wop]. rewrite lookup_insert_Some.
    intros [[_ <-]|[_ Hv]]; [apply be_bytes_length|by eapply (crp_applied _ _ HC)].
  - intros c' t' Hc'. rewrite Ecm. cbn [apply_wops foldl apply_wop]. unfold applied_in. destruct (decide ((c', t') = (c, t))) as [[= -> ->]|Hk].
    + rewrite decide_True, lookup_insert_eq, set_cs_eq by done. cbn. rewrite (be_val_bytes 8) by done. lia.
    + assert (E : set_cs A c t {| (A (c, t)) with cs_applied := Z.max index (cs_applied (A (c, t))) |} (c', t') = A (c', t'))
        by (unfold set_cs; by rewrite decide_False). rewrite E. case_decide as Es; [|done].
      rewrite lookup_insert_ne; [by apply (crp_index _ _ HC); [|rewrite Es]|]. intros E'%applied_key_inj; [|done|done]. destruct E' as [-> ->]. done.
Qed.

(** ** Logs *)

Lemma LastIndex_gives A d c t : ChanRep A d -> IsChan c t ->
  cgives A d (LastIndex (ChannelToKey c t)) (fun r => r = Some (cl_last (cs_log (A (c, t))))).
Proof.
  intros HC Hc. unfold LastIndex. rewrite key_chan by done. eapply cgives_bind.
  - apply reads_chan; [exact HC|]. apply GetLast_ok; [apply HC|done].
  - done.
  - intros d' [z now] HC' E. cbn [fst] in E. apply cgives_ret; [done|]. by rewrite E.
Qed.

(** The end of the logs that are read. *)
Definition logs_end (last endLogIndex : Z) : Z := if (endLogIndex =? 0) || (last + 1 <? endLogIndex) then last + 1 else endLogIndex.
Definition read_logs (a : chanlog) (start endLogIndex limitSize : Z) : option (list Log) :=
  mapM message_log (sized_msgs a start (logs_end (cl_last a) endLogIndex) limitSize).

Lemma GetLogs_gives A d c t start endLogIndex limitSize : ChanRep A d -> IsChan c t -> is_u64 start -> is_u64 endLogIndex ->
  cgives A d (GetLogs (ChannelToKey c t) start endLogIndex limitSize) (fun r => r = read_logs (cs_log (A (c, t))) start endLogIndex limitSize).
Proof.
  intros HC Hc Hs He. unfold GetLogs. rewrite key_chan by done. eapply cgives_bind; [by apply LastIndex_gives|done|].
  intros d' z HC' [= ->]. pose proof (cf_last _ (rep_fits _ _ (crp_msgs _ _ HC) c t Hc)) as Hl. unfold logs_of in Hl.
  assert (Eu : cl_last (cs_log (A (c, t))) +64 1 = cl_last (cs_log (A (c, t))) + 1) by (apply u64_small; unfold is_u64, MaxUint64 in *; lia).
  rewrite Eu. fold (logs_end (cl_last (cs_log (A (c, t)))) endLogIndex). unfold read_logs.
  assert (Hu : is_u64 (logs_end (cl_last (cs_log (A (c, t)))) endLogIndex)).
  { unfold logs_end. destruct (_ || _); [unfold is_u64, MaxUint64 in *; lia|done]. }
  eapply cgives_bind.
  - apply gives_chan; [exact HC'|]. apply LoadForSize_ok; [apply HC'|done|done|exact Hu].
  - done.
  - intros d2 ms HC2 [= ->]. unfold logs_of. destruct (mapM message_log _); [by apply cgives_ret|by apply cgives_err].
Qed.

(** *** Writing logs *)

Definition rows_ok (c : string) (t : Z) (a : chanlog) : Prop := forall i m, cl_msgs a !! i = Some m -> row_ok c t m.
Lemma merged_ok c t m old : row_ok c t m -> (forall o, old = Some o -> row_ok c t o) -> row_ok c t (merged m old).
Proof.
  intros [H1 H2 H3 H4] Ho. destruct old as [o|]; [|by split]. split; [done|done|done|]. cbn. intros [?|?]%orb_true_iff; [auto|].
  by apply (ro_search _ _ _ (Ho o eq_refl)).
Qed.
Lemma put_rows c t a ms : rows_ok c t a -> Forall (row_ok c t) ms -> rows_ok c t (put_msgs a ms).
Proof.
  intros Ha Hms. revert a Ha. induction Hms as [|m ms Hm _ IH]; intros a Ha; [done|]. apply IH. intros i m'.
  cbn [put_msg cl_msgs]. rewrite lookup_insert_Some. intros [[_ <-]|[_ ?]]; [|by eapply Ha]. apply merged_ok; [done|]. intros o. apply Ha.
Qed.

Lemma Truncate_writes A d c t index now : ChanRep A d -> IsChan c t -> is_u64 index -> index <> 0 ->
  cwrites A d (TruncateLogTo (ChannelToKey c t) index now) c t {| (A (c, t)) with cs_log := truncated (cs_log (A (c, t))) index |}.
Proof.
  intros HC Hc Hi Hne. unfold TruncateLogTo. rewrite key_chan by done. apply writes_chan; [done| |apply Truncate_ok; [apply HC|done..]].
  intros i m. unfold truncated. destruct (_ <=? index); [by apply (crp_rows _ _ HC)|]. cbn [cut_msgs cl_msgs].
  intros [Hm _]%map_lookup_filter_Some. by eapply (crp_rows _ _ HC).
Qed.

(** A channel after an append, without and with the first log of a term. *)
Definition logged (x : chan R) (msgs : list Message) : chan R := {| x with cs_log := appended (cs_log x) (msg_of <$> msgs) |}.
Definition termed (x : chan R) (info : option TermStartIndexInfo) : chan R :=
  match info with
  | Some i => {| x with cs_terms := <[tsi_Term i := tsi_Index i]> (cs_terms x) |}
  | None => x
  end.

(** An append whose messages were written, but not the first log of its term. *)
Definition half_append {X} A d (op : Db X) (c : string) (t : Z) (x x' : chan R) : Prop :=
  wp op (fun d' r => match r with
                     | inl _ => (ChanRep A d' \/ ChanRep (set_cs A c t x) d') /\ store_fails DB
                     | inr _ => ChanRep (set_cs A c t x') d'
                     end) d.

Lemma set_set A c t x y k : set_cs (set_cs A c t x) c t y k = set_cs A c t y k.
Proof. unfold set_cs. by case_decide. Qed.

Lemma Append_writes A d c t logs msgs info now now' : ChanRep A d -> IsChan c t ->
  mapM log_message logs = Some msgs -> Forall (append_fits c t) msgs -> logs <> [] -> Forall (fun l => is_u32 (log_Term l)) logs ->
  Forall (fun msg => 0 < m_MessageID (msg_of msg)) msgs ->
  (forall i, info = Some i -> 0 <= tsi_Term i < MaxUint32 /\ is_u64 (tsi_Index i)) ->
  half_append A d (AppendLogs (ChannelToKey c t) logs info now now') c t
    (logged (A (c, t)) msgs) (termed (logged (A (c, t)) msgs) info).
Proof.
  intros HC Hc Em Hf Hne Ht Hid Hi. unfold half_append, AppendLogs. rewrite key_chan, Em by done.
  assert (Hmt : Forall (row_ok c t) (msg_of <$> msgs)).
  { apply mapM_Some_1 in Em. apply Forall_fmap. clear -Em Ht Hf Hid ML. induction Em as [|l msg logs msgs E _ IH]; [constructor|].
    apply Forall_cons in Ht as [Hl Ht], Hf as [Hf1 Hf], Hid as [Hid1 Hid]. constructor; [|by apply IH]. cbn. split.
    - rewrite view_term. unfold log_message in E. destruct (Message_Unmarshal _); [|done]. by injection E as <-.
    - apply Hf1.
    - done.
    - intros Ho. by apply (af_search _ _ _ Hf1) in Ho as (? & _). }
  assert (Hms : msgs <> []) by (apply mapM_Some_1 in Em; by inversion Em; subst). apply wp_bind.
  eapply wp_mono; [|apply (writes_chan A d _ c t); [exact HC| |apply (Append_ok (logs_of A) c t msgs); [apply HC|done..]]].
  - intros d' r Hr. destruct r as [e|u]; [destruct Hr; auto|]. destruct info as [i|]; [|by apply wp_ret].
    destruct (Hi i eq_refl) as [Hi1 Hi2]. eapply wp_mono; [|apply (SetTerm_writes (set_cs A c t (logged (A (c, t)) msgs)) d' c t); [exact Hr|done..]]. intros d2 [e|u'] Hr2.
    + destruct Hr2; auto.
    + eapply ChanRep_ext; [|exact Hr2]. intros k. rewrite set_set, set_cs_eq. done.
  - by apply (put_rows c t); [intros i m; apply (crp_rows _ _ HC)|].
Qed.

(** ** The state of a raft *)

Definition last_term (a : chanlog) : Z := if cl_last a =? 0 then 0 else default 0 (m_Term <$> cl_msgs a !! cl_last a).
(** The state a raft starts with: all of its log is applied unless the search has started,
    and then what lies before the search and what was recorded as applied.  [None]: there is
    an error, as the last message is not there, or as that index is beyond it. *)
Definition restart (x : chan R) : option RaftState :=
  let last := cl_last (cs_log x) in
  if negb (last =? 0) && bool_decide (cl_msgs (cs_log x) !! last = None) then None
  else
    match cl_floor (cs_log x) with
    | None => Some (mkRaftState last (last_term (cs_log x)) last)
    | Some floor =>
        if last <? Z.max floor (cs_applied x) then None
        else Some (mkRaftState last (last_term (cs_log x)) (Z.max floor (cs_applied x)))
    end.

Lemma last_found A d c t m : ChanRep A d -> IsChan c t ->
  (if cl_last (cs_log (A (c, t))) =? 0 then Some EmptyMsg else one_msg (cs_log (A (c, t))) (cl_last (cs_log (A (c, t))))) = Some m ->
  m_MessageSeq m = cl_last (cs_log (A (c, t))) /\ u32 (m_Term m) = last_term (cs_log (A (c, t))).
Proof.
  intros HC Hc. unfold last_term. destruct (Z.eqb_spec (cl_last (cs_log (A (c, t)))) 0) as [E|Hne]; [intros [= <-]; by rewrite E|].
  unfold one_msg. destruct (cl_msgs _ !! _) as [mg|] eqn:Em; [|done]. intros [= <-]. cbn.
  destruct (cf_msgs _ (rep_fits _ _ (crp_msgs _ _ HC) c t Hc) _ _ Em) as [E _]. split; [done|].
  apply u32_small. by eapply ro_term, (crp_rows _ _ HC c t).
Qed.

Lemma GetState_gives A d c t : ChanRep A d -> IsChan c t -> cgives A d (GetState c t) (fun r => r = restart (A (c, t))).
Proof.
  intros HC Hc. eapply cgives_bind; [apply gives_chan; [exact HC|apply GetLastMsg_ok; [apply HC|done]]| |].
  { unfold logs_of, one_msg, restart. destruct (Z.eqb_spec (cl_last (cs_log (A (c, t)))) 0); [done|]. intros E.
    rewrite bool_decide_eq_true_2; [done|]. by destruct (cl_msgs _ !! _). }
  intros d1 m HC1 E. cbv beta in E. symmetry in E.
  assert (Hm : negb (cl_last (cs_log (A (c, t))) =? 0) && bool_decide (cl_msgs (cs_log (A (c, t))) !! cl_last (cs_log (A (c, t))) = None) = false).
  { unfold logs_of, one_msg in E. destruct (Z.eqb_spec (cl_last (cs_log (A (c, t)))) 0); [done|]. cbn [negb andb]. apply bool_decide_eq_false_2. intros E0.
    by rewrite E0 in E. }
  apply (last_found A d c t m HC Hc) in E as [Eseq Eterm]. cbv zeta. rewrite Eseq, Eterm. unfold restart. rewrite Hm.
  eapply cgives_bind; [apply reads_chan; [exact HC1|apply GetFloor_ok; [apply HC1|done]]|done|]. intros d2 floor HC2 ->. unfold logs_of.
  destruct (cl_floor (cs_log (A (c, t)))) as [fl|]; [|by apply cgives_ret].
  eapply cgives_bind; [by apply Applied_gives|done|]. intros d3 ap HC3 [= ->]. cbv zeta.
  destruct (_ <? _); [by apply cgives_err|by apply cgives_ret].
Qed.
(** The applied index is at most the last log. *)
Lemma restart_fits A d c t st : ChanRep A d -> IsChan c t -> restart (A (c, t)) = Some st ->
  rs_LastLogIndex st = cl_last (cs_log (A (c, t))) /\ rs_LastTerm st = last_term (cs_log (A (c, t))) /\
  0 <= rs_AppliedIndex st <= cl_last (cs_log (A (c, t))).
Proof.
  intros HC Hc. pose proof (cf_last _ (rep_fits _ _ (crp_msgs _ _ HC) c t Hc)) as Hl. unfold logs_of in Hl.
  pose proof (applied_nonneg A d c t HC Hc) as Ha. unfold restart. destruct (_ && _); [done|].
  destruct (cl_floor _) as [fl|]; [|intros [= <-]; cbn; lia]. destruct (Z.ltb_spec (cl_last (cs_log (A (c, t)))) (Z.max fl (cs_applied (A (c, t))))); [done|].
  intros [= <-]. cbn. lia.
Qed.

(** ** From the log of one node to that of another *)

(** The packet of a message can be framed, and the frame is not too large. *)
Definition framed (m : Msg) : Prop := exists data, EncodeFrame (msg_packet m) = Some data /\ len data < two32.

Lemma log_roundtrip {FL : FramesLaws F} {WL : WkProtoLaws W} m : msg_fits m -> is_u32 (m_Term m) -> framed m ->
  exists l msg, message_log m = Some l /\ log_message l = Some msg /\ msg_of msg = m /\ log_Term l = m_Term m /\
    log_Index l = m_MessageSeq m /\ log_Id l = u64 (m_MessageID m) /\ is_Some (Message_Marshal msg).
Proof.
  intros Hf Ht (data & Ed & Hd). unfold message_log.
  assert (is_Some (Message_Marshal (row_message m))) as [bs Eb].
  { unfold Message_Marshal, row_message. cbn [ms_RecvPacket ms_SearchOutbox ms_version]. rewrite Ed. cbn [mbind option_bind].
    by destruct (m_SearchOutbox m). }
  rewrite Eb. cbn [mbind option_bind]. pose proof (mf_seq _ Hf) as Hs. eexists _, _. split; [done|].
  assert (Hr : Message_Unmarshal bs = Some (stored_message (row_message m))).
  { apply Message_reads; [|done]. split_and!; [by apply (mf_term _ Hf)|done|]. intros data'. cbn. rewrite Ed. by intros [= <-]. }
  unfold log_message. cbn [log_Data log_Index log_Term log_Id]. rewrite Hr. cbn [mbind option_bind]. split; [done|].
  cbn [stored_message row_message ms_RecvPacket ms_Term ms_SearchOutbox ms_version].
  rewrite (u32_small (m_Term m)) by done. rewrite u32_small by (unfold is_u32; lia). rewrite packet_same. split_and!; [|done..|].
  - rewrite packet_msg. by destruct m.
  - unfold Message_Marshal. cbn [ms_RecvPacket ms_SearchOutbox ms_version]. rewrite Ed. cbn [mbind option_bind]. by destruct (m_SearchOutbox m).
Qed.

Lemma cut_prefix limit size (ms : list Msg) : exists n, cut_sizes limit size ms = take n ms.
Proof.
  revert size. induction ms as [|m ms IH]; intros size; [by exists O|]. cbn [cut_sizes]. cbv zeta.
  destruct (_ && _); [by exists 1%nat|]. destruct (IH (size +64 u64 (msg_size m))) as [n ->]. by exists (S n).
Qed.
(** What a range of messages is. *)
Lemma sized_elem A d c t start fin limit m : ChanRep A d -> IsChan c t -> m ∈ sized_msgs (cs_log (A (c, t))) start fin limit ->
  msg_fits m /\ row_ok c t m.
Proof.
  intros HC Hc. unfold sized_msgs. destruct (cut_prefix limit 0 (read_back <$> (range_of (cl_msgs (cs_log (A (c, t)))) start (if fin =? 0 then MaxUint64 else fin)).*2)) as [n ->].
  intros (j & Hj%list_elem_of_lookup_2 & _)%elem_of_take. apply list_elem_of_fmap in Hj as (mg & -> & ([i mg'] & -> & [_ Hi]%range_elem)%list_elem_of_fmap).
  cbn [snd].
  destruct (cf_msgs _ (rep_fits _ _ (crp_msgs _ _ HC) c t Hc) _ _ Hi) as [_ [? ? ? ? ? ?]].
  destruct (crp_rows _ _ HC c t _ _ Hc Hi) as [? ? ? ?]. split; by split.
Qed.
Lemma sized_sorted a start fin limit : chan_fits a -> StronglySorted (fun m m' => m_MessageSeq m < m_MessageSeq m') (sized_msgs a start fin limit).
Proof.
  intros Ha. unfold sized_msgs. destruct (cut_prefix limit 0 (read_back <$> (range_of (cl_msgs a) start (if fin =? 0 then MaxUint64 else fin)).*2)) as [n ->].
  set (hi := if fin =? 0 then MaxUint64 else fin). pose proof (range_numbered a start hi Ha) as Hn.
  assert (Hs : StronglySorted (fun m m' => m_MessageSeq m < m_MessageSeq m') (read_back <$> (range_of (cl_msgs a) start hi).*2)).
  { revert Hn. generalize (range_sorted (cl_msgs a) start hi). generalize (range_of (cl_msgs a) start hi). intros l Hl Hn.
    induction Hl as [|p ps _ IH Hp]; [constructor|]. apply Forall_cons in Hn as [[E1 _] Hn].
    rewrite !fmap_cons. constructor; [by apply IH|]. rewrite Forall_forall in Hp. rewrite Forall_forall in Hn. apply Forall_forall.
    intros m (mg & -> & (q & -> & Hq)%list_elem_of_fmap)%list_elem_of_fmap. cbn. destruct (Hn _ Hq) as [E2 _]. rewrite E1, E2. by apply Hp. }
  clear Hn. revert n. induction Hs as [|m ms Hs IH Hm]; intros [|n]; try constructor; [apply IH|]. by apply Forall_take.
Qed.

(** The logs of some messages are these messages. *)
Lemma logs_roundtrip {FL : FramesLaws F} {WL : WkProtoLaws W} c t ms : Forall (fun m => msg_fits m /\ row_ok c t m) ms -> Forall framed ms ->
  exists logs msgs, mapM message_log ms = Some logs /\ mapM log_message logs = Some msgs /\ msg_of <$> msgs = ms /\
    log_Index <$> logs = m_MessageSeq <$> ms /\ Forall (fun l => is_u32 (log_Term l)) logs /\ Forall (append_fits c t) msgs.
Proof.
  induction 1 as [|m ms [Hf Hr] _ IH]; intros Hfr; [by exists [], []|]. apply Forall_cons in Hfr as [Hfr Hfrs].
  destruct (IH Hfrs) as (logs & msgs & E1 & E2 & E3 & E4 & H5 & H6).
  destruct (log_roundtrip m Hf (ro_term _ _ _ Hr) Hfr) as (l & msg & F1 & F2 & F3 & F4 & F5 & _ & F6). exists (l :: logs), (msg :: msgs).
  cbn [mapM]. rewrite F1, F2, E1, E2. split_and!; [done|done|cbn; by rewrite F3, E3|cbn; by rewrite F5, E4| |].
  - constructor; [rewrite F4; apply Hr|done].
  - constructor; [|done]. split; rewrite F3; [done|apply Hr|]. intros Ho. unfold searchable. rewrite F3.
    split_and!; [by apply (ro_search _ _ _ Hr)|apply Hr|done].
Qed.

(** Messages with different numbers are written next to each other. *)
Lemma put_msgs_lookup a ms i : (forall m, m ∈ ms -> m_MessageSeq m <> i) -> cl_msgs (put_msgs a ms) !! i = cl_msgs a !! i.
Proof.
  revert a. induction ms as [|m ms IH]; intros a Hm; [done|]. cbn [put_msgs foldl]. fold (put_msgs (put_msg a m) ms). rewrite IH.
  - cbn [put_msg cl_msgs]. apply lookup_insert_ne, Hm. by left.
  - intros m' Hm'. apply Hm. by right.
Qed.
Lemma put_msgs_each a ms m : StronglySorted (fun m m' => m_MessageSeq m < m_MessageSeq m') ms -> m ∈ ms ->
  cl_msgs (put_msgs a ms) !! m_MessageSeq m = Some (merged m (cl_msgs a !! m_MessageSeq m)).
Proof.
  intros Hs. revert a. induction Hs as [|x ms _ IH Hx]; intros a; [by intros ?%elem_of_nil|]. rewrite Forall_forall in Hx.
  cbn [put_msgs foldl]. fold (put_msgs (put_msg a x) ms). intros [->|Hm]%elem_of_cons.
  - rewrite put_msgs_lookup; [by cbn [put_msg cl_msgs]; rewrite lookup_insert_eq|]. intros m' Hm'. apply Hx in Hm'. lia.
  - rewrite IH by done. cbn [put_msg cl_msgs]. rewrite lookup_insert_ne; [done|]. apply Hx in Hm. lia.
Qed.
End Refine.
