(* ===== verification/ChannelStorageProps.v ===== *)
(** * What the storage of the rafts of the channels promises

    Every sequence of calls on a database that has just been opened answers as the channels
    do ([channel_storage_refines]); logs that are read on one node and stored on another
    carry over the messages ([logs_carry_messages]). *)

From Stdlib Require Import Strings.Byte Strings.Ascii Sorting.Sorted.
From S2P Require Import Prelude ZTables RaftTypes RaftQueue RaftNode RaftInv WkProto KeyBytes WkTables WkKey WkKeyLaws WkKv.
From S2P Require Import WkPermission WkMembers WkMembersLaws WkMembersRefine WkModel StoreCmdLaws WkMessages WkMessageDB.
From S2P Require Import WkMessagesLaws WkMessagesRep WkMessagesRefine WkMessagesProps WkLeaderTerm ChannelKeys ChannelApplied WkApplied.
From S2P Require Import ChannelStorage ChannelStorageRep ChannelStorageRefine ChannelServer.

#[local] Arguments be_bytes : simpl never.

(** ** Calls *)

Inductive chan_op :=
| CAppend (c : string) (t : Z) (logs : list Log) (info : option TermStartIndexInfo) (now now' : Z)
| CTruncate (c : string) (t index now : Z)
| CLogs (c : string) (t start endLogIndex limitSize : Z)
| CLast (c : string) (t : Z)
| CTermStart (c : string) (t term : Z)
| CLastTerm (c : string) (t : Z)
| CTermGE (c : string) (t term : Z)
| CCutTerms (c : string) (t term : Z)
| CApplied (c : string) (t index : Z)
| CState (c : string) (t : Z).

Inductive chan_answer :=
| CDone
| CNum (z : Z)
| CLogsAre (logs : list Log)
| CStateIs (st : RaftState).

Definition chan_of (op : chan_op) : string * Z :=
  match op with
  | CAppend c t _ _ _ _ | CTruncate c t _ _ | CLogs c t _ _ _ | CLast c t | CTermStart c t _ | CLastTerm c t
  | CTermGE c t _ | CCutTerms c t _ | CApplied c t _ | CState c t => (c, t)
  end.

Section Calls.
Context {W : WkProto} {F : Frames} {R : RecvPackets} {V : MsgViews F R} {M : RowPackets F R}.

(** The arguments are of the width of their Go types, logs are numbered from 1, and the
    largest term is not used; messages have positive ids. *)
Definition chan_op_fits (op : chan_op) : Prop :=
  match op with
  | CAppend c t logs info _ _ =>
      logs <> [] /\ Forall (fun l => is_u32 (log_Term l)) logs /\
      (forall i, info = Some i -> 0 <= tsi_Term i < MaxUint32 /\ is_u64 (tsi_Index i)) /\
      (forall msgs, mapM log_message logs = Some msgs -> foreign_msg c t msgs = false ->
         Forall (append_fits c t) msgs /\ Forall (fun msg => 0 < m_MessageID (msg_of msg)) msgs)
  | CTruncate _ _ index _ => is_u64 index
  | CLogs _ _ start endLogIndex _ => is_u64 start /\ is_u64 endLogIndex
  | CTermStart _ _ term | CTermGE _ _ term => is_u32 term
  | CCutTerms _ _ term => 0 <= term < MaxUint32
  | CApplied _ _ index => is_u64 index
  | CLast _ _ | CLastTerm _ _ | CState _ _ => True
  end.

(** What a call does to its channel and answers; [None]: it is refused. *)
Definition chan_does (x : chan R) (op : chan_op) (r : option (chan R * chan_answer)) : Prop :=
  match op with
  | CAppend c t logs info _ _ =>
      r = match mapM log_message logs with
          | Some msgs => if foreign_msg c t msgs then None else Some (termed (logged x msgs) info, CDone)
          | None => None
          end
  | CTruncate _ _ index _ => r = if index =? 0 then None else Some ({| x with cs_log := truncated (cs_log x) index |}, CDone)
  | CLogs _ _ start endLogIndex limitSize => r = (fun logs => (x, CLogsAre logs)) <$> read_logs (cs_log x) start endLogIndex limitSize
  | CLast _ _ => r = Some (x, CNum (cl_last (cs_log x)))
  | CTermStart _ _ term => r = Some (x, CNum (default 0 (cs_terms x !! term)))
  | CLastTerm _ _ => r = Some (x, CNum (top (cs_terms x)))
  | CTermGE _ _ term => r = Some (x, CNum (default term (fst <$> head (range_of (cs_terms x) term MaxUint32))))
  | CCutTerms _ _ term => r = Some ({| x with cs_terms := cut_terms (cs_terms x) term |}, CDone)
  | CApplied _ _ index => r = Some ({| x with cs_applied := Z.max index (cs_applied x) |}, CDone)
  | CState _ _ => r = (fun st => (x, CStateIs st)) <$> restart x
  end.

Abbreviation chans := (string * Z -> chan R).

(** The channels, with calls that are done, refused, or fail; of an append that fails, the
    messages may be there. *)
Inductive chans_step (fails : Prop) (A : chans) (op : chan_op) : chans -> option chan_answer -> Prop :=
| cstep_done x ans : chan_does (A (chan_of op)) op (Some (x, ans)) ->
    chans_step fails A op (set_cs A (chan_of op).1 (chan_of op).2 x) (Some ans)
| cstep_refused : chan_does (A (chan_of op)) op None -> chans_step fails A op A None
| cstep_failed : fails -> chans_step fails A op A None
| cstep_half c t logs info now now' msgs : fails -> op = CAppend c t logs info now now' -> mapM log_message logs = Some msgs ->
    chans_step fails A op (set_cs A c t (logged (A (c, t)) msgs)) None.

Inductive chans_steps (fails : Prop) : chans -> list chan_op -> chans -> list (option chan_answer) -> Prop :=
| csteps_nil A : chans_steps fails A [] A []
| csteps_cons A op A1 ans ops A2 answers : chans_step fails A op A1 ans -> chans_steps fails A1 ops A2 answers ->
    chans_steps fails A (op :: ops) A2 (ans :: answers).

Lemma chans_steps_mono (fails fails' : Prop) A ops A' rs : (fails -> fails') -> chans_steps fails A ops A' rs -> chans_steps fails' A ops A' rs.
Proof.
  intros Hf. induction 1 as [|A op A1 ans ops A2 answers Hs _ IH]; econstructor; [|exact IH].
  destruct Hs; [by apply cstep_done|by apply cstep_refused|by apply cstep_failed, Hf|by eapply cstep_half; [apply Hf|..]].
Qed.

Context {DB : Type} {P : Pebble DB} {C : Type} {L : LRU PermissionCacheItem C}.
Context {SC : Type} {LS : LRU bytes SC} {UC : Type} {LU : LRU Z UC}.
Abbreviation database := (messageDB (DB := DB) (C := C) (SC := SC) (UC := UC)).

Definition answers_with {X} (f : X -> chan_answer) (op : Db (DB := DB) (C := C) (SC := SC) (UC := UC) X) (d : database) :
    res (database * option chan_answer) :=
  let! (d, r) := op d in Ok (d, match r with inl _ => None | inr x => Some (f x) end).

Definition chan_exec (d : database) (op : chan_op) : res (database * option chan_answer) :=
  match op with
  | CAppend c t logs info now now' => answers_with (fun _ => CDone) (AppendLogs (ChannelToKey c t) logs info now now') d
  | CTruncate c t index now => answers_with (fun _ => CDone) (TruncateLogTo (ChannelToKey c t) index now) d
  | CLogs c t start endLogIndex limitSize => answers_with CLogsAre (GetLogs (ChannelToKey c t) start endLogIndex limitSize) d
  | CLast c t => answers_with CNum (LastIndex (ChannelToKey c t)) d
  | CTermStart c t term => answers_with CNum (GetTermStartIndex (ChannelToKey c t) term) d
  | CLastTerm c t => answers_with CNum (LeaderLastLogTerm (ChannelToKey c t)) d
  | CTermGE c t term => answers_with CNum (LeaderTermGreaterEqThan (ChannelToKey c t) term) d
  | CCutTerms c t term => answers_with (fun _ => CDone) (DeleteLeaderTermStartIndexGreaterThanTerm (ChannelToKey c t) term) d
  | CApplied c t index => answers_with (fun _ => CDone) (write_wk (fun wk => UpdateChannelAppliedIndex wk c t index)) d
  | CState c t => answers_with CStateIs (GetState c t) d
  end.

Fixpoint chan_execs (d : database) (ops : list chan_op) : res (database * list (option chan_answer)) :=
  match ops with
  | [] => Ok (d, [])
  | op :: ops =>
      let! (d, r) := chan_exec d op in
      let! (d, rs) := chan_execs d ops in Ok (d, r :: rs)
  end.

Definition no_channels : chans := fun _ => mkChan R (mkChanlog ∅ 0 None) ∅ 0.
End Calls.

(** ** Simulation *)

Section Simulation.
Context {W : WkProto} {F : Frames} {R : RecvPackets} {RL : RecvPacketsLaws R} {V : MsgViews F R} {M : RowPackets F R} {ML : RowPacketsLaws V M}.
Context {DB : Type} {P : Pebble DB} {PL : PebbleLaws DB} {C : Type} {L : LRU PermissionCacheItem C}.
Context {SC : Type} {LS : LRU bytes SC} {LSL : LRULaws bytes SC} {UC : Type} {LU : LRU Z UC} {MC : MsgChannels} {CN : ChanNames MC}.
Abbreviation database := (messageDB (DB := DB) (C := C) (SC := SC) (UC := UC)).
Abbreviation chans := (string * Z -> chan R).
Implicit Types (d : database) (A : chans).

Definition chan_simulates A op (r : res (database * option chan_answer)) : Prop :=
  exists d' ans A', r = Ok (d', ans) /\ chans_step (store_fails DB) A op A' ans /\ ChanRep A' d'.

Lemma cgives_simulates {X} A d op c t (f : X -> chan_answer) (m : Db X) (Q : option X -> Prop) : chan_of op = (c, t) ->
  (forall r, Q r -> chan_does (A (c, t)) op ((fun x => (A (c, t), f x)) <$> r)) -> cgives A d m Q -> chan_simulates A op (answers_with f m d).
Proof.
  intros Ec Hd (d' & r & E & HC & Hr). unfold chan_simulates, answers_with. rewrite E. cbn [res_bind]. destruct r as [e|x].
  - exists d', None, A. split_and!; [done| |done]. destruct Hr as [?|Hn]; [by apply cstep_failed|]. apply cstep_refused. rewrite Ec. apply (Hd None Hn).
  - exists d', (Some (f x)), (set_cs A c t (A (c, t))). split_and!; [done| |eapply ChanRep_ext; [apply set_same|done]].
    pose proof (cstep_done (store_fails DB) A op (A (c, t)) (f x)) as Hs. rewrite Ec in Hs. apply Hs, (Hd (Some x) Hr).
Qed.
Lemma cwrites_simulates {X} A d op c t (m : Db X) x : chan_of op = (c, t) -> chan_does (A (c, t)) op (Some (x, CDone)) ->
  cwrites A d m c t x -> chan_simulates A op (answers_with (fun _ => CDone) m d).
Proof.
  intros Ec Hd (d' & r & E & Hr). unfold chan_simulates, answers_with. rewrite E. cbn [res_bind]. destruct r as [e|u].
  - destruct Hr as [HC HF]. exists d', None, A. split_and!; [done|by apply cstep_failed|done].
  - exists d', (Some CDone), (set_cs A c t x). split_and!; [done| |done].
    pose proof (cstep_done (store_fails DB) A op x CDone) as Hs. rewrite Ec in Hs. by apply Hs.
Qed.
Lemma refused_chan {X} A d op (f : X -> chan_answer) e (m : Db X) : ChanRep A d -> chan_does (A (chan_of op)) op None ->
  m = db_err e -> chan_simulates A op (answers_with f m d).
Proof. intros HC Hd ->. exists d, None, A. split_and!; [done|by apply cstep_refused|done]. Qed.

Lemma append_simulates A d c t logs info now now' : ChanRep A d -> IsChan c t -> chan_op_fits (CAppend c t logs info now now') ->
  chan_simulates A (CAppend c t logs info now now') (chan_exec d (CAppend c t logs info now now')).
Proof.
  intros HC Hc (Hne & Ht & Hi & Hf). cbn [chan_exec]. destruct (mapM log_message logs) as [msgs|] eqn:Em.
  2: { eapply refused_chan; [done|cbn; by rewrite Em|]. unfold AppendLogs. by rewrite key_chan, Em. }
  destruct (foreign_msg c t msgs) eqn:Eg.
  { exists d, None, A. split_and!; [|apply cstep_refused; cbn; by rewrite Em, Eg|done]. unfold answers_with, AppendLogs. rewrite key_chan, Em by done.
    unfold db_bind, AppendMessages. fold (foreign_msg c t msgs). by rewrite Eg. }
  destruct (Append_writes A d c t logs msgs info now now') as (d' & r & E & Hr); [done|done|done|by apply Hf|done|done|by apply Hf|done|].
  unfold chan_simulates, answers_with. rewrite E. cbn [res_bind]. destruct r as [e|u].
  - destruct Hr as [[HC'|HC'] HF]; [exists d', None, A|exists d', None, (set_cs A c t (logged (A (c, t)) msgs))]; split_and!; try done.
    + by apply cstep_failed.
    + by eapply cstep_half.
  - exists d', (Some CDone), (set_cs A c t (termed (logged (A (c, t)) msgs) info)). split_and!; [done| |done].
    apply (cstep_done _ A (CAppend c t logs info now now')). cbn. by rewrite Em, Eg.
Qed.

Lemma exec_chan A d op : ChanRep A d -> IsChan (chan_of op).1 (chan_of op).2 -> chan_op_fits op -> chan_simulates A op (chan_exec d op).
Proof.
  intros HC Hc Hf. destruct op as [c t logs info now now'|c t index now|c t start fin limit|c t|c t term|c t|c t term|c t term|c t index|c t];
    cbn [chan_of fst snd] in Hc; [by apply append_simulates|..]; cbn [chan_op_fits] in Hf; cbn [chan_exec].
  - destruct (Z.eqb_spec index 0) as [->|Hne].
    { eapply refused_chan; [done|done|]. unfold TruncateLogTo. by rewrite key_chan. }
    eapply cwrites_simulates; [done| |by apply Truncate_writes]. cbn. by destruct (Z.eqb_spec index 0).
  - eapply cgives_simulates; [done| |apply GetLogs_gives; [done|done|apply Hf|apply Hf]]. intros r ->. done.
  - eapply cgives_simulates; [done| |by apply LastIndex_gives]. intros r ->. done.
  - eapply cgives_simulates; [done| |by apply TermStart_gives]. intros r ->. done.
  - eapply cgives_simulates; [done| |by apply LastTerm_gives]. intros r ->. done.
  - eapply cgives_simulates; [done| |by apply TermGE_gives]. intros r ->. done.
  - eapply cwrites_simulates; [done| |by apply DeleteTerms_writes]. done.
  - eapply cwrites_simulates; [done| |by apply UpdateApplied_writes]. done.
  - eapply cgives_simulates; [done| |by apply GetState_gives]. intros r ->. done.
Qed.

Definition chan_ops_ok (ops : list chan_op) : Prop := Forall (fun op => IsChan (chan_of op).1 (chan_of op).2 /\ chan_op_fits op) ops.

Lemma execs_chan A d ops : ChanRep A d -> chan_ops_ok ops ->
  exists d' rs A', chan_execs d ops = Ok (d', rs) /\ chans_steps (store_fails DB) A ops A' rs /\ ChanRep A' d'.
Proof.
  intros HC Hops. revert A d HC. induction Hops as [|op ops [Hc Hf] _ IH]; intros A d HC.
  { exists d, [], A. split_and!; [done|constructor|done]. }
  destruct (exec_chan A d op HC Hc Hf) as (d1 & r & A1 & E1 & Hs & HC1). destruct (IH A1 d1 HC1) as (d2 & rs & A2 & E2 & Hss & HC2).
  exists d2, (r :: rs), A2. cbn [chan_execs]. rewrite E1. cbn [res_bind]. rewrite E2. split_and!; [done|by econstructor|done].
Qed.

Lemma new_chan_rep d : new_db d -> ChanRep no_channels d.
Proof.
  intros Hd. pose proof (new_db_rep d Hd) as HR. destruct Hd as (_ & _ & Hdb & _). rewrite Forall_forall in Hdb.
  assert (He : forall i db, dbs_of d !! i = Some db -> kv_map db = ∅) by (intros i db Hi; by eapply Hdb, list_elem_of_lookup_2).
  split.
  - eapply Rep_own, Msgs_ext; [|exact HR]. done.
  - intros c t db _ Hi. rewrite (He _ _ Hi). split; cbn [no_channels cs_terms].
    + intros term _. by rewrite !lookup_empty.
    + intros r v. by rewrite lookup_empty.
    + intros term i. by rewrite lookup_empty.
  - intros i db h v Hi. by rewrite (He _ _ Hi), lookup_empty.
  - intros c t db _ Hi. unfold applied_in. by rewrite (He _ _ Hi), lookup_empty.
  - intros c t i m _. cbn. by rewrite lookup_empty.
Qed.
End Simulation.

(** ** An example *)

(** Packets whose header and settings are bytes; only the packets [demo_packet] have a
    frame. *)
#[local] Instance bytePackets : RecvPackets :=
  {| Framer := Z; zeroFramer := 0; ToFixHeaderUint8 := u8; FramerFromUint8 z := z; Setting_Uint8 := u8 |}.
#[local] Instance bytePackets_laws : RecvPacketsLaws bytePackets.
Proof. split; intros; apply u8_range. Qed.
#[local] Instance Msg_eq_dec : EqDecision (@Msg bytePackets).
Proof. solve_decision. Defined.
Definition demo_packet (id seq : Z) : Msg := mkMsg (R := bytePackets) 7 3 60 id seq "no" "" 1000 "a" 1 "" "user" [x41] 0 false.
Definition frame_of (p : @Msg bytePackets) : option bytes :=
  if decide (p = demo_packet (m_MessageID p) (m_MessageSeq p) /\ is_u8 (m_MessageID p) /\ is_u8 (m_MessageSeq p))
  then Some [byte_of_Z (m_MessageID p); byte_of_Z (m_MessageSeq p)] else None.
#[local] Instance demoFrames : Frames :=
  {| Packet := @Msg bytePackets; MessageID := m_MessageID; LatestVersion := 5; EncodeFrame := frame_of;
     DecodeFrame bs _ := match bs with
                         | [id; seq] => Some (Some (demo_packet (Z_of_byte id) (Z_of_byte seq)))
                         | _ => None
                         end |}.
#[local] Instance demoFrames_laws : FramesLaws demoFrames.
Proof.
  split; [done|]. intros p bs. cbn. unfold frame_of. destruct (decide _) as [(E & Hi & Hs)|]; [|done]. intros [= <-].
  by rewrite !byte_of_Z_of_byte, !u8_small, <-E.
Qed.
#[local] Instance demoViews : MsgViews demoFrames bytePackets :=
  {| msg_of ms := {| (ms_RecvPacket ms) with m_Term := ms_Term ms; m_SearchOutbox := ms_SearchOutbox ms |};
     msg_size m := 100 + len (m_Payload m) |}.
#[local] Instance demoRows : RowPackets demoFrames bytePackets :=
  {| msg_packet m := {| m with m_Term := 0; m_SearchOutbox := false |}; set_seq p i := {| p with m_MessageSeq := i |} |}.
#[local] Instance demoRows_laws : RowPacketsLaws demoViews demoRows.
Proof. by split. Qed.
#[local] Instance oneChannel : MsgChannels.
Proof.
  refine {| IsChan c t := (c, t) = ("a", 1) |}.
  - intros c t [= -> ->]. done.
  - intros c t c' t' [= -> ->] [= -> ->] _. done.
Defined.
#[local] Instance oneName : ChanNames oneChannel.
Proof.
  split.
  - intros c t [= -> ->]. apply (bool_decide_unpack _). by vm_compute.
  - intros c t c' t' [= -> ->] [= -> ->] _. done.
Qed.

Abbreviation demo_database := (messageDB (DB := kvmap) (C := lru_list PermissionCacheItem) (SC := lru_list bytes) (UC := lru_list Z)).
Definition empty_db : demo_database :=
  mkMessageDB (mkWukongDB [∅; ∅; ∅] (NewPermissionCache 100 (fun n => Z.of_nat n))) (lru_new 100) (lru_new 100).
(** A log with a message for the search or without. *)
Definition demo_log (id seq term : Z) (search : bool) : Log :=
  {| EmptyLog with log_Id := id; log_Index := seq; log_Term := term;
       log_Data := default [] (Message_Marshal (mkMessage (demo_packet id 0 : Packet) 0 search 0)) |}.
Definition demo_run : list chan_op :=
  [CAppend "a" 1 [demo_log 11 1 1 false; demo_log 12 2 1 true] (Some (mkTSI 1 1)) 5 6; CAppend "a" 1 [demo_log 13 3 2 false] (Some (mkTSI 2 3)) 7 8;
   CLast "a" 1; CLastTerm "a" 1; CTermStart "a" 1 2; CTermGE "a" 1 2; CApplied "a" 1 1; CState "a" 1; CLogs "a" 1 2 0 0;
   CTruncate "a" 1 2 9; CCutTerms "a" 1 1; CLastTerm "a" 1; CState "a" 1; CTruncate "a" 1 0 9;
   CAppend "a" 1 [{| EmptyLog with log_Index := 3 |}] None 10 11].

Lemma demo_frame id seq : 0 < id < 256 -> 0 <= seq < 256 -> EncodeFrame (demo_packet id seq : Packet) = Some [byte_of_Z id; byte_of_Z seq].
Proof. intros Hi Hs. cbn. unfold frame_of. rewrite decide_True; [done|]. split_and!; [done|cbn; unfold is_u8; lia..]. Qed.
Lemma demo_marshal id seq term search version : 0 < id < 256 -> 0 <= seq < 256 -> version <= 1 ->
  is_Some (Message_Marshal (mkMessage (demo_packet id seq : Packet) term search version)).
Proof.
  intros Hi Hs Hv. unfold Message_Marshal. cbn [ms_RecvPacket ms_SearchOutbox ms_version]. rewrite demo_frame by done. cbn [mbind option_bind].
  destruct search; [done|]. unfold messageDataVersionSearchOutbox. destruct (Z.ltb_spec 1 version); [lia|done].
Qed.
Lemma demo_log_message id seq term search : 0 < id < 256 -> 1 <= seq < 256 -> is_u32 term ->
  log_message (demo_log id seq term search) =
  Some (mkMessage (set_seq (demo_packet id 0) seq : Packet) term search (if search then 1 else 0)).
Proof.
  intros Hi Hs Ht. unfold log_message, demo_log. cbn [log_Data log_Index log_Term].
  destruct (demo_marshal id 0 0 search 0) as [bs Eb]; [lia|lia|done|].
  rewrite Eb. cbn [default from_option]. erewrite Message_reads; [|..|exact Eb].
  2: { split_and!; [done|done|]. intros data. cbn [ms_RecvPacket]. rewrite demo_frame by lia. by intros [= <-]. }
  cbn [mbind option_bind stored_message ms_RecvPacket ms_SearchOutbox ms_version]. rewrite u32_small by (unfold is_u32; lia). by destruct search.
Qed.

Lemma demo_append_ok logs ids info now now' : logs <> [] ->
  Forall2 (fun l p => exists seq term search, l = demo_log p seq term search /\ 0 < p < 256 /\ 1 <= seq < 256 /\ is_u32 term) logs ids ->
  (forall i, info = Some i -> 0 <= tsi_Term i < MaxUint32 /\ is_u64 (tsi_Index i)) -> chan_op_fits (CAppend "a" 1 logs info now now').
Proof.
  intros Hne Hl Hi. split_and!; [done| |done|].
  - clear -Hl. induction Hl as [|l p logs ids (seq & term & search & -> & _ & _ & Ht) _ IH]; by constructor.
  - intros msgs Em _. apply mapM_Some_1 in Em. revert msgs Em. clear -Hl.
    induction Hl as [|l p logs ids (seq & term & search & -> & Hp & Hs & Ht) _ IH]; intros msgs Em; inversion Em as [|? msg ? msgs' E1 E2]; subst; [by split|].
    rewrite demo_log_message in E1 by done. injection E1 as <-. destruct (IH _ E2) as [IH1 IH2]. split; (constructor; [|done]).
    + split; cbn.
      * split; cbn; unfold is_u32, is_i64, is_i32, is_u64, is_u8 in *; lia.
      * done.
      * intros ->. split_and!; [by vm_compute|cbn; lia|]. apply demo_marshal; [lia|lia|done].
    + cbn. lia.
Qed.

Lemma chan_demo_ok : chan_ops_ok demo_run.
Proof.
  unfold chan_ops_ok, demo_run. repeat (apply Forall_cons; split); [..|apply Forall_nil_2]; (split; [exact eq_refl|]).
  all: try (cbn [chan_op_fits]; unfold is_u64, is_u32, MaxUint32; lia).
  - apply (demo_append_ok _ [11; 12]); [done| |by intros i [= <-]].
    repeat constructor; eexists _, _, _; (split_and!; [done|lia|lia|lia|lia|done]).
  - apply (demo_append_ok _ [13]); [done| |by intros i [= <-]].
    repeat constructor; eexists _, _, _; (split_and!; [done|lia|lia|lia|lia|done]).
  - split; [discriminate|]. split; [by repeat constructor|]. split; [discriminate|]. intros msgs E.
    assert (Hb : match mapM log_message [{| EmptyLog with log_Index := 3 |}] with Some _ => true | None => false end = false) by (vm_compute; reflexivity).
    by rewrite E in Hb.
Qed.

(** The numbers of an answer. *)
Definition chan_numbers (r : option chan_answer) : list Z :=
  match r with
  | None => [-1]
  | Some CDone => []
  | Some (CNum z) => [z]
  | Some (CLogsAre logs) => log_Index <$> logs
  | Some (CStateIs st) => [rs_LastLogIndex st; rs_LastTerm st; rs_AppliedIndex st]
  end.

Lemma empty_db_new : new_db empty_db.
Proof. split_and!; [cbn; lia|by vm_compute|repeat constructor|reflexivity]. Qed.

(** Two logs are appended. *)
Definition carry_run : list chan_op := [CAppend "a" 1 [demo_log 11 1 1 false; demo_log 12 2 1 true] None 5 6].
Definition carried_msgs : list Message :=
  [mkMessage (demo_packet 11 1 : Packet) 1 false 0; mkMessage (demo_packet 12 2 : Packet) 1 true 1].
Lemma carry_logs : mapM log_message [demo_log 11 1 1 false; demo_log 12 2 1 true] = Some carried_msgs.
Proof. cbn [mapM]. by rewrite !demo_log_message by (lia || done). Qed.
Lemma carry_steps fails A rs : ~ fails -> chans_steps fails no_channels carry_run A rs -> A = set_cs no_channels "a" 1 (logged (no_channels ("a", 1)) carried_msgs).
Proof.
  intros Hno Hs. inversion Hs as [|A0 op A1 ans ops A2 answers H1 H2]; subst. inversion H2; subst. clear Hs H2.
  inversion H1 as [x a H|H|H|c t logs info now now' msgs H]; subst; [|exfalso|done|done]; cbn [chan_of chan_does fst snd] in H |- *; rewrite carry_logs in H.
  - destruct (foreign_msg "a" 1 carried_msgs); [done|]. by injection H as -> _.
  - assert (Hf : foreign_msg "a" 1 carried_msgs = false) by (by vm_compute). by rewrite Hf in H.
Qed.
(** The messages that are read from the log. *)
Definition carried : list (@Msg bytePackets) :=
  [{| (demo_packet 11 1) with m_Term := 1 |}; {| (demo_packet 12 2) with m_Term := 1; m_SearchOutbox := true |}].
Lemma carried_read : let a := cs_log (logged (no_channels ("a", 1)) carried_msgs) in sized_msgs a 1 (logs_end (cl_last a) 0) 0 = carried.
Proof. vm_compute. reflexivity. Qed.
Lemma carried_framed : Forall framed carried.
Proof.
  apply Forall_cons_2; [|apply Forall_singleton]; eexists; (split; [|]).
  - by apply (demo_frame 11 1).
  - done.
  - by apply (demo_frame 12 2).
  - done.
Qed.

Module ChannelStorageClaims.

(** C22. The storage of the rafts of the channels refines the channels. From an empty
    database, every sequence of appends of at least one log, truncations, records of the
    applied index, and reads of logs, terms and states returns, for channels whose ids have
    no ampersand and whose hashes differ (of ids with one the name does not lead back to the
    channel: [ChannelKey_loses]), arguments of the width of their types, terms below the
    largest, and messages with positive ids. It answers as the channels with their messages,
    terms and applied indexes do: the logs in a range are the messages with these numbers,
    within the last one and the limit; a recorded applied index does not go back; a state
    has the last message and its term, and its applied index is the last message or, once
    the search has started, the larger of where it starts and what was recorded. An error is
    reported only for arguments that are refused, by the state if the last message is
    missing or this index is greater than its number, or if a store fails; of an append that
    fails the messages may be there without the first log of the term, otherwise nothing has
    changed. *)
Theorem channel_storage_refines {W : WkProto} {F : Frames} {R : RecvPackets} {RL : RecvPacketsLaws R} {V : MsgViews F R}
    {M : RowPackets F R} {ML : RowPacketsLaws V M} {DB} {P : Pebble DB} {PL : PebbleLaws DB} {C} {L : LRU PermissionCacheItem C}
    {SC} {LS : LRU bytes SC} {LSL : LRULaws bytes SC} {UC} {LU : LRU Z UC} {MC : MsgChannels} {CN : ChanNames MC}
    (d : messageDB (DB := DB) (C := C) (SC := SC) (UC := UC)) (ops : list chan_op) :
  new_db d -> chan_ops_ok ops ->
  exists d' rs A, chan_execs d ops = Ok (d', rs) /\ chans_steps (store_fails DB) no_channels ops A rs /\ ChanRep A d'.
Proof. intros Hd. apply execs_chan. by apply new_chan_rep. Qed.

Lemma channel_storage_refines_witness :
  exists d' rs, chan_execs empty_db demo_run = Ok (d', rs) /\ (exists A, chans_steps False no_channels demo_run A rs) /\
    chan_numbers <$> rs = [[]; []; [3]; [2]; [3]; [2]; []; [3; 2; 1]; [2; 3]; []; []; [1]; [2; 1; 1]; [-1]; [-1]].
Proof.
  destruct (channel_storage_refines empty_db demo_run empty_db_new chan_demo_ok) as (d' & rs & A & E & Hs & _). exists d', rs.
  split_and!; [done| |].
  - exists A. eapply chans_steps_mono; [|exact Hs]. apply no_failing_map.
  - assert (Hr : match chan_execs empty_db demo_run with Ok (_, rs) => chan_numbers <$> rs | _ => [] end =
      [[]; []; [3]; [2]; [3]; [2]; []; [3; 2; 1]; [2; 3]; []; []; [1]; [2; 1; 1]; [-1]; [-1]]) by (vm_compute; reflexivity).
    by rewrite E in Hr.
Defined.

(** C23. Logs carry messages from node to node. From channels in any state that calls as in
    [channel_storage_refines] can lead to, the logs read in a range that is not empty have
    the numbers of the messages in the range, provided that their packets can be framed.
    When they are appended on another node, in any such state, each of the messages is
    stored under its number with the fields it was read with, except for the mark for the
    search, which is set if the message had it or the message that was overwritten had it.
    An error is reported only if a store fails. *)
Theorem logs_carry_messages {W : WkProto} {WL : WkProtoLaws W} {F : Frames} {FL : FramesLaws F} {R : RecvPackets} {RL : RecvPacketsLaws R}
    {V : MsgViews F R} {M : RowPackets F R} {ML : RowPacketsLaws V M} {DB} {P : Pebble DB} {PL : PebbleLaws DB} {C} {L : LRU PermissionCacheItem C}
    {SC} {LS : LRU bytes SC} {LSL : LRULaws bytes SC} {UC} {LU : LRU Z UC} {MC : MsgChannels} {CN : ChanNames MC}
    (d1 d1' d2 d2' : messageDB (DB := DB) (C := C) (SC := SC) (UC := UC)) (ops1 ops2 : list chan_op) (rs1 rs2 : list (option chan_answer))
    (c : string) (t start fin limit now now' : Z) :
  new_db d1 -> chan_ops_ok ops1 -> chan_execs d1 ops1 = Ok (d1', rs1) ->
  new_db d2 -> chan_ops_ok ops2 -> chan_execs d2 ops2 = Ok (d2', rs2) -> IsChan c t -> is_u64 start -> is_u64 fin ->
  exists A1 A2, chans_steps (store_fails DB) no_channels ops1 A1 rs1 /\ chans_steps (store_fails DB) no_channels ops2 A2 rs2 /\
    let ms := sized_msgs (cs_log (A1 (c, t))) start (logs_end (cl_last (cs_log (A1 (c, t)))) fin) limit in
    Forall framed ms -> ms <> [] ->
    exists d3 r1, GetLogs (ChannelToKey c t) start fin limit d1' = Ok (d3, r1) /\ ChanRep A1 d3 /\
      match r1 with
      | inl _ => store_fails DB
      | inr logs => log_Index <$> logs = m_MessageSeq <$> ms /\
          exists d4 r2, AppendLogs (ChannelToKey c t) logs None now now' d2' = Ok (d4, r2) /\
            match r2 with
            | inl _ => store_fails DB
            | inr _ => exists A, ChanRep A d4 /\ forall m, m ∈ ms ->
                cl_msgs (cs_log (A (c, t))) !! m_MessageSeq m = Some (merged m (cl_msgs (cs_log (A2 (c, t))) !! m_MessageSeq m))
            end
      end.
Proof.
  intros Hd1 Ho1 E1 Hd2 Ho2 E2 Hc Hs Hf.
  destruct (execs_chan _ d1 ops1 (new_chan_rep d1 Hd1) Ho1) as (x1 & y1 & A1 & E1' & Hs1 & HC1). rewrite E1 in E1'. injection E1' as <- <-.
  destruct (execs_chan _ d2 ops2 (new_chan_rep d2 Hd2) Ho2) as (x2 & y2 & A2 & E2' & Hs2 & HC2). rewrite E2 in E2'. injection E2' as <- <-.
  exists A1, A2. split_and!; [done|done|]. intros ms Hfr Hne.
  assert (Hms : Forall (fun m => msg_fits m /\ row_ok c t m) ms) by (apply Forall_forall; intros m Hm; by eapply (sized_elem A1 d1')).
  destruct (logs_roundtrip c t ms Hms Hfr) as (logs & msgs & F1 & F2 & F3 & F4 & F5 & F6).
  destruct (GetLogs_gives A1 d1' c t start fin limit HC1 Hc Hs Hf) as (d3 & r1 & Eg & HC3 & Hr1). exists d3, r1. split_and!; [done|done|].
  assert (Er : read_logs (cs_log (A1 (c, t))) start fin limit = Some logs) by exact F1. rewrite Er in Hr1.
  destruct r1 as [e|logs1]; [by destruct Hr1 as [?|[=]]|]. injection Hr1 as ->. split; [done|].
  assert (Hnl : logs <> []) by (intros ->; by destruct ms).
  destruct (Append_writes A2 d2' c t logs msgs None now now') as (d4 & r2 & Ea & Hr2); try done.
  { apply Forall_forall. intros msg Hm. assert (Hin : msg_of msg ∈ ms) by (rewrite <-F3; by apply list_elem_of_fmap_2).
    rewrite Forall_forall in Hms. by apply Hms in Hin as [_ ?%ro_id]. }
  exists d4, r2. split; [done|]. destruct r2 as [e|u]; [by destruct Hr2|]. cbn [termed] in Hr2. eexists. split; [exact Hr2|]. intros m Hm.
  rewrite set_cs_eq. unfold logged. cbn [cs_log appended cl_msgs]. rewrite F3. apply put_msgs_each; [|done].
  apply sized_sorted, (rep_fits _ _ (crp_msgs _ _ HC1) c t Hc).
Qed.

Lemma logs_carry_messages_witness : exists d1 rs d3 logs d4 u A,
  chan_execs empty_db carry_run = Ok (d1, rs) /\ GetLogs (ChannelToKey "a" 1) 1 0 0 d1 = Ok (d3, inr logs) /\ log_Index <$> logs = [1; 2] /\
  AppendLogs (ChannelToKey "a" 1) logs None 7 8 empty_db = Ok (d4, inr u) /\ ChanRep A d4 /\
  cl_msgs (cs_log (A ("a", 1))) !! 2 = Some ({| (demo_packet 12 2) with m_Term := 1; m_SearchOutbox := true |} : @Msg bytePackets).
Proof.
  assert (Hok : chan_ops_ok carry_run).
  { apply Forall_singleton. split; [exact eq_refl|]. apply (demo_append_ok _ [11; 12]); [done| |done].
    repeat constructor; eexists _, _, _; (split_and!; [done|lia|lia|lia|lia|done]). }
  assert (Hnil : chan_ops_ok []) by apply Forall_nil_2. assert (Hc : IsChan "a" 1) by exact eq_refl.
  assert (E0 : chan_execs empty_db [] = Ok (empty_db, [])) by reflexivity.
  assert (Hu1 : is_u64 1) by done. assert (Hu0 : is_u64 0) by done. assert (Hne : carried <> []) by done.
  destruct (execs_chan _ empty_db carry_run (new_chan_rep _ empty_db_new) Hok) as (d1 & rs & A0 & E & _ & _).
  destruct (logs_carry_messages empty_db d1 empty_db empty_db carry_run [] rs [] "a" 1 1 0 0 7 8 empty_db_new Hok E empty_db_new Hnil E0 Hc Hu1 Hu0)
    as (A1 & A2 & Hs1 & _ & H).
  apply carry_steps in Hs1; [|apply no_failing_map]. subst A1. rewrite !set_cs_eq in H. rewrite carried_read in H.
  destruct (H carried_framed Hne) as (d3 & r1 & E3 & _ & Hr). destruct r1 as [e|logs]; [destruct (no_failing_map Hr)|].
  destruct Hr as (El & d4 & r2 & E4 & Hr). destruct r2 as [e|u]; [destruct (no_failing_map Hr)|]. destruct Hr as (A & HC & HA).
  exists d1, rs, d3, logs, d4, u, A. split; [exact E|]. split; [exact E3|]. split; [exact El|]. split; [exact E4|]. split; [exact HC|].
  clear -HA. set (m2 := {| (demo_packet 12 2) with m_Term := 1; m_SearchOutbox := true |} : @Msg bytePackets) in *.
  assert (Hin : m2 ∈ carried) by (right; left). apply HA in Hin. change (m_MessageSeq m2) with 2 in Hin. rewrite Hin.
  match goal with |- Some (merged _ ?o) = _ => destruct o end; reflexivity.
Defined.
End ChannelStorageClaims.
