(* ===== verification/ChannelServerProps.v ===== *)
(** * What the rafts of the channels promise

    A configuration of an older term never makes a channel's raft a leader
    ([channel_config_guard]); the raft of a channel can be made from what is stored, and does
    not panic then ([started_channel]). *)

From S2P Require Import Prelude ZTables RaftTypes RaftQueue RaftNode RaftCommit RaftInv GroupWake WkProto KeyBytes WkTables WkKey WkKv.
From S2P Require Import WkPermission WkMembers WkMembersRefine WkModel WkMessages WkMessageDB WkMessagesRep WkMessagesRefine WkMessagesProps.
From S2P Require Import ChannelKeys ChannelStorage ChannelStorageRep ChannelStorageRefine ChannelStorageProps ChannelServer.

(** ** Configurations *)

Definition conf_event (e : Event) : Prop := ev_Type e = ConfChange \/ ev_Type e = ConfigResp.
(** The configuration is of a term that has passed. *)
Definition stale_conf (n : Node) (e : Event) : Prop :=
  cfg_Term (ev_Config e) <> 0 /\ cfg_Term (ev_Config e) < Z.max (cfg_Term (n_cfg n)) (ev_Term e).
#[export] Instance stale_conf_dec n e : Decision (stale_conf n e).
Proof. unfold stale_conf. apply _. Defined.

(** The event that carries the newer term of a configuration that is refused. *)
Definition term_event (e : Event) : Event :=
  {| emptyEvent with ev_Type := TermResp; ev_From := ev_From e; ev_To := ev_To e; ev_Term := ev_Term e |}.

Lemma Channel_Step_eq n e : snapshot_fresh n -> Channel_Step n e =
  if decide (conf_event e /\ stale_conf n e) then
    if cfg_Term (n_cfg n) <? ev_Term e then
      let! (n, err) := Step n (term_event e) in Ok (n, Some (default errStaleConfigTerm err))
    else Ok (n, Some errStaleConfigTerm)
  else Step n e.
Proof.
  intros Hs. assert (Ec : NodeConfig n = Ok (n_cfg n)) by (unfold NodeConfig, readState; rewrite Hs; cbn; by rewrite Config_Clone_id).
  unfold Channel_Step. rewrite Ec. cbn [res_bind].
  replace (if cfg_Term (n_cfg n) <? ev_Term e then ev_Term e else cfg_Term (n_cfg n)) with (Z.max (cfg_Term (n_cfg n)) (ev_Term e))
    by (destruct (Z.ltb_spec (cfg_Term (n_cfg n)) (ev_Term e)); lia).
  destruct (bool_decide (ev_Type e = ConfChange) || bool_decide (ev_Type e = ConfigResp)) eqn:Ed.
  - destruct (negb (cfg_Term (ev_Config e) =? 0) && (cfg_Term (ev_Config e) <? Z.max (cfg_Term (n_cfg n)) (ev_Term e))) eqn:Est.
    + rewrite decide_True; [|split; [apply orb_true_iff in Ed as [?%bool_decide_eq_true|?%bool_decide_eq_true]; [by left|by right]|split; lia]].
      destruct (cfg_Term (n_cfg n) <? ev_Term e); [|done]. fold (term_event e). by destruct (Step n (term_event e)) as [[n' [err|]]| |].
    + rewrite decide_False; [done|]. intros [_ [H1 H2]]. lia.
  - rewrite decide_False; [done|]. intros [[E|E] _]; rewrite E in Ed; done.
Qed.

(** Taking over a newer term. *)
Lemma Step_term n e : cfg_Term (n_cfg n) < ev_Term e -> 0 < ev_Term e ->
  exists m, Step n (term_event e) = Ok (publishReadState m, None) /\
    m = (if bool_decide (cfg_Role (n_cfg n) = RoleLearner) then BecomeLearner n (ev_Term e) None_ else BecomeFollower n (ev_Term e) None_).
Proof.
  intros Hlt Hp. unfold Step, stepTerm. cbn [term_event ev_Term ev_Type ev_From].
  destruct (Z.eqb_spec (ev_Term e) 0); [lia|]. destruct (Z.ltb_spec (ev_Term e) (cfg_Term (n_cfg n))); [lia|].
  destruct (Z.ltb_spec (cfg_Term (n_cfg n)) (ev_Term e)); [|lia]. eexists. split; [|done].
  unfold stepBody. cbn [term_event ev_Type]. destruct (bool_decide _); unfold BecomeLearner, BecomeFollower; rewrite publish_fresh; done.
Qed.

Lemma become_cfg n term b :
  let m := if b : bool then BecomeLearner n term None_ else BecomeFollower n term None_ in
  n_queue m = n_queue n /\ n_cfg m = {| (n_cfg n) with cfg_Term := term; cfg_Leader := None_; cfg_Role := if b then RoleLearner else RoleFollower |}.
Proof. destruct b; cbv zeta; unfold BecomeLearner, BecomeFollower; rewrite publish_fresh; done. Qed.
Lemma publish_cfg n : n_cfg (publishReadState n) = n_cfg n /\ n_queue (publishReadState n) = n_queue n.
Proof. by rewrite publish_fresh. Qed.

(** The node after the change of term at the head of [Step]. *)
Lemma stepTerm_cfg n e : let '(n1, go) := stepTerm n e in
  n_queue n1 = n_queue n /\
  (n_cfg n1 = n_cfg n /\ (go = true -> ev_Term e = 0 \/ ev_Term e = cfg_Term (n_cfg n)) \/
   go = true /\ cfg_Term (n_cfg n1) = ev_Term e /\ cfg_Term (n_cfg n) < ev_Term e /\ cfg_Role (n_cfg n1) <> RoleLeader).
Proof.
  unfold stepTerm. destruct (Z.eqb_spec (ev_Term e) 0) as [|]; [auto|].
  destruct (Z.ltb_spec (ev_Term e) (cfg_Term (n_cfg n))) as [Hlt|Hge].
  { destruct (_ && _); [destruct (ev_Type e)|]; (split; [done|left; split; [done|discriminate]]). }
  destruct (Z.ltb_spec (cfg_Term (n_cfg n)) (ev_Term e)) as [Hlt|Hle]; [|split; [done|left; split; [done|intros; lia]]].
  destruct (bool_decide _); unfold BecomeLearner, BecomeFollower; rewrite publish_fresh; (split; [done|]); right; done.
Qed.

(** The term after a change of the configuration. *)
Lemma role_change_term n old new : n_cfg n = new -> cfg_Term (n_cfg (roleChangeIfNeed n old new)) = cfg_Term new.
Proof.
  intros <-. unfold roleChangeIfNeed, BecomeLeader, BecomeFollower, BecomeLearner.
  repeat first [rewrite publish_fresh; reflexivity | match goal with |- context [if ?b then _ else _] => destruct b end
    | match goal with |- context [match cfg_Role ?c with _ => _ end] => destruct (cfg_Role c) end | reflexivity
    | match goal with |- context [match ?r with RoleUnknown => _ | _ => _ end] => destruct r end].
Qed.
Lemma resolve_term self old new : cfg_Term (resolveConfig self old new) =
  if (cfg_Term new =? 0) || (cfg_Term new <? cfg_Term old) then cfg_Term old else cfg_Term new.
Proof.
  unfold resolveConfig. destruct (Z.eqb_spec (cfg_Term new) 0) as [E|E]; cbn [negb andb orb].
  - cbv zeta. rewrite E. cbn [Z.eqb]. repeat (match goal with |- context [if ?b then _ else _] => destruct b end); done.
  - destruct (Z.ltb_spec (cfg_Term new) (cfg_Term old)) as [Hlt|Hge]; cbv zeta; cbn [cfg_Term].
    + destruct (Z.eqb_spec (cfg_Term old) 0) as [E'|E']; repeat (match goal with |- context [if ?b then _ else _] => destruct b end); done.
    + destruct (Z.eqb_spec (cfg_Term new) 0); [lia|]. repeat (match goal with |- context [if ?b then _ else _] => destruct b end); done.
Qed.
Lemma switch_term n c : n_cfg (switchConfig n c).1 = n_cfg n \/
  cfg_Term (n_cfg (switchConfig n c).1) = if (cfg_Term c =? 0) || (cfg_Term c <? cfg_Term (n_cfg n)) then cfg_Term (n_cfg n) else cfg_Term c.
Proof.
  unfold switchConfig. destruct (cfg_Version c <? cfg_Version (n_cfg n)); [by left|]. right. cbv zeta. cbn [fst]. rewrite role_change_term by done. apply resolve_term.
Qed.

(** How a configuration that is not refused makes a leader. *)
Definition current_conf (n' : Node) (e : Event) : Prop :=
  cfg_Term (ev_Config e) = 0 \/
  cfg_Term (n_cfg n') <= cfg_Term (ev_Config e) /\ (ev_Type e = ConfChange -> cfg_Term (n_cfg n') = cfg_Term (ev_Config e)).

Lemma switched_conf n n1 e c : (n_cfg n1 = n_cfg n \/ cfg_Role (n_cfg n1) <> RoleLeader) ->
  cfg_Term (n_cfg n1) <= Z.max (cfg_Term (n_cfg n)) (ev_Term e) -> ~ stale_conf n e ->
  (cfg_Term c = cfg_Term (n_cfg n1) /\ ev_Type e <> ConfChange \/ cfg_Term c = cfg_Term (ev_Config e)) ->
  let n' := (switchConfig n1 c).1 in n_cfg n' = n_cfg n \/ cfg_Role (n_cfg n') <> RoleLeader \/ current_conf n' e.
Proof.
  intros H1 Ht Hns Hc n'. destruct (switch_term n1 c) as [E|E]; fold n' in E; [rewrite E; destruct H1; auto|]. right. right.
  unfold current_conf, stale_conf in *. destruct (Z.eq_dec (cfg_Term (ev_Config e)) 0) as [|Hz]; [by left|]. right. rewrite E.
  assert (Hm : Z.max (cfg_Term (n_cfg n)) (ev_Term e) <= cfg_Term (ev_Config e)) by (apply Z.nlt_ge; intros Hlt; by apply Hns).
  destruct Hc as [[Ec Hn]|Ec]; rewrite Ec.
  - match goal with |- context [if ?b then _ else _] => destruct b end; (split; [lia|by intros ?%Hn]).
  - destruct (Z.eqb_spec (cfg_Term (ev_Config e)) 0), (Z.ltb_spec (cfg_Term (ev_Config e)) (cfg_Term (n_cfg n1))); cbn [orb]; lia.
Qed.

Lemma Step_conf n e n' err : conf_event e -> ~ stale_conf n e -> Step n e = Ok (n', err) ->
  n_cfg n' = n_cfg n \/ cfg_Role (n_cfg n') <> RoleLeader \/ current_conf n' e.
Proof.
  intros Hc Hns. unfold Step. pose proof (stepTerm_cfg n e) as Hs. destruct (stepTerm n e) as [n1 go]. destruct Hs as [_ Hs].
  assert (H1 : n_cfg n1 = n_cfg n \/ cfg_Role (n_cfg n1) <> RoleLeader) by (destruct Hs as [[? _]|(_ & _ & _ & ?)]; auto).
  assert (Hdone : forall m, (n_cfg m = n_cfg n \/ cfg_Role (n_cfg m) <> RoleLeader \/ current_conf m e) ->
    forall x y : option GoError, Ok (publishReadState m, x) = Ok (n', y) -> n_cfg n' = n_cfg n \/ cfg_Role (n_cfg n') <> RoleLeader \/ current_conf n' e).
  { intros m Hm x y [= <- _]. unfold current_conf. by rewrite (proj1 (publish_cfg m)). }
  destruct go; [|cbn [res_bind done_]; apply Hdone; destruct H1; auto].
  assert (Ht : cfg_Term (n_cfg n1) <= Z.max (cfg_Term (n_cfg n)) (ev_Term e)).
  { destruct Hs as [[-> _]|(_ & -> & _ & _)]; lia. }
  unfold stepBody. destruct Hc as [Ec|Ec]; rewrite Ec.
  - cbn [res_bind done_]. apply Hdone. apply (switched_conf n n1 e); auto.
  - destruct (n_stepFunc n1) as [[]|]; unfold stepLeader, stepFollower, stepCandidate, stepLearner; rewrite ?Ec; cbn [res_bind done_]; apply Hdone.
    all: try (destruct H1; by auto).
    all: apply (switched_conf n n1 e); [done|done|done|]; left; split; [done|congruence].
Qed.

Lemma term_event_ok n e : event_ok n e -> event_ok n (term_event e).
Proof. intros _. by split. Qed.

(** ** Runs *)

Lemma Channel_Step_ok n e : node_inv n -> snapshot_fresh n -> event_ok n e ->
  returns (Channel_Step n e) (fun '(n', _) => evolves_gen Z.le n n' /\ snapshot_fresh n').
Proof.
  intros Hn Hs He. rewrite Channel_Step_eq by done.
  assert (Hstep : forall e', event_ok n e' -> returns (Step n e') (fun '(n', _) => evolves_gen Z.le n n' /\ snapshot_fresh n')).
  { intros e' He'. destruct (run_op_evolves n (OpStep e') Hn He') as (n1 & E1 & Hev). pose proof (run_op_fresh n (OpStep e') n1 Hs E1) as Hf.
    cbn [run_op] in E1. destruct (Step n e') as [[n2 err]| |]; [|done..]. injection E1 as <-. eexists. by split. }
  destruct (decide _) as [[Hc Hst]|]; [|by apply Hstep]. destruct (_ <? _).
  - destruct (Hstep (term_event e) (term_event_ok n e He)) as ([n1 err] & -> & H1). eexists. by split.
  - eexists. split; [done|]. split; [|done]. split; (done || lia).
Qed.

(** An operation on the raft of a channel. *)
Definition chan_run_op (n : Node) (op : node_op) : res Node :=
  match op with
  | OpStep e => let! (n, _) := Channel_Step n e in Ok n
  | _ => run_op n op
  end.
Fixpoint chan_run_ops (n : Node) (ops : list node_op) : res Node :=
  match ops with
  | [] => Ok n
  | op :: ops => let! n := chan_run_op n op in chan_run_ops n ops
  end.
Fixpoint chan_run_ok (n : Node) (ops : list node_op) : Prop :=
  match ops with
  | [] => True
  | op :: ops => op_ok n op /\ match chan_run_op n op with Ok n' => chan_run_ok n' ops | _ => True end
  end.

Lemma chan_run_op_ok n op : node_inv n -> snapshot_fresh n -> op_ok n op ->
  returns (chan_run_op n op) (fun n' => evolves_gen Z.le n n' /\ snapshot_fresh n').
Proof.
  intros Hn Hs Hop. destruct op as [e|ka| |].
  - cbn [chan_run_op]. destruct (Channel_Step_ok n e Hn Hs Hop) as ([n' err] & -> & H). eexists. by split.
  - destruct (run_op_evolves n (OpTick ka) Hn Hop) as (n' & E & H). exists n'. split; [done|]. split; [done|by eapply run_op_fresh].
  - destruct (run_op_evolves n OpReady Hn Hop) as (n' & E & H). exists n'. split; [done|]. split; [done|by eapply run_op_fresh].
  - destruct (run_op_evolves n OpKeepAlive Hn Hop) as (n' & E & H). exists n'. split; [done|]. split; [done|by eapply run_op_fresh].
Qed.
Lemma chan_run_ops_ok n ops : node_inv n -> snapshot_fresh n -> chan_run_ok n ops ->
  returns (chan_run_ops n ops) (fun n' => node_inv n' /\ snapshot_fresh n' /\ cfg_Term (n_cfg n) <= cfg_Term (n_cfg n')).
Proof.
  revert n. induction ops as [|op ops IH]; intros n Hn Hs Hok; cbn [chan_run_ops].
  { eexists. split; [done|]. split_and!; [done|done|lia]. }
  destruct Hok as [Hop Hrest]. destruct (chan_run_op_ok n op Hn Hs Hop) as (n1 & E1 & [Hi _ Ht _ _ _] & Hs1).
  rewrite E1 in Hrest |- *. cbn [res_bind]. destruct (IH n1 Hi Hs1 Hrest) as (n2 & -> & H2 & Hs2 & Ht2). eexists. split; [done|].
  split_and!; [done|done|lia].
Qed.

(** ** Starting a raft *)

Section Start.
Context {W : WkProto} {F : Frames} {R : RecvPackets} {RL : RecvPacketsLaws R} {V : MsgViews F R} {M : RowPackets F R} {ML : RowPacketsLaws V M}.
Context {DB : Type} {P : Pebble DB} {PL : PebbleLaws DB} {C : Type} {L : LRU PermissionCacheItem C}.
Context {SC : Type} {LS : LRU bytes SC} {LSL : LRULaws bytes SC} {UC : Type} {LU : LRU Z UC} {MC : MsgChannels} {CN : ChanNames MC}.
Abbreviation database := (messageDB (DB := DB) (C := C) (SC := SC) (UC := UC)).
Implicit Types (d : database) (A : string * Z -> chan R).

Lemma last_term_u32 A d c t : ChanRep A d -> IsChan c t -> is_u32 (last_term (cs_log (A (c, t)))).
Proof.
  intros HC Hc. unfold last_term. destruct (_ =? _); [done|]. destruct (cl_msgs _ !! _) as [m|] eqn:Em; [|done]. by eapply ro_term, (crp_rows _ _ HC).
Qed.

(** A raft made of a state that is stored. *)
Definition started (st : RaftState) (ch : Channel) : Prop :=
  node_inv (ch_Node ch) /\ snapshot_fresh (ch_Node ch) /\ n_queue (ch_Node ch) = newQueue (rs_AppliedIndex st) (rs_LastLogIndex st).

Lemma createChannel_gives A d nodeId idle cfg : ChanRep A d -> IsChan (cl_ChannelId cfg) (cl_ChannelType cfg) ->
  let x := A (cl_ChannelId cfg, cl_ChannelType cfg) in
  cgives A d (createChannel nodeId idle cfg) (fun r => match r with
    | Some ch => exists st, restart x = Some st /\ started st ch /\ opt_NodeId (n_opts (ch_Node ch)) = nodeId /\ ch_cfg ch = cfg
    | None => restart x = None
    end).
Proof.
  intros HC Hc x. pose proof (cf_last _ (rep_fits _ _ (crp_msgs _ _ HC) _ _ Hc)) as Hl. unfold logs_of in Hl. fold x in Hl.
  eapply cgives_bind; [by apply GetState_gives|done|]. intros d1 st HC1 Hst. cbv beta in Hst. symmetry in Hst. fold x in Hst.
  destruct (restart_fits A d _ _ st HC Hc Hst) as (El & Et & Hap). pose proof (last_term_u32 A d _ _ HC Hc) as Hu. fold x in Hu, El, Et, Hap.
  eapply cgives_bind; [apply TermStart_gives; [done|done|by rewrite Et]|done|]. intros d2 tsi HC2 _.
  match goal with |- context [NewNode ?i ?s ?o] => destruct (NewNode_inv i s o) as (n & En & Hn & Ho & _ & Hq) end;
    [done|lia|unfold MaxUint64 in Hl; lia|rewrite Et; unfold is_u32 in Hu; lia|].
  eapply cgives_step; [exact En|]. apply cgives_ret; [done|]. exists st. unfold started. cbn [ch_Node ch_cfg].
  split_and!; [done|done|by apply NewNode_ok in En as [? _]|by rewrite Hq|by rewrite Ho|done].
Qed.
End Start.

(** ** Examples *)

(** A follower of node 2 in the term 12, and a configuration of the term 11 that names the
    node itself as leader. *)
Definition conf (version term leader : Z) (role : Role) : Config :=
  {| emptyConfig with cfg_Version := version; cfg_Term := term; cfg_Replicas := [1; 2; 3]; cfg_Leader := leader; cfg_Role := role |}.
Definition conf_change (c : Config) (term : Z) : Event := {| emptyEvent with ev_Type := ConfChange; ev_Term := term; ev_Config := c |}.
Definition to_follower12 : list node_op := [OpStep (conf_change (conf 1 12 2 RoleFollower) 0)].
Definition follower12 : Node := CommitProps.the_node (run_ops NodeProps.node3 to_follower12).
Definition stale11 : Event := conf_change (conf 2 11 1 RoleLeader) 12.
Lemma follower12_inv : node_inv follower12.
Proof.
  assert (Hok : ops_ok NodeProps.node3 to_follower12) by decide_goal.
  destruct (run_ops_inv NodeProps.node3 to_follower12 NodeProps.node3_inv Hok) as (n & E & Hn & _). unfold follower12. by rewrite E.
Qed.
Lemma follower12_fresh : snapshot_fresh follower12.
Proof. vm_compute. reflexivity. Qed.
Lemma stale11_ok : event_ok follower12 stale11.
Proof. decide_goal. Qed.

(** Without the guard the raft itself would install the configuration with the current term,
    and lead the term 12, of which node 2 is the leader. *)
Lemma stale_config_makes_leader :
  match Step follower12 stale11 with
  | Ok (n', None) => cfg_Term (n_cfg follower12) = 12 /\ cfg_Leader (n_cfg follower12) = 2 /\
      cfg_Term (n_cfg n') = 12 /\ cfg_Leader (n_cfg n') = 1 /\ cfg_Role (n_cfg n') = RoleLeader
  | _ => False
  end.
Proof. vm_compute. by split_and!. Qed.

#[local] Existing Instances bytePackets bytePackets_laws demoFrames demoFrames_laws demoViews demoRows demoRows_laws oneChannel oneName.
Definition demo_cfg : ChannelClusterConfig := mkChannelClusterConfig 0 "a" 1 3 [1; 2; 3] [] 1 2 0 0 0 1 None None 0.

Module ChannelRaftProps.

(** C24. A configuration of a term that has passed does not change the raft of a channel: it is
    refused, and the raft at most takes over the newer term of the event, without a leader,
    with its members, its version and its logs as they were.  So a raft that leads after a
    configuration was leading with the same configuration before, or the configuration is of
    no older term than the one it leads (of the same, if it comes from the server), or has no
    term.  The raft does not panic, and its term does not go back. *)
Theorem channel_config_guard (n : Node) (e : Event) :
  node_inv n -> snapshot_fresh n -> event_ok n e -> conf_event e ->
  returns (Channel_Step n e) (fun '(n', err) =>
    node_inv n' /\ snapshot_fresh n' /\ cfg_Term (n_cfg n) <= cfg_Term (n_cfg n') /\
    (stale_conf n e ->
       err = Some errStaleConfigTerm /\ n_queue n' = n_queue n /\ (ev_Term e <= cfg_Term (n_cfg n) -> n' = n) /\
       (cfg_Term (n_cfg n) < ev_Term e -> exists role, role <> RoleLeader /\
          n_cfg n' = {| (n_cfg n) with cfg_Term := ev_Term e; cfg_Leader := None_; cfg_Role := role |})) /\
    (cfg_Role (n_cfg n') = RoleLeader -> n_cfg n' = n_cfg n \/ ~ stale_conf n e /\ current_conf n' e)).
Proof.
  intros Hn Hs He Hc. destruct (Channel_Step_ok n e Hn Hs He) as ([n' err] & E & [Hi _ Ht _ _ _] & Hs'). exists (n', err).
  split; [done|]. rewrite Channel_Step_eq in E by done. destruct (decide (conf_event e /\ stale_conf n e)) as [[_ Hst]|Hns].
  - destruct (Z.ltb_spec (cfg_Term (n_cfg n)) (ev_Term e)) as [Hlt|Hge].
    + assert (Hp : 0 < ev_Term e) by (pose proof (ni_term _ Hn); lia). destruct (Step_term n e Hlt Hp) as (m & Em & Hm). rewrite Em in E.
      cbn [res_bind default from_option] in E. injection E as <- <-. destruct (publish_cfg m) as [-> ->]. subst m.
      destruct (become_cfg n (ev_Term e) (bool_decide (cfg_Role (n_cfg n) = RoleLearner))) as [-> ->]. split_and!; try done.
      * cbn. lia.
      * intros _. split_and!; [done|done|intros; lia|]. intros _. eexists. split; [|done]. by destruct (bool_decide _).
      * cbn. by destruct (bool_decide _).
    + injection E as <- <-. split_and!; [done|done|lia| |intros; by left]. intros _.
      split_and!; [done|done|done|intros; lia].
  - assert (Hns' : ~ stale_conf n e) by tauto. split_and!; try done. intros Hrole.
    destruct (Step_conf n e n' err Hc Hns' E) as [?|[?|?]]; auto. done.
Qed.

Lemma channel_config_guard_witness :
  exists n', Channel_Step follower12 stale11 = Ok (n', Some errStaleConfigTerm) /\ cfg_Role (n_cfg n') = RoleFollower /\
    cfg_Leader (n_cfg n') = 2 /\ cfg_Term (n_cfg n') = 12 /\ cfg_Version (n_cfg n') = 1.
Proof.
  assert (Hc : conf_event stale11) by by left. assert (Hst : stale_conf follower12 stale11) by decide_goal.
  destruct (channel_config_guard follower12 stale11 follower12_inv follower12_fresh stale11_ok Hc) as ([n' err] & E & _ & _ & _ & H & _).
  destruct (H Hst) as (-> & _ & Hsame & _). assert (Hle : ev_Term stale11 <= cfg_Term (n_cfg follower12)) by decide_goal.
  rewrite (Hsame Hle) in E. exists follower12. split; [exact E|]. vm_compute. by split_and!.
Defined.

(** C25. The raft of a channel is made from what is stored. After any calls as in
    [channel_storage_refines], failed ones included, making it returns. When it reports an
    error, a store has failed, the last message of the channel is missing, or the applied
    index of the stored state (the larger of where the search starts and what was recorded)
    is greater than the number of the last message. Otherwise the raft starts after the last
    message with that applied index, or the last message if the search has not started. From
    then on it does not panic, and its term does not go back, whatever events, ticks and
    rounds it is given, on the conditions of [op_ok]: a ping and a request for a vote have a
    term, the largest term is not used, logs that are proposed or synchronized continue the
    log, the storage does not answer that it has stored a log beyond the last one, nor that
    it has truncated logs that are stored while others are pending. *)
Theorem started_channel {W : WkProto} {F : Frames} {R : RecvPackets} {RL : RecvPacketsLaws R} {V : MsgViews F R}
    {M : RowPackets F R} {ML : RowPacketsLaws V M} {DB} {P : Pebble DB} {PL : PebbleLaws DB} {C} {L : LRU PermissionCacheItem C}
    {SC} {LS : LRU bytes SC} {LSL : LRULaws bytes SC} {UC} {LU : LRU Z UC} {MC : MsgChannels} {CN : ChanNames MC}
    (d d1 : messageDB (DB := DB) (C := C) (SC := SC) (UC := UC)) (ops : list chan_op) (rs : list (option chan_answer))
    (nodeId idle : Z) (cfg : ChannelClusterConfig) :
  new_db d -> chan_ops_ok ops -> IsChan (cl_ChannelId cfg) (cl_ChannelType cfg) -> chan_execs d ops = Ok (d1, rs) ->
  exists A d2 r, chans_steps (store_fails DB) no_channels ops A rs /\ createChannel nodeId idle cfg d1 = Ok (d2, r) /\ ChanRep A d2 /\
    let x := A (cl_ChannelId cfg, cl_ChannelType cfg) in
    match r with
    | inl _ => store_fails DB \/ restart x = None
    | inr ch =>
        (exists st, restart x = Some st /\ 0 <= rs_AppliedIndex st <= cl_last (cs_log x) /\
           n_queue (ch_Node ch) = newQueue (rs_AppliedIndex st) (cl_last (cs_log x))) /\
        forall nops, chan_run_ok (ch_Node ch) nops ->
          returns (chan_run_ops (ch_Node ch) nops) (fun n' => queue_wf (n_queue n') /\ cfg_Term (n_cfg (ch_Node ch)) <= cfg_Term (n_cfg n'))
    end.
Proof.
  intros Hd Hops Hc E. destruct (execs_chan _ d ops (new_chan_rep d Hd) Hops) as (d1' & rs' & A & E' & Hs & HC).
  rewrite E in E'. injection E' as <- <-. destruct (createChannel_gives A d1 nodeId idle cfg HC Hc) as (d2 & r & E2 & HC2 & Hr).
  exists A, d2, r. split_and!; [done|done|done|]. destruct r as [e|ch]; [done|].
  destruct Hr as (st & Hst & (Hn & Hf & Hq) & _). split.
  { destruct (restart_fits A d1 _ _ st HC Hc Hst) as (El & _ & Hap). exists st. by rewrite <-El at 2. }
  intros nops Hok. destruct (chan_run_ops_ok _ nops Hn Hf Hok) as (n' & -> & Hn' & _ & Ht). eexists. split; [done|]. split; [apply Hn'|done].
Qed.

Lemma started_channel_witness : exists d1 rs d2 r, chan_execs empty_db demo_run = Ok (d1, rs) /\
  createChannel 1 10 demo_cfg d1 = Ok (d2, r) /\
  match r with inr ch => q_lastLogIndex (n_queue (ch_Node ch)) = 2 /\ cfg_Term (n_cfg (ch_Node ch)) = 1 | inl _ => False end.
Proof.
  destruct (execs_chan _ empty_db demo_run (new_chan_rep _ empty_db_new) chan_demo_ok) as (d1 & rs & A0 & E & _ & _).
  assert (Hc : IsChan (cl_ChannelId demo_cfg) (cl_ChannelType demo_cfg)) by exact eq_refl.
  destruct (started_channel empty_db d1 demo_run rs 1 10 demo_cfg empty_db_new chan_demo_ok Hc E) as (A & d2 & r & _ & E2 & _ & _).
  exists d1, rs, d2, r. split; [exact E|]. split; [exact E2|].
  assert (Hr : match chan_execs empty_db demo_run with
    | Ok (d1, _) => match createChannel 1 10 demo_cfg d1 with
                    | Ok (_, inr ch) => (q_lastLogIndex (n_queue (ch_Node ch)), cfg_Term (n_cfg (ch_Node ch)))
                    | _ => (0, 0)
                    end
    | _ => (0, 0)
    end = (2, 1)) by (vm_compute; reflexivity).
  rewrite E, E2 in Hr. destruct r as [e|ch]; [discriminate Hr|]. injection Hr as -> ->. split; reflexivity.
Defined.
End ChannelRaftProps.
