(* ===== verification/ClusterRpc.v ===== *)
(** * Requests between the nodes of a cluster

    [pkg/cluster/cluster]: the messages of [model.go] with their encodings, the server
    that answers them ([rpc_server.go]) and the client ([rpc_client.go]).

    What the server calls is an interface ([RpcNode]): an operation on the state of a node
    that returns an answer, or [None] for an error.  A request to a node is answered by its
    server ([deliver]), or is lost.  The client returns [None] when there is an error. *)

From Stdlib Require Import Strings.Byte.
From S2P Require Import Prelude RaftTypes WkProto RaftCodec ClusterConfig WkMembers WkModel StoreCmd.

(** ** Messages *)

(** [pkg/cluster/cluster/model.go] [ChannelLastLogInfoReq] *)
Record ChannelLastLogInfoReq := mkLastLogReq { ll_ChannelId : string; ll_ChannelType : Z }.
(** [pkg/cluster/cluster/model.go] [ChannelLastLogInfoResponse] *)
Record ChannelLastLogInfoResponse := mkLastLog { lr_LogIndex : Z; lr_LogTerm : Z; lr_Term : Z }.
(** [pkg/cluster/cluster/model.go] [AppointLeaderReq] *)
Record AppointLeaderReq := mkAppoint { ap_ChannelId : string; ap_ChannelType : Z; ap_LeaderId : Z; ap_Term : Z }.
(** [pkg/cluster/cluster/model.go] [SyncInfo] *)
Record ClusterSyncInfo := mkClusterSync { cy_NodeId : Z; cy_LastSyncLogIndex : Z; cy_LastSyncTime : Z; cy_version : Z }.
(** [pkg/cluster/cluster/model.go] [ChannelClusterConfigReq] *)
Record ChannelClusterConfigReq := mkConfigReq { cq_ChannelId : string; cq_ChannelType : Z; cq_From : Z }.
(** [pkg/cluster/cluster/model.go] [ChannelProposeReq] *)
Record ChannelProposeReq := mkChannelProposeReq { cp_ChannelId : string; cp_ChannelType : Z; cp_Logs : list Log }.
(** [pkg/cluster/cluster/rpc_server.go] [channelProposeReq] *)
Record channelProposeReq := mkChannelPropose { hp_channelId : string; hp_channelType : Z; hp_reqs : list ProposeReq }.
(** [pkg/cluster/cluster/model.go] [slotProposeReq] *)
Record slotProposeReq := mkSlotPropose { sp_SlotId : Z; sp_reqs : list ProposeReq }.
(** [pkg/cluster/cluster/rpc_client.go] [channelReq] *)
Record channelReq := mkChannelReq { cr_channelId : string; cr_channelType : Z }.
(** [pkg/cluster/cluster/model.go] [SlotInfo] *)
Record SlotInfo := mkSlotInfo { si_SlotId : Z; si_LogIndex : Z; si_LogTerm : Z; si_Term : Z }.
(** [pkg/cluster/cluster/model.go] [SlotLogInfoReq] *)
Record SlotLogInfoReq := mkSlotLogReq { sq_SlotIds : list Z }.
(** [pkg/cluster/cluster/model.go] [SlotLogInfoResp] *)
Record SlotLogInfoResp := mkSlotLogResp { sr_NodeId : Z; sr_Slots : list SlotInfo }.
(** [pkg/cluster/cluster/model.go] [NodeInfo] *)
Record NodeInfo := mkNodeInfo { ni_NodeId : Z; ni_ServerAddr : string }.
(** [pkg/cluster/cluster/model.go] [ClusterJoinReq] *)
Record ClusterJoinReq := mkJoinReq { jq_NodeId : Z; jq_ServerAddr : string; jq_Role : NodeRole }.
(** [pkg/cluster/cluster/model.go] [ClusterJoinResp] *)
Record ClusterJoinResp := mkJoinResp { jr_Nodes : list NodeInfo }.
(** [pkg/cluster/cluster/model.go] [SlotMigrateFinishReq] *)
Record SlotMigrateFinishReq := mkMigrateFinish { mf_SlotId : Z; mf_From : Z; mf_To : Z }.
(** [pkg/cluster/cluster/model.go] [UpdateApiServerAddrReq] *)
Record UpdateApiServerAddrReq := mkUpdateAddr { ua_NodeId : Z; ua_ApiServerAddr : string }.
(** [pkg/cluster/cluster/model.go] [ChangeSlotRoleReq] *)
Record ChangeSlotRoleReq := mkChangeRole { sg_Role : Role; sg_SlotIds : list Z }.
(** [pkg/cluster/cluster/model.go] [ping]

    The fields that are sent. *)
Record ping := mkPing { pi_no : string; pi_from : Z; pi_startMill : Z }.
(** [pkg/cluster/cluster/model.go] [pong] *)
Record pong := mkPong { po_no : string; po_from : Z; po_startMill : Z }.
(** [pkg/cluster/cluster/model.go] [clusterLogsReq]

    The type of the logs is a number. *)
Record clusterLogsReq := mkLogsReq {
  lq_StartLogIndex : Z;
  lq_EndLogIndex : Z;
  lq_Limit : Z;
  lq_OrderDesc : bool;
  lq_LogType : Z
}.

(** The roles of nodes are 32 bit integers. *)
Definition NodeRole_num (r : NodeRole) : Z :=
  match r with NodeRoleReplica => 0 | NodeRoleProxy => 1 | NodeRoleOther z => z end.
Definition NodeRole_of : Z -> NodeRole := enum_of [NodeRoleReplica; NodeRoleProxy] NodeRoleOther.

Section Codecs.
Context {W : WkProto}.

(** [pkg/cluster/cluster/model.go] [(c *ChannelLastLogInfoReq) Marshal] *)
Definition ChannelLastLogInfoReq_Marshal (c : ChannelLastLogInfoReq) : bytes :=
  WriteString (ll_ChannelId c) ++ WriteUint8 (ll_ChannelType c).
(** [pkg/cluster/cluster/model.go] [(c *ChannelLastLogInfoReq) Unmarshal] *)
Definition ChannelLastLogInfoReq_Unmarshal (data : bytes) : option ChannelLastLogInfoReq :=
  run_dec (do! i <- String_; do! t <- Uint8; dret (mkLastLogReq i t)) data.

(** [pkg/cluster/cluster/model.go] [(c ChannelLastLogInfoReqSet) Marshal] *)
Definition ChannelLastLogInfoReqSet_Marshal (c : list ChannelLastLogInfoReq) : bytes :=
  WriteUint16 (u16 (len c)) ++ mjoin ((fun req => WriteString (ll_ChannelId req) ++ WriteUint8 (ll_ChannelType req)) <$> c).
(** [pkg/cluster/cluster/model.go] [(c *ChannelLastLogInfoReqSet) Unmarshal] *)
Definition ChannelLastLogInfoReqSet_Unmarshal (data : bytes) : option (list ChannelLastLogInfoReq) :=
  run_dec (do! reqLen <- Uint16;
           drepeat (Z.to_nat reqLen) (do! i <- String_; do! t <- Uint8; dret (mkLastLogReq i t))) data.

(** [pkg/cluster/cluster/model.go] [(c *ChannelLastLogInfoResponse) Marshal] *)
Definition ChannelLastLogInfoResponse_Marshal (c : ChannelLastLogInfoResponse) : bytes :=
  WriteUint64 (lr_LogIndex c) ++ WriteUint32 (lr_LogTerm c) ++ WriteUint32 (lr_Term c).
(** [pkg/cluster/cluster/model.go] [(c *ChannelLastLogInfoResponse) Unmarshal] *)
Definition ChannelLastLogInfoResponse_Unmarshal (data : bytes) : option ChannelLastLogInfoResponse :=
  run_dec (do! i <- Uint64; do! lt <- Uint32; do! t <- Uint32; dret (mkLastLog i lt t)) data.

(** [pkg/cluster/cluster/model.go] [(c *AppointLeaderReq) Marshal] *)
Definition AppointLeaderReq_Marshal (c : AppointLeaderReq) : bytes :=
  WriteString (ap_ChannelId c) ++ WriteUint8 (ap_ChannelType c) ++ WriteUint64 (ap_LeaderId c) ++ WriteUint32 (ap_Term c).
(** [pkg/cluster/cluster/model.go] [(c *AppointLeaderReq) Unmarshal] *)
Definition AppointLeaderReq_Unmarshal (data : bytes) : option AppointLeaderReq :=
  run_dec (do! i <- String_; do! t <- Uint8; do! leader <- Uint64; do! term <- Uint32;
           dret (mkAppoint i t leader term)) data.

(** [pkg/cluster/cluster/model.go] [(c *SyncInfo) Marshal]

    The version is set to 1. *)
Definition ClusterSyncInfo_Marshal (c : ClusterSyncInfo) : bytes :=
  WriteUint16 1 ++ WriteUint64 (cy_NodeId c) ++ WriteUint64 (cy_LastSyncLogIndex c) ++ WriteUint64 (cy_LastSyncTime c).
(** [pkg/cluster/cluster/model.go] [(c *SyncInfo) Unmarshal] *)
Definition ClusterSyncInfo_Unmarshal (data : bytes) : option ClusterSyncInfo :=
  run_dec (do! version <- Uint16; do! node <- Uint64; do! index <- Uint64; do! time <- Uint64;
           dret (mkClusterSync node index time version)) data.

(** [pkg/cluster/cluster/model.go] [(c *ChannelClusterConfigReq) Marshal] *)
Definition ChannelClusterConfigReq_Marshal (c : ChannelClusterConfigReq) : bytes :=
  WriteString (cq_ChannelId c) ++ WriteUint8 (cq_ChannelType c) ++ WriteUint64 (cq_From c).
(** [pkg/cluster/cluster/model.go] [(c *ChannelClusterConfigReq) Unmarshal] *)
Definition ChannelClusterConfigReq_Unmarshal (data : bytes) : option ChannelClusterConfigReq :=
  run_dec (do! i <- String_; do! t <- Uint8; do! from <- Uint64; dret (mkConfigReq i t from)) data.

(** [pkg/cluster/cluster/model.go] [(c *ChannelProposeReq) Marshal] *)
Definition ChannelProposeReq_Marshal (c : ChannelProposeReq) : bytes :=
  WriteString (cp_ChannelId c) ++ WriteUint8 (cp_ChannelType c) ++ WriteUint16 (u16 (len (cp_Logs c))) ++
  mjoin ((fun lg => WriteBinary (Log_Marshal lg)) <$> cp_Logs c).
(** [pkg/cluster/cluster/model.go] [(c *ChannelProposeReq) Unmarshal] *)
Definition ChannelProposeReq_Unmarshal (data : bytes) : option ChannelProposeReq :=
  run_dec (do! i <- String_; do! t <- Uint8; do! dataLen <- Uint16;
           do! logs <- drepeat (Z.to_nat dataLen) (dinner Log_Unmarshal Binary);
           dret (mkChannelProposeReq i t logs)) data.

(** [pkg/cluster/cluster/rpc_server.go] [(ch *channelProposeReq) encode] *)
Definition channelProposeReq_encode (ch : channelProposeReq) : bytes :=
  WriteString (hp_channelId ch) ++ WriteUint8 (hp_channelType ch) ++ WriteBytes (ProposeReqSet_Marshal (hp_reqs ch)).
(** [pkg/cluster/cluster/rpc_server.go] [(ch *channelProposeReq) decode] *)
Definition channelProposeReq_decode (data : bytes) : option channelProposeReq :=
  run_dec (do! i <- String_; do! t <- Uint8; do! reqs <- dinner ProposeReqSet_Unmarshal BinaryAll;
           dret (mkChannelPropose i t reqs)) data.

(** [pkg/cluster/cluster/model.go] [(s *slotProposeReq) encode] *)
Definition slotProposeReq_encode (s : slotProposeReq) : bytes :=
  WriteUint32 (sp_SlotId s) ++ WriteBytes (ProposeReqSet_Marshal (sp_reqs s)).
(** [pkg/cluster/cluster/model.go] [(ch *slotProposeReq) decode] *)
Definition slotProposeReq_decode (data : bytes) : option slotProposeReq :=
  run_dec (do! i <- Uint32; do! reqs <- dinner ProposeReqSet_Unmarshal BinaryAll; dret (mkSlotPropose i reqs)) data.

(** [pkg/cluster/cluster/rpc_client.go] [(ch *channelReq) encode] *)
Definition channelReq_encode (ch : channelReq) : bytes := WriteString (cr_channelId ch) ++ WriteUint8 (cr_channelType ch).
(** [pkg/cluster/cluster/rpc_client.go] [(ch *channelReq) decode] *)
Definition channelReq_decode (data : bytes) : option channelReq :=
  run_dec (do! i <- String_; do! t <- Uint8; dret (mkChannelReq i t)) data.

(** [pkg/cluster/cluster/model.go] [(s *SlotLogInfoReq) Marshal] *)
Definition SlotLogInfoReq_Marshal (s : SlotLogInfoReq) : bytes :=
  WriteUint16 (u16 (len (sq_SlotIds s))) ++ mjoin (WriteUint32 <$> sq_SlotIds s).
(** [pkg/cluster/cluster/model.go] [(s *SlotLogInfoReq) Unmarshal] *)
Definition SlotLogInfoReq_Unmarshal (data : bytes) : option SlotLogInfoReq :=
  run_dec (do! slotIdsLen <- Uint16; do! ids <- drepeat (Z.to_nat slotIdsLen) Uint32; dret (mkSlotLogReq ids)) data.

(** [pkg/cluster/cluster/model.go] [lines 553-556]

    One slot of an answer. *)
Definition SlotInfo_enc (slot : SlotInfo) : bytes :=
  WriteUint32 (si_SlotId slot) ++ WriteUint64 (si_LogIndex slot) ++ WriteUint32 (si_LogTerm slot) ++
  WriteUint32 (si_Term slot).

(** [pkg/cluster/cluster/model.go] [lines 574-585] *)
Definition SlotInfo_dec : Decoder SlotInfo :=
  do! i <- Uint32; do! index <- Uint64; do! logTerm <- Uint32; do! term <- Uint32;
  dret (mkSlotInfo i index logTerm term).

(** [pkg/cluster/cluster/model.go] [(s *SlotLogInfoResp) Marshal] *)
Definition SlotLogInfoResp_Marshal (s : SlotLogInfoResp) : bytes :=
  WriteUint64 (sr_NodeId s) ++ WriteUint16 (u16 (len (sr_Slots s))) ++ mjoin (SlotInfo_enc <$> sr_Slots s).
(** [pkg/cluster/cluster/model.go] [(s *SlotLogInfoResp) Unmarshal] *)
Definition SlotLogInfoResp_Unmarshal (data : bytes) : option SlotLogInfoResp :=
  run_dec (do! node <- Uint64; do! slotsLen <- Uint16; do! slots <- drepeat (Z.to_nat slotsLen) SlotInfo_dec;
           dret (mkSlotLogResp node slots)) data.

(** [pkg/cluster/cluster/model.go] [(c *ClusterJoinReq) Marshal] *)
Definition ClusterJoinReq_Marshal (c : ClusterJoinReq) : bytes :=
  WriteUint64 (jq_NodeId c) ++ WriteString (jq_ServerAddr c) ++ WriteUint32 (u32 (NodeRole_num (jq_Role c))).
(** [pkg/cluster/cluster/model.go] [(c *ClusterJoinReq) Unmarshal] *)
Definition ClusterJoinReq_Unmarshal (data : bytes) : option ClusterJoinReq :=
  run_dec (do! i <- Uint64; do! addr <- String_; do! role <- Uint32; dret (mkJoinReq i addr (NodeRole_of (i32 role)))) data.

(** [pkg/cluster/cluster/model.go] [(c *ClusterJoinResp) Marshal] *)
Definition ClusterJoinResp_Marshal (c : ClusterJoinResp) : bytes :=
  WriteUint16 (u16 (len (jr_Nodes c))) ++
  mjoin ((fun node => WriteUint64 (ni_NodeId node) ++ WriteString (ni_ServerAddr node)) <$> jr_Nodes c).
(** [pkg/cluster/cluster/model.go] [(c *ClusterJoinResp) Unmarshal] *)
Definition ClusterJoinResp_Unmarshal (data : bytes) : option ClusterJoinResp :=
  run_dec (do! nodesLen <- Uint16;
           do! nodes <- drepeat (Z.to_nat nodesLen) (do! i <- Uint64; do! addr <- String_; dret (mkNodeInfo i addr));
           dret (mkJoinResp nodes)) data.

(** [pkg/cluster/cluster/model.go] [(s *SlotMigrateFinishReq) Marshal] *)
Definition SlotMigrateFinishReq_Marshal (s : SlotMigrateFinishReq) : bytes :=
  WriteUint32 (mf_SlotId s) ++ WriteUint64 (mf_From s) ++ WriteUint64 (mf_To s).
(** [pkg/cluster/cluster/model.go] [(s *SlotMigrateFinishReq) Unmarshal] *)
Definition SlotMigrateFinishReq_Unmarshal (data : bytes) : option SlotMigrateFinishReq :=
  run_dec (do! i <- Uint32; do! from <- Uint64; do! to_ <- Uint64; dret (mkMigrateFinish i from to_)) data.

(** [pkg/cluster/cluster/model.go] [(u *UpdateApiServerAddrReq) Marshal] *)
Definition UpdateApiServerAddrReq_Marshal (u : UpdateApiServerAddrReq) : bytes :=
  WriteUint64 (ua_NodeId u) ++ WriteString (ua_ApiServerAddr u).
(** [pkg/cluster/cluster/model.go] [(u *UpdateApiServerAddrReq) Unmarshal] *)
Definition UpdateApiServerAddrReq_Unmarshal (data : bytes) : option UpdateApiServerAddrReq :=
  run_dec (do! i <- Uint64; do! addr <- String_; dret (mkUpdateAddr i addr)) data.

(** [pkg/cluster/cluster/model.go] [(c *ChangeSlotRoleReq) Marshal] *)
Definition ChangeSlotRoleReq_Marshal (c : ChangeSlotRoleReq) : bytes :=
  WriteUint8 (Role_num (sg_Role c)) ++ WriteUint16 (u16 (len (sg_SlotIds c))) ++ mjoin (WriteUint32 <$> sg_SlotIds c).
(** [pkg/cluster/cluster/model.go] [(c *ChangeSlotRoleReq) Unmarshal] *)
Definition ChangeSlotRoleReq_Unmarshal (data : bytes) : option ChangeSlotRoleReq :=
  run_dec (do! role <- Uint8; do! slotIdsLen <- Uint16; do! ids <- drepeat (Z.to_nat slotIdsLen) Uint32;
           dret (mkChangeRole (Role_of role) ids)) data.

(** [pkg/cluster/cluster/model.go] [(p *ping) marshal] *)
Definition ping_marshal (p : ping) : bytes :=
  WriteString (pi_no p) ++ WriteUint64 (pi_from p) ++ WriteInt64 (pi_startMill p).
(** [pkg/cluster/cluster/model.go] [unmarshalPing] *)
Definition unmarshalPing (data : bytes) : option ping :=
  run_dec (do! no <- String_; do! from <- Uint64; do! start <- Int64; dret (mkPing no from start)) data.
(** [pkg/cluster/cluster/model.go] [(p *pong) marshal] *)
Definition pong_marshal (p : pong) : bytes :=
  WriteString (po_no p) ++ WriteUint64 (po_from p) ++ WriteInt64 (po_startMill p).
(** [pkg/cluster/cluster/model.go] [unmarshalPong] *)
Definition unmarshalPong (data : bytes) : option pong :=
  run_dec (do! no <- String_; do! from <- Uint64; do! start <- Int64; dret (mkPong no from start)) data.

(** [pkg/cluster/cluster/model.go] [(r *clusterLogsReq) encode] *)
Definition clusterLogsReq_encode (r : clusterLogsReq) : bytes :=
  WriteUint64 (lq_StartLogIndex r) ++ WriteUint64 (lq_EndLogIndex r) ++ WriteUint32 (lq_Limit r) ++
  WriteUint8 (BoolToUint8 (lq_OrderDesc r)) ++ WriteUint8 (u8 (lq_LogType r)).
(** [pkg/cluster/cluster/model.go] [(r *clusterLogsReq) decode] *)
Definition clusterLogsReq_decode (data : bytes) : option clusterLogsReq :=
  run_dec (do! s <- Uint64; do! e <- Uint64; do! limit <- Uint32; do! desc <- Uint8; do! logType <- Uint8;
           dret (mkLogsReq s e limit (Uint8ToBool desc) logType)) data.

(** [pkg/cluster/cluster/model.go] [(l *logSet) encode] *)
Definition logSet_encode (l : list Log) : bytes :=
  WriteUint64 (len l) ++
  mjoin ((fun log => WriteUint64 (log_Index log) ++ WriteUint32 (log_Term log) ++ WriteUint32 (u32 (len (log_Data log))) ++
                     WriteBytes (log_Data log)) <$> l).
Definition logSet_dec : Decoder Log :=
  do! index <- Uint64; do! term <- Uint32; do! dataLen <- Uint32; do! data <- Bytes dataLen;
  dret {| EmptyLog with log_Index := index; log_Term := term; log_Data := data |}.
(** [pkg/cluster/cluster/model.go] [(l *logSet) decode]

    A slice of more than [maxLogs] logs cannot be made: the call panics before it reads a
    log. *)
Definition logSet_decode (maxLogs : Z) (data : bytes) : res (option (list Log)) :=
  match Uint64 data with
  | None => Ok None
  | Some (num, rest) => if maxLogs <? num then Panic else Ok (run_dec (drepeat (Z.to_nat num) logSet_dec) rest)
  end.
End Codecs.

(** ** Server *)

(** What the server calls on a node whose state is [S].  [None] is an error; a channel whose
    configuration is not in the database is [Some None]. *)
Class RpcNode (S : Type) := {
  r_NodeId : S -> Z;
  r_proposeChannel : S -> string -> Z -> list ProposeReq -> S * option (list ProposeResp);
  r_proposeSlot : S -> Z -> list ProposeReq -> S * option (list ProposeResp);
  r_getOrCreateConfig : S -> string -> Z -> S * option ChannelClusterConfig;
  r_GetChannelClusterConfig : S -> string -> Z -> S * option (option ChannelClusterConfig);
  r_slotInfos : S -> list Z -> S * list SlotInfo;
  r_WakeLeaderIfNeed : S -> ChannelClusterConfig -> S * bool;
  r_SwitchConfig : S -> ChannelClusterConfig -> S * bool;
  r_LastLogIndexAndTerm : S -> string -> Z -> S * option (Z * Z);
  r_IsLeader : S -> bool;
  r_LeaderId : S -> Z;
  r_Nodes : S -> list CNode;
  r_ProposeJoin : S -> CNode -> S * bool;
  r_now : S -> Z;
  r_GetLogs : S -> bool -> Z -> Z -> Z -> option (list Log)
}.

(** [pkg/wkdb/model.go] [EmptyChannelClusterConfig] *)
Definition EmptyChannelClusterConfig : ChannelClusterConfig :=
  mkChannelClusterConfig 0 "" 0 0 [] [] 0 0 0 0 0 0 None None 0.

(** [pkg/cluster/cluster/model.go] [lines 1357-1362]

    The types of the logs that are asked for. *)
Definition LogTypeUnknown : Z := 0.
Definition LogTypeConfig : Z := 1.

Section Server.
Context {W : WkProto} {S : Type} {N : RpcNode S}.
Abbreviation handler := (S -> bytes -> S * option bytes).

(** [pkg/cluster/cluster/rpc_server.go] [(r *rpcServer) handleChannelPropose] *)
Definition handleChannelPropose : handler := fun s body =>
  match channelProposeReq_decode body with
  | None => (s, None)
  | Some req =>
      let '(s, r) := r_proposeChannel s (hp_channelId req) (hp_channelType req) (hp_reqs req) in
      (s, ProposeRespSet_Marshal <$> r)
  end.

(** [pkg/cluster/cluster/rpc_server.go] [(r *rpcServer) handleSlotPropose] *)
Definition handleSlotPropose : handler := fun s body =>
  match slotProposeReq_decode body with
  | None => (s, None)
  | Some req => let '(s, r) := r_proposeSlot s (sp_SlotId req) (sp_reqs req) in (s, ProposeRespSet_Marshal <$> r)
  end.

(** [pkg/cluster/cluster/rpc_server.go] [(r *rpcServer) handleGetOrCreateChannelConfig] *)
Definition handleGetOrCreateChannelConfig : handler := fun s body =>
  match channelReq_decode body with
  | None => (s, None)
  | Some req =>
      let '(s, r) := r_getOrCreateConfig s (cr_channelId req) (cr_channelType req) in
      (s, ChannelClusterConfig_Marshal <$> r)
  end.

(** [pkg/cluster/cluster/rpc_server.go] [(r *rpcServer) handleChannelConfig]

    A configuration that is not there is sent as an empty one. *)
Definition handleChannelConfig : handler := fun s body =>
  match channelReq_decode body with
  | None => (s, None)
  | Some req =>
      let '(s, r) := r_GetChannelClusterConfig s (cr_channelId req) (cr_channelType req) in
      (s, (fun cfg => ChannelClusterConfig_Marshal (default EmptyChannelClusterConfig cfg)) <$> r)
  end.

(** [pkg/cluster/cluster/rpc_server.go] [(r *rpcServer) handleSlotLastLogInfo] *)
Definition handleSlotLastLogInfo : handler := fun s body =>
  match SlotLogInfoReq_Unmarshal body with
  | None => (s, None)
  | Some req =>
      let '(s, slotInfos) := r_slotInfos s (sq_SlotIds req) in
      (s, Some (SlotLogInfoResp_Marshal (mkSlotLogResp (r_NodeId s) slotInfos)))
  end.

(** The body of an answer without data. *)
Definition okBody : bytes := [].

(** [pkg/cluster/cluster/rpc_server.go] [(r *rpcServer) handleWakeLeaderIfNeed]

    A node that is not the leader says so, which is not an error. *)
Definition handleWakeLeaderIfNeed : handler := fun s body =>
  match ChannelClusterConfig_Unmarshal body with
  | None => (s, None)
  | Some cfg =>
      if negb (cl_LeaderId cfg =? r_NodeId s) then (s, Some (String.list_byte_of_string "not leader"))
      else let '(s, ok) := r_WakeLeaderIfNeed s cfg in (s, if ok then Some okBody else None)
  end.

(** [pkg/cluster/cluster/rpc_server.go] [(r *rpcServer) handleChannelSwitchConfig] *)
Definition handleChannelSwitchConfig : handler := fun s body =>
  match ChannelClusterConfig_Unmarshal body with
  | None => (s, None)
  | Some cfg => let '(s, ok) := r_SwitchConfig s cfg in (s, if ok then Some okBody else None)
  end.

(** [pkg/cluster/cluster/rpc_server.go] [(s *Server) getChannelLastLogInfo] *)
Definition getChannelLastLogInfo (s : S) (channelId : string) (channelType : Z) : S * option ChannelLastLogInfoResponse :=
  let '(s, r) := r_LastLogIndexAndTerm s channelId channelType in
  match r with
  | None => (s, None)
  | Some (lastLogTerm, lastLogIndex) =>
      let '(s, r) := r_GetChannelClusterConfig s channelId channelType in
      (s, (fun cfg => mkLastLog lastLogIndex lastLogTerm (cl_Term (default EmptyChannelClusterConfig cfg))) <$> r)
  end.

(** [pkg/cluster/cluster/rpc_server.go] [(r *rpcServer) handleChannelLastLogInfo] *)
Definition handleChannelLastLogInfo : handler := fun s body =>
  match channelReq_decode body with
  | None => (s, None)
  | Some req =>
      let '(s, r) := getChannelLastLogInfo s (cr_channelId req) (cr_channelType req) in
      (s, ChannelLastLogInfoResponse_Marshal <$> r)
  end.

(** [pkg/cluster/cluster/rpc_server.go] [(r *rpcServer) handleClusterLogs]

    Without logs the answer is empty. *)
Definition handleClusterLogs : handler := fun s body =>
  match clusterLogsReq_decode body with
  | None => (s, None)
  | Some req =>
      let limit := if (lq_Limit req =? 0) || (1000 <? lq_Limit req) then 1000 else lq_Limit req in
      (s, (fun logs => match logs with [] => [] | _ => logSet_encode logs end) <$>
            r_GetLogs s (lq_OrderDesc req) (lq_StartLogIndex req) (lq_EndLogIndex req) limit)
  end.

(** [pkg/cluster/cluster/rpc_server.go] [(r *rpcServer) setRoutes]

    The handlers that need no other node. *)
Definition route (path : string) : option handler :=
  if bool_decide (path = "/rpc/channel/propose") then Some handleChannelPropose
  else if bool_decide (path = "/rpc/slot/propose") then Some handleSlotPropose
  else if bool_decide (path = "/rpc/channel/getOrCreateConfig") then Some handleGetOrCreateChannelConfig
  else if bool_decide (path = "/rpc/channel/getConfig") then Some handleChannelConfig
  else if bool_decide (path = "/rpc/slot/lastLogInfo") then Some handleSlotLastLogInfo
  else if bool_decide (path = "/rpc/channel/wakeLeaderIfNeed") then Some handleWakeLeaderIfNeed
  else if bool_decide (path = "/rpc/channel/switchConfig") then Some handleChannelSwitchConfig
  else if bool_decide (path = "/rpc/channel/lastLogInfo") then Some handleChannelLastLogInfo
  else if bool_decide (path = "/rpc/cluster/logs") then Some handleClusterLogs
  else None.
End Server.

(** ** Client *)

Section Client.
Context {W : WkProto} {Net : Type}.

(** [request net nodeId path body]: the body of an answer, or an error. *)
Context (request : Net -> Z -> string -> bytes -> Net * option bytes).

(** A request whose answer is decoded. *)
Definition asking {A} (net : Net) (nodeId : Z) (path : string) (data : bytes) (dec : bytes -> option A) : Net * option A :=
  let '(net, r) := request net nodeId path data in (net, body ← r; dec body).

(** [pkg/cluster/cluster/rpc_client.go] [(r *rpcClient) RequestChannelProposeBatchUntilApplied] *)
Definition RequestChannelProposeBatchUntilApplied net (nodeId : Z) (channelId : string) (channelType : Z)
    (reqs : list ProposeReq) : Net * option (list ProposeResp) :=
  asking net nodeId "/rpc/channel/propose" (channelProposeReq_encode (mkChannelPropose channelId channelType reqs))
    ProposeRespSet_Unmarshal.
(** [pkg/cluster/cluster/rpc_client.go] [(r *rpcClient) RequestSlotProposeBatchUntilApplied] *)
Definition RequestSlotProposeBatchUntilApplied net (nodeId slotId : Z) (reqs : list ProposeReq) : Net * option (list ProposeResp) :=
  asking net nodeId "/rpc/slot/propose" (slotProposeReq_encode (mkSlotPropose slotId reqs)) ProposeRespSet_Unmarshal.
(** [pkg/cluster/cluster/rpc_client.go] [(r *rpcClient) RequestGetOrCreateChannelClusterConfig] *)
Definition RequestGetOrCreateChannelClusterConfig net (nodeId : Z) (channelId : string) (channelType : Z) : Net * option ChannelClusterConfig :=
  asking net nodeId "/rpc/channel/getOrCreateConfig" (channelReq_encode (mkChannelReq channelId channelType))
    ChannelClusterConfig_Unmarshal.
(** [pkg/cluster/cluster/rpc_client.go] [(r *rpcClient) RequestGetChannelClusterConfig] *)
Definition RequestGetChannelClusterConfig net (nodeId : Z) (channelId : string) (channelType : Z) : Net * option ChannelClusterConfig :=
  asking net nodeId "/rpc/channel/getConfig" (channelReq_encode (mkChannelReq channelId channelType))
    ChannelClusterConfig_Unmarshal.
(** [pkg/cluster/cluster/rpc_client.go] [(r *rpcClient) RequestSlotLastLogInfo] *)
Definition RequestSlotLastLogInfo net (nodeId : Z) (req : SlotLogInfoReq) : Net * option SlotLogInfoResp :=
  asking net nodeId "/rpc/slot/lastLogInfo" (SlotLogInfoReq_Marshal req) SlotLogInfoResp_Unmarshal.
(** [pkg/cluster/cluster/rpc_client.go] [(r *rpcClient) RequestWakeLeaderIfNeed] *)
Definition RequestWakeLeaderIfNeed net (nodeId : Z) (config : ChannelClusterConfig) : Net * option unit :=
  asking net nodeId "/rpc/channel/wakeLeaderIfNeed" (ChannelClusterConfig_Marshal config) (fun _ => Some tt).
(** [pkg/cluster/cluster/rpc_client.go] [(r *rpcClient) RequestChannelSwitchConfig] *)
Definition RequestChannelSwitchConfig net (nodeId : Z) (config : ChannelClusterConfig) : Net * option unit :=
  asking net nodeId "/rpc/channel/switchConfig" (ChannelClusterConfig_Marshal config) (fun _ => Some tt).
(** [pkg/cluster/cluster/rpc_client.go] [(r *rpcClient) RequestChannelLastLogInfo] *)
Definition RequestChannelLastLogInfo net (nodeId : Z) (channelId : string) (channelType : Z) : Net * option ChannelLastLogInfoResponse :=
  asking net nodeId "/rpc/channel/lastLogInfo" (channelReq_encode (mkChannelReq channelId channelType))
    ChannelLastLogInfoResponse_Unmarshal.
(** [pkg/cluster/cluster/rpc_client.go] [(r *rpcClient) RequestClusterJoin] *)
Definition RequestClusterJoin net (nodeId : Z) (req : ClusterJoinReq) : Net * option ClusterJoinResp :=
  asking net nodeId "/rpc/cluster/join" (ClusterJoinReq_Marshal req) ClusterJoinResp_Unmarshal.
(** [pkg/cluster/cluster/rpc_client.go] [(r *rpcClient) RequestClusterLogs] *)
Definition RequestClusterLogs (maxLogs : Z) net (nodeId : Z) (req : clusterLogsReq) : res (Net * option (list Log)) :=
  let '(net, r) := request net nodeId "/rpc/cluster/logs" (clusterLogsReq_encode req) in
  match r with
  | None => Ok (net, None)
  | Some body => let! logs := logSet_decode maxLogs body in Ok (net, logs)
  end.
End Client.

(** ** The network *)

(** What happens to a request.  The client of [wkserver] sends a request once and waits for
    the answer with its number until a deadline; it does not send it again.  That a request
    arrives at most once is part of this model of the transport. *)
Inductive fate := Delivered | RequestLost | AnswerLost.

Section Network.
Context {W : WkProto} {S : Type} {N : RpcNode S}.
Abbreviation network := (gmap Z S).

(** [pkg/cluster/cluster/rpc_server.go] [(r *rpcServer) handleClusterJoin]

    A node that does not lead asks the leader it knows, with [request]; the leader proposes
    the node. *)
Definition handleClusterJoin (request : network -> Z -> string -> bytes -> network * option bytes) (net : network) (id : Z) (s : S)
    (body : bytes) : network * option bytes :=
  match ClusterJoinReq_Unmarshal body with
  | None => (net, None)
  | Some req =>
      if negb (r_IsLeader s) then
        let '(net, r) := RequestClusterJoin request net (r_LeaderId s) req in
        (net, ClusterJoinResp_Marshal <$> r)
      else
        let allowVote := bool_decide (jq_Role req = NodeRoleReplica) in
        let resp := mkJoinResp (map (fun node => mkNodeInfo (nd_Id node) (nd_ClusterAddr node)) (r_Nodes s)) in
        let '(s, ok) := r_ProposeJoin s (mkCNode (jq_NodeId req) (jq_ServerAddr req) "" true true 0 0 allowVote
                                           (jq_Role req) NodeStatusWillJoin (r_now s)) in
        (<[id := s]> net, if ok then Some (ClusterJoinResp_Marshal resp) else None)
  end.

(** [pkg/cluster/cluster/rpc_client.go] [(r *rpcClient) request]

    The nodes that are known are those of the network.  A request that is passed on too
    often ([hops]) has timed out. *)
Fixpoint deliver (fates : Z -> string -> fate) (hops : nat) (net : network) (id : Z) (path : string) (body : bytes)
    : network * option bytes :=
  match hops, net !! id with
  | O, _ | _, None => (net, None)
  | Datatypes.S hops, Some s =>
      let answered : network * option bytes :=
        if bool_decide (path = "/rpc/cluster/join") then handleClusterJoin (deliver fates hops) net id s body
        else match route path with
             | None => (net, None)
             | Some h => let '(s, r) := h s body in (<[id := s]> net, r)
             end in
      match fates id path with
      | Delivered => answered
      | RequestLost => (net, None)
      | AnswerLost => (fst answered, None)
      end
  end.
End Network.
