(* ===== verification/ClusterRpcLaws.v ===== *)
(** * What requests between nodes carry

    Every message of [ClusterRpc] is read back when its numbers, strings and lists fit their
    width. *)

From Stdlib Require Import Strings.Byte.
From S2P Require Import Prelude RaftTypes WkProto RaftCodec ClusterConfig WkMembers WkModel StoreCmd StoreCmdLaws ClusterRpc.

(** The lists that a 16 bit count precedes. *)
Definition ids_fit (l : list Z) : Prop := len l < two16 /\ Forall is_u32 l.
Definition reqs_fit (l : list ProposeReq) : Prop :=
  Forall (fun v => is_u64 (preq_Id v) /\ len (preq_Data v) < two32) l /\ is_u32 (len l).
Definition resps_fit (l : list ProposeResp) : Prop :=
  Forall (fun v => is_u64 (presp_Id v) /\ is_u64 (presp_Index v)) l /\ is_u32 (len l).
Definition slotInfo_fits (i : SlotInfo) : Prop :=
  is_u32 (si_SlotId i) /\ is_u64 (si_LogIndex i) /\ is_u32 (si_LogTerm i) /\ is_u32 (si_Term i).
Definition slotInfos_fit (l : list SlotInfo) : Prop := len l < two16 /\ Forall slotInfo_fits l.
Definition nodeInfo_fits (n : NodeInfo) : Prop := is_u64 (ni_NodeId n) /\ str_fits (ni_ServerAddr n).
Definition lastLog_fits (r : ChannelLastLogInfoResponse) : Prop :=
  is_u64 (lr_LogIndex r) /\ is_u32 (lr_LogTerm r) /\ is_u32 (lr_Term r).
Definition joinReq_fits (r : ClusterJoinReq) : Prop :=
  is_u64 (jq_NodeId r) /\ str_fits (jq_ServerAddr r) /\
  is_i32 (NodeRole_num (jq_Role r)) /\ canonical NodeRole_of NodeRole_num (jq_Role r).
Definition logsReq_fits (r : clusterLogsReq) : Prop :=
  is_u64 (lq_StartLogIndex r) /\ is_u64 (lq_EndLogIndex r) /\ is_u32 (lq_Limit r) /\ is_u8 (lq_LogType r).

(** The part of a log that is listed. *)
Definition listed_log (l : Log) : Log :=
  {| EmptyLog with log_Index := log_Index l; log_Term := log_Term l; log_Data := log_Data l |}.

Lemma rpc_i32_u32 z : is_i32 z -> i32 (u32 z) = z.
Proof.
  unfold is_i32, i32, u32. intros H. rewrite Z.add_mod_idemp_l by done. rewrite Z.mod_small by lia. lia.
Qed.

Section Laws.
Context {W : WkProto} {WL : WkProtoLaws W}.

(** ** Lists *)

Lemma read_counted {A B} (d : Decoder B) (enc : A -> bytes) (f : A -> B) (l : list A) :
  len l < two16 -> Forall (fun x => reads d (enc x) (f x)) l ->
  reads (do! n <- Uint16; drepeat (Z.to_nat n) d) (WriteUint16 (u16 (len l)) ++ mjoin (enc <$> l)) (f <$> l).
Proof.
  intros Hl Hf. eapply reads_bind; [apply Uint16_reads, u16_range|]. apply read_list; [by apply count16|done].
Qed.

Lemma counted_ids l n : n = u16 (len l) -> ids_fit l ->
  reads (drepeat (Z.to_nat n) Uint32) (mjoin (WriteUint32 <$> l)) l.
Proof.
  intros -> [Hl Hf]. rewrite <-(list_fmap_id l) at 3. apply read_list; [by apply count16|].
  eapply Forall_impl; [exact Hf|]. intros v Hv. by apply Uint32_reads.
Qed.

Lemma SlotInfo_reads i : slotInfo_fits i -> reads SlotInfo_dec (SlotInfo_enc i) i.
Proof. intros (H1 & H2 & H3 & H4). unfold SlotInfo_dec. repeat read_field. by destruct i. Qed.

Lemma counted_slotInfos l n : n = u16 (len l) -> slotInfos_fit l ->
  reads (drepeat (Z.to_nat n) SlotInfo_dec) (mjoin (SlotInfo_enc <$> l)) l.
Proof.
  intros -> [Hl Hf]. rewrite <-(list_fmap_id l) at 3. apply read_list; [by apply count16|].
  eapply Forall_impl; [exact Hf|]. intros v Hv. by apply SlotInfo_reads.
Qed.

(** ** Messages *)

Lemma LastLogReq_reads c : str_fits (ll_ChannelId c) -> is_u8 (ll_ChannelType c) ->
  ChannelLastLogInfoReq_Unmarshal (ChannelLastLogInfoReq_Marshal c) = Some c.
Proof. intros H1 H2. unfold ChannelLastLogInfoReq_Unmarshal. read_record. by destruct c. Qed.

Lemma LastLogReqSet_reads l :
  len l < two16 -> Forall (fun c => str_fits (ll_ChannelId c) /\ is_u8 (ll_ChannelType c)) l ->
  ChannelLastLogInfoReqSet_Unmarshal (ChannelLastLogInfoReqSet_Marshal l) = Some l.
Proof.
  intros Hl Hf. unfold ChannelLastLogInfoReqSet_Unmarshal. apply run_reads. rewrite <-(list_fmap_id l) at 2.
  apply read_counted; [done|]. eapply Forall_impl; [exact Hf|]. intros c [H1 H2]. repeat read_field. by destruct c.
Qed.

Lemma LastLog_reads c : lastLog_fits c ->
  ChannelLastLogInfoResponse_Unmarshal (ChannelLastLogInfoResponse_Marshal c) = Some c.
Proof. intros (H1 & H2 & H3). unfold ChannelLastLogInfoResponse_Unmarshal. read_record. by destruct c. Qed.

Lemma Appoint_reads c :
  str_fits (ap_ChannelId c) -> is_u8 (ap_ChannelType c) -> is_u64 (ap_LeaderId c) -> is_u32 (ap_Term c) ->
  AppointLeaderReq_Unmarshal (AppointLeaderReq_Marshal c) = Some c.
Proof. intros H1 H2 H3 H4. unfold AppointLeaderReq_Unmarshal. read_record. by destruct c. Qed.

Lemma ClusterSync_reads c :
  is_u64 (cy_NodeId c) -> is_u64 (cy_LastSyncLogIndex c) -> is_u64 (cy_LastSyncTime c) ->
  ClusterSyncInfo_Unmarshal (ClusterSyncInfo_Marshal c) = Some {| c with cy_version := 1 |}.
Proof. intros H1 H2 H3. assert (is_u16 1) by done. unfold ClusterSyncInfo_Unmarshal. read_record. Qed.

Lemma ConfigReq_reads c : str_fits (cq_ChannelId c) -> is_u8 (cq_ChannelType c) -> is_u64 (cq_From c) ->
  ChannelClusterConfigReq_Unmarshal (ChannelClusterConfigReq_Marshal c) = Some c.
Proof. intros H1 H2 H3. unfold ChannelClusterConfigReq_Unmarshal. read_record. by destruct c. Qed.

(** A log in a proposal has a 16 bit length. *)
Lemma ProposeLogs_reads c :
  str_fits (cp_ChannelId c) -> is_u8 (cp_ChannelType c) -> len (cp_Logs c) < two16 ->
  Forall (fun l => log_fits l /\ 20 + len (log_Data l) < two16) (cp_Logs c) ->
  ChannelProposeReq_Unmarshal (ChannelProposeReq_Marshal c) = Some {| c with cp_Logs := wire_log <$> cp_Logs c |}.
Proof.
  intros H1 H2 H3 Hf. unfold ChannelProposeReq_Unmarshal. apply run_reads. do 2 read_field.
  eapply reads_bind; [apply Uint16_reads, u16_range|]. eapply reads_map_eq; [|reflexivity].
  apply read_list; [by apply count16|]. eapply Forall_impl; [exact Hf|]. intros l [Hl Hd] rest. unfold dinner.
  rewrite Binary_reads by (rewrite Log_Marshal_length; lia). by rewrite Log_roundtrip.
Qed.

Lemma channelPropose_reads c : str_fits (hp_channelId c) -> is_u8 (hp_channelType c) -> reqs_fit (hp_reqs c) ->
  channelProposeReq_decode (channelProposeReq_encode c) = Some c.
Proof.
  intros H1 H2 [H3 H4]. unfold channelProposeReq_decode, channelProposeReq_encode.
  do 2 (erewrite run_bind by (eauto with wire)). unfold run_dec, dbind, dinner. rewrite BinaryAll_reads.
  rewrite ProposeReqSet_reads by done. by destruct c.
Qed.

Lemma slotPropose_reads s : is_u32 (sp_SlotId s) -> reqs_fit (sp_reqs s) ->
  slotProposeReq_decode (slotProposeReq_encode s) = Some s.
Proof.
  intros H1 [H3 H4]. unfold slotProposeReq_decode, slotProposeReq_encode.
  erewrite run_bind by (eauto with wire). unfold run_dec, dbind, dinner. rewrite BinaryAll_reads.
  rewrite ProposeReqSet_reads by done. by destruct s.
Qed.

Lemma channelReq_reads i t : str_fits i -> is_u8 t ->
  channelReq_decode (channelReq_encode (mkChannelReq i t)) = Some (mkChannelReq i t).
Proof. intros H1 H2. unfold channelReq_decode. read_record. Qed.

Lemma SlotLogReq_reads s : ids_fit (sq_SlotIds s) -> SlotLogInfoReq_Unmarshal (SlotLogInfoReq_Marshal s) = Some s.
Proof.
  intros H. unfold SlotLogInfoReq_Unmarshal. apply run_reads. eapply reads_bind; [apply Uint16_reads, u16_range|].
  eapply reads_map_eq; [by apply counted_ids|]. by destruct s.
Qed.

Lemma SlotLogResp_reads s : is_u64 (sr_NodeId s) -> slotInfos_fit (sr_Slots s) ->
  SlotLogInfoResp_Unmarshal (SlotLogInfoResp_Marshal s) = Some s.
Proof.
  intros H1 H2. unfold SlotLogInfoResp_Unmarshal. apply run_reads. read_field.
  eapply reads_bind; [apply Uint16_reads, u16_range|].
  eapply reads_map_eq; [by apply counted_slotInfos|]. by destruct s.
Qed.

Lemma JoinReq_reads c : joinReq_fits c -> ClusterJoinReq_Unmarshal (ClusterJoinReq_Marshal c) = Some c.
Proof.
  intros (H1 & H2 & H3 & H4). unfold ClusterJoinReq_Unmarshal. read_record.
  rewrite rpc_i32_u32, H4 by done. by destruct c.
Qed.

Lemma JoinResp_reads c : len (jr_Nodes c) < two16 -> Forall nodeInfo_fits (jr_Nodes c) ->
  ClusterJoinResp_Unmarshal (ClusterJoinResp_Marshal c) = Some c.
Proof.
  intros Hl Hf. unfold ClusterJoinResp_Unmarshal. apply run_reads. eapply reads_bind; [apply Uint16_reads, u16_range|].
  apply reads_map_eq with (jr_Nodes c); [|by destruct c]. rewrite <-(list_fmap_id (jr_Nodes c)) at 3.
  apply read_list; [by apply count16|]. eapply Forall_impl; [exact Hf|]. intros n [H1 H2]. repeat read_field. by destruct n.
Qed.

Lemma MigrateFinish_reads s : is_u32 (mf_SlotId s) -> is_u64 (mf_From s) -> is_u64 (mf_To s) ->
  SlotMigrateFinishReq_Unmarshal (SlotMigrateFinishReq_Marshal s) = Some s.
Proof. intros H1 H2 H3. unfold SlotMigrateFinishReq_Unmarshal. read_record. by destruct s. Qed.

Lemma UpdateAddr_reads u : is_u64 (ua_NodeId u) -> str_fits (ua_ApiServerAddr u) ->
  UpdateApiServerAddrReq_Unmarshal (UpdateApiServerAddrReq_Marshal u) = Some u.
Proof. intros H1 H2. unfold UpdateApiServerAddrReq_Unmarshal. read_record. by destruct u. Qed.

Lemma ChangeRole_reads c :
  is_u8 (Role_num (sg_Role c)) -> canonical Role_of Role_num (sg_Role c) -> ids_fit (sg_SlotIds c) ->
  ChangeSlotRoleReq_Unmarshal (ChangeSlotRoleReq_Marshal c) = Some c.
Proof.
  intros H1 H2 H3. unfold ChangeSlotRoleReq_Unmarshal. apply run_reads. read_field.
  eapply reads_bind; [apply Uint16_reads, u16_range|].
  eapply reads_map_eq; [by apply counted_ids|]. rewrite H2. by destruct c.
Qed.

Lemma ping_reads p : str_fits (pi_no p) -> is_u64 (pi_from p) -> is_i64 (pi_startMill p) ->
  unmarshalPing (ping_marshal p) = Some p.
Proof. intros H1 H2 H3. unfold unmarshalPing. read_record. by destruct p. Qed.
Lemma pong_reads p : str_fits (po_no p) -> is_u64 (po_from p) -> is_i64 (po_startMill p) ->
  unmarshalPong (pong_marshal p) = Some p.
Proof. intros H1 H2 H3. unfold unmarshalPong. read_record. by destruct p. Qed.

Lemma LogsReq_reads r : logsReq_fits r -> clusterLogsReq_decode (clusterLogsReq_encode r) = Some r.
Proof.
  intros (H1 & H2 & H3 & H4). unfold clusterLogsReq_decode. read_record.
  rewrite Uint8ToBool_of, u8_small by done. by destruct r.
Qed.

Lemma logSet_reads maxLogs l :
  len l < two63 -> len l <= maxLogs ->
  Forall (fun log => is_u64 (log_Index log) /\ is_u32 (log_Term log) /\ len (log_Data log) < two32) l ->
  logSet_decode maxLogs (logSet_encode l) = Ok (Some (listed_log <$> l)).
Proof.
  intros Hl Hm Hf. unfold logSet_decode, logSet_encode. rewrite Uint64_reads by (split; lia).
  destruct (Z.ltb_spec maxLogs (len l)); [lia|]. f_equal. apply run_reads. apply read_list; [lia|].
  eapply Forall_impl; [exact Hf|]. intros log (H1 & H2 & H3). unfold logSet_dec. rewrite u32_small by (split; lia).
  do 2 read_field. eapply reads_bind; [apply Uint32_reads; split; lia|].
  eapply reads_map_eq; [apply Bytes_reads; lia|done].
Qed.
End Laws.
