(* ===== verification/ClusterRpcProps.v ===== *)
(** * What requests between nodes promise

    A request is a call on the node that answers it: it changes that node and no other, as the
    call does, and the client gets the answer of the call or an error; a request to join is
    passed on and is answered by the leader ([requests_are_calls]). *)

From Stdlib Require Import Strings.Byte.
From S2P Require Import Prelude RaftTypes WkProto RaftCodec ClusterConfig WkMembers WkModel StoreCmd StoreCmdLaws ClusterRpc ClusterRpcLaws.

(** ** Calls *)

(** The requests of the client that a node answers itself. *)
Inductive rpc_call :=
| ProposeToChannel (channelId : string) (channelType : Z) (reqs : list ProposeReq)
| ProposeToSlot (slotId : Z) (reqs : list ProposeReq)
| GetOrCreateConfig (channelId : string) (channelType : Z)
| GetConfig (channelId : string) (channelType : Z)
| SlotLogs (slotIds : list Z)
| WakeLeader (cfg : ChannelClusterConfig)
| SwitchChannel (cfg : ChannelClusterConfig)
| ChannelLog (channelId : string) (channelType : Z).

Inductive rpc_answer :=
| Proposed (resps : list ProposeResp)
| ConfigIs (cfg : ChannelClusterConfig)
| SlotLogsAre (resp : SlotLogInfoResp)
| Done
| ChannelLogIs (resp : ChannelLastLogInfoResponse).

Section Calls.
Context {W : WkProto} {S : Type} {N : RpcNode S}.

Definition mapped {A T} (f : A -> rpc_answer) (r : T * option A) : T * option rpc_answer := (fst r, f <$> snd r).

(** The request for a call. *)
Definition client {Net} (request : Net -> Z -> string -> bytes -> Net * option bytes) (net : Net) (id : Z) (c : rpc_call)
    : Net * option rpc_answer :=
  match c with
  | ProposeToChannel i t reqs => mapped Proposed (RequestChannelProposeBatchUntilApplied request net id i t reqs)
  | ProposeToSlot i reqs => mapped Proposed (RequestSlotProposeBatchUntilApplied request net id i reqs)
  | GetOrCreateConfig i t => mapped ConfigIs (RequestGetOrCreateChannelClusterConfig request net id i t)
  | GetConfig i t => mapped ConfigIs (RequestGetChannelClusterConfig request net id i t)
  | SlotLogs ids => mapped SlotLogsAre (RequestSlotLastLogInfo request net id (mkSlotLogReq ids))
  | WakeLeader cfg => mapped (fun _ => Done) (RequestWakeLeaderIfNeed request net id cfg)
  | SwitchChannel cfg => mapped (fun _ => Done) (RequestChannelSwitchConfig request net id cfg)
  | ChannelLog i t => mapped ChannelLogIs (RequestChannelLastLogInfo request net id i t)
  end.

(** The call on the node: a configuration travels without its id. *)
Definition local (s : S) (c : rpc_call) : S * option rpc_answer :=
  match c with
  | ProposeToChannel i t reqs => mapped Proposed (r_proposeChannel s i t reqs)
  | ProposeToSlot i reqs => mapped Proposed (r_proposeSlot s i reqs)
  | GetOrCreateConfig i t => mapped (fun cfg => ConfigIs (stored_config cfg)) (r_getOrCreateConfig s i t)
  | GetConfig i t =>
      mapped (fun cfg => ConfigIs (stored_config (default EmptyChannelClusterConfig cfg))) (r_GetChannelClusterConfig s i t)
  | SlotLogs ids =>
      let '(s, infos) := r_slotInfos s ids in (s, Some (SlotLogsAre (mkSlotLogResp (r_NodeId s) infos)))
  | WakeLeader cfg =>
      if negb (cl_LeaderId cfg =? r_NodeId s) then (s, Some Done)
      else let '(s, ok) := r_WakeLeaderIfNeed s (stored_config cfg) in (s, if ok then Some Done else None)
  | SwitchChannel cfg => let '(s, ok) := r_SwitchConfig s (stored_config cfg) in (s, if ok then Some Done else None)
  | ChannelLog i t => mapped ChannelLogIs (getChannelLastLogInfo s i t)
  end.

Definition call_fits (c : rpc_call) : Prop :=
  match c with
  | ProposeToChannel i t reqs => str_fits i /\ is_u8 t /\ reqs_fit reqs
  | ProposeToSlot i reqs => is_u32 i /\ reqs_fit reqs
  | GetOrCreateConfig i t | GetConfig i t | ChannelLog i t => str_fits i /\ is_u8 t
  | SlotLogs ids => ids_fit ids
  | WakeLeader cfg | SwitchChannel cfg => config_fits cfg
  end.

(** The answers of a node fit their width; those of [local] do if and only if they did before
    they were sent. *)
Definition answer_fits (a : rpc_answer) : Prop :=
  match a with
  | Proposed l => resps_fit l
  | ConfigIs cfg => config_fits cfg
  | SlotLogsAre r => is_u64 (sr_NodeId r) /\ slotInfos_fit (sr_Slots r)
  | Done => True
  | ChannelLogIs r => lastLog_fits r
  end.
End Calls.

Section Transparent.
Context {W : WkProto} {WL : WkProtoLaws W} {S : Type} {N : RpcNode S}.
Implicit Types net : gmap Z S.

(** A request that is answered by a handler. *)
Lemma asking_deliver {A} fates hops net id s path h data (dec : bytes -> option A) :
  net !! id = Some s -> bool_decide (path = "/rpc/cluster/join") = false -> route path = Some h ->
  asking (deliver fates (Datatypes.S hops)) net id path data dec =
    match fates id path with
    | Delivered => (<[id := fst (h s data)]> net, snd (h s data) ≫= dec)
    | RequestLost => (net, None)
    | AnswerLost => (<[id := fst (h s data)]> net, None)
    end.
Proof.
  intros Hs Hj Hr. unfold asking. cbn [deliver]. rewrite Hs, Hj, Hr.
  destruct (h s data) as [s' r]. by destruct (fates id path).
Qed.

(** How a request ends: as the call, without it, or without its answer. *)
Inductive ends {X} (net : gmap Z S) (id : Z) (called : S * option X) : gmap Z S * option X -> Prop :=
| ends_called : ends net id called (<[id := fst called]> net, snd called)
| ends_request_lost : ends net id called (net, None)
| ends_answer_lost : ends net id called (<[id := fst called]> net, None).

(** What a handler does, as the call. *)
Lemma request_ends {A} fates hops net id s path h data (dec : bytes -> option A) f called :
  net !! id = Some s -> bool_decide (path = "/rpc/cluster/join") = false -> route path = Some h ->
  fst (h s data) = fst called /\ f <$> (snd (h s data) ≫= dec) = snd called ->
  ends net id called (mapped f (asking (deliver fates (Datatypes.S hops)) net id path data dec)) /\
  ((forall p, fates id p = Delivered) ->
   mapped f (asking (deliver fates (Datatypes.S hops)) net id path data dec) = (<[id := fst called]> net, snd called)).
Proof.
  intros Hs Hj Hr [E1 E2]. erewrite asking_deliver by done. unfold mapped. split.
  - destruct (fates id path); cbn [fst snd]; rewrite ?E1, ?E2; constructor.
  - intros ->. cbn [fst snd]. by rewrite E1, E2.
Qed.

(** An answer that is read back. *)
Lemma sent {A B T} (s : T) (enc : A -> bytes) (dec : bytes -> option B) (f : B -> rpc_answer) (g : A -> rpc_answer)
    (r : option A) :
  (forall a, r = Some a -> answer_fits (g a) -> f <$> dec (enc a) = Some (g a)) ->
  (forall a, g <$> r = Some a -> answer_fits a) ->
  fst (s, enc <$> r) = fst (mapped g (s, r)) /\ f <$> (snd (s, enc <$> r) ≫= dec) = snd (mapped g (s, r)).
Proof. destruct r as [a|]; [|done]. intros H Ha. split; [done|]. simpl. rewrite H; auto. Qed.

(** Every request that a node answers itself is the call. *)
Lemma client_ends fates hops net id s c :
  net !! id = Some s -> call_fits c -> (forall a, snd (local s c) = Some a -> answer_fits a) ->
  ends net id (local s c) (client (deliver fates (Datatypes.S hops)) net id c) /\
  ((forall p, fates id p = Delivered) ->
   client (deliver fates (Datatypes.S hops)) net id c = (<[id := fst (local s c)]> net, snd (local s c))).
Proof.
  intros Hs Hc Ha. destruct c; cbn [client]; (eapply request_ends; [done|reflexivity|reflexivity|]);
    cbn [local call_fits] in *.
  - unfold handleChannelPropose. destruct Hc as (H1 & H2 & H3). rewrite channelPropose_reads by done.
    cbn [hp_channelId hp_channelType hp_reqs]. destruct (r_proposeChannel _ _ _ _) as [s' r].
    apply sent; [|done]. intros a _ []. by rewrite ProposeRespSet_reads.
  - unfold handleSlotPropose. destruct Hc as (H1 & H2). rewrite slotPropose_reads by done.
    cbn [sp_SlotId sp_reqs]. destruct (r_proposeSlot _ _ _) as [s' r].
    apply sent; [|done]. intros a _ []. by rewrite ProposeRespSet_reads.
  - unfold handleGetOrCreateChannelConfig. destruct Hc as (H1 & H2). rewrite channelReq_reads by done.
    cbn [cr_channelId cr_channelType]. destruct (r_getOrCreateConfig _ _ _) as [s' r].
    apply (sent s' _ _ _ (fun cfg => ConfigIs (stored_config cfg))); [|done].
    intros a _ Hf. by rewrite ClusterConfig_reads.
  - unfold handleChannelConfig. destruct Hc as (H1 & H2). rewrite channelReq_reads by done.
    cbn [cr_channelId cr_channelType]. destruct (r_GetChannelClusterConfig _ _ _) as [s' r].
    apply (sent s' _ _ _ (fun cfg => ConfigIs (stored_config (default EmptyChannelClusterConfig cfg)))); [|done].
    intros a _ Hf. by rewrite ClusterConfig_reads.
  - unfold handleSlotLastLogInfo. rewrite SlotLogReq_reads by done. cbn [sq_SlotIds].
    destruct (r_slotInfos _ _) as [s' infos]. destruct (Ha _ eq_refl) as [H1 H2]. split; [done|].
    simpl. by rewrite SlotLogResp_reads.
  - unfold handleWakeLeaderIfNeed. rewrite ClusterConfig_reads by done. cbn [stored_config cl_LeaderId].
    destruct (negb _); [done|]. destruct (r_WakeLeaderIfNeed _ _) as [s' []]; done.
  - unfold handleChannelSwitchConfig. rewrite ClusterConfig_reads by done. destruct (r_SwitchConfig _ _) as [s' []]; done.
  - unfold handleChannelLastLogInfo. destruct Hc as (H1 & H2). rewrite channelReq_reads by done.
    cbn [cr_channelId cr_channelType]. destruct (getChannelLastLogInfo _ _ _) as [s' r].
    apply sent; [|done]. intros a _ Hf. by rewrite LastLog_reads.
Qed.
End Transparent.

(** ** Joining *)

Section Joining.
Context {W : WkProto} {WL : WkProtoLaws W} {S : Type} {N : RpcNode S}.
Implicit Types net : gmap Z S.

(** A request to [id] is passed on [n] times until it is at the leader [l]. *)
Inductive leads_to net : Z -> nat -> Z -> Prop :=
| leads_here id s : net !! id = Some s -> r_IsLeader s = true -> leads_to net id O id
| leads_on id s n l :
    net !! id = Some s -> r_IsLeader s = false -> leads_to net (r_LeaderId s) n l -> leads_to net id (Datatypes.S n) l.

(** The node that the leader proposes. *)
Definition joining (s : S) (req : ClusterJoinReq) : CNode :=
  mkCNode (jq_NodeId req) (jq_ServerAddr req) "" true true 0 0 (bool_decide (jq_Role req = NodeRoleReplica))
    (jq_Role req) NodeStatusWillJoin (r_now s).
(** The nodes that the leader knows. *)
Definition known_nodes (s : S) : list NodeInfo := map (fun n => mkNodeInfo (nd_Id n) (nd_ClusterAddr n)) (r_Nodes s).

(** What the leader does with a request to join. *)
Definition joined (s : S) (req : ClusterJoinReq) : S * option ClusterJoinResp :=
  let '(s', ok) := r_ProposeJoin s (joining s req) in (s', if ok then Some (mkJoinResp (known_nodes s)) else None).
(** The nodes that the leader knows fit their encoding. *)
Definition knows_few (s : S) : Prop := len (r_Nodes s) < two16 /\ Forall nodeInfo_fits (known_nodes s).

Lemma joined_answer s req : knows_few s -> (ClusterJoinResp_Marshal <$> snd (joined s req)) ≫= ClusterJoinResp_Unmarshal = snd (joined s req).
Proof.
  intros [H1 H2]. unfold joined. destruct (r_ProposeJoin s _) as [s' []]; [|done]. cbn. apply JoinResp_reads; [|done].
  cbn. unfold known_nodes. by rewrite length_map.
Qed.

(** What the server of a node does with it: the leader proposes the node, another one asks the
    leader it knows. *)
Lemma join_at_leader request net id s req : joinReq_fits req -> r_IsLeader s = true ->
  handleClusterJoin request net id s (ClusterJoinReq_Marshal req) =
    (<[id := fst (joined s req)]> net, ClusterJoinResp_Marshal <$> snd (joined s req)).
Proof.
  intros Hr Hl. unfold handleClusterJoin, joined. rewrite JoinReq_reads, Hl by done. cbn [negb]. fold (joining s req).
  by destruct (r_ProposeJoin s _) as [s' []].
Qed.
Lemma join_passed_on request net id s req : joinReq_fits req -> r_IsLeader s = false ->
  handleClusterJoin request net id s (ClusterJoinReq_Marshal req) =
    (fst (RequestClusterJoin request net (r_LeaderId s) req), ClusterJoinResp_Marshal <$> snd (RequestClusterJoin request net (r_LeaderId s) req)).
Proof.
  intros Hr Hl. unfold handleClusterJoin. rewrite JoinReq_reads, Hl by done. cbn [negb]. by destruct (RequestClusterJoin _ _ _ _).
Qed.
Lemma asking_join fates hops net id s req : net !! id = Some s ->
  RequestClusterJoin (deliver fates (Datatypes.S hops)) net id req =
    let '(net', r) := handleClusterJoin (deliver fates hops) net id s (ClusterJoinReq_Marshal req) in
    match fates id "/rpc/cluster/join" with
    | Delivered => (net', r ≫= ClusterJoinResp_Unmarshal)
    | RequestLost => (net, None)
    | AnswerLost => (net', None)
    end.
Proof.
  intros Hs. unfold RequestClusterJoin, asking. cbn [deliver]. rewrite Hs.
  change (bool_decide ("/rpc/cluster/join" = "/rpc/cluster/join")) with true.
  destruct (handleClusterJoin _ _ _ _ _) as [net' r]. by destruct (fates id _).
Qed.

(** A node that asks any node to join is proposed by the leader and learns the nodes of the
    cluster, unless something is lost or the request is passed on too often. *)
Lemma join_ends fates hops net id n l s req : leads_to net id n l -> net !! l = Some s -> joinReq_fits req -> knows_few s ->
  ends net l (joined s req) (RequestClusterJoin (deliver fates hops) net id req) /\
  ((forall i p, fates i p = Delivered) -> (n < hops)%nat ->
   RequestClusterJoin (deliver fates hops) net id req = (<[l := fst (joined s req)]> net, snd (joined s req))).
Proof.
  intros Hl Hs Hr Hk. revert hops. induction Hl as [id s' Hi Hlead|id s' n l Hi Hlead Hl IH]; intros [|hops].
  1, 3: by split; [apply ends_request_lost|intros _ ?; lia].
  - assert (s' = s) as -> by congruence. rewrite (asking_join _ _ _ _ s) by done. rewrite join_at_leader by done. cbv beta iota. split.
    + destruct (fates id _); [rewrite joined_answer by done|..]; constructor.
    + intros -> _. by rewrite joined_answer.
  - rewrite (asking_join _ _ _ _ s') by done. rewrite join_passed_on by done. cbv beta iota. specialize (IH Hs hops) as [IH1 IH2]. split.
    + destruct (RequestClusterJoin _ _ _ _) as [net' r] eqn:E. cbn [fst snd]. inversion IH1; subst.
      * destruct (fates id _); [rewrite joined_answer by done|..]; constructor.
      * destruct (fates id _); constructor.
      * destruct (fates id _); constructor.
    + intros Hf Hlt. rewrite Hf, IH2 by (done || lia). cbn [fst snd]. by rewrite joined_answer.
Qed.

(** *** Listing logs *)

(** The logs a node lists: none is an error. *)
Definition listed (s : S) (req : clusterLogsReq) : option (list Log) :=
  let limit := if (lq_Limit req =? 0) || (1000 <? lq_Limit req) then 1000 else lq_Limit req in
  match r_GetLogs s (lq_OrderDesc req) (lq_StartLogIndex req) (lq_EndLogIndex req) limit with
  | Some (log :: logs) => Some (listed_log <$> log :: logs)
  | _ => None
  end.
Definition lists_fit (maxLogs : Z) (s : S) : Prop := forall desc start fin limit logs, r_GetLogs s desc start fin limit = Some logs ->
  len logs < two63 /\ len logs <= maxLogs /\
  Forall (fun log => is_u64 (log_Index log) /\ is_u32 (log_Term log) /\ len (log_Data log) < two32) logs.

Lemma logs_listed fates hops net id s maxLogs req : Uint64 [] = None -> net !! id = Some s -> logsReq_fits req -> lists_fit maxLogs s ->
  RequestClusterLogs (deliver fates (Datatypes.S hops)) maxLogs net id req =
    Ok (net, match fates id "/rpc/cluster/logs" with Delivered => listed s req | _ => None end).
Proof.
  intros He Hs Hr Hf. unfold RequestClusterLogs. cbn [deliver]. rewrite Hs.
  change (bool_decide ("/rpc/cluster/logs" = "/rpc/cluster/join")) with false. cbv iota.
  change (route "/rpc/cluster/logs") with (Some (handleClusterLogs (N := N))). unfold handleClusterLogs. rewrite LogsReq_reads by done. cbv zeta beta iota.
  rewrite insert_id by done. unfold listed. cbv zeta. destruct (fates id _); [|done..].
  destruct (r_GetLogs _ _ _ _ _) as [[|log logs]|] eqn:E; cbn [fmap option_fmap option_map]; [|apply Hf in E as (H1 & H2 & H3); by rewrite logSet_reads|done].
  unfold logSet_decode. by rewrite He.
Qed.
End Joining.

(** ** Claims *)

Module RpcProps.

(** A node for the examples: its number and the proposals it has taken. *)
Definition demo := (Z * list ProposeReq)%type.
#[export] Instance demo_node : RpcNode demo := {|
  r_NodeId := fst;
  r_proposeChannel s i t reqs := (s, None);
  r_proposeSlot s i reqs :=
    ((fst s, snd s ++ reqs), Some (imap (fun k r => mkProposeResp (preq_Id r) (len (snd s) + Z.of_nat k + 1)) reqs));
  r_getOrCreateConfig s i t := (s, None);
  r_GetChannelClusterConfig s i t := (s, Some None);
  r_slotInfos s ids := (s, map (fun i => mkSlotInfo i (len (snd s)) 1 1) ids);
  r_WakeLeaderIfNeed s cfg := (s, true);
  r_SwitchConfig s cfg := (s, true);
  r_LastLogIndexAndTerm s i t := (s, Some (1, len (snd s)));
  r_IsLeader s := fst s =? 1;
  r_LeaderId s := 1;
  r_Nodes s := [];
  r_ProposeJoin s n := (s, true);
  r_now s := 0;
  r_GetLogs s desc a b limit := Some (if len (snd s) <? 1 then [] else [{| EmptyLog with log_Id := 7; log_Index := 2; log_Term := 1 |}])
|}.

(** C33. Requests are calls. The ten requests between nodes, over a transport that delivers
    a request and its answer, or loses one of them. Eight of them the node that is asked
    answers itself: when nothing is lost the request runs the call on that node with the
    arguments that were sent and returns its answer; whatever is lost, it ends so or with an
    error after which the call has run or not, and no other node changes. A request to join
    is passed on until it is at the leader, if the nodes lead there, which proposes the node
    and answers with the nodes it knows; whatever is lost, it ends so or with an error after
    which the node was proposed or not, and no other node changes. A request for logs
    changes nothing and returns the logs with index, term and data, or an error if there are
    none or something is lost. A request to a node that is not known is an error. Arguments
    and answers fit their encoding, and the client can allocate the logs that are listed. *)
Theorem requests_are_calls {W : WkProto} {WL : WkProtoLaws W} {S : Type} {N : RpcNode S} fates hops (net : gmap Z S) id :
  let request := deliver fates (Datatypes.S hops) in
  (forall c, call_fits c -> (forall s a, net !! id = Some s -> snd (local s c) = Some a -> answer_fits a) ->
   match net !! id with
   | None => client request net id c = (net, None)
   | Some s =>
       ends net id (local s c) (client request net id c) /\
       ((forall p, fates id p = Delivered) -> client request net id c = (<[id := fst (local s c)]> net, snd (local s c)))
   end) /\
  (forall n l s req, leads_to net id n l -> net !! l = Some s -> joinReq_fits req -> knows_few s ->
     ends net l (joined s req) (RequestClusterJoin request net id req) /\
     ((forall i p, fates i p = Delivered) -> (n <= hops)%nat ->
      RequestClusterJoin request net id req = (<[l := fst (joined s req)]> net, snd (joined s req)))) /\
  (forall maxLogs s req, Uint64 [] = None -> net !! id = Some s -> logsReq_fits req -> lists_fit maxLogs s ->
     RequestClusterLogs request maxLogs net id req =
       Ok (net, match fates id "/rpc/cluster/logs" with Delivered => listed s req | _ => None end)).
Proof.
  cbv zeta. split_and!.
  - intros c Hc Ha. destruct (net !! id) as [s|] eqn:Hs; [apply client_ends; eauto|].
    destruct c; cbn [client mapped]; unfold RequestChannelProposeBatchUntilApplied, RequestSlotProposeBatchUntilApplied,
      RequestGetOrCreateChannelClusterConfig, RequestGetChannelClusterConfig, RequestSlotLastLogInfo,
      RequestWakeLeaderIfNeed, RequestChannelSwitchConfig, RequestChannelLastLogInfo, asking; cbn [deliver]; by rewrite Hs.
  - intros n l s req Hl Hs Hr Hk. destruct (join_ends fates (Datatypes.S hops) net id n l s req Hl Hs Hr Hk) as [H1 H2].
    split; [done|]. intros Hf Hn. apply H2; [done|lia].
  - intros maxLogs s req. apply logs_listed.
Qed.

Definition demo_net : gmap Z demo := {[1 := (1, []); 2 := (2, [mkProposeReq 7 []])]}.
Definition demo_call : rpc_call := ProposeToSlot 3 [mkProposeReq 8 []; mkProposeReq 9 []].

Lemma requests_are_calls_witness :
  client (deliver (fun _ _ => Delivered) 2) demo_net 2 demo_call =
  ({[1 := (1, []); 2 := (2, [mkProposeReq 7 []; mkProposeReq 8 []; mkProposeReq 9 []])]},
   Some (Proposed [mkProposeResp 8 2; mkProposeResp 9 3])) /\
  snd (RequestClusterJoin (deliver (fun _ _ => Delivered) 2) demo_net 2 (mkJoinReq 5 "n5" NodeRoleProxy)) = Some (mkJoinResp []) /\
  RequestClusterLogs (deliver (fun _ _ => Delivered) 2) 1000 demo_net 2 (mkLogsReq 2 3 10 false 1) =
    Ok (demo_net, Some [{| EmptyLog with log_Index := 2; log_Term := 1 |}]).
Proof.
  destruct (requests_are_calls (fun _ _ => Delivered) 1 demo_net 2) as (Hcall & Hjoin & Hlogs).
  destruct (Hcall demo_call) as [_ H].
  - split; [done|]. split; [repeat constructor; done|done].
  - intros s a [= <-] [= <-]. split; [repeat constructor; done|done].
  - split; [rewrite H by done; by vm_compute|].
    destruct (Hjoin 1%nat 1 (1, []) (mkJoinReq 5 "n5" NodeRoleProxy)) as [_ Hj].
    + apply (leads_on _ _ (2, [mkProposeReq 7 []])); [done..|]. by apply (leads_here _ _ (1, [])).
    + done.
    + split_and!; done.
    + by split.
    + rewrite Hj by (done || lia). split; [done|]. rewrite (Hlogs 1000 (2, [mkProposeReq 7 []])); [done|done|done|by split_and!|].
      intros desc start fin limit logs. cbn. destruct (_ <? _); intros [= <-]; (split_and!; [done|done|]); [apply Forall_nil_2|].
      by apply Forall_singleton.
Defined.

(** A node without logs in the range that is asked for answers with an empty body, which the
    client cannot decode: it reports an error instead of an empty list. *)
Lemma no_logs_is_an_error :
  snd (handleClusterLogs (N := demo_node) (1, []) (clusterLogsReq_encode (mkLogsReq 1 2 10 false 1))) = Some [] /\
  logSet_decode 1000 [] = Ok None.
Proof. by vm_compute. Qed.

(** The client allocates as many logs as the first eight bytes of the answer say, and panics
    if there are too many. *)
Lemma log_count_panics : logSet_decode 1000000 (WriteUint64 (two64 - 1)) = Panic.
Proof. by vm_compute. Qed.

(** Waking a node that is not the leader of the configuration does nothing, and is no error. *)
Lemma wake_of_a_follower :
  client (deliver (fun _ _ => Delivered) 1) ({[2 := (2, [])]} : gmap Z demo) 2
    (WakeLeader {| EmptyChannelClusterConfig with cl_LeaderId := 1 |}) = ({[2 := (2, [])]}, Some Done).
Proof. by vm_compute. Qed.
End RpcProps.
