(* ===== verification/ClusterElection.v ===== *)
(** * Elections by logs

    [pkg/cluster/cluster]: the leader of the configuration elects the leaders of the slots
    whose leader is gone ([election_slot.go]), and the leader of a slot makes and repairs the
    configurations of its channels ([election_channel.go]).  Both ask the replicas for their
    last log and choose the newest.

    Go iterates over a map in an unspecified order ([MapRange]), the answers of the replicas
    arrive in any order ([arrive]), and [rand.Shuffle] is any permutation ([shuffle]).  What a
    node answers is an argument ([None] when the request fails). *)

From S2P Require Import Prelude RaftTypes RaftNode WkProto RaftCodec ClusterConfig ClusterConfigLaws ClusterCommands ClusterEvents.
From S2P Require Import WkMembers WkModel GroupList RaftGroup KeyBytes WkKv SlotServer ClusterRpc.
From S2P Require SlotStorage.

(** ** What a node knows of its slots *)

Section SlotInfos.
Context {W : WkProto} {DB : Type} {P : Pebble DB}.

(** [pkg/cluster/slot/server.go] [(s *Server) GetSlotRaft] *)
Definition GetSlotRaft (s : @SlotServer DB) (slotId : Z) : res (option Node) :=
  let! key := GetRaft (sv_raftGroup s) (SlotIdToKey slotId) in
  match key with
  | None => Ok None
  | Some key => let! n := node_of (sv_raftGroup s) key in Ok (Some n)
  end.

(** [pkg/cluster/cluster/election_slot.go] [lines 177-191]

    One slot: nothing if there is no raft, or the storage fails. *)
Definition slotInfo (s : @SlotServer DB) (slotId : Z) : res (option SlotInfo) :=
  let! st := GetSlotRaft s slotId in
  match st with
  | None => Ok None
  | Some st =>
      let! lastLog := SlotServer_LastLog s slotId in
      match lastLog with
      | None => Ok None
      | Some lastLog =>
          let! term := LastTerm st in
          Ok (Some (mkSlotInfo slotId (log_Index lastLog) (log_Term lastLog) term))
      end
  end.

(** [pkg/cluster/cluster/election_slot.go] [(s *Server) slotInfos]

    [rpcServer.slotInfos] is the same function. *)
Fixpoint slotInfos (s : @SlotServer DB) (slotIds : list Z) : res (list SlotInfo) :=
  match slotIds with
  | [] => Ok []
  | slotId :: slotIds =>
      let! info := slotInfo s slotId in
      let! infos := slotInfos s slotIds in
      Ok (match info with Some info => info :: infos | None => infos end)
  end.
End SlotInfos.

(** ** The slots *)

Section SlotElection.
Context {R : MapRange}.

(** [m[k] = append(m[k], x)] on a map of lists. *)
Definition push (m : gmap Z (list Z)) (k x : Z) : gmap Z (list Z) := <[k := default [] (m !! k) ++ [x]]> m.

(** [pkg/cluster/cluster/election_slot.go] [lines 36-51]

    The replicas of one slot; [None] when a replica has an older configuration, which ends
    the election. *)
Fixpoint electionReplicas (cfg : CConfig) (versions : Z -> Z) (slotId : Z) (replicas : list Z) (m : gmap Z (list Z))
    : option (gmap Z (list Z)) :=
  match replicas with
  | [] => Some m
  | replicaId :: replicas =>
      if negb (nodeOnline cfg replicaId) then electionReplicas cfg versions slotId replicas m
      else if versions replicaId <? cc_Version cfg then None
      else electionReplicas cfg versions slotId replicas (push m replicaId slotId)
  end.

(** [pkg/cluster/cluster/election_slot.go] [lines 31-53] *)
Fixpoint electionSlots (cfg : CConfig) (versions : Z -> Z) (slots : list Slot) (m : gmap Z (list Z)) (ids : list Z)
    : option (gmap Z (list Z) * list Z) :=
  match slots with
  | [] => Some (m, ids)
  | slot :: slots =>
      if negb (bool_decide (sl_Status slot = SlotStatusCandidate)) then electionSlots cfg versions slots m ids
      else
        m ← electionReplicas cfg versions (sl_Id slot) (sl_Replicas slot) m;
        electionSlots cfg versions slots m (ids ++ [sl_Id slot])
  end.

(** [pkg/cluster/cluster/election_slot.go] [(s *Server) requestSlotInfos]

    [own]: the slots of this node; [remote]: the answer of another one. *)
Definition requestSlotInfos (nodeId : Z) (own : list Z -> list SlotInfo) (remote : Z -> list Z -> option SlotLogInfoResp)
    (arrive : list SlotLogInfoResp -> list SlotLogInfoResp) (waitElectionSlots : gmap Z (list Z)) : list SlotLogInfoResp :=
  arrive (omap (fun '(id, slotIds) =>
                  if id =? nodeId then Some (mkSlotLogResp id (own slotIds)) else remote id slotIds)
               (range 0 waitElectionSlots)).

(** [pkg/cluster/cluster/election_slot.go] [lines 202-208]

    How many answers there are for a slot. *)
Definition slotQuorumMap (resps : list SlotLogInfoResp) : gmap Z Z :=
  foldl (fun m resp => foldl (fun m info => <[si_SlotId info := cnt m (si_SlotId info) + 1]> m) m (sr_Slots resp)) ∅ resps.

(** [pkg/cluster/cluster/election_slot.go] [(s *Server) collectSlotLogInfo] *)
Definition collectSlotLogInfo (opts : COptions) (resps : list SlotLogInfoResp) : gmap Z (gmap Z SlotInfo) :=
  let quorum := o_SlotMaxReplicaCount opts / 2 + 1 in
  let counts := slotQuorumMap resps in
  foldl (fun m resp =>
           <[sr_NodeId resp :=
               foldl (fun infos info => if cnt counts (si_SlotId info) <? quorum then infos else <[si_SlotId info := info]> infos)
                 ∅ (sr_Slots resp)]> m)
    ∅ resps.

(** The candidate that leads so far: [expectLeader], [lastLogIndex], [lastLogTerm] and
    [leaderTerm]. *)
Record front := mkFront { fr_leader : Z; fr_index : Z; fr_logTerm : Z; fr_term : Z }.
Definition front_of (id : Z) (i : SlotInfo) : front := mkFront id (si_LogIndex i) (si_LogTerm i) (si_Term i).

(** [pkg/cluster/cluster/election_slot.go] [lines 244-256]

    The node that a transfer is for comes first, if it has answered. *)
Fixpoint expected (slotId expectLeader : Z) (infos : list (Z * gmap Z SlotInfo)) : front :=
  match infos with
  | [] => mkFront 0 0 0 0
  | (replicaId, logIndexMap) :: infos =>
      match logIndexMap !! slotId with
      | None => expected slotId expectLeader infos
      | Some slotInfo => if replicaId =? expectLeader then front_of replicaId slotInfo else expected slotId expectLeader infos
      end
  end.

(** [pkg/cluster/cluster/election_slot.go] [lines 270-297]

    One candidate. *)
Definition candidate (f : front) (replicaId : Z) (c : SlotInfo) : front :=
  if fr_leader f =? 0 then front_of replicaId c
  else if si_Term c <? fr_term f then f
  else if fr_logTerm f <? si_LogTerm c then front_of replicaId c
  else if (si_LogTerm c =? fr_logTerm f) && (fr_index f <? si_LogIndex c) then front_of replicaId c
  else f.

(** [pkg/cluster/cluster/election_slot.go] [(s *Server) electionSlotLeaderBySlot]

    [i] counts the iterations over the map. *)
Definition electionSlotLeaderBySlot (cfg : CConfig) (i : nat) (infos : gmap Z (gmap Z SlotInfo)) (slotId : Z) : Z :=
  let start :=
    match slot cfg slotId with
    | Some st =>
        if negb (sl_ExpectLeader st =? 0) && negb (sl_ExpectLeader st =? sl_Leader st)
        then expected slotId (sl_ExpectLeader st) (range (2 * i + 1) infos) else mkFront 0 0 0 0
    | None => mkFront 0 0 0 0
    end in
  fr_leader (foldl (fun f '(replicaId, logIndexMap) =>
                      match logIndexMap !! slotId with None => f | Some c => candidate f replicaId c end)
               start (range (2 * i + 2) infos)).

(** [pkg/cluster/cluster/election_slot.go] [(s *Server) calculateSlotLeader] *)
Fixpoint calculateSlotLeader (cfg : CConfig) (i : nat) (infos : gmap Z (gmap Z SlotInfo)) (slotIds : list Z) (m : gmap Z Z)
    : gmap Z Z :=
  match slotIds with
  | [] => m
  | slotId :: slotIds =>
      calculateSlotLeader cfg (S i) infos slotIds (<[slotId := electionSlotLeaderBySlot cfg i infos slotId]> m)
  end.

(** [pkg/cluster/cluster/election_slot.go] [lines 103-113]

    The slot with its new leader. *)
Definition electedSlot (slot : Slot) (newLeaderId : Z) : Slot :=
  let newSlot := {| slot with sl_Leader := newLeaderId; sl_Term := u32 (sl_Term slot + 1); sl_ExpectLeader := 0;
                      sl_Status := SlotStatusNormal |} in
  if negb (sl_MigrateTo newSlot =? 0) && (sl_MigrateTo newSlot =? newLeaderId)
  then {| newSlot with sl_MigrateFrom := 0; sl_MigrateTo := 0; sl_Learners := RemoveUint64 (sl_Learners newSlot) newLeaderId |}
  else newSlot.

(** [pkg/cluster/cluster/election_slot.go] [lines 85-117] *)
Definition newSlots (slots : list Slot) (leaders : list (Z * Z)) : list Slot :=
  omap (fun '(slotId, newLeaderId) =>
          if newLeaderId =? 0 then None
          else match find (is_slot slotId) slots with
               | None => None
               | Some slot => if sl_Leader slot =? newLeaderId then None else Some (electedSlot slot newLeaderId)
               end) leaders.

Section Elect.
Context (opts : COptions) (versions : Z -> Z) (own : list Z -> list SlotInfo) (remote : Z -> list Z -> option SlotLogInfoResp).
Context (arrive : list SlotLogInfoResp -> list SlotLogInfoResp).

(** [pkg/cluster/cluster/election_slot.go] [(s *Server) handleSlotElection]

    The slots that are proposed. *)
Definition handleSlotElection (cfg : CConfig) (slots : list Slot) : list Slot :=
  match electionSlots cfg versions slots ∅ [] with
  | None => []
  | Some (waiting, slotIds) =>
      if bool_decide (waiting = ∅) then []
      else
        let resps := requestSlotInfos (o_NodeId opts) own remote arrive waiting in
        if len resps =? 0 then []
        else
          let infos := collectSlotLogInfo opts resps in
          newSlots slots (range (2 * length slotIds + 1) (calculateSlotLeader cfg 0 infos slotIds ∅))
  end.

(** [pkg/cluster/cluster/election_slot.go] [(s *Server) OnSlotElection] *)
Definition OnSlotElection (propose : CServer -> ccmd -> option CServer) (s : CServer) (slots : list Slot) : CServer :=
  match handleSlotElection (cs_cfg s) slots with
  | [] => s
  | new => default s (propose s (CSlotUpdate new))
  end.
End Elect.
End SlotElection.

(** ** The channels *)

Section ChannelElection.
Context {R : MapRange}.

(** [pkg/cluster/cluster/election_channel.go] [lines 182-200]

    One candidate. *)
Definition channelCandidate (f : front) (replicaId : Z) (c : ChannelLastLogInfoResponse) : front :=
  let next := mkFront replicaId (lr_LogIndex c) (lr_LogTerm c) (lr_Term c) in
  if lr_Term c <? fr_term f then f
  else if fr_logTerm f <? lr_LogTerm c then next
  else if (lr_LogTerm c =? fr_logTerm f) && (fr_index f <? lr_LogIndex c) then next
  else f.

(** [pkg/cluster/cluster/election_channel.go] [(s *Server) electionNewLeader] *)
Definition electionNewLeader (infos : gmap Z ChannelLastLogInfoResponse) : Z :=
  fr_leader (foldl (fun f '(replicaId, c) => channelCandidate f replicaId c) (mkFront 0 0 0 0) (range 0 infos)).

(** [pkg/cluster/cluster/election_channel.go] [(s *Server) requestChannelLastLogInfos]

    [lastLog]: what a node answers, or this node finds. *)
Definition requestChannelLastLogInfos (lastLog : Z -> option ChannelLastLogInfoResponse) (replicas : list Z)
    : gmap Z ChannelLastLogInfoResponse :=
  foldl (fun m nodeId => match lastLog nodeId with Some resp => <[nodeId := resp]> m | None => m end) ∅ replicas.

(** [pkg/cluster/cluster/election_channel.go] [(s *Server) switchLeaderIfNeed]

    The configuration with a new leader; [None] when it is not changed, with or without an
    error. *)
Definition switchLeaderIfNeed (cfg : CConfig) (lastLog : Z -> option ChannelLastLogInfoResponse) (c : ChannelClusterConfig)
    : option ChannelClusterConfig :=
  if negb (cl_LeaderId c =? 0) && nodeOnline cfg (cl_LeaderId c) then None
  else
    let infos := requestChannelLastLogInfos lastLog (List.filter (nodeOnline cfg) (cl_Replicas c)) in
    if Z.of_nat (size infos) =? 0 then None
    else if Z.of_nat (size infos) <? cl_ReplicaMaxCount c / 2 + 1 then None
    else
      let newLeaderId := electionNewLeader infos in
      if newLeaderId =? 0 then None
      else Some {| c with cl_LeaderId := newLeaderId; cl_Term := u32 (cl_Term c + 1) |}.

(** [pkg/cluster/cluster/election_channel.go] [lines 110-117] *)
Fixpoint addLearners (c : ChannelClusterConfig) (newReplicaIds : list Z) : ChannelClusterConfig :=
  match newReplicaIds with
  | [] => c
  | id :: rest =>
      let c := {| c with cl_MigrateFrom := id; cl_MigrateTo := id; cl_Learners := cl_Learners c ++ [id] |} in
      if cl_ReplicaMaxCount c <=? len (cl_Learners c) + len (cl_Replicas c) then c else addLearners c rest
  end.

(** [pkg/cluster/cluster/election_channel.go] [(s *Server) joinNewRepliceIfNeed] *)
Definition joinNewRepliceIfNeed (cfg : CConfig) (shuffle : list Z -> list Z) (c : ChannelClusterConfig)
    : option ChannelClusterConfig :=
  if cl_ReplicaMaxCount c <=? len (cl_Replicas c) then None
  else if 0 <? len (cl_Learners c) then None
  else
    let allowVoteNodes := allowVoteAndJoinedOnlineNodes cfg in
    if len allowVoteNodes =? 0 then None
    else if len allowVoteNodes <=? len (cl_Replicas c) then None
    else
      let newReplicaIds := List.filter (fun id => negb (ArrayContainsUint64 (cl_Replicas c) id)) (map nd_Id allowVoteNodes) in
      Some (addLearners c (shuffle newReplicaIds)).

(** [pkg/cluster/cluster/election_channel.go] [lines 276-285] *)
Fixpoint chooseReplicas (nodeId count : Z) (nodes : list Z) (replicaIds : list Z) : list Z :=
  match nodes with
  | [] => replicaIds
  | id :: nodes =>
      if id =? nodeId then chooseReplicas nodeId count nodes replicaIds
      else if count <=? len replicaIds then replicaIds
      else chooseReplicas nodeId count nodes (replicaIds ++ [id])
  end.

(** [pkg/cluster/cluster/election_channel.go] [(s *Server) createChannelClusterConfig] *)
Definition createChannelClusterConfig (opts : COptions) (cfg : CConfig) (shuffle : list Z -> list Z) (createdAt updatedAt : Z)
    (channelId : string) (channelType : Z) : option ChannelClusterConfig :=
  let allowVoteNodes := allowVoteAndJoinedOnlineNodes cfg in
  if len allowVoteNodes =? 0 then None
  else
    Some {| EmptyChannelClusterConfig with
              cl_ChannelId := channelId; cl_ChannelType := channelType;
              cl_ReplicaMaxCount := u16 (o_ChannelMaxReplicaCount opts); cl_Term := 1; cl_LeaderId := o_NodeId opts;
              cl_CreatedAt := Some createdAt; cl_UpdatedAt := Some updatedAt;
              cl_Replicas := chooseReplicas (o_NodeId opts) (o_ChannelMaxReplicaCount opts)
                               (shuffle (map nd_Id allowVoteNodes)) [o_NodeId opts] |}.

(** What the function reads and calls besides the configuration of the cluster: the leader of
    the channel's slot, the database, and the store that saves a configuration. *)
Record ChannelEnv St := mkChannelEnv {
  ce_slotLeader : option Z;
  ce_get : option (option ChannelClusterConfig);
  ce_save : St -> ChannelClusterConfig -> St * option Z;
  ce_lastLog : Z -> option ChannelLastLogInfoResponse
}.
#[global] Arguments ce_slotLeader {_}.
#[global] Arguments ce_get {_}.
#[global] Arguments ce_save {_}.
#[global] Arguments ce_lastLog {_}.

(** [pkg/cluster/cluster/election_channel.go] [lines 41-46]

    A configuration is saved, and gets the version of its log. *)
Definition saveConfig {St} (env : ChannelEnv St) (st : St) (c : ChannelClusterConfig) : St * option ChannelClusterConfig :=
  let '(st, r) := ce_save env st c in
  (st, (fun version => {| c with cl_ConfVersion := version |}) <$> r).

(** [pkg/cluster/cluster/election_channel.go] [(s *Server) getOrCreateChannelClusterConfigFromLocal] *)
Definition getOrCreateChannelClusterConfigFromLocal {St} (trimSpace : string -> string) (opts : COptions) (cfg : CConfig)
    (shuffle : list Z -> list Z) (createdAt updatedAt : Z) (env : ChannelEnv St) (st : St) (channelId : string) (channelType : Z)
    : St * option ChannelClusterConfig :=
  match ce_slotLeader env with
  | None => (st, None)
  | Some slotLeaderId =>
      if negb (o_NodeId opts =? slotLeaderId) then (st, None)
      else
        match ce_get env with
        | None => (st, None)
        | Some c =>
            let c := default EmptyChannelClusterConfig c in
            if bool_decide (trimSpace (cl_ChannelId c) = "") then
              match createChannelClusterConfig opts cfg shuffle createdAt updatedAt channelId channelType with
              | None => (st, None)
              | Some c => saveConfig env st c
              end
            else
              let joined := joinNewRepliceIfNeed cfg shuffle c in
              let c := default c joined in
              let switched := switchLeaderIfNeed cfg (ce_lastLog env) c in
              let c := default c switched in
              if bool_decide (is_Some joined) || bool_decide (is_Some switched) then saveConfig env st c else (st, Some c)
        end
  end.
End ChannelElection.
