(* ===== verification/ClusterElectionLaws.v ===== *)
(** * How an election by logs ends

    The candidate that an iteration ends with has a log that is at least as new as those of
    all others, in whatever order they come, if the terms that they report do not contradict
    their logs ([foldl_candidate], [foldl_channel]); which replicas are asked
    ([electionSlots_spec]) and counted ([collect_spec]). *)

From S2P Require Import Prelude RaftTypes RaftNode WkProto RaftCodec ClusterConfig ClusterConfigLaws ClusterCommands ClusterEvents ClusterEventsLaws.
From S2P Require Import WkMembers WkModel ClusterRpc ClusterElection.

(** ** Lists *)

Lemma in_filter {A} (p : A -> bool) l x : x ∈ List.filter p l <-> x ∈ l /\ p x = true.
Proof. by rewrite !list_elem_of_In, filter_In. Qed.

Lemma NoDup_map_filter {A B} (f : A -> B) (p : A -> bool) l : NoDup (map f l) -> NoDup (map f (List.filter p l)).
Proof.
  induction l as [|a l IH]; simpl; [done|]. intros [Ha Hn]%NoDup_cons. destruct (p a); [|by apply IH].
  simpl. apply NoDup_cons. split; [|by apply IH]. intros (x & Ex & [Hx _]%in_filter)%list_elem_of_fmap.
  apply Ha. rewrite Ex. by apply list_elem_of_fmap_2.
Qed.

(** ** Logs *)

(** A log is the term and the index of its last entry. *)
Definition logpos := (Z * Z)%type.
Definition older (a b : logpos) : Prop := fst a < fst b \/ (fst a = fst b /\ snd a <= snd b).

Lemma older_refl a : older a a.
Proof. right. lia. Qed.
Lemma older_trans a b c : older a b -> older b c -> older a c.
Proof. unfold older. lia. Qed.
Lemma older_total a b : ~ older a b -> older b a.
Proof. unfold older. lia. Qed.

Definition pos_of (i : SlotInfo) : logpos := (si_LogTerm i, si_LogIndex i).
Definition channel_pos (i : ChannelLastLogInfoResponse) : logpos := (lr_LogTerm i, lr_LogIndex i).
Definition front_pos (f : front) : logpos := (fr_logTerm f, fr_index f).

Section Fold.
Context {I : Type} (pos : I -> logpos) (term : I -> Z).

(** [known id i]: the replica [id] has answered [i].  A replica that reports an older term
    has an older log. *)
Context (known : Z -> I -> Prop).
Hypothesis terms_fit : forall a b i j, known a i -> known b j -> term i < term j -> older (pos i) (pos j).

Definition fronts (f : front) (id : Z) (i : I) : Prop :=
  fr_leader f = id /\ front_pos f = pos i /\ fr_term f = term i.

(** One candidate after a front of a known replica. *)
Definition next_front (next : Z -> I -> front) (f : front) (id : Z) (c : I) : front :=
  if term c <? fr_term f then f
  else if fr_logTerm f <? fst (pos c) then next id c
  else if (fst (pos c) =? fr_logTerm f) && (fr_index f <? snd (pos c)) then next id c
  else f.

Lemma step_newest next f a i id c :
  (forall id c, fronts (next id c) id c) -> fronts f a i -> known a i -> known id c ->
  exists b j, fronts (next_front next f id c) b j /\ known b j /\ older (pos i) (pos j) /\ older (pos c) (pos j).
Proof.
  intros Hn Hf Ha Hc. pose proof Hf as (_ & Hp & Ht). unfold next_front.
  assert (fr_logTerm f = fst (pos i) /\ fr_index f = snd (pos i)) as [-> ->] by (by rewrite <-Hp).
  rewrite Ht. destruct (Z.ltb_spec (term c) (term i)).
  { exists a, i. split; [done|]. split; [done|]. split; [apply older_refl|]. by eapply terms_fit. }
  destruct (Z.ltb_spec (fst (pos i)) (fst (pos c))).
  { exists id, c. split; [apply Hn|]. split; [done|]. split; [by left|apply older_refl]. }
  destruct (Z.eqb_spec (fst (pos c)) (fst (pos i))); cbn [andb].
  - destruct (Z.ltb_spec (snd (pos i)) (snd (pos c))).
    + exists id, c. split; [apply Hn|]. split; [done|]. split; [right; lia|apply older_refl].
    + exists a, i. split; [done|]. split; [done|]. split; [apply older_refl|]. right. lia.
  - exists a, i. split; [done|]. split; [done|]. split; [apply older_refl|]. left. lia.
Qed.

Lemma foldl_newest next f a i l :
  (forall id c, fronts (next id c) id c) -> fronts f a i -> known a i -> Forall (fun p => known (fst p) (snd p)) l ->
  exists b j, fronts (foldl (fun f p => next_front next f (fst p) (snd p)) f l) b j /\ known b j /\
    older (pos i) (pos j) /\ forall p, p ∈ l -> older (pos (snd p)) (pos j).
Proof.
  intros Hn Hf Ha Hl. revert f a i Hf Ha. induction Hl as [|[id c] l Hc _ IH]; intros f a i Hf Ha.
  { exists a, i. split_and!; [done..|apply older_refl|set_solver]. }
  destruct (step_newest next f a i id c Hn Hf Ha Hc) as (b & j & Hf' & Hb & H1 & H2).
  destruct (IH _ _ _ Hf' Hb) as (b' & j' & Hf'' & Hb' & H3 & H4). exists b', j'. split_and!; [done..| |].
  - by eapply older_trans.
  - intros p [->|Hp]%elem_of_cons; [|by apply H4]. by eapply older_trans.
Qed.
End Fold.

(** ** The slots *)

Section Slot.
Context {R : MapRange} {RL : MapRangeLaws R}.

(** What is known of a slot: the answers of the replicas. *)
Definition answers (infos : gmap Z (gmap Z SlotInfo)) (slotId id : Z) (i : SlotInfo) : Prop :=
  exists m, infos !! id = Some m /\ m !! slotId = Some i.

Lemma in_range {V} k (m : gmap Z V) x v : (x, v) ∈ range k m <-> m !! x = Some v.
Proof. rewrite (range_perm k m). apply elem_of_map_to_list. Qed.

(** The answers for a slot, in the order of an iteration. *)
Definition slot_answers (slotId : Z) (l : list (Z * gmap Z SlotInfo)) : list (Z * SlotInfo) :=
  omap (fun '(id, m) => (fun i => (id, i)) <$> (m !! slotId)) l.

Lemma slot_answers_in k infos slotId id i : (id, i) ∈ slot_answers slotId (range k infos) <-> answers infos slotId id i.
Proof.
  unfold slot_answers, answers. rewrite list_elem_of_omap. split.
  - intros ([id' m] & Hm%in_range & E). destruct (m !! slotId) as [i'|] eqn:Ei; [|done]. injection E as -> ->. by exists m.
  - intros (m & Hm & Hi). exists (id, m). split; [by apply in_range|]. by rewrite Hi.
Qed.

Lemma foldl_answers slotId f l :
  foldl (fun f '(replicaId, logIndexMap) =>
           match logIndexMap !! slotId with None => f | Some c => candidate f replicaId c end) f l =
  foldl (fun f p => candidate f (fst p) (snd p)) f (slot_answers slotId l).
Proof.
  unfold slot_answers. revert f. induction l as [|[id m] l IH]; intros f; simpl; [done|].
  destruct (m !! slotId); simpl; apply IH.
Qed.

Lemma front_of_fronts id i : fronts pos_of si_Term (front_of id i) id i.
Proof. done. Qed.

Lemma candidate_step f id c : fr_leader f <> 0 -> candidate f id c = next_front pos_of si_Term front_of f id c.
Proof. intros H. unfold candidate. by destruct (Z.eqb_spec (fr_leader f) 0). Qed.

Lemma candidate_leader f id c : fr_leader f <> 0 -> id <> 0 -> fr_leader (candidate f id c) <> 0.
Proof. intros Hf Hi. rewrite candidate_step by done. unfold next_front. repeat case_match; done. Qed.

Lemma foldl_candidate_step f l : fr_leader f <> 0 -> Forall (fun p => fst p <> 0) l ->
  foldl (fun f p => candidate f (fst p) (snd p)) f l = foldl (fun f p => next_front pos_of si_Term front_of f (fst p) (snd p)) f l.
Proof.
  intros Hf Hl. revert f Hf. induction Hl as [|p l Hp _ IH]; intros f Hf; simpl; [done|].
  rewrite <-candidate_step by done. apply IH. by apply candidate_leader.
Qed.

(** The node that is expected to lead, if it has answered. *)
Lemma expected_spec infos slotId e k :
  let f := expected slotId e (range k infos) in
  (exists i, answers infos slotId e i /\ f = front_of e i) \/ f = mkFront 0 0 0 0.
Proof.
  cbv zeta. assert (Hin : forall p, p ∈ range k infos -> infos !! fst p = Some (snd p)) by (intros []; apply in_range).
  induction (range k infos) as [|[id m] l IH]; simpl; [by right|].
  assert (IH' := IH (fun p Hp => Hin p (list_elem_of_further _ _ _ Hp))).
  destruct (m !! slotId) as [i|] eqn:Ei; [|done]. destruct (Z.eqb_spec id e) as [->|]; [|done].
  left. exists i. split; [|done]. exists m. split; [|done]. apply (Hin (e, m)). left.
Qed.

(** The leader that is elected has answered and has the newest log; there is none only without
    answers. *)
Lemma elected_newest cfg k infos slotId :
  (forall a b i j, answers infos slotId a i -> answers infos slotId b j -> si_Term i < si_Term j ->
     older (pos_of i) (pos_of j)) ->
  (forall id i, answers infos slotId id i -> id <> 0) ->
  let leader := electionSlotLeaderBySlot cfg k infos slotId in
  (leader = 0 /\ forall id i, ~ answers infos slotId id i) \/
  exists i, answers infos slotId leader i /\ forall id j, answers infos slotId id j -> older (pos_of j) (pos_of i).
Proof.
  intros Ht Hnz. cbv zeta. unfold electionSlotLeaderBySlot. rewrite foldl_answers.
  set (l := slot_answers slotId (range (2 * k + 2) infos)).
  assert (Hl : forall id i, (id, i) ∈ l <-> answers infos slotId id i) by (intros; apply slot_answers_in).
  assert (Hnz' : Forall (fun p => fst p <> 0) l).
  { apply Forall_forall. intros [id i] Hp%Hl. by eapply Hnz. }
  assert (Hk : Forall (fun p => answers infos slotId (fst p) (snd p)) l).
  { apply Forall_forall. intros [id i] Hp. by apply Hl. }
  assert (Hgo : forall f a i l', fronts pos_of si_Term f a i -> answers infos slotId a i ->
     Forall (fun p => fst p <> 0) l' -> Forall (fun p => answers infos slotId (fst p) (snd p)) l' ->
     exists j, answers infos slotId (fr_leader (foldl (fun f p => candidate f (fst p) (snd p)) f l')) j /\
       older (pos_of i) (pos_of j) /\ forall p, p ∈ l' -> older (pos_of (snd p)) (pos_of j)).
  { intros f a i l' Hf Ha Hz Hkn. rewrite foldl_candidate_step; [|destruct Hf as [-> _]; by eapply Hnz|done].
    destruct (foldl_newest pos_of si_Term (answers infos slotId) Ht front_of f a i l') as (b & j & Hb & Hj & H); try done.
    exists j. destruct Hb as [-> _]. done. }
  match goal with |- context [foldl _ ?s l] => set (start := s) end.
  assert (Hs : (exists a i, fronts pos_of si_Term start a i /\ answers infos slotId a i) \/ start = mkFront 0 0 0 0).
  { subst start. destruct (slot cfg slotId) as [st|]; [|by right]. destruct (_ && _); [|by right].
    destruct (expected_spec infos slotId (sl_ExpectLeader st) (2 * k + 1)) as [(i & Hi & ->)|E]; [|by right].
    left. by exists (sl_ExpectLeader st), i. }
  destruct Hs as [(a & i & Hf & Ha)|Hs].
  - right. destruct (Hgo start a i l Hf Ha Hnz' Hk) as (j & Hj & _ & Hall). exists j. split; [done|].
    intros id c Hc. apply (Hall (id, c)). by apply Hl.
  - clearbody start. subst start. destruct l as [|[a i] l'] eqn:El.
    { left. split; [done|]. intros id i H%Hl. by apply not_elem_of_nil in H. }
    right. apply Forall_cons in Hnz' as [Ha Hnz']. apply Forall_cons in Hk as [Hk Hk'].
    destruct (Hgo (front_of a i) a i l') as (j & Hj & Hij & Hall); try done.
    exists j. split; [done|]. intros id c Hc%Hl. apply elem_of_cons in Hc as [[= -> ->]|Hc]; [done|]. apply (Hall (id, c) Hc).
Qed.
End Slot.

(** ** Who is asked *)

Definition is_candidate (slot : Slot) : bool := bool_decide (sl_Status slot = SlotStatusCandidate).

(** The slots a node is asked for. *)
Definition asked (m : gmap Z (list Z)) (id : Z) : list Z := default [] (m !! id).
Definition asks (cfg : CConfig) (id : Z) (slot : Slot) : bool :=
  is_candidate slot && bool_decide (id ∈ sl_Replicas slot) && nodeOnline cfg id.

Lemma asked_push m k x id : asked (push m k x) id = asked m id ++ (if decide (id = k) then [x] else []).
Proof.
  unfold asked, push. destruct (decide (id = k)) as [->|Hne].
  - by rewrite lookup_insert_eq.
  - by rewrite lookup_insert_ne, app_nil_r by done.
Qed.

Lemma electionReplicas_spec cfg versions sid replicas m m' :
  NoDup replicas -> electionReplicas cfg versions sid replicas m = Some m' ->
  (forall id, id ∈ replicas -> nodeOnline cfg id = true -> cc_Version cfg <= versions id) /\
  forall id, asked m' id = asked m id ++ (if bool_decide (id ∈ replicas) && nodeOnline cfg id then [sid] else []).
Proof.
  intros Hnd. revert m. induction Hnd as [|r replicas Hr _ IH]; intros m; cbn [electionReplicas].
  { intros [= <-]. split; [set_solver|]. intros id. rewrite bool_decide_eq_false_2 by set_solver. by rewrite app_nil_r. }
  destruct (nodeOnline cfg r) eqn:Eo; cbn [negb].
  - destruct (Z.ltb_spec (versions r) (cc_Version cfg)); [done|]. intros [H1 H2]%IH. split.
    + intros id [->|Hid]%elem_of_cons Ho; [done|by apply H1].
    + intros id. rewrite H2, asked_push. destruct (decide (id = r)) as [->|Hne].
      * rewrite (bool_decide_eq_false_2 (r ∈ replicas)), (bool_decide_eq_true_2 (r ∈ r :: replicas)) by set_solver.
        cbn [andb]. rewrite Eo. by rewrite app_nil_r.
      * by rewrite app_nil_r, (bool_decide_ext (id ∈ r :: replicas) (id ∈ replicas)) by set_solver.
  - intros [H1 H2]%IH. split.
    + intros id [->|Hid]%elem_of_cons Ho; [congruence|by apply H1].
    + intros id. rewrite H2. f_equal. destruct (decide (id = r)) as [->|Hne]; [by rewrite Eo, !andb_false_r|].
      by rewrite (bool_decide_ext (id ∈ r :: replicas) (id ∈ replicas)) by set_solver.
Qed.

(** Every online replica of a candidate is asked for it, and no other node; they all have the
    current configuration. *)
Lemma electionSlots_spec cfg versions slots m ids m' ids' :
  Forall (fun s => NoDup (sl_Replicas s)) slots -> electionSlots cfg versions slots m ids = Some (m', ids') ->
  ids' = ids ++ map sl_Id (List.filter is_candidate slots) /\
  (forall s id, s ∈ slots -> asks cfg id s = true -> cc_Version cfg <= versions id) /\
  forall id, asked m' id = asked m id ++ map sl_Id (List.filter (asks cfg id) slots).
Proof.
  intros Hs. revert m ids. induction Hs as [|s slots Hn _ IH]; intros m ids; cbn [electionSlots].
  { intros [= <- <-]. simpl. split; [by rewrite app_nil_r|]. split; [set_solver|]. intros. by rewrite app_nil_r. }
  fold (is_candidate s). cbn [List.filter]. unfold asks at 2. destruct (is_candidate s) eqn:Ec; cbn [negb andb].
  - destruct (electionReplicas _ _ _ _ _) as [m1|] eqn:E1; [|done]. intros (-> & H2 & H3)%IH.
    apply electionReplicas_spec in E1 as [H4 H5]; [|done]. split; [by rewrite <-app_assoc|]. split.
    + intros s' id [->|Hs']%elem_of_cons; [|by apply H2]. unfold asks. rewrite Ec. cbn [andb].
      intros [Hi%bool_decide_eq_true Ho]%andb_true_iff. by apply H4.
    + intros id. rewrite H3, H5, <-app_assoc. f_equal. by destruct (bool_decide _ && _).
  - intros (-> & H2 & H3)%IH. split; [done|]. split; [|done].
    intros s' id [->|Hs']%elem_of_cons; [|by apply H2]. unfold asks. by rewrite Ec.
Qed.

(** The election goes on when they have. *)
Lemma electionReplicas_total cfg versions sid replicas m :
  (forall id, id ∈ replicas -> nodeOnline cfg id = true -> cc_Version cfg <= versions id) ->
  is_Some (electionReplicas cfg versions sid replicas m).
Proof.
  revert m. induction replicas as [|r replicas IH]; intros m H; cbn [electionReplicas]; [done|].
  assert (IH' := fun m => IH m (fun id Hi => H id (list_elem_of_further _ _ _ Hi))).
  destruct (nodeOnline cfg r) eqn:Eo; [|apply IH']. destruct (Z.ltb_spec (versions r) (cc_Version cfg)); [|apply IH'].
  specialize (H r (list_elem_of_here _ _) Eo). lia.
Qed.

Lemma electionSlots_total cfg versions slots m ids :
  (forall s id, s ∈ slots -> asks cfg id s = true -> cc_Version cfg <= versions id) ->
  exists p, electionSlots cfg versions slots m ids = Some p.
Proof.
  revert m ids. induction slots as [|s slots IH]; intros m ids H; cbn [electionSlots]; [by eexists|].
  assert (IH' := fun m ids => IH m ids (fun t id Ht => H t id (list_elem_of_further _ _ _ Ht))).
  fold (is_candidate s). destruct (is_candidate s) eqn:Ec; cbn [negb]; [|apply IH'].
  destruct (electionReplicas_total cfg versions (sl_Id s) (sl_Replicas s) m) as [m' ->]; [|apply IH'].
  intros id Hi Ho. apply (H s id (list_elem_of_here _ _)). unfold asks. by rewrite Ec, bool_decide_eq_true_2, Ho.
Qed.

(** ** Who is counted *)

Definition about (slotId : Z) (r : SlotLogInfoResp) : bool := bool_decide (slotId ∈ map si_SlotId (sr_Slots r)).
Definition voters (resps : list SlotLogInfoResp) (slotId : Z) : list Z := map sr_NodeId (List.filter (about slotId) resps).

Lemma cnt_insert m k v x : cnt (<[k := v]> m) x = if decide (x = k) then v else cnt m x.
Proof. unfold cnt. destruct (decide (x = k)) as [->|]; [by rewrite lookup_insert_eq|by rewrite lookup_insert_ne]. Qed.

Lemma count_slots m infos x : NoDup (map si_SlotId infos) ->
  cnt (foldl (fun m info => <[si_SlotId info := cnt m (si_SlotId info) + 1]> m) m infos) x =
    cnt m x + (if bool_decide (x ∈ map si_SlotId infos) then 1 else 0).
Proof.
  revert m. induction infos as [|i infos IH]; intros m Hn; cbn [foldl map] in *.
  { rewrite bool_decide_eq_false_2 by set_solver. lia. }
  apply NoDup_cons in Hn as [Hi Hn]. rewrite IH, cnt_insert by done. destruct (decide (x = si_SlotId i)) as [->|Hne].
  - rewrite (bool_decide_eq_false_2 (_ ∈ map _ infos)) by done. rewrite bool_decide_eq_true_2 by left. lia.
  - f_equal. erewrite bool_decide_ext; [reflexivity|]. set_solver.
Qed.

Lemma slotQuorumMap_voters resps x : Forall (fun r => NoDup (map si_SlotId (sr_Slots r))) resps ->
  cnt (slotQuorumMap resps) x = len (voters resps x).
Proof.
  unfold slotQuorumMap, voters. intros Hf.
  assert (H : forall m, cnt (foldl (fun m resp => foldl (fun m info => <[si_SlotId info := cnt m (si_SlotId info) + 1]> m)
      m (sr_Slots resp)) m resps) x = cnt m x + len (map sr_NodeId (List.filter (about x) resps))).
  { induction Hf as [|r resps Hr _ IH]; intros m; cbn [foldl List.filter map length]; [lia|].
    rewrite IH, count_slots by done. unfold about at 2. case_bool_decide; cbn [map length]; lia. }
  rewrite H. unfold cnt. rewrite lookup_empty. cbn [default]. lia.
Qed.

(** A map that is filled in a loop. *)
Lemma foldl_insert {A V} (k : A -> Z) (v : A -> V) (p : A -> bool) (l : list A) (m : gmap Z V) x y :
  NoDup (map k l) ->
  foldl (fun m a => if p a then m else <[k a := v a]> m) m l !! x = Some y <->
    (exists a, a ∈ l /\ k a = x /\ v a = y /\ p a = false) \/
    ((forall a, a ∈ l -> k a = x -> p a = true) /\ m !! x = Some y).
Proof.
  revert m. induction l as [|a l IH]; intros m Hn; cbn [foldl map] in *.
  { split; [intros H; right; split; [set_solver|done]|intros [(a & Ha & _)|[_ H]]; [set_solver|done]]. }
  apply NoDup_cons in Hn as [Ha Hn]. rewrite IH by done. split.
  - intros [(b & Hb & H)|[Hb H]]; [left; exists b; split; [by right|done]|]. destruct (p a) eqn:Ep.
    + right. split; [|done]. intros b [->|Hin]%elem_of_cons ?; [done|]. by apply Hb.
    + destruct (decide (k a = x)) as [<-|Hne].
      * rewrite lookup_insert_eq in H. injection H as <-. left. exists a. split; [left|done].
      * rewrite lookup_insert_ne in H by done. right. split; [|done].
        intros b [->|Hin]%elem_of_cons ?; [done|]. by apply Hb.
  - intros [(b & [->|Hb]%elem_of_cons & <- & <- & Hp)|[Hb H]].
    + right. rewrite Hp, lookup_insert_eq. split; [|done]. intros b Hin E. destruct Ha. rewrite <-E. by apply list_elem_of_fmap_2.
    + left. by exists b.
    + right. split; [intros b ? ?; apply Hb; [by right|done]|]. destruct (p a) eqn:Ep; [done|].
      rewrite lookup_insert_ne; [done|]. intros E. rewrite (Hb a) in Ep; [done|left|done].
Qed.

(** The answers that are collected: those about a slot that enough replicas have answered
    for. *)
Lemma collect_spec opts resps slotId id i :
  NoDup (map sr_NodeId resps) -> Forall (fun r => NoDup (map si_SlotId (sr_Slots r))) resps ->
  answers (collectSlotLogInfo opts resps) slotId id i <->
  exists r, r ∈ resps /\ sr_NodeId r = id /\ i ∈ sr_Slots r /\ si_SlotId i = slotId /\
    o_SlotMaxReplicaCount opts / 2 + 1 <= len (voters resps slotId).
Proof.
  intros Hn Hf. unfold answers, collectSlotLogInfo.
  set (inner := fun r => foldl (fun infos info => if cnt (slotQuorumMap resps) (si_SlotId info) <? o_SlotMaxReplicaCount opts / 2 + 1
                                 then infos else <[si_SlotId info := info]> infos) (∅ : gmap Z SlotInfo) (sr_Slots r)).
  pose proof (fun m => foldl_insert sr_NodeId inner (fun _ => false) resps (∅ : gmap Z (gmap Z SlotInfo)) id m Hn) as Ho.
  cbn beta iota in Ho. fold inner. rewrite Forall_forall in Hf. split.
  - intros (m & [(r & Hr & <- & <- & _)|[_ H]]%Ho & Hi); [|by rewrite lookup_empty in H].
    exists r. split; [done|]. split; [done|]. unfold inner in Hi.
    apply (foldl_insert si_SlotId id (fun info => cnt _ (si_SlotId info) <? _)) in Hi as [(j & Hj & <- & <- & Hp)|[_ Hi]];
      [|by rewrite lookup_empty in Hi|by apply Hf].
    split; [done|]. split; [done|]. apply Z.ltb_ge in Hp. by rewrite slotQuorumMap_voters in Hp by (by apply Forall_forall).
  - intros (r & Hr & <- & Hi & <- & Hq). exists (inner r). split; [apply Ho; left; by exists r|]. unfold inner.
    apply (foldl_insert si_SlotId id (fun info => cnt _ (si_SlotId info) <? _)); [by apply Hf|].
    left. exists i. split; [done|]. split; [done|]. split; [done|]. apply Z.ltb_ge.
    by rewrite slotQuorumMap_voters by (by apply Forall_forall).
Qed.

(** ** The whole election *)

Lemma electedSlot_leader s l : sl_Leader (electedSlot s l) = l.
Proof. unfold electedSlot. by case_match. Qed.
Lemma electedSlot_id s l : sl_Id (electedSlot s l) = sl_Id s.
Proof. unfold electedSlot. by case_match. Qed.

Section Election.
Context {R : MapRange} {RL : MapRangeLaws R}.

Lemma calculate_some cfg k infos ids m sid l :
  calculateSlotLeader cfg k infos ids m !! sid = Some l ->
  (sid ∈ ids /\ exists k, l = electionSlotLeaderBySlot cfg k infos sid) \/ m !! sid = Some l.
Proof.
  revert k m. induction ids as [|x ids IH]; intros k m; cbn [calculateSlotLeader]; [by right|].
  intros [[Hin H]|H]%IH; [left; split; [by right|done]|]. destruct (decide (sid = x)) as [->|Hne].
  - rewrite lookup_insert_eq in H. injection H as <-. left. split; [left|by exists k].
  - rewrite lookup_insert_ne in H by done. by right.
Qed.

Lemma calculate_in cfg k infos ids m sid :
  sid ∈ ids \/ is_Some (m !! sid) -> is_Some (calculateSlotLeader cfg k infos ids m !! sid).
Proof.
  revert k m. induction ids as [|x ids IH]; intros k m; cbn [calculateSlotLeader].
  { intros [H|H]; [by apply not_elem_of_nil in H|done]. }
  intros H. apply IH. destruct (decide (sid = x)) as [->|Hne]; [right; by rewrite lookup_insert_eq|].
  rewrite lookup_insert_ne by done. destruct H as [[H|H]%elem_of_cons|H]; [done|by left|by right].
Qed.

(** Nodes answer for themselves with what they have ([info]), if at all. *)
Record honest (nodeId : Z) (info : Z -> Z -> option SlotInfo) (own : list Z -> list SlotInfo)
    (remote : Z -> list Z -> option SlotLogInfoResp) : Prop := {
  own_is ids : own ids = omap (info nodeId) ids;
  remote_is id ids r : remote id ids = Some r -> r = mkSlotLogResp id (omap (info id) ids);
  info_is id sid i : info id sid = Some i -> si_SlotId i = sid
}.

Context (opts : COptions) (versions : Z -> Z) (own : list Z -> list SlotInfo) (remote : Z -> list Z -> option SlotLogInfoResp).
Context (arrive : list SlotLogInfoResp -> list SlotLogInfoResp) (info : Z -> Z -> option SlotInfo).
Hypothesis Hhonest : honest (o_NodeId opts) info own remote.
Hypothesis Harrive : forall l, arrive l ≡ₚ l.
Abbreviation quorum := (o_SlotMaxReplicaCount opts / 2 + 1).

(** One answer per node that is asked. *)
Definition answer (p : Z * list Z) : option SlotLogInfoResp :=
  if fst p =? o_NodeId opts then Some (mkSlotLogResp (fst p) (own (snd p))) else remote (fst p) (snd p).

Lemma answer_is p r : answer p = Some r -> r = mkSlotLogResp (fst p) (omap (info (fst p)) (snd p)).
Proof.
  unfold answer. destruct (Z.eqb_spec (fst p) (o_NodeId opts)) as [E|].
  - intros [= <-]. by rewrite (own_is _ _ _ _ Hhonest), E.
  - apply (remote_is _ _ _ _ Hhonest).
Qed.

Lemma requests_perm w : requestSlotInfos (o_NodeId opts) own remote arrive w ≡ₚ omap answer (range 0 w).
Proof.
  unfold requestSlotInfos. rewrite Harrive. apply reflexive_eq, list_omap_ext, Forall_Forall2_diag, Forall_true. by intros [].
Qed.

Lemma requests_in w r :
  r ∈ requestSlotInfos (o_NodeId opts) own remote arrive w <-> exists ids, w !! sr_NodeId r = Some ids /\ answer (sr_NodeId r, ids) = Some r.
Proof.
  rewrite requests_perm, list_elem_of_omap. split.
  - intros ([id ids] & Hin%in_range & E). pose proof (answer_is _ _ E) as ->. by exists ids.
  - intros (ids & Hin & E). exists (sr_NodeId r, ids). split; [by apply in_range|done].
Qed.

Lemma requests_nodup w : NoDup (map sr_NodeId (requestSlotInfos (o_NodeId opts) own remote arrive w)).
Proof.
  rewrite requests_perm. assert (Hn : NoDup (map fst (range 0 w))) by (rewrite (range_perm 0 w); apply NoDup_fst_map_to_list).
  induction (range 0 w) as [|p l IH]; simpl in *; [constructor|]. apply NoDup_cons in Hn as [Hp Hn].
  destruct (answer p) as [r|] eqn:E; [|by apply IH]. simpl. apply NoDup_cons. split; [|by apply IH].
  intros (r' & Er & Hr')%list_elem_of_fmap. apply list_elem_of_omap in Hr' as (p' & Hp' & E'). apply Hp.
  rewrite (answer_is _ _ E), (answer_is _ _ E') in Er. cbn in Er. rewrite Er. by apply list_elem_of_fmap_2.
Qed.

(** What an answer says of a slot. *)
Lemma infos_in id (ids : list Z) sid i : i ∈ omap (info id) ids /\ si_SlotId i = sid <-> sid ∈ ids /\ info id sid = Some i.
Proof.
  rewrite list_elem_of_omap. split.
  - intros [(x & Hx & E) Hi]. rewrite (info_is _ _ _ _ Hhonest _ _ _ E) in Hi. by subst x.
  - intros [Hx E]. split; [by exists sid|]. by eapply info_is.
Qed.

Lemma infos_nodup id (ids : list Z) : NoDup ids -> NoDup (map si_SlotId (omap (info id) ids)).
Proof.
  induction 1 as [|x ids Hx _ IH]; simpl; [constructor|]. destruct (info id x) as [i|] eqn:E; [|done].
  simpl. apply NoDup_cons. split; [|done]. intros (j & Ej & Hj)%list_elem_of_fmap. apply Hx.
  rewrite (info_is _ _ _ _ Hhonest _ _ _ E) in Ej. by apply (infos_in id ids x j).
Qed.

Section Round.
Context (cfg : CConfig) (slots : list Slot) (w : gmap Z (list Z)) (ids : list Z).
Hypothesis Hids : NoDup (map sl_Id slots).
Hypothesis Hreplicas : Forall (fun s => NoDup (sl_Replicas s) /\ Forall (fun id => id <> 0) (sl_Replicas s)) slots.
Hypothesis Hw : electionSlots cfg versions slots ∅ [] = Some (w, ids).
Abbreviation resps := (requestSlotInfos (o_NodeId opts) own remote arrive w).

Lemma asked_is id : asked w id = map sl_Id (List.filter (asks cfg id) slots).
Proof.
  apply electionSlots_spec in Hw as (_ & _ & H); [by rewrite H|]. eapply Forall_impl; [exact Hreplicas|]. by intros s [].
Qed.

Lemma resp_slots r : r ∈ resps -> sr_Slots r = omap (info (sr_NodeId r)) (asked w (sr_NodeId r)).
Proof.
  intros (ids' & Hl & E)%requests_in. unfold asked. rewrite Hl. cbn [default]. by rewrite (answer_is _ _ E) at 1.
Qed.

Lemma resps_nodup : Forall (fun r => NoDup (map si_SlotId (sr_Slots r))) resps.
Proof.
  apply Forall_forall. intros r Hr. rewrite resp_slots by done. apply infos_nodup. rewrite asked_is. by apply NoDup_map_filter.
Qed.

(** A slot of the round. *)
Lemma asked_slot id sid : sid ∈ asked w id <-> exists s, s ∈ slots /\ sl_Id s = sid /\ asks cfg id s = true.
Proof.
  rewrite asked_is. split.
  - intros (s & -> & Hs)%list_elem_of_fmap. apply list_elem_of_In, filter_In in Hs as [Hs Ha].
    exists s. split; [by apply list_elem_of_In|done].
  - intros (s & Hs & <- & Ha). apply list_elem_of_fmap_2. by apply in_filter.
Qed.

Lemma same_slot s t : s ∈ slots -> t ∈ slots -> sl_Id s = sl_Id t -> s = t.
Proof.
  intros Hs Ht E. apply list_elem_of_lookup in Hs as [i Hi]. apply list_elem_of_lookup in Ht as [j Hj].
  assert (i = j) as ->.
  { eapply NoDup_lookup; [exact Hids| |]; rewrite list_lookup_fmap; [by rewrite Hi|rewrite Hj; simpl; by rewrite E]. }
  congruence.
Qed.

(** The answers that count for a slot. *)
Lemma round_answers s id i : s ∈ slots ->
  answers (collectSlotLogInfo opts resps) (sl_Id s) id i ->
  quorum <= len (voters resps (sl_Id s)) /\ asks cfg id s = true /\ info id (sl_Id s) = Some i /\ id ∈ voters resps (sl_Id s).
Proof.
  intros Hs (r & Hr & <- & Hi & Ei & Hq)%collect_spec; [|apply requests_nodup|apply resps_nodup].
  split; [done|]. pose proof (resp_slots r Hr) as E. assert (Hx := conj Hi Ei). rewrite E in Hx. apply infos_in in Hx as [Hx Hinfo].
  apply asked_slot in Hx as (t & Ht & Et & Ha). rewrite <-(same_slot _ _ Ht Hs Et). rewrite Et. split; [done|]. split; [done|].
  apply list_elem_of_fmap_2. apply in_filter. split; [done|].
  unfold about. apply bool_decide_eq_true. rewrite <-Ei. by apply list_elem_of_fmap_2.
Qed.

Lemma voter_answers s v : s ∈ slots -> quorum <= len (voters resps (sl_Id s)) -> v ∈ voters resps (sl_Id s) ->
  exists j, answers (collectSlotLogInfo opts resps) (sl_Id s) v j.
Proof.
  intros Hs Hq (r & -> & [Hr Ha]%in_filter)%list_elem_of_fmap.
  apply bool_decide_eq_true, list_elem_of_fmap in Ha as (i & Ei & Hi). exists i.
  apply collect_spec; [apply requests_nodup|apply resps_nodup|]. by exists r.
Qed.

Lemma voters_nodup sid : NoDup (voters resps sid).
Proof.
  apply NoDup_map_filter, requests_nodup.
Qed.
End Round.
End Election.
