(* ===== verification/ClusterElectionProps.v ===== *)
(** * What elections by logs promise

    The slots: a replica that is elected has answered together with a majority, and no answer
    has a newer log, so that what a majority has stored is not lost
    ([slot_election_keeps_logs]); a round of events with these elections keeps the invariant
    of the configuration ([round_with_elections]).  The channels: the configuration that is
    returned and saved is well-formed, and its leader changes only with its term, to the
    newest of a majority ([channel_config_promises]). *)

From S2P Require Import Prelude RaftTypes RaftNode WkProto RaftCodec ClusterConfig ClusterConfigLaws ClusterCommands ClusterProps.
From S2P Require Import ClusterEvents ClusterEventsLaws ClusterEventsProps WkMembers WkModel ClusterRpc ClusterRpcLaws ClusterRpcProps ClusterElection ClusterElectionLaws.
From S2P Require WkKv SlotServer.

(** Two majorities meet. *)
Lemma majorities_meet (l a b : list Z) :
  NoDup a -> NoDup b -> (forall x, x ∈ a -> x ∈ l) -> (forall x, x ∈ b -> x ∈ l) -> len l < len a + len b ->
  exists x, x ∈ a /\ x ∈ b.
Proof.
  intros Ha Hb Hal Hbl Hlen. destruct (decide (Exists (fun x => x ∈ b) a)) as [H|H].
  { apply Exists_exists in H as (x & H1 & H2). by exists x. }
  exfalso. apply not_Exists_Forall in H; [|apply _]. rewrite Forall_forall in H.
  assert (Hn : NoDup (a ++ b)) by (apply NoDup_app; split_and!; [done|intros x; apply H|done]).
  assert (Hs : a ++ b ⊆+ l) by (apply NoDup_submseteq; [done|]; intros x [?|?]%elem_of_app; auto).
  apply submseteq_length in Hs. rewrite length_app in Hs. lia.
Qed.

Section Slots.
Context {R : MapRange} {RL : MapRangeLaws R}.
Context (opts : COptions) (versions : Z -> Z) (own : list Z -> list SlotInfo) (remote : Z -> list Z -> option SlotLogInfoResp).
Context (arrive : list SlotLogInfoResp -> list SlotLogInfoResp) (info : Z -> Z -> option SlotInfo).
Abbreviation quorum := (o_SlotMaxReplicaCount opts / 2 + 1).
Abbreviation election := (handleSlotElection opts versions own remote arrive).

(** The slots of an election: distinct ones, with distinct replicas. *)
Definition slots_distinct (slots : list Slot) : Prop :=
  NoDup (map sl_Id slots) /\
  Forall (fun s => NoDup (sl_Replicas s) /\ Forall (fun id => id <> 0) (sl_Replicas s)) slots.

(** A replica that reports an older term of the slot has an older log. *)
Definition terms_fit_logs (slots : list Slot) : Prop :=
  forall s a b i j, s ∈ slots -> a ∈ sl_Replicas s -> b ∈ sl_Replicas s ->
    info a (sl_Id s) = Some i -> info b (sl_Id s) = Some j -> si_Term i < si_Term j -> older (pos_of i) (pos_of j).

(** [vs] have voted for [s]: they are online replicas with the current configuration, more
    than half of those there may be. *)
Record voted (cfg : CConfig) (s : Slot) (vs : list Z) : Prop := {
  voted_distinct : NoDup vs;
  voted_quorum : quorum <= len vs;
  voted_replicas v : v ∈ vs -> v ∈ sl_Replicas s;
  voted_online v : v ∈ vs -> nodeOnline cfg v = true;
  voted_version v : v ∈ vs -> cc_Version cfg <= versions v
}.
(** [l] has voted, and has the newest log. *)
Definition newest (s : Slot) (vs : list Z) (l : Z) (i : SlotInfo) : Prop :=
  l ∈ vs /\ info l (sl_Id s) = Some i /\
  forall v, v ∈ vs -> exists j, info v (sl_Id s) = Some j /\ older (pos_of j) (pos_of i).

Hypothesis Hhonest : honest (o_NodeId opts) info own remote.
Hypothesis Harrive : forall l, arrive l ≡ₚ l.

Lemma asks_spec cfg id s : asks cfg id s = true -> is_candidate s = true /\ id ∈ sl_Replicas s /\ nodeOnline cfg id = true.
Proof. unfold asks. intros [[H1 H2%bool_decide_eq_true]%andb_true_iff H3]%andb_true_iff. done. Qed.

Lemma find_slot slots (s : Slot) : NoDup (map sl_Id slots) -> s ∈ slots -> find (is_slot (sl_Id s)) slots = Some s.
Proof.
  intros Hn Hs. destruct (find (is_slot (sl_Id s)) slots) as [t|] eqn:E.
  - apply find_some in E as [Ht%list_elem_of_In E%Z.eqb_eq]. by rewrite (same_slot slots Hn t s).
  - apply list_elem_of_In in Hs. apply (find_none _ _ E) in Hs. unfold is_slot in Hs. by rewrite Z.eqb_refl in Hs.
Qed.

(** The leader that is calculated for a slot. *)
Lemma calculated cfg slots w ids s k l :
  0 <= o_SlotMaxReplicaCount opts -> slots_distinct slots -> terms_fit_logs slots -> electionSlots cfg versions slots ∅ [] = Some (w, ids) -> s ∈ slots ->
  l = electionSlotLeaderBySlot cfg k (collectSlotLogInfo opts (requestSlotInfos (o_NodeId opts) own remote arrive w)) (sl_Id s) ->
  let vs := voters (requestSlotInfos (o_NodeId opts) own remote arrive w) (sl_Id s) in
  (l = 0 /\ len vs < quorum) \/ (l <> 0 /\ voted cfg s vs /\ exists i, newest s vs l i).
Proof.
  intros Hmax [Hn Hr] Ht Hw Hs ->. set (infos := collectSlotLogInfo _ _). set (vs := voters _ _). cbv zeta.
  assert (Hans : forall id i, answers infos (sl_Id s) id i ->
     quorum <= len vs /\ asks cfg id s = true /\ info id (sl_Id s) = Some i /\ id ∈ vs).
  { exact (fun id i => round_answers opts versions own remote arrive info Hhonest Harrive cfg slots w ids Hn Hr Hw s id i Hs). }
  assert (Hrs : NoDup (sl_Replicas s) /\ Forall (fun id => id <> 0) (sl_Replicas s)) by (rewrite Forall_forall in Hr; by apply Hr).
  assert (Hvs : quorum <= len vs -> voted cfg s vs /\ forall v, v ∈ vs -> exists j, answers infos (sl_Id s) v j).
  { intros Hq. assert (Hv : forall v, v ∈ vs -> exists j, answers infos (sl_Id s) v j)
      by exact (fun v => voter_answers opts versions own remote arrive info Hhonest Harrive cfg slots w ids Hn Hr Hw s v Hs Hq).
    assert (Ha : forall v, v ∈ vs -> asks cfg v s = true) by (intros v (j & Hj)%Hv; by apply (Hans v j)).
    split; [|done]. apply electionSlots_spec in Hw as (_ & Hver & _); [|eapply Forall_impl; [exact Hr|]; by intros ? []].
    split; [exact (voters_nodup opts own remote arrive info Hhonest Harrive w _)|done|..]; intros v Hin%Ha.
    1, 2: by apply asks_spec in Hin as (_ & ? & ?). by apply (Hver s). }
  destruct (elected_newest cfg k infos (sl_Id s)) as [[E Hno]|(i & Hi & Hnew)].
  - intros a b i j (_ & Ha & Hi & _)%Hans (_ & Hb & Hj & _)%Hans. apply asks_spec in Ha as (_ & Ha & _), Hb as (_ & Hb & _). by apply (Ht s a b).
  - intros id i (_ & Ha & _)%Hans. apply asks_spec in Ha as (_ & Ha & _). destruct Hrs as [_ Hz]. rewrite Forall_forall in Hz. by apply Hz.
  - left. rewrite E. split; [done|]. destruct (Z.lt_ge_cases (len vs) quorum) as [|Hq]; [done|].
    destruct (Hvs Hq) as [Hv Hex]. destruct vs as [|v vs'] eqn:Ev.
    { cbn in Hq. pose proof (Z.div_pos (o_SlotMaxReplicaCount opts) 2). lia. }
    destruct (Hex v) as [j Hj]; [left|]. by apply Hno in Hj.
  - right. destruct (Hans _ _ Hi) as (Hq & Ha & Hinfo & Hin). apply asks_spec in Ha as (_ & Ha & _).
    split; [destruct Hrs as [_ Hz]; rewrite Forall_forall in Hz; by apply Hz|]. split; [by apply Hvs|]. exists i.
    split; [done|]. split; [done|]. intros v Hv. destruct (Hvs Hq) as [_ Hex]. destruct (Hex v Hv) as [j Hj].
    exists j. split; [by apply (Hans v j)|by eapply Hnew].
Qed.

(** Every slot that is proposed was a candidate, and got a leader with the newest log. *)
Lemma election_elects cfg slots ns :
  0 <= o_SlotMaxReplicaCount opts -> slots_distinct slots -> terms_fit_logs slots -> ns ∈ election cfg slots ->
  exists s vs i, s ∈ slots /\ is_candidate s = true /\ ns = electedSlot s (sl_Leader ns) /\ sl_Leader ns <> sl_Leader s /\
    voted cfg s vs /\ newest s vs (sl_Leader ns) i.
Proof.
  intros Hmax Hd Ht. unfold handleSlotElection. destruct (electionSlots _ _ _ _ _) as [[w ids]|] eqn:Hw; [|set_solver].
  case_bool_decide; [set_solver|]. destruct (len _ =? 0); [set_solver|]. unfold newSlots.
  intros ([sid l] & Hin%in_range & E)%list_elem_of_omap. destruct (Z.eqb_spec l 0); [done|].
  destruct (find (is_slot sid) slots) as [s|] eqn:Ef; [|done]. destruct (Z.eqb_spec (sl_Leader s) l); [done|].
  injection E as <-. apply find_some in Ef as [Hs%list_elem_of_In Es%Z.eqb_eq]. subst sid.
  apply calculate_some in Hin as [[Hin (k & Hk)]|Hb]; [|by rewrite lookup_empty in Hb].
  destruct (calculated cfg slots w ids s k l) as [[? _]|(_ & Hv & i & Hnew)]; [done..|].
  rewrite electedSlot_leader. exists s, (voters (requestSlotInfos (o_NodeId opts) own remote arrive w) (sl_Id s)), i. split_and!; try done.
  apply electionSlots_spec in Hw as (-> & _); [|eapply Forall_impl; [apply Hd|]; by intros ? []].
  apply list_elem_of_fmap in Hin as (t & Et & [Ht' Hc]%in_filter).
  by rewrite (same_slot slots (proj1 Hd) s t).
Qed.

(** What a majority of the replicas has stored is in the log of the leader. *)
Lemma newest_keeps cfg s vs l i p (stored : list Z) :
  voted cfg s vs -> newest s vs l i -> NoDup (sl_Replicas s) -> len (sl_Replicas s) <= o_SlotMaxReplicaCount opts ->
  NoDup stored -> (forall v, v ∈ stored -> v ∈ sl_Replicas s) -> len (sl_Replicas s) < 2 * len stored ->
  (forall v j, v ∈ stored -> info v (sl_Id s) = Some j -> older p (pos_of j)) -> older p (pos_of i).
Proof.
  intros [H1 H2 H3 _ _] (_ & _ & Hn) Hr Hmax Hd Hs Hlen Hold.
  destruct (majorities_meet (sl_Replicas s) vs stored) as (v & Hv & Hv'); [done..| |].
  { pose proof (Z.div_mod (o_SlotMaxReplicaCount opts) 2). pose proof (Z.mod_pos_bound (o_SlotMaxReplicaCount opts) 2). lia. }
  destruct (Hn v Hv) as (j & Hj & Hji). eapply older_trans; [by eapply Hold|done].
Qed.

(** The nodes that a request reaches. *)
Definition reachable (v : Z) : Prop := v = o_NodeId opts \/ forall ids, is_Some (remote v ids).

Lemma reachable_votes cfg slots w ids s v i :
  slots_distinct slots -> electionSlots cfg versions slots ∅ [] = Some (w, ids) -> s ∈ slots -> asks cfg v s = true ->
  reachable v -> info v (sl_Id s) = Some i ->
  v ∈ voters (requestSlotInfos (o_NodeId opts) own remote arrive w) (sl_Id s).
Proof.
  intros [Hn Hr] Hw Hs Ha Hv Hi.
  assert (Hin : sl_Id s ∈ asked w v) by (apply (asked_slot versions cfg slots w ids Hr Hw); by exists s).
  unfold asked in Hin. destruct (w !! v) as [l|] eqn:El; [|set_solver]. cbn in Hin.
  assert (exists r, answer opts own remote (v, l) = Some r) as [r Er].
  { unfold answer. cbn [fst snd]. destruct (Z.eqb_spec v (o_NodeId opts)); [by eexists|]. destruct Hv as [?|Hv]; [done|apply Hv]. }
  pose proof (answer_is opts own remote info Hhonest _ _ Er) as E. cbn [fst snd] in E.
  replace v with (sr_NodeId r) at 1 by (by rewrite E). apply list_elem_of_fmap_2, in_filter. split.
  - apply (requests_in opts own remote arrive info Hhonest Harrive). exists l. assert (sr_NodeId r = v) as -> by (by rewrite E). done.
  - apply bool_decide_eq_true. rewrite E. cbn [sr_Slots]. apply list_elem_of_fmap. exists i.
    destruct (infos_in opts own remote info Hhonest v l (sl_Id s) i) as [_ H]. destruct (H (conj Hin Hi)) as [H1 H2]. done.
Qed.

(** A candidate whose replicas answer gets a new leader, unless its old leader has the newest
    log. *)
Lemma election_progress cfg slots s vs :
  0 <= o_SlotMaxReplicaCount opts -> slots_distinct slots -> terms_fit_logs slots ->
  (forall t v, t ∈ slots -> asks cfg v t = true -> cc_Version cfg <= versions v) ->
  s ∈ slots -> is_candidate s = true -> voted cfg s vs -> (forall v, v ∈ vs -> reachable v /\ is_Some (info v (sl_Id s))) ->
  (exists ns, ns ∈ election cfg slots /\ sl_Id ns = sl_Id s) \/
  (exists vs' i, voted cfg s vs' /\ newest s vs' (sl_Leader s) i /\ forall v, v ∈ vs -> v ∈ vs').
Proof.
  intros Hmax Hd Ht Hver Hs Hc Hv Hreach.
  destruct (electionSlots_total cfg versions slots ∅ [] Hver) as ([w ids] & Hw).
  set (vs' := voters (requestSlotInfos (o_NodeId opts) own remote arrive w) (sl_Id s)).
  assert (Hsub : forall v, v ∈ vs -> v ∈ vs').
  { intros v Hin. destruct (Hreach v Hin) as [Hr [i Hi]]. eapply (reachable_votes cfg slots w ids s v i); try done.
    unfold asks. rewrite Hc, bool_decide_eq_true_2 by (by eapply voted_replicas). by eapply voted_online. }
  assert (Hlen : quorum <= len vs').
  { pose proof (voted_quorum _ _ _ Hv). pose proof (submseteq_length vs vs' (NoDup_submseteq _ _ (voted_distinct _ _ _ Hv) Hsub)). lia. }
  unfold handleSlotElection. rewrite Hw. destruct vs as [|v vs0] eqn:Evs.
  { pose proof (voted_quorum _ _ _ Hv). pose proof (Z.div_pos (o_SlotMaxReplicaCount opts) 2). cbn in *. lia. }
  assert (Hv0 : v ∈ vs') by (apply Hsub; left). rewrite bool_decide_eq_false_2, (proj2 (Z.eqb_neq _ 0)).
  2: { subst vs'. destruct (requestSlotInfos _ _ _ _ _); [set_solver|cbn; lia]. }
  2: { intros ->. apply list_elem_of_fmap in Hv0 as (r & _ & [Hr _]%in_filter).
       apply (requests_in opts own remote arrive info Hhonest Harrive) in Hr as (l & Hl & _). by rewrite lookup_empty in Hl. }
  set (infos := collectSlotLogInfo _ _).
  destruct (calculate_in cfg 0 infos ids ∅ (sl_Id s)) as [l El].
  { left. apply electionSlots_spec in Hw as (-> & _); [|eapply Forall_impl; [apply Hd|]; by intros ? []].
    by apply list_elem_of_fmap_2, in_filter. }
  pose proof El as [[_ (k & Hk)]|H]%calculate_some; [|by rewrite lookup_empty in H].
  pose proof (calculated cfg slots w ids s k l Hmax Hd Ht Hw Hs Hk) as Hcal. cbv zeta in Hcal. fold vs' in Hcal.
  destruct Hcal as [[_ ?]|(Hl & Hv' & i & Hnew)]; [lia|].
  destruct (decide (l = sl_Leader s)) as [->|Hne]; [right; by exists vs', i|].
  left. exists (electedSlot s l). split; [|apply electedSlot_id]. apply list_elem_of_omap. exists (sl_Id s, l).
  split; [by apply in_range|]. rewrite (proj2 (Z.eqb_neq l 0)), find_slot by (done || apply Hd).
  by rewrite (proj2 (Z.eqb_neq (sl_Leader s) l)) by done.
Qed.
End Slots.

(** ** Rounds *)

Lemma RemoveUint64_sub items target id : id ∈ RemoveUint64 items target -> id ∈ items.
Proof.
  induction items as [|x items IH]; simpl; [done|]. destruct (target =? x); [by right|].
  intros [->|H]%elem_of_cons; [left|right; by apply IH].
Qed.

Lemma electedSlot_wf s l : slot_wf s -> slot_wf (electedSlot s l).
Proof.
  intros [H1 H2]. unfold electedSlot. cbn [sl_MigrateTo]. destruct (_ && _); [|by split]. split; cbn; [|done].
  intros id Hid Hl%RemoveUint64_sub. by apply (H1 id).
Qed.

Section Rounds.
Context {R : MapRange} {RL : MapRangeLaws R}.

Lemma election_wf opts versions own remote arrive cfg slots :
  Forall slot_wf slots -> Forall slot_wf (handleSlotElection opts versions own remote arrive cfg slots).
Proof.
  intros Hw. unfold handleSlotElection. destruct (electionSlots _ _ _ _ _) as [[w ids]|]; [|constructor].
  case_bool_decide; [constructor|]. destruct (len _ =? 0); [constructor|]. apply Forall_forall.
  intros ns ([sid l] & _ & E)%list_elem_of_omap. destruct (l =? 0); [done|].
  destruct (find _ slots) as [s|] eqn:Ef; [|done]. destruct (_ =? l); [done|]. injection E as <-.
  apply electedSlot_wf. apply find_some in Ef as [Hs%list_elem_of_In _]. rewrite Forall_forall in Hw. by apply Hw.
Qed.

Lemma electedSlot_replicas s l : sl_Replicas (electedSlot s l) = sl_Replicas s.
Proof. unfold electedSlot. by destruct (_ && _). Qed.
Lemma election_replicas opts versions own remote arrive cfg slots : (forall x, x ∈ slots -> x ∈ cc_Slots cfg) ->
  Forall (same_replicas cfg) (handleSlotElection opts versions own remote arrive cfg slots).
Proof.
  intros Hin. unfold handleSlotElection. destruct (electionSlots _ _ _ _ _) as [[w ids]|]; [|constructor].
  case_bool_decide; [constructor|]. destruct (len _ =? 0); [constructor|]. apply Forall_forall.
  intros ns ([sid l] & _ & E)%list_elem_of_omap. destruct (l =? 0); [done|].
  destruct (find _ slots) as [s|] eqn:Ef; [|done]. destruct (_ =? l); [done|]. injection E as <-.
  apply find_some in Ef as [Hs%list_elem_of_In _]. exists s. split; [by apply Hin|]. by rewrite electedSlot_replicas.
Qed.

Lemma slot_election_wf opts versions own remote arrive ok s :
  server_wf s -> events_ready (cs_cfg s) ->
  round_wf (handleSlotLeaderElection (OnSlotElection opts versions own remote arrive (proposes ok)) s).
Proof.
  intros Hs Hr. unfold handleSlotLeaderElection. destruct (List.filter _ _) as [|s0 l] eqn:E; [done|]. rewrite <-E.
  unfold OnSlotElection. set (slots := List.filter _ _).
  assert (Hin : forall x, x ∈ slots -> x ∈ cc_Slots (cs_cfg s)) by (by intros x [Hx _]%in_filter).
  assert (Hw : Forall slot_wf (handleSlotElection opts versions own remote arrive (cs_cfg s) slots)).
  { apply election_wf, Forall_forall. intros x Hx%Hin.
    destruct Hs as [[_ _ _ _ _ Hw] _]. rewrite Forall_forall in Hw. by apply Hw. }
  pose proof (election_replicas opts versions own remote arrive (cs_cfg s) slots Hin) as Hsame.
  destruct (handleSlotElection _ _ _ _ _ _ _) as [|n ns]; [done|].
  destruct (proposes ok s _) as [s'|] eqn:Ep; [|done]. eapply round_proposes; [exact Ep|done|done|]. intros now. by apply slots_ready.
Qed.
End Rounds.

(** ** Channels *)

(** What is right of the configuration of a channel. *)
Record channel_wf (c : ChannelClusterConfig) : Prop := {
  cw_replicas : NoDup (cl_Replicas c);
  cw_learners : NoDup (cl_Learners c);
  cw_disjoint id : id ∈ cl_Learners c -> id ∉ cl_Replicas c;
  cw_leader : cl_LeaderId c ∈ cl_Replicas c;
  cw_count : len (cl_Replicas c) + len (cl_Learners c) <= cl_ReplicaMaxCount c
}.

Section Channels.
Context {R : MapRange} {RL : MapRangeLaws R}.
Implicit Types lastLog : Z -> option ChannelLastLogInfoResponse.

Lemma lastLogs_in lastLog replicas id r :
  requestChannelLastLogInfos lastLog replicas !! id = Some r <-> id ∈ replicas /\ lastLog id = Some r.
Proof.
  unfold requestChannelLastLogInfos.
  assert (H : forall m : gmap Z ChannelLastLogInfoResponse,
    foldl (fun m nodeId => match lastLog nodeId with Some resp => <[nodeId := resp]> m | None => m end) m replicas !! id = Some r <->
    (id ∈ replicas /\ lastLog id = Some r) \/ ((id ∉ replicas \/ lastLog id = None) /\ m !! id = Some r)).
  { induction replicas as [|x replicas IH]; intros m; cbn [foldl]; [set_solver|]. rewrite IH. clear IH.
    rewrite elem_of_cons. destruct (decide (id = x)) as [->|Hne].
    - destruct (decide (x ∈ replicas)), (lastLog x) as [y|]; rewrite ?lookup_insert_eq; naive_solver.
    - assert ((match lastLog x with Some resp => <[x := resp]> m | None => m end) !! id = m !! id) as ->
        by (destruct (lastLog x); by rewrite ?lookup_insert_ne). naive_solver. }
  rewrite H, lookup_empty. naive_solver.
Qed.

(** The answers are of numbers, and a node that reports an older term has an older log. *)
Definition channel_terms_fit lastLog (replicas : list Z) : Prop :=
  forall a i, a ∈ replicas -> lastLog a = Some i ->
    0 <= lr_LogIndex i /\ 0 <= lr_LogTerm i /\ 0 <= lr_Term i /\
    forall b j, b ∈ replicas -> lastLog b = Some j -> lr_Term i < lr_Term j -> older (channel_pos i) (channel_pos j).

(** The leader that is elected has the newest log; there is none only without logs. *)
Lemma channel_newest lastLog replicas :
  channel_terms_fit lastLog replicas -> Forall (fun id => id <> 0) replicas ->
  let infos := requestChannelLastLogInfos lastLog replicas in
  let l := electionNewLeader infos in
  (l = 0 /\ forall id j, infos !! id = Some j -> older (channel_pos j) (0, 0)) \/
  exists i, l <> 0 /\ infos !! l = Some i /\ forall id j, infos !! id = Some j -> older (channel_pos j) (channel_pos i).
Proof.
  intros Ht Hnz. cbv zeta. set (infos := requestChannelLastLogInfos lastLog replicas).
  assert (Hin : forall id j, infos !! id = Some j -> id ∈ replicas /\ lastLog id = Some j) by (intros; by apply lastLogs_in).
  set (zero := mkLastLog 0 0 0). set (known := fun id j => (id = 0 /\ j = zero) \/ infos !! id = Some j).
  destruct (foldl_newest channel_pos lr_Term known) with
    (next := fun id c => mkFront id (lr_LogIndex c) (lr_LogTerm c) (lr_Term c)) (f := mkFront 0 0 0 0) (a := 0) (i := zero)
    (l := range 0 infos) as (b & j & [Hb _] & Hj & _ & Hall); [|done|done|by left|..].
  - intros a b i j [[-> ->]|[Ha1 Ha2]%Hin] [[-> ->]|[Hb1 Hb2]%Hin]; cbn.
    + lia.
    + destruct (Ht b j Hb1 Hb2) as (? & ? & ? & _). intros _. unfold older. cbn. lia.
    + destruct (Ht a i Ha1 Ha2) as (? & ? & ? & _). lia.
    + destruct (Ht a i Ha1 Ha2) as (_ & _ & _ & H). by apply (H b).
  - apply Forall_forall. intros [id c] Hc%in_range. by right.
  - assert (El : electionNewLeader infos = b).
    { rewrite <-Hb. unfold electionNewLeader. f_equal. generalize (mkFront 0 0 0 0). generalize (range 0 infos).
      induction l as [|[x y] l IH]; intros f; simpl; [done|]. apply IH. }
    assert (Hall' : forall id c, infos !! id = Some c -> older (channel_pos c) (channel_pos j))
      by (intros id c Hc; apply (Hall (id, c)); by apply in_range).
    rewrite El. destruct Hj as [[-> ->]|Hj]; [left; by split|]. right. exists j. split; [|done].
    rewrite Forall_forall in Hnz. apply Hnz. by apply (Hin b j).
Qed.

(** [vs] have answered, a majority, and [l] has the newest log of them. *)
Definition channel_elects (cfg : CConfig) lastLog (c : ChannelClusterConfig) (l : Z) : Prop :=
  exists vs i, NoDup vs /\ cl_ReplicaMaxCount c / 2 + 1 <= len vs /\ l ∈ vs /\ lastLog l = Some i /\
    forall v, v ∈ vs -> v ∈ cl_Replicas c /\ nodeOnline cfg v = true /\
      exists j, lastLog v = Some j /\ older (channel_pos j) (channel_pos i).

Lemma switch_elects cfg lastLog c c' :
  channel_terms_fit lastLog (cl_Replicas c) -> Forall (fun id => id <> 0) (cl_Replicas c) ->
  switchLeaderIfNeed cfg lastLog c = Some c' ->
  c' = {| c with cl_LeaderId := cl_LeaderId c'; cl_Term := u32 (cl_Term c + 1) |} /\
  (cl_LeaderId c = 0 \/ nodeOnline cfg (cl_LeaderId c) = false) /\ channel_elects cfg lastLog c (cl_LeaderId c').
Proof.
  intros Ht Hnz. unfold switchLeaderIfNeed.
  destruct (negb (cl_LeaderId c =? 0) && nodeOnline cfg (cl_LeaderId c)) eqn:Eoff; [done|].
  set (online := List.filter (nodeOnline cfg) (cl_Replicas c)).
  assert (Ho : forall x, x ∈ online <-> x ∈ cl_Replicas c /\ nodeOnline cfg x = true).
  { intros x. apply in_filter. }
  set (infos := requestChannelLastLogInfos lastLog online).
  destruct (Z.of_nat (size infos) =? 0); [done|]. destruct (Z.ltb_spec (Z.of_nat (size infos)) (cl_ReplicaMaxCount c / 2 + 1)); [done|].
  destruct (channel_newest lastLog online) as [[E _]|(i & Hl & Hi & Hnew)].
  - intros a i [Ha _]%Ho Hi. destruct (Ht a i Ha Hi) as (? & ? & ? & H'). split_and!; [done..|].
    intros b j [Hb _]%Ho. by apply H'.
  - rewrite Forall_forall in Hnz. apply Forall_forall. intros x [Hx _]%Ho. by apply Hnz.
  - fold infos in E. by rewrite E.
  - fold infos in Hl, Hi, Hnew. rewrite (proj2 (Z.eqb_neq _ 0) Hl). intros [= <-]. cbn. split; [done|]. split.
    { apply andb_false_iff in Eoff as [E%negb_false_iff%Z.eqb_eq|E]; [by left|by right]. }
    exists (map fst (map_to_list infos)), i. split; [apply NoDup_fst_map_to_list|].
    assert (Hv : forall v, v ∈ map fst (map_to_list infos) <-> is_Some (infos !! v)).
    { intros v. rewrite list_elem_of_fmap. split.
      - intros ([x y] & -> & Hx%elem_of_map_to_list). by exists y.
      - intros [y Hy]. exists (v, y). split; [done|]. by apply elem_of_map_to_list. }
    split; [rewrite length_map, length_map_to_list; done|]. split; [apply Hv; by exists i|].
    split; [by apply lastLogs_in in Hi as [_ Hi]|]. intros v [j Hj]%Hv. pose proof Hj as [Hx%Ho Hlog]%lastLogs_in.
    split; [apply Hx|]. split; [apply Hx|]. exists j. split; [done|by eapply Hnew].
Qed.

(** Learners are new nodes, as many as there is room for. *)
Lemma addLearners_spec c ids :
  NoDup (cl_Learners c ++ ids) -> (forall id, id ∈ ids -> id ∉ cl_Replicas c) ->
  (ids <> [] -> len (cl_Learners c) + len (cl_Replicas c) < cl_ReplicaMaxCount c) ->
  exists more, (forall id, id ∈ more -> id ∈ ids) /\ NoDup (cl_Learners c ++ more) /\
    (ids <> [] -> len (cl_Learners c ++ more) + len (cl_Replicas c) <= cl_ReplicaMaxCount c) /\
    let c' := addLearners c ids in
    c' = {| c with cl_Learners := cl_Learners c ++ more; cl_MigrateFrom := cl_MigrateFrom c'; cl_MigrateTo := cl_MigrateTo c' |}.
Proof.
  revert c. induction ids as [|id ids IH]; intros c Hn Hr Hlen; cbn [addLearners].
  { exists []. rewrite app_nil_r in *. split; [set_solver|]. split; [done|]. split; [done|]. by destruct c. }
  specialize (Hlen ltac:(done)). set (c1 := {| c with cl_Learners := cl_Learners c ++ [id] |}). cbn [cl_ReplicaMaxCount cl_Learners cl_Replicas].
  rewrite length_app. cbn [length]. destruct (Z.leb_spec (cl_ReplicaMaxCount c) (Z.of_nat (length (cl_Learners c) + 1) + len (cl_Replicas c))).
  - exists [id]. split; [set_solver|]. split; [|split; [intros _; rewrite length_app; cbn; lia|done]].
    rewrite NoDup_app in Hn |- *. destruct Hn as (H1 & H2 & H3). split; [done|]. split; [set_solver|]. apply NoDup_singleton.
  - match goal with |- context [addLearners ?x ids] => set (c2 := x) end.
    destruct (IH c2) as (more & H1 & H2 & H3 & H4).
    + cbn. by rewrite <-app_assoc.
    + intros x Hx. apply Hr. by right.
    + intros _. cbn. rewrite length_app. cbn. lia.
    + exists (id :: more). replace (cl_Learners c ++ id :: more) with (cl_Learners c2 ++ more) by (cbn; by rewrite <-app_assoc).
      split; [intros x [->|Hx]%elem_of_cons; [left|right; by apply H1]|]. split; [done|]. split; [|done].
      intros _. destruct ids as [|y ids]; [|by apply H3]. assert (more = []) as ->
        by (destruct more as [|z more]; [done|]; by destruct (not_elem_of_nil z (H1 z (list_elem_of_here _ _)))).
      rewrite app_nil_r. cbn. rewrite length_app. cbn. lia.
Qed.

(** The nodes that may vote. *)
Abbreviation voter_ids cfg := (map nd_Id (allowVoteAndJoinedOnlineNodes cfg)).

Lemma voter_ids_nodup cfg : config_wf cfg -> NoDup (voter_ids cfg).
Proof.
  intros [H _ _ _ _ _]. by apply NoDup_map_filter.
Qed.

Lemma join_spec cfg shuffle c c' :
  config_wf cfg -> (forall l, shuffle l ≡ₚ l) -> channel_wf c -> joinNewRepliceIfNeed cfg shuffle c = Some c' ->
  channel_wf c' /\ (forall id, id ∈ cl_Learners c' -> id ∈ voter_ids cfg) /\
  c' = {| c with cl_Learners := cl_Learners c'; cl_MigrateFrom := cl_MigrateFrom c'; cl_MigrateTo := cl_MigrateTo c' |}.
Proof.
  intros Hw Hsh [H1 H2 H3 H4 H5]. unfold joinNewRepliceIfNeed.
  destruct (Z.leb_spec (cl_ReplicaMaxCount c) (len (cl_Replicas c))) as [|Hmax]; [done|].
  destruct (Z.ltb_spec 0 (len (cl_Learners c))) as [|Hl]; [done|]. destruct (len _ =? 0); [done|]. destruct (_ <=? _); [done|].
  assert (Hnil : cl_Learners c = []) by (destruct (cl_Learners c); [done|cbn in Hl; lia]).
  set (ids := List.filter _ _).
  assert (Hids : forall id, id ∈ shuffle ids -> id ∈ voter_ids cfg /\ id ∉ cl_Replicas c).
  { intros id. rewrite Hsh. unfold ids. rewrite in_filter, negb_true_iff. intros [Hi Hc]. split; [done|].
    intros Hin. apply not_true_iff_false in Hc. by apply Hc, ArrayContainsUint64_spec. }
  destruct (addLearners_spec c (shuffle ids)) as (more & A1 & A2 & A3 & A4).
  - rewrite Hnil, Hsh. cbn. unfold ids. rewrite <-(list_fmap_id (List.filter _ _)). apply NoDup_map_filter. rewrite list_fmap_id. by apply voter_ids_nodup.
  - intros id Hi. by apply Hids.
  - intros _. rewrite Hnil. cbn. lia.
  - cbv zeta in A4. intros [= <-]. rewrite A4. cbn. rewrite Hnil in *. cbn in *. split_and!; [|intros id Hi; by apply Hids, A1|done].
    split; cbn; try done; [intros id Hi; by apply Hids, A1|]. destruct (shuffle ids) as [|x l]; [|rewrite Z.add_comm; by apply A3].
    assert (more = []) as -> by (destruct more as [|z more]; [done|]; by destruct (not_elem_of_nil z (A1 z (list_elem_of_here _ _)))). cbn. lia.
Qed.

Lemma chooseReplicas_spec nodeId count nodes acc :
  NoDup nodes -> NoDup acc -> (forall x, x ∈ nodes -> x ∈ acc -> x = nodeId) -> nodeId ∈ acc -> len acc <= Z.max 1 count ->
  let r := chooseReplicas nodeId count nodes acc in
  NoDup r /\ nodeId ∈ r /\ len r <= Z.max 1 count /\ forall x, x ∈ r -> x ∈ acc \/ x ∈ nodes.
Proof.
  cbv zeta. intros Hn. revert acc. induction Hn as [|id nodes Hid _ IH]; intros acc Ha Hd Hm Hl; cbn [chooseReplicas]; [naive_solver|].
  destruct (Z.eqb_spec id nodeId) as [->|Hne].
  { destruct (IH acc) as (? & ? & ? & Hx); [done|set_solver|done|done|]. split_and!; [done..|]. intros x Hin. destruct (Hx x Hin); set_solver. }
  destruct (Z.leb_spec count (len acc)); [naive_solver|].
  destruct (IH (acc ++ [id])) as (? & ? & ? & Hx).
  - apply NoDup_app. split_and!; [done| |apply NoDup_singleton]. intros x Hx Hin. apply list_elem_of_singleton in Hin as ->. apply Hne, Hd; [left|done].
  - intros x Hx [Hin|Hin]%elem_of_app; [apply Hd; [by right|done]|]. apply list_elem_of_singleton in Hin as ->. done.
  - set_solver.
  - rewrite length_app. cbn. lia.
  - split_and!; [done..|]. intros x Hin. destruct (Hx x Hin); set_solver.
Qed.

Lemma create_spec opts cfg shuffle createdAt updatedAt channelId channelType c :
  config_wf cfg -> (forall l, shuffle l ≡ₚ l) -> 1 <= o_ChannelMaxReplicaCount opts < two16 ->
  createChannelClusterConfig opts cfg shuffle createdAt updatedAt channelId channelType = Some c ->
  channel_wf c /\ cl_ChannelId c = channelId /\ cl_ChannelType c = channelType /\ cl_Term c = 1 /\ cl_LeaderId c = o_NodeId opts /\
  forall id, id ∈ cl_Replicas c -> id = o_NodeId opts \/ id ∈ voter_ids cfg.
Proof.
  intros Hw Hsh Hc. unfold createChannelClusterConfig. destruct (len _ =? 0); [done|]. intros [= <-]. cbn.
  destruct (chooseReplicas_spec (o_NodeId opts) (o_ChannelMaxReplicaCount opts) (shuffle (voter_ids cfg)) [o_NodeId opts])
    as (A1 & A2 & A3 & A4).
  - rewrite Hsh. by apply voter_ids_nodup.
  - apply NoDup_singleton.
  - set_solver.
  - left.
  - cbn. lia.
  - split_and!; try done.
    + split; cbn; [done|constructor|set_solver|done|]. rewrite u16_small by (split; lia). lia.
    + intros id Hin. destruct (A4 id Hin) as [Hin'|Hin']; [left; by apply list_elem_of_singleton|]. right. by rewrite Hsh in Hin'.
Qed.
End Channels.

(** ** Answers over the network *)

(** What [honest] asks of other nodes is what a request gets, for as many slots as fit a
    message: the answer of the node itself, or none. *)
Lemma request_is_honest {W : WkProto} {WL : WkProtoLaws W} {S} {N : RpcNode S} fates hops (net : gmap Z S) info id s ids net' r :
  net !! id = Some s -> r_NodeId s = id -> is_u64 id -> ids_fit ids ->
  r_slotInfos s ids = (s, omap (info id) ids) -> slotInfos_fit (omap (info id) ids) ->
  RequestSlotLastLogInfo (deliver fates (Datatypes.S hops)) net id (mkSlotLogReq ids) = (net', Some r) ->
  net' = net /\ r = mkSlotLogResp id (omap (info id) ids).
Proof.
  intros Hs Hid Hu Hf Hi Hif E.
  destruct (client_ends fates hops net id s (SlotLogs ids) Hs Hf) as [He _].
  { cbn. rewrite Hi. cbn. intros a [= <-]. by rewrite Hid. }
  cbn [client] in He. rewrite E in He. unfold mapped in He. cbn [fst snd] in He. cbn [local] in He. rewrite Hi, Hid in He.
  inversion He; subst. cbn. by rewrite insert_id.
Qed.

(** A node answers for the slots that have a raft and a log storage. *)
Lemma slotInfos_omap {DB} {W : WkProto} {P : WkKv.Pebble DB} (s : @SlotServer.SlotServer DB) (info : Z -> option SlotInfo) ids :
  (forall id, id ∈ ids -> slotInfo s id = Ok (info id)) -> slotInfos s ids = Ok (omap info ids).
Proof.
  induction ids as [|id ids IH]; intros H; [done|]. cbn [slotInfos]. rewrite (H id) by left. cbn [res_bind].
  rewrite IH by (intros x Hx; apply H; by right). cbn. by destruct (info id).
Qed.

(** ** The configuration of a channel *)

Section ChannelConfig.
Context {R : MapRange} {RL : MapRangeLaws R} {St : Type}.
Context (trimSpace : string -> string) (opts : COptions) (cfg : CConfig) (shuffle : list Z -> list Z) (createdAt updatedAt : Z).
Context (env : ChannelEnv St).

(** What the database has of the channel. *)
Definition existing : option ChannelClusterConfig :=
  match ce_get env with
  | Some (Some c) => if bool_decide (trimSpace (cl_ChannelId c) = "") then None else Some c
  | _ => None
  end.

(** What is returned was saved, with the version it got. *)
Definition saved (st st' : St) (c : ChannelClusterConfig) : Prop :=
  exists c0 version, ce_save env st c0 = (st', Some version) /\ c = {| c0 with cl_ConfVersion := version |}.

(** A configuration that was there: it is as it was, or it was saved; the replicas are the
    same, and the leader changes only with the term. *)
Definition kept (st st' : St) (c c' : ChannelClusterConfig) : Prop :=
  cl_Replicas c' = cl_Replicas c /\ ((st' = st /\ c' = c) \/ saved st st' c') /\
  ((cl_LeaderId c' = cl_LeaderId c /\ cl_Term c' = cl_Term c) \/
   (cl_Term c' = u32 (cl_Term c + 1) /\ (cl_LeaderId c = 0 \/ nodeOnline cfg (cl_LeaderId c) = false) /\
    channel_elects cfg (ce_lastLog env) c (cl_LeaderId c'))).

(** A new one: led by this node, in the first term. *)
Definition created (st st' : St) (channelId : string) (channelType : Z) (c' : ChannelClusterConfig) : Prop :=
  saved st st' c' /\ cl_ChannelId c' = channelId /\ cl_ChannelType c' = channelType /\ cl_Term c' = 1 /\
  cl_LeaderId c' = o_NodeId opts /\
  forall id, id ∈ cl_Replicas c' -> id = o_NodeId opts \/ id ∈ map nd_Id (allowVoteAndJoinedOnlineNodes cfg).

Lemma saveConfig_saved st c st' c' :
  saveConfig env st c = (st', Some c') -> saved st st' c' /\ c' = {| c with cl_ConfVersion := cl_ConfVersion c' |}.
Proof.
  unfold saveConfig. destruct (ce_save env st c) as [st1 [v|]] eqn:E; [|done]. intros [= <- <-].
  split; [by exists c, v|done].
Qed.

Lemma version_wf c v : channel_wf c -> channel_wf {| c with cl_ConfVersion := v |}.
Proof. intros []. by split. Qed.

(** What joining and switching do to a configuration. *)
Lemma repaired_wf c :
  config_wf cfg -> (forall l, shuffle l ≡ₚ l) -> channel_wf c -> Forall (fun id => id <> 0) (cl_Replicas c) ->
  channel_terms_fit (ce_lastLog env) (cl_Replicas c) ->
  let c1 := default c (joinNewRepliceIfNeed cfg shuffle c) in
  let c2 := default c1 (switchLeaderIfNeed cfg (ce_lastLog env) c1) in
  channel_wf c2 /\ cl_Replicas c2 = cl_Replicas c /\
  ((cl_LeaderId c2 = cl_LeaderId c /\ cl_Term c2 = cl_Term c) \/
   (cl_Term c2 = u32 (cl_Term c + 1) /\ (cl_LeaderId c = 0 \/ nodeOnline cfg (cl_LeaderId c) = false) /\
    channel_elects cfg (ce_lastLog env) c (cl_LeaderId c2))).
Proof.
  intros Hw Hsh Hc Hnz Ht. cbv zeta. set (c1 := default c (joinNewRepliceIfNeed cfg shuffle c)).
  assert (H1 : channel_wf c1 /\ cl_Replicas c1 = cl_Replicas c /\ cl_LeaderId c1 = cl_LeaderId c /\ cl_Term c1 = cl_Term c /\
               cl_ReplicaMaxCount c1 = cl_ReplicaMaxCount c).
  { subst c1. destruct (joinNewRepliceIfNeed cfg shuffle c) as [c'|] eqn:E; [|done].
    destruct (join_spec _ _ _ _ Hw Hsh Hc E) as (H & _ & E'). split; [done|]. by rewrite E'. }
  destruct H1 as (Hc1 & Er & El & Et & Em). clearbody c1.
  destruct (switchLeaderIfNeed cfg (ce_lastLog env) c1) as [c2|] eqn:E; cbn [default]; [|by rewrite Er; auto].
  apply switch_elects in E as (E & Hoff & He); [|by rewrite Er..]. destruct He as (vs & i & V1 & V2 & V3 & V4 & V5).
  assert (cl_LeaderId c2 ∈ cl_Replicas c1) by (by apply V5). rewrite E. cbn. split_and!.
  - destruct Hc1. by split.
  - done.
  - right. rewrite <-El, <-Et. split_and!; [done..|]. exists vs, i. rewrite <-Em, <-Er. done.
Qed.
End ChannelConfig.

(** ** Claims *)

Module ElectionProps.
Import ClusterProps.ClusterProps EventProps.

(** C30. Electing leaders of slots by their logs, in whatever order answers arrive and maps
    are visited, and whichever requests fail, provided that the nodes answer truthfully,
    slot ids and the replicas of a slot are distinct, and a replica that reports an older
    term of the slot has no newer log ([terms_fit_logs]; without it the leader depends on
    the order of a map: [slot_election_depends_on_order]). A slot that is proposed was a
    candidate and differs only in its election; its leader and a majority of its possible
    replicas have voted, which are online and have the current configuration, and no voter
    has a newer log; so the leader has every log that a majority of the replicas has stored.
    A candidate for which enough replicas answer gets a new leader, unless its old leader
    has the newest log. *)
Theorem slot_election_keeps_logs {R : MapRange} {RL : MapRangeLaws R} opts versions own remote arrive info cfg slots :
  honest (o_NodeId opts) info own remote -> (forall l, arrive l ≡ₚ l) -> 0 <= o_SlotMaxReplicaCount opts ->
  slots_distinct slots -> terms_fit_logs info slots ->
  let proposed := handleSlotElection opts versions own remote arrive cfg slots in
  (forall ns, ns ∈ proposed ->
     exists s vs i, s ∈ slots /\ is_candidate s = true /\ ns = electedSlot s (sl_Leader ns) /\
       sl_Leader ns <> sl_Leader s /\ voted opts versions cfg s vs /\ newest info s vs (sl_Leader ns) i /\
       forall p stored, len (sl_Replicas s) <= o_SlotMaxReplicaCount opts -> NoDup stored ->
         (forall v, v ∈ stored -> v ∈ sl_Replicas s) -> len (sl_Replicas s) < 2 * len stored ->
         (forall v j, v ∈ stored -> info v (sl_Id s) = Some j -> older p (pos_of j)) -> older p (pos_of i)) /\
  (forall s vs, (forall t v, t ∈ slots -> asks cfg v t = true -> cc_Version cfg <= versions v) ->
     s ∈ slots -> is_candidate s = true -> voted opts versions cfg s vs ->
     (forall v, v ∈ vs -> reachable opts remote v /\ is_Some (info v (sl_Id s))) ->
     (exists ns, ns ∈ proposed /\ sl_Id ns = sl_Id s) \/
     (exists vs' i, voted opts versions cfg s vs' /\ newest info s vs' (sl_Leader s) i /\ forall v, v ∈ vs -> v ∈ vs')).
Proof.
  intros Hh Ha Hmax Hd Ht. cbv zeta. split.
  - intros ns Hns. destruct (election_elects opts versions own remote arrive info Hh Ha cfg slots ns Hmax Hd Ht Hns)
      as (s & vs & i & Hs & Hc & E & Hne & Hv & Hn). exists s, vs, i. split_and!; try done.
    intros p stored Hlen. apply (newest_keeps opts versions info cfg s vs (sl_Leader ns) i p stored Hv Hn); [|done].
    destruct Hd as [_ Hr]. rewrite Forall_forall in Hr. by apply (Hr s).
  - intros s vs. by apply election_progress.
Qed.

(** Three nodes, the first of which has gone; the second has one log more than the third. *)
Definition node_gone : CNode := {| (demo_node 1) with nd_Online := false |}.
Definition gone : CConfig :=
  {| zeroConfig with cc_Nodes := [ node_gone; demo_node 2; demo_node 3];
       cc_Slots := [mkSlot 0 1 4 [1; 2; 3] [] 0 0 3 SlotStatusCandidate] |}.
Definition logs_of (id slotId : Z) : option SlotInfo :=
  if id =? 2 then Some (mkSlotInfo slotId 8 4 4) else if id =? 3 then Some (mkSlotInfo slotId 7 4 4) else None.
Definition own_logs (ids : list Z) : list SlotInfo := omap (logs_of 2) ids.
Definition remote_logs (id : Z) (ids : list Z) : option SlotLogInfoResp := Some (mkSlotLogResp id (omap (logs_of id) ids)).
Definition elect_opts : COptions := {| demo_opts with o_NodeId := 2; o_SlotMaxReplicaCount := 3 |}.

Lemma demo_honest : honest 2 logs_of own_logs remote_logs.
Proof.
  split; [done|by intros ? ? ? [= <-]|]. intros id sid i. unfold logs_of. by repeat case_match; intros [= <-].
Qed.

Lemma demo_distinct : slots_distinct (cc_Slots gone).
Proof.
  split; [apply (bool_decide_unpack _); by vm_compute|]. apply Forall_singleton.
  split; [apply (bool_decide_unpack _); by vm_compute|repeat constructor; done].
Qed.

Lemma demo_terms_fit : terms_fit_logs logs_of (cc_Slots gone).
Proof.
  intros s a b i j _ _ _. unfold logs_of. repeat case_match; intros [= <-] [= <-]; cbn; lia.
Qed.

Lemma slot_election_keeps_logs_witness :
  handleSlotElection elect_opts (fun _ => 0) own_logs remote_logs id gone (cc_Slots gone) =
    [mkSlot 0 2 5 [1; 2; 3] [] 0 0 0 SlotStatusNormal] /\
  exists s vs i, voted elect_opts (fun _ => 0) gone s vs /\ newest logs_of s vs 2 i.
Proof.
  split; [by vm_compute|].
  destruct (slot_election_keeps_logs elect_opts (fun _ => 0) own_logs remote_logs id logs_of gone (cc_Slots gone)) as [H _].
  - exact demo_honest.
  - done.
  - done.
  - exact demo_distinct.
  - exact demo_terms_fit.
  - destruct (H (mkSlot 0 2 5 [1; 2; 3] [] 0 0 0 SlotStatusNormal)) as (s & vs & i & _ & _ & _ & _ & Hv & Hn & _).
    { apply (bool_decide_unpack _). by vm_compute. }
    by exists s, vs, i.
Defined.

(** What a round is given: what becomes of the proposals and requests, and who leads. *)
Record round_input := mkRoundInput {
  ri_ok : CServer -> ccmd -> option (Log * Z);
  ri_versions : Z -> Z;
  ri_own : list Z -> list SlotInfo;
  ri_remote : Z -> list Z -> option SlotLogInfoResp;
  ri_arrive : list SlotLogInfoResp -> list SlotLogInfoResp;
  ri_rand : nat -> Z -> Z;
  ri_now : Z;
  ri_leaderId : Z;
  ri_isLeader : bool
}.
Definition round_of {R : MapRange} (trim : string -> string) (opts : COptions) (s : CServer) (i : round_input) : res CServer :=
  handleEvents (proposes (ri_ok i)) (OnSlotElection opts (ri_versions i) (ri_own i) (ri_remote i) (ri_arrive i) (proposes (ri_ok i)))
    trim (ri_rand i) (ri_now i) (ri_leaderId i) (ri_isLeader i) opts s.
Fixpoint rounds {R : MapRange} (trim : string -> string) (opts : COptions) (s : CServer) (inputs : list round_input) : res CServer :=
  match inputs with
  | [] => Ok s
  | i :: inputs => let! s := round_of trim opts s i in rounds trim opts s inputs
  end.

(** C32. Rounds of events, with the elections of the slots. A configuration that is there
    has voters, slots with replicas, and no joining node among the replicas
    ([events_ready]), and keeps to the invariant of the configuration: rounds that follow
    one another keep this, also from a server without a configuration, for which the first
    round makes one. So no round panics (without voters or replicas the averages divide by
    zero), whichever proposals and requests fail, whatever nodes answer, whoever leads and
    in whatever order maps are visited. The replica count is positive, there are fewer than
    2^32 initial nodes, and random numbers are below their bound. Who leads does not change
    within a round. *)
Theorem round_with_elections {R : MapRange} {RL : MapRangeLaws R} trim opts s inputs :
  round_wf s -> 0 < o_SlotMaxReplicaCount opts < two32 -> Z.of_nat (size (o_InitNodes opts)) < two32 ->
  Forall (fun i => forall k n, 0 < n -> 0 <= ri_rand i k n < n) inputs ->
  returns (rounds trim opts s inputs) round_wf.
Proof.
  intros Hs Ho Hn His. revert s Hs. induction His as [|i inputs Hi _ IH]; intros s Hs; cbn [rounds]; [by exists s|].
  eapply returns_bind; [|exact IH]. apply round_ok; try done. intros s' Hs' Hr'. by apply slot_election_wf.
Qed.

(** Two rounds of a server without a configuration, of which the first makes one. *)
Definition demo_input : round_input := mkRoundInput all_applied (fun _ => 100) own_logs remote_logs id first_rand 7 2 true.
Definition fresh_server : CServer := mkCServer 2 zeroConfig false [].

Lemma round_with_elections_witness : round_wf fresh_server /\
  returns (rounds id elect_opts fresh_server [demo_input; demo_input]) (fun s' => round_wf s' /\ events_ready (cs_cfg s')).
Proof.
  assert (Hw : round_wf fresh_server).
  { split; [split; [|constructor]|by intros [|[]]]. split; cbn; try done; constructor. }
  split; [exact Hw|]. destruct (round_with_elections id elect_opts fresh_server [demo_input; demo_input]) as (s' & E & Hs').
  - exact Hw.
  - cbn. lia.
  - by vm_compute.
  - repeat (apply Forall_cons_2; [|]); [intros k n Hn; cbn; unfold first_rand; lia..|apply Forall_nil_2].
  - exists s'. split; [exact E|]. split; [exact Hs'|]. apply Hs'. left. revert E. clear Hs'.
    assert (Hi : match rounds id elect_opts fresh_server [demo_input; demo_input] with Ok s => cs_inited s | _ => false end = true) by (vm_compute; reflexivity).
    intros E. by rewrite E in Hi.
Defined.

(** C31. The configuration of a channel. Only the leader of the channel's slot answers. What
    it returns is well-formed: distinct replicas, the leader among them, learners apart from
    them, and no more of both than allowed. A new configuration is led by this node in the
    first term. One that was there, if it was well-formed and its replicas are not zero,
    keeps its replicas, and keeps leader and term, or gets the next term and, as its leader
    was gone, the replica with the newest log of those that answered, which are a majority;
    for this a replica that reports an older term must have no newer log
    ([channel_terms_fit]; otherwise the leader depends on the order of a map:
    [channel_election_depends_on_order]). What is returned is what is stored. There is an
    answer whenever there are voters and the database and the store do not fail. *)
Theorem channel_config_promises {R : MapRange} {RL : MapRangeLaws R} {St} trimSpace opts cfg shuffle createdAt updatedAt
    (env : ChannelEnv St) st channelId channelType :
  config_wf cfg -> (forall l, shuffle l ≡ₚ l) -> 1 <= o_ChannelMaxReplicaCount opts < two16 -> trimSpace "" = "" ->
  (forall c, existing trimSpace env = Some c ->
     channel_wf c /\ Forall (fun id => id <> 0) (cl_Replicas c) /\ channel_terms_fit (ce_lastLog env) (cl_Replicas c)) ->
  let r := getOrCreateChannelClusterConfigFromLocal trimSpace opts cfg shuffle createdAt updatedAt env st channelId channelType in
  (ce_slotLeader env = Some (o_NodeId opts) -> is_Some (ce_get env) -> 0 < allowVoteAndJoinedOnlineNodeCount cfg ->
   (forall c, is_Some (snd (ce_save env st c))) -> is_Some (snd r)) /\
  (forall c', snd r = Some c' ->
     ce_slotLeader env = Some (o_NodeId opts) /\ channel_wf c' /\
     match existing trimSpace env with
     | Some c => kept cfg env st (fst r) c c'
     | None => created opts cfg env st (fst r) channelId channelType c'
     end).
Proof.
  intros Hw Hsh Hcount Htrim Hex. cbv zeta. unfold getOrCreateChannelClusterConfigFromLocal.
  destruct (ce_slotLeader env) as [l|]; [|done]. destruct (Z.eqb_spec (o_NodeId opts) l) as [<-|Hne]; cbn [negb].
  2: { split; [intros [= ?]; congruence|done]. }
  unfold existing in *. destruct (ce_get env) as [g|]; [|split; [by intros _ []|done]].
  assert (Hsave : forall c, (forall c, is_Some (snd (ce_save env st c))) -> is_Some (snd (saveConfig env st c))).
  { intros c H. specialize (H c). unfold saveConfig. destruct (ce_save env st c) as [st1 []]; [done|by destruct H]. }
  assert (Hnew : (match g with Some c => if bool_decide (trimSpace (cl_ChannelId c) = "") then None else Some c | None => None end)
     = if bool_decide (trimSpace (cl_ChannelId (default EmptyChannelClusterConfig g)) = "") then None else g).
  { destruct g; [done|]. cbn. by rewrite Htrim. }
  rewrite Hnew in *. clear Hnew. case_bool_decide as Hid.
  - destruct (createChannelClusterConfig _ _ _ _ _ _ _) as [c|] eqn:E.
    + split; [intros; by apply Hsave|]. intros c' Hc'. destruct (saveConfig env st c) as [st' r] eqn:Es. cbn in Hc'. subst r.
      apply saveConfig_saved in Es as [Hs Ec]. apply create_spec in E as (H1 & H2 & H3 & H4 & H5 & H6); [|done..].
      split; [done|]. rewrite Ec. split; [by apply version_wf|]. rewrite Ec in Hs. done.
    + split; [|done]. intros _ _ Hv _. unfold createChannelClusterConfig in E.
      unfold allowVoteAndJoinedOnlineNodeCount in Hv. rewrite (proj2 (Z.eqb_neq _ 0)) in E by lia. done.
  - destruct g as [c|]; [|by destruct Hid]. cbn [default id] in *. destruct (Hex c eq_refl) as (Hc & Hnz & Ht).
    pose proof (repaired_wf cfg shuffle env c Hw Hsh Hc Hnz Ht) as HA. cbv zeta in HA.
    destruct (joinNewRepliceIfNeed cfg shuffle c) as [cj|] eqn:Ej, (switchLeaderIfNeed cfg (ce_lastLog env) _) as [c2|] eqn:E2;
      cbn [default id] in *; destruct HA as (A1 & A2 & A3); rewrite ?bool_decide_eq_true_2 by done; cbn [orb];
      rewrite ?(bool_decide_eq_false_2 (is_Some None)) by (by intros []); cbn [orb].
    1-3: (split; [intros; by apply Hsave|]; intros c' Hc'; destruct (saveConfig env st _) as [st' r] eqn:Es; cbn in Hc'; subst r;
      apply saveConfig_saved in Es as [Hs Ec]; split; [done|]; rewrite Ec; rewrite Ec in Hs; split; [by apply version_wf|];
      split; [done|]; split; [by right|done]).
    split; [done|]. intros c' [= <-]. split; [done|]. split; [done|]. split; [done|]. split; [by left|done].
Qed.

(** A channel whose leader has gone. *)
Definition orphan : ChannelClusterConfig :=
  {| EmptyChannelClusterConfig with cl_ChannelId := "c"; cl_ChannelType := 2; cl_ReplicaMaxCount := 3; cl_Replicas := [1; 2; 3];
       cl_LeaderId := 1; cl_Term := 4 |}.
Definition channel_logs (id : Z) : option ChannelLastLogInfoResponse :=
  if id =? 2 then Some (mkLastLog 7 4 4) else if id =? 3 then Some (mkLastLog 9 4 4) else None.
Definition orphan_env : ChannelEnv Z := mkChannelEnv Z (Some 2) (Some (Some orphan)) (fun st _ => (st + 1, Some (st + 1))) channel_logs.

Lemma gone_wf : config_wf gone.
Proof.
  split; cbn; [by apply (bool_decide_unpack _); vm_compute..| | |]; [set_solver|done|]. apply Forall_singleton. split; set_solver.
Qed.

Lemma channel_config_promises_witness :
  snd (getOrCreateChannelClusterConfigFromLocal id elect_opts gone id 5 5 orphan_env 10 "c" 2) =
    Some {| orphan with cl_LeaderId := 3; cl_Term := 5; cl_ConfVersion := 11 |} /\
  channel_wf {| orphan with cl_LeaderId := 3; cl_Term := 5; cl_ConfVersion := 11 |}.
Proof.
  split; [by vm_compute|].
  apply (channel_config_promises id elect_opts gone id 5 5 orphan_env 10 "c" 2).
  - apply gone_wf.
  - done.
  - cbn. lia.
  - done.
  - intros c [= <-]. split; [|split].
    + split; cbn; [apply (bool_decide_unpack _); by vm_compute|constructor|set_solver|left|lia].
    + repeat constructor; done.
    + intros a i _. unfold orphan_env, channel_logs; cbn. intros Hi.
      assert (i = mkLastLog 7 4 4 \/ i = mkLastLog 9 4 4) as Hi' by (revert Hi; repeat case_match; naive_solver).
      split_and!; [by destruct Hi' as [->| ->]..|]. intros b j _ Hj.
      assert (j = mkLastLog 7 4 4 \/ j = mkLastLog 9 4 4) as Hj' by (revert Hj; repeat case_match; naive_solver).
      destruct Hi' as [->| ->], Hj' as [->| ->]; cbn; lia.
  - by vm_compute.
Defined.

(** *** Defects *)

(** A candidate whose old leader is back and has the newest log stays a candidate: the leader
    that is elected is the old one, and nothing is proposed, in this round and the next. *)
Definition back : CConfig :=
  {| gone with cc_Nodes := [demo_node 1; demo_node 2; demo_node 3] |}.
Definition logs_back (id slotId : Z) : option SlotInfo := Some (mkSlotInfo slotId (if id =? 1 then 9 else 8) 4 4).
Lemma candidate_stays :
  handleSlotElection elect_opts (fun _ => 0) (omap (logs_back 2)) (fun id ids => Some (mkSlotLogResp id (omap (logs_back id) ids)))
    id back (cc_Slots back) = [].
Proof. by vm_compute. Qed.

(** The other order of a map. *)
#[local] Instance revRange : MapRange := {| range V i m := reverse (map_to_list m) |}.

(** A node that has not stored the configuration of the channel, as it is no replica of the
    slot, reports the term 0.  Whether its log counts then depends on the order of a map: with
    the same answers, the leader is the node with the newest log, or the node without its last
    messages. *)
Lemma channel_election_depends_on_order :
  let infos : gmap Z ChannelLastLogInfoResponse := {[2 := mkLastLog 7 4 4; 3 := mkLastLog 9 4 0]} in
  electionNewLeader (R := listRange) infos <> electionNewLeader (R := revRange) infos.
Proof. by vm_compute. Qed.

(** The same for slots whose replicas have taken over different terms. *)
Lemma slot_election_depends_on_order :
  let infos : gmap Z (gmap Z SlotInfo) := {[2 := {[0 := mkSlotInfo 0 7 4 5]}; 3 := {[0 := mkSlotInfo 0 9 4 4]}]} in
  electionSlotLeaderBySlot (R := listRange) zeroConfig 0 infos 0 <> electionSlotLeaderBySlot (R := revRange) zeroConfig 0 infos 0.
Proof. by vm_compute. Qed.

(** A channel without messages never gets a new leader: no answer is newer than nothing. *)
Lemma empty_channel_keeps_leader {R : MapRange} {RL : MapRangeLaws R} cfg lastLog c :
  (forall v r, lastLog v = Some r -> channel_pos r = (0, 0) /\ 0 <= lr_Term r) -> switchLeaderIfNeed cfg lastLog c = None.
Proof.
  intros H. unfold switchLeaderIfNeed. destruct (_ && _); [done|]. cbv zeta. set (infos := requestChannelLastLogInfos _ _).
  assert (electionNewLeader infos = 0) as ->; [|by repeat case_match].
  unfold electionNewLeader. assert (Hin : forall p, p ∈ range 0 infos -> channel_pos (snd p) = (0, 0) /\ 0 <= lr_Term (snd p)).
  { intros [id r] Hr%in_range. apply lastLogs_in in Hr as [_ Hr]. by apply (H id). }
  induction (range 0 infos) as [|[id r] l IH]; [done|]. cbn [foldl]. destruct (Hin (id, r)) as [[= E1 E2] Ht]; [left|].
  unfold channelCandidate at 2. rewrite E1, E2. cbn in *. destruct (Z.ltb_spec (lr_Term r) 0); [lia|].
  apply IH. intros p Hp. apply Hin. by right.
Qed.

(** Two nodes that join become learners, but only the last one migrates; while there is a
    learner no other node joins. *)
Lemma first_learner_is_left :
  let c := {| orphan with cl_Replicas := [1] |} in
  (fun c => (cl_Learners c, cl_MigrateTo c)) <$> joinNewRepliceIfNeed back id c = Some ([2; 3], 3) /\
  joinNewRepliceIfNeed back id {| c with cl_Replicas := [1; 3]; cl_Learners := [2] |} = None.
Proof. by vm_compute. Qed.
End ElectionProps.
